(* ===== verification/_CoqProject ===== *)
-Q . S2P
Prelude.v
Containers.v
Concurrency.v
Calls.v
Json.v
JsonText.v
Config.v
TcpConnect.v
TlsHello.v
Diagnosis.v
Strategy.v
StrategyStore.v
LiveStats.v
Telemetry.v
Dashboard.v
DashboardText.v
TelemetryWriter.v
TransparentFlow.v
RecoveryPolicy.v
QuicStrategy.v
PacketStrategy.v
CommandLine.v
TrayApp.v
DnsMessage.v
DnsAnswer.v
Resolver.v
DnsProxy.v
SocksHandshake.v
SocksSessions.v
ProcessFilter.v
DivertPacket.v
Interceptor.v
PacketPath.v
DivertEngine.v
EngineLifecycle.v
Main.v
DirectRelay.v
RelayLife.v
RelayThreads.v
TunnelText.v
Files.v
SystemProxy.v
NetworkIdentity.v
HttpRequests.v
WranglerText.v
Wrangler.v
Deployment.v
Setup.v
StartupTask.v
PanelRules.v
Panel.v
Elevation.v
Listener.v
