(* ===== verification/Prelude.v ===== *)
(** * SplitHello: a verification library

    SplitHello is a Windows program that carries TLS connections past middleboxes that
    read the hostname of the ClientHello. It redirects connections to itself (a packet
    driver, or a local proxy), parses the ClientHello, tries an untouched baseline and then
    transformations of it (TLS record splits, TCP and IP level tricks), diagnoses what the
    outcomes mean, and learns per network and host what works. DNS and QUIC are handled so
    that they do not undo this. This library models the C++ code that decides those things
    and proves what makes it correct.

    ** The parts, and the files that model them

    The foundations:

    - [Prelude]: bytes, machine integers at their width, bounds-checked reads and writes,
      network order, decimal text; the tactics and hint databases of the library.
    - [Containers]: [std::unordered_map] as a finite map with an arbitrary iteration order
      (class [MapOrder]), and the eviction idioms the tables share.
    - [Concurrency]: threads over a shared object, their interleavings, and a program logic
      for them.
    - [Calls]: programs of system calls, their runs against every oracle, and a program
      logic with a ledger.
    - [Json] ([src/src/Json.hpp]) and [JsonText]: the key lookup and string codec of the
      settings files, and texts in which a key is found where it was written.

    The connection:

    - [TlsHello] ([TlsHello.hpp], [TlsHello.cpp]): the cursor [Reader], [parseClientHello],
      [classifyServerResponse].
    - [Diagnosis] ([Diagnosis.hpp], [Diagnosis.cpp]): evidence and the verdict [infer].
    - [Strategy] and [StrategyStore] ([Strategy.hpp], [Strategy.cpp]): profiles and
      fragment plans ([buildPlan]); the class [Store] with every operation, its file format
      and the commit protocol between threads.
    - [PacketStrategy] ([PacketStrategy.hpp], [PacketStrategy.cpp]): packet policies, the
      cover ClientHello, segments, IPv4 fragments and the policy registry.
    - [TcpConnect] ([TcpConnect.cpp]): the race of connection attempts.
    - [DirectRelay] ([DirectRelay.cpp]): one connection: collecting the hello, writing it
      under a plan, the probe loop and what it learns, the pump.
    - [RelayLife], [RelayThreads] and [TunnelText] ([DirectRelay.cpp], [Relay.hpp],
      [Relay.cpp], [WsClient.hpp], [WsClient.cpp]): its addresses, sockets and life, and the
      Worker tunnel; the theorems about its threads and handles; what the tunnel carries.
    - [SocksHandshake], [SocksSessions] and [Listener] ([SocksProxy.hpp], [SocksProxy.cpp]):
      the negotiation of a connection; the session table, its threads and handles; opening
      and closing the listening socket.
    - [LiveStats] ([LiveStats.hpp], [LiveStats.cpp]): the shared page of counters.
    - [Telemetry], [Dashboard], [DashboardText] and [TelemetryWriter] ([Telemetry.hpp],
      [Telemetry.cpp]): the history of decisions in its database, the report made of it and
      its text, the queue in front of it and its threads. SQL is translated statement by
      statement; the order in which SQLite visits rows is the class [RowOrder].

    The packets:

    - [TransparentFlow] ([TransparentFlow.hpp], [TransparentFlow.cpp]): the registries that
      connect redirected packets to connections, and the routing decisions.
    - [QuicStrategy] ([QuicStrategy.hpp], [QuicStrategy.cpp]): when QUIC is dropped.
    - [ProcessFilter] ([ProcessFilter.hpp], [ProcessFilter.cpp]): which processes are
      handled: rules, wildcards, socket owners, the decision cache.
    - [DivertPacket] ([WinDivertPacket.cpp]), [Interceptor], [PacketPath], [DivertEngine]
      and [EngineLifecycle] ([WinDivertInterceptor.hpp], [WinDivertInterceptor.cpp]): packet
      variants; what becomes of a packet; the theorems about whole packet paths; the packet
      loop with its retries; start and stop with their handles. The driver is the class
      [WinDivert] with its documented laws.

    DNS:

    - [DnsMessage] ([DnsMessage.hpp], [DnsMessage.cpp]) and [DnsAnswer]: queries and
      responses; what a response answers.
    - [Resolver] ([Dns.hpp], [Dns.cpp]): the caches, single flight and bootstrap, run by
      many threads.
    - [DnsProxy] ([TransparentDnsProxy.hpp], [TransparentDnsProxy.cpp]): receiver, workers
      and their queue on top of the resolver.

    The program around them:

    - [RecoveryPolicy] ([RecoveryPolicy.hpp], [RecoveryPolicy.cpp]): the Worker health latch
      and the restart budget.
    - [Config] ([Config.hpp], [Config.cpp], DPAPI of [Secure.cpp]): the configuration file.
    - [CommandLine] ([CommandLine.hpp], [main.cpp], [TrayApp.cpp]): the options and the
      command lines the processes hand to each other.
    - [TrayApp] ([TrayApp.hpp], [TrayApp.cpp], [EngineExitCodes.hpp]): the controller of the
      engine process.
    - [Main] ([main.cpp]): the roles of the program, the order of its parts, exit codes.
    - [Elevation] ([main.cpp]): the hand-over to an elevated process, and how a Ctrl+C
      reaches it.
    - [StartupTask] ([TrayApp.cpp]): the scheduled task that starts the program with Windows.
    - [PanelRules] and [Panel] ([DashboardPanel.cpp]): what the dashboard lists and saves;
      how it gets its report.
    - [Files] and [SystemProxy] ([FileUtil.cpp], [SystemProxy.hpp], [SystemProxy.cpp]):
      replacing and reading files, and the system proxy with its backup, over a machine with
      files, a registry and a power switch.
    - [NetworkIdentity] ([NetworkIdentity.hpp], [NetworkIdentity.cpp]): the name of the
      network and its cache.
    - [HttpRequests] ([Http.cpp]): one request.
    - [WranglerText], [Wrangler], [Deployment] and [Setup] ([Wrangler.hpp], [Wrangler.cpp],
      [Console.hpp], [Setup.cpp]): what the deployment tool is told and what is read from it;
      child processes and the deployment; the theorems about it; setup and redeployment.

    How they interact: [Main] starts the proxy ([SocksSessions]), the DNS relay
    ([DnsProxy]) and the interceptor ([EngineLifecycle]) and stops them in the opposite
    order; [TrayApp] starts [Main] as the engine with a command line of [CommandLine] and
    reads its exit code. The packet loop ([DivertEngine]) hands each packet to
    [Interceptor], which asks [TransparentFlow], [ProcessFilter], [QuicStrategy] and
    [PacketStrategy]; a reflected connection is accepted by [SocksSessions], negotiated by
    [SocksHandshake] (which claims the flow in [TransparentFlow]) and relayed by
    [DirectRelay], which calls [TlsHello] to parse, [StrategyStore] for the order of
    profiles and to record results, [Strategy] for plans, [PacketStrategy] to arm policies,
    [Diagnosis] for the verdict. [DnsProxy] calls [Resolver], which uses [DnsMessage]. The
    tables of one part never depend on the iteration order of a hash map: all theorems
    about them are proved for every [MapOrder]. [Setup] drives [Wrangler] and verifies with
    a request of [HttpRequests]; [SystemProxy] keeps its backup with [Files]; [Panel] shows
    the report of [Dashboard].

    ** Conventions

    A buffer is a list of octets. [None] of an executable definition is a fault: an access
    outside a buffer, or a loop out of fuel; a C++ [false] or [nullopt] is a value. A record
    is a C++ struct or the state of a class, a definition is a method that takes the state
    and returns the new one. Clock readings, random bytes, results of system calls and what
    other threads do meanwhile are inputs. [uint16_t] to [uint64_t] arithmetic wraps where
    it can ([w8] to [w64]); [size_t] sums of buffer offsets are exact below 2^62. A class
    with a mutex is modelled by its critical sections: where a thread's steps matter as a
    program of [Concurrency], with every interleaving, elsewhere by sequences of sections.
    Code that is mostly system calls is a program of [Calls]. [inet_pton], DPAPI, base64,
    code pages, the driver and the Windows tables are parameters. Log messages are omitted.

    Fuel: every loop that is not structural carries fuel computed from the length of its
    input (the loops advance by at least one byte; the wildcard matcher by a lexicographic
    measure), and each such function has a theorem or lemma that it never runs out. Loops
    that only end when the user stops them ([supervise] of [Main], the packet loop, the
    accept loop) take the number of turns; what is proved holds for every number.

    ** What the theorems show

    - Parsers stay in their buffers and terminate on every input, and mean what they say:
      [parseClientHello], [classifyServerResponse], [parseQuery], [walk] and the functions
      on it, [findValue], [wildcardMatch], the SOCKS5 and CONNECT negotiation, the options;
      verdicts on a prefix are final.
    - What is sent is still the original: TLS records, TCP segments and IP fragments
      reassemble to the client's bytes and cut the hostname; the pump loses nothing, nor
      does the tunnel; the cover hello and DNS answers parse back to what they were built
      from; a reflected connection reaches the server it was meant for, and its packets
      travel both ways as long as it is alive; one turn of the packet loop sends what it
      decided, each once and in order.
    - What is learned is earned: the verdict claims interference exactly on differential
      evidence; the relay calls the store only with justified results; the store promotes
      a winner only after two separated strikes, retires it on a healthy baseline or two
      failures, stays bounded, and its file never rolls back under any interleaving.
    - Nothing is touched without authority: flows, datagrams, policies, QUIC drops and
      intercepted processes each need a matching earlier event; all tables are bounded; the
      shared secret goes to the Worker only.
    - Threads and handles: the resolver and the DNS proxy never deadlock, at most one
      request per name is in flight, sessions, relays, tunnels and engines close every handle
      once and touch none that is closed, a relay and its tunnel never wait in a circle,
      counters are exact under every interleaving.
    - The history: what is in the database was accepted, whole; the queue loses, reorders
      and forgets nothing, [stop] returns; the report adds up and shows records as they were.
    - The processes: interception is up only while its listeners are and can always be
      stopped, the exit code of the engine is the one its parts' answers call for, a stop is
      final, restarts are bounded, command lines and configuration files are read back as
      they were written, and it is known which accepted options have no effect.
    - The machine is left as it was, as far as the system lets it: files are replaced whole
      or not at all, even when the power fails; the settings of the user are in the registry
      or in a readable backup at every moment, and the next start puts them back while the
      registry points at this program; a request, a deployment, the naming of the network and
      the scheduled task give back what they opened, on every path, and a deployment leaves
      only what could not be deleted. The refusals that the code ignores (a flush, a registry
      value, sealing the secret, switching redirects off) are answers of the model, and the
      theorems say what they cost.
    - The shared secret of the Worker reaches nothing but the standard input of one child of
      the pinned tool; a rotated one is sealed and written before it is used; an elevated
      task is registered only where the access check denies a standard user every right to
      change the program.
    - The user is served: the report that was asked for arrives, for the range selected; a
      Ctrl+C reaches the elevated process, under every interleaving of the two.

    ** What is not modelled

    Windows, controls, layout and drawing of the dashboard, icons and menus; texts on the
    console and in logs; Base64 and DPAPI, which are calls of Windows. Sockets, the driver,
    the registry, COM, WinHTTP and child processes appear as calls whose results are inputs,
    constrained by what their documentation says where a theorem needs it. *)

From Stdlib Require Export ZArith Lia Bool.
From stdpp Require Export base tactics list strings gmap sorting.

(** ** Notation scope of the development *)

Declare Scope splithello_scope.
Delimit Scope splithello_scope with sh.
Global Open Scope Z_scope.

(** A byte buffer ([std::vector<uint8_t>], [const uint8_t*] with a length) and a
    [std::string] are both sequences of octets. *)
Abbreviation bytes := (list Z).

(** A call that can fail in two ways: [None] is a fault (an access outside the
    buffer, or a loop that ran out of its fuel), [Some None] is the [false] the
    C++ function returns, [Some (Some x)] its success. *)
Notation "'let?' p ':=' m 'else' e 'in' k" :=
  (match m with
   | None => None
   | Some None => e
   | Some (Some p) => k
   end)
  (at level 10, p strict pattern, m at level 200, e at level 200, k at level 200)
  : splithello_scope.
Global Open Scope splithello_scope.

(** ** Machine integers *)

Definition w8 (z : Z) : Z := z mod 2 ^ 8.
Definition w16 (z : Z) : Z := z mod 2 ^ 16.
Definition w32 (z : Z) : Z := z mod 2 ^ 32.
Definition w64 (z : Z) : Z := z mod 2 ^ 64.

(** [(int32_t)z] *)
Definition i32 (z : Z) : Z :=
  let u := w32 z in if u <? 2 ^ 31 then u else u - 2 ^ 32.

Definition is_byte (z : Z) : Prop := 0 <= z < 256.
Definition all_bytes (d : bytes) : Prop := Forall is_byte d.

(** [std::clamp] *)
Definition clamp (v lo hi : Z) : Z := if v <? lo then lo else if hi <? v then hi else v.

(** ** Lists indexed by [Z] *)

Definition zlen {A} (l : list A) : Z := Z.of_nat (length l).

(** [data[i]]; [None] outside the buffer. *)
Definition rd (d : bytes) (i : Z) : option Z :=
  if i <? 0 then None else d !! Z.to_nat i.

(** [data[i] = v]; [None] outside the buffer. *)
Definition wr (d : bytes) (i v : Z) : option bytes :=
  if (i <? 0) || (zlen d <=? i) then None else Some (<[Z.to_nat i := v]> d).

(** The [n] bytes from offset [i]. *)
Definition slice (d : bytes) (i n : Z) : bytes := take (Z.to_nat n) (drop (Z.to_nat i) d).

(** Two and four bytes in network order. *)
Definition rd16 (d : bytes) (i : Z) : option Z :=
  a ← rd d i; b ← rd d (i + 1); Some (w16 (Z.lor (Z.shiftl a 8) b)).
Definition rd32 (d : bytes) (i : Z) : option Z :=
  a ← rd d i; b ← rd d (i + 1); c ← rd d (i + 2); e ← rd d (i + 3);
  Some (w32 (Z.lor (Z.lor (Z.lor (Z.shiftl a 24) (Z.shiftl b 16)) (Z.shiftl c 8)) e)).

(** [out.push_back((uint8_t)(v >> 8)); out.push_back((uint8_t)v);] and its wider forms *)
Definition be16 (v : Z) : bytes := [w8 (Z.shiftr v 8); w8 v].
Definition be24 (v : Z) : bytes := [w8 (Z.shiftr v 16); w8 (Z.shiftr v 8); w8 v].
Definition be32 (v : Z) : bytes :=
  [w8 (Z.shiftr v 24); w8 (Z.shiftr v 16); w8 (Z.shiftr v 8); w8 v].

(** ** Text *)

(** A string literal as the octets [std::string] holds. *)
Definition str (s : string) : bytes :=
  (λ c, Z.of_N (Ascii.N_of_ascii c)) <$> String.list_ascii_of_string s.
Arguments str _%_string : simpl never.

(** [std::tolower] in the "C" locale *)
Definition tolower (c : Z) : Z := if (65 <=? c) && (c <=? 90) then c + 32 else c.

Definition isdigit (c : Z) : bool := (48 <=? c) && (c <=? 57).

Definition starts_with (s p : bytes) : bool := bool_decide (take (length p) s = p).
Definition ends_with (s p : bytes) : bool :=
  bool_decide (length p ≤ length s)%nat &&
  bool_decide (drop (length s - length p) s = p).

(** [std::string::find(char)] from a position; [None] is [npos]. *)
Definition find_char (s : bytes) (c : Z) (from : nat) : option nat :=
  match list_find (λ x, x = c) (drop from s) with
  | Some (i, _) => Some (from + i)%nat
  | None => None
  end.

(** [std::to_string] of an unsigned value: at most twenty digits fit [uint64_t]. *)
Fixpoint dec_digits (fuel : nat) (n : Z) (acc : bytes) : bytes :=
  match fuel with
  | O => acc
  | S f =>
      let acc' := (48 + n mod 10) :: acc in
      if n <? 10 then acc' else dec_digits f (n / 10) acc'
  end.
Definition to_string (n : Z) : bytes := dec_digits 20 n [].

(** The longest prefix of decimal digits, its value on top of [acc], and the rest. *)
Fixpoint scan_digits (s : bytes) (acc : Z) : Z * bytes :=
  match s with
  | c :: s' => if isdigit c then scan_digits s' (acc * 10 + (c - 48)) else (acc, s)
  | [] => (acc, [])
  end.

(** [std::from_chars] on an unsigned type whose maximum is [limit]: [None] is an
    error code (no digit, or out of range), [Some (v, rest)] the value it stored
    and what follows the last digit it consumed. *)
Definition from_chars (limit : Z) (s : bytes) : option (Z * bytes) :=
  match s with
  | c :: _ =>
      if isdigit c then
        let '(v, rest) := scan_digits s 0 in
        if v <=? limit then Some (v, rest) else None
      else None
  | [] => None
  end.

(** ** Hint databases and tactics of the development *)

(** [zlen] pushes lengths down to the leaves of a buffer expression. *)
Create Rewrite HintDb zlen.
(** [sh] closes the side conditions of the library's lemmas. *)
Create HintDb sh.

(** Case analysis on every boolean comparison in sight. *)
Ltac zbool :=
  repeat match goal with
  | H : andb _ _ = true |- _ => apply andb_true_iff in H as [??]
  | H : andb _ _ = false |- _ => apply andb_false_iff in H
  | H : orb _ _ = false |- _ => apply orb_false_iff in H as [??]
  | H : orb _ _ = true |- _ => apply orb_true_iff in H
  | H : negb _ = true |- _ => apply negb_true_iff in H
  | H : negb _ = false |- _ => apply negb_false_iff in H
  | H : (_ <? _) = true |- _ => apply Z.ltb_lt in H
  | H : (_ <? _) = false |- _ => apply Z.ltb_ge in H
  | H : (_ <=? _) = true |- _ => apply Z.leb_le in H
  | H : (_ <=? _) = false |- _ => apply Z.leb_gt in H
  | H : (_ =? _) = true |- _ => apply Z.eqb_eq in H
  | H : (_ =? _) = false |- _ => apply Z.eqb_neq in H
  | H : bool_decide _ = true |- _ => apply bool_decide_eq_true in H
  | H : bool_decide _ = false |- _ => apply bool_decide_eq_false in H
  end.

(** Destruct the scrutinee of the first conditional of the goal. *)
Ltac case_if :=
  match goal with
  | |- context [ if ?b then _ else _ ] =>
      match type of b with bool => let E := fresh "E" in destruct b eqn:E end
  end.
Ltac case_if_in H :=
  match type of H with
  | context [ if ?b then _ else _ ] =>
      match type of b with bool => let E := fresh "E" in destruct b eqn:E end
  end.

(** ** Machine integers: lemmas *)

Lemma w8_small z : 0 <= z < 256 -> w8 z = z.
Proof. intros. apply Z.mod_small. lia. Qed.
Lemma w16_small z : 0 <= z < 65536 -> w16 z = z.
Proof. intros. apply Z.mod_small. lia. Qed.
Lemma w32_small z : 0 <= z < 4294967296 -> w32 z = z.
Proof. intros. apply Z.mod_small. lia. Qed.
Lemma w64_small z : 0 <= z < 18446744073709551616 -> w64 z = z.
Proof. intros. apply Z.mod_small. lia. Qed.

Lemma w8_range z : 0 <= w8 z < 256.
Proof. unfold w8. pose proof (Z.mod_pos_bound z (2 ^ 8)). lia. Qed.
Lemma w16_range z : 0 <= w16 z < 65536.
Proof. unfold w16. pose proof (Z.mod_pos_bound z (2 ^ 16)). lia. Qed.
Lemma w32_range z : 0 <= w32 z < 4294967296.
Proof. unfold w32. pose proof (Z.mod_pos_bound z (2 ^ 32)). lia. Qed.
Lemma w64_range z : 0 <= w64 z < 18446744073709551616.
Proof. unfold w64. pose proof (Z.mod_pos_bound z (2 ^ 64)). lia. Qed.

Lemma i32_small z : 0 <= z < 2147483648 -> i32 z = z.
Proof.
  intros. unfold i32. rewrite w32_small by lia.
  case_if; zbool; lia.
Qed.

Lemma lor_shiftl_add a b n :
  0 <= n -> 0 <= b < 2 ^ n -> Z.lor (Z.shiftl a n) b = a * 2 ^ n + b.
Proof.
  intros Hn Hb. rewrite <- Z.shiftl_mul_pow2 by lia.
  symmetry. apply Z.add_nocarry_lor. apply Z.bits_inj'. intros i Hi.
  rewrite Z.land_spec, Z.bits_0.
  destruct (Z.ltb_spec i n).
  - rewrite Z.shiftl_spec_low by lia. done.
  - replace b with (b mod 2 ^ n) by (apply Z.mod_small; lia).
    rewrite Z.mod_pow2_bits_high by lia. apply andb_false_r.
Qed.

Lemma shiftr_div z n : 0 <= n -> Z.shiftr z n = z / 2 ^ n.
Proof. apply Z.shiftr_div_pow2. Qed.

(** A decidable property of a small range, by evaluation. *)
Lemma Z_range_check (P : Z -> bool) (n : nat) :
  forallb (λ i, P (Z.of_nat i)) (seq 0 n) = true -> forall z, 0 <= z < Z.of_nat n -> P z = true.
Proof.
  intros H z Hz. rewrite forallb_forall in H. specialize (H (Z.to_nat z)).
  rewrite Z2Nat.id in H by lia. apply H. apply in_seq. lia.
Qed.

(** ** Lengths *)

Lemma zlen_nonneg {A} (l : list A) : 0 <= zlen l.
Proof. unfold zlen. lia. Qed.
Lemma zlen_nil {A} : zlen (@nil A) = 0.
Proof. done. Qed.
Lemma zlen_cons {A} (x : A) l : zlen (x :: l) = 1 + zlen l.
Proof. unfold zlen. simpl. lia. Qed.
Lemma zlen_app {A} (l k : list A) : zlen (l ++ k) = zlen l + zlen k.
Proof. unfold zlen. rewrite length_app. lia. Qed.
Lemma zlen_take {A} n (l : list A) : zlen (take n l) = Z.min (Z.of_nat n) (zlen l).
Proof. unfold zlen. rewrite length_take. lia. Qed.
Lemma zlen_drop {A} n (l : list A) : zlen (drop n l) = Z.max 0 (zlen l - Z.of_nat n).
Proof. unfold zlen. rewrite length_drop. lia. Qed.
Lemma zlen_fmap {A B} (f : A -> B) l : zlen (f <$> l) = zlen l.
Proof. unfold zlen. by rewrite length_fmap. Qed.
Lemma zlen_insert {A} i (x : A) l : zlen (<[i := x]> l) = zlen l.
Proof. unfold zlen. by rewrite length_insert. Qed.
Lemma zlen_slice d i n :
  zlen (slice d i n) = Z.min (Z.max 0 n) (Z.max 0 (zlen d - Z.max 0 i)).
Proof. unfold slice. rewrite zlen_take, zlen_drop. unfold zlen. lia. Qed.
Lemma zlen_be16 v : zlen (be16 v) = 2.
Proof. done. Qed.
Lemma zlen_be24 v : zlen (be24 v) = 3.
Proof. done. Qed.
Lemma zlen_be32 v : zlen (be32 v) = 4.
Proof. done. Qed.
Lemma zlen_0_inv {A} (l : list A) : zlen l = 0 -> l = [].
Proof. unfold zlen. destruct l; simpl; [done | lia]. Qed.

#[export] Hint Rewrite @zlen_nil @zlen_cons @zlen_app @zlen_take @zlen_drop
  @zlen_fmap @zlen_insert zlen_slice zlen_be16 zlen_be24 zlen_be32 : zlen.

(** Linear arithmetic over buffer lengths. *)
Ltac zlia :=
  autorewrite with zlen in *;
  repeat match goal with
  | |- context [ @zlen ?A ?l ] =>
      lazymatch goal with
      | _ : 0 <= @zlen A l |- _ => fail
      | _ => pose proof (@zlen_nonneg A l)
      end
  | _ : context [ @zlen ?A ?l ] |- _ =>
      lazymatch goal with
      | _ : 0 <= @zlen A l |- _ => fail
      | _ => pose proof (@zlen_nonneg A l)
      end
  end; lia.

Lemma all_bytes_check d : forallb (λ z, (0 <=? z) && (z <? 256)) d = true -> all_bytes d.
Proof.
  intros H. apply Forall_forall. intros x Hx%list_elem_of_In.
  rewrite forallb_forall in H. specialize (H x Hx). zbool. split; lia.
Qed.

Lemma all_bytes_app d e : all_bytes (d ++ e) <-> all_bytes d /\ all_bytes e.
Proof. apply Forall_app. Qed.

(** ** Reads *)

Lemma rd_inv d i v : rd d i = Some v -> 0 <= i < zlen d.
Proof.
  unfold rd, zlen. case_if; [done |]. zbool. intros H%lookup_lt_Some. lia.
Qed.

Lemma rd_ok d i : 0 <= i < zlen d -> exists v, rd d i = Some v.
Proof.
  intros H. unfold rd, zlen in *. case_if; zbool; [lia |].
  apply lookup_lt_is_Some. lia.
Qed.

Lemma rd_byte d i v : all_bytes d -> rd d i = Some v -> is_byte v.
Proof.
  intros Hd. unfold rd. case_if; [done |]. intros H.
  eapply Forall_lookup_1; eauto.
Qed.

Lemma rd_mono d e i v : rd d i = Some v -> rd (d ++ e) i = Some v.
Proof. unfold rd. case_if; [done |]. apply lookup_app_l_Some. Qed.

Lemma rd_app_l d e i : i < zlen d -> rd (d ++ e) i = rd d i.
Proof.
  intros H. unfold rd. case_if; [done |]. zbool. apply lookup_app_l.
  unfold zlen in *. lia.
Qed.

Lemma rd_app_r d e i : zlen d <= i -> rd (d ++ e) i = rd e (i - zlen d).
Proof.
  intros H. pose proof (zlen_nonneg d). unfold rd.
  repeat case_if; zbool; try lia.
  rewrite lookup_app_r by (unfold zlen in *; lia). f_equal. unfold zlen in *. lia.
Qed.

Lemma rd_cons_0 x d : rd (x :: d) 0 = Some x.
Proof. done. Qed.

Lemma rd_cons_S x d i : 0 < i -> rd (x :: d) i = rd d (i - 1).
Proof.
  intros H. change (x :: d) with ([x] ++ d). rewrite rd_app_r; [done |]. zlia.
Qed.

Lemma rd_slice d i n j : 0 <= i -> 0 <= j < n -> rd (slice d i n) j = rd d (i + j).
Proof.
  intros Hi Hj. unfold rd, slice. repeat case_if; zbool; try lia.
  rewrite lookup_take by lia. rewrite lookup_drop.
  case_decide; [|lia]. f_equal. lia.
Qed.

Lemma rd16_mono d e i v : rd16 d i = Some v -> rd16 (d ++ e) i = Some v.
Proof.
  unfold rd16. destruct (rd d i) eqn:E1; [|done]. simpl.
  destruct (rd d (i + 1)) eqn:E2; [|done].
  by rewrite (rd_mono _ _ _ _ E1), (rd_mono _ _ _ _ E2).
Qed.

Lemma rd16_ok d i : 0 <= i -> i + 2 <= zlen d -> exists v, rd16 d i = Some v.
Proof.
  intros. unfold rd16.
  destruct (rd_ok d i) as [a ->]; [lia |]. destruct (rd_ok d (i + 1)) as [b ->]; [lia |].
  simpl. eauto.
Qed.

Lemma rd16_inv d i v : rd16 d i = Some v -> 0 <= i /\ i + 2 <= zlen d /\ 0 <= v < 65536.
Proof.
  unfold rd16. destruct (rd d i) eqn:E1; [|done]. simpl.
  destruct (rd d (i + 1)) eqn:E2; [|done]. intros [= <-].
  apply rd_inv in E1, E2. pose proof (w16_range (Z.lor (Z.shiftl z 8) z0)). lia.
Qed.

Lemma rd32_ok d i : 0 <= i -> i + 4 <= zlen d -> exists v, rd32 d i = Some v.
Proof.
  intros. unfold rd32.
  destruct (rd_ok d i) as [a ->]; [lia |]. destruct (rd_ok d (i + 1)) as [b ->]; [lia |].
  destruct (rd_ok d (i + 2)) as [c ->]; [lia |]. destruct (rd_ok d (i + 3)) as [e ->]; [lia |].
  simpl. eauto.
Qed.

Lemma rd32_inv d i v : rd32 d i = Some v -> 0 <= i /\ i + 4 <= zlen d /\ 0 <= v < 2 ^ 32.
Proof.
  unfold rd32. destruct (rd d i) eqn:E1; [|done]. simpl.
  destruct (rd d (i + 1)) eqn:E2; [|done]. simpl.
  destruct (rd d (i + 2)) eqn:E3; [|done]. simpl.
  destruct (rd d (i + 3)) eqn:E4; [|done]. intros [= <-].
  apply rd_inv in E1, E4.
  match goal with |- context [ w32 ?z ] => pose proof (w32_range z) end. lia.
Qed.

Lemma wr_ok d i v : 0 <= i < zlen d -> wr d i v = Some (<[Z.to_nat i := v]> d).
Proof. intros. unfold wr. case_if; [|done]. apply orb_true_iff in E as [E|E]; zbool; lia. Qed.

Lemma rd_None_iff d i : rd d i = None <-> i < 0 \/ zlen d <= i.
Proof.
  unfold rd, zlen. destruct (i <? 0) eqn:E; zbool; [intuition |].
  rewrite lookup_ge_None. lia.
Qed.

Lemma rd_take (d : bytes) k i : 0 <= k -> rd (take (Z.to_nat k) d) i = if i <? k then rd d i else None.
Proof.
  intros Hk. unfold rd. destruct (i <? 0) eqn:E; zbool; [by rewrite (proj2 (Z.ltb_lt i k)) by lia |].
  case_if; zbool.
  - by rewrite lookup_take_lt by lia.
  - by rewrite lookup_take_ge by lia.
Qed.

Lemma rd_drop (d : bytes) k i : 0 <= k -> rd (drop (Z.to_nat k) d) i = if i <? 0 then None else rd d (k + i).
Proof.
  intros Hk. unfold rd. case_if; [done |]. zbool. rewrite (proj2 (Z.ltb_ge (k + i) 0)) by lia.
  rewrite lookup_drop. f_equal. lia.
Qed.

Lemma rd_insert (d : bytes) (j i v : Z) :
  0 <= j < zlen d -> rd (<[Z.to_nat j := v]> d) i = if i =? j then Some v else rd d i.
Proof.
  intros Hj. unfold rd, zlen in *. destruct (i <? 0) eqn:E; zbool.
  - by rewrite (proj2 (Z.eqb_neq i j)) by lia.
  - case_if; zbool.
    + subst. apply list_lookup_insert_eq. lia.
    + apply list_lookup_insert_ne. lia.
Qed.

Lemma all_bytes_insert d n v : all_bytes d -> is_byte v -> all_bytes (<[n := v]> d).
Proof. apply Forall_insert. Qed.

Lemma rd16_bytes d i a b : rd d i = Some a -> rd d (i + 1) = Some b ->
  rd16 d i = Some (w16 (Z.lor (Z.shiftl a 8) b)).
Proof. intros Ha Hb. unfold rd16. rewrite Ha. cbn. by rewrite Hb. Qed.

Lemma slice_app_l d e i n : 0 <= i -> 0 <= n -> i + n <= zlen d -> slice (d ++ e) i n = slice d i n.
Proof.
  intros. unfold slice, zlen in *. rewrite drop_app_le by lia.
  apply take_app_le. rewrite length_drop. lia.
Qed.

Lemma slice_split d i a b :
  0 <= i -> 0 <= a -> 0 <= b -> slice d i (a + b) = slice d i a ++ slice d (i + a) b.
Proof.
  intros. unfold slice. rewrite !Z2Nat.inj_add by lia. rewrite <- drop_drop. symmetry. apply take_take_drop.
Qed.

Lemma slice_0 data off : slice data off 0 = [].
Proof. unfold slice. by rewrite take_0. Qed.

Lemma slice_1 d i v : rd d i = Some v -> slice d i 1 = [v].
Proof.
  unfold rd, slice. case_if; [done |]. intros H. rewrite (drop_S d v (Z.to_nat i) H). done.
Qed.

(** ** Network order *)

Lemma be16_combine v :
  0 <= v < 65536 -> Z.lor (Z.shiftl (w8 (Z.shiftr v 8)) 8) (w8 v) = v.
Proof.
  intros. rewrite lor_shiftl_add by (pose proof (w8_range v); lia).
  rewrite shiftr_div by lia. rewrite (w8_small (v / 2 ^ 8)).
  - unfold w8. pose proof (Z_div_mod_eq_full v (2 ^ 8)). lia.
  - split; [apply Z.div_pos; lia | apply Z.div_lt_upper_bound; lia].
Qed.

Lemma rd16_be16 v rest : 0 <= v < 65536 -> rd16 (be16 v ++ rest) 0 = Some v.
Proof.
  intros. unfold rd16, be16. simpl app. rewrite rd_cons_0, rd_cons_S by lia.
  simpl Z.sub. rewrite rd_cons_0. simpl.
  rewrite be16_combine, w16_small by lia. done.
Qed.

Lemma be32_combine v :
  0 <= v < 2 ^ 32 ->
  w32 (Z.lor (Z.lor (Z.lor (Z.shiftl (w8 (Z.shiftr v 24)) 24) (Z.shiftl (w8 (Z.shiftr v 16)) 16))
    (Z.shiftl (w8 (Z.shiftr v 8)) 8)) (w8 v)) = v.
Proof.
  intros Hv. rewrite <- (w32_small v) at 5 by lia. unfold w32, w8. apply Z.bits_inj'. intros i Hi.
  destruct (Z_lt_ge_dec i 32); [|by rewrite !Z.mod_pow2_bits_high by lia].
  rewrite !Z.mod_pow2_bits_low by lia. rewrite !Z.lor_spec.
  assert (Hs : forall k, 0 <= k -> Z.testbit (Z.shiftl (Z.shiftr v k mod 2 ^ 8) k) i =
    ((k <=? i) && (i <? k + 8) && Z.testbit v i)%bool).
  { intros k Hk. rewrite Z.shiftl_spec by lia. destruct (Z_lt_ge_dec i k).
    - rewrite Z.testbit_neg_r by lia. by rewrite (proj2 (Z.leb_gt _ _)) by lia.
    - rewrite (proj2 (Z.leb_le k i)) by lia. destruct (Z_lt_ge_dec i (k + 8)).
      + rewrite Z.mod_pow2_bits_low, Z.shiftr_spec, (proj2 (Z.ltb_lt _ _)) by lia. replace (i - k + k) with i by lia. done.
      + rewrite Z.mod_pow2_bits_high, (proj2 (Z.ltb_ge _ _)) by lia. done. }
  rewrite !Hs by lia. replace (v mod 2 ^ 8) with (Z.shiftl (Z.shiftr v 0 mod 2 ^ 8) 0)
    by (by rewrite Z.shiftl_0_r, Z.shiftr_0_r).
  rewrite Hs by lia. destruct (Z.testbit v i); rewrite ?andb_true_r, ?andb_false_r; [|done].
  apply orb_true_iff. rewrite !orb_true_iff, !andb_true_iff, !Z.leb_le, !Z.ltb_lt. lia.
Qed.

Lemma rd32_at pre x i : 0 <= i -> rd32 (pre ++ x) (zlen pre + i) = rd32 x i.
Proof.
  intros. unfold rd32. rewrite !rd_app_r by lia.
  replace (zlen pre + i - zlen pre) with i by lia.
  replace (zlen pre + i + 1 - zlen pre) with (i + 1) by lia.
  replace (zlen pre + i + 2 - zlen pre) with (i + 2) by lia.
  by replace (zlen pre + i + 3 - zlen pre) with (i + 3) by lia.
Qed.

Lemma rd32_here pre v x : 0 <= v < 2 ^ 32 -> rd32 (pre ++ be32 v ++ x) (zlen pre) = Some v.
Proof.
  intros. rewrite <- (Z.add_0_r (zlen pre)), rd32_at by lia.
  etransitivity; [|apply (f_equal Some), be32_combine; lia]. reflexivity.
Qed.

Lemma all_bytes_be16 v : all_bytes (be16 v).
Proof. repeat constructor; apply w8_range. Qed.
Lemma all_bytes_be32 v : all_bytes (be32 v).
Proof. repeat constructor; apply w8_range. Qed.
Lemma all_bytes_be24 v : all_bytes (be24 v).
Proof. repeat constructor; apply w8_range. Qed.
#[export] Hint Resolve all_bytes_be16 all_bytes_be24 all_bytes_be32 : sh.

Lemma slice_2 d i a b : rd d i = Some a -> rd d (i + 1) = Some b -> slice d i 2 = [a; b].
Proof.
  intros Ha Hb. change 2 with (1 + 1). pose proof (rd_inv _ _ _ Ha).
  rewrite slice_split, (slice_1 _ _ _ Ha), (slice_1 _ _ _ Hb) by lia. done.
Qed.

Lemma slice_be16 d i v : all_bytes d -> rd16 d i = Some v -> slice d i 2 = be16 v.
Proof.
  intros Hd. unfold rd16. destruct (rd d i) as [a|] eqn:Ha; [|done]. cbn [mbind option_bind].
  destruct (rd d (i + 1)) as [b|] eqn:Hb; [|done]. cbn [mbind option_bind]. intros [= <-].
  rewrite (slice_2 _ _ _ _ Ha Hb). pose proof (rd_byte _ _ _ Hd Ha) as [? ?].
  pose proof (rd_byte _ _ _ Hd Hb) as [? ?]. rewrite lor_shiftl_add by lia.
  rewrite w16_small by lia. unfold be16. rewrite shiftr_div by lia.
  rewrite Z.div_add_l, (Z.div_small b) by lia. rewrite Z.add_0_r, w8_small by lia.
  unfold w8. rewrite Z.add_comm, Z.mod_add, Z.mod_small by lia. done.
Qed.

(** ** Decimal text *)

Lemma isdigit_digit n : isdigit (48 + n mod 10) = true.
Proof.
  unfold isdigit. pose proof (Z.mod_pos_bound n 10).
  apply andb_true_iff. rewrite !Z.leb_le. lia.
Qed.

Lemma scan_digits_app ds acc rest :
  Forall (λ c, isdigit c = true) ds ->
  scan_digits (ds ++ rest) acc =
  scan_digits rest (foldl (λ a c, a * 10 + (c - 48)) acc ds).
Proof.
  intros H. revert acc. induction H as [|c ds Hc Hds IH]; intros acc; [done |].
  simpl. rewrite Hc. apply IH.
Qed.

Lemma dec_digits_spec fuel n acc :
  0 <= n < 10 ^ Z.of_nat fuel -> (0 < fuel)%nat ->
  exists ds, dec_digits fuel n acc = ds ++ acc /\
    Forall (λ c, isdigit c = true) ds /\ ds <> [] /\
    foldl (λ a c, a * 10 + (c - 48)) 0 ds = n.
Proof.
  revert n acc. induction fuel as [|f IH]; intros n acc Hn Hf; [lia |].
  simpl dec_digits. case_if; zbool.
  - exists [48 + n mod 10]. repeat split; [by repeat constructor; apply isdigit_digit | done |].
    simpl. rewrite Z.mod_small by lia. lia.
  - replace (Z.of_nat (S f)) with (Z.of_nat f + 1) in Hn by lia.
    rewrite Z.pow_add_r in Hn by lia.
    assert (f <> 0)%nat by (intros ->; simpl in Hn; lia).
    destruct (IH (n / 10) ((48 + n mod 10) :: acc)) as (ds & -> & Hds & Hne & Hv); [|lia|].
    { split; [apply Z.div_pos; lia | apply Z.div_lt_upper_bound; lia]. }
    exists (ds ++ [48 + n mod 10]). rewrite <- app_assoc. repeat split.
    + apply Forall_app. split; [done | by repeat constructor; apply isdigit_digit].
    + by destruct ds.
    + rewrite foldl_app, Hv. simpl. pose proof (Z_div_mod_eq_full n 10). lia.
Qed.

Lemma to_string_spec n :
  0 <= n < 2 ^ 64 ->
  Forall (λ c, isdigit c = true) (to_string n) /\ to_string n <> [] /\
  foldl (λ a c, a * 10 + (c - 48)) 0 (to_string n) = n.
Proof.
  intros H. unfold to_string.
  destruct (dec_digits_spec 20 n []) as (ds & -> & ? & ? & ?); [|lia|].
  { change (10 ^ Z.of_nat 20) with 100000000000000000000. lia. }
  rewrite app_nil_r. done.
Qed.

Lemma to_string_inj a b :
  0 <= a < 2 ^ 64 -> 0 <= b < 2 ^ 64 -> to_string a = to_string b -> a = b.
Proof.
  intros (_ & _ & Ha)%to_string_spec (_ & _ & Hb)%to_string_spec E.
  by rewrite <- Ha, <- Hb, E.
Qed.

(** Printing and then [from_chars]: the value comes back and nothing is left. *)
Lemma from_chars_to_string limit n rest :
  0 <= n < 2 ^ 64 -> n <= limit ->
  (forall c, head rest = Some c -> isdigit c = false) ->
  from_chars limit (to_string n ++ rest) = Some (n, rest).
Proof.
  intros Hn Hl Hrest. destruct (to_string_spec n Hn) as (Hd & Hne & Hv).
  destruct (to_string n) as [|c s] eqn:E; [done |].
  pose proof (Forall_inv Hd) as Hc. simpl in Hc.
  change (from_chars limit ((c :: s) ++ rest)) with
    (if isdigit c then
       let '(v, r) := scan_digits ((c :: s) ++ rest) 0 in
       if v <=? limit then Some (v, r) else None
     else None).
  rewrite Hc.
  rewrite scan_digits_app by done. rewrite Hv.
  assert (scan_digits rest n = (n, rest)) as ->.
  { destruct rest as [|x r]; [done |]. simpl. by rewrite (Hrest x eq_refl). }
  case_if; [done |]. zbool. lia.
Qed.

(** ** Sums over a list *)

Definition zsum {A} (f : A -> Z) (l : list A) : Z := foldr (λ x acc, f x + acc) 0 l.
#[global] Arguments zsum : simpl never.
Lemma zsum_cons {A} (f : A -> Z) x l : zsum f (x :: l) = f x + zsum f l.
Proof. done. Qed.
Lemma zsum_insert {A} (f : A -> Z) l i x y :
  l !! i = Some x -> zsum f (<[i := y]> l) = zsum f l + f y - f x.
Proof.
  revert i. induction l as [|z l IH]; intros [|i] H; try done.
  - injection H as ->. change (<[0%nat := y]> (x :: l)) with (y :: l). rewrite !zsum_cons. lia.
  - change (<[S i := y]> (z :: l)) with (z :: <[i := y]> l). rewrite !zsum_cons, (IH i H). lia.
Qed.
Lemma zsum_bounds {A} (f : A -> Z) l a b : Forall (λ x, a <= f x <= b) l -> a * zlen l <= zsum f l <= b * zlen l.
Proof.
  induction 1 as [|x l Hx _ IH]; [rewrite zlen_nil; unfold zsum; cbn; lia |]. rewrite zsum_cons, zlen_cons. nia.
Qed.
Lemma zsum_le {A} (f g : A -> Z) l : Forall (λ x, f x <= g x) l -> zsum f l <= zsum g l.
Proof. induction 1; rewrite ?zsum_cons; [done | lia]. Qed.
Lemma zsum_ext {A} (f g : A -> Z) l : Forall (λ x, f x = g x) l -> zsum f l = zsum g l.
Proof. induction 1; rewrite ?zsum_cons; [done | lia]. Qed.
Lemma zsum_add {A} (f g : A -> Z) l : zsum (λ x, f x + g x) l = zsum f l + zsum g l.
Proof. induction l; rewrite ?zsum_cons; [done | lia]. Qed.
Lemma zsum_zero {A} (l : list A) : zsum (λ _, 0) l = 0.
Proof. induction l; rewrite ?zsum_cons; [done | lia]. Qed.
Lemma zsum_swap {A B} (f : A -> B -> Z) l k :
  zsum (λ x, zsum (f x) k) l = zsum (λ y, zsum (λ x, f x y) l) k.
Proof.
  induction l as [|x l IH]; [by rewrite zsum_zero |]. rewrite zsum_cons, IH, <- zsum_add. by apply zsum_ext, Forall_true.
Qed.
Lemma zsum_fmap {A B} (g : A -> B) (f : B -> Z) l : zsum f (g <$> l) = zsum (λ x, f (g x)) l.
Proof. induction l; cbn; rewrite ?zsum_cons; [done | congruence]. Qed.
Lemma zsum_perm {A} (f : A -> Z) l k : l ≡ₚ k -> zsum f l = zsum f k.
Proof. induction 1; rewrite ?zsum_cons; lia. Qed.

(** ** Filtered and sorted lists *)

Lemma filter_none {A} (P : A -> Prop) `{!forall x, Decision (P x)} l : Forall (λ x, ~ P x) l -> filter P l = [].
Proof. induction 1 as [|x l Hx _ IH]; [done |]. by rewrite filter_cons, decide_False. Qed.
Lemma filter_every {A} (P : A -> Prop) `{!forall x, Decision (P x)} l : Forall P l -> filter P l = l.
Proof. induction 1 as [|x l Hx _ IH]; [done |]. by rewrite filter_cons, decide_True, IH. Qed.
Lemma StronglySorted_snoc {A} (R : A -> A -> Prop) l x :
  StronglySorted R l -> Forall (λ y, R y x) l -> StronglySorted R (l ++ [x]).
Proof.
  induction 1 as [|y l _ IH Hy]; intros Hx; cbn; [by repeat constructor |]. apply Forall_cons in Hx as [Hyx Hx].
  constructor; [by apply IH |]. apply Forall_app. split; [done | by constructor].
Qed.
