(* ===== verification/Containers.v ===== *)
(** * Hash tables and the eviction idioms of the registries

    Every table of the program is a [std::unordered_map]: a finite map whose
    iteration order is unspecified. The map itself is a [gmap]; wherever the code
    walks a table ([std::min_element], [std::nth_element], a snapshot), the model
    walks [iter m], an enumeration about which nothing is known but that it is a
    permutation of the bindings (class [MapOrder]). Theorems proved for every
    [MapOrder] therefore hold whatever the hash function and bucket layout do.

    The file also holds the three idioms the registries share: [std::erase_if],
    erasing the smallest binding ([std::min_element]) and erasing the [n] smallest
    ([std::nth_element]). *)

From S2P Require Import Prelude.

Class MapOrder (K : Type) `{Countable K} := {
  iter : forall {V : Type}, gmap K V -> list (K * V);
  iter_perm : forall (V : Type) (m : gmap K V), iter m ≡ₚ map_to_list m;
}.

(** One order that exists, used by the concrete runs. *)
#[export] Instance map_order_default (K : Type) `{Countable K} : MapOrder K :=
  {| iter := fun V m => map_to_list m; iter_perm := fun V m => Permutation_refl _ |}.

(** [entries_.size()] *)
Definition msize {K V} `{Countable K} (m : gmap K V) : Z := Z.of_nat (size m).

(** [std::min_element(first, last, [](a, b) { return f(a) < f(b); })]: the first of
    the smallest elements. *)
Fixpoint min_by {A} (f : A -> Z) (best : A) (l : list A) : A :=
  match l with
  | [] => best
  | x :: l' => if f x <? f best then min_by f x l' else min_by f best l'
  end.

Definition min_element {A} (f : A -> Z) (l : list A) : option A :=
  match l with
  | [] => None
  | x :: l' => Some (min_by f x l')
  end.

(** [std::erase_if(m, p)] *)
Definition erase_if {K V} `{Countable K} (p : K -> V -> bool) (m : gmap K V) : gmap K V :=
  filter (λ kv, p kv.1 kv.2 = false) m.

(** [const auto oldest = std::min_element(...); if (oldest != end) m.erase(oldest);] *)
Definition erase_min {K V} `{Countable K} `{!MapOrder K} (f : V -> Z) (m : gmap K V) : gmap K V :=
  match min_element (λ kv, f kv.2) (iter m) with
  | Some kv => delete kv.1 m
  | None => m
  end.

(** [std::nth_element(v.begin(), v.begin() + (n - 1), v.end(), less)] followed by the
    erasure of the first [n] elements, for a [less] whose reflexive closure is [R]. *)
Definition smallest {A} (R : relation A) `{!RelDecision R} (n : Z) (l : list A) : list A :=
  take (Z.to_nat n) (merge_sort R l).

Definition erase_keys {K V} `{Countable K} (ks : list K) (m : gmap K V) : gmap K V :=
  foldr delete m ks.

(** ** Lemmas *)

Section Containers.
Context {K V : Type} `{Countable K}.
Implicit Types (m : gmap K V) (k : K) (v : V) (f : V -> Z).

Lemma msize_nonneg m : 0 <= msize m.
Proof. unfold msize. lia. Qed.

Lemma msize_empty : msize (∅ : gmap K V) = 0.
Proof. unfold msize. by rewrite map_size_empty. Qed.

Lemma msize_insert_le m k v : msize (<[k := v]> m) <= msize m + 1.
Proof. unfold msize. rewrite map_size_insert. destruct (m !! k); simpl; lia. Qed.

Lemma msize_insert_Some m k v v' : m !! k = Some v' -> msize (<[k := v]> m) = msize m.
Proof. intros E. unfold msize. rewrite map_size_insert, E. simpl. lia. Qed.

Lemma msize_delete_le m k : msize (delete k m) <= msize m.
Proof. unfold msize. rewrite map_size_delete. destruct (m !! k); simpl; lia. Qed.

Lemma msize_subseteq (m1 m2 : gmap K V) : m1 ⊆ m2 -> msize m1 <= msize m2.
Proof. intros Hs. unfold msize. apply map_subseteq_size in Hs. lia. Qed.

Lemma lookup_erase_if p m k v :
  erase_if p m !! k = Some v <-> m !! k = Some v /\ p k v = false.
Proof. unfold erase_if. by rewrite map_lookup_filter_Some. Qed.

Lemma erase_if_subseteq p m : erase_if p m ⊆ m.
Proof. apply map_filter_subseteq. Qed.

Lemma msize_erase_if p m : msize (erase_if p m) <= msize m.
Proof. apply msize_subseteq, erase_if_subseteq. Qed.

Lemma min_by_In {A} (g : A -> Z) best l : min_by g best l = best \/ In (min_by g best l) l.
Proof.
  revert best. induction l as [|x l IH]; intros best; simpl; [by left |].
  case_if; destruct (IH x), (IH best); eauto; left; congruence.
Qed.

Lemma min_by_le {A} (g : A -> Z) best l x :
  x = best \/ In x l -> g (min_by g best l) <= g x.
Proof.
  revert best x. induction l as [|y l IH]; intros best x; simpl.
  - intros [->|[]]. lia.
  - intros Hx. case_if; zbool.
    + destruct Hx as [->|[->|Hx]].
      * pose proof (IH y y (or_introl eq_refl)). lia.
      * apply IH. by left.
      * apply IH. by right.
    + destruct Hx as [->|[->|Hx]].
      * apply IH. by left.
      * pose proof (IH best best (or_introl eq_refl)). lia.
      * apply IH. by right.
Qed.

Lemma min_element_spec {A} (g : A -> Z) l x :
  min_element g l = Some x -> In x l /\ forall y, In y l -> g x <= g y.
Proof.
  destruct l as [|a l]; [done |]. intros [= <-]. split.
  - destruct (min_by_In g a l); simpl; auto.
  - intros y Hy. apply min_by_le. destruct Hy; auto.
Qed.

Lemma min_element_None {A} (g : A -> Z) l : min_element g l = None -> l = [].
Proof. by destruct l. Qed.

Lemma min_element_min {A} (g : A -> Z) l x :
  min_element g l = Some x -> forall y, In y l -> g x <= g y.
Proof. intros E%min_element_spec. apply E. Qed.

Lemma min_element_in {A} (g : A -> Z) l x : min_element g l = Some x -> In x l.
Proof. intros E%min_element_spec. apply E. Qed.

Context `{!MapOrder K}.

Lemma iter_In m k v : In (k, v) (iter m) <-> m !! k = Some v.
Proof.
  rewrite <- list_elem_of_In, iter_perm. apply elem_of_map_to_list.
Qed.

Lemma iter_length m : Z.of_nat (length (iter m)) = msize m.
Proof. unfold msize. by rewrite iter_perm, length_map_to_list. Qed.

Lemma iter_NoDup_fst m : NoDup (iter m).*1.
Proof. rewrite iter_perm. apply NoDup_fst_map_to_list. Qed.

Lemma iter_nil m : iter m = [] <-> m = ∅.
Proof.
  rewrite <- map_to_list_empty_iff. split; intros E.
  - apply Permutation_nil_r. rewrite <- iter_perm, E. done.
  - apply Permutation_nil_r. rewrite iter_perm, E. done.
Qed.

(** What erasing the minimum does: the victim is a binding of smallest key, every
    other binding is untouched. *)
Lemma erase_min_spec f m :
  m <> ∅ ->
  exists k v, m !! k = Some v /\ (forall k' v', m !! k' = Some v' -> f v <= f v') /\
    erase_min f m = delete k m.
Proof.
  intros Hm. unfold erase_min.
  destruct (min_element _ (iter m)) as [[k v]|] eqn:E.
  - pose proof (min_element_in _ _ _ E) as Hin%iter_In.
    exists k, v. split_and!; [done | | done].
    intros k' v' Hk'. apply (min_element_min _ _ _ E (k', v')). by apply iter_In.
  - apply min_element_None in E. by apply iter_nil in E.
Qed.

Lemma erase_min_subseteq f m : erase_min f m ⊆ m.
Proof. unfold erase_min. destruct (min_element _ _); [apply delete_subseteq | done]. Qed.

Lemma msize_erase_min f m : m <> ∅ -> msize (erase_min f m) = msize m - 1.
Proof.
  intros Hm. destruct (erase_min_spec f m Hm) as (k & v & Hk & _ & ->).
  unfold msize. rewrite map_size_delete, Hk. simpl.
  assert (size m <> 0%nat) by (by apply map_size_non_empty_iff). lia.
Qed.

Lemma msize_erase_min_le f m : msize (erase_min f m) <= msize m.
Proof. apply msize_subseteq, erase_min_subseteq. Qed.

(** A full table has room for one more binding after its minimum is erased. *)
Lemma msize_erase_min_room f m c : 0 < c -> msize m <= c -> msize (erase_min f m) <= c - 1.
Proof.
  intros Hc Hm. destruct (decide (m = ∅)) as [->|Hne].
  - pose proof (msize_erase_min_le f ∅). rewrite msize_empty in *. lia.
  - rewrite msize_erase_min by done. lia.
Qed.

(** The idiom of every bounded table: when full, drop what [p] condemns, then if need be
    the minimum; the insertion that follows keeps the bound. *)
Lemma msize_room_insert f p m k v c :
  0 < c -> msize m <= c ->
  msize (<[k := v]> (if c <=? msize m then
                       let m := erase_if p m in
                       if c <=? msize m then erase_min f m else m
                     else m)) <= c.
Proof.
  intros Hc Hm. etrans; [apply msize_insert_le |]. cbv zeta. case_if; zbool; [|lia].
  pose proof (msize_erase_if p m). case_if; zbool; [|lia].
  pose proof (msize_erase_min_room f (erase_if p m) c Hc ltac:(lia)). lia.
Qed.

Lemma room_subseteq f p m c :
  (if c <=? msize m then
     let m := erase_if p m in
     if c <=? msize m then erase_min f m else m
   else m) ⊆ m.
Proof.
  cbv zeta. repeat case_if; [|apply erase_if_subseteq|done].
  etrans; [apply erase_min_subseteq | apply erase_if_subseteq].
Qed.

Lemma erase_keys_subseteq ks m : erase_keys ks m ⊆ m.
Proof.
  induction ks as [|k ks IH]; simpl; [done |].
  etrans; [apply delete_subseteq | apply IH].
Qed.

Lemma lookup_erase_keys ks m k :
  erase_keys ks m !! k = if bool_decide (k ∈ ks) then None else m !! k.
Proof.
  induction ks as [|k' ks IH].
  - rewrite bool_decide_eq_false_2 by apply not_elem_of_nil. done.
  - change (erase_keys (k' :: ks) m) with (delete k' (erase_keys ks m)).
    rewrite lookup_delete, IH, (bool_decide_ext _ _ (elem_of_cons ks k k')).
    repeat case_decide; repeat case_bool_decide; naive_solver.
Qed.

Lemma smallest_split {A} (R : relation A) `{!RelDecision R} n l :
  smallest R n l ++ drop (Z.to_nat n) (merge_sort R l) ≡ₚ l.
Proof. unfold smallest. rewrite take_drop. apply merge_sort_Permutation. Qed.

Lemma smallest_In {A} (R : relation A) `{!RelDecision R} n l x :
  In x (smallest R n l) -> In x l.
Proof.
  rewrite <- !list_elem_of_In. intros Hx. rewrite <- (smallest_split R n l).
  apply elem_of_app. by left.
Qed.

Lemma length_smallest {A} (R : relation A) `{!RelDecision R} n l :
  length (smallest R n l) = Nat.min (Z.to_nat n) (length l).
Proof.
  unfold smallest. rewrite length_take. f_equal.
  apply Permutation_length, merge_sort_Permutation.
Qed.

(** Nothing that stays is below anything that goes. *)
Lemma smallest_le {A} (R : relation A) `{!RelDecision R} `{!Transitive R, !Total R} n l x y :
  In x (smallest R n l) -> In y (drop (Z.to_nat n) (merge_sort R l)) -> R x y.
Proof.
  intros Hx Hy. pose proof (StronglySorted_merge_sort R l) as Hs.
  rewrite <- (take_drop (Z.to_nat n) (merge_sort R l)) in Hs.
  revert Hx Hy. unfold smallest. rewrite <- !list_elem_of_In.
  intros Hx Hy. by eapply StronglySorted_app_1_elem_of.
Qed.

(** The candidates of an eviction: what each binding is ranked by, with its key. *)
Definition ranked {B} (h : V -> B) m : list (B * K) := (λ kv : K * V, (h kv.2, kv.1)) <$> iter m.

Section Evict.
Context {B : Type} (h : V -> B) (R : relation (B * K)) `{!RelDecision R}.
Let evict (n : Z) m : gmap K V := erase_keys (smallest R n (ranked h m)).*2 m.

Lemma zlen_ranked m : zlen (ranked h m) = msize m.
Proof. unfold ranked. rewrite zlen_fmap. apply iter_length. Qed.

Lemma ranked_elem m x k : In (x, k) (ranked h m) <-> exists v, m !! k = Some v /\ x = h v.
Proof.
  unfold ranked. rewrite <- list_elem_of_In, list_elem_of_fmap. split.
  - intros ([k' v] & [= -> ->] & Hin%list_elem_of_In%iter_In). eauto.
  - intros (v & Hk & ->). exists (k, v). split; [done |]. by apply list_elem_of_In, iter_In.
Qed.

(** What goes ranks no higher than what stays. *)
Lemma evict_le `{!Transitive R, !Total R} n m k v k' v' :
  m !! k = Some v -> evict n m !! k = None -> evict n m !! k' = Some v' -> R (h v, k) (h v', k').
Proof.
  intros Hk Hgone Hstay. unfold evict in Hgone, Hstay. rewrite lookup_erase_keys in Hgone, Hstay.
  case_if_in Hgone; [|congruence]. case_if_in Hstay; [done |].
  apply bool_decide_eq_true in E as Hin. apply bool_decide_eq_false in E0 as Hnin.
  apply list_elem_of_fmap in Hin as ([x k0] & -> & Hx%list_elem_of_In). simpl in *.
  pose proof (smallest_In _ _ _ _ Hx) as (v0 & Hv0 & ->)%ranked_elem.
  assert (v0 = v) as -> by congruence.
  assert (Hy : In (h v', k') (ranked h m)) by (apply ranked_elem; eauto).
  rewrite <- list_elem_of_In, <- (smallest_split R n), elem_of_app in Hy.
  destruct Hy as [Hy|Hy%list_elem_of_In].
  - exfalso. apply Hnin, list_elem_of_fmap. by eexists (_, _).
  - exact (smallest_le R n _ _ _ Hx Hy).
Qed.

(** At least one binding goes, and at most [n]. *)
Lemma evict_size n m : m <> ∅ -> 1 <= n -> msize m - n <= msize (evict n m) <= msize m - 1.
Proof.
  intros Hm Hn1.
  assert (Hpos : 1 <= msize m).
  { unfold msize. assert (size m <> 0%nat) by (by apply map_size_non_empty_iff). lia. }
  pose proof (length_smallest R n (ranked h m)) as Hlen. pose proof (zlen_ranked m) as Hn.
  unfold evict. set (ks := (smallest R n (ranked h m)).*2).
  assert (Hks : (1 <= length ks)%nat /\ Z.of_nat (length ks) <= n).
  { unfold ks. rewrite length_fmap, Hlen. unfold zlen in Hn. lia. }
  split.
  - assert (Hgen : forall l, msize m - Z.of_nat (length l) <= msize (erase_keys l m)).
    { induction l as [|k l IH]; simpl; [lia |]. unfold msize in *. rewrite map_size_delete.
      change (foldr delete m l) with (erase_keys l m). destruct (erase_keys l m !! k); simpl; lia. }
    specialize (Hgen ks). lia.
  - destruct ks as [|k l] eqn:Eks; [simpl in Hks; lia |].
    assert (Hk : exists e, m !! k = Some e).
    { assert (k ∈ ks) as Hin by (rewrite Eks; apply elem_of_cons; by left).
      apply list_elem_of_fmap in Hin as ([x k0] & -> & Hx%list_elem_of_In%smallest_In).
      apply ranked_elem in Hx as (e & He & _). eauto. }
    destruct Hk as [e He]. transitivity (msize (delete k m)).
    + apply msize_subseteq. simpl. apply delete_mono, erase_keys_subseteq.
    + unfold msize. rewrite map_size_delete, He. simpl. unfold msize in Hpos. lia.
Qed.
End Evict.

End Containers.
