(* ===== verification/Concurrency.v ===== *)
(** * Threads over a shared object

    The classes of the program with a mutex are shared by many threads. An operation of
    such a class is a program of type [Prog]: clock readings, network requests, critical
    sections ([std::lock_guard] around code that only touches the object) and waits on a
    condition variable, with everything between them computed purely. The same program has
    two semantics:

    - [run], the operation on its own, executable: the clock and the network are functions
      of how often they were asked;
    - [pool_step], the operation among others: any thread makes its next step, clock
      readings and responses are arbitrary, a thread whose wait section asks for it sleeps
      until its predicate holds.

    [wp] is a program logic for both: an invariant [Inv] of the object, a ghost state per
    thread and a relation [Rel] that says what a step may do to both. [pool_invariant]
    says that what [wp] proves of each thread alone holds in every reachable
    interleaving. [mutex_held] counts a lock among the ghosts, [exec] runs a pool
    under a schedule, [own] is what a thread may rely on between its steps, [zoom] embeds the programs of
    a part of the object, [labelled] adds a ghost that never changes.
    [trace] is what one thread asks and is answered, whatever the others do meanwhile. *)

From S2P Require Import Prelude.

(** A list satisfies a property everywhere or fails it somewhere. *)
Lemma Forall_Exists_dec_prop {A} {P : A -> Prop} (l : list A) :
  (forall x, P x \/ ~ P x) -> Forall P l \/ exists i x, l !! i = Some x /\ ~ P x.
Proof.
  intros Hdec. induction l as [|x l [IH|(i & y & Hi & Hy)]].
  - left. constructor.
  - destruct (Hdec x); [left; by constructor | right; by exists 0%nat, x].
  - right. by exists (S i), y.
Qed.

(** *** A mutex among ghosts *)

(** [P] holds of at most one ghost, of one exactly when [locked]. *)
Definition mutex_held {A} (P : A -> Prop) (gs : list A) (locked : bool) : Prop :=
  (forall i j g h, gs !! i = Some g -> gs !! j = Some h -> P g -> P h -> i = j) /\
  (locked = true <-> exists i g, gs !! i = Some g /\ P g).

(** A step of thread [i] leaves the mutex alone, takes it when it is free, or releases it. *)
Lemma mutex_step {A} (P : A -> Prop) gs i g g' locked locked' :
  gs !! i = Some g -> mutex_held P gs locked ->
  ((P g' <-> P g) /\ locked' = locked) \/ (P g' /\ locked = false /\ locked' = true) \/ (P g /\ ~ P g' /\ locked' = false) ->
  mutex_held P (<[i := g']> gs) locked'.
Proof.
  intros Hi [Hone Hlock] Hstep. pose proof (lookup_lt_Some _ _ _ Hi) as Hlt.
  assert (Hget : forall j h, <[i := g']> gs !! j = Some h -> j = i /\ h = g' \/ j <> i /\ gs !! j = Some h).
  { intros j h [(<- & -> & _)|[? ?]]%list_lookup_insert_Some; auto. }
  assert (Hput : forall j h, j <> i -> gs !! j = Some h -> <[i := g']> gs !! j = Some h)
    by (intros j h Hne Hj; by rewrite list_lookup_insert_ne).
  assert (Hself : <[i := g']> gs !! i = Some g') by (by rewrite list_lookup_insert_eq).
  destruct Hstep as [[Hp ->]|[(Hp & -> & ->)|(Hp & Hn & ->)]].
  - split.
    + intros j k h h' [[-> ->]|[Hj Ej]]%Hget [[-> ->]|[Hk Ek]]%Hget H1 H2; [done | | | by eapply Hone].
      * by eapply Hone; [exact Hi | exact Ek | apply Hp | ].
      * by eapply Hone; [exact Ej | exact Hi | | apply Hp].
    + rewrite Hlock. split.
      * intros (j & h & Hj & Hh). destruct (decide (j = i)) as [->|Hne]; [|by exists j, h; auto].
        exists i, g'. split; [done |]. apply Hp. by rewrite Hi in Hj; injection Hj as ->.
      * intros (j & h & [[-> ->]|[Hne Hj]]%Hget & Hh); [exists i, g; split; [done | by apply Hp] | by exists j, h].
  - assert (Hfree : forall j h, gs !! j = Some h -> ~ P h).
    { intros j h Hj Hh. by assert (false = true) by (apply Hlock; eauto). }
    split; [|split; [by exists i, g' | done]].
    intros j k h h' [[-> ->]|[Hj Ej]]%Hget [[-> ->]|[Hk Ek]]%Hget H1 H2; [done | | | by destruct (Hfree j h)].
    + by destruct (Hfree k h').
    + by destruct (Hfree j h).
  - split; [|split; [done |]].
    + intros j k h h' [[-> ->]|[Hj Ej]]%Hget [[-> ->]|[Hk Ek]]%Hget H1 H2; try done. by eapply Hone.
    + intros (j & h & [[-> ->]|[Hne Hj]]%Hget & Hh); [done |]. destruct Hne. by eapply Hone.
Qed.

Section Prog.
(** The shared object, requests and responses. *)
Variable St Rq Rs : Type.

Inductive Prog (A : Type) : Type :=
  | Ret (a : A)
  | Throw                                          (* a C++ exception *)
  | Fault                                          (* an access outside a buffer *)
  | Now (k : Z -> Prog A)                          (* a clock reading *)
  | Fetch (rq : Rq) (k : option Rs -> Prog A)      (* [None]: the call threw *)
  | Atomic (B : Type) (sec : Z -> St -> B * St) (k : B -> Prog A)
  | Await (B : Type) (ready : St -> bool) (sec : Z -> St -> option B * St) (k : B -> Prog A).

Fixpoint prog_bind {A B} (f : A -> Prog B) (p : Prog A) : Prog B :=
  match p with
  | Ret _ a => f a
  | Throw _ => Throw B
  | Fault _ => Fault B
  | Now _ k => Now B (λ t, prog_bind f (k t))
  | Fetch _ rq k => Fetch B rq (λ o, prog_bind f (k o))
  | Atomic _ C sec k => Atomic B C sec (λ c, prog_bind f (k c))
  | Await _ C ready sec k => Await B C ready sec (λ c, prog_bind f (k c))
  end.

(** [try { p } catch (...) { h }] *)
Fixpoint try_catch {A} (h : Prog A) (p : Prog A) : Prog A :=
  match p with
  | Ret _ a => Ret A a
  | Throw _ => h
  | Fault _ => Fault A
  | Now _ k => Now A (λ t, try_catch h (k t))
  | Fetch _ rq k => Fetch A rq (λ o, try_catch h (k o))
  | Atomic _ C sec k => Atomic A C sec (λ c, try_catch h (k c))
  | Await _ C ready sec k => Await A C ready sec (λ c, try_catch h (k c))
  end.

(** ** An operation on its own *)

Inductive Outcome (A : Type) := Returned (a : A) | Threw | Faulted | Stuck.

Section Run.
Variable now : nat -> Z.
Variable net : nat -> Rq -> option Rs.

(** [n] counts the readings, responses and sections so far; the result is the outcome, the
    object and the requests that were sent. *)
Fixpoint run {A} (p : Prog A) (n : nat) (s : St) : Outcome A * nat * St * list Rq :=
  match p with
  | Ret _ a => (Returned A a, n, s, [])
  | Throw _ => (Threw A, n, s, [])
  | Fault _ => (Faulted A, n, s, [])
  | Now _ k => run (k (now n)) (S n) s
  | Fetch _ rq k =>
      let '(o, n', s', rqs) := run (k (net n rq)) (S n) s in (o, n', s', rq :: rqs)
  | Atomic _ _ sec k => let '(b, s') := sec (now n) s in run (k b) (S n) s'
  | Await _ _ _ sec k =>
      match sec (now n) s with
      | (Some b, s') => run (k b) (S n) s'
      | (None, s') => (Stuck A, n, s', [])
      end
  end.
End Run.

(** ** Operations among others *)

(** A thread: what it still has to do, and whether it sleeps on a condition variable. *)
Record Thread (A : Type) := mkThread { prog : Prog A; asleep : bool }.
Record Pool (A : Type) := mkPool { shared : St; threads : list (Thread A) }.

(** What the environment may answer. *)
Variable time_ok : Z -> Prop.
Variable resp_ok : Rs -> Prop.

Inductive thread_step {A} : St -> Thread A -> St -> Thread A -> Prop :=
  | step_now s k t : time_ok t ->
      thread_step s (mkThread A (Now A k) false) s (mkThread A (k t) false)
  | step_fetch s rq k o : (forall r, o = Some r -> resp_ok r) ->
      thread_step s (mkThread A (Fetch A rq k) false) s (mkThread A (k o) false)
  | step_atomic s B sec k t (b : B) s' : time_ok t -> sec t s = (b, s') ->
      thread_step s (mkThread A (Atomic A B sec k) false) s' (mkThread A (k b) false)
  | step_await s B ready sec k t (b : B) s' : time_ok t -> sec t s = (Some b, s') ->
      thread_step s (mkThread A (Await A B ready sec k) false) s' (mkThread A (k b) false)
  | step_sleep s B ready sec k t s' : time_ok t -> sec t s = (None, s') ->
      thread_step s (mkThread A (Await A B ready sec k) false)
        s' (mkThread A (Await A B ready sec k) true)
  | step_wake s B ready sec k : ready s = true ->
      thread_step s (mkThread A (Await A B ready sec k) true)
        s (mkThread A (Await A B ready sec k) false).

Definition pool_step {A} (c c' : Pool A) : Prop :=
  exists i th th', threads A c !! i = Some th /\
    thread_step (shared A c) th (shared A c') th' /\ threads A c' = <[i := th']> (threads A c).

(** *** An executable scheduler *)

Section Exec.
Variable now : nat -> Z.
Variable net : nat -> Rq -> option Rs.

(** The next step of one thread, if it has one. *)
Definition advance {A} (n : nat) (s : St) (th : Thread A) : St * Thread A :=
  match prog A th, asleep A th with
  | Now _ k, false => (s, mkThread A (k (now n)) false)
  | Fetch _ rq k, false => (s, mkThread A (k (net n rq)) false)
  | Atomic _ _ sec k, false => let '(b, s') := sec (now n) s in (s', mkThread A (k b) false)
  | Await _ _ _ sec k, false =>
      match sec (now n) s with
      | (Some b, s') => (s', mkThread A (k b) false)
      | (None, s') => (s', mkThread A (prog A th) true)
      end
  | Await _ _ ready _ _, true => if ready s then (s, mkThread A (prog A th) false) else (s, th)
  | _, _ => (s, th)
  end.

(** The threads named in [schedule] make a step each, in that order. *)
Fixpoint exec {A} (schedule : list nat) (n : nat) (c : Pool A) : Pool A :=
  match schedule with
  | [] => c
  | i :: schedule =>
      match threads A c !! i with
      | None => exec schedule n c
      | Some th =>
          let '(s', th') := advance n (shared A c) th in
          exec schedule (S n) (mkPool A s' (<[i := th']> (threads A c)))
      end
  end.

Hypothesis now_ok : forall i, time_ok (now i).
Hypothesis net_ok : forall i rq r, net i rq = Some r -> resp_ok r.

Lemma advance_step {A} n s (th : Thread A) s' th' :
  advance n s th = (s', th') -> thread_step s th s' th' \/ s' = s /\ th' = th.
Proof.
  destruct th as [p b]. unfold advance. cbn [prog asleep].
  destruct p as [a| | |k|rq k|B sec k|B ready sec k], b; try (by intros [= <- <-]; right).
  - intros [= <- <-]. left. by apply step_now.
  - intros [= <- <-]. left. apply step_fetch. eauto.
  - destruct (sec (now n) s) as [b s1] eqn:Es. intros [= <- <-]. left. by eapply step_atomic.
  - destruct (ready s) eqn:Er; intros [= <- <-]; [left | by right]. by apply step_wake.
  - destruct (sec (now n) s) as [[b|] s1] eqn:Es; intros [= <- <-]; left.
    + by eapply step_await.
    + by eapply step_sleep.
Qed.

Lemma exec_reaches {A} schedule n (c : Pool A) : rtc pool_step c (exec schedule n c).
Proof.
  revert n c. induction schedule as [|i schedule IH]; intros n c; cbn [exec]; [done |].
  destruct (threads A c !! i) as [th|] eqn:Ei; [|done].
  destruct (advance n (shared A c) th) as [s' th'] eqn:Ea.
  destruct (advance_step _ _ _ _ _ Ea) as [Hst|[-> ->]].
  - eapply rtc_l; [|apply IH]. by exists i, th, th'.
  - rewrite list_insert_id by done. destruct c. apply IH.
Qed.
End Exec.

(** A thread that has nothing left to do. *)
Definition finished {A} (th : Thread A) : Prop :=
  match prog A th with Ret _ _ | Throw _ | Fault _ => True | _ => False end.

(** A thread at a call to the outside. *)
Definition calling {A} (th : Thread A) : option Rq :=
  match prog A th with Fetch _ rq _ => Some rq | _ => None end.

(** ** A program logic *)

Section Logic.
Context {G : Type}.
Variable Inv : St -> Prop.
Variable Rel : G -> St -> St -> G -> Prop.
(** What a ghost says of the object, whatever the other threads do. *)
Variable own : G -> St -> Prop.
(** What a request may be, and when a thread may wait. *)
Variable may_send : G -> Rq -> Prop.
Variable may_wait : G -> (St -> bool) -> Prop.

(** From ghost [g], the program keeps the invariant, moves as [Rel] allows, never faults,
    and ends in [Q] or with an exception in [X]. *)
Fixpoint wp {A} (p : Prog A) (g : G) (Q : A -> G -> Prop) (X : G -> Prop) : Prop :=
  match p with
  | Ret _ a => Q a g
  | Throw _ => X g
  | Fault _ => False
  | Now _ k => forall t, time_ok t -> wp (k t) g Q X
  | Fetch _ rq k => may_send g rq /\ forall o, (forall r, o = Some r -> resp_ok r) -> wp (k o) g Q X
  | Atomic _ _ sec k => forall t s, time_ok t -> Inv s -> own g s ->
      Inv (sec t s).2 /\ exists g', Rel g s (sec t s).2 g' /\ wp (k (sec t s).1) g' Q X
  | Await _ _ ready sec k => may_wait g ready /\ forall t s, time_ok t -> Inv s -> own g s ->
      Inv (sec t s).2 /\
      match (sec t s).1 with
      | Some b => exists g', Rel g s (sec t s).2 g' /\ wp (k b) g' Q X
      | None => Rel g s (sec t s).2 g
      end
  end.

Lemma wp_mono {A} (p : Prog A) g (Q Q' : A -> G -> Prop) (X X' : G -> Prop) :
  wp p g Q X -> (forall a g, Q a g -> Q' a g) -> (forall g, X g -> X' g) -> wp p g Q' X'.
Proof.
  intros H HQ HX. revert g H. induction p as [a| | |k IH|rq k IH|B sec k IH|B ready sec k IH];
    intros g; simpl; auto.
  - intros [Hm H]. split; [done |]. intros o Ho. auto.
  - intros H t s Ht Hs Ho. destruct (H t s Ht Hs Ho) as (Hi & g' & Hr & Hk). split; [done |]. eauto.
  - intros [Hm H]. split; [done |]. intros t s Ht Hs Ho. destruct (H t s Ht Hs Ho) as [Hi Hk].
    split; [done |]. destruct (sec t s).1; [|done]. destruct Hk as (g' & Hr & Hk). eauto.
Qed.

Lemma wp_bind {A B} (p : Prog A) (f : A -> Prog B) g (Q : B -> G -> Prop) (X : G -> Prop) :
  wp p g (λ a g', wp (f a) g' Q X) X -> wp (prog_bind f p) g Q X.
Proof.
  revert g. induction p as [a| | |k IH|rq k IH|C sec k IH|C ready sec k IH]; intros g; simpl; auto.
  - intros [Hm H]. split; [done |]. intros o Ho. auto.
  - intros H t s Ht Hs Ho. destruct (H t s Ht Hs Ho) as (Hi & g' & Hr & Hk). split; [done |]. eauto.
  - intros [Hm H]. split; [done |]. intros t s Ht Hs Ho. destruct (H t s Ht Hs Ho) as [Hi Hk].
    split; [done |]. destruct (sec t s).1; [|done]. destruct Hk as (g' & Hr & Hk). eauto.
Qed.

Lemma wp_try {A} (p h : Prog A) g (Q : A -> G -> Prop) (X : G -> Prop) :
  wp p g Q (λ g', wp h g' Q X) -> wp (try_catch h p) g Q X.
Proof.
  revert g. induction p as [a| | |k IH|rq k IH|C sec k IH|C ready sec k IH]; intros g; simpl; auto.
  - intros [Hm H]. split; [done |]. intros o Ho. auto.
  - intros H t s Ht Hs Ho. destruct (H t s Ht Hs Ho) as (Hi & g' & Hr & Hk). split; [done |]. eauto.
  - intros [Hm H]. split; [done |]. intros t s Ht Hs Ho. destruct (H t s Ht Hs Ho) as [Hi Hk].
    split; [done |]. destruct (sec t s).1; [|done]. destruct Hk as (g' & Hr & Hk). eauto.
Qed.

(** ** From one thread to every interleaving *)

Section PoolInvariant.
(** What ties the object to the ghosts of all threads. *)
Variable Global : St -> list G -> Prop.
Hypothesis global_step : forall s gs i g s' g',
  Inv s -> Global s gs -> gs !! i = Some g -> Rel g s s' g' -> Global s' (<[i := g']> gs).
Hypothesis global_own : forall s gs i g, Global s gs -> gs !! i = Some g -> own g s.

Context {A : Type} (Q : A -> G -> Prop) (X : G -> Prop).

(** The thread is proved from its ghost; it sleeps only at a wait. *)
Definition thread_ok (th : Thread A) (g : G) : Prop :=
  wp (prog A th) g Q X /\
  (asleep A th = true -> exists B ready sec k, prog A th = Await A B ready sec k).

Definition pool_ok (c : Pool A) : Prop :=
  Inv (shared A c) /\
  exists gs, Global (shared A c) gs /\ Forall2 thread_ok (threads A c) gs.

Lemma thread_step_ok s th s' th' g :
  thread_step s th s' th' -> Inv s -> own g s -> thread_ok th g ->
  Inv s' /\ exists g', (Rel g s s' g' \/ s' = s /\ g' = g) /\ thread_ok th' g'.
Proof.
  intros Hst Hs Ho [Hw Ha]. destruct Hst; cbn [prog asleep wp] in *.
  - split; [done |]. exists g. split; [by right |]. split; simpl; [auto | done].
  - split; [done |]. exists g. split; [by right |]. split; simpl; [|done]. by apply Hw.
  - destruct (Hw t s) as (Hi & g' & Hr & Hk); [done.. |]. rewrite H0 in *. split; [done |].
    exists g'. split; [by left |]. by split.
  - destruct Hw as [_ Hw]. destruct (Hw t s) as (Hi & Hk); [done.. |]. rewrite H0 in *.
    destruct Hk as (g' & Hr & Hk). split; [done |]. exists g'. split; [by left |]. by split.
  - destruct (proj2 Hw t s) as (Hi & Hk); [done.. |]. rewrite H0 in *. split; [done |].
    exists g. split; [by left |]. split; [exact Hw |]. intros _. by eexists _, _, _, _.
  - split; [done |]. exists g. split; [by right |]. by split.
Qed.

Lemma pool_step_ok c c' : pool_ok c -> pool_step c c' -> pool_ok c'.
Proof.
  intros (Hs & gs & Hg & Hall) (i & th & th' & Hi & Hst & Hth).
  destruct (Forall2_lookup_l _ _ _ _ _ Hall Hi) as (g & Hgi & Hok).
  destruct (thread_step_ok _ _ _ _ _ Hst Hs (global_own _ _ _ _ Hg Hgi) Hok) as (Hs' & g' & Hr & Hok').
  split; [done |]. exists (<[i := g']> gs). split.
  - destruct Hr as [Hr|[-> ->]]; [exact (global_step _ _ _ _ _ _ Hs Hg Hgi Hr) |]. by rewrite list_insert_id by done.
  - rewrite Hth. by apply Forall2_insert.
Qed.

Theorem pool_invariant c c' : pool_ok c -> rtc pool_step c c' -> pool_ok c'.
Proof. intros Hok Hr. induction Hr; eauto using pool_step_ok. Qed.

(** ** Nobody waits for ever *)

(** A rank on ghosts: whoever sleeps, sleeps because of a thread of lower rank that is not
    done. *)
Variable rank : G -> nat.
Hypothesis waits_for : forall s gs g ready, Inv s -> Global s gs -> g ∈ gs ->
  may_wait g ready -> ready s = false ->
  exists g', g' ∈ gs /\ (rank g' < rank g)%nat /\ ~ X g' /\ forall a, ~ Q a g'.

Lemma thread_moves s th g t :
  time_ok t -> thread_ok th g -> ~ finished th -> asleep A th = false ->
  exists s' th', thread_step s th s' th'.
Proof.
  intros Ht [Hw _] Hf Ha. destruct th as [p b]. cbn [asleep prog] in *. subst b.
  destruct p as [a| | |k|rq k|B sec k|B ready sec k]; try (by exfalso; apply Hf).
  - eexists _, _. by apply step_now with (t := t).
  - eexists _, _. by apply step_fetch with (o := None).
  - destruct (sec t s) as [b' s'] eqn:E. eexists _, _. by apply step_atomic with (t := t) (s' := s') (b := b').
  - destruct (sec t s) as [[b'|] s'] eqn:E; eexists _, _.
    + by apply step_await with (t := t) (s' := s') (b := b').
    + by apply step_sleep with (t := t) (s' := s').
Qed.

(** A thread that is not done can move, or one of lower rank can. *)
Lemma ranked_moves s ths gs t :
  time_ok t -> Inv s -> Global s gs -> Forall2 thread_ok ths gs ->
  forall n i th g, (rank g < n)%nat -> ths !! i = Some th -> gs !! i = Some g -> ~ finished th ->
  exists j th' s' th'', ths !! j = Some th' /\ thread_step s th' s' th''.
Proof.
  intros Ht Hs Hg Hall n. induction n as [|n IH]; intros i th g Hn Hi Hgi Hf; [lia |].
  destruct (Forall2_lookup_l _ _ _ _ _ Hall Hi) as (g0 & Hgi' & Hok). rewrite Hgi in Hgi'. injection Hgi' as <-.
  destruct (asleep A th) eqn:Ea.
  2:{ destruct (thread_moves s th g t Ht Hok Hf Ea) as (s' & th' & Hst). by exists i, th, s', th'. }
  destruct Hok as [Hw Hp]. destruct (Hp Ea) as (B & ready & sec & k & Ep).
  destruct th as [p b]. cbn [prog asleep] in *. subst p b. destruct Hw as [Hm _].
  destruct (ready s) eqn:Er; [by eexists i, _, _, _; split; [exact Hi | by apply step_wake] |].
  destruct (waits_for s gs g ready) as (g' & Hin & Hr & Hx & Hq);
    [done | done | by eapply list_elem_of_lookup_2 | done | done |].
  apply list_elem_of_lookup in Hin as [j Hj]. destruct (Forall2_lookup_r _ _ _ _ _ Hall Hj) as (th' & Hj' & [Hw' _]).
  apply (IH j th' g'); [lia | done | done |]. intros Hf'. destruct th' as [p' b']. unfold finished in Hf'.
  cbn [prog] in *. destruct p'; try done; by eapply Hq || by apply Hx.
Qed.

Theorem pool_progress c t :
  time_ok t -> pool_ok c -> Forall finished (threads A c) \/ exists c', pool_step c c'.
Proof.
  intros Ht (Hs & gs & Hg & Hall).
  assert (Hdec : forall th, finished (A := A) th \/ ~ finished th)
    by (intros [p' b']; unfold finished; destruct p'; simpl; auto).
  destruct (Forall_Exists_dec_prop (threads A c) Hdec) as [Hf|(i & th & Hi & Hn)]; [by left | right].
  destruct (Forall2_lookup_l _ _ _ _ _ Hall Hi) as (g & Hgi & Hok).
  destruct (ranked_moves (shared A c) (threads A c) gs t Ht Hs Hg Hall (S (rank g)) i th g)
    as (j & th' & s' & th'' & Hj & Hst); [lia | done | done | done |].
  exists (mkPool A s' (<[j := th'']> (threads A c))). by exists j, th', th''.
Qed.
End PoolInvariant.
End Logic.
End Prog.

Arguments Ret {St Rq Rs A} a.
Arguments Throw {St Rq Rs A}.
Arguments Fault {St Rq Rs A}.
Arguments Now {St Rq Rs A} k.
Arguments Fetch {St Rq Rs A} rq k.
Arguments Atomic {St Rq Rs A B} sec k.
Arguments Await {St Rq Rs A B} ready sec k.
Arguments Returned {A} a.
Arguments Threw {A}.
Arguments Faulted {A}.
Arguments Stuck {A}.
Arguments prog_bind {St Rq Rs A B} f p.
Arguments try_catch {St Rq Rs A} h p.
Arguments run {St Rq Rs} now net {A} p n s.
Arguments mkThread {St Rq Rs A} prog asleep.
Arguments prog {St Rq Rs A} t.
Arguments asleep {St Rq Rs A} t.
Arguments mkPool {St Rq Rs A} shared threads.
Arguments shared {St Rq Rs A} p.
Arguments threads {St Rq Rs A} p.
Arguments advance {St Rq Rs} now net {A} n s th.
Arguments exec {St Rq Rs} now net {A} schedule n c.
Arguments exec_reaches {St Rq Rs} time_ok resp_ok now net now_ok net_ok {A} schedule n c.
Arguments finished {St Rq Rs A} th.
Arguments calling {St Rq Rs A} th.
Arguments thread_step {St Rq Rs} time_ok resp_ok {A} s th s' th' : rename.
Arguments pool_step {St Rq Rs} time_ok resp_ok {A} c c'.
Arguments wp {St Rq Rs} time_ok resp_ok {G} Inv Rel own may_send may_wait {A} p g Q X.

(** ** An object inside another *)

(** A program over a member of type [S] of an object [T]; its calls are some of the calls of
    the larger one, and a return value that it does not understand is an exception. *)
Section Zoom.
Context {S T Rq Rq' Rs Rs' : Type}.
Variable get : T -> S.
Variable put : S -> T -> T.
Variable call : Rq -> Rq'.
Variable ret : Rs' -> option Rs.

Fixpoint zoom {A} (p : Prog S Rq Rs A) : Prog T Rq' Rs' A :=
  match p with
  | Ret a => Ret a
  | Throw => Throw
  | Fault => Fault
  | Now k => Now (λ t, zoom (k t))
  | Fetch rq k => Fetch (call rq) (λ o, zoom (k (r ← o; ret r)))
  | Atomic sec k => Atomic (λ t s, let '(b, x) := sec t (get s) in (b, put x s)) (λ b, zoom (k b))
  | Await ready sec k =>
      Await (λ s, ready (get s)) (λ t s, let '(b, x) := sec t (get s) in (b, put x s)) (λ b, zoom (k b))
  end.

Context {G H : Type} (time_ok : Z -> Prop) (resp_ok : Rs -> Prop) (resp_ok' : Rs' -> Prop).
Context (Inv : S -> Prop) (Inv' : T -> Prop).
Context (Rel : G -> S -> S -> G -> Prop) (Rel' : H -> T -> T -> H -> Prop).
Context (own : G -> S -> Prop) (own' : H -> T -> Prop).
Context (may_send : G -> Rq -> Prop) (may_send' : H -> Rq' -> Prop).
Context (may_wait : G -> (S -> bool) -> Prop) (may_wait' : H -> (T -> bool) -> Prop).
Variable up : G -> H.
Hypothesis ret_ok : forall r x, resp_ok' r -> ret r = Some x -> resp_ok x.
Hypothesis inv_get : forall s, Inv' s -> Inv (get s).
Hypothesis inv_put : forall x s, Inv x -> Inv' s -> Inv' (put x s).
Hypothesis rel_put : forall g g' x s, Rel g (get s) x g' -> Rel' (up g) s (put x s) (up g').
Hypothesis own_up : forall g s, own' (up g) s -> own g (get s).
Hypothesis send_up : forall g rq, may_send g rq -> may_send' (up g) (call rq).
Hypothesis wait_up : forall g ready, may_wait g ready -> may_wait' (up g) (λ s, ready (get s)).

Lemma wp_zoom {A} (p : Prog S Rq Rs A) g (Q : A -> G -> Prop) (X : G -> Prop) (Q' : A -> H -> Prop) (X' : H -> Prop) :
  wp time_ok resp_ok Inv Rel own may_send may_wait p g Q X ->
  (forall a g, Q a g -> Q' a (up g)) -> (forall g, X g -> X' (up g)) ->
  wp time_ok resp_ok' Inv' Rel' own' may_send' may_wait' (zoom p) (up g) Q' X'.
Proof.
  intros Hw HQ HX. revert g Hw. induction p as [a| | |k IH|rq k IH|C sec k IH|C ready sec k IH];
    intros g; cbn [wp zoom]; auto.
  - intros [Hm Hw]. split; [auto |]. intros o Ho. apply IH, Hw. intros x Hx.
    destruct o as [r|]; [|done]. eauto.
  - intros Hw t s Ht Hs Ho. destruct (Hw t (get s) Ht (inv_get s Hs) (own_up _ _ Ho)) as (Hi & g' & Hr & Hk).
    destruct (sec t (get s)) as [b x]. cbn [fst snd] in *. split; [auto |]. exists (up g'). auto.
  - intros [Hm Hw]. split; [auto |]. intros t s Ht Hs Ho. destruct (Hw t (get s) Ht (inv_get s Hs) (own_up _ _ Ho)) as (Hi & Hk).
    destruct (sec t (get s)) as [[b|] x]; cbn [fst snd] in *; (split; [auto |]).
    + destruct Hk as (g' & Hr & Hk). exists (up g'). auto.
    + auto.
Qed.
End Zoom.

(** ** Labelled threads *)

(** A label per thread that no step changes, to say at the end whose ghost it is. *)
Section Label.
Context {St Rq Rs G L : Type} (time_ok : Z -> Prop) (resp_ok : Rs -> Prop).
Context (Inv : St -> Prop) (Rel : G -> St -> St -> G -> Prop) (own : G -> St -> Prop).
Context (may_send : G -> Rq -> Prop) (may_wait : G -> (St -> bool) -> Prop).

Definition labelled (g : L * G) (s s' : St) (g' : L * G) : Prop := g'.1 = g.1 /\ Rel g.2 s s' g'.2.

Lemma wp_label {A} (p : Prog St Rq Rs A) l g (Q : A -> G -> Prop) (X : G -> Prop) :
  wp time_ok resp_ok Inv Rel own may_send may_wait p g Q X ->
  wp time_ok resp_ok Inv labelled (λ g, own g.2) (λ g, may_send g.2) (λ g, may_wait g.2) p (l, g)
    (λ a g', g'.1 = l /\ Q a g'.2) (λ g', g'.1 = l /\ X g'.2).
Proof.
  revert g. induction p as [a| | |k IH|rq k IH|C sec k IH|C ready sec k IH]; intros g; cbn [wp fst snd]; auto.
  - intros [Hm Hw]. split; auto.
  - intros Hw t s Ht Hs Ho. destruct (Hw t s Ht Hs Ho) as (Hi & g' & Hr & Hk). split; [done |].
    exists (l, g'). split; [by split | auto].
  - intros [Hm Hw]. split; [done |]. intros t s Ht Hs Ho. destruct (Hw t s Ht Hs Ho) as (Hi & Hk). split; [done |].
    destruct (sec t s).1; [|by split]. destruct Hk as (g' & Hr & Hk). exists (l, g'). split; [by split | auto].
Qed.
End Label.

#[export] Instance prog_ret_inst St Rq Rs : MRet (Prog St Rq Rs) := λ A, Ret.
#[export] Instance prog_bind_inst St Rq Rs : MBind (Prog St Rq Rs) := λ A B, prog_bind.

(** A computation that may fault. *)
Definition checked {St Rq Rs A} (o : option A) : Prog St Rq Rs A :=
  match o with Some a => Ret a | None => Fault end.
(** One request; a failed call is an exception. *)
Definition fetch {St Rq Rs} (rq : Rq) : Prog St Rq Rs Rs :=
  Fetch rq (λ o, match o with Some r => Ret r | None => Throw end).
Definition atomic {St Rq Rs B} (sec : Z -> St -> B * St) : Prog St Rq Rs B := Atomic sec Ret.
Definition nowMs {St Rq Rs} : Prog St Rq Rs Z := Now Ret.

(** ** What a thread asks and is answered

    [trace p tr o]: among whatever other threads, [p] made the calls of [tr] with their
    answers so far; [o] is its result if it returned. *)
Section Traces.
Context {St Rq Rs : Type}.

Fixpoint trace {A} (p : Prog St Rq Rs A) (tr : list (Rq * option Rs)) (o : option A) : Prop :=
  (tr = [] /\ o = None) \/
  match p with
  | Ret a => tr = [] /\ o = Some a
  | Throw | Fault => False
  | Now k => exists t, trace (k t) tr o
  | Fetch rq k => exists r tr', tr = (rq, r) :: tr' /\ trace (k r) tr' o
  | Atomic sec k => exists t s, trace (k (sec t s).1) tr o
  | Await _ sec k => exists t s b, (sec t s).1 = Some b /\ trace (k b) tr o
  end.

Lemma trace_on {A} (p : Prog St Rq Rs A) : trace p [] None.
Proof. destruct p; by left. Qed.

Lemma trace_bind {A B} (p : Prog St Rq Rs A) (f : A -> Prog St Rq Rs B) tr o :
  trace (prog_bind f p) tr o ->
  (trace p tr None /\ o = None) \/ exists a tr1 tr2, tr = tr1 ++ tr2 /\ trace p tr1 (Some a) /\ trace (f a) tr2 o.
Proof.
  revert tr. induction p as [a| | |k IH|rq k IH|C sec k IH|C ready sec k IH]; intros tr; cbn.
  - intros H. right. exists a, [], tr. split_and!; [done | by right | done].
  - intros [[-> ->]|[]]. left. split; [by left | done].
  - intros [[-> ->]|[]]. left. split; [by left | done].
  - intros [[-> ->]|(t & Ht)]; [left; split; [by left | done] |].
    destruct (IH _ _ Ht) as [[? ->]|(a & tr1 & tr2 & -> & ? & ?)]; [left; split; [right; eauto | done] |].
    right. exists a, tr1, tr2. split_and!; [done | right; eauto | done].
  - intros [[-> ->]|(r & tr' & -> & Ht)]; [left; split; [by left | done] |].
    destruct (IH _ _ Ht) as [[? ->]|(a & tr1 & tr2 & -> & ? & ?)]; [left; split; [right; eauto | done] |].
    right. exists a, ((rq, r) :: tr1), tr2. split_and!; [done | right; eauto | done].
  - intros [[-> ->]|(t & s & Ht)]; [left; split; [by left | done] |].
    destruct (IH _ _ Ht) as [[? ->]|(a & tr1 & tr2 & -> & ? & ?)]; [left; split; [right; eauto | done] |].
    right. exists a, tr1, tr2. split_and!; [done | right; eauto | done].
  - intros [[-> ->]|(t & s & b & Hb & Ht)]; [left; split; [by left | done] |].
    destruct (IH _ _ Ht) as [[? ->]|(a & tr1 & tr2 & -> & ? & ?)]; [left; split; [right; eauto 6 | done] |].
    right. exists a, tr1, tr2. split_and!; [done | right; eauto 6 | done].
Qed.

(** A property of every call a program makes. *)
Fixpoint calls_only {A} (P : Rq -> Prop) (p : Prog St Rq Rs A) : Prop :=
  match p with
  | Ret _ | Throw | Fault => True
  | Now k => forall t, calls_only P (k t)
  | Fetch rq k => P rq /\ forall r, calls_only P (k r)
  | Atomic sec k => forall b, calls_only P (k b)
  | Await _ sec k => forall b, calls_only P (k b)
  end.
Lemma calls_only_bind {A B} P (p : Prog St Rq Rs A) (f : A -> Prog St Rq Rs B) :
  calls_only P p -> (forall a, calls_only P (f a)) -> calls_only P (prog_bind f p).
Proof. intros Hp Hf. induction p; cbn in *; try done; firstorder. Qed.
Lemma trace_calls_only {A} P (p : Prog St Rq Rs A) tr o : calls_only P p -> trace p tr o -> Forall (λ e, P e.1) tr.
Proof.
  revert tr. induction p as [a| | |k IH|rq k IH|C sec k IH|C ready sec k IH]; intros tr H [[-> _]|Ht]; cbn in *; try by constructor.
  - by destruct Ht as [-> _].
  - done.
  - done.
  - destruct Ht as [t Ht]. eauto.
  - destruct Ht as (r & tr' & -> & Ht). destruct H. constructor; eauto.
  - destruct Ht as (t & s & Ht). eauto.
  - destruct Ht as (t & s & b & _ & Ht). eauto.
Qed.

(** A trace that one thread makes alone, answered from a script. *)
Fixpoint played {A} (p : Prog St Rq Rs A) (script : list (option Rs)) (s : St) : list (Rq * option Rs) * option A :=
  match p with
  | Ret a => ([], Some a)
  | Throw | Fault => ([], None)
  | Now k => played (k 0) script s
  | Fetch rq k =>
      match script with
      | [] => ([], None)
      | r :: script => let '(tr, o) := played (k r) script s in ((rq, r) :: tr, o)
      end
  | Atomic sec k => let '(b, s') := sec 0 s in played (k b) script s'
  | Await _ sec k => match sec 0 s with (Some b, s') => played (k b) script s' | (None, _) => ([], None) end
  end.
Lemma played_trace {A} (p : Prog St Rq Rs A) script s : trace p (played p script s).1 (played p script s).2.
Proof.
  revert script s. induction p as [a| | |k IH|rq k IH|C sec k IH|C ready sec k IH]; intros script s; cbn.
  - by right.
  - by left.
  - by left.
  - right. eauto.
  - destruct script as [|r script]; [by left |]. right. specialize (IH r script s). destruct (played (k r) script s) as [tr o]. eauto.
  - right. exists 0, s. destruct (sec 0 s) as [b s']. eauto.
  - destruct (sec 0 s) as [[b|] s'] eqn:E; [|by left]. right. exists 0, s, b. by rewrite E.
Qed.
End Traces.
