(* ===== verification/Calls.v ===== *)
(** * Calls: programs that call the operating system

    Much of the program outside the registries is a sequence of system calls whose results
    decide what comes next: handles are opened and closed, processes started and awaited,
    files written. Such code is a program of type [Sys]: a tree of calls, each with the
    type of its answer, and everything between them computed purely.

    - [play] runs a program against an oracle that answers from the history; it is total
      and executable;
    - [wps] is a program logic: a ledger [L] says what the calls so far amount to (which
      handles are open, how many processes run), [legal] which calls may be made then,
      [answers] what may come back, [after] what the ledger is then;
    - [wps_play] says that what [wps] proves holds of every run. *)

From S2P Require Import Prelude.

Section Sys.
(** Calls, and the type of the answer of each. *)
Context {C : Type} {R : C -> Type}.

Inductive Sys (A : Type) : Type :=
  | Done (a : A)
  | Call (c : C) (k : R c -> Sys A).

Fixpoint sys_bind {A B} (f : A -> Sys B) (p : Sys A) : Sys B :=
  match p with
  | Done _ a => f a
  | Call _ c k => Call B c (λ r, sys_bind f (k r))
  end.

Definition Event : Type := { c : C & R c }.

(** ** Runs *)

Definition Oracle : Type := list Event -> forall c, R c.

(** The result, and the history of calls and answers. *)
Fixpoint play {A} (oracle : Oracle) (p : Sys A) (history : list Event) : A * list Event :=
  match p with
  | Done _ a => (a, history)
  | Call _ c k => let r := oracle history c in play oracle (k r) (history ++ [existT c r])
  end.

Lemma play_bind {A B} oracle (f : A -> Sys B) (p : Sys A) h :
  play oracle (sys_bind f p) h = let '(a, h') := play oracle p h in play oracle (f a) h'.
Proof. revert h. induction p as [a|c k IH]; intros h; cbn; [done | apply IH]. Qed.

(** ** A program logic *)

Section Logic.
Context {L : Type}.
Variable legal : L -> C -> Prop.
Variable answers : L -> forall c, R c -> Prop.
Variable after : L -> forall c, R c -> L.

Fixpoint wps {A} (p : Sys A) (l : L) (Q : A -> L -> Prop) : Prop :=
  match p with
  | Done _ a => Q a l
  | Call _ c k => legal l c /\ forall r, answers l c r -> wps (k r) (after l c r) Q
  end.

Lemma wps_bind {A B} (p : Sys A) (f : A -> Sys B) l (Q : B -> L -> Prop) :
  wps p l (λ a l', wps (f a) l' Q) -> wps (sys_bind f p) l Q.
Proof.
  revert l. induction p as [a|c k IH]; intros l; cbn; [done |]. intros [Hl Hk]. split; [done |]. auto.
Qed.

Lemma wps_mono {A} (p : Sys A) l (Q Q' : A -> L -> Prop) :
  wps p l Q -> (forall a l, Q a l -> Q' a l) -> wps p l Q'.
Proof.
  intros H HQ. revert l H. induction p as [a|c k IH]; intros l; cbn; [auto |]. intros [Hl Hk]. split; auto.
Qed.

(** The ledger of a history. *)
Definition ledger (l : L) (history : list Event) : L :=
  fold_left (λ l e, after l (projT1 e) (projT2 e)) history l.

(** Every call of the history was legal when it was made, and answered as the world may. *)
Fixpoint all_legal (l : L) (history : list Event) : Prop :=
  match history with
  | [] => True
  | e :: history => legal l (projT1 e) /\ all_legal (after l (projT1 e) (projT2 e)) history
  end.
Fixpoint all_answered (l : L) (history : list Event) : Prop :=
  match history with
  | [] => True
  | e :: history => answers l (projT1 e) (projT2 e) /\ all_answered (after l (projT1 e) (projT2 e)) history
  end.

Lemma all_legal_snoc l h e : all_legal l h -> legal (ledger l h) (projT1 e) -> all_legal l (h ++ [e]).
Proof. revert l. induction h as [|x h IH]; intros l; cbn; [done |]. intros [Hx Hh] He. split; auto. Qed.
Lemma all_answered_snoc l h e :
  all_answered l h -> answers (ledger l h) (projT1 e) (projT2 e) -> all_answered l (h ++ [e]).
Proof. revert l. induction h as [|x h IH]; intros l; cbn; [done |]. intros [Hx Hh] He. split; auto. Qed.
Lemma ledger_snoc l h e : ledger l (h ++ [e]) = after (ledger l h) (projT1 e) (projT2 e).
Proof. unfold ledger. by rewrite fold_left_app. Qed.

(** An oracle that answers as the world may, after every history it may have produced. *)
Definition honest (l : L) (oracle : Oracle) : Prop :=
  forall h c, all_answered l h -> answers (ledger l h) c (oracle h c).

(** A history so far. *)
Definition valid (l : L) (h : list Event) : Prop := all_legal l h /\ all_answered l h.

Theorem wps_play {A} l oracle (p : Sys A) h (Q : A -> L -> Prop) :
  honest l oracle -> valid l h -> wps p (ledger l h) Q ->
  let '(a, h') := play oracle p h in Q a (ledger l h') /\ valid l h'.
Proof.
  intros Ho. revert h. induction p as [a|c k IH]; intros h [Hh Ha]; cbn; [done |]. intros [Hl Hk].
  apply IH; [split; [by apply all_legal_snoc | by apply all_answered_snoc, Ho] |]. rewrite ledger_snoc. cbn. by apply Hk, Ho.
Qed.
End Logic.
End Sys.

Arguments Sys {C} R A.
Arguments Done {C R A} a.
Arguments Call {C R A} c k.
Arguments Event {C} R.
Arguments Oracle {C} R.
Arguments wps {C R L} legal answers after {A} p l Q.
Arguments ledger {C R L} after l history.
Arguments all_legal {C R L} legal after l history.
Arguments all_answered {C R L} answers after l history.
Arguments honest {C R L} answers after l oracle.
Arguments valid {C R L} legal answers after l h.

#[export] Instance sys_ret_inst {C} (R : C -> Type) : MRet (Sys R) := λ A, Done.
#[export] Instance sys_bind_inst {C} (R : C -> Type) : MBind (Sys R) := λ A B, sys_bind.

(** One call. *)
Definition call {C} {R : C -> Type} (c : C) : Sys R (R c) := Call c Done.

(** One call, and what follows it. *)
Lemma wps_do {C} {R : C -> Type} {L A} (legal : L -> C -> Prop) (answers : L -> forall c, R c -> Prop)
  (after : L -> forall c, R c -> L) c (k : R c -> Sys R A) l Q :
  legal l c -> (forall r, answers l c r -> wps legal answers after (k r) (after l c r) Q) ->
  wps legal answers after (sys_bind k (call c)) l Q.
Proof. intros Hl Hk. by split. Qed.
