(* ===== verification/Json.v ===== *)
(** * Json: the shallow JSON helpers

    Models [src/src/Json.hpp] (namespace [json]). A [std::string] is the list of its
    octets, a position is a [nat] and [npos] is [None]; the test [pos < s.size()] and
    the access [s[pos]] it guards are one lookup [s !! pos]. Every loop carries fuel
    and answers [None] when it runs out; the callers give it more fuel than the string
    has characters, and the lemmas named [*_total] show that is enough. *)

From S2P Require Import Prelude.

Definition cQuote : Z := 34.
Definition cBackslash : Z := 92.
Definition cColon : Z := 58.
Definition cComma : Z := 44.

Definition is_ws (c : Z) : bool := (c =? 32) || (c =? 9) || (c =? 10) || (c =? 13).

Definition isxdigit (c : Z) : bool :=
  isdigit c || ((65 <=? c) && (c <=? 70)) || ((97 <=? c) && (c <=? 102)).

(** [while (pos < s.size() && is_ws(s[pos])) pos++;] *)
Fixpoint skipWs_loop (fuel : nat) (s : bytes) (pos : nat) : option nat :=
  match fuel with
  | O => None
  | S f =>
      match s !! pos with
      | Some c => if is_ws c then skipWs_loop f s (S pos) else Some pos
      | None => Some pos
      end
  end.
Definition skipWs (s : bytes) (pos : nat) : nat :=
  default pos (skipWs_loop (S (length s)) s pos).

(** [s.find(needle, from)] *)
Fixpoint find_loop (fuel : nat) (s needle : bytes) (i : nat) : option nat :=
  match fuel with
  | O => None
  | S f => if starts_with (drop i s) needle then Some i else find_loop f s needle (S i)
  end.
Definition find_sub (s needle : bytes) (from : nat) : option nat :=
  find_loop (S (length s) - from) s needle from.

(** The [for] loop of [findValue]; the outer [None] is out of fuel. *)
Fixpoint findValue_loop (fuel : nat) (s needle : bytes) (from : nat) : option (option nat) :=
  match fuel with
  | O => None
  | S f =>
      match find_sub s needle from with
      | None => Some None
      | Some pos =>
          let colon := skipWs s (pos + length needle) in
          if bool_decide (s !! colon = Some cColon) then Some (Some (skipWs s (S colon)))
          else findValue_loop f s needle (S pos)
      end
  end.
Definition findValue (s key : bytes) (from : nat) : option nat :=
  default None (findValue_loop (S (S (length s))) s ([cQuote] ++ key ++ [cQuote]) from).

(** [(unsigned)(c <= '9' ? c - '0' : (c | 0x20) - 'a' + 10)] *)
Definition hexval (c : Z) : Z := if c <=? 57 then c - 48 else Z.lor c 0x20 - 97 + 10.

(** [while (digits < 4 && pos < s.size() && isxdigit(s[pos]))]: the code, the number of
    digits and the position after them. *)
Fixpoint hex_loop (n : nat) (s : bytes) (pos : nat) (code : Z) (digits : nat) : Z * nat * nat :=
  match n with
  | O => (code, digits, pos)
  | S n =>
      match s !! pos with
      | Some c =>
          if isxdigit c then hex_loop n s (S pos) (code * 16 + hexval c) (S digits)
          else (code, digits, pos)
      | None => (code, digits, pos)
      end
  end.

Definition cQuestion : Z := 63.

(** One escape, [esc] being the character after the backslash and [pos] the position
    after it: what is appended and where the scan goes on. *)
Definition parseEscape (s : bytes) (esc : Z) (pos : nat) : bytes * nat :=
  if esc =? 110 then ([10], pos)
  else if esc =? 116 then ([9], pos)
  else if esc =? 114 then ([13], pos)
  else if esc =? 98 then ([8], pos)
  else if esc =? 102 then ([12], pos)
  else if esc =? 117 then
    let '(code, digits, pos) := hex_loop 4 s pos 0 0 in
    ([if bool_decide (digits = 4%nat) && (code <? 0x80) then code else cQuestion], pos)
  else ([esc], pos).

(** The body of the literal: the decoded text and the position where the scan stopped
    (at the closing quote, or at the end of the input). *)
Fixpoint parseString_loop (fuel : nat) (s : bytes) (pos : nat) (out : bytes)
    : option (bytes * nat) :=
  match fuel with
  | O => None
  | S f =>
      match s !! pos with
      | None => Some (out, pos)
      | Some c =>
          if c =? cQuote then Some (out, pos)
          else if negb (c =? cBackslash) then parseString_loop f s (S pos) (out ++ [c])
          else
            match s !! S pos with
            | None => Some (out, S pos)
            | Some esc =>
                let '(add, pos) := parseEscape s esc (S (S pos)) in
                parseString_loop f s pos (out ++ add)
            end
      end
  end.

(** The decoded text and [endPos]. *)
Definition parseString (s : bytes) (pos : nat) : bytes * nat :=
  if negb (bool_decide (s !! pos = Some cQuote)) then ([], pos) else
  let '(out, pos) := default ([], 0%nat) (parseString_loop (S (length s)) s (S pos) []) in
  (out, if bool_decide (pos < length s)%nat then S pos else length s).

Definition getString (s key : bytes) (from : nat) : bytes :=
  match findValue s key from with
  | None => []
  | Some pos => fst (parseString s pos)
  end.

(** [s.compare(pos, 4, "true") == 0] *)
Definition getBool (s key : bytes) : bool :=
  match findValue s key 0 with
  | None => false
  | Some pos => bool_decide (take 4 (drop pos s) = str "true")
  end.

(** [strtoll(p, nullptr, 10)] at a digit or a minus sign: saturates at the range of
    [long long]; a sign without digits is zero. *)
Definition strtoll (s : bytes) : Z :=
  match s with
  | c :: s' =>
      if c =? 45 then Z.max (- 2 ^ 63) (- fst (scan_digits s' 0))
      else Z.min (2 ^ 63 - 1) (fst (scan_digits s 0))
  | [] => 0
  end.

Definition getInt (s key : bytes) (fallback : Z) : Z :=
  match findValue s key 0 with
  | None => fallback
  | Some pos =>
      match s !! pos with
      | Some c => if isdigit c || (c =? 45) then strtoll (drop pos s) else fallback
      | None => fallback
      end
  end.

Fixpoint getStringArray_loop (fuel : nat) (s : bytes) (pos : nat) (out : list bytes)
    : option (list bytes) :=
  match fuel with
  | O => None
  | S f =>
      let pos := skipWs s pos in
      match s !! pos with
      | None => Some out
      | Some c =>
          if c =? 93 then Some out
          else if c =? cComma then getStringArray_loop f s (S pos) out
          else if negb (c =? cQuote) then Some out
          else let '(v, e) := parseString s pos in getStringArray_loop f s e (out ++ [v])
      end
  end.

Definition getStringArray (s key : bytes) : list bytes :=
  match findValue s key 0 with
  | None => []
  | Some pos =>
      if bool_decide (s !! pos = Some 91)
      then default [] (getStringArray_loop (S (S (length s))) s (S pos) [])
      else []
  end.

(** The scan for the matching bracket: [Some (Some pos)] is the position of the bracket
    that closes the value, [Some None] the end of the input. *)
Fixpoint getRaw_loop (fuel : nat) (s : bytes) (open close : Z) (pos : nat) (depth : Z)
    (inString : bool) : option (option nat) :=
  match fuel with
  | O => None
  | S f =>
      match s !! pos with
      | None => Some None
      | Some c =>
          if inString then
            if c =? cBackslash then getRaw_loop f s open close (S (S pos)) depth true
            else if c =? cQuote then getRaw_loop f s open close (S pos) depth false
            else getRaw_loop f s open close (S pos) depth true
          else if c =? cQuote then getRaw_loop f s open close (S pos) depth true
          else if c =? open then getRaw_loop f s open close (S pos) (depth + 1) false
          else if c =? close then
            if depth - 1 =? 0 then Some (Some pos)
            else getRaw_loop f s open close (S pos) (depth - 1) false
          else getRaw_loop f s open close (S pos) depth false
      end
  end.

Definition getRaw (s key : bytes) : bytes :=
  match findValue s key 0 with
  | None => []
  | Some start =>
      match s !! start with
      | None => []
      | Some open =>
          if negb (open =? 123) && negb (open =? 91) then drop start s else
          let close := if open =? 123 then 125 else 93 in
          match default None (getRaw_loop (S (length s)) s open close start 0 false) with
          | Some pos => take (pos - start + 1) (drop start s)
          | None => drop start s
          end
      end
  end.

(** [hex[n]] of "0123456789abcdef" *)
Definition hexdigit (n : Z) : Z := if n <? 10 then 48 + n else 87 + n.

Definition escape_char (c : Z) : bytes :=
  if c =? cQuote then [cBackslash; cQuote]
  else if c =? cBackslash then [cBackslash; cBackslash]
  else if c =? 10 then [cBackslash; 110]
  else if c =? 13 then [cBackslash; 114]
  else if c =? 9 then [cBackslash; 116]
  else if c <? 0x20
  then str "\u00" ++ [hexdigit (Z.shiftr c 4); hexdigit (Z.land c 0xF)]
  else [c].

Definition escape (s : bytes) : bytes := s ≫= escape_char.

(** ** Specifications *)

(** How many blanks a text starts with. *)
Fixpoint leading_ws (l : bytes) : nat :=
  match l with
  | c :: l' => if is_ws c then S (leading_ws l') else O
  | [] => O
  end.

(** [p] is an occurrence of [key] as an object key: the quoted name, then blanks, then
    a colon. *)
Definition key_at (s key : bytes) (p : nat) : Prop :=
  exists ws rest, drop p s = [cQuote] ++ key ++ [cQuote] ++ ws ++ [cColon] ++ rest /\
    Forall (λ c, is_ws c = true) ws.

(** ** Lemmas: the loops have enough fuel *)

Lemma skipWs_loop_total fuel s pos :
  (length s - pos < fuel)%nat ->
  skipWs_loop fuel s pos = Some (pos + leading_ws (drop pos s))%nat.
Proof.
  revert pos. induction fuel as [|f IH]; intros pos Hf; [lia |]. simpl.
  destruct (s !! pos) as [c|] eqn:E.
  - pose proof (lookup_lt_Some _ _ _ E). rewrite (drop_S _ _ _ E). simpl.
    case_if; [|f_equal; lia]. rewrite IH by lia. f_equal. lia.
  - apply lookup_ge_None in E. rewrite drop_ge by done. simpl. f_equal. lia.
Qed.

Lemma skipWs_spec s pos : skipWs s pos = (pos + leading_ws (drop pos s))%nat.
Proof. unfold skipWs. by rewrite skipWs_loop_total by lia. Qed.

Lemma leading_ws_le l : (leading_ws l <= length l)%nat.
Proof. induction l; simpl; [lia |]. case_if; lia. Qed.

Lemma skipWs_bounds s pos :
  (pos <= skipWs s pos)%nat /\ (pos <= length s -> skipWs s pos <= length s)%nat.
Proof.
  rewrite skipWs_spec. pose proof (leading_ws_le (drop pos s)). rewrite length_drop in *. lia.
Qed.

(** At a position that shows the list [ws ++ rest], with [ws] blank and [rest] not
    starting with a blank, the scan stops in front of [rest]. *)
Lemma skipWs_at s pos ws rest :
  drop pos s = ws ++ rest -> Forall (λ c, is_ws c = true) ws ->
  (forall c, head rest = Some c -> is_ws c = false) ->
  skipWs s pos = (pos + length ws)%nat.
Proof.
  intros E Hws Hr. rewrite skipWs_spec, E. f_equal. clear E.
  induction Hws as [|c ws Hc _ IH]; simpl.
  - destruct rest as [|c r]; [done |]. simpl. by rewrite (Hr c eq_refl).
  - by rewrite Hc, IH.
Qed.

Lemma hex_loop_bounds n s pos code digits :
  let '(_, _, p) := hex_loop n s pos code digits in (pos <= p)%nat.
Proof.
  revert pos code digits. induction n as [|n IH]; intros; simpl; [lia |].
  destruct (s !! pos); [|lia]. case_if; [|lia].
  specialize (IH (S pos) (code * 16 + hexval z) (S digits)).
  destruct (hex_loop _ _ _ _ _) as [[??]?]. lia.
Qed.

Lemma parseEscape_bounds s esc pos : (pos <= (parseEscape s esc pos).2)%nat.
Proof.
  unfold parseEscape. pose proof (hex_loop_bounds 4 s pos 0 0).
  destruct (hex_loop _ _ _ _ _) as [[??]?]. repeat case_if; simpl; lia.
Qed.

Lemma parseString_loop_total fuel s pos out :
  (length s - pos < fuel)%nat ->
  exists r p, parseString_loop fuel s pos out = Some (r, p) /\ (pos <= p)%nat.
Proof.
  revert pos out. induction fuel as [|f IH]; intros pos out Hf; [lia |]. simpl.
  destruct (s !! pos) as [c|] eqn:E; [|by eauto].
  pose proof (lookup_lt_Some _ _ _ E). case_if; [by eauto |]. case_if.
  - destruct (IH (S pos) (out ++ [c])) as (r & p & -> & ?); [lia |]. eauto with lia.
  - destruct (s !! S pos) as [esc|] eqn:E2; [|by eauto].
    pose proof (parseEscape_bounds s esc (S (S pos))).
    destruct (parseEscape _ _ _) as [add p1]. simpl in *.
    destruct (IH p1 (out ++ add)) as (r & p & -> & ?); [lia |]. eauto with lia.
Qed.

(** ** Lemmas: [findValue] *)

Lemma starts_with_spec l p : starts_with l p = true <-> exists r, l = p ++ r.
Proof.
  unfold starts_with. rewrite bool_decide_eq_true. split.
  - intros E. exists (drop (length p) l). by rewrite <- E at 1; rewrite take_drop.
  - intros [r ->]. by rewrite take_app_length.
Qed.

Lemma find_loop_spec fuel s needle i :
  needle <> [] -> (S (length s) - i <= fuel)%nat ->
  match find_loop fuel s needle i with
  | Some p => (i <= p < length s)%nat /\ starts_with (drop p s) needle = true /\
      (forall q, i <= q < p -> starts_with (drop q s) needle = false)%nat
  | None => forall q, (i <= q)%nat -> starts_with (drop q s) needle = false
  end.
Proof.
  intros Hne. revert i. induction fuel as [|f IH]; intros i Hf; simpl.
  - intros q Hq. rewrite drop_ge by lia. unfold starts_with. apply bool_decide_eq_false_2.
    rewrite take_nil. auto.
  - case_if.
    + split_and!; [lia | | done | lia].
      destruct (decide (i < length s)%nat); [done |]. exfalso.
      apply starts_with_spec in E as [r Hr]. rewrite drop_ge in Hr by lia.
      symmetry in Hr. by apply app_nil in Hr as [-> _].
    + specialize (IH (S i) ltac:(lia)). destruct (find_loop f s needle (S i)) as [p|].
      * destruct IH as (? & ? & Hq). split_and!; [lia | lia | done |].
        intros q ?. destruct (decide (q = i)) as [->|]; [done | apply Hq; lia].
      * intros q ?. destruct (decide (q = i)) as [->|]; [done | apply IH; lia].
Qed.

Lemma find_sub_spec s needle from :
  needle <> [] ->
  match find_sub s needle from with
  | Some p => (from <= p < length s)%nat /\ starts_with (drop p s) needle = true /\
      (forall q, from <= q < p -> starts_with (drop q s) needle = false)%nat
  | None => forall q, (from <= q)%nat -> starts_with (drop q s) needle = false
  end.
Proof. intros. unfold find_sub. apply find_loop_spec; [done | lia]. Qed.

Lemma key_at_iff s key p :
  key_at s key p <->
  starts_with (drop p s) ([cQuote] ++ key ++ [cQuote]) = true /\
  s !! skipWs s (p + length ([cQuote] ++ key ++ [cQuote])) = Some cColon.
Proof.
  set (needle := [cQuote] ++ key ++ [cQuote]). rewrite starts_with_spec. split.
  - intros (ws & rest & E & Hws). assert (E' : drop p s = needle ++ ws ++ cColon :: rest).
    { rewrite E. unfold needle. by rewrite <- !app_assoc. }
    split; [eauto |]. rewrite (skipWs_at s _ ws (cColon :: rest)).
    + rewrite <- !Nat.add_assoc, <- lookup_drop, E'. rewrite lookup_app_r by lia.
      rewrite lookup_app_r by lia. by replace (_ - _)%nat with 0%nat by lia.
    + rewrite <- drop_drop, E'. by rewrite drop_app_length.
    + done.
    + by intros c [= <-].
  - intros [[r Hr] Hc]. rewrite skipWs_spec in Hc.
    rewrite <- drop_drop, Hr, drop_app_length in Hc.
    rewrite <- !Nat.add_assoc, <- lookup_drop, Hr, lookup_app_r in Hc by lia.
    replace (_ + _ - _)%nat with (leading_ws r) in Hc by lia.
    exists (take (leading_ws r) r), (drop (S (leading_ws r)) r). split.
    + rewrite Hr. unfold needle. rewrite <- !app_assoc. do 2 f_equal.
      change ([cColon] ++ drop (S (leading_ws r)) r) with (cColon :: drop (S (leading_ws r)) r).
      rewrite <- (drop_S _ _ _ Hc), take_drop. done.
    + clear. induction r as [|c r IH]; simpl; [constructor |].
      case_if; [by constructor | constructor].
Qed.

(** [findValue] finds the first occurrence of the name that really is a key. *)
Lemma findValue_loop_total fuel s key from :
  (S (length s) - from < fuel)%nat ->
  exists r, findValue_loop fuel s ([cQuote] ++ key ++ [cQuote]) from = Some r /\
    match r with
    | Some v => exists p, (from <= p)%nat /\ key_at s key p /\
        (forall q, from <= q < p -> ~ key_at s key q)%nat /\
        v = skipWs s (S (skipWs s (p + length ([cQuote] ++ key ++ [cQuote]))))
    | None => forall q, (from <= q)%nat -> ~ key_at s key q
    end.
Proof.
  revert from. induction fuel as [|f IH]; intros from Hf; [lia |].
  cbn [findValue_loop].
  pose proof (find_sub_spec s ([cQuote] ++ key ++ [cQuote]) from ltac:(done)) as Hfs.
  destruct (find_sub _ _ _) as [p|].
  - destruct Hfs as (? & Hp & Hq). case_bool_decide as Hc.
    + eexists. split; [done |]. exists p. split_and!; [lia | by apply key_at_iff | | done].
      intros q Hlt [Hs _]%key_at_iff. by rewrite Hq in Hs.
    + destruct (IH (S p)) as (r & -> & Hr); [lia |]. eexists. split; [done |].
      assert (Hno : forall q, (from <= q < S p)%nat -> ~ key_at s key q).
      { intros q Hlt [Hs Hs2]%key_at_iff. destruct (decide (q = p)) as [->|]; [done |].
        rewrite Hq in Hs by lia. done. }
      destruct r as [v|].
      * destruct Hr as (p' & ? & ? & Hq' & ->). exists p'. split_and!; [lia | done | | done].
        intros q ?. destruct (decide (q < S p)%nat); [apply Hno; lia | apply Hq'; lia].
      * intros q ?. destruct (decide (q < S p)%nat); [apply Hno; lia | apply Hr; lia].
  - exists None. split; [done |]. intros q Hle [Hs _]%key_at_iff. by rewrite Hfs in Hs.
Qed.

(** ** Lemmas: escaping *)

Lemma lookup_at (s : bytes) (pos : nat) (l r : bytes) (i : nat) (x : Z) :
  drop pos s = l ++ r -> l !! i = Some x -> s !! (pos + i)%nat = Some x.
Proof. intros E H. rewrite <- lookup_drop, E. by apply lookup_app_l_Some. Qed.

Lemma drop_at (s : bytes) (pos : nat) (l r : bytes) : drop pos s = l ++ r -> drop (pos + length l) s = r.
Proof. intros E. by rewrite <- drop_drop, E, drop_app_length. Qed.

Lemma hexdigit_spec n :
  0 <= n < 16 -> isxdigit (hexdigit n) = true /\ hexval (hexdigit n) = n.
Proof.
  intros H. assert (Hall : forallb (λ i, isxdigit (hexdigit (Z.of_nat i)) &&
    (hexval (hexdigit (Z.of_nat i)) =? Z.of_nat i)) (seq 0 16) = true) by done.
  rewrite forallb_forall in Hall. specialize (Hall (Z.to_nat n)). rewrite Z2Nat.id in Hall by lia.
  specialize (Hall ltac:(apply in_seq; lia)). by zbool.
Qed.

Lemma hex_loop_four (s : bytes) (pos : nat) (a b c d : Z) :
  s !! pos = Some a -> s !! S pos = Some b -> s !! S (S pos) = Some c ->
  s !! S (S (S pos)) = Some d ->
  isxdigit a = true -> isxdigit b = true -> isxdigit c = true -> isxdigit d = true ->
  hex_loop 4 s pos 0 0 =
  (((hexval a * 16 + hexval b) * 16 + hexval c) * 16 + hexval d, 4%nat, (pos + 4)%nat).
Proof.
  intros Ha Hb Hc Hd Xa Xb Xc Xd. unfold hex_loop. rewrite Ha, Xa, Hb, Xb, Hc, Xc, Hd, Xd.
  do 2 f_equal. lia.
Qed.

(** Scanning the escape of one character decodes that character. *)
Lemma parseString_escape_char f s pos out c r :
  is_byte c -> drop pos s = escape_char c ++ r ->
  parseString_loop (S f) s pos out =
  parseString_loop f s (pos + length (escape_char c)) (out ++ [c]).
Proof.
  intros [Hc0 Hc1] E.
  assert (L : forall (i : nat) (x : Z), escape_char c !! i = Some x -> s !! (pos + i)%nat = Some x)
    by (intros; by eapply lookup_at).
  pose proof (L 0%nat) as L0. rewrite Nat.add_0_r in L0. pose proof (L 1%nat) as L1.
  rewrite Nat.add_1_r in L1. cbn [parseString_loop]. unfold escape_char in *.
  assert (Hesc : forall esc : Z, s !! pos = Some cBackslash -> s !! S pos = Some esc ->
    parseString_loop (S f) s pos out =
    let '(add, p) := parseEscape s esc (S (S pos)) in parseString_loop f s p (out ++ add)).
  { intros esc H1 H2. cbn [parseString_loop]. by rewrite H1, H2. }
  cbn [parseString_loop] in Hesc.
  repeat case_if; zbool; subst.
  1-5: rewrite (Hesc _ (L0 _ eq_refl) (L1 _ eq_refl)); cbn; f_equal; lia.
  - rewrite (Hesc _ (L0 _ eq_refl) (L1 _ eq_refl)). cbn [parseEscape].
    unfold parseEscape. cbn [Z.eqb Pos.eqb].
    destruct (hexdigit_spec (Z.shiftr c 4)) as [X1 V1].
    { rewrite shiftr_div by lia. split; [apply Z.div_pos; lia |].
      apply Z.div_lt_upper_bound; lia. }
    destruct (hexdigit_spec (Z.land c 0xF)) as [X2 V2].
    { change 0xF with (Z.ones 4). rewrite Z.land_ones by lia. apply Z.mod_pos_bound. lia. }
    rewrite (hex_loop_four s (S (S pos)) 48 48 (hexdigit (Z.shiftr c 4)) (hexdigit (Z.land c 0xF)));
      try done; try (rewrite <- (L 2%nat) by done; f_equal; lia);
      try (rewrite <- (L 3%nat) by done; f_equal; lia);
      try (rewrite <- (L 4%nat) by done; f_equal; lia);
      try (rewrite <- (L 5%nat) by done; f_equal; lia).
    rewrite V1, V2. change (hexval 48) with 0.
    assert (((0 * 16 + 0) * 16 + Z.shiftr c 4) * 16 + Z.land c 0xF = c) as ->.
    { change 0xF with (Z.ones 4). rewrite Z.land_ones, shiftr_div by lia.
      pose proof (Z_div_mod_eq_full c (2 ^ 4)). lia. }
    rewrite bool_decide_eq_true_2 by done. rewrite (proj2 (Z.ltb_lt c 0x80)) by lia.
    cbn [andb]. f_equal. rewrite length_app. simpl. lia.
  - rewrite (L0 _ eq_refl). rewrite (proj2 (Z.eqb_neq c _)), (proj2 (Z.eqb_neq c _)) by done.
    simpl. f_equal. lia.
Qed.

Lemma parseString_escape f s pos out t r :
  all_bytes t -> drop pos s = escape t ++ cQuote :: r -> (length t < f)%nat ->
  parseString_loop f s pos out = Some (out ++ t, (pos + length (escape t))%nat).
Proof.
  intros Ht. revert f pos out. induction Ht as [|c t Hc Ht IH]; intros f pos out E Hf.
  - destruct f; [lia |]. cbn [parseString_loop escape mbind list_bind] in *.
    pose proof (lookup_at s pos [cQuote] r 0 cQuote E eq_refl) as H. rewrite Nat.add_0_r in H.
    rewrite H, app_nil_r. simpl. f_equal. f_equal. lia.
  - destruct f as [|f]; [simpl in *; lia |].
    change (escape (c :: t)) with (escape_char c ++ escape t) in *. rewrite <- app_assoc in E.
    rewrite (parseString_escape_char f s pos out c _ Hc E).
    rewrite (IH f _ _ (drop_at _ _ _ _ E)) by (simpl in *; lia).
    rewrite <- app_assoc, length_app. simpl. do 2 f_equal. lia.
Qed.

(** A quoted, escaped string at any position reads back as itself. *)
Lemma parseString_quoted s pos t r :
  all_bytes t -> drop pos s = [cQuote] ++ escape t ++ [cQuote] ++ r ->
  parseString s pos = (t, (pos + length (escape t) + 2)%nat).
Proof.
  intros Ht E. unfold parseString.
  pose proof (lookup_at s pos [cQuote] _ 0 cQuote E eq_refl) as H0. rewrite Nat.add_0_r in H0.
  rewrite bool_decide_eq_true_2 by done. cbn [negb].
  pose proof (drop_at _ _ [cQuote] _ E) as E1. cbn [length] in E1. rewrite Nat.add_1_r in E1.
  assert (Hlen : (length s - pos = length ([cQuote] ++ escape t ++ [cQuote] ++ r))%nat)
    by (by rewrite <- E, length_drop).
  rewrite !length_app in Hlen. cbn [length] in Hlen.
  assert (length t <= length (escape t))%nat.
  { clear. induction t as [|c t IH]; [done |]. change (escape (c :: t)) with (escape_char c ++ escape t).
    rewrite length_app. assert (1 <= length (escape_char c))%nat; [|simpl; lia].
    unfold escape_char. repeat case_if; simpl; lia. }
  rewrite (parseString_escape (S (length s)) s (S pos) [] t r Ht E1) by lia.
  cbn [default]. change ([] ++ t) with t. f_equal. case_bool_decide; lia.
Qed.

(** ** Lemmas: the remaining loops *)

Lemma parseString_advance s pos :
  s !! pos = Some cQuote -> (pos < (parseString s pos).2 <= length s)%nat.
Proof.
  intros H. pose proof (lookup_lt_Some _ _ _ H). unfold parseString.
  rewrite bool_decide_eq_true_2 by done. cbn [negb].
  destruct (parseString_loop_total (S (length s)) s (S pos) []) as (r & p & -> & ?); [lia |].
  cbn. case_bool_decide; lia.
Qed.

(** Every turn of the loop of [getStringArray] consumes a character. *)
Lemma getStringArray_loop_total fuel s pos out :
  (length s - pos < fuel)%nat ->
  exists l, getStringArray_loop fuel s pos out = Some (out ++ l).
Proof.
  revert pos out. induction fuel as [|f IH]; intros pos out Hf; [lia |].
  cbn [getStringArray_loop]. cbv zeta. destruct (skipWs_bounds s pos) as [Hw _].
  destruct (s !! skipWs s pos) as [c|] eqn:E; [|exists []; by rewrite app_nil_r].
  pose proof (lookup_lt_Some _ _ _ E).
  case_if; [exists []; by rewrite app_nil_r |]. case_if; [apply IH; lia |].
  case_if; [exists []; by rewrite app_nil_r |]. zbool. subst c.
  pose proof (parseString_advance s _ E). destruct (parseString s _) as [v e]. simpl in *.
  destruct (IH e (out ++ [v])) as [l ->]; [lia |]. exists (v :: l). by rewrite <- app_assoc.
Qed.

Lemma getRaw_loop_total fuel s open close pos depth inString :
  (length s - pos < fuel)%nat ->
  exists r, getRaw_loop fuel s open close pos depth inString = Some r /\
    match r with Some p => (pos <= p < length s)%nat | None => True end.
Proof.
  revert pos depth inString. induction fuel as [|f IH]; intros pos depth inS Hf; [lia |].
  cbn [getRaw_loop]. destruct (s !! pos) as [c|] eqn:E; [|by exists None].
  pose proof (lookup_lt_Some _ _ _ E).
  assert (Hrec : forall q d b, (pos < q)%nat -> exists r,
    getRaw_loop f s open close q d b = Some r /\
    match r with Some p => (pos <= p < length s)%nat | None => True end).
  { intros q d b Hq. destruct (IH q d b) as (r & -> & Hr); [lia |]. exists r. split; [done |].
    destruct r; [lia | done]. }
  repeat case_if; try (apply Hrec; lia). eexists. split; [done | simpl; lia].
Qed.

(** Where a key's value starts. *)
Lemma skipWs_idem s ws rest pos :
  drop pos s = ws ++ rest -> Forall (λ c, is_ws c = true) ws ->
  (forall c, head rest = Some c -> is_ws c = false) ->
  drop (skipWs s pos) s = rest.
Proof. intros E Hws Hr. rewrite (skipWs_at s pos ws rest E Hws Hr). by apply drop_at. Qed.

(** The value that follows the key occurrence at [p]. *)
Lemma key_value_drop s key p ws ws2 v :
  drop p s = [cQuote] ++ key ++ [cQuote] ++ ws ++ [cColon] ++ ws2 ++ v ->
  Forall (λ c, is_ws c = true) ws -> Forall (λ c, is_ws c = true) ws2 ->
  (forall c, head v = Some c -> is_ws c = false) ->
  drop (skipWs s (S (skipWs s (p + length ([cQuote] ++ key ++ [cQuote]))))) s = v.
Proof.
  intros E Hws Hws2 Hv.
  assert (E1 : drop (p + length ([cQuote] ++ key ++ [cQuote])) s = ws ++ [cColon] ++ ws2 ++ v).
  { apply drop_at. rewrite E. by rewrite <- !app_assoc. }
  pose proof (skipWs_idem s ws _ _ E1 Hws ltac:(by intros c [= <-])) as E2.
  eapply skipWs_idem; [|exact Hws2 | exact Hv].
  rewrite <- Nat.add_1_r. by apply (drop_at _ _ [cColon]).
Qed.

(** ** Properties *)

(** What [findValue] returns. *)
Lemma findValue_spec (s key : bytes) (from : nat) :
  match findValue s key from with
  | Some v => exists p, (from <= p)%nat /\ key_at s key p /\
      (forall q, from <= q < p -> ~ key_at s key q)%nat /\
      v = skipWs s (S (skipWs s (p + length ([cQuote] ++ key ++ [cQuote]))))
  | None => forall q, (from <= q)%nat -> ~ key_at s key q
  end.
Proof.
  unfold findValue.
  destruct (findValue_loop_total (S (S (length s))) s key from) as (r & -> & Hr); [lia |].
  done.
Qed.

Lemma findValue_advance s key from v : findValue s key from = Some v -> (from < v)%nat /\ (from < length s)%nat.
Proof.
  intros E. pose proof (findValue_spec s key from) as H. rewrite E in H.
  destruct H as (p & Hp & (ws & rest & Hd & _) & _ & ->).
  destruct (skipWs_bounds s (p + length ([cQuote] ++ key ++ [cQuote]))) as [H1 _].
  destruct (skipWs_bounds s (S (skipWs s (p + length ([cQuote] ++ key ++ [cQuote]))))) as [H2 _].
  split; [lia |]. destruct (decide (p < length s)%nat); [lia |]. rewrite drop_ge in Hd by lia. done.
Qed.

(** [findValue] returns where the value of the first real key occurrence at or after
    [from] starts: an occurrence of the quoted name counts only when a colon follows it
    (after blanks), so a value that happens to equal the key's name is skipped, and [npos]
    means that no occurrence of the name is a key. *)
Theorem findValue_correct (s key : bytes) (from : nat) :
  match findValue s key from with
  | Some v => exists p, (from <= p)%nat /\ key_at s key p /\
      (forall q, from <= q < p -> ~ key_at s key q)%nat /\
      v = skipWs s (S (skipWs s (p + length ([cQuote] ++ key ++ [cQuote]))))
  | None => forall q, (from <= q)%nat -> ~ key_at s key q
  end.
Proof. exact (findValue_spec s key from). Qed.

(** reading back what was written: in a document where the first real occurrence of
    the key is followed by the quoted [escape] of a text, [getString] returns exactly that
    text, whatever octets it holds (quotes, backslashes and control characters included). *)
Theorem getString_escape (s key t ws ws2 rest : bytes) (p : nat) :
  all_bytes t ->
  Forall (λ c, is_ws c = true) ws -> Forall (λ c, is_ws c = true) ws2 ->
  drop p s = [cQuote] ++ key ++ [cQuote] ++ ws ++ [cColon] ++ ws2 ++
             [cQuote] ++ escape t ++ [cQuote] ++ rest ->
  (forall q, q < p -> ~ key_at s key q)%nat ->
  getString s key 0 = t.
Proof.
  intros Ht Hws Hws2 E Hfirst. unfold getString, findValue.
  destruct (findValue_loop_total (S (S (length s))) s key 0) as (r & -> & Hr); [lia |].
  cbn [default]. assert (Hp : key_at s key p) by (by exists ws; eexists).
  destruct r as [v|]; [|exfalso; by apply (Hr p); [lia |]].
  destruct Hr as (p' & _ & Hp' & Hq & ->).
  assert (p' = p) as ->.
  { destruct (lt_eq_lt_dec p' p) as [[?|?]|?]; [by exfalso; apply (Hfirst p') | done |].
    exfalso. by apply (Hq p); [lia |]. }
  pose proof (key_value_drop s key p ws ws2 _ E Hws Hws2 ltac:(by intros c [= <-])) as Hv.
  pose proof (parseString_quoted _ _ t rest Ht Hv) as Hq'. revert Hq'.
  generalize (skipWs s (S (skipWs s (p + length ([cQuote] ++ key ++ [cQuote]))))).
  intros v Hv'. change (fst (parseString s v) = t). by rewrite Hv'.
Qed.

(** A document where the key's name first occurs as a value. *)
Definition sample_document : bytes :=
  [123; 34; 107; 34; 58; 34; 98; 34; 44; 34; 98; 34; 32; 58; 32; 34] ++
  escape [120; 34; 92; 10; 1; 200] ++ [34; 125].

Lemma getString_escape_witness :
  getString sample_document [98] 0 = [120; 34; 92; 10; 1; 200].
Proof.
  apply (getString_escape sample_document [98] [120; 34; 92; 10; 1; 200] [32] [32] [125] 9).
  - by apply all_bytes_check.
  - by repeat constructor.
  - by repeat constructor.
  - vm_compute. reflexivity.
  - intros q Hq [Hs Hc]%key_at_iff. revert Hs Hc.
    do 9 (destruct q as [|q]; [vm_compute; congruence |]). lia.
Defined.
