(* ===== verification/JsonText.v ===== *)
(** * JsonText: documents the program writes

    Facts about [Json] that the configuration file and the other saved documents build on:
    in a text made of quoted field names, escaped strings, arrays of such strings and values
    without quotes, a reader finds the value of a field, whatever the strings hold. *)

From S2P Require Import Prelude Json.

(** A field name: letters and underscores. *)
Definition name_char (c : Z) : Prop := 97 <= c <= 122 \/ 65 <= c <= 90 \/ c = 95.
Definition plain (key : bytes) : Prop := Forall name_char key /\ key <> [].

Definition plain_check (key : bytes) : bool :=
  negb (bool_decide (key = [])) && forallb (λ c, (97 <=? c) && (c <=? 122) || (65 <=? c) && (c <=? 90) || (c =? 95)) key.
Lemma plain_ok key : plain_check key = true -> plain key.
Proof.
  unfold plain_check. rewrite andb_true_iff, forallb_forall. intros [H1 H2]. zbool. split; [|done].
  apply Forall_forall. intros c Hc%list_elem_of_In%H2. unfold name_char. apply orb_true_iff in Hc as [[Hc|Hc]%orb_true_iff|Hc]; zbool; lia.
Qed.
Lemma field_char_not c : name_char c -> c <> cQuote /\ c <> cBackslash /\ c <> cColon.
Proof. unfold name_char, cQuote, cBackslash, cColon. lia. Qed.

(** What may follow a value: no colon after blanks, no name. *)
Definition ends_value (follow : bytes) : Prop :=
  (forall ws r, Forall (λ c, is_ws c = true) ws -> follow <> ws ++ cColon :: r) /\
  (forall c, head follow = Some c -> ~ name_char c).

Lemma ends_value_comma d rest : is_ws d = false -> d <> cColon -> ~ name_char d -> ends_value (d :: rest).
Proof.
  intros Hd Hc Hn. split; [|by intros c [= <-]]. intros ws r Hws He.
  destruct Hws as [|w ws Hw _]; cbn in He; injection He as -> _; congruence.
Qed.
Lemma ends_value_close rest : ends_value (10 :: 125 :: rest).
Proof.
  split; [|intros c [= <-]; unfold name_char; lia]. intros ws r Hws He.
  destruct Hws as [|w ws Hw Hws]; [done |]. injection He as <- He.
  destruct Hws as [|w ws Hw' _]; [done |]. injection He as <- He. done.
Qed.

(** [key] does not occur as a key at a position inside [a], in the text [a ++ rest]. *)
Definition quiet (key a rest : bytes) : Prop := forall p, (p < length a)%nat -> ~ key_at (a ++ rest) key p.

Lemma quiet_app key a b rest : quiet key a (b ++ rest) -> quiet key b rest -> quiet key (a ++ b) rest.
Proof.
  intros Ha Hb p Hp. rewrite <- app_assoc. destruct (decide (p < length a)%nat) as [?|?]; [by apply Ha |].
  rewrite length_app in Hp. intros (ws & r & Hd & Hws). apply (Hb (p - length a)%nat); [lia |].
  exists ws, r. split; [|done]. rewrite <- Hd. symmetry. apply drop_app_ge. lia.
Qed.

(** A key starts with a quote. *)
Lemma key_at_quote s key p : key_at s key p -> s !! p = Some cQuote.
Proof.
  intros (ws & r & Hd & _). pose proof (lookup_drop s p 0) as H. rewrite Hd, Nat.add_0_r in H. by rewrite <- H.
Qed.

Lemma quiet_noquote key a rest : cQuote ∉ a -> quiet key a rest.
Proof.
  intros Ha p Hp Hk%key_at_quote. rewrite lookup_app_l in Hk by done. apply Ha. by eapply list_elem_of_lookup_2.
Qed.

Definition quoted (t : bytes) : bytes := [cQuote] ++ t ++ [cQuote].

(** A name, or a tail of one, is followed by a quote exactly where it ends. *)
Lemma plain_prefix k key x y :
  Forall name_char k ->
  Forall name_char key ->
  k ++ cQuote :: x = key ++ cQuote :: y -> k = key.
Proof.
  intros Hk. revert key. induction Hk as [|c k (Hc & _)%field_char_not _ IH]; intros key [|d key' (Hd & _)%field_char_not Hkey']; simpl; intros He; simplify_eq.
  - done.
  - f_equal. by apply IH.
Qed.

Lemma quiet_name key k rest : plain key -> plain k -> k <> key -> quiet key (quoted k) (cColon :: rest).
Proof.
  intros [Hkey Hne] [Hk _] Hneq p Hp Hat. pose proof (key_at_quote _ _ _ Hat) as Hq. destruct Hat as (ws & r & Hd & _).
  unfold quoted in *. rewrite !length_app in Hp. cbn [length] in Hp. destruct (decide (p = 0%nat)) as [->|Hp0].
  - rewrite drop_0 in Hd. cbn in Hd. injection Hd as Hd. rewrite <- app_assoc in Hd. cbn in Hd. by apply Hneq, (plain_prefix k key _ _ Hk Hkey Hd).
  - destruct (decide (p = S (length k))) as [->|Hp1].
    + rewrite <- !app_assoc in Hd. cbn [app drop] in Hd. rewrite drop_app_length in Hd. cbn in Hd. injection Hd as Hd.
      destruct Hkey as [|c key' (_ & _ & Hc)%field_char_not _]; [done |]. by injection Hd as <- _.
    + rewrite <- !app_assoc in Hq. destruct p as [|p]; [done |].
      change ((k ++ [cQuote] ++ cColon :: rest) !! p = Some cQuote) in Hq. rewrite lookup_app_l in Hq by lia.
      rewrite Forall_lookup in Hk. by destruct (field_char_not _ (Hk _ _ Hq)).
Qed.

(** An escaped text is followed by a key's quote only when it ends there. *)
Lemma escape_no_key key v follow ws r :
  Forall name_char key -> ends_value follow -> Forall (λ c, is_ws c = true) ws ->
  escape v ++ cQuote :: follow <> key ++ cQuote :: ws ++ cColon :: r.
Proof.
  intros Hkey [Hf _] Hws. revert v.
  assert (Hhead : forall c v x, exists y z, escape (c :: v) ++ x = y :: z /\ y <> cQuote /\ (y = cBackslash \/ y = c /\ z = escape v ++ x)).
  { intros c v x. change (escape (c :: v)) with (escape_char c ++ escape v). unfold escape_char.
    repeat case_if; zbool; eexists _, _; cbn; (split; [done |]); auto. }
  induction Hkey as [|k key (Hk & Hb & _)%field_char_not _ IH]; intros v He.
  - destruct v as [|c v].
    + cbn in He. injection He as He. by apply (Hf ws r).
    + destruct (Hhead c v (cQuote :: follow)) as (y & z & Hy & Hq & _). rewrite Hy in He. cbn in He. congruence.
  - destruct v as [|c v]; [cbn in He; congruence |].
    destruct (Hhead c v (cQuote :: follow)) as (y & z & Hy & _ & [->|[-> ->]]); rewrite Hy in He; cbn in He; injection He as He1 He2;
      [congruence | by eapply IH].
Qed.

(** A string value is quiet, whatever it holds. *)
Lemma quiet_string key v follow : plain key -> all_bytes v -> ends_value follow -> quiet key (quoted (escape v)) follow.
Proof.
  intros [Hkey Hne] Hv Hf.
  assert (Hno : forall v ws r, Forall (λ c, is_ws c = true) ws ->
    cQuote :: escape v ++ cQuote :: follow <> [cQuote] ++ key ++ [cQuote] ++ ws ++ [cColon] ++ r).
  { intros v' ws r Hws He. cbn in He. injection He as He. by eapply (escape_no_key key v' follow ws r). }
  intros p Hp (ws & r & Hat & Hws). unfold quoted in *. rewrite <- !app_assoc in Hat. cbn [app] in Hat.
  destruct p as [|p]; [exact (Hno v ws r Hws Hat) |]. cbn [drop] in Hat.
  rewrite !length_app in Hp. cbn [length] in Hp.
  assert (Hhex : forall n, 0 <= n -> hexdigit n <> cQuote) by (intros n Hn; unfold hexdigit, cQuote; case_if; zbool; lia).
  assert (Hgen : forall v p, all_bytes v -> (p <= length (escape v))%nat ->
    drop p (escape v ++ cQuote :: follow) <> [cQuote] ++ key ++ [cQuote] ++ ws ++ [cColon] ++ r).
  { clear Hat Hp. intros v'. induction v' as [|c v' IH]; intros q Hbv Hq He.
    - cbn in Hq. assert (q = 0%nat) as -> by lia. cbn in He. injection He as He.
      destruct Hkey as [|k key' Hk _]; [done |]. cbn in He. apply (proj2 Hf k); [by rewrite He | done].
    - change (escape (c :: v')) with (escape_char c ++ escape v') in Hq, He. rewrite length_app in Hq. rewrite <- app_assoc in He.
      apply Forall_cons in Hbv as [Hbc Hbv]. unfold is_byte in Hbc.
      destruct (decide (length (escape_char c) <= q)%nat) as [Hge|Hlt].
      { rewrite drop_app_ge in He by done. by apply (IH (q - length (escape_char c))%nat); [|lia |]. }
      assert (Hc : c = cQuote /\ q = 1%nat \/ (escape_char c ++ escape v' ++ cQuote :: follow) !! q <> Some cQuote).
      { rewrite lookup_app_l by lia. unfold escape_char in *.
        repeat case_if; zbool; cbn [length app] in *.
        - destruct q as [|[|q]]; [by right | by left | lia].
        - right. destruct q as [|[|q]]; done.
        - right. destruct q as [|[|q]]; done.
        - right. destruct q as [|[|q]]; done.
        - right. destruct q as [|[|q]]; done.
        - right. change (str "\u00") with [92; 117; 48; 48].
          destruct q as [|[|[|[|[|[|q]]]]]]; try done; cbn; intros [= He']; revert He'; apply Hhex;
            [apply Z.shiftr_nonneg; lia | apply Z.land_nonneg; lia].
        - right. destruct q as [|q]; cbn; [congruence | done]. }
      destruct Hc as [[-> ->]|Hc].
      + by apply (Hno v' ws r Hws).
      + apply Hc. pose proof (lookup_drop (escape_char c ++ escape v' ++ cQuote :: follow) q 0) as Hl.
        rewrite Nat.add_0_r in Hl. by rewrite <- Hl, He. }
  by apply (Hgen v p); [|lia |].
Qed.

(** ** Finding a field *)

Lemma findValue_quiet key s : quiet key s [] -> findValue s key 0 = None.
Proof.
  intros Hq. pose proof (findValue_spec s key 0) as H. destruct (findValue s key 0) as [v|]; [|done].
  destruct H as (p & _ & Hp & _). exfalso. rewrite <- (app_nil_r s) in Hp. apply (Hq p); [|done].
  pose proof (key_at_quote _ _ _ Hp) as Hl%lookup_lt_Some. by rewrite app_nil_r in Hl.
Qed.

(** [pre] is what comes before the field. *)
Lemma field_found pre key v rest :
  plain key -> quiet key pre (quoted key ++ str ": " ++ v ++ rest) ->
  (forall c, head (v ++ rest) = Some c -> is_ws c = false) ->
  let s := pre ++ quoted key ++ str ": " ++ v ++ rest in
  exists pos, findValue s key 0 = Some pos /\ drop pos s = v ++ rest.
Proof.
  intros Hk Hq Hv s.
  assert (Hd : drop (length pre) s = [cQuote] ++ key ++ [cQuote] ++ [] ++ [cColon] ++ [32] ++ v ++ rest).
  { unfold s. rewrite drop_app_length. unfold quoted. by rewrite <- !app_assoc. }
  assert (Hat : key_at s key (length pre)) by (exists [], ([32] ++ v ++ rest); split; [exact Hd | constructor]).
  pose proof (findValue_spec s key 0) as H. destruct (findValue s key 0) as [pos|]; [|by destruct (H (length pre)); [lia |]].
  destruct H as (p & _ & Hp & Hfirst & ->). assert (p = length pre) as ->.
  { destruct (lt_eq_lt_dec p (length pre)) as [[Hlt|?]|Hgt]; [by destruct (Hq p Hlt) | done |]. by destruct (Hfirst (length pre)); [lia |]. }
  eexists. split; [done |]. apply (key_value_drop s key (length pre) [] [32] (v ++ rest) Hd); [constructor | | done].
  by apply Forall_singleton.
Qed.

Lemma read_string s pos t rest :
  all_bytes t -> drop pos s = quoted (escape t) ++ rest -> fst (parseString s pos) = t.
Proof.
  intros Ht Hd. unfold quoted in Hd. rewrite <- !app_assoc in Hd. by rewrite (parseString_quoted s pos t rest Ht Hd).
Qed.

Lemma strtoll_to_string n rest :
  0 <= n < 2 ^ 63 -> (forall c, head rest = Some c -> isdigit c = false) -> strtoll (to_string n ++ rest) = n.
Proof.
  intros Hn Hr. destruct (to_string_spec n ltac:(lia)) as (Hd & Hne & Hv).
  assert (Hs : scan_digits (to_string n ++ rest) 0 = (n, rest)).
  { rewrite scan_digits_app by done. rewrite Hv. destruct rest as [|c r]; [done |]. simpl. by rewrite (Hr c eq_refl). }
  destruct (to_string n) as [|c l]; [done |]. apply Forall_cons in Hd as [Hc _]. unfold strtoll. cbn [app] in *.
  assert ((c =? 45) = false) as -> by (unfold isdigit in Hc; zbool; apply Z.eqb_neq; lia). rewrite Hs. cbn. lia.
Qed.

Lemma to_string_head n : 0 <= n < 2 ^ 64 -> exists c l, to_string n = c :: l /\ isdigit c = true.
Proof.
  intros Hn. destruct (to_string_spec n Hn) as (Hd & Hne & _). destruct (to_string n) as [|c l]; [done |].
  apply Forall_cons in Hd as [Hc _]. eauto.
Qed.

Lemma digit_free_quote n : 0 <= n < 2 ^ 64 -> cQuote ∉ to_string n.
Proof.
  intros Hn Hin. destruct (to_string_spec n Hn) as (Hd & _). rewrite Forall_forall in Hd. by apply Hd in Hin.
Qed.

(** ** Arrays of strings *)

(** The elements after the first, and the whole array. *)
Definition more_items (l : list bytes) : bytes := l ≫= λ v, str ", " ++ quoted (escape v).
Definition array_text (l : list bytes) : bytes :=
  str "[" ++ match l with [] => [] | v :: l => quoted (escape v) ++ more_items l end ++ str "]".

Lemma skipWs_here s pos c rest : drop pos s = c :: rest -> is_ws c = false -> skipWs s pos = pos.
Proof. intros Hd Hc. rewrite skipWs_spec, Hd. simpl. rewrite Hc. lia. Qed.

Lemma lookup_of_drop (s : bytes) pos c rest : drop pos s = c :: rest -> s !! pos = Some c.
Proof. intros Hd. pose proof (lookup_drop s pos 0) as H. rewrite Hd, Nat.add_0_r in H. by rewrite <- H. Qed.

Lemma array_item fuel s pos v rest out :
  all_bytes v -> drop pos s = quoted (escape v) ++ rest ->
  getStringArray_loop (S fuel) s pos out = getStringArray_loop fuel s (pos + length (quoted (escape v))) (out ++ [v]).
Proof.
  intros Hv Hd. unfold quoted in *. rewrite <- !app_assoc in Hd. cbn [getStringArray_loop]. cbv zeta.
  rewrite (skipWs_here s pos cQuote _ Hd) by done. rewrite (lookup_of_drop s pos cQuote _ Hd).
  change (cQuote =? 93) with false. change (cQuote =? cComma) with false. change (negb (cQuote =? cQuote)) with false. cbv iota.
  rewrite (parseString_quoted s pos v rest Hv Hd). f_equal. rewrite !length_app. cbn [length]. lia.
Qed.

Lemma array_more l fuel s pos rest out :
  Forall all_bytes l -> drop pos s = more_items l ++ str "]" ++ rest -> (2 * length l < fuel)%nat ->
  getStringArray_loop fuel s pos out = Some (out ++ l).
Proof.
  intros Hl. revert fuel pos out. induction Hl as [|v l Hv _ IH]; intros fuel pos out Hd Hf.
  - destruct fuel as [|f]; [lia |]. change (drop pos s = 93 :: rest) in Hd. cbn [getStringArray_loop]. cbv zeta.
    rewrite (skipWs_here s pos 93 rest Hd), (lookup_of_drop s pos 93 rest Hd) by done. by rewrite app_nil_r.
  - cbn [length] in Hf. destruct fuel as [|[|f]]; [lia | lia |]. unfold more_items in Hd. rewrite bind_cons in Hd. fold (more_items l) in Hd.
    rewrite <- !app_assoc in Hd. set (x := quoted (escape v) ++ more_items l ++ str "]" ++ rest) in Hd.
    assert (Hd1 : drop (pos + 2) s = x) by (by apply (drop_at s pos (str ", ") x)).
    assert (Hsk : skipWs s (S pos) = (pos + 2)%nat).
    { rewrite skipWs_spec. assert (drop (S pos) s = 32 :: x) as ->.
      { rewrite <- Nat.add_1_r. exact (drop_at s pos [44] (32 :: x) Hd). } change (leading_ws (32 :: x)) with 1%nat. lia. }
    cbn [getStringArray_loop]. cbv zeta. rewrite (skipWs_here s pos 44 (32 :: x) Hd), (lookup_of_drop s pos 44 (32 :: x) Hd) by done.
    change (44 =? 93) with false. change (44 =? cComma) with true. cbv iota.
    assert (Hstep : getStringArray_loop (S f) s (S pos) out = getStringArray_loop (S f) s (pos + 2) out).
    { cbn [getStringArray_loop]. cbv zeta. rewrite Hsk. by rewrite (skipWs_here s (pos + 2) cQuote _ Hd1). }
    cbn [getStringArray_loop] in Hstep. cbv zeta in Hstep. rewrite Hstep.
    pose proof (array_item f s (pos + 2) v _ out Hv Hd1) as Hi. cbn [getStringArray_loop] in Hi. cbv zeta in Hi. rewrite Hi.
    rewrite (IH f); [by rewrite <- app_assoc | | lia]. by apply drop_at.
Qed.

Lemma length_quoted t : length (quoted t) = S (S (length t)).
Proof. unfold quoted. rewrite !length_app. cbn [length]. lia. Qed.

Lemma length_array l : (2 * length l <= length (array_text l))%nat.
Proof.
  assert (Hm : forall l, (2 * length l <= length (more_items l))%nat).
  { intros k. induction k as [|v k IH]; [done |]. unfold more_items in *.
    rewrite bind_cons, !length_app, length_quoted. cbn [length]. lia. }
  unfold array_text. destruct l as [|v l]; [cbn [length]; lia |]. specialize (Hm l).
  rewrite !length_app, length_quoted. cbn [length]. lia.
Qed.

Lemma read_array pre key l rest :
  plain key -> Forall all_bytes l -> quiet key pre (quoted key ++ str ": " ++ array_text l ++ rest) ->
  getStringArray (pre ++ quoted key ++ str ": " ++ array_text l ++ rest) key = l.
Proof.
  intros Hk Hl Hq. destruct (field_found pre key (array_text l) rest Hk Hq) as (pos & Hf & Hd); [by intros c [= <-] |].
  cbv zeta in *. set (s := pre ++ _) in *. unfold getStringArray. rewrite Hf.
  assert (Hlen : (length (array_text l) <= length s)%nat) by (unfold s; rewrite !length_app; lia).
  pose proof (length_array l) as Hal. unfold array_text in Hd. rewrite <- !app_assoc in Hd.
  rewrite (lookup_of_drop s pos 91 _ Hd), bool_decide_eq_true_2 by done.
  assert (Hd1 : drop (S pos) s = match l with [] => [] | v :: l => quoted (escape v) ++ more_items l end ++ str "]" ++ rest).
  { rewrite <- Nat.add_1_r. exact (drop_at s pos [91] _ Hd). }
  destruct Hl as [|v l Hv Hl].
  - by rewrite (array_more [] (S (S (length s))) s (S pos) rest []) by (done || lia).
  - rewrite <- app_assoc in Hd1. rewrite (array_item _ s (S pos) v _ [] Hv Hd1).
    rewrite (array_more l (S (length s)) s _ rest _ Hl); [done | by apply drop_at | cbn [length] in *; lia].
Qed.

Lemma quiet_array key l d rest : plain key -> Forall all_bytes l -> quiet key (array_text l) (d :: rest).
Proof.
  intros Hk Hl. assert (He : forall c r, c = 44 \/ c = 93 -> ends_value (c :: r)).
  { intros c r Hc. apply ends_value_comma; unfold name_char, is_ws, cColon; destruct Hc as [->| ->]; (done || lia). }
  assert (Hm : forall l, Forall all_bytes l -> quiet key (more_items l) (str "]" ++ d :: rest)).
  { intros k Hbk. induction Hbk as [|v k Hv Hbk IH]; [intros p Hp; simpl in Hp; lia |].
    unfold more_items. rewrite bind_cons. fold (more_items k). apply quiet_app; [|exact IH]. apply quiet_app.
    - apply quiet_noquote. apply (bool_decide_eq_false_1 (cQuote ∈ str _)). reflexivity.
    - destruct k as [|v' k]; (apply quiet_string; [done | done |]); apply He; auto. }
  assert (Hb : forall c, c = 91 \/ c = 93 -> forall r, quiet key [c] r).
  { intros c Hc r. apply quiet_noquote. rewrite list_elem_of_singleton. unfold cQuote. lia. }
  unfold array_text. apply quiet_app; [by apply Hb; left |]. apply quiet_app; [|by apply Hb; right].
  destruct Hl as [|v l Hv Hl]; [intros p Hp; simpl in Hp; lia |]. apply quiet_app; [|by apply Hm].
  destruct l as [|v' l]; (apply quiet_string; [done | done |]); apply He; auto.
Qed.

(** ** Documents *)

(** One line of a document, and a document of such lines. *)
Definition line (key value : bytes) : bytes := str "  " ++ quoted key ++ str ": " ++ value.
Fixpoint lines (l : list (bytes * bytes)) : bytes :=
  match l with
  | [] => []
  | [(k, v)] => line k v ++ [10]
  | (k, v) :: l => line k v ++ str "," ++ [10] ++ lines l
  end.
Definition document (l : list (bytes * bytes)) : bytes := str "{" ++ [10] ++ lines l ++ str "}" ++ [10].

(** A value that shows no key, whatever follows the document's punctuation; it starts with
    something that is not blank. *)
Record settled (v : bytes) : Prop := {
  settled_comma : forall key rest, plain key -> quiet key v (44 :: rest);
  settled_last : forall key rest, plain key -> quiet key v (10 :: 125 :: rest);
  settled_head : exists c r, v = c :: r /\ is_ws c = false;
}.

Definition document_ok (l : list (bytes * bytes)) : Prop :=
  NoDup (fst <$> l) /\ Forall (λ kv : bytes * bytes, plain kv.1 /\ settled kv.2) l.

Lemma settled_array l : Forall all_bytes l -> settled (array_text l).
Proof.
  intros Hl. split; [intros; by apply quiet_array | intros; by apply quiet_array |].
  by exists 91; eexists.
Qed.

Lemma settled_string t : all_bytes t -> settled (quoted (escape t)).
Proof.
  intros Ht. split; [| |by exists cQuote; eexists].
  - intros key rest Hk. apply quiet_string; [done | done |]. apply ends_value_comma; [done | done | unfold name_char; lia].
  - intros key rest Hk. apply quiet_string; [done | done |]. apply ends_value_close.
Qed.

Lemma settled_raw v c r : cQuote ∉ v -> v = c :: r -> is_ws c = false -> settled v.
Proof. intros Hq Hv Hc. split; [intros; by apply quiet_noquote | intros; by apply quiet_noquote | by exists c, r]. Qed.

Lemma settled_number n : 0 <= n < 2 ^ 64 -> settled (to_string n).
Proof.
  intros Hn. destruct (to_string_head n Hn) as (c & r & Hv & Hc). apply (settled_raw _ c r); [by apply digit_free_quote | done |].
  unfold isdigit, is_ws in *. zbool. repeat (apply orb_false_iff; split); apply Z.eqb_neq; lia.
Qed.

(** A key is not found in a line of another field. *)
Lemma quiet_line key k v d rest :
  plain key -> plain k -> k <> key -> d = 44 \/ d = 10 /\ head rest = Some 125 -> settled v -> quiet key (line k v) (d :: rest).
Proof.
  intros Hkey Hk Hne Hd [H1 H2 (c & r & Hv & Hc)]. unfold line. apply quiet_app.
  { apply quiet_noquote. apply (bool_decide_eq_false_1 (cQuote ∈ str _)). reflexivity. }
  apply quiet_app; [by apply quiet_name |]. apply quiet_app.
  { apply quiet_noquote. apply (bool_decide_eq_false_1 (cQuote ∈ str _)). reflexivity. }
  destruct Hd as [->|[-> Hr]]; [auto |]. destruct rest as [|x rest]; [done |]. injection Hr as ->. auto.
Qed.

Lemma quiet_nl key rest : quiet key (str "," ++ [10]) rest.
Proof. apply quiet_noquote. apply (bool_decide_eq_false_1 (cQuote ∈ str "," ++ [10])). reflexivity. Qed.

Lemma lines_cons k v l : l <> [] -> lines ((k, v) :: l) = line k v ++ str "," ++ [10] ++ lines l.
Proof. by destruct l. Qed.

(** Where a field is. *)
Lemma lines_field l key v tail :
  Forall (λ kv : bytes * bytes, plain kv.1 /\ settled kv.2) l -> NoDup (fst <$> l) -> (key, v) ∈ l ->
  exists pre d rest, lines l ++ tail = pre ++ quoted key ++ str ": " ++ v ++ d :: rest /\
    (d = 44 \/ d = 10) /\ quiet key pre (quoted key ++ str ": " ++ v ++ d :: rest).
Proof.
  intros Hl. induction Hl as [|[k w] l [Hk Hw] Hl IH]; intros Hnd Hin; [by apply elem_of_nil in Hin |].
  rewrite fmap_cons in Hnd. apply NoDup_cons in Hnd as [Hnk Hnd]. cbn [fst snd] in *.
  assert (Hsp : forall x r, quiet x (str "  ") r).
  { intros x r. apply quiet_noquote. apply (bool_decide_eq_false_1 (cQuote ∈ str "  ")). reflexivity. }
  assert (Hhere : forall d r, d = 44 \/ d = 10 -> k = key -> w = v ->
    exists pre d' rest, line k w ++ d :: r = pre ++ quoted key ++ str ": " ++ v ++ d' :: rest /\
      (d' = 44 \/ d' = 10) /\ quiet key pre (quoted key ++ str ": " ++ v ++ d' :: rest)).
  { intros d r Hd -> ->. exists (str "  "), d, r. unfold line. rewrite <- !app_assoc. by split_and!. }
  destruct l as [|kv l].
  { apply list_elem_of_singleton in Hin as [= -> ->]. cbn [lines]. rewrite <- app_assoc. apply (Hhere 10 tail); auto. }
  rewrite lines_cons by done. rewrite <- !app_assoc. apply elem_of_cons in Hin as [[= -> ->]|Hin].
  - apply (Hhere 44); auto.
  - destruct (IH Hnd Hin) as (pre & d & rest & -> & Hd & Hq).
    assert (Hne : k <> key).
    { intros ->. apply Hnk. apply list_elem_of_fmap. by exists (key, v). }
    assert (Hpk : plain key) by (rewrite Forall_forall in Hl; apply (Hl (key, v)) in Hin; apply Hin).
    exists (line k w ++ (str "," ++ [10]) ++ pre), d, rest. rewrite <- !app_assoc. split_and!; [done | done |].
    rewrite (app_assoc (str ",") [10] pre). apply quiet_app; [apply quiet_line; auto |]. apply quiet_app; [apply quiet_nl | done].
Qed.

Lemma lines_absent l key tail :
  plain key -> Forall (λ kv : bytes * bytes, plain kv.1 /\ settled kv.2) l -> key ∉ fst <$> l -> quiet key (lines l) (125 :: tail).
Proof.
  intros Hkey Hl. induction Hl as [|[k w] l [Hk Hw] Hl IH]; intros Hin; [intros p Hp; simpl in Hp; lia |].
  rewrite fmap_cons, not_elem_of_cons in Hin. destruct Hin as [Hne Hin]. cbn [fst snd] in *.
  destruct l as [|kv l].
  - cbn [lines]. apply quiet_app; [apply quiet_line; auto |]. apply quiet_noquote. by rewrite list_elem_of_singleton.
  - rewrite lines_cons by done. apply quiet_app; [apply quiet_line; auto |]. rewrite (app_assoc (str ",")).
    apply quiet_app; [apply quiet_nl | by apply IH].
Qed.

Section Read.
Context (l : list (bytes * bytes)) (Hok : document_ok l).

Lemma quiet_open key rest : quiet key (str "{" ++ [10]) rest.
Proof. apply quiet_noquote. apply (bool_decide_eq_false_1 (cQuote ∈ str "{" ++ [10])). reflexivity. Qed.

Lemma document_absent key : plain key -> key ∉ fst <$> l -> findValue (document l) key 0 = None.
Proof.
  intros Hk Hin. apply findValue_quiet. unfold document. rewrite (app_assoc (str "{")). apply quiet_app; [apply quiet_open |].
  apply quiet_app; [by apply lines_absent, Hin; [|apply Hok] |].
  apply quiet_noquote. apply (bool_decide_eq_false_1 (cQuote ∈ str "}" ++ [10])). reflexivity.
Qed.

Lemma document_split key v : (key, v) ∈ l ->
  plain key /\ settled v /\ exists pre d rest, document l = pre ++ quoted key ++ str ": " ++ v ++ d :: rest /\
    (d = 44 \/ d = 10) /\ quiet key pre (quoted key ++ str ": " ++ v ++ d :: rest).
Proof.
  intros Hin. destruct Hok as [Hnd Hl]. pose proof Hl as Hl'. rewrite Forall_forall in Hl'. destruct (Hl' _ Hin) as [Hk Hv].
  split; [done |]. split; [done |].
  destruct (lines_field l key v (str "}" ++ [10]) Hl Hnd Hin) as (pre & d & rest & He & Hd & Hq).
  exists ((str "{" ++ [10]) ++ pre), d, rest. unfold document. rewrite (app_assoc (str "{")), He, <- !app_assoc.
  split_and!; [done | done |]. rewrite (app_assoc (str "{")). apply quiet_app; [apply quiet_open | done].
Qed.

Lemma document_found key v : (key, v) ∈ l ->
  exists pos d rest, findValue (document l) key 0 = Some pos /\ drop pos (document l) = v ++ d :: rest /\ (d = 44 \/ d = 10).
Proof.
  intros Hin. destruct (document_split key v Hin) as (Hk & [_ _ (c & r & -> & Hc)] & pre & d & rest & -> & Hd & Hq).
  destruct (field_found pre key (c :: r) (d :: rest) Hk Hq) as (pos & Hf & Hdr); [by intros x [= <-] |]. by exists pos, d, rest.
Qed.

Lemma document_string key t : all_bytes t -> (key, quoted (escape t)) ∈ l -> getString (document l) key 0 = t.
Proof.
  intros Ht Hin. destruct (document_found key _ Hin) as (pos & d & rest & Hf & Hd & _). unfold getString. rewrite Hf.
  by eapply read_string.
Qed.

Lemma document_int key n fallback : 0 <= n < 2 ^ 63 -> (key, to_string n) ∈ l -> getInt (document l) key fallback = n.
Proof.
  intros Hn Hin. destruct (document_found key _ Hin) as (pos & d & rest & Hf & Hd & Hdd). unfold getInt. rewrite Hf.
  destruct (to_string_head n ltac:(lia)) as (c & r & Hv & Hc).
  assert (document l !! pos = Some c) as ->.
  { rewrite Hv in Hd. exact (lookup_of_drop (document l) pos c _ Hd). }
  rewrite Hc. cbn [orb]. rewrite Hd. apply strtoll_to_string; [done |]. intros x [= <-]. by destruct Hdd as [->| ->].
Qed.

Lemma document_bool key (b : bool) : (key, str (if b then "true" else "false")) ∈ l -> getBool (document l) key = b.
Proof.
  intros Hin. destruct (document_found key _ Hin) as (pos & d & rest & Hf & Hd & _). unfold getBool. rewrite Hf, Hd.
  by destruct b.
Qed.

Lemma document_array key a : Forall all_bytes a -> (key, array_text a) ∈ l -> getStringArray (document l) key = a.
Proof.
  intros Ha Hin. destruct (document_split key _ Hin) as (Hk & _ & pre & d & rest & -> & _ & Hq). by apply read_array.
Qed.
End Read.

(** ** Objects on one line *)

(** A member of an object written without blanks, and a run of members, each with the comma
    after it. *)
Definition member (key value : bytes) : bytes := quoted key ++ [cColon] ++ value.
Definition members (l : list (bytes * bytes)) : bytes := l ≫= λ kv, member kv.1 kv.2 ++ [cComma].

Lemma member_found pre key v rest :
  plain key -> quiet key pre (member key v ++ rest) ->
  (forall c, head (v ++ rest) = Some c -> is_ws c = false) ->
  let s := pre ++ member key v ++ rest in
  exists pos, findValue s key 0 = Some pos /\ drop pos s = v ++ rest.
Proof.
  intros Hk Hq Hv s.
  assert (Hd : drop (length pre) s = [cQuote] ++ key ++ [cQuote] ++ [] ++ [cColon] ++ [] ++ v ++ rest).
  { unfold s, member, quoted. rewrite drop_app_length. by rewrite <- !app_assoc. }
  assert (Hat : key_at s key (length pre)) by (exists [], (v ++ rest); split; [exact Hd | constructor]).
  pose proof (findValue_spec s key 0) as H. destruct (findValue s key 0) as [pos|]; [|by destruct (H (length pre)); [lia |]].
  destruct H as (p & _ & Hp & Hfirst & ->). assert (p = length pre) as ->.
  { destruct (lt_eq_lt_dec p (length pre)) as [[Hlt|?]|Hgt]; [by destruct (Hq p Hlt) | done |]. by destruct (Hfirst (length pre)); [lia |]. }
  eexists. split; [done |]. by apply (key_value_drop s key (length pre) [] [] (v ++ rest) Hd); [constructor | constructor |].
Qed.

Lemma quiet_members key l rest :
  plain key -> Forall (λ kv : bytes * bytes, plain kv.1 /\ settled kv.2) l -> key ∉ l.*1 -> quiet key (members l) rest.
Proof.
  intros Hkey Hl. revert rest. induction Hl as [|[k w] l [Hk [Hw _ _]] Hl IH]; intros rest Hin; [intros p Hp; simpl in Hp; lia |].
  rewrite fmap_cons, not_elem_of_cons in Hin. destruct Hin as [Hne Hin]. cbn [fst snd] in *.
  change (members ((k, w) :: l)) with ((member k w ++ [cComma]) ++ members l). unfold member. rewrite <- !app_assoc.
  apply quiet_app; [apply quiet_name; congruence |].
  apply quiet_app; [apply quiet_noquote; by rewrite list_elem_of_singleton |].
  apply quiet_app; [by apply Hw |]. apply quiet_app; [apply quiet_noquote; by rewrite list_elem_of_singleton | by apply IH].
Qed.

Section ReadMembers.
Context (l : list (bytes * bytes)) (Hok : document_ok l) (tail : bytes).
(** The members of [l] open the object; what follows them is arbitrary. *)
Notation s := (str "{" ++ members l ++ tail).

Lemma members_found key v : (key, v) ∈ l ->
  exists pos rest, findValue s key 0 = Some pos /\ drop pos s = v ++ cComma :: rest.
Proof.
  intros Hin. destruct Hok as [Hnd Hl]. apply list_elem_of_split in Hin as (l1 & l2 & ->).
  rewrite fmap_app, fmap_cons in Hnd. apply NoDup_app in Hnd as (_ & Hnot & _).
  apply Forall_app in Hl as [Hl1 [[Hk [_ _ (c & r & Hv & Hc)]] _]%Forall_cons]. cbn [fst snd] in *.
  assert (He : str "{" ++ members (l1 ++ (key, v) :: l2) ++ tail =
               (str "{" ++ members l1) ++ member key v ++ cComma :: (members l2 ++ tail)).
  { unfold members. rewrite bind_app, bind_cons. cbn [fst snd]. by rewrite <- !app_assoc. }
  rewrite He. destruct (member_found (str "{" ++ members l1) key v (cComma :: (members l2 ++ tail)) Hk) as (pos & Hf & Hd).
  - apply quiet_app; [apply quiet_noquote; apply (bool_decide_eq_false_1 (cQuote ∈ str "{")); reflexivity |].
    apply quiet_members; [done | done |]. intros Hin. apply (Hnot key Hin). by left.
  - rewrite Hv. by intros x [= <-].
  - by exists pos, (members l2 ++ tail).
Qed.

Lemma members_string key t : all_bytes t -> (key, quoted (escape t)) ∈ l -> getString s key 0 = t.
Proof.
  intros Ht Hin. destruct (members_found key _ Hin) as (pos & rest & Hf & Hd). unfold getString. rewrite Hf.
  by eapply read_string.
Qed.

Lemma members_int key n fallback : 0 <= n < 2 ^ 63 -> (key, to_string n) ∈ l -> getInt s key fallback = n.
Proof.
  intros Hn Hin. destruct (members_found key _ Hin) as (pos & rest & Hf & Hd). unfold getInt. rewrite Hf.
  destruct (to_string_head n ltac:(lia)) as (c & r & Hv & Hc).
  assert (Hl := Hd). rewrite Hv in Hl. apply lookup_of_drop in Hl. rewrite Hl, Hc. cbn [orb]. rewrite Hd.
  apply strtoll_to_string; [done |]. by intros x [= <-].
Qed.

Lemma members_bool key (b : bool) : (key, str (if b then "true" else "false")) ∈ l -> getBool s key = b.
Proof.
  intros Hin. destruct (members_found key _ Hin) as (pos & rest & Hf & Hd). unfold getBool. rewrite Hf, Hd. by destruct b.
Qed.
End ReadMembers.

Lemma settled_bool (b : bool) : settled (str (if b then "true" else "false")).
Proof.
  destruct b; (eapply settled_raw; [|reflexivity | done]);
    [apply (bool_decide_eq_false_1 (cQuote ∈ str "true")) | apply (bool_decide_eq_false_1 (cQuote ∈ str "false"))]; reflexivity.
Qed.
