(* ===== verification/Config.v ===== *)
(** * Config: the configuration file

    Models [src/src/Config.hpp], [src/src/Config.cpp] and [protect]/[unprotect] of
    [src/src/Secure.cpp]. The file system ([fileutil]), DPAPI and the base64 routines of the
    system are inputs; the paths, log messages and the wiping of secrets are omitted. *)

From S2P Require Import Prelude Json JsonText.

Inductive DnsMode := DnsWorker | DnsSystem.
#[export] Instance DnsMode_eq_dec : EqDecision DnsMode.
Proof. solve_decision. Defined.

Record Config := mkConfig {
  apiToken : bytes;
  accountId : bytes;
  workerName : bytes;
  workerUrl : bytes;
  sharedSecret : bytes;
  dnsMode : DnsMode;
  splitDelayMs : Z;
  probeTimeoutMs : Z;
  tunnelFallback : bool;
  processInclude : list bytes;
  processExclude : list bytes;
  migratedFromPlaintext : bool;
  legacyApiTokenPresent : bool;
  sharedSecretBlob : bytes;
  loadFailed : bool;
  processIncludeInvalid : bool;
}.
Definition newConfig : Config :=
  mkConfig [] [] (str "splithello-relay") [] [] DnsWorker 20 3000 false [] [] false false [] false false.

Definition setLoadFailed (c : Config) (b : bool) : Config :=
  mkConfig (apiToken c) (accountId c) (workerName c) (workerUrl c) (sharedSecret c) (dnsMode c) (splitDelayMs c)
    (probeTimeoutMs c) (tunnelFallback c) (processInclude c) (processExclude c) (migratedFromPlaintext c)
    (legacyApiTokenPresent c) (sharedSecretBlob c) b (processIncludeInvalid c).
Definition clearToken (c : Config) : Config :=
  mkConfig [] (accountId c) (workerName c) (workerUrl c) (sharedSecret c) (dnsMode c) (splitDelayMs c)
    (probeTimeoutMs c) (tunnelFallback c) (processInclude c) (processExclude c) (migratedFromPlaintext c)
    (legacyApiTokenPresent c) (sharedSecretBlob c) (loadFailed c) (processIncludeInvalid c).

Definition isValid (c : Config) : bool := bool_decide (dnsMode c = DnsSystem) || negb (bool_decide (workerUrl c = [])).

Definition readUnsigned (json key : bytes) (fallback low high : Z) : Z :=
  let value := getInt json key fallback in
  if (value <? low) || (high <? value) then fallback else value.

Definition kMaximumRules : nat := 128.
Definition kMaximumRuleLength : Z := 1024.
Definition readProcessRules (content key : bytes) : list bytes :=
  take kMaximumRules
    (List.filter (λ rule, negb (bool_decide (rule = []) || (kMaximumRuleLength <? zlen rule))) (getStringArray content key)).

(** The loop of [stringArrayJson] from element [i] on. *)
Fixpoint stringArray_loop (i : nat) (values : list bytes) (result : bytes) : bytes :=
  match values with
  | [] => result ++ str "]"
  | v :: values =>
      stringArray_loop (S i) values ((if bool_decide (i = 0%nat) then result else result ++ str ", ") ++ quoted (escape v))
  end.
Definition stringArrayJson (values : list bytes) : bytes := stringArray_loop 0 values (str "[").

Section Secure.
(** [CryptProtectData], [CryptUnprotectData] and the base64 conversions of the system. *)
Variable cryptProtect cryptUnprotect base64Encode base64Decode : bytes -> option bytes.

Definition protect (plaintext : bytes) : bytes :=
  if bool_decide (plaintext = []) then [] else
  match cryptProtect plaintext with
  | None => []
  | Some output => default [] (base64Encode output)
  end.

Definition unprotect (base64Blob : bytes) : bytes :=
  if bool_decide (base64Blob = []) then [] else
  match base64Decode base64Blob with
  | None | Some [] => []
  | Some raw => default [] (cryptUnprotect raw)
  end.

(** The secret, [migrated] and [keptBlob]. *)
Definition readSecret (json protectedKey legacyKey : bytes) (migrated : bool) (keptBlob : bytes) : bytes * bool * bytes :=
  let blob := getString json protectedKey 0 in
  if negb (bool_decide (blob = [])) then
    let plaintext := unprotect blob in
    (plaintext, migrated, if bool_decide (plaintext = []) then blob else keptBlob)
  else
    let legacy := getString json legacyKey 0 in
    (legacy, if bool_decide (legacy = []) then migrated else true, keptBlob).

(** [load]; [path] says whether the path is known, [content] what [readAll] gave and
    [exists_] whether the file is there. *)
Definition load (path : bool) (content : option bytes) (exists_ : bool) (c : Config) : bool * Config :=
  let c := setLoadFailed c false in
  if negb path then (false, c) else
  match content with
  | None => (false, setLoadFailed c exists_)
  | Some json =>
      let legacyApiTokenPresent := negb (bool_decide (getString json (str "api_token_dpapi") 0 = [])) ||
                                   negb (bool_decide (getString json (str "api_token") 0 = [])) in
      let '(apiToken, migrated, _) :=
        readSecret json (str "api_token_dpapi") (str "api_token") (migratedFromPlaintext c) [] in
      let '(sharedSecret, migrated, blob) :=
        readSecret json (str "shared_secret_dpapi") (str "shared_secret") migrated [] in
      let workerName := getString json (str "worker_name") 0 in
      let include := readProcessRules json (str "process_include") in
      (true,
       mkConfig apiToken (getString json (str "account_id") 0)
         (if bool_decide (workerName = []) then str "splithello-relay" else workerName)
         (getString json (str "worker_url") 0) sharedSecret
         (if bool_decide (getString json (str "dns_mode") 0 = str "system") then DnsSystem else DnsWorker)
         (readUnsigned json (str "split_delay_ms") (splitDelayMs c) 0 2000)
         (readUnsigned json (str "probe_timeout_ms") (probeTimeoutMs c) 250 30000)
         (getBool json (str "tunnel_fallback")) include (readProcessRules json (str "process_exclude"))
         migrated legacyApiTokenPresent blob false
         (bool_decide (include = []) && negb (bool_decide (getStringArray json (str "process_include") = []))))
  end.

Definition protectedSecret (c : Config) : bytes :=
  if bool_decide (sharedSecret c = []) then sharedSecretBlob c else protect (sharedSecret c).

(** The text that [save] writes once the secret is sealed. *)
Definition saveText (protectedSecret : bytes) (c : Config) : bytes :=
  str "{" ++ [10] ++
  line (str "shared_secret_dpapi") (quoted (escape protectedSecret)) ++ str "," ++ [10] ++
  line (str "account_id") (quoted (escape (accountId c))) ++ str "," ++ [10] ++
  line (str "worker_name") (quoted (escape (workerName c))) ++ str "," ++ [10] ++
  line (str "worker_url") (quoted (escape (workerUrl c))) ++ str "," ++ [10] ++
  line (str "dns_mode") (quoted (if bool_decide (dnsMode c = DnsSystem) then str "system" else str "worker")) ++ str "," ++ [10] ++
  line (str "split_delay_ms") (to_string (splitDelayMs c)) ++ str "," ++ [10] ++
  line (str "probe_timeout_ms") (to_string (probeTimeoutMs c)) ++ str "," ++ [10] ++
  line (str "tunnel_fallback") (str (if tunnelFallback c then "true" else "false")) ++ str "," ++ [10] ++
  line (str "process_include") (stringArrayJson (processInclude c)) ++ str "," ++ [10] ++
  line (str "process_exclude") (stringArrayJson (processExclude c)) ++ [10] ++
  str "}" ++ [10].

(** The text that [save] writes. *)
Definition saveContent (c : Config) : bytes := saveText (protectedSecret c) c.

(** [save]: its result and the content it hands to [writeAtomic], whose result is
    [written]; no content is the early return. *)
Definition save (path created written : bool) (c : Config) : bool * option bytes :=
  if negb path then (false, None) else if negb created then (false, None) else (written, Some (saveContent c)).

(** [forgetToken]: the configuration, and what [save] did with it. *)
Definition forgetToken (path created written : bool) (c : Config) : Config * (bool * option bytes) :=
  let c := clearToken c in (c, save path created written c).

(** ** The document *)

Definition config_fields (c : Config) : list (bytes * bytes) :=
  [(str "shared_secret_dpapi", quoted (escape (protectedSecret c)));
   (str "account_id", quoted (escape (accountId c)));
   (str "worker_name", quoted (escape (workerName c)));
   (str "worker_url", quoted (escape (workerUrl c)));
   (str "dns_mode", quoted (escape (if bool_decide (dnsMode c = DnsSystem) then str "system" else str "worker")));
   (str "split_delay_ms", to_string (splitDelayMs c));
   (str "probe_timeout_ms", to_string (probeTimeoutMs c));
   (str "tunnel_fallback", str (if tunnelFallback c then "true" else "false"));
   (str "process_include", array_text (processInclude c));
   (str "process_exclude", array_text (processExclude c))].

Lemma stringArrayJson_text l : stringArrayJson l = array_text l.
Proof.
  assert (Hmore : forall l i acc, stringArray_loop (S i) l acc = acc ++ more_items l ++ str "]").
  { clear. intros l. induction l as [|v l IH]; intros i acc; cbn [stringArray_loop]; [done |].
    rewrite IH, bool_decide_eq_false_2 by done. unfold more_items. rewrite bind_cons. by rewrite <- !app_assoc. }
  unfold stringArrayJson, array_text. destruct l as [|v l]; cbn [stringArray_loop]; [done |].
  rewrite Hmore, bool_decide_eq_true_2 by done. by rewrite <- !app_assoc.
Qed.

Lemma saveContent_document c : saveContent c = document (config_fields c).
Proof.
  unfold saveContent, saveText. rewrite !stringArrayJson_text. unfold document, config_fields. cbn [lines]. rewrite <- !app_assoc.
  by destruct (dnsMode c).
Qed.

(** ** Properties *)

Definition rule_ok (rule : bytes) : Prop := all_bytes rule /\ rule <> [] /\ zlen rule <= kMaximumRuleLength.

(** What the program puts into a configuration. *)
Record config_ok (c : Config) : Prop := {
  cok_bytes : Forall all_bytes [accountId c; workerName c; workerUrl c; protectedSecret c];
  cok_name : workerName c <> [];
  cok_delay : 0 <= splitDelayMs c <= 2000;
  cok_probe : 250 <= probeTimeoutMs c <= 30000;
  cok_include : Forall rule_ok (processInclude c) /\ (length (processInclude c) <= kMaximumRules)%nat;
  cok_exclude : Forall rule_ok (processExclude c) /\ (length (processExclude c) <= kMaximumRules)%nat;
}.

Lemma rules_bytes l : Forall rule_ok l -> Forall all_bytes l.
Proof. intros H. eapply Forall_impl; [exact H |]. by intros r (? & _). Qed.

Lemma config_document_ok c : config_ok c -> document_ok (config_fields c).
Proof.
  intros [Hb Hn Hd Hp [Hi _] [He _]]. split; [by apply (bool_decide_eq_true_1 (NoDup _)) |].
  rewrite !Forall_cons in Hb. destruct Hb as (Ha & Hw & Hu & Hs & _).
  assert (Hbool : forall b : bool, settled (str (if b then "true" else "false"))).
  { intros b. destruct b; eapply settled_raw; try done; apply (bool_decide_eq_false_1 (cQuote ∈ str _)); reflexivity. }
  assert (Hdns : all_bytes (if bool_decide (dnsMode c = DnsSystem) then str "system" else str "worker")).
  { case_if; by apply all_bytes_check. }
  unfold config_fields. repeat (apply Forall_cons; split; [split; [by apply plain_ok |] |]); cbn [snd]; [.. | constructor].
  all: first [ apply settled_string; assumption | apply settled_number; lia | apply Hbool
             | apply settled_array; by apply rules_bytes ].
Qed.

Lemma rules_kept l : Forall rule_ok l -> (length l <= kMaximumRules)%nat ->
  take kMaximumRules (List.filter (λ rule, negb (bool_decide (rule = []) || (kMaximumRuleLength <? zlen rule))) l) = l.
Proof.
  intros Hl Hn. assert (Hf : List.filter (λ rule, negb (bool_decide (rule = []) || (kMaximumRuleLength <? zlen rule))) l = l).
  { clear Hn. induction Hl as [|r l (_ & Hne & Hz) _ IH]; [done |]. cbn [List.filter]. rewrite IH.
    rewrite bool_decide_eq_false_2, (proj2 (Z.ltb_ge _ _)) by done. done. }
  rewrite Hf. by apply take_ge.
Qed.

(** DPAPI and base64 give back what they were given. *)
Hypothesis base64_back : forall x t, base64Encode x = Some t -> base64Decode t = Some x.
Hypothesis crypt_back : forall p o, cryptProtect p = Some o -> cryptUnprotect o = Some p /\ o <> [].

Lemma unprotect_protect p : protect p <> [] -> unprotect (protect p) = p.
Proof.
  unfold protect, unprotect. case_bool_decide as Hp; [done |]. destruct (cryptProtect p) as [o|] eqn:Ep; [|done].
  destruct (base64Encode o) as [t|] eqn:Et; [|done]. change (default [] (Some t)) with t. intros Ht.
  destruct (crypt_back _ _ Ep) as [Hu Ho]. rewrite bool_decide_eq_false_2, (base64_back _ _ Et) by done.
  destruct o; [done |]. by rewrite Hu.
Qed.

(** What becomes of the stored secret. *)
Lemma secret_back c (m0 : bool) :
  let '(s, m, blob) :=
    if negb (bool_decide (protectedSecret c = [])) then
      (unprotect (protectedSecret c), m0, if bool_decide (unprotect (protectedSecret c) = []) then protectedSecret c else [])
    else (([] : bytes), m0, ([] : bytes)) in
  m = m0 /\ (sharedSecret c <> [] -> protect (sharedSecret c) <> [] -> s = sharedSecret c /\ blob = []) /\
  (sharedSecret c = [] -> unprotect (sharedSecretBlob c) = [] -> s = [] /\ blob = sharedSecretBlob c).
Proof.
  unfold protectedSecret. destruct (decide (sharedSecret c = [])) as [Hs|Hs].
  - rewrite (bool_decide_eq_true_2 (sharedSecret c = [])) by done. case_bool_decide as Hb; cbn [negb].
    + by rewrite Hb.
    + split_and!; [done | done |]. intros _ Hu. by rewrite Hu.
  - rewrite (bool_decide_eq_false_2 (sharedSecret c = [])) by done. case_bool_decide as Hb; cbn [negb]; [done |].
    rewrite unprotect_protect by done. rewrite (bool_decide_eq_false_2 (sharedSecret c = [])) by done. done.
Qed.

(** C19: What is saved is loaded. Whatever octets its strings hold, quotes and text that looks
    like fields included, a configuration that [save] writes is read back by [load] with
    every setting unchanged; the shared secret comes back decrypted, and a blob that cannot be
    decrypted here is kept and will be written again; no legacy token is reported. *)
Theorem config_roundtrip (c c0 : Config) (exists_ : bool) :
  config_ok c ->
  let '(ok, c') := load true (Some (saveContent c)) exists_ c0 in
  ok = true /\ accountId c' = accountId c /\ workerName c' = workerName c /\ workerUrl c' = workerUrl c /\
  dnsMode c' = dnsMode c /\ splitDelayMs c' = splitDelayMs c /\ probeTimeoutMs c' = probeTimeoutMs c /\
  tunnelFallback c' = tunnelFallback c /\ processInclude c' = processInclude c /\ processExclude c' = processExclude c /\
  (sharedSecret c <> [] -> protect (sharedSecret c) <> [] -> sharedSecret c' = sharedSecret c /\ sharedSecretBlob c' = []) /\
  (sharedSecret c = [] -> unprotect (sharedSecretBlob c) = [] ->
     sharedSecret c' = [] /\ sharedSecretBlob c' = sharedSecretBlob c /\ protectedSecret c' = protectedSecret c) /\
  apiToken c' = [] /\ legacyApiTokenPresent c' = false /\ loadFailed c' = false /\ processIncludeInvalid c' = false /\
  migratedFromPlaintext c' = migratedFromPlaintext c0.
Proof.
  intros Hok. pose proof (config_document_ok c Hok) as Hdoc. rewrite saveContent_document. set (json := document (config_fields c)).
  destruct Hok as [Hb Hn Hd Hp [Hi Hil] [He Hel]]. rewrite !Forall_cons in Hb. destruct Hb as (Ha & Hw & Hu & Hs & _).
  assert (Hin : forall i kv, config_fields c !! i = Some kv -> kv ∈ config_fields c) by (intros i kv; apply list_elem_of_lookup_2).
  assert (Hdns : all_bytes (if bool_decide (dnsMode c = DnsSystem) then str "system" else str "worker")).
  { case_if; by apply all_bytes_check. }
  assert (Habs : forall key, plain_check key = true -> bool_decide (key ∈ fst <$> config_fields c) = false -> getString json key 0 = []).
  { intros key Hk Hne%bool_decide_eq_false_1. unfold getString, json. by rewrite (document_absent _ Hdoc key (plain_ok key Hk) Hne). }
  pose proof (document_string _ Hdoc _ _ Hs (Hin 0%nat _ eq_refl)) as R0.
  pose proof (document_string _ Hdoc _ _ Ha (Hin 1%nat _ eq_refl)) as R1.
  pose proof (document_string _ Hdoc _ _ Hw (Hin 2%nat _ eq_refl)) as R2.
  pose proof (document_string _ Hdoc _ _ Hu (Hin 3%nat _ eq_refl)) as R3.
  pose proof (document_string _ Hdoc _ _ Hdns (Hin 4%nat _ eq_refl)) as R4.
  pose proof (document_int _ Hdoc _ (splitDelayMs c) (splitDelayMs c0) ltac:(lia) (Hin 5%nat _ eq_refl)) as R5.
  pose proof (document_int _ Hdoc _ (probeTimeoutMs c) (probeTimeoutMs c0) ltac:(lia) (Hin 6%nat _ eq_refl)) as R6.
  pose proof (document_bool _ Hdoc _ _ (Hin 7%nat _ eq_refl)) as R7.
  pose proof (document_array _ Hdoc _ _ (rules_bytes _ Hi) (Hin 8%nat _ eq_refl)) as R8.
  pose proof (document_array _ Hdoc _ _ (rules_bytes _ He) (Hin 9%nat _ eq_refl)) as R9.
  fold json in R0, R1, R2, R3, R4, R5, R6, R7, R8, R9.
  unfold load. cbn [negb]. unfold readProcessRules, readUnsigned, readSecret. cbn [setLoadFailed migratedFromPlaintext splitDelayMs probeTimeoutMs].
  rewrite R0, R1, R2, R3, R4, R5, R6, R7, R8, R9, !Habs by reflexivity.
  rewrite !rules_kept by done.
  rewrite (proj2 (Z.ltb_ge (splitDelayMs c) 0)), (proj2 (Z.ltb_ge 2000 (splitDelayMs c))) by lia.
  rewrite (proj2 (Z.ltb_ge (probeTimeoutMs c) 250)), (proj2 (Z.ltb_ge 30000 (probeTimeoutMs c))) by lia.
  rewrite (bool_decide_eq_false_2 (workerName c = [])) by done.
  rewrite !(bool_decide_eq_true_2 (([] : bytes) = [])) by done. cbn [negb orb].
  pose proof (secret_back c (migratedFromPlaintext c0)) as Hsec. destruct (if negb _ then _ else _) as [[s m] blob].
  destruct Hsec as (-> & H1 & H2).
  split_and!; try done; try (by destruct (dnsMode c)).
  - intros Hs0 Hb0. destruct (H2 Hs0 Hb0) as [-> ->]. split_and!; [done | done |]. unfold protectedSecret. cbn. by rewrite Hs0.
  - cbn [processIncludeInvalid]. by destruct (bool_decide (processInclude c = [])).
Qed.
End Secure.

(** A sealed secret is its octets reversed behind a mark; the texts look like fields. *)
Definition demo_seal (p : bytes) : option bytes := Some (7 :: reverse p).
Definition demo_open (o : bytes) : option bytes := match o with [] => None | _ :: p => Some (reverse p) end.
Definition demo_config : Config :=
  mkConfig (str "old") [34; 97; 92] (str "relay") ([34; 44; 10] ++ quoted (str "dns_mode") ++ str ": ") (str "s3")
    DnsSystem 35 4000 true [str "a*.exe"; [34]] [] true true [] false true.

Lemma config_roundtrip_witness :
  let '(ok, c) := load demo_open Some true (Some (saveContent demo_seal Some demo_config)) true newConfig in
  ok = true /\ accountId c = [34; 97; 92] /\ sharedSecret c = str "s3" /\ processInclude c = [str "a*.exe"; [34]].
Proof.
  assert (Hok : config_ok demo_seal Some demo_config).
  { split; [.. | |]; try (cbn; lia); try done.
    - repeat (apply Forall_cons; split; [by apply all_bytes_check |]); constructor.
    - split; [| cbn; unfold kMaximumRules; lia].
      repeat (apply Forall_cons; split; [split_and!; [by apply all_bytes_check | done | by apply Z.leb_le] |]); constructor.
    - split; [constructor | cbn; unfold kMaximumRules; lia]. }
  pose proof (config_roundtrip demo_seal demo_open Some Some ltac:(by intros x t [= ->])
    ltac:(intros p o [= <-]; split; [cbn; by rewrite reverse_involutive | done]) demo_config newConfig true Hok) as H.
  destruct (load demo_open Some true _ true newConfig) as [ok c].
  destruct H as (H1 & H2 & _ & _ & _ & _ & _ & _ & H3 & _ & H4 & _).
  destruct H4 as [H4 _]; [done | by vm_compute |]. by rewrite H2, H3, H4.
Defined.
