(* ===== verification/TcpConnect.v ===== *)
(** * TcpConnect: socket helpers and the connection race

    Models [src/src/TcpConnect.cpp] (namespace [tcp]): [isIpLiteral], [sendAll] and
    [connectAny], the staggered race of connection attempts (RFC 8305). Sockets are the
    handles the system returns; what the calls return in each turn of the loop is an input.
    The handles a race opens and closes are recorded, so that a leak is a wrong record. *)

From S2P Require Import Prelude.

(** ** Peers *)

(** A [sockaddr_storage] as the program reads it: the address bytes and the port in host
    order. *)
Inductive Sockaddr := SockIn (address : bytes) (port : Z) | SockIn6 (address : bytes) (port : Z) | SockOther.

(** [IN6_IS_ADDR_V4MAPPED] *)
Definition v4Mapped (address : bytes) : bool :=
  bool_decide (take 12 address = replicate 10 0 ++ [255; 255]).

(** ** isIpLiteral *)

Section Literal.
(** [inet_pton] for each family. *)
Variable inet_pton4 inet_pton6 : bytes -> option bytes.
Definition isIpLiteral (value : bytes) : bool :=
  if bool_decide (value = []) then false else
  if bool_decide (is_Some (inet_pton4 value)) then true
  else bool_decide (is_Some (inet_pton6 value)).
End Literal.

(** ** sendAll *)

(** The results of [::send]: bytes taken, [WSAEWOULDBLOCK], another error. *)
Inductive SendResult := Sent (n : Z) | WouldBlock | SendFailed.

(** The bytes that left and the return value; [None] while the results are exhausted and
    the loop still runs. [::send] takes at most what it is given. *)
Fixpoint sendAll_loop (results : list SendResult) (data : bytes) : bytes * option bool :=
  if zlen data <=? 0 then ([], Some true) else
  match results with
  | [] => ([], None)
  | WouldBlock :: rest => sendAll_loop rest data
  | SendFailed :: _ => ([], Some false)
  | Sent n :: rest =>
      let chunk := Z.min (zlen data) (Z.shiftl 1 20) in
      let sent := Z.min (Z.max n 0) chunk in
      if sent =? 0 then ([], Some false) else
      let '(out, r) := sendAll_loop rest (drop (Z.to_nat sent) data) in
      (take (Z.to_nat sent) data ++ out, r)
  end.
Definition sendAll (results : list SendResult) (data : bytes) : bytes * option bool :=
  sendAll_loop results data.

(** ** connectAny *)

Definition kMaxParallelAttempts : Z := 8.

Record RaceAttempt := mkRaceAttempt { sock : Z; address : bytes }.

(** The locals of the loop, and the history of handles. *)
Record Race := mkRace {
  inFlight : list RaceAttempt;
  nextCandidate : nat;
  nextStartAt : Z;
  winner : option RaceAttempt;
  opened : list Z;
  closed : list Z;
}.
Definition newRace : Race := mkRace [] 0 0 None [] [].

(** What one turn meets: the clock, [beginConnect], the sign of [::select], and for each
    handle whether it is signalled writable or failed and its [SO_ERROR]. *)
Record RaceInput := mkRaceInput {
  ri_now : Z;
  ri_begin : option Z;
  ri_select : Z;
  ri_signal : Z -> bool * bool * Z;
}.

(** The loop over the signalled attempts: the winner, what stays in flight, the handles it
    closed. *)
Fixpoint scanAttempts (signal : Z -> bool * bool * Z) (l : list RaceAttempt)
    : option RaceAttempt * list RaceAttempt * list Z :=
  match l with
  | [] => (None, [], [])
  | a :: rest =>
      let '(writable, failed, soError) := signal (sock a) in
      if negb writable && negb failed then
        let '(w, kept, cl) := scanAttempts signal rest in (w, a :: kept, cl)
      else if writable && (soError =? 0) then (Some a, rest, [])
      else let '(w, kept, cl) := scanAttempts signal rest in (w, kept, sock a :: cl)
  end.

(** One turn of the loop: the state and whether the loop goes on. *)
Definition raceTurn (addresses : list bytes) (attemptDelayMs deadline : Z) (inp : RaceInput)
    (r : Race) : Race * bool :=
  if deadline <=? ri_now inp then (r, false) else
  let candidatesLeft := bool_decide (nextCandidate r < length addresses)%nat in
  if candidatesLeft && (zlen (inFlight r) <? kMaxParallelAttempts) && (nextStartAt r <=? ri_now inp) then
    let a := default [] (addresses !! nextCandidate r) in
    (match ri_begin inp with
     | Some h =>
         mkRace (inFlight r ++ [mkRaceAttempt h a]) (S (nextCandidate r))
           (w64 (ri_now inp + attemptDelayMs)) (winner r) (opened r ++ [h]) (closed r)
     | None =>
         mkRace (inFlight r) (S (nextCandidate r)) (nextStartAt r) (winner r) (opened r) (closed r)
     end, true)
  else if bool_decide (inFlight r = []) then (r, candidatesLeft)             (* else Sleep *)
  else if ri_select inp <? 0 then (r, false)
  else if ri_select inp =? 0 then (r, true)
  else
    let '(w, kept, cl) := scanAttempts (ri_signal inp) (inFlight r) in
    (mkRace kept (nextCandidate r) (if bool_decide (cl = []) then nextStartAt r else 0) w
       (opened r) (closed r ++ cl), bool_decide (w = None)).

(** The loop; [None] while the inputs are exhausted and it still runs. *)
Fixpoint raceLoop (addresses : list bytes) (attemptDelayMs deadline : Z) (inputs : list RaceInput)
    (r : Race) : option Race :=
  match inputs with
  | [] => None
  | inp :: rest =>
      let '(r', go) := raceTurn addresses attemptDelayMs deadline inp r in
      if go : bool then raceLoop addresses attemptDelayMs deadline rest r' else Some r'
  end.

(** [connectAny]: the socket, [chosenAddress] and the history. [start] is the first clock
    reading, [blocking] the result of [makeBlocking]. *)
Definition connectAny (addresses : list bytes) (attemptDelayMs totalTimeoutMs start : Z)
    (inputs : list RaceInput) (blocking : bool) : option (option Z * bytes * Race) :=
  if bool_decide (addresses = []) then Some (None, [], newRace) else
  r ← raceLoop addresses attemptDelayMs (w64 (start + totalTimeoutMs)) inputs newRace;
  let r := mkRace [] (nextCandidate r) (nextStartAt r) (winner r) (opened r)
             (closed r ++ (sock <$> inFlight r)) in
  match winner r with
  | Some a =>
      if blocking then Some (Some (sock a), address a, r)
      else Some (None, [], mkRace [] (nextCandidate r) (nextStartAt r) None (opened r) (closed r ++ [sock a]))
  | None => Some (None, [], r)
  end.

(** ** Specifications *)

(** The handle whose address won was signalled writable without an error. *)
Definition connected (inputs : list RaceInput) (a : RaceAttempt) : Prop :=
  exists inp f, inp ∈ inputs /\ ri_signal inp (sock a) = (true, f, 0).

(** Every handle is in flight, closed or the winner; the race is small enough for
    [fd_set]; attempts are made in the order of the list. *)
Record race_ok (addresses : list bytes) (past : list RaceInput) (r : Race) : Prop := {
  rok_handles : opened r ≡ₚ closed r ++ (sock <$> inFlight r) ++ (sock <$> option_list (winner r));
  rok_room : zlen (inFlight r) <= kMaxParallelAttempts;
  rok_order : (address <$> inFlight r) ⊆ take (nextCandidate r) addresses;
  rok_winner : forall a, winner r = Some a -> address a ∈ take (nextCandidate r) addresses /\ connected past a;
}.

(** ** Lemmas *)

Lemma scanAttempts_spec signal l w kept cl :
  scanAttempts signal l = (w, kept, cl) ->
  (sock <$> l) ≡ₚ cl ++ (sock <$> kept) ++ (sock <$> option_list w) /\
  (length kept <= length l)%nat /\ (forall a, a ∈ kept -> a ∈ l) /\
  (forall a, w = Some a -> a ∈ l /\ exists f, signal (sock a) = (true, f, 0)).
Proof.
  revert w kept cl. induction l as [|a l IH]; intros w kept cl; simpl.
  { intros [= <- <- <-]. split_and!; try done. }
  destruct (signal (sock a)) as [[wr fl] err] eqn:Es.
  destruct (negb wr && negb fl) eqn:En.
  - destruct (scanAttempts signal l) as [[w' kept'] cl'] eqn:El. intros [= <- <- <-].
    destruct (IH _ _ _ eq_refl) as (Hp & Hl & Hk & Hw). split_and!.
    + rewrite Hp. simpl. by rewrite Permutation_middle.
    + simpl. lia.
    + intros b. rewrite !elem_of_cons. intros [->|Hb]; [by left | right; auto].
    + intros b Hb. destruct (Hw b Hb). rewrite elem_of_cons. auto.
  - destruct (wr && (err =? 0)) eqn:Ew.
    + intros [= <- <- <-]. apply andb_true_iff in Ew as [-> Ee]. zbool. subst err. split_and!.
      * simpl. by rewrite Permutation_app_comm.
      * simpl. lia.
      * intros b Hb. rewrite elem_of_cons. by right.
      * intros b [= <-]. rewrite elem_of_cons. split; [by left | by exists fl].
    + destruct (scanAttempts signal l) as [[w' kept'] cl'] eqn:El. intros [= <- <- <-].
      destruct (IH _ _ _ eq_refl) as (Hp & Hl & Hk & Hw). split_and!.
      * rewrite Hp. done.
      * simpl. lia.
      * intros b Hb. rewrite elem_of_cons. auto.
      * intros b Hb. destruct (Hw b Hb). rewrite elem_of_cons. auto.
Qed.

Lemma connected_mono past inp a : connected past a -> connected (past ++ [inp]) a.
Proof. intros (i & f & Hi & Hs). exists i, f. by rewrite elem_of_app; auto. Qed.

Lemma race_ok_mono addresses past inp r : race_ok addresses past r -> race_ok addresses (past ++ [inp]) r.
Proof.
  intros [H1 H2 H3 H4]. split; try done. intros a Ha. destruct (H4 a Ha). split; [done |].
  by apply connected_mono.
Qed.

Lemma raceTurn_ok addresses delay deadline inp past r r' go :
  race_ok addresses past r -> winner r = None ->
  raceTurn addresses delay deadline inp r = (r', go) ->
  race_ok addresses (past ++ [inp]) r' /\ (go = true -> winner r' = None).
Proof.
  intros Hok Hw. pose proof (race_ok_mono _ _ inp _ Hok) as Hok'. unfold raceTurn.
  case_if; [by intros [= <- <-] |]. cbv zeta. case_if.
  - intros [= <- <-]. apply andb_true_iff in E0 as [E0 Et]. apply andb_true_iff in E0 as [Ec Er]. zbool.
    apply lookup_lt_is_Some in Ec as [a Ha]. destruct Hok' as [H1 H2 H3 H4].
    assert (Htk : take (nextCandidate r) addresses ⊆ take (S (nextCandidate r)) addresses).
    { rewrite (take_S_r _ _ _ Ha). intros x. rewrite elem_of_app. by left. }
    rewrite Ha. destruct (ri_begin inp) as [h|]; split; try done; split; cbn [inFlight nextCandidate winner opened closed]; try done.
    + rewrite Hw in *. simpl in *. rewrite app_nil_r in *. rewrite fmap_app, H1, !app_assoc. done.
    + unfold kMaxParallelAttempts in *. rewrite zlen_app. change (zlen [_]) with 1. lia.
    + rewrite fmap_app, (take_S_r _ _ _ Ha). intros x. rewrite !elem_of_app. intros [Hx|Hx]; [left; by apply H3 | by right].
    + intros b Hb. destruct (H4 b Hb). auto.
    + etrans; [exact H3 | done].
    + intros b Hb. destruct (H4 b Hb). auto.
  - case_if; [intros [= <- <-]; by split |]. case_if; [by intros [= <- <-]; split |].
    case_if; [intros [= <- <-]; by split |].
    destruct (scanAttempts (ri_signal inp) (inFlight r)) as [[w kept] cl] eqn:Es.
    apply scanAttempts_spec in Es as (Hp & Hl & Hk & Hww). intros [= <- <-].
    destruct Hok as [H1 H2 H3 H4]. split; [|intros Hgo; by apply bool_decide_eq_true in Hgo].
    split; cbn [inFlight nextCandidate winner opened closed].
    + rewrite H1, Hw. simpl. rewrite app_nil_r, <- !app_assoc, Hp. done.
    + unfold zlen in *. lia.
    + intros x (a & -> & Ha)%list_elem_of_fmap. apply H3, list_elem_of_fmap. eauto.
    + intros a Ha. destruct (Hww a Ha) as [Hin [f Hf]]. split.
      * apply H3, list_elem_of_fmap. eauto.
      * exists inp, f. split; [|done]. apply elem_of_app. right. by apply list_elem_of_singleton.
Qed.

Lemma raceLoop_ok addresses delay deadline inputs past r r' :
  race_ok addresses past r -> winner r = None ->
  raceLoop addresses delay deadline inputs r = Some r' -> race_ok addresses (past ++ inputs) r'.
Proof.
  revert past r. induction inputs as [|inp inputs IH]; intros past r Hok Hw; simpl; [done |].
  destruct (raceTurn addresses delay deadline inp r) as [r1 go] eqn:Et.
  destruct (raceTurn_ok _ _ _ _ _ _ _ _ Hok Hw Et) as [Hok1 Hw1]. destruct go.
  - intros Hl. rewrite (cons_middle inp past), app_assoc. by eapply IH; eauto.
  - intros [= <-]. destruct Hok1 as [H1 H2 H3 H4]. split; try done.
    intros a Ha. destruct (H4 a Ha) as [? (i & f & Hi & Hs)]. split; [done |]. exists i, f. split; [|done].
    rewrite (cons_middle inp past), app_assoc. apply elem_of_app. by left.
Qed.

(** ** Properties *)

(** The race of connection attempts leaks nothing and answers truly. Whatever the
    network does, when [connectAny] returns every handle it opened is closed, except the one
    it returns; that one was signalled connected without an error, and the address it
    reports is that handle's, taken from the list it was given; without a socket it reports
    no address. *)
Theorem connectAny_sound (addresses : list bytes) (delay total start : Z) (inputs : list RaceInput)
    (blocking : bool) (s : option Z) (chosen : bytes) (r : Race) :
  connectAny addresses delay total start inputs blocking = Some (s, chosen, r) ->
  opened r ≡ₚ closed r ++ option_list s /\
  (forall h, s = Some h -> chosen ∈ addresses /\ connected inputs (mkRaceAttempt h chosen)) /\
  (s = None -> chosen = []).
Proof.
  unfold connectAny. case_if; [by intros [= <- <- <-] |].
  destruct (raceLoop _ _ _ _ _) as [r0|] eqn:El; [|done]. cbn [mbind option_bind].
  assert (Hok : race_ok addresses inputs r0).
  { eapply (raceLoop_ok _ _ _ _ [] newRace); [|done | exact El]. by split. }
  destruct Hok as [H1 _ _ H4]. cbn [winner]. destruct (winner r0) as [a|] eqn:Ew.
  - destruct (H4 a eq_refl) as [Ha Hc]. case_if; intros [= <- <- <-]; cbn [opened closed].
    + split_and!; [by rewrite H1, app_assoc | | done]. intros h [= <-]. destruct a. split; [|done].
      rewrite <- (take_drop (nextCandidate r0) addresses). apply elem_of_app. by left.
    + split_and!; [|done | done]. by rewrite H1, app_nil_r, app_assoc.
  - intros [= <- <- <-]. cbn [opened closed]. split_and!; [|done | done].
    rewrite H1. simpl. by rewrite !app_nil_r.
Qed.

Lemma sendAll_loop_spec results data :
  let '(out, r) := sendAll_loop results data in
  exists rest, data = out ++ rest /\ (r = Some true -> rest = []).
Proof.
  revert data. induction results as [|[n| |] results IH]; intros data; cbn [sendAll_loop].
  all: case_if; zbool; [exists data; split; [done | intros _; apply zlen_0_inv; pose proof (zlen_nonneg data); lia] |].
  - by exists data.
  - cbv zeta. case_if; [by exists data |].
    set (k := Z.to_nat _). specialize (IH (drop k data)). destruct (sendAll_loop results (drop k data)) as [out r].
    destruct IH as (rest & Hd & Hr). exists rest. split; [|done]. by rewrite <- app_assoc, <- Hd, take_drop.
  - apply IH.
  - by exists data.
Qed.

(** [sendAll] sends a prefix of the data, all of it exactly when it says so. *)
Theorem sendAll_prefix (results : list SendResult) (data out : bytes) (r : option bool) :
  sendAll results data = (out, r) ->
  out `prefix_of` data /\ (r = Some true -> out = data).
Proof.
  intros E. pose proof (sendAll_loop_spec results data) as H. unfold sendAll in E. rewrite E in H.
  destruct H as (rest & -> & Hr). split; [by exists rest |]. intros ->%Hr. by rewrite app_nil_r.
Qed.

(** ** Concrete races *)

(** The first address fails at once, the second connects. *)
Definition sample_race : list RaceInput :=
  [mkRaceInput 100 (Some 7) 0 (λ _, (false, false, 0)); mkRaceInput 101 (Some 8) 1 (λ _, (false, true, 10061));
   mkRaceInput 110 (Some 8) 0 (λ _, (false, false, 0)); mkRaceInput 120 None 1 (λ h, (h =? 8, false, 0))].

Example sample_race_runs :
  connectAny [str "::1"; str "1.2.3.4"] 250 10000 100 sample_race true =
  Some (Some 8, str "1.2.3.4", mkRace [] 2 360 (Some (mkRaceAttempt 8 (str "1.2.3.4"))) [7; 8] [7]).
Proof. vm_compute. reflexivity. Qed.

Lemma connectAny_sound_witness :
  [7; 8] ≡ₚ [7] ++ option_list (Some 8) /\
  (forall h, Some 8 = Some h -> str "1.2.3.4" ∈ [str "::1"; str "1.2.3.4"] /\
     connected sample_race (mkRaceAttempt h (str "1.2.3.4"))) /\
  (Some 8 = None -> str "1.2.3.4" = []).
Proof.
  apply (connectAny_sound [str "::1"; str "1.2.3.4"] 250 10000 100 sample_race true (Some 8) (str "1.2.3.4")
    (mkRace [] 2 360 (Some (mkRaceAttempt 8 (str "1.2.3.4"))) [7; 8] [7])).
  vm_compute. reflexivity.
Defined.
