(* ===== verification/TlsHello.v ===== *)
(** * TlsHello: bounds-checked inspection of TLS records

    Models [src/src/TlsHello.hpp] and [src/src/TlsHello.cpp] (namespace [tls]): the
    [Reader] cursor, the ClientHello parser and the classifier of the server's first
    flight. A buffer is the list of its bytes, so [len] is its length; reading past
    it is a fault ([None]). Sizes and offsets are [size_t], kept modulo 2^64. *)

From S2P Require Import Prelude.

Definition kRecordHandshake : Z := 0x16.
Definition kRecordChangeCipherSpec : Z := 0x14.
Definition kRecordAlert : Z := 0x15.
Definition kHandshakeClientHello : Z := 0x01.
Definition kHandshakeServerHello : Z := 0x02.
Definition kRecordHeaderSize : Z := 5.
Definition kMaxRecordPayload : Z := 16384.
Definition kExtServerName : Z := 0x0000.
Definition kExtEncryptedClientHello : Z := 0xfe0d.

Inductive ParseStatus := Ok | NeedMore | NotTls | Malformed.

Inductive ServerResponseStatus := RNeedMore | RServerHello | RAlert | RUnexpected.

#[export] Instance ParseStatus_eq_dec : EqDecision ParseStatus.
Proof. solve_decision. Defined.
#[export] Instance ServerResponseStatus_eq_dec : EqDecision ServerResponseStatus.
Proof. solve_decision. Defined.

Record ClientHello := mkClientHello {
  recordPayloadLength : Z;
  recordTotalLength : Z;
  sniOffset : Z;
  sniLength : Z;
  serverName : bytes;
  hasEch : bool;
  spansRecords : bool;
}.

(** [ClientHello{}] *)
Definition emptyHello : ClientHello := mkClientHello 0 0 0 0 [] false false.

Definition hasSni (h : ClientHello) : bool := 0 <? sniLength h.

Definition setLengths (h : ClientHello) (payload total : Z) : ClientHello :=
  mkClientHello payload total (sniOffset h) (sniLength h) (serverName h) (hasEch h)
    (spansRecords h).
Definition setSni (h : ClientHello) (off len : Z) (name : bytes) : ClientHello :=
  mkClientHello (recordPayloadLength h) (recordTotalLength h) off len name (hasEch h)
    (spansRecords h).
Definition setEch (h : ClientHello) : ClientHello :=
  mkClientHello (recordPayloadLength h) (recordTotalLength h) (sniOffset h) (sniLength h)
    (serverName h) true (spansRecords h).
Definition setSpans (h : ClientHello) : ClientHello :=
  mkClientHello (recordPayloadLength h) (recordTotalLength h) (sniOffset h) (sniLength h)
    (serverName h) (hasEch h) true.

(** ** Reader *)

Record Reader := mkReader { pos_ : Z; end_ : Z }.

Definition remaining (r : Reader) : Z := w64 (end_ r - pos_ r).

(** [None]: the method returned [false] and did not move. *)
Definition skip (r : Reader) (n : Z) : option Reader :=
  if remaining r <? n then None else Some (mkReader (w64 (pos_ r + n)) (end_ r)).

Definition u8 (data : bytes) (r : Reader) : option (option (Z * Reader)) :=
  if remaining r <? 1 then Some None
  else v ← rd data (pos_ r); Some (Some (v, mkReader (w64 (pos_ r + 1)) (end_ r))).

Definition u16 (data : bytes) (r : Reader) : option (option (Z * Reader)) :=
  if remaining r <? 2 then Some None
  else v ← rd16 data (pos_ r); Some (Some (v, mkReader (w64 (pos_ r + 2)) (end_ r))).

(** ** server_name extension *)

(** The [while (list.remaining() > 0)] loop. Result: whether a host_name entry was
    found, and the hello with it recorded. *)
Fixpoint readServerName_loop (fuel : nat) (data : bytes) (list : Reader) (out : ClientHello)
    : option (bool * ClientHello) :=
  match fuel with
  | O => None
  | S fuel =>
      if remaining list <=? 0 then Some (false, out) else
      let? (nameType, list) := u8 data list else Some (false, out) in
      let? (nameLength, list) := u16 data list else Some (false, out) in
      if remaining list <? nameLength then Some (false, out) else
      if nameType =? 0 then
        if zlen data <? pos_ list + nameLength then None else
        Some (true, setSni out (pos_ list) nameLength (slice data (pos_ list) nameLength))
      else
      match skip list nameLength with
      | None => Some (false, out)
      | Some list => readServerName_loop fuel data list out
      end
  end.

Definition readServerName (data : bytes) (extStart extEnd : Z) (out : ClientHello)
    : option (bool * ClientHello) :=
  let r := mkReader extStart extEnd in
  let? (listLength, r) := u16 data r else Some (false, out) in
  if remaining r <? listLength then Some (false, out) else
  let list := mkReader (pos_ r) (w64 (pos_ r + listLength)) in
  readServerName_loop (S (Z.to_nat (remaining list))) data list out.

(** ** Extension block *)

Fixpoint parseExtensions_loop (fuel : nat) (data : bytes) (block : Reader) (out : ClientHello)
    : option (ParseStatus * ClientHello) :=
  match fuel with
  | O => None
  | S fuel =>
      if remaining block <=? 0 then Some (Ok, out) else
      let? (extType, block) := u16 data block else Some (Malformed, out) in
      let? (extLength, block) := u16 data block else Some (Malformed, out) in
      if remaining block <? extLength then Some (Malformed, out) else
      let extStart := pos_ block in
      out ← (if extType =? kExtEncryptedClientHello then Some (setEch out)
             else if (extType =? kExtServerName) && negb (hasSni out)
             then snd <$> readServerName data extStart (w64 (extStart + extLength)) out
             else Some out);
      match skip block extLength with
      | None => Some (Malformed, out)
      | Some block => parseExtensions_loop fuel data block out
      end
  end.

Definition parseExtensions (data : bytes) (pos bodyEnd : Z) (out : ClientHello)
    : option (ParseStatus * ClientHello) :=
  let r := mkReader pos bodyEnd in
  let? (extensionsLength, r) := u16 data r else Some (Malformed, out) in
  if remaining r <? extensionsLength then Some (Malformed, out) else
  let block := mkReader (pos_ r) (w64 (pos_ r + extensionsLength)) in
  parseExtensions_loop (S (Z.to_nat (remaining block))) data block out.

(** ** ClientHello *)

(** The part of [parseClientHello] that walks the handshake body. *)
Definition parseBody (data : bytes) (bodyStart bodyEnd : Z) (out : ClientHello)
    : option (ParseStatus * ClientHello) :=
  let bad := Some (Malformed, out) in
  let? r := Some (skip (mkReader bodyStart bodyEnd) 2) else bad in
  let? r := Some (skip r 32) else bad in
  let? (sessionIdLength, r) := u8 data r else bad in
  let? r := Some (skip r sessionIdLength) else bad in
  let? (cipherSuitesLength, r) := u16 data r else bad in
  let? r := Some (skip r cipherSuitesLength) else bad in
  let? (compressionLength, r) := u8 data r else bad in
  let? r := Some (skip r compressionLength) else bad in
  if remaining r =? 0 then Some (Ok, out)
  else parseExtensions data (pos_ r) bodyEnd out.

Definition parseClientHello (data : bytes) : option (ParseStatus * ClientHello) :=
  let len := zlen data in
  let out := emptyHello in
  if len =? 0 then Some (NeedMore, out) else
  b0 ← rd data 0;
  if negb (b0 =? kRecordHandshake) then Some (NotTls, out) else
  if len <? 2 then Some (NeedMore, out) else
  b1 ← rd data 1;
  if negb (b1 =? 0x03) then Some (NotTls, out) else
  if len <? kRecordHeaderSize then Some (NeedMore, out) else
  b3 ← rd data 3; b4 ← rd data 4;
  let payloadLength := Z.lor (Z.shiftl b3 8) b4 in
  if (payloadLength =? 0) || (kMaxRecordPayload <? payloadLength)
  then Some (Malformed, out) else
  let out := setLengths out payloadLength (kRecordHeaderSize + payloadLength) in
  if len <? recordTotalLength out then Some (NeedMore, out) else
  if payloadLength <? 4 then Some (Malformed, out) else
  b5 ← rd data kRecordHeaderSize;
  if negb (b5 =? kHandshakeClientHello) then Some (NotTls, out) else
  b6 ← rd data (kRecordHeaderSize + 1);
  b7 ← rd data (kRecordHeaderSize + 2);
  b8 ← rd data (kRecordHeaderSize + 3);
  let handshakeLength := Z.lor (Z.lor (Z.shiftl b6 16) (Z.shiftl b7 8)) b8 in
  let bodyStart := kRecordHeaderSize + 4 in
  let bodyEnd := bodyStart + handshakeLength in
  if recordTotalLength out <? bodyEnd then Some (Ok, setSpans out) else
  parseBody data bodyStart bodyEnd out.

(** ** Server response *)

Fixpoint classify_loop (fuel : nat) (data : bytes) (offset : Z) : option ServerResponseStatus :=
  match fuel with
  | O => None
  | S fuel =>
      let len := zlen data in
      if len <=? offset then Some RNeedMore else
      if len - offset <? kRecordHeaderSize then Some RNeedMore else
      contentType ← rd data offset;
      b1 ← rd data (offset + 1);
      if negb (b1 =? 0x03) then Some RUnexpected else
      b3 ← rd data (offset + 3); b4 ← rd data (offset + 4);
      let payloadLength := Z.lor (Z.shiftl b3 8) b4 in
      if (payloadLength =? 0) || (kMaxRecordPayload <? payloadLength)
      then Some RUnexpected else
      let totalLength := kRecordHeaderSize + payloadLength in
      if len - offset <? totalLength then Some RNeedMore else
      if contentType =? kRecordAlert then Some RAlert else
      if contentType =? kRecordHandshake then
        if 4 <=? payloadLength then
          p0 ← rd data (offset + kRecordHeaderSize);
          Some (if p0 =? kHandshakeServerHello then RServerHello else RUnexpected)
        else Some RUnexpected
      else
      if negb (contentType =? kRecordChangeCipherSpec) then Some RUnexpected else
      classify_loop fuel data (offset + totalLength)
  end.

Definition classifyServerResponse (data : bytes) : option ServerResponseStatus :=
  classify_loop (S (length data)) data 0.

Definition isServerHello (data : bytes) : option bool :=
  s ← classifyServerResponse data; Some (bool_decide (s = RServerHello)).

Definition looksLikeTlsRecord (data : bytes) : option bool :=
  let len := zlen data in
  if len =? 0 then Some false else
  b0 ← rd data 0;
  if negb (b0 =? kRecordHandshake) then Some false else
  if len <? 2 then Some true else
  b1 ← rd data 1; Some (b1 =? 0x03).

(** ** Specifications *)

(** A cursor inside the first [n] bytes of a buffer. *)
Definition wf_reader (n : Z) (r : Reader) : Prop :=
  0 <= pos_ r <= end_ r /\ end_ r <= n /\ end_ r < 2 ^ 62.

(** The SNI fields of a hello describe a region of [data] within [lo, hi). *)
Definition sni_in (data : bytes) (lo hi : Z) (h : ClientHello) : Prop :=
  serverName h = slice data (sniOffset h) (sniLength h) /\
  0 <= sniLength h /\
  (sniLength h = 0 \/ (lo <= sniOffset h /\ sniOffset h + sniLength h <= hi)).

(** Two hellos that agree on the record they describe. *)
Definition same_record (h h' : ClientHello) : Prop :=
  recordPayloadLength h = recordPayloadLength h' /\
  recordTotalLength h = recordTotalLength h' /\
  spansRecords h = spansRecords h'.

(** A walk that ends in a definite status with a hello of the same record. *)
Definition walk_ok (data : bytes) (lo hi : Z) (out : ClientHello)
    (res : option (ParseStatus * ClientHello)) : Prop :=
  exists st h, res = Some (st, h) /\ same_record out h /\ sni_in data lo hi h /\ st <> NeedMore.

(** What [ParseStatus::Ok] promises about the hello it fills in. *)
Definition hello_ok (data : bytes) (h : ClientHello) : Prop :=
  4 <= recordPayloadLength h <= kMaxRecordPayload /\
  recordTotalLength h = kRecordHeaderSize + recordPayloadLength h /\
  recordTotalLength h <= zlen data /\
  sni_in data (kRecordHeaderSize + 4) (recordTotalLength h) h /\
  (spansRecords h = true -> hasSni h = false).

(** One TLS record on the wire (the version's minor byte is not inspected). *)
Definition wire_record (contentType minor : Z) (payload : bytes) : bytes :=
  [contentType; 0x03; minor] ++ be16 (zlen payload) ++ payload.

Definition valid_payload (payload : bytes) : Prop :=
  1 <= zlen payload <= kMaxRecordPayload.

(** A sequence of compatibility ChangeCipherSpec records. *)
Inductive ccs_records : bytes -> Prop :=
  | ccs_nil : ccs_records []
  | ccs_cons minor payload rest :
      is_byte minor -> valid_payload payload -> ccs_records rest ->
      ccs_records (wire_record kRecordChangeCipherSpec minor payload ++ rest).

(** A first flight that contains a complete ServerHello. *)
Definition server_hello_flight (data : bytes) : Prop :=
  exists ccs minor payload rest,
    data = ccs ++ wire_record kRecordHandshake minor payload ++ rest /\
    ccs_records ccs /\ valid_payload payload /\ 4 <= zlen payload /\
    head payload = Some kHandshakeServerHello.

(** ** Reader lemmas *)

Lemma remaining_wf n r : wf_reader n r -> remaining r = end_ r - pos_ r.
Proof. intros (? & ? & ?). unfold remaining. apply w64_small. lia. Qed.

Lemma skip_wf n r k :
  wf_reader n r -> 0 <= k ->
  (skip r k = None /\ end_ r - pos_ r < k) \/
  (skip r k = Some (mkReader (pos_ r + k) (end_ r)) /\ k <= end_ r - pos_ r).
Proof.
  intros Hr Hk. unfold skip. rewrite (remaining_wf n) by done. case_if; zbool; [auto |].
  right. split; [|lia]. destruct Hr as (? & ? & ?). rewrite w64_small by lia. done.
Qed.

Lemma u8_wf data r :
  all_bytes data -> wf_reader (zlen data) r ->
  (u8 data r = Some None /\ end_ r - pos_ r < 1) \/
  exists v, u8 data r = Some (Some (v, mkReader (pos_ r + 1) (end_ r))) /\
    is_byte v /\ pos_ r + 1 <= end_ r /\ rd data (pos_ r) = Some v.
Proof.
  intros Hd Hr. unfold u8. rewrite (remaining_wf (zlen data)) by done.
  case_if; zbool; [left; auto |]. right. pose proof Hr as (? & ? & ?).
  destruct (rd_ok data (pos_ r)) as [v Hv]; [lia |]. exists v.
  rewrite Hv. simpl. rewrite w64_small by lia. split_and!; try done; try lia.
  by eapply rd_byte.
Qed.

Lemma u16_wf data r :
  wf_reader (zlen data) r ->
  (u16 data r = Some None /\ end_ r - pos_ r < 2) \/
  exists v, u16 data r = Some (Some (v, mkReader (pos_ r + 2) (end_ r))) /\
    0 <= v < 65536 /\ pos_ r + 2 <= end_ r /\ rd16 data (pos_ r) = Some v.
Proof.
  intros Hr. unfold u16. rewrite (remaining_wf (zlen data)) by done.
  case_if; zbool; [left; auto |]. right. pose proof Hr as (? & ? & ?).
  destruct (rd16_ok data (pos_ r)) as [v Hv]; [lia | lia |]. exists v.
  pose proof (rd16_inv _ _ _ Hv) as (_ & _ & Hb).
  rewrite Hv. simpl. rewrite w64_small by lia. split_and!; try done; lia.
Qed.

Lemma same_record_refl h : same_record h h.
Proof. done. Qed.
Lemma same_record_trans h1 h2 h3 : same_record h1 h2 -> same_record h2 h3 -> same_record h1 h3.
Proof. unfold same_record. intuition congruence. Qed.
Lemma same_record_setEch h : same_record h (setEch h).
Proof. done. Qed.
Lemma same_record_setSni h o l n : same_record h (setSni h o l n).
Proof. done. Qed.
#[export] Hint Resolve same_record_refl same_record_setEch same_record_setSni : sh.

Lemma sni_in_mono data lo hi lo' hi' h :
  lo' <= lo -> hi <= hi' -> sni_in data lo hi h -> sni_in data lo' hi' h.
Proof. intros ?? (? & ? & [?|?]); (split_and!; [done | done | lia]). Qed.

(** ** The parser stays inside the buffer *)

Lemma readServerName_loop_safe fuel data r out :
  all_bytes data -> wf_reader (zlen data) r -> end_ r - pos_ r < Z.of_nat fuel ->
  exists b h, readServerName_loop fuel data r out = Some (b, h) /\
    (h = out \/ (same_record out h /\ sni_in data (pos_ r) (end_ r) h)).
Proof.
  intros Hd. revert r. induction fuel as [|fuel IH]; intros r Hr Hf;
    pose proof Hr as (? & ? & ?); [lia |].
  simpl. rewrite (remaining_wf (zlen data)) by done.
  case_if; zbool; [eauto 6 |].
  destruct (u8_wf data r Hd Hr) as [[-> ?]|(ty & -> & Hty & ? & ?)]; [eauto 6 |].
  set (r1 := mkReader _ _). assert (Hr1 : wf_reader (zlen data) r1) by (split_and!; simpl; lia).
  destruct (u16_wf data r1 Hr1) as [[-> ?]|(n & -> & Hn & Hb & ?)]; [eauto 6 |].
  set (r2 := mkReader _ _).
  assert (Hr2 : wf_reader (zlen data) r2) by (split_and!; simpl in *; lia).
  rewrite (remaining_wf (zlen data)) by done. simpl in *.
  case_if; zbool; [eauto 6 |].
  case_if; zbool.
  - rewrite (proj2 (Z.ltb_ge _ _)) by lia. do 2 eexists. split; [done |]. right.
    split; [auto with sh |]. split_and!; simpl; [done | lia | right; lia].
  - destruct (skip_wf _ _ n Hr2) as [[-> ?]|[-> ?]]; [lia | eauto 6 |].
    simpl in *. destruct (IH (mkReader (pos_ r + 1 + 2 + n) (end_ r))) as (b & h & -> & Hh);
      [split_and!; simpl; lia | simpl; lia |].
    do 2 eexists. split; [done |]. destruct Hh as [->|[? Hs]]; [by left | right].
    split; [done |]. eapply sni_in_mono, Hs; simpl; lia.
Qed.

Lemma readServerName_safe data lo hi out :
  all_bytes data -> 0 <= lo <= hi -> hi <= zlen data -> hi < 2 ^ 62 ->
  exists b h, readServerName data lo hi out = Some (b, h) /\
    (h = out \/ (same_record out h /\ sni_in data lo hi h)).
Proof.
  intros Hd Hlo Hhi Hmax. unfold readServerName.
  set (r := mkReader lo hi). assert (Hr : wf_reader (zlen data) r) by (split_and!; simpl; lia).
  destruct (u16_wf data r Hr) as [[-> ?]|(n & -> & Hn & ? & ?)]; [eauto 6 |].
  set (r1 := mkReader _ _).
  assert (Hr1 : wf_reader (zlen data) r1) by (split_and!; simpl in *; lia).
  rewrite (remaining_wf (zlen data)) by done. subst r r1. cbn [pos_ end_] in *.
  case_if; zbool; [eauto 6 |].
  rewrite w64_small by lia. set (r2 := mkReader _ _).
  assert (Hr2 : wf_reader (zlen data) r2) by (split_and!; simpl in *; lia).
  rewrite (remaining_wf (zlen data)) by done.
  destruct (readServerName_loop_safe (S (Z.to_nat (end_ r2 - pos_ r2))) data r2 out Hd Hr2)
    as (b & h & -> & Hh); [lia |].
  do 2 eexists. split; [done |]. destruct Hh as [->|[? Hs]]; [by left | right].
  split; [done |]. eapply sni_in_mono, Hs; simpl; lia.
Qed.

Lemma parseExtensions_loop_safe fuel data r out lo hi :
  all_bytes data -> wf_reader (zlen data) r -> end_ r - pos_ r < Z.of_nat fuel ->
  lo <= pos_ r -> end_ r <= hi -> sni_in data lo hi out ->
  exists st h, parseExtensions_loop fuel data r out = Some (st, h) /\
    same_record out h /\ sni_in data lo hi h /\ st <> NeedMore.
Proof.
  intros Hd. revert r out. induction fuel as [|fuel IH]; intros r out Hr Hf Hlo Hhi Ho;
    pose proof Hr as (? & ? & ?); [lia |].
  simpl. rewrite (remaining_wf (zlen data)) by done.
  case_if; zbool; [by eauto 8 with sh |].
  destruct (u16_wf data r Hr) as [[-> ?]|(ty & -> & Hty & ? & ?)]; [by eauto 8 with sh |].
  set (r1 := mkReader _ _). assert (Hr1 : wf_reader (zlen data) r1) by (split_and!; simpl; lia).
  destruct (u16_wf data r1 Hr1) as [[-> ?]|(n & -> & Hn & ? & ?)]; [by eauto 8 with sh |].
  set (r2 := mkReader _ _).
  assert (Hr2 : wf_reader (zlen data) r2) by (split_and!; simpl in *; lia).
  rewrite (remaining_wf (zlen data)) by done. simpl in *.
  case_if; zbool; [by eauto 8 with sh |].
  match goal with |- context [ mbind _ ?m ] =>
    assert (exists out', m = Some out' /\ same_record out out' /\ sni_in data lo hi out')
      as (out' & -> & Hsame & Ho')
  end.
  { case_if; [by eexists; split_and!; [done | |]; auto with sh |].
    case_if; [|by eauto with sh].
    rewrite w64_small by lia.
    destruct (readServerName_safe data (pos_ r + 2 + 2) (pos_ r + 2 + 2 + n) out Hd)
      as (b & h & -> & Hh); [lia .. |].
    simpl. eexists. split; [done |]. destruct Hh as [->|[? Hs]]; [auto with sh |].
    split; [done |]. eapply sni_in_mono, Hs; lia. }
  simpl. destruct (skip_wf _ _ n Hr2) as [[-> ?]|[-> ?]]; [lia | by eauto 8 |].
  simpl in *. destruct (IH (mkReader (pos_ r + 2 + 2 + n) (end_ r)) out')
    as (st & h & -> & ? & ? & ?); try done; try (split_and!; simpl; lia); try (simpl; lia).
  do 2 eexists. split_and!; [done | by eapply same_record_trans | done | done].
Qed.

Lemma parseExtensions_safe data lo hi out lo' :
  all_bytes data -> 0 <= lo <= hi -> hi <= zlen data -> hi < 2 ^ 62 -> lo' <= lo ->
  sni_in data lo' hi out ->
  exists st h, parseExtensions data lo hi out = Some (st, h) /\
    same_record out h /\ sni_in data lo' hi h /\ st <> NeedMore.
Proof.
  intros Hd Hlo Hhi Hmax Hlo' Ho. unfold parseExtensions.
  set (r := mkReader lo hi). assert (Hr : wf_reader (zlen data) r) by (split_and!; simpl; lia).
  destruct (u16_wf data r Hr) as [[-> ?]|(n & -> & Hn & ? & ?)]; [by eauto 8 with sh |].
  set (r1 := mkReader _ _).
  assert (Hr1 : wf_reader (zlen data) r1) by (split_and!; simpl in *; lia).
  rewrite (remaining_wf (zlen data)) by done. subst r r1. cbn [pos_ end_] in *.
  case_if; zbool; [by eauto 8 with sh |].
  rewrite w64_small by lia. set (r2 := mkReader _ _).
  assert (Hr2 : wf_reader (zlen data) r2) by (split_and!; simpl in *; lia).
  rewrite (remaining_wf (zlen data)) by done.
  destruct (parseExtensions_loop_safe (S (Z.to_nat (end_ r2 - pos_ r2))) data r2 out lo' hi)
    as (st & h & -> & ? & ? & ?); try done; try (simpl; lia); [].
  eauto 8.
Qed.

(** [skip] followed by the rest of the walk: either the walk fails or it goes on
    from a cursor that is still inside the buffer. *)
Lemma let_skip {A} n r k (bad : option A) (f : Reader -> option A) (P : option A -> Prop) :
  wf_reader n r -> 0 <= k -> P bad ->
  (forall r', wf_reader n r' -> end_ r' = end_ r -> pos_ r <= pos_ r' -> P (f r')) ->
  P (let? r' := Some (skip r k) else bad in f r').
Proof.
  intros Hr Hk Hbad Hf. destruct (skip_wf n r k Hr Hk) as [[-> _]|[-> ?]]; [done |].
  destruct Hr as (? & ? & ?). apply Hf; [split_and!; simpl; lia | done | simpl; lia].
Qed.

Lemma let_u8 {A} data r (bad : option A) (f : Z -> Reader -> option A) (P : option A -> Prop) :
  all_bytes data -> wf_reader (zlen data) r -> P bad ->
  (forall v r', is_byte v -> wf_reader (zlen data) r' -> end_ r' = end_ r ->
     pos_ r <= pos_ r' -> P (f v r')) ->
  P (let? (v, r') := u8 data r else bad in f v r').
Proof.
  intros Hd Hr Hbad Hf. destruct (u8_wf data r Hd Hr) as [[-> _]|(v & -> & ? & ? & ?)]; [done |].
  destruct Hr as (? & ? & ?). apply Hf; [done | split_and!; simpl; lia | done | simpl; lia].
Qed.

Lemma let_u16 {A} data r (bad : option A) (f : Z -> Reader -> option A) (P : option A -> Prop) :
  wf_reader (zlen data) r -> P bad ->
  (forall v r', 0 <= v < 65536 -> wf_reader (zlen data) r' -> end_ r' = end_ r ->
     pos_ r <= pos_ r' -> P (f v r')) ->
  P (let? (v, r') := u16 data r else bad in f v r').
Proof.
  intros Hr Hbad Hf. destruct (u16_wf data r Hr) as [[-> _]|(v & -> & ? & ? & ?)]; [done |].
  destruct Hr as (? & ? & ?). apply Hf; [done | split_and!; simpl; lia | done | simpl; lia].
Qed.

Lemma parseBody_safe data lo hi out :
  all_bytes data -> 0 <= lo <= hi -> hi <= zlen data -> hi < 2 ^ 62 ->
  sni_in data lo hi out -> walk_ok data lo hi out (parseBody data lo hi out).
Proof.
  intros Hd Hlo Hhi Hmax Ho. unfold parseBody.
  assert (walk_ok data lo hi out (Some (Malformed, out))) by (by do 2 eexists; eauto with sh).
  assert (wf_reader (zlen data) (mkReader lo hi)) by (split_and!; simpl; lia).
  eapply let_skip; [done | lia | done |]. intros r1 ? He1 Hp1.
  eapply let_skip; [done | lia | done |]. intros r2 ? He2 Hp2.
  eapply let_u8; [done .. |]. intros v r3 [??] ? He3 Hp3.
  eapply let_skip; [done | lia | done |]. intros r4 ? He4 Hp4.
  eapply let_u16; [done .. |]. intros v5 r5 [??] ? He5 Hp5.
  eapply let_skip; [done | lia | done |]. intros r6 ? He6 Hp6.
  eapply let_u8; [done .. |]. intros v7 r7 [??] ? He7 Hp7.
  eapply let_skip; [done | lia | done |]. intros r8 (? & ? & ?) He8 Hp8.
  case_if; [by do 2 eexists; eauto with sh |].
  simpl in *. apply parseExtensions_safe; done || lia.
Qed.

Lemma be16_byte_range a b : is_byte a -> is_byte b -> 0 <= Z.lor (Z.shiftl a 8) b < 65536.
Proof. intros [??] [??]. rewrite lor_shiftl_add by lia. lia. Qed.

Lemma be24_byte_range a b c :
  is_byte a -> is_byte b -> is_byte c ->
  0 <= Z.lor (Z.lor (Z.shiftl a 16) (Z.shiftl b 8)) c < 2 ^ 24.
Proof.
  intros [??] [??] [??].
  replace (Z.lor (Z.shiftl a 16) (Z.shiftl b 8)) with (Z.shiftl (Z.lor (Z.shiftl a 8) b) 8)
    by (rewrite Z.shiftl_lor, Z.shiftl_shiftl by lia; done).
  rewrite (lor_shiftl_add _ c) by lia. rewrite lor_shiftl_add by lia. lia.
Qed.

(** Read one byte that is known to be there. *)
Ltac read_byte Hd v :=
  match goal with
  | |- context [ mbind _ (rd ?data ?i) ] =>
      let H := fresh "Hrd" in
      let Hb := fresh "Hb" in
      destruct (rd_ok data i) as [v H];
      [ lia | rewrite H; pose proof (rd_byte _ _ _ Hd H) as Hb; cbn [mbind option_bind] ]
  end.

Lemma parseClientHello_spec data :
  all_bytes data ->
  exists st h, parseClientHello data = Some (st, h) /\
    (st = Ok -> hello_ok data h) /\
    (st = NeedMore -> zlen data < kRecordHeaderSize + kMaxRecordPayload).
Proof.
  intros Hd. pose proof (zlen_nonneg data). unfold parseClientHello.
  unfold kRecordHeaderSize, kMaxRecordPayload in *.
  case_if; zbool; [do 2 eexists; split_and!; [done | done | lia] |].
  read_byte Hd b0. case_if; [by do 2 eexists |].
  case_if; zbool; [do 2 eexists; split_and!; [done | done | lia] |].
  read_byte Hd b1. case_if; [by do 2 eexists |].
  case_if; zbool; [do 2 eexists; split_and!; [done | done | lia] |].
  read_byte Hd b3. read_byte Hd b4. pose proof (be16_byte_range b3 b4 Hb1 Hb2).
  case_if; zbool; [by do 2 eexists |].
  set (n := Z.lor _ _) in *. cbn [recordTotalLength setLengths] in *.
  case_if; zbool; [do 2 eexists; split_and!; [done | done | lia] |].
  case_if; zbool; [by do 2 eexists |].
  read_byte Hd b5. case_if; [by do 2 eexists |].
  read_byte Hd b6. read_byte Hd b7. read_byte Hd b8.
  pose proof (be24_byte_range b6 b7 b8 Hb4 Hb5 Hb6). set (k := Z.lor _ _) in *.
  case_if; zbool.
  - do 2 eexists. split_and!; [done | | done]. intros _. unfold hello_ok, sni_in. simpl.
    unfold kRecordHeaderSize, kMaxRecordPayload. by intuition lia.
  - match goal with |- context [ parseBody data ?lo ?hi ?h0 ] =>
      destruct (parseBody_safe data lo hi h0 Hd)
        as (st & h & -> & (Hp & Ht & Hs) & Hsni & Hst); [lia .. | | ]
    end.
    { by split_and!; [| simpl; lia | left]. }
    do 2 eexists. split_and!; [done | intros _ | done]. unfold hello_ok.
    rewrite <- Hp, <- Ht, <- Hs. unfold kRecordHeaderSize, kMaxRecordPayload. simpl.
    split_and!; lia || done || (eapply sni_in_mono, Hsni; lia).
Qed.

(** ** More bytes never change a definite answer *)

Lemma u8_mono d e r x : u8 d r = Some x -> u8 (d ++ e) r = Some x.
Proof.
  unfold u8. case_if; [done |]. destruct (rd d (pos_ r)) eqn:E'; [|done].
  by rewrite (rd_mono _ _ _ _ E').
Qed.

Lemma u16_mono d e r x : u16 d r = Some x -> u16 (d ++ e) r = Some x.
Proof.
  unfold u16. case_if; [done |]. destruct (rd16 d (pos_ r)) eqn:E'; [|done].
  by rewrite (rd16_mono _ _ _ _ E').
Qed.

(** Follow one read of a defined run, in the longer buffer. *)
Ltac mono_read :=
  match goal with
  | H : context [ u8 ?d ?r ] |- context [ u8 (?d ++ ?e) ?r ] =>
      let E := fresh "E" in
      destruct (u8 d r) as [[[??]|]|] eqn:E; [| |done];
      rewrite (u8_mono d e r _ E)
  | H : context [ u16 ?d ?r ] |- context [ u16 (?d ++ ?e) ?r ] =>
      let E := fresh "E" in
      destruct (u16 d r) as [[[??]|]|] eqn:E; [| |done];
      rewrite (u16_mono d e r _ E)
  end; try done.

Lemma u16_inv d r v r' :
  u16 d r = Some (Some (v, r')) -> 0 <= v < 65536 /\ 0 <= pos_ r'.
Proof.
  unfold u16. case_if; [done |]. destruct (rd16 d (pos_ r)) eqn:E'; [|done].
  intros [= <- <-]. apply rd16_inv in E'. simpl. pose proof (w64_range (pos_ r + 2)). lia.
Qed.

Lemma readServerName_loop_mono fuel d e r out x :
  readServerName_loop fuel d r out = Some x -> readServerName_loop fuel (d ++ e) r out = Some x.
Proof.
  revert r. induction fuel as [|fuel IH]; intros r; [done |]. simpl.
  case_if; [done |]. intros H. mono_read. mono_read.
  match goal with H : u16 d _ = Some (Some _) |- _ => apply u16_inv in H as [??] end.
  case_if; [done |]. case_if.
  - case_if_in H; [done |]. zbool. rewrite (proj2 (Z.ltb_ge _ _)) by zlia.
    by rewrite slice_app_l by lia.
  - destruct (skip _ _); [by apply IH | done].
Qed.

Lemma readServerName_mono d e lo hi out x :
  readServerName d lo hi out = Some x -> readServerName (d ++ e) lo hi out = Some x.
Proof.
  unfold readServerName. intros H. mono_read. case_if; [done |].
  by apply readServerName_loop_mono.
Qed.

Lemma parseExtensions_loop_mono fuel d e r out x :
  parseExtensions_loop fuel d r out = Some x -> parseExtensions_loop fuel (d ++ e) r out = Some x.
Proof.
  revert r out. induction fuel as [|fuel IH]; intros r out; [done |]. simpl.
  case_if; [done |]. intros H. mono_read. mono_read.
  case_if; [done |]. repeat case_if; simpl in *.
  1,3: destruct (skip _ _); [by apply IH | done].
  destruct (readServerName d _ _ _) as [y|] eqn:Er; [|done].
  rewrite (readServerName_mono _ _ _ _ _ _ Er). simpl in *.
  destruct (skip _ _); [by apply IH | done].
Qed.

Lemma parseExtensions_mono d e lo hi out x :
  parseExtensions d lo hi out = Some x -> parseExtensions (d ++ e) lo hi out = Some x.
Proof.
  unfold parseExtensions. intros H. mono_read. case_if; [done |].
  by apply parseExtensions_loop_mono.
Qed.

Lemma parseBody_mono d e lo hi out x :
  parseBody d lo hi out = Some x -> parseBody (d ++ e) lo hi out = Some x.
Proof.
  unfold parseBody. intros H.
  repeat first
    [ match goal with |- context [ skip ?r ?k ] => destruct (skip r k); [|done] end
    | progress mono_read ].
  case_if; [done |]. by apply parseExtensions_mono.
Qed.

Lemma parseClientHello_stable_aux d e st h :
  parseClientHello d = Some (st, h) -> st <> NeedMore ->
  parseClientHello (d ++ e) = Some (st, h).
Proof.
  intros H Hst. unfold parseClientHello in *.
  pose proof (zlen_nonneg d). pose proof (zlen_nonneg e).
  rewrite zlen_app. unfold kRecordHeaderSize, kMaxRecordPayload in *.
  repeat first
    [ match type of H with
      | Some (NeedMore, _) = _ => by simplify_eq
      | (if ?x <? ?y then Some (NeedMore, _) else _) = _ =>
          let E := fresh "E" in
          destruct (x <? y) eqn:E; [by simplify_eq | apply Z.ltb_ge in E];
          match goal with |- context [ x + zlen e <? y ] =>
            rewrite (proj2 (Z.ltb_ge (x + zlen e) y)) by lia end
      | (if ?x =? ?y then Some (NeedMore, _) else _) = _ =>
          let E := fresh "E" in
          destruct (x =? y) eqn:E; [by simplify_eq | apply Z.eqb_neq in E];
          rewrite (proj2 (Z.eqb_neq (x + zlen e) y)) by lia
      | (if ?b then _ else _) = _ => let E := fresh "E" in destruct b eqn:E; [done |]
      | mbind _ (rd d ?i) = _ =>
          let E := fresh "E" in destruct (rd d i) eqn:E; [|done];
          rewrite (rd_mono _ e _ _ E); cbn [mbind option_bind] in *
      end
    | progress cbn zeta in * ].
  by apply parseBody_mono.
Qed.

(** ** The server's first flight *)

Lemma classify_loop_shift fuel pre rest off :
  all_bytes rest -> 0 <= off ->
  classify_loop fuel (pre ++ rest) (zlen pre + off) = classify_loop fuel rest off.
Proof.
  intros Hd. revert off. induction fuel as [|fuel IH]; intros off Hoff; [done |].
  pose proof (zlen_nonneg pre). simpl. unfold kRecordHeaderSize, kMaxRecordPayload in *.
  rewrite zlen_app, !rd_app_r by lia.
  replace (zlen pre + zlen rest <=? zlen pre + off) with (zlen rest <=? off)
    by (apply eq_true_iff_eq; rewrite !Z.leb_le; lia).
  replace (zlen pre + zlen rest - (zlen pre + off)) with (zlen rest - off) by lia.
  replace (zlen pre + off - zlen pre) with off by lia.
  replace (zlen pre + off + 1 - zlen pre) with (off + 1) by lia.
  replace (zlen pre + off + 3 - zlen pre) with (off + 3) by lia.
  replace (zlen pre + off + 4 - zlen pre) with (off + 4) by lia.
  replace (zlen pre + off + 5 - zlen pre) with (off + 5) by lia.
  do 2 (case_if; [done |]).
  destruct (rd rest off); [|done]. simpl.
  destruct (rd rest (off + 1)); [|done]. simpl. case_if; [done |].
  destruct (rd rest (off + 3)) as [b3|] eqn:E3; [|done]. simpl.
  destruct (rd rest (off + 4)) as [b4|] eqn:E4; [|done]. simpl.
  pose proof (be16_byte_range b3 b4 (rd_byte _ _ _ Hd E3) (rd_byte _ _ _ Hd E4)).
  repeat (case_if; [done |]).
  rewrite <- IH by lia. f_equal. lia.
Qed.

Lemma wire_record_read ct minor payload rest i :
  0 <= i < 5 ->
  rd (wire_record ct minor payload ++ rest) i =
  rd ([ct; 0x03; minor] ++ be16 (zlen payload)) i.
Proof.
  intros. unfold wire_record. rewrite !app_assoc, <- app_assoc.
  rewrite rd_app_l; [done |]. rewrite zlen_app, zlen_be16, !zlen_cons, zlen_nil. lia.
Qed.

Lemma zlen_wire_record ct minor payload : zlen (wire_record ct minor payload) = 5 + zlen payload.
Proof. unfold wire_record. zlia. Qed.

(** One complete record at the front of the flight. *)
Lemma classify_record fuel ct minor payload rest :
  all_bytes rest -> valid_payload payload ->
  classify_loop (S fuel) (wire_record ct minor payload ++ rest) 0 =
  if ct =? kRecordAlert then Some RAlert
  else if ct =? kRecordHandshake then
    Some (if (4 <=? zlen payload) && bool_decide (head payload = Some kHandshakeServerHello)
          then RServerHello else RUnexpected)
  else if negb (ct =? kRecordChangeCipherSpec) then Some RUnexpected
  else classify_loop fuel rest 0.
Proof.
  intros Hd [Hlo Hhi]. pose proof (zlen_nonneg rest). cbn [classify_loop].
  unfold kRecordHeaderSize, kMaxRecordPayload in *.
  rewrite zlen_app, zlen_wire_record, (wire_record_read _ _ _ _ 0),
    (wire_record_read _ _ _ _ (0 + 1)), (wire_record_read _ _ _ _ (0 + 3)),
    (wire_record_read _ _ _ _ (0 + 4)) by lia.
  rewrite (proj2 (Z.leb_gt _ _)) by lia. rewrite (proj2 (Z.ltb_ge _ _)) by lia. 
  set (hd := [ct; 0x03; minor] ++ be16 (zlen payload)).
  change (rd hd 0) with (Some ct). change (rd hd (0 + 1)) with (Some 0x03).
  change (rd hd (0 + 3)) with (Some (w8 (Z.shiftr (zlen payload) 8))).
  change (rd hd (0 + 4)) with (Some (w8 (zlen payload))).
  cbn [mbind option_bind Z.eqb Pos.eqb negb].
  rewrite be16_combine by lia.
  rewrite (proj2 (Z.eqb_neq _ _)) by lia. rewrite (proj2 (Z.ltb_ge 16384 _)) by lia.
  cbn [orb]. rewrite (proj2 (Z.ltb_ge _ _)) by lia.
  case_if; [done |]. case_if.
  - destruct (4 <=? zlen payload) eqn:E4; [|done]. zbool.
    unfold wire_record. rewrite !app_assoc, <- app_assoc, rd_app_r by zlia.
    destruct payload as [|x payload]; [rewrite zlen_nil in *; lia |].
    match goal with |- context [ rd ((?x :: ?l) ++ ?r) ?i ] =>
      replace i with 0 by zlia; change (rd ((x :: l) ++ r) 0) with (Some x) end.
    cbn [mbind option_bind head andb].
    case_bool_decide; case_if; zbool; congruence || done.
  - case_if; [done |].
    pose proof (classify_loop_shift fuel (wire_record ct minor payload) rest 0 Hd ltac:(lia)) as Hs.
    rewrite zlen_wire_record, Z.add_0_r in Hs. done.
Qed.

(** A buffer that starts with a complete record header is that record and a rest. *)
Lemma record_split data b3 b4 :
  all_bytes data -> rd data 1 = Some 0x03 -> rd data 3 = Some b3 -> rd data 4 = Some b4 ->
  5 + Z.lor (Z.shiftl b3 8) b4 <= zlen data ->
  exists ct minor payload rest,
    data = wire_record ct minor payload ++ rest /\ rd data 0 = Some ct /\ is_byte minor /\
    zlen payload = Z.lor (Z.shiftl b3 8) b4 /\ all_bytes rest.
Proof.
  intros Hd H1 H3 H4 Hlen.
  destruct data as [|c0 [|c1 [|c2 [|c3 [|c4 tl]]]]]; try done.
  injection H1 as ->. injection H3 as ->. injection H4 as ->.
  set (n := Z.lor _ _) in *. rewrite !zlen_cons in Hlen.
  unfold all_bytes in Hd. rewrite !Forall_cons in Hd. destruct Hd as (? & ? & ? & Hb3 & Hb4 & Htl).
  pose proof (be16_byte_range b3 b4 Hb3 Hb4) as Hn. fold n in Hn.
  exists c0, c2, (take (Z.to_nat n) tl), (drop (Z.to_nat n) tl).
  assert (zlen (take (Z.to_nat n) tl) = n) as Hz by (rewrite zlen_take; lia).
  split_and!; try done; [|by apply Forall_drop].
  unfold wire_record. rewrite Hz. cbn [app]. rewrite <- app_assoc, take_drop.
  assert (be16 n = [b3; b4]) as ->; [|done].
  destruct Hb3, Hb4. unfold be16, n. rewrite lor_shiftl_add by lia.
  rewrite shiftr_div by lia. unfold w8.
  rewrite Z.div_add_l by lia. rewrite (Z.div_small b4) by lia.
  rewrite Z.add_comm with (m := b4), Z_mod_plus_full, (Z.mod_small b4) by lia.
  rewrite Z.mod_small by lia. repeat f_equal; lia.
Qed.

Lemma classify_loop_total fuel data :
  all_bytes data -> zlen data < Z.of_nat fuel ->
  exists s, classify_loop fuel data 0 = Some s /\
    (s = RServerHello -> server_hello_flight data).
Proof.
  revert data. induction fuel as [|fuel IH]; intros data Hd Hf; [zlia |].
  assert (Hother : forall o, classify_loop (S fuel) data 0 = Some o -> o <> RServerHello ->
    exists s, classify_loop (S fuel) data 0 = Some s /\
      (s = RServerHello -> server_hello_flight data)) by (intros o -> ?; by exists o).
  destruct (Z_lt_ge_dec (zlen data) 5) as [Hs|Hl].
  { apply (Hother RNeedMore); [|done]. simpl. unfold kRecordHeaderSize.
    rewrite Z.sub_0_r, (proj2 (Z.ltb_lt _ _)) by lia. by case_if. }
  destruct (rd_ok data 0) as [b0 H0]; [lia |]. destruct (rd_ok data 1) as [b1 H1]; [lia |].
  destruct (rd_ok data 3) as [b3 H3]; [lia |]. destruct (rd_ok data 4) as [b4 H4]; [lia |].
  pose proof (be16_byte_range b3 b4 (rd_byte _ _ _ Hd H3) (rd_byte _ _ _ Hd H4)) as Hn.
  assert (Hstep : b1 <> 3 \/ Z.lor (Z.shiftl b3 8) b4 = 0 \/
    kMaxRecordPayload < Z.lor (Z.shiftl b3 8) b4 \/ zlen data < 5 + Z.lor (Z.shiftl b3 8) b4 ->
    classify_loop (S fuel) data 0 = Some RUnexpected \/
    classify_loop (S fuel) data 0 = Some RNeedMore).
  { cbn [classify_loop]. rewrite !Z.add_0_l, H0, H1, H3, H4. cbn [mbind option_bind].
    unfold kRecordHeaderSize. rewrite Z.sub_0_r. repeat case_if; zbool; auto; lia. }
  destruct (Z.eq_dec b1 3) as [->|Hb1]; [|destruct Hstep as [E|E]; [lia | |]; by eapply Hother].
  destruct (Z_lt_ge_dec (zlen data) (5 + Z.lor (Z.shiftl b3 8) b4));
    [destruct Hstep as [E|E]; [lia | |]; by eapply Hother|].
  destruct (record_split data b3 b4) as (ct & minor & payload & rest & -> & _ & Hm & Hp & Hr);
    [done .. | lia |].
  destruct (decide (1 <= zlen payload <= kMaxRecordPayload)) as [Hv|Hv];
    [|destruct Hstep as [E|E]; [lia | |]; by eapply Hother].
  rewrite classify_record by done. case_if; [by eexists |]. case_if; zbool; subst.
  - eexists. split; [done |]. case_if; [|done]. intros _. zbool.
    exists [], minor, payload, rest. split_and!; done || constructor.
  - case_if; zbool; [by eexists |]. subst.
    rewrite zlen_app, zlen_wire_record in Hf. destruct (IH rest Hr) as (s & -> & Hs); [zlia |].
    eexists. split; [done |]. intros Hsh. destruct (Hs Hsh) as (ccs & m & pl & rs & -> & Hc & ?).
    exists (wire_record kRecordChangeCipherSpec minor payload ++ ccs), m, pl, rs.
    split_and!; [by rewrite <- app_assoc | by constructor | apply H | apply H | apply H].
Qed.

Lemma classify_flight ccs minor payload rest fuel :
  ccs_records ccs -> all_bytes (ccs ++ wire_record kRecordHandshake minor payload ++ rest) ->
  valid_payload payload -> 4 <= zlen payload -> head payload = Some kHandshakeServerHello ->
  zlen ccs < Z.of_nat fuel ->
  classify_loop fuel (ccs ++ wire_record kRecordHandshake minor payload ++ rest) 0 =
  Some RServerHello.
Proof.
  intros Hc. revert fuel. induction Hc as [|m pl rs Hm Hv Hc IH]; intros fuel Hd Hvp H4 Hh Hf.
  - destruct fuel; [zlia |]. rewrite app_nil_l in *.
    apply Forall_app in Hd as [_ Hd]. rewrite classify_record by done.
    rewrite (proj2 (Z.leb_le _ _)), bool_decide_eq_true_2 by done. done.
  - destruct fuel as [|fuel]; [zlia |]. rewrite <- app_assoc in *.
    pose proof Hd as Hd'. apply Forall_app in Hd' as [_ Hd'].
    rewrite classify_record by done. simpl. apply IH; try done.
    rewrite zlen_app, zlen_wire_record in Hf. destruct Hv. lia.
Qed.

Lemma classify_stable_aux fuel d e off s :
  classify_loop fuel d off = Some s -> s <> RNeedMore ->
  forall fuel', (fuel <= fuel')%nat -> classify_loop fuel' (d ++ e) off = Some s.
Proof.
  revert off. induction fuel as [|fuel IH]; intros off H Hs fuel' Hf; [done |].
  destruct fuel' as [|fuel']; [lia |]. cbn [classify_loop] in *.
  pose proof (zlen_nonneg e). rewrite zlen_app. unfold kRecordHeaderSize in *.
  repeat first
    [ match type of H with
      | (if ?x <? ?y then Some RNeedMore else _) = _ =>
          let E := fresh "E" in
          destruct (x <? y) eqn:E; [by simplify_eq | apply Z.ltb_ge in E];
          match goal with |- context [ ?x' <? y ] =>
            rewrite (proj2 (Z.ltb_ge x' y)) by lia end
      | (if ?x <=? ?y then Some RNeedMore else _) = _ =>
          let E := fresh "E" in
          destruct (x <=? y) eqn:E; [by simplify_eq | apply Z.leb_gt in E];
          rewrite (proj2 (Z.leb_gt (x + zlen e) y)) by lia
      | (if ?b then _ else _) = _ => let E := fresh "E" in destruct b eqn:E; [done |]
      | (if ?b then mbind _ _ else _) = _ => let E := fresh "E" in destruct b eqn:E; [|done]
      | (if ?b then if _ then _ else _ else _) = _ => let E := fresh "E" in destruct b eqn:E
      | mbind _ (rd d ?i) = _ =>
          let E := fresh "E" in destruct (rd d i) eqn:E; [|done];
          rewrite (rd_mono _ e _ _ E); cbn [mbind option_bind] in *
      end
    | progress cbn zeta in * ]; try done.
  apply (IH _ H Hs). lia.
Qed.

(** ** Properties *)

(** A ClientHello for the host "ab.cd", as a client puts it on the wire. *)
Definition sample_hello : bytes :=
  [
   22; 3; 1; 0; 61; 1; 0; 0; 57; 3; 3; 1; 2; 3; 4; 5; 6; 7; 8; 9; 10; 11; 12;
   13; 14; 15; 16; 17; 18; 19; 20; 21; 22; 23; 24; 25; 26; 27; 28; 29; 30; 31;
   32; 0; 0; 2; 19; 1; 1; 0; 0; 14; 0; 0; 0; 10; 0; 8; 0; 0; 5; 97; 98; 46; 99;
   100].

(** A first flight: a ChangeCipherSpec record, then a record with a ServerHello. *)
Definition sample_flight : bytes :=
  [0x14; 3; 3; 0; 1; 1; 0x16; 3; 3; 0; 6; 2; 0; 0; 2; 3; 3].

(** C1: For every buffer, [parseClientHello] finishes without touching a byte outside
    it, and when it answers [Ok] the hello it fills in is sound: the record is whole
    and within the TLS limit, the hostname region lies inside the handshake body of
    that record, [serverName] is exactly the bytes of that region, and a message that
    continues in a later record carries no SNI. *)
Theorem parseClientHello_sound (data : bytes) :
  all_bytes data ->
  exists st h, parseClientHello data = Some (st, h) /\ (st = Ok -> hello_ok data h).
Proof.
  intros Hd. destruct (parseClientHello_spec data Hd) as (st & h & -> & Hok & _). eauto.
Qed.

Lemma parseClientHello_sound_witness :
  exists st h, parseClientHello sample_hello = Some (st, h) /\ (st = Ok -> hello_ok sample_hello h).
Proof. apply (parseClientHello_sound sample_hello). apply all_bytes_check. reflexivity. Defined.

Example parse_sample_hello :
  parseClientHello sample_hello =
  Some (Ok, mkClientHello 61 66 61 5 (str "ab.cd") false false).
Proof. vm_compute. reflexivity. Qed.

(** The verdict on a partial ClientHello is never revised: once [parseClientHello]
    answers anything but [NeedMore] on a prefix of the stream, it gives the same answer
    and the same fields however many bytes follow. *)
Theorem parseClientHello_stable (data more : bytes) (st : ParseStatus) (h : ClientHello) :
  parseClientHello data = Some (st, h) -> st <> NeedMore ->
  parseClientHello (data ++ more) = Some (st, h).
Proof. apply parseClientHello_stable_aux. Qed.

Lemma parseClientHello_stable_witness :
  parseClientHello (sample_hello ++ [23; 3; 3]) =
  Some (Ok, mkClientHello 61 66 61 5 (str "ab.cd") false false).
Proof.
  apply (parseClientHello_stable sample_hello [23; 3; 3] Ok); [vm_compute; reflexivity | discriminate].
Defined.

(** [NeedMore] is only ever answered while fewer bytes than one maximal TLS record
    have been buffered, so the 64 KiB cap of the collecting loop is never what ends it. *)
Theorem parseClientHello_needmore_bounded (data : bytes) (h : ClientHello) :
  all_bytes data -> parseClientHello data = Some (NeedMore, h) ->
  zlen data < kRecordHeaderSize + kMaxRecordPayload.
Proof.
  intros Hd Hp. destruct (parseClientHello_spec data Hd) as (st & h' & Hp' & _ & Hb).
  apply Hb. congruence.
Qed.

Lemma parseClientHello_needmore_bounded_witness : zlen [22; 3; 1; 2] < 16389.
Proof.
  apply (parseClientHello_needmore_bounded [22; 3; 1; 2] emptyHello);
    [apply all_bytes_check; reflexivity | vm_compute; reflexivity].
Defined.

(** [classifyServerResponse] always answers, and it answers [ServerHello] exactly
    when the stream starts with ChangeCipherSpec records (possibly none) followed by a
    complete handshake record whose first message is a ServerHello. *)
Theorem classifyServerResponse_correct (data : bytes) :
  all_bytes data ->
  exists s, classifyServerResponse data = Some s /\
    (s = RServerHello <-> server_hello_flight data).
Proof.
  intros Hd. unfold classifyServerResponse.
  destruct (classify_loop_total (S (length data)) data Hd) as (s & Hs & Himp); [unfold zlen; lia |].
  exists s. split; [done |]. split; [done |].
  intros (ccs & m & p & r & -> & ? & ? & ? & ?).
  enough (Some s = Some RServerHello) by congruence. rewrite <- Hs.
  apply classify_flight; try done. rewrite length_app. unfold zlen. lia.
Qed.

Lemma classifyServerResponse_correct_witness :
  exists s, classifyServerResponse sample_flight = Some s /\
    (s = RServerHello <-> server_hello_flight sample_flight).
Proof. apply (classifyServerResponse_correct sample_flight), all_bytes_check. reflexivity. Defined.

Example classify_sample_flight : classifyServerResponse sample_flight = Some RServerHello.
Proof. vm_compute. reflexivity. Qed.

(** A read that ends in the middle of the server's flight never poisons the probe:
    once a prefix classifies as anything but [NeedMore], every longer read classifies
    the same way. *)
Theorem classifyServerResponse_stable (data more : bytes) (s : ServerResponseStatus) :
  classifyServerResponse data = Some s -> s <> RNeedMore ->
  classifyServerResponse (data ++ more) = Some s.
Proof.
  intros H Hs. unfold classifyServerResponse in *.
  apply (classify_stable_aux _ _ _ _ _ H Hs). rewrite length_app. lia.
Qed.

Lemma classifyServerResponse_stable_witness :
  classifyServerResponse (sample_flight ++ [1; 2; 3]) = Some RServerHello.
Proof.
  apply (classifyServerResponse_stable sample_flight); [vm_compute; reflexivity | discriminate].
Defined.
