(* ===== verification/Diagnosis.v ===== *)
(** * Diagnosis: the differential verdict

    Models [src/src/Diagnosis.hpp] and [src/src/Diagnosis.cpp] (namespace [diagnosis]):
    the signals of one probe, the evidence gathered on one connection and the verdict
    [infer] draws from it. Pure data and pure functions. *)

From S2P Require Import Prelude.

Inductive ProbeSignal := ServerHello | Alert | Timeout | Reset | Closed | Unexpected.

Inductive Kind :=
  | Unknown
  | NoInterference
  | SniInterferenceLikely
  | TlsIncompatible
  | TransportFailure
  | ThrottlingSuspected
  | LearnedProfile
  | TransientFailure
  | InterferenceSuspected.

#[export] Instance ProbeSignal_eq_dec : EqDecision ProbeSignal.
Proof. solve_decision. Defined.
#[export] Instance Kind_eq_dec : EqDecision Kind.
Proof. solve_decision. Defined.

Record Attempt := mkAttempt {
  profile : bytes;
  signal : ProbeSignal;
  elapsedMs : Z;
}.

Record Verdict := mkVerdict {
  kind : Kind;
  confidence : Z;
  winningProfile : bytes;
}.

Record Context := mkContext {
  rememberedProfile : bytes;
  baselineRecentlyHealthy : bool;
}.

Definition kSlowServerHelloMs : Z := 1500.

(** [std::find_if] over the attempts *)
Definition findProfile (attempts : list Attempt) (p : bytes) : option Attempt :=
  find (λ a, bool_decide (profile a = p)) attempts.

Definition findSuccess (attempts : list Attempt) : option Attempt :=
  find (λ a, bool_decide (signal a = ServerHello)) attempts.

Definition hasSignal (attempts : list Attempt) (s : ProbeSignal) : bool :=
  existsb (λ a, bool_decide (signal a = s)) attempts.

Definition isTransportFailure (s : ProbeSignal) : bool :=
  match s with
  | Timeout | Reset | Closed => true
  | _ => false
  end.

Definition infer (attempts : list Attempt) (context : Context) : Verdict :=
  if bool_decide (attempts = []) then mkVerdict Unknown 0 [] else
  match findSuccess attempts with
  | Some success =>
      if bool_decide (profile success = str "none") then
        if kSlowServerHelloMs <=? elapsedMs success
        then mkVerdict ThrottlingSuspected 55 (profile success)
        else mkVerdict NoInterference 95 (profile success)
      else
      let learned := mkVerdict LearnedProfile 65 (profile success) in
      match findProfile attempts (str "none") with
      | None => learned
      | Some baseline =>
          if bool_decide (signal baseline = ServerHello) then learned else
          if baselineRecentlyHealthy context
          then mkVerdict TransientFailure 70 (profile success) else
          let differential :=
            mkVerdict SniInterferenceLikely
              (if bool_decide (signal baseline = Alert) then 70 else 92) (profile success) in
          if bool_decide (rememberedProfile context <> []) &&
             bool_decide (rememberedProfile context <> profile success)
          then
            match findProfile attempts (rememberedProfile context) with
            | Some remembered =>
                if isTransportFailure (signal remembered) &&
                   isTransportFailure (signal baseline)
                then mkVerdict TransientFailure 60 (profile success)
                else differential
            | None => differential
            end
          else differential
      end
  | None =>
      if hasSignal attempts Alert then mkVerdict TlsIncompatible 75 [] else
      if forallb (λ a, isTransportFailure (signal a)) attempts
      then mkVerdict TransportFailure 45 []
      else mkVerdict Unknown 25 []
  end.

Definition isVerifiedBypass (k : Kind) : bool := bool_decide (k = SniInterferenceLikely).

Definition name (k : Kind) : bytes :=
  match k with
  | Unknown => str "unknown"
  | NoInterference => str "no-interference"
  | SniInterferenceLikely => str "sni-interference-likely"
  | TlsIncompatible => str "tls-incompatible"
  | TransportFailure => str "transport-failure"
  | ThrottlingSuspected => str "throttling-suspected"
  | LearnedProfile => str "learned-profile"
  | TransientFailure => str "transient-failure"
  | InterferenceSuspected => str "interference-suspected"
  end.

Definition signalName (s : ProbeSignal) : bytes :=
  match s with
  | ServerHello => str "server-hello"
  | Alert => str "tls-alert"
  | Timeout => str "timeout"
  | Reset => str "reset"
  | Closed => str "closed"
  | Unexpected => str "unexpected"
  end.

Definition describe (s : ProbeSignal) : bytes :=
  match s with
  | ServerHello => str "ServerHello"
  | Alert => str "TLS Alert"
  | Timeout => str "zaman asimi"
  | Reset => str "RST"
  | Closed => str "baglanti kapatildi"
  | Unexpected => str "beklenmeyen yanit"
  end.

(** ** Specifications *)

(** The first attempt of the list that satisfies [P]. *)
Definition first_with (P : Attempt -> Prop) (attempts : list Attempt) (a : Attempt) : Prop :=
  exists before after, attempts = before ++ a :: after /\ P a /\ Forall (λ x, ~ P x) before.

(** A controlled difference: the untouched hello failed on this connection, a
    transformed one was answered, nothing vouches for the path, and the failure does
    not have the shape of a blink of the path (a proven bypass dying with it). *)
Definition differential_evidence (attempts : list Attempt) (ctx : Context)
    (winner : Attempt) : Prop :=
  first_with (λ a, signal a = ServerHello) attempts winner /\
  profile winner <> str "none" /\
  exists baseline,
    first_with (λ a, profile a = str "none") attempts baseline /\
    signal baseline <> ServerHello /\
    baselineRecentlyHealthy ctx = false /\
    ~ (rememberedProfile ctx <> [] /\ rememberedProfile ctx <> profile winner /\
       isTransportFailure (signal baseline) = true /\
       exists remembered,
         first_with (λ a, profile a = rememberedProfile ctx) attempts remembered /\
         isTransportFailure (signal remembered) = true).

(** ** Lemmas *)

Lemma find_first_with (P : Attempt -> Prop) `{!forall a, Decision (P a)} attempts a :
  find (λ x, bool_decide (P x)) attempts = Some a <-> first_with P attempts a.
Proof.
  split.
  - induction attempts as [|x l IH]; simpl; [done |].
    case_bool_decide as Hx; [intros [= ->]; by exists [], l |].
    intros (b & r & -> & ? & ?)%IH. exists (x :: b), r. split_and!; [done | done | by constructor].
  - intros (b & r & -> & Ha & Hb). induction Hb as [|x b Hx Hb IH]; simpl.
    + by rewrite bool_decide_eq_true_2.
    + by rewrite bool_decide_eq_false_2.
Qed.

Lemma findSuccess_spec attempts a :
  findSuccess attempts = Some a <-> first_with (λ a, signal a = ServerHello) attempts a.
Proof. apply (find_first_with (λ a, signal a = ServerHello)). Qed.

Lemma findProfile_spec attempts p a :
  findProfile attempts p = Some a <-> first_with (λ a, profile a = p) attempts a.
Proof. apply (find_first_with (λ a, profile a = p)). Qed.

(** The verdict of a run that got through with a transformed hello. *)
Lemma infer_success attempts ctx winner :
  findSuccess attempts = Some winner -> profile winner <> str "none" ->
  let v := infer attempts ctx in
  winningProfile v = profile winner /\
  (kind v = LearnedProfile \/ kind v = TransientFailure \/ kind v = SniInterferenceLikely).
Proof.
  intros Hs Hw. simpl. unfold infer. rewrite Hs.
  rewrite bool_decide_eq_false_2 by (by intros ->).
  rewrite bool_decide_eq_false_2 by done.
  repeat (case_match || case_if); simpl; eauto.
Qed.

Lemma infer_kind_winner attempts ctx :
  let v := infer attempts ctx in
  kind v = SniInterferenceLikely -> exists w, findSuccess attempts = Some w /\
    profile w <> str "none" /\ winningProfile v = profile w.
Proof.
  simpl. unfold infer. repeat (case_match || case_if); simpl; try done; zbool; eauto.
Qed.

Lemma name_inj k1 k2 : name k1 = name k2 -> k1 = k2.
Proof. destruct k1, k2; done. Qed.

(** ** Properties *)

(** [infer] claims SNI interference exactly on differential evidence: the first
    answered attempt used a transformed hello, the untouched baseline was tried on the
    same connection and failed, no recent healthy baseline vouches for the path, and it
    is not the case that a proven bypass died together with the baseline. *)
Theorem infer_differential_iff (attempts : list Attempt) (ctx : Context) :
  kind (infer attempts ctx) = SniInterferenceLikely <->
  exists winner, differential_evidence attempts ctx winner.
Proof.
  unfold differential_evidence. setoid_rewrite <- findSuccess_spec.
  setoid_rewrite <- findProfile_spec. split.
  - intros Hk. destruct (infer_kind_winner attempts ctx Hk) as (w & Hw & Hne & _).
    exists w. split_and!; [done | done |]. revert Hk. unfold infer. rewrite Hw.
    case_bool_decide; [done |]. case_bool_decide; [done |].
    destruct (findProfile attempts (str "none")) as [b|] eqn:Hb; [|done].
    case_bool_decide; [done |]. destruct (baselineRecentlyHealthy ctx) eqn:Hh; [done |].
    intros Hk. exists b. split_and!; [done | done | done |].
    intros (Hr1 & Hr2 & Hbt & r & Hr & Hrt). revert Hk.
    rewrite !bool_decide_eq_true_2, Hr, Hrt, Hbt by done. done.
  - intros (w & Hw & Hne & b & Hb & Hbs & Hh & Hno). unfold infer. rewrite Hw, Hb, Hh.
    rewrite bool_decide_eq_false_2 by (by intros ->).
    rewrite (bool_decide_eq_false_2 (profile w = _)), (bool_decide_eq_false_2 (signal b = _)) by done.
    repeat (case_match || case_if); simpl; try done; zbool.
    destruct Hno. eauto 8.
Qed.

(** Without a single answered attempt [infer] names no winner and never blames the
    SNI: a TLS alert anywhere means an incompatible endpoint, nothing but timeouts,
    resets and closes means a transport failure, anything else stays unknown. *)
Theorem infer_without_success (attempts : list Attempt) (ctx : Context) :
  Forall (λ a, signal a <> ServerHello) attempts ->
  let v := infer attempts ctx in
  winningProfile v = [] /\
  (kind v = TlsIncompatible <-> Exists (λ a, signal a = Alert) attempts) /\
  (kind v = TransportFailure <->
     attempts <> [] /\ Forall (λ a, isTransportFailure (signal a) = true) attempts) /\
  (kind v = TlsIncompatible \/ kind v = TransportFailure \/ kind v = Unknown).
Proof.
  intros Hno v. subst v.
  assert (findSuccess attempts = None) as Hs.
  { destruct (findSuccess attempts) as [a|] eqn:E; [|done].
    apply findSuccess_spec in E as (b & r & -> & Ha & _).
    apply Forall_app in Hno as [_ Hno]. by apply Forall_inv in Hno. }
  unfold infer. rewrite Hs. case_bool_decide as Hnil.
  { subst. simpl. rewrite Exists_nil. intuition discriminate. }
  destruct (hasSignal attempts Alert) eqn:Ha.
  - apply existsb_exists in Ha as (a & Hin & Hsa). zbool.
    assert (Exists (λ a, signal a = Alert) attempts) as HE.
    { apply Exists_exists. exists a. by rewrite list_elem_of_In. }
    simpl. split_and!; [done | done | | by left]. split; [done |]. intros [_ Hf].
    apply Exists_exists in HE as (x & Hx & Hxa). rewrite Forall_forall in Hf.
    specialize (Hf x Hx). by rewrite Hxa in Hf.
  - assert (~ Exists (λ a, signal a = Alert) attempts) as HE.
    { intros (a & Hin%list_elem_of_In & Hsa)%Exists_exists.
      assert (hasSignal attempts Alert = true); [|congruence].
      apply existsb_exists. exists a. by rewrite bool_decide_eq_true_2. }
    assert (forallb (λ a, isTransportFailure (signal a)) attempts = true <->
      Forall (λ a, isTransportFailure (signal a) = true) attempts) as Hf.
    { rewrite forallb_forall, Forall_forall. by setoid_rewrite list_elem_of_In. }
    case_if; simpl; intuition congruence.
Qed.

Definition blocked_evidence : list Attempt :=
  [mkAttempt (str "none") Timeout 3000; mkAttempt (str "sni-mid") ServerHello 80].

Example infer_blocked :
  infer blocked_evidence (mkContext [] false) = mkVerdict SniInterferenceLikely 92 (str "sni-mid").
Proof. vm_compute. reflexivity. Qed.

Lemma infer_without_success_witness :
  let v := infer [mkAttempt (str "none") Timeout 3000] (mkContext [] false) in
  winningProfile v = [] /\
  (kind v = TlsIncompatible <->
     Exists (λ a, signal a = Alert) [mkAttempt (str "none") Timeout 3000]) /\
  (kind v = TransportFailure <->
     [mkAttempt (str "none") Timeout 3000] <> [] /\
     Forall (λ a, isTransportFailure (signal a) = true) [mkAttempt (str "none") Timeout 3000]) /\
  (kind v = TlsIncompatible \/ kind v = TransportFailure \/ kind v = Unknown).
Proof.
  apply (infer_without_success [mkAttempt (str "none") Timeout 3000] (mkContext [] false)).
  repeat constructor. discriminate.
Defined.
