(* ===== verification/Strategy.v ===== *)
(** * Strategy: fragmentation profiles and plans

    Models the part of [src/src/Strategy.hpp] and [src/src/Strategy.cpp] (namespace
    [strategy]) that is not the [Store] class: the profile table, the plan a profile
    gives for one ClientHello, and the store's key and field syntax. [size_t] and
    [unsigned] arithmetic is kept modulo 2^64 and 2^32. *)

From S2P Require Import Prelude Diagnosis TlsHello.

Record FragmentPlan := mkFragmentPlan {
  recordSplits : list Z;
  writeChunk : Z;
  delayMs : Z;
}.

(** [FragmentPlan{}] *)
Definition emptyPlan : FragmentPlan := mkFragmentPlan [] 0 0.

Definition splitsAnything (p : FragmentPlan) : bool :=
  match recordSplits p with [] => false | _ => true end.

(** [Profile]; the description is text for the user interface. *)
Record Profile := mkProfile {
  profile_name : bytes;
  description : bytes;
  requiresSni : bool;
}.

Definition kSlowProfileMinDelayMs : Z := 40.
Definition kDefaultNetwork : bytes := str "network-default".

Definition profileTable : list Profile :=
  [ mkProfile (str "none") (str "Send the ClientHello untouched (diagnostic baseline)") false;
    mkProfile (str "sni-mid") (str "Split one TLS record in the middle of the SNI hostname") true;
    mkProfile (str "record-1")
      (str "Split after the first payload byte (cuts the handshake header)") false;
    mkProfile (str "packet-reverse")
      (str "Send TCP ClientHello segments in reverse sequence order") false;
    mkProfile (str "packet-ipfrag")
      (str "Split the IPv4 packet below TCP (IPv6 uses reverse disorder)") false;
    mkProfile (str "packet-fake-badseq")
      (str "Precede ClientHello with an out-of-window cover SNI") false;
    mkProfile (str "packet-autottl")
      (str "Expire a cover ClientHello immediately before the server") false;
    mkProfile (str "packet-seqovl")
      (str "Mix cover bytes into an out-of-order sequence overlap") false;
    mkProfile (str "sni-pre") (str "Split immediately before the SNI hostname starts") true;
    mkProfile (str "sni-multi")
      (str "Four cuts: header, before, inside and after the hostname") true;
    mkProfile (str "packet-fake-badsum")
      (str "Precede ClientHello with an invalid-checksum cover SNI") false;
    mkProfile (str "sni-mid-slow") (str "SNI split plus 4-byte writes and a longer pause") true ].

Definition profiles : list Profile := profileTable.

Definition findProfile (name : bytes) : option Profile :=
  find (λ p, bool_decide (profile_name p = name)) profileTable.

(** [std::unique]: drop an element equal to the one before it. *)
Fixpoint unique (l : list Z) : list Z :=
  match l with
  | x :: ((y :: _) as l') => if x =? y then unique l' else x :: unique l'
  | _ => l
  end.

Definition sanitize (splits : list Z) (payloadLength : Z) : list Z :=
  unique (merge_sort Z.le
    (List.filter (λ s, negb ((s <? 1) || (payloadLength <=? s))) splits)).

(** [while (!out.empty() && out.back() == '.') out.pop_back();] on the reversed text *)
Fixpoint drop_dots (l : bytes) : bytes :=
  match l with
  | 46 :: l' => drop_dots l'
  | _ => l
  end.

Definition normalizeHost (host : bytes) : bytes := tolower <$> reverse (drop_dots (reverse host)).

Definition scopeKey (networkId host : bytes) : bytes :=
  (if bool_decide (networkId = []) then kDefaultNetwork else networkId) ++
  str "|" ++ normalizeHost host.

(** The return value and the plan left in [out]. *)
Definition buildPlan (profileName : bytes) (hello : ClientHello) (baseDelayMs : Z)
    : bool * FragmentPlan :=
  match findProfile profileName with
  | None => (false, emptyPlan)
  | Some p =>
      if bool_decide (profileName = str "none") then (true, emptyPlan)
      else if starts_with profileName (str "packet-") then (true, emptyPlan)
      else if spansRecords hello then (false, emptyPlan)
      else if requiresSni p && negb (hasSni hello) then (false, emptyPlan)
      else
        let payloadLength := recordPayloadLength hello in
        if payloadLength <? 2 then (false, emptyPlan) else
        let sniStart := if hasSni hello then w64 (sniOffset hello - kRecordHeaderSize) else 0 in
        let sniMiddle := w64 (sniStart + sniLength hello / 2) in
        let sniEnd := w64 (sniStart + sniLength hello) in
        let finish splits chunk delay :=
          let out := mkFragmentPlan (sanitize splits payloadLength) chunk delay in
          (splitsAnything out, out) in
        if bool_decide (profileName = str "sni-mid") then finish [sniMiddle] 0 baseDelayMs
        else if bool_decide (profileName = str "record-1") then finish [1] 0 baseDelayMs
        else if bool_decide (profileName = str "sni-pre") then finish [sniStart] 0 baseDelayMs
        else if bool_decide (profileName = str "sni-multi") then
          finish [1; sniStart; sniMiddle; sniEnd] 0 baseDelayMs
        else if bool_decide (profileName = str "sni-mid-slow") then
          finish [sniMiddle] 4 (Z.max (w32 (baseDelayMs * 2)) kSlowProfileMinDelayMs)
        else (false, mkFragmentPlan [] 0 baseDelayMs)
  end.

(** ** Field syntax of the store *)

(** [parseUnsigned64(text, value)] and [parseUnsigned32]: what [value] holds afterwards.
    [std::from_chars] stores the number even when text follows it; the caller ignores
    the [bool]. *)
Definition parseUnsigned (limit : Z) (text : bytes) (value : Z) : Z :=
  match from_chars limit text with
  | Some (v, _) => v
  | None => value
  end.
Definition parseUnsigned64 : bytes -> Z -> Z := parseUnsigned (2 ^ 64 - 1).
Definition parseUnsigned32 : bytes -> Z -> Z := parseUnsigned (2 ^ 32 - 1).

Definition allKinds : list Kind :=
  [Unknown; NoInterference; SniInterferenceLikely; TlsIncompatible; TransportFailure;
   ThrottlingSuspected; LearnedProfile; TransientFailure; InterferenceSuspected].

Definition parseKind (text : bytes) : Kind :=
  default Unknown (find (λ k, bool_decide (text = name k)) allKinds).

(** The fields between the semicolons; there is always at least one. [field] is the part
    of the current field already read. *)
Fixpoint splitFields_from (field encoded : bytes) : list bytes :=
  match encoded with
  | [] => [field]
  | c :: rest =>
      if c =? 59 then field :: splitFields_from [] rest else splitFields_from (field ++ [c]) rest
  end.
Definition splitFields (encoded : bytes) : list bytes := splitFields_from [] encoded.

(** ** Specifications *)

(** What every plan promises ([FragmentPlan::recordSplits]): ascending, no duplicates,
    strictly inside the payload. *)
Definition plan_ok (payloadLength : Z) (p : FragmentPlan) : Prop :=
  StronglySorted Z.lt (recordSplits p) /\
  Forall (λ s, 1 <= s < payloadLength) (recordSplits p).

(** A cut strictly inside the hostname. *)
Definition cuts_hostname (h : ClientHello) (p : FragmentPlan) : Prop :=
  exists s, In s (recordSplits p) /\
    sniOffset h - kRecordHeaderSize < s < sniOffset h - kRecordHeaderSize + sniLength h.

(** ** Lemmas *)

Lemma unique_In l x : In x (unique l) <-> In x l.
Proof.
  induction l as [|a l IH]; [simpl; tauto |]. destruct l as [|b l]; [simpl; tauto |].
  change (unique (a :: b :: l)) with (if a =? b then unique (b :: l) else a :: unique (b :: l)).
  case_if; zbool; subst; simpl in *; rewrite IH; tauto.
Qed.

Lemma unique_sorted l : StronglySorted Z.le l -> StronglySorted Z.lt (unique l).
Proof.
  induction l as [|a l IH]; [intros; constructor |]. intros Hs. destruct l as [|b l]; [repeat constructor |].
  apply StronglySorted_inv in Hs as [Hs Ha].
  change (unique (a :: b :: l)) with (if a =? b then unique (b :: l) else a :: unique (b :: l)).
  case_if; [by apply IH |]. zbool. constructor; [by apply IH |].
  rewrite Forall_forall in *. intros x Hx%list_elem_of_In%unique_In%in_inv.
  apply StronglySorted_inv in Hs as [_ Hb]. rewrite Forall_forall in Hb.
  assert (a <= b) by (apply Ha, elem_of_cons; by left).
  destruct Hx as [<-|Hx%list_elem_of_In]; [lia |]. specialize (Hb x Hx). lia.
Qed.

Lemma sanitize_In splits n x : In x (sanitize splits n) <-> In x splits /\ 1 <= x < n.
Proof.
  unfold sanitize. rewrite unique_In, <- !list_elem_of_In, merge_sort_Permutation.
  rewrite !list_elem_of_In, filter_In. split; intros [? H]; (split; [done |]).
  - zbool. lia.
  - apply negb_true_iff, orb_false_iff. split; [apply Z.ltb_ge | apply Z.leb_gt]; lia.
Qed.

Lemma sanitize_ok splits n c d : plan_ok n (mkFragmentPlan (sanitize splits n) c d).
Proof.
  split; simpl.
  - apply unique_sorted, StronglySorted_merge_sort; first [typeclasses eauto | lia].
  - apply Forall_forall. intros x Hx%list_elem_of_In%sanitize_In. tauto.
Qed.

Lemma emptyPlan_ok n : plan_ok n emptyPlan.
Proof. split; constructor. Qed.
#[export] Hint Resolve sanitize_ok emptyPlan_ok : sh.

Lemma findProfile_name n p : findProfile n = Some p -> profile_name p = n /\ In p profileTable.
Proof.
  intros E. pose proof (find_some _ _ E) as [? H]. zbool. done.
Qed.

Lemma splitsAnything_In p x : In x (recordSplits p) -> splitsAnything p = true.
Proof. unfold splitsAnything. by destruct (recordSplits p). Qed.

Lemma parseKind_name k : parseKind (name k) = k.
Proof. destruct k; reflexivity. Qed.

Lemma splitFields_from_app f a rest :
  Forall (λ c, c <> 59) a ->
  splitFields_from f (a ++ rest) = splitFields_from (f ++ a) rest.
Proof.
  intros H. revert f. induction H as [|c a Hc _ IH]; intros f; simpl; [by rewrite app_nil_r |].
  rewrite (proj2 (Z.eqb_neq c 59)) by done. rewrite IH. by rewrite <- app_assoc.
Qed.

Lemma splitFields_cons a rest :
  Forall (λ c, c <> 59) a -> splitFields (a ++ str ";" ++ rest) = a :: splitFields rest.
Proof. intros H. unfold splitFields. by rewrite splitFields_from_app. Qed.

Lemma splitFields_last a : Forall (λ c, c <> 59) a -> splitFields a = [a].
Proof.
  intros H. unfold splitFields. rewrite <- (app_nil_r a) at 1. by rewrite splitFields_from_app.
Qed.

Lemma parseUnsigned_to_string limit n v :
  0 <= n < 2 ^ 64 -> n <= limit -> parseUnsigned limit (to_string n) v = n.
Proof.
  intros. unfold parseUnsigned.
  by rewrite <- (app_nil_r (to_string n)), from_chars_to_string.
Qed.

Lemma buildPlan_plan_ok name h d : plan_ok (recordPayloadLength h) (buildPlan name h d).2.
Proof.
  unfold buildPlan. destruct (findProfile name); [|simpl; auto with sh].
  repeat case_if; simpl; auto with sh. split; constructor.
Qed.

Lemma splitsAnything_iff p : splitsAnything p = true <-> recordSplits p <> [].
Proof. unfold splitsAnything. destruct (recordSplits p); intuition congruence. Qed.

(** The profiles that send the ClientHello as it is. *)
Definition untouched (profileName : bytes) : Prop :=
  profileName = str "none" \/ starts_with profileName (str "packet-") = true.

(** The profiles whose purpose is a cut inside the hostname. *)
Definition sni_cutters : list bytes := [str "sni-mid"; str "sni-multi"; str "sni-mid-slow"].

(** The middle of the hostname of a parsed hello, as a payload offset. *)
Lemma sni_middle_inside data h :
  hello_ok data h -> 2 <= sniLength h ->
  let start := w64 (sniOffset h - kRecordHeaderSize) in
  let mid := w64 (start + sniLength h / 2) in
  spansRecords h = false /\ hasSni h = true /\ 2 <= recordPayloadLength h /\
  1 <= mid < recordPayloadLength h /\
  sniOffset h - kRecordHeaderSize < mid < sniOffset h - kRecordHeaderSize + sniLength h.
Proof.
  unfold hello_ok, sni_in, kMaxRecordPayload, kRecordHeaderSize, hasSni.
  intros (Hp & Ht & Hz & (_ & _ & Hs) & Hspan) Hlen. destruct Hs as [Hs|[Hlo Hhi]]; [lia |].
  pose proof (Z.div_le_lower_bound (sniLength h) 2 1 ltac:(lia) ltac:(lia)).
  pose proof (Z.div_lt (sniLength h) 2 ltac:(lia) ltac:(lia)).
  rewrite (w64_small (sniOffset h - 5)) by lia. rewrite w64_small by lia.
  assert ((0 <? sniLength h) = true) as Hsni by (apply Z.ltb_lt; lia).
  rewrite Hsni in *. split; [|split; [done | lia]].
  destruct (spansRecords h); [|done]. by specialize (Hspan eq_refl).
Qed.

(** ** Properties *)

(** Every plan [buildPlan] leaves behind keeps the promise of [FragmentPlan]: its cuts
    are ascending, free of duplicates and strictly inside the record payload. It answers
    [true] exactly for a profile of the table that either sends the hello untouched or has
    at least one cut left, and an untouched profile never cuts. *)
Theorem buildPlan_wf (profileName : bytes) (h : ClientHello) (baseDelayMs : Z) :
  let '(ok, p) := buildPlan profileName h baseDelayMs in
  plan_ok (recordPayloadLength h) p /\
  (ok = true <-> is_Some (findProfile profileName) /\
                 (untouched profileName \/ recordSplits p <> [])) /\
  (untouched profileName -> recordSplits p = []).
Proof.
  pose proof (buildPlan_plan_ok profileName h baseDelayMs) as Hok. revert Hok.
  destruct (buildPlan profileName h baseDelayMs) as [ok p] eqn:E. simpl. intros Hok.
  split; [done |]. revert E. unfold buildPlan, untouched.
  destruct (findProfile profileName) as [pr|] eqn:Ef.
  - assert (Hs : is_Some (Some pr)) by eauto.
    repeat case_if; zbool; intros [= <- <-];
      rewrite ?splitsAnything_iff; simpl; intuition (congruence || eauto).
  - intros [= <- <-]. split; [|done]. split; [done |]. by intros [[? ?] _].
Qed.

(** For a ClientHello the parser accepted whose hostname has at least two bytes, each
    of the profiles that exist to cut the hostname succeeds and puts a cut strictly inside
    it, so no TLS record it produces contains the whole name. *)
Theorem buildPlan_cuts_hostname (data : bytes) (h : ClientHello) (profileName : bytes)
    (baseDelayMs : Z) :
  all_bytes data -> parseClientHello data = Some (Ok, h) -> 2 <= sniLength h ->
  In profileName sni_cutters ->
  exists p, buildPlan profileName h baseDelayMs = (true, p) /\ cuts_hostname h p.
Proof.
  intros Hd Hp Hlen Hin. destruct (parseClientHello_spec data Hd) as (st & h' & Hp' & Hok & _).
  rewrite Hp in Hp'. injection Hp' as <- <-.
  destruct (sni_middle_inside data h (Hok eq_refl) Hlen) as (Hsp & Hsni & Hpl & Hm & Hmid).
  set (mid := w64 (w64 (sniOffset h - kRecordHeaderSize) + sniLength h / 2)) in *.
  assert (forall splits c d, In mid splits ->
    let p := mkFragmentPlan (sanitize splits (recordPayloadLength h)) c d in
    exists q, (splitsAnything p, p) = (true, q) /\ cuts_hostname h q) as Hfin.
  { intros splits c d Hi p. assert (In mid (recordSplits p)) by (by apply sanitize_In).
    exists p. split; [|by exists mid]. f_equal. by eapply splitsAnything_In. }
  unfold buildPlan. rewrite Hsp, Hsni. rewrite (proj2 (Z.ltb_ge _ 2)) by lia.
  destruct Hin as [<-|[<-|[<-|[]]]]; simpl findProfile; cbn -[sanitize w64 w32];
    apply Hfin; simpl; auto.
Qed.

Lemma buildPlan_cuts_hostname_witness :
  let h := mkClientHello 61 66 61 5 (str "ab.cd") false false in
  exists p, buildPlan (str "sni-multi") h 20 = (true, p) /\ cuts_hostname h p.
Proof.
  apply (buildPlan_cuts_hostname sample_hello);
    [apply all_bytes_check; reflexivity | vm_compute; reflexivity | simpl; lia |].
  right. left. reflexivity.
Defined.

Example plan_sample :
  buildPlan (str "sni-multi") (mkClientHello 61 66 61 5 (str "ab.cd") false false) 20 =
  (true, mkFragmentPlan [1; 56; 58] 0 20).
Proof. vm_compute. reflexivity. Qed.
