(* ===== verification/StrategyStore.v ===== *)
(** * StrategyStore: what the engine has learned

    Models the class [Store] of [src/src/Strategy.hpp] and [src/src/Strategy.cpp]. Every
    operation runs under [mutex_], so it is one function on the state; [commit], which
    runs after the lock is released, is a separate step on the disk side
    ([writtenSeq_], [saveFailing_], the file), and the interleavings of the two are the
    step relation [disk_step].

    Clocks are readings passed in: [wall] is [nowSeconds()], [mono] is [monoSeconds()]
    and [saveWall] the second reading of the wall clock that [snapshotLocked] makes. All
    times are [uint64_t], so sums are kept modulo 2^64. The three tables are
    [std::unordered_map]s: finite maps walked in an arbitrary order ([MapOrder]). *)

From S2P Require Import Prelude Containers Json TlsHello Diagnosis Strategy.

Definition kMaxRememberedHosts : Z := 1000.
Definition kLearningTtlSeconds : Z := 7 * 24 * 60 * 60.
Definition kReverifyIntervalSeconds : Z := 30 * 60.
Definition kReverifyHoldSeconds : Z := 15.
Definition kBaselineHealthyWindowSeconds : Z := 15 * 60.
Definition kMaxHealthyHosts : Z := 4096.
Definition kConfirmMinGapSeconds : Z := 60.
Definition kCandidateTtlSeconds : Z := 6 * 60 * 60.
Definition kMaxCandidates : Z := kMaxRememberedHosts.
Definition kClockSkewSeconds : Z := 5 * 60.

Inductive Outcome := Ignored | Forgotten | OCandidate | Learned | Reverified | Refreshed.

#[export] Instance Outcome_eq_dec : EqDecision Outcome.
Proof. solve_decision. Defined.

Record Entry := mkEntry {
  e_profile : bytes;
  e_kind : Kind;
  e_confidence : Z;
  expiresAt : Z;
  failures : Z;
  verifiedAt : Z;
  reverifyStartedAt : Z;
}.

Record Candidate := mkCandidate {
  c_profile : bytes;
  firstStrikeAt : Z;
  c_expiresAt : Z;
  persistUntil : Z;
}.

Record Store := mkStore {
  path_ : bytes;
  entries_ : gmap bytes Entry;
  candidates_ : gmap bytes Candidate;
  healthyAt_ : gmap bytes Z;
  nextSeq_ : Z;
}.

(** [Snapshot]; [seq = 0] is nothing to write. *)
Record Snapshot := mkSnapshot { seq : Z; text : bytes }.
Definition noSnapshot : Snapshot := mkSnapshot 0 [].

(** The clock readings of one call. *)
Record Clock := mkClock { wall : Z; mono : Z; saveWall : Z }.

(** [Store::Store(path)] *)
Definition newStore (path : bytes) : Store := mkStore path ∅ ∅ ∅ 0.

Definition setEntries (s : Store) (e : gmap bytes Entry) : Store :=
  mkStore (path_ s) e (candidates_ s) (healthyAt_ s) (nextSeq_ s).
Definition setCandidates (s : Store) (c : gmap bytes Candidate) : Store :=
  mkStore (path_ s) (entries_ s) c (healthyAt_ s) (nextSeq_ s).
Definition setHealthy (s : Store) (h : gmap bytes Z) : Store :=
  mkStore (path_ s) (entries_ s) (candidates_ s) h (nextSeq_ s).

Definition resolveNow (explicitSeconds : Z) (ck : Clock) : Z :=
  if explicitSeconds =? 0 then wall ck else explicitSeconds.
Definition resolveMono (explicitSeconds : Z) (ck : Clock) : Z :=
  if explicitSeconds =? 0 then mono ck else explicitSeconds.

Definition candidateLive (c : Candidate) (wallNow monoNow : Z) : bool :=
  if firstStrikeAt c =? 0 then wallNow <? persistUntil c else monoNow <? c_expiresAt c.

Section Store.
Context `{!MapOrder bytes}.

(** ** Persistence *)

(** One line of the file: [append(key, encoded)]. *)
Definition append (first : bool) (content key encoded : bytes) : bytes :=
  (if first then content else content ++ str "," ++ [10]) ++
  str "    " ++ [cQuote] ++ escape key ++ [cQuote] ++ str ": " ++
  [cQuote] ++ escape encoded ++ [cQuote].

Definition encodeEntry (e : Entry) : bytes :=
  e_profile e ++ str ";" ++ name (e_kind e) ++ str ";" ++ to_string (e_confidence e) ++
  str ";" ++ to_string (expiresAt e) ++ str ";" ++ to_string (failures e) ++ str ";" ++
  to_string (verifiedAt e).

Definition encodeCandidate (c : Candidate) : bytes :=
  c_profile c ++ str ";" ++ name Unknown ++ str ";50;" ++ to_string (persistUntil c) ++ str ";0;0".

(** The two loops of [snapshotLocked]; the state is [first] and [content]. *)
Definition appendEntry (now : Z) (acc : bool * bytes) (kv : bytes * Entry) : bool * bytes :=
  if expiresAt kv.2 <=? now then acc
  else (false, append acc.1 acc.2 kv.1 (encodeEntry kv.2)).
Definition appendCandidate (now : Z) (entries : gmap bytes Entry) (acc : bool * bytes)
    (kv : bytes * Candidate) : bool * bytes :=
  if (persistUntil kv.2 <=? now) || bool_decide (is_Some (entries !! kv.1)) then acc
  else (false, append acc.1 acc.2 kv.1 (encodeCandidate kv.2)).

Definition fileHead : bytes :=
  str "{" ++ [10] ++ str "  " ++ [cQuote] ++ str "version" ++ [cQuote] ++ str ": 2," ++ [10] ++
  str "  " ++ [cQuote] ++ str "domains" ++ [cQuote] ++ str ": {" ++ [10].
Definition fileTail : bytes := [10] ++ str "  }" ++ [10] ++ str "}" ++ [10].

Definition snapshotText (s : Store) (now : Z) : bytes :=
  let acc := foldl (appendEntry now) (true, fileHead) (iter (entries_ s)) in
  let acc := foldl (appendCandidate now (entries_ s)) acc (iter (candidates_ s)) in
  acc.2 ++ fileTail.

Definition snapshotLocked (s : Store) (ck : Clock) : Snapshot * Store :=
  if bool_decide (path_ s = []) then (noSnapshot, s) else
  let n := w64 (nextSeq_ s + 1) in
  (mkSnapshot n (snapshotText s (saveWall ck)),
   mkStore (path_ s) (entries_ s) (candidates_ s) (healthyAt_ s) n).

(** What [load] makes of one key and its encoded value. *)
Definition loadEntry (loadedAt : Z) (fields : list bytes) : Entry :=
  let field i dflt (parse : bytes -> Z -> Z) :=
    match fields !! i with Some f => parse f dflt | None => dflt end in
  let k := match fields !! 1%nat with Some f => parseKind f | None => Unknown end in
  let conf := field 2%nat 50 parseUnsigned32 in
  let expires := field 3%nat (w64 (loadedAt + kLearningTtlSeconds)) parseUnsigned64 in
  let fails := field 4%nat 0 parseUnsigned32 in
  let verified := field 5%nat 0 parseUnsigned64 in
  mkEntry (default [] (fields !! 0%nat)) k (Z.min conf 100)
    (Z.min expires (w64 (loadedAt + kLearningTtlSeconds))) fails
    (if w64 (loadedAt + kClockSkewSeconds) <? verified then 0 else verified) 0.

Definition loadRecord (loadedAt : Z) (tables : gmap bytes Entry * gmap bytes Candidate)
    (key encoded : bytes) : gmap bytes Entry * gmap bytes Candidate :=
  let '(entries, candidates) := tables in
  let fields := splitFields encoded in
  let f0 := default [] (fields !! 0%nat) in
  if bool_decide (key = []) || bool_decide (fields = []) ||
     bool_decide (findProfile f0 = None) || bool_decide (f0 = str "none")
  then tables else
  let key := match find_char key 124 0 with
             | None => scopeKey kDefaultNetwork key
             | Some _ => key
             end in
  let entry := loadEntry loadedAt fields in
  if expiresAt entry <=? loadedAt then tables
  else if verifiedAt entry =? 0 then
    if msize candidates <? kMaxCandidates
    then (entries, <[key := mkCandidate (e_profile entry) 0 0 (expiresAt entry)]> candidates)
    else tables
  else if msize entries <? kMaxRememberedHosts then (<[key := entry]> entries, candidates)
  else tables.

(** The [while] loop of [load]; [None] is out of fuel. *)
Fixpoint load_loop (fuel : nat) (loadedAt : Z) (domains : bytes) (pos : nat)
    (tables : gmap bytes Entry * gmap bytes Candidate)
    : option (gmap bytes Entry * gmap bytes Candidate) :=
  match fuel with
  | O => None
  | S f =>
      let pos := skipWs domains pos in
      match domains !! pos with
      | None => Some tables
      | Some c =>
          if c =? 125 then Some tables
          else if c =? cComma then load_loop f loadedAt domains (S pos) tables
          else if negb (c =? cQuote) then Some tables
          else
            let '(key, e) := parseString domains pos in
            let pos := skipWs domains e in
            if negb (bool_decide (domains !! pos = Some cColon)) then Some tables else
            let pos := skipWs domains (S pos) in
            if negb (bool_decide (domains !! pos = Some cQuote)) then Some tables else
            let '(encoded, e) := parseString domains pos in
            if bool_decide (e < pos + 2)%nat ||
               negb (bool_decide (domains !! (e - 1)%nat = Some cQuote))
            then Some tables
            else load_loop f loadedAt domains e (loadRecord loadedAt tables key encoded)
      end
  end.

(** [load]; [content] is what [fileutil::readAll] read, [None] when it failed. *)
Definition load (s : Store) (content : option bytes) (loadedAt : Z) : Store :=
  if bool_decide (path_ s = []) then s else
  match content with
  | None => s
  | Some content =>
      let domains := getRaw content (str "domains") in
      if negb (bool_decide (domains !! 0%nat = Some 123)) then s else
      let tables := default (∅, ∅) (load_loop (S (length domains)) loadedAt domains 1 (∅, ∅)) in
      mkStore (path_ s) tables.1 tables.2 (healthyAt_ s) (nextSeq_ s)
  end.

(** ** Eviction *)

Definition makeRoomForEntryLocked (wallNow : Z) (entries : gmap bytes Entry) : gmap bytes Entry :=
  if msize entries <? kMaxRememberedHosts then entries else
  let entries := erase_if (λ _ e, expiresAt e <=? wallNow) entries in
  if msize entries <? kMaxRememberedHosts then entries else
  erase_min verifiedAt entries.

Definition makeRoomForCandidateLocked (wallNow monoNow : Z) (candidates : gmap bytes Candidate)
    : gmap bytes Candidate :=
  if msize candidates <? kMaxCandidates then candidates else
  let candidates := erase_if (λ _ c, negb (candidateLive c wallNow monoNow)) candidates in
  if msize candidates <? kMaxCandidates then candidates else
  erase_min firstStrikeAt candidates.

(** ** Lookup and learning *)

Definition storeLookup (s : Store) (networkId host : bytes) (ck : Clock) : bytes :=
  match entries_ s !! scopeKey networkId host with
  | Some e => if expiresAt e <=? wall ck then [] else e_profile e
  | None => []
  end.

(** The last part of [rememberLocked]: a new or replaced winner. *)
Definition learnEntry (s : Store) (key p : bytes) (k : Kind) (conf now : Z) : Store :=
  let replacement := mkEntry p k (Z.min conf 100) (w64 (now + kLearningTtlSeconds)) 0 now 0 in
  let room := match entries_ s !! key with
              | None => makeRoomForEntryLocked now (entries_ s)
              | Some _ => entries_ s
              end in
  setCandidates (setEntries s (<[key := replacement]> room)) (delete key (candidates_ s)).

(** The differential branch of [rememberLocked]: [inl] is a nomination (the new state),
    [inr] a confirmation, to be followed by [learnEntry]. *)
Definition strike (s : Store) (key p : bytes) (now mono : Z) : Store + Store :=
  let cs := candidates_ s in
  match cs !! key with
  | Some c =>
      if candidateLive c now mono then
        if firstStrikeAt c =? 0 then
          inl (setCandidates s
                 (<[key := mkCandidate p mono (w64 (mono + kCandidateTtlSeconds))
                             (persistUntil c)]> cs))
        else if mono <? w64 (firstStrikeAt c + kConfirmMinGapSeconds) then
          inl (setCandidates s
                 (<[key := mkCandidate p (firstStrikeAt c) (c_expiresAt c) (persistUntil c)]> cs))
        else inr (setCandidates s (delete key cs))
      else
        inl (setCandidates s
               (<[key := mkCandidate p mono (w64 (mono + kCandidateTtlSeconds)) 0]>
                  (makeRoomForCandidateLocked now mono (delete key cs))))
  | None =>
      inl (setCandidates s
             (<[key := mkCandidate p mono (w64 (mono + kCandidateTtlSeconds)) 0]>
                (makeRoomForCandidateLocked now mono cs)))
  end.

(** The outcome, the new state and [dirty]. *)
Definition rememberLocked (s : Store) (networkId host p : bytes) (k : Kind)
    (conf explicitNow : Z) (ck : Clock) : Outcome * Store * bool :=
  let normalizedHost := normalizeHost host in
  if bool_decide (normalizedHost = []) || bool_decide (findProfile p = None)
  then (Ignored, s, false) else
  let now := resolveNow explicitNow ck in
  let mono := resolveMono explicitNow ck in
  let key := scopeKey networkId normalizedHost in
  if bool_decide (p = str "none") then
    let hadEntry := bool_decide (is_Some (entries_ s !! key)) in
    let hadPersistedCandidate :=
      match candidates_ s !! key with
      | Some c => negb (persistUntil c =? 0)
      | None => false
      end in
    (if hadEntry then Forgotten else Ignored,
     setCandidates (setEntries s (delete key (entries_ s))) (delete key (candidates_ s)),
     hadEntry || hadPersistedCandidate)
  else if bool_decide (k = TransientFailure) then (Ignored, s, false) else
  let live := match entries_ s !! key with
              | Some e => if now <? expiresAt e then Some e else None
              | None => None
              end in
  if bool_decide (k = LearnedProfile) then
    match live with
    | Some e =>
        if bool_decide (e_profile e = p) then
          if failures e =? 0 then (Refreshed, s, false)
          else
            (Refreshed,
             setEntries s (<[key := mkEntry (e_profile e) (e_kind e) (e_confidence e)
                                     (expiresAt e) 0 (verifiedAt e) (reverifyStartedAt e)]>
                             (entries_ s)), true)
        else (Ignored, s, false)
    | None => (Ignored, s, false)
    end
  else
    let winner := match live with
                  | Some e => if bool_decide (e_profile e = p) then Some e else None
                  | None => None
                  end in
    match winner with
    | Some e =>
        let better := e_confidence e <? conf in
        (Reverified,
         setEntries s (<[key := mkEntry (e_profile e) (if better then k else e_kind e)
                                 (if better then Z.min conf 100 else e_confidence e)
                                 (w64 (now + kLearningTtlSeconds)) 0 now 0]> (entries_ s)), true)
    | None =>
        if bool_decide (k = SniInterferenceLikely) then
          match strike s key p now mono with
          | inl s' => (OCandidate, s', false)
          | inr s' => (Learned, learnEntry s' key p k conf now, true)
          end
        else (Learned, learnEntry s key p k conf now, true)
    end.

(** [remember]: the outcome, the snapshot to commit and the new state. *)
Definition remember (s : Store) (networkId host p : bytes) (k : Kind)
    (conf explicitNow : Z) (ck : Clock) : Outcome * Snapshot * Store :=
  let '(o, s', dirty) := rememberLocked s networkId host p k conf explicitNow ck in
  if dirty then let '(snap, s'') := snapshotLocked s' ck in (o, snap, s'')
  else (o, noSnapshot, s').

(** [remember(host, profile)] *)
Definition rememberDefault (s : Store) (host p : bytes) (ck : Clock) : Snapshot * Store :=
  let '(_, snap, s') := remember s kDefaultNetwork host p Unknown 50 0 ck in (snap, s').

(** [healthyAt_.erase(healthyAt_.begin())] *)
Definition erase_begin (m : gmap bytes Z) : gmap bytes Z :=
  match iter m with
  | kv :: _ => delete kv.1 m
  | [] => m
  end.

Definition noteBaselineHealthy (s : Store) (networkId host : bytes) (explicitNow : Z)
    (ck : Clock) : Snapshot * Store :=
  let now := resolveMono explicitNow ck in
  let key := scopeKey networkId host in
  let '(snap, s) :=
    match candidates_ s !! key with
    | Some c =>
        let s' := setCandidates s (delete key (candidates_ s)) in
        if persistUntil c =? 0 then (noSnapshot, s') else snapshotLocked s' ck
    | None => (noSnapshot, s)
    end in
  let h := healthyAt_ s in
  let h :=
    if (kMaxHealthyHosts <=? msize h) && negb (bool_decide (is_Some (h !! key))) then
      let h := erase_if (λ _ t, w64 (t + kBaselineHealthyWindowSeconds) <=? now) h in
      if kMaxHealthyHosts <=? msize h then erase_begin h else h
    else h in
  (snap, setHealthy s (<[key := now]> h)).

Definition baselineRecentlyHealthy (s : Store) (networkId host : bytes) (explicitNow : Z)
    (ck : Clock) : bool :=
  let now := resolveMono explicitNow ck in
  match healthyAt_ s !! scopeKey networkId host with
  | Some t => (t <=? now) && (now <? w64 (t + kBaselineHealthyWindowSeconds))
  | None => false
  end.

Definition recordFailure (s : Store) (networkId host p : bytes) (ck : Clock) : Snapshot * Store :=
  let key := scopeKey networkId host in
  match entries_ s !! key with
  | None => (noSnapshot, s)
  | Some e =>
      if negb (bool_decide (e_profile e = p)) then (noSnapshot, s) else
      let fails := w32 (failures e + 1) in
      let s' :=
        if 2 <=? fails then setEntries s (delete key (entries_ s))
        else setEntries s
               (<[key := mkEntry (e_profile e) (e_kind e)
                          (if 20 <? e_confidence e then e_confidence e - 20 else 0)
                          (expiresAt e) fails (verifiedAt e) (reverifyStartedAt e)]> (entries_ s)) in
      snapshotLocked s' ck
  end.

Definition forget (s : Store) (host : bytes) (ck : Clock) : Snapshot * Store :=
  let suffix := str "|" ++ normalizeHost host in
  let changed :=
    existsb (λ kv, ends_with kv.1 suffix) (iter (entries_ s)) ||
    existsb (λ kv, ends_with kv.1 suffix && negb (persistUntil kv.2 =? 0)) (iter (candidates_ s)) in
  let s' :=
    setCandidates (setEntries s (erase_if (λ k _, ends_with k suffix) (entries_ s)))
      (erase_if (λ k _, ends_with k suffix) (candidates_ s)) in
  if changed then snapshotLocked s' ck else (noSnapshot, s').

Definition clear (s : Store) (ck : Clock) : Snapshot * Store :=
  snapshotLocked (mkStore (path_ s) ∅ ∅ ∅ (nextSeq_ s)) ck.

(** [size()] *)
Definition storeSize (s : Store) (ck : Clock) : Z :=
  zlen (List.filter (λ kv : bytes * Entry, wall ck <? expiresAt kv.2) (iter (entries_ s))).

Definition candidateCount (s : Store) : Z := msize (candidates_ s).

(** ** Probe order *)

(** What [probeOrder] finds out under the lock: the remembered profile, the pending one
    and whether this call starts a re-verification, which stamps the entry. *)
Definition probeState (s : Store) (key : bytes) (now mono : Z) : bytes * bytes * bool * Store :=
  let absent :=
    match candidates_ s !! key with
    | Some c => if candidateLive c now mono then ([], c_profile c, false, s) else ([], [], false, s)
    | None => ([], [], false, s)
    end in
  match entries_ s !! key with
  | Some e =>
      if now <? expiresAt e then
        let due := (w64 (now + kClockSkewSeconds) <? verifiedAt e) ||
                   (w64 (verifiedAt e + kReverifyIntervalSeconds) <=? now) in
        if due && ((reverifyStartedAt e =? 0) ||
                   (w64 (reverifyStartedAt e + kReverifyHoldSeconds) <=? mono))
        then
          (e_profile e, [], true,
           setEntries s (<[key := mkEntry (e_profile e) (e_kind e) (e_confidence e) (expiresAt e)
                                   (failures e) (verifiedAt e) mono]> (entries_ s)))
        else (e_profile e, [], false, s)
      else absent
  | None => absent
  end.

(** The [for] loop over the table at the end of [probeOrder]. *)
Definition tableRest (lead : bytes) (baselineQueued : bool) (hello : ClientHello) : list bytes :=
  profile_name <$>
    List.filter (λ p, negb (bool_decide (profile_name p = lead)) &&
                      negb (baselineQueued && bool_decide (profile_name p = str "none")) &&
                      negb (requiresSni p && negb (hasSni hello))) profileTable.

(** The list built after the lock is released. *)
Definition orderFor (remembered pending : bytes) (reverify : bool) (hello : ClientHello)
    : list bytes :=
  if negb (bool_decide (remembered = [])) then
    (if reverify then [str "none"] else []) ++ [remembered] ++ tableRest remembered reverify hello
  else if negb (bool_decide (pending = [])) then
    [str "none"; pending] ++ tableRest pending true hello
  else tableRest [] false hello.

Definition probeOrder (s : Store) (networkId host : bytes) (hello : ClientHello)
    (explicitNow : Z) (ck : Clock) : list bytes * Store :=
  if spansRecords hello then ([str "none"], s) else
  let '(remembered, pending, reverify, s') :=
    probeState s (scopeKey networkId host) (resolveNow explicitNow ck)
      (resolveMono explicitNow ck) in
  (orderFor remembered pending reverify hello, s').

(** ** The disk side *)

(** [writtenSeq_], [saveFailing_] and the contents of the file. *)
Record Disk := mkDisk { writtenSeq_ : Z; saveFailing_ : bool; file : option bytes }.

(** [commit]; [wrote] is the result of [fileutil::writeAtomic]. *)
Definition commit (d : Disk) (snap : Snapshot) (wrote : bool) : Disk :=
  if seq snap =? 0 then d
  else if seq snap <=? writtenSeq_ d then d
  else if wrote then mkDisk (seq snap) false (Some (text snap))
  else mkDisk (writtenSeq_ d) true (file d).

(** ** Operations as data, and the traces they form *)

Inductive StoreOp :=
  | OpLoad (content : option bytes) (loadedAt : Z)
  | OpRemember (networkId host p : bytes) (k : Kind) (conf explicitNow : Z) (ck : Clock)
  | OpNoteBaselineHealthy (networkId host : bytes) (explicitNow : Z) (ck : Clock)
  | OpRecordFailure (networkId host p : bytes) (ck : Clock)
  | OpForget (host : bytes) (ck : Clock)
  | OpClear (ck : Clock)
  | OpProbeOrder (networkId host : bytes) (hello : ClientHello) (explicitNow : Z) (ck : Clock).

(** One operation: the snapshot it hands to [commit] and the new state. *)
Definition exec_op (s : Store) (op : StoreOp) : Snapshot * Store :=
  match op with
  | OpLoad content t => (noSnapshot, load s content t)
  | OpRemember n h p k c now ck =>
      ((remember s n h p k c now ck).1.2, (remember s n h p k c now ck).2)
  | OpNoteBaselineHealthy n h now ck => noteBaselineHealthy s n h now ck
  | OpRecordFailure n h p ck => recordFailure s n h p ck
  | OpForget h ck => forget s h ck
  | OpClear ck => clear s ck
  | OpProbeOrder n h hello now ck => (noSnapshot, (probeOrder s n h hello now ck).2)
  end.

Definition run_op (s : Store) (op : StoreOp) : Store := (exec_op s op).2.

Definition run_ops (s : Store) (ops : list StoreOp) : Store := foldl run_op s ops.

(** The store, the snapshots other threads are still carrying to [commit], and the disk.
    [w_issued] (every snapshot ever taken, oldest first) and [w_saved] (those whose
    [commit] was told the write succeeded) are history, not program state. *)
Record World := mkWorld {
  w_store : Store;
  w_pending : list Snapshot;
  w_disk : Disk;
  w_issued : list Snapshot;
  w_saved : list Snapshot;
}.

Definition world0 (path : bytes) (f0 : option bytes) : World :=
  mkWorld (newStore path) [] (mkDisk 0 false f0) [] [].

Definition issue (sn : Snapshot) (l : list Snapshot) : list Snapshot :=
  if seq sn =? 0 then l else l ++ [sn].

(** Any thread runs an operation under [mutex_], or commits a snapshot it carries under
    [writeMutex_]; the two locks are never held together, so commits happen in any order.
    Fewer than 2^64 snapshots are taken in one run. *)
Inductive disk_step : World -> World -> Prop :=
  | step_op w op :
      nextSeq_ (w_store w) < 2 ^ 64 - 1 ->
      disk_step w
        (mkWorld (exec_op (w_store w) op).2 (issue (exec_op (w_store w) op).1 (w_pending w))
           (w_disk w) (issue (exec_op (w_store w) op).1 (w_issued w)) (w_saved w))
  | step_commit w l1 sn l2 wrote :
      w_pending w = l1 ++ sn :: l2 ->
      disk_step w
        (mkWorld (w_store w) (l1 ++ l2) (commit (w_disk w) sn wrote) (w_issued w)
           (if (wrote : bool) then sn :: w_saved w else w_saved w)).

(** ** Specifications *)

Definition bypass_profile (p : bytes) : Prop := findProfile p <> None /\ p <> str "none".

Definition entry_ok (e : Entry) : Prop := bypass_profile (e_profile e) /\ e_confidence e <= 100.
Definition candidate_ok (c : Candidate) : Prop := bypass_profile (c_profile c).

(** What holds of the store at any moment: its tables are bounded, and nothing but known
    bypass profiles is ever remembered or nominated. *)
Record store_ok (s : Store) : Prop := {
  ok_entries_size : msize (entries_ s) <= kMaxRememberedHosts;
  ok_candidates_size : msize (candidates_ s) <= kMaxCandidates;
  ok_healthy_size : msize (healthyAt_ s) <= kMaxHealthyHosts;
  ok_entry : forall k e, entries_ s !! k = Some e -> entry_ok e;
  ok_candidate : forall k c, candidates_ s !! k = Some c -> candidate_ok c;
}.

(** A differential for the host behind [key], seen at monotonic time [t]. *)
Definition is_strike (key : bytes) (t : Z) (op : StoreOp) : Prop :=
  match op with
  | OpRemember n h p k _ now ck =>
      bypass_profile p /\ k = SniInterferenceLikely /\
      scopeKey n (normalizeHost h) = key /\ resolveMono now ck = t
  | _ => False
  end.

(** An operation that says the host behind [key] is fine, or drops what is known of it. *)
Definition is_cancel (key : bytes) (op : StoreOp) : Prop :=
  match op with
  | OpRemember n h p _ _ _ _ =>
      p = str "none" /\ normalizeHost h <> [] /\ scopeKey n (normalizeHost h) = key
  | OpNoteBaselineHealthy n h _ _ => scopeKey n h = key
  | OpForget h _ => ends_with key (str "|" ++ normalizeHost h) = true
  | OpClear _ => True
  | _ => False
  end.

(** The strike at time [t] is in the past of the trace and nothing cancelled it since. *)
Definition pending_strike (ops : list StoreOp) (key : bytes) (t : Z) : Prop :=
  exists pre op post, ops = pre ++ op :: post /\ is_strike key t op /\
    Forall (λ o, ~ is_cancel key o) post.

(** The clock readings of a trace stay below 2^63 seconds. *)
Definition clock_ok (op : StoreOp) : Prop :=
  match op with
  | OpRemember _ _ _ _ _ now ck => 0 <= resolveMono now ck < 2 ^ 63
  | _ => True
  end.

(** ** Lemmas: snapshots change nothing but the sequence number *)

Lemma snapshotLocked_same s ck :
  entries_ (snapshotLocked s ck).2 = entries_ s /\
  candidates_ (snapshotLocked s ck).2 = candidates_ s /\
  healthyAt_ (snapshotLocked s ck).2 = healthyAt_ s.
Proof. unfold snapshotLocked. by case_if. Qed.

Lemma store_ok_ext s s' :
  entries_ s' = entries_ s -> candidates_ s' = candidates_ s -> healthyAt_ s' = healthyAt_ s ->
  store_ok s -> store_ok s'.
Proof. intros E1 E2 E3 [? ? ? ? ?]. split; rewrite ?E1, ?E2, ?E3; eauto. Qed.

Lemma store_ok_snapshot s ck : store_ok s -> store_ok (snapshotLocked s ck).2.
Proof. destruct (snapshotLocked_same s ck) as (? & ? & ?). by apply store_ok_ext. Qed.

(** ** Lemmas: bounds *)

Lemma msize_insert_room {V} (m : gmap bytes V) k v c :
  msize m <= c - 1 -> msize (<[k := v]> m) <= c.
Proof. intros. pose proof (msize_insert_le m k v). lia. Qed.

Lemma makeRoomForEntry_size now m :
  msize m <= kMaxRememberedHosts ->
  msize (makeRoomForEntryLocked now m) <= kMaxRememberedHosts - 1.
Proof.
  intros H. unfold makeRoomForEntryLocked. case_if; zbool; [lia |]. case_if; zbool; [lia |].
  apply msize_erase_min_room; [done |].
  pose proof (msize_erase_if (λ _ e, expiresAt e <=? now) m). lia.
Qed.

Lemma makeRoomForEntry_sub now m : makeRoomForEntryLocked now m ⊆ m.
Proof.
  unfold makeRoomForEntryLocked. case_if; [done |]. case_if; [apply erase_if_subseteq |].
  etrans; [apply erase_min_subseteq | apply erase_if_subseteq].
Qed.

Lemma makeRoomForCandidate_size now mono m :
  msize m <= kMaxCandidates ->
  msize (makeRoomForCandidateLocked now mono m) <= kMaxCandidates - 1.
Proof.
  intros H. unfold makeRoomForCandidateLocked. case_if; zbool; [lia |]. case_if; zbool; [lia |].
  apply msize_erase_min_room; [done |].
  pose proof (msize_erase_if (λ _ c, negb (candidateLive c now mono)) m). lia.
Qed.

Lemma makeRoomForCandidate_sub now mono m : makeRoomForCandidateLocked now mono m ⊆ m.
Proof.
  unfold makeRoomForCandidateLocked. case_if; [done |]. case_if; [apply erase_if_subseteq |].
  etrans; [apply erase_min_subseteq | apply erase_if_subseteq].
Qed.

Lemma msize_erase_begin m c :
  0 < c -> msize m <= c -> msize (erase_begin m) <= c - 1.
Proof.
  intros Hc Hm. unfold erase_begin. destruct (iter m) as [|[k v] l] eqn:E.
  - apply iter_nil in E as ->. rewrite msize_empty. lia.
  - assert (m !! k = Some v) as Hk by (apply iter_In; rewrite E; by left). simpl.
    unfold msize in *. rewrite map_size_delete, Hk. simpl.
    assert (size m <> 0%nat) by (apply map_size_ne_0_lookup; eauto). lia.
Qed.

(** ** Lemmas: one field at a time *)

Lemma set_entries_ok s k e :
  store_ok s -> entry_ok e -> is_Some (entries_ s !! k) ->
  store_ok (setEntries s (<[k := e]> (entries_ s))).
Proof.
  intros [H1 H2 H3 H4 H5] He [e' Hk]. split; simpl; try done.
  - by rewrite (msize_insert_Some _ _ _ _ Hk).
  - intros k' e0. rewrite lookup_insert_Some. intros [[_ <-]|[_ ?]]; eauto.
Qed.

Lemma shrink_ok s es cs :
  store_ok s -> es ⊆ entries_ s -> cs ⊆ candidates_ s ->
  store_ok (setCandidates (setEntries s es) cs).
Proof.
  intros [H1 H2 H3 H4 H5] He Hc. split; simpl; try done.
  - pose proof (msize_subseteq _ _ He). lia.
  - pose proof (msize_subseteq _ _ Hc). lia.
  - intros k e Hk. eapply H4, lookup_weaken; eauto.
  - intros k c Hk. eapply H5, lookup_weaken; eauto.
Qed.

Lemma set_candidate_ok s k c m :
  store_ok s -> candidate_ok c -> m ⊆ candidates_ s ->
  msize (<[k := c]> m) <= kMaxCandidates ->
  store_ok (setCandidates s (<[k := c]> m)).
Proof.
  intros [H1 H2 H3 H4 H5] Hc Hm Hs. split; simpl; try done.
  intros k' c0. rewrite lookup_insert_Some. intros [[_ <-]|[_ ?]]; [done |].
  eapply H5, lookup_weaken; eauto.
Qed.

Lemma learnEntry_ok s key p k conf now :
  store_ok s -> bypass_profile p -> store_ok (learnEntry s key p k conf now).
Proof.
  intros [H1 H2 H3 H4 H5] Hp. unfold learnEntry. split; simpl; try done.
  - destruct (entries_ s !! key) eqn:E; [by rewrite (msize_insert_Some _ _ _ _ E) |].
    by apply msize_insert_room, makeRoomForEntry_size.
  - pose proof (msize_delete_le (candidates_ s) key). lia.
  - intros k' e0. rewrite lookup_insert_Some. intros [[_ <-]|[_ Hl]].
    + split; simpl; [done | lia].
    + destruct (entries_ s !! key); [by eauto |].
      eapply H4, lookup_weaken; [exact Hl | apply makeRoomForEntry_sub].
  - intros k' c. rewrite lookup_delete_Some. intros [_ ?]. eauto.
Qed.

Lemma strike_ok s key p now mono :
  store_ok s -> bypass_profile p ->
  match strike s key p now mono with inl s' => store_ok s' | inr s' => store_ok s' end.
Proof.
  intros Hs Hp. pose proof (ok_candidates_size s Hs). unfold strike.
  destruct (candidates_ s !! key) as [c|] eqn:E.
  - assert (Hdel : delete key (candidates_ s) ⊆ candidates_ s) by apply delete_subseteq.
    repeat case_if.
    1-2: apply set_candidate_ok; try done; by rewrite (msize_insert_Some _ _ _ _ E).
    + apply (shrink_ok s (entries_ s)); done.
    + apply set_candidate_ok; try done.
      * etrans; [apply makeRoomForCandidate_sub | done].
      * apply msize_insert_room, makeRoomForCandidate_size.
        pose proof (msize_subseteq _ _ Hdel). lia.
  - apply set_candidate_ok; try done; [apply makeRoomForCandidate_sub |].
    by apply msize_insert_room, makeRoomForCandidate_size.
Qed.

Lemma rememberLocked_ok s n h p k conf now ck :
  store_ok s -> store_ok (rememberLocked s n h p k conf now ck).1.2.
Proof.
  intros Hs. unfold rememberLocked. cbv zeta. case_if; [done |].
  apply orb_false_iff in E as [_ Hf]. zbool.
  case_if; [apply shrink_ok; [done | apply delete_subseteq ..] |]. zbool.
  assert (Hp : bypass_profile p) by done.
  case_if; [done |].
  set (key := scopeKey n (normalizeHost h)). set (nw := resolveNow now ck).
  destruct (entries_ s !! key) as [e|] eqn:Ee.
  - pose proof (ok_entry s Hs key e Ee) as [Hep Hec].
    case_if.
    + repeat case_if; try done. apply set_entries_ok; eauto. done.
    + destruct (if nw <? expiresAt e then Some e else None) as [e'|] eqn:El.
      * assert (e' = e) as -> by (case_if_in El; congruence).
        case_if.
        -- apply set_entries_ok; [done | | by eauto]. split; simpl; [done |]. case_if; lia.
        -- case_if; [|by apply learnEntry_ok].
           pose proof (strike_ok s key p nw (resolveMono now ck) Hs Hp) as Hk.
           destruct (strike _ _ _ _ _); [done | by apply learnEntry_ok].
      * case_if; [|by apply learnEntry_ok].
        pose proof (strike_ok s key p nw (resolveMono now ck) Hs Hp) as Hk.
        destruct (strike _ _ _ _ _); [done | by apply learnEntry_ok].
  - case_if; [done |]. case_if; [|by apply learnEntry_ok].
    pose proof (strike_ok s key p nw (resolveMono now ck) Hs Hp) as Hk.
    destruct (strike _ _ _ _ _); [done | by apply learnEntry_ok].
Qed.

Lemma remember_state s n h p k conf now ck :
  let s1 := (rememberLocked s n h p k conf now ck).1.2 in
  let s2 := (remember s n h p k conf now ck).2 in
  (remember s n h p k conf now ck).1.1 = (rememberLocked s n h p k conf now ck).1.1 /\
  entries_ s2 = entries_ s1 /\ candidates_ s2 = candidates_ s1 /\ healthyAt_ s2 = healthyAt_ s1.
Proof.
  unfold remember. destruct (rememberLocked _ _ _ _ _ _ _ _) as [[o s1] []]; simpl; [|done].
  pose proof (snapshotLocked_same s1 ck). destruct (snapshotLocked s1 ck). done.
Qed.

Lemma remember_ok s n h p k conf now ck :
  store_ok s -> store_ok (remember s n h p k conf now ck).2.
Proof.
  intros Hs. destruct (remember_state s n h p k conf now ck) as (_ & ? & ? & ?).
  eapply store_ok_ext; eauto. by apply rememberLocked_ok.
Qed.

Lemma noteBaselineHealthy_ok s n h now ck :
  store_ok s -> store_ok (noteBaselineHealthy s n h now ck).2.
Proof.
  intros Hs. unfold noteBaselineHealthy. cbv zeta. set (key := scopeKey n h).
  assert (Hmid : forall sn s', (sn, s') = match candidates_ s !! key with
    | Some c => if persistUntil c =? 0 then (noSnapshot, setCandidates s (delete key (candidates_ s)))
                else snapshotLocked (setCandidates s (delete key (candidates_ s))) ck
    | None => (noSnapshot, s) end -> store_ok s').
  { assert (Hd : store_ok (setCandidates s (delete key (candidates_ s)))).
    { apply (shrink_ok s (entries_ s)); [done | done | apply delete_subseteq]. }
    intros sn s' E. destruct (candidates_ s !! key); [case_if_in E |].
    - by injection E as -> ->.
    - pose proof (store_ok_snapshot _ ck Hd) as Hd'. by rewrite <- E in Hd'.
    - by injection E as -> ->. }
  destruct (match candidates_ s !! key with Some _ => _ | None => _ end) as [sn s'] eqn:E.
  specialize (Hmid sn s' eq_refl). destruct Hmid as [H1 H2 H3 H4 H5]. clear E.
  split; simpl; try done. unfold kMaxHealthyHosts in *.
  case_if; zbool.
  - apply msize_insert_room.
    match goal with |- context [ erase_if ?f (healthyAt_ s') ] =>
      pose proof (msize_erase_if f (healthyAt_ s')) end.
    case_if; zbool; [apply msize_erase_begin; lia | lia].
  - destruct (healthyAt_ s' !! key) eqn:Ek.
    + by rewrite (msize_insert_Some _ _ _ _ Ek).
    + apply msize_insert_room. destruct E as [E|E]; zbool; [lia |].
      by apply is_Some_None in E.
Qed.

Lemma recordFailure_ok s n h p ck : store_ok s -> store_ok (recordFailure s n h p ck).2.
Proof.
  intros Hs. unfold recordFailure. cbv zeta.
  destruct (entries_ s !! scopeKey n h) as [e|] eqn:Ee; [|done]. case_if; [done |].
  apply store_ok_snapshot. pose proof (ok_entry s Hs _ e Ee) as [Hep Hec]. case_if.
  - eapply store_ok_ext, (shrink_ok s (delete (scopeKey n h) (entries_ s)) (candidates_ s));
      [done .. | apply delete_subseteq | done].
  - apply set_entries_ok; [done | | by eauto]. split; simpl; [done |]. case_if; lia.
Qed.

Lemma forget_ok s h ck : store_ok s -> store_ok (forget s h ck).2.
Proof.
  intros Hs. unfold forget. cbv zeta.
  assert (Hd := shrink_ok s _ _ Hs (erase_if_subseteq (λ k _, ends_with k (str "|" ++ normalizeHost h)) _)
    (erase_if_subseteq (λ k _, ends_with k (str "|" ++ normalizeHost h)) _)).
  case_if; [by apply store_ok_snapshot | done].
Qed.

Lemma clear_ok s ck : store_ok (clear s ck).2.
Proof.
  apply store_ok_snapshot. split; simpl; rewrite ?msize_empty; try done; intros ? ? H;
    by rewrite lookup_empty in H.
Qed.

Lemma probeState_ok s key now mono : store_ok s -> store_ok (probeState s key now mono).2.
Proof.
  intros Hs. unfold probeState. cbv zeta.
  assert (Ha : store_ok (match candidates_ s !! key with
    | Some c => if candidateLive c now mono then (@nil Z, c_profile c, false, s) else ([], [], false, s)
    | None => ([], [], false, s) end).2) by (destruct (candidates_ s !! key); [case_if |]; done).
  destruct (entries_ s !! key) as [e|] eqn:Ee; [|done]. case_if; [|done]. case_if; [|done].
  apply set_entries_ok; [done | exact (ok_entry s Hs key e Ee) | by eauto].
Qed.

Lemma probeOrder_ok s n h hello now ck : store_ok s -> store_ok (probeOrder s n h hello now ck).2.
Proof.
  intros Hs. unfold probeOrder. case_if; [done |].
  pose proof (probeState_ok s (scopeKey n h) (resolveNow now ck) (resolveMono now ck) Hs).
  destruct (probeState _ _ _ _) as [[[??]?]?]. done.
Qed.

(** ** Lemmas: loading *)

Definition tables_ok (t : gmap bytes Entry * gmap bytes Candidate) : Prop :=
  msize t.1 <= kMaxRememberedHosts /\ msize t.2 <= kMaxCandidates /\
  (forall k e, t.1 !! k = Some e -> entry_ok e) /\
  (forall k c, t.2 !! k = Some c -> candidate_ok c).

Lemma loadRecord_ok t tables key encoded :
  tables_ok tables -> tables_ok (loadRecord t tables key encoded).
Proof.
  destruct tables as [es cs]. intros (H1 & H2 & H3 & H4). unfold loadRecord.
  case_if; [done |]. repeat (apply orb_false_iff in E as [E ?]). zbool.
  assert (Hp : bypass_profile (e_profile (loadEntry t (splitFields encoded)))) by done.
  cbv zeta. repeat case_if; try done; zbool; split_and!; simpl; try done.
  - apply msize_insert_room. lia.
  - intros k c. rewrite lookup_insert_Some. intros [[_ <-]|[_ ?]]; [done | eauto].
  - apply msize_insert_room. lia.
  - intros k e. rewrite lookup_insert_Some. intros [[_ <-]|[_ ?]]; [|eauto].
    split; [done |]. simpl. lia.
Qed.

Lemma load_loop_ok fuel t domains pos tables r :
  tables_ok tables -> load_loop fuel t domains pos tables = Some r -> tables_ok r.
Proof.
  revert pos tables. induction fuel as [|f IH]; intros pos tables Ht; [done |].
  cbn [load_loop]. cbv zeta. destruct (domains !! skipWs domains pos); [|by intros [= <-]].
  case_if; [by intros [= <-] |]. case_if; [by apply IH |]. case_if; [by intros [= <-] |].
  destruct (parseString _ _). case_if; [by intros [= <-] |]. case_if; [by intros [= <-] |].
  destruct (parseString _ _). case_if; [by intros [= <-] |].
  apply IH. by apply loadRecord_ok.
Qed.

(** [load] always terminates: every turn of its loop consumes a byte of the file. *)
Lemma load_loop_total fuel t domains pos tables :
  (length domains < fuel + pos)%nat -> (0 < fuel)%nat -> exists r, load_loop fuel t domains pos tables = Some r.
Proof.
  revert pos tables. induction fuel as [|f IH]; intros pos tables Hf H0; [lia |].
  cbn [load_loop]. cbv zeta. destruct (skipWs_bounds domains pos) as [Hw _].
  destruct (domains !! skipWs domains pos) as [c|] eqn:E; [|eauto].
  pose proof (lookup_lt_Some _ _ _ E). case_if; [eauto |]. case_if; [apply IH; lia |].
  case_if; [eauto |]. zbool. subst c. pose proof (parseString_advance _ _ E).
  destruct (parseString domains (skipWs domains pos)) as [key e]. cbn [snd] in *. case_if; [eauto |].
  destruct (skipWs_bounds domains e) as [Hw2 _].
  destruct (skipWs_bounds domains (S (skipWs domains e))) as [Hw3 _]. case_if; [eauto |].
  apply negb_false_iff, bool_decide_eq_true in E3. pose proof (parseString_advance _ _ E3).
  destruct (parseString domains _) as [encoded e']. cbn [snd] in *. case_if; [eauto |]. apply IH; lia.
Qed.

Lemma load_ok s content t : store_ok s -> store_ok (load s content t).
Proof.
  intros Hs. unfold load. case_if; [done |]. destruct content as [c|]; [|done].
  cbv zeta. case_if; [done |].
  assert (He : tables_ok (∅, ∅)).
  { split_and!; simpl; rewrite ?msize_empty; try done; intros ? ? H; by rewrite lookup_empty in H. }
  set (domains := getRaw c _). destruct (load_loop_total (S (length domains)) t domains 1 (∅, ∅)) as [r El]; [lia | lia |].
  rewrite El. simpl. destruct (load_loop_ok _ _ _ _ _ _ He El) as (? & ? & ? & ?). destruct Hs. by split.
Qed.

Lemma run_op_ok s op : store_ok s -> store_ok (run_op s op).
Proof.
  unfold run_op. destruct op; simpl; eauto using load_ok, remember_ok, noteBaselineHealthy_ok,
    recordFailure_ok, forget_ok, clear_ok, probeOrder_ok.
Qed.

Lemma newStore_ok path : store_ok (newStore path).
Proof.
  split; simpl; rewrite ?msize_empty; try done; intros ? ? H; by rewrite lookup_empty in H.
Qed.

Lemma run_ops_ok ops s : store_ok s -> store_ok (run_ops s ops).
Proof. revert s. induction ops as [|op ops IH]; intros s Hs; [done |]. by apply IH, run_op_ok. Qed.

(** ** Lemmas: where a strike comes from *)

(** How one operation can leave a struck candidate behind: it is a strike itself, or the
    candidate was there before and the operation does not cancel it. *)
Definition strike_step (s s' : Store) (op : StoreOp) : Prop :=
  forall k c', candidates_ s' !! k = Some c' -> firstStrikeAt c' <> 0 ->
    (is_strike k (firstStrikeAt c') op /\
     c_expiresAt c' = w64 (firstStrikeAt c' + kCandidateTtlSeconds)) \/
    (exists c, candidates_ s !! k = Some c /\ firstStrikeAt c = firstStrikeAt c' /\
       c_expiresAt c = c_expiresAt c' /\ ~ is_cancel k op).

Lemma strike_step_sub s s' op :
  candidates_ s' ⊆ candidates_ s ->
  (forall k c, candidates_ s' !! k = Some c -> ~ is_cancel k op) -> strike_step s s' op.
Proof.
  intros Hs Hc k c' Hk _. right. exists c'. split_and!; try done; [|by eauto].
  by eapply lookup_weaken.
Qed.

Lemma strike_candidates s key p now mono :
  match strike s key p now mono with
  | inl s' => forall k c', candidates_ s' !! k = Some c' -> firstStrikeAt c' <> 0 ->
      (k = key /\ firstStrikeAt c' = mono /\ c_expiresAt c' = w64 (mono + kCandidateTtlSeconds)) \/
      (exists c, candidates_ s !! k = Some c /\ firstStrikeAt c = firstStrikeAt c' /\
         c_expiresAt c = c_expiresAt c')
  | inr s' => candidates_ s' = delete key (candidates_ s) /\ entries_ s' = entries_ s /\
      exists c, candidates_ s !! key = Some c /\ firstStrikeAt c <> 0 /\
        w64 (firstStrikeAt c + kConfirmMinGapSeconds) <= mono < c_expiresAt c
  end.
Proof.
  unfold strike. destruct (candidates_ s !! key) as [c|] eqn:E.
  - unfold candidateLive. destruct (firstStrikeAt c =? 0) eqn:E0; zbool.
    + case_if; intros k c'; simpl; rewrite lookup_insert_Some; intros [[<- <-]|[_ Hl]] Hne;
        [by left | by right; eauto | by left | right].
      exists c'. split_and!; try done. eapply lookup_weaken; [exact Hl |].
      etrans; [apply makeRoomForCandidate_sub | apply delete_subseteq].
    + case_if; zbool.
      * case_if; zbool.
        -- intros k c'. simpl. rewrite lookup_insert_Some.
           intros [[<- <-]|[_ Hl]] Hne; right; eauto.
        -- split_and!; try done. exists c. auto.
      * intros k c'. simpl. rewrite lookup_insert_Some.
        intros [[<- <-]|[_ Hl]] Hne; [by left | right].
        exists c'. split_and!; try done. eapply lookup_weaken; [exact Hl |].
        etrans; [apply makeRoomForCandidate_sub | apply delete_subseteq].
  - intros k c'. simpl. rewrite lookup_insert_Some.
    intros [[<- <-]|[_ Hl]] Hne; [by left | right].
    exists c'. split_and!; try done. eapply lookup_weaken; [exact Hl |].
    apply makeRoomForCandidate_sub.
Qed.

(** The branch of [rememberLocked] behind the cache hits, for a bypass profile. *)
Lemma rememberLocked_cases s n h p k conf now ck :
  let key := scopeKey n (normalizeHost h) in
  let r := rememberLocked s n h p k conf now ck in
  (candidates_ r.1.2 = candidates_ s /\ r.1.1 <> Learned /\
     (p = str "none" -> normalizeHost h = [])) \/
  (p = str "none" /\ normalizeHost h <> [] /\ r.1.1 <> Learned /\
     candidates_ r.1.2 = delete key (candidates_ s)) \/
  (bypass_profile p /\ k <> SniInterferenceLikely /\
     r.1 = (Learned, learnEntry s key p k conf (resolveNow now ck))) \/
  (bypass_profile p /\ k = SniInterferenceLikely /\
     r.1 = match strike s key p (resolveNow now ck) (resolveMono now ck) with
           | inl s' => (OCandidate, s')
           | inr s' => (Learned, learnEntry s' key p k conf (resolveNow now ck))
           end).
Proof.
  cbv zeta. unfold rememberLocked. cbv zeta. case_if.
  { left. split_and!; try done. intros ->. apply orb_true_iff in E as [?|?]; by zbool. }
  apply orb_false_iff in E as [Hh Hf]. zbool. case_if; zbool.
  { right; left. split_and!; try done. by case_if. }
  assert (Hp : bypass_profile p) by done. case_if; [by left |]. zbool.
  set (live := match entries_ s !! _ with Some _ => _ | None => _ end).
  destruct live as [e|]; case_if; zbool.
  - by repeat case_if; left; split_and!.
  - case_if; [by left |]. right; right. case_if; zbool; [right | by left].
    split_and!; try done. by destruct (strike _ _ _ _ _).
  - by left.
  - right; right. case_if; zbool; [right | by left].
    split_and!; try done. by destruct (strike _ _ _ _ _).
Qed.

Lemma remember_strike_step s n h p k conf now ck :
  strike_step s (remember s n h p k conf now ck).2 (OpRemember n h p k conf now ck).
Proof.
  destruct (remember_state s n h p k conf now ck) as (_ & _ & Ec & _).
  assert (Hx : strike_step s (rememberLocked s n h p k conf now ck).1.2
    (OpRemember n h p k conf now ck)); [|by unfold strike_step in *; rewrite Ec].
  clear Ec. destruct (rememberLocked_cases s n h p k conf now ck)
    as [(Ec & _ & Hl)|[(-> & Hh & _ & Ec)|[(Hp & Hk & Ec)|(Hp & Hk & Ec)]]].
  - apply strike_step_sub; [by rewrite Ec |]. intros k' c _ (-> & Hh & _). auto.
  - apply strike_step_sub; rewrite Ec; [apply delete_subseteq |].
    intros k' c. rewrite lookup_delete_Some. intros [? _] (_ & _ & ?). done.
  - apply strike_step_sub; rewrite Ec; [apply delete_subseteq |].
    intros k' c _ (-> & _). by destruct Hp.
  - rewrite Ec. pose proof (strike_candidates s (scopeKey n (normalizeHost h)) p
      (resolveNow now ck) (resolveMono now ck)) as Hst.
    destruct (strike _ _ _ _ _) as [s'|s']; simpl.
    + intros k' c' Hc Hne. destruct (Hst k' c' Hc Hne) as [(-> & Ht & He)|(c & ? & ? & ?)].
      * left. by rewrite Ht.
      * right. exists c. split_and!; try done. intros (-> & _). by destruct Hp.
    + destruct Hst as (Ec' & _). apply (strike_step_sub s); simpl; rewrite Ec'.
      * etrans; apply delete_subseteq.
      * intros ? ? _ (-> & _). by destruct Hp.
Qed.

Lemma strike_step_snapshot s s' ck op :
  strike_step s s' op -> strike_step s (snapshotLocked s' ck).2 op.
Proof. unfold strike_step. by rewrite (proj1 (proj2 (snapshotLocked_same s' ck))). Qed.

Lemma loadRecord_strikes t tables key encoded :
  (forall k c, tables.2 !! k = Some c -> firstStrikeAt c = 0) ->
  forall k c, (loadRecord t tables key encoded).2 !! k = Some c -> firstStrikeAt c = 0.
Proof.
  destruct tables as [es cs]. intros H k c. unfold loadRecord. cbv zeta.
  repeat case_if; eauto. simpl. rewrite lookup_insert_Some. intros [[_ <-]|[_ ?]]; [done | eauto].
Qed.

Lemma load_loop_strikes fuel t domains pos tables r :
  (forall k c, tables.2 !! k = Some c -> firstStrikeAt c = 0) ->
  load_loop fuel t domains pos tables = Some r ->
  forall k c, r.2 !! k = Some c -> firstStrikeAt c = 0.
Proof.
  revert pos tables. induction fuel as [|f IH]; intros pos tables Ht; [done |].
  cbn [load_loop]. cbv zeta. destruct (domains !! skipWs domains pos); [|by intros [= <-]].
  case_if; [by intros [= <-] |]. case_if; [by apply IH |]. case_if; [by intros [= <-] |].
  destruct (parseString _ _). case_if; [by intros [= <-] |]. case_if; [by intros [= <-] |].
  destruct (parseString _ _). case_if; [by intros [= <-] |].
  apply IH. by apply loadRecord_strikes.
Qed.

Lemma load_strike_step s content t : strike_step s (load s content t) (OpLoad content t).
Proof.
  assert (Hsame : strike_step s s (OpLoad content t)) by (apply strike_step_sub; auto).
  unfold load. case_if; [done |]. destruct content as [c|]; [|done]. cbv zeta. case_if; [done |].
  intros k c' Hk Hne. exfalso. apply Hne. revert Hk. cbn [candidates_].
  destruct (load_loop _ _ _ _ _) as [r|] eqn:El; cbn [default from_option id snd].
  - eapply load_loop_strikes, El. intros ? ? H. cbn [snd] in H. by rewrite lookup_empty in H.
  - by rewrite lookup_empty.
Qed.

Lemma note_strike_step s n h now ck :
  strike_step s (noteBaselineHealthy s n h now ck).2 (OpNoteBaselineHealthy n h now ck).
Proof.
  unfold noteBaselineHealthy. cbv zeta. set (key := scopeKey n h).
  assert (Hd : strike_step s (setCandidates s (delete key (candidates_ s)))
    (OpNoteBaselineHealthy n h now ck)).
  { apply strike_step_sub; simpl; [apply delete_subseteq |].
    intros k c. rewrite lookup_delete_Some. by intros [? _]. }
  destruct (candidates_ s !! key) as [c|] eqn:E; [case_if |].
  - exact Hd.
  - pose proof (strike_step_snapshot _ _ ck _ Hd) as Hd'.
    destruct (snapshotLocked _ ck) as [sn s']. exact Hd'.
  - apply strike_step_sub; [done |]. simpl. intros k c Hk <-. unfold key in E. congruence.
Qed.

Lemma forget_strike_step s h ck : strike_step s (forget s h ck).2 (OpForget h ck).
Proof.
  unfold forget. cbv zeta.
  match goal with |- context [ snapshotLocked ?s' ck ] =>
    assert (Hd : strike_step s s' (OpForget h ck)) end.
  { apply strike_step_sub; simpl; [apply erase_if_subseteq |].
    intros k c [_ Hk]%lookup_erase_if. by rewrite Hk. }
  case_if; [by apply strike_step_snapshot | exact Hd].
Qed.

Lemma probeOrder_candidates s n h hello now ck :
  candidates_ (probeOrder s n h hello now ck).2 = candidates_ s.
Proof.
  unfold probeOrder, probeState. case_if; [done |]. cbv zeta.
  destruct (entries_ s !! _); [|destruct (candidates_ s !! _); [case_if |]; done].
  case_if; [by case_if |]. destruct (candidates_ s !! _); [case_if |]; done.
Qed.

Lemma run_op_strike_step s op : strike_step s (run_op s op) op.
Proof.
  unfold run_op. destruct op; simpl.
  - apply load_strike_step.
  - apply remember_strike_step.
  - apply note_strike_step.
  - unfold recordFailure. cbv zeta. apply strike_step_sub; [|by auto].
    destruct (entries_ s !! _); [|done]. case_if; [done |].
    rewrite (proj1 (proj2 (snapshotLocked_same _ _))). by case_if.
  - apply forget_strike_step.
  - apply strike_step_snapshot. intros k c H. simpl in H. by rewrite lookup_empty in H.
  - apply strike_step_sub; [by rewrite probeOrder_candidates | by auto].
Qed.

(** Every struck candidate of a reachable store has its strike in the trace, with no
    healthy baseline for that host (and no reset) since. *)
Lemma run_ops_strikes path ops k c :
  candidates_ (run_ops (newStore path) ops) !! k = Some c -> firstStrikeAt c <> 0 ->
  pending_strike ops k (firstStrikeAt c) /\
  c_expiresAt c = w64 (firstStrikeAt c + kCandidateTtlSeconds).
Proof.
  revert k c. induction ops as [|op ops IH] using rev_ind; intros k c Hk Hne.
  - simpl in Hk. by rewrite lookup_empty in Hk.
  - unfold run_ops in *. rewrite foldl_app in Hk. simpl in Hk.
    destruct (run_op_strike_step _ op k c Hk Hne) as [[Hs He]|(c0 & Hc0 & Ht & He & Hn)].
    + split; [|done]. exists ops, op, []. split_and!; [done | done | constructor].
    + destruct (IH k c0 Hc0 ltac:(congruence)) as [(pre & o & post & -> & Ho & Hp) He0].
      split; [|congruence]. exists pre, o, (post ++ [op]). rewrite <- app_assoc.
      split_and!; [done | congruence |]. apply Forall_app. by repeat constructor.
Qed.

Lemma strike_clock k t op : is_strike k t op -> clock_ok op -> 0 <= t < 2 ^ 63.
Proof. destruct op; simpl; try done. by intros (_ & _ & _ & <-). Qed.

(** ** Lemmas: probe order *)

Lemma NoDup_fmap_filter {A B} (f : A -> B) g (l : list A) :
  NoDup (f <$> l) -> NoDup (f <$> List.filter g l).
Proof.
  induction l as [|x l IH]; simpl; [done |]. rewrite NoDup_cons. intros [Hx Hl].
  destruct (g x); [|auto]. simpl. apply NoDup_cons. split; [|auto].
  intros (y & Hy & Hin)%list_elem_of_fmap. apply Hx. apply list_elem_of_fmap. exists y.
  split; [done |]. apply list_elem_of_In. by apply list_elem_of_In, filter_In in Hin as [? _].
Qed.

Lemma tableRest_elem lead q hello x :
  x ∈ tableRest lead q hello <->
  exists p, In p profileTable /\ profile_name p = x /\ x <> lead /\
    (q = true -> x <> str "none") /\ (requiresSni p = true -> hasSni hello = true).
Proof.
  unfold tableRest. rewrite list_elem_of_fmap. split.
  - intros (p & -> & Hp). apply list_elem_of_In, filter_In in Hp as [Hin Hp]. exists p.
    apply andb_true_iff in Hp as [[H1 H2]%andb_true_iff H3]. split_and!; try done.
    + by apply negb_true_iff, bool_decide_eq_false in H1.
    + intros ->. by apply negb_true_iff, bool_decide_eq_false in H2.
    + intros Hr. rewrite Hr in H3. by destruct (hasSni hello).
  - intros (p & Hin & <- & Hl & Hn & Hs). exists p. split; [done |].
    apply list_elem_of_In, filter_In. split; [done |].
    rewrite bool_decide_eq_false_2 by done. cbn [negb andb]. apply andb_true_iff. split.
    + destruct q; [|done]. by rewrite bool_decide_eq_false_2 by auto.
    + destruct (requiresSni p); [|done]. by rewrite Hs.
Qed.

Lemma tableRest_NoDup lead q hello : NoDup (tableRest lead q hello).
Proof. apply NoDup_fmap_filter. apply (bool_decide_unpack _). vm_compute. exact I. Qed.

Lemma orderFor_NoDup remembered pending reverify hello :
  remembered <> str "none" -> pending <> str "none" ->
  NoDup (orderFor remembered pending reverify hello).
Proof.
  intros Hr Hp.
  assert (Hlead : forall lead q, lead ∉ tableRest lead q hello)
    by (intros lead q (p & _ & _ & ? & _)%tableRest_elem; done).
  assert (Hnone : forall lead, str "none" ∉ tableRest lead true hello)
    by (intros lead (p & _ & _ & _ & H & _)%tableRest_elem; by apply H).
  assert (Hfront : forall lead, lead <> str "none" ->
    NoDup ([str "none"; lead] ++ tableRest lead true hello)).
  { intros lead Hne. simpl. rewrite !NoDup_cons, elem_of_cons. split; [|by auto using tableRest_NoDup].
    intros [?|?]; [done | by eapply Hnone]. }
  unfold orderFor. case_if; [case_if |case_if].
  - by apply Hfront.
  - simpl. apply NoDup_cons. auto using tableRest_NoDup.
  - by apply Hfront.
  - apply tableRest_NoDup.
Qed.

Lemma table_names p :
  In p profileTable -> profile_name p <> [] /\ is_Some (findProfile (profile_name p)).
Proof.
  intros Hin. assert (H : forallb (λ p, negb (bool_decide (profile_name p = [])) &&
    bool_decide (is_Some (findProfile (profile_name p)))) profileTable = true) by (vm_compute; done).
  rewrite forallb_forall in H. specialize (H p Hin). apply andb_true_iff in H as [H1 H2]. by zbool.
Qed.

Lemma orderFor_complete remembered pending reverify hello p :
  In p profileTable -> (requiresSni p = true -> hasSni hello = true) ->
  profile_name p ∈ orderFor remembered pending reverify hello.
Proof.
  intros Hin Hs.
  assert (Hrest : forall lead q, profile_name p = lead \/ (q = true /\ profile_name p = str "none") \/
    profile_name p ∈ tableRest lead q hello).
  { intros lead q. destruct (decide (profile_name p = lead)); [by left |]. right.
    destruct q; [destruct (decide (profile_name p = str "none")); [by left |] |];
      right; apply tableRest_elem; exists p; auto. }
  unfold orderFor. repeat case_if; zbool; simpl; rewrite ?elem_of_cons.
  - destruct (Hrest remembered true) as [?|[[_ ?]|?]]; auto.
  - destruct (Hrest remembered false) as [?|[[? _]|?]]; auto. done.
  - destruct (Hrest pending true) as [?|[[_ ?]|?]]; auto.
  - destruct (Hrest [] false) as [En|[[? _]|?]]; [|done|auto].
    exfalso. revert En. by apply table_names.
Qed.

Lemma orderFor_sound remembered pending reverify hello x :
  x ∈ orderFor remembered pending reverify hello ->
  (x <> [] /\ (x = remembered \/ x = pending)) \/ is_Some (findProfile x).
Proof.
  assert (Hrest : forall lead q, x ∈ tableRest lead q hello -> is_Some (findProfile x)).
  { intros lead q (p & Hin & <- & _)%tableRest_elem. by apply table_names. }
  assert (Hnone : x = str "none" -> is_Some (findProfile x)) by (intros ->; by eexists).
  unfold orderFor. repeat case_if; zbool; simpl; rewrite ?elem_of_cons; intros H;
    intuition (subst; eauto).
Qed.

(** ** Lemmas: keys and lookups *)

Lemma drop_dots_head l : head (drop_dots l) <> Some 46.
Proof.
  induction l as [|c l IH]; [done |]. simpl.
  destruct c as [|c|c]; try done. repeat (destruct c as [c|c|]; try done).
Qed.

Lemma drop_dots_id l : head l <> Some 46 -> drop_dots l = l.
Proof.
  destruct l as [|c l]; [done |]. intros H. simpl in *.
  destruct c as [|c|c]; try done. repeat (destruct c as [c|c|]; try done).
Qed.

Lemma tolower_idem c : tolower (tolower c) = tolower c.
Proof. unfold tolower. repeat case_if; zbool; try lia. Qed.

Lemma tolower_dot c : tolower c = 46 -> c = 46.
Proof. unfold tolower. case_if; zbool; lia. Qed.

Lemma normalizeHost_idem h : normalizeHost (normalizeHost h) = normalizeHost h.
Proof.
  unfold normalizeHost. set (l := drop_dots (reverse h)).
  assert (Hl : head l <> Some 46) by apply drop_dots_head.
  rewrite <- fmap_reverse, reverse_involutive, drop_dots_id.
  - rewrite <- fmap_reverse, <- list_fmap_compose. apply list_fmap_ext.
    intros _ x _. apply tolower_idem.
  - destruct l as [|c l]; [done |]. simpl in *. intros [= H%tolower_dot]. by rewrite H in Hl.
Qed.

Lemma scopeKey_normalized n h : scopeKey n (normalizeHost h) = scopeKey n h.
Proof. unfold scopeKey. by rewrite normalizeHost_idem. Qed.

(** What [remember] leaves under the host's key when it learns or re-proves a winner. *)
Lemma remember_winner s n h p k conf now ck :
  let r := remember s n h p k conf now ck in
  r.1.1 = Learned \/ r.1.1 = Reverified ->
  exists e, entries_ r.2 !! scopeKey n h = Some e /\ e_profile e = p /\
    expiresAt e = w64 (resolveNow now ck + kLearningTtlSeconds) /\
    verifiedAt e = resolveNow now ck /\ failures e = 0.
Proof.
  cbv zeta. destruct (remember_state s n h p k conf now ck) as (-> & -> & _).
  unfold rememberLocked. cbv zeta. case_if; [by intros [|] |].
  case_if; [case_if; by intros [|] |]. case_if; [by intros [|] |].
  rewrite scopeKey_normalized. set (key := scopeKey n h).
  assert (Hlearn : forall s', exists e,
    entries_ (learnEntry s' key p k conf (resolveNow now ck)) !! key = Some e /\ e_profile e = p /\
    expiresAt e = w64 (resolveNow now ck + kLearningTtlSeconds) /\
    verifiedAt e = resolveNow now ck /\ failures e = 0).
  { intros s'. eexists. unfold learnEntry. simpl. rewrite lookup_insert_eq. done. }
  set (live := match entries_ s !! key with Some _ => _ | None => _ end).
  destruct live as [e|].
  - case_if; [repeat case_if; by intros [|] |]. case_if.
    + intros _. eexists. simpl. rewrite lookup_insert_eq. zbool. done.
    + case_if; [destruct (strike _ _ _ _ _); [by intros [|] |] |]; intros _; apply Hlearn.
  - case_if; [by intros [|] |].
    case_if; [destruct (strike _ _ _ _ _); [by intros [|] |] |]; intros _; apply Hlearn.
Qed.

Lemma recordFailure_entry s n h e ck :
  entries_ s !! scopeKey n h = Some e -> 0 <= failures e < 2 ^ 32 - 1 ->
  entries_ (recordFailure s n h (e_profile e) ck).2 !! scopeKey n h =
  if 1 <=? failures e then None
  else Some (mkEntry (e_profile e) (e_kind e) (if 20 <? e_confidence e then e_confidence e - 20 else 0)
               (expiresAt e) (failures e + 1) (verifiedAt e) (reverifyStartedAt e)).
Proof.
  intros He Hf. unfold recordFailure. cbv zeta. rewrite He, bool_decide_eq_true_2 by done.
  cbn [negb]. rewrite (proj1 (snapshotLocked_same _ _)), w32_small by lia.
  destruct (2 <=? failures e + 1) eqn:E1, (1 <=? failures e) eqn:E2; zbool; try lia; simpl.
  - by rewrite lookup_delete_eq.
  - by rewrite lookup_insert_eq.
Qed.

(** ** Lemmas: the disk *)

Lemma snapshotLocked_seq s ck :
  0 <= nextSeq_ s < 2 ^ 64 - 1 ->
  let r := snapshotLocked s ck in
  (seq r.1 = 0 /\ nextSeq_ r.2 = nextSeq_ s) \/
  (seq r.1 = nextSeq_ s + 1 /\ nextSeq_ r.2 = nextSeq_ s + 1).
Proof.
  intros H. unfold snapshotLocked. case_if; [by left |]. right. simpl.
  rewrite w64_small by lia. done.
Qed.

Lemma rememberLocked_seq s n h p k conf now ck :
  nextSeq_ (rememberLocked s n h p k conf now ck).1.2 = nextSeq_ s.
Proof.
  unfold rememberLocked. cbv zeta. case_if; [done |]. case_if; [done |]. case_if; [done |].
  assert (Hst : forall key now mono,
    match strike s key p now mono with inl s' => nextSeq_ s' = nextSeq_ s | inr s' => nextSeq_ s' = nextSeq_ s end).
  { intros key nw mn. unfold strike. destruct (candidates_ s !! key); [|done]. by repeat case_if. }
  set (live := match entries_ s !! _ with Some _ => _ | None => _ end).
  destruct live; case_if; repeat case_if; try done;
    match goal with |- context [ strike s ?a p ?b ?c ] =>
      specialize (Hst a b c); by destruct (strike s a p b c) end.
Qed.

(** An operation takes no snapshot, or takes the next one. *)
Lemma exec_op_seq s op :
  0 <= nextSeq_ s < 2 ^ 64 - 1 ->
  (seq (exec_op s op).1 = 0 /\ nextSeq_ (exec_op s op).2 = nextSeq_ s) \/
  (seq (exec_op s op).1 = nextSeq_ s + 1 /\ nextSeq_ (exec_op s op).2 = nextSeq_ s + 1).
Proof.
  intros H. destruct op; simpl.
  - left. split; [done |]. unfold load. case_if; [done |]. destruct content; [|done].
    cbv zeta. by case_if.
  - unfold remember. pose proof (rememberLocked_seq s networkId host p k conf explicitNow ck) as E.
    destruct (rememberLocked _ _ _ _ _ _ _ _) as [[o s1] dirty]. simpl in E.
    destruct dirty; [|by left]. rewrite <- E. pose proof (snapshotLocked_seq s1 ck ltac:(lia)) as Hs.
    destruct (snapshotLocked s1 ck). exact Hs.
  - unfold noteBaselineHealthy. cbv zeta. destruct (candidates_ s !! _); [case_if; [by left |] | by left].
    match goal with |- context [ snapshotLocked ?a ck ] =>
      pose proof (snapshotLocked_seq a ck H) as Hs; destruct (snapshotLocked a ck) end. exact Hs.
  - unfold recordFailure. cbv zeta. destruct (entries_ s !! _); [|by left]. case_if; [by left |].
    case_if; match goal with |- context [ snapshotLocked ?a ck ] =>
      exact (snapshotLocked_seq a ck H) end.
  - unfold forget. cbv zeta. case_if; [|by left].
    match goal with |- context [ snapshotLocked ?a ck ] => exact (snapshotLocked_seq a ck H) end.
  - unfold clear.
    match goal with |- context [ snapshotLocked ?a ck ] => exact (snapshotLocked_seq a ck H) end.
  - left. split; [done |]. unfold probeOrder, probeState. case_if; [done |]. cbv zeta.
    destruct (entries_ s !! _); [case_if; [by case_if |] |];
      (destruct (candidates_ s !! _); [by case_if | done]).
Qed.

Record world_ok (f0 : option bytes) (w : World) : Prop := {
  wok_next : 0 <= nextSeq_ (w_store w);
  wok_range : Forall (λ sn, 0 < seq sn <= nextSeq_ (w_store w)) (w_issued w);
  wok_sorted : StronglySorted (λ a b, seq a < seq b) (w_issued w);
  wok_pending : forall sn, sn ∈ w_pending w -> sn ∈ w_issued w;
  wok_saved : forall sn, sn ∈ w_saved w -> sn ∈ w_issued w /\ seq sn <= writtenSeq_ (w_disk w);
  wok_file : (writtenSeq_ (w_disk w) = 0 /\ file (w_disk w) = f0) \/
    exists sn, sn ∈ w_issued w /\ sn ∈ w_saved w /\ seq sn = writtenSeq_ (w_disk w) /\
      file (w_disk w) = Some (text sn);
}.

Lemma world0_ok path f0 : world_ok f0 (world0 path f0).
Proof.
  split; simpl.
  - done.
  - constructor.
  - constructor.
  - by intros sn Hsn%elem_of_nil.
  - by intros sn Hsn%elem_of_nil.
  - by left.
Qed.

Lemma issue_elem sn l x : x ∈ issue sn l <-> x ∈ l \/ (seq sn <> 0 /\ x = sn).
Proof.
  unfold issue. case_if; zbool; [intuition congruence |].
  rewrite elem_of_app, list_elem_of_singleton. intuition.
Qed.

Lemma step_op_ok f0 w op :
  nextSeq_ (w_store w) < 2 ^ 64 - 1 -> world_ok f0 w ->
  world_ok f0 (mkWorld (exec_op (w_store w) op).2 (issue (exec_op (w_store w) op).1 (w_pending w))
           (w_disk w) (issue (exec_op (w_store w) op).1 (w_issued w)) (w_saved w)).
Proof.
  intros Hn [H0 Hr Hs Hp Hv Hf]. pose proof (exec_op_seq (w_store w) op ltac:(lia)) as Hq.
  destruct (exec_op (w_store w) op) as [sn s']. simpl in *.
  split; simpl.
  - lia.
  - unfold issue. destruct Hq as [[Hq Hq']|[Hq Hq']]; case_if; zbool; rewrite Hq'; try lia; [done |].
    apply Forall_app. split; [|by repeat constructor; lia].
    eapply Forall_impl; [exact Hr |]. simpl. lia.
  - unfold issue. case_if; zbool; [done |]. destruct Hq as [[Hq _]|[Hq _]]; [lia |].
    apply StronglySorted_app. split_and!; [|done|by repeat constructor].
    intros x y Hx ->%list_elem_of_singleton. rewrite Forall_forall in Hr. specialize (Hr x Hx). lia.
  - intros x. rewrite !issue_elem. intuition.
  - intros x Hx. rewrite issue_elem. destruct (Hv x Hx). auto.
  - destruct Hf as [?|(x & ? & ?)]; [by left | right]. exists x. rewrite issue_elem. auto.
Qed.

Lemma step_commit_ok f0 w l1 sn l2 (wrote : bool) :
  w_pending w = l1 ++ sn :: l2 -> world_ok f0 w ->
  world_ok f0 (mkWorld (w_store w) (l1 ++ l2) (commit (w_disk w) sn wrote) (w_issued w)
           (if wrote then sn :: w_saved w else w_saved w)).
Proof.
  intros Hpe [H0 Hr Hs Hp Hv Hf].
  assert (Hin : sn ∈ w_issued w) by (apply Hp; rewrite Hpe, elem_of_app, elem_of_cons; tauto).
  assert (Hpos : 0 < seq sn) by (rewrite Forall_forall in Hr; apply Hr in Hin; lia).
  unfold commit. rewrite (proj2 (Z.eqb_neq (seq sn) 0)) by lia.
  split; simpl; try done.
  - intros x. rewrite elem_of_app. intros Hx. apply Hp.
    rewrite Hpe, elem_of_app, elem_of_cons. tauto.
  - intros x Hx. destruct wrote.
    + apply elem_of_cons in Hx as [-> |Hx].
      * split; [done |]. case_if; zbool; simpl; lia.
      * destruct (Hv x Hx). split; [done |]. case_if; zbool; simpl; lia.
    + destruct (Hv x Hx). split; [done |]. by case_if.
  - case_if; [|destruct wrote; simpl].
    + destruct Hf as [?|(x & ? & ? & ?)]; [by left | right]. exists x. split_and!; try tauto.
      destruct wrote; [apply elem_of_cons; by right | done].
    + right. exists sn. split_and!; try done. apply elem_of_cons. by left.
    + destruct Hf as [?|?]; [by left | by right].
Qed.

Lemma world_reach_ok f0 w w' : rtc disk_step w w' -> world_ok f0 w -> world_ok f0 w'.
Proof.
  induction 1 as [|w1 w2 w3 Hst _ IH]; [done |]. intros Hw. apply IH.
  destruct Hst; [by apply step_op_ok | by apply step_commit_ok].
Qed.

Lemma sorted_last_max (l : list Snapshot) sn x :
  StronglySorted (λ a b, seq a < seq b) l -> last l = Some sn -> x ∈ l -> seq sn <= seq x -> x = sn.
Proof.
  intros Hs Hl Hx Hle. apply last_Some in Hl as [l' ->]. apply elem_of_app in Hx as [Hx|Hx].
  - apply StronglySorted_app in Hs as (Hs & _ & _).
    specialize (Hs x sn Hx ltac:(by apply list_elem_of_singleton)). simpl in Hs. lia.
  - by apply list_elem_of_singleton in Hx.
Qed.

(** ** Properties *)

(** C9: Saving never loses ground, however the commits of concurrent threads interleave
    with each other and with failed writes: before any successful save the file is
    untouched; afterwards it always holds a snapshot the store really took, at least as new
    as every snapshot already saved; and once the newest snapshot is saved the file is
    exactly that one. *)
Theorem disk_never_rolls_back (path : bytes) (f0 : option bytes) (w : World) :
  rtc disk_step (world0 path f0) w ->
  (w_saved w = [] -> file (w_disk w) = f0) /\
  (forall sn, sn ∈ w_saved w -> exists sn', sn' ∈ w_issued w /\ seq sn <= seq sn' /\
     file (w_disk w) = Some (text sn')) /\
  (forall sn, last (w_issued w) = Some sn -> sn ∈ w_saved w ->
     file (w_disk w) = Some (text sn)).
Proof.
  intros Hr. pose proof (world_reach_ok f0 _ _ Hr (world0_ok path f0)) as [H0 Hra Hs Hp Hv Hf].
  assert (Hnew : forall sn, sn ∈ w_saved w -> exists sn', sn' ∈ w_issued w /\ seq sn <= seq sn' /\
     file (w_disk w) = Some (text sn')).
  { intros sn Hsn. destruct (Hv sn Hsn) as [Hi Hle]. destruct Hf as [[Hz _]|(x & Hx & _ & Hq & Ht)].
    - rewrite Forall_forall in Hra. specialize (Hra sn Hi). lia.
    - exists x. split_and!; [done | lia | done]. }
  split_and!; [|exact Hnew|].
  - intros E. destruct Hf as [[_ ?]|(x & _ & Hx & _)]; [done |]. rewrite E in Hx.
    by apply elem_of_nil in Hx.
  - intros sn Hl Hsn. destruct (Hnew sn Hsn) as (x & Hx & Hle & ->).
    by rewrite (sorted_last_max _ _ _ Hs Hl Hx Hle).
Qed.

(** Whatever sequence of operations runs, and in whatever order the hash tables are
    walked, the store never holds more than 1000 winners, 1000 nominations and 4096 healthy
    baselines, and only known bypass profiles (never the untouched baseline) are remembered
    or nominated, with a confidence of at most 100. *)
Theorem store_invariant (path : bytes) (ops : list StoreOp) :
  store_ok (run_ops (newStore path) ops).
Proof. apply run_ops_ok, newStore_ok. Qed.

(** C8: The two-strike rule. Over every history of a store, a differential verdict is
    promoted to a learned winner only if an earlier differential for the same network and
    host lies between one minute and six hours back on the monotonic clock, and no healthy
    baseline for that host (nor a forget or a clear) came in between. *)
Theorem two_strikes (path : bytes) (ops : list StoreOp) (n h p : bytes) (conf now : Z) (ck : Clock) :
  Forall clock_ok ops -> 0 <= resolveMono now ck < 2 ^ 63 ->
  (remember (run_ops (newStore path) ops) n h p SniInterferenceLikely conf now ck).1.1 = Learned ->
  exists t, pending_strike ops (scopeKey n h) t /\
    t + kConfirmMinGapSeconds <= resolveMono now ck < t + kCandidateTtlSeconds.
Proof.
  intros Hck Hnow Ho. set (s := run_ops (newStore path) ops) in *.
  destruct (remember_state s n h p SniInterferenceLikely conf now ck) as (E & _).
  rewrite E in Ho. clear E.
  destruct (rememberLocked_cases s n h p SniInterferenceLikely conf now ck)
    as [(_ & ? & _)|[(_ & _ & ? & _)|[(_ & ? & _)|(Hp & _ & Hr)]]]; try done.
  rewrite Hr in Ho. rewrite scopeKey_normalized in *.
  pose proof (strike_candidates s (scopeKey n h) p (resolveNow now ck) (resolveMono now ck)) as Hst.
  destruct (strike _ _ _ _ _) as [s'|s']; [done |]. destruct Hst as (_ & _ & c & Hc & Hne & Ht).
  destruct (run_ops_strikes path ops _ c Hc Hne) as [Hpend He]. exists (firstStrikeAt c).
  split; [done |]. rewrite He in Ht. destruct Hpend as (pre & op & post & -> & Hs & _).
  apply Forall_app in Hck as [_ Hck]. apply Forall_inv in Hck.
  pose proof (strike_clock _ _ _ Hs Hck). unfold kConfirmMinGapSeconds, kCandidateTtlSeconds in *.
  rewrite !w64_small in Ht by lia. lia.
Qed.

(** A winner that was just learned or re-proved is what [lookup] answers for that
    network and host, however the host is capitalised or dotted, for the whole seven days. *)
Theorem remember_then_lookup (s : Store) (n h h' p : bytes) (k : Kind) (conf now : Z)
    (ck ck' : Clock) :
  let r := remember s n h p k conf now ck in
  r.1.1 = Learned \/ r.1.1 = Reverified ->
  normalizeHost h' = normalizeHost h ->
  0 <= resolveNow now ck < 2 ^ 63 -> wall ck' < resolveNow now ck + kLearningTtlSeconds ->
  storeLookup r.2 n h' ck' = p.
Proof.
  cbv zeta. intros Ho Hh Hnow Hw.
  destruct (remember_winner s n h p k conf now ck Ho) as (e & He & Hp & Hx & _).
  assert (scopeKey n h' = scopeKey n h) as Hk by (unfold scopeKey; by rewrite Hh).
  unfold storeLookup. rewrite Hk, He, Hx. unfold kLearningTtlSeconds in *.
  rewrite w64_small by lia. case_if; zbool; [lia | done].
Qed.

(** Two consecutive failures retire a winner: the first failure of a clean winner only
    lowers its confidence (by 20, never below zero) and keeps it, the second erases it. *)
Theorem two_failures_evict (s : Store) (n h : bytes) (e : Entry) (ck1 ck2 ck3 : Clock) :
  entries_ s !! scopeKey n h = Some e -> failures e = 0 ->
  let s1 := (recordFailure s n h (e_profile e) ck1).2 in
  let s2 := (recordFailure s1 n h (e_profile e) ck2).2 in
  storeLookup s1 n h ck3 = storeLookup s n h ck3 /\
  (exists e1, entries_ s1 !! scopeKey n h = Some e1 /\
     e_confidence e1 = if 20 <? e_confidence e then e_confidence e - 20 else 0) /\
  storeLookup s2 n h ck3 = [].
Proof.
  intros He Hf. cbv zeta. pose proof (recordFailure_entry s n h e ck1 He ltac:(lia)) as H1.
  rewrite Hf in H1. cbn [Z.leb Z.compare] in H1.
  set (s1 := (recordFailure s n h (e_profile e) ck1).2) in *.
  set (e1 := mkEntry _ _ _ _ _ _ _) in H1.
  pose proof (recordFailure_entry s1 n h e1 ck2 H1 ltac:(simpl; lia)) as H2.
  split_and!; [by unfold storeLookup; rewrite H1, He | by exists e1 |].
  unfold storeLookup. change (e_profile e) with (e_profile e1). by rewrite H2.
Qed.

(** A successful untouched baseline retires everything held against the host: the
    winner is gone, the nomination is gone, and the next probe starts with the baseline. *)
Theorem baseline_retires (s : Store) (n h : bytes) (k : Kind) (conf now now' : Z)
    (hello : ClientHello) (ck ck' : Clock) :
  normalizeHost h <> [] ->
  let s' := (remember s n h (str "none") k conf now ck).2 in
  entries_ s' !! scopeKey n h = None /\ candidates_ s' !! scopeKey n h = None /\
  storeLookup s' n h ck' = [] /\ head (probeOrder s' n h hello now' ck').1 = Some (str "none").
Proof.
  intros Hh. cbv zeta. destruct (remember_state s n h (str "none") k conf now ck) as (_ & E1 & E2 & _).
  set (s' := (remember s n h (str "none") k conf now ck).2) in *.
  assert (entries_ s' !! scopeKey n h = None /\ candidates_ s' !! scopeKey n h = None) as [He Hc].
  { rewrite E1, E2. unfold rememberLocked. rewrite (bool_decide_eq_false_2 (normalizeHost h = [])) by done.
    change (bool_decide (findProfile (str "none") = None)) with false. cbn [orb]. cbv zeta.
    rewrite bool_decide_eq_true_2 by done. cbn [fst snd entries_ candidates_ setEntries setCandidates].
    rewrite scopeKey_normalized. by rewrite !lookup_delete_eq. }
  split_and!; [done | done | by unfold storeLookup; rewrite He |].
  unfold probeOrder. case_if; [done |]. unfold probeState. rewrite He, Hc. reflexivity.
Qed.

(** The probe order of every reachable store is sound and complete: no profile is
    tried twice, only profiles of the table are tried, a hello that can be replayed gets
    every profile that applies to it, and the untouched baseline goes first unless a live
    winner does; a hello spread over several records is only ever sent untouched. *)
Theorem probeOrder_correct (path : bytes) (ops : list StoreOp) (n h : bytes) (hello : ClientHello)
    (now : Z) (ck : Clock) :
  let s := run_ops (newStore path) ops in
  let order := (probeOrder s n h hello now ck).1 in
  NoDup order /\ Forall (λ x, is_Some (findProfile x)) order /\
  (if spansRecords hello then order = [str "none"]
   else forall p, In p profileTable -> (requiresSni p = true -> hasSni hello = true) ->
          profile_name p ∈ order) /\
  (head order = Some (str "none") \/
   exists e, entries_ s !! scopeKey n h = Some e /\ resolveNow now ck < expiresAt e /\
     head order = Some (e_profile e)).
Proof.
  cbv zeta. set (s := run_ops (newStore path) ops).
  assert (Hs : store_ok s) by apply run_ops_ok, newStore_ok.
  unfold probeOrder. case_if.
  { split_and!; [apply NoDup_singleton | repeat constructor; by eexists | done | by left]. }
  set (key := scopeKey n h). set (nw := resolveNow now ck).
  assert (Hst : let '(r, p, v, _) := probeState s key nw (resolveMono now ck) in
    (r = [] \/ bypass_profile r /\ exists e, entries_ s !! key = Some e /\ nw < expiresAt e /\ r = e_profile e)
    /\ (p = [] \/ bypass_profile p)).
  { unfold probeState. cbv zeta.
    destruct (entries_ s !! key) as [e|] eqn:Ee; [case_if; [case_if|] |];
      try (pose proof (ok_entry s Hs key e Ee) as [? _]; zbool; split; [right; eauto | by left]);
      (destruct (candidates_ s !! key) as [c|] eqn:Ec; [pose proof (ok_candidate s Hs key c Ec); case_if |];
       split; auto). }
  destruct (probeState _ _ _ _) as [[[r p] v] s']. destruct Hst as [Hr Hp]. simpl. split_and!.
  - apply orderFor_NoDup; [destruct Hr as [->|[[_ ?] _]] | destruct Hp as [->|[_ ?]]]; done.
  - apply Forall_forall. intros x Hx.
    destruct (orderFor_sound _ _ _ _ _ Hx) as [(Hne & [-> | ->]) | ?]; [| |done].
    + destruct Hr as [->|[[Hk _] _]]; [done |]. destruct (findProfile r); [by eexists | done].
    + destruct Hp as [->|[Hk _]]; [done |]. destruct (findProfile p); [by eexists | done].
  - intros q. apply orderFor_complete.
  - destruct Hr as [->|(_ & e & He & Hx & ->)].
    + left. unfold orderFor. cbn. by case_if.
    + unfold orderFor. case_if; [case_if; [by left | right; by exists e] |].
      left. by case_if.
Qed.

End Store.

(** ** Concrete runs *)

Definition sample_clock : Clock := mkClock 1000 1000 1000.
Definition first_strike : StoreOp :=
  OpRemember (str "nla-1") (str "Example.com.") (str "sni-mid") SniInterferenceLikely 92 1000
    sample_clock.
Definition sample_winner : Entry :=
  mkEntry (str "sni-mid") SniInterferenceLikely 92 605860 0 1060 0.

Lemma two_strikes_witness :
  exists t, pending_strike [first_strike] (scopeKey (str "nla-1") (str "example.com")) t /\
    t + kConfirmMinGapSeconds <= 1060 < t + kCandidateTtlSeconds.
Proof.
  apply (two_strikes [] [first_strike] (str "nla-1") (str "example.com") (str "sni-mid") 92 1060
           sample_clock).
  - repeat constructor; simpl; vm_compute; discriminate.
  - vm_compute. split; [discriminate | reflexivity].
  - vm_compute. reflexivity.
Defined.

Lemma remember_then_lookup_witness :
  let r := remember (run_ops (newStore []) [first_strike]) (str "nla-1") (str "example.com")
             (str "sni-mid") SniInterferenceLikely 92 1060 sample_clock in
  storeLookup r.2 (str "nla-1") (str "EXAMPLE.com") sample_clock = str "sni-mid".
Proof.
  apply (remember_then_lookup (run_ops (newStore []) [first_strike]) (str "nla-1")
           (str "example.com") (str "EXAMPLE.com") (str "sni-mid") SniInterferenceLikely 92 1060
           sample_clock sample_clock).
  - left. vm_compute. reflexivity.
  - vm_compute. reflexivity.
  - vm_compute. split; [discriminate | reflexivity].
  - vm_compute. reflexivity.
Defined.

Lemma two_failures_evict_witness :
  let s := setEntries (newStore []) {[ scopeKey [] (str "a") := sample_winner ]} in
  let s1 := (recordFailure s [] (str "a") (str "sni-mid") sample_clock).2 in
  let s2 := (recordFailure s1 [] (str "a") (str "sni-mid") sample_clock).2 in
  storeLookup s1 [] (str "a") sample_clock = storeLookup s [] (str "a") sample_clock /\
  (exists e1, entries_ s1 !! scopeKey [] (str "a") = Some e1 /\ e_confidence e1 = 72) /\
  storeLookup s2 [] (str "a") sample_clock = [].
Proof.
  apply (two_failures_evict (setEntries (newStore []) {[ scopeKey [] (str "a") := sample_winner ]})
           [] (str "a") sample_winner sample_clock sample_clock sample_clock);
    vm_compute; reflexivity.
Defined.

Lemma baseline_retires_witness :
  let s' := (remember (setEntries (newStore []) {[ scopeKey [] (str "a") := sample_winner ]}) []
               (str "A.") (str "none") NoInterference 95 2000 sample_clock).2 in
  entries_ s' !! scopeKey [] (str "A.") = None /\ candidates_ s' !! scopeKey [] (str "A.") = None /\
  storeLookup s' [] (str "A.") sample_clock = [] /\
  head (probeOrder s' [] (str "A.") emptyHello 2000 sample_clock).1 = Some (str "none").
Proof.
  apply (baseline_retires (setEntries (newStore []) {[ scopeKey [] (str "a") := sample_winner ]}) []
    (str "A.") NoInterference 95 2000 2000 emptyHello sample_clock sample_clock).
  vm_compute. discriminate.
Defined.

(** A clear whose snapshot is still on its way to the disk, and the same after it. *)
Definition clearing_world : World :=
  let w := world0 (str "s.json") None in
  mkWorld (exec_op (w_store w) (OpClear sample_clock)).2
    (issue (exec_op (w_store w) (OpClear sample_clock)).1 (w_pending w)) (w_disk w)
    (issue (exec_op (w_store w) (OpClear sample_clock)).1 (w_issued w)) (w_saved w).
Definition cleared_world : World :=
  let sn := mkSnapshot 1 (fileHead ++ fileTail) in
  mkWorld (w_store clearing_world) [] (commit (w_disk clearing_world) sn true)
    (w_issued clearing_world) [sn].

Lemma disk_never_rolls_back_witness :
  (w_saved cleared_world = [] -> file (w_disk cleared_world) = None) /\
  (forall sn, sn ∈ w_saved cleared_world -> exists sn', sn' ∈ w_issued cleared_world /\
     seq sn <= seq sn' /\ file (w_disk cleared_world) = Some (text sn')) /\
  (forall sn, last (w_issued cleared_world) = Some sn -> sn ∈ w_saved cleared_world ->
     file (w_disk cleared_world) = Some (text sn)).
Proof.
  apply (disk_never_rolls_back (str "s.json") None cleared_world).
  apply (rtc_l _ _ clearing_world).
  - apply (step_op (world0 (str "s.json") None) (OpClear sample_clock)). vm_compute. reflexivity.
  - apply rtc_once.
    apply (step_commit clearing_world [] (mkSnapshot 1 (fileHead ++ fileTail)) [] true).
    vm_compute. reflexivity.
Defined.
