(* ===== verification/LiveStats.v ===== *)
(** * LiveStats: counters of the engine in shared memory

    Models [src/src/LiveStats.hpp] and [src/src/LiveStats.cpp] (namespace [live_stats]).

    The engine maps a page of 32-bit counters ([SharedState]) and every relay thread bumps
    them with interlocked operations; the tray maps the same page and reads it. There is no
    lock: each interlocked operation and each load is one step of [Concurrency.Prog], and
    the threads of the engine and of the tray run in any interleaving. A counter is a [LONG]
    and wraps as one; the address an interlocked operation takes is a [Cell].

    [Flow] is the RAII object of one relay, local to its thread. The theorems say that the
    page is exact whatever the interleaving ([page_is_sum]), that the gauges stay between
    zero and the number of relays although the operations on them are separate
    ([gauges_bounded]), and that a reader never shows more pending flows than active ones
    however the writers race with it. *)

From S2P Require Import Prelude Concurrency Json JsonText Strategy.

(** ** The page *)

Definition kMagic : Z := 0x53484C53.
Definition kVersion : Z := 2.
Definition kMaxProfiles : Z := 16.
(** [sizeof(SharedState)]: twelve [LONG]s and two arrays of sixteen *)
Definition sizeofSharedState : Z := 4 * (12 + 2 * kMaxProfiles).

Record SharedState := mkSharedState {
  magic : Z;
  version : Z;
  size_ : Z;
  enginePid : Z;
  startedAt : Z;
  activeFlows : Z;
  openedFlows : Z;
  decisions : Z;
  successfulDecisions : Z;
  bypassedDecisions : Z;
  unresolvedDecisions : Z;
  lastDecisionAt : Z;
  activeProfiles : list Z;
  profileDecisions : list Z;
}.

(** Addresses of the counters. *)
Inductive Cell :=
  | ActiveFlows | OpenedFlows | Decisions | SuccessfulDecisions | BypassedDecisions
  | UnresolvedDecisions | LastDecisionAt
  | ActiveProfile (i : nat) | ProfileDecision (i : nat).
#[export] Instance Cell_eq_dec : EqDecision Cell.
Proof. solve_decision. Defined.

Definition load (s : SharedState) (c : Cell) : Z :=
  match c with
  | ActiveFlows => activeFlows s
  | OpenedFlows => openedFlows s
  | Decisions => decisions s
  | SuccessfulDecisions => successfulDecisions s
  | BypassedDecisions => bypassedDecisions s
  | UnresolvedDecisions => unresolvedDecisions s
  | LastDecisionAt => lastDecisionAt s
  | ActiveProfile i => default 0 (activeProfiles s !! i)
  | ProfileDecision i => default 0 (profileDecisions s !! i)
  end.

Definition store (c : Cell) (v : Z) (s : SharedState) : SharedState :=
  let '(mkSharedState m ve sz pid st af op de su by_ un la ap pd) := s in
  match c with
  | ActiveFlows => mkSharedState m ve sz pid st v op de su by_ un la ap pd
  | OpenedFlows => mkSharedState m ve sz pid st af v de su by_ un la ap pd
  | Decisions => mkSharedState m ve sz pid st af op v su by_ un la ap pd
  | SuccessfulDecisions => mkSharedState m ve sz pid st af op de v by_ un la ap pd
  | BypassedDecisions => mkSharedState m ve sz pid st af op de su v un la ap pd
  | UnresolvedDecisions => mkSharedState m ve sz pid st af op de su by_ v la ap pd
  | LastDecisionAt => mkSharedState m ve sz pid st af op de su by_ un v ap pd
  | ActiveProfile i => mkSharedState m ve sz pid st af op de su by_ un la (<[i := v]> ap) pd
  | ProfileDecision i => mkSharedState m ve sz pid st af op de su by_ un la ap (<[i := v]> pd)
  end.

(** [ZeroMemory] of the page *)
Definition zeroPage : SharedState :=
  mkSharedState 0 0 0 0 0 0 0 0 0 0 0 0
    (replicate (Z.to_nat kMaxProfiles) 0) (replicate (Z.to_nat kMaxProfiles) 0).

Definition unixSeconds32 (seconds : Z) : Z := w32 (clamp seconds 0 0x7FFFFFFF).
Definition nonNegative (value : Z) : Z := if value <? 0 then 0 else w32 value.
Definition cumulative (value : Z) : Z := w32 value.

(** ** The publisher *)

(** [impl_->state]: absent when the mapping could not be created or mapped. *)
Definition Publisher : Type := option SharedState.

Definition available (p : Publisher) : bool := match p with Some _ => true | None => false end.

(** The constructor: the name, whether [CreateFileMappingW] and [MapViewOfFile] gave a
    handle and a view, the process id and the clock. *)
Definition newPublisher (mappingName : bytes) (created mapped : bool) (pid seconds : Z) : Publisher :=
  if bool_decide (mappingName = []) then None
  else if negb created then None
  else if negb mapped then None
  else
    let z := zeroPage in
    Some (mkSharedState kMagic kVersion sizeofSharedState (i32 pid) (i32 (unixSeconds32 seconds))
            (activeFlows z) (openedFlows z) (decisions z) (successfulDecisions z) (bypassedDecisions z)
            (unresolvedDecisions z) (lastDecisionAt z) (activeProfiles z) (profileDecisions z)).

(** The destructor of [Impl] on the page, which a reader may still have mapped. *)
Definition retire (p : Publisher) : Publisher :=
  (λ s, mkSharedState 0 (version s) (size_ s) (enginePid s) (startedAt s) (activeFlows s)
          (openedFlows s) (decisions s) (successfulDecisions s) (bypassedDecisions s)
          (unresolvedDecisions s) (lastDecisionAt s) (activeProfiles s) (profileDecisions s)) <$> p.

(** *** Interlocked steps *)

Notation Op := (Prog Publisher unit unit).

(** [InterlockedIncrement(&state->cell)] for [d = 1], [InterlockedDecrement] for [-1] *)
Definition interlockedAdd (c : Cell) (d : Z) : Op unit :=
  Atomic (λ _ p, ((), (λ s, store c (i32 (load s c + d)) s) <$> p)) Ret.
Definition interlockedExchange (c : Cell) (v : Z) : Op unit :=
  Atomic (λ _ p, ((), (λ s, store c (i32 v) s) <$> p)) Ret.
Definition ifAvailable (k : Op unit) : Op unit :=
  Atomic (λ _ p, (available p, p)) (λ b : bool, if b then k else Ret ()).
Definition skip : Op unit := Ret ().
Definition when (b : bool) (k : Op unit) : Op unit := if b then k else skip.

Definition slotIndex (slot : Z) : nat := Z.to_nat slot.
Definition slotValid (slot : Z) : bool := (0 <=? slot) && (slot <? kMaxProfiles).

Definition profileSlot (profile : bytes) : Z :=
  match list_find (λ p : Profile, profile_name p = profile) (take (Z.to_nat kMaxProfiles) profiles) with
  | Some (index, _) => Z.of_nat index
  | None => -1
  end.

Definition flowOpened : Op unit :=
  ifAvailable (interlockedAdd ActiveFlows 1 ≫= λ _, interlockedAdd OpenedFlows 1).

Definition flowProfileChanged (previousSlot nextSlot : Z) : Op unit :=
  ifAvailable (when (negb (previousSlot =? nextSlot))
    (when (slotValid previousSlot) (interlockedAdd (ActiveProfile (slotIndex previousSlot)) (-1)) ≫= λ _,
     when (slotValid nextSlot) (interlockedAdd (ActiveProfile (slotIndex nextSlot)) 1))).

Definition flowDecision (slot : Z) (success bypassed : bool) : Op unit :=
  ifAvailable (
    interlockedAdd Decisions 1 ≫= λ _,
    (if success then
       interlockedAdd SuccessfulDecisions 1 ≫= λ _,
       when (slotValid slot) (interlockedAdd (ProfileDecision (slotIndex slot)) 1)
     else interlockedAdd UnresolvedDecisions 1) ≫= λ _,
    when bypassed (interlockedAdd BypassedDecisions 1) ≫= λ _,
    Now (λ t, interlockedExchange LastDecisionAt (unixSeconds32 t))).

Definition flowClosed (slot : Z) : Op unit :=
  ifAvailable (
    when (slotValid slot) (interlockedAdd (ActiveProfile (slotIndex slot)) (-1)) ≫= λ _,
    interlockedAdd ActiveFlows (-1)).

(** ** One relay's flow *)

(** [publisher_] is the engine's one publisher or null. *)
Record Flow := mkFlow { publisher_ : bool; profileSlot_ : Z; decided_ : bool }.
Definition newFlow : Flow := mkFlow false (-1) false.

Definition finish (f : Flow) : Op Flow :=
  when (publisher_ f) (flowClosed (profileSlot_ f)) ≫= λ _, Ret newFlow.

Definition begin (publisher : bool) (f : Flow) : Op Flow :=
  finish f ≫= λ f1,
  when publisher flowOpened ≫= λ _, Ret (mkFlow publisher (profileSlot_ f1) (decided_ f1)).

Definition setProfile (profile : bytes) (f : Flow) : Op Flow :=
  if negb (publisher_ f) then Ret f
  else
    let nextSlot := profileSlot profile in
    flowProfileChanged (profileSlot_ f) nextSlot ≫= λ _, Ret (mkFlow (publisher_ f) nextSlot (decided_ f)).

Definition decision (success bypassed : bool) (f : Flow) : Op Flow :=
  if negb (publisher_ f) || decided_ f then Ret f
  else flowDecision (profileSlot_ f) success bypassed ≫= λ _, Ret (mkFlow (publisher_ f) (profileSlot_ f) true).

(** What a relay may do with its flow. *)
Inductive FlowCall :=
  | Begin (publisher : bool)
  | SetProfile (profile : bytes)
  | Decision_ (success bypassed : bool)
  | Finish.

Definition flowCall (call : FlowCall) (f : Flow) : Op Flow :=
  match call with
  | Begin p => begin p f
  | SetProfile name => setProfile name f
  | Decision_ s b => decision s b f
  | Finish => finish f
  end.

(** The calls of one relay, then the destructor. *)
Fixpoint flowLife (calls : list FlowCall) (f : Flow) : Op unit :=
  match calls with
  | [] => finish f ≫= λ _, Ret ()
  | call :: calls => flowCall call f ≫= flowLife calls
  end.

(** ** The reader in the tray *)

Record ProfileSnapshot := mkProfileSnapshot { name : bytes; active : Z; profile_decisions : Z }.
Record Snapshot := mkSnapshot {
  online : bool;
  snap_enginePid : Z;
  snap_startedAt : Z;
  snap_activeFlows : Z;
  pendingFlows : Z;
  snap_openedFlows : Z;
  snap_decisions : Z;
  snap_successfulDecisions : Z;
  snap_bypassedDecisions : Z;
  snap_unresolvedDecisions : Z;
  snap_lastDecisionAt : Z;
  snap_profiles : list ProfileSnapshot;
}.
Definition offline : Snapshot := mkSnapshot false 0 0 0 0 0 0 0 0 0 0 [].

(** One load of the mapped page. *)
Definition loadField (field : SharedState -> Z) : Op Z :=
  Atomic (λ _ p, (from_option field 0 p, p)) Ret.
Definition loadCell (c : Cell) : Op Z := loadField (λ s, load s c).

(** The loop over the profiles, with [classifiedActive]. *)
Fixpoint readProfiles (table : list Profile) (index : nat) (classifiedActive : Z) (acc : list ProfileSnapshot)
  : Op (Z * list ProfileSnapshot) :=
  match table with
  | [] => Ret (classifiedActive, acc)
  | p :: table =>
      loadCell (ActiveProfile index) ≫= λ a,
      loadCell (ProfileDecision index) ≫= λ d,
      let profile := mkProfileSnapshot (profile_name p) (nonNegative a) (cumulative d) in
      readProfiles table (S index) (w32 (classifiedActive + active profile)) (acc ++ [profile])
  end.

(** [read]: the name and whether the mapping could be opened and viewed. *)
Definition read (mappingName : bytes) (opened viewed : bool) : Op Snapshot :=
  if bool_decide (mappingName = []) then Ret offline
  else if negb opened then Ret offline
  else if negb viewed then Ret offline
  else
    loadField magic ≫= λ m,
    if negb (m =? kMagic) then Ret offline else
    loadField version ≫= λ v,
    if negb (v =? kVersion) then Ret offline else
    loadField size_ ≫= λ sz,
    if negb (sz =? i32 sizeofSharedState) then Ret offline else
    loadField enginePid ≫= λ pid,
    loadField startedAt ≫= λ st,
    loadCell ActiveFlows ≫= λ af,
    loadCell OpenedFlows ≫= λ op,
    loadCell Decisions ≫= λ de,
    loadCell SuccessfulDecisions ≫= λ su,
    loadCell BypassedDecisions ≫= λ by_,
    loadCell UnresolvedDecisions ≫= λ un,
    loadCell LastDecisionAt ≫= λ la,
    readProfiles (take (Z.to_nat kMaxProfiles) profiles) 0 0 [] ≫= λ '(classifiedActive, rows),
    let activeNow := nonNegative af in
    let pending := if classifiedActive <? activeNow then w32 (activeNow - classifiedActive) else 0 in
    Ret (mkSnapshot true (nonNegative pid) (nonNegative st) activeNow pending (cumulative op) (cumulative de)
           (cumulative su) (cumulative by_) (cumulative un) (cumulative la) rows).

(** ** The text for the panel *)

Definition field_int (name : string) (v : Z) : bytes := str "," ++ quoted (str name) ++ str ":" ++ to_string v.

Definition profileJson (p : ProfileSnapshot) : bytes :=
  str "{" ++ quoted (str "name") ++ str ":" ++ quoted (escape (name p)) ++
  field_int "active" (active p) ++ field_int "decisions" (profile_decisions p) ++ str "}".

Fixpoint profilesJson (first : bool) (l : list ProfileSnapshot) : bytes :=
  match l with
  | [] => []
  | p :: l => (if first then [] else str ",") ++ profileJson p ++ profilesJson false l
  end.

Definition toJson (s : Snapshot) : bytes :=
  str "{" ++ quoted (str "messageType") ++ str ":" ++ quoted (str "live") ++
  str "," ++ quoted (str "online") ++ str ":" ++ str (if online s then "true" else "false") ++
  field_int "enginePid" (snap_enginePid s) ++
  field_int "startedAt" (snap_startedAt s) ++
  field_int "activeFlows" (snap_activeFlows s) ++
  field_int "pendingFlows" (pendingFlows s) ++
  field_int "openedFlows" (snap_openedFlows s) ++
  field_int "decisions" (snap_decisions s) ++
  field_int "successfulDecisions" (snap_successfulDecisions s) ++
  field_int "bypassedDecisions" (snap_bypassedDecisions s) ++
  field_int "unresolvedDecisions" (snap_unresolvedDecisions s) ++
  field_int "lastDecisionAt" (snap_lastDecisionAt s) ++
  str "," ++ quoted (str "profiles") ++ str ":[" ++ profilesJson true (snap_profiles s) ++ str "]}".

(** The members the panel's reader looks for; the profiles follow them. *)
Definition liveMembers (s : Snapshot) : list (bytes * bytes) :=
  [ (str "messageType", quoted (escape (str "live"))); (str "online", str (if online s then "true" else "false"));
    (str "enginePid", to_string (snap_enginePid s)); (str "startedAt", to_string (snap_startedAt s));
    (str "activeFlows", to_string (snap_activeFlows s)); (str "pendingFlows", to_string (pendingFlows s));
    (str "openedFlows", to_string (snap_openedFlows s)); (str "decisions", to_string (snap_decisions s));
    (str "successfulDecisions", to_string (snap_successfulDecisions s));
    (str "bypassedDecisions", to_string (snap_bypassedDecisions s));
    (str "unresolvedDecisions", to_string (snap_unresolvedDecisions s));
    (str "lastDecisionAt", to_string (snap_lastDecisionAt s)) ].

Lemma toJson_members s :
  toJson s = str "{" ++ members (liveMembers s) ++ member (str "profiles") (str "[" ++ profilesJson true (snap_profiles s) ++ str "]}").
Proof.
  unfold toJson, field_int, liveMembers, members, member. cbn [mbind list_bind fst snd]. rewrite <- !app_assoc. reflexivity.
Qed.

(** The counters of a snapshot are 32-bit. *)
Definition counters (s : Snapshot) : list Z :=
  [ snap_enginePid s; snap_startedAt s; snap_activeFlows s; pendingFlows s; snap_openedFlows s; snap_decisions s;
    snap_successfulDecisions s; snap_bypassedDecisions s; snap_unresolvedDecisions s; snap_lastDecisionAt s ].

Lemma liveMembers_ok s : Forall (λ v, 0 <= v < 2 ^ 32) (counters s) -> document_ok (liveMembers s).
Proof.
  intros Hc. split.
  - apply (bool_decide_eq_true_1 (NoDup _)). reflexivity.
  - unfold counters in Hc. rewrite !Forall_cons in Hc. destruct_and?.
    repeat (apply Forall_cons; split; [split; [by apply plain_ok |] |]); try (by constructor); cbn [snd];
      first [ by apply settled_number; lia | apply settled_bool | by apply settled_string, all_bytes_check ].
Qed.

(** the text of a snapshot, whatever the names of its profiles, gives the panel back
    every counter and the on-line flag. *)
Theorem toJson_reads_back s fallback :
  Forall (λ v, 0 <= v < 2 ^ 32) (counters s) ->
  getString (toJson s) (str "messageType") 0 = str "live" /\
  getBool (toJson s) (str "online") = online s /\
  (λ key, getInt (toJson s) (str key) fallback) <$>
    ["enginePid"; "startedAt"; "activeFlows"; "pendingFlows"; "openedFlows"; "decisions"; "successfulDecisions";
     "bypassedDecisions"; "unresolvedDecisions"; "lastDecisionAt"]%string = counters s.
Proof.
  intros Hc. pose proof (liveMembers_ok s Hc) as Hok. rewrite toJson_members.
  unfold counters in Hc. rewrite !Forall_cons in Hc. destruct_and?. split_and!.
  - apply members_string; [exact Hok | by apply all_bytes_check |]. exact (list_elem_of_lookup_2 (liveMembers s) 0 _ eq_refl).
  - apply members_bool; [exact Hok |]. exact (list_elem_of_lookup_2 (liveMembers s) 1 _ eq_refl).
  - unfold counters. cbn [fmap list_fmap].
    let rec go i := first [ reflexivity
      | apply (f_equal2 cons); [apply members_int; [exact Hok | lia | exact (list_elem_of_lookup_2 (liveMembers s) i _ eq_refl)] | go constr:(S i)] ] in
    go 2%nat.
Qed.

Lemma toJson_reads_back_witness :
  let s := mkSnapshot true 7 100 3 1 9 4 3 2 1 4000000000 [mkProfileSnapshot (str "decisions") 2 1] in
  getBool (toJson s) (str "online") = true /\ getInt (toJson s) (str "decisions") 0 = 4.
Proof.
  intros s. destruct (toJson_reads_back s 0) as (_ & H1 & H2); [repeat constructor; done |].
  split; [exact H1 |]. exact (f_equal (λ l : list Z, nth 5 l 0) H2).
Defined.

(** ** What a relay adds to the page *)

(** A decision that counts: the first of its flow. *)
Record Verdict := mkVerdict { v_slot : Z; v_success : bool; v_bypassed : bool }.

(** The flows a relay opens, and the decisions that count, from its calls alone. *)
Fixpoint opens (calls : list FlowCall) : Z :=
  match calls with
  | [] => 0
  | Begin true :: calls => 1 + opens calls
  | _ :: calls => opens calls
  end.

Fixpoint verdicts (calls : list FlowCall) (f : Flow) : list Verdict :=
  match calls with
  | [] => []
  | Begin p :: calls => verdicts calls (mkFlow p (-1) false)
  | Finish :: calls => verdicts calls newFlow
  | SetProfile n :: calls =>
      verdicts calls (if publisher_ f then mkFlow true (profileSlot n) (decided_ f) else f)
  | Decision_ s b :: calls =>
      if publisher_ f && negb (decided_ f)
      then mkVerdict (profileSlot_ f) s b :: verdicts calls (mkFlow true (profileSlot_ f) true)
      else verdicts calls f
  end.

(** The share of one thread in the counters: the flow it has open, the profile it shows,
    and what it has counted. *)
Record Share := mkShare {
  kActive : bool;
  kSlot : option nat;
  kOpened : Z;
  kDecisions : Z;
  kSuccessful : Z;
  kBypassed : Z;
  kUnresolved : Z;
  kProfiles : list nat;
}.

Definition amount (k : Share) (c : Cell) : Z :=
  match c with
  | ActiveFlows => Z.b2z (kActive k)
  | ActiveProfile i => Z.b2z (bool_decide (kSlot k = Some i))
  | OpenedFlows => kOpened k
  | Decisions => kDecisions k
  | SuccessfulDecisions => kSuccessful k
  | BypassedDecisions => kBypassed k
  | UnresolvedDecisions => kUnresolved k
  | ProfileDecision i => zlen (filter (λ j, j = i) (kProfiles k))
  | LastDecisionAt => 0
  end.

(** A profile is shown only for an open flow, and its slot exists. *)
Definition good (k : Share) : Prop :=
  match kSlot k with Some i => kActive k = true /\ (i < 16)%nat | None => True end.

Definition validSlot (slot : Z) : option nat := if slotValid slot then Some (slotIndex slot) else None.
Definition countedSlots (v : Verdict) : list nat :=
  if v_success v then option_list (validSlot (v_slot v)) else [].

(** The share after opening [n] flows with the decisions [l], the flow being [f]. *)
Definition shareOf (n : Z) (l : list Verdict) (f : Flow) : Share :=
  mkShare (publisher_ f) (if publisher_ f then validSlot (profileSlot_ f) else None) n (zlen l)
    (zlen (filter (λ v, v_success v = true) l))
    (zlen (filter (λ v, v_bypassed v = true) l))
    (zlen (filter (λ v, v_success v = false) l))
    (l ≫= countedSlots).

(** A flow that is not attached has no profile and no decision. *)
Definition flow_ok (f : Flow) : Prop := publisher_ f = false -> f = newFlow.

(** *** Arithmetic of the page *)


Lemma i32_mod z : i32 z mod 2 ^ 32 = z mod 2 ^ 32.
Proof.
  unfold i32, w32. case_if; [by rewrite Z.mod_mod |].
  replace (z mod 2 ^ 32 - 2 ^ 32) with (z mod 2 ^ 32 + (-1) * 2 ^ 32) by lia. by rewrite Z.mod_add, Z.mod_mod.
Qed.
Lemma i32_cong a b : a mod 2 ^ 32 = b mod 2 ^ 32 -> i32 a = i32 b.
Proof. unfold i32, w32. by intros ->. Qed.
(** Wrapping early or late is the same. *)
Lemma i32_add a d : i32 (i32 a + d) = i32 (a + d).
Proof. apply i32_cong. by rewrite <- (Zplus_mod_idemp_l (i32 a)), i32_mod, Zplus_mod_idemp_l. Qed.
Lemma cumulative_i32 z : cumulative (i32 z) = w32 z.
Proof. apply i32_mod. Qed.

(** ** The threads *)

Section Threads.
(** The number of threads of the engine and the tray that use the page. *)
Variable N : Z.

Definition page_ok (s : SharedState) : Prop :=
  length (activeProfiles s) = 16%nat /\ length (profileDecisions s) = 16%nat /\
  magic s = kMagic /\ version s = kVersion /\ size_ s = sizeofSharedState.
Definition Inv (p : Publisher) : Prop := exists s, p = Some s /\ page_ok s.

(** A step changes the counters by what it changes in the thread's share. *)
Definition Rel (k : Share) (p p' : Publisher) (k' : Share) : Prop :=
  good k' /\ forall s, p = Some s -> exists s', p' = Some s' /\
    forall c, c <> LastDecisionAt -> load s' c = i32 (load s c + (amount k' c - amount k c)).

(** What every thread may rely on. *)
Definition own (k : Share) (p : Publisher) : Prop :=
  good k /\ forall s, p = Some s -> 0 <= load s ActiveFlows <= N /\
    (forall i, 0 <= load s (ActiveProfile i) <= N) /\
    (forall c, c <> LastDecisionAt -> i32 (load s c) = load s c).

(** The page is the sum of the shares. *)
Definition Global (p : Publisher) (ks : list Share) : Prop :=
  zlen ks = N /\ Forall good ks /\ forall s, p = Some s ->
    forall c, c <> LastDecisionAt -> load s c = i32 (zsum (λ k, amount k c) ks).

Notation wpp := (wp (λ _, True) (λ _ : unit, True) Inv Rel own (λ _ _, True) (λ _ _, True)).

Hypothesis N_small : N < 2 ^ 31.

Lemma i32_idem z : i32 (i32 z) = i32 z.
Proof. pose proof (i32_add z 0) as H. by rewrite !Z.add_0_r in H. Qed.

Lemma amount_gauge k c : good k -> (c = ActiveFlows \/ exists i, c = ActiveProfile i) -> 0 <= amount k c <= 1.
Proof. intros _ [->|[i ->]]; cbn; [destruct (kActive k) | destruct (bool_decide _)]; cbn; lia. Qed.

Lemma gauge_bounds p ks s c :
  Global p ks -> p = Some s -> (c = ActiveFlows \/ exists i, c = ActiveProfile i) ->
  load s c = zsum (λ k, amount k c) ks /\ 0 <= load s c <= N.
Proof.
  intros (Hn & Hg & Hs) Hp Hc.
  assert (Hb := zsum_bounds (λ k, amount k c) ks 0 1 (Forall_impl _ _ _ Hg (λ k H, amount_gauge k c H Hc))).
  rewrite (Hs s Hp c) by (by destruct Hc as [->|[i ->]]). rewrite i32_small; lia.
Qed.

Lemma global_own p ks i k : Global p ks -> ks !! i = Some k -> own k p.
Proof.
  intros Hg Hi. split; [destruct Hg as (_ & H & _); by eapply Forall_lookup_1 |]. intros s Hs. split; [|split].
  - apply (gauge_bounds p ks s ActiveFlows Hg Hs). by left.
  - intros j. apply (gauge_bounds p ks s (ActiveProfile j) Hg Hs). right. by exists j.
  - intros c Hc. destruct Hg as (_ & _ & H). by rewrite (H s Hs c Hc), i32_idem.
Qed.

Lemma global_step p ks i k p' k' :
  Inv p -> Global p ks -> ks !! i = Some k -> Rel k p p' k' -> Global p' (<[i := k']> ks).
Proof.
  intros (s & -> & _) (Hn & Hg & Hs) Hi (Hk & Hr). destruct (Hr s eq_refl) as (s' & -> & Hs').
  split_and!; [by rewrite zlen_insert | by apply Forall_insert |].
  intros s0 [= <-] c Hc. rewrite (Hs' c Hc), (Hs s eq_refl c Hc), i32_add, (zsum_insert _ _ _ _ _ Hi). f_equal. lia.
Qed.

(** *** Each operation keeps its thread's share *)

Definition cell_ok (c : Cell) : Prop :=
  match c with ActiveProfile i | ProfileDecision i => (i < 16)%nat | _ => True end.

Lemma load_store s c v c' : page_ok s -> cell_ok c -> load (store c v s) c' = if bool_decide (c' = c) then v else load s c'.
Proof.
  intros (Ha & Hd & _) Hc. destruct s. cbn in Ha, Hd. destruct (bool_decide_reflect (c' = c)) as [->|Hne].
  - destruct c; cbn in *; try done; by rewrite list_lookup_insert_eq by lia.
  - destruct c, c'; cbn; try done; rewrite list_lookup_insert_ne by congruence; done.
Qed.

Lemma page_ok_store s c v : page_ok s -> page_ok (store c v s).
Proof. destruct s. unfold page_ok. destruct c; cbn; rewrite ?length_insert; done. Qed.

Lemma wp_add c d k k' Q X :
  cell_ok c -> good k' ->
  (forall c', c' <> LastDecisionAt -> amount k' c' - amount k c' = if bool_decide (c' = c) then d else 0) ->
  Q tt k' -> wpp (interlockedAdd c d) k Q X.
Proof.
  intros Hc Hg Hd Hw. cbn [wp interlockedAdd]. intros t p _ (s & -> & Hs) (_ & Ho). cbn [fst snd]. split.
  { exists (store c (i32 (load s c + d)) s). split; [done | by apply page_ok_store]. }
  exists k'. split; [|exact Hw]. split; [done |]. intros s0 [= <-]. eexists. split; [reflexivity |].
  intros c' Hc'. rewrite load_store by done. rewrite (Hd c' Hc'). case_bool_decide as He; [by rewrite He |].
  rewrite Z.add_0_r. symmetry. by apply (Ho s eq_refl).
Qed.

Lemma wp_exchange v k Q X : Q tt k -> wpp (interlockedExchange LastDecisionAt v) k Q X.
Proof.
  intros Hw. cbn [wp interlockedExchange]. intros t p _ (s & -> & Hs) (Hk & Ho). cbn [fst snd]. split.
  { eexists. split; [reflexivity | by apply page_ok_store]. }
  exists k. split; [|exact Hw]. split; [done |]. intros s0 [= <-]. eexists. split; [reflexivity |].
  intros c' Hc'. rewrite load_store by done. rewrite bool_decide_eq_false_2 by done.
  rewrite Z.sub_diag, Z.add_0_r. symmetry. by apply (Ho s eq_refl).
Qed.

Lemma wp_read {A B} (f : Publisher -> B) k (K : B -> Op A) Q X :
  good k -> (forall p, Inv p -> own k p -> wpp (K (f p)) k Q X) ->
  wpp (Atomic (λ _ p, (f p, p)) K) k Q X.
Proof.
  intros Hg Hw. cbn [wp]. intros t p _ Hi Ho. cbn [fst snd]. split; [done |]. exists k. split; [|by apply Hw].
  split; [done |]. intros s ->. exists s. split; [done |]. intros c Hc. rewrite Z.sub_diag, Z.add_0_r. symmetry.
  by apply Ho.
Qed.

Lemma wp_available k (op : Op unit) Q X : good k -> wpp op k Q X -> wpp (ifAvailable op) k Q X.
Proof. intros Hg Hw. apply wp_read; [done |]. by intros p (s & -> & _) _. Qed.

(** [k] with another gauge. *)
Definition showing (a : bool) (o : option nat) (k : Share) : Share :=
  mkShare a o (kOpened k) (kDecisions k) (kSuccessful k) (kBypassed k) (kUnresolved k) (kProfiles k).

Lemma validSlot_lt slot i : validSlot slot = Some i -> (i < 16)%nat.
Proof.
  unfold validSlot, slotValid, slotIndex, kMaxProfiles. case_if; [|done]. intros [= <-]. zbool. lia.
Qed.

(** The difference of two shares, counter by counter. *)
Ltac shares :=
  let c := fresh "c" in intros c ?; destruct c; cbn;
  repeat case_bool_decide; subst; rewrite ?filter_app, ?zlen_app; cbn; try congruence; try done; try lia.

Lemma wp_show a o o' i d k Q X :
  (i < 16)%nat -> good (showing a o' k) ->
  (d = 1 /\ o = None /\ o' = Some i \/ d = -1 /\ o = Some i /\ o' = None) ->
  Q tt (showing a o' k) -> wpp (interlockedAdd (ActiveProfile i) d) (showing a o k) Q X.
Proof.
  intros Hi Hg Hd HQ. apply (wp_add _ _ _ (showing a o' k)); [done | done | | done].
  destruct Hd as [(-> & -> & ->)|(-> & -> & ->)]; shares.
Qed.

Lemma wp_active a k Q X :
  Q tt (showing a None k) ->
  wpp (interlockedAdd ActiveFlows (if a then 1 else -1)) (showing (negb a) None k) Q X.
Proof. intros HQ. apply (wp_add _ _ _ (showing a None k)); [done | done | | done]. destruct a; shares. Qed.

Lemma wp_hide slot k Q X :
  Q tt (showing true None k) ->
  wpp (when (slotValid slot) (interlockedAdd (ActiveProfile (slotIndex slot)) (-1)))
    (showing true (validSlot slot) k) Q X.
Proof.
  intros HQ. unfold validSlot. destruct (slotValid slot) eqn:E; [|exact HQ].
  apply (wp_show true (Some (slotIndex slot)) None); [|done | auto | done].
  apply (validSlot_lt slot). unfold validSlot. by rewrite E.
Qed.

Lemma wp_reveal slot k Q X :
  Q tt (showing true (validSlot slot) k) ->
  wpp (when (slotValid slot) (interlockedAdd (ActiveProfile (slotIndex slot)) 1)) (showing true None k) Q X.
Proof.
  intros HQ. unfold validSlot in *. destruct (slotValid slot) eqn:E; [|exact HQ].
  assert (Hlt : (slotIndex slot < 16)%nat) by (apply (validSlot_lt slot); unfold validSlot; by rewrite E).
  apply (wp_show true None (Some (slotIndex slot))); [done | done | auto | done].
Qed.

Lemma good_showing_valid slot k : good (showing true (validSlot slot) k).
Proof. unfold good. cbn. destruct (validSlot slot) eqn:E; [|done]. split; [done | by eapply validSlot_lt]. Qed.

Lemma wp_flowClosed slot k Q X :
  Q tt (showing false None k) -> wpp (flowClosed slot) (showing true (validSlot slot) k) Q X.
Proof.
  intros HQ. apply wp_available; [apply good_showing_valid |]. apply wp_bind, wp_hide. by apply (wp_active false).
Qed.

Lemma wp_flowProfileChanged previous next k Q X :
  Q tt (showing true (validSlot next) k) ->
  wpp (flowProfileChanged previous next) (showing true (validSlot previous) k) Q X.
Proof.
  intros HQ. apply wp_available; [apply good_showing_valid |]. destruct (previous =? next) eqn:E; cbn [negb when].
  - apply Z.eqb_eq in E as ->. exact HQ.
  - apply wp_bind, wp_hide, wp_reveal, HQ.
Qed.

(** The share of a flow, one counter further. *)
Lemma wp_flowOpened n l Q X :
  Q tt (shareOf (n + 1) l (mkFlow true (-1) false)) -> wpp flowOpened (shareOf n l newFlow) Q X.
Proof.
  intros HQ. apply wp_available; [done |]. apply wp_bind.
  apply (wp_active true (shareOf n l newFlow)). eapply wp_add; [done | | | exact HQ]; [done |].
  shares.
Qed.

(** [k] with more counted. *)
Definition counted (d s b u : Z) (ps : list nat) (k : Share) : Share :=
  mkShare (kActive k) (kSlot k) (kOpened k) (kDecisions k + d) (kSuccessful k + s) (kBypassed k + b)
    (kUnresolved k + u) (kProfiles k ++ ps).

Lemma counted_zero k : counted 0 0 0 0 [] k = k.
Proof. destruct k. unfold counted. cbn. by rewrite !Z.add_0_r, app_nil_r. Qed.

Lemma wp_tally c d s b u d' s' b' u' ps k Q X :
  good k ->
  (c, d', s', b', u') ∈ [(Decisions, d + 1, s, b, u); (SuccessfulDecisions, d, s + 1, b, u);
                         (BypassedDecisions, d, s, b + 1, u); (UnresolvedDecisions, d, s, b, u + 1)] ->
  Q tt (counted d' s' b' u' ps k) -> wpp (interlockedAdd c 1) (counted d s b u ps k) Q X.
Proof.
  intros Hg Hin HQ. repeat (apply elem_of_cons in Hin as [[= -> -> -> -> ->]|Hin];
    [eapply wp_add; [done | | | exact HQ]; [done | shares] |]). by apply elem_of_nil in Hin.
Qed.

Lemma wp_tally_profile slot d s b u k Q X :
  good k -> Q tt (counted d s b u (option_list (validSlot slot)) k) ->
  wpp (when (slotValid slot) (interlockedAdd (ProfileDecision (slotIndex slot)) 1)) (counted d s b u [] k) Q X.
Proof.
  intros Hg HQ. unfold validSlot in *. destruct (slotValid slot) eqn:E; [|exact HQ].
  assert (Hlt : (slotIndex slot < 16)%nat) by (apply (validSlot_lt slot); unfold validSlot; by rewrite E).
  eapply wp_add; [exact Hlt | | | exact HQ]; [done |]. intros c Hc. destruct c; cbn [amount counted kActive kSlot kOpened kDecisions kSuccessful kBypassed kUnresolved kProfiles option_list]; try (by rewrite Z.sub_diag, bool_decide_eq_false_2 by done).
  rewrite app_nil_r, filter_app, zlen_app. change (option_list (Some (slotIndex slot))) with [slotIndex slot].
  rewrite filter_cons, filter_nil. case_decide; case_bool_decide; rewrite ?zlen_cons, ?zlen_nil; try congruence; lia.
Qed.

Lemma wp_flowDecision slot success bypassed k Q X :
  good k ->
  Q tt (counted 1 (Z.b2z success) (Z.b2z bypassed) (Z.b2z (negb success))
          (countedSlots (mkVerdict slot success bypassed)) k) ->
  wpp (flowDecision slot success bypassed) k Q X.
Proof.
  intros Hg HQ. rewrite <- (counted_zero k). apply wp_available; [by rewrite counted_zero |].
  apply wp_bind, (wp_tally _ _ _ _ _ 1 0 0 0); [done | by repeat constructor |]. apply wp_bind.
  assert (Hlast : forall k, Q tt k -> wpp (Now (λ t, interlockedExchange LastDecisionAt (unixSeconds32 t))) k Q X)
    by (intros k0 H0 t _; by apply wp_exchange).
  assert (Hby : forall s u ps, Q tt (counted 1 s (Z.b2z bypassed) u ps k) ->
            wpp (when bypassed (interlockedAdd BypassedDecisions 1) ≫= λ _,
                 Now (λ t, interlockedExchange LastDecisionAt (unixSeconds32 t))) (counted 1 s 0 u ps k) Q X).
  { intros s u ps H0. apply wp_bind. destruct bypassed; cbn [when]; [|by apply Hlast].
    apply (wp_tally _ _ _ _ _ 1 s 1 u); [done | by repeat constructor |]. by apply Hlast. }
  destruct success; cbn in HQ.
  - apply wp_bind, (wp_tally _ _ _ _ _ 1 1 0 0); [done | by repeat constructor |].
    apply wp_tally_profile; [done |]. by apply Hby.
  - apply (wp_tally _ _ _ _ _ 1 0 0 1); [done | by repeat constructor |]. by apply Hby.
Qed.

Lemma shareOf_snoc n l f v :
  shareOf n (l ++ [v]) f =
  counted 1 (Z.b2z (v_success v)) (Z.b2z (v_bypassed v)) (Z.b2z (negb (v_success v))) (countedSlots v) (shareOf n l f).
Proof.
  unfold shareOf, counted. cbn. rewrite !filter_app, !zlen_app, bind_app, bind_singleton.
  destruct v as [slot [] []]; cbn; by rewrite ?zlen_cons, ?zlen_nil, ?Z.add_0_r.
Qed.

Lemma good_shareOf n l f : good (shareOf n l f).
Proof.
  unfold good, shareOf. cbn. destruct (publisher_ f); [|done]. destruct (validSlot (profileSlot_ f)) eqn:E; [|done].
  split; [done | by eapply validSlot_lt].
Qed.

Lemma showing_shareOf n l f : showing true (validSlot (profileSlot_ f)) (shareOf n l (mkFlow true (profileSlot_ f) (decided_ f))) =
  shareOf n l (mkFlow true (profileSlot_ f) (decided_ f)).
Proof. done. Qed.

Lemma wp_finish n l f Q X :
  flow_ok f -> Q newFlow (shareOf n l newFlow) -> wpp (finish f) (shareOf n l f) Q X.
Proof.
  intros Hf HQ. apply wp_bind. destruct f as [[] slot d]; cbn [publisher_ profileSlot_ when].
  - apply (wp_flowClosed slot (shareOf n l newFlow)). exact HQ.
  - by rewrite (Hf eq_refl).
Qed.

(** One call: the flow it leaves and the share that goes with it. *)
Lemma wp_flowCall call calls f n l Q X :
  flow_ok f ->
  (forall f' n' l', flow_ok f' -> n' + opens calls = n + opens (call :: calls) ->
     l' ++ verdicts calls f' = l ++ verdicts (call :: calls) f -> Q f' (shareOf n' l' f')) ->
  wpp (flowCall call f) (shareOf n l f) Q X.
Proof.
  intros Hf HQ. destruct call as [p|name|s b|]; cbn [flowCall].
  - apply wp_bind, wp_finish; [done |]. destruct p; cbn [when].
    + apply wp_bind, wp_flowOpened. apply HQ; [done | cbn; lia | done].
    + apply HQ; done.
  - unfold setProfile. destruct f as [[] slot d]; cbn [publisher_ profileSlot_ decided_ negb].
    + apply wp_bind. apply (wp_flowProfileChanged slot (profileSlot name) (shareOf n l newFlow)).
      apply (HQ (mkFlow true (profileSlot name) d)); done.
    + by apply HQ.
  - unfold decision. destruct f as [[] slot []]; cbn [publisher_ profileSlot_ decided_ negb orb]; try (by apply HQ).
    apply wp_bind, wp_flowDecision; [apply good_shareOf |].
    pose proof (shareOf_snoc n l (mkFlow true slot false) (mkVerdict slot s b)) as He. cbn [v_success v_bypassed] in He.
    rewrite <- He. apply (HQ (mkFlow true slot true) n (l ++ [mkVerdict slot s b])); [done | done |]. by rewrite <- app_assoc.
  - apply wp_finish; [done |]. by apply HQ.
Qed.

Lemma wp_flowLife calls f n l Q X :
  flow_ok f -> Q tt (shareOf (n + opens calls) (l ++ verdicts calls f) newFlow) ->
  wpp (flowLife calls f) (shareOf n l f) Q X.
Proof.
  revert f n l. induction calls as [|call calls IH]; intros f n l Hf HQ; cbn [flowLife]; apply wp_bind.
  - apply wp_finish; [done |]. cbn in HQ. by rewrite Z.add_0_r, app_nil_r in HQ.
  - apply (wp_flowCall call calls); [done |]. intros f' n' l' Hf' Hn Hl. apply IH; [done |]. by rewrite Hn, Hl.
Qed.

(** *** The reader *)

(** What a snapshot promises, however the writers raced with it. *)
Definition snapshot_ok (s : Snapshot) : Prop :=
  0 <= pendingFlows s <= snap_activeFlows s /\ snap_activeFlows s <= N /\
  Forall (λ r, 0 <= active r <= N) (snap_profiles s) /\
  name <$> snap_profiles s = if online s then profile_name <$> profiles else [].

Lemma nonNegative_gauge v : 0 <= v <= N -> nonNegative v = v.
Proof. intros H. unfold nonNegative. case_if; zbool; [lia |]. rewrite w32_small; lia. Qed.

Lemma wp_loadCell c k Q X :
  good k -> (forall v, ((c = ActiveFlows \/ exists i, c = ActiveProfile i) -> 0 <= v <= N) -> Q v k) -> wpp (loadCell c) k Q X.
Proof.
  intros Hg HQ. apply wp_read; [done |]. intros p (s & -> & _) (_ & Ho). apply HQ. cbn.
  destruct (Ho s eq_refl) as (Ha & Hp & _). by intros [->|[i ->]].
Qed.

Lemma wp_loadField {A} (f : SharedState -> Z) k (K : Z -> Op A) Q X :
  good k -> (forall s, page_ok s -> wpp (K (f s)) k Q X) -> wpp (loadField f ≫= K) k Q X.
Proof. intros Hg HQ. apply (wp_read (from_option f 0) k K); [done |]. intros p (s & -> & Hs) _. by apply HQ. Qed.

Lemma wp_readProfiles table index classified acc k Q X :
  0 <= N -> good k -> 0 <= classified -> Forall (λ r, 0 <= active r <= N) acc ->
  (forall classified' rows, 0 <= classified' -> Forall (λ r, 0 <= active r <= N) rows ->
     name <$> rows = (name <$> acc) ++ (profile_name <$> table) -> Q (classified', rows) k) ->
  wpp (readProfiles table index classified acc) k Q X.
Proof.
  intros HN Hg. revert index classified acc. induction table as [|p table IH]; intros index classified acc Hc Hacc HQ; cbn [readProfiles].
  - apply HQ; [done | done |]. by rewrite app_nil_r.
  - apply wp_bind, wp_loadCell; [done |]. intros a Ha. apply wp_bind, wp_loadCell; [done |]. intros d _.
    apply IH; [apply w32_range | |].
    + apply Forall_app. split; [done |]. apply Forall_singleton. cbn. rewrite nonNegative_gauge; apply Ha; right; by exists index.
    + intros classified' rows H1 H2 H3. apply HQ; [done | done |]. rewrite H3, fmap_app, <- app_assoc. done.
Qed.

Lemma wp_readPage mappingName opened viewed k Q X :
  0 <= N -> good k -> (forall s, snapshot_ok s -> Q s k) -> wpp (read mappingName opened viewed) k Q X.
Proof.
  intros HN Hg HQ. unfold read.
  assert (Hoff : Q offline k) by (apply HQ; unfold snapshot_ok; cbn; split_and!; try done; lia).
  case_if; [exact Hoff |]. case_if; [exact Hoff |]. case_if; [exact Hoff |].
  do 3 (apply wp_loadField; [done |]; intros ? _; case_if; [exact Hoff |]).
  do 2 (apply wp_loadField; [done |]; intros ? _).
  apply wp_bind, wp_loadCell; [done |]. intros af Haf. specialize (Haf (or_introl eq_refl)).
  do 6 (apply wp_bind, wp_loadCell; [done |]; intros ? _).
  apply wp_bind, wp_readProfiles; [done | done | done | done |]. intros classified rows Hc Hr Hn. apply HQ.
  unfold snapshot_ok. cbn [pendingFlows snap_activeFlows snap_profiles online]. rewrite (nonNegative_gauge af) by done.
  split; [|split; [lia | split; [done |]]]; [|by rewrite Hn].
  case_if; zbool; [|lia]. rewrite w32_small; lia.
Qed.
End Threads.

(** ** Relays and readers together *)

Inductive Role :=
  | Relay (calls : list FlowCall)
  | Reader (mappingName : bytes) (opened viewed : bool).

Definition roleMain (r : Role) : Op (option Snapshot) :=
  match r with
  | Relay calls => flowLife calls newFlow ≫= λ _, Ret None
  | Reader name opened viewed => read name opened viewed ≫= λ s, Ret (Some s)
  end.
Definition spawn (r : Role) : Thread Publisher unit unit (option Snapshot) := mkThread (roleMain r) false.

(** What a role leaves in the counters when it is over. *)
Definition leaves (r : Role) : Share :=
  match r with
  | Relay calls => shareOf (opens calls) (verdicts calls newFlow) newFlow
  | Reader _ _ _ => shareOf 0 [] newFlow
  end.

Definition role_done (N : Z) (o : option Snapshot) (g : Role * Share) : Prop :=
  g.2 = leaves g.1 /\ forall s, o = Some s -> snapshot_ok N s.

Definition anyStep : Pool Publisher unit unit (option Snapshot) -> Pool Publisher unit unit (option Snapshot) -> Prop :=
  pool_step (λ _, True) (λ _, True).

Lemma default_replicate n i : default 0 (replicate n 0 !! i) = i32 0.
Proof. destruct (replicate n 0 !! i) eqn:E; [|done]. by apply lookup_replicate in E as [-> _]. Qed.

(** The gauges of the profiles, as one sum. *)
Lemma zsum_lookup (l : list Z) : zsum id l = zsum (λ i, default 0 (l !! i)) (seq 0 (length l)).
Proof.
  induction l as [|x l IH]; [done |]. cbn [length seq]. rewrite !zsum_cons, IH, <- fmap_S_seq, zsum_fmap. done.
Qed.
Lemma zsum_indicator o (l : list nat) : NoDup l -> zsum (λ i, Z.b2z (bool_decide (o = Some i))) l <= Z.b2z (bool_decide (is_Some o)).
Proof.
  intros Hl. destruct o as [x|]; cbn; [|rewrite (zsum_ext _ (λ _, 0)), zsum_zero by (by apply Forall_true); done].
  assert (He : zsum (λ i, Z.b2z (bool_decide (Some x = Some i))) l = Z.b2z (bool_decide (x ∈ l))).
  { induction Hl as [|y l Hy _ IH]; [done |]. rewrite zsum_cons, IH.
    repeat case_bool_decide; cbn; try lia; simplify_eq; exfalso; set_solver. }
  rewrite He. case_bool_decide; cbn; lia.
Qed.
Lemma good_profiles k : good k -> zsum (λ i, amount k (ActiveProfile i)) (seq 0 16) <= amount k ActiveFlows.
Proof.
  intros Hg. cbn [amount]. etransitivity; [apply zsum_indicator, NoDup_seq |]. unfold good in Hg.
  destruct (kSlot k); cbn; [by destruct Hg as [-> _] | by destruct (kActive k)].
Qed.

Section Together.
Variable roles : list Role.
Notation N := (zlen roles).
Hypothesis few : N < 2 ^ 31.

Definition Global' (p : Publisher) (gs : list (Role * Share)) : Prop := gs.*1 = roles /\ Global N p gs.*2.

Definition together_ok : Pool Publisher unit unit (option Snapshot) -> Prop :=
  pool_ok Publisher unit unit (λ _, True) (λ _, True) Inv (labelled Rel) (λ g : Role * Share, own N g.2) (λ _ _, True) (λ _ _, True) Global'
    (role_done N) (λ _, False).

Lemma role_spawn_ok r :
  wp (λ _, True) (λ _ : unit, True) Inv (labelled Rel) (λ g : Role * Share, own N g.2) (λ _ _, True) (λ _ _, True)
    (roleMain r) (r, shareOf 0 [] newFlow) (role_done N) (λ _, False).
Proof.
  eapply wp_mono; [apply (wp_label (λ _, True) (λ _, True) Inv Rel (own N) (λ _ _, True) (λ _ _, True) (roleMain r) r _ (λ o k, k = leaves r /\ forall s, o = Some s -> snapshot_ok N s) (λ _, False)) | |].
  2: { intros o [r' k]. cbn. by intros (-> & Hk). }
  2: { by intros g [_ ?]. }
  destruct r as [calls|name opened viewed]; cbn [roleMain]; apply wp_bind.
  - apply (wp_flowLife N calls newFlow 0 []); [done |]. by split.
  - apply wp_readPage; [done | apply zlen_nonneg | done |]. intros s Hs. split; [done |]. by intros s' [= <-].
Qed.

Lemma start_ok name pid seconds s0 :
  newPublisher name true true pid seconds = Some s0 -> together_ok (mkPool (Some s0) (spawn <$> roles)).
Proof.
  unfold newPublisher. case_if; [done |]. intros [= <-]. split; [by eexists |].
  exists ((λ r, (r, shareOf 0 [] newFlow)) <$> roles). split; [split; [|split_and!] |].
  - rewrite <- list_fmap_compose. apply list_fmap_id.
  - by rewrite !zlen_fmap.
  - apply Forall_fmap, Forall_fmap, Forall_true. done.
  - intros s [= <-] c Hc. rewrite !zsum_fmap, (zsum_ext _ (λ _, 0)), zsum_zero by (apply Forall_true; intros; by destruct c).
    destruct c; try done; cbn [load activeProfiles profileDecisions]; apply (default_replicate 16).
  - apply Forall2_fmap, Forall_Forall2_diag, Forall_true. intros r. split; [apply role_spawn_ok | done].
Qed.

Lemma page_reach_ok name pid seconds s0 c :
  newPublisher name true true pid seconds = Some s0 -> rtc anyStep (mkPool (Some s0) (spawn <$> roles)) c -> together_ok c.
Proof.
  intros Hp Hr. eapply (pool_invariant Publisher unit unit); [| |by eapply start_ok |exact Hr].
  - intros p gs i [r k] p' [r' k'] Hi [Hl Hg] Hgi [He Hrel]. cbn in He. subst r'. split.
    + rewrite list_fmap_insert, list_insert_id; [done |]. by rewrite list_lookup_fmap, Hgi.
    + rewrite list_fmap_insert. cbn. eapply global_step; [done | done | by rewrite list_lookup_fmap, Hgi | exact Hrel].
  - intros p gs i [r k] [Hl Hg] Hgi. cbn. eapply global_own; [done | done | by rewrite list_lookup_fmap, Hgi].
Qed.
End Together.

(** C25: whatever the interleaving of the interlocked operations of any number of relays
    (less than 2^31) and of the loads of any number of readers, the page the engine
    publishes is exact. At every moment the gauges are between zero and the number of
    threads and the gauges of the profiles add up to no more than the active flows: they
    never dip below zero. When all threads are done, every gauge is back at zero and every
    cumulative counter is, as a 32-bit integer, the sum of what the calls of each relay
    count for: the flows it opened, and of each flow the first decision only, under the
    profile it showed then. *)
Theorem page_exact name pid seconds s0 roles c :
  newPublisher name true true pid seconds = Some s0 -> zlen roles < 2 ^ 31 ->
  rtc anyStep (mkPool (Some s0) (spawn <$> roles)) c ->
  exists s, shared c = Some s /\
    0 <= activeFlows s <= zlen roles /\ Forall (λ g, 0 <= g) (activeProfiles s) /\
    zsum id (activeProfiles s) <= activeFlows s /\
    (Forall finished (threads c) ->
     forall cell, cell <> LastDecisionAt -> load s cell = i32 (zsum (λ r, amount (leaves r) cell) roles)).
Proof.
  intros Hp Hn Hr. destruct (page_reach_ok roles Hn _ _ _ _ _ Hp Hr) as ((s & Hs & Hok) & gs & [Hroles Hg] & Hall).
  assert (Hgauge := λ c, gauge_bounds (zlen roles) Hn _ _ s c Hg Hs).
  exists s. split; [done |]. split; [apply (Hgauge ActiveFlows); by left |]. split; [|split].
  - apply Forall_lookup. intros i x Hx. destruct (Hgauge (ActiveProfile i)) as [_ Hb]; [right; by exists i |].
    cbn in Hb. rewrite Hx in Hb. cbn in Hb. lia.
  - rewrite zsum_lookup. destruct Hok as (-> & _). change (activeFlows s) with (load s ActiveFlows).
    rewrite (proj1 (Hgauge ActiveFlows (or_introl eq_refl))).
    rewrite (zsum_ext _ (λ i, zsum (λ k, amount k (ActiveProfile i)) gs.*2)).
    2: { apply Forall_true. intros i. apply (Hgauge (ActiveProfile i)). right. by exists i. }
    rewrite <- (zsum_swap (λ k i, amount k (ActiveProfile i))). apply zsum_le.
    destruct Hg as (_ & Hgood & _). eapply Forall_impl; [exact Hgood |]. apply good_profiles.
  - intros Hf cell Hc. destruct Hg as (_ & _ & Hsum). rewrite (Hsum s Hs cell Hc). f_equal.
    rewrite <- Hroles, !zsum_fmap. apply zsum_ext, Forall_lookup. intros i [r k] Hi.
    destruct (Forall2_lookup_r _ _ _ _ _ Hall Hi) as (th & Hth & [Hw _]).
    rewrite Forall_lookup in Hf. specialize (Hf i th Hth). unfold finished in Hf.
    destruct (prog th); try done. destruct Hw as [He _]. cbn in He. by rewrite He.
Qed.

(** a reader in another process, whose loads interleave with the relays in any way,
    never shows more pending flows than active ones, nor a gauge above the number of
    threads, and it shows either nothing or every profile of the table in its order. *)
Theorem snapshot_bounded name pid seconds s0 roles c i s asleep :
  newPublisher name true true pid seconds = Some s0 -> zlen roles < 2 ^ 31 ->
  rtc anyStep (mkPool (Some s0) (spawn <$> roles)) c ->
  threads c !! i = Some (mkThread (Ret (Some s)) asleep) -> snapshot_ok (zlen roles) s.
Proof.
  intros Hp Hn Hr Hi. destruct (page_reach_ok roles Hn _ _ _ _ _ Hp Hr) as (_ & gs & _ & Hall).
  destruct (Forall2_lookup_l _ _ _ _ _ Hall Hi) as (g & _ & [Hw _]). by apply Hw.
Qed.

Definition sample_roles : list Role :=
  [ Relay [Begin true; SetProfile (str "sni-mid"); Decision_ true true; Decision_ false false];
    Reader (str "m") true true;
    Relay [Begin true; SetProfile (str "none"); SetProfile (str "record-1"); Decision_ false false; Finish; Begin false] ].
Definition sample_start : Pool Publisher unit unit (option Snapshot) :=
  mkPool (newPublisher (str "m") true true 7 100) (spawn <$> sample_roles).
(** The threads in turns, the reader last. *)
Definition sample_schedule : list nat := flat_map (λ _, [0; 2; 0; 1]%nat) (seq 0 40).
Definition sample_end : Pool Publisher unit unit (option Snapshot) :=
  exec (λ _, 200) (λ _ _, None) sample_schedule 0 sample_start.

Lemma sample_reach : rtc anyStep sample_start sample_end.
Proof. by apply exec_reaches. Qed.

Lemma page_exact_witness :
  exists s, shared sample_end = Some s /\ load s OpenedFlows = 2 /\ load s Decisions = 2 /\
    load s BypassedDecisions = 1 /\ load s (ProfileDecision 1) = 1 /\ load s ActiveFlows = 0.
Proof.
  assert (He : exists s0, newPublisher (str "m") true true 7 100 = Some s0) by (eexists; reflexivity).
  destruct He as [s0 He]. pose proof sample_reach as Hr. unfold sample_start in Hr. rewrite He in Hr.
  destruct (page_exact (str "m") 7 100 s0 sample_roles sample_end He eq_refl Hr) as (s & Hs & _ & _ & _ & Hsum).
  exists s. split; [exact Hs |].
  assert (Hf : Forall finished (threads sample_end)) by (vm_compute; repeat constructor).
  rewrite !(Hsum Hf) by discriminate. clear. vm_compute. repeat split; reflexivity.
Defined.

Lemma snapshot_bounded_witness :
  exists s, threads sample_end !! 1%nat = Some (mkThread (Ret (Some s)) false) /\
    online s = true /\ pendingFlows s <= snap_activeFlows s <= 3 /\ length (snap_profiles s) = 12%nat.
Proof.
  assert (He : exists s0, newPublisher (str "m") true true 7 100 = Some s0) by (eexists; reflexivity).
  destruct He as [s0 He]. pose proof sample_reach as Hr. unfold sample_start in Hr. rewrite He in Hr.
  assert (Hi : exists s, threads sample_end !! 1%nat = Some (mkThread (Ret (Some s)) false) /\ online s = true)
    by (eexists; vm_compute; split; reflexivity).
  destruct Hi as (s & Hi & Ho). exists s. split; [exact Hi |]. split; [exact Ho |].
  destruct (snapshot_bounded (str "m") 7 100 s0 sample_roles sample_end 1 s false He eq_refl Hr Hi) as (H1 & H2 & _ & H4).
  split; [change 3 with (zlen sample_roles); lia |]. rewrite Ho in H4. apply (f_equal length) in H4.
  rewrite !length_fmap in H4. exact H4.
Defined.
