(* ===== verification/Telemetry.v ===== *)
(** * Telemetry: the history of decisions in its database

    Models [src/src/Telemetry.hpp] and the database side of [src/src/Telemetry.cpp]
    (namespace [telemetry]): the tables, a record as rows, transactions, retention, the
    migration. The SQL of the source is translated statement by statement into functions on
    lists of rows; what SQLite answers to a statement (it succeeded, it failed, it failed and
    rolled the transaction back) is an input. A connection has what is committed and the
    transaction that is open, if any. The queue in front of it is in [TelemetryWriter], the
    report made of it in [Dashboard]. *)

From S2P Require Import Prelude Diagnosis.

(** ** Data *)

Record ProbeRecord := mkProbeRecord {
  occurredAt : Z;
  pr_networkId : bytes;
  pr_host : bytes;
  pr_rememberedProfile : bytes;
  pr_verdict : Verdict;
  pr_attempts : list Attempt;
  pr_totalElapsedMs : Z;
  pr_success : bool;
  pr_forced : bool;
}.

(** A row of [probe_events]; [None] is NULL. *)
Record EventRow := mkEventRow {
  rowid : Z;
  occurred_at : Z;
  network_id : bytes;
  event_host : bytes;
  baseline_signal : option bytes;
  diagnosis_kind : bytes;
  event_confidence : Z;
  winning_profile : option bytes;
  remembered_profile : option bytes;
  event_success : Z;
  event_forced : Z;
  attempt_count : Z;
  total_elapsed_ms : Z;
  cache_hit : Z;
}.

(** A row of [probe_attempts]. *)
Record AttemptRow := mkAttemptRow {
  event_id : Z;
  ordinal : Z;
  attempt_profile : bytes;
  attempt_signal : bytes;
  elapsed_ms : Z;
}.

(** Both tables in the order of their keys, the counter behind AUTOINCREMENT, and
    [PRAGMA user_version]. *)
Record Database := mkDatabase {
  probe_events : list EventRow;
  probe_attempts : list AttemptRow;
  sequence : Z;
  user_version : Z;
}.
Definition newDatabase : Database := mkDatabase [] [] 0 0.

(** ** Connections *)

Record Connection := mkConnection { committed : Database; transaction : option Database }.

Inductive Step := StepDone | StepFailed | StepAborted.

Definition current (c : Connection) : Database := default (committed c) (transaction c).
Definition change (f : Database -> Database) (c : Connection) : Connection :=
  match transaction c with
  | Some d => mkConnection (committed c) (Some (f d))
  | None => mkConnection (f (committed c)) None
  end.
(** A statement that changes something. *)
Definition step (answer : Step) (f : Database -> Database) (c : Connection) : bool * Connection :=
  match answer with
  | StepDone => (true, change f c)
  | StepFailed => (false, c)
  | StepAborted => (false, mkConnection (committed c) None)
  end.

Definition beginTransaction (ok : bool) (c : Connection) : bool * Connection :=
  match transaction c with
  | None => if ok then (true, mkConnection (committed c) (Some (committed c))) else (false, c)
  | Some _ => (false, c)
  end.
Definition commitTransaction (ok : bool) (c : Connection) : bool * Connection :=
  match transaction c with
  | Some d => if ok then (true, mkConnection d None) else (false, c)
  | None => (false, c)
  end.
Definition rollbackTransaction (ok : bool) (c : Connection) : Connection :=
  match transaction c with
  | Some d => if ok then mkConnection (committed c) None else c
  | None => c
  end.

(** ** Writing *)

Definition nullable (s : bytes) : option bytes := if bool_decide (s = []) then None else Some s.

(** The first attempt without a transformation. *)
Definition baselineOf (attempts : list Attempt) : option Attempt := findProfile attempts (str "none").

Definition cacheHit (r : ProbeRecord) : bool :=
  pr_success r && negb (bool_decide (pr_rememberedProfile r = [])) &&
  bool_decide (winningProfile (pr_verdict r) = pr_rememberedProfile r) && (length (pr_attempts r) =? 1)%nat.

Definition flag (b : bool) : Z := if b then 1 else 0.

(** The row of a record, but for its key. *)
Definition eventRow (r : ProbeRecord) (key : Z) : EventRow :=
  mkEventRow key (occurredAt r) (pr_networkId r) (pr_host r)
    ((λ a, signalName (signal a)) <$> baselineOf (pr_attempts r))
    (name (kind (pr_verdict r))) (confidence (pr_verdict r)) (nullable (winningProfile (pr_verdict r)))
    (nullable (pr_rememberedProfile r)) (flag (pr_success r)) (flag (pr_forced r)) (zlen (pr_attempts r))
    (pr_totalElapsedMs r) (flag (cacheHit r)).

Definition insertEvent (r : ProbeRecord) (d : Database) : Database :=
  let key := sequence d + 1 in
  mkDatabase (probe_events d ++ [eventRow r key]) (probe_attempts d) key (user_version d).

Definition attemptRow (key : Z) (index : Z) (a : Attempt) : AttemptRow :=
  mkAttemptRow key index (profile a) (signalName (signal a)) (elapsedMs a).
Definition insertAttempt (key : Z) (index : Z) (a : Attempt) (d : Database) : Database :=
  mkDatabase (probe_events d) (probe_attempts d ++ [attemptRow key index a]) (sequence d) (user_version d).

Fixpoint insertAttempts (steps : nat -> Step) (key : Z) (index : nat) (attempts : list Attempt) (c : Connection) : bool * Connection :=
  match attempts with
  | [] => (true, c)
  | a :: attempts =>
      let '(ok, c) := step (steps index) (insertAttempt key (Z.of_nat index) a) c in
      if ok then insertAttempts steps key (S index) attempts c else (false, c)
  end.

(** [steps 0] answers for the event, the others for its attempts. *)
Definition insertRecord (steps : nat -> Step) (r : ProbeRecord) (c : Connection) : bool * Connection :=
  let '(ok, c) := step (steps 0%nat) (insertEvent r) c in
  if negb ok then (false, c) else
  insertAttempts (λ i, steps (S i)) (sequence (current c)) 0 (pr_attempts r) c.

Record BatchAnswers := mkBatchAnswers {
  begins : bool;
  inserts : nat -> nat -> Step;
  commits : bool;
  rolls : bool;
}.

(** The loop over a batch: it ends at the first record that cannot be written. *)
Fixpoint insertAll (inserts : nat -> nat -> Step) (i : nat) (batch : list ProbeRecord) (c : Connection) : bool * Connection :=
  match batch with
  | [] => (true, c)
  | r :: batch =>
      let '(ok, c) := insertRecord (inserts i) r c in
      if ok then insertAll inserts (S i) batch c else (false, c)
  end.

(** The transaction of one batch. *)
Definition writeBatch (a : BatchAnswers) (batch : list ProbeRecord) (c : Connection) : bool * Connection :=
  let '(ok, c) := beginTransaction (begins a) c in
  let '(ok, c) := if ok then insertAll (inserts a) 0 batch c else (false, c) in
  let '(ok, c) := if ok then commitTransaction (commits a) c else (false, c) in
  if ok then (true, c) else (false, rollbackTransaction (rolls a) c).

(** ** Retention *)

(** [DELETE FROM probe_events WHERE ...]; the attempts of a row go with it. *)
Definition deleteEvents (doomed : EventRow -> bool) (d : Database) : Database :=
  let gone := rowid <$> filter (λ e, doomed e = true) (probe_events d) in
  mkDatabase (filter (λ e, doomed e = false) (probe_events d)) (filter (λ a, event_id a ∉ gone) (probe_attempts d))
    (sequence d) (user_version d).

(** [id IN (SELECT id ... ORDER BY id DESC LIMIT -1 OFFSET ?)] *)
Definition deleteOverflow (maxEvents : nat) (d : Database) : Database :=
  let beyond := drop maxEvents (reverse (rowid <$> probe_events d)) in
  deleteEvents (λ e, bool_decide (rowid e ∈ beyond)) d.

(** The answers to its two statements; a statement that cannot be prepared is skipped. *)
Definition pruneDatabase (retentionDays maxEvents now : Z) (a b : Step) (c : Connection) : Connection :=
  let c := (step a (deleteEvents (λ e, occurred_at e <? now - retentionDays * 86400)) c).2 in
  (step b (deleteOverflow (Z.to_nat maxEvents)) c).2.

(** ** The schema *)

Definition setKind (kind : bytes) (e : EventRow) : EventRow :=
  mkEventRow (rowid e) (occurred_at e) (network_id e) (event_host e) (baseline_signal e) kind (event_confidence e)
    (winning_profile e) (remembered_profile e) (event_success e) (event_forced e) (attempt_count e) (total_elapsed_ms e) (cache_hit e).
Definition setConfidence (v : Z) (e : EventRow) : EventRow :=
  mkEventRow (rowid e) (occurred_at e) (network_id e) (event_host e) (baseline_signal e) (diagnosis_kind e) v
    (winning_profile e) (remembered_profile e) (event_success e) (event_forced e) (attempt_count e) (total_elapsed_ms e) (cache_hit e).
Definition setEvents (f : list EventRow -> list EventRow) (d : Database) : Database :=
  mkDatabase (f (probe_events d)) (probe_attempts d) (sequence d) (user_version d).
Definition setVersion (v : Z) (d : Database) : Database := mkDatabase (probe_events d) (probe_attempts d) (sequence d) v.

Definition interference (e : EventRow) : bool := bool_decide (diagnosis_kind e = name SniInterferenceLikely).

(** The first UPDATE: no baseline was run. *)
Definition reclassifyLearned (e : EventRow) : EventRow :=
  if interference e && bool_decide (baseline_signal e = None) then setKind (name LearnedProfile) e else e.

(** The second UPDATE: the same host answered without help within a quarter of an hour. *)
Definition healthyNear (events : list EventRow) (e : EventRow) : bool :=
  existsb (λ healthy, bool_decide (network_id healthy = network_id e) && bool_decide (event_host healthy = event_host e) &&
    bool_decide (baseline_signal healthy = Some (signalName ServerHello)) &&
    (occurred_at e - 900 <=? occurred_at healthy) && (occurred_at healthy <=? occurred_at e + 900)) events.
Definition reclassifyTransient (events : list EventRow) (e : EventRow) : EventRow :=
  if interference e && (match baseline_signal e with Some s => negb (bool_decide (s = signalName ServerHello)) | None => false end) &&
     healthyNear events e
  then setConfidence 70 (setKind (name TransientFailure) e) else e.

Record MigrationAnswers := mkMigrationAnswers {
  versionRead : bool;         (* [PRAGMA user_version] gave a row *)
  migrationBegins : bool;
  updates : nat -> Step;      (* the three statements *)
  migrationEnds : bool;       (* COMMIT or ROLLBACK *)
}.

Definition schemaVersion (readable : bool) (c : Connection) : Z := if readable then user_version (current c) else 0.

Definition migrateDatabase (a : MigrationAnswers) (c : Connection) : bool * Connection :=
  if 2 <=? schemaVersion (versionRead a) c then (true, c) else
  let '(ok, c) := beginTransaction (migrationBegins a) c in
  if negb ok then (false, c) else
  let '(ok, c) := step (updates a 0%nat) (setEvents (fmap reclassifyLearned)) c in
  let '(ok, c) := if ok then step (updates a 1%nat) (setEvents (λ events, reclassifyTransient events <$> events)) c else (false, c) in
  let '(ok, c) := if ok then step (updates a 2%nat) (setVersion 2) c else (false, c) in
  (ok, if ok then (commitTransaction (migrationEnds a) c).2 else rollbackTransaction (migrationEnds a) c).

(** The pragmas, tables and indices, then the migration. A table that exists is left alone. *)
Definition kSchemaStatements : nat := 9.
Definition initializeDatabase (executed : nat -> bool) (a : MigrationAnswers) (c : Connection) : bool * Connection :=
  if forallb executed (seq 0 kSchemaStatements) then migrateDatabase a c else (false, c).

(** ** Transactions *)

(** A record with all its attempts. *)
Definition attemptRows (r : ProbeRecord) (key : Z) : list AttemptRow :=
  imap (λ i a, attemptRow key (Z.of_nat i) a) (pr_attempts r).
Definition insertWhole (d : Database) (r : ProbeRecord) : Database :=
  let key := sequence d + 1 in
  mkDatabase (probe_events d ++ [eventRow r key]) (probe_attempts d ++ attemptRows r key) key (user_version d).
Definition insertBatch : Database -> list ProbeRecord -> Database := foldl insertWhole.

Lemma current_change f c : current (change f c) = f (current c).
Proof. destruct c as [d [t|]]; done. Qed.
Lemma change_change f g c : change g (change f c) = change (λ d, g (f d)) c.
Proof. destruct c as [d [t|]]; done. Qed.
Lemma change_ext f g c : f (current c) = g (current c) -> change f c = change g c.
Proof. destruct c as [d [t|]]; cbn; by intros ->. Qed.

Lemma insertAttempts_done steps key attempts index c c' :
  insertAttempts steps key index attempts c = (true, c') ->
  c' = change (λ d, mkDatabase (probe_events d) (probe_attempts d ++ imap (λ i a, attemptRow key (Z.of_nat (index + i)) a) attempts)
                      (sequence d) (user_version d)) c.
Proof.
  revert index c. induction attempts as [|a attempts IH]; intros index c; cbn.
  - intros [= <-]. destruct c as [[] [[]|]]; cbn; by rewrite app_nil_r.
  - destruct (steps index); cbn; try done. intros ->%IH. rewrite change_change. apply change_ext. unfold insertAttempt. cbn.
    rewrite <- app_assoc, Nat.add_0_r. do 2 f_equal. cbn. f_equal. apply imap_ext. intros i x _. cbn. do 2 f_equal. lia.
Qed.

Lemma insertRecord_done steps r c c' :
  insertRecord steps r c = (true, c') -> c' = change (λ d, insertWhole d r) c.
Proof.
  unfold insertRecord. destruct (steps 0%nat); cbn; try done. intros ->%insertAttempts_done.
  rewrite change_change. apply change_ext. rewrite current_change. unfold insertWhole, insertEvent, attemptRows. cbn. done.
Qed.

Lemma step_committed answer f c t :
  transaction c = Some t -> committed (step answer f c).2 = committed c /\
  ((step answer f c).1 = true -> exists t', transaction (step answer f c).2 = Some t').
Proof. intros E. destruct answer; cbn; unfold change; rewrite ?E; cbn; (split; [done |]); try done; eauto. Qed.

Lemma insertAttempts_committed steps key attempts index c t :
  transaction c = Some t -> committed (insertAttempts steps key index attempts c).2 = committed c.
Proof.
  revert index c t. induction attempts as [|a attempts IH]; intros index c t Ht; cbn; [done |].
  destruct (step_committed (steps index) (insertAttempt key (Z.of_nat index) a) c t Ht) as [Hc Hn].
  destruct (step _ _ c) as [[] c1]; cbn in *; [|done]. destruct (Hn eq_refl) as [t' Ht']. by erewrite IH.
Qed.
Lemma insertRecord_committed steps r c t :
  transaction c = Some t -> committed (insertRecord steps r c).2 = committed c.
Proof.
  intros Ht. unfold insertRecord. destruct (step_committed (steps 0%nat) (insertEvent r) c t Ht) as [Hc Hn].
  destruct (step _ _ c) as [[] c1]; cbn in *; [|done]. destruct (Hn eq_refl) as [t' Ht']. by erewrite insertAttempts_committed.
Qed.

Lemma insertAll_spec steps i batch d t :
  let '(ok, c') := insertAll steps i batch (mkConnection d (Some t)) in
  committed c' = d /\ (ok = true -> transaction c' = Some (insertBatch t batch)).
Proof.
  revert i t. induction batch as [|r batch IH]; intros i t; cbn; [done |].
  pose proof (insertRecord_committed (steps i) r (mkConnection d (Some t)) t eq_refl) as Hc.
  destruct (insertRecord (steps i) r (mkConnection d (Some t))) as [[] c1] eqn:E; cbn in Hc; [|done].
  apply insertRecord_done in E. subst c1. cbn. apply IH.
Qed.

(** A batch is written as a whole or not at all. *)
Lemma writeBatch_atomic a batch c :
  let '(ok, c') := writeBatch a batch c in
  if ok then transaction c = None /\ c' = mkConnection (insertBatch (committed c) batch) None else committed c' = committed c.
Proof.
  unfold writeBatch, beginTransaction. destruct c as [d [t|]]; cbn [transaction committed].
  - cbn. by case_if.
  - destruct (begins a); cbn [fst snd]; [|done].
    pose proof (insertAll_spec (inserts a) 0 batch d d) as H. destruct (insertAll _ _ _ _) as [[] c1].
    + destruct H as [Hc Ht]. specialize (Ht eq_refl). unfold commitTransaction. rewrite Ht. destruct (commits a); [done |].
      unfold rollbackTransaction. rewrite Ht. by case_if.
    + destruct H as [Hc _]. unfold rollbackTransaction. destruct (transaction c1); [by case_if | done].
Qed.

(** ** The invariant of the tables *)

Definition attemptsOf (d : Database) (key : Z) : list AttemptRow := filter (λ a, event_id a = key) (probe_attempts d).

(** Keys ascend and are never reused, every attempt belongs to an event, and an event has
    exactly as many attempts as it says, in order. *)
Record consistent (d : Database) : Prop := {
  keys_ascend : StronglySorted Z.lt (rowid <$> probe_events d);
  keys_used : Forall (λ e, rowid e <= sequence d) (probe_events d);
  no_orphans : Forall (λ a, event_id a ∈ rowid <$> probe_events d) (probe_attempts d);
  all_attempts : Forall (λ e, ordinal <$> attemptsOf d (rowid e) = seqZ 0 (attempt_count e) /\ 0 <= attempt_count e) (probe_events d);
}.

Lemma ascend_NoDup l : StronglySorted Z.lt l -> NoDup l.
Proof.
  induction 1 as [|x l _ IH Hx]; constructor; [|done]. intros Hin. rewrite Forall_forall in Hx. specialize (Hx x Hin). lia.
Qed.
(** The keys of the rows a filter keeps. *)
Lemma keys_filter (P : EventRow -> Prop) `{!forall x, Decision (P x)} l :
  StronglySorted Z.lt (rowid <$> l) -> StronglySorted Z.lt (rowid <$> filter P l).
Proof.
  induction l as [|e l IH]; [done |]; cbn [fmap list_fmap]. intros [Hs He]%StronglySorted_inv. rewrite filter_cons. case_decide; [|auto].
  cbn [fmap list_fmap]. constructor; [auto |]. rewrite Forall_fmap, Forall_forall in *. intros x [_ Hx]%list_elem_of_filter. by apply He.
Qed.

Lemma newDatabase_consistent : consistent newDatabase.
Proof. split; constructor. Qed.

(** The attempts of the events that were there, and of the new one. *)
Lemma insertWhole_attempts d r :
  consistent d ->
  (forall e, e ∈ probe_events d -> attemptsOf (insertWhole d r) (rowid e) = attemptsOf d (rowid e)) /\
  attemptsOf (insertWhole d r) (sequence d + 1) = attemptRows r (sequence d + 1).
Proof.
  intros [K1 K2 K3 K4]. rewrite Forall_forall in K2. rewrite Forall_forall in K3. set (key := sequence d + 1).
  assert (Hfresh : key ∉ rowid <$> probe_events d).
  { intros (e & He & Hin)%list_elem_of_fmap. specialize (K2 e Hin). unfold key in He. lia. }
  assert (Hnew : Forall (λ a, event_id a = key) (attemptRows r key)).
  { apply Forall_forall. intros a Ha. apply elem_of_lookup_imap in Ha as (i & x & -> & _). done. }
  unfold attemptsOf, insertWhole. cbn. fold key. split.
  - intros e He. rewrite filter_app. rewrite (filter_none _ (attemptRows r key)), app_nil_r; [done |].
    eapply Forall_impl; [exact Hnew |]. cbn. intros a -> E'. apply Hfresh. rewrite E'. by apply list_elem_of_fmap_2.
  - rewrite filter_app, (filter_none _ (probe_attempts d)); [by rewrite filter_every |].
    apply Forall_forall. intros a Ha E. apply Hfresh. rewrite <- E. auto.
Qed.

Lemma insertWhole_consistent d r : consistent d -> consistent (insertWhole d r).
Proof.
  intros H. destruct (insertWhole_attempts d r H) as [Hold Hnew]. destruct H as [K1 K2 K3 K4].
  rewrite Forall_forall in K2. rewrite Forall_forall in K3. rewrite Forall_forall in K4. split; [cbn | cbn | cbn |].
  - rewrite fmap_app. apply StronglySorted_snoc; [done |]. rewrite Forall_fmap. apply Forall_forall. intros e He. specialize (K2 e He). cbn. lia.
  - rewrite Forall_app. split; [|constructor; [cbn; lia | constructor]]. apply Forall_forall. intros e He. specialize (K2 e He). lia.
  - rewrite fmap_app, Forall_app. split; apply Forall_forall; intros a Ha; apply elem_of_app; [left; auto | right].
    apply elem_of_lookup_imap in Ha as (i & x & -> & _). apply list_elem_of_singleton. done.
  - change (probe_events (insertWhole d r)) with (probe_events d ++ [eventRow r (sequence d + 1)]). rewrite Forall_app. split.
    + apply Forall_forall. intros e He. rewrite Hold by done. auto.
    + constructor; [|constructor]. cbn [rowid eventRow attempt_count]. split; [|apply zlen_nonneg]. rewrite Hnew. unfold attemptRows. rewrite fmap_imap.
      apply list_eq. intros i. rewrite list_lookup_imap. destruct (pr_attempts r !! i) as [a|] eqn:Ei; cbn.
      * symmetry. apply lookup_seqZ. pose proof (lookup_lt_Some _ _ _ Ei). unfold zlen. cbn. lia.
      * symmetry. apply lookup_ge_None in Ei. apply lookup_ge_None. rewrite length_seqZ. unfold zlen. lia.
Qed.

Lemma insertBatch_consistent d batch : consistent d -> consistent (insertBatch d batch).
Proof. revert d. induction batch as [|r batch IH]; intros d H; [done |]. by apply IH, insertWhole_consistent. Qed.

(** Deleting never leaves half an event behind. *)
Lemma deleteEvents_attempts doomed d e :
  consistent d -> e ∈ probe_events d -> doomed e = false -> attemptsOf (deleteEvents doomed d) (rowid e) = attemptsOf d (rowid e).
Proof.
  intros [K1 _ _ _] He Hd. pose proof (ascend_NoDup _ K1) as Hnd. unfold attemptsOf, deleteEvents. cbn.
  rewrite list_filter_filter. apply list_filter_iff. intros a. split; [tauto |]. intros Ea. split; [done |]. rewrite Ea.
  intros (e' & E & [Hd' He']%list_elem_of_filter)%list_elem_of_fmap. cbn in Hd'.
  enough (e = e') by congruence. apply list_elem_of_lookup in He as [i Hi]. apply list_elem_of_lookup in He' as [j Hj].
  enough (i = j) by congruence. eapply NoDup_lookup; [exact Hnd | |]; rewrite list_lookup_fmap; [by rewrite Hi | by rewrite Hj, E].
Qed.
Lemma deleteEvents_consistent doomed d : consistent d -> consistent (deleteEvents doomed d).
Proof.
  intros H. pose proof (deleteEvents_attempts doomed d) as Hatt. destruct H as [K1 K2 K3 K4].
  rewrite Forall_forall in K2. rewrite Forall_forall in K3. rewrite Forall_forall in K4. split; [cbn | cbn | cbn |].
  - by apply keys_filter.
  - apply Forall_forall. intros e [_ He]%list_elem_of_filter. auto.
  - apply Forall_forall. intros a [Hg Ha]%list_elem_of_filter. specialize (K3 a Ha).
    apply list_elem_of_fmap in K3 as (e & E & He). rewrite E. apply list_elem_of_fmap_2, list_elem_of_filter. split; [|done].
    destruct (doomed e) eqn:Hd; [|done]. destruct Hg. rewrite E. apply list_elem_of_fmap_2, list_elem_of_filter. done.
  - apply Forall_forall. intros e [Hd He]%list_elem_of_filter. rewrite Hatt; [auto | | done | done]. split; [done | | |]; by apply Forall_forall.
Qed.

Lemma deleteOverflow_events n d :
  consistent d -> probe_events (deleteOverflow n d) = drop (length (probe_events d) - n) (probe_events d).
Proof.
  intros [K1 _ _ _]. unfold deleteOverflow, deleteEvents. cbn [probe_events]. pose proof (ascend_NoDup _ K1) as Hnd.
  set (l := probe_events d) in *. set (k := (length l - n)%nat).
  rewrite <- (take_drop k l) at 1. rewrite filter_app.
  assert (Hb : drop n (reverse (rowid <$> l)) = reverse (rowid <$> take k l)).
  { rewrite <- (take_drop k l) at 1. rewrite fmap_app, reverse_app. unfold k. destruct (decide (n <= length l)%nat).
    - apply drop_app_length'. rewrite length_reverse, length_fmap, length_drop. lia.
    - replace (length l - n)%nat with 0%nat by lia. cbn. rewrite app_nil_r. apply drop_ge. rewrite length_reverse, length_fmap, length_drop. lia. }
  rewrite <- (take_drop k l), fmap_app in Hnd. apply NoDup_app in Hnd as (_ & Hdis & _).
  rewrite Hb, filter_none, filter_every; [done | |]; apply Forall_forall; intros e He.
  - apply bool_decide_eq_false_2. intros Hin. rewrite elem_of_reverse in Hin. apply (Hdis (rowid e) Hin). by apply list_elem_of_fmap_2.
  - apply not_false_iff_true, bool_decide_eq_true_2, elem_of_reverse. by apply list_elem_of_fmap_2.
Qed.

(** Rewriting rows without touching their keys and counts. *)
Lemma fmap_consistent f d :
  consistent d -> (forall e, rowid (f e) = rowid e /\ attempt_count (f e) = attempt_count e) -> consistent (setEvents (fmap f) d).
Proof.
  intros [K1 K2 K3 K4] Hf. assert (Hk : rowid <$> (f <$> probe_events d) = rowid <$> probe_events d).
  { rewrite <- list_fmap_compose. apply list_fmap_ext. intros i e _. apply (Hf e). }
  split; cbn; rewrite ?Hk; try done; rewrite Forall_fmap.
  - eapply Forall_impl; [exact K2 |]. cbn. intros e H. rewrite (proj1 (Hf e)). exact H.
  - eapply Forall_impl; [exact K4 |]. cbn. intros e H. destruct (Hf e) as [-> ->]. exact H.
Qed.
Lemma version_consistent v d : consistent d -> consistent (setVersion v d).
Proof. intros []. by split. Qed.

(** ** What becomes of the history *)

(** What the writer does with its connection, with every answer SQLite can give; closing
    rolls back what is open. *)
Inductive HistoryOp :=
  | Initialize (executed : nat -> bool) (a : MigrationAnswers)
  | Write (a : BatchAnswers) (batch : list ProbeRecord)
  | Prune (retentionDays maxEvents now : Z) (a b : Step)
  | Close.

Definition historyStep (c : Connection) (op : HistoryOp) : Connection :=
  match op with
  | Initialize executed a => (initializeDatabase executed a c).2
  | Write a batch => (writeBatch a batch c).2
  | Prune retentionDays maxEvents now a b => pruneDatabase retentionDays maxEvents now a b c
  | Close => mkConnection (committed c) None
  end.
Definition history : Connection -> list HistoryOp -> Connection := foldl historyStep.

Lemma step_keeps (P : Database -> Prop) answer f c :
  P (committed c) -> (P (committed c) -> P (f (committed c))) -> P (committed (step answer f c).2).
Proof. intros H Hf. destruct answer; cbn; [|done | done]. unfold change. destruct (transaction c); cbn; auto. Qed.

Definition migrated (d : Database) : Database :=
  setVersion 2 (setEvents (λ events, reclassifyTransient events <$> events) (setEvents (fmap reclassifyLearned) d)).

(** The migration happens as a whole or not at all. *)
Lemma migrateDatabase_spec a c :
  committed (migrateDatabase a c).2 = committed c \/
  user_version (committed c) < 2 /\ transaction c = None /\ migrateDatabase a c = (true, mkConnection (migrated (committed c)) None) \/
  versionRead a = false /\ transaction c = None /\ migrateDatabase a c = (true, mkConnection (migrated (committed c)) None).
Proof.
  unfold migrateDatabase, schemaVersion. destruct c as [d t]. destruct (Z.leb_spec 2 (if versionRead a then user_version (current (mkConnection d t)) else 0)) as [|Hv]; [by left |]. unfold beginTransaction. cbn [transaction committed].
  destruct t as [t|]; [by left |]. destruct (migrationBegins a); [|by left]. cbn [negb].
  destruct (updates a 0%nat); cbn; [|by case_if; left | by left].
  destruct (updates a 1%nat); cbn; [|by case_if; left | by left].
  destruct (updates a 2%nat); cbn; [|by case_if; left | by left].
  destruct (migrationEnds a); cbn; [right | by left]. unfold current in Hv. cbn in Hv. destruct (versionRead a); [left | by right].
  by split.
Qed.

(** The migration changes the diagnosis of a row and nothing else. *)
Definition reclassified (before after : EventRow) : Prop :=
  after = before \/ exists kind confidence, after = setConfidence confidence (setKind kind before).
Lemma reclassified_trans a b c : reclassified a b -> reclassified b c -> reclassified a c.
Proof.
  intros [-> |(k & v & ->)] [-> |(k' & v' & ->)]; [by left | right; eauto | right; eauto |]. right. by exists k', v'.
Qed.
Lemma reclassifyLearned_ok e : reclassified e (reclassifyLearned e).
Proof. unfold reclassifyLearned. case_if; [|by left]. right. exists (name LearnedProfile), (event_confidence e). by destruct e. Qed.
Lemma reclassifyTransient_ok events e : reclassified e (reclassifyTransient events e).
Proof. unfold reclassifyTransient. case_if; [right; eauto | by left]. Qed.

(** Every event is a record that was handed over, with all of its attempts. *)
Definition traceable (R : ProbeRecord -> Prop) (d : Database) : Prop :=
  forall e, e ∈ probe_events d -> exists r, R r /\ reclassified (eventRow r (rowid e)) e /\ attemptsOf d (rowid e) = attemptRows r (rowid e).

Definition sound (R : ProbeRecord -> Prop) (d : Database) : Prop := consistent d /\ traceable R d.

Lemma insertWhole_sound R d r : R r -> sound R d -> sound R (insertWhole d r).
Proof.
  intros Hr [Hc Ht]. split; [by apply insertWhole_consistent |]. destruct (insertWhole_attempts d r Hc) as [Hold Hnew].
  intros e [He|He%list_elem_of_singleton]%elem_of_app.
  - destruct (Ht e He) as (r' & ? & ? & Ha). exists r'. split_and!; [done | done |]. by rewrite Hold.
  - rewrite He. exists r. split_and!; [done | by left | exact Hnew].
Qed.
Lemma insertBatch_sound R d batch : Forall R batch -> sound R d -> sound R (insertBatch d batch).
Proof. intros HR. revert d. induction HR as [|r batch Hr _ IH]; intros d H; [done |]. by apply IH, insertWhole_sound. Qed.

Lemma deleteEvents_sound R doomed d : sound R d -> sound R (deleteEvents doomed d).
Proof.
  intros [Hc Ht]. split; [by apply deleteEvents_consistent |]. intros e [Hd He]%list_elem_of_filter.
  destruct (Ht e He) as (r & ? & ? & Ha). exists r. split_and!; [done | done |]. by rewrite deleteEvents_attempts.
Qed.

Lemma setEvents_sound R f d : (forall e, reclassified e (f e)) -> sound R d -> sound R (setEvents (fmap f) d).
Proof.
  intros Hf [Hc Ht].
  assert (Hkeys : forall e, rowid (f e) = rowid e /\ attempt_count (f e) = attempt_count e) by (intros e; by destruct (Hf e) as [-> |(k & v & ->)]).
  split; [by apply fmap_consistent |]. intros e' (e & -> & He)%list_elem_of_fmap. destruct (Ht e He) as (r & ? & Hre & Ha). exists r.
  rewrite (proj1 (Hkeys e)). split_and!; [done | | exact Ha]. eapply reclassified_trans; [exact Hre | apply Hf].
Qed.

Lemma migrated_sound R d : sound R d -> sound R (migrated d).
Proof.
  intros H. unfold migrated. set (d1 := setEvents (fmap reclassifyLearned) d).
  assert (H1 : sound R d1) by (apply setEvents_sound; [apply reclassifyLearned_ok | done]).
  assert (H2 : sound R (setEvents (fmap (reclassifyTransient (probe_events d1))) d1)) by (apply setEvents_sound; [apply reclassifyTransient_ok | done]).
  destruct H2 as [Hc Ht]. split; [by apply version_consistent |]. exact Ht.
Qed.

(** The records of a sequence of operations. *)
Definition handed (ops : list HistoryOp) (r : ProbeRecord) : Prop := exists a batch, Write a batch ∈ ops /\ r ∈ batch.

Lemma historyStep_sound R c op :
  (forall r, handed [op] r -> R r) -> sound R (committed c) -> sound R (committed (historyStep c op)).
Proof.
  intros HR H. destruct op as [executed a|a batch|days n now a b|]; cbn [historyStep].
  - unfold initializeDatabase. case_if; [|done].
    destruct (migrateDatabase_spec a c) as [-> |[(_ & _ & ->)|(_ & _ & ->)]]; [done | |]; by apply migrated_sound.
  - pose proof (writeBatch_atomic a batch c) as Hw. destruct (writeBatch a batch c) as [[] c']; cbn.
    + destruct Hw as [_ ->]. apply insertBatch_sound; [|done]. apply Forall_forall. intros r Hr. apply HR. exists a, batch.
      split; [by apply list_elem_of_singleton | done].
    + by rewrite Hw.
  - unfold pruneDatabase. apply step_keeps; [|intros; by apply deleteEvents_sound]. apply step_keeps; [done | intros; by apply deleteEvents_sound].
  - done.
Qed.

Lemma history_ok ops : sound (handed ops) (committed (history (mkConnection newDatabase None) ops)).
Proof.
  enough (H : forall ops' c, (forall r, handed ops' r -> handed ops r) -> sound (handed ops) (committed c) ->
    sound (handed ops) (committed (history c ops'))).
  { apply (H ops); [done |]. split; [apply newDatabase_consistent | intros e He; by apply elem_of_nil in He]. }
  intros ops'. induction ops' as [|op ops' IH]; intros c Hh H; [done |]. apply IH.
  - intros r (a & batch & Hin & Hr). apply Hh. exists a, batch. split; [by apply list_elem_of_further | done].
  - apply historyStep_sound; [|done]. intros r (a & batch & Hin%list_elem_of_singleton & Hr). apply Hh. exists a, batch.
    split; [rewrite Hin; apply list_elem_of_here | done].
Qed.

(** The history tells what happened. Whatever SQLite answers to any statement of any
    batch, migration or pruning, and whenever the program dies, what is committed has
    ascending keys that are never reused, no attempt without its event, and each event is
    one of the records that were handed over, with all of its attempts in order; nothing but
    the diagnosis of a row is ever rewritten. *)
Theorem history_sound ops :
  let d := committed (history (mkConnection newDatabase None) ops) in consistent d /\ traceable (handed ops) d.
Proof. apply history_ok. Qed.

(** What is kept. Pruning keeps exactly the newest [maxEvents] of the events that are
    not older than the retention, with all of their attempts. *)
Theorem retention_exact retentionDays maxEvents now d :
  consistent d -> 0 <= maxEvents ->
  let fresh := filter (λ e, now - retentionDays * 86400 <= occurred_at e) (probe_events d) in
  let d' := committed (pruneDatabase retentionDays maxEvents now StepDone StepDone (mkConnection d None)) in
  probe_events d' = drop (length fresh - Z.to_nat maxEvents) fresh /\ zlen (probe_events d') <= maxEvents /\
  consistent d' /\ forall e, e ∈ probe_events d' -> attemptsOf d' (rowid e) = attemptsOf d (rowid e).
Proof.
  intros Hc Hn fresh d'. set (stale := λ e, occurred_at e <? now - retentionDays * 86400).
  set (d1 := deleteEvents stale d). assert (Hc1 : consistent d1) by (by apply deleteEvents_consistent).
  assert (Hfresh : probe_events d1 = fresh).
  { apply list_filter_iff. intros e. unfold stale. destruct (Z.ltb_spec (occurred_at e) (now - retentionDays * 86400)); split; (done || lia). }
  assert (Hd' : d' = deleteOverflow (Z.to_nat maxEvents) d1) by done. rewrite Hd'.
  rewrite deleteOverflow_events, Hfresh by done. split_and!; [done | | by apply deleteEvents_consistent |].
  - unfold zlen. rewrite length_drop. lia.
  - intros e He. assert (He1 : e ∈ probe_events (deleteOverflow (Z.to_nat maxEvents) d1)) by (rewrite deleteOverflow_events, Hfresh; done).
    apply list_elem_of_filter in He1 as [Hd1 He1]. unfold deleteOverflow. rewrite deleteEvents_attempts by done.
    apply list_elem_of_filter in He1 as [Hd2 He2]. by apply deleteEvents_attempts.
Qed.

(** Three decisions, one of them old. *)
Definition sampleRecord (at_ : Z) : ProbeRecord :=
  mkProbeRecord at_ (str "n") (str "h") [] (mkVerdict SniInterferenceLikely 92 (str "split"))
    [mkAttempt (str "none") Timeout 3000; mkAttempt (str "split") ServerHello 40] 3060 true false.
Lemma retention_exact_witness :
  let d := insertBatch newDatabase (sampleRecord <$> [100; 864000; 864001; 864002]) in
  let d' := committed (pruneDatabase 1 2 864100 StepDone StepDone (mkConnection d None)) in
  rowid <$> probe_events d' = [3; 4] /\ zlen (probe_events d') <= 2.
Proof.
  intros d d'. split; [vm_compute; reflexivity |].
  destruct (retention_exact 1 2 864100 d (insertBatch_consistent _ _ newDatabase_consistent) ltac:(lia)) as (_ & H & _). exact H.
Defined.

Lemma healthyNear_learned l e : healthyNear (reclassifyLearned <$> l) e = healthyNear l e.
Proof.
  unfold healthyNear. induction l as [|y l IH]; [done |]. cbn [fmap list_fmap existsb]. rewrite IH.
  unfold reclassifyLearned. by destruct (interference y && bool_decide (baseline_signal y = None)).
Qed.

(** The migration leaves no interference that was never measured, nor one that an answer
    without help contradicts. *)
Theorem migration_withdraws d e :
  e ∈ probe_events (migrated d) -> interference e = true ->
  e ∈ probe_events d /\ (exists s, baseline_signal e = Some s) /\ (baseline_signal e <> Some (signalName ServerHello) -> healthyNear (probe_events d) e = false).
Proof.
  intros (e1 & He & (e0 & -> & H0)%list_elem_of_fmap)%list_elem_of_fmap Hi.
  change (e = reclassifyTransient (reclassifyLearned <$> probe_events d) (reclassifyLearned e0)) in He.
  unfold reclassifyTransient in He. rewrite healthyNear_learned in He.
  assert (E0 : reclassifyLearned e0 = e0 /\ baseline_signal e0 <> None).
  { unfold reclassifyLearned in *. destruct (interference e0 && bool_decide (baseline_signal e0 = None)) eqn:E; [|split; [done |]].
    - exfalso. subst e. cbn in Hi. by vm_compute in Hi.
    - intros Hb. rewrite Hb, andb_true_r in E. rewrite E in He. cbn in He. congruence. }
  destruct E0 as [E0 Hb]. rewrite E0 in He. case_if_in He; subst e; [by vm_compute in Hi |]. split; [done |]. split; [by apply not_eq_None_Some in Hb as [s ?]; eauto |].
  intros Hne. rewrite Hi in E. cbn [andb] in E. destruct (baseline_signal e0) as [s|]; [|done]. rewrite bool_decide_eq_false_2 in E by congruence. exact E.
Qed.
