(* ===== verification/Dashboard.v ===== *)
(** * Dashboard: the report made of the history

    Models [dashboardSnapshot] and [serializeDashboard] of [src/src/Telemetry.cpp] and
    [DashboardData] of [src/src/Telemetry.hpp]. The queries are functions on the rows of
    [Telemetry]. SQL leaves the order of groups with equal counts open: the class [RowOrder]
    is the order in which SQLite happens to visit rows and groups, and all theorems hold for
    every one. How many rows a query gives before it fails is an input, as is what the
    database holds at each query if no transaction could be begun. An average is kept as
    its sum and count; its text, the local date of a time and the truncated product of a
    fraction are parameters. *)

From S2P Require Import Prelude Json Diagnosis Telemetry.

Class RowOrder := {
  visit : forall {A : Type}, list A -> list A;
  visit_perm : forall (A : Type) (l : list A), visit l ≡ₚ l;
}.
#[export] Instance row_order_default : RowOrder := {| visit := λ A l, l; visit_perm := λ A l, reflexivity l |}.

(** ** Data *)

Record Average := mkAverage { sumOf : Z; countOf : Z }.

Record KeyCount := mkKeyCount { key : bytes; count : Z }.
Record Profile := mkProfile {
  profile_name : bytes; profile_count : Z; profile_latency : Average; profile_attempts : Average;
}.
Record Day := mkDay {
  day : bytes; day_total : Z; day_bypassed : Z; day_learned : Z; day_unresolved : Z; day_suspected : Z;
}.
Record ShownAttempt := mkShownAttempt { shown_profile : bytes; shown_signal : bytes; shown_elapsedMs : Z }.
Record ShownEvent := mkShownEvent {
  ev_id : Z; ev_timestamp : Z; ev_network : bytes; ev_host : bytes; ev_baseline : bytes; ev_diagnosis : bytes;
  ev_confidence : Z; ev_winner : bytes; ev_remembered : bytes; ev_success : bool; ev_forced : bool; ev_cacheHit : bool;
  ev_attemptCount : Z; ev_totalElapsedMs : Z; ev_attempts : list ShownAttempt;
}.
Record Percentiles := mkPercentiles { p50 : Z; p90 : Z; p99 : Z; worst : Z }.
Record Bucket := mkBucket { upperMs : Z; bucket_count : Z }.
Record HostStat := mkHostStat {
  hs_host : bytes; hs_total : Z; hs_bypassed : Z; hs_unresolved : Z; hs_latency : Average;
}.
(** The counters of a window. *)
Record Summary := mkSummary {
  total : Z; bypassed : Z; normal : Z; unresolved : Z; averageLatencyMs : Average; cacheHits : Z; learned : Z; suspected : Z;
}.
Definition noSummary : Summary := mkSummary 0 0 0 0 (mkAverage 0 0) 0 0 0.

Record DashboardData := mkDashboardData {
  ready : bool;
  error : bytes;
  generatedAt : Z;
  windowDays : Z;
  summary : Summary;
  latency : Percentiles;
  previous : Summary;
  diagnoses : list KeyCount;
  signals : list KeyCount;
  profiles : list Profile;
  daily : list Day;
  latencyHistogram : list Bucket;
  topHosts : list HostStat;
  recent : list ShownEvent;
}.

Definition emptyDashboard (error : bytes) (windowDays now : Z) : DashboardData :=
  mkDashboardData false error now windowDays noSummary (mkPercentiles 0 0 0 0) noSummary [] [] [] [] [] [] [].

(** ** Queries *)

(** [sqlite3_column_text] as a C string. *)
Fixpoint columnText (s : bytes) : bytes :=
  match s with [] => [] | c :: s => if c =? 0 then [] else c :: columnText s end.

(** [COALESCE(SUM(condition),0)] *)
Definition counted (P : EventRow -> bool) (rows : list EventRow) : Z := zlen (filter (λ e, P e = true) rows).
(** [COALESCE(AVG(column),0)]; [SUM] is [zsum] *)
Definition average (f : EventRow -> Z) (rows : list EventRow) : Average := mkAverage (zsum f rows) (zlen rows).

Definition isKind (kinds : list Kind) (e : EventRow) : bool := bool_decide (diagnosis_kind e ∈ name <$> kinds).
Definition failed (e : EventRow) : bool := event_success e =? 0.

Definition summaryRow (rows : list EventRow) : Summary :=
  mkSummary (zlen rows) (counted (isKind [SniInterferenceLikely]) rows) (counted (isKind [NoInterference]) rows)
    (counted failed rows) (average total_elapsed_ms rows) (zsum cache_hit rows)
    (counted (isKind [LearnedProfile; TransientFailure]) rows) (counted (isKind [InterferenceSuspected]) rows).
(** The previous window has no column for [cacheHits]. *)
Definition previousRow (rows : list EventRow) : Summary :=
  let s := summaryRow rows in
  mkSummary (total s) (bypassed s) (normal s) (unresolved s) (averageLatencyMs s) 0 (learned s) (suspected s).

(** [ORDER BY] *)
Definition sortBy {A} (leb : A -> A -> bool) (l : list A) : list A :=
  @merge_sort A (λ x y, leb x y = true) (λ x y, bool_eq_dec (leb x y) true) l.

Section Queries.
Context `{!RowOrder}.

(** [GROUP BY] *)
Definition groupBy {K} `{!EqDecision K} (f : EventRow -> K) (rows : list EventRow) : list (K * list EventRow) :=
  (λ k, (k, filter (λ e, f e = k) rows)) <$> visit (remove_dups (f <$> rows)).

(** [ORDER BY ... DESC] *)
Definition descending {A} (f : A -> Z) : list A -> list A := sortBy (λ x y, f y <=? f x).

Definition kEdges : list Z := [50; 100; 200; 400; 800; 1600; 3200].
(** The [CASE] of the histogram. *)
Fixpoint bucketOf (edges : list Z) (ms : Z) : nat :=
  match edges with
  | [] => 0
  | edge :: edges => if ms <? edge then 0 else S (bucketOf edges ms)
  end.
Definition histogramRows (rows : list EventRow) : list (nat * Z) :=
  (λ g, (g.1, zlen g.2)) <$> groupBy (λ e, bucketOf kEdges (total_elapsed_ms e)) rows.
Definition kBucketCount : nat := length kEdges + 1.
Definition histogram (answered : list (nat * Z)) : list Bucket :=
  let counts := foldl (λ counts r, <[r.1 := r.2]> counts) (replicate kBucketCount 0) answered in
  zip_with mkBucket (kEdges ++ [0]) counts.

(** Hosts by how often they needed help, then by how often they were seen. *)
Definition needed (x y : HostStat) : bool :=
  let score h := hs_bypassed h + hs_unresolved h in
  (score y <? score x) || (score y =? score x) && (hs_total y <=? hs_total x).
Definition hostRows (rows : list EventRow) : list HostStat :=
  take 8 (sortBy needed
    ((λ g, mkHostStat (columnText g.1) (zlen g.2) (counted (isKind [SniInterferenceLikely]) g.2) (counted failed g.2)
            (average total_elapsed_ms g.2)) <$> groupBy event_host rows)).

Definition breakdown (f : EventRow -> bytes) (rows : list EventRow) : list KeyCount :=
  descending count ((λ g, mkKeyCount (columnText g.1) (zlen g.2)) <$> groupBy f rows).
Definition diagnosisRows : list EventRow -> list KeyCount := breakdown diagnosis_kind.
Definition signalRows : list EventRow -> list KeyCount := breakdown (λ e, default (str "not-tested") (baseline_signal e)).

Definition profileRows (rows : list EventRow) : list Profile :=
  take 16 (descending profile_count
    ((λ g, mkProfile (columnText (default [] g.1)) (zlen g.2) (average total_elapsed_ms g.2) (average attempt_count g.2)) <$>
     groupBy winning_profile (filter (λ e, event_success e = 1 /\ winning_profile e <> None) rows))).

(** [memcmp] order of texts, NULL first. *)
Fixpoint bytes_leb (a b : bytes) : bool :=
  match a, b with
  | [], _ => true
  | _ :: _, [] => false
  | x :: a, y :: b => (x <? y) || (x =? y) && bytes_leb a b
  end.
Definition text_leb (a b : option bytes) : bool :=
  match a, b with None, _ => true | Some _, None => false | Some a, Some b => bytes_leb a b end.

Variable localDay : Z -> option bytes.     (* [strftime] in local time; NULL if it fails *)
Definition dailyRows (rows : list EventRow) : list Day :=
  (λ g, mkDay (columnText (default [] g.1)) (zlen g.2) (counted (isKind [SniInterferenceLikely]) g.2)
          (counted (isKind [LearnedProfile; TransientFailure]) g.2) (counted failed g.2)
          (counted (isKind [InterferenceSuspected]) g.2)) <$>
  sortBy (λ a b, text_leb a.1 b.1) (groupBy (λ e, localDay (occurred_at e)) rows).

(** [ORDER BY total_elapsed_ms LIMIT 1 OFFSET ?] *)
Definition quantileRow (offset : Z) (rows : list EventRow) : list Z :=
  take 1 (drop (Z.to_nat offset) (sortBy Z.leb (total_elapsed_ms <$> visit rows))).

Definition recentRows (rows : list EventRow) : list EventRow := take 250 (descending rowid rows).
Definition attemptRowsOf (d : Database) (key : Z) : list AttemptRow :=
  sortBy (λ a b, ordinal a <=? ordinal b) (visit (attemptsOf d key)).

Definition shownAttempt (a : AttemptRow) : ShownAttempt :=
  mkShownAttempt (columnText (attempt_profile a)) (columnText (attempt_signal a)) (elapsed_ms a).
Definition shownEvent (e : EventRow) (attempts : list AttemptRow) : ShownEvent :=
  mkShownEvent (rowid e) (occurred_at e) (columnText (network_id e)) (columnText (event_host e))
    (columnText (default [] (baseline_signal e))) (columnText (diagnosis_kind e)) (event_confidence e)
    (columnText (default [] (winning_profile e))) (columnText (default [] (remembered_profile e)))
    (negb (event_success e =? 0)) (negb (event_forced e =? 0)) (negb (cache_hit e =? 0)) (attempt_count e) (total_elapsed_ms e)
    (shownAttempt <$> attempts).

(** ** The snapshot *)

Inductive Query :=
  | QSummary | QPrevious | QQuantile (percent : Z) | QHistogram | QHosts | QDiagnoses | QSignals | QProfiles | QDaily | QRecent
  | QAttempts (event : Z).

Variable limit : Query -> option nat.        (* how many rows before it fails; [None]: all *)
Variable view : Query -> Database.           (* what the query sees *)
Variable scaled : Z -> Z -> Z.               (* a percentage of a number, truncated *)

Definition answered {A} (q : Query) (rows : list A) : list A :=
  match limit q with None => rows | Some n => take n rows end.

(** [WHERE occurred_at>=?] *)
Definition window (cutoff : Z) (q : Query) : list EventRow :=
  filter (λ e, cutoff <= occurred_at e) (probe_events (view q)).

Definition at_ (cutoff total percent : Z) : Z :=
  let offset := Z.max 0 (Z.min (scaled percent (total - 1)) (total - 1)) in
  default 0 (head (answered (QQuantile percent) (quantileRow offset (window cutoff (QQuantile percent))))).

Definition shownRecent (e : EventRow) : ShownEvent :=
  shownEvent e (answered (QAttempts (rowid e)) (attemptRowsOf (view (QAttempts (rowid e))) (rowid e))).

Definition snapshot (windowDays now : Z) : DashboardData :=
  let cutoff := now - windowDays * 86400 in
  let previousCutoff := cutoff - windowDays * 86400 in
  let summary := default noSummary (head (answered QSummary [summaryRow (window cutoff QSummary)])) in
  let previous := default noSummary (head (answered QPrevious
    [previousRow (filter (λ e, previousCutoff <= occurred_at e < cutoff) (probe_events (view QPrevious)))])) in
  mkDashboardData true [] now windowDays summary
    (if 0 <? total summary
     then mkPercentiles (at_ cutoff (total summary) 50) (at_ cutoff (total summary) 90)
            (at_ cutoff (total summary) 99) (at_ cutoff (total summary) 100)
     else mkPercentiles 0 0 0 0)
    previous
    (answered QDiagnoses (diagnosisRows (window cutoff QDiagnoses)))
    (answered QSignals (signalRows (window cutoff QSignals)))
    (answered QProfiles (profileRows (window cutoff QProfiles)))
    (answered QDaily (dailyRows (window cutoff QDaily)))
    (histogram (answered QHistogram (histogramRows (window cutoff QHistogram))))
    (answered QHosts (hostRows (window cutoff QHosts)))
    (shownRecent <$> answered QRecent (recentRows (window cutoff QRecent))).

(** [opened]: what opening the file gave, an error or a connection. *)
Definition dashboardSnapshot (path : bytes) (exists_ : bool) (opened : bytes + unit) (days now : Z) : DashboardData :=
  let windowDays := Z.max 1 (Z.min days 90) in
  if bool_decide (path = []) || negb exists_ then emptyDashboard (str "Henüz telemetri kaydı oluşmadı.") windowDays now else
  match opened with
  | inl error => emptyDashboard error windowDays now
  | inr _ => snapshot windowDays now
  end.
End Queries.

(** ** Sums and orders *)

Lemma counted_zsum (P : EventRow -> bool) rows : counted P rows = zsum (λ e, flag (P e)) rows.
Proof.
  unfold counted. induction rows as [|e rows IH]; [done |]. rewrite filter_cons, zsum_cons, <- IH. unfold flag.
  case_decide as H; [rewrite zlen_cons, H; lia |]. by destruct (P e).
Qed.
Lemma zlen_zsum {A} (l : list A) : zlen l = zsum (λ _, 1) l.
Proof. induction l as [|x l IH]; [done |]. rewrite zlen_cons, zsum_cons. lia. Qed.

(** One key of a list without duplicates takes each row. *)
Lemma zsum_one {K} `{!EqDecision K} (ks : list K) k v :
  NoDup ks -> k ∈ ks -> zsum (λ k', if decide (k = k') then v else 0) ks = v.
Proof.
  induction 1 as [|x ks Hx Hnd IH]; intros Hin; [by apply elem_of_nil in Hin |]. rewrite zsum_cons.
  apply elem_of_cons in Hin as [-> |Hin].
  - rewrite decide_True by done. rewrite (zsum_ext _ (λ _, 0)), zsum_zero; [lia |].
    apply Forall_forall. intros y Hy. apply decide_False. congruence.
  - rewrite decide_False by (intros ->; done). by rewrite IH.
Qed.

Lemma groups_sum {K} `{!EqDecision K} (f : EventRow -> K) w (ks : list K) rows :
  NoDup ks -> (forall e, e ∈ rows -> f e ∈ ks) -> zsum (λ k, zsum w (filter (λ e, f e = k) rows)) ks = zsum w rows.
Proof.
  intros Hnd. induction rows as [|e rows IH]; intros Hin; [apply zsum_zero |].
  rewrite zsum_cons, <- IH by (intros x Hx; apply Hin; by right).
  rewrite <- (zsum_one ks (f e) (w e) Hnd) by (apply Hin; by left). rewrite <- zsum_add. apply zsum_ext, Forall_forall. intros k _.
  rewrite filter_cons. case_decide; rewrite ?zsum_cons; lia.
Qed.

Lemma sortBy_perm {A} (leb : A -> A -> bool) l : sortBy leb l ≡ₚ l.
Proof. apply merge_sort_Permutation. Qed.

Section Groups.
Context `{!RowOrder}.

Lemma groupBy_sum {K} `{!EqDecision K} (f : EventRow -> K) w rows : zsum (λ g, zsum w g.2) (groupBy f rows) = zsum w rows.
Proof.
  unfold groupBy. rewrite zsum_fmap. cbn. apply groups_sum.
  - rewrite visit_perm. apply NoDup_remove_dups.
  - intros e He. rewrite visit_perm. apply elem_of_remove_dups. by apply list_elem_of_fmap_2.
Qed.
Lemma groupBy_counted {K} `{!EqDecision K} (f : EventRow -> K) P rows : zsum (λ g, counted P g.2) (groupBy f rows) = counted P rows.
Proof.
  rewrite counted_zsum, <- (groupBy_sum f). apply zsum_ext, Forall_true. intros g. apply counted_zsum.
Qed.
Lemma groupBy_len {K} `{!EqDecision K} (f : EventRow -> K) rows : zsum (λ g, zlen g.2) (groupBy f rows) = zlen rows.
Proof. rewrite zlen_zsum, <- (groupBy_sum f). apply zsum_ext, Forall_true. intros g. apply zlen_zsum. Qed.
End Groups.

Lemma sortBy_sorted {A} (leb : A -> A -> bool) l :
  (forall x y z, leb x y = true -> leb y z = true -> leb x z = true) -> (forall x y, leb x y = true \/ leb y x = true) ->
  StronglySorted (λ x y, leb x y = true) (sortBy leb l).
Proof. intros Ht Hl. apply StronglySorted_merge_sort; [exact Ht | exact Hl]. Qed.

(** Sorting by a number that no two elements share gives the only such list. *)
Lemma sortBy_unique {A} (leb : A -> A -> bool) (f : A -> Z) l k :
  (forall x y, leb x y = (f x <=? f y)) -> StronglySorted (λ x y, f x < f y) k -> l ≡ₚ k -> sortBy leb l = k.
Proof.
  intros Hf Hk Hp. assert (Hk' : StronglySorted (λ x y, leb x y = true) k).
  { clear Hp. induction Hk as [|x k _ IH Hx]; [constructor |]. constructor; [done |]. eapply Forall_impl; [exact Hx |]. cbn. intros y. rewrite Hf. lia. }
  apply (StronglySorted_unique_strong (λ x y, leb x y = true)); [| | done | by rewrite sortBy_perm].
  - intros x y Hx Hy Hxy Hyx. rewrite Hf in Hxy, Hyx. assert (E : f x = f y) by lia. rewrite sortBy_perm, Hp in Hx. clear -Hk Hx Hy E.
    induction Hk as [|z k _ IH Hz]; [by apply elem_of_nil in Hx |]. rewrite Forall_forall in Hz.
    apply elem_of_cons in Hx as [-> |Hx]; apply elem_of_cons in Hy as [-> |Hy]; auto; [specialize (Hz y Hy) | specialize (Hz x Hx)]; lia.
  - apply sortBy_sorted; intros *; rewrite !Hf; lia.
Qed.

(** ** The parts of the report *)

Section Parts.
Context `{!RowOrder}.

(** The four classes of the summary are disjoint. *)
Lemma summary_classes rows :
  let s := summaryRow rows in bypassed s + normal s + learned s + suspected s <= total s.
Proof.
  cbn. rewrite !counted_zsum, (zlen_zsum rows), <- !zsum_add. apply zsum_le, Forall_true. intros e. unfold isKind.
  repeat case_bool_decide; cbn; try lia; exfalso;
    repeat match goal with H : diagnosis_kind e ∈ _ |- _ => revert H end; rewrite ?fmap_cons, ?fmap_nil, ?elem_of_cons, ?elem_of_nil;
    intros; destruct_or?; try done; repeat match goal with H : diagnosis_kind e = _ |- _ => revert H end; intros ->; by vm_compute.
Qed.

Lemma breakdown_sum f rows : zsum count (breakdown f rows) = zlen rows.
Proof.
  unfold breakdown, descending. rewrite (zsum_perm _ _ _ (sortBy_perm _ _)), zsum_fmap. apply groupBy_len.
Qed.

Lemma daily_sums localDay rows :
  let days := dailyRows localDay rows in
  let s := summaryRow rows in
  zsum day_total days = total s /\ zsum day_bypassed days = bypassed s /\ zsum day_learned days = learned s /\
  zsum day_unresolved days = unresolved s /\ zsum day_suspected days = suspected s.
Proof.
  cbn. unfold dailyRows. rewrite !zsum_fmap, !(zsum_perm _ _ _ (sortBy_perm _ _)). cbn.
  by rewrite groupBy_len, !groupBy_counted.
Qed.

Lemma bucketOf_bound edges ms : (bucketOf edges ms <= length edges)%nat.
Proof. induction edges as [|x edges IH]; cbn; [lia |]. case_if; lia. Qed.

(** Filling in the rows of a query whose keys are distinct. *)
Lemma fill_lookup (answers : list (nat * Z)) counts i :
  NoDup answers.*1 -> Forall (λ r, (r.1 < length counts)%nat) answers ->
  foldl (λ counts r, <[r.1 := r.2]> counts) counts answers !! i =
  match list_find (λ r, r.1 = i) answers with Some (_, r) => Some r.2 | None => counts !! i end.
Proof.
  revert counts. induction answers as [|[k v] answers IH]; intros counts Hnd Hb; cbn; [done |].
  apply NoDup_cons in Hnd as [Hk Hnd]. apply Forall_cons in Hb as [Hkb Hb].
  rewrite IH by (rewrite ?length_insert; done). case_decide as E.
  - subst k. destruct (list_find _ answers) as [[j [k' v']]|] eqn:Hf.
    + apply list_find_Some in Hf as (Hj & E & _). cbn in E. subst k'. destruct Hk. apply list_elem_of_fmap. exists (i, v'). split; [done |]. by eapply list_elem_of_lookup_2.
    + cbn. by rewrite list_lookup_insert_eq.
  - destruct (list_find _ answers) as [[j r]|]; [done |]. cbn. by rewrite list_lookup_insert_ne.
Qed.

Lemma fill_length (answers : list (nat * Z)) (counts : list Z) :
  length (foldl (λ counts r, <[r.1 := r.2]> counts) counts answers) = length counts.
Proof. revert counts. induction answers as [|r answers IH]; intros counts; [done |]. cbn. by rewrite IH, length_insert. Qed.

(** The histogram: each row is in the column of its range, and in no other. *)
Lemma histogram_exact rows :
  bucket_count <$> histogram (histogramRows rows) =
  (λ i, counted (λ e, (bucketOf kEdges (total_elapsed_ms e) =? i)%nat) rows) <$> seq 0 kBucketCount.
Proof.
  set (b := λ e, bucketOf kEdges (total_elapsed_ms e)). 
  assert (Hkeys : (histogramRows rows).*1 ≡ₚ remove_dups (b <$> rows)).
  { unfold histogramRows. rewrite <- list_fmap_compose. unfold groupBy. rewrite <- list_fmap_compose. unfold compose. cbn. rewrite list_fmap_id. apply visit_perm. }
  assert (Hval : forall r, r ∈ histogramRows rows -> r.2 = counted (λ e, (b e =? r.1)%nat) rows).
  { intros r (g & -> & (k & -> & _)%list_elem_of_fmap)%list_elem_of_fmap. cbn. unfold counted. f_equal. apply list_filter_iff. intros e. fold (b e). by rewrite Nat.eqb_eq. }
  set (counts := foldl (λ counts r, <[r.1 := r.2]> counts) (replicate kBucketCount 0) (histogramRows rows)).
  assert (Hbound : Forall (λ r, (r.1 < length (replicate kBucketCount 0%Z))%nat) (histogramRows rows)).
  { apply Forall_forall. intros r Hr. rewrite length_replicate. assert (Hin : r.1 ∈ (histogramRows rows).*1) by (by apply list_elem_of_fmap_2).
    rewrite Hkeys, elem_of_remove_dups in Hin. apply list_elem_of_fmap in Hin as (e & -> & _). pose proof (bucketOf_bound kEdges (total_elapsed_ms e)). unfold b, kBucketCount. lia. }
  assert (Hnd : NoDup (histogramRows rows).*1) by (rewrite Hkeys; apply NoDup_remove_dups).
  assert (Hc : counts = (λ i, counted (λ e, (b e =? i)%nat) rows) <$> seq 0 kBucketCount).
  { apply list_eq. intros i. rewrite list_lookup_fmap. destruct (decide (i < kBucketCount)%nat) as [Hi|Hi].
    - rewrite lookup_seq_lt by done. cbn. unfold counts. rewrite fill_lookup by done. destruct (list_find _ _) as [[j r]|] eqn:Hf.
      + apply list_find_Some in Hf as (Hj & E & _). f_equal. rewrite (Hval r); [by rewrite E |]. by eapply list_elem_of_lookup_2.
      + rewrite lookup_replicate_2 by done. f_equal. unfold counted. rewrite filter_none; [done |]. apply Forall_forall. intros e He E.
        assert (Eb : b e = i) by (by apply Nat.eqb_eq). apply list_find_None in Hf. assert (Hin : i ∈ (histogramRows rows).*1) by (rewrite Hkeys, elem_of_remove_dups, <- Eb; by apply (list_elem_of_fmap_2 b)).
        apply list_elem_of_fmap in Hin as (r & -> & Hr). rewrite Forall_forall in Hf. by apply (Hf r Hr).
    - rewrite (proj2 (lookup_ge_None counts i)) by (unfold counts; rewrite fill_length, length_replicate; lia). by rewrite lookup_seq_ge by lia. }
  unfold histogram. fold counts. rewrite Hc. done.
Qed.
End Parts.

(** *** Percentiles *)

Lemma sorted_lookup (l : list Z) i j x y :
  StronglySorted (λ a b, (a <=? b) = true) l -> (i <= j)%nat -> l !! i = Some x -> l !! j = Some y -> x <= y.
Proof.
  intros Hs. revert i j. induction Hs as [|z l _ IH Hz]; intros i j Hij Hi Hj; [done |].
  destruct i as [|i], j as [|j]; cbn in *; try lia.
  - assert (x = y) by congruence. lia.
  - injection Hi as ->. rewrite Forall_forall in Hz. apply list_elem_of_lookup_2 in Hj. specialize (Hz y Hj). lia.
  - apply (IH i j); [lia | done | done].
Qed.

Section Percentiles.
Context `{!RowOrder}.
Variable d : Database.
Variable scaled : Z -> Z -> Z.
Hypothesis scaled_mono : forall p q n, p <= q -> 0 <= n -> scaled p n <= scaled q n.
Hypothesis scaled_all : forall n, scaled 100 n = n.
Variable cutoff : Z.
Let rows := window (λ _, d) cutoff QSummary.
Let column := sortBy Z.leb (total_elapsed_ms <$> visit rows).

Lemma column_perm : column ≡ₚ total_elapsed_ms <$> rows.
Proof. unfold column. by rewrite sortBy_perm, visit_perm. Qed.
Lemma column_length : length column = length rows.
Proof. by rewrite column_perm, length_fmap. Qed.

Lemma at_lookup percent :
  0 < zlen rows ->
  let offset := Z.max 0 (Z.min (scaled percent (zlen rows - 1)) (zlen rows - 1)) in
  column !! Z.to_nat offset = Some (at_ (λ _, None) (λ _, d) scaled cutoff (zlen rows) percent).
Proof.
  intros Hpos offset. unfold at_, answered, quantileRow. fold offset. change (window (λ _, d) cutoff (QQuantile percent)) with rows. fold column.
  assert (Hlt : (Z.to_nat offset < length column)%nat) by (rewrite column_length; unfold offset, zlen in *; lia).
  destruct (lookup_lt_is_Some_2 _ _ Hlt) as [x Hx]. rewrite Hx. rewrite <- (Nat.add_0_r (Z.to_nat offset)), <- lookup_drop in Hx.
  destruct (drop (Z.to_nat offset) column) as [|y l]; [done |]. by injection Hx as ->.
Qed.

Lemma percentiles_ordered :
  0 < zlen rows ->
  let at_ := at_ (λ _, None) (λ _, d) scaled cutoff (zlen rows) in
  at_ 50 <= at_ 90 <= at_ 99 /\ at_ 99 <= at_ 100 /\
  Forall (λ p, at_ p ∈ total_elapsed_ms <$> rows) [50; 90; 99; 100] /\ Forall (λ e, total_elapsed_ms e <= at_ 100) rows.
Proof.
  intros Hpos at_'. assert (Hs : StronglySorted (λ a b, (a <=? b) = true) column) by (apply sortBy_sorted; intros; lia).
  assert (Hmono : forall p q, p <= q -> at_' p <= at_' q).
  { intros p q Hpq. eapply sorted_lookup; [exact Hs | | by apply at_lookup | by apply at_lookup]. specialize (scaled_mono p q (zlen rows - 1) Hpq ltac:(lia)). lia. }
  split_and!; try (apply Hmono; lia).
  - apply Forall_forall. intros p _. rewrite <- column_perm. eapply list_elem_of_lookup_2, at_lookup. done.
  - apply Forall_forall. intros e He. assert (Hin : total_elapsed_ms e ∈ column) by (rewrite column_perm; by apply list_elem_of_fmap_2).
    apply list_elem_of_lookup in Hin as [i Hi]. eapply sorted_lookup; [exact Hs | | exact Hi | by apply at_lookup].
    rewrite scaled_all. pose proof (lookup_lt_Some _ _ _ Hi) as Hlt. rewrite column_length in Hlt. unfold zlen in *. lia.
Qed.
End Percentiles.

(** Splitting a window in two. *)
Lemma window_split (a b : Z) (l : list EventRow) :
  a <= b -> zlen (filter (λ e, b <= occurred_at e) l) + zlen (filter (λ e, a <= occurred_at e < b) l) = zlen (filter (λ e, a <= occurred_at e) l).
Proof.
  intros Hab. induction l as [|e l IH]; [done |]. rewrite !filter_cons. repeat case_decide; rewrite ?zlen_cons; lia.
Qed.

Lemma take_len {A} n (l : list A) : zlen (take n l) <= Z.of_nat n.
Proof. unfold zlen. rewrite length_take. lia. Qed.

(** C31: The report adds up. In whatever order SQLite visits rows and groups: the breakdowns
    by diagnosis, baseline signal, latency and day each account for every event of the
    window exactly once, and the days for every figure of the summary; interference, no
    interference, learned and suspected are disjoint classes; this window and the previous
    one share no event and leave none out; the percentiles are latencies that occurred, in
    order, and the worst is the maximum; the lists are as short as they should be. *)
Theorem dashboard_adds_up `{!RowOrder} localDay scaled d path days now :
  path <> [] -> (forall p q n, p <= q -> 0 <= n -> scaled p n <= scaled q n) -> (forall n, scaled 100 n = n) ->
  let D := dashboardSnapshot localDay (λ _, None) (λ _, d) scaled path true (inr tt) days now in
  let s := summary D in
  let since t := filter (λ e, t <= occurred_at e) (probe_events d) in
  let rows := since (now - windowDays D * 86400) in
  1 <= windowDays D <= 90 /\ total s = zlen rows /\ bypassed s + normal s + learned s + suspected s <= total s /\
  zsum count (diagnoses D) = total s /\ zsum count (signals D) = total s /\ zsum bucket_count (latencyHistogram D) = total s /\
  (zsum day_total (daily D) = total s /\ zsum day_bypassed (daily D) = bypassed s /\ zsum day_learned (daily D) = learned s /\
   zsum day_unresolved (daily D) = unresolved s /\ zsum day_suspected (daily D) = suspected s) /\
  total s + total (previous D) = zlen (since (now - 2 * windowDays D * 86400)) /\
  (0 < total s -> p50 (latency D) <= p90 (latency D) <= p99 (latency D) /\ p99 (latency D) <= worst (latency D) /\
     Forall (λ ms, ms ∈ total_elapsed_ms <$> rows) [p50 (latency D); p90 (latency D); p99 (latency D); worst (latency D)] /\
     Forall (λ e, total_elapsed_ms e <= worst (latency D)) rows) /\
  zlen (recent D) <= 250 /\ zlen (topHosts D) <= 8 /\ zlen (profiles D) <= 16.
Proof.
  intros Hpath Hmono Hall D s since rows. set (w := Z.max 1 (Z.min days 90)).
  assert (HD : D = snapshot localDay (λ _, None) (λ _, d) scaled w now) by (unfold D, dashboardSnapshot; rewrite bool_decide_eq_false_2 by done; done).
  assert (Hw : windowDays D = w) by (by rewrite HD). unfold rows, s. rewrite Hw, HD. clear HD Hw D s rows.
  set (cutoff := now - w * 86400). cbn [windowDays summary diagnoses signals latencyHistogram daily previous latency recent topHosts profiles snapshot answered head default from_option id].
  split; [unfold w; lia |]. split; [done |]. split; [apply summary_classes |]. split; [apply breakdown_sum |]. split; [apply breakdown_sum |]. split; [|split; [|split; [|split; [|split; [|split]]]]].
  - rewrite <- (zsum_fmap bucket_count (λ x, x)), histogram_exact, zsum_fmap. cbn [total summaryRow]. rewrite (zlen_zsum (window _ _ _)).
    rewrite <- (groups_sum (λ e, bucketOf kEdges (total_elapsed_ms e)) (λ _, 1) (seq 0 kBucketCount)).
    + apply zsum_ext, Forall_true. intros i. unfold counted. rewrite zlen_zsum. f_equal. apply list_filter_iff. intros e. by rewrite Nat.eqb_eq.
    + apply NoDup_seq.
    + intros e _. apply elem_of_seq. pose proof (bucketOf_bound kEdges (total_elapsed_ms e)). unfold kBucketCount. lia.
  - apply daily_sums.
  - cbn [total previousRow summaryRow]. unfold since. rewrite <- (window_split (now - 2 * w * 86400) cutoff) by (unfold cutoff, w; lia).
    unfold window. f_equal. do 2 f_equal. unfold cutoff. apply list_filter_iff. intros e. lia.
  - intros Hpos. cbn [total summaryRow] in *. rewrite (proj2 (Z.ltb_lt _ _) Hpos). cbn [p50 p90 p99 worst].
    destruct (percentiles_ordered d scaled Hmono Hall cutoff Hpos) as (H1 & H2 & H3 & H4). split_and!; try apply H1; try exact H2; try exact H4.
    rewrite !Forall_cons in *. destruct_and! H3. by split_and!.
  - unfold recentRows, zlen. rewrite length_fmap. apply (take_len 250 (descending rowid _)).
  - apply (take_len 8).
  - apply (take_len 16).
Qed.

(** Percentages by exact arithmetic. *)
Definition exactly (p n : Z) : Z := p * n / 100.
Lemma exactly_mono p q n : p <= q -> 0 <= n -> exactly p n <= exactly q n.
Proof. intros H Hn. apply Z.div_le_mono; [lia |]. nia. Qed.
Lemma exactly_all n : exactly 100 n = n.
Proof. unfold exactly. rewrite Z.mul_comm. by apply Z.div_mul. Qed.

Lemma dashboard_adds_up_witness :
  let d := insertBatch newDatabase (sampleRecord <$> [100; 864000; 864001; 864002]) in
  let D := dashboardSnapshot (λ _, None) (λ _, None) (λ _, d) exactly (str "x.db") true (inr tt) 1 864100 in
  total (summary D) = 3 /\ zsum count (diagnoses D) = total (summary D) /\ worst (latency D) = 3060.
Proof.
  intros d D. split; [vm_compute; reflexivity |]. split; [|vm_compute; reflexivity].
  apply (dashboard_adds_up (λ _, None) exactly d (str "x.db") 1 864100 ltac:(done) exactly_mono exactly_all).
Defined.

(** ** What a record becomes *)

Lemma columnText_whole s : 0 ∉ s -> columnText s = s.
Proof.
  induction s as [|c s IH]; intros H; [done |]. apply not_elem_of_cons in H as [Hc H]. cbn. destruct (Z.eqb_spec c 0); [congruence |]. by rewrite IH.
Qed.
Lemma columnText_name k : columnText (name k) = name k.
Proof. by destruct k. Qed.
Lemma columnText_signal s : columnText (signalName s) = signalName s.
Proof. by destruct s. Qed.
Lemma columnText_nullable s : 0 ∉ s -> columnText (default [] (nullable s)) = s.
Proof. intros H. unfold nullable. case_bool_decide as E; cbn; [by rewrite E |]. by apply columnText_whole. Qed.

(** What the panel should show of a record. *)
Definition shownRecord (r : ProbeRecord) (key : Z) : ShownEvent :=
  mkShownEvent key (occurredAt r) (pr_networkId r) (pr_host r)
    (match baselineOf (pr_attempts r) with Some a => signalName (signal a) | None => [] end)
    (name (kind (pr_verdict r))) (confidence (pr_verdict r)) (winningProfile (pr_verdict r)) (pr_rememberedProfile r)
    (pr_success r) (pr_forced r) (cacheHit r) (zlen (pr_attempts r)) (pr_totalElapsedMs r)
    ((λ a, mkShownAttempt (profile a) (signalName (signal a)) (elapsedMs a)) <$> pr_attempts r).

(** Texts without a zero octet. *)
Definition textual (r : ProbeRecord) : Prop :=
  (0 ∉ pr_networkId r) /\ (0 ∉ pr_host r) /\ (0 ∉ pr_rememberedProfile r) /\ (0 ∉ winningProfile (pr_verdict r)) /\
  Forall (λ a, 0 ∉ profile a) (pr_attempts r).

Lemma flag_nonzero b : negb (flag b =? 0) = b.
Proof. by destruct b. Qed.

Lemma shownEvent_record r k : textual r -> shownEvent (eventRow r k) (attemptRows r k) = shownRecord r k.
Proof.
  intros (H1 & H2 & H3 & H4 & H5). unfold shownEvent, shownRecord. cbn -[columnText default nullable name signalName flag].
  rewrite !columnText_whole, !columnText_nullable, columnText_name, !flag_nonzero by done. f_equal.
  - destruct (baselineOf (pr_attempts r)); [apply columnText_signal | done].
  - unfold attemptRows. rewrite fmap_imap. rewrite Forall_forall in H5. clear -H5. revert H5. generalize (pr_attempts r) as l. intros l Hl.
    rewrite <- (imap_const (λ a, mkShownAttempt (profile a) (signalName (signal a)) (elapsedMs a))). apply imap_ext. intros i a Ha. cbn. unfold shownAttempt, attemptRow. cbn -[columnText signalName].
    rewrite columnText_signal, columnText_whole; [done |]. apply Hl. by eapply list_elem_of_lookup_2.
Qed.

Lemma insertBatch_events d batch :
  probe_events (insertBatch d batch) = probe_events d ++ imap (λ i r, eventRow r (sequence d + 1 + Z.of_nat i)) batch.
Proof.
  revert d. induction batch as [|r batch IH]; intros d; cbn [insertBatch foldl]; [by rewrite app_nil_r |].
  etrans; [apply IH |]. cbn. rewrite <- app_assoc. cbn. f_equal. f_equal; [f_equal; lia |]. apply imap_ext. intros i x _. cbn. f_equal. lia.
Qed.
Lemma insertBatch_keeps d batch e :
  consistent d -> e ∈ probe_events d -> attemptsOf (insertBatch d batch) (rowid e) = attemptsOf d (rowid e).
Proof.
  revert d. induction batch as [|r batch IH]; intros d Hc He; [done |]. cbn [insertBatch foldl]. etrans; [apply IH |].
  - by apply insertWhole_consistent.
  - apply elem_of_app. by left.
  - by apply (insertWhole_attempts d r Hc).
Qed.
Lemma insertBatch_attempts d batch i r :
  consistent d -> batch !! i = Some r ->
  attemptsOf (insertBatch d batch) (sequence d + 1 + Z.of_nat i) = attemptRows r (sequence d + 1 + Z.of_nat i).
Proof.
  revert d i. induction batch as [|x batch IH]; intros d i Hc Hi; [done |]. destruct i as [|i]; cbn in Hi.
  - injection Hi as ->. rewrite Z.add_0_r. cbn [insertBatch foldl]. change (sequence d + 1) with (rowid (eventRow r (sequence d + 1))) at 1.
    etrans; [apply insertBatch_keeps; [by apply insertWhole_consistent | apply elem_of_app; right; by apply list_elem_of_singleton] |].
    by apply (insertWhole_attempts d r Hc).
  - specialize (IH (insertWhole d x) i (insertWhole_consistent d x Hc) Hi). cbn [sequence insertWhole] in IH.
    replace (sequence d + 1 + Z.of_nat (S i)) with (sequence d + 1 + 1 + Z.of_nat i) by lia. exact IH.
Qed.

Lemma ordinals_ascend k n l : StronglySorted (λ x y, ordinal x < ordinal y) (imap (λ i a, attemptRow k (Z.of_nat (n + i)) a) l).
Proof.
  revert n. induction l as [|a l IH]; intros n; cbn; [constructor |]. constructor.
  - specialize (IH (S n)). erewrite imap_ext; [exact IH |]. intros i x _. cbn. do 2 f_equal. lia.
  - apply Forall_forall. intros x Hx. apply elem_of_lookup_imap in Hx as (i & y & -> & _). cbn. lia.
Qed.

Section ReadBack.
Context `{!RowOrder}.

Lemma recentRows_newest (P : EventRow -> Prop) `{!forall e, Decision (P e)} d :
  consistent d -> recentRows (filter P (probe_events d)) = take 250 (reverse (filter P (probe_events d))).
Proof.
  intros [K1 _ _ _]. unfold recentRows, descending. f_equal. apply (sortBy_unique _ (λ e, - rowid e)).
  - intros x y. apply eq_bool_prop_intro. rewrite !Is_true_true. lia.
  - pose proof (keys_filter P _ K1) as Hk. generalize dependent (filter P (probe_events d)). intros l Hk. induction l as [|e l IH]; [constructor |].
    cbn in Hk. apply StronglySorted_inv in Hk as [Hk He]. rewrite reverse_cons. apply StronglySorted_snoc; [by apply IH |].
    apply Forall_forall. intros x Hx. rewrite elem_of_reverse in Hx. rewrite Forall_fmap, Forall_forall in He. specialize (He x Hx). cbn in He. lia.
  - symmetry. apply reverse_Permutation.
Qed.

Lemma attemptRowsOf_exact d k r : attemptsOf d k = attemptRows r k -> attemptRowsOf d k = attemptRows r k.
Proof.
  intros E. unfold attemptRowsOf. apply (sortBy_unique _ ordinal); [done | | by rewrite visit_perm, E].
  exact (ordinals_ascend k 0 (pr_attempts r)).
Qed.

(** A record is shown as it was. When a batch has been committed, the newest rows of the
    panel are its records, the last first: every field, the profile, signal and duration of
    every attempt, in their order. *)
Theorem record_reads_back localDay scaled a batch d c path days now :
  consistent d -> writeBatch a batch (mkConnection d None) = (true, c) -> Forall textual batch -> (length batch <= 250)%nat ->
  Forall (λ r, now - Z.max 1 (Z.min days 90) * 86400 <= occurredAt r) batch -> path <> [] ->
  take (length batch) (recent (dashboardSnapshot localDay (λ _, None) (λ _, committed c) scaled path true (inr tt) days now)) =
  reverse (imap (λ i r, shownRecord r (sequence d + 1 + Z.of_nat i)) batch).
Proof.
  intros Hc Hw Htext Hlen Hin Hpath. pose proof (writeBatch_atomic a batch (mkConnection d None)) as Ha. rewrite Hw in Ha. destruct Ha as [_ ->]. clear Hw.
  cbn [committed]. set (d' := insertBatch d batch). assert (Hc' : consistent d') by (by apply insertBatch_consistent).
  unfold dashboardSnapshot. rewrite bool_decide_eq_false_2 by done. cbn [orb negb recent snapshot]. unfold answered, window.
  set (cutoff := now - Z.max 1 (Z.min days 90) * 86400). rewrite recentRows_newest by done. unfold d' at 2. rewrite insertBatch_events, filter_app, reverse_app.
  set (new := imap (λ i r, eventRow r (sequence d + 1 + Z.of_nat i)) batch).
  assert (Hnew : filter (λ e, cutoff <= occurred_at e) new = new).
  { apply filter_every, Forall_forall. intros e He. apply elem_of_lookup_imap in He as (i & r & -> & Hr). rewrite Forall_forall in Hin.
    apply Hin. by eapply list_elem_of_lookup_2. }
  assert (Hn : length (reverse new) = length batch) by (unfold new; by rewrite length_reverse, length_imap).
  rewrite Hnew, <- fmap_take, take_take, Nat.min_l, take_app_length' by lia. rewrite fmap_reverse. f_equal. unfold new. rewrite fmap_imap. apply imap_ext.
  intros i r Hr. cbn. unfold shownRecent, answered. cbn [rowid eventRow].
  rewrite (attemptRowsOf_exact _ _ r) by (by apply insertBatch_attempts). apply shownEvent_record.
  rewrite Forall_forall in Htext. apply Htext. by eapply list_elem_of_lookup_2.
Qed.
End ReadBack.

Definition everythingWorks : BatchAnswers := mkBatchAnswers true (λ _ _, StepDone) true true.
Definition aBatch : list ProbeRecord := sampleRecord <$> [864001; 864002].
Definition aConnection : Connection := mkConnection (insertBatch newDatabase aBatch) None.
Lemma record_reads_back_witness :
  writeBatch everythingWorks aBatch (mkConnection newDatabase None) = (true, aConnection) /\
  take (length aBatch) (recent (dashboardSnapshot (λ _, None) (λ _, None) (λ _, committed aConnection) exactly (str "x.db") true (inr tt) 1 864100)) =
  reverse (imap (λ i r, shownRecord r (sequence newDatabase + 1 + Z.of_nat i)) aBatch).
Proof.
  split; [reflexivity |].
  apply (record_reads_back (λ _, None) exactly everythingWorks aBatch newDatabase aConnection (str "x.db") 1 864100).
  - apply newDatabase_consistent.
  - reflexivity.
  - assert (Ht : forall t, textual (sampleRecord t)).
    { intros t. unfold textual. cbn. split_and!; try (apply (bool_decide_eq_false_1 (_ ∈ _)); reflexivity).
      repeat constructor; apply (bool_decide_eq_false_1 (_ ∈ _)); reflexivity. }
    apply Forall_fmap, Forall_true. exact Ht.
  - cbn. lia.
  - repeat constructor; cbn; lia.
  - done.
Defined.
