(* ===== verification/DashboardText.v ===== *)
(** * DashboardText: the report as JSON

    Models [serializeDashboard], [appendKeyCounts] and [dashboardJson] of
    [src/src/Telemetry.cpp]. The text of an average with one digit behind the point is a
    parameter; integers are written by [std::ostream]. *)

From S2P Require Import Prelude Json JsonText Diagnosis Telemetry Dashboard.

(** [output << value] for a signed integer *)
Definition int_text (z : Z) : bytes := if z <? 0 then str "-" ++ to_string (- z) else to_string z.
Definition bool_text (b : bool) : bytes := str (if b then "true" else "false").

Definition string_of (v : bytes) : bytes := quoted (escape v).

(** Members of an object, commas between them. *)
Fixpoint commas (l : list bytes) : bytes :=
  match l with
  | [] => []
  | [x] => x
  | x :: l => x ++ [cComma] ++ commas l
  end.
Definition object (l : list (bytes * bytes)) : bytes := str "{" ++ commas ((λ kv, member kv.1 kv.2) <$> l) ++ str "}".
Definition array (l : list bytes) : bytes := str "[" ++ commas l ++ str "]".

(** What is written with [,] before each array. *)
Definition appendArray (key : string) (items : list bytes) : bytes := [cComma] ++ member (str key) (array items).

Definition appendKeyCounts (key : string) (items : list KeyCount) : bytes :=
  appendArray key ((λ i, object [(str "key", string_of (Dashboard.key i)); (str "count", int_text (count i))]) <$> items).

Section Text.
Variable fixed : Average -> bytes.      (* [std::fixed << std::setprecision(1)] *)

Definition profileText (p : Profile) : bytes :=
  object [(str "name", string_of (profile_name p)); (str "count", int_text (profile_count p));
          (str "averageLatencyMs", fixed (profile_latency p)); (str "averageAttempts", fixed (profile_attempts p))].
Definition dayText (x : Day) : bytes :=
  object [(str "day", string_of (day x)); (str "total", int_text (day_total x)); (str "bypassed", int_text (day_bypassed x));
          (str "learned", int_text (day_learned x)); (str "unresolved", int_text (day_unresolved x));
          (str "suspected", int_text (day_suspected x))].
Definition attemptText (a : ShownAttempt) : bytes :=
  object [(str "profile", string_of (shown_profile a)); (str "signal", string_of (shown_signal a));
          (str "elapsedMs", int_text (shown_elapsedMs a))].
Definition eventText (e : ShownEvent) : bytes :=
  object [(str "id", int_text (ev_id e)); (str "timestamp", int_text (ev_timestamp e)); (str "network", string_of (ev_network e));
          (str "host", string_of (ev_host e)); (str "baseline", string_of (ev_baseline e));
          (str "diagnosis", string_of (ev_diagnosis e)); (str "confidence", int_text (ev_confidence e));
          (str "winner", string_of (ev_winner e)); (str "remembered", string_of (ev_remembered e));
          (str "success", bool_text (ev_success e)); (str "forced", bool_text (ev_forced e));
          (str "attemptCount", int_text (ev_attemptCount e)); (str "totalElapsedMs", int_text (ev_totalElapsedMs e));
          (str "cacheHit", bool_text (ev_cacheHit e)); (str "attempts", array (attemptText <$> ev_attempts e))].

(** The members before the summary, and the integers of the summary before the average. *)
Definition headMembers (d : DashboardData) : list (bytes * bytes) :=
  [(str "ready", bool_text (ready d)); (str "generatedAt", int_text (generatedAt d)); (str "windowDays", int_text (windowDays d))] ++
  if ready d then [] else [(str "error", string_of (error d))].
Definition summaryMembers (s : Summary) : list (bytes * bytes) :=
  [(str "total", int_text (total s)); (str "bypassed", int_text (bypassed s)); (str "learned", int_text (learned s));
   (str "suspected", int_text (suspected s)); (str "normal", int_text (normal s)); (str "unresolved", int_text (unresolved s))].

Definition serializeDashboard (d : DashboardData) : bytes :=
  str "{" ++ members (headMembers d) ++
  member (str "summary")
    (str "{" ++ members (summaryMembers (summary d)) ++ member (str "averageLatencyMs") (fixed (averageLatencyMs (summary d))) ++
     [cComma] ++ member (str "cacheHits") (int_text (cacheHits (summary d))) ++ str "}") ++
  appendKeyCounts "diagnoses" (diagnoses d) ++ appendKeyCounts "signals" (signals d) ++
  appendArray "profiles" (profileText <$> profiles d) ++ appendArray "daily" (dayText <$> daily d) ++
  appendArray "recent" (eventText <$> recent d) ++ str "}".

(** [dashboardJson] *)
Definition dashboardJson `{!RowOrder} (localDay : Z -> option bytes) (limit : Query -> option nat) (view : Query -> Database)
    (scaled : Z -> Z -> Z) (path : bytes) (exists_ : bool) (opened : bytes + unit) (days now : Z) : bytes :=
  serializeDashboard (dashboardSnapshot localDay limit view scaled path exists_ opened days now).

(** ** Reading it back *)

Lemma int_text_pos z : 0 <= z -> int_text z = to_string z.
Proof. intros H. unfold int_text. by destruct (Z.ltb_spec z 0); [lia |]. Qed.

Definition small (z : Z) : Prop := 0 <= z < 2 ^ 63.

Lemma headMembers_ok d : small (generatedAt d) -> small (windowDays d) -> all_bytes (error d) -> document_ok (headMembers d).
Proof.
  intros [Hg1 Hg2] [Hw1 Hw2] He. unfold headMembers. rewrite !int_text_pos by done. destruct (ready d); split.
  - apply (bool_decide_eq_true_1 (NoDup _)). reflexivity.
  - repeat (apply Forall_cons; split; [split; [by apply plain_ok |] |]); try (by constructor); cbn [snd];
      first [by apply settled_number; lia | apply (settled_bool true)].
  - apply (bool_decide_eq_true_1 (NoDup _)). reflexivity.
  - repeat (apply Forall_cons; split; [split; [by apply plain_ok |] |]); try (by constructor); cbn [snd];
      first [by apply settled_number; lia | apply (settled_bool false) | by apply settled_string].
Qed.
Lemma summaryMembers_ok s :
  Forall small [total s; bypassed s; learned s; suspected s; normal s; unresolved s] -> document_ok (summaryMembers s).
Proof.
  unfold small. rewrite !Forall_cons. intros H. destruct_and! H. unfold summaryMembers. rewrite !int_text_pos by done. split.
  - apply (bool_decide_eq_true_1 (NoDup _)). reflexivity.
  - repeat (apply Forall_cons; split; [split; [by apply plain_ok |] |]); try (by constructor); cbn [snd]; by apply settled_number; lia.
Qed.

(** A number inside an object that follows other members. *)
Lemma nested_int outer name inner key n fallback rest :
  document_ok outer -> document_ok inner -> plain name -> plain key -> key <> name -> key ∉ outer.*1 -> small n ->
  (key, to_string n) ∈ inner ->
  getInt (str "{" ++ members outer ++ member name (str "{" ++ members inner ++ rest)) key fallback = n.
Proof.
  intros [_ Ho] [Hnd Hi] Hname Hkey Hne Hout Hn Hin. apply list_elem_of_split in Hin as (l1 & l2 & ->).
  rewrite fmap_app, fmap_cons in Hnd. apply NoDup_app in Hnd as (_ & Hnot & _). apply Forall_app in Hi as [Hl1 _].
  set (pre := str "{" ++ members outer ++ quoted name ++ [cColon] ++ str "{" ++ members l1).
  set (tl := cComma :: (members l2 ++ rest)).
  assert (E : str "{" ++ members outer ++ member name (str "{" ++ members (l1 ++ (key, to_string n) :: l2) ++ rest) = pre ++ member key (to_string n) ++ tl).
  { unfold pre, tl, members, member. rewrite bind_app, bind_cons. cbn [fst snd]. by rewrite <- !app_assoc. }
  rewrite E. destruct (to_string_head n ltac:(unfold small in Hn; lia)) as (c & r & Hv & Hc).
  assert (Hnb : forall b, quiet key (str "{") b) by (intros b; apply quiet_noquote; apply (bool_decide_eq_false_1 (_ ∈ _)); reflexivity).
  destruct (member_found pre key (to_string n) tl Hkey) as (pos & Hf & Hd).
  - unfold pre. apply quiet_app; [apply Hnb |]. apply quiet_app; [by apply quiet_members |].
    apply quiet_app; [apply quiet_name; congruence |]. apply quiet_app; [apply quiet_noquote; by rewrite list_elem_of_singleton |].
    apply quiet_app; [apply Hnb |]. apply quiet_members; [done | done |]. intros Hin'. apply (Hnot key Hin'). by left.
  - rewrite Hv. intros x [= <-]. clear -Hc. unfold is_ws, isdigit in *. lia.
  - set (s := pre ++ member key (to_string n) ++ tl) in *. unfold getInt. rewrite Hf.
    assert (Hl : drop pos s = c :: (r ++ tl)) by (rewrite Hd, Hv; done). apply lookup_of_drop in Hl. rewrite Hl, Hc. cbn [orb]. rewrite Hd.
    apply strtoll_to_string; [unfold small in Hn; lia |]. by intros x [= <-].
Qed.

Lemma serializeDashboard_shape d :
  exists rest, serializeDashboard d = str "{" ++ members (headMembers d) ++ member (str "summary") (str "{" ++ members (summaryMembers (summary d)) ++ rest).
Proof. eexists. unfold serializeDashboard, member. rewrite <- !app_assoc. reflexivity. Qed.

(** What the report says of itself and the counters of its summary are read back from its
    text, whatever the names in it. *)
Theorem dashboard_text_reads_back d fallback :
  let s := summary d in
  small (generatedAt d) -> small (windowDays d) -> all_bytes (error d) ->
  Forall small [total s; bypassed s; learned s; suspected s; normal s; unresolved s] ->
  let text := serializeDashboard d in
  getBool text (str "ready") = ready d /\ getInt text (str "generatedAt") fallback = generatedAt d /\
  getInt text (str "windowDays") fallback = windowDays d /\
  (ready d = false -> getString text (str "error") 0 = error d) /\
  (λ k, getInt text (str k) fallback) <$> ["total"; "bypassed"; "learned"; "suspected"; "normal"; "unresolved"]%string =
    [total s; bypassed s; learned s; suspected s; normal s; unresolved s].
Proof.
  intros s Hg Hw He Hs text. destruct (serializeDashboard_shape d) as [rest E]. unfold text. rewrite E. clear text E.
  pose proof (headMembers_ok d Hg Hw He) as Ho. pose proof (summaryMembers_ok s Hs) as Hi. unfold small in Hg, Hw.
  assert (Hhead : forall k v, headMembers d !! k = Some v -> v ∈ headMembers d) by (intros k v; apply list_elem_of_lookup_2).
  split_and!.
  - apply members_bool; [done |]. exact (Hhead 0%nat _ eq_refl).
  - apply members_int; [done | lia |]. rewrite <- int_text_pos by lia. exact (Hhead 1%nat _ eq_refl).
  - apply members_int; [done | lia |]. rewrite <- int_text_pos by lia. exact (Hhead 2%nat _ eq_refl).
  - intros Hr. apply members_string; [done | done |]. apply (Hhead 3%nat). unfold headMembers. by rewrite Hr.
  - rewrite !Forall_cons in Hs. destruct_and! Hs. cbn [fmap list_fmap].
    let rec go i := first [ reflexivity
      | apply (f_equal2 cons);
        [apply nested_int; [exact Ho | exact Hi | by apply plain_ok | by apply plain_ok | done
          | unfold headMembers; destruct (ready d); apply (bool_decide_eq_false_1 (_ ∈ _)); reflexivity | done
          | unfold small in *; rewrite <- int_text_pos by lia; exact (list_elem_of_lookup_2 (summaryMembers s) i _ eq_refl)]
        | go constr:(S i)] ] in go 0%nat.
Qed.
End Text.
