(* ===== verification/TelemetryWriter.v ===== *)
(** * TelemetryWriter: the queue in front of the history

    Models the class [Store] of [src/src/Telemetry.cpp]: [start], [stop], [record] and
    [writerLoop]. Any number of threads record; any number start and stop, one at a time
    behind [lifecycle_]; one writer empties the queue into the database of [Telemetry].

    The state has a program counter for each of them, and [turn] is the next step of the
    thread that a choice names, with the answers of the system in the choice: a transition
    system in which every interleaving is a list of choices. A section under [mutex_] is one
    step. The condition variable is explicit: a writer that is [WAsleep] wakes only when
    somebody notifies it, so that a lost wakeup would be a state in which it sleeps for ever.
    [wait_for] may time out at any moment. *)

From S2P Require Import Prelude Diagnosis Telemetry.

Definition kWriteBatchSize : nat := 256.
#[global] Arguments kWriteBatchSize : simpl never.
Definition kPruneEveryRecords : Z := 2000.
Definition kPruneEveryMs : Z := 60 * 60 * 1000.

(** ** State *)

Inductive WriterPc : Type :=
  | WNone                                 (* no thread: [writer_] is not joinable *)
  | WOpening                              (* about to open the database *)
  | WRefused                              (* it could not be opened *)
  | WClearing                             (* about to clear the queue *)
  | WPreparing                            (* about to prepare the statements *)
  | WPruning                              (* the first pruning *)
  | WLocking                              (* about to take the mutex *)
  | WAsleep                               (* in [ready_.wait] *)
  | WLingering                            (* in [ready_.wait_for] *)
  | WWriting (batch : list ProbeRecord)
  | WLeaving                              (* out of the loop *)
  | WExited.                              (* returned, not yet joined *)

Inductive RecorderPc := RIdle | RChecked (r : ProbeRecord) | RNotify.

(** Who holds [lifecycle_], and how far it is. *)
Inductive ControllerPc := CIdle | CStartJoin | CStartReset | CStartAccept | CStartSpawn | CStopFlip | CStopNotify | CStopJoin.

Record Store := mkStore {
  retentionDays_ : Z;
  maxEvents_ : Z;
  maxQueued_ : nat;
  accepting_ : bool;
  stopping_ : bool;
  dropped_ : nat;
  queue_ : list ProbeRecord;
  connection : Connection;
  recordsSincePrune : Z;
  lastPrune : Z;
  writer : WriterPc;
  recorders : list RecorderPc;
  controller : ControllerPc;
  (* what happened since the last start, for the theorems *)
  accepted : list ProbeRecord;
  taken : list (list ProbeRecord);
  lost : bool;                            (* the writer gave up *)
  (* ever *)
  performed : list HistoryOp;
  ever : list ProbeRecord;
}.

Definition newStore (retentionDays maxEvents : Z) (maxQueued threads : nat) : Store :=
  mkStore (Z.max retentionDays 1) (Z.max maxEvents 100) (Nat.max maxQueued 64) false false 0 [] (mkConnection newDatabase None) 0 0
    WNone (replicate threads RIdle) CIdle [] [] false [] [].

Definition setFlags (accepting stopping : bool) (s : Store) : Store :=
  mkStore (retentionDays_ s) (maxEvents_ s) (maxQueued_ s) accepting stopping (dropped_ s) (queue_ s) (connection s)
    (recordsSincePrune s) (lastPrune s) (writer s) (recorders s) (controller s) (accepted s) (taken s) (lost s) (performed s) (ever s).
Definition setQueue (q : list ProbeRecord) (s : Store) : Store :=
  mkStore (retentionDays_ s) (maxEvents_ s) (maxQueued_ s) (accepting_ s) (stopping_ s) (dropped_ s) q (connection s)
    (recordsSincePrune s) (lastPrune s) (writer s) (recorders s) (controller s) (accepted s) (taken s) (lost s) (performed s) (ever s).
Definition setDropped (n : nat) (s : Store) : Store :=
  mkStore (retentionDays_ s) (maxEvents_ s) (maxQueued_ s) (accepting_ s) (stopping_ s) n (queue_ s) (connection s)
    (recordsSincePrune s) (lastPrune s) (writer s) (recorders s) (controller s) (accepted s) (taken s) (lost s) (performed s) (ever s).
(** An operation on the database. *)
Definition perform (op : HistoryOp) (s : Store) : Store :=
  mkStore (retentionDays_ s) (maxEvents_ s) (maxQueued_ s) (accepting_ s) (stopping_ s) (dropped_ s) (queue_ s) (historyStep (connection s) op)
    (recordsSincePrune s) (lastPrune s) (writer s) (recorders s) (controller s) (accepted s) (taken s) (lost s) (performed s ++ [op]) (ever s).
Definition setEver (l : list ProbeRecord) (s : Store) : Store :=
  mkStore (retentionDays_ s) (maxEvents_ s) (maxQueued_ s) (accepting_ s) (stopping_ s) (dropped_ s) (queue_ s) (connection s)
    (recordsSincePrune s) (lastPrune s) (writer s) (recorders s) (controller s) (accepted s) (taken s) (lost s) (performed s) l.
Definition setPrune (n t : Z) (s : Store) : Store :=
  mkStore (retentionDays_ s) (maxEvents_ s) (maxQueued_ s) (accepting_ s) (stopping_ s) (dropped_ s) (queue_ s) (connection s)
    n t (writer s) (recorders s) (controller s) (accepted s) (taken s) (lost s) (performed s) (ever s).
Definition setWriter (w : WriterPc) (s : Store) : Store :=
  mkStore (retentionDays_ s) (maxEvents_ s) (maxQueued_ s) (accepting_ s) (stopping_ s) (dropped_ s) (queue_ s) (connection s)
    (recordsSincePrune s) (lastPrune s) w (recorders s) (controller s) (accepted s) (taken s) (lost s) (performed s) (ever s).
Definition setRecorder (i : nat) (p : RecorderPc) (s : Store) : Store :=
  mkStore (retentionDays_ s) (maxEvents_ s) (maxQueued_ s) (accepting_ s) (stopping_ s) (dropped_ s) (queue_ s) (connection s)
    (recordsSincePrune s) (lastPrune s) (writer s) (<[i := p]> (recorders s)) (controller s) (accepted s) (taken s) (lost s) (performed s) (ever s).
Definition setController (c : ControllerPc) (s : Store) : Store :=
  mkStore (retentionDays_ s) (maxEvents_ s) (maxQueued_ s) (accepting_ s) (stopping_ s) (dropped_ s) (queue_ s) (connection s)
    (recordsSincePrune s) (lastPrune s) (writer s) (recorders s) c (accepted s) (taken s) (lost s) (performed s) (ever s).
Definition setGhost (a : list ProbeRecord) (t : list (list ProbeRecord)) (l : bool) (s : Store) : Store :=
  mkStore (retentionDays_ s) (maxEvents_ s) (maxQueued_ s) (accepting_ s) (stopping_ s) (dropped_ s) (queue_ s) (connection s)
    (recordsSincePrune s) (lastPrune s) (writer s) (recorders s) (controller s) a t l (performed s) (ever s).

(** [notify_one] and [notify_all]: only the writer waits. *)
Definition notify (s : Store) : Store := match writer s with WAsleep => setWriter WLocking s | _ => s end.

(** ** record *)

Definition stamped (r : ProbeRecord) (now : Z) : ProbeRecord :=
  if occurredAt r =? 0
  then mkProbeRecord now (pr_networkId r) (pr_host r) (pr_rememberedProfile r) (pr_verdict r) (pr_attempts r) (pr_totalElapsedMs r)
         (pr_success r) (pr_forced r)
  else r.

Definition recordCheck (i : nat) (r : ProbeRecord) (now : Z) (s : Store) : Store :=
  if negb (accepting_ s) then s else setRecorder i (RChecked (stamped r now)) s.

(** The section under the mutex. *)
Definition recordSection (i : nat) (r : ProbeRecord) (s : Store) : Store :=
  if negb (accepting_ s) then setRecorder i RIdle s
  else if (maxQueued_ s <=? length (queue_ s))%nat then setDropped (S (dropped_ s)) (setRecorder i RIdle s)
  else setEver (ever s ++ [r]) (setGhost (accepted s ++ [r]) (taken s) (lost s) (setQueue (queue_ s ++ [r]) (setRecorder i RNotify s))).

(** ** start and stop *)

(** The first tests of [start]; the result, or on to the join. *)
Definition startCall (pathEmpty : bool) (s : Store) : Store :=
  if pathEmpty || accepting_ s then s else setController CStartJoin s.
Definition stopCall (s : Store) : Store := setController CStopFlip s.

Definition joinWriter (next : ControllerPc) (s : Store) : option Store :=
  match writer s with
  | WNone => Some (setController next s)
  | WExited => Some (setController next (setWriter WNone s))
  | _ => None
  end.

(** [answer]: the directory could be created, the thread could be started. *)
Definition controlStep (answer : bool) (s : Store) : option Store :=
  match controller s with
  | CIdle => None
  | CStartJoin => joinWriter (if answer then CStartReset else CIdle) s
  | CStartReset => Some (setController CStartAccept (setGhost [] [] false (setQueue [] (setFlags (accepting_ s) false s))))
  | CStartAccept => Some (setController CStartSpawn (setFlags true (stopping_ s) s))
  | CStartSpawn => Some (setController CIdle (if answer then setWriter WOpening s else setGhost (accepted s) (taken s) true s))
  | CStopFlip => Some (setController CStopNotify (setFlags false true s))
  | CStopNotify => Some (setController CStopJoin (notify s))
  | CStopJoin => joinWriter CIdle s
  end.

(** ** The writer *)

Record PruneAnswers := mkPruneAnswers { prunedAt : Z; expires : Step; overflows : Step }.
Definition prune (p : PruneAnswers) (s : Store) : Store :=
  perform (Prune (retentionDays_ s) (maxEvents_ s) (prunedAt p) (expires p) (overflows p)) s.
Definition close (s : Store) : Store := perform Close s.

Inductive WriterAnswer :=
  | Opened (opened : bool) (executed : nat -> bool) (a : MigrationAnswers)
  | Prepared (prepared : bool)
  | Pruned (p : PruneAnswers) (steady : Z)
  | Proceeds
  | Wrote (a : BatchAnswers) (steady : Z) (p : PruneAnswers).

(** From the mutex taken to the mutex released: sleep, linger or take a batch. *)
Definition takeBatch (s : Store) : Store :=
  let batch := take kWriteBatchSize (queue_ s) in
  let s' := setQueue (drop kWriteBatchSize (queue_ s)) s in
  if bool_decide (batch = []) && stopping_ s then setWriter WLeaving s'
  else setGhost (accepted s) (taken s ++ [batch]) (lost s) (setWriter (WWriting batch) s').
Definition writerLock (s : Store) : Store :=
  if negb (stopping_ s) && bool_decide (queue_ s = []) then setWriter WAsleep s
  else if negb (stopping_ s) && (length (queue_ s) <? kWriteBatchSize)%nat then setWriter WLingering s
  else takeBatch s.

(** The transaction, and now and then a pruning. *)
Definition writerWrite (a : BatchAnswers) (steady : Z) (p : PruneAnswers) (batch : list ProbeRecord) (s : Store) : Store :=
  let s := perform (Write a batch) s in
  let n := recordsSincePrune s + zlen batch in
  setWriter WLocking
    (if (kPruneEveryRecords <=? n) || (kPruneEveryMs <=? steady - lastPrune s) then setPrune 0 steady (prune p s) else setPrune n (lastPrune s) s).

Definition writerStep (answer : WriterAnswer) (s : Store) : option Store :=
  match writer s, answer with
  | WOpening, Opened opened executed a =>
      if negb opened then Some (setWriter WRefused s) else
      let s' := perform (Initialize executed a) s in
      Some (if (initializeDatabase executed a (connection s)).1 then setWriter WPreparing s' else setWriter WRefused (close s'))
  | WRefused, Proceeds => Some (setWriter WClearing (setGhost (accepted s) (taken s) true (setFlags false (stopping_ s) s)))
  | WClearing, Proceeds => Some (setWriter WExited (setQueue [] s))
  | WPreparing, Prepared prepared =>
      Some (if prepared then setWriter WPruning s
            else setWriter WExited (setGhost (accepted s) (taken s) true (setFlags false (stopping_ s) (close s))))
  | WPruning, Pruned p steady => Some (setWriter WLocking (setPrune 0 steady (prune p s)))
  | WLocking, Proceeds => Some (writerLock s)
  | WLingering, Proceeds => Some (takeBatch s)
  | WWriting batch, Wrote a steady p => Some (writerWrite a steady p batch s)
  | WLeaving, Pruned p _ => Some (setWriter WExited (close (prune p s)))
  | _, _ => None
  end.

(** ** Steps *)

Inductive Choice :=
  | RecordCall (i : nat) (r : ProbeRecord) (now : Z)
  | RecordGoesOn (i : nat)
  | StartCall (pathEmpty : bool)
  | StopCall
  | Control (answer : bool)
  | Writer (answer : WriterAnswer).

Definition turn (c : Choice) (s : Store) : option Store :=
  match c with
  | RecordCall i r now => match recorders s !! i with Some RIdle => Some (recordCheck i r now s) | _ => None end
  | RecordGoesOn i =>
      match recorders s !! i with
      | Some (RChecked r) => Some (recordSection i r s)
      | Some RNotify => Some (notify (setRecorder i RIdle s))
      | _ => None
      end
  | StartCall pathEmpty => match controller s with CIdle => Some (startCall pathEmpty s) | _ => None end
  | StopCall => match controller s with CIdle => Some (stopCall s) | _ => None end
  | Control answer => controlStep answer s
  | Writer answer => writerStep answer s
  end.

Definition run (cs : list Choice) (s : Store) : option Store := foldl (λ o c, s ← o; turn c s) (Some s) cs.
Definition store_step (s s' : Store) : Prop := exists c, turn c s = Some s'.

(** ** The invariant *)

Record store_ok (s : Store) : Prop := {
  queue_bounded : (length (queue_ s) <= maxQueued_ s)%nat;
  batches_bounded : Forall (λ b, (length b <= kWriteBatchSize)%nat) (taken s);
  nothing_lost : lost s = false -> accepted s = concat (taken s) ++ queue_ s;
  woken : writer s = WAsleep ->
    (queue_ s <> [] -> exists i, recorders s !! i = Some RNotify) /\ (stopping_ s = true -> controller s = CStopNotify);
  starting : match controller s with
    | CStartJoin => accepting_ s = false
    | CStartReset => accepting_ s = false /\ writer s = WNone
    | CStartAccept => accepting_ s = false /\ stopping_ s = false /\ writer s = WNone /\ queue_ s = []
    | CStartSpawn => accepting_ s = true /\ stopping_ s = false /\ writer s = WNone
    | CStopNotify | CStopJoin => stopping_ s = true
    | _ => True
    end;
  stopped : stopping_ s = true -> accepting_ s = false;
  drained : lost s = false -> match writer s with
    | WLeaving | WExited => stopping_ s = true /\ queue_ s = []
    | WNone => controller s = CStartSpawn \/ queue_ s = [] /\ accepting_ s = false
    | WClearing => False
    | _ => True
    end;
}.

Lemma telemetry_newStore_ok days events queued threads : store_ok (newStore days events queued threads).
Proof. split; cbn; try done; [lia | intros _; by right]. Qed.

Ltac fields s :=
  destruct s as [retention events most acc stp drp q conn since last w recs ctl ac tk lst perf evr]; cbn in *.

Lemma recordSection_ok i r s : recorders s !! i = Some (RChecked r) -> store_ok s -> store_ok (recordSection i r s).
Proof.
  intros Hi [H1 H2 H3 H4 H5 H6 H7]. unfold recordSection. pose proof (lookup_lt_Some _ _ _ Hi) as Hlt.
  assert (Hother : forall j p, recorders s !! j = Some RNotify -> <[i := p]> (recorders s) !! j = Some RNotify).
  { intros j p Hj. rewrite list_lookup_insert_ne; [done |]. congruence. }
  fields s. destruct acc; cbn.
  2: { split; cbn; try done. intros Hw. destruct (H4 Hw) as [Ha Hb]. split; [|done]. intros Hq. destruct (Ha Hq) as [j Hj]. eauto. }
  destruct (Nat.leb_spec most (length q)); split; cbn; try done.
  - intros Hw. destruct (H4 Hw) as [Ha Hb]. split; [|done]. intros Hq. destruct (Ha Hq) as [j Hj]. eauto.
  - rewrite length_app. cbn. lia.
  - intros Hl. by rewrite H3, app_assoc.
  - intros Hw. destruct (H4 Hw) as [Ha Hb]. split; [|done]. intros _. exists i. by apply list_lookup_insert_eq.
  - destruct ctl; try done; intuition congruence.
  - intros Hl. specialize (H7 Hl). destruct w; try done; intuition congruence.
Qed.

(** A recorder that has nobody to notify is of no account. *)
Lemma setRecorder_ok i p s :
  recorders s !! i <> Some RNotify -> store_ok s -> store_ok (setRecorder i p s).
Proof.
  intros Hp [H1 H2 H3 H4 H5 H6 H7]. split; cbn; try done. intros Hw. destruct (H4 Hw) as [Ha Hb]. split; [|done].
  intros Hq. destruct (Ha Hq) as [j Hj]. exists j. rewrite list_lookup_insert_ne; [done |]. intros ->. done.
Qed.

Lemma notify_ok s : store_ok s -> store_ok (notify s).
Proof. intros [H1 H2 H3 H4 H5 H6 H7]. unfold notify. fields s. destruct w; split; cbn; try done; destruct ctl; intuition congruence. Qed.

Lemma recorder_notify_ok i s : recorders s !! i = Some RNotify -> store_ok s -> store_ok (notify (setRecorder i RIdle s)).
Proof.
  intros Hi [H1 H2 H3 H4 H5 H6 H7]. unfold notify. fields s. destruct w; split; cbn; try done; destruct ctl; intuition congruence.
Qed.

Lemma joinWriter_ok next s s' :
  joinWriter next s = Some s' -> store_ok s -> (next = CIdle \/ next = CStartReset /\ accepting_ s = false) -> controller s <> CStartSpawn -> store_ok s'.
Proof.
  unfold joinWriter. intros E [H1 H2 H3 H4 H5 H6 H7] Hn Hc. fields s.
  destruct w; try done; injection E as <-; split; cbn; try done; destruct Hn as [-> |[-> ->]]; cbn; try done; intros Hl; specialize (H7 Hl); right; intuition.
Qed.

Lemma controlStep_ok answer s s' : controlStep answer s = Some s' -> store_ok s -> store_ok s'.
Proof.
  intros E Hok. unfold controlStep in E. destruct (controller s) eqn:Ec; try done.
  - eapply joinWriter_ok; [exact E | done | | congruence]. pose proof (starting _ Hok) as H. rewrite Ec in H. destruct answer; auto.
  - injection E as <-. destruct Hok as [H1 H2 H3 H4 H5 H6 H7]. fields s. subst ctl. destruct H5 as [-> ->]. by split; cbn; auto with lia.
  - injection E as <-. destruct Hok as [H1 H2 H3 H4 H5 H6 H7]. fields s. subst ctl. destruct H5 as (-> & -> & -> & ->). by split; cbn; auto.
  - injection E as <-. destruct Hok as [H1 H2 H3 H4 H5 H6 H7]. fields s. subst ctl. destruct H5 as (-> & -> & ->). by destruct answer; split; cbn.
  - injection E as <-. destruct Hok as [H1 H2 H3 H4 H5 H6 H7]. fields s. subst ctl. split; cbn; try done.
    + intros Hw. destruct (H4 Hw) as [Ha _]. by split.
    + intros Hl. specialize (H7 Hl). destruct w; try done; intuition congruence.
  - injection E as <-. apply notify_ok in Hok. destruct Hok as [H1 H2 H3 H4 H5 H6 H7]. unfold notify in *.
    fields s. subst ctl. destruct w; split; cbn in *; try done; intros Hl; specialize (H7 Hl); intuition congruence.
  - eapply joinWriter_ok; [exact E | done | by left | congruence].
Qed.

Lemma perform_ok op s : store_ok s -> store_ok (perform op s).
Proof. intros []. by split. Qed.
Lemma setPrune_ok n t s : store_ok s -> store_ok (setPrune n t s).
Proof. intros []. by split. Qed.

(** The writer at work moves between places where it neither sleeps nor has ended. *)
Definition busy (w : WriterPc) : Prop :=
  match w with WOpening | WPreparing | WPruning | WLocking | WLingering | WWriting _ => True | _ => False end.
Lemma setWriter_busy next s : busy (writer s) -> busy next -> store_ok s -> store_ok (setWriter next s).
Proof.
  intros Hb Hn [H1 H2 H3 H4 H5 H6 H7]. fields s. split; cbn; try done.
  - intros ->. done.
  - destruct ctl; try done; destruct_and?; subst; done.
  - intros Hl. by destruct next.
Qed.

Lemma takeBatch_ok s : busy (writer s) -> store_ok s -> store_ok (takeBatch s).
Proof.
  intros Hb [H1 H2 H3 H4 H5 H6 H7]. unfold takeBatch.
  assert (Hctl : match controller s with CStartReset | CStartAccept | CStartSpawn => False | _ => True end).
  { clear -Hb H5. fields s. destruct ctl; try done; destruct_and?; subst; done. }
  fields s. destruct (bool_decide (take kWriteBatchSize q = []) && stp) eqn:E.
  - apply andb_true_iff in E as [E ->]. apply bool_decide_eq_true in E. assert (q = []) as -> by (by destruct q).
    split; cbn; try done. by destruct ctl.
  - split; cbn; try done.
    + rewrite length_drop. lia.
    + apply Forall_app. split; [done |]. constructor; [|done]. rewrite length_take. lia.
    + intros Hl. rewrite H3 by done. rewrite concat_app. cbn. rewrite app_nil_r, <- app_assoc. f_equal. symmetry. apply take_drop.
    + by destruct ctl.
Qed.

Lemma writerLock_ok s : writer s = WLocking -> store_ok s -> store_ok (writerLock s).
Proof.
  intros Hw Hok. assert (Hb : busy (writer s)) by (by rewrite Hw). unfold writerLock.
  destruct (negb (stopping_ s) && bool_decide (queue_ s = [])) eqn:E1; [|case_if; [by apply setWriter_busy | by apply takeBatch_ok]].
  apply andb_true_iff in E1 as [E1 E2]. apply negb_true_iff in E1. apply bool_decide_eq_true in E2.
  destruct Hok as [H1 H2 H3 H4 H5 H6 H7]. fields s. subst. split; cbn; try done. destruct ctl; intuition congruence.
Qed.

Lemma telemetry_giveUp_ok next s : busy (writer s) \/ writer s = WRefused -> (next = WClearing \/ next = WExited) -> store_ok s ->
  store_ok (setWriter next (setGhost (accepted s) (taken s) true (setFlags false (stopping_ s) s))).
Proof.
  intros Hb Hw [H1 H2 H3 H4 H5 H6 H7]. fields s. split; cbn; try done.
  - destruct Hw as [-> | ->]; done.
  - destruct ctl; try done; destruct_and? ; subst; destruct Hb; done.
Qed.

Lemma writerStep_ok answer s s' : writerStep answer s = Some s' -> store_ok s -> store_ok s'.
Proof.
  intros E Hok. unfold writerStep in E. destruct (writer s) eqn:Ew; try done; destruct answer; try done.
  - destruct opened; cbn in E; [|injection E as <-].
    + destruct (initializeDatabase executed a (connection s)).1; injection E as <-.
      * apply setWriter_busy; [cbn; by rewrite Ew | done | by apply perform_ok].
      * destruct Hok as [H1 H2 H3 H4 H5 H6 H7].
        fields s. subst w. split; cbn; try done. destruct ctl; intuition congruence.
    + destruct Hok as [H1 H2 H3 H4 H5 H6 H7]. fields s. subst w. split; cbn; try done. destruct ctl; intuition congruence.
  - injection E as <-. apply telemetry_giveUp_ok; auto.
  - injection E as <-. destruct Hok as [H1 H2 H3 H4 H5 H6 H7]. fields s. subst w. destruct lst; [|by destruct (H7 eq_refl)].
    split; cbn; try done; [lia | destruct ctl; intuition congruence].
  - destruct prepared; injection E as <-; [apply setWriter_busy; [by rewrite Ew | done | done] |].
    apply (telemetry_giveUp_ok WExited (close s)); [left; cbn; by rewrite Ew | by right | by apply perform_ok].
  - injection E as <-. apply setWriter_busy; [cbn; by rewrite Ew | done |]. by apply setPrune_ok, perform_ok.
  - injection E as <-. by apply writerLock_ok.
  - injection E as <-. apply takeBatch_ok; [by rewrite Ew | done].
  - injection E as <-. unfold writerWrite. case_if; (apply setWriter_busy; [cbn; by rewrite Ew | done |]).
    + by apply setPrune_ok, perform_ok, perform_ok.
    + by apply setPrune_ok, perform_ok.
  - injection E as <-. destruct Hok as [H1 H2 H3 H4 H5 H6 H7]. fields s. subst w. split; cbn; try done. destruct ctl; intuition congruence.
Qed.

Lemma turn_ok c s s' : turn c s = Some s' -> store_ok s -> store_ok s'.
Proof.
  intros E Hok. destruct c as [i r now|i|e| |answer|answer]; cbn in E.
  - destruct (recorders s !! i) as [[| |]|] eqn:Hi; try done. injection E as <-. unfold recordCheck. case_if; [done |]. apply setRecorder_ok; [congruence | done].
  - destruct (recorders s !! i) as [[|r|]|] eqn:Hi; try done; injection E as <-; [by apply recordSection_ok | by apply recorder_notify_ok].
  - destruct (controller s) eqn:Ec; try done. injection E as <-. unfold startCall. case_if; [done |]. apply orb_false_iff in E as [_ E].
    destruct Hok as [H1 H2 H3 H4 H5 H6 H7]. fields s. subst. split; cbn; try done.
    + intros Hw. destruct (H4 Hw) as [Ha Hb]. split; [done |]. intros Hs. specialize (Hb Hs). congruence.
    + intros Hl. specialize (H7 Hl). destruct w; intuition congruence.
  - destruct (controller s) eqn:Ec; try done. injection E as <-.
    destruct Hok as [H1 H2 H3 H4 H5 H6 H7]. fields s. subst. split; cbn; try done.
    + intros Hw. destruct (H4 Hw) as [Ha Hb]. split; [done |]. intros Hs. specialize (Hb Hs). congruence.
    + intros Hl. specialize (H7 Hl). destruct w; intuition congruence.
  - by eapply controlStep_ok.
  - by eapply writerStep_ok.
Qed.

Lemma telemetry_reachable_ok days events queued threads s : rtc store_step (newStore days events queued threads) s -> store_ok s.
Proof.
  intros H. assert (Hok := telemetry_newStore_ok days events queued threads). revert Hok.
  induction H as [|s s1 s2 [c Hc] _ IH]; [done |]. intros Hok. apply IH. by eapply turn_ok.
Qed.

(** ** Where the rows come from *)

Record store_traced (s : Store) : Prop := {
  connection_is : connection s = history (mkConnection newDatabase None) (performed s);
  handed_ever : forall r, handed (performed s) r -> r ∈ ever s;
  queue_ever : forall r, r ∈ queue_ s -> r ∈ ever s;
  batch_ever : match writer s with WWriting batch => forall r, r ∈ batch -> r ∈ ever s | _ => True end;
}.

Lemma handed_snoc ops op r : handed (ops ++ [op]) r -> handed ops r \/ exists a batch, op = Write a batch /\ r ∈ batch.
Proof.
  intros (a & batch & [Hin|Hin%list_elem_of_singleton]%elem_of_app & Hr); [left; by exists a, batch | right; eauto].
Qed.

Lemma perform_traced op s :
  (forall a batch r, op = Write a batch -> r ∈ batch -> r ∈ ever s) -> store_traced s -> store_traced (perform op s).
Proof.
  intros Hop [T1 T2 T3 T4]. split; cbn; try done.
  - unfold history. rewrite foldl_app. cbn. by rewrite T1.
  - intros r [Hr|(a & batch & -> & Hr)]%handed_snoc; [by apply T2 | by eapply Hop].
Qed.
(** A step that leaves database and queue alone. *)
Lemma traced_same s s' :
  connection s' = connection s -> performed s' = performed s -> ever s' = ever s -> (forall r, r ∈ queue_ s' -> r ∈ queue_ s) ->
  (writer s' = writer s \/ match writer s' with WWriting batch => forall r, r ∈ batch -> r ∈ queue_ s | _ => True end) ->
  store_traced s -> store_traced s'.
Proof.
  intros E1 E2 E3 Hq Hw [T1 T2 T3 T4]. split; rewrite ?E1, ?E2, ?E3; auto. destruct Hw as [-> |Hw]; [done |]. destruct (writer s'); auto.
Qed.

Ltac untouched H :=
  match type of H with store_traced ?s => apply (traced_same s); [reflexivity | reflexivity | reflexivity | done | first [by left | by right] | exact H] end.

Lemma takeBatch_traced s : store_traced s -> store_traced (takeBatch s).
Proof.
  intros H. apply (traced_same s); [| | | | | exact H]; unfold takeBatch; case_if; try done; cbn.
  - intros r Hr. rewrite <- (take_drop kWriteBatchSize (queue_ s)). apply elem_of_app. by right.
  - intros r Hr. rewrite <- (take_drop kWriteBatchSize (queue_ s)). apply elem_of_app. by right.
  - by right.
  - right. intros r Hr. rewrite <- (take_drop kWriteBatchSize (queue_ s)). apply elem_of_app. by left.
Qed.

Lemma recordSection_traced i r s : store_traced s -> store_traced (recordSection i r s).
Proof.
  intros H. unfold recordSection. case_if; [untouched H |].
  case_if; [untouched H |]. destruct H as [T1 T2 T3 T4]. split; cbn; [done | | |].
  - intros x Hx. apply elem_of_app. left. by apply T2.
  - intros x [Hx| ->%list_elem_of_singleton]%elem_of_app; apply elem_of_app; [left; by apply T3 | right; by apply list_elem_of_singleton].
  - destruct (writer s); try done. intros x Hx. apply elem_of_app. left. by apply T4.
Qed.

Lemma writerStep_traced answer s s' : writerStep answer s = Some s' -> store_traced s -> store_traced s'.
Proof.
  intros E H. unfold writerStep in E. destruct (writer s) eqn:Ew; try done; destruct answer; try done.
  - destruct opened; cbn in E; [|injection E as <-; untouched H].
    assert (H1 : store_traced (perform (Initialize executed a) s)) by (by apply perform_traced).
    destruct (initializeDatabase executed a (connection s)).1; injection E as <-; [untouched H1 |].
    assert (H2 : store_traced (close (perform (Initialize executed a) s))) by (by apply perform_traced). untouched H2.
  - injection E as <-. untouched H.
  - injection E as <-. apply (traced_same s); [done | done | done | | by right | exact H]. intros r Hr. by apply elem_of_nil in Hr.
  - destruct prepared; injection E as <-; [untouched H |]. assert (H1 : store_traced (close s)) by (by apply perform_traced). untouched H1.
  - injection E as <-. assert (H1 : store_traced (prune p s)) by (by apply perform_traced). untouched H1.
  - injection E as <-. unfold writerLock. case_if; [untouched H |]. case_if; [untouched H |]. by apply takeBatch_traced.
  - injection E as <-. by apply takeBatch_traced.
  - injection E as <-. assert (H1 : store_traced (perform (Write a batch) s)).
    { apply perform_traced; [|done]. intros a' b' r [= _ <-]. pose proof (batch_ever _ H) as Hb. rewrite Ew in Hb. auto. }
    unfold writerWrite. case_if; [|untouched H1].
    assert (H2 : store_traced (prune p (perform (Write a batch) s))) by (by apply perform_traced). untouched H2.
  - injection E as <-. assert (H1 : store_traced (close (prune p s))) by (by apply perform_traced, perform_traced). untouched H1.
Qed.

Lemma turn_traced c s s' : turn c s = Some s' -> store_traced s -> store_traced s'.
Proof.
  intros E H. destruct c as [i r now|i|e| |answer|answer]; cbn in E.
  - destruct (recorders s !! i) as [[| |]|]; try done. injection E as <-. unfold recordCheck. case_if; [done | untouched H].
  - destruct (recorders s !! i) as [[|r|]|]; try done; injection E as <-; [by apply recordSection_traced |].
    unfold notify. cbn. destruct (writer s) eqn:Ew; untouched H.
  - destruct (controller s); try done. injection E as <-. unfold startCall. case_if; [done | untouched H].
  - destruct (controller s); try done. injection E as <-. untouched H.
  - assert (Hjoin : forall next, joinWriter next s = Some s' -> store_traced s').
    { intros next Ej. unfold joinWriter in Ej. destruct (writer s) eqn:Ew; try done; injection Ej as <-; untouched H. }
    unfold controlStep in E. destruct (controller s); try done; try (by eapply Hjoin).
    + injection E as <-. apply (traced_same s); [done | done | done | | by left | exact H]. intros r Hr. by apply elem_of_nil in Hr.
    + injection E as <-. untouched H.
    + injection E as <-. destruct answer; untouched H.
    + injection E as <-. untouched H.
    + injection E as <-. unfold notify. destruct (writer s) eqn:Ew; untouched H.
  - by eapply writerStep_traced.
Qed.

Lemma reachable_traced days events queued threads s : rtc store_step (newStore days events queued threads) s -> store_traced s.
Proof.
  intros H. assert (Hok : store_traced (newStore days events queued threads)).
  { split; cbn; try done. intros r (a & batch & Hin & _). by apply elem_of_nil in Hin. }
  revert Hok. induction H as [|s s1 s2 [c Hc] _ IH]; [done |]. intros Hok. apply IH. by eapply turn_traced.
Qed.

(** ** What the threads can rely on *)

(** How much the writer has to do before it ends, once it has been told to stop. *)
Definition toDo (s : Store) : nat :=
  4 * length (queue_ s) +
  match writer s with
  | WNone | WExited => 0
  | WLeaving | WClearing => 1
  | WLocking | WLingering | WRefused => 2
  | WWriting _ | WPruning | WAsleep => 3
  | WPreparing => 4
  | WOpening => 5
  end.

Definition by_writer (c : Choice) : bool := match c with Writer _ => true | _ => false end.

Lemma writer_enabled s : writer s <> WAsleep -> writer s <> WNone -> writer s <> WExited -> exists answer s', writerStep answer s = Some s'.
Proof.
  intros H1 H2 H3. set (p := mkPruneAnswers 0 StepDone StepDone). unfold writerStep. destruct (writer s); try done.
  - exists (Opened false (λ _, false) (mkMigrationAnswers false false (λ _, StepDone) false)). cbn. eauto.
  - exists Proceeds. eauto.
  - exists Proceeds. eauto.
  - exists (Prepared true). eauto.
  - exists (Pruned p 0). eauto.
  - exists Proceeds. eauto.
  - exists Proceeds. eauto.
  - exists (Wrote (mkBatchAnswers true (λ _ _, StepDone) true true) 0 p). eauto.
  - exists (Pruned p 0). eauto.
Qed.

Lemma takeBatch_toDo s : stopping_ s = true -> writer s = WLocking \/ writer s = WLingering -> (toDo (takeBatch s) < toDo s)%nat.
Proof.
  intros Hs Hw. unfold takeBatch. rewrite Hs, andb_true_r. assert (1 <= kWriteBatchSize)%nat by (unfold kWriteBatchSize; lia).
  case_bool_decide as E; unfold toDo; cbn [queue_ writer setWriter setQueue setGhost]; rewrite length_drop.
  - destruct Hw as [-> | ->]; lia.
  - assert (1 <= length (queue_ s))%nat by (destruct (queue_ s); [done | cbn; lia]). destruct Hw as [-> | ->]; lia.
Qed.

Lemma writerStep_toDo answer s s' :
  stopping_ s = true -> writerStep answer s = Some s' -> (toDo s' < toDo s)%nat /\ controller s' = controller s /\ stopping_ s' = true.
Proof.
  intros Hs E. unfold writerStep in E. destruct (writer s) eqn:Ew; try done; destruct answer; try done.
  - destruct opened; cbn in E; [|injection E as <-; unfold toDo; cbn; rewrite Ew; split_and!; done || lia].
    destruct (initializeDatabase executed a (connection s)).1; injection E as <-; unfold toDo; cbn; rewrite Ew; split_and!; done || lia.
  - injection E as <-. unfold toDo. cbn. rewrite Ew. split_and!; done || lia.
  - injection E as <-. unfold toDo. cbn. rewrite Ew. split_and!; done || lia.
  - destruct prepared; injection E as <-; unfold toDo; cbn; rewrite Ew; split_and!; done || lia.
  - injection E as <-. unfold toDo. cbn. rewrite Ew. split_and!; done || lia.
  - injection E as <-. unfold writerLock. rewrite Hs. cbn [negb andb]. split; [apply takeBatch_toDo; auto |]. unfold takeBatch. by case_if.
  - injection E as <-. split; [apply takeBatch_toDo; auto |]. unfold takeBatch. by case_if.
  - injection E as <-. unfold writerWrite. case_if; unfold toDo; cbn; rewrite Ew; split_and!; done || lia.
  - injection E as <-. unfold toDo. cbn. rewrite Ew. split_and!; done || lia.
Qed.

Lemma recorder_toDo i s s' c :
  accepting_ s = false -> writer s <> WAsleep -> (c = RecordGoesOn i \/ exists r now, c = RecordCall i r now) -> turn c s = Some s' ->
  toDo s' = toDo s /\ controller s' = controller s.
Proof.
  intros Ha Hw Hc E. destruct Hc as [-> |(r & now & ->)]; cbn in E.
  - destruct (recorders s !! i) as [[|r|]|]; try done; injection E as <-.
    + unfold recordSection. rewrite Ha. done.
    + unfold notify. cbn [writer setRecorder]. destruct (writer s) eqn:Ew; try done; (split; [unfold toDo; cbn [queue_ writer setRecorder]; by rewrite Ew | done]).
  - destruct (recorders s !! i) as [[| |]|]; try done. injection E as <-. unfold recordCheck. by rewrite Ha.
Qed.

(** C29: The queue keeps its promises in every interleaving. It stays within its bound, a
    batch has at most 256 records; as long as the writer has not given up, what was accepted
    since the start is what was taken, in batches, in order, followed by what waits; a
    writer that sleeps although there is something to do is about to be notified; and what
    is in the database was accepted, whole and in good order. *)
Theorem telemetry_queue_exact days events queued threads s :
  rtc store_step (newStore days events queued threads) s ->
  (length (queue_ s) <= maxQueued_ s)%nat /\ Forall (λ b, (length b <= 256)%nat) (taken s) /\
  (lost s = false -> accepted s = concat (taken s) ++ queue_ s) /\
  (writer s = WAsleep -> queue_ s <> [] \/ stopping_ s = true -> controller s = CStopNotify \/ exists i, recorders s !! i = Some RNotify) /\
  sound (λ r, r ∈ ever s) (committed (connection s)).
Proof.
  intros Hr. destruct (telemetry_reachable_ok _ _ _ _ _ Hr) as [H1 H2 H3 H4 _ _ _]. destruct (reachable_traced _ _ _ _ _ Hr) as [T1 T2 _ _].
  split_and!; try done.
  - intros Hw [Hq|Hs]; destruct (H4 Hw) as [Ha Hb]; auto.
  - rewrite T1. destruct (history_ok (performed s)) as [Hc Ht]. split; [done |]. intros e He. destruct (Ht e He) as (r & Hh & ?). exists r. auto.
Qed.

(** C30: [stop] returns, and loses nothing. While it waits for the writer the writer is not
    asleep and can move, every move of the writer brings its end closer and no move of any
    other thread delays it; when [stop] returns nothing waits any more, and unless the
    writer had given up everything accepted since the start was handed to the database. *)
Theorem telemetry_stop_returns days events queued threads s :
  rtc store_step (newStore days events queued threads) s -> controller s = CStopJoin ->
  (exists c s', turn c s = Some s' /\ (by_writer c = true \/ controller s' = CIdle)) /\
  forall c s', turn c s = Some s' ->
    (controller s' = CIdle /\ writer s' = WNone /\ (lost s' = false -> queue_ s' = [] /\ accepted s' = concat (taken s'))) \/
    (controller s' = CStopJoin /\ (toDo s' <= toDo s)%nat /\ (by_writer c = true -> (toDo s' < toDo s)%nat)).
Proof.
  intros Hr Hc. pose proof (telemetry_reachable_ok _ _ _ _ _ Hr) as [H1 H2 H3 H4 H5 H6 H7]. rewrite Hc in H5.
  assert (Hawake : writer s <> WAsleep) by (intros Hw; destruct (H4 Hw) as [_ Hb]; specialize (Hb H5); congruence).
  assert (Hjoin : forall s', joinWriter CIdle s = Some s' ->
    controller s' = CIdle /\ writer s' = WNone /\ (lost s' = false -> queue_ s' = [] /\ accepted s' = concat (taken s'))).
  { intros s' E. unfold joinWriter in E. destruct (writer s) eqn:Ew; try done; injection E as <-; cbn; (split_and!; [done | done |]); intros Hl; rewrite (H3 Hl); specialize (H7 Hl).
    - destruct H7 as [?|[-> _]]; [congruence |]. by rewrite app_nil_r.
    - destruct H7 as [_ ->]. by rewrite app_nil_r. }
  split.
  - assert (Hcase : (writer s = WNone \/ writer s = WExited) \/ ~ (writer s = WNone \/ writer s = WExited)) by (destruct (writer s); intuition congruence).
    destruct Hcase as [Hend|Hrun].
    + assert (Hj : exists s', joinWriter CIdle s = Some s') by (unfold joinWriter; destruct Hend as [-> | ->]; eauto).
      destruct Hj as [s' Hj]. exists (Control true), s'. cbn. unfold controlStep. rewrite Hc. split; [done |]. right. by apply Hjoin.
    + destruct (writer_enabled s Hawake) as (answer & s' & E); [tauto | tauto |]. exists (Writer answer), s'. split; [exact E | by left].
  - intros c s' E. destruct c as [i r now|i|e| |answer|answer].
    + right. destruct (recorder_toDo i s s' (RecordCall i r now) (H6 H5) Hawake ltac:(eauto) E) as [-> ->]. split_and!; [done | lia | done].
    + right. destruct (recorder_toDo i s s' (RecordGoesOn i) (H6 H5) Hawake ltac:(eauto) E) as [-> ->]. split_and!; [done | lia | done].
    + cbn in E. by rewrite Hc in E.
    + cbn in E. by rewrite Hc in E.
    + left. cbn in E. unfold controlStep in E. rewrite Hc in E. by apply Hjoin.
    + right. destruct (writerStep_toDo answer s s' H5 E) as (Hlt & -> & _). split_and!; [done | lia | done].
Qed.

(** ** A run *)

Definition aRecord (at_ : Z) : ProbeRecord := sampleRecord at_.
Definition noPrune : PruneAnswers := mkPruneAnswers 0 StepFailed StepFailed.
Definition migrates : MigrationAnswers := mkMigrationAnswers true true (λ _, StepDone) true.
Definition worksFine : BatchAnswers := mkBatchAnswers true (λ _ _, StepDone) true true.

(** Two threads record while a third starts and stops the store: the second record is
    accepted while the writer lingers, and the stop comes before its notification. *)
Definition aRun : list Choice :=
  [StartCall false; Control true; Control true; Control true; Control true;
   Writer (Opened true (λ _, true) migrates); Writer (Prepared true); Writer (Pruned noPrune 0); Writer Proceeds;
   RecordCall 0 (aRecord 0) 100; RecordGoesOn 0; RecordGoesOn 0; Writer Proceeds;
   RecordCall 1 (aRecord 7) 100; RecordGoesOn 1; StopCall; Control true; Control true].
Definition aStore : Store := default (newStore 30 100 64 2) (run aRun (newStore 30 100 64 2)).

Lemma run_reaches cs s s' : run cs s = Some s' -> rtc store_step s s'.
Proof.
  unfold run. revert s. induction cs as [|c cs IH]; intros s E; cbn in E; [by injection E as <-; apply rtc_refl |].
  destruct (turn c s) as [s1|] eqn:Et; [eapply rtc_l; [by exists c | by apply IH] |].
  exfalso. clear -E. induction cs; [done | auto].
Qed.

Lemma telemetry_stop_returns_witness :
  toDo aStore = 10%nat /\ exists c s', turn c aStore = Some s' /\ (by_writer c = true \/ controller s' = CIdle).
Proof.
  split; [vm_compute; reflexivity |].
  assert (Hr : rtc store_step (newStore 30 100 64 2) aStore) by (apply (run_reaches aRun); vm_compute; reflexivity).
  apply (telemetry_stop_returns 30 100 64 2 aStore Hr). vm_compute. reflexivity.
Defined.
Lemma telemetry_queue_exact_witness :
  length (queue_ aStore) = 2%nat /\ accepted aStore = concat (taken aStore) ++ queue_ aStore.
Proof.
  split; [vm_compute; reflexivity |].
  assert (Hr : rtc store_step (newStore 30 100 64 2) aStore) by (apply (run_reaches aRun); vm_compute; reflexivity).
  apply (telemetry_queue_exact 30 100 64 2 aStore Hr). vm_compute. reflexivity.
Defined.
