(* ===== verification/TransparentFlow.v ===== *)
(** * TransparentFlow: which packets and connections belong to the engine

    Models [src/src/TransparentFlow.hpp] and [src/src/TransparentFlow.cpp] (namespace
    [transparent]): canonical addresses, the registry that authorises an accepted
    connection ([FlowRegistry]), the one for DNS datagrams ([DatagramRegistry]), the table
    of rewritten TCP tuples ([TcpFlowTable]) and the port-based routing decision. Each
    operation runs under the object's mutex and is one function on its state; [tick] is
    what [GetTickCount64()] returns during the call. The [inet_pton] of Winsock is a
    parameter. *)

From S2P Require Import Prelude Containers.

(** ** Addresses *)

(** [std::array<uint8_t, 16>] *)
Abbreviation Address := (list Z).

Record PeerKey := mkPeerKey { pk_address : Address; pk_port : Z; pk_kind : Z }.

#[export] Instance PeerKey_eq_dec : EqDecision PeerKey.
Proof. solve_decision. Defined.
#[export] Instance PeerKey_countable : Countable PeerKey.
Proof.
  apply (inj_countable' (λ k, (pk_address k, pk_port k, pk_kind k))
    (λ t, mkPeerKey t.1.1 t.1.2 t.2)). by intros [].
Defined.

(** [addressFromBytes]; [None] is the null pointer. *)
Definition addressFromBytes (b : option bytes) (ipv6 : bool) : Address :=
  match b with
  | None => replicate 16 0
  | Some b => if ipv6 then take 16 b else replicate 10 0 ++ [0xFF; 0xFF] ++ take 4 b
  end.

Section parseAddress.
(** [inet_pton] for each family: the network-order bytes, or [None] on malformed text. *)
Variable inet_pton4 inet_pton6 : bytes -> option bytes.

Definition parseAddress (text : bytes) : option Address :=
  match inet_pton4 text with
  | Some v4 => Some (addressFromBytes (Some v4) false)
  | None =>
      match inet_pton6 text with
      | Some v6 => Some (addressFromBytes (Some v6) true)
      | None => None
      end
  end.
End parseAddress.

(** FNV-1a over the 19 bytes of the key. *)
Definition hash_add (hash value : Z) : Z := w64 (Z.lxor hash value * 1099511628211).
Definition PeerKeyHash (key : PeerKey) : Z :=
  foldl hash_add 1469598103934665603
    (pk_address key ++ [w8 (Z.shiftr (pk_port key) 8); w8 (pk_port key); pk_kind key]).

(** ** Constants and helpers *)

Definition kPendingFlowTtlMs : Z := 15000.
Definition kMaxPendingFlows : Z := 8192.
Definition kMaxPendingDatagramsPerTuple : Z := 32.
Definition kPruneIntervalMs : Z := 1000.
Definition kTcpFlowIdleMs : Z := 4 * 60 * 60 * 1000.
Definition kTcpFlowClosingMs : Z := 2 * 60 * 1000.
Definition kMaxTcpFlows : Z := 65536.

Definition clockMs (supplied tick : Z) : Z := if supplied =? 0 then tick else supplied.

Definition flowKey (address : bytes) (port : Z) : bytes := address ++ str "|" ++ to_string port.

Section Registries.
Context `{!MapOrder bytes, !MapOrder PeerKey}.

(** ** FlowRegistry *)

Record Target := mkTarget { t_address : bytes; targetPort : Z; connectPort : Z }.
Record FlowEntry := mkFlowEntry { target : Target; f_expiresAtMs : Z }.
Record FlowRegistry := mkFlowRegistry {
  f_entries_ : gmap bytes FlowEntry;
  f_nextPruneMs_ : Z;
}.
Definition newFlowRegistry : FlowRegistry := mkFlowRegistry ∅ 0.

Definition flow_pruneLocked (now : Z) (m : gmap bytes FlowEntry) : gmap bytes FlowEntry :=
  erase_if (λ _ e, f_expiresAtMs e <=? now) m.

Definition flow_observe (r : FlowRegistry) (serverAddress : bytes) (clientPort tPort cPort : Z)
    (nowMs tick : Z) : FlowRegistry :=
  if bool_decide (serverAddress = []) || (clientPort =? 0) || (tPort =? 0) || (cPort =? 0)
  then r else
  let now := clockMs nowMs tick in
  let '(m, next) :=
    if f_nextPruneMs_ r <=? now
    then (flow_pruneLocked now (f_entries_ r), w64 (now + kPruneIntervalMs))
    else (f_entries_ r, f_nextPruneMs_ r) in
  let m :=
    if kMaxPendingFlows <=? msize m then
      let m := flow_pruneLocked now m in
      if kMaxPendingFlows <=? msize m then erase_min f_expiresAtMs m else m
    else m in
  mkFlowRegistry
    (<[flowKey serverAddress clientPort :=
         mkFlowEntry (mkTarget serverAddress tPort cPort) (w64 (now + kPendingFlowTtlMs))]> m)
    next.

Definition flow_claim (r : FlowRegistry) (peerAddress : bytes) (peerPort nowMs tick : Z)
    : option Target * FlowRegistry :=
  let now := clockMs nowMs tick in
  let key := flowKey peerAddress peerPort in
  match f_entries_ r !! key with
  | None => (None, r)
  | Some e =>
      (if now <? f_expiresAtMs e then Some (target e) else None,
       mkFlowRegistry (delete key (f_entries_ r)) (f_nextPruneMs_ r))
  end.

Definition flow_size (r : FlowRegistry) (nowMs tick : Z) : Z * FlowRegistry :=
  let m := flow_pruneLocked (clockMs nowMs tick) (f_entries_ r) in
  (msize m, mkFlowRegistry m (f_nextPruneMs_ r)).

Definition flow_clear (r : FlowRegistry) : FlowRegistry := mkFlowRegistry ∅ (f_nextPruneMs_ r).

(** ** DatagramRegistry *)

Record DgramEntry := mkDgramEntry { pending : Z; d_expiresAtMs : Z }.
Record DatagramRegistry := mkDatagramRegistry {
  d_entries_ : gmap bytes DgramEntry;
  d_nextPruneMs_ : Z;
}.
Definition newDatagramRegistry : DatagramRegistry := mkDatagramRegistry ∅ 0.

Definition dgram_pruneLocked (now : Z) (m : gmap bytes DgramEntry) : gmap bytes DgramEntry :=
  erase_if (λ _ e, d_expiresAtMs e <=? now) m.

Definition dgram_observe (r : DatagramRegistry) (serverAddress : bytes) (clientPort : Z)
    (nowMs tick : Z) : DatagramRegistry :=
  if bool_decide (serverAddress = []) || (clientPort =? 0) then r else
  let now := clockMs nowMs tick in
  let '(m, next) :=
    if d_nextPruneMs_ r <=? now
    then (dgram_pruneLocked now (d_entries_ r), w64 (now + kPruneIntervalMs))
    else (d_entries_ r, d_nextPruneMs_ r) in
  let key := flowKey serverAddress clientPort in
  match m !! key with
  | Some e =>
      let p := if d_expiresAtMs e <=? now then 0 else pending e in
      mkDatagramRegistry
        (<[key := mkDgramEntry (Z.min (w32 (p + 1)) kMaxPendingDatagramsPerTuple)
                    (w64 (now + kPendingFlowTtlMs))]> m) next
  | None =>
      let m :=
        if kMaxPendingFlows <=? msize m then
          let m := dgram_pruneLocked now m in
          if kMaxPendingFlows <=? msize m then erase_min d_expiresAtMs m else m
        else m in
      mkDatagramRegistry (<[key := mkDgramEntry 1 (w64 (now + kPendingFlowTtlMs))]> m) next
  end.

Definition dgram_claim (r : DatagramRegistry) (peerAddress : bytes) (peerPort nowMs tick : Z)
    : bool * DatagramRegistry :=
  let now := clockMs nowMs tick in
  let key := flowKey peerAddress peerPort in
  match d_entries_ r !! key with
  | None => (false, r)
  | Some e =>
      if (d_expiresAtMs e <=? now) || (pending e =? 0)
      then (false, mkDatagramRegistry (delete key (d_entries_ r)) (d_nextPruneMs_ r))
      else
        let p := w32 (pending e - 1) in
        (true,
         mkDatagramRegistry
           (if p =? 0 then delete key (d_entries_ r)
            else <[key := mkDgramEntry p (d_expiresAtMs e)]> (d_entries_ r))
           (d_nextPruneMs_ r))
  end.

Definition dgram_size (r : DatagramRegistry) (nowMs tick : Z) : Z * DatagramRegistry :=
  let m := dgram_pruneLocked (clockMs nowMs tick) (d_entries_ r) in
  (msize m, mkDatagramRegistry m (d_nextPruneMs_ r)).

Definition dgram_clear (r : DatagramRegistry) : DatagramRegistry :=
  mkDatagramRegistry ∅ (d_nextPruneMs_ r).

(** ** TcpFlowTable *)

Inductive FlowKind := Client | Upstream.
Definition kindCode (k : FlowKind) : Z := match k with Client => 1 | Upstream => 2 end.

Record TcpEntry := mkTcpEntry { t_expiresAtMs : Z; closing : bool }.
Record TcpFlowTable := mkTcpFlowTable {
  t_entries_ : gmap PeerKey TcpEntry;
  nextSweepMs_ : Z;
}.
Definition newTcpFlowTable : TcpFlowTable := mkTcpFlowTable ∅ 0.

(** The eviction of the [evict] entries that expire first. *)
Definition expiry_le (a b : Z * PeerKey) : Prop := a.1 <= b.1.
#[export] Instance expiry_le_dec : RelDecision expiry_le.
Proof. intros a b. unfold expiry_le. apply _. Defined.

Definition tcp_evict (m : gmap PeerKey TcpEntry) : gmap PeerKey TcpEntry :=
  let oldest := (λ kv : PeerKey * TcpEntry, (t_expiresAtMs kv.2, kv.1)) <$> iter m in
  let evict := Z.max 1 (zlen oldest / 16) in
  erase_keys (smallest expiry_le evict oldest).*2 m.

Definition tcp_makeRoomLocked (t : TcpFlowTable) (now : Z) : TcpFlowTable :=
  if nextSweepMs_ t <=? now then
    let next := w64 (now + kPruneIntervalMs) in
    let m := erase_if (λ _ e, t_expiresAtMs e <=? now) (t_entries_ t) in
    if msize m <? kMaxTcpFlows then mkTcpFlowTable m next
    else mkTcpFlowTable (tcp_evict m) next
  else mkTcpFlowTable (tcp_evict (t_entries_ t)) (nextSweepMs_ t).

Definition tcp_add (t : TcpFlowTable) (k : FlowKind) (server : Address) (localPort nowMs tick : Z)
    : TcpFlowTable :=
  if localPort =? 0 then t else
  let now := clockMs nowMs tick in
  let key := mkPeerKey server localPort (kindCode k) in
  let fresh := mkTcpEntry (w64 (now + kTcpFlowIdleMs)) false in
  match t_entries_ t !! key with
  | Some _ => mkTcpFlowTable (<[key := fresh]> (t_entries_ t)) (nextSweepMs_ t)
  | None =>
      let t := if kMaxTcpFlows <=? msize (t_entries_ t) then tcp_makeRoomLocked t now else t in
      mkTcpFlowTable (<[key := fresh]> (t_entries_ t)) (nextSweepMs_ t)
  end.

Definition tcp_track (t : TcpFlowTable) (k : FlowKind) (server : Address) (localPort : Z)
    (fin rst : bool) (nowMs tick : Z) : bool * TcpFlowTable :=
  let now := clockMs nowMs tick in
  let key := mkPeerKey server localPort (kindCode k) in
  match t_entries_ t !! key with
  | None => (false, t)
  | Some e =>
      if (t_expiresAtMs e <=? now) || rst then
        (now <? t_expiresAtMs e, mkTcpFlowTable (delete key (t_entries_ t)) (nextSweepMs_ t))
      else
        let c := fin || closing e in
        (true,
         mkTcpFlowTable
           (<[key := mkTcpEntry (w64 (now + if c then kTcpFlowClosingMs else kTcpFlowIdleMs)) c]>
              (t_entries_ t)) (nextSweepMs_ t))
  end.

Definition tcp_remove (t : TcpFlowTable) (k : FlowKind) (server : Address) (localPort : Z)
    : TcpFlowTable :=
  mkTcpFlowTable (delete (mkPeerKey server localPort (kindCode k)) (t_entries_ t)) (nextSweepMs_ t).

Definition tcp_size (t : TcpFlowTable) : Z := msize (t_entries_ t).

Definition tcp_clear (t : TcpFlowTable) : TcpFlowTable := mkTcpFlowTable ∅ 0.

(** ** Routing *)

Inductive PacketRoute :=
  | Pass
  | ReflectClientToProxy
  | ReflectProxyToClient
  | RedirectProxyToTarget
  | RedirectTargetToProxy.

Definition routePacket (outbound : bool) (sourcePort destinationPort tPort proxyPort cPort : Z)
    : PacketRoute :=
  if outbound then
    if sourcePort =? proxyPort then ReflectProxyToClient
    else if destinationPort =? cPort then RedirectProxyToTarget
    else if destinationPort =? tPort then ReflectClientToProxy
    else Pass
  else if sourcePort =? tPort then RedirectTargetToProxy
  else Pass.

Inductive DatagramRoute := DPass | ReflectDnsToProxy | DReflectProxyToClient.

Definition routeDatagram (outbound : bool) (sourcePort destinationPort dnsPort proxyPort : Z)
    : DatagramRoute :=
  if negb outbound then DPass
  else if sourcePort =? proxyPort then DReflectProxyToClient
  else if destinationPort =? dnsPort then ReflectDnsToProxy
  else DPass.

(** ** Operations as data *)

Inductive FlowOp :=
  | FObserve (serverAddress : bytes) (clientPort tPort cPort nowMs tick : Z)
  | FClaim (peerAddress : bytes) (peerPort nowMs tick : Z)
  | FSize (nowMs tick : Z)
  | FClear.

Definition flow_run (r : FlowRegistry) (op : FlowOp) : FlowRegistry :=
  match op with
  | FObserve a p t c now tick => flow_observe r a p t c now tick
  | FClaim a p now tick => (flow_claim r a p now tick).2
  | FSize now tick => (flow_size r now tick).2
  | FClear => flow_clear r
  end.

Inductive DgramOp :=
  | DObserve (serverAddress : bytes) (clientPort nowMs tick : Z)
  | DClaim (peerAddress : bytes) (peerPort nowMs tick : Z)
  | DSize (nowMs tick : Z)
  | DClear.

(** One datagram operation; the boolean is a successful claim. *)
Definition dgram_run (r : DatagramRegistry) (op : DgramOp) : bool * DatagramRegistry :=
  match op with
  | DObserve a p now tick => (false, dgram_observe r a p now tick)
  | DClaim a p now tick => dgram_claim r a p now tick
  | DSize now tick => (false, (dgram_size r now tick).2)
  | DClear => (false, dgram_clear r)
  end.

Inductive TcpOp :=
  | TAdd (k : FlowKind) (server : Address) (localPort nowMs tick : Z)
  | TTrack (k : FlowKind) (server : Address) (localPort : Z) (fin rst : bool) (nowMs tick : Z)
  | TRemove (k : FlowKind) (server : Address) (localPort : Z)
  | TClear.

Definition tcp_run (t : TcpFlowTable) (op : TcpOp) : TcpFlowTable :=
  match op with
  | TAdd k s p now tick => tcp_add t k s p now tick
  | TTrack k s p fin rst now tick => (tcp_track t k s p fin rst now tick).2
  | TRemove k s p => tcp_remove t k s p
  | TClear => tcp_clear t
  end.

(** ** Specifications *)

Definition flow_op_ok (op : FlowOp) : Prop :=
  match op with
  | FObserve _ p _ _ now tick => 0 <= p < 65536 /\ 0 <= clockMs now tick < 2 ^ 63
  | FClaim _ p _ _ => 0 <= p < 65536
  | _ => True
  end.

(** The operation consumes or replaces what is recorded for the tuple. *)
Definition flow_uses (a : bytes) (p : Z) (op : FlowOp) : Prop :=
  match op with
  | FObserve a' p' t c _ _ => a' = a /\ p' = p /\ a' <> [] /\ p' <> 0 /\ t <> 0 /\ c <> 0
  | FClaim a' p' _ _ => a' = a /\ p' = p
  | FClear => True
  | FSize _ _ => False
  end.

(** The entry under a key comes from an observation that nothing has used up. *)
Definition flow_entry_from (ops : list FlowOp) (key : bytes) (e : FlowEntry) : Prop :=
  exists pre a p t c now tick post,
    ops = pre ++ FObserve a p t c now tick :: post /\ flowKey a p = key /\
    e = mkFlowEntry (mkTarget a t c) (w64 (clockMs now tick + kPendingFlowTtlMs)) /\
    Forall (λ op, ~ flow_uses a p op) post.

(** How many datagrams of a tuple were observed, and how many claims of it succeeded. *)
Fixpoint dgram_observed (key : bytes) (ops : list DgramOp) : Z :=
  match ops with
  | [] => 0
  | DObserve a p _ _ :: ops =>
      (if bool_decide (flowKey a p = key) then 1 else 0) + dgram_observed key ops
  | _ :: ops => dgram_observed key ops
  end.

Fixpoint dgram_claimed (key : bytes) (r : DatagramRegistry) (ops : list DgramOp) : Z :=
  match ops with
  | [] => 0
  | op :: ops =>
      let '(ok, r') := dgram_run r op in
      (match op with
       | DClaim a p _ _ => if ok && bool_decide (flowKey a p = key) then 1 else 0
       | _ => 0
       end) + dgram_claimed key r' ops
  end.

Definition dgram_pending (r : DatagramRegistry) (key : bytes) : Z :=
  match d_entries_ r !! key with Some e => pending e | None => 0 end.

Definition dgram_ok (r : DatagramRegistry) : Prop :=
  msize (d_entries_ r) <= kMaxPendingFlows /\
  forall k e, d_entries_ r !! k = Some e -> 1 <= pending e <= kMaxPendingDatagramsPerTuple.

(** The operation ends the life of the tuple. *)
Definition tcp_ends (k : FlowKind) (s : Address) (p : Z) (op : TcpOp) : Prop :=
  match op with
  | TAdd _ _ _ _ _ => False
  | TTrack k' s' p' _ rst _ _ => k' = k /\ s' = s /\ p' = p /\ rst = true
  | TRemove k' s' p' => k' = k /\ s' = s /\ p' = p
  | TClear => True
  end.

Definition tcp_entry_from (ops : list TcpOp) (key : PeerKey) : Prop :=
  exists pre k s p now tick post,
    ops = pre ++ TAdd k s p now tick :: post /\ key = mkPeerKey s p (kindCode k) /\
    Forall (λ op, ~ tcp_ends k s p op) post.

(** ** Lemmas: keys *)

Lemma app_cons_cut (x : Z) (a b c d : bytes) :
  x ∉ c -> x ∉ d -> a ++ x :: c = b ++ x :: d -> a = b /\ c = d.
Proof.
  intros Hc Hd. revert b. induction a as [|y a IH]; intros [|z b]; simpl; intros E.
  - by injection E.
  - injection E as -> ->. exfalso. apply Hc. apply elem_of_app. right. apply elem_of_cons. by left.
  - injection E as -> <-. exfalso. apply Hd. apply elem_of_app. right. apply elem_of_cons. by left.
  - injection E as -> E. destruct (IH b E) as [-> ->]. done.
Qed.

Lemma to_string_no_bar n : 0 <= n < 2 ^ 64 -> 124 ∉ to_string n.
Proof.
  intros (Hd & _)%to_string_spec Hin. rewrite Forall_forall in Hd. by specialize (Hd _ Hin).
Qed.

(** The text of a tuple determines it, whatever the address contains. *)
Lemma flowKey_inj a b p q :
  0 <= p < 65536 -> 0 <= q < 65536 -> flowKey a p = flowKey b q -> a = b /\ p = q.
Proof.
  intros Hp Hq E. destruct (app_cons_cut 124 a b (to_string p) (to_string q)) as [-> E2];
    [apply to_string_no_bar; lia .. | exact E |].
  split; [done |]. apply to_string_inj; [lia | lia | done].
Qed.

(** ** Lemmas: FlowRegistry *)

Lemma flow_observe_entries r a p t c now tick k e :
  f_entries_ (flow_observe r a p t c now tick) !! k = Some e ->
  (k = flowKey a p /\ a <> [] /\ p <> 0 /\ t <> 0 /\ c <> 0 /\
   e = mkFlowEntry (mkTarget a t c) (w64 (clockMs now tick + kPendingFlowTtlMs))) \/
  (f_entries_ r !! k = Some e /\
   (k <> flowKey a p \/ a = [] \/ p = 0 \/ t = 0 \/ c = 0)).
Proof.
  unfold flow_observe. case_if.
  { intros Hk. right. split; [done |]. right.
    repeat (apply orb_true_iff in E as [E|E]); zbool; auto. }
  repeat (apply orb_false_iff in E as [E ?]). zbool.
  set (pr := if f_nextPruneMs_ r <=? clockMs now tick then _ else _).
  assert (Hsub : pr.1 ⊆ f_entries_ r) by (unfold pr; case_if; [apply erase_if_subseteq | done]).
  destruct pr as [m next]. simpl in *. rewrite lookup_insert_Some.
  intros [[<- <-]|[Hne Hl]]; [by left | right]. split; [|by auto].
  eapply lookup_weaken; [exact Hl |]. etrans; [apply (room_subseteq f_expiresAtMs) | exact Hsub].
Qed.

(** Every pending flow has its unused observation in the trace. *)
Lemma flow_trace_entries ops k e :
  Forall flow_op_ok ops ->
  f_entries_ (foldl flow_run newFlowRegistry ops) !! k = Some e -> flow_entry_from ops k e.
Proof.
  revert k e. induction ops as [|op ops IH] using rev_ind; intros k e Hok Hk.
  { simpl in Hk. by rewrite lookup_empty in Hk. }
  apply Forall_app in Hok as [Hok Hop%Forall_inv]. rewrite foldl_app in Hk. simpl in Hk.
  set (r := foldl flow_run newFlowRegistry ops) in *.
  assert (Hkeep : f_entries_ r !! k = Some e ->
    (forall a p, 0 <= p < 65536 -> flowKey a p = k -> ~ flow_uses a p op) ->
    flow_entry_from (ops ++ [op]) k e).
  { intros Hk' Hn. destruct (IH k e Hok Hk') as (pre & a & p & t & c & nw & tk & post & -> & Hkey & He & Hf).
    exists pre, a, p, t, c, nw, tk, (post ++ [op]). rewrite <- app_assoc.
    split_and!; try done. apply Forall_app. split; [done |]. repeat constructor.
    apply Forall_app in Hok as [_ Hok%Forall_inv]. simpl in Hok. apply Hn; [lia | done]. }
  destruct op as [a p t c now tick|a p now tick|now tick|]; simpl in Hk, Hop.
  - apply flow_observe_entries in Hk as [(-> & ? & ? & ? & ? & ->)|[Hk Hno]].
    + exists ops, a, p, t, c, now, tick, []. split_and!; done.
    + apply Hkeep; [done |]. intros a' p' Hp' Ek (<- & <- & ? & ? & ? & ?). intuition congruence.
  - unfold flow_claim in Hk. destruct (f_entries_ r !! flowKey a p) as [e0|] eqn:E0.
    + simpl in Hk. apply lookup_delete_Some in Hk as [Hne Hk].
      apply Hkeep; [done |]. by intros a' p' _ Ek [<- <-].
    + simpl in Hk. apply Hkeep; [done |]. intros a' p' _ Ek [<- <-]. congruence.
  - apply lookup_erase_if in Hk as [Hk _]. apply Hkeep; [done |]. by intros ? ? _ _ [].
  - by rewrite lookup_empty in Hk.
Qed.

Lemma flow_run_size r op :
  msize (f_entries_ r) <= kMaxPendingFlows -> msize (f_entries_ (flow_run r op)) <= kMaxPendingFlows.
Proof.
  intros Hs. destruct op; simpl.
  - unfold flow_observe. case_if; [done |].
    set (pr := if f_nextPruneMs_ r <=? _ then _ else _).
    assert (Hp : msize pr.1 <= kMaxPendingFlows).
    { unfold pr. case_if; [|done]. unfold flow_pruneLocked.
      match goal with |- context [ erase_if ?f ?m ] => pose proof (msize_erase_if f m) end. simpl. lia. }
    destruct pr as [m next]. by apply (msize_room_insert f_expiresAtMs).
  - unfold flow_claim. destruct (f_entries_ r !! _); [|done]. simpl.
    match goal with |- msize (delete ?k ?m) <= _ => pose proof (msize_delete_le m k) end. lia.
  - unfold flow_pruneLocked.
    match goal with |- msize (erase_if ?f ?m) <= _ => pose proof (msize_erase_if f m) end. lia.
  - rewrite msize_empty. done.
Qed.

(** ** Lemmas: DatagramRegistry *)

Definition entries_pending_ok (m : gmap bytes DgramEntry) : Prop :=
  forall k e, m !! k = Some e -> 1 <= pending e <= kMaxPendingDatagramsPerTuple.

Lemma pending_ok_sub (m m' : gmap bytes DgramEntry) :
  m' ⊆ m -> entries_pending_ok m -> entries_pending_ok m'.
Proof. intros Hs H k e Hk. eapply H, lookup_weaken; eauto. Qed.

Lemma pending_ok_insert m k e :
  1 <= pending e <= kMaxPendingDatagramsPerTuple -> entries_pending_ok m ->
  entries_pending_ok (<[k := e]> m).
Proof. intros He H k' e'. rewrite lookup_insert_Some. intros [[_ <-]|[_ ?]]; eauto. Qed.

(** What one observation does to the table: it stays well formed, and only the tuple
    observed can gain, by at most one. *)
Lemma dgram_observe_spec r a p now tick :
  dgram_ok r ->
  let r' := dgram_observe r a p now tick in
  dgram_ok r' /\
  forall key, dgram_pending r' key <=
    dgram_pending r key + if bool_decide (flowKey a p = key) then 1 else 0.
Proof.
  intros [Hs Hp]. cbv zeta. unfold dgram_observe. case_if.
  { split; [done |]. intros key. case_if; lia. }
  clear E. set (pr := if d_nextPruneMs_ r <=? _ then _ else _).
  assert (Hsub : pr.1 ⊆ d_entries_ r) by (unfold pr; case_if; [apply erase_if_subseteq | done]).
  destruct pr as [m next]. simpl in Hsub.
  assert (Hm : entries_pending_ok m) by (by eapply pending_ok_sub).
  assert (Hms : msize m <= kMaxPendingFlows) by (pose proof (msize_subseteq _ _ Hsub); lia).
  assert (Hle : forall m' key, m' ⊆ d_entries_ r ->
    match m' !! key with Some e => pending e | None => 0 end <= dgram_pending r key).
  { intros m' key Hs'. unfold dgram_pending. destruct (m' !! key) as [e|] eqn:E1.
    - by rewrite (lookup_weaken _ _ _ _ E1 Hs').
    - destruct (d_entries_ r !! key) eqn:E2; [|done]. specialize (Hp _ _ E2). lia. }
  destruct (m !! flowKey a p) as [e|] eqn:Ee.
  - pose proof (Hm _ _ Ee) as Hpe. unfold kMaxPendingDatagramsPerTuple in *.
    set (q := if d_expiresAtMs e <=? clockMs now tick then 0 else pending e).
    assert (Hq : 0 <= q <= pending e) by (unfold q; case_if; lia).
    rewrite w32_small by lia. split.
    + split; simpl; [by rewrite (msize_insert_Some _ _ _ _ Ee) |].
      apply pending_ok_insert; [simpl; unfold kMaxPendingDatagramsPerTuple; lia | done].
    + intros key. unfold dgram_pending at 1. simpl. case_bool_decide as Hk.
      * subst key. rewrite lookup_insert_eq. simpl.
        pose proof (Hle m (flowKey a p) Hsub) as Hl. rewrite Ee in Hl. lia.
      * rewrite lookup_insert_ne by done. specialize (Hle m key Hsub). lia.
  - split.
    + split; [by apply (msize_room_insert d_expiresAtMs) |].
      apply pending_ok_insert; [done |]. by eapply pending_ok_sub; [apply (room_subseteq d_expiresAtMs) |].
    + intros key. unfold dgram_pending at 1. cbn [d_entries_]. case_bool_decide as Hk.
      * subst key. rewrite lookup_insert_eq. simpl.
        pose proof (Hle ∅ (flowKey a p) (map_empty_subseteq _)) as Hl. rewrite lookup_empty in Hl. lia.
      * rewrite lookup_insert_ne by done. rewrite Z.add_0_r. apply Hle.
        etrans; [apply (room_subseteq d_expiresAtMs) | exact Hsub].
Qed.

Lemma dgram_claim_spec r a p now tick :
  dgram_ok r ->
  let res := dgram_claim r a p now tick in
  dgram_ok res.2 /\
  forall key, dgram_pending res.2 key +
    (if res.1 && bool_decide (flowKey a p = key) then 1 else 0) <= dgram_pending r key.
Proof.
  intros [Hs Hp]. cbv zeta. unfold dgram_claim.
  assert (Hdel : dgram_ok (mkDatagramRegistry (delete (flowKey a p) (d_entries_ r)) (d_nextPruneMs_ r))).
  { split; simpl; [pose proof (msize_delete_le (d_entries_ r) (flowKey a p)); lia |].
    eapply pending_ok_sub; [apply delete_subseteq | done]. }
  assert (Hdelp : forall key, match delete (flowKey a p) (d_entries_ r) !! key with
      Some e => pending e | None => 0 end + (if bool_decide (flowKey a p = key) then 1 else 0)
      <= dgram_pending r key \/ d_entries_ r !! flowKey a p = None).
  { intros key. destruct (d_entries_ r !! flowKey a p) as [e|] eqn:E; [left | by right].
    unfold dgram_pending. case_bool_decide as Hk.
    - subst key. rewrite lookup_delete_eq, E. specialize (Hp _ _ E). lia.
    - rewrite lookup_delete_ne by done. lia. }
  destruct (d_entries_ r !! flowKey a p) as [e|] eqn:Ee.
  2: { split; [done |]. intros key. simpl. lia. }
  pose proof (Hp _ _ Ee) as Hpe. unfold kMaxPendingDatagramsPerTuple in Hpe. case_if.
  - split; [done |]. intros key. destruct (Hdelp key) as [Hd|?]; [|done].
    unfold dgram_pending at 1. simpl in *. revert Hd. case_if; lia.
  - rewrite w32_small by lia. cbn [fst snd andb]. case_if; zbool.
    + split; [done |]. intros key. destruct (Hdelp key) as [Hd|?]; [|done]. exact Hd.
    + split.
      * split; simpl; [by rewrite (msize_insert_Some _ _ _ _ Ee) |].
        apply pending_ok_insert; [simpl; unfold kMaxPendingDatagramsPerTuple; lia | done].
      * intros key. unfold dgram_pending. simpl. case_bool_decide as Hk.
        -- subst key. rewrite lookup_insert_eq, Ee. simpl. lia.
        -- rewrite lookup_insert_ne by done. lia.
Qed.

Lemma dgram_shrink r m next :
  m ⊆ d_entries_ r -> dgram_ok r ->
  dgram_ok (mkDatagramRegistry m next) /\
  forall key, dgram_pending (mkDatagramRegistry m next) key <= dgram_pending r key.
Proof.
  intros Hsub [Hs Hp]. split.
  - split; simpl; [pose proof (msize_subseteq _ _ Hsub); lia | by eapply pending_ok_sub].
  - intros key. unfold dgram_pending. simpl. destruct (m !! key) as [e|] eqn:E.
    + by rewrite (lookup_weaken _ _ _ _ E Hsub).
    + destruct (d_entries_ r !! key) eqn:E2; [|done]. specialize (Hp _ _ E2). lia.
Qed.

Lemma dgram_claimed_bound key ops r :
  dgram_ok r -> dgram_claimed key r ops <= dgram_pending r key + dgram_observed key ops.
Proof.
  revert r. induction ops as [|op ops IH]; intros r Hr.
  { simpl. unfold dgram_pending. destruct Hr as [_ Hp].
    destruct (d_entries_ r !! key) eqn:E; [specialize (Hp _ _ E) |]; lia. }
  destruct op as [a p now tick|a p now tick|now tick|]; cbn [dgram_claimed dgram_observed dgram_run].
  - destruct (dgram_observe_spec r a p now tick Hr) as [Hr' Hk]. specialize (IH _ Hr').
    specialize (Hk key). lia.
  - destruct (dgram_claim_spec r a p now tick Hr) as [Hr' Hk]. specialize (Hk key).
    destruct (dgram_claim r a p now tick) as [ok r']. simpl in *. specialize (IH _ Hr'). lia.
  - destruct (dgram_shrink r (dgram_pruneLocked (clockMs now tick) (d_entries_ r)) (d_nextPruneMs_ r)
      (erase_if_subseteq _ _) Hr) as [Hr' Hk]. specialize (IH _ Hr'). specialize (Hk key).
    cbn [dgram_size snd]. lia.
  - destruct (dgram_shrink r ∅ (d_nextPruneMs_ r) (map_empty_subseteq _) Hr) as [Hr' Hk].
    specialize (IH _ Hr'). specialize (Hk key). unfold dgram_clear. lia.
Qed.

Lemma newDatagramRegistry_ok : dgram_ok newDatagramRegistry.
Proof. split; simpl; [by rewrite msize_empty |]. intros k e H. by rewrite lookup_empty in H. Qed.

(** ** Lemmas: TcpFlowTable *)

Lemma tcp_evict_sub m : tcp_evict m ⊆ m.
Proof. apply erase_keys_subseteq. Qed.

Lemma tcp_makeRoom_sub t now : t_entries_ (tcp_makeRoomLocked t now) ⊆ t_entries_ t.
Proof.
  unfold tcp_makeRoomLocked. cbv zeta. repeat case_if; simpl.
  - apply erase_if_subseteq.
  - etrans; [apply tcp_evict_sub | apply erase_if_subseteq].
  - apply tcp_evict_sub.
Qed.

(** An operation on one tuple leaves the others alone, an addition while there is room. *)
Definition tcp_key (op : TcpOp) : option PeerKey :=
  match op with
  | TAdd k s p _ _ | TTrack k s p _ _ _ _ | TRemove k s p => Some (mkPeerKey s p (kindCode k))
  | TClear => None
  end.
Lemma tcp_run_elsewhere t op key : tcp_key op <> None -> tcp_key op <> Some key -> msize (t_entries_ t) < kMaxTcpFlows ->
  t_entries_ (tcp_run t op) !! key = t_entries_ t !! key.
Proof.
  intros Hop Hk Hroom. destruct op as [k s p now tick|k s p fin rst now tick|k s p|]; cbn [tcp_key tcp_run] in *; [..| done].
  - assert (mkPeerKey s p (kindCode k) <> key) by congruence. unfold tcp_add. case_if; [done |]. cbv zeta.
    rewrite (proj2 (Z.leb_gt _ _) Hroom). destruct (t_entries_ t !! _); by apply lookup_insert_ne.
  - assert (mkPeerKey s p (kindCode k) <> key) by congruence. unfold tcp_track. destruct (t_entries_ t !! _); [|done]. cbv zeta.
    case_if; [by apply lookup_delete_ne | by apply lookup_insert_ne].
  - apply lookup_delete_ne. congruence.
Qed.

Lemma tcp_trace_entries ops key e :
  t_entries_ (foldl tcp_run newTcpFlowTable ops) !! key = Some e -> tcp_entry_from ops key.
Proof.
  revert key e. induction ops as [|op ops IH] using rev_ind; intros key e Hk.
  { simpl in Hk. by rewrite lookup_empty in Hk. }
  rewrite foldl_app in Hk. simpl in Hk. set (t := foldl tcp_run newTcpFlowTable ops) in *.
  assert (Hkeep : forall e', t_entries_ t !! key = Some e' ->
    (forall k s p, key = mkPeerKey s p (kindCode k) -> ~ tcp_ends k s p op) ->
    tcp_entry_from (ops ++ [op]) key).
  { intros e' Hk' Hn. destruct (IH key e' Hk') as (pre & k & s & p & nw & tk & post & -> & -> & Hf).
    exists pre, k, s, p, nw, tk, (post ++ [op]). rewrite <- app_assoc. split_and!; try done.
    apply Forall_app. split; [done |]. repeat constructor. by apply Hn. }
  destruct op as [k s p now tick|k s p fin rst now tick|k s p|]; simpl in Hk.
  - assert (Hadd : key = mkPeerKey s p (kindCode k) -> tcp_entry_from (ops ++ [TAdd k s p now tick]) key).
    { intros ->. by exists ops, k, s, p, now, tick, []. }
    unfold tcp_add in Hk. case_if_in Hk; [by eapply Hkeep; eauto |]. cbv zeta in Hk.
    destruct (t_entries_ t !! mkPeerKey s p (kindCode k)) eqn:Ee; simpl in Hk;
      apply lookup_insert_Some in Hk as [[<- _]|[_ Hk]]; auto; [by eapply Hkeep; eauto |].
    eapply Hkeep; [|by auto]. case_if_in Hk; [|exact Hk].
    eapply lookup_weaken; [exact Hk | apply tcp_makeRoom_sub].
  - unfold tcp_track in Hk. destruct (t_entries_ t !! mkPeerKey s p (kindCode k)) as [e0|] eqn:Ee.
    + cbv zeta in Hk. case_if_in Hk; simpl in Hk.
      * apply lookup_delete_Some in Hk as [Hne Hk]. eapply Hkeep; [exact Hk |].
        by intros k' s' p' -> (<- & <- & <- & _).
      * apply orb_false_iff in E as [_ ->].
        apply lookup_insert_Some in Hk as [[<- _]|[_ Hk]]; eapply Hkeep; eauto;
          by intros k' s' p' _ (_ & _ & _ & ?).
    + simpl in Hk. eapply Hkeep; [exact Hk |]. intros k' s' p' -> (<- & <- & <- & _). congruence.
  - apply lookup_delete_Some in Hk as [Hne Hk]. eapply Hkeep; [exact Hk |].
    by intros k' s' p' -> (<- & <- & <-).
  - by rewrite lookup_empty in Hk.
Qed.

#[local] Instance expiry_le_trans : Transitive expiry_le.
Proof. intros a b c. unfold expiry_le. lia. Qed.
#[local] Instance expiry_le_total : Total expiry_le.
Proof. intros a b. unfold expiry_le. lia. Qed.

Lemma tcp_evict_ranked m :
  tcp_evict m = erase_keys (smallest expiry_le (Z.max 1 (msize m / 16)) (ranked t_expiresAtMs m)).*2 m.
Proof. unfold tcp_evict. rewrite <- (zlen_ranked t_expiresAtMs m). done. Qed.

(** The flows that go expire no later than the flows that stay. *)
Lemma tcp_evict_le m k e k' e' :
  m !! k = Some e -> tcp_evict m !! k = None -> tcp_evict m !! k' = Some e' ->
  t_expiresAtMs e <= t_expiresAtMs e'.
Proof. rewrite tcp_evict_ranked. apply (evict_le t_expiresAtMs expiry_le). Qed.

(** A full table has room afterwards, and at most a sixteenth of it went. *)
Lemma tcp_evict_size m :
  m <> ∅ -> msize m - Z.max 1 (msize m / 16) <= msize (tcp_evict m) <= msize m - 1.
Proof. intros Hm. rewrite tcp_evict_ranked. apply evict_size; [done | lia]. Qed.

Lemma tcp_add_size t k s p now tick :
  msize (t_entries_ t) <= kMaxTcpFlows -> msize (t_entries_ (tcp_add t k s p now tick)) <= kMaxTcpFlows.
Proof.
  intros Hs. unfold tcp_add. case_if; [done |]. cbv zeta.
  destruct (t_entries_ t !! mkPeerKey s p (kindCode k)) eqn:Ee; cbn [t_entries_];
    [by rewrite (msize_insert_Some _ _ _ _ Ee) |].
  etrans; [apply msize_insert_le |]. unfold kMaxTcpFlows in *. case_if; zbool; [|lia].
  assert (Hev : forall m, msize m <= 65536 -> 65536 <= msize m -> msize (tcp_evict m) <= 65535).
  { intros m H1 H2. assert (m <> ∅) as Hne by (intros ->; rewrite msize_empty in H2; lia).
    pose proof (tcp_evict_size m Hne). lia. }
  unfold tcp_makeRoomLocked, kMaxTcpFlows. cbv zeta.
  match goal with |- context [ erase_if ?f ?m ] => pose proof (msize_erase_if f m) end.
  repeat case_if; zbool; cbn [t_entries_]; [lia | |];
    match goal with |- context [ tcp_evict ?m ] => specialize (Hev m) end; lia.
Qed.

Lemma tcp_run_size t op :
  msize (t_entries_ t) <= kMaxTcpFlows -> msize (t_entries_ (tcp_run t op)) <= kMaxTcpFlows.
Proof.
  intros Hs. destruct op as [k s p now tick|k s p fin rst now tick|k s p|]; simpl.
  - by apply tcp_add_size.
  - unfold tcp_track. destruct (t_entries_ t !! mkPeerKey s p (kindCode k)) eqn:Ee; [|done].
    cbv zeta. case_if; simpl; [|by rewrite (msize_insert_Some _ _ _ _ Ee)].
    etrans; [apply msize_delete_le | done].
  - etrans; [apply msize_delete_le | done].
  - by rewrite msize_empty.
Qed.

(** ** Properties *)

(** The registry is not an open proxy. Over every history, a connection is authorised
    only if its exact peer address and port were observed on an outgoing SYN less than 15
    seconds before, that observation has not been used by another claim, replaced or
    cleared since, and the target handed out is the one that observation recorded. *)
Theorem flow_claim_authorised (ops : list FlowOp) (a : bytes) (p now tick : Z) (tg : Target) :
  Forall flow_op_ok ops -> 0 <= p < 65536 ->
  (flow_claim (foldl flow_run newFlowRegistry ops) a p now tick).1 = Some tg ->
  exists pre t c now0 tick0 post,
    ops = pre ++ FObserve a p t c now0 tick0 :: post /\ tg = mkTarget a t c /\
    clockMs now tick < clockMs now0 tick0 + kPendingFlowTtlMs /\
    Forall (λ op, ~ flow_uses a p op) post.
Proof.
  intros Hok Hp. unfold flow_claim.
  destruct (f_entries_ _ !! flowKey a p) as [e|] eqn:Ee; [|done]. simpl.
  case_if; [|done]. intros [= <-]. zbool.
  destruct (flow_trace_entries ops _ e Hok Ee)
    as (pre & a' & p' & t & c & n0 & t0 & post & -> & Hk & -> & Hf).
  apply Forall_app in Hok as [_ [Hp' Hn]%Forall_inv]. simpl in *.
  destruct (flowKey_inj _ _ _ _ Hp' Hp Hk) as [-> ->].
  exists pre, t, c, n0, t0, post. unfold kPendingFlowTtlMs in *.
  rewrite w64_small in E by lia. auto.
Qed.

(** An observed connection is authorised and authorised once: right after a SYN with
    non-zero ports is observed, claiming it within 15 seconds yields its target, and a
    second claim is refused. *)
Theorem flow_observe_then_claim (r : FlowRegistry) (a : bytes) (p t c now tick now1 tick1 now2 tick2 : Z) :
  a <> [] -> p <> 0 -> t <> 0 -> c <> 0 ->
  0 <= clockMs now tick < 2 ^ 63 -> clockMs now1 tick1 < clockMs now tick + kPendingFlowTtlMs ->
  let r1 := flow_observe r a p t c now tick in
  let '(got, r2) := flow_claim r1 a p now1 tick1 in
  got = Some (mkTarget a t c) /\ (flow_claim r2 a p now2 tick2).1 = None.
Proof.
  intros Ha Hp Ht Hc Hn Hlt. cbv zeta.
  assert (He : f_entries_ (flow_observe r a p t c now tick) !! flowKey a p =
    Some (mkFlowEntry (mkTarget a t c) (w64 (clockMs now tick + kPendingFlowTtlMs)))).
  { unfold flow_observe. rewrite (bool_decide_eq_false_2 (a = [])) by done.
    rewrite (proj2 (Z.eqb_neq p 0)), (proj2 (Z.eqb_neq t 0)), (proj2 (Z.eqb_neq c 0)) by done.
    cbn [orb]. destruct (if f_nextPruneMs_ r <=? _ then _ else _). simpl. apply lookup_insert_eq. }
  unfold flow_claim at 1. rewrite He. unfold kPendingFlowTtlMs in *. cbn [f_expiresAtMs target].
  rewrite w64_small by lia. rewrite (proj2 (Z.ltb_lt _ _) Hlt). split; [done |].
  unfold flow_claim. cbn [f_entries_]. by rewrite lookup_delete_eq.
Qed.

(** The registry of pending connections never exceeds 8192 entries. *)
Theorem flow_registry_bounded (ops : list FlowOp) :
  msize (f_entries_ (foldl flow_run newFlowRegistry ops)) <= kMaxPendingFlows.
Proof.
  induction ops as [|op ops IH] using rev_ind; [simpl; by rewrite msize_empty |].
  rewrite foldl_app. by apply flow_run_size.
Qed.

(** Reflected DNS datagrams are answered at most as often as they were observed: over
    every history, for every tuple, the successful claims never outnumber the observed
    datagrams of that tuple. *)
Theorem dgram_claims_bounded (key : bytes) (ops : list DgramOp) :
  dgram_claimed key newDatagramRegistry ops <= dgram_observed key ops.
Proof.
  pose proof (dgram_claimed_bound key ops newDatagramRegistry newDatagramRegistry_ok) as H.
  unfold dgram_pending in H. simpl in H. rewrite lookup_empty in H. lia.
Qed.

(** Only packets of a tuple whose SYN was seen are ever rewritten: [track] answers
    [true] only if the very same tuple (kind, server, port) was added earlier and since
    then no RST was tracked for it, it was not removed and the table was not cleared. *)
Theorem tcp_track_requires_syn (ops : list TcpOp) (k : FlowKind) (s : Address) (p : Z)
    (fin rst : bool) (now tick : Z) :
  (tcp_track (foldl tcp_run newTcpFlowTable ops) k s p fin rst now tick).1 = true ->
  exists pre now0 tick0 post,
    ops = pre ++ TAdd k s p now0 tick0 :: post /\ Forall (λ op, ~ tcp_ends k s p op) post.
Proof.
  unfold tcp_track. destruct (t_entries_ _ !! mkPeerKey s p (kindCode k)) as [e|] eqn:Ee; [|done].
  intros _. destruct (tcp_trace_entries ops _ e Ee)
    as (pre & k' & s' & p' & n0 & t0 & post & -> & [= <- <- Hk] & Hf).
  assert (k' = k) as -> by (by destruct k, k'). by exists pre, n0, t0, post.
Qed.

(** The table of rewritten tuples never exceeds 65536 entries, and when a full table of
    live flows makes room it drops at least one and at most a sixteenth of them, always
    those that were seen least recently. *)
Theorem tcp_table_bounded (ops : list TcpOp) :
  let m := t_entries_ (foldl tcp_run newTcpFlowTable ops) in
  msize m <= kMaxTcpFlows /\
  (m <> ∅ -> msize m - Z.max 1 (msize m / 16) <= msize (tcp_evict m) <= msize m - 1) /\
  (forall k e k' e', m !! k = Some e -> tcp_evict m !! k = None -> tcp_evict m !! k' = Some e' ->
     t_expiresAtMs e <= t_expiresAtMs e').
Proof.
  cbv zeta. split_and!; [|apply tcp_evict_size | apply tcp_evict_le].
  induction ops as [|op ops IH] using rev_ind; [simpl; by rewrite msize_empty |].
  rewrite foldl_app. by apply tcp_run_size.
Qed.

(** The life of a tracked flow: a packet that arrives before the flow's deadline
    belongs to it; it moves the deadline four hours ahead, or two minutes ahead once a FIN
    was seen in either direction, however much traffic follows; an RST ends the flow with
    that packet; a packet after the deadline does not belong to it and ends it. *)
Theorem tcp_track_life (t : TcpFlowTable) (k : FlowKind) (s : Address) (p : Z) (fin rst : bool)
    (now tick : Z) (e : TcpEntry) :
  t_entries_ t !! mkPeerKey s p (kindCode k) = Some e ->
  0 <= clockMs now tick < 2 ^ 63 ->
  let '(live, t') := tcp_track t k s p fin rst now tick in
  live = (clockMs now tick <? t_expiresAtMs e) /\
  t_entries_ t' !! mkPeerKey s p (kindCode k) =
    (if live && negb rst then
       Some (mkTcpEntry (clockMs now tick +
               if fin || closing e then 120000 else 14400000) (fin || closing e))
     else None) /\
  (forall key, key <> mkPeerKey s p (kindCode k) -> t_entries_ t' !! key = t_entries_ t !! key).
Proof.
  intros He Hn. unfold tcp_track. rewrite He. cbv zeta. rewrite Z.ltb_antisym.
  destruct (t_expiresAtMs e <=? clockMs now tick) eqn:El; [|destruct rst]; simpl.
  - split_and!; [done | apply lookup_delete_eq | intros; by apply lookup_delete_ne].
  - split_and!; [done | apply lookup_delete_eq | intros; by apply lookup_delete_ne].
  - split_and!; [done | | intros; by apply lookup_insert_ne].
    rewrite lookup_insert_eq. unfold kTcpFlowClosingMs, kTcpFlowIdleMs.
    rewrite w64_small by (case_if; lia). by case_if.
Qed.

End Registries.

(** ** Concrete runs *)

Definition sample_flow_ops : list FlowOp := [FObserve (str "1.2.3.4") 50000 443 7443 1000 0].
Definition sample_tcp_ops : list TcpOp := [TAdd Client (replicate 16 1) 50000 1000 0].

Lemma flow_claim_authorised_witness :
  exists pre t c now0 tick0 post,
    sample_flow_ops = pre ++ FObserve (str "1.2.3.4") 50000 t c now0 tick0 :: post /\
    mkTarget (str "1.2.3.4") 443 7443 = mkTarget (str "1.2.3.4") t c /\
    clockMs 15999 0 < clockMs now0 tick0 + kPendingFlowTtlMs /\
    Forall (λ op, ~ flow_uses (str "1.2.3.4") 50000 op) post.
Proof.
  apply (flow_claim_authorised sample_flow_ops (str "1.2.3.4") 50000 15999 0
           (mkTarget (str "1.2.3.4") 443 7443)).
  - repeat constructor; vm_compute; discriminate.
  - lia.
  - vm_compute. reflexivity.
Defined.

Lemma flow_observe_then_claim_witness :
  let r1 := flow_observe newFlowRegistry (str "1.2.3.4") 50000 443 7443 1000 0 in
  let '(got, r2) := flow_claim r1 (str "1.2.3.4") 50000 15999 0 in
  got = Some (mkTarget (str "1.2.3.4") 443 7443) /\
  (flow_claim r2 (str "1.2.3.4") 50000 16000 0).1 = None.
Proof.
  apply (flow_observe_then_claim newFlowRegistry (str "1.2.3.4") 50000 443 7443 1000 0 15999 0 16000 0);
    try (vm_compute; discriminate); vm_compute; auto; split; [discriminate | reflexivity].
Defined.

Lemma tcp_track_requires_syn_witness :
  exists pre now0 tick0 post,
    sample_tcp_ops = pre ++ TAdd Client (replicate 16 1) 50000 now0 tick0 :: post /\
    Forall (λ op, ~ tcp_ends Client (replicate 16 1) 50000 op) post.
Proof.
  apply (tcp_track_requires_syn sample_tcp_ops Client (replicate 16 1) 50000 false false 2000 0).
  vm_compute. reflexivity.
Defined.

Lemma tcp_track_life_witness :
  let t := foldl tcp_run newTcpFlowTable sample_tcp_ops in
  let e := mkTcpEntry 14401000 false in
  let '(live, t') := tcp_track t Client (replicate 16 1) 50000 true false 2000 0 in
  live = (2000 <? 14401000) /\
  t_entries_ t' !! mkPeerKey (replicate 16 1) 50000 1 =
    (if live && negb false then Some (mkTcpEntry (2000 + 120000) true) else None) /\
  (forall key, key <> mkPeerKey (replicate 16 1) 50000 1 -> t_entries_ t' !! key = t_entries_ t !! key).
Proof.
  apply (tcp_track_life (foldl tcp_run newTcpFlowTable sample_tcp_ops) Client (replicate 16 1) 50000
           true false 2000 0 (mkTcpEntry 14401000 false)).
  - vm_compute. reflexivity.
  - vm_compute. split; [discriminate | reflexivity].
Defined.
