(* ===== verification/RecoveryPolicy.v ===== *)
(** * RecoveryPolicy: retries, back-off and the Worker health latch

    Models [src/src/RecoveryPolicy.hpp] and [src/src/RecoveryPolicy.cpp] (namespace
    [recovery]). Times are [uint64_t] milliseconds (differences kept modulo 2^64), counters
    are [unsigned]. The Windows and Winsock error numbers are those of the platform
    headers. *)

From S2P Require Import Prelude.

Definition kMaxWinDivertReadRetries : Z := 3.
Definition kRestartWindowMs : Z := 10 * 60 * 1000.
Definition kMaxAutomaticRestarts : Z := 3.
Definition kWorkerUnavailableExitCode : Z := 3.
Definition kWorkerFailureThreshold : Z := 5.
Definition kWorkerFailureGapMs : Z := 60000.
Definition kWorkerMinStreakMs : Z := 15000.
Definition kRateLimitDefaultBackoffMs : Z := 5000.
Definition kRateLimitMaxBackoffMs : Z := 30000.

Definition WSAEWOULDBLOCK : Z := 10035.
Definition WSAEMSGSIZE : Z := 10040.
Definition WSAECONNRESET : Z := 10054.
Definition WSAETIMEDOUT : Z := 10060.
Definition ERROR_NOT_ENOUGH_MEMORY : Z := 8.
Definition ERROR_NO_SYSTEM_RESOURCES : Z := 1450.
Definition ERROR_WORKING_SET_QUOTA : Z := 1453.
Definition ERROR_COMMITMENT_LIMIT : Z := 1455.
Definition ERROR_NOT_ENOUGH_QUOTA : Z := 1816.

Definition shouldContinueDnsReceive (error : Z) : bool :=
  (error =? WSAEMSGSIZE) || (error =? WSAETIMEDOUT) || (error =? WSAEWOULDBLOCK) ||
  (error =? WSAECONNRESET).

Definition isTransientWinDivertReadError (error : Z) : bool :=
  (error =? ERROR_NOT_ENOUGH_MEMORY) || (error =? ERROR_NO_SYSTEM_RESOURCES) ||
  (error =? ERROR_WORKING_SET_QUOTA) || (error =? ERROR_COMMITMENT_LIMIT) ||
  (error =? ERROR_NOT_ENOUGH_QUOTA).

Definition shouldRetryWinDivertRead (error completedRetries : Z) : bool :=
  isTransientWinDivertReadError error && (completedRetries <? kMaxWinDivertReadRetries).

Definition winDivertRetryDelayMs (completedRetries : Z) : Z :=
  Z.min (w32 (Z.shiftl 50 (Z.min completedRetries 3))) 500.

Definition automaticRestartDelayMs (attemptNumber : Z) : Z :=
  if attemptNumber =? 0 then 0
  else Z.min (w32 (Z.shiftl 1000 (Z.min (w32 (attemptNumber - 1)) 3))) 8000.

(** ** WorkerHealth *)

Record WorkerHealth := mkWorkerHealth {
  failures_ : Z;
  streakStartMs_ : Z;
  lastFailureMs_ : Z;
  backoffUntilMs_ : Z;
  unavailable_ : bool;
}.
Definition newWorkerHealth : WorkerHealth := mkWorkerHealth 0 0 0 0 false.

Definition failed_status (httpStatus : Z) : bool :=
  (httpStatus <? 0) || (httpStatus =? 401) || (httpStatus =? 403) || (500 <=? httpStatus).

Definition observe (h : WorkerHealth) (httpStatus nowMs retryAfterSeconds : Z)
    : bool * WorkerHealth :=
  if unavailable_ h then (true, h) else
  if httpStatus =? 429 then
    let requested :=
      if negb (retryAfterSeconds =? 0) then w64 (retryAfterSeconds * 1000)
      else kRateLimitDefaultBackoffMs in
    (false,
     mkWorkerHealth (failures_ h) (streakStartMs_ h) (lastFailureMs_ h)
       (Z.max (backoffUntilMs_ h) (w64 (nowMs + Z.min requested kRateLimitMaxBackoffMs))) false)
  else if negb (failed_status httpStatus) then
    (false,
     mkWorkerHealth 0 (streakStartMs_ h) (lastFailureMs_ h) (backoffUntilMs_ h) false)
  else
    let '(f, start) :=
      if (failures_ h =? 0) || (kWorkerFailureGapMs <? w64 (nowMs - lastFailureMs_ h))
      then (0, nowMs) else (failures_ h, streakStartMs_ h) in
    let f := w32 (f + 1) in
    let u := (kWorkerFailureThreshold <=? f) && (kWorkerMinStreakMs <=? w64 (nowMs - start)) in
    (u, mkWorkerHealth f start nowMs (backoffUntilMs_ h) u).

Definition unavailable (h : WorkerHealth) : bool := unavailable_ h.
Definition backingOff (h : WorkerHealth) (nowMs : Z) : bool := nowMs <? backoffUntilMs_ h.

(** ** RestartBudget *)

Record RestartBudget := mkRestartBudget {
  maxAttempts_ : Z;
  windowMs_ : Z;
  attempts_ : list Z;
}.

Definition newRestartBudget (maxAttempts windowMs : Z) : RestartBudget :=
  mkRestartBudget (Z.max maxAttempts 1) (Z.max windowMs 1) [].

(** The [while] loop of [purge]: it pops from the front. *)
Fixpoint purge_front (nowMs windowMs : Z) (l : list Z) : list Z :=
  match l with
  | t :: l' => if windowMs <=? w64 (nowMs - t) then purge_front nowMs windowMs l' else l
  | [] => []
  end.
Definition purge (b : RestartBudget) (nowMs : Z) : RestartBudget :=
  mkRestartBudget (maxAttempts_ b) (windowMs_ b) (purge_front nowMs (windowMs_ b) (attempts_ b)).

Definition consume (b : RestartBudget) (nowMs : Z) : Z * RestartBudget :=
  let b := purge b nowMs in
  if maxAttempts_ b <=? zlen (attempts_ b) then (0, b)
  else
    let l := attempts_ b ++ [nowMs] in
    (w32 (zlen l), mkRestartBudget (maxAttempts_ b) (windowMs_ b) l).

Definition reset (b : RestartBudget) : RestartBudget :=
  mkRestartBudget (maxAttempts_ b) (windowMs_ b) [].

(** ** Specifications *)

(** One HTTP answer of the Worker: status, time, Retry-After. *)
Definition Answer : Type := Z * Z * Z.
Definition answer_status (a : Answer) : Z := a.1.1.
Definition answer_time (a : Answer) : Z := a.1.2.

Definition run_answers (h : WorkerHealth) (l : list Answer) : WorkerHealth :=
  foldl (λ h a, (observe h a.1.1 a.1.2 a.2).2) h l.

Definition is_failure (a : Answer) : bool :=
  negb (answer_status a =? 429) && failed_status (answer_status a).
Definition is_success (a : Answer) : bool :=
  negb (answer_status a =? 429) && negb (failed_status (answer_status a)).

(** The times of the failures of a stretch of answers. *)
Definition failure_times (l : list Answer) : list Z :=
  answer_time <$> List.filter is_failure l.

(** Every failure follows the one before it within the allowed gap. *)
Fixpoint close_together (l : list Z) : Prop :=
  match l with
  | a :: ((b :: _) as l') => b - a <= kWorkerFailureGapMs /\ close_together l'
  | _ => True
  end.

(** A sustained run of failures: no success in it, no long pause, enough failures, and
    long enough from the first to the last. *)
Definition sustained_failure (seg : list Answer) : Prop :=
  Forall (λ a, is_success a = false) seg /\
  close_together (failure_times seg) /\
  kWorkerFailureThreshold <= zlen (failure_times seg) /\
  exists first_, head (failure_times seg) = Some first_ /\
    exists last_, last (failure_times seg) = Some last_ /\ kWorkerMinStreakMs <= last_ - first_.

(** Times do not go backwards and stay below 2^63. *)
Definition times_ok (l : list Answer) : Prop :=
  StronglySorted Z.le (answer_time <$> l) /\ Forall (λ a, 0 <= answer_time a < 2 ^ 63) l.

(** What the counters say about the past, while the latch is open: the current streak is
    a stretch at the end of the history. *)
Definition streak_of (l : list Answer) (h : WorkerHealth) : Prop :=
  exists pre seg, l = pre ++ seg /\ Forall (λ a, is_success a = false) seg /\
    close_together (failure_times seg) /\ zlen (failure_times seg) = failures_ h /\
    (failures_ h <> 0 -> head (failure_times seg) = Some (streakStartMs_ h) /\
                         last (failure_times seg) = Some (lastFailureMs_ h)).

(** ** Lemmas: WorkerHealth *)

Lemma failure_times_snoc l a :
  failure_times (l ++ [a]) = failure_times l ++ if is_failure a then [answer_time a] else [].
Proof.
  unfold failure_times. rewrite List.filter_app, fmap_app. simpl. by case_if.
Qed.

Lemma close_together_snoc l x :
  close_together l -> (forall y, last l = Some y -> x - y <= kWorkerFailureGapMs) ->
  close_together (l ++ [x]).
Proof.
  induction l as [|a l IH]; simpl; [done |]. destruct l as [|b l].
  - simpl. intros _ H. split; [by apply H | done].
  - simpl. intros [Hab Hl] H. split; [done |]. apply IH; [done |]. intros y Hy. by apply H.
Qed.

Lemma close_together_inv l x :
  close_together (l ++ [x]) ->
  close_together l /\ (forall y, last l = Some y -> x - y <= kWorkerFailureGapMs).
Proof.
  induction l as [|a l IH]; simpl; [done |]. destruct l as [|b l].
  - simpl. intros [H _]. split; [done |]. by intros y [= <-].
  - simpl. intros [Hab Hl]. destruct (IH Hl) as [H1 H2]. auto.
Qed.

Lemma head_app_ne {A} (l k : list A) : l <> [] -> head (l ++ k) = head l.
Proof. by destruct l. Qed.

Lemma zlen_pos_ne {A} (l : list A) : 0 < zlen l -> l <> [].
Proof. by destruct l. Qed.

Lemma times_ok_snoc l a :
  times_ok (l ++ [a]) ->
  times_ok l /\ 0 <= answer_time a < 2 ^ 63 /\ Forall (λ b, 0 <= answer_time b <= answer_time a) l.
Proof.
  intros [Hs Hr]. apply Forall_app in Hr as [Hr Ha%Forall_inv]. rewrite fmap_app in Hs.
  apply StronglySorted_app in Hs as (Hle & Hs & _). split; [by split |]. split; [done |].
  apply Forall_forall. intros b Hb. rewrite Forall_forall in Hr. specialize (Hr b Hb).
  split; [lia |]. apply Hle; [by apply list_elem_of_fmap_2 |]. simpl. by apply list_elem_of_singleton.
Qed.

Lemma last_failure_past l x (P : Z -> Prop) :
  last (failure_times l) = Some x -> Forall (λ a, P (answer_time a)) l -> P x.
Proof.
  intros Hl Hf. apply last_Some in Hl as [l' E].
  assert (x ∈ failure_times l) as Hx by (rewrite E; apply elem_of_app; right; by apply list_elem_of_singleton).
  apply list_elem_of_fmap in Hx as (a & -> & Ha%list_elem_of_In). apply filter_In in Ha as [Ha _].
  rewrite Forall_forall in Hf. by apply Hf, list_elem_of_In.
Qed.

Lemma head_failure_past l x (P : Z -> Prop) :
  head (failure_times l) = Some x -> Forall (λ a, P (answer_time a)) l -> P x.
Proof.
  intros Hl Hf. assert (x ∈ failure_times l) as Hx.
  { destruct (failure_times l); [done |]. injection Hl as ->. apply elem_of_cons. by left. }
  apply list_elem_of_fmap in Hx as (a & -> & Ha%list_elem_of_In). apply filter_In in Ha as [Ha _].
  rewrite Forall_forall in Hf. by apply Hf, list_elem_of_In.
Qed.

Lemma run_answers_snoc h l a : run_answers h (l ++ [a]) = (observe (run_answers h l) a.1.1 a.1.2 a.2).2.
Proof. unfold run_answers. by rewrite foldl_app. Qed.

Lemma observe_latched h st now ra : unavailable_ h = true -> unavailable_ (observe h st now ra).2 = true.
Proof. intros E. unfold observe. by rewrite E. Qed.

Lemma run_answers_latched h l : unavailable_ h = true -> unavailable_ (run_answers h l) = true.
Proof.
  intros E. induction l as [|a l IH] using rev_ind; [done |].
  rewrite run_answers_snoc. by apply observe_latched.
Qed.

(** One failing answer while the latch is open. *)
Lemma observe_failure h st now ra :
  unavailable_ h = false -> negb (st =? 429) && failed_status st = true ->
  let restart := (failures_ h =? 0) || (kWorkerFailureGapMs <? w64 (now - lastFailureMs_ h)) in
  let h' := (observe h st now ra).2 in
  failures_ h' = w32 ((if restart then 0 else failures_ h) + 1) /\
  streakStartMs_ h' = (if restart then now else streakStartMs_ h) /\ lastFailureMs_ h' = now /\
  unavailable_ h' = (kWorkerFailureThreshold <=? failures_ h') &&
                    (kWorkerMinStreakMs <=? w64 (now - streakStartMs_ h')).
Proof.
  intros Hu [H1 H2]%andb_true_iff. unfold observe. rewrite Hu, H2.
  destruct (st =? 429); [done |]. cbn [negb]. cbv zeta. by case_if.
Qed.

(** The ends of a running streak lie in the past. *)
Lemma streak_past l h t :
  streak_of l h -> Forall (λ b, 0 <= answer_time b <= t) l -> failures_ h <> 0 ->
  0 <= streakStartMs_ h <= t /\ 0 <= lastFailureMs_ h <= t.
Proof.
  intros (pre & seg & -> & _ & _ & _ & He) [_ Hps]%Forall_app Hnz. destruct (He Hnz) as [Hh Hl].
  split; [by apply (head_failure_past seg _ (λ x, 0 <= x <= t) Hh) | by apply (last_failure_past seg _ (λ x, 0 <= x <= t) Hl)].
Qed.

Lemma failure_no_success a : is_failure a = true -> is_success a = false.
Proof. unfold is_failure, is_success. by intros [-> ->]%andb_true_iff. Qed.

(** A failing answer extends the streak, or starts a new one. *)
Lemma streak_after_failure l h a :
  streak_of l h -> Forall (λ b, 0 <= answer_time b <= answer_time a) l ->
  0 <= answer_time a < 2 ^ 63 -> 0 <= failures_ h <= zlen l -> zlen l + 1 < 2 ^ 32 ->
  unavailable_ h = false -> is_failure a = true ->
  let h' := (observe h a.1.1 a.1.2 a.2).2 in
  streak_of (l ++ [a]) h' /\ 0 < failures_ h' <= zlen l + 1.
Proof.
  intros Hs Hpast Ha Hf Hz Eu Ef h'.
  destruct (observe_failure h a.1.1 a.1.2 a.2 Eu Ef) as (F1 & F2 & F3 & _). fold h' in F1, F2, F3.
  pose proof (streak_past _ _ _ Hs Hpast) as Hends'. destruct Hs as (pre & seg & El & Hns & Hct & Hlen & Hends).
  pose proof (failure_no_success a Ef). set (restart := (failures_ h =? 0) || _) in *. destruct restart eqn:Er.
  - rewrite F1. change (w32 (0 + 1)) with 1. split; [|lia].
    exists l, [a]. split_and!; [done | by repeat constructor | | |];
      unfold failure_times; cbn [List.filter]; rewrite Ef; simpl; try done.
    intros _. by rewrite F2, F3.
  - unfold restart in Er. apply orb_false_iff in Er as [Er1 Er2]. zbool.
    destruct (Hends Er1) as [Hh Hl]. specialize (Hends' Er1). unfold answer_time in *.
    rewrite w64_small in Er2 by lia. rewrite w32_small in F1 by lia. split; [|lia].
    assert (Hne : failure_times seg <> []) by (apply zlen_pos_ne; lia).
    exists pre, (seg ++ [a]). rewrite El, app_assoc, failure_times_snoc, Ef.
    split_and!; [done | apply Forall_app; by repeat constructor | | |].
    + apply close_together_snoc; [done |]. intros y Hy. rewrite Hl in Hy. injection Hy as <-.
      unfold answer_time. lia.
    + rewrite zlen_app, F1, Hlen. done.
    + intros _. rewrite head_app_ne, last_snoc, F2, F3 by done. done.
Qed.

(** The history behind the counters, and behind a closed latch. *)
Lemma run_answers_history l :
  times_ok l -> zlen l < 2 ^ 32 ->
  let h := run_answers newWorkerHealth l in
  0 <= failures_ h <= zlen l /\
  if unavailable_ h then exists pre seg post, l = pre ++ seg ++ post /\ sustained_failure seg
  else streak_of l h.
Proof.
  induction l as [|a l IH] using rev_ind; intros Ht Hz; cbv zeta.
  { split; [done |]. simpl. exists [], []. split_and!; done. }
  destruct (times_ok_snoc l a Ht) as (Htl & Ha & Hpast).
  rewrite zlen_app in *. change (zlen [a]) with 1 in *.
  specialize (IH Htl ltac:(lia)). rewrite run_answers_snoc. cbv zeta in IH.
  set (h := run_answers newWorkerHealth l) in *. destruct IH as [Hf IH].
  destruct (unavailable_ h) eqn:Eu.
  { unfold observe. rewrite Eu. simpl. rewrite Eu. split; [lia |].
    destruct IH as (pre & seg & post & -> & Hs). exists pre, seg, (post ++ [a]).
    by rewrite <- !app_assoc. }
  destruct (is_failure a) eqn:Ef.
  - destruct (observe_failure h a.1.1 a.1.2 a.2 Eu Ef) as (_ & _ & F3 & F4).
    destruct (streak_after_failure l h a) as [Hst Hb]; try done; try lia.
    set (h' := (observe h a.1.1 a.1.2 a.2).2) in *. split; [lia |].
    destruct (unavailable_ h') eqn:Eu'; [|done]. symmetry in F4. apply andb_true_iff in F4 as [T1 T2]. zbool.
    assert (Hpast' : Forall (λ b, 0 <= answer_time b <= answer_time a) (l ++ [a])).
    { apply Forall_app. split; [done |]. repeat constructor; lia. }
    destruct (streak_past _ _ _ Hst Hpast' ltac:(lia)) as [[Hge Hle] _].
    assert (Hnz : failures_ h' <> 0) by lia.
    destruct Hst as (pre' & seg' & -> & ? & ? & Hl' & He'). destruct (He' Hnz) as [Hh' Hl''].
    exists pre', seg', []. rewrite app_nil_r. split; [done |].
    rewrite F3 in Hl''. unfold answer_time in *. rewrite w64_small in T2 by lia.
    split_and!; try done; [lia |]. eexists. split; [done |]. eexists. split; [done |]. lia.
  - destruct IH as (pre & seg & El & Hns & Hct & Hlen & Hends).
    unfold observe. rewrite Eu. unfold is_failure, answer_status in Ef.
    destruct (a.1.1 =? 429) eqn:E4; cbn [snd failures_ unavailable_].
    + split; [lia |]. exists pre, (seg ++ [a]). rewrite El, app_assoc, failure_times_snoc.
      unfold is_failure, answer_status. rewrite E4. simpl. rewrite app_nil_r.
      split_and!; try done. apply Forall_app. split; [done |]. repeat constructor.
      unfold is_success, answer_status. by rewrite E4.
    + simpl in Ef. rewrite Ef. cbn [negb snd failures_ unavailable_]. split; [lia |].
      exists (l ++ [a]), []. rewrite app_nil_r. by split_and!.
Qed.

(** A new streak starts only where the stretch has no failure yet. *)
Lemma restart_stretch_empty h t (fs : list Z) :
  0 <= t < 2 ^ 63 -> zlen fs <= failures_ h -> (forall y, last fs = Some y -> lastFailureMs_ h = y) ->
  (forall y, last fs = Some y -> t - y <= kWorkerFailureGapMs) ->
  (failures_ h <> 0 -> 0 <= streakStartMs_ h <= t /\ 0 <= lastFailureMs_ h <= t) ->
  (failures_ h =? 0) || (kWorkerFailureGapMs <? w64 (t - lastFailureMs_ h)) = true -> fs = [].
Proof.
  intros Ht I1 I3 Hgap Hrec Er. destruct fs as [|x fs]; [done |]. exfalso.
  destruct (last (x :: fs)) as [y|] eqn:Ey; [|by apply last_None in Ey].
  specialize (I3 y eq_refl). specialize (Hgap y eq_refl).
  rewrite zlen_cons in I1. pose proof (zlen_nonneg fs).
  apply orb_true_iff in Er as [Er|Er]; zbool; [lia |].
  specialize (Hrec ltac:(lia)). rewrite w64_small in Er by lia. lia.
Qed.

(** A stretch without success that is being worked through from any open state. *)
Lemma run_answers_stretch pre seg :
  times_ok (pre ++ seg) -> zlen (pre ++ seg) < 2 ^ 32 ->
  Forall (λ a, is_success a = false) seg -> close_together (failure_times seg) ->
  let h := run_answers newWorkerHealth (pre ++ seg) in
  unavailable_ h = true \/
  (zlen (failure_times seg) <= failures_ h /\
   (forall x, head (failure_times seg) = Some x -> streakStartMs_ h <= x) /\
   (forall y, last (failure_times seg) = Some y -> lastFailureMs_ h = y) /\
   ~ (kWorkerFailureThreshold <= zlen (failure_times seg) /\
      exists x y, head (failure_times seg) = Some x /\ last (failure_times seg) = Some y /\
        kWorkerMinStreakMs <= y - x)).
Proof.
  induction seg as [|a seg IH] using rev_ind; intros Ht Hz Hns Hct; cbv zeta.
  { right. destruct (run_answers_history (pre ++ []) Ht Hz) as [Hf _].
    change (failure_times []) with (@nil Z). rewrite zlen_nil.
    split_and!; try done; [lia |]. intros [H _]. by apply H. }
  rewrite app_assoc in Ht, Hz |- *. destruct (times_ok_snoc _ a Ht) as (Htl & Ha & Hpast).
  rewrite zlen_app in Hz. change (zlen [a]) with 1 in Hz.
  apply Forall_app in Hns as [Hns Hsa%Forall_inv].
  rewrite failure_times_snoc in *. rewrite run_answers_snoc.
  destruct (run_answers_history (pre ++ seg) Htl ltac:(lia)) as [Hf Hh].
  assert (Hct' : close_together (failure_times seg) /\ (is_failure a = true ->
    forall y, last (failure_times seg) = Some y -> answer_time a - y <= kWorkerFailureGapMs)).
  { destruct (is_failure a); [|by rewrite app_nil_r in Hct].
    destruct (close_together_inv _ _ Hct). auto. }
  destruct Hct' as [Hct1 Hct2]. specialize (IH Htl ltac:(lia) Hns Hct1). cbv zeta in IH.
  set (h := run_answers newWorkerHealth (pre ++ seg)) in *.
  destruct (unavailable_ h) eqn:Eu; [left; by apply observe_latched |].
  destruct IH as [?|(I1 & I2 & I3 & I4)]; [done |].
  destruct (is_failure a) eqn:Ef.
  - destruct (observe_failure h a.1.1 a.1.2 a.2 Eu Ef) as (F1 & F2 & F3 & F4).
    set (h' := (observe h a.1.1 a.1.2 a.2).2) in *.
    specialize (Hct2 eq_refl). unfold answer_time in *.
    set (restart := (failures_ h =? 0) || _) in *.
    pose proof (streak_past _ _ a.1.2 Hh Hpast) as Hrec.
    destruct (unavailable_ h') eqn:Eu'; [by left | right].
    destruct restart eqn:Er.
    + assert (failure_times seg = []) as Hnil.
      { apply (restart_stretch_empty h a.1.2); [lia | done | done | done | done | exact Er]. }
      rewrite Hnil, F1, F2, F3. simpl. split_and!.
      * done.
      * intros x [= <-]. lia.
      * by intros y [= <-].
      * intros [H _]. by apply H.
    + unfold restart in Er. apply orb_false_iff in Er as [Er1 Er2]. zbool.
      specialize (Hrec Er1). rewrite w64_small in Er2 by lia. rewrite w32_small in F1 by lia.
      assert (Hstart : forall x, head (failure_times seg ++ [a.1.2]) = Some x -> streakStartMs_ h <= x).
      { intros x. destruct (failure_times seg) as [|z fs] eqn:Efs; simpl; intros [= <-]; [lia |].
        by apply I2. }
      rewrite F1, F2, F3, zlen_app. change (zlen [a.1.2]) with 1. rewrite last_snoc. split_and!.
      * lia.
      * exact Hstart.
      * by intros y [= <-].
      * intros (Hthr & x & y & Hx & [= <-] & Hspan). specialize (Hstart x Hx).
        rewrite F1, F2 in F4. rewrite w64_small in F4 by lia.
        rewrite (proj2 (Z.leb_le kWorkerFailureThreshold _)) in F4 by lia.
        by rewrite (proj2 (Z.leb_le kWorkerMinStreakMs _)) in F4 by lia.
  - rewrite app_nil_r. right. unfold observe. rewrite Eu. unfold is_failure, is_success, answer_status in *.
    destruct (a.1.1 =? 429); simpl; [done |]. simpl in Ef, Hsa. by rewrite Ef in Hsa.
Qed.

(** ** Lemmas: RestartBudget *)

Definition in_window (now window t : Z) : bool := now - t <? window.

(** On an ascending queue, popping stale attempts from the front keeps exactly the
    attempts inside the window. *)
Lemma purge_front_filter now window l :
  StronglySorted Z.le l -> Forall (λ t, 0 <= t <= now) l -> 0 <= now < 2 ^ 63 ->
  purge_front now window l = List.filter (in_window now window) l.
Proof.
  intros Hs Hf Hn. induction l as [|t l IH]; [done |]. simpl.
  apply StronglySorted_inv in Hs as [Hs Hle]. apply Forall_cons in Hf as [Ht Hf].
  rewrite w64_small by lia. unfold in_window at 1. case_if; zbool.
  - rewrite (proj2 (Z.ltb_ge _ _)) by lia. by apply IH.
  - rewrite (proj2 (Z.ltb_lt _ _)) by lia. f_equal. symmetry.
    apply forallb_filter_id. rewrite forallb_forall. intros x Hx. unfold in_window.
    apply Z.ltb_lt. rewrite Forall_forall in Hle. specialize (Hle x (proj2 (list_elem_of_In _ _) Hx)). lia.
Qed.

Inductive BudgetOp := BConsume (nowMs : Z) | BReset.

(** The budget, and the restarts it granted since the last reset, oldest first. *)
Definition budget_step (st : RestartBudget * list Z) (op : BudgetOp) : RestartBudget * list Z :=
  match op with
  | BConsume now =>
      let '(n, b) := consume st.1 now in (b, if n =? 0 then st.2 else st.2 ++ [now])
  | BReset => (reset st.1, [])
  end.
Definition run_budget (maxAttempts windowMs : Z) (ops : list BudgetOp) : RestartBudget * list Z :=
  foldl budget_step (newRestartBudget maxAttempts windowMs, []) ops.

(** The clock never runs backwards over the operations, which end no later than [now]. *)
Fixpoint budget_times (from : Z) (ops : list BudgetOp) (now : Z) : Prop :=
  match ops with
  | [] => from <= now
  | BConsume t :: ops => from <= t /\ budget_times t ops now
  | BReset :: ops => budget_times from ops now
  end.

(** What is still queued is the end of what was granted; the rest is stale. *)
Record budget_ok (mx window now : Z) (st : RestartBudget * list Z) : Prop := {
  bok_max : maxAttempts_ st.1 = mx;
  bok_window : windowMs_ st.1 = window;
  bok_len : zlen (attempts_ st.1) <= mx;
  bok_sorted : StronglySorted Z.le (attempts_ st.1);
  bok_past : Forall (λ t, 0 <= t <= now) (attempts_ st.1);
  bok_granted : exists old, st.2 = old ++ attempts_ st.1 /\ Forall (λ t, window <= now - t) old;
}.

Lemma budget_ok_later mx window now now' st :
  now <= now' -> budget_ok mx window now st -> budget_ok mx window now' st.
Proof.
  intros Hle [H1 H2 H3 H4 H5 (old & H6 & H7)]. split; try done.
  - eapply Forall_impl; [exact H5 |]. simpl. lia.
  - exists old. split; [done |]. eapply Forall_impl; [exact H7 |]. simpl. lia.
Qed.

Lemma filter_window_old now window old l :
  Forall (λ t, window <= now - t) old ->
  List.filter (in_window now window) (old ++ l) = List.filter (in_window now window) l.
Proof.
  intros H. rewrite List.filter_app. induction H as [|t old Ht _ IH]; [done |]. simpl.
  unfold in_window at 1. by rewrite (proj2 (Z.ltb_ge _ _)) by lia.
Qed.

(** One consumption: the answer counts the grants inside the window. *)
Lemma consume_spec mx window now st :
  1 <= mx < 2 ^ 32 -> 1 <= window -> 0 <= now < 2 ^ 63 -> budget_ok mx window now st ->
  let n := zlen (List.filter (in_window now window) st.2) in
  (consume st.1 now).1 = (if mx <=? n then 0 else n + 1) /\
  budget_ok mx window now (budget_step st (BConsume now)).
Proof.
  intros Hmx Hw Hn [H1 H2 H3 H4 H5 (old & H6 & H7)]. destruct st as [b g]. simpl in *. subst g.
  rewrite filter_window_old by done. unfold consume, purge. rewrite H1, H2.
  cbn [attempts_ maxAttempts_ windowMs_]. rewrite purge_front_filter by done.
  set (q := List.filter (in_window now window) (attempts_ b)).
  assert (Hq : zlen q <= zlen (attempts_ b)) by (unfold q, zlen; pose proof (filter_length_le (in_window now window) (attempts_ b)); lia).
  assert (Hqs : exists stale, attempts_ b = stale ++ q /\ Forall (λ t, window <= now - t) stale).
  { unfold q. rewrite <- purge_front_filter by done. clear - H5 Hn.
    induction H5 as [|t l Ht _ IH]; simpl; [by exists [] |]. rewrite w64_small by lia.
    case_if; zbool; [|by exists []]. destruct IH as (st & Es & Hst). exists (t :: st). split; [|by constructor].
    simpl. by rewrite <- Es. }
  assert (Hsort : StronglySorted Z.le q /\ Forall (λ t, 0 <= t <= now) q).
  { destruct Hqs as (stale & E & _). rewrite E in H4, H5.
    apply StronglySorted_app in H4 as (_ & _ & ?). by apply Forall_app in H5 as [_ ?]. }
  destruct Hqs as (stale & Ea & Hst). destruct Hsort as [Hs Hp].
  case_if; zbool; simpl.
  - split; [done |]. split; simpl; try done; [lia |].
    exists (old ++ stale). rewrite <- app_assoc, <- Ea. split; [done | by apply Forall_app].
  - rewrite zlen_app. change (zlen [now]) with 1.
    assert (zlen q + 1 < 2 ^ 32) by lia. pose proof (zlen_nonneg q). rewrite w32_small by lia.
    split; [done |]. rewrite (proj2 (Z.eqb_neq _ 0)) by lia. split; simpl; try done.
    + rewrite zlen_app. change (zlen [now]) with 1. lia.
    + apply StronglySorted_app. split_and!; [|done | by repeat constructor].
      intros x y Hx ->%list_elem_of_singleton. rewrite Forall_forall in Hp. specialize (Hp x Hx). lia.
    + apply Forall_app. split; [done |]. repeat constructor; lia.
    + exists (old ++ stale). rewrite Ea, <- !app_assoc. split; [done | by apply Forall_app].
Qed.

Lemma run_budget_ok mx window ops from now st :
  1 <= mx < 2 ^ 32 -> 1 <= window -> 0 <= from -> now < 2 ^ 63 ->
  budget_times from ops now -> budget_ok mx window from st ->
  budget_ok mx window now (foldl budget_step st ops).
Proof.
  intros Hm Hw. revert from st. induction ops as [|[t|] ops IH]; intros from st Hf Hn Ht Hok; simpl in *.
  - by eapply budget_ok_later.
  - destruct Ht as [Hle Ht].
    assert (Hlast : forall o f, budget_times f o now -> f <= now).
    { induction o as [|[]]; simpl; intros f; [done | intros [? H%IHo]; lia | apply IHo]. }
    specialize (Hlast _ _ Ht).
    apply (IH t); [lia | done | done |].
    apply consume_spec; [done | done | lia |]. by eapply budget_ok_later.
  - apply (IH from); try done. destruct Hok as [H1 H2 H3 H4 H5 H6]. split; simpl; try done.
    + rewrite zlen_nil. lia.
    + constructor.
    + by exists [].
Qed.

(** ** Properties *)

(** The Worker is declared unavailable exactly when the answers contain a sustained
    run of failures: a stretch with no success in it, at least five failures, none more
    than a minute after the previous one, and at least fifteen seconds from the first to
    the last. Rate-limit answers (429) neither count nor interrupt. So a short burst of
    timeouts never shuts the engine down, and a real outage always does. *)
Theorem worker_latch_iff (l : list Answer) :
  times_ok l -> zlen l < 2 ^ 32 ->
  unavailable (run_answers newWorkerHealth l) = true <->
  exists pre seg post, l = pre ++ seg ++ post /\ sustained_failure seg.
Proof.
  intros Ht Hz. unfold unavailable. split.
  - intros Hu. destruct (run_answers_history l Ht Hz) as [_ H]. by rewrite Hu in H.
  - intros (pre & seg & post & -> & (Hns & Hct & Hn & x & Hx & y & Hy & Hspan)).
    rewrite app_assoc in *. unfold run_answers. rewrite foldl_app.
    apply run_answers_latched. change (unavailable_ (run_answers newWorkerHealth (pre ++ seg)) = true).
    assert (Ht' : times_ok (pre ++ seg)).
    { destruct Ht as [Hs Hr]. rewrite fmap_app in Hs. apply StronglySorted_app in Hs as (_ & ? & _).
      apply Forall_app in Hr as [? _]. by split. }
    rewrite zlen_app in Hz. pose proof (zlen_nonneg post).
    destruct (run_answers_stretch pre seg Ht' ltac:(lia) Hns Hct) as [?|(_ & _ & _ & H4)]; [done |].
    exfalso. apply H4. eauto 10.
Qed.

(** Automatic restarts are limited per sliding window: whatever was granted and
    refused before, the answer counts the restarts granted within the last [windowMs]
    (since the last reset); it is refused exactly when that many are already
    [maxAttempts], otherwise it is the one-based number of this attempt. *)
Theorem restart_budget_window (maxAttempts windowMs : Z) (ops : list BudgetOp) (now : Z) :
  1 <= maxAttempts < 2 ^ 32 -> 1 <= windowMs -> 0 <= now < 2 ^ 63 -> budget_times 0 ops now ->
  let '(b, granted) := run_budget maxAttempts windowMs ops in
  let n := zlen (List.filter (in_window now windowMs) granted) in
  n <= maxAttempts /\
  (consume b now).1 = if maxAttempts <=? n then 0 else n + 1.
Proof.
  intros Hm Hw Hn Ht.
  assert (Hok : budget_ok maxAttempts windowMs now (run_budget maxAttempts windowMs ops)).
  { apply (run_budget_ok _ _ ops 0); try lia; try done. unfold newRestartBudget. split; simpl; try lia.
    - change (zlen (@nil Z)) with 0. lia.
    - constructor.
    - constructor.
    - by exists []. }
  destruct (run_budget maxAttempts windowMs ops) as [b g] eqn:E.
  destruct (consume_spec maxAttempts windowMs now (b, g) Hm Hw Hn Hok) as [H _]. split; [|exact H].
  destruct Hok as [_ _ Hl _ _ (old & Hg & Hold)]. simpl in *. subst g.
  rewrite filter_window_old by done. unfold zlen in *.
  pose proof (filter_length_le (in_window now windowMs) (attempts_ b)). lia.
Qed.

(** ** Concrete runs *)

Definition outage : list Answer :=
  [(200, 1000, 0); (-1, 2000, 0); (503, 7000, 0); (429, 8000, 2); (-1, 12000, 0);
   (401, 15000, 0); (-1, 17000, 0)].

Lemma worker_latch_iff_witness :
  unavailable (run_answers newWorkerHealth outage) = true <->
  exists pre seg post, outage = pre ++ seg ++ post /\ sustained_failure seg.
Proof.
  apply (worker_latch_iff outage).
  - split; [repeat constructor; vm_compute; discriminate |].
    repeat constructor; vm_compute; discriminate.
  - vm_compute. reflexivity.
Defined.

Example outage_latches : unavailable (run_answers newWorkerHealth outage) = true.
Proof. vm_compute. reflexivity. Qed.

Lemma restart_budget_window_witness :
  let '(b, granted) := run_budget 3 600000 [BConsume 1000; BConsume 2000; BConsume 3000] in
  let n := zlen (List.filter (in_window 601000 600000) granted) in
  n <= 3 /\ (consume b 601000).1 = if 3 <=? n then 0 else n + 1.
Proof.
  apply (restart_budget_window 3 600000 [BConsume 1000; BConsume 2000; BConsume 3000] 601000);
    try lia. simpl. lia.
Defined.
