(* ===== verification/QuicStrategy.v ===== *)
(** * QuicStrategy: adaptive handling of QUIC

    Models [src/src/QuicStrategy.hpp] and [src/src/QuicStrategy.cpp] (namespace
    [quic_strategy]): recognising an Initial, the priming datagram and the
    [AdaptiveRegistry]. The registry's two atomics are part of its state; the mutex makes
    [outbound], [inbound] and [clear] atomic functions on it. The random bytes of
    [BCryptGenRandom] are an input. *)

From S2P Require Import Prelude Containers TransparentFlow.

Inductive Mode := Block | Adaptive | Allow.
Inductive Decision := DecPass | PrimeAndPass | Drop.

Definition kQuicV2 : Z := 0x6B3343CF.
Definition kMinimumInitialSize : Z := 1200.

Definition readU32 (payload : bytes) (i : Z) : option Z := rd32 payload i.

(** [looksLikeInitial]; a null pointer is the empty buffer. [None] would be a read outside
    the payload. *)
Definition looksLikeInitial (payload : bytes) : option bool :=
  if zlen payload <? kMinimumInitialSize then Some false else
  first ← rd payload 0;
  if negb (Z.land first 0xC0 =? 0xC0) then Some false else
  version ← readU32 payload 1;
  if version =? 0 then Some false else
  let longPacketType := Z.land first 0x30 in
  Some (if version =? kQuicV2 then longPacketType =? 0x10 else longPacketType =? 0x00).

(** [buildPrimePayload]; [random] is what [BCryptGenRandom] wrote, [None] when it failed. *)
Definition buildPrimePayload (random : option bytes) : bytes :=
  let payload :=
    match random with
    | Some r => r
    | None => (λ i, Z.lxor 0xA5 (w8 (Z.of_nat i * 29))) <$> seq 0 32
    end in
  alter (λ b, Z.land b 0x3F) 0%nat payload.

(** ** AdaptiveRegistry *)

Record Flow := mkFlow { startedMs : Z; touchedMs : Z; answered : bool }.

Record AdaptiveRegistry := mkAdaptiveRegistry {
  responseTimeoutMs_ : Z;
  fallbackMs_ : Z;
  nextPurgeAtMs_ : Z;
  unansweredFlows_ : Z;
  blockedServers_ : Z;
  flows_ : gmap bytes Flow;
  blockedUntil_ : gmap bytes Z;
}.

Definition newRegistry (responseTimeoutMs fallbackMs : Z) : AdaptiveRegistry :=
  let timeout := Z.max responseTimeoutMs 1 in
  mkAdaptiveRegistry timeout (Z.max fallbackMs timeout) 0 0 0 ∅ ∅.

Definition needsOutbound (r : AdaptiveRegistry) (initial : bool) : bool :=
  initial || negb (blockedServers_ r =? 0).
Definition needsInbound (r : AdaptiveRegistry) : bool := negb (unansweredFlows_ r =? 0).

(** [AdaptiveRegistry::flowKey] builds the same text as the transparent registries. *)
Definition quicFlowKey (server : bytes) (localPort : Z) : bytes :=
  server ++ str "|" ++ to_string localPort.

(** [publishBlockedLocked] after [blockedUntil_] became [b]. *)
Definition setBlocked (r : AdaptiveRegistry) (b : gmap bytes Z) : AdaptiveRegistry :=
  mkAdaptiveRegistry (responseTimeoutMs_ r) (fallbackMs_ r) (nextPurgeAtMs_ r)
    (unansweredFlows_ r) (msize b) (flows_ r) b.

Definition setFlows (r : AdaptiveRegistry) (unanswered : Z) (f : gmap bytes Flow)
    : AdaptiveRegistry :=
  mkAdaptiveRegistry (responseTimeoutMs_ r) (fallbackMs_ r) (nextPurgeAtMs_ r)
    (w64 unanswered) (blockedServers_ r) f (blockedUntil_ r).

Definition stale (fallbackMs nowMs : Z) (f : Flow) : bool := fallbackMs <? w64 (nowMs - touchedMs f).

(** The unanswered flows of a table. *)
Definition unanswered_of (m : gmap bytes Flow) : gmap bytes Flow := erase_if (λ _ f, answered f) m.

(** [purgeIfDue]: the loop subtracts one from the counter per unanswered flow it erases. *)
Definition purgeIfDue (r : AdaptiveRegistry) (nowMs : Z) : AdaptiveRegistry :=
  if nowMs <? nextPurgeAtMs_ r then r else
  let gone := erase_if (λ _ f, negb (stale (fallbackMs_ r) nowMs f)) (flows_ r) in
  let kept := erase_if (λ _ f, stale (fallbackMs_ r) nowMs f) (flows_ r) in
  let blocked := erase_if (λ _ until, until <=? nowMs) (blockedUntil_ r) in
  mkAdaptiveRegistry (responseTimeoutMs_ r) (fallbackMs_ r)
    (w64 (nowMs + Z.min (responseTimeoutMs_ r) 1000))
    (w64 (unansweredFlows_ r - msize (unanswered_of gone))) (msize blocked) kept blocked.

(** [outbound] after the blocked-server check: an Initial of a flow. *)
Definition initialOutbound (r : AdaptiveRegistry) (server : bytes) (localPort nowMs : Z)
    : Decision * AdaptiveRegistry :=
  let key := quicFlowKey server localPort in
  match flows_ r !! key with
  | None =>
      (PrimeAndPass,
       setFlows r (unansweredFlows_ r + 1) (<[key := mkFlow nowMs nowMs false]> (flows_ r)))
  | Some f =>
      let r := setFlows r (unansweredFlows_ r)
                 (<[key := mkFlow (startedMs f) nowMs (answered f)]> (flows_ r)) in
      if answered f then (DecPass, r)
      else if responseTimeoutMs_ r <=? w64 (nowMs - startedMs f) then
        (Drop, setBlocked r (<[server := w64 (nowMs + fallbackMs_ r)]> (blockedUntil_ r)))
      else (DecPass, r)
  end.

Definition outbound (r : AdaptiveRegistry) (server : bytes) (localPort : Z) (initial : bool)
    (nowMs : Z) : Decision * AdaptiveRegistry :=
  let r := purgeIfDue r nowMs in
  let '(drop, r) :=
    match blockedUntil_ r !! server with
    | Some until =>
        if nowMs <? until then (true, r) else (false, setBlocked r (delete server (blockedUntil_ r)))
    | None => (false, r)
    end in
  if (drop : bool) then (Drop, r)
  else if negb initial then (DecPass, r)
  else initialOutbound r server localPort nowMs.

Definition inbound (r : AdaptiveRegistry) (server : bytes) (localPort nowMs : Z)
    : AdaptiveRegistry :=
  let r := purgeIfDue r nowMs in
  let key := quicFlowKey server localPort in
  match flows_ r !! key with
  | None => r
  | Some f =>
      let r := setFlows r (if answered f then unansweredFlows_ r else unansweredFlows_ r - 1)
                 (<[key := mkFlow (startedMs f) nowMs true]> (flows_ r)) in
      setBlocked r (delete server (blockedUntil_ r))
  end.

(** [clear] *)
Definition quicClear (r : AdaptiveRegistry) : AdaptiveRegistry :=
  mkAdaptiveRegistry (responseTimeoutMs_ r) (fallbackMs_ r) 0 0 0 ∅ ∅.

(** ** Reachable registries *)

(** [reach timeout fallback t r]: the registry after some calls with ports in range and a
    clock that never runs backwards, the last reading being at most [t]; the table of flows
    fits the memory of the machine. *)
Inductive reach (timeout fallback : Z) : Z -> AdaptiveRegistry -> Prop :=
  | reach_new : reach timeout fallback 0 (newRegistry timeout fallback)
  | reach_outbound t r server port initial now :
      reach timeout fallback t r -> t <= now < 2 ^ 62 -> 0 <= port < 65536 ->
      msize (flows_ r) < 2 ^ 63 ->
      reach timeout fallback now (outbound r server port initial now).2
  | reach_inbound t r server port now :
      reach timeout fallback t r -> t <= now < 2 ^ 62 -> 0 <= port < 65536 ->
      reach timeout fallback now (inbound r server port now)
  | reach_clear t r : reach timeout fallback t r -> reach timeout fallback t (quicClear r).

(** Why a server may be on the blocked list until [until]: some connection to it has gone
    unanswered for the response timeout, and was last seen at most [fallbackMs_] before. *)
Definition block_reason (r : AdaptiveRegistry) (server : bytes) (until : Z) : Prop :=
  exists port f, 0 <= port < 65536 /\ flows_ r !! quicFlowKey server port = Some f /\
    answered f = false /\ startedMs f + responseTimeoutMs_ r <= touchedMs f /\
    until <= touchedMs f + fallbackMs_ r.

Record registry_ok (t : Z) (r : AdaptiveRegistry) : Prop := {
  rok_params : 1 <= responseTimeoutMs_ r /\ 0 <= fallbackMs_ r < 2 ^ 62;
  rok_unanswered : unansweredFlows_ r = msize (unanswered_of (flows_ r));
  rok_blocked : blockedServers_ r = msize (blockedUntil_ r);
  rok_size : msize (flows_ r) <= 2 ^ 63;
  rok_times : forall k f, flows_ r !! k = Some f -> 0 <= startedMs f <= touchedMs f /\ touchedMs f <= t;
  rok_reason : forall server until, blockedUntil_ r !! server = Some until ->
    block_reason r server until;
}.

(** ** Lemmas: counting unanswered flows *)

Lemma unanswered_delete m k :
  msize (unanswered_of (delete k m)) =
  msize (unanswered_of m) - match m !! k with Some f => if answered f then 0 else 1 | None => 0 end.
Proof.
  unfold unanswered_of, erase_if, msize. rewrite map_filter_delete, map_size_delete.
  set (q := filter _ m).
  assert (Hq : forall f, q !! k = Some f -> size q <> 0%nat)
    by (intros f Hf; apply map_size_ne_0_lookup; eauto).
  destruct (m !! k) as [f|] eqn:E.
  - destruct (answered f) eqn:Ea.
    + assert (Hn : q !! k = None); [|rewrite Hn; simpl; lia]. apply map_lookup_filter_None. right.
      intros x Hx. rewrite E in Hx. injection Hx as <-. simpl. congruence.
    + assert (Hf : q !! k = Some f) by (by apply map_lookup_filter_Some).
      specialize (Hq f Hf). rewrite Hf. simpl. lia.
  - assert (Hn : q !! k = None) by (apply map_lookup_filter_None; by left). rewrite Hn. simpl. lia.
Qed.

Lemma unanswered_insert m k f :
  msize (unanswered_of (<[k := f]> m)) =
  msize (unanswered_of m) + (if answered f then 0 else 1) -
  match m !! k with Some f0 => if answered f0 then 0 else 1 | None => 0 end.
Proof.
  assert (H : msize (unanswered_of (<[k := f]> m)) =
    msize (unanswered_of (delete k m)) + if answered f then 0 else 1).
  { unfold unanswered_of, erase_if. destruct (answered f) eqn:Ea.
    - rewrite map_filter_insert_False by (simpl; congruence). lia.
    - rewrite map_filter_insert_True by done.
      rewrite map_filter_delete. unfold msize. rewrite map_size_insert, map_size_delete.
      set (q := filter _ m). assert (Hq : forall f, q !! k = Some f -> size q <> 0%nat)
        by (intros f' Hf; apply map_size_ne_0_lookup; eauto).
      destruct (q !! k) eqn:E; simpl; [|lia]. specialize (Hq _ eq_refl). lia. }
  rewrite H, unanswered_delete. lia.
Qed.

Lemma msize_partition (p : bytes -> Flow -> bool) (m : gmap bytes Flow) :
  msize (erase_if p m) + msize (erase_if (λ k f, negb (p k f)) m) = msize m.
Proof.
  unfold erase_if, msize. induction m as [|k f m Hk IH] using map_ind.
  { by rewrite !map_filter_empty, map_size_empty. }
  rewrite map_size_insert_None by done. destruct (p k f) eqn:Ep.
  - rewrite map_filter_insert_False by (simpl; congruence).
    rewrite map_filter_insert_True by (simpl; by rewrite Ep).
    rewrite delete_id by done. rewrite map_size_insert_None; [lia |].
    apply map_lookup_filter_None. by left.
  - rewrite map_filter_insert_True by done.
    rewrite map_filter_insert_False by (simpl; by rewrite Ep).
    rewrite delete_id by done. rewrite map_size_insert_None; [lia |].
    apply map_lookup_filter_None. by left.
Qed.

Lemma unanswered_erase_if p m :
  unanswered_of (erase_if p m) = erase_if p (unanswered_of m).
Proof. apply map_eq. intros k. apply option_eq. intros f. unfold unanswered_of. rewrite !lookup_erase_if. tauto. Qed.

Lemma unanswered_le m : msize (unanswered_of m) <= msize m.
Proof. apply msize_erase_if. Qed.

(** ** Lemmas: the invariant *)

Lemma reason_mono r r' server until :
  responseTimeoutMs_ r' = responseTimeoutMs_ r -> fallbackMs_ r' = fallbackMs_ r ->
  (forall port f, 0 <= port < 65536 -> flows_ r !! quicFlowKey server port = Some f ->
     answered f = false -> until <= touchedMs f + fallbackMs_ r ->
     exists f', flows_ r' !! quicFlowKey server port = Some f' /\ answered f' = false /\
       startedMs f' = startedMs f /\ touchedMs f <= touchedMs f') ->
  block_reason r server until -> block_reason r' server until.
Proof.
  intros Ht Hf Hm (port & f & Hp & Hk & Ha & Hs & Hu).
  destruct (Hm port f Hp Hk Ha Hu) as (f' & Hk' & Ha' & Hs' & Ht').
  exists port, f'. rewrite Ht, Hf, Hs'. split_and!; try done; lia.
Qed.

Lemma purge_ok t now r : t <= now < 2 ^ 62 -> registry_ok t r -> registry_ok now (purgeIfDue r now).
Proof.
  intros Hn [[Hp1 Hp2] Hu Hb Hs Ht Hr]. unfold purgeIfDue. case_if.
  { split; try done. intros k f Hk. specialize (Ht k f Hk). lia. }
  cbv zeta. pose proof (unanswered_le (flows_ r)).
  pose proof (msize_partition (λ _ f, stale (fallbackMs_ r) now f) (unanswered_of (flows_ r))) as Hpart.
  cbv beta in Hpart.
  split; simpl; try done.
  - rewrite !unanswered_erase_if, Hu. pose proof (msize_nonneg (unanswered_of (flows_ r))).
    pose proof (msize_nonneg (erase_if (λ _ f, stale (fallbackMs_ r) now f) (unanswered_of (flows_ r)))).
    pose proof (msize_nonneg (erase_if (λ _ f, negb (stale (fallbackMs_ r) now f)) (unanswered_of (flows_ r)))).
    rewrite w64_small by lia. lia.
  - etrans; [apply msize_erase_if | done].
  - intros k f [Hk _]%lookup_erase_if. specialize (Ht k f Hk). lia.
  - intros server until [Hk Hlive]%lookup_erase_if. zbool.
    apply (reason_mono r); [done | done | | by apply Hr]. intros port f Hport Hf Ha Hle.
    exists f. split_and!; try done. apply lookup_erase_if. split; [done |].
    unfold stale. specialize (Ht _ _ Hf). rewrite w64_small by lia. apply Z.ltb_ge. lia.
Qed.

Lemma setBlocked_ok t r b : b ⊆ blockedUntil_ r -> registry_ok t r -> registry_ok t (setBlocked r b).
Proof.
  intros Hsub [Hp Hu Hb Hs Ht Hr]. split; simpl; try done.
  intros server until Hk. apply (reason_mono r); [done | done | | ].
  { intros port f _ Hf Ha _. by exists f. }
  apply Hr. by eapply lookup_weaken.
Qed.

(** A flow that is inserted or touched at time [now]. *)
Lemma touch_ok now r key f u :
  registry_ok now r -> 0 <= now -> msize (flows_ r) < 2 ^ 63 ->
  0 <= startedMs f <= now -> touchedMs f = now ->
  match flows_ r !! key with
  | Some f0 => startedMs f = startedMs f0 /\ answered f = answered f0 /\ u = unansweredFlows_ r
  | None => answered f = false /\ u = unansweredFlows_ r + 1
  end ->
  registry_ok now (setFlows r u (<[key := f]> (flows_ r))).
Proof.
  intros [Hp Hu Hb Hs Ht Hr] Hn Hsz Hst Htd Hold.
  pose proof (unanswered_le (flows_ r)). pose proof (msize_nonneg (unanswered_of (flows_ r))).
  split; simpl; try done.
  - rewrite unanswered_insert.
    destruct (flows_ r !! key) as [f0|]; [destruct Hold as (_ & -> & ->) | destruct Hold as (-> & ->)];
      rewrite Hu, w64_small by lia; [case_if; lia | lia].
  - pose proof (msize_insert_le (flows_ r) key f). lia.
  - intros k f'. rewrite lookup_insert_Some. intros [[_ <-]|[_ Hk]]; [lia | by eapply Ht].
  - intros server until Hk. apply (reason_mono r); [done | done | | by apply Hr].
    intros port f' _ Hf' Ha _. destruct (decide (key = quicFlowKey server port)) as [->|Hne].
    + rewrite Hf' in Hold. destruct Hold as (E1 & E2 & _). exists f. simpl. rewrite lookup_insert_eq.
      specialize (Ht _ _ Hf'). split_and!; try done; [congruence | lia].
    + exists f'. simpl. by rewrite lookup_insert_ne.
Qed.

Lemma initialOutbound_ok now r server port :
  registry_ok now r -> 0 <= now < 2 ^ 62 -> 0 <= port < 65536 -> msize (flows_ r) < 2 ^ 63 ->
  registry_ok now (initialOutbound r server port now).2.
Proof.
  intros Hok Hn Hp Hs. unfold initialOutbound. cbv zeta.
  destruct (flows_ r !! quicFlowKey server port) as [f|] eqn:Ef.
  - pose proof (rok_times _ _ Hok _ _ Ef) as Ht.
    assert (Hok' : registry_ok now (setFlows r (unansweredFlows_ r)
      (<[quicFlowKey server port := mkFlow (startedMs f) now (answered f)]> (flows_ r)))).
    { apply touch_ok; simpl; try done; try lia. by rewrite Ef. }
    set (r' := setFlows _ _ _) in *. case_if; [done |]. case_if; [|done]. zbool. simpl.
    destruct Hok' as [[Hp1 Hp2] Hu Hb Hs' Ht' Hr']. split; simpl; try done.
    intros server' until. rewrite lookup_insert_Some. intros [[<- <-]|[_ Hk]]; [|by apply Hr'].
    exists port, (mkFlow (startedMs f) now false). simpl. rewrite lookup_insert_eq.
    subst r'. simpl in *. rewrite w64_small in E0 by lia. rewrite w64_small by lia.
    split_and!; try done; lia.
  - apply touch_ok; simpl; try done; try lia. by rewrite Ef.
Qed.

Lemma purge_flows_le r now : msize (flows_ (purgeIfDue r now)) <= msize (flows_ r).
Proof. unfold purgeIfDue. case_if; [done |]. apply msize_erase_if. Qed.

Lemma outbound_ok t now r server port initial :
  registry_ok t r -> 0 <= t -> t <= now < 2 ^ 62 -> 0 <= port < 65536 -> msize (flows_ r) < 2 ^ 63 ->
  registry_ok now (outbound r server port initial now).2.
Proof.
  intros Hok H0 Hn Hp Hs. unfold outbound. cbv zeta.
  pose proof (purge_ok t now r Hn Hok) as Hok1. pose proof (purge_flows_le r now) as Hle.
  set (r1 := purgeIfDue r now) in *.
  assert (Hdel : registry_ok now (setBlocked r1 (delete server (blockedUntil_ r1))))
    by (apply setBlocked_ok; [apply delete_subseteq | done]).
  destruct (blockedUntil_ r1 !! server) as [until|]; [case_if; [done |] |];
    (case_if; [done | apply initialOutbound_ok; simpl; try done; lia]).
Qed.

Lemma inbound_ok t now r server port :
  registry_ok t r -> 0 <= t -> t <= now < 2 ^ 62 -> 0 <= port < 65536 ->
  registry_ok now (inbound r server port now).
Proof.
  intros Hok H0 Hn Hp. unfold inbound. cbv zeta.
  pose proof (purge_ok t now r Hn Hok) as Hok1. set (r1 := purgeIfDue r now) in *.
  destruct (flows_ r1 !! quicFlowKey server port) as [f|] eqn:Ef; [|done].
  destruct Hok1 as [Hpa Hu Hb Hs Ht Hr]. pose proof (Ht _ _ Ef) as Htf.
  pose proof (unanswered_le (flows_ r1)).
  pose proof (unanswered_insert (flows_ r1) (quicFlowKey server port) (mkFlow (startedMs f) now true)) as Hc.
  rewrite Ef in Hc. simpl in Hc.
  split; simpl; try done.
  - pose proof (msize_nonneg (unanswered_of (<[quicFlowKey server port := mkFlow (startedMs f) now true]> (flows_ r1)))).
    rewrite Hc in *. rewrite Hu in *. destruct (answered f); rewrite w64_small by lia; lia.
  - by rewrite (msize_insert_Some _ _ _ _ Ef).
  - intros k f'. rewrite lookup_insert_Some. intros [[_ <-]|[_ Hk]]; simpl; [lia | by eapply Ht].
  - intros server' until. rewrite lookup_delete_Some. intros [Hne Hk].
    apply (reason_mono r1); [done | done | | by apply Hr].
    intros port' f' Hp' Hf' Ha _. exists f'. simpl. rewrite lookup_insert_ne; [done |].
    intros E. apply Hne. by destruct (flowKey_inj _ _ _ _ Hp Hp' E).
Qed.

Lemma empty_ok t timeout fallback next :
  1 <= timeout -> 0 <= fallback < 2 ^ 62 ->
  registry_ok t (mkAdaptiveRegistry timeout fallback next 0 0 ∅ ∅).
Proof.
  intros Hto Hfb. split; simpl.
  - lia.
  - reflexivity.
  - reflexivity.
  - vm_compute. discriminate.
  - intros k f H. by rewrite lookup_empty in H.
  - intros k f H. by rewrite lookup_empty in H.
Qed.

Lemma reach_ok timeout fallback t r :
  0 <= timeout < 2 ^ 62 -> 0 <= fallback < 2 ^ 62 -> reach timeout fallback t r ->
  0 <= t /\ registry_ok t r.
Proof.
  intros Hto Hfb. induction 1 as [|t r server port initial now _ [H0 IH] Hn Hp Hs
    |t r server port now _ [H0 IH] Hn Hp|t r _ [H0 IH]].
  - split; [done |]. apply empty_ok; lia.
  - split; [lia | by eapply outbound_ok].
  - split; [lia | by eapply inbound_ok].
  - split; [done |]. apply empty_ok; [apply IH ..].
Qed.

Lemma outbound_drop r server port initial now :
  (outbound r server port initial now).1 = Drop ->
  exists until, blockedUntil_ (outbound r server port initial now).2 !! server = Some until /\
    (now < until \/ until = w64 (now + fallbackMs_ (outbound r server port initial now).2)).
Proof.
  unfold outbound. cbv zeta. set (r1 := purgeIfDue r now).
  assert (Hinit : forall r', (initialOutbound r' server port now).1 = Drop ->
    exists until, blockedUntil_ (initialOutbound r' server port now).2 !! server = Some until /\
      (now < until \/ until = w64 (now + fallbackMs_ (initialOutbound r' server port now).2))).
  { intros r'. unfold initialOutbound. cbv zeta.
    destruct (flows_ r' !! quicFlowKey server port) as [f|]; [|done].
    case_if; [done |]. case_if; [|done]. intros _. simpl. rewrite lookup_insert_eq. eauto. }
  destruct (blockedUntil_ r1 !! server) as [until|] eqn:Eb; [case_if |].
  - zbool. simpl. intros _. rewrite Eb. eauto.
  - case_if; [done | apply Hinit].
  - case_if; [done | apply Hinit].
Qed.

Lemma purge_unblocked r now : blockedUntil_ r = ∅ -> blockedUntil_ (purgeIfDue r now) = ∅.
Proof.
  intros E. unfold purgeIfDue. case_if; [done |]. simpl. rewrite E.
  unfold erase_if. apply map_filter_empty.
Qed.

Lemma params_fixed timeout fallback t r :
  reach timeout fallback t r ->
  responseTimeoutMs_ r = Z.max timeout 1 /\ fallbackMs_ r = Z.max fallback (Z.max timeout 1).
Proof.
  assert (Hpurge : forall r now, responseTimeoutMs_ (purgeIfDue r now) = responseTimeoutMs_ r /\
    fallbackMs_ (purgeIfDue r now) = fallbackMs_ r) by (intros r' now; unfold purgeIfDue; by case_if).
  induction 1 as [|t r server port initial now _ [IH1 IH2] _ _ _|t r server port now _ [IH1 IH2] _ _|]; try done.
  - destruct (Hpurge r now) as [P1 P2]. rewrite IH1 in P1. rewrite IH2 in P2.
    unfold outbound, initialOutbound. cbv zeta. set (r1 := purgeIfDue r now) in *.
    destruct (blockedUntil_ r1 !! server); [case_if; [done |] |];
      (case_if; [done |]; cbn [setBlocked flows_];
       destruct (flows_ r1 !! quicFlowKey server port); [repeat case_if |]; done).
  - destruct (Hpurge r now) as [P1 P2]. rewrite IH1 in P1. rewrite IH2 in P2.
    unfold inbound. cbv zeta. set (r1 := purgeIfDue r now) in *.
    by destruct (flows_ r1 !! quicFlowKey server port).
Qed.

(** ** Properties *)

(** QUIC to a server is dropped only for cause: whenever a datagram is dropped, some
    connection to that very server has sent its Initial again at least the response
    timeout after the first one without a single answer, and was last seen no longer than
    the fallback period ago. *)
Theorem quic_drop_justified (timeout fallback t : Z) (r : AdaptiveRegistry) (server : bytes)
    (port : Z) (initial : bool) (now : Z) :
  0 <= timeout < 2 ^ 62 -> 0 <= fallback < 2 ^ 62 -> reach timeout fallback t r ->
  t <= now < 2 ^ 62 -> 0 <= port < 65536 -> msize (flows_ r) < 2 ^ 63 ->
  (outbound r server port initial now).1 = Drop ->
  exists port' f, flows_ (outbound r server port initial now).2 !! quicFlowKey server port' = Some f /\
    answered f = false /\ startedMs f + Z.max timeout 1 <= touchedMs f /\
    now <= touchedMs f + Z.max fallback (Z.max timeout 1).
Proof.
  intros Hto Hfb Hr Hn Hp Hs Hd. destruct (reach_ok _ _ _ _ Hto Hfb Hr) as [H0 Hok].
  pose proof (outbound_ok t now r server port initial Hok H0 Hn Hp Hs) as Hok'.
  pose proof (reach_outbound _ _ t r server port initial now Hr Hn Hp Hs) as Hr'.
  destruct (params_fixed _ _ _ _ Hr') as [E1 E2].
  destruct (outbound_drop _ _ _ _ _ Hd) as (until & Hb & Hu).
  destruct (rok_reason _ _ Hok' _ _ Hb) as (port' & f & _ & Hf & Ha & Hst & Hle).
  rewrite E1 in Hst. rewrite E2 in *. exists port', f. split_and!; try done.
  destruct Hu as [Hu|Hu]; [lia |]. rewrite w64_small in Hu by lia. lia.
Qed.

(** The lock-free pre-checks never skip a call that matters. In every reachable state
    the two published counters equal the number of unanswered flows and of blocked
    servers; while [needsOutbound] says no, a data packet would be passed anyway; while
    [needsInbound] says no, no server is on the blocked list that an answer could clear. *)
Theorem quic_prechecks_sound (timeout fallback t : Z) (r : AdaptiveRegistry) :
  0 <= timeout < 2 ^ 62 -> 0 <= fallback < 2 ^ 62 -> reach timeout fallback t r ->
  unansweredFlows_ r = msize (unanswered_of (flows_ r)) /\
  blockedServers_ r = msize (blockedUntil_ r) /\
  (needsOutbound r false = false ->
     forall server port now, (outbound r server port false now).1 = DecPass) /\
  (needsInbound r = false -> blockedUntil_ r = ∅).
Proof.
  intros Hto Hfb Hr. destruct (reach_ok _ _ _ _ Hto Hfb Hr) as [H0 [Hpa Hu Hb Hs Ht Hre]].
  assert (Hempty : forall (V : Type) (m : gmap bytes V), msize m = 0 -> m = ∅).
  { intros V m Hm. apply map_size_empty_iff. unfold msize in Hm. lia. }
  split_and!; [done | done | |].
  - unfold needsOutbound. simpl. intros Hno. zbool. rewrite Hb in Hno. apply Hempty in Hno.
    intros server port now. unfold outbound. cbv zeta. by rewrite purge_unblocked, lookup_empty.
  - unfold needsInbound. intros Hno. zbool. rewrite Hu in Hno. apply Hempty in Hno.
    apply map_empty. intros server. destruct (blockedUntil_ r !! server) as [until|] eqn:E; [|done].
    destruct (Hre _ _ E) as (port & f & _ & Hf & Ha & _). exfalso.
    assert (unanswered_of (flows_ r) !! quicFlowKey server port = Some f) as Hin
      by (by apply lookup_erase_if). by rewrite Hno, lookup_empty in Hin.
Qed.

(** A server that answers keeps QUIC: once an inbound datagram of a known flow arrived,
    datagrams of that flow pass for at least the fallback period, and an earlier block of
    the server is lifted. *)
Theorem quic_answer_unblocks (r : AdaptiveRegistry) (server : bytes) (port : Z) (initial : bool)
    (t now : Z) (f : Flow) :
  flows_ (purgeIfDue r t) !! quicFlowKey server port = Some f ->
  0 <= t <= now -> now < 2 ^ 62 -> now <= t + fallbackMs_ r ->
  (outbound (inbound r server port t) server port initial now).1 = DecPass.
Proof.
  intros Hf Ht Hn Hfb. unfold inbound. cbv zeta. rewrite Hf.
  set (r1 := purgeIfDue r t) in *.
  assert (Hfb' : fallbackMs_ r1 = fallbackMs_ r) by (unfold r1, purgeIfDue; by case_if).
  set (r2 := setBlocked _ _).
  assert (Hb : blockedUntil_ (purgeIfDue r2 now) !! server = None).
  { unfold purgeIfDue. case_if; simpl; [apply lookup_delete_eq |].
    destruct (erase_if _ _ !! server) eqn:E2; [|done].
    apply lookup_erase_if in E2 as [E2 _]. by rewrite lookup_delete_eq in E2. }
  assert (Hfl : exists f', flows_ (purgeIfDue r2 now) !! quicFlowKey server port = Some f' /\
    answered f' = true).
  { exists (mkFlow (startedMs f) t true). split; [|done]. unfold purgeIfDue. case_if; simpl.
    - apply lookup_insert_eq.
    - apply lookup_erase_if. split; [apply lookup_insert_eq |]. unfold stale. simpl.
      rewrite Hfb', w64_small by lia. apply Z.ltb_ge. lia. }
  destruct Hfl as (f' & Hf' & Ha). unfold outbound. cbv zeta. rewrite Hb. simpl. case_if; [done |].
  unfold initialOutbound. rewrite Hf', Ha. done.
Qed.

(** ** Concrete runs *)

Definition quic1 : AdaptiveRegistry := (outbound (newRegistry 900 300000) (str "1.2.3.4") 5000 true 1000).2.
Definition quic2 : AdaptiveRegistry := (outbound quic1 (str "1.2.3.4") 5000 true 2000).2.

Lemma reach_quic1 : reach 900 300000 1000 quic1.
Proof. apply (reach_outbound _ _ 0); [constructor | lia | lia | reflexivity]. Qed.

Lemma quic_drop_justified_witness :
  exists port' f, flows_ quic2 !! quicFlowKey (str "1.2.3.4") port' = Some f /\
    answered f = false /\ startedMs f + 900 <= touchedMs f /\ 2000 <= touchedMs f + 300000.
Proof.
  apply (quic_drop_justified 900 300000 1000 quic1 (str "1.2.3.4") 5000 true 2000); try lia;
    [exact reach_quic1 | reflexivity | vm_compute; reflexivity].
Defined.

Lemma quic_prechecks_sound_witness :
  unansweredFlows_ quic1 = msize (unanswered_of (flows_ quic1)) /\
  blockedServers_ quic1 = msize (blockedUntil_ quic1) /\
  (needsOutbound quic1 false = false ->
     forall server port now, (outbound quic1 server port false now).1 = DecPass) /\
  (needsInbound quic1 = false -> blockedUntil_ quic1 = ∅).
Proof.
  apply (quic_prechecks_sound 900 300000 1000 quic1); [lia | lia | exact reach_quic1].
Defined.

Lemma quic_answer_unblocks_witness :
  (outbound (inbound quic2 (str "1.2.3.4") 5000 3000) (str "1.2.3.4") 5000 true 4000).1 = DecPass.
Proof.
  apply (quic_answer_unblocks quic2 (str "1.2.3.4") 5000 true 3000 4000 (mkFlow 1000 2000 false));
    try lia; vm_compute; [reflexivity | discriminate].
Defined.
