(* ===== verification/PacketStrategy.v ===== *)
(** * PacketStrategy: transformations below TLS

    Models [src/src/PacketStrategy.hpp] and [src/src/PacketStrategy.cpp] (namespace
    [packet_strategy]): the policy a packet profile stands for, the cover ClientHello, TCP
    segmentation, IPv4 fragmentation with its header checksum, and the [PolicyRegistry]
    that joins the relay's socket with the packet loop. [size_t] arithmetic is kept modulo
    2^64, the sequence offsets are [int32_t]. [inet_pton] is a parameter (through
    [parseAddress]); [tick] is the reading of [GetTickCount64()]. *)

From S2P Require Import Prelude Containers TlsHello TransparentFlow.

Inductive Mode :=
  | ModeNone
  | ReverseOrder
  | FakeBadSequence
  | FakeBadChecksum
  | FakeAutoTtl
  | SequenceOverlap
  | IpFragment.

#[export] Instance Mode_eq_dec : EqDecision Mode.
Proof. solve_decision. Defined.

Record Policy := mkPolicy {
  mode : Mode;
  splitOffset : Z;
  overlapBytes : Z;
  fakeSequenceDelta : Z;
  fakeTtl : Z;
  coverSni : bytes;
  sniBegin : Z;
  sniEnd : Z;
}.

(** [Policy{}] *)
Definition defaultPolicy : Policy :=
  mkPolicy ModeNone 2 8 (-10000) 0 (str "www.google.com") 0 0.

Record Segment := mkSegment { sequenceOffset : Z; payload : bytes }.

Definition kPolicyTtlMs : Z := 15000.
Definition kAppliedTtlMs : Z := 60000.
Definition kPolicyPruneIntervalMs : Z := 1000.
Definition kMaxEntries : Z := 8192.

Definition append16 (out : bytes) (value : Z) : bytes := out ++ be16 value.
Definition append24 (out : bytes) (value : Z) : bytes := out ++ be24 value.

Definition inferPathHops (receivedTtl : Z) : Z :=
  match find (λ initial, receivedTtl <=? initial) [64; 128; 255] with
  | Some initial => w8 (initial - receivedTtl)
  | None => 0
  end.

Definition isPacketProfile (profile : bytes) : bool := starts_with profile (str "packet-").

Definition modeForProfile (profile : bytes) : option Mode :=
  if bool_decide (profile = str "packet-reverse") then Some ReverseOrder
  else if bool_decide (profile = str "packet-fake-badseq") then Some FakeBadSequence
  else if bool_decide (profile = str "packet-fake-badsum") then Some FakeBadChecksum
  else if bool_decide (profile = str "packet-autottl") then Some FakeAutoTtl
  else if bool_decide (profile = str "packet-seqovl") then Some SequenceOverlap
  else if bool_decide (profile = str "packet-ipfrag") then Some IpFragment
  else None.

(** The return value and the policy left in [out]. *)
Definition policyForProfile (profile : bytes) (hello : ClientHello) : bool * Policy :=
  let preferredSplit := if hasSni hello then w64 (sniOffset hello + sniLength hello / 2) else 2 in
  match modeForProfile profile with
  | None => (false, defaultPolicy)
  | Some m =>
      (true,
       mkPolicy m (Z.max 2 preferredSplit) 8 (-10000) 0 (str "www.google.com")
         (if hasSni hello then sniOffset hello else 0)
         (if hasSni hello then w64 (sniOffset hello + sniLength hello) else 0))
  end.

(** ** The cover ClientHello *)

Definition fakeExtensions (hostname : bytes) : bytes :=
  let e := append16 [] 0x0000 in
  let e := append16 e (w16 (zlen hostname + 5)) in
  let e := append16 e (w16 (zlen hostname + 3)) in
  let e := e ++ [0] in
  let e := append16 e (w16 (zlen hostname)) in
  let e := e ++ hostname in
  let e := append16 e 0x002b in
  let e := append16 e 3 in
  let e := e ++ [2] in
  append16 e 0x0304.

Definition fakeBody (extensions : bytes) : bytes :=
  let b := append16 [] 0x0303 in
  let b := b ++ ((λ i, w8 (Z.of_nat i + 1)) <$> seq 0 32) in
  let b := b ++ [0] in
  let b := append16 b 2 in
  let b := append16 b 0x1301 in
  let b := b ++ [1; 0] in
  let b := append16 b (w16 (zlen extensions)) in
  b ++ extensions.

Definition buildFakeClientHello (hostname : bytes) : bytes :=
  if bool_decide (hostname = []) || (253 <? zlen hostname) then [] else
  let body := fakeBody (fakeExtensions hostname) in
  let handshake := append24 [1] (zlen body) ++ body in
  append16 (append16 [0x16] 0x0301) (w16 (zlen handshake)) ++ handshake.

(** ** TCP segments *)

Definition segmentSplit (p : Policy) (length : Z) : Z :=
  if length <? 2 then 0 else clamp (splitOffset p) 1 (length - 1).

Definition splitsSni (p : Policy) (split : Z) : bool :=
  (sniEnd p =? 0) || ((sniBegin p <? split) && (split <? sniEnd p)).

(** [buildSegments]; a null payload is the empty one. *)
Definition buildSegments (data : bytes) (p : Policy) : list Segment :=
  let length := zlen data in
  if length <? 2 then [] else
  let split := segmentSplit p length in
  match mode p with
  | ReverseOrder =>
      [mkSegment (i32 split) (drop (Z.to_nat split) data);
       mkSegment 0 (take (Z.to_nat split) data)]
  | SequenceOverlap =>
      let overlap := clamp (overlapBytes p) 1 split in
      let fake := buildFakeClientHello (coverSni p) in
      let cover :=
        (λ i, if bool_decide (fake = []) then 0x20
              else default 0 (rd fake (Z.of_nat i mod zlen fake))) <$> seq 0 (Z.to_nat overlap) in
      [mkSegment (i32 (split - overlap)) (cover ++ drop (Z.to_nat split) data);
       mkSegment 0 (take (Z.to_nat split) data)]
  | _ => []
  end.

(** ** IPv4 fragments *)

(** [value & ~(size_t)7] *)
Definition align8 (value : Z) : Z := Z.land value (2 ^ 64 - 8).

Definition distance (target value : Z) : Z :=
  if target <? value then value - target else target - value.

Definition ipv4FragmentBoundary (transportHeaderLength : Z) (p : Policy) (payloadLength : Z) : Z :=
  if payloadLength <? 2 then 0 else
  let known := sniBegin p <? sniEnd p in
  let lo := if known then Z.max 1 (w64 (sniBegin p + 1)) else 1 in
  let hi := if known then Z.min (payloadLength - 1) (sniEnd p - 1) else payloadLength - 1 in
  if hi <? lo then 0 else
  let target := w64 (transportHeaderLength + clamp (splitOffset p) lo hi) in
  let down := align8 target in
  let up := align8 (w64 (target + 7)) in
  foldl (λ best candidate,
    if (candidate <? w64 (transportHeaderLength + lo)) ||
       (w64 (transportHeaderLength + hi) <? candidate) then best
    else if (best =? 0) || (distance target candidate <? distance target best) then candidate
    else best) 0 [down; up].

(** The ones' complement sum of the header words: [for (i = 0; i < ipHeaderLength; i += 2)]. *)
Fixpoint header_sum (n : nat) (d : bytes) (i : Z) (sum : Z) : option Z :=
  match n with
  | O => Some sum
  | S n =>
      a ← rd d i; b ← rd d (i + 1);
      header_sum n d (i + 2) (w32 (sum + Z.lor (Z.shiftl a 8) b))
  end.

(** [while (sum >> 16) sum = (sum & 0xFFFF) + (sum >> 16);] *)
Fixpoint fold_sum (fuel : nat) (sum : Z) : option Z :=
  match fuel with
  | O => None
  | S f =>
      if Z.shiftr sum 16 =? 0 then Some sum
      else fold_sum f (Z.land sum 0xFFFF + Z.shiftr sum 16)
  end.

(** The number of iterations of the header loop. *)
Definition header_words (ipHeaderLength : Z) : nat := Z.to_nat ((ipHeaderLength + 1) / 2).

(** [finishHeader]; [None] is a write or read outside the fragment. *)
Definition finishHeader (ipHeaderLength : Z) (fragment : bytes) (fragmentField : Z) : option bytes :=
  let totalLength := w16 (zlen fragment) in
  f ← wr fragment 2 (w8 (Z.shiftr totalLength 8));
  f ← wr f 3 (w8 totalLength);
  f ← wr f 6 (w8 (Z.shiftr fragmentField 8));
  f ← wr f 7 (w8 fragmentField);
  f ← wr f 10 0;
  f ← wr f 11 0;
  sum ← header_sum (header_words ipHeaderLength) f 0 0;
  sum ← fold_sum 4 sum;
  let checksum := w16 (Z.lnot sum) in
  f ← wr f 10 (w8 (Z.shiftr checksum 8));
  wr f 11 (w8 checksum).

(** The fragments; [None] is an access outside a buffer, [Some []] a packet that is left
    alone. A null packet is the empty one. *)
Definition buildIpv4Fragments (packet : bytes) (ipHeaderLength firstFragmentEnd : Z)
    : option (list bytes) :=
  let length := zlen packet in
  if (length =? 0) || (0xFFFF <? length) || (ipHeaderLength <? 20) || (length <? ipHeaderLength) ||
     (firstFragmentEnd <=? ipHeaderLength) || (length <=? firstFragmentEnd)
  then Some [] else
  b0 ← rd packet 0;
  if negb (Z.shiftr b0 4 =? 4) then Some [] else
  existingFragment ← rd16 packet 6;
  if negb (Z.land existingFragment 0x3FFF =? 0) then Some [] else
  let ipPayloadLength := length - ipHeaderLength in
  let firstPayloadLength := align8 (w64 (firstFragmentEnd - ipHeaderLength + 7)) in
  if (firstPayloadLength =? 0) || (ipPayloadLength <=? firstPayloadLength) then Some [] else
  let first := take (Z.to_nat (ipHeaderLength + firstPayloadLength)) packet in
  let second := take (Z.to_nat ipHeaderLength) packet ++
                drop (Z.to_nat (ipHeaderLength + firstPayloadLength)) packet in
  first ← finishHeader ipHeaderLength first 0x2000;
  second ← finishHeader ipHeaderLength second (w16 (firstPayloadLength / 8));
  Some [first; second].

(** ** PolicyRegistry *)

Record PolicyEntry := mkPolicyEntry {
  pe_policy : Policy;
  pe_expiresAtMs : Z;
  taken : bool;
  hasSequence : bool;
  pe_sequence : Z;
  applied : bool;
}.
Record HopEntry := mkHopEntry { pathHops : Z; h_expiresAtMs : Z }.

Record PolicyRegistry := mkPolicyRegistry {
  policies_ : gmap PeerKey PolicyEntry;
  hops_ : gmap PeerKey HopEntry;
  p_nextPruneMs_ : Z;
}.
Definition newPolicyRegistry : PolicyRegistry := mkPolicyRegistry ∅ ∅ 0.

Section PolicyRegistry.
Context `{!MapOrder PeerKey}.
Variable inet_pton4 inet_pton6 : bytes -> option bytes.

Definition policyKey (address : Address) (sourcePort : Z) : PeerKey := mkPeerKey address sourcePort 0.

(** [makeRoomLocked] *)
Definition policy_makeRoom {V} (expiry : V -> Z) (now : Z) (m : gmap PeerKey V) : gmap PeerKey V :=
  let m := erase_if (λ _ e, expiry e <=? now) m in
  if msize m <? kMaxEntries then m else erase_min expiry m.

Definition policy_pruneIfDue (r : PolicyRegistry) (now : Z) : PolicyRegistry :=
  if now <? p_nextPruneMs_ r then r else
  mkPolicyRegistry (erase_if (λ _ e, pe_expiresAtMs e <=? now) (policies_ r))
    (erase_if (λ _ e, h_expiresAtMs e <=? now) (hops_ r)) (w64 (now + kPolicyPruneIntervalMs)).

(** The guarded insertion of [arm] and [observeHop]. *)
Definition insertBounded {V} (expiry : V -> Z) (now : Z) (key : PeerKey) (v : V)
    (m : gmap PeerKey V) : gmap PeerKey V :=
  <[key := v]>
    (if (kMaxEntries <=? msize m) && negb (bool_decide (is_Some (m !! key)))
     then policy_makeRoom expiry now m else m).

Definition arm (r : PolicyRegistry) (targetAddress : bytes) (sourcePort : Z) (p : Policy)
    (nowMs tick : Z) : PolicyRegistry :=
  if (sourcePort =? 0) || bool_decide (mode p = ModeNone) then r else
  match parseAddress inet_pton4 inet_pton6 targetAddress with
  | None => r
  | Some address =>
      let now := clockMs nowMs tick in
      let r := policy_pruneIfDue r now in
      mkPolicyRegistry
        (insertBounded pe_expiresAtMs now (policyKey address sourcePort)
           (mkPolicyEntry p (w64 (now + kPolicyTtlMs)) false false 0 false) (policies_ r))
        (hops_ r) (p_nextPruneMs_ r)
  end.

Definition observeHop (r : PolicyRegistry) (target : Address) (sourcePort receivedTtl : Z)
    (nowMs tick : Z) : PolicyRegistry :=
  if (sourcePort =? 0) || (receivedTtl =? 0) then r else
  let hops := inferPathHops receivedTtl in
  if hops =? 0 then r else
  let now := clockMs nowMs tick in
  let r := policy_pruneIfDue r now in
  mkPolicyRegistry (policies_ r)
    (insertBounded h_expiresAtMs now (policyKey target sourcePort)
       (mkHopEntry hops (w64 (now + kPolicyTtlMs))) (hops_ r)) (p_nextPruneMs_ r).

Definition observeHopText (r : PolicyRegistry) (targetAddress : bytes) (sourcePort receivedTtl : Z)
    (nowMs tick : Z) : PolicyRegistry :=
  match parseAddress inet_pton4 inet_pton6 targetAddress with
  | Some address => observeHop r address sourcePort receivedTtl nowMs tick
  | None => r
  end.

(** The policy handed to the first packet: AutoTTL needs a live hop sample. *)
Definition resolveTtl (r : PolicyRegistry) (key : PeerKey) (now : Z) (p : Policy) : Policy :=
  if bool_decide (mode p = FakeAutoTtl) then
    let fallback := mkPolicy FakeBadSequence (splitOffset p) (overlapBytes p) (-10000) (fakeTtl p)
                      (coverSni p) (sniBegin p) (sniEnd p) in
    match hops_ r !! key with
    | None => fallback
    | Some hop =>
        if (h_expiresAtMs hop <=? now) || (pathHops hop <? 3) then fallback
        else mkPolicy (mode p) (splitOffset p) (overlapBytes p) (fakeSequenceDelta p)
               (w8 (Z.max 2 (pathHops hop - 1))) (coverSni p) (sniBegin p) (sniEnd p)
    end
  else p.

(** [take] with the sequence number of the packet, if the caller has one. *)
Definition takePolicy (r : PolicyRegistry) (target : Address) (sourcePort : Z) (sequence : option Z)
    (nowMs tick : Z) : option Policy * PolicyRegistry :=
  let now := clockMs nowMs tick in
  let key := policyKey target sourcePort in
  match policies_ r !! key with
  | None => (None, r)
  | Some e =>
      if pe_expiresAtMs e <=? now
      then (None, mkPolicyRegistry (delete key (policies_ r)) (hops_ r) (p_nextPruneMs_ r))
      else if taken e then
        (match sequence with
         | Some s => if hasSequence e && (pe_sequence e =? s) then Some (pe_policy e) else None
         | None => None
         end, r)
      else
        let p := resolveTtl r key now (pe_policy e) in
        let e' := mkPolicyEntry p (pe_expiresAtMs e) true
                    (match sequence with Some _ => true | None => hasSequence e end)
                    (default (pe_sequence e) sequence) (applied e) in
        (Some p, mkPolicyRegistry (<[key := e']> (policies_ r)) (hops_ r) (p_nextPruneMs_ r))
  end.

Definition takeText (r : PolicyRegistry) (targetAddress : bytes) (sourcePort nowMs tick : Z)
    : option Policy * PolicyRegistry :=
  match parseAddress inet_pton4 inet_pton6 targetAddress with
  | Some address => takePolicy r address sourcePort None nowMs tick
  | None => (None, r)
  end.

Definition noteApplied (r : PolicyRegistry) (target : Address) (sourcePort nowMs tick : Z)
    : PolicyRegistry :=
  let now := clockMs nowMs tick in
  let key := policyKey target sourcePort in
  match policies_ r !! key with
  | None => r
  | Some e =>
      mkPolicyRegistry
        (<[key := mkPolicyEntry (pe_policy e) (Z.max (pe_expiresAtMs e) (w64 (now + kAppliedTtlMs)))
                    (taken e) (hasSequence e) (pe_sequence e) true]> (policies_ r))
        (hops_ r) (p_nextPruneMs_ r)
  end.

Definition consumeApplied (r : PolicyRegistry) (targetAddress : bytes) (sourcePort nowMs tick : Z)
    : bool * PolicyRegistry :=
  match parseAddress inet_pton4 inet_pton6 targetAddress with
  | None => (false, r)
  | Some address =>
      let now := clockMs nowMs tick in
      let key := policyKey address sourcePort in
      match policies_ r !! key with
      | None => (false, r)
      | Some e =>
          (applied e && (now <? pe_expiresAtMs e),
           mkPolicyRegistry (delete key (policies_ r)) (hops_ r) (p_nextPruneMs_ r))
      end
  end.

Definition policyClear (r : PolicyRegistry) : PolicyRegistry := mkPolicyRegistry ∅ ∅ 0.

(** ** Operations as data *)

Inductive PolicyOp :=
  | PArm (targetAddress : bytes) (sourcePort : Z) (p : Policy) (nowMs tick : Z)
  | PObserveHop (target : Address) (sourcePort receivedTtl nowMs tick : Z)
  | PTake (target : Address) (sourcePort : Z) (sequence : option Z) (nowMs tick : Z)
  | PNoteApplied (target : Address) (sourcePort nowMs tick : Z)
  | PConsumeApplied (targetAddress : bytes) (sourcePort nowMs tick : Z)
  | PClear.

Definition policy_run (r : PolicyRegistry) (op : PolicyOp) : PolicyRegistry :=
  match op with
  | PArm a p pol now tick => arm r a p pol now tick
  | PObserveHop a p ttl now tick => observeHop r a p ttl now tick
  | PTake a p s now tick => (takePolicy r a p s now tick).2
  | PNoteApplied a p now tick => noteApplied r a p now tick
  | PConsumeApplied a p now tick => (consumeApplied r a p now tick).2
  | PClear => policyClear r
  end.

(** ** Specifications of the registry *)

(** The operation arms the key, or forgets it. *)
Definition policy_resets (key : PeerKey) (op : PolicyOp) : Prop :=
  match op with
  | PArm a p pol _ _ =>
      p <> 0 /\ mode pol <> ModeNone /\
      exists addr, parseAddress inet_pton4 inet_pton6 a = Some addr /\ policyKey addr p = key
  | PConsumeApplied a p _ _ =>
      exists addr, parseAddress inet_pton4 inet_pton6 a = Some addr /\ policyKey addr p = key
  | PClear => True
  | _ => False
  end.

(** The entry under [key] was armed by an operation of the trace, and not since; it is
    marked applied only if the packet loop reported so afterwards. *)
Definition policy_entry_from (ops : list PolicyOp) (key : PeerKey) (e : PolicyEntry) : Prop :=
  exists pre a p pol now tick post,
    ops = pre ++ PArm a p pol now tick :: post /\
    (exists addr, parseAddress inet_pton4 inet_pton6 a = Some addr /\ policyKey addr p = key) /\
    Forall (λ op, ~ policy_resets key op) post /\
    (applied e = true -> exists t q now' tick', policyKey t q = key /\
       In (PNoteApplied t q now' tick') post).

(** ** Lemmas: bounds *)

Lemma insertBounded_size {V} (expiry : V -> Z) now key v (m : gmap PeerKey V) :
  msize m <= kMaxEntries -> msize (insertBounded expiry now key v m) <= kMaxEntries.
Proof.
  intros Hm. unfold insertBounded. case_if.
  - etrans; [apply msize_insert_le |]. unfold policy_makeRoom. cbv zeta.
    pose proof (msize_erase_if (λ _ e, expiry e <=? now) m). case_if; zbool; [lia |].
    pose proof (msize_erase_min_room expiry (erase_if (λ _ e, expiry e <=? now) m) kMaxEntries
      ltac:(done) ltac:(lia)). lia.
  - apply andb_false_iff in E as [E|E]; zbool.
    + pose proof (msize_insert_le m key v). lia.
    + destruct E as [v' Hv]. by rewrite (msize_insert_Some _ _ _ _ Hv).
Qed.

Lemma insertBounded_lookup {V} (expiry : V -> Z) now key v (m : gmap PeerKey V) k e :
  insertBounded expiry now key v m !! k = Some e ->
  (k = key /\ e = v) \/ (k <> key /\ m !! k = Some e).
Proof.
  unfold insertBounded. rewrite lookup_insert_Some. intros [[<- <-]|[Hne Hl]]; [by left | right].
  split; [done |]. case_if_in Hl; [|done]. unfold policy_makeRoom in Hl. cbv zeta in Hl.
  case_if_in Hl.
  - by apply lookup_erase_if in Hl as [? _].
  - eapply lookup_weaken; [exact Hl |]. etrans; [apply erase_min_subseteq | apply erase_if_subseteq].
Qed.

Definition policy_ok (r : PolicyRegistry) : Prop :=
  msize (policies_ r) <= kMaxEntries /\ msize (hops_ r) <= kMaxEntries.

Lemma policy_prune_ok r now : policy_ok r -> policy_ok (policy_pruneIfDue r now).
Proof.
  intros [H1 H2]. unfold policy_pruneIfDue. case_if; [done |]. split; simpl.
  - etrans; [apply msize_erase_if | done].
  - etrans; [apply msize_erase_if | done].
Qed.

Lemma policy_run_ok r op : policy_ok r -> policy_ok (policy_run r op).
Proof.
  intros Hok. destruct op; simpl.
  - unfold arm. case_if; [done |]. destruct (parseAddress _ _ _); [|done]. cbv zeta.
    destruct (policy_prune_ok r (clockMs nowMs tick) Hok). split; simpl; [|done].
    by apply insertBounded_size.
  - unfold observeHop. case_if; [done |]. cbv zeta. case_if; [done |].
    destruct (policy_prune_ok r (clockMs nowMs tick) Hok). split; simpl; [done |].
    by apply insertBounded_size.
  - unfold takePolicy. cbv zeta. destruct (policies_ r !! policyKey target sourcePort) as [e|] eqn:E; [|done].
    destruct Hok as [H1 H2]. case_if; [split; simpl; [etrans; [apply msize_delete_le | done] | done] |].
    case_if; [done |]. split; simpl; [by rewrite (msize_insert_Some _ _ _ _ E) | done].
  - unfold noteApplied. cbv zeta. destruct (policies_ r !! policyKey target sourcePort) as [e|] eqn:E; [|done].
    destruct Hok as [H1 H2]. split; simpl; [by rewrite (msize_insert_Some _ _ _ _ E) | done].
  - unfold consumeApplied. destruct (parseAddress _ _ _); [|done]. cbv zeta.
    destruct (policies_ r !! _); [|done]. destruct Hok as [H1 H2]. split; simpl; [|done].
    etrans; [apply msize_delete_le | done].
  - split; simpl; by rewrite msize_empty.
Qed.

(** ** Lemmas: where an entry comes from *)

(** An entry survives an operation that neither re-arms nor forgets its key. *)
Lemma policy_entry_keep ops op key e e' :
  policy_entry_from ops key e' -> ~ policy_resets key op ->
  (applied e = true -> applied e' = true \/ exists t q nw tk, policyKey t q = key /\ op = PNoteApplied t q nw tk) ->
  policy_entry_from (ops ++ [op]) key e.
Proof.
  intros (pre & a & p & pol & nw & tk & post & -> & Hkey & Hf & Hap) Hn Ha.
  exists pre, a, p, pol, nw, tk, (post ++ [op]). rewrite <- app_assoc. split_and!; try done.
  - apply Forall_app. by repeat constructor.
  - intros [H|(t & q & nw' & tk' & Hq & ->)]%Ha.
    + destruct (Hap H) as (t & q & nw' & tk' & Hq & Hin). exists t, q, nw', tk'.
      split; [done |]. apply in_or_app. by left.
    + exists t, q, nw', tk'. split; [done |]. apply in_or_app. right. by left.
Qed.

Lemma policy_prune_lookup r now key e :
  policies_ (policy_pruneIfDue r now) !! key = Some e -> policies_ r !! key = Some e.
Proof. unfold policy_pruneIfDue. case_if; [done |]. simpl. by intros [? _]%lookup_erase_if. Qed.

Lemma policy_trace_entries ops key e :
  policies_ (foldl policy_run newPolicyRegistry ops) !! key = Some e -> policy_entry_from ops key e.
Proof.
  revert key e. induction ops as [|op ops IH] using rev_ind; intros key e Hk.
  { simpl in Hk. by rewrite lookup_empty in Hk. }
  rewrite foldl_app in Hk. simpl in Hk. set (r := foldl policy_run newPolicyRegistry ops) in *.
  assert (Hkeep : forall e', policies_ r !! key = Some e' -> ~ policy_resets key op ->
    (applied e = true -> applied e' = true \/ exists t q nw tk, policyKey t q = key /\ op = PNoteApplied t q nw tk) ->
    policy_entry_from (ops ++ [op]) key e) by (intros; eapply policy_entry_keep; eauto).
  destruct op as [a p pol now tick|a p ttl now tick|a p sq now tick|a p now tick|a p now tick|]; simpl in Hk.
  - unfold arm in Hk. case_if_in Hk.
    { eapply Hkeep; [exact Hk | | by auto]. intros (Hp & Hm & _).
      apply orb_true_iff in E as [E|E]; by zbool. }
    apply orb_false_iff in E as [E1 E2]. zbool.
    destruct (parseAddress inet_pton4 inet_pton6 a) as [addr|] eqn:Ea.
    2: { eapply Hkeep; [exact Hk | | by auto]. intros (_ & _ & addr & Hx & _). congruence. }
    cbn [policies_] in Hk. apply insertBounded_lookup in Hk as [[-> ->]|[Hne Hk]].
    + exists ops, a, p, pol, now, tick, []. split_and!; try done. by exists addr.
    + eapply (Hkeep e); [| | by auto].
      * by eapply policy_prune_lookup.
      * intros (_ & _ & addr' & Hx & Hy). rewrite Ea in Hx. injection Hx as <-. done.
  - eapply (Hkeep e); [| by intros [] | by auto]. unfold observeHop in Hk.
    case_if_in Hk; [done |]. cbv zeta in Hk. case_if_in Hk; [done |]. simpl in Hk.
    by eapply policy_prune_lookup.
  - unfold takePolicy in Hk. cbv zeta in Hk.
    destruct (policies_ r !! policyKey a p) as [e0|] eqn:E0; [|by eapply (Hkeep e); eauto; intros []].
    case_if_in Hk.
    { simpl in Hk. apply lookup_delete_Some in Hk as [_ Hk]. by eapply (Hkeep e); eauto; intros []. }
    case_if_in Hk; [by eapply (Hkeep e); eauto; intros [] |]. simpl in Hk.
    apply lookup_insert_Some in Hk as [[<- <-]|[_ Hk]]; [|by eapply (Hkeep e); eauto; intros []].
    eapply (Hkeep e0); [done | by intros [] |]. simpl. by left.
  - unfold noteApplied in Hk. cbv zeta in Hk.
    destruct (policies_ r !! policyKey a p) as [e0|] eqn:E0; [|by eapply (Hkeep e); eauto; intros []].
    simpl in Hk. apply lookup_insert_Some in Hk as [[<- <-]|[_ Hk]]; [|by eapply (Hkeep e); eauto; intros []].
    eapply (Hkeep e0); [done | by intros [] |]. intros _. right. by exists a, p, now, tick.
  - unfold consumeApplied in Hk. destruct (parseAddress inet_pton4 inet_pton6 a) as [addr|] eqn:Ea.
    2: { eapply (Hkeep e); [exact Hk | | by auto]. intros (addr & Hx & _). congruence. }
    cbv zeta in Hk. destruct (policies_ r !! policyKey addr p) as [e0|] eqn:E0; simpl in Hk.
    + apply lookup_delete_Some in Hk as [Hne Hk]. eapply (Hkeep e); [done | | by auto].
      intros (addr' & Hx & Hy). rewrite Ea in Hx. injection Hx as <-. done.
    + eapply (Hkeep e); [done | | by auto]. intros (addr' & Hx & Hy). rewrite Ea in Hx.
      injection Hx as <-. congruence.
  - by rewrite lookup_empty in Hk.
Qed.

End PolicyRegistry.

(** ** Lemmas: the cover ClientHello *)

Lemma skip_at p e n : 0 <= n -> 0 <= p -> p + n <= e -> e < 2 ^ 62 ->
  skip (mkReader p e) n = Some (mkReader (p + n) e).
Proof.
  intros. unfold skip, remaining. cbn [pos_ end_]. rewrite (w64_small (e - p)) by lia.
  rewrite (proj2 (Z.ltb_ge _ _)) by lia. by rewrite w64_small by lia.
Qed.

Lemma u8_at d p e v : rd d p = Some v -> p + 1 <= e -> e < 2 ^ 62 ->
  u8 d (mkReader p e) = Some (Some (v, mkReader (p + 1) e)).
Proof.
  intros Hr Hp He. pose proof (rd_inv _ _ _ Hr). unfold u8, remaining. cbn [pos_ end_].
  rewrite (w64_small (e - p)) by lia. rewrite (proj2 (Z.ltb_ge _ _)) by lia.
  rewrite Hr. cbn. by rewrite w64_small by lia.
Qed.

Lemma u16_at d p e v : rd16 d p = Some v -> p + 2 <= e -> e < 2 ^ 62 ->
  u16 d (mkReader p e) = Some (Some (v, mkReader (p + 2) e)).
Proof.
  intros Hr Hp He. pose proof (rd16_inv _ _ _ Hr). unfold u16, remaining. cbn [pos_ end_].
  rewrite (w64_small (e - p)) by lia. rewrite (proj2 (Z.ltb_ge _ _)) by lia.
  rewrite Hr. cbn. by rewrite w64_small by lia.
Qed.

(** Everything before the hostname. *)
Definition fakePrefix (n : Z) : bytes :=
  [0x16; 3; 1] ++ be16 (63 + n) ++ [1] ++ be24 (59 + n) ++ [3; 3] ++
  ((λ i, w8 (Z.of_nat i + 1)) <$> seq 0 32) ++ [0; 0; 2; 19; 1; 1; 0] ++ be16 (16 + n) ++
  [0; 0] ++ be16 (n + 5) ++ be16 (n + 3) ++ [0] ++ be16 n.

Definition fakeSuffix : bytes := [0; 43; 0; 3; 2; 3; 4].

Lemma buildFake_layout host :
  1 <= zlen host <= 253 ->
  buildFakeClientHello host = fakePrefix (zlen host) ++ host ++ fakeSuffix.
Proof.
  intros Hn. unfold buildFakeClientHello.
  rewrite bool_decide_eq_false_2 by (by intros ->; unfold zlen in Hn; simpl in Hn; lia).
  rewrite (proj2 (Z.ltb_ge _ _)) by lia. cbn [orb]. cbv zeta.
  assert (He : zlen (fakeExtensions host) = 16 + zlen host).
  { unfold fakeExtensions, append16. zlia. }
  assert (Hb : zlen (fakeBody (fakeExtensions host)) = 59 + zlen host).
  { unfold fakeBody, append16. autorewrite with zlen. rewrite He. change (zlen (seq 0 32)) with 32. lia. }
  rewrite Hb. unfold append24. rewrite !zlen_app, Hb. rewrite zlen_be24. change (zlen [1]) with 1.
  replace (1 + 3 + (59 + zlen host)) with (63 + zlen host) by lia.
  rewrite !w16_small by lia. unfold fakeBody. rewrite He. unfold fakeExtensions, append16.
  rewrite !w16_small by lia. unfold fakePrefix, fakeSuffix.
  rewrite <- !app_assoc. reflexivity.
Qed.

Lemma zlen_fakePrefix n : zlen (fakePrefix n) = 61.
Proof. unfold fakePrefix. autorewrite with zlen. reflexivity. Qed.

Lemma be24_combine v :
  0 <= v < 2 ^ 24 ->
  Z.lor (Z.lor (Z.shiftl (w8 (Z.shiftr v 16)) 16) (Z.shiftl (w8 (Z.shiftr v 8)) 8)) (w8 v) = v.
Proof.
  intros H. unfold w8. rewrite !shiftr_div by lia.
  pose proof (Z.mod_pos_bound (v / 2 ^ 16) (2 ^ 8)). pose proof (Z.mod_pos_bound (v / 2 ^ 8) (2 ^ 8)).
  pose proof (Z.mod_pos_bound v (2 ^ 8)).
  assert (v / 2 ^ 16 mod 2 ^ 8 = v / 2 ^ 16) as E1.
  { apply Z.mod_small. split; [apply Z.div_pos; lia | apply Z.div_lt_upper_bound; lia]. }
  assert (Hhi : Z.lor (Z.shiftl (v / 2 ^ 16 mod 2 ^ 8) 16) (Z.shiftl (v / 2 ^ 8 mod 2 ^ 8) 8) =
    Z.shiftl ((v / 2 ^ 16) * 2 ^ 8 + v / 2 ^ 8 mod 2 ^ 8) 8).
  { rewrite <- lor_shiftl_add by lia. rewrite Z.shiftl_lor, Z.shiftl_shiftl by lia. by rewrite E1. }
  rewrite Hhi, lor_shiftl_add by lia.
  pose proof (Z_div_mod_eq_full v (2 ^ 8)). pose proof (Z_div_mod_eq_full (v / 2 ^ 8) (2 ^ 8)).
  assert (v / 2 ^ 8 / 2 ^ 8 = v / 2 ^ 16) as E2 by (rewrite Z.div_div by lia; done). lia.
Qed.

(** A two-byte field of the prefix, by position. *)
Lemma fake_rd16 n rest i v :
  0 <= v < 65536 -> 0 <= i -> i + 2 <= 61 ->
  rd (fakePrefix n) i = Some (w8 (Z.shiftr v 8)) -> rd (fakePrefix n) (i + 1) = Some (w8 v) ->
  rd16 (fakePrefix n ++ rest) i = Some v.
Proof.
  intros Hv Hi Hi2 H1 H2. rewrite (rd16_bytes _ _ (w8 (Z.shiftr v 8)) (w8 v)).
  - by rewrite be16_combine, w16_small by lia.
  - by apply rd_mono.
  - by apply rd_mono.
Qed.

(** The parser's view of the extension block of the cover hello. *)
Lemma fake_readServerName host out :
  1 <= zlen host <= 253 ->
  readServerName (fakePrefix (zlen host) ++ host ++ fakeSuffix) 56 (61 + zlen host) out =
  Some (true, setSni out 61 (zlen host) host).
Proof.
  intros Hn. set (n := zlen host) in *. set (d := fakePrefix n ++ host ++ fakeSuffix).
  assert (Hz : zlen d = 68 + n) by (unfold d; rewrite !zlen_app, zlen_fakePrefix; unfold n, fakeSuffix; zlia).
  unfold readServerName.
  rewrite (u16_at d 56 (61 + n) (n + 3)); [|apply fake_rd16; try lia; reflexivity | lia | lia].
  unfold remaining at 1. cbn [pos_ end_]. rewrite (w64_small (61 + n - (56 + 2))) by lia.
  rewrite (proj2 (Z.ltb_ge _ _)) by lia. cbv zeta. cbn [pos_ end_].
  replace (w64 (56 + 2 + (n + 3))) with (61 + n) by (rewrite w64_small; lia).
  unfold remaining at 1. cbn [pos_ end_]. rewrite (w64_small (61 + n - (56 + 2))) by lia.
  destruct (Z.to_nat (61 + n - (56 + 2))) eqn:Ef; [lia |]. clear Ef.
  cbn [readServerName_loop]. unfold remaining at 1. cbn [pos_ end_].
  rewrite (w64_small (61 + n - (56 + 2))) by lia. rewrite (proj2 (Z.leb_gt _ _)) by lia.
  rewrite (u8_at d (56 + 2) (61 + n) 0); [|by apply rd_mono | lia | lia].
  rewrite (u16_at d (56 + 2 + 1) (61 + n) n); [|apply fake_rd16; try lia; reflexivity | lia | lia].
  unfold remaining. cbn [pos_ end_]. rewrite (w64_small (61 + n - (56 + 2 + 1 + 2))) by lia.
  rewrite (proj2 (Z.ltb_ge _ _)) by lia. cbn [Z.eqb]. rewrite Hz, (proj2 (Z.ltb_ge _ _)) by lia.
  do 3 f_equal. unfold d, slice. change (Z.to_nat (56 + 2 + 1 + 2)) with (length (fakePrefix n)).
  rewrite drop_app_length. unfold n, zlen. rewrite Nat2Z.id. apply take_app_length.
Qed.

Lemma parseExtensions_loop_S f data block out :
  parseExtensions_loop (S f) data block out =
  if remaining block <=? 0 then Some (Ok, out) else
  let? (extType, block) := u16 data block else Some (Malformed, out) in
  let? (extLength, block) := u16 data block else Some (Malformed, out) in
  if remaining block <? extLength then Some (Malformed, out) else
  let extStart := pos_ block in
  out ← (if extType =? kExtEncryptedClientHello then Some (setEch out)
         else if (extType =? kExtServerName) && negb (hasSni out)
         then snd <$> readServerName data extStart (w64 (extStart + extLength)) out
         else Some out);
  match skip block extLength with
  | None => Some (Malformed, out)
  | Some block => parseExtensions_loop f data block out
  end.
Proof. reflexivity. Qed.

Lemma rd_fakeSuffix n host i :
  0 <= i -> n = zlen host -> rd (fakePrefix n ++ host ++ fakeSuffix) (61 + n + i) = rd fakeSuffix i.
Proof.
  intros Hi ->. rewrite rd_app_r by (rewrite zlen_fakePrefix; pose proof (zlen_nonneg host); lia).
  rewrite zlen_fakePrefix, rd_app_r by lia. f_equal. lia.
Qed.

Lemma fake_parseExtensions host out :
  1 <= zlen host <= 253 -> hasSni out = false ->
  parseExtensions (fakePrefix (zlen host) ++ host ++ fakeSuffix) 50 (68 + zlen host) out =
  Some (Ok, setSni out 61 (zlen host) host).
Proof.
  intros Hn Hno. set (n := zlen host) in *. set (d := fakePrefix n ++ host ++ fakeSuffix).
  unfold parseExtensions.
  rewrite (u16_at d 50 (68 + n) (16 + n)); [|apply fake_rd16; try lia; reflexivity | lia | lia].
  unfold remaining at 1. cbn [pos_ end_]. rewrite (w64_small (68 + n - (50 + 2))) by lia.
  rewrite (proj2 (Z.ltb_ge _ _)) by lia. cbv zeta. cbn [pos_ end_].
  replace (w64 (50 + 2 + (16 + n))) with (68 + n) by (rewrite w64_small; lia).
  unfold remaining at 1. cbn [pos_ end_]. rewrite (w64_small (68 + n - (50 + 2))) by lia.
  replace (Z.to_nat (68 + n - (50 + 2))) with (S (S (Z.to_nat (14 + n)))) by lia.
  rewrite parseExtensions_loop_S. unfold remaining at 1. cbn [pos_ end_].
  rewrite (w64_small (68 + n - (50 + 2))) by lia. rewrite (proj2 (Z.leb_gt _ _)) by lia.
  rewrite (u16_at d (50 + 2) (68 + n) 0); [|apply fake_rd16; try lia; reflexivity | lia | lia].
  rewrite (u16_at d (50 + 2 + 2) (68 + n) (n + 5)); [|apply fake_rd16; try lia; reflexivity | lia | lia].
  unfold remaining at 1. cbn [pos_ end_]. rewrite (w64_small (68 + n - (50 + 2 + 2 + 2))) by lia.
  rewrite (proj2 (Z.ltb_ge _ _)) by lia. cbv zeta. change (0 =? kExtEncryptedClientHello) with false.
  rewrite Hno. cbn [Z.eqb kExtServerName negb andb].
  replace (w64 (50 + 2 + 2 + 2 + (n + 5))) with (61 + n) by (rewrite w64_small; lia).
  pose proof (fake_readServerName host out Hn) as Hrs. fold n in Hrs. fold d in Hrs.
  change (50 + 2 + 2 + 2) with 56 in *. rewrite Hrs. cbn [fmap option_fmap option_map snd mbind option_bind].
  rewrite skip_at by lia. replace (56 + (n + 5)) with (61 + n) by lia.
  rewrite parseExtensions_loop_S. unfold remaining at 1. cbn [pos_ end_].
  rewrite (w64_small (68 + n - (61 + n))) by lia. rewrite (proj2 (Z.leb_gt _ _)) by lia.
  assert (Ht : rd16 d (61 + n) = Some 43).
  { pose proof (rd_fakeSuffix n host 0 ltac:(lia) eq_refl) as H0. rewrite Z.add_0_r in H0.
    pose proof (rd_fakeSuffix n host 1 ltac:(lia) eq_refl) as H1.
    by rewrite (rd16_bytes d _ 0 43). }
  assert (Hl : rd16 d (61 + n + 2) = Some 3).
  { pose proof (rd_fakeSuffix n host 2 ltac:(lia) eq_refl) as H0.
    pose proof (rd_fakeSuffix n host 3 ltac:(lia) eq_refl) as H1.
    rewrite (rd16_bytes d _ 0 3); [done | done |]. by replace (61 + n + 2 + 1) with (61 + n + 3) by lia. }
  rewrite (u16_at d (61 + n) (68 + n) 43 Ht) by lia.
  rewrite (u16_at d (61 + n + 2) (68 + n) 3 Hl) by lia.
  unfold remaining at 1. cbn [pos_ end_]. rewrite (w64_small (68 + n - (61 + n + 2 + 2))) by lia.
  rewrite (proj2 (Z.ltb_ge _ _)) by lia. cbv zeta.
  change (43 =? kExtEncryptedClientHello) with false. change (43 =? kExtServerName) with false.
  cbn [andb mbind option_bind]. rewrite skip_at by lia.
  destruct (Z.to_nat (14 + n)) eqn:Ef; [lia |]. rewrite parseExtensions_loop_S.
  unfold remaining. cbn [pos_ end_]. rewrite w64_small by lia. by rewrite (proj2 (Z.leb_le _ _)) by lia.
Qed.

Lemma fake_parseBody host out :
  1 <= zlen host <= 253 -> hasSni out = false ->
  parseBody (fakePrefix (zlen host) ++ host ++ fakeSuffix) 9 (68 + zlen host) out =
  Some (Ok, setSni out 61 (zlen host) host).
Proof.
  intros Hn Hno. set (n := zlen host) in *. set (d := fakePrefix n ++ host ++ fakeSuffix).
  unfold parseBody. cbv zeta. rewrite skip_at by lia. rewrite skip_at by lia.
  rewrite (u8_at d (9 + 2 + 32) (68 + n) 0); [|by apply rd_mono | lia | lia].
  rewrite skip_at by lia.
  rewrite (u16_at d (9 + 2 + 32 + 1 + 0) (68 + n) 2); [|by apply rd16_mono | lia | lia].
  rewrite skip_at by lia.
  rewrite (u8_at d (9 + 2 + 32 + 1 + 0 + 2 + 2) (68 + n) 1); [|by apply rd_mono | lia | lia].
  rewrite skip_at by lia. unfold remaining. cbn [pos_ end_]. rewrite w64_small by lia.
  rewrite (proj2 (Z.eqb_neq _ 0)) by lia. apply (fake_parseExtensions host out Hn Hno).
Qed.

Lemma fake_parse host :
  1 <= zlen host <= 253 ->
  parseClientHello (buildFakeClientHello host) =
  Some (Ok, mkClientHello (63 + zlen host) (68 + zlen host) 61 (zlen host) host false false).
Proof.
  intros Hn. rewrite buildFake_layout by done. set (n := zlen host) in *.
  set (d := fakePrefix n ++ host ++ fakeSuffix).
  assert (Hz : zlen d = 68 + n) by (unfold d; rewrite !zlen_app, zlen_fakePrefix; unfold n, fakeSuffix; zlia).
  unfold parseClientHello. cbv zeta. rewrite Hz. unfold kRecordHeaderSize, kMaxRecordPayload.
  assert (Hrd : forall i v, rd (fakePrefix n) i = Some v -> rd d i = Some v)
    by (intros; by apply rd_mono).
  rewrite (proj2 (Z.eqb_neq _ 0)) by lia. rewrite (Hrd 0 0x16 eq_refl). cbn [mbind option_bind].
  change (negb (0x16 =? kRecordHandshake)) with false. cbv iota.
  rewrite (proj2 (Z.ltb_ge _ 2)) by lia. rewrite (Hrd 1 3 eq_refl). cbn [mbind option_bind].
  change (negb (3 =? 3)) with false. cbv iota. rewrite (proj2 (Z.ltb_ge _ 5)) by lia.
  rewrite (Hrd 3 (w8 (Z.shiftr (63 + n) 8)) eq_refl), (Hrd 4 (w8 (63 + n)) eq_refl).
  cbn [mbind option_bind]. rewrite be16_combine by lia.
  rewrite (proj2 (Z.eqb_neq _ 0)), (proj2 (Z.ltb_ge _ (63 + n))) by lia. cbn [orb].
  cbn [recordTotalLength setLengths]. rewrite (proj2 (Z.ltb_ge (68 + n) _)) by lia.
  rewrite (proj2 (Z.ltb_ge _ 4)) by lia. rewrite (Hrd 5 1 eq_refl). cbn [mbind option_bind].
  change (negb (1 =? kHandshakeClientHello)) with false. cbv iota.
  rewrite (Hrd (5 + 1) (w8 (Z.shiftr (59 + n) 16)) eq_refl),
    (Hrd (5 + 2) (w8 (Z.shiftr (59 + n) 8)) eq_refl), (Hrd (5 + 3) (w8 (59 + n)) eq_refl).
  cbn [mbind option_bind]. rewrite be24_combine by lia.
  rewrite (proj2 (Z.ltb_ge _ _)) by lia. replace (5 + 4 + (59 + n)) with (68 + n) by lia.
  change (5 + 4) with 9.
  match goal with |- parseBody _ _ _ ?o = _ => pose proof (fake_parseBody host o Hn eq_refl) as Hb end.
  fold n in Hb. fold d in Hb. rewrite Hb.
  unfold setSni, setLengths, emptyHello. cbn [recordPayloadLength recordTotalLength hasEch spansRecords].
  by replace (5 + (63 + n)) with (68 + n) by lia.
Qed.

(** ** Specifications of the cuts *)

(** The byte a receiver ends up with at stream offset [i] when segments arrive in the
    order sent and, where they overlap, the segment that fills the gap last wins. *)
Definition stream_at (segs : list Segment) (i : Z) : option Z :=
  foldl (λ acc s, match rd (payload s) (i - sequenceOffset s) with Some b => Some b | None => acc end)
    None segs.

(** The segment carries every byte of the hostname. *)
Definition carries_sni (p : Policy) (s : Segment) : Prop :=
  sequenceOffset s <= sniBegin p /\ sniEnd p <= sequenceOffset s + zlen (payload s).

(** A fragment boundary (counted from the start of the IP payload) that IPv4 can express,
    leaves bytes of the TCP payload on both sides and, if the hostname is known, cuts it. *)
Definition valid_boundary (transportHeaderLength : Z) (p : Policy) (payloadLength m : Z) : Prop :=
  let c := m - transportHeaderLength in
  m mod 8 = 0 /\ 0 < c < payloadLength /\ (sniBegin p < sniEnd p -> sniBegin p < c < sniEnd p).

(** The header checksum verifies: the folded sum of all header words is 0xFFFF. *)
Definition checksum_ok (ipHeaderLength : Z) (f : bytes) : Prop :=
  exists s, header_sum (header_words ipHeaderLength) f 0 0 = Some s /\ fold_sum 4 s = Some 0xFFFF.

(** The header bytes that fragmentation rewrites: total length, fragment field, checksum. *)
Definition rewritten (i : Z) : Prop := i = 2 \/ i = 3 \/ i = 6 \/ i = 7 \/ i = 10 \/ i = 11.

(** [f] is the fragment of [packet] that carries [part] of its payload. *)
Definition fragment_of (packet : bytes) (ipHeaderLength : Z) (part : bytes) (field : Z) (f : bytes) : Prop :=
  drop (Z.to_nat ipHeaderLength) f = part /\ zlen f = ipHeaderLength + zlen part /\
  rd16 f 2 = Some (zlen f) /\ rd16 f 6 = Some field /\ checksum_ok ipHeaderLength f /\
  (forall i, 0 <= i < ipHeaderLength -> ~ rewritten i -> rd f i = rd packet i).

(** ** Lemmas: segments *)

Lemma segmentSplit_bounds p n : 2 <= n -> 1 <= segmentSplit p n <= n - 1.
Proof. intros. unfold segmentSplit, clamp. repeat case_if; zbool; lia. Qed.

Lemma clamp_bounds v lo hi : lo <= hi -> lo <= clamp v lo hi <= hi.
Proof. intros. unfold clamp. repeat case_if; zbool; lia. Qed.

Lemma clamp_id v lo hi : lo <= v <= hi -> clamp v lo hi = v.
Proof. intros. unfold clamp. repeat case_if; zbool; lia. Qed.

Lemma segments_stream data p i :
  2 <= zlen data < 2 ^ 31 -> mode p = ReverseOrder \/ mode p = SequenceOverlap ->
  stream_at (buildSegments data p) i = rd data i.
Proof.
  intros Hz Hm. unfold buildSegments. cbv zeta. rewrite (proj2 (Z.ltb_ge _ 2)) by lia.
  pose proof (segmentSplit_bounds p (zlen data) ltac:(lia)) as Hs.
  set (k := segmentSplit p (zlen data)) in *.
  destruct Hm as [-> | ->]; unfold stream_at; cbn [foldl sequenceOffset payload].
  - rewrite i32_small by lia. rewrite rd_drop, rd_take, Z.sub_0_r by lia.
    destruct (i <? k) eqn:E; zbool.
    + rewrite (proj2 (Z.ltb_lt (i - k) 0)) by lia. by destruct (rd data i).
    + rewrite (proj2 (Z.ltb_ge (i - k) 0)) by lia. replace (k + (i - k)) with i by lia.
      by destruct (rd data i).
  - pose proof (clamp_bounds (overlapBytes p) 1 k ltac:(lia)) as Ho.
    set (o := clamp (overlapBytes p) 1 k) in *. rewrite i32_small by lia.
    rewrite rd_take, Z.sub_0_r by lia. set (cover := fmap _ _).
    assert (Hc : zlen cover = o) by (unfold cover; rewrite zlen_fmap; unfold zlen; rewrite length_seq; lia).
    destruct (i <? k) eqn:E; zbool.
    + destruct (rd data i) eqn:Er; [done |]. apply rd_None_iff in Er.
      rewrite (proj2 (rd_None_iff _ _)); [done |]. left. lia.
    + rewrite rd_app_r by lia. rewrite rd_drop, Hc by lia.
      rewrite (proj2 (Z.ltb_ge _ 0)) by lia. replace (k + (i - (k - o) - o)) with i by lia.
      by destruct (rd data i).
Qed.

(** ** Lemmas: the fragment boundary *)

Lemma align8_spec v : 0 <= v < 2 ^ 64 -> align8 v = v - v mod 8.
Proof.
  intros Hv. unfold align8. change (2 ^ 64 - 8) with (Z.shiftl (Z.ones 61) 3).
  rewrite <- (Z.mod_small v (2 ^ 64)) at 1 by lia. rewrite <- Z.land_ones by lia.
  assert (Z.land (Z.land v (Z.ones 64)) (Z.shiftl (Z.ones 61) 3) = Z.shiftl (Z.land (Z.shiftr v 3) (Z.ones 61)) 3) as ->.
  { apply Z.bits_inj'. intros i Hi. rewrite !Z.land_spec. rewrite !Z.shiftl_spec by lia.
    destruct (Z.ltb_spec i 3).
    - rewrite (Z.testbit_neg_r _ (i - 3)) by lia. rewrite (Z.testbit_neg_r _ (i - 3)) by lia.
      by rewrite andb_false_r.
    - rewrite Z.land_spec, Z.shiftr_spec by lia. replace (i - 3 + 3) with i by lia.
      rewrite !Z.testbit_ones_nonneg by lia.
      destruct (Z.ltb_spec i 64), (Z.ltb_spec (i - 3) 61); try lia; by rewrite ?andb_true_r, ?andb_false_r. }
  rewrite Z.land_ones, Z.shiftr_div_pow2, Z.shiftl_mul_pow2 by lia.
  change (2 ^ 3) with 8. rewrite Z.mod_small.
  - pose proof (Z_div_mod_eq_full v 8). lia.
  - split; [apply Z.div_pos; lia | apply Z.div_lt_upper_bound; lia].
Qed.

Lemma align8_mod v : 0 <= v < 2 ^ 64 -> align8 v mod 8 = 0.
Proof.
  intros Hv. rewrite align8_spec by done. rewrite Zminus_mod_idemp_r, Z.sub_diag. done.
Qed.

(** What the loop over the two neighbouring multiples of eight finds, for a target inside
    the allowed interval. *)
Lemma nearest_multiple lo hi t :
  1 <= lo <= t -> t <= hi < 2 ^ 63 ->
  let b := foldl (λ best candidate,
    if (candidate <? lo) || (hi <? candidate) then best
    else if (best =? 0) || (distance t candidate <? distance t best) then candidate
    else best) 0 [align8 t; align8 (t + 7)] in
  (b = 0 /\ forall m, m mod 8 = 0 -> ~ lo <= m <= hi) \/
  (b mod 8 = 0 /\ lo <= b <= hi /\ forall m, m mod 8 = 0 -> lo <= m <= hi -> Z.abs (b - t) <= Z.abs (m - t)).
Proof.
  intros Hlo Hhi. cbn [foldl].
  pose proof (align8_mod t ltac:(lia)) as Hd. pose proof (align8_mod (t + 7) ltac:(lia)) as Hu.
  assert (Hdn : align8 t <= t < align8 t + 8).
  { rewrite align8_spec by lia. pose proof (Z.mod_pos_bound t 8). lia. }
  assert (Hup : t <= align8 (t + 7) < t + 8).
  { rewrite align8_spec by lia. pose proof (Z.mod_pos_bound (t + 7) 8). lia. }
  set (dn := align8 t) in *. set (up := align8 (t + 7)) in *.
  assert (Hmul : forall m, m mod 8 = 0 -> m <= dn \/ up <= m).
  { intros m Hm. apply Z.mod_divide in Hd as [a Ha]; [|lia]. apply Z.mod_divide in Hu as [b Hb]; [|lia].
    apply Z.mod_divide in Hm as [c Hc]; [|lia]. lia. }
  change (0 =? 0) with true. cbn [orb]. unfold distance.
  destruct ((dn <? lo) || (hi <? dn)) eqn:E1; [apply orb_true_iff in E1 | apply orb_false_iff in E1];
    (destruct ((up <? lo) || (hi <? up)) eqn:E2; [apply orb_true_iff in E2 | apply orb_false_iff in E2]); zbool.
  - left. split; [done |]. intros m Hm. specialize (Hmul m Hm). destruct E1 as [E1|E1], E2 as [E2|E2]; zbool; lia.
  - right. change (0 =? 0) with true. cbn [orb]. split_and!; try done; try lia.
    intros m Hm Hr. specialize (Hmul m Hm). destruct E1 as [E1|E1]; zbool; lia.
  - right. split_and!; try done; try lia.
    intros m Hm Hr. specialize (Hmul m Hm). destruct E2 as [E2|E2]; zbool; lia.
  - right. destruct E1 as [E1 E1'], E2 as [E2 E2']. zbool.
    rewrite (proj2 (Z.eqb_neq dn 0)) by lia. cbn [orb].
    rewrite (proj2 (Z.ltb_ge t dn)) by lia.
    destruct (t <? up) eqn:Et; zbool; case_if; zbool; split_and!; try done; try lia;
      intros m Hm Hr; specialize (Hmul m Hm); lia.
Qed.

(** ** Lemmas: the header checksum *)

(** One big-endian word of a buffer, reading zero outside it. *)
Definition word (d : bytes) (i : Z) : Z := default 0 (rd d i) * 256 + default 0 (rd d (i + 1)).
Fixpoint wsum (n : nat) (d : bytes) (i : Z) : Z :=
  match n with O => 0 | S n => word d i + wsum n d (i + 2) end.

Lemma rd_default_byte d i : all_bytes d -> 0 <= default 0 (rd d i) < 256.
Proof. intros Hd. destruct (rd d i) eqn:E; simpl; [by apply (rd_byte _ _ _ Hd E) | lia]. Qed.

Lemma word_range d i : all_bytes d -> 0 <= word d i < 65536.
Proof.
  intros Hd. unfold word. pose proof (rd_default_byte d i Hd). pose proof (rd_default_byte d (i + 1) Hd). lia.
Qed.

Lemma wsum_range n d i : all_bytes d -> 0 <= wsum n d i <= 65535 * Z.of_nat n.
Proof.
  intros Hd. revert i. induction n as [|n IH]; intros i; simpl wsum; [lia |].
  pose proof (word_range d i Hd). specialize (IH (i + 2)). lia.
Qed.

Lemma header_sum_wsum n d i acc :
  all_bytes d -> 0 <= i -> i + 2 * Z.of_nat n <= zlen d ->
  0 <= acc -> acc + 65535 * Z.of_nat n < 2 ^ 32 ->
  header_sum n d i acc = Some (acc + wsum n d i).
Proof.
  intros Hd. revert i acc. induction n as [|n IH]; intros i acc Hi Hz Ha Hb; simpl; [f_equal; lia |].
  pose proof (word_range d i Hd) as Hw. unfold word in Hw |- *.
  destruct (rd_ok d i) as [a Ea]; [lia |]. destruct (rd_ok d (i + 1)) as [b Eb]; [lia |].
  rewrite Ea, Eb in *. simpl in *. pose proof (rd_byte _ _ _ Hd Ea) as [? ?].
  pose proof (rd_byte _ _ _ Hd Eb) as [? ?]. rewrite lor_shiftl_add by lia. change (2 ^ 8) with 256.
  rewrite w32_small by lia. rewrite IH by lia. f_equal. lia.
Qed.

(** Changing one word changes the sum by the difference. *)
Lemma wsum_change n d d' i :
  i mod 2 = 0 -> (forall k, k mod 2 = 0 -> k <> 10 -> word d' k = word d k) ->
  wsum n d' i = wsum n d i +
    if (i <=? 10) && (10 <? i + 2 * Z.of_nat n) then word d' 10 - word d 10 else 0.
Proof.
  intros Hi Hk. revert i Hi. induction n as [|n IH]; intros i Hi; simpl wsum.
  - destruct (i <=? 10) eqn:E1, (10 <? i + 2 * Z.of_nat 0) eqn:E2; zbool; simpl; lia.
  - assert (Hi2 : (i + 2) mod 2 = 0) by (rewrite Z.add_mod, Hi by lia; done).
    rewrite IH by done. destruct (decide (i = 10)) as [->|Hne].
    + change (10 + 2 <=? 10) with false. change (10 <=? 10) with true. cbn [andb].
      rewrite (proj2 (Z.ltb_lt 10 _)) by lia. lia.
    + rewrite Hk by done. assert (i <> 9) by (intros ->; done).
      destruct (i <=? 10) eqn:E1, (i + 2 <=? 10) eqn:E2, (10 <? i + 2 + 2 * Z.of_nat n) eqn:E3,
        (10 <? i + 2 * Z.of_nat (S n)) eqn:E4; zbool; simpl; lia.
Qed.

Lemma fold_step s : 0 <= s -> Z.land s 0xFFFF + Z.shiftr s 16 = s - 65535 * (s / 65536).
Proof.
  intros Hs. assert (Z.land s 0xFFFF = s mod 65536) as -> by exact (Z.land_ones s 16 ltac:(lia)).
  rewrite shiftr_div by lia. change (2 ^ 16) with 65536. pose proof (Z_div_mod_eq_full s 65536). lia.
Qed.

Lemma fold_sum_small f s : 0 <= s < 65536 -> fold_sum (S f) s = Some s.
Proof.
  intros Hs. cbn [fold_sum]. rewrite shiftr_div by lia. rewrite Z.div_small by lia. done.
Qed.

Lemma fold_sum_big f s : 65536 <= s -> fold_sum (S f) s = fold_sum f (s - 65535 * (s / 65536)).
Proof.
  intros Hs. cbn [fold_sum]. rewrite fold_step by lia. rewrite shiftr_div by lia.
  rewrite (proj2 (Z.eqb_neq _ 0)); [done |]. change (2 ^ 16) with 65536.
  pose proof (Z.div_le_lower_bound s 65536 1). lia.
Qed.

(** Folding ends within the fuel, in 16 bits, congruent modulo 0xFFFF, and at zero only
    for zero. *)
Lemma fold_sum_total s :
  0 <= s < 2 ^ 32 ->
  exists f k, fold_sum 4 s = Some f /\ 0 <= f <= 65535 /\ s = f + 65535 * k /\ 0 <= k /\ (f = 0 -> s = 0).
Proof.
  intros Hs. destruct (Z.lt_ge_cases s 65536) as [Hlt|Hge].
  { exists s, 0. rewrite fold_sum_small by lia. split_and!; try done; lia. }
  rewrite fold_sum_big by done. set (q := s / 65536). set (s1 := s - 65535 * q).
  assert (Hq : 1 <= q <= 65535 /\ 65536 * q <= s < 65536 * q + 65536).
  { unfold q. pose proof (Z_div_mod_eq_full s 65536). pose proof (Z.mod_pos_bound s 65536).
    pose proof (Z.div_le_lower_bound s 65536 1). pose proof (Z.div_lt_upper_bound s 65536 65536). lia. }
  destruct (Z.lt_ge_cases s1 65536) as [Hlt1|Hge1].
  { exists s1, q. rewrite fold_sum_small by (unfold s1; lia). unfold s1. split_and!; try done; lia. }
  rewrite fold_sum_big by done.
  assert (s1 / 65536 = 1) as Hq1.
  { symmetry. apply (Z.div_unique s1 65536 1 (s1 - 65536)); unfold s1; lia. }
  rewrite Hq1. exists (s1 - 65535 * 1), (q + 1).
  rewrite fold_sum_small by (unfold s1 in *; lia). unfold s1 in *. split_and!; try done; lia.
Qed.

(** The checksum makes the whole header sum fold to 0xFFFF. *)
Lemma checksum_folds s f :
  0 <= s -> s + 65535 < 2 ^ 32 -> fold_sum 4 s = Some f -> fold_sum 4 (s + (65535 - f)) = Some 0xFFFF.
Proof.
  intros Hs Hb Hf. destruct (fold_sum_total s ltac:(lia)) as (f0 & k & Hf0 & Hr & He & Hk & Hz).
  assert (f0 = f) as -> by congruence.
  destruct (fold_sum_total (s + (65535 - f)) ltac:(lia)) as (g & j & -> & Hg & Hge & Hj & Hgz).
  f_equal. lia.
Qed.

(** ** Lemmas: finishing a fragment *)

Lemma checksum_value f : 0 <= f <= 65535 -> w16 (Z.lnot f) = 65535 - f.
Proof.
  intros Hf. unfold w16, Z.lnot. rewrite <- (Z.mod_add _ 1) by lia.
  replace (Z.pred (- f) + 1 * 2 ^ 16) with (65535 - f) by lia. apply Z.mod_small. lia.
Qed.

Lemma word_of d i v :
  0 <= v < 65536 -> rd d i = Some (w8 (Z.shiftr v 8)) -> rd d (i + 1) = Some (w8 v) ->
  word d i = v /\ rd16 d i = Some v.
Proof.
  intros Hv H1 H2. split.
  - unfold word. rewrite H1, H2. simpl. pose proof (be16_combine v Hv) as Hc.
    rewrite lor_shiftl_add in Hc by (pose proof (w8_range v); lia). exact Hc.
  - rewrite (rd16_bytes _ _ _ _ H1 H2). by rewrite be16_combine, w16_small by lia.
Qed.

(** The two checksum bytes written into a header whose checksum field is zero. *)
Lemma checksum_written ihl g sum fs :
  all_bytes g -> 20 <= ihl <= zlen g -> zlen g <= 65535 -> ihl mod 2 = 0 ->
  rd g 10 = Some 0 -> rd g 11 = Some 0 ->
  header_sum (header_words ihl) g 0 0 = Some sum -> fold_sum 4 sum = Some fs ->
  let c := w16 (Z.lnot fs) in
  let g' := <[Z.to_nat 11 := w8 c]> (<[Z.to_nat 10 := w8 (Z.shiftr c 8)]> g) in
  checksum_ok ihl g'.
Proof.
  intros Hg Hi Hz He H10 H11 Hs Hf. cbv zeta. unfold checksum_ok.
  set (n := header_words ihl) in *.
  assert (Hn : 2 * Z.of_nat n = ihl).
  { unfold n, header_words. apply Z.mod_divide in He as [q Hq]; [|lia]. subst ihl.
    replace ((q * 2 + 1) / 2) with q; [lia |]. apply (Z.div_unique _ 2 q 1); lia. }
  rewrite header_sum_wsum in Hs by (try done; lia). injection Hs as <-. rewrite Z.add_0_l in Hf.
  pose proof (wsum_range n g 0 Hg) as Hw.
  destruct (fold_sum_total (wsum n g 0) ltac:(lia)) as (f0 & k & Hf0 & Hr & _).
  assert (f0 = fs) as -> by congruence. rewrite checksum_value by lia. set (c := 65535 - fs) in *.
  set (g' := <[Z.to_nat 11 := w8 c]> (<[Z.to_nat 10 := w8 (Z.shiftr c 8)]> g)).
  assert (Hrd : forall i, rd g' i = if i =? 11 then Some (w8 c) else
    if i =? 10 then Some (w8 (Z.shiftr c 8)) else rd g i).
  { intros i. unfold g'. rewrite !rd_insert; [done | lia |]. rewrite zlen_insert. lia. }
  assert (Hg' : all_bytes g') by (repeat apply all_bytes_insert; try done; apply w8_range).
  assert (Hz' : zlen g' = zlen g) by (unfold g'; by rewrite !zlen_insert).
  assert (Hw10 : word g' 10 = c) by (apply word_of; [lia | by rewrite Hrd | by rewrite Hrd]).
  assert (Hg10 : word g 10 = 0) by (unfold word; change (10 + 1) with 11; by rewrite H10, H11).
  assert (Hother : forall j, j mod 2 = 0 -> j <> 10 -> word g' j = word g j).
  { intros j Hj Hne. assert (j <> 11 /\ j <> 9) as [? ?] by (split; intros ->; done).
    unfold word. rewrite !Hrd. by repeat rewrite (proj2 (Z.eqb_neq _ _)) by lia. }
  exists (wsum n g 0 + c). rewrite header_sum_wsum by (try done; lia).
  rewrite (wsum_change n g g' 0 eq_refl Hother), Hw10, Hg10.
  rewrite (proj2 (Z.leb_le 0 10)), (proj2 (Z.ltb_lt 10 _)) by lia. cbn [andb].
  split; [f_equal; lia |]. by apply checksum_folds; [lia | lia |].
Qed.

Lemma finishHeader_spec ihl f field :
  all_bytes f -> 20 <= ihl <= zlen f -> zlen f <= 65535 -> ihl mod 2 = 0 -> 0 <= field < 65536 ->
  exists f', finishHeader ihl f field = Some f' /\ zlen f' = zlen f /\
    drop (Z.to_nat ihl) f' = drop (Z.to_nat ihl) f /\
    rd16 f' 2 = Some (zlen f) /\ rd16 f' 6 = Some field /\ checksum_ok ihl f' /\
    (forall i, ~ rewritten i -> rd f' i = rd f i).
Proof.
  intros Hf Hi Hz He Hfield. unfold finishHeader. cbv zeta. rewrite (w16_small (zlen f)) by lia.
  rewrite wr_ok by lia. cbn [mbind option_bind]. rewrite wr_ok by (rewrite zlen_insert; lia).
  cbn [mbind option_bind]. rewrite wr_ok by (rewrite !zlen_insert; lia).
  cbn [mbind option_bind]. rewrite wr_ok by (rewrite !zlen_insert; lia).
  cbn [mbind option_bind]. rewrite wr_ok by (rewrite !zlen_insert; lia).
  cbn [mbind option_bind]. rewrite wr_ok by (rewrite !zlen_insert; lia). cbn [mbind option_bind].
  match goal with |- context [ header_sum _ ?g0 _ _ ] => set (g := g0) end.
  assert (Hgz : zlen g = zlen f) by (unfold g; by rewrite !zlen_insert).
  assert (Hg : all_bytes g).
  { unfold g. repeat apply all_bytes_insert; try done; try apply w8_range; split; lia. }
  assert (Hrd : forall i, rd g i =
    if i =? 11 then Some 0 else if i =? 10 then Some 0 else
    if i =? 7 then Some (w8 field) else if i =? 6 then Some (w8 (Z.shiftr field 8)) else
    if i =? 3 then Some (w8 (zlen f)) else if i =? 2 then Some (w8 (Z.shiftr (zlen f) 8)) else rd f i).
  { intros i. unfold g. by rewrite !rd_insert by (rewrite ?zlen_insert; lia). }
  set (n := header_words ihl).
  assert (Hn : 2 * Z.of_nat n <= ihl + 1 /\ 2 * Z.of_nat n <= zlen f).
  { unfold n, header_words. apply Z.mod_divide in He as [q Hq]; [|lia]. subst ihl.
    replace ((q * 2 + 1) / 2) with q; [lia |]. apply (Z.div_unique _ 2 q 1); lia. }
  pose proof (wsum_range n g 0 Hg).
  pose proof (header_sum_wsum n g 0 0 Hg ltac:(lia) ltac:(lia) ltac:(lia) ltac:(lia)) as Hsum.
  rewrite Hsum. cbn [mbind option_bind].
  destruct (fold_sum_total (0 + wsum n g 0) ltac:(lia)) as (fs & k & Hfs & Hfr & _).
  rewrite Hfs. cbn [mbind option_bind].
  rewrite wr_ok by lia. cbn [mbind option_bind]. rewrite wr_ok by (rewrite zlen_insert; lia).
  eexists. split; [done |]. set (c := w16 (Z.lnot fs)).
  set (g' := <[Z.to_nat 11 := w8 c]> (<[Z.to_nat 10 := w8 (Z.shiftr c 8)]> g)).
  assert (Hrd' : forall i, i <> 10 -> i <> 11 -> rd g' i = rd g i).
  { intros i H10 H11. unfold g'. rewrite !rd_insert by (rewrite ?zlen_insert; lia).
    by rewrite (proj2 (Z.eqb_neq i 11)), (proj2 (Z.eqb_neq i 10)) by done. }
  split_and!.
  - unfold g'. rewrite !zlen_insert. done.
  - unfold g', g. by rewrite !drop_insert_lt by lia.
  - apply (word_of g' 2 (zlen f)); [lia | |]; (rewrite Hrd' by lia); by rewrite Hrd.
  - apply (word_of g' 6 field); [lia | |]; (rewrite Hrd' by lia); by rewrite Hrd.
  - apply (checksum_written ihl g (0 + wsum n g 0) fs Hg); try done; try lia; by rewrite Hrd.
  - intros i Hni. unfold rewritten in Hni. rewrite Hrd' by tauto. rewrite Hrd.
    by repeat rewrite (proj2 (Z.eqb_neq i _)) by tauto.
Qed.

Lemma all_bytes_take d n : all_bytes d -> all_bytes (take n d).
Proof. apply Forall_take. Qed.
Lemma all_bytes_drop d n : all_bytes d -> all_bytes (drop n d).
Proof. apply Forall_drop. Qed.

(** ** Properties *)

(** The cover ClientHello is a hello the engine's own parser accepts: for every name of
    1 to 253 bytes the built record parses completely, and the parser reads back exactly
    that name; for any other length nothing is built. *)
Theorem fake_hello_roundtrip (host : bytes) :
  (1 <= zlen host <= 253 /\ exists h, parseClientHello (buildFakeClientHello host) = Some (Ok, h) /\
     serverName h = host /\ sniLength h = zlen host /\
     recordTotalLength h = zlen (buildFakeClientHello host) /\ spansRecords h = false) \/
  (~ 1 <= zlen host <= 253 /\ buildFakeClientHello host = []).
Proof.
  destruct (decide (1 <= zlen host <= 253)) as [Hn|Hn].
  - left. split; [done |]. eexists. split; [by apply fake_parse |]. simpl. split_and!; try done.
    rewrite buildFake_layout, !zlen_app, zlen_fakePrefix by done. unfold fakeSuffix. zlia.
  - right. split; [done |]. unfold buildFakeClientHello. pose proof (zlen_nonneg host).
    destruct (decide (host = [])) as [->|Hne]; [done |]. rewrite bool_decide_eq_false_2 by done.
    assert (zlen host <> 0) by (by intros ?%zlen_0_inv). by rewrite (proj2 (Z.ltb_lt _ _)) by lia.
Qed.

(** Reordering and overlapping never change the data: for every payload that a packet
    can carry, the segments built for the reverse-order and the sequence-overlap profile
    reassemble at the receiver to exactly the original payload, byte for byte and with
    nothing beyond it. *)
Theorem segments_reassemble (data : bytes) (p : Policy) :
  2 <= zlen data < 2 ^ 31 -> mode p = ReverseOrder \/ mode p = SequenceOverlap ->
  forall i, stream_at (buildSegments data p) i = rd data i.
Proof. intros Hz Hm i. by apply segments_stream. Qed.

(** The packet profiles hide the hostname: for a ClientHello the parser accepted with a
    hostname of at least two bytes, the policy of every packet profile cuts the stream
    strictly inside the hostname, and neither segment of the reverse-order profile carries
    the whole name. *)
Theorem packet_policy_cuts_sni (data : bytes) (h : ClientHello) (profile : bytes) (p : Policy) :
  all_bytes data -> zlen data < 2 ^ 31 -> parseClientHello data = Some (Ok, h) -> 2 <= sniLength h ->
  policyForProfile profile h = (true, p) ->
  splitsSni p (segmentSplit p (zlen data)) = true /\ sniBegin p < segmentSplit p (zlen data) < sniEnd p /\
  (mode p = ReverseOrder -> Forall (λ s, ~ carries_sni p s) (buildSegments data p)).
Proof.
  intros Hd Hz Hp Hlen Hpol. destruct (parseClientHello_spec data Hd) as (st & h' & Hp' & Hok & _).
  rewrite Hp in Hp'. injection Hp' as <- <-.
  destruct (Hok eq_refl) as (Hpl & Ht & Hfit & (_ & _ & Hs) & _).
  unfold kMaxRecordPayload, kRecordHeaderSize in *. destruct Hs as [Hs|[Hlo Hhi]]; [lia |].
  unfold policyForProfile in Hpol. destruct (modeForProfile profile) as [m|]; [|done].
  assert (hasSni h = true) as Hsni by (unfold hasSni; apply Z.ltb_lt; lia). rewrite Hsni in Hpol.
  cbv zeta in Hpol. injection Hpol as <-.
  pose proof (Z.div_le_lower_bound (sniLength h) 2 1 ltac:(lia) ltac:(lia)).
  pose proof (Z.div_lt (sniLength h) 2 ltac:(lia) ltac:(lia)).
  set (p := mkPolicy _ _ _ _ _ _ _ _).
  assert (Hsplit : segmentSplit p (zlen data) = sniOffset h + sniLength h / 2).
  { unfold segmentSplit. rewrite (proj2 (Z.ltb_ge _ 2)) by lia. unfold p. cbn [splitOffset].
    rewrite w64_small by lia. rewrite Z.max_r by lia. apply clamp_id. lia. }
  assert (Hin : sniBegin p < segmentSplit p (zlen data) < sniEnd p).
  { rewrite Hsplit. unfold p. cbn [sniBegin sniEnd]. rewrite w64_small by lia. lia. }
  split_and!; try apply Hin.
  - unfold splitsSni. apply orb_true_iff. right. apply andb_true_iff. rewrite !Z.ltb_lt. exact Hin.
  - intros Hm. unfold buildSegments. cbv zeta. rewrite (proj2 (Z.ltb_ge _ 2)) by lia. rewrite Hm.
    rewrite i32_small by lia. unfold carries_sni.
    repeat constructor; cbn [sequenceOffset payload]; [lia |]. rewrite zlen_take. lia.
Qed.

(** The IPv4 fragment boundary is exact: it is zero exactly when no expressible
    boundary cuts the hostname (or the payload, when the hostname is unknown), otherwise
    it is such a boundary, and if the preferred split itself lies inside, no other
    boundary is closer to it. *)
Theorem fragment_boundary_correct (thl : Z) (p : Policy) (len : Z) :
  0 <= thl < 2 ^ 32 -> 0 <= len < 2 ^ 32 -> 0 <= sniBegin p < 2 ^ 62 -> 0 <= sniEnd p < 2 ^ 62 ->
  let b := ipv4FragmentBoundary thl p len in
  (b = 0 <-> forall m, ~ valid_boundary thl p len m) /\
  (b <> 0 -> valid_boundary thl p len b) /\
  (0 < splitOffset p < len -> (sniBegin p < sniEnd p -> sniBegin p < splitOffset p < sniEnd p) ->
   forall m, valid_boundary thl p len m ->
     Z.abs (b - (thl + splitOffset p)) <= Z.abs (m - (thl + splitOffset p))).
Proof.
  intros Hthl Hlen Hsb Hse. cbv zeta. unfold ipv4FragmentBoundary, valid_boundary. cbv zeta.
  destruct (len <? 2) eqn:E2; zbool.
  { split_and!; [split; [|done]; intros _ m (_ & ? & _); lia | done | intros; lia]. }
  set (known := sniBegin p <? sniEnd p).
  set (lo := if known then Z.max 1 (w64 (sniBegin p + 1)) else 1).
  set (hi := if known then Z.min (len - 1) (sniEnd p - 1) else len - 1).
  assert (Hrange : forall c, lo <= c <= hi <->
    0 < c < len /\ (sniBegin p < sniEnd p -> sniBegin p < c < sniEnd p)).
  { intros c. unfold lo, hi. destruct known eqn:Ek; unfold known in Ek; zbool.
    - rewrite w64_small by lia. lia.
    - lia. }
  assert (Hlo : 1 <= lo) by (unfold lo; case_if; lia).
  assert (Hhi : hi <= len - 1) by (unfold hi; case_if; lia).
  destruct (hi <? lo) eqn:Eh; zbool.
  { assert (Hnone : forall m, ~ (m mod 8 = 0 /\ 0 < m - thl < len /\
      (sniBegin p < sniEnd p -> sniBegin p < m - thl < sniEnd p))).
    { intros m (_ & H1 & H2). specialize (Hrange (m - thl)). lia. }
    split_and!; [split; [intros _; exact Hnone | done] | done | intros _ _ m Hm; by apply Hnone in Hm]. }
  pose proof (clamp_bounds (splitOffset p) lo hi ltac:(lia)) as Hc.
  set (t := thl + clamp (splitOffset p) lo hi). assert (Ht : w64 t = t) by (apply w64_small; unfold t; lia).
  rewrite Ht, (w64_small (t + 7)), (w64_small (thl + lo)), (w64_small (thl + hi)) by (unfold t; lia).
  destruct (nearest_multiple (thl + lo) (thl + hi) t) as [[-> Hno]|(Hb8 & Hbr & Hbest)];
    [unfold t; lia | unfold t; lia | |].
  - assert (Hnone : forall m, ~ (m mod 8 = 0 /\ 0 < m - thl < len /\
      (sniBegin p < sniEnd p -> sniBegin p < m - thl < sniEnd p))).
    { intros m (H8 & H1 & H2). apply (Hno m H8). specialize (Hrange (m - thl)). lia. }
    split_and!; [split; [intros _; exact Hnone | done] | done | intros _ _ m Hm; by apply Hnone in Hm].
  - match type of Hbest with context [ Z.abs (?b0 - t) ] => set (b := b0) in * end.
    assert (Hv : b mod 8 = 0 /\ 0 < b - thl < len /\
      (sniBegin p < sniEnd p -> sniBegin p < b - thl < sniEnd p)).
    { split; [done |]. apply Hrange. lia. }
    split_and!; [split; [lia | intros Hn; by apply Hn in Hv] | by intros _ |].
    intros H1 H2 m (Hm8 & Hm1 & Hm2).
    assert (Hts : t = thl + splitOffset p) by (unfold t; rewrite clamp_id; [done | by apply Hrange]).
    rewrite <- Hts. apply Hbest; [done |]. specialize (proj2 (Hrange (m - thl)) (conj Hm1 Hm2)). lia.
Qed.

(** Cutting a packet after [ihl + n] bytes, with the header repeated before the rest,
    cuts its payload in two. *)
Lemma fragment_payloads (packet : bytes) (ihl n : Z) :
  0 <= ihl -> 0 <= n -> ihl + n <= zlen packet ->
  let part1 := drop (Z.to_nat ihl) (take (Z.to_nat (ihl + n)) packet) in
  let part2 := drop (Z.to_nat ihl) (take (Z.to_nat ihl) packet ++ drop (Z.to_nat (ihl + n)) packet) in
  drop (Z.to_nat ihl) packet = part1 ++ part2 /\ zlen part1 = n /\ zlen part2 = zlen packet - ihl - n.
Proof.
  intros Hi Hn Hz part1 part2.
  assert (Hp2e : part2 = drop (Z.to_nat (ihl + n)) packet).
  { unfold part2. rewrite drop_app_ge by (rewrite length_take; lia).
    rewrite length_take_le by (unfold zlen in *; lia). by rewrite Nat.sub_diag, drop_0. }
  split_and!.
  - rewrite Hp2e. unfold part1. rewrite skipn_firstn_comm.
    replace (Z.to_nat (ihl + n)) with (Z.to_nat ihl + (Z.to_nat (ihl + n) - Z.to_nat ihl))%nat at 2 by lia.
    rewrite <- drop_drop. by rewrite take_drop.
  - unfold part1. rewrite zlen_drop, zlen_take. lia.
  - rewrite Hp2e, zlen_drop. lia.
Qed.

Lemma ipv4_fragments_built (packet : bytes) (ihl firstEnd : Z) :
  all_bytes packet -> ihl mod 2 = 0 ->
  buildIpv4Fragments packet ihl firstEnd = Some [] \/
  exists f1 f2 part1 part2,
    buildIpv4Fragments packet ihl firstEnd = Some [f1; f2] /\
    drop (Z.to_nat ihl) packet = part1 ++ part2 /\ zlen part1 = align8 (w64 (firstEnd - ihl + 7)) /\
    zlen part1 mod 8 = 0 /\ part1 <> [] /\ part2 <> [] /\
    fragment_of packet ihl part1 0x2000 f1 /\ fragment_of packet ihl part2 (zlen part1 / 8) f2.
Proof.
  intros Hd He. unfold buildIpv4Fragments. cbv zeta. case_if; [by left |].
  repeat (apply orb_false_iff in E as [E ?]). zbool.
  destruct (rd_ok packet 0) as [b0 Hb0]; [lia |]. rewrite Hb0. cbn [mbind option_bind].
  case_if; [by left |]. destruct (rd16_ok packet 6) as [ex Hex]; [lia | lia |]. rewrite Hex.
  cbn [mbind option_bind]. case_if; [by left |].
  set (fpl := align8 (w64 (firstEnd - ihl + 7))).
  case_if; [by left |]. apply orb_false_iff in E2 as [En Elt]. zbool.
  assert (H8 : fpl mod 8 = 0) by (apply align8_mod, w64_range).
  assert (Hpos : 0 <= fpl).
  { unfold fpl. rewrite align8_spec by apply w64_range. pose proof (w64_range (firstEnd - ihl + 7)).
    pose proof (Z.mod_le (w64 (firstEnd - ihl + 7)) 8). lia. }
  right. set (raw1 := take (Z.to_nat (ihl + fpl)) packet).
  set (raw2 := take (Z.to_nat ihl) packet ++ drop (Z.to_nat (ihl + fpl)) packet).
  assert (Hz1 : zlen raw1 = ihl + fpl) by (unfold raw1; rewrite zlen_take; lia).
  assert (Hz2 : zlen raw2 = zlen packet - fpl).
  { unfold raw2. rewrite zlen_app, zlen_take, zlen_drop. lia. }
  set (field2 := w16 (fpl / 8)).
  assert (Hfield2 : field2 = fpl / 8).
  { apply w16_small. split; [apply Z.div_pos; lia | apply Z.div_lt_upper_bound; lia]. }
  destruct (finishHeader_spec ihl raw1 0x2000) as (f1 & -> & G1 & G2 & G3 & G4 & G5 & G6);
    [by apply all_bytes_take | lia | lia | done | lia |].
  destruct (finishHeader_spec ihl raw2 field2) as (f2 & -> & K1 & K2 & K3 & K4 & K5 & K6);
    [apply all_bytes_app; auto using all_bytes_take, all_bytes_drop | lia | lia | done | apply w16_range |].
  cbn [mbind option_bind].
  destruct (fragment_payloads packet ihl fpl) as (Hcat & Hp1 & Hp2); [lia | lia | lia |].
  fold raw1 raw2 in Hcat, Hp1, Hp2.
  set (part1 := drop (Z.to_nat ihl) raw1) in *. set (part2 := drop (Z.to_nat ihl) raw2) in *.
  exists f1, f2, part1, part2. split_and!; try done.
  - by rewrite Hp1.
  - intros Enil. rewrite Enil in Hp1. change (zlen (@nil Z)) with 0 in Hp1. lia.
  - intros Enil. rewrite Enil in Hp2. change (zlen (@nil Z)) with 0 in Hp2. lia.
  - split_and!; try done; [lia | by rewrite G1 |]. intros i Hi Hn. rewrite G6 by done. unfold raw1.
    rewrite rd_take by lia. by rewrite (proj2 (Z.ltb_lt _ _)) by lia.
  - split_and!; try done; [lia | by rewrite K1 | by rewrite Hp1, <- Hfield2 |].
    intros i Hi Hn. rewrite K6 by done. unfold raw2. rewrite rd_app_l by (rewrite zlen_take; lia).
    rewrite rd_take by lia. by rewrite (proj2 (Z.ltb_lt _ _)) by lia.
Qed.

(** C11: IPv4 fragmentation is sound. On every packet the routine finishes inside its
    buffers and either leaves the packet alone or produces exactly two fragments: their
    payloads concatenate to the payload of the packet, the first is a multiple of eight
    bytes long and flagged "more fragments", the second carries the matching offset, both
    total-length fields are right, both header checksums verify, and every header byte
    outside those fields is the packet's own. *)
Theorem ipv4_fragments_sound (packet : bytes) (ihl firstEnd : Z) :
  all_bytes packet -> ihl mod 2 = 0 ->
  buildIpv4Fragments packet ihl firstEnd = Some [] \/
  exists f1 f2 part1 part2,
    buildIpv4Fragments packet ihl firstEnd = Some [f1; f2] /\
    drop (Z.to_nat ihl) packet = part1 ++ part2 /\ zlen part1 mod 8 = 0 /\ part1 <> [] /\ part2 <> [] /\
    fragment_of packet ihl part1 0x2000 f1 /\ fragment_of packet ihl part2 (zlen part1 / 8) f2.
Proof.
  intros Hd He. destruct (ipv4_fragments_built packet ihl firstEnd Hd He) as [|(f1 & f2 & p1 & p2 & ? & ? & _ & ? & ? & ? & ? & ?)]; [by left |].
  right. by exists f1, f2, p1, p2.
Qed.

Section PolicyProperties.
Context `{!MapOrder PeerKey}.
Variable inet_pton4 inet_pton6 : bytes -> option bytes.
Let run := foldl (policy_run inet_pton4 inet_pton6) newPolicyRegistry.

Lemma inferPathHops_range ttl : 0 <= inferPathHops ttl < 256.
Proof. unfold inferPathHops. destruct (find _ _); [apply w8_range | lia]. Qed.

Lemma run_hops ops k hop : hops_ (run ops) !! k = Some hop -> 0 <= pathHops hop < 256.
Proof.
  revert k hop. induction ops as [|op ops IH] using rev_ind; intros k hop.
  { simpl. by rewrite lookup_empty. }
  unfold run in *. rewrite foldl_app. simpl. set (r := foldl _ _ _) in *.
  assert (Hprune : forall now k hop, hops_ (policy_pruneIfDue r now) !! k = Some hop -> 0 <= pathHops hop < 256).
  { intros now k' hop'. unfold policy_pruneIfDue. case_if; [apply IH |]. simpl.
    intros [? _]%lookup_erase_if. by eapply IH. }
  destruct op; simpl.
  - unfold arm. case_if; [apply IH |]. destruct (parseAddress _ _ _); [apply Hprune | apply IH].
  - unfold observeHop. case_if; [apply IH |]. cbv zeta. case_if; [apply IH |]. simpl.
    intros [[_ ->]|[_ H]]%insertBounded_lookup; [apply inferPathHops_range | by eapply Hprune].
  - unfold takePolicy. cbv zeta. destruct (policies_ r !! _); [|apply IH]. repeat case_if; apply IH.
  - unfold noteApplied. cbv zeta. destruct (policies_ r !! _); apply IH.
  - unfold consumeApplied. destruct (parseAddress _ _ _); [|apply IH]. cbv zeta.
    destruct (policies_ r !! _); apply IH.
  - by rewrite lookup_empty.
Qed.

(** A probe counts as transformed only if it was: over every history,
    [consumeApplied] answers [true] only if a policy was armed for exactly that peer, the
    packet loop reported the transformation for that key afterwards, and the key was
    neither armed again, consumed nor cleared in between. *)
Theorem applied_only_if_noted (ops : list PolicyOp) (a : bytes) (p now tick : Z) :
  (consumeApplied inet_pton4 inet_pton6 (run ops) a p now tick).1 = true ->
  exists addr, parseAddress inet_pton4 inet_pton6 a = Some addr /\
  exists pre a' pol now0 tick0 post,
    ops = pre ++ PArm a' p pol now0 tick0 :: post /\
    parseAddress inet_pton4 inet_pton6 a' = Some addr /\
    Forall (λ op, ~ policy_resets inet_pton4 inet_pton6 (policyKey addr p) op) post /\
    exists now1 tick1, In (PNoteApplied addr p now1 tick1) post.
Proof.
  unfold consumeApplied. destruct (parseAddress inet_pton4 inet_pton6 a) as [addr|]; [|done].
  cbv zeta. destruct (policies_ (run ops) !! policyKey addr p) as [e|] eqn:E; [|done]. simpl.
  intros [Ha _]%andb_true_iff. exists addr. split; [done |].
  destruct (policy_trace_entries _ _ ops _ _ E)
    as (pre & a' & p' & pol & n0 & t0 & post & -> & (addr' & Hp & [= <- <-]) & Hf & Hap).
  destruct (Hap Ha) as (t & q & n1 & t1 & [= <- <-] & Hin).
  exists pre, a', pol, n0, t0, post. split_and!; try done. by exists n1, t1.
Qed.

(** A retransmission gets the treatment of the original and nothing else does: the first
    packet that takes a live policy fixes the sequence number; the same sequence number
    gets the same policy again for as long as the policy lives, any other packet gets
    none. And a time-to-live decoy is only handed out with a value between 2 and one less
    than the measured hop count; without a usable measurement it becomes a bad-sequence
    decoy instead. *)
Theorem take_policy_once (ops : list PolicyOp) (target : Address) (port seq1 now tick : Z) (e : PolicyEntry) :
  let key := policyKey target port in
  policies_ (run ops) !! key = Some e -> taken e = false -> clockMs now tick < pe_expiresAtMs e ->
  exists q r1, takePolicy (run ops) target port (Some seq1) now tick = (Some q, r1) /\
    (forall seq2 now2 tick2, clockMs now2 tick2 < pe_expiresAtMs e ->
       (takePolicy r1 target port seq2 now2 tick2).1 =
       if bool_decide (seq2 = Some seq1) then Some q else None) /\
    (mode (pe_policy e) <> FakeAutoTtl -> q = pe_policy e) /\
    (mode (pe_policy e) = FakeAutoTtl ->
       mode q = FakeBadSequence \/
       exists hop, hops_ (run ops) !! key = Some hop /\ 2 <= fakeTtl q <= pathHops hop - 1).
Proof.
  cbv zeta. intros He Ht Hlive. unfold takePolicy at 1. cbv zeta. rewrite He, Ht.
  rewrite (proj2 (Z.leb_gt _ _)) by lia. eexists _, _. split; [done |]. split_and!.
  - intros seq2 now2 tick2 Hl2. unfold takePolicy. cbv zeta. cbn [policies_]. rewrite lookup_insert_eq.
    cbn [pe_expiresAtMs taken hasSequence pe_sequence pe_policy default].
    rewrite (proj2 (Z.leb_gt _ _)) by lia. cbn [fst]. destruct seq2 as [s|].
    + cbn [andb]. case_if; zbool.
      * subst s. by rewrite bool_decide_eq_true_2.
      * rewrite bool_decide_eq_false_2; [done |]. intros [= ->]. done.
    + by rewrite bool_decide_eq_false_2.
  - intros Hm. unfold resolveTtl. by rewrite bool_decide_eq_false_2.
  - intros Hm. unfold resolveTtl. rewrite bool_decide_eq_true_2 by done. cbv zeta.
    destruct (hops_ (run ops) !! policyKey target port) as [hop|] eqn:Eh; [|by left].
    case_if; [by left |]. apply orb_false_iff in E as [_ E]. zbool. right. exists hop. split; [done |].
    pose proof (run_hops ops _ _ Eh). simpl. rewrite w8_small by lia. lia.
Qed.

(** Both tables of the policy registry stay within 8192 entries over every history. *)
Theorem policy_registry_bounded (ops : list PolicyOp) :
  msize (policies_ (run ops)) <= kMaxEntries /\ msize (hops_ (run ops)) <= kMaxEntries.
Proof.
  change (policy_ok (run ops)). unfold run.
  induction ops as [|op ops IH] using rev_ind.
  - split; simpl; by rewrite msize_empty.
  - rewrite foldl_app. by apply policy_run_ok.
Qed.

End PolicyProperties.

(** ** Concrete runs *)

(** An address parser that knows a single address. *)
Definition one_address (text : bytes) : option bytes :=
  if bool_decide (text = str "1.2.3.4") then Some [1; 2; 3; 4] else None.
Definition no_address (text : bytes) : option bytes := None.
Definition sample_address : Address := addressFromBytes (Some [1; 2; 3; 4]) false.
Definition sample_policy : Policy := mkPolicy FakeAutoTtl 63 8 (-10000) 0 (str "www.google.com") 61 66.
Definition sample_reverse : Policy := mkPolicy ReverseOrder 63 8 (-10000) 0 (str "www.google.com") 61 66.
Definition sample_policy_ops : list PolicyOp :=
  [PArm (str "1.2.3.4") 5000 sample_policy 1000 0; PObserveHop sample_address 5000 50 1001 0;
   PTake sample_address 5000 (Some 77) 1002 0; PNoteApplied sample_address 5000 1003 0].
(** A 40-byte packet: a 20-byte IPv4 header and 20 bytes of payload. *)
Definition sample_packet : bytes :=
  [0x45; 0; 0; 40; 1; 2; 0; 0; 64; 6; 0; 0; 10; 0; 0; 1; 10; 0; 0; 2] ++ replicate 20 7.

Lemma segments_reassemble_witness :
  stream_at (buildSegments sample_hello (mkPolicy SequenceOverlap 63 8 (-10000) 0 (str "a.b") 61 66)) 62 =
    rd sample_hello 62.
Proof.
  apply (segments_reassemble sample_hello); [vm_compute; split; [discriminate | reflexivity] | by right].
Defined.

Lemma packet_policy_cuts_sni_witness :
  splitsSni sample_reverse (segmentSplit sample_reverse (zlen sample_hello)) = true /\
  61 < segmentSplit sample_reverse (zlen sample_hello) < 66 /\
  (mode sample_reverse = ReverseOrder ->
     Forall (λ s, ~ carries_sni sample_reverse s) (buildSegments sample_hello sample_reverse)).
Proof.
  apply (packet_policy_cuts_sni sample_hello (mkClientHello 61 66 61 5 (str "ab.cd") false false)
           (str "packet-reverse")).
  - apply all_bytes_check. reflexivity.
  - vm_compute. reflexivity.
  - vm_compute. reflexivity.
  - simpl. lia.
  - vm_compute. reflexivity.
Defined.

Lemma fragment_boundary_correct_witness :
  let b := ipv4FragmentBoundary 20 sample_policy 66 in
  (b = 0 <-> forall m, ~ valid_boundary 20 sample_policy 66 m) /\
  (b <> 0 -> valid_boundary 20 sample_policy 66 b) /\
  (0 < 63 < 66 -> (61 < 66 -> 61 < 63 < 66) ->
   forall m, valid_boundary 20 sample_policy 66 m -> Z.abs (b - (20 + 63)) <= Z.abs (m - (20 + 63))).
Proof. apply (fragment_boundary_correct 20 sample_policy 66); simpl; lia. Defined.

Lemma ipv4_fragments_sound_witness :
  buildIpv4Fragments sample_packet 20 28 = Some [] \/
  exists f1 f2 part1 part2,
    buildIpv4Fragments sample_packet 20 28 = Some [f1; f2] /\
    drop (Z.to_nat 20) sample_packet = part1 ++ part2 /\ zlen part1 mod 8 = 0 /\ part1 <> [] /\ part2 <> [] /\
    fragment_of sample_packet 20 part1 0x2000 f1 /\ fragment_of sample_packet 20 part2 (zlen part1 / 8) f2.
Proof. apply (ipv4_fragments_sound sample_packet 20 28); [apply all_bytes_check | ]; reflexivity. Defined.

Example sample_packet_is_cut :
  length (default [] (buildIpv4Fragments sample_packet 20 28)) = 2%nat.
Proof. vm_compute. reflexivity. Qed.

Lemma applied_only_if_noted_witness :
  exists addr, parseAddress one_address no_address (str "1.2.3.4") = Some addr /\
  exists pre a' pol now0 tick0 post,
    sample_policy_ops = pre ++ PArm a' 5000 pol now0 tick0 :: post /\
    parseAddress one_address no_address a' = Some addr /\
    Forall (λ op, ~ policy_resets one_address no_address (policyKey addr 5000) op) post /\
    exists now1 tick1, In (PNoteApplied addr 5000 now1 tick1) post.
Proof.
  apply (applied_only_if_noted one_address no_address sample_policy_ops (str "1.2.3.4") 5000 2000 0).
  vm_compute. reflexivity.
Defined.

Lemma take_policy_once_witness :
  let run := foldl (policy_run one_address no_address) newPolicyRegistry in
  let e := mkPolicyEntry sample_policy 16000 false false 0 false in
  exists q r1, takePolicy (run (take 2 sample_policy_ops)) sample_address 5000 (Some 77) 1002 0 = (Some q, r1) /\
    (forall seq2 now2 tick2, clockMs now2 tick2 < pe_expiresAtMs e ->
       (takePolicy r1 sample_address 5000 seq2 now2 tick2).1 =
       if bool_decide (seq2 = Some 77) then Some q else None) /\
    (mode (pe_policy e) <> FakeAutoTtl -> q = pe_policy e) /\
    (mode (pe_policy e) = FakeAutoTtl ->
       mode q = FakeBadSequence \/
       exists hop, hops_ (run (take 2 sample_policy_ops)) !! policyKey sample_address 5000 = Some hop /\
         2 <= fakeTtl q <= pathHops hop - 1).
Proof.
  apply (take_policy_once one_address no_address (take 2 sample_policy_ops) sample_address 5000 77 1002 0
           (mkPolicyEntry sample_policy 16000 false false 0 false)).
  - vm_compute. reflexivity.
  - reflexivity.
  - vm_compute. reflexivity.
Defined.
