(* ===== verification/CommandLine.v ===== *)
(** * CommandLine: options, and arguments that survive a new process

    Models [src/src/CommandLine.hpp] (namespace [cmdline]) and the options of
    [src/src/main.cpp]: [Options], [parseArgs], [shouldRunTray], what the tray passes on to
    its engine ([collectEngineArguments], and the argument list of [TrayApp::startEngine])
    and what a relaunch with administrator rights passes on ([relaunchElevated]).

    The arguments leave one process as a command line and come back in the next one through
    [CommandLineToArgvW] or the C runtime, which follow the same documented rules; they are
    the class [ArgvRules], and [splitArguments] is a scanner that follows them. Characters
    are UTF-16 code units or octets, both [Z]; the conversion of [argv] to the ANSI code
    page is not modelled.

    The theorems: quoting loses nothing, whatever the arguments hold ([quoting_survives]);
    the elevated process and the engine parse the same options as the process that started
    them, plus the channels they were given. *)

From S2P Require Import Prelude Strategy QuicStrategy.

(** ** Quoting *)

Definition cBackslash : Z := 92.
Definition cQuote : Z := 34.
Definition cSpace : Z := 32.
(** Blank, tab, newline, vertical tab and quote. *)
Definition mustQuote (c : Z) : bool := existsb (Z.eqb c) [32; 9; 10; 11; 34].
Definition slashes (n : nat) : bytes := replicate n cBackslash.

(** The loop of [quoteArgument] after [backslashes] of them. *)
Fixpoint quoteLoop (argument : bytes) (backslashes : nat) : bytes :=
  match argument with
  | [] => slashes (backslashes * 2) ++ [cQuote]
  | c :: argument =>
      if c =? cBackslash then quoteLoop argument (S backslashes)
      else if c =? cQuote then slashes (backslashes * 2 + 1) ++ [c] ++ quoteLoop argument 0
      else slashes backslashes ++ [c] ++ quoteLoop argument 0
  end.

Definition quoteArgument (argument : bytes) : bytes :=
  if negb (bool_decide (argument = [])) && negb (existsb mustQuote argument) then argument
  else [cQuote] ++ quoteLoop argument 0.

(** [commandLine.push_back(L' '); commandLine += quoteArgument(argument);] per argument *)
Definition appendArguments (arguments : list bytes) : bytes :=
  arguments ≫= λ argument, [cSpace] ++ quoteArgument argument.

(** The arguments joined with blanks, as [relaunchElevated] does. *)
Fixpoint joinArguments (arguments : list bytes) (parameters : bytes) : bytes :=
  match arguments with
  | [] => parameters
  | argument :: arguments =>
      joinArguments arguments
        ((if bool_decide (parameters = []) then [] else parameters ++ [cSpace]) ++ quoteArgument argument)
  end.

(** ** Options *)

Record Options := mkOptions {
  workerUrl : bytes;
  forcedStrategy : bytes;
  processInclude : list bytes;
  processExclude : list bytes;
  port : Z;
  splitDelayMs : Z;
  splitDelaySet : bool;
  setup : bool;
  setupOnly : bool;
  redeploy : bool;
  manualProxy : bool;
  quicMode : QuicStrategy.Mode;
  tunnelFallback : bool;
  restoreProxy : bool;
  forgetToken : bool;
  forgetStrategies : bool;
  listStrategies : bool;
  verbose : bool;
  console : bool;
  engine : bool;
  shutdownEventName : bytes;
  readyEventName : bytes;
  liveStatsName : bytes;
  parentPid : Z;
}.
Definition newOptions : Options := mkOptions [] [] [] [] 1080 0 false false false false false QuicStrategy.Allow false false false false false false false false [] [] [] 0.

(** [options.field = v] *)
Definition set_workerUrl (v : bytes) (o : Options) : Options :=
  mkOptions v (forcedStrategy o) (processInclude o) (processExclude o) (port o) (splitDelayMs o) (splitDelaySet o) (setup o) (setupOnly o) (redeploy o) (manualProxy o) (quicMode o) (tunnelFallback o) (restoreProxy o) (forgetToken o) (forgetStrategies o) (listStrategies o) (verbose o) (console o) (engine o) (shutdownEventName o) (readyEventName o) (liveStatsName o) (parentPid o).
Definition set_forcedStrategy (v : bytes) (o : Options) : Options :=
  mkOptions (workerUrl o) v (processInclude o) (processExclude o) (port o) (splitDelayMs o) (splitDelaySet o) (setup o) (setupOnly o) (redeploy o) (manualProxy o) (quicMode o) (tunnelFallback o) (restoreProxy o) (forgetToken o) (forgetStrategies o) (listStrategies o) (verbose o) (console o) (engine o) (shutdownEventName o) (readyEventName o) (liveStatsName o) (parentPid o).
Definition set_processInclude (v : list bytes) (o : Options) : Options :=
  mkOptions (workerUrl o) (forcedStrategy o) v (processExclude o) (port o) (splitDelayMs o) (splitDelaySet o) (setup o) (setupOnly o) (redeploy o) (manualProxy o) (quicMode o) (tunnelFallback o) (restoreProxy o) (forgetToken o) (forgetStrategies o) (listStrategies o) (verbose o) (console o) (engine o) (shutdownEventName o) (readyEventName o) (liveStatsName o) (parentPid o).
Definition set_processExclude (v : list bytes) (o : Options) : Options :=
  mkOptions (workerUrl o) (forcedStrategy o) (processInclude o) v (port o) (splitDelayMs o) (splitDelaySet o) (setup o) (setupOnly o) (redeploy o) (manualProxy o) (quicMode o) (tunnelFallback o) (restoreProxy o) (forgetToken o) (forgetStrategies o) (listStrategies o) (verbose o) (console o) (engine o) (shutdownEventName o) (readyEventName o) (liveStatsName o) (parentPid o).
Definition set_port (v : Z) (o : Options) : Options :=
  mkOptions (workerUrl o) (forcedStrategy o) (processInclude o) (processExclude o) v (splitDelayMs o) (splitDelaySet o) (setup o) (setupOnly o) (redeploy o) (manualProxy o) (quicMode o) (tunnelFallback o) (restoreProxy o) (forgetToken o) (forgetStrategies o) (listStrategies o) (verbose o) (console o) (engine o) (shutdownEventName o) (readyEventName o) (liveStatsName o) (parentPid o).
Definition set_splitDelayMs (v : Z) (o : Options) : Options :=
  mkOptions (workerUrl o) (forcedStrategy o) (processInclude o) (processExclude o) (port o) v (splitDelaySet o) (setup o) (setupOnly o) (redeploy o) (manualProxy o) (quicMode o) (tunnelFallback o) (restoreProxy o) (forgetToken o) (forgetStrategies o) (listStrategies o) (verbose o) (console o) (engine o) (shutdownEventName o) (readyEventName o) (liveStatsName o) (parentPid o).
Definition set_splitDelaySet (v : bool) (o : Options) : Options :=
  mkOptions (workerUrl o) (forcedStrategy o) (processInclude o) (processExclude o) (port o) (splitDelayMs o) v (setup o) (setupOnly o) (redeploy o) (manualProxy o) (quicMode o) (tunnelFallback o) (restoreProxy o) (forgetToken o) (forgetStrategies o) (listStrategies o) (verbose o) (console o) (engine o) (shutdownEventName o) (readyEventName o) (liveStatsName o) (parentPid o).
Definition set_setup (v : bool) (o : Options) : Options :=
  mkOptions (workerUrl o) (forcedStrategy o) (processInclude o) (processExclude o) (port o) (splitDelayMs o) (splitDelaySet o) v (setupOnly o) (redeploy o) (manualProxy o) (quicMode o) (tunnelFallback o) (restoreProxy o) (forgetToken o) (forgetStrategies o) (listStrategies o) (verbose o) (console o) (engine o) (shutdownEventName o) (readyEventName o) (liveStatsName o) (parentPid o).
Definition set_setupOnly (v : bool) (o : Options) : Options :=
  mkOptions (workerUrl o) (forcedStrategy o) (processInclude o) (processExclude o) (port o) (splitDelayMs o) (splitDelaySet o) (setup o) v (redeploy o) (manualProxy o) (quicMode o) (tunnelFallback o) (restoreProxy o) (forgetToken o) (forgetStrategies o) (listStrategies o) (verbose o) (console o) (engine o) (shutdownEventName o) (readyEventName o) (liveStatsName o) (parentPid o).
Definition set_redeploy (v : bool) (o : Options) : Options :=
  mkOptions (workerUrl o) (forcedStrategy o) (processInclude o) (processExclude o) (port o) (splitDelayMs o) (splitDelaySet o) (setup o) (setupOnly o) v (manualProxy o) (quicMode o) (tunnelFallback o) (restoreProxy o) (forgetToken o) (forgetStrategies o) (listStrategies o) (verbose o) (console o) (engine o) (shutdownEventName o) (readyEventName o) (liveStatsName o) (parentPid o).
Definition set_manualProxy (v : bool) (o : Options) : Options :=
  mkOptions (workerUrl o) (forcedStrategy o) (processInclude o) (processExclude o) (port o) (splitDelayMs o) (splitDelaySet o) (setup o) (setupOnly o) (redeploy o) v (quicMode o) (tunnelFallback o) (restoreProxy o) (forgetToken o) (forgetStrategies o) (listStrategies o) (verbose o) (console o) (engine o) (shutdownEventName o) (readyEventName o) (liveStatsName o) (parentPid o).
Definition set_quicMode (v : QuicStrategy.Mode) (o : Options) : Options :=
  mkOptions (workerUrl o) (forcedStrategy o) (processInclude o) (processExclude o) (port o) (splitDelayMs o) (splitDelaySet o) (setup o) (setupOnly o) (redeploy o) (manualProxy o) v (tunnelFallback o) (restoreProxy o) (forgetToken o) (forgetStrategies o) (listStrategies o) (verbose o) (console o) (engine o) (shutdownEventName o) (readyEventName o) (liveStatsName o) (parentPid o).
Definition set_tunnelFallback (v : bool) (o : Options) : Options :=
  mkOptions (workerUrl o) (forcedStrategy o) (processInclude o) (processExclude o) (port o) (splitDelayMs o) (splitDelaySet o) (setup o) (setupOnly o) (redeploy o) (manualProxy o) (quicMode o) v (restoreProxy o) (forgetToken o) (forgetStrategies o) (listStrategies o) (verbose o) (console o) (engine o) (shutdownEventName o) (readyEventName o) (liveStatsName o) (parentPid o).
Definition set_restoreProxy (v : bool) (o : Options) : Options :=
  mkOptions (workerUrl o) (forcedStrategy o) (processInclude o) (processExclude o) (port o) (splitDelayMs o) (splitDelaySet o) (setup o) (setupOnly o) (redeploy o) (manualProxy o) (quicMode o) (tunnelFallback o) v (forgetToken o) (forgetStrategies o) (listStrategies o) (verbose o) (console o) (engine o) (shutdownEventName o) (readyEventName o) (liveStatsName o) (parentPid o).
Definition set_forgetToken (v : bool) (o : Options) : Options :=
  mkOptions (workerUrl o) (forcedStrategy o) (processInclude o) (processExclude o) (port o) (splitDelayMs o) (splitDelaySet o) (setup o) (setupOnly o) (redeploy o) (manualProxy o) (quicMode o) (tunnelFallback o) (restoreProxy o) v (forgetStrategies o) (listStrategies o) (verbose o) (console o) (engine o) (shutdownEventName o) (readyEventName o) (liveStatsName o) (parentPid o).
Definition set_forgetStrategies (v : bool) (o : Options) : Options :=
  mkOptions (workerUrl o) (forcedStrategy o) (processInclude o) (processExclude o) (port o) (splitDelayMs o) (splitDelaySet o) (setup o) (setupOnly o) (redeploy o) (manualProxy o) (quicMode o) (tunnelFallback o) (restoreProxy o) (forgetToken o) v (listStrategies o) (verbose o) (console o) (engine o) (shutdownEventName o) (readyEventName o) (liveStatsName o) (parentPid o).
Definition set_listStrategies (v : bool) (o : Options) : Options :=
  mkOptions (workerUrl o) (forcedStrategy o) (processInclude o) (processExclude o) (port o) (splitDelayMs o) (splitDelaySet o) (setup o) (setupOnly o) (redeploy o) (manualProxy o) (quicMode o) (tunnelFallback o) (restoreProxy o) (forgetToken o) (forgetStrategies o) v (verbose o) (console o) (engine o) (shutdownEventName o) (readyEventName o) (liveStatsName o) (parentPid o).
Definition set_verbose (v : bool) (o : Options) : Options :=
  mkOptions (workerUrl o) (forcedStrategy o) (processInclude o) (processExclude o) (port o) (splitDelayMs o) (splitDelaySet o) (setup o) (setupOnly o) (redeploy o) (manualProxy o) (quicMode o) (tunnelFallback o) (restoreProxy o) (forgetToken o) (forgetStrategies o) (listStrategies o) v (console o) (engine o) (shutdownEventName o) (readyEventName o) (liveStatsName o) (parentPid o).
Definition set_console (v : bool) (o : Options) : Options :=
  mkOptions (workerUrl o) (forcedStrategy o) (processInclude o) (processExclude o) (port o) (splitDelayMs o) (splitDelaySet o) (setup o) (setupOnly o) (redeploy o) (manualProxy o) (quicMode o) (tunnelFallback o) (restoreProxy o) (forgetToken o) (forgetStrategies o) (listStrategies o) (verbose o) v (engine o) (shutdownEventName o) (readyEventName o) (liveStatsName o) (parentPid o).
Definition set_engine (v : bool) (o : Options) : Options :=
  mkOptions (workerUrl o) (forcedStrategy o) (processInclude o) (processExclude o) (port o) (splitDelayMs o) (splitDelaySet o) (setup o) (setupOnly o) (redeploy o) (manualProxy o) (quicMode o) (tunnelFallback o) (restoreProxy o) (forgetToken o) (forgetStrategies o) (listStrategies o) (verbose o) (console o) v (shutdownEventName o) (readyEventName o) (liveStatsName o) (parentPid o).
Definition set_shutdownEventName (v : bytes) (o : Options) : Options :=
  mkOptions (workerUrl o) (forcedStrategy o) (processInclude o) (processExclude o) (port o) (splitDelayMs o) (splitDelaySet o) (setup o) (setupOnly o) (redeploy o) (manualProxy o) (quicMode o) (tunnelFallback o) (restoreProxy o) (forgetToken o) (forgetStrategies o) (listStrategies o) (verbose o) (console o) (engine o) v (readyEventName o) (liveStatsName o) (parentPid o).
Definition set_readyEventName (v : bytes) (o : Options) : Options :=
  mkOptions (workerUrl o) (forcedStrategy o) (processInclude o) (processExclude o) (port o) (splitDelayMs o) (splitDelaySet o) (setup o) (setupOnly o) (redeploy o) (manualProxy o) (quicMode o) (tunnelFallback o) (restoreProxy o) (forgetToken o) (forgetStrategies o) (listStrategies o) (verbose o) (console o) (engine o) (shutdownEventName o) v (liveStatsName o) (parentPid o).
Definition set_liveStatsName (v : bytes) (o : Options) : Options :=
  mkOptions (workerUrl o) (forcedStrategy o) (processInclude o) (processExclude o) (port o) (splitDelayMs o) (splitDelaySet o) (setup o) (setupOnly o) (redeploy o) (manualProxy o) (quicMode o) (tunnelFallback o) (restoreProxy o) (forgetToken o) (forgetStrategies o) (listStrategies o) (verbose o) (console o) (engine o) (shutdownEventName o) (readyEventName o) v (parentPid o).
Definition set_parentPid (v : Z) (o : Options) : Options :=
  mkOptions (workerUrl o) (forcedStrategy o) (processInclude o) (processExclude o) (port o) (splitDelayMs o) (splitDelaySet o) (setup o) (setupOnly o) (redeploy o) (manualProxy o) (quicMode o) (tunnelFallback o) (restoreProxy o) (forgetToken o) (forgetStrategies o) (listStrategies o) (verbose o) (console o) (engine o) (shutdownEventName o) (readyEventName o) (liveStatsName o) v.

Definition parseUnsigned (text : bytes) : option Z :=
  match from_chars (2 ^ 32 - 1) text with
  | Some (value, []) => Some value
  | _ => None
  end.

Definition validProcessPattern (pattern : bytes) : bool := (0 <? zlen pattern) && (zlen pattern <=? 1024).

(** One turn of the loop: go on, go on after the value, or leave with an exit code. *)
Inductive Turn := Next (o : Options) | NextValue (o : Options) | Leave (exitCode : Z).

(** [value] is [argv[i + 1]] where there is one. *)
Definition argTurn (arg : bytes) (value : option bytes) (o : Options) : Turn :=
  let flag (s : string) := bool_decide (arg = str s) in
  let withValue (s : string) := flag s && bool_decide (is_Some value) in
  let v := default [] value in
  if withValue "--worker" then NextValue (set_workerUrl v o)
  else if withValue "--port" then
    match parseUnsigned v with
    | Some p => if (p =? 0) || (65535 <? p) then Leave 1 else NextValue (set_port (w16 p) o)
    | None => Leave 1
    end
  else if withValue "--split-delay" then
    match parseUnsigned v with
    | Some d => if 2000 <? d then Leave 1 else NextValue (set_splitDelaySet true (set_splitDelayMs d o))
    | None => Leave 1
    end
  else if withValue "--strategy" then
    match findProfile v with Some _ => NextValue (set_forcedStrategy v o) | None => Leave 1 end
  else if flag "--manual-proxy" || flag "--no-system-proxy" then Next (set_manualProxy true o)
  else if flag "--allow-quic" then Next (set_quicMode QuicStrategy.Allow o)
  else if withValue "--quic-mode" then
    if bool_decide (v = str "adaptive") then NextValue (set_quicMode QuicStrategy.Adaptive o)
    else if bool_decide (v = str "block") then NextValue (set_quicMode QuicStrategy.Block o)
    else if bool_decide (v = str "allow") then NextValue (set_quicMode QuicStrategy.Allow o)
    else Leave 1
  else if flag "--tunnel-fallback" then Next (set_tunnelFallback true o)
  else if withValue "--include-process" then
    if negb (validProcessPattern v) then Leave 1 else NextValue (set_processInclude (processInclude o ++ [v]) o)
  else if withValue "--exclude-process" then
    if negb (validProcessPattern v) then Leave 1 else NextValue (set_processExclude (processExclude o ++ [v]) o)
  else if flag "--restore-proxy" then Next (set_restoreProxy true o)
  else if flag "--forget-token" then Next (set_forgetToken true o)
  else if flag "--forget-strategies" then Next (set_forgetStrategies true o)
  else if flag "--list-strategies" then Next (set_listStrategies true o)
  else if flag "--verbose" then Next (set_verbose true o)
  else if flag "--console" then Next (set_console true o)
  else if flag "--engine" then Next (set_engine true o)
  else if withValue "--shutdown-event" then NextValue (set_shutdownEventName v o)
  else if withValue "--ready-event" then NextValue (set_readyEventName v o)
  else if withValue "--live-stats" then NextValue (set_liveStatsName v o)
  else if withValue "--parent-pid" then
    match parseUnsigned v with Some p => NextValue (set_parentPid p o) | None => Leave 1 end
  else if flag "--setup" then Next (set_setup true o)
  else if flag "--setup-only" then Next (set_setupOnly true (set_setup true o))
  else if flag "--redeploy" then Next (set_redeploy true o)
  else if flag "--help" then Leave 0
  else Leave 1.

Inductive ParseResult := Parsed (o : Options) | Exit (exitCode : Z).

(** [argv[i...]] *)
Fixpoint parseFrom (argv : list bytes) (o : Options) : ParseResult :=
  match argv with
  | [] => Parsed o
  | arg :: rest =>
      match argTurn arg (head rest) o, rest with
      | Next o, _ => parseFrom rest o
      | NextValue o, _ :: rest' => parseFrom rest' o
      | NextValue o, [] => Parsed o
      | Leave code, _ => Exit code
      end
  end.
Definition parseArgs (argv : list bytes) : ParseResult := parseFrom argv newOptions.

Definition shouldRunTray (o : Options) : bool :=
  negb (engine o) && negb (console o) && negb (verbose o) && negb (manualProxy o) && negb (setup o) &&
  negb (redeploy o) && negb (restoreProxy o) && negb (forgetToken o) && negb (forgetStrategies o) &&
  negb (listStrategies o).

(** ** What is passed on *)

Definition internalValue (argument : bytes) : bool :=
  existsb (λ s, bool_decide (argument = str s)) ["--shutdown-event"; "--ready-event"; "--parent-pid"; "--live-stats"]%string.

(** [collectEngineArguments], on the arguments after the program name *)
Fixpoint collectEngineArguments (arguments : list bytes) : list bytes :=
  match arguments with
  | [] => []
  | argument :: rest =>
      if internalValue argument then match rest with _ :: rest' => collectEngineArguments rest' | [] => [] end
      else if bool_decide (argument = str "--engine") then collectEngineArguments rest
      else argument :: collectEngineArguments rest
  end.

(** The arguments of the engine in [TrayApp::startEngine]. *)
Definition engineCommand (engineArguments : list bytes) (shutdownName readyName : bytes) (pid : Z) (liveStats : bytes)
  : list bytes :=
  engineArguments ++
  [ str "--engine"; str "--shutdown-event"; shutdownName; str "--ready-event"; readyName;
    str "--parent-pid"; to_string pid; str "--live-stats"; liveStats ].

(** The parameters of the elevated process, which the caller waits for. *)
Definition relaunchParameters (arguments : list bytes) (shutdownEvent : bytes) (pid : Z) : bytes :=
  joinArguments arguments [] ++ str " --shutdown-event " ++ quoteArgument shutdownEvent ++
  str " --parent-pid " ++ to_string pid.

(** ** The rules of the receiving side *)

Definition blank (c : Z) : bool := (c =? 32) || (c =? 9).

(** [scan quoted current text] is the list of arguments in [text], where [current] is what
    has been read of the argument at hand ([None] between arguments) and [quoted] whether a
    quote is open. The laws are the documented ones: blanks end an argument outside quotes;
    backslashes are literal unless a quote follows them; before a quote, each pair of them
    stands for one, and an odd one makes the quote literal. *)
Class ArgvRules (scan : bool -> option bytes -> bytes -> list bytes) : Prop := {
  argv_end q cur : scan q (Some cur) [] = [cur];
  argv_none : scan false None [] = [];
  argv_blank c s : blank c = true -> scan false None (c :: s) = scan false None s;
  argv_next cur c s : blank c = true -> scan false (Some cur) (c :: s) = cur :: scan false None s;
  argv_char q cur c s : c <> cQuote -> c <> cBackslash -> q = true \/ blank c = false ->
    scan q cur (c :: s) = scan q (Some (default [] cur ++ [c])) s;
  argv_slashes q cur n s : head s <> Some cQuote -> head s <> Some cBackslash -> (0 < n)%nat ->
    scan q cur (slashes n ++ s) = scan q (Some (default [] cur ++ slashes n)) s;
  argv_literal q cur n s :
    scan q cur (slashes (n * 2 + 1) ++ cQuote :: s) = scan q (Some (default [] cur ++ slashes n ++ [cQuote])) s;
  argv_open cur n s :
    scan false cur (slashes (n * 2) ++ cQuote :: s) = scan true (Some (default [] cur ++ slashes n)) s;
  argv_close cur n s : head s <> Some cQuote ->
    scan true cur (slashes (n * 2) ++ cQuote :: s) = scan false (Some (default [] cur ++ slashes n)) s;
}.

(** A scanner that follows the rules: [n] backslashes have been read and not yet written. *)
Fixpoint splitFrom (q : bool) (cur : option bytes) (n : nat) (s : bytes) : list bytes :=
  match s with
  | [] =>
      match cur, n with
      | None, O => []
      | _, _ => [default [] cur ++ slashes n]
      end
  | c :: s =>
      if c =? cBackslash then splitFrom q cur (S n) s
      else if c =? cQuote then
        if Nat.even n then splitFrom (negb q) (Some (default [] cur ++ slashes (Nat.div2 n))) 0 s
        else splitFrom q (Some (default [] cur ++ slashes (Nat.div2 n) ++ [cQuote])) 0 s
      else if negb q && blank c then
        match cur, n with
        | None, O => splitFrom q None 0 s
        | _, _ => (default [] cur ++ slashes n) :: splitFrom q None 0 s
        end
      else splitFrom q (Some (default [] cur ++ slashes n ++ [c])) 0 s
  end.
Definition splitArguments (q : bool) (cur : option bytes) (s : bytes) : list bytes := splitFrom q cur 0 s.

Lemma splitFrom_slashes q cur n m s : splitFrom q cur n (slashes m ++ s) = splitFrom q cur (m + n) s.
Proof. revert n. induction m as [|m IH]; intros n; [done |]. cbn. rewrite IH. f_equal. lia. Qed.

#[export] Instance splitArguments_rules : ArgvRules splitArguments.
Proof.
  split; unfold splitArguments.
  - intros q cur. cbn. by rewrite app_nil_r.
  - done.
  - intros c s Hc. cbn [splitFrom]. assert (c = 32 \/ c = 9) as [-> | ->] by (unfold blank in Hc; zbool; lia); done.
  - intros cur c s Hc. cbn [splitFrom]. assert (c = 32 \/ c = 9) as [-> | ->] by (unfold blank in Hc; zbool; lia); cbn; by rewrite app_nil_r.
  - intros q cur c s Hq Hb Hc. cbn [splitFrom]. rewrite (proj2 (Z.eqb_neq _ _) Hb), (proj2 (Z.eqb_neq _ _) Hq).
    assert (negb q && blank c = false) as -> by (destruct Hc as [-> | ->]; [done | by rewrite andb_false_r]). done.
  - intros q cur n s Hq Hb Hn. rewrite splitFrom_slashes, Nat.add_0_r. destruct s as [|c s].
    + cbn. rewrite app_nil_r. destruct cur, n; done || lia.
    + assert (c <> cQuote) by (intros ->; by apply Hq). assert (c <> cBackslash) by (intros ->; by apply Hb).
      cbn [splitFrom]. rewrite (proj2 (Z.eqb_neq c cBackslash)), (proj2 (Z.eqb_neq c cQuote)) by done.
      case_if; cbn [default option_map from_option id].
      * destruct n as [|n]; [lia |]. rewrite app_nil_r. by destruct cur.
      * by rewrite <- app_assoc.
  - intros q cur n s. rewrite splitFrom_slashes. cbn [splitFrom Z.eqb Pos.eqb]. change (cQuote =? cBackslash) with false.
    rewrite Nat.add_0_r. assert (He : Nat.even (n * 2 + 1) = false) by (rewrite Nat.even_add, Nat.even_mul; by destruct (Nat.even n)).
    rewrite (Nat.mul_comm n 2), Nat.add_1_r in *. pose proof (Nat.div2_succ_double n) as Hd. by rewrite He, Hd.
  - intros cur n s. rewrite splitFrom_slashes. cbn [splitFrom]. change (cQuote =? cBackslash) with false.
    rewrite Nat.add_0_r. assert (He : Nat.even (n * 2) = true) by (rewrite Nat.even_mul; by destruct (Nat.even n)).
    rewrite (Nat.mul_comm n 2) in *. pose proof (Nat.div2_double n) as Hd. by rewrite He, Hd.
  - intros cur n s _. rewrite splitFrom_slashes. cbn [splitFrom]. change (cQuote =? cBackslash) with false.
    rewrite Nat.add_0_r. assert (He : Nat.even (n * 2) = true) by (rewrite Nat.even_mul; by destruct (Nat.even n)).
    rewrite (Nat.mul_comm n 2) in *. pose proof (Nat.div2_double n) as Hd. by rewrite He, Hd.
Qed.

(** ** Quoting survives *)

Lemma slashes_S n (s : bytes) : slashes n ++ cBackslash :: s = slashes (S n) ++ s.
Proof. unfold slashes. change (cBackslash :: s) with ([cBackslash] ++ s). by rewrite app_assoc, <- replicate_cons_app. Qed.

Section Survive.
Context {scan : bool -> option bytes -> bytes -> list bytes} `{!ArgvRules scan}.

(** What may follow an argument on a command line. *)
Definition ends_argument (s : bytes) : Prop := s = [] \/ exists s', s = cSpace :: s'.
Lemma ends_head s c : ends_argument s -> c <> cSpace -> head s <> Some c.
Proof. intros [->|[s' ->]] Hc; [done |]. intros [= Hx]. congruence. Qed.

Lemma scan_slashes_char q cur n c s :
  c <> cQuote -> c <> cBackslash -> q = true \/ blank c = false ->
  scan q cur (slashes n ++ c :: s) = scan q (Some (default [] cur ++ slashes n ++ [c])) s.
Proof.
  intros Hq Hb Hc. destruct n as [|n]; [change (slashes 0 ++ c :: s) with (c :: s); by rewrite argv_char |].
  rewrite argv_slashes by (cbn; congruence || lia). rewrite argv_char by done. cbn [default from_option id]. by rewrite <- app_assoc.
Qed.

Lemma scan_quoteLoop a n cur s :
  ends_argument s -> scan true (Some cur) (quoteLoop a n ++ s) = scan false (Some (cur ++ slashes n ++ a)) s.
Proof.
  intros Hs. revert n cur. induction a as [|c a IH]; intros n cur; cbn [quoteLoop].
  - rewrite <- app_assoc. cbn [app]. rewrite argv_close by by apply ends_head. by rewrite app_nil_r.
  - destruct (c =? cBackslash) eqn:Eb; [|destruct (c =? cQuote) eqn:Eq]; zbool; subst.
    + by rewrite IH, slashes_S.
    + rewrite <- !app_assoc. cbn [app]. rewrite argv_literal, IH. cbn [default from_option id]. by rewrite <- !app_assoc.
    + rewrite <- !app_assoc. cbn [app]. rewrite scan_slashes_char, IH by auto. cbn [default from_option id]. by rewrite <- !app_assoc.
Qed.

Lemma scan_plain a n cur s :
  ends_argument s -> existsb mustQuote a = false -> (0 < n)%nat \/ a <> [] ->
  scan false cur (slashes n ++ a ++ s) = scan false (Some (default [] cur ++ slashes n ++ a)) s.
Proof.
  intros Hs. revert n cur. induction a as [|c a IH]; intros n cur Ha Hne.
  - destruct Hne as [Hn|?]; [|done]. rewrite argv_slashes by (by apply ends_head || lia). by rewrite app_nil_r.
  - cbn in Ha. apply orb_false_iff in Ha as [Hc Ha]. destruct (decide (c = cBackslash)) as [->|Hb].
    + cbn [app]. rewrite !slashes_S. apply IH; [done |]. left. lia.
    + assert (Hq : c <> cQuote) by (intros ->; done).
      assert (Hbl : blank c = false) by (unfold mustQuote, blank in *; cbn in Hc; destruct (c =? 32), (c =? 9); done).
      cbn [app]. rewrite scan_slashes_char by auto. destruct a as [|c' a']; [by rewrite <- ?app_assoc |].
      rewrite (IH 0%nat _ Ha) by (right; done). cbn [default from_option id]. by rewrite <- !app_assoc.
Qed.

Lemma scan_argument a s : ends_argument s -> scan false None (quoteArgument a ++ s) = scan false (Some a) s.
Proof.
  intros Hs. unfold quoteArgument. case_if; zbool.
  - apply (scan_plain a 0 None s Hs); [done | by right].
  - rewrite <- app_assoc. pose proof (argv_open None 0 (quoteLoop a 0 ++ s)) as Ho. cbn in Ho. cbn [app]. rewrite Ho.
    by apply (scan_quoteLoop a 0 []).
Qed.

Lemma scan_after a s : scan false (Some a) (cSpace :: s) = a :: scan false None s.
Proof. by apply argv_next. Qed.

(** The arguments of a process the tray starts, after the program name. *)
Lemma append_survives args : scan false None (appendArguments args) = args.
Proof.
  induction args as [|a args IH]; [apply argv_none |].
  change (appendArguments (a :: args)) with (cSpace :: quoteArgument a ++ appendArguments args).
  rewrite argv_blank, scan_argument; [| |done].
  - destruct args as [|b args]; [by rewrite argv_end |].
    change (appendArguments (b :: args)) with (cSpace :: quoteArgument b ++ appendArguments args) in *.
    rewrite scan_after. f_equal. by rewrite <- IH, argv_blank.
  - destruct args; [by left | right; by eexists].
Qed.

Lemma quoteArgument_nonempty a : quoteArgument a <> [].
Proof. unfold quoteArgument. case_if; zbool; done. Qed.

Lemma joinArguments_app args params :
  params <> [] -> joinArguments args params = params ++ appendArguments args.
Proof.
  revert params. induction args as [|a args IH]; intros params Hp; cbn [joinArguments]; [by rewrite app_nil_r |].
  rewrite bool_decide_eq_false_2 by done. rewrite IH by (by destruct params).
  change (appendArguments (a :: args)) with (([cSpace] ++ quoteArgument a) ++ appendArguments args). by rewrite <- !app_assoc.
Qed.

(** The first argument has no blank before it. *)
Lemma join_survives args tail :
  scan false None (joinArguments args [] ++ appendArguments tail) = args ++ tail.
Proof.
  destruct args as [|a args]; [apply append_survives |]. cbn [joinArguments]. rewrite bool_decide_eq_true_2 by done.
  rewrite joinArguments_app by apply quoteArgument_nonempty. rewrite <- app_assoc.
  assert (He : appendArguments args ++ appendArguments tail = appendArguments (args ++ tail)) by (unfold appendArguments; by rewrite bind_app).
  rewrite He. pose proof (append_survives (a :: args ++ tail)) as H.
  change (appendArguments (a :: args ++ tail)) with (cSpace :: quoteArgument a ++ appendArguments (args ++ tail)) in H.
  by rewrite argv_blank in H.
Qed.
End Survive.

(** ** Options survive *)

Definition valueOptions : list string :=
  ["--worker"; "--port"; "--split-delay"; "--strategy"; "--quic-mode"; "--include-process"; "--exclude-process";
   "--shutdown-event"; "--ready-event"; "--live-stats"; "--parent-pid"]%string.
Definition takesValue (arg : bytes) : bool := existsb (λ s, bool_decide (arg = str s)) valueOptions.

(** An option with a value leaves when the value is missing. *)
Lemma argTurn_value arg o : takesValue arg = true -> argTurn arg None o = Leave 1.
Proof.
  unfold takesValue. rewrite existsb_exists. intros (s & Hs & He). zbool. subst arg.
  cbn in Hs. repeat (destruct Hs as [<-|Hs]; [reflexivity |]). done.
Qed.

(** Decide the comparisons of two literals. *)
Ltac literals :=
  repeat match goal with
  | |- context [bool_decide (str ?a = str ?b)] =>
      let x := eval vm_compute in (bool_decide (str a = str b)) in change (bool_decide (str a = str b)) with x
  end; cbn [andb orb].

Lemma argTurn_value_some arg v o o' : takesValue arg = true -> argTurn arg (Some v) o <> Next o'.
Proof.
  unfold takesValue. rewrite existsb_exists. intros (s & Hs & He). zbool. subst arg. cbn in Hs.
  repeat (destruct Hs as [<-|Hs]; [unfold argTurn; literals; cbn [default from_option id];
    repeat (case_if || match goal with |- context [match ?x with Some _ => _ | None => _ end] => destruct x end); discriminate |]).
  done.
Qed.

(** Any other does not look at what follows. *)
Lemma argTurn_flag arg v v' o :
  takesValue arg = false -> argTurn arg v o = argTurn arg v' o /\ forall o', argTurn arg v o <> NextValue o'.
Proof.
  intros H. unfold takesValue, valueOptions in H. cbn [existsb] in H. rewrite !orb_false_iff in H. destruct_and!.
  unfold argTurn. repeat match goal with He : bool_decide (arg = _) = false |- _ => rewrite He; clear He end.
  cbn [andb]. split; [done |]. intros o'. repeat (case_if; [done |]). done.
Qed.

Lemma parseFrom_app a b o o' : parseFrom a o = Parsed o' -> parseFrom (a ++ b) o = parseFrom b o'.
Proof.
  assert (Hgen : forall n a o, (length a <= n)%nat -> parseFrom a o = Parsed o' -> parseFrom (a ++ b) o = parseFrom b o'); [|eauto].
  clear. induction n as [|n IH]; intros [|arg rest] o Hn; cbn [length] in Hn; try lia; try (by intros [= ->]).
  cbn [parseFrom app]. destruct (takesValue arg) eqn:Et.
  - destruct rest as [|v rest]; cbn [head app length] in *; [by rewrite argTurn_value |].
    destruct (argTurn arg (Some v) o); [|apply IH; lia | done]. intros H. by apply (IH (v :: rest)); [cbn; lia |].
  - destruct (argTurn_flag arg (head rest) (head (rest ++ b)) o Et) as [-> Hno].
    destruct (argTurn arg (head (rest ++ b)) o) eqn:Ea; [apply IH; lia | | done].
    destruct (argTurn_flag arg (head (rest ++ b)) None o Et) as [_ Hno']. by destruct (Hno' o0).
Qed.

(** *** The internal options *)

Definition withInternal (shutdownName readyName liveName : bytes) (pid : Z) (e : bool) (o : Options) : Options :=
  set_parentPid pid (set_liveStatsName liveName (set_readyEventName readyName (set_shutdownEventName shutdownName (set_engine e o)))).
Definition erase : Options -> Options := withInternal [] [] [] 0 false.

Definition turn_map (f : Options -> Options) (t : Turn) : Turn :=
  match t with Next o => Next (f o) | NextValue o => NextValue (f o) | Leave c => Leave c end.

Definition internalFlag (arg : bytes) : bool := internalValue arg || bool_decide (arg = str "--engine").

Lemma argTurn_erase arg v o : internalFlag arg = false -> argTurn arg v (erase o) = turn_map erase (argTurn arg v o).
Proof.
  unfold internalFlag, internalValue. cbn [existsb]. rewrite !orb_false_iff. intros H. destruct_and!. unfold argTurn.
  repeat match goal with He : bool_decide (arg = _) = false |- _ => rewrite He; clear He end. cbn [andb].
  repeat first [ case_if; [| try reflexivity] | reflexivity
    | match goal with |- context [match ?x with Some _ => _ | None => _ end] => destruct x end ].
Qed.

Lemma argTurn_internal arg v o :
  internalFlag arg = true ->
  match argTurn arg v o with
  | Next o' => arg = str "--engine" /\ erase o' = erase o
  | NextValue o' => internalValue arg = true /\ erase o' = erase o
  | Leave _ => True
  end.
Proof.
  unfold internalFlag. rewrite orb_true_iff. unfold internalValue. rewrite existsb_exists. intros [(s & Hs & He)|He]; zbool; subst arg.
  - cbn in Hs. repeat (destruct Hs as [<-|Hs]; [destruct v as [v|]; [|exact I] |]); [..|done];
      (unfold argTurn; cbn; try destruct (parseUnsigned v)); done.
  - by destruct v.
Qed.

(** The values of ordinary options are not themselves the name of an internal one. *)
Fixpoint ordinary (args : list bytes) : bool :=
  match args with
  | [] => true
  | arg :: rest =>
      if takesValue arg then
        match rest with
        | v :: rest' => (internalValue arg || negb (internalFlag v)) && ordinary rest'
        | [] => true
        end
      else ordinary rest
  end.

Lemma internalValue_takes arg : internalValue arg = true -> takesValue arg = true.
Proof.
  unfold internalValue. rewrite existsb_exists. intros (s & Hs & He). zbool. subst arg.
  cbn in Hs. repeat (destruct Hs as [<-|Hs]; [reflexivity |]). done.
Qed.

Lemma collect_parses n args o o' :
  (length args <= n)%nat -> ordinary args = true -> parseFrom args o = Parsed o' ->
  parseFrom (collectEngineArguments args) (erase o) = Parsed (erase o').
Proof.
  revert args o. induction n as [|n IH]; intros [|arg rest] o Hn; cbn [length] in Hn; try lia; try (by intros _ [= ->]).
  cbn [ordinary parseFrom collectEngineArguments]. intros Hord Hp.
  destruct (internalValue arg) eqn:Ei.
  - pose proof (argTurn_internal arg (head rest) o) as Ht. unfold internalFlag in Ht. rewrite Ei in Ht. specialize (Ht eq_refl).
    rewrite (internalValue_takes _ Ei) in Hord.
    destruct rest as [|v rest]; cbn [head] in *; [by rewrite (argTurn_value _ _ (internalValue_takes _ Ei)) in Hp |].
    apply andb_true_iff in Hord as [_ Hord]. cbn [length] in Hn.
    destruct (argTurn arg (Some v) o) as [o1|o1|] eqn:Ea; [|destruct Ht as [_ <-]; apply IH; [lia | done | done] | done].
    destruct Ht as [-> _]. done.
  - destruct (bool_decide (arg = str "--engine")) eqn:Ee.
    + pose proof (argTurn_internal arg (head rest) o) as Ht. unfold internalFlag in Ht. rewrite Ei, Ee in Ht. specialize (Ht eq_refl).
      zbool. subst arg. change (takesValue (str "--engine")) with false in Hord.
      destruct (argTurn _ _ o) as [o1|o1|] eqn:Ea; [|by destruct Ht | done]. destruct Ht as [_ <-]. apply IH; [lia | done | done].
    + assert (Hf : internalFlag arg = false) by (unfold internalFlag; by rewrite Ei, Ee).
      cbn [parseFrom]. destruct (takesValue arg) eqn:Et.
      * destruct rest as [|v rest]; cbn [head] in *; [by rewrite argTurn_value in Hp |].
        cbn [orb] in Hord. apply andb_true_iff in Hord as [Hv Hord]. apply negb_true_iff in Hv.
        unfold internalFlag in Hv. apply orb_false_iff in Hv as [Hv1 Hv2]. cbn [collectEngineArguments length] in *. rewrite Hv1, Hv2.
        cbn [head]. rewrite (argTurn_erase _ _ _ Hf).
        destruct (argTurn arg (Some v) o) as [o1|o1|] eqn:Ea; cbn [turn_map]; [|apply IH; [lia | done | done] | done].
        by destruct (argTurn_value_some arg v o o1 Et).
      * rewrite (proj1 (argTurn_flag arg _ (head rest) _ Et)), (argTurn_erase _ _ _ Hf).
        destruct (argTurn arg (head rest) o) as [o1|o1|] eqn:Ea; cbn [turn_map];
          [apply IH; [lia | done | done] | by destruct (proj2 (argTurn_flag arg (head rest) None o Et) o1) | done].
Qed.

Lemma quoteArgument_plain a : a <> [] -> existsb mustQuote a = false -> quoteArgument a = a.
Proof. intros Hn He. unfold quoteArgument. by rewrite bool_decide_eq_false_2, He. Qed.

Lemma quoteArgument_number n : 0 <= n < 2 ^ 64 -> quoteArgument (to_string n) = to_string n.
Proof.
  intros Hn. destruct (to_string_spec n Hn) as (Hd & Hne & _). apply quoteArgument_plain; [done |].
  apply not_true_is_false. rewrite existsb_exists. intros (c & Hc & Hq). rewrite Forall_forall in Hd.
  apply list_elem_of_In, Hd in Hc. unfold isdigit, mustQuote in *. apply existsb_exists in Hq as (x & Hx & He). cbn in Hx. zbool. lia.
Qed.

Lemma parseUnsigned_number n : 0 <= n < 2 ^ 32 -> parseUnsigned (to_string n) = Some n.
Proof.
  intros Hn. unfold parseUnsigned. pose proof (from_chars_to_string (2 ^ 32 - 1) n []) as H. rewrite app_nil_r in H.
  rewrite H; [done | lia | lia | done].
Qed.

Lemma relaunch_tail name pid :
  0 <= pid < 2 ^ 32 ->
  str " --shutdown-event " ++ quoteArgument name ++ str " --parent-pid " ++ to_string pid =
  appendArguments [str "--shutdown-event"; name; str "--parent-pid"; to_string pid].
Proof.
  intros Hp. unfold appendArguments. cbn [mbind list_bind]. rewrite (quoteArgument_number pid) by lia.
  rewrite (quoteArgument_plain (str "--shutdown-event")), (quoteArgument_plain (str "--parent-pid")) by done.
  rewrite app_nil_r, <- !app_assoc. reflexivity.
Qed.

(** ** What a parse guarantees *)

Definition options_ok (o : Options) : Prop :=
  1 <= port o <= 65535 /\ 0 <= splitDelayMs o <= 2000 /\ 0 <= parentPid o < 2 ^ 32 /\
  (forcedStrategy o = [] \/ is_Some (findProfile (forcedStrategy o))) /\
  Forall (λ p, 0 < zlen p <= 1024) (processInclude o ++ processExclude o).

Lemma parseUnsigned_range s n : parseUnsigned s = Some n -> 0 <= n < 2 ^ 32.
Proof.
  unfold parseUnsigned, from_chars. destruct s as [|c s]; [done |]. case_if; [|done].
  destruct (scan_digits (c :: s) 0) as [v rest] eqn:Es. case_if; [|done]. destruct rest; [|done]. intros [= <-]. zbool.
  split; [|lia]. assert (Hpos : forall s acc, 0 <= acc -> 0 <= (scan_digits s acc).1).
  { clear. induction s as [|c s IH]; intros acc Ha; cbn; [done |]. unfold isdigit. case_if; [|done]. zbool. apply IH. lia. }
  specialize (Hpos (c :: s) 0 ltac:(lia)). by rewrite Es in Hpos.
Qed.

Lemma validProcessPattern_spec p : validProcessPattern p = true -> 0 < zlen p <= 1024.
Proof. unfold validProcessPattern. intros H. zbool. lia. Qed.

Lemma argTurn_ok arg v o :
  options_ok o -> match argTurn arg v o with Next o' | NextValue o' => options_ok o' | Leave _ => True end.
Proof.
  intros Hok. pose proof Hok as (Hp & Hd & Hpid & Hs & Hr). unfold argTurn.
  assert (Happ : forall p, validProcessPattern p = true -> 0 < zlen p <= 1024) by apply validProcessPattern_spec.
  apply Forall_app in Hr as [Hi He].
  repeat first
    [ exact I | exact Hok
    | match goal with |- match (match ?x with Some _ => _ | None => _ end) with _ => _ end => destruct x eqn:? end
    | case_if ];
    unfold options_ok; cbn; try (split_and!; try done; try (by apply Forall_app)).
  all: repeat match goal with H : parseUnsigned _ = Some _ |- _ => apply parseUnsigned_range in H end; zbool.
  all: try (rewrite w16_small by lia); try lia.
  all: try (right; by eexists).
  all: rewrite !Forall_app, ?Forall_singleton in *; auto.
Qed.

Lemma parseFrom_ok n args o o' : (length args <= n)%nat -> options_ok o -> parseFrom args o = Parsed o' -> options_ok o'.
Proof.
  revert args o. induction n as [|n IH]; intros [|arg rest] o Hn Hok; cbn [length] in Hn; try lia; try (by intros [= <-]).
  cbn [parseFrom]. pose proof (argTurn_ok arg (head rest) o Hok) as Ht.
  destruct (argTurn arg (head rest) o); [by apply IH; [lia |] | | done].
  destruct rest as [|v rest]; cbn [length] in Hn; [by intros [= <-] |]. apply IH; [lia | done].
Qed.

Lemma parse_engine rest o : parseFrom (str "--engine" :: rest) o = parseFrom rest (set_engine true o).
Proof. done. Qed.
Lemma parse_shutdown v rest o :
  parseFrom (str "--shutdown-event" :: v :: rest) o = parseFrom rest (set_shutdownEventName v o).
Proof. done. Qed.
Lemma parse_ready v rest o : parseFrom (str "--ready-event" :: v :: rest) o = parseFrom rest (set_readyEventName v o).
Proof. done. Qed.
Lemma parse_live v rest o : parseFrom (str "--live-stats" :: v :: rest) o = parseFrom rest (set_liveStatsName v o).
Proof. done. Qed.
Lemma parse_pid n rest o :
  0 <= n < 2 ^ 32 -> parseFrom (str "--parent-pid" :: to_string n :: rest) o = parseFrom rest (set_parentPid n o).
Proof.
  intros Hn. assert (Ht : argTurn (str "--parent-pid") (Some (to_string n)) o = NextValue (set_parentPid n o)).
  { unfold argTurn. literals. rewrite bool_decide_eq_true_2 by done. cbn [default from_option id]. by rewrite parseUnsigned_number. }
  cbn [parseFrom head]. by rewrite Ht.
Qed.

(** ** Claims *)

Section Claims.
Context (scan : bool -> option bytes -> bytes -> list bytes).

(** arguments survive a command line: whatever they hold (blanks, quotes, backslashes
    before quotes or at the end, nothing at all), the process that receives the quoted
    command line and splits it by the documented rules gets exactly the list that was
    quoted, however the arguments were joined. *)
Theorem quoting_survives args :
  ArgvRules scan ->
  scan false None (appendArguments args) = args /\ scan false None (joinArguments args []) = args.
Proof.
  intros Hs. split; [apply append_survives |]. pose proof (join_survives args []) as H. by rewrite !app_nil_r in H.
Qed.

(** a process that restarts itself with administrator rights becomes the same program:
    the elevated process splits its parameters and parses the same options, plus the
    shutdown event and the process id of the one that waits for it. *)
Theorem relaunch_preserves args o name pid :
  ArgvRules scan -> parseArgs args = Parsed o -> 0 <= pid < 2 ^ 32 ->
  parseArgs (scan false None (relaunchParameters args name pid)) = Parsed (set_parentPid pid (set_shutdownEventName name o)).
Proof.
  intros Hs Ho Hp. unfold relaunchParameters. rewrite relaunch_tail, join_survives by done. unfold parseArgs.
  rewrite (parseFrom_app _ _ _ _ Ho). by rewrite parse_shutdown, parse_pid.
Qed.

(** the engine the tray starts runs with the options of the tray: what the tray passes
    on is split and parsed to the tray's own options, with the engine flag and the channels
    the tray created for it in place of any that were on its own command line; and the
    engine never becomes a second tray. The only restriction is that no option's value is
    itself spelled like one of the internal options. *)
Theorem engine_inherits args o shutdownName readyName pid liveStats :
  ArgvRules scan -> parseArgs args = Parsed o -> ordinary args = true -> 0 <= pid < 2 ^ 32 ->
  let o' := withInternal shutdownName readyName liveStats pid true o in
  parseArgs (scan false None (appendArguments
    (engineCommand (collectEngineArguments args) shutdownName readyName pid liveStats))) = Parsed o' /\
  shouldRunTray o' = false.
Proof.
  intros Hs Ho Hord Hp. rewrite append_survives. split; [|done]. unfold engineCommand, parseArgs.
  rewrite (parseFrom_app _ _ newOptions (erase o)) by (by apply (collect_parses (length args) args newOptions)).
  by rewrite parse_engine, parse_shutdown, parse_ready, parse_pid, parse_live.
Qed.
End Claims.

(** Options that were accepted are in range: the port, the delay and the process id; a forced
    strategy exists; no process pattern is empty or longer than the filter takes. *)
Theorem parseArgs_bounds args o : parseArgs args = Parsed o -> options_ok o.
Proof.
  apply (parseFrom_ok (length args)); [done |]. unfold options_ok. cbn. split_and!; try lia; try done. by left.
Qed.

Definition sample_args : list bytes :=
  [str "--worker"; str "https://x y"; str "--ready-event"; str "--engine"; str "--include-process"; str "C:\a b\"; str "--quic-mode"; str "block"].
Definition sample_options : Options :=
  match parseArgs sample_args with Parsed o => o | Exit _ => newOptions end.

Lemma quoting_survives_witness :
  splitArguments false None (appendArguments [str "a b\"; []; [92; 34]; str "c"]) = [str "a b\"; []; [92; 34]; str "c"].
Proof. exact (proj1 (quoting_survives splitArguments [str "a b\"; []; [92; 34]; str "c"] splitArguments_rules)). Defined.

Lemma relaunch_preserves_witness :
  parseArgs (splitArguments false None (relaunchParameters sample_args (str "Local\e") 4242)) =
  Parsed (set_parentPid 4242 (set_shutdownEventName (str "Local\e") sample_options)).
Proof. apply (relaunch_preserves splitArguments); [exact splitArguments_rules | reflexivity | lia]. Defined.

Lemma engine_inherits_witness :
  parseArgs (splitArguments false None (appendArguments
    (engineCommand (collectEngineArguments sample_args) (str "s") (str "r") 7 (str "l")))) =
  Parsed (withInternal (str "s") (str "r") (str "l") 7 true sample_options).
Proof.
  apply (engine_inherits splitArguments sample_args); [exact splitArguments_rules | reflexivity | reflexivity | lia].
Defined.

Lemma parseArgs_bounds_witness : options_ok sample_options.
Proof. apply (parseArgs_bounds sample_args). reflexivity. Defined.
