(* ===== verification/TrayApp.v ===== *)
(** * TrayApp: the tray that owns the engine

    Models the controller in [src/src/TrayApp.hpp] and [src/src/TrayApp.cpp] and
    [src/src/EngineExitCodes.hpp]: the state of the engine, starting and stopping it, the
    timer that watches it, restarts after a failure ([RecoveryPolicy.RestartBudget]),
    restarts for a new configuration, the setup process, and what each window message does.
    Every handler is a [Calls.Sys] program over the system calls [Os]; its state is the
    record [TrayApp]. The command line of the engine is the one of [CommandLine].

    The icon, the texts of the balloons, the menu, the dashboard window and the scheduled
    task are not modelled.

    The ledger [Books] keeps what the calls amount to: the handles that are open, the engine
    that runs, how many engines were started. The theorems: the tray never touches or closes
    a handle it does not hold, never runs two engines, and leaves nothing open
    ([tray_handles_safe]); an engine the user stopped stays stopped ([stop_is_final]);
    without the user, at most three engines are started in ten minutes
    ([restarts_bounded]); an engine that hangs is killed at the first poll after ten seconds
    ([hung_engine_killed]). *)

From S2P Require Import Prelude Calls RecoveryPolicy CommandLine Config.

(** ** Exit codes of the engine *)

Definition kRelayPortInUse : Z := 10.
Definition kDnsRelayPortInUse : Z := 11.
Definition kWinDivertOpenFailed : Z := 12.
Definition kInvalidProcessRules : Z := 13.
Definition kSetupRequired : Z := 14.
Definition kMonitorUnavailable : Z := 15.
Definition kConfigUnreadable : Z := 16.
Definition kDllNotFound : Z := 0xC0000135.

Definition needsUserAction (code : Z) : bool :=
  (code =? kWinDivertOpenFailed) || (code =? kInvalidProcessRules) || (code =? kSetupRequired) ||
  (code =? kConfigUnreadable) || (code =? kDllNotFound).

(** ** State *)

Inductive EngineState := Stopped | Starting | Running | Stopping | Failed.
#[export] Instance EngineState_eq_dec : EqDecision EngineState.
Proof. solve_decision. Defined.

Definition kEngineTransitionTimeoutMs : Z := 10000.
Definition kEngineKilledExitCode : Z := 0xDEAD0001.

Record TrayApp := mkTrayApp {
  engineArguments_ : list bytes;
  liveStatsName_ : bytes;
  canStart_ : bool;
  startupEnabled_ : bool;
  exiting_ : bool;
  restartPending_ : bool;
  configurationRestartPending_ : bool;
  engineKilled_ : bool;
  restartAtMs_ : Z;
  stateSinceMs_ : Z;
  restartBudget_ : RestartBudget;
  state_ : EngineState;
  window_ : bool;
  engineProcess_ : option Z;
  shutdownEvent_ : option Z;
  readyEvent_ : option Z;
  setupProcess_ : option Z;
  setupWantsWorker_ : bool;
}.

(** [field = v] *)
Definition set_canStart_ (v : bool) (t : TrayApp) : TrayApp :=
  mkTrayApp (engineArguments_ t) (liveStatsName_ t) v (startupEnabled_ t) (exiting_ t) (restartPending_ t) (configurationRestartPending_ t) (engineKilled_ t) (restartAtMs_ t) (stateSinceMs_ t) (restartBudget_ t) (state_ t) (window_ t) (engineProcess_ t) (shutdownEvent_ t) (readyEvent_ t) (setupProcess_ t) (setupWantsWorker_ t).
Definition set_startupEnabled_ (v : bool) (t : TrayApp) : TrayApp :=
  mkTrayApp (engineArguments_ t) (liveStatsName_ t) (canStart_ t) v (exiting_ t) (restartPending_ t) (configurationRestartPending_ t) (engineKilled_ t) (restartAtMs_ t) (stateSinceMs_ t) (restartBudget_ t) (state_ t) (window_ t) (engineProcess_ t) (shutdownEvent_ t) (readyEvent_ t) (setupProcess_ t) (setupWantsWorker_ t).
Definition set_exiting_ (v : bool) (t : TrayApp) : TrayApp :=
  mkTrayApp (engineArguments_ t) (liveStatsName_ t) (canStart_ t) (startupEnabled_ t) v (restartPending_ t) (configurationRestartPending_ t) (engineKilled_ t) (restartAtMs_ t) (stateSinceMs_ t) (restartBudget_ t) (state_ t) (window_ t) (engineProcess_ t) (shutdownEvent_ t) (readyEvent_ t) (setupProcess_ t) (setupWantsWorker_ t).
Definition set_restartPending_ (v : bool) (t : TrayApp) : TrayApp :=
  mkTrayApp (engineArguments_ t) (liveStatsName_ t) (canStart_ t) (startupEnabled_ t) (exiting_ t) v (configurationRestartPending_ t) (engineKilled_ t) (restartAtMs_ t) (stateSinceMs_ t) (restartBudget_ t) (state_ t) (window_ t) (engineProcess_ t) (shutdownEvent_ t) (readyEvent_ t) (setupProcess_ t) (setupWantsWorker_ t).
Definition set_configurationRestartPending_ (v : bool) (t : TrayApp) : TrayApp :=
  mkTrayApp (engineArguments_ t) (liveStatsName_ t) (canStart_ t) (startupEnabled_ t) (exiting_ t) (restartPending_ t) v (engineKilled_ t) (restartAtMs_ t) (stateSinceMs_ t) (restartBudget_ t) (state_ t) (window_ t) (engineProcess_ t) (shutdownEvent_ t) (readyEvent_ t) (setupProcess_ t) (setupWantsWorker_ t).
Definition set_engineKilled_ (v : bool) (t : TrayApp) : TrayApp :=
  mkTrayApp (engineArguments_ t) (liveStatsName_ t) (canStart_ t) (startupEnabled_ t) (exiting_ t) (restartPending_ t) (configurationRestartPending_ t) v (restartAtMs_ t) (stateSinceMs_ t) (restartBudget_ t) (state_ t) (window_ t) (engineProcess_ t) (shutdownEvent_ t) (readyEvent_ t) (setupProcess_ t) (setupWantsWorker_ t).
Definition set_restartAtMs_ (v : Z) (t : TrayApp) : TrayApp :=
  mkTrayApp (engineArguments_ t) (liveStatsName_ t) (canStart_ t) (startupEnabled_ t) (exiting_ t) (restartPending_ t) (configurationRestartPending_ t) (engineKilled_ t) v (stateSinceMs_ t) (restartBudget_ t) (state_ t) (window_ t) (engineProcess_ t) (shutdownEvent_ t) (readyEvent_ t) (setupProcess_ t) (setupWantsWorker_ t).
Definition set_stateSinceMs_ (v : Z) (t : TrayApp) : TrayApp :=
  mkTrayApp (engineArguments_ t) (liveStatsName_ t) (canStart_ t) (startupEnabled_ t) (exiting_ t) (restartPending_ t) (configurationRestartPending_ t) (engineKilled_ t) (restartAtMs_ t) v (restartBudget_ t) (state_ t) (window_ t) (engineProcess_ t) (shutdownEvent_ t) (readyEvent_ t) (setupProcess_ t) (setupWantsWorker_ t).
Definition set_restartBudget_ (v : RestartBudget) (t : TrayApp) : TrayApp :=
  mkTrayApp (engineArguments_ t) (liveStatsName_ t) (canStart_ t) (startupEnabled_ t) (exiting_ t) (restartPending_ t) (configurationRestartPending_ t) (engineKilled_ t) (restartAtMs_ t) (stateSinceMs_ t) v (state_ t) (window_ t) (engineProcess_ t) (shutdownEvent_ t) (readyEvent_ t) (setupProcess_ t) (setupWantsWorker_ t).
Definition set_state_ (v : EngineState) (t : TrayApp) : TrayApp :=
  mkTrayApp (engineArguments_ t) (liveStatsName_ t) (canStart_ t) (startupEnabled_ t) (exiting_ t) (restartPending_ t) (configurationRestartPending_ t) (engineKilled_ t) (restartAtMs_ t) (stateSinceMs_ t) (restartBudget_ t) v (window_ t) (engineProcess_ t) (shutdownEvent_ t) (readyEvent_ t) (setupProcess_ t) (setupWantsWorker_ t).
Definition set_window_ (v : bool) (t : TrayApp) : TrayApp :=
  mkTrayApp (engineArguments_ t) (liveStatsName_ t) (canStart_ t) (startupEnabled_ t) (exiting_ t) (restartPending_ t) (configurationRestartPending_ t) (engineKilled_ t) (restartAtMs_ t) (stateSinceMs_ t) (restartBudget_ t) (state_ t) v (engineProcess_ t) (shutdownEvent_ t) (readyEvent_ t) (setupProcess_ t) (setupWantsWorker_ t).
Definition set_engineProcess_ (v : option Z) (t : TrayApp) : TrayApp :=
  mkTrayApp (engineArguments_ t) (liveStatsName_ t) (canStart_ t) (startupEnabled_ t) (exiting_ t) (restartPending_ t) (configurationRestartPending_ t) (engineKilled_ t) (restartAtMs_ t) (stateSinceMs_ t) (restartBudget_ t) (state_ t) (window_ t) v (shutdownEvent_ t) (readyEvent_ t) (setupProcess_ t) (setupWantsWorker_ t).
Definition set_shutdownEvent_ (v : option Z) (t : TrayApp) : TrayApp :=
  mkTrayApp (engineArguments_ t) (liveStatsName_ t) (canStart_ t) (startupEnabled_ t) (exiting_ t) (restartPending_ t) (configurationRestartPending_ t) (engineKilled_ t) (restartAtMs_ t) (stateSinceMs_ t) (restartBudget_ t) (state_ t) (window_ t) (engineProcess_ t) v (readyEvent_ t) (setupProcess_ t) (setupWantsWorker_ t).
Definition set_readyEvent_ (v : option Z) (t : TrayApp) : TrayApp :=
  mkTrayApp (engineArguments_ t) (liveStatsName_ t) (canStart_ t) (startupEnabled_ t) (exiting_ t) (restartPending_ t) (configurationRestartPending_ t) (engineKilled_ t) (restartAtMs_ t) (stateSinceMs_ t) (restartBudget_ t) (state_ t) (window_ t) (engineProcess_ t) (shutdownEvent_ t) v (setupProcess_ t) (setupWantsWorker_ t).
Definition set_setupProcess_ (v : option Z) (t : TrayApp) : TrayApp :=
  mkTrayApp (engineArguments_ t) (liveStatsName_ t) (canStart_ t) (startupEnabled_ t) (exiting_ t) (restartPending_ t) (configurationRestartPending_ t) (engineKilled_ t) (restartAtMs_ t) (stateSinceMs_ t) (restartBudget_ t) (state_ t) (window_ t) (engineProcess_ t) (shutdownEvent_ t) (readyEvent_ t) v (setupWantsWorker_ t).
Definition set_setupWantsWorker_ (v : bool) (t : TrayApp) : TrayApp :=
  mkTrayApp (engineArguments_ t) (liveStatsName_ t) (canStart_ t) (startupEnabled_ t) (exiting_ t) (restartPending_ t) (configurationRestartPending_ t) (engineKilled_ t) (restartAtMs_ t) (stateSinceMs_ t) (restartBudget_ t) (state_ t) (window_ t) (engineProcess_ t) (shutdownEvent_ t) (readyEvent_ t) (setupProcess_ t) v.

(** The constructor; [restartBudget_] has its default limits. *)
Definition newTrayApp (engineArguments : list bytes) (liveStatsName : bytes) (canStart : bool) : TrayApp :=
  mkTrayApp engineArguments liveStatsName canStart false false false false false 0 0
    (newRestartBudget kMaxAutomaticRestarts kRestartWindowMs) Stopped true None None None None false.

(** ** System calls *)

Inductive Level := Info | Warning_ | Error_.

Inductive Os :=
  | Tick                                        (* GetTickCount64 *)
  | CurrentProcessId
  | ExecutablePath                              (* empty: unknown *)
  | CreateEvent (name : bytes)
  | CreateProcess (engine : bool) (commandLine : bytes)  (* the process and its first thread *)
  | CloseHandle (h : Z)
  | SetEvent (h : Z)
  | Signaled (h : Z)                            (* WaitForSingleObject(h, 0) == WAIT_OBJECT_0 *)
  | ExitCode (h : Z)
  | TerminateProcess (h : Z) (code : Z)
  | LoadConfig
  | SaveConfig (c : Config)
  | Balloon (level : Level)
  | DestroyWindow.

Definition Answer (c : Os) : Type :=
  match c with
  | Tick | CurrentProcessId | ExitCode _ => Z
  | ExecutablePath => bytes
  | CreateEvent _ => option Z
  | CreateProcess _ _ => option (Z * Z)
  | Signaled _ | SaveConfig _ => bool
  | LoadConfig => Config
  | _ => unit
  end.

Definition Tray (A : Type) : Type := Sys Answer A.
#[export] Instance tray_ret : MRet Tray := λ A, Done.
#[export] Instance tray_bind : MBind Tray := λ A B, sys_bind.
Definition os (c : Os) : Tray (Answer c) := call c.

(** ** Operations *)

Definition uniqueEventName (purpose : bytes) : Tray bytes :=
  pid ← os CurrentProcessId; tick ← os Tick;
  mret (str "Local\SplitHello-" ++ purpose ++ str "-" ++ to_string pid ++ str "-" ++ to_string tick).

Definition setState (s : EngineState) (t : TrayApp) : Tray TrayApp :=
  t ← (if bool_decide (state_ t = s) then mret t else now ← os Tick; mret (set_stateSinceMs_ now t));
  mret (set_state_ s t).

(** [if (handle) CloseHandle(handle);] *)
Definition closeIf (h : option Z) : Tray unit :=
  match h with Some h => os (CloseHandle h) | None => mret () end.

Definition closeEngineHandles (t : TrayApp) : Tray TrayApp :=
  _ ← closeIf (engineProcess_ t); _ ← closeIf (shutdownEvent_ t); _ ← closeIf (readyEvent_ t);
  mret (set_engineKilled_ false (set_readyEvent_ None (set_shutdownEvent_ None (set_engineProcess_ None t)))).

(** [DestroyWindow] runs the handler of [WM_DESTROY]. *)
Definition destroyWindow (t : TrayApp) : Tray TrayApp := _ ← os DestroyWindow; mret (set_window_ false t).

Definition clearRestart (t : TrayApp) : TrayApp := set_restartAtMs_ 0 (set_restartPending_ false t).

Definition startFailed (t : TrayApp) : Tray TrayApp :=
  t ← setState Failed t; _ ← os (Balloon Error_); mret t.

Definition startEngine (automatic : bool) (t : TrayApp) : Tray TrayApp :=
  if negb (canStart_ t) || bool_decide (is_Some (engineProcess_ t)) then mret t else
  let t := set_engineKilled_ false (clearRestart t) in
  let t := if negb automatic then set_restartBudget_ (reset (restartBudget_ t)) t else t in
  executable ← os ExecutablePath;
  if bool_decide (executable = []) then startFailed t else
  shutdownName ← uniqueEventName (str "shutdown");
  readyName ← uniqueEventName (str "ready");
  shutdown ← os (CreateEvent shutdownName);
  let t := set_shutdownEvent_ shutdown t in
  ready ← os (CreateEvent readyName);
  let t := set_readyEvent_ ready t in
  if bool_decide (shutdown = None) || bool_decide (ready = None) then
    t ← closeEngineHandles t; startFailed t
  else
  pid ← os CurrentProcessId;
  let arguments := engineCommand (engineArguments_ t) shutdownName readyName pid (liveStatsName_ t) in
  process ← os (CreateProcess true (quoteArgument executable ++ appendArguments arguments));
  match process with
  | None => t ← closeEngineHandles t; startFailed t
  | Some (hProcess, hThread) =>
      _ ← os (CloseHandle hThread);
      setState Starting (set_engineProcess_ (Some hProcess) t)
  end.

Definition requestStop (t : TrayApp) : Tray TrayApp :=
  if restartPending_ t then
    t ← setState Stopped (clearRestart t); _ ← os (Balloon Info); mret t
  else
  match engineProcess_ t with
  | None => mret t
  | Some _ =>
      t ← (if bool_decide (state_ t = Stopping) then mret t else setState Stopping t);
      _ ← (match shutdownEvent_ t with Some h => os (SetEvent h) | None => mret () end);
      mret t
  end.

Definition requestExit (t : TrayApp) : Tray TrayApp :=
  let t := set_configurationRestartPending_ false (clearRestart (set_exiting_ true t)) in
  if bool_decide (is_Some (engineProcess_ t)) then requestStop t else destroyWindow t.

Definition restartEngineForConfiguration (t : TrayApp) : Tray TrayApp :=
  if exiting_ t || negb (canStart_ t) then mret t else
  match state_ t with
  | Stopped | Stopping => mret t
  | Starting | Running => requestStop (set_configurationRestartPending_ true (clearRestart t))
  | Failed =>
      let t := clearRestart t in
      if bool_decide (engineProcess_ t = None) then startEngine false t else mret t
  end.

Definition launchSetup (wantWorkerMode : bool) (t : TrayApp) : Tray TrayApp :=
  if bool_decide (is_Some (setupProcess_ t)) then _ ← os (Balloon Info); mret t else
  executable ← os ExecutablePath;
  if bool_decide (executable = []) then _ ← os (Balloon Error_); mret t else
  process ← os (CreateProcess false (quoteArgument executable ++ str " --setup-only"));
  match process with
  | None => _ ← os (Balloon Error_); mret t
  | Some (hProcess, hThread) =>
      _ ← os (CloseHandle hThread);
      mret (set_setupWantsWorker_ wantWorkerMode (set_setupProcess_ (Some hProcess) t))
  end.

Definition withDnsMode (mode : DnsMode) (c : Config) : Config :=
  mkConfig (apiToken c) (accountId c) (workerName c) (Config.workerUrl c) (sharedSecret c) mode (Config.splitDelayMs c)
    (probeTimeoutMs c) (Config.tunnelFallback c) (Config.processInclude c) (Config.processExclude c)
    (migratedFromPlaintext c) (legacyApiTokenPresent c) (sharedSecretBlob c) (loadFailed c) (processIncludeInvalid c).

(** What follows a setup that succeeded. *)
Definition afterSetup (c : Config) (t : TrayApp) : Tray TrayApp :=
  let t := set_canStart_ (isValid c) t in
  _ ← os (Balloon Info);
  if negb (canStart_ t) then mret t
  else if bool_decide (engineProcess_ t = None) && (bool_decide (state_ t = Stopped) || bool_decide (state_ t = Failed))
  then startEngine false t
  else restartEngineForConfiguration t.

Definition pollSetup (t : TrayApp) : Tray TrayApp :=
  match setupProcess_ t with
  | None => mret t
  | Some h =>
      ended ← os (Signaled h);
      if negb ended then mret t else
      exitCode ← os (ExitCode h);
      _ ← os (CloseHandle h);
      let t := set_setupProcess_ None t in
      if exiting_ t then mret t else
      config ← os LoadConfig;
      if negb (exitCode =? 0) || loadFailed config || bool_decide (Config.workerUrl config = [])
      then _ ← os (Balloon Warning_); mret t
      else if setupWantsWorker_ t && negb (bool_decide (dnsMode config = DnsWorker)) then
        let config := withDnsMode DnsWorker config in
        saved ← os (SaveConfig config);
        if (negb saved : bool) then _ ← os (Balloon Error_); mret t else afterSetup config t
      else afterSetup config t
  end.

Definition scheduleAutomaticRestart (nowMs : Z) (t : TrayApp) : Tray TrayApp :=
  t ← setState Failed t;
  let '(attempt, budget) := consume (restartBudget_ t) nowMs in
  let t := set_restartBudget_ budget t in
  if attempt =? 0 then _ ← os (Balloon Error_); mret t
  else
    let t := set_restartAtMs_ (w64 (nowMs + automaticRestartDelayMs attempt)) (set_restartPending_ true t) in
    _ ← os (Balloon Warning_); mret t.

Definition handleEngineExit (exitCode nowMs : Z) (t : TrayApp) : Tray TrayApp :=
  let expected := bool_decide (state_ t = Stopping) || exiting_ t in
  t ← closeEngineHandles t;
  if exiting_ t then destroyWindow t
  else if (expected : bool) then
    if configurationRestartPending_ t then
      t ← setState Stopped (set_configurationRestartPending_ false t);
      startEngine false t
    else
      t ← setState Stopped t; _ ← os (Balloon Info); mret t
  else if exitCode =? kWorkerUnavailableExitCode then
    t ← setState Failed (clearRestart t); _ ← os (Balloon Warning_); mret t
  else if needsUserAction exitCode then
    t ← setState Failed (clearRestart t); _ ← os (Balloon Error_); mret t
  else scheduleAutomaticRestart nowMs t.

(** The parts of [pollEngine] for an engine that exists: it got ready, it hangs, it ended. *)
Definition noteReady (t : TrayApp) : Tray TrayApp :=
  match bool_decide (state_ t = Starting), readyEvent_ t with
  | true, Some r =>
      ready ← os (Signaled r);
      if (ready : bool) then t ← setState Running t; _ ← os (Balloon Info); mret t else mret t
  | _, _ => mret t
  end.

Definition killHung (h nowMs : Z) (t : TrayApp) : Tray TrayApp :=
  if negb (engineKilled_ t) && (bool_decide (state_ t = Starting) || bool_decide (state_ t = Stopping)) &&
     (kEngineTransitionTimeoutMs <=? w64 (nowMs - stateSinceMs_ t))
  then
    ended ← os (Signaled h);
    if (negb ended : bool) then
      _ ← os (TerminateProcess h kEngineKilledExitCode); mret (set_engineKilled_ true t)
    else mret t
  else mret t.

Definition reapEngine (h nowMs : Z) (t : TrayApp) : Tray TrayApp :=
  ended ← os (Signaled h);
  if negb ended then mret t else
  exitCode ← os (ExitCode h);
  handleEngineExit exitCode nowMs t.

Definition watchEngine (h nowMs : Z) (t : TrayApp) : Tray TrayApp :=
  t ← noteReady t; t ← killHung h nowMs t; reapEngine h nowMs t.

Definition pollEngine (t : TrayApp) : Tray TrayApp :=
  t ← pollSetup t;
  nowMs ← os Tick;
  match engineProcess_ t with
  | None =>
      if restartPending_ t && (restartAtMs_ t <=? nowMs) then startEngine true t else mret t
  | Some h => watchEngine h nowMs t
  end.

Definition setDnsMode (mode : DnsMode) (t : TrayApp) : Tray TrayApp :=
  config ← os LoadConfig;
  if loadFailed config then _ ← os (Balloon Error_); mret t
  else if bool_decide (dnsMode config = mode) then mret t
  else if bool_decide (mode = DnsWorker) && bool_decide (Config.workerUrl config = []) then
    _ ← os (Balloon Warning_); launchSetup true t
  else
    let config := withDnsMode mode config in
    saved ← os (SaveConfig config);
    if (negb saved : bool) then _ ← os (Balloon Error_); mret t
    else restartEngineForConfiguration (set_canStart_ (isValid config) t).

(** ** Messages *)

Inductive StartupResult := StartupOk | StartupFailed | UnsafeLocation.

Inductive Message :=
  | Timer
  | CommandStart | CommandStop | CommandDnsWorker | CommandDnsSystem | CommandSetup | CommandExit
  | StartupQueried (enabled : bool)
  | StartupChanged (result : StartupResult) (target : bool)
  | EndSession (ending : bool) | Close
  | ConfigurationChanged      (* the callback of the dashboard *)
  | Ignored.                  (* messages that leave this state alone *)

Definition handleMessage (m : Message) (t : TrayApp) : Tray TrayApp :=
  match m with
  | Timer => pollEngine t
  | CommandStart => startEngine false t
  | CommandStop => requestStop (set_configurationRestartPending_ false t)
  | CommandDnsWorker => setDnsMode DnsWorker t
  | CommandDnsSystem => setDnsMode DnsSystem t
  | CommandSetup => launchSetup true t
  | CommandExit | Close => requestExit t
  | StartupQueried enabled => mret (set_startupEnabled_ enabled t)
  | StartupChanged StartupOk target => _ ← os (Balloon Info); mret (set_startupEnabled_ target t)
  | StartupChanged UnsafeLocation _ => _ ← os (Balloon Warning_); mret t
  | StartupChanged StartupFailed _ => _ ← os (Balloon Error_); mret t
  | EndSession ending => if ending then requestExit t else mret t
  | ConfigurationChanged => restartEngineForConfiguration t
  | Ignored => mret t
  end.

(** The message loop: until the window is gone. *)
Fixpoint messageLoop (messages : list Message) (t : TrayApp) : Tray TrayApp :=
  match messages with
  | [] => mret t
  | m :: messages => if window_ t then t ← handleMessage m t; messageLoop messages t else mret t
  end.

Definition trayStart (t : TrayApp) : Tray TrayApp :=
  if canStart_ t then startEngine false t else _ ← os (Balloon Warning_); launchSetup true t.

(** The destructor. *)
Definition trayEnd (t : TrayApp) : Tray TrayApp :=
  t ← closeEngineHandles t;
  _ ← closeIf (setupProcess_ t);
  let t := set_setupProcess_ None t in
  if window_ t then destroyWindow t else mret t.

Definition trayRun (messages : list Message) (t : TrayApp) : Tray TrayApp :=
  t ← trayStart t; t ← messageLoop messages t; trayEnd t.

(** ** What the calls amount to *)

Record Books := mkBooks {
  open : list Z;              (* handles of this process *)
  engine_ : option Z;         (* the engine that was started and not yet closed *)
  starts : Z;                 (* engines started so far *)
  clock : Z;                  (* the last reading *)
}.

(** A handle is used only while it is open; at most one engine. *)
Definition legal (b : Books) (c : Os) : Prop :=
  match c with
  | CloseHandle h | SetEvent h | Signaled h | ExitCode h => h ∈ open b
  | TerminateProcess h _ => engine_ b = Some h
  | CreateProcess true _ => engine_ b = None
  | _ => True
  end.

Section Horizon.
(** Clock readings do not go back and stay below [horizon]; handles are fresh. *)
Variable horizon : Z.

Definition answers (b : Books) (c : Os) : Answer c -> Prop :=
  match c return Answer c -> Prop with
  | Tick => λ r, clock b <= r < horizon
  | CreateEvent _ => λ r, forall h, r = Some h -> h ∉ open b
  | CreateProcess _ _ => λ r, forall p t, r = Some (p, t) -> (p ∉ open b) /\ (t ∉ open b) /\ p <> t
  | _ => λ _, True
  end.

Definition after (b : Books) (c : Os) : Answer c -> Books :=
  match c return Answer c -> Books with
  | Tick => λ r, mkBooks (open b) (engine_ b) (starts b) r
  | CreateEvent _ => λ r, mkBooks (option_list r ++ open b) (engine_ b) (starts b) (clock b)
  | CreateProcess e _ => λ r,
      match r with
      | None => b
      | Some (p, t) => mkBooks (t :: p :: open b) (if e then Some p else engine_ b) (if e then starts b + 1 else starts b) (clock b)
      end
  | CloseHandle h => λ _,
      mkBooks (filter (λ x, x <> h) (open b)) (if bool_decide (engine_ b = Some h) then None else engine_ b) (starts b) (clock b)
  | _ => λ _, b
  end.

Notation wpt := (wps legal answers after).

(** ** The tray and its books *)

Definition held (t : TrayApp) : list Z :=
  option_list (engineProcess_ t) ++ option_list (shutdownEvent_ t) ++ option_list (readyEvent_ t) ++ option_list (setupProcess_ t).

(** The open handles are those in the fields, each in one field. *)
Record balanced (t : TrayApp) (b : Books) : Prop := {
  bal_open : open b ≡ₚ held t;
  bal_nodup : NoDup (open b);
  bal_engine : engine_ b = engineProcess_ t;
}.

(** The state of the engine fits the handles. *)
Definition shape (t : TrayApp) : Prop :=
  match engineProcess_ t with
  | Some _ => is_Some (shutdownEvent_ t) /\ is_Some (readyEvent_ t) /\ restartPending_ t = false /\
              (state_ t = Starting \/ state_ t = Running \/ state_ t = Stopping)
  | None => shutdownEvent_ t = None /\ readyEvent_ t = None /\
            (window_ t = true -> state_ t = Stopped \/ state_ t = Failed) /\ (restartPending_ t = true -> state_ t = Failed)
  end.

(** What an operation on the engine leaves alone. *)
Definition framed (t t' : TrayApp) : Prop :=
  canStart_ t' = canStart_ t /\ exiting_ t' = exiting_ t /\ window_ t' = window_ t /\ setupProcess_ t' = setupProcess_ t /\
  configurationRestartPending_ t' = configurationRestartPending_ t.

Lemma close_perm (l rest : list Z) h : l ≡ₚ h :: rest -> NoDup l -> filter (λ x, x <> h) l ≡ₚ rest /\ NoDup (filter (λ x, x <> h) l).
Proof.
  intros Hp Hn. split; [|by apply NoDup_filter]. rewrite Hp in Hn. apply NoDup_cons in Hn as [Hh _]. rewrite Hp.
  rewrite filter_cons_False by (intros Hx; by apply Hx). clear Hp l. induction rest as [|x rest IH]; [done |].
  apply not_elem_of_cons in Hh as [Hx Hh]. rewrite filter_cons_True by congruence. by rewrite IH.
Qed.

Lemma wp_closeIf o rest b Q :
  open b ≡ₚ option_list o ++ rest -> NoDup (open b) ->
  (forall l, l ≡ₚ rest -> NoDup l ->
     Q tt (mkBooks l (if bool_decide (engine_ b = o) then None else engine_ b) (starts b) (clock b))) ->
  wpt (closeIf o) b Q.
Proof.
  intros Hp Hn HQ. destruct o as [h|]; cbn [closeIf wps os call].
  - split; [cbn; rewrite Hp; by left |]. intros [] _. destruct (close_perm _ _ _ Hp Hn) as [H1 H2]. by apply HQ.
  - destruct b as [l e s c]. cbn in *. specialize (HQ l Hp Hn). case_bool_decide as He; by rewrite ?He.
Qed.

Lemma wp_closeEngineHandles t b Q :
  balanced t b ->
  (forall b', let t' := set_engineKilled_ false (set_readyEvent_ None (set_shutdownEvent_ None (set_engineProcess_ None t))) in
     balanced t' b' -> starts b' = starts b -> clock b' = clock b -> Q t' b') ->
  wpt (closeEngineHandles t) b Q.
Proof.
  intros [Hp Hn He] HQ. unfold held in Hp. apply wps_bind. eapply wp_closeIf; [exact Hp | done |]. intros l1 Hp1 Hn1.
  apply wps_bind. eapply wp_closeIf; [exact Hp1 | done |]. intros l2 Hp2 Hn2.
  apply wps_bind. eapply wp_closeIf; [exact Hp2 | done |]. intros l3 Hp3 Hn3. cbn [engine_ starts clock].
  apply HQ; [|done | done]. split; [exact Hp3 | exact Hn3 |]. cbn. rewrite He.
  rewrite (bool_decide_eq_true_2 (engineProcess_ t = engineProcess_ t)) by done. by repeat case_bool_decide.
Qed.

Lemma wp_setState s t b Q :
  (forall since c, clock b <= c -> (state_ t = s -> since = stateSinceMs_ t) -> (state_ t <> s -> since = c) ->
     Q (set_state_ s (set_stateSinceMs_ since t)) (mkBooks (open b) (engine_ b) (starts b) c)) ->
  wpt (setState s t) b Q.
Proof.
  intros HQ. apply wps_bind. case_bool_decide as Hs.
  - cbn [wps mret tray_ret]. specialize (HQ (stateSinceMs_ t) (clock b)). destruct t, b. apply HQ; [lia | done | done].
  - cbn [wps mbind tray_bind sys_bind os call]. split; [done |]. intros r [Hr _]. by apply HQ.
Qed.

(** Fields that the books do not mention. *)
Lemma balanced_set t t' b b' :
  balanced t b -> open b' = open b -> engine_ b' = engine_ b -> held t' = held t -> engineProcess_ t' = engineProcess_ t -> balanced t' b'.
Proof. intros [H1 H2 H3] Ho He Hh Hp. split; rewrite ?Ho, ?He, ?Hh, ?Hp; done. Qed.

Lemma wp_startFailed t b Q :
  balanced t b ->
  (forall since b', let t' := set_state_ Failed (set_stateSinceMs_ since t) in
     balanced t' b' -> starts b' = starts b -> clock b <= clock b' -> Q t' b') ->
  wpt (startFailed t) b Q.
Proof.
  intros Hb HQ. apply wps_bind, wp_setState. intros since c Hc _ _. cbn [wps mbind tray_bind sys_bind os call].
  split; [done |]. intros [] _. apply HQ; [|done | done].
  by eapply balanced_set; [exact Hb | ..].
Qed.

Lemma wp_os {A} (c : Os) (k : Answer c -> Tray A) b Q :
  legal b c -> (forall r, answers b c r -> wpt (k r) (after b c r) Q) -> wpt (os c ≫= k) b Q.
Proof. intros Hl Hk. by split. Qed.

(** Calls that leave the books alone. *)
Lemma wp_quiet {A} (c : Os) (k : Answer c -> Tray A) b Q :
  (match c with CurrentProcessId | ExecutablePath | LoadConfig | SaveConfig _ | Balloon _ | DestroyWindow => True | _ => False end) ->
  (forall r, wpt (k r) b Q) -> wpt (os c ≫= k) b Q.
Proof. intros Hc Hk. apply wp_os; [by destruct c |]. intros r _. destruct c; try done; apply Hk. Qed.

Lemma wp_uniqueEventName {A} purpose (k : bytes -> Tray A) b Q :
  (forall name c, clock b <= c -> wpt (k name) (mkBooks (open b) (engine_ b) (starts b) c) Q) ->
  wpt (uniqueEventName purpose ≫= k) b Q.
Proof.
  intros Hk. apply wps_bind, wp_quiet; [done |]. intros pid. apply wp_os; [done |]. intros r [Hr _]. by apply Hk.
Qed.

(** What [startEngine] does when there is something to do. *)
Record started (automatic : bool) (t : TrayApp) (b : Books) (t' : TrayApp) (b' : Books) : Prop := {
  st_balanced : balanced t' b';
  st_shape : shape t';
  st_framed : framed t t';
  st_pending : restartPending_ t' = false;
  st_budget : restartBudget_ t' = if automatic then restartBudget_ t else reset (restartBudget_ t);
  st_clock : clock b <= clock b';
  st_outcome : engineProcess_ t' = None /\ state_ t' = Failed /\ starts b' = starts b \/
               is_Some (engineProcess_ t') /\ state_ t' = Starting /\ starts b' = starts b + 1;
}.

Lemma wp_startEngine automatic t b Q :
  balanced t b -> shape t ->
  (canStart_ t = false \/ is_Some (engineProcess_ t) -> Q t b) ->
  (canStart_ t = true -> engineProcess_ t = None -> forall t' b', started automatic t b t' b' -> Q t' b') ->
  wpt (startEngine automatic t) b Q.
Proof.
  intros Hb Hsh Hno Hyes. unfold startEngine. destruct (canStart_ t) eqn:Ec; cbn [negb orb]; [|apply Hno; by left].
  case_bool_decide as Hp; [by apply Hno; right |]. apply eq_None_not_Some in Hp. specialize (Hyes eq_refl Hp).
  unfold shape in Hsh. rewrite Hp in Hsh. destruct Hsh as (Hs & Hr & _).
  set (t0 := if negb automatic then _ else _).
  assert (H0 : balanced t0 b) by (by eapply balanced_set; [exact Hb | ..]; destruct automatic).
  assert (Hf0 : framed t t0) by (by destruct automatic).
  assert (Hp0 : restartPending_ t0 = false) by (by destruct automatic).
  assert (Hb0 : restartBudget_ t0 = if automatic then restartBudget_ t else reset (restartBudget_ t)) by (by destruct automatic).
  assert (He0 : engineProcess_ t0 = None /\ shutdownEvent_ t0 = None /\ readyEvent_ t0 = None) by (by destruct automatic).
  clearbody t0. destruct He0 as (He & Hs0 & Hr0).
  assert (Hfail : forall t1 b1, balanced t1 b1 -> clock b <= clock b1 -> starts b1 = starts b ->
            framed t t1 -> restartPending_ t1 = false -> restartBudget_ t1 = restartBudget_ t0 ->
            engineProcess_ t1 = None -> shutdownEvent_ t1 = None -> readyEvent_ t1 = None -> wpt (startFailed t1) b1 Q).
  { intros t1 b1 B1 C1 S1 F1 P1 G1 E1 Sh1 R1. apply wp_startFailed; [done |]. intros since b2 t2 B2 S2 C2.
    apply Hyes. destruct F1 as (f1 & f2 & f3 & f4 & f5). split; cbn; try done; try congruence; try lia.
    - unfold shape. cbn. rewrite E1. split_and!; auto.
    - left. split_and!; [done | done | congruence]. }
  apply wp_quiet; [done |]. intros exe. case_bool_decide; [apply Hfail; try done; lia |].
  apply wp_uniqueEventName. intros shutdownName c1 Hc1. apply wp_uniqueEventName. intros readyName c2 Hc2. cbn [clock] in *.
  apply wp_os; [done |]. intros sh Hsh. apply wp_os; [done |]. intros re Hre. cbn in Hsh, Hre.
  cbn [after open engine_ starts clock].
  set (t1 := set_readyEvent_ re (set_shutdownEvent_ sh t0)).
  set (b1 := mkBooks (option_list re ++ option_list sh ++ open b) (engine_ b) (starts b) c2).
  assert (Hheld : held t0 = option_list (setupProcess_ t0)) by (unfold held; by rewrite He, Hs0, Hr0).
  assert (H1 : balanced t1 b1).
  { destruct H0 as [Ho Hn Hee]. rewrite Hheld in Ho. split.
    - cbn. rewrite Ho. unfold held. cbn. rewrite He. cbn. rewrite !app_assoc. apply Permutation_app_tail, Permutation_app_comm.
    - cbn. destruct sh as [h|]; cbn in *; [|destruct re as [r|]; cbn in *; [apply NoDup_cons; split; [exact (Hre _ eq_refl) |] |]; done].
      assert (NoDup (h :: open b)) by (apply NoDup_cons; split; [exact (Hsh _ eq_refl) | done]).
      destruct re as [r|]; cbn in *; [apply NoDup_cons; split; [exact (Hre _ eq_refl) |] |]; done.
    - cbn. by rewrite Hee. }
  assert (Hf1 : framed t t1) by done.
  assert (Hclose : wpt (closeEngineHandles t1 ≫= startFailed) b1 Q).
  { apply wps_bind, wp_closeEngineHandles; [done |]. intros b2 t2 B2 S2 C2. apply Hfail; try done; rewrite ?C2; cbn; lia. }
  case_if; [exact Hclose |]. rename E into En.
  apply orb_false_iff in En as [Es%bool_decide_eq_false Er%bool_decide_eq_false].
  apply wp_quiet; [done |]. intros pid. apply wp_os; [exact (eq_trans (bal_engine _ _ H0) He) |].
  intros [[hp ht]|] Hpt; [|exact Hclose]. destruct (Hpt hp ht eq_refl) as (Hn1 & Hn2 & Hne).
  apply wp_os; [cbn; by left |]. intros [] _. apply wp_setState. intros since c3 Hc3 _ _. change (c2 <= c3) in Hc3.
  apply Hyes. destruct H1 as [Ho Hn Hee].
  assert (Hfil : filter (λ x, x <> ht) (ht :: hp :: open b1) ≡ₚ hp :: open b1 /\ NoDup (filter (λ x, x <> ht) (ht :: hp :: open b1))).
  { apply close_perm; [done |]. apply NoDup_cons. split; [by apply not_elem_of_cons |]. by apply NoDup_cons. }
  destruct Hfil as [Hfil1 Hfil2]. split; cbn; try done; try lia.
  - split; [|exact Hfil2 |].
    + cbn. etransitivity; [exact Hfil1 |]. rewrite Ho. unfold held. cbn. by rewrite He.
    + cbn. rewrite bool_decide_eq_false_2; [done |]. by intros [= ->].
  - unfold shape. cbn. split_and!; [by apply not_eq_None_Some | by apply not_eq_None_Some | done | by left].
  - right. split_and!; done.
Qed.

(** *** Every operation keeps the books balanced *)

Definition ok (t : TrayApp) (b : Books) : Prop := balanced t b /\ shape t.
Definition moved (b : Books) (t' : TrayApp) (b' : Books) : Prop := ok t' b' /\ clock b <= clock b'.

(** Fields that neither the books nor the shape mention. *)
Lemma ok_set t t' b :
  ok t b -> held t' = held t -> engineProcess_ t' = engineProcess_ t -> shutdownEvent_ t' = shutdownEvent_ t ->
  readyEvent_ t' = readyEvent_ t -> restartPending_ t' = restartPending_ t -> state_ t' = state_ t -> window_ t' = window_ t -> ok t' b.
Proof.
  intros [Hb Hs] H1 H2 H3 H4 H5 H6 H7. split; [by eapply balanced_set; [exact Hb | ..] |].
  unfold shape in *. by rewrite H2, H3, H4, H5, H6, H7.
Qed.
Lemma moved_refl t b : ok t b -> moved b t b.
Proof. by split. Qed.
Lemma moved_trans b b1 t' b' : moved b1 t' b' -> clock b <= clock b1 -> moved b t' b'.
Proof. intros [H1 H2] H3. split; [done | lia]. Qed.
Lemma started_moved a t b t' b' : started a t b t' b' -> moved b t' b'.
Proof. intros H. split; [split; apply H | apply H]. Qed.

Lemma wp_startEngine_ok automatic t b Q :
  ok t b -> (forall t' b', moved b t' b' -> Q t' b') -> wpt (startEngine automatic t) b Q.
Proof.
  intros Hok HQ. apply wp_startEngine; [apply Hok | apply Hok | |].
  - intros _. by apply HQ, moved_refl.
  - intros _ _ t' b' Hs. by eapply HQ, started_moved.
Qed.

(** A change of state, with the message that goes with it. *)
Lemma wp_enter s level t b Q :
  balanced t b ->
  (forall since b', let t' := set_state_ s (set_stateSinceMs_ since t) in
     balanced t' b' -> starts b' = starts b -> clock b <= clock b' -> Q t' b') ->
  wpt (t ← setState s t; _ ← os (Balloon level); mret t) b Q.
Proof.
  intros Hb HQ. apply wps_bind, wp_setState. intros since c Hc _ _. apply wp_quiet; [done |]. intros _.
  apply HQ; [by eapply balanced_set; [exact Hb | ..] | done | done].
Qed.

(** What [requestStop] does. *)
Definition stopping (t : TrayApp) (t' : TrayApp) : Prop :=
  framed t t' /\ restartPending_ t' = false /\ engineProcess_ t' = engineProcess_ t /\ restartBudget_ t' = restartBudget_ t /\
  (is_Some (engineProcess_ t) -> state_ t' = Stopping).

Lemma wp_requestStop t b Q :
  ok t b -> (forall t' b', moved b t' b' -> starts b' = starts b -> stopping t t' -> Q t' b') -> wpt (requestStop t) b Q.
Proof.
  intros [Hb Hs] HQ. unfold requestStop. destruct (restartPending_ t) eqn:Ep.
  - assert (He : engineProcess_ t = None) by (unfold shape in Hs; destruct (engineProcess_ t); [destruct Hs as (_ & _ & Hx & _); congruence | done]).
    apply wp_enter; [by eapply balanced_set; [exact Hb | ..] |]. intros since b' t' B S C. apply HQ; [|done |].
    + split; [|done]. split; [done |]. unfold shape in *. rewrite He in Hs. cbn. rewrite He. destruct Hs as (? & ? & _). split_and!; auto. done.
    + split_and!; try done. cbn. rewrite He. by intros [].
  - destruct (engineProcess_ t) as [h|] eqn:He.
    2: { apply HQ; [by apply moved_refl | done |]. split_and!; try done. rewrite He. by intros []. }
    unfold shape in Hs. rewrite He in Hs. destruct Hs as ([sh Hsh] & [re Hre] & _ & Hst).
    assert (Hsignal : forall t1 b1, balanced t1 b1 -> shutdownEvent_ t1 = Some sh -> starts b1 = starts b -> clock b <= clock b1 ->
      t1 = set_state_ Stopping (set_stateSinceMs_ (stateSinceMs_ t1) t) ->
      wpt (_ ← (match shutdownEvent_ t1 with Some h => os (SetEvent h) | None => mret () end); mret t1) b1 Q).
    { intros t1 b1 B1 S1 St1 C1 Et. rewrite S1. apply wp_os.
      - cbn. rewrite (bal_open _ _ B1). unfold held. rewrite S1. rewrite !elem_of_app. right. left. by left.
      - intros [] _. cbn [after]. apply HQ; [split; [split; [done |] |done] | done |].
        + unfold shape. rewrite Et. cbn. rewrite He. split_and!; [by eexists | by eexists | done | by auto].
        + by rewrite Et. }
    apply wps_bind. case_bool_decide as Es.
    + apply (Hsignal t b); try done. rewrite <- Es. by destruct t.
    + apply wp_setState. intros since c Hc _ _. apply Hsignal; [by eapply balanced_set; [exact Hb | ..] | done | done | done | by destruct t].
Qed.

Lemma wp_destroyWindow t b Q :
  balanced t b -> (engineProcess_ t = None -> shutdownEvent_ t = None /\ readyEvent_ t = None) -> engineProcess_ t = None ->
  restartPending_ t = false -> (forall t', moved b t' b -> t' = set_window_ false t -> Q t' b) -> wpt (destroyWindow t) b Q.
Proof.
  intros Hb Hn He Hp HQ. apply wp_quiet; [done |]. intros _. apply HQ; [|done]. split; [|done]. split; [by eapply balanced_set; [exact Hb | ..] |].
  unfold shape. cbn. rewrite He. destruct (Hn He) as [-> ->]. split_and!; try done. by rewrite Hp.
Qed.

Lemma wp_requestExit t b Q :
  ok t b -> (forall t' b', moved b t' b' -> Q t' b') -> wpt (requestExit t) b Q.
Proof.
  intros [Hb Hs] HQ. unfold requestExit. set (t1 := set_configurationRestartPending_ false _).
  assert (H1 : balanced t1 b) by (by eapply balanced_set; [exact Hb | ..]).
  assert (S1 : shape t1) by (unfold shape in *; cbn; destruct (engineProcess_ t); [tauto | split_and!; try tauto; done]).
  case_bool_decide as He.
  - apply wp_requestStop; [by split |]. intros t' b' Hm _ _. by apply HQ.
  - apply eq_None_not_Some in He. unfold shape in S1. rewrite He in S1. apply wp_destroyWindow; [done | tauto | done | done |].
    intros t' Hm _. by apply HQ.
Qed.

Lemma wp_restartForConfiguration t b Q :
  ok t b -> (forall t' b', moved b t' b' -> Q t' b') -> wpt (restartEngineForConfiguration t) b Q.
Proof.
  intros Hok HQ. unfold restartEngineForConfiguration. case_if; [by apply HQ, moved_refl |].
  assert (Hclear : ok (clearRestart t) b).
  { destruct Hok as [Hb Hs]. split; [by eapply balanced_set; [exact Hb | ..] |].
    unfold shape in *; cbn; destruct (engineProcess_ t); [tauto | split_and!; try tauto; done]. }
  destruct (state_ t); try (by apply HQ, moved_refl).
  - apply wp_requestStop; [by eapply ok_set; [exact Hclear | ..] |]. intros t' b' Hm _ _. by apply HQ.
  - apply wp_requestStop; [by eapply ok_set; [exact Hclear | ..] |]. intros t' b' Hm _ _. by apply HQ.
  - case_bool_decide; [by apply wp_startEngine_ok | by apply HQ, moved_refl].
Qed.

Lemma wp_launchSetup want t b Q :
  ok t b -> (forall t' b', moved b t' b' -> Q t' b') -> wpt (launchSetup want t) b Q.
Proof.
  intros Hok HQ. assert (Hsame : Q t b) by by apply HQ, moved_refl. unfold launchSetup.
  case_bool_decide as Hp; [by apply wp_quiet |]. apply eq_None_not_Some in Hp.
  apply wp_quiet; [done |]. intros exe. case_bool_decide; [by apply wp_quiet |].
  apply wp_os; [done |]. intros [[hp ht]|] Hpt; [|by apply wp_quiet]. destruct (Hpt hp ht eq_refl) as (Hn1 & Hn2 & Hne).
  apply wp_os; [cbn; by left |]. intros [] _. apply HQ. destruct Hok as [[Ho Hn He] Hs].
  destruct (close_perm (ht :: hp :: open b) (hp :: open b) ht) as [Hf1 Hf2]; [done | |].
  { apply NoDup_cons. split; [by apply not_elem_of_cons |]. by apply NoDup_cons. }
  split; [|done]. split; [|exact Hs]. split; [|exact Hf2 |].
  - cbn. etransitivity; [exact Hf1 |]. rewrite Ho. unfold held. cbn. rewrite Hp. cbn. rewrite app_nil_r, !app_assoc.
    apply Permutation_cons_append.
  - cbn. rewrite He. rewrite bool_decide_eq_false_2; [done |]. intros Hx. apply Hn2. rewrite Ho. unfold held. rewrite Hx. by left.
Qed.

Lemma wp_afterSetup c t b Q :
  ok t b -> (forall t' b', moved b t' b' -> Q t' b') -> wpt (afterSetup c t) b Q.
Proof.
  intros Hok HQ. unfold afterSetup. assert (H1 : ok (set_canStart_ (isValid c) t) b) by by eapply ok_set.
  apply wp_quiet; [done |]. intros _. case_if; [by apply HQ, moved_refl |].
  case_if; [by apply wp_startEngine_ok | by apply wp_restartForConfiguration].
Qed.

Lemma wp_pollSetup t b Q :
  ok t b -> (setupProcess_ t = None -> Q t b) -> (setupProcess_ t <> None -> forall t' b', moved b t' b' -> Q t' b') ->
  wpt (pollSetup t) b Q.
Proof.
  intros Hok Hnone HQ. unfold pollSetup. destruct (setupProcess_ t) as [h|] eqn:Hp; [|by apply Hnone]. specialize (HQ ltac:(done)).
  assert (Hin : h ∈ open b).
  { rewrite (bal_open _ _ (proj1 Hok)). unfold held. rewrite Hp, !elem_of_app. right; right; right. by left. }
  apply wp_os; [done |]. intros ended _. cbn [after]. case_if; [by apply HQ, moved_refl |].
  apply wp_os; [done |]. intros code _. cbn [after]. apply wp_os; [done |]. intros [] _.
  set (b1 := after b (CloseHandle h) tt). set (t1 := set_setupProcess_ None t).
  assert (H1 : ok t1 b1).
  { destruct Hok as [[Ho Hn He] Hs]. destruct (close_perm (open b) (option_list (engineProcess_ t) ++ option_list (shutdownEvent_ t) ++ option_list (readyEvent_ t)) h) as [Hf1 Hf2].
    - rewrite Ho. unfold held. rewrite Hp. cbn. rewrite !app_assoc. symmetry. apply Permutation_cons_append.
    - done.
    - split; [|exact Hs]. split; [|exact Hf2 |]; cbn.
      + rewrite Hf1. unfold held. cbn. by rewrite app_nil_r.
      + rewrite He. case_bool_decide as Hx; [|done]. exfalso. rewrite Ho in Hn. unfold held in Hn. rewrite Hx, Hp in Hn. cbn in Hn.
        apply NoDup_cons in Hn as [Hn _]. apply Hn. rewrite !elem_of_app. right; right. by left. }
  assert (HQ1 : forall t' b', moved b1 t' b' -> Q t' b') by (intros t' b' Hm; apply HQ; by eapply moved_trans).
  clearbody t1 b1. assert (Hsame : Q t1 b1) by by apply HQ1, moved_refl.
  case_if; [exact Hsame |]. apply wp_quiet; [done |]. intros config. case_if; [by apply wp_quiet |].
  case_if; [|by apply wp_afterSetup]. apply wp_quiet; [done |]. intros saved. case_if; [by apply wp_quiet | by apply wp_afterSetup].
Qed.

(** *** The end of an engine *)

(** What [handleEngineExit] does to the restarts. *)
Definition ended (exitCode nowMs : Z) (t : TrayApp) (b : Books) (t' : TrayApp) (b' : Books) : Prop :=
  framed t t' /\ engineProcess_ t' = None /\ starts b' = starts b /\
  ((state_ t = Stopping \/ exiting_ t = true) /\ restartPending_ t' = false /\ restartBudget_ t' = restartBudget_ t /\ state_ t' = Stopped \/
   (exitCode = kWorkerUnavailableExitCode \/ needsUserAction exitCode = true) /\ restartPending_ t' = false /\ restartBudget_ t' = restartBudget_ t \/
   state_ t <> Stopping /\ restartBudget_ t' = (consume (restartBudget_ t) nowMs).2 /\
     restartPending_ t' = negb ((consume (restartBudget_ t) nowMs).1 =? 0)).

Lemma wp_schedule nowMs t b Q :
  balanced t b -> engineProcess_ t = None -> shutdownEvent_ t = None -> readyEvent_ t = None -> restartPending_ t = false ->
  (forall t' b', moved b t' b' -> framed t t' -> engineProcess_ t' = None -> starts b' = starts b ->
     restartBudget_ t' = (consume (restartBudget_ t) nowMs).2 ->
     restartPending_ t' = negb ((consume (restartBudget_ t) nowMs).1 =? 0) -> Q t' b') ->
  wpt (scheduleAutomaticRestart nowMs t) b Q.
Proof.
  intros Hb He Hs Hr Hp HQ. apply wps_bind, wp_setState. intros since c Hc _ _. cbn [restartBudget_ set_state_ set_stateSinceMs_].
  destruct (consume (restartBudget_ t) nowMs) as [attempt budget] eqn:Ec. cbn [fst snd] in HQ.
  assert (Hshape : forall t', engineProcess_ t' = None -> shutdownEvent_ t' = None -> readyEvent_ t' = None -> state_ t' = Failed -> shape t')
    by (intros t' e1 e2 e3 e4; unfold shape; rewrite e1, e2, e3, e4; auto).
  case_if; (apply wp_quiet; [done |]); intros _; apply HQ; try done;
    (split; [split; [by eapply balanced_set; [exact Hb | ..] | by apply Hshape] | done]).
Qed.

Lemma wp_handleEngineExit exitCode nowMs t b Q :
  ok t b -> is_Some (engineProcess_ t) ->
  (forall t' b', moved b t' b' -> (exiting_ t = true -> window_ t' = false /\ starts b' = starts b) ->
     (exiting_ t = false -> configurationRestartPending_ t = false -> ended exitCode nowMs t b t' b') -> Q t' b') ->
  wpt (handleEngineExit exitCode nowMs t) b Q.
Proof.
  intros [Hb Hs] [h He] HQ. unfold handleEngineExit. apply wps_bind, wp_closeEngineHandles; [done |].
  intros b1 t1 B1 S1 C1.
  assert (Hp : restartPending_ t = false) by (unfold shape in Hs; rewrite He in Hs; tauto).
  assert (Hm : forall t' b', moved b1 t' b' -> moved b t' b') by (intros t' b' Hx; eapply moved_trans; [exact Hx | lia]).
  assert (Hshape : forall t', engineProcess_ t' = None -> shutdownEvent_ t' = None -> readyEvent_ t' = None -> restartPending_ t' = false ->
            (state_ t' = Stopped \/ state_ t' = Failed) -> shape t')
    by (intros t' e1 e2 e3 e4 e5; unfold shape; rewrite e1, e2, e3, e4; split_and!; auto; done).
  change (exiting_ t1) with (exiting_ t). change (configurationRestartPending_ t1) with (configurationRestartPending_ t).
  destruct (exiting_ t) eqn:Ex.
  { apply wp_destroyWindow; try done. intros t' Ht ->. apply HQ; [by apply Hm | done | done]. }
  rewrite orb_false_r. case_bool_decide as Est.
  - destruct (configurationRestartPending_ t) eqn:Ecf.
    + apply wps_bind, wp_setState. intros since c Hc _ _. apply wp_startEngine_ok.
      { split; [by eapply balanced_set; [exact B1 | ..] | by apply Hshape; auto]. }
      intros t' b' Ht. apply HQ; [|done | done]. eapply moved_trans; [exact Ht |]. cbn. lia.
    + apply wp_enter; [done |]. intros since b' t' B S C. apply HQ; [|done |].
      * split; [split; [done | by apply Hshape; auto] | lia].
      * intros _ _. split_and!; try done; [congruence |]. left. by auto.
  - case_if; zbool; [|case_if].
    + apply wp_enter; [by eapply balanced_set; [exact B1 | ..] |]. intros since b' t' B S C. apply HQ; [|done |].
      * split; [split; [done | by apply Hshape; auto] | lia].
      * intros _ _. split_and!; try done; [congruence |]. right. left. by auto.
    + apply wp_enter; [by eapply balanced_set; [exact B1 | ..] |]. intros since b' t' B S C. apply HQ; [|done |].
      * split; [split; [done | by apply Hshape; auto] | lia].
      * intros _ _. split_and!; try done; [congruence |]. right. left. by auto.
    + apply wp_schedule; try done. intros t' b' Ht F' E' S' Bu' Pe'. apply HQ; [by apply Hm | done |].
      intros _ _. split_and!; try done; [congruence |]. right. right. by auto.
Qed.

(** *** The timer *)

(** What a look at the engine may change before the engine has ended. *)
Definition observed (t t' : TrayApp) : Prop :=
  framed t t' /\ held t' = held t /\ engineProcess_ t' = engineProcess_ t /\ shutdownEvent_ t' = shutdownEvent_ t /\
  readyEvent_ t' = readyEvent_ t /\ restartPending_ t' = restartPending_ t /\ restartBudget_ t' = restartBudget_ t /\
  (state_ t' = state_ t \/ state_ t = Starting /\ state_ t' = Running).

Lemma observed_ok t t' b b' : ok t b -> is_Some (engineProcess_ t) -> observed t t' -> open b' = open b -> engine_ b' = engine_ b -> ok t' b'.
Proof.
  intros [Hb Hs] [h He] ((_ & _ & H3 & _) & H4 & H5 & H6 & H7 & H8 & _ & H10) Ho Hen. split; [by eapply balanced_set; [exact Hb | ..] |].
  unfold shape in *. rewrite H5, H6, H7, H8. rewrite He in *. destruct Hs as (? & ? & ? & Hst). split_and!; try done.
  destruct H10 as [->|[_ ->]]; [done | by auto].
Qed.

(** One turn of the timer with no setup running and no restart for a new configuration due. *)
Definition polled (t : TrayApp) (b : Books) (t' : TrayApp) (b' : Books) : Prop :=
  exiting_ t = true /\ window_ t' = false /\ starts b' = starts b \/
  framed t t' /\ starts b' = starts b /\ restartPending_ t' = restartPending_ t /\ restartBudget_ t' = restartBudget_ t /\
    (engineProcess_ t' = engineProcess_ t /\ (state_ t = Stopping -> state_ t' = Stopping) \/ engineProcess_ t' = None) \/
  framed t t' /\ starts b' = starts b /\ is_Some (engineProcess_ t) /\ state_ t <> Stopping /\ restartPending_ t = false /\
    (exists nowMs, clock b <= nowMs < horizon /\ nowMs <= clock b' /\ restartBudget_ t' = (consume (restartBudget_ t) nowMs).2 /\
       restartPending_ t' = negb ((consume (restartBudget_ t) nowMs).1 =? 0)) \/
  framed t t' /\ restartPending_ t = true /\ restartPending_ t' = false /\ restartBudget_ t' = restartBudget_ t /\
    starts b' <= starts b + 1.

Lemma wp_watchEngine h nowMs t b Q :
  ok t b -> engineProcess_ t = Some h -> nowMs < horizon -> clock b = nowMs ->
  (forall t' b', moved b t' b' -> (configurationRestartPending_ t = false -> polled t b t' b') -> Q t' b') ->
  wpt (watchEngine h nowMs t) b Q.
Proof.
  intros Hok He Hn Hclk HQ. pose proof Hok as [Hb Hs]. unfold shape in Hs. rewrite He in Hs. destruct Hs as ([sh Hsh] & [re Hre] & Hp & Hst).
  assert (Hin : forall x b1, x ∈ held t -> open b1 = open b -> x ∈ open b1) by (intros x b1 Hx ->; by rewrite (bal_open _ _ Hb)).
  assert (Hh : h ∈ held t) by (unfold held; rewrite He; by left).
  (* the end of the poll, from whatever was observed *)
  assert (Hend : forall t1 b1, observed t t1 -> open b1 = open b -> engine_ b1 = engine_ b -> starts b1 = starts b -> clock b <= clock b1 ->
    wpt (reapEngine h nowMs t1) b1 Q).
  { intros t1 b1 Hob Ho1 Hen1 S1 C1. assert (Hok1 : ok t1 b1) by (eapply observed_ok; eauto).
    pose proof Hob as (F & _ & E1 & _ & _ & P1 & B1 & St1). assert (Hst1 : state_ t1 = Stopping <-> state_ t = Stopping).
    { destruct St1 as [->|[-> ->]]; [done |]. split; done. }
    apply wp_os; [by apply (Hin h b1) |]. intros e _. cbn [after]. case_if.
    - apply HQ; [by split |]. intros _. right. left. split_and!; try done. left. split; [done | by apply Hst1].
    - apply wp_os; [by apply (Hin h b1) |]. intros code _. cbn [after].
      apply wp_handleEngineExit; [done | rewrite E1; by eexists |]. intros t2 b2 Hm Hexit Hend.
      destruct F as (F1 & F2 & F3 & F4 & F5).
      apply HQ; [by eapply moved_trans|]. intros Hc. rewrite F2 in *. destruct (exiting_ t) eqn:Ex.
      { left. destruct (Hexit eq_refl). split_and!; [done | done | lia]. }
      destruct (Hend eq_refl) as ((G1 & G2 & G3 & G4 & G5) & E2 & S2 & Hcase); [congruence |].
      assert (F : framed t t2) by (unfold framed; rewrite Ex; split_and!; congruence).
      destruct Hcase as [(_ & HP & HB & _)|[(_ & HP & HB)|(HS & HB & HP)]].
      + right. left. split_and!; try done; try congruence. by right.
      + right. left. split_and!; try done; try congruence. by right.
      + right. right. left. split_and!; try done; try congruence; [intros Hx; by apply HS, Hst1 |].
        exists nowMs. rewrite <- B1. destruct Hm as [_ Hm]. split; [lia |]. split; [lia | done]. }
  (* the hung engine *)
  assert (Hkill : forall t1 b1, observed t t1 -> open b1 = open b -> engine_ b1 = engine_ b -> starts b1 = starts b -> clock b <= clock b1 ->
    wpt (t ← killHung h nowMs t1; reapEngine h nowMs t) b1 Q).
  { intros t1 b1 Hob Ho1 Hen1 S1 C1. apply wps_bind. unfold killHung. case_if; [|by apply Hend].
    apply wp_os; [by apply (Hin h b1) |]. intros e _. cbn [after]. case_if; [|by apply Hend].
    apply wp_os; [cbn; by rewrite Hen1, (bal_engine _ _ Hb) |]. intros [] _. by apply Hend. }
  unfold watchEngine. apply wps_bind. unfold noteReady. case_bool_decide as Es; [|apply Hkill; try done; by split_and!; auto].
  rewrite Hre. apply wp_os; [apply (Hin re b); [|done]; unfold held; rewrite Hre, !elem_of_app; right; right; left; by left |].
  intros [] _; [|apply Hkill; try done; by split_and!; auto].
  apply wps_bind, wp_setState. intros since c Hc _ _. apply wp_quiet; [done |]. intros _. apply Hkill; try done. by split_and!; auto.
Qed.

Lemma wp_pollEngine t b Q :
  ok t b ->
  (forall t' b', moved b t' b' ->
     (setupProcess_ t = None -> configurationRestartPending_ t = false -> polled t b t' b') -> Q t' b') ->
  wpt (pollEngine t) b Q.
Proof.
  intros Hok HQ.
  assert (Hrest : forall t1 b1, ok t1 b1 -> clock b <= clock b1 ->
    (setupProcess_ t = None -> t1 = t /\ b1 = b) ->
    wpt (nowMs ← os Tick;
         match engineProcess_ t1 with
         | None => if restartPending_ t1 && (restartAtMs_ t1 <=? nowMs) then startEngine true t1 else mret t1
         | Some h => watchEngine h nowMs t1
         end) b1 Q).
  { intros t1 b1 Hok1 C1 Hsame. apply wp_os; [done |]. intros nowMs [Hlo Hhi]. cbn [after].
    set (b2 := mkBooks (open b1) (engine_ b1) (starts b1) nowMs).
    assert (Hok2 : ok t1 b2) by (destruct Hok1 as [B1 Sh1]; split; [by eapply balanced_set; [exact B1 | ..] | done]).
    assert (Hm : forall t' b', moved b2 t' b' -> moved b t' b') by (intros t' b' Hx; eapply moved_trans; [exact Hx | cbn; lia]).
    destruct (engineProcess_ t1) as [h|] eqn:He.
    - apply wp_watchEngine; try done. intros t' b' Hx Hp. apply HQ; [by apply Hm |]. intros Hsu Hc. destruct (Hsame Hsu) as [-> ->].
      destruct (Hp Hc) as [?|[?|[(F & S & I & N & P & n & Hn & ?)|?]]]; [by left | by right; left | | by right; right; right].
      right. right. left. split_and!; try done. exists n. cbn in Hn. split; [lia | done].
    - destruct (restartPending_ t1 && (restartAtMs_ t1 <=? nowMs)) eqn:Er.
      + apply andb_true_iff in Er as [Hpe _]. apply wp_startEngine; [apply Hok2 | apply Hok2 | |].
        * intros _. apply HQ; [by apply Hm, moved_refl |]. intros Hsu Hc. destruct (Hsame Hsu) as [-> ->].
          right. left. split_and!; try done. by left.
        * intros _ _ t' b' St. apply HQ; [by eapply Hm, started_moved |]. intros Hsu Hc. destruct (Hsame Hsu) as [-> ->].
          right. right. right. destruct St as [B2 Sh2 F2 P2 Bu2 C2 Out]. split_and!; try done; try apply F2.
          destruct Out as [(_ & _ & ->)|(_ & _ & ->)]; cbn; lia.
      + apply HQ; [by apply Hm, moved_refl |]. intros Hsu Hc. destruct (Hsame Hsu) as [-> ->].
        right. left. split_and!; try done. by left. }
  apply wps_bind, wp_pollSetup; [done | |].
  - intros _. by apply Hrest.
  - intros Hne t1 b1 [Hok1 C1]. by apply Hrest.
Qed.

Lemma wp_setDnsMode mode t b Q :
  ok t b -> (forall t' b', moved b t' b' -> Q t' b') -> wpt (setDnsMode mode t) b Q.
Proof.
  intros Hok HQ. assert (Hsame : Q t b) by by apply HQ, moved_refl.
  apply wp_quiet; [done |]. intros config. case_if; [by apply wp_quiet |]. case_if; [done |].
  case_if; [apply wp_quiet; [done |]; intros _; by apply wp_launchSetup |].
  apply wp_quiet; [done |]. intros saved. case_if; [by apply wp_quiet |].
  apply wp_restartForConfiguration; [by eapply ok_set; [exact Hok | ..] | done].
Qed.

Lemma wp_handleMessage m t b Q :
  ok t b -> (forall t' b', moved b t' b' -> Q t' b') -> wpt (handleMessage m t) b Q.
Proof.
  intros Hok HQ. assert (Hsame : Q t b) by by apply HQ, moved_refl.
  assert (Hset : forall v, Q (set_startupEnabled_ v t) b) by (intros v; apply HQ, moved_refl; by eapply ok_set; [exact Hok | ..]).
  destruct m as [| | | | | | |en|res target|ending| | |]; cbn [handleMessage].
  - apply wp_pollEngine; [done |]. intros t' b' Hm _. by apply HQ.
  - by apply wp_startEngine_ok.
  - apply wp_requestStop; [by eapply ok_set; [exact Hok | ..] |]. intros t' b' Hm _ _. by apply HQ.
  - by apply wp_setDnsMode.
  - by apply wp_setDnsMode.
  - by apply wp_launchSetup.
  - by apply wp_requestExit.
  - apply Hset.
  - destruct res; (apply wp_quiet; [done |]); intros _; [apply Hset | done | done].
  - destruct ending; [by apply wp_requestExit | done].
  - by apply wp_requestExit.
  - by apply wp_restartForConfiguration.
  - done.
Qed.

Lemma wp_messageLoop messages t b Q :
  ok t b -> (forall t' b', moved b t' b' -> Q t' b') -> wpt (messageLoop messages t) b Q.
Proof.
  revert t b. induction messages as [|m messages IH]; intros t b Hok HQ; cbn [messageLoop]; [by apply HQ, moved_refl |].
  case_if; [|by apply HQ, moved_refl]. apply wps_bind, wp_handleMessage; [done |]. intros t1 b1 [Hok1 C1].
  apply IH; [done |]. intros t' b' Hm. apply HQ. by eapply moved_trans.
Qed.

Lemma wp_trayStart t b Q :
  ok t b -> (forall t' b', moved b t' b' -> Q t' b') -> wpt (trayStart t) b Q.
Proof.
  intros Hok HQ. unfold trayStart. case_if; [by apply wp_startEngine_ok |]. apply wp_quiet; [done |]. intros _. by apply wp_launchSetup.
Qed.

(** Nothing is left open. *)
Lemma wp_trayEnd t b Q : ok t b -> (forall t' b', open b' = [] -> Q t' b') -> wpt (trayEnd t) b Q.
Proof.
  intros [Hb _] HQ. apply wps_bind, wp_closeEngineHandles; [done |]. intros b1 t1 B1 _ _. apply wps_bind.
  eapply wp_closeIf; [rewrite (bal_open _ _ B1); unfold held; cbn; by rewrite app_nil_r | apply B1 |].
  intros l Hl _. apply Permutation_nil_r in Hl as ->. cbv beta zeta. match goal with |- context [if ?c then destroyWindow _ else _] => destruct c end; [apply wp_quiet; [done |]; intros _ |]; by apply HQ.
Qed.
End Horizon.

(** ** Histories *)

Definition openBooks (now : Z) : Books := mkBooks [] None 0 now.

Lemma ok_new args live can now : ok (newTrayApp args live can) (openBooks now).
Proof. split; [split; [done | constructor | done] |]. unfold shape. cbn. split_and!; auto. done. Qed.

(** in every run of the tray, whatever messages arrive and whatever the system answers
    (events or processes that cannot be created, an engine that dies, hangs or never gets
    ready, a setup that fails), no handle is used or closed that is not open, an engine is
    started only when there is none, only the engine is ever terminated, and when the tray
    is gone every handle it opened has been closed. *)
Theorem tray_handles_safe args live can messages horizon now oracle :
  honest (answers horizon) after (openBooks now) oracle ->
  let '(_, history) := play oracle (trayRun messages (newTrayApp args live can)) [] in
  all_legal legal after (openBooks now) history /\ open (ledger after (openBooks now) history) = [].
Proof.
  intros Ho. pose proof (wps_play legal (answers horizon) after (openBooks now) oracle
    (trayRun messages (newTrayApp args live can)) [] (λ _ b, open b = []) Ho (conj I I)) as H.
  destruct (play oracle _ []) as [t' history]. destruct H as [H1 [H2 _]]; [|done].
  unfold trayRun. apply wps_bind, wp_trayStart; [apply ok_new |]. intros t1 b1 [Hok1 _].
  apply wps_bind, wp_messageLoop; [done |]. intros t2 b2 [Hok2 _]. by apply wp_trayEnd.
Qed.

(** *** A stop is final *)

(** The user has stopped the engine and nothing is due. *)
Definition at_rest (t : TrayApp) : Prop :=
  setupProcess_ t = None /\ configurationRestartPending_ t = false /\ restartPending_ t = false /\
  (is_Some (engineProcess_ t) -> state_ t = Stopping).

Lemma polled_at_rest horizon t b t' b' : at_rest t -> polled horizon t b t' b' -> starts b' = starts b /\ (window_ t' = true -> at_rest t').
Proof.
  intros (H1 & H2 & H3 & H4) [(_ & Hw & Hs)|[((F1 & F2 & F3 & F4 & F5) & Hs & Hp & _ & He)|[(_ & _ & Hi & Hst & _)|(_ & Hp & _)]]].
  - split; [done |]. congruence.
  - split; [done |]. intros _. unfold at_rest. rewrite F4, F5, Hp. split_and!; try done.
    destruct He as [[-> He]| ->]; [auto | by intros []].
  - by destruct Hst; auto.
  - congruence.
Qed.

Lemma wp_timers_at_rest horizon n t b :
  ok t b -> at_rest t \/ window_ t = false ->
  wps legal (answers horizon) after (messageLoop (replicate n Timer) t) b (λ t' b', ok t' b' /\ starts b' = starts b).
Proof.
  revert t b. induction n as [|n IH]; intros t b Hok Hr; cbn [replicate messageLoop]; [done |].
  destruct (window_ t) eqn:Ew; [|done]. destruct Hr as [Hr|?]; [|done]. apply wps_bind, wp_pollEngine; [done |].
  intros t1 b1 [Hok1 _] Hp. destruct (polled_at_rest horizon t b t1 b1 Hr) as [Hs Hw]; [apply Hp; apply Hr |].
  eapply wps_mono; [apply IH; [done |] |].
  - destruct (window_ t1); [left; auto | by right].
  - intros t' b' [? ?]. split; [done | congruence].
Qed.

(** The engines a history started. *)
Definition engineStarts (history : list (Event Answer)) : Z := starts (ledger after (openBooks 0) history).

Lemma starts_shift l l' (h : list (Event Answer)) : starts (ledger after l h) - starts l = starts (ledger after l' h) - starts l'.
Proof.
  revert l l'. induction h as [|[c r] h IH]; intros l l'; unfold ledger; cbn; [lia |].
  fold (ledger after (after l c r) h) (ledger after (after l' c r) h). specialize (IH (after l c r) (after l' c r)).
  assert (starts (after l c r) - starts l = starts (after l' c r) - starts l'); [|lia].
  destruct c as [| | | |e ?| | | | | | | | |]; cbn; try lia. destruct r as [[]|]; [destruct e |]; cbn; lia.
Qed.
Lemma engineStarts_from now h : engineStarts h = starts (ledger after (openBooks now) h).
Proof. unfold engineStarts. pose proof (starts_shift (openBooks 0) (openBooks now) h) as H. cbn in H. lia. Qed.

(** C23: an engine the user stopped stays stopped: from any state the tray can reach, once
    the Stop command has been handled, and while no setup runs, no number of timer ticks
    starts an engine again, whatever the engine's exit code is and even if a restart was
    already due or a configuration change had asked for one. *)
Theorem stop_is_final args live can messages n horizon now oracle :
  honest (answers horizon) after (openBooks now) oracle ->
  let '(t1, h1) := play oracle (t ← trayStart (newTrayApp args live can); messageLoop messages t) [] in
  setupProcess_ t1 = None ->
  let '(_, h2) := play oracle (messageLoop (CommandStop :: replicate n Timer) t1) h1 in
  engineStarts h2 = engineStarts h1.
Proof.
  intros Ho. pose proof (wps_play legal (answers horizon) after (openBooks now) oracle
    (t ← trayStart (newTrayApp args live can); messageLoop messages t) [] ok Ho (conj I I)) as H.
  destruct (play oracle _ []) as [t1 h1] eqn:E1. destruct H as [Hok Hl].
  { apply wps_bind, wp_trayStart; [apply ok_new |]. intros t b [Hok _]. apply wp_messageLoop; [done |]. by intros t' b' [? _]. }
  intros Hsu. pose proof (wps_play legal (answers horizon) after (openBooks now) oracle
    (messageLoop (CommandStop :: replicate n Timer) t1) h1 (λ t' b', starts b' = starts (ledger after (openBooks now) h1)) Ho Hl) as H.
  destruct (play oracle _ h1) as [t2 h2]. rewrite !(engineStarts_from now). apply H. cbn [messageLoop].
  destruct (window_ t1) eqn:Ew; [|done]. apply wps_bind. cbn [handleMessage].
  apply wp_requestStop; [by eapply ok_set; [exact Hok | ..] |]. intros t b [Hok' _] Hs ((F1 & F2 & F3 & F4 & F5) & P & E & _ & St).
  eapply wps_mono; [apply wp_timers_at_rest; [done |] |].
  - left. unfold at_rest. rewrite F4, F5, P, E. split_and!; try done.
  - intros t' b' [_ ?]. congruence.
Qed.

(** *** Restarts without the user are bounded *)

Section Budget.
Variable T0 : Z.
Hypothesis T0_range : 0 <= T0 < 2 ^ 63.
Notation horizon := (T0 + kRestartWindowMs).

Record budget_ok (rb : RestartBudget) (now : Z) : Prop := {
  bu_max : maxAttempts_ rb = kMaxAutomaticRestarts;
  bu_window : windowMs_ rb = kRestartWindowMs;
  bu_size : zlen (attempts_ rb) <= kMaxAutomaticRestarts;
  bu_past : Forall (λ x, x <= now) (attempts_ rb);
}.
(** The restarts granted since [T0]. *)
Definition granted (l : list Z) : Z := zlen (filter (λ x, T0 <= x) l).

Lemma granted_purge now l :
  T0 <= now < horizon -> Forall (λ x, x <= now) l -> granted (purge_front now kRestartWindowMs l) = granted l.
Proof.
  intros Hn Hl. induction Hl as [|x l Hx Hl IH]; [done |]. cbn [purge_front]. case_if; [|done]. rewrite IH.
  unfold granted. rewrite filter_cons_False; [done |]. intros Hge. zbool. rewrite w64_small in E; unfold kRestartWindowMs in *; lia.
Qed.
Lemma purge_front_suffix now w l : exists l', l = l' ++ purge_front now w l.
Proof.
  induction l as [|x l [l' IH]]; [by exists [] |]. cbn [purge_front]. case_if; [|by exists []]. exists (x :: l'). cbn. by f_equal.
Qed.

Lemma granted_snoc l x : T0 <= x -> granted (l ++ [x]) = granted l + 1.
Proof. intros Hx. unfold granted. rewrite filter_app, zlen_app. f_equal. rewrite filter_cons. by rewrite decide_True. Qed.

Lemma consume_granted rb now0 now :
  budget_ok rb now0 -> now0 <= now -> T0 <= now < horizon ->
  budget_ok (consume rb now).2 now /\
  granted (attempts_ (consume rb now).2) = granted (attempts_ rb) + if (consume rb now).1 =? 0 then 0 else 1.
Proof.
  intros [Hm Hw Hs Hp] Hle Hn. unfold consume, purge. cbn [maxAttempts_ windowMs_ attempts_]. rewrite Hm, Hw.
  assert (Hp' : Forall (λ x, x <= now) (attempts_ rb)) by (eapply Forall_impl; [exact Hp |]; cbn; intros; lia).
  pose proof (granted_purge now (attempts_ rb) Hn Hp') as Hg.
  destruct (purge_front_suffix now kRestartWindowMs (attempts_ rb)) as [l' Hl'].
  set (l := purge_front now kRestartWindowMs (attempts_ rb)) in *.
  assert (Hl1 : Forall (λ x, x <= now) l) by (rewrite Hl' in Hp'; by apply Forall_app in Hp' as [_ ?]).
  assert (Hl2 : zlen l <= kMaxAutomaticRestarts) by (rewrite Hl', zlen_app in Hs; pose proof (zlen_nonneg l'); lia).
  case_if; zbool; cbn [fst snd attempts_].
  - split; [by split | cbn; lia].
  - assert (Hlen : zlen (l ++ [now]) = zlen l + 1) by (unfold zlen; rewrite length_app; cbn; lia).
    pose proof (zlen_nonneg l) as Hnn. rewrite (w32_small (zlen (l ++ [now]))) by (unfold kMaxAutomaticRestarts in *; lia).
    rewrite (proj2 (Z.eqb_neq (zlen (l ++ [now])) 0)) by lia. split.
    + split; [done | done | change (zlen (l ++ [now]) <= kMaxAutomaticRestarts); lia |]. apply Forall_app. split; [done |]. by apply Forall_singleton.
    + rewrite granted_snoc by lia. lia.
Qed.

Lemma granted_bound rb now : budget_ok rb now -> granted (attempts_ rb) <= kMaxAutomaticRestarts.
Proof.
  intros [_ _ Hs _]. unfold granted, zlen in *. pose proof (length_filter (λ x, T0 <= x) (attempts_ rb)). lia.
Qed.

(** What every turn of the timer keeps, for a tray that had started [S0] engines. *)
Definition within (S0 : Z) (t : TrayApp) (b : Books) : Prop :=
  ok t b /\ starts b <= S0 + kMaxAutomaticRestarts /\ T0 <= clock b /\
  (window_ t = true -> setupProcess_ t = None /\ configurationRestartPending_ t = false /\
     budget_ok (restartBudget_ t) (clock b) /\
     starts b + Z.b2z (restartPending_ t) <= S0 + granted (attempts_ (restartBudget_ t))).

Lemma tray_budget_later rb now now' : budget_ok rb now -> now <= now' -> budget_ok rb now'.
Proof. intros [H1 H2 H3 H4] Hle. split; try done. eapply Forall_impl; [exact H4 |]. cbn. intros; lia. Qed.

Lemma polled_within S0 t b t' b' :
  within S0 t b -> window_ t = true -> moved b t' b' -> polled horizon t b t' b' -> within S0 t' b'.
Proof.
  intros (Hok & Hst & Hclk & Hw) Ew [Hok' Hc] Hp. destruct (Hw Ew) as (Hsu & Hcf & Hbu & Hinv).
  pose proof (tray_budget_later _ _ _ Hbu Hc) as Hbu'. pose proof (granted_bound _ _ Hbu) as Hgb.
  assert (Hpz : 0 <= Z.b2z (restartPending_ t) <= 1) by (destruct (restartPending_ t); cbn; lia).
  destruct Hp as [(_ & Hw' & Hs)|[((F1 & F2 & F3 & F4 & F5) & Hs & Hp & Hb & _)|
    [((F1 & F2 & F3 & F4 & F5) & Hs & _ & _ & Hp & n & Hn & Hn' & Hb & Hp')|((F1 & F2 & F3 & F4 & F5) & Hp & Hp' & Hb & Hs)]]].
  - split_and!; try done; try lia. by rewrite Hw'.
  - split_and!; try done; try lia. intros _. rewrite F4, F5, Hb, Hp, Hs. done.
  - destruct (consume_granted (restartBudget_ t) (clock b) n Hbu) as [Hb2 Hg2]; [lia | lia |].
    split; [done |]. split; [lia |]. split; [lia |]. intros _. rewrite F4, F5, Hb, Hp', Hs, Hg2. rewrite Hp in Hinv. cbn in Hinv.
    split_and!; try done; [|destruct (_ =? 0); cbn; lia].
    split; try apply Hb2. eapply Forall_impl; [apply Hb2 |]. cbn. intros x Hx. lia.
  - split; [done |]. rewrite Hp in *. cbn in Hinv. split; [lia |]. split; [lia |]. intros _. rewrite F4, F5, Hb, Hp'. cbn. split_and!; try done. lia.
Qed.
End Budget.

Lemma wp_timers_within T0 S0 n t b :
  0 <= T0 < 2 ^ 63 -> within T0 S0 t b ->
  wps legal (answers (T0 + kRestartWindowMs)) after (messageLoop (replicate n Timer) t) b (λ t' b', within T0 S0 t' b').
Proof.
  intros HT. revert t b. induction n as [|n IH]; intros t b Hin; cbn [replicate messageLoop]; [done |].
  destruct (window_ t) eqn:Ew; [|done]. pose proof Hin as (Hok & _ & _ & Hw). destruct (Hw Ew) as (Hsu & Hcf & _).
  apply wps_bind, wp_pollEngine; [done |]. intros t1 b1 Hm Hp. apply IH. eapply polled_within; eauto.
Qed.

(** a tray that is left alone does not start the engine over and over: in ten minutes,
    however often the engine fails and whatever it reports, it starts it once and restarts
    it at most three times. *)
Theorem restarts_bounded args live n now oracle :
  0 <= now < 2 ^ 63 -> honest (answers (now + kRestartWindowMs)) after (openBooks now) oracle ->
  let '(_, history) := play oracle (t ← trayStart (newTrayApp args live true); messageLoop (replicate n Timer) t) [] in
  engineStarts history <= 1 + kMaxAutomaticRestarts.
Proof.
  intros Hnow Ho. pose proof (wps_play legal (answers (now + kRestartWindowMs)) after (openBooks now) oracle
    (t ← trayStart (newTrayApp args live true); messageLoop (replicate n Timer) t) [] (within now 1) Ho (conj I I)) as H.
  destruct (play oracle _ []) as [t1 h1]. rewrite (engineStarts_from now). destruct H as [H _]; [|apply H].
  apply wps_bind. change (trayStart (newTrayApp args live true)) with (startEngine false (newTrayApp args live true)).
  destruct (ok_new args live true now) as [Hb Hs]. apply wp_startEngine; [done | done | by intros [|[]] |].
  intros _ _ t b [B Sh (F1 & F2 & F3 & F4 & F5) P Bu C Out]. apply wp_timers_within; [done |].
  assert (Hst : starts b <= 1) by (destruct Out as [(_ & _ & ->)|(_ & _ & ->)]; cbn; lia).
  split; [by split |]. split; [unfold kMaxAutomaticRestarts; lia |]. split; [exact C |]. intros _. rewrite F4, F5, P, Bu.
  split; [done |]. split; [done |]. split; [by split |]. change (starts b + 0 <= 1 + 0). lia.
Qed.

(** *** A hung engine *)

Definition is_kill (c : Os) : bool := match c with TerminateProcess _ _ => true | _ => false end.
Definition killed (history : list (Event Answer)) : list Z :=
  history ≫= λ e, match projT1 e with TerminateProcess h _ => [h] | _ => [] end.

(** Programs that terminate nothing. *)
Notation spares p := (wps (λ (_ : unit) c, is_kill c = false) (λ _ _ _, True) (λ _ _ _, tt) p tt (λ _ _, True)).

Lemma spares_bind {A B} (p : Tray A) (f : A -> Tray B) : spares p -> (forall a, spares (f a)) -> spares (p ≫= f).
Proof. intros Hp Hf. apply wps_bind. eapply wps_mono; [exact Hp |]. intros a [] _. apply Hf. Qed.
Lemma spares_os c : is_kill c = false -> spares (os c).
Proof. intros Hc. split; [done |]. by intros. Qed.
Lemma spares_play {A} oracle (p : Tray A) h : spares p -> killed (play oracle p h).2 = killed h.
Proof.
  revert h. induction p as [a|c k IH]; intros h; cbn; [done |]. intros [Hc Hk]. rewrite IH by (by apply Hk).
  unfold killed. rewrite bind_app, bind_singleton. cbn. destruct c; try done; by rewrite app_nil_r.
Qed.

Lemma play_then {A B} oracle (p : Tray A) (f : A -> Tray B) h :
  play oracle (p ≫= f) h = let '(a, h') := play oracle p h in play oracle (f a) h'.
Proof. apply play_bind. Qed.

Ltac spare :=
  repeat first
    [ exact I | apply spares_os; reflexivity
    | apply spares_bind; [|intros ?] | case_if
    | match goal with |- context [match ?x with _ => _ end] => destruct x end ].

Lemma spares_setState s t : spares (setState s t).
Proof. unfold setState. spare. Qed.
Lemma spares_close t : spares (closeEngineHandles t).
Proof. unfold closeEngineHandles, closeIf. spare. Qed.
Lemma spares_startFailed t : spares (startFailed t).
Proof. unfold startFailed. apply spares_bind; [apply spares_setState | intros ?; spare]. Qed.
Lemma spares_startEngine a t : spares (startEngine a t).
Proof.
  unfold startEngine, uniqueEventName.
  repeat first [ apply spares_startFailed | apply spares_setState | apply spares_close | exact I | apply spares_os; reflexivity
    | apply spares_bind; [|intros ?] | case_if | match goal with |- context [match ?x with _ => _ end] => destruct x end ].
Qed.
Lemma spares_handleEngineExit code now t : spares (handleEngineExit code now t).
Proof.
  unfold handleEngineExit, scheduleAutomaticRestart, destroyWindow.
  repeat first [ apply spares_startEngine | apply spares_setState | apply spares_close | exact I | apply spares_os; reflexivity
    | apply spares_bind; [|intros ?] | case_if | match goal with |- context [let '(_, _) := ?x in _] => destruct x end ].
Qed.

Lemma spares_reap h now t : spares (reapEngine h now t).
Proof.
  apply spares_bind; [by apply spares_os |]. intros e. case_if; [done |].
  apply spares_bind; [by apply spares_os |]. intros c. apply spares_handleEngineExit.
Qed.

Lemma killed_snoc hist c (r : Answer c) : killed (hist ++ [existT c r]) = killed hist ++ match c with TerminateProcess h _ => [h] | _ => [] end.
Proof. unfold killed. by rewrite bind_app, bind_singleton. Qed.

(** at a turn of the timer the tray terminates its engine exactly when it hangs: it is
    still starting (and has not just reported ready) or stopping, ten seconds have passed
    since it entered that state, it has not ended, and it has not been terminated before.
    A running engine is never terminated. *)
Theorem hung_engine_killed t h (ans : forall c, Answer c) :
  engineProcess_ t = Some h -> setupProcess_ t = None ->
  let ready := match readyEvent_ t with Some r => ans (Signaled r) | None => false end in
  killed (play (λ _ c, ans c) (pollEngine t) []).2 =
    if negb (engineKilled_ t) &&
       (bool_decide (state_ t = Stopping) || bool_decide (state_ t = Starting) && negb ready) &&
       (kEngineTransitionTimeoutMs <=? w64 (ans Tick - stateSinceMs_ t)) && negb (ans (Signaled h))
    then [h] else [].
Proof.
  intros He Hsu ready. unfold pollEngine, pollSetup. rewrite Hsu. cbn [mbind tray_bind mret tray_ret sys_bind os call play].
  rewrite He. unfold watchEngine. rewrite play_then.
  assert (Hkill : forall t1 hist, killed hist = [] -> killed (play (λ _ c, ans c) (t ← killHung h (ans Tick) t1; reapEngine h (ans Tick) t) hist).2 =
    if negb (engineKilled_ t1) && (bool_decide (state_ t1 = Starting) || bool_decide (state_ t1 = Stopping)) &&
       (kEngineTransitionTimeoutMs <=? w64 (ans Tick - stateSinceMs_ t1)) && negb (ans (Signaled h)) then [h] else []).
  { intros t1 hist Hk. rewrite play_then. unfold killHung. case_if; cbn [andb].
    - cbn [mbind tray_bind sys_bind os call play]. destruct (ans (Signaled h)); cbn [negb mbind tray_bind mret tray_ret sys_bind os call play];
        rewrite spares_play by apply spares_reap; by rewrite !killed_snoc, Hk.
    - cbn [play mret tray_ret]. by rewrite spares_play by apply spares_reap. }
  assert (Hsame : forall hist, killed hist = [] -> ready = false \/ state_ t <> Starting -> killed (play (λ _ c, ans c) (t ← killHung h (ans Tick) t; reapEngine h (ans Tick) t) hist).2 =
    if negb (engineKilled_ t) && (bool_decide (state_ t = Stopping) || bool_decide (state_ t = Starting) && negb ready) &&
       (kEngineTransitionTimeoutMs <=? w64 (ans Tick - stateSinceMs_ t)) && negb (ans (Signaled h)) then [h] else []).
  { intros hist Hk Hr. rewrite Hkill by done. rewrite (orb_comm (bool_decide (state_ t = Starting))).
    destruct Hr as [-> | Hr]; [by rewrite andb_true_r |]. by rewrite (bool_decide_eq_false_2 _ Hr). }
  unfold noteReady. destruct (bool_decide_reflect (state_ t = Starting)) as [Es|Es].
  2: { etransitivity; [apply Hsame; [done | by right] |]. done. }
  assert (Hno : ready = false -> forall hist, killed hist = [] -> killed (play (λ _ c, ans c) (t ← killHung h (ans Tick) t; reapEngine h (ans Tick) t) hist).2 =
    if negb (engineKilled_ t) && (bool_decide (state_ t = Stopping) || true && negb ready) &&
       (kEngineTransitionTimeoutMs <=? w64 (ans Tick - stateSinceMs_ t)) && negb (ans (Signaled h)) then [h] else []).
  { intros Hr hist Hk. by rewrite (Hsame hist Hk) by auto. }
  unfold ready in *. destruct (readyEvent_ t) as [r|] eqn:Er; [|by apply Hno].
  destruct (ans (Signaled r)) eqn:Ea; cbn [mbind tray_bind sys_bind os call play]; rewrite Ea; [|by apply Hno].
  unfold setState. rewrite bool_decide_eq_false_2 by congruence. cbn [mbind tray_bind mret tray_ret sys_bind os call play].
  etransitivity; [by apply Hkill |]. cbn [state_ set_state_ engineKilled_ set_stateSinceMs_]. rewrite Es. by rewrite !andb_false_r.
Qed.

(** ** A world to run in *)

(** Everything works, time passes, and every engine dies at once with [code]. *)
Definition freshHandle (b : Books) : Z := 1 + foldr Z.max 0 (open b).

Definition sampleOracle (now horizon code : Z) : Oracle Answer := λ h c,
  let b := ledger after (openBooks now) h in
  match c return Answer c with
  | Tick => Z.min (clock b + 5000) (horizon - 1)
  | CurrentProcessId => 4
  | ExecutablePath => str "C:\s.exe"
  | CreateEvent _ => Some (freshHandle b)
  | CreateProcess _ _ => Some (freshHandle b, freshHandle b + 1)
  | CloseHandle _ | SetEvent _ | TerminateProcess _ _ | Balloon _ | DestroyWindow => tt
  | Signaled _ => true
  | ExitCode _ => code
  | LoadConfig => newConfig
  | SaveConfig _ => true
  end.

Lemma freshHandle_spec b x : x ∈ open b -> x < freshHandle b.
Proof.
  unfold freshHandle. induction (open b) as [|y l IH]; [by intros ?%elem_of_nil |].
  intros [->|Hx]%elem_of_cons; cbn; [lia |]. specialize (IH Hx). lia.
Qed.

Lemma clock_below horizon b h : all_answered (answers horizon) after b h -> clock b < horizon -> clock (ledger after b h) < horizon.
Proof.
  revert b. induction h as [|[c r] h IH]; intros b; cbn; [done |]. intros [Ha Hh] Hb. apply (IH _ Hh).
  destruct c; cbn in *; try done; [lia |]. by destruct r as [[]|].
Qed.

Lemma sample_honest now horizon code : now < horizon -> honest (answers horizon) after (openBooks now) (sampleOracle now horizon code).
Proof.
  intros Hn h c Ha. pose proof (clock_below horizon (openBooks now) h Ha Hn) as Hc. unfold sampleOracle.
  set (b := ledger after (openBooks now) h) in *.
  destruct c; cbn; try done; [lia | |].
  - intros x [= <-] Hin. apply freshHandle_spec in Hin. lia.
  - intros p t [= <- <-]. split_and!; [| |lia]; intros Hin; apply freshHandle_spec in Hin; lia.
Qed.

Lemma tray_handles_safe_witness :
  let '(_, history) := play (sampleOracle 0 1000000 2) (trayRun [Timer; Timer; Timer; CommandSetup; CommandStop; CommandExit] (newTrayApp [] [] true)) [] in
  all_legal legal after (openBooks 0) history /\ open (ledger after (openBooks 0) history) = [].
Proof. apply (tray_handles_safe [] [] true [Timer; Timer; Timer; CommandSetup; CommandStop; CommandExit] 1000000 0). by apply sample_honest. Defined.

Lemma stop_is_final_witness :
  let '(t1, h1) := play (sampleOracle 0 1000000 2) (t ← trayStart (newTrayApp [] [] true); messageLoop [Timer; Timer] t) [] in
  let '(_, h2) := play (sampleOracle 0 1000000 2) (messageLoop (CommandStop :: replicate 3 Timer) t1) h1 in
  engineStarts h2 = engineStarts h1.
Proof.
  pose proof (stop_is_final [] [] true [Timer; Timer] 3 1000000 0 (sampleOracle 0 1000000 2) (sample_honest 0 1000000 2 ltac:(lia))) as H.
  assert (Hsu : setupProcess_ (play (sampleOracle 0 1000000 2) (t ← trayStart (newTrayApp [] [] true); messageLoop [Timer; Timer] t) []).1 = None)
    by (vm_compute; reflexivity).
  destruct (play (sampleOracle 0 1000000 2) (t ← trayStart (newTrayApp [] [] true); messageLoop [Timer; Timer] t) []) as [t1 h1].
  exact (H Hsu).
Defined.

Lemma restarts_bounded_witness :
  let '(_, history) := play (sampleOracle 0 600000 2) (t ← trayStart (newTrayApp [] [] true); messageLoop (replicate 12 Timer) t) [] in
  engineStarts history <= 4.
Proof. apply (restarts_bounded [] [] 12 0); [lia | by apply sample_honest]. Defined.

(** The bound is reached. *)
Example restarts_reached :
  engineStarts (play (sampleOracle 0 600000 2) (t ← trayStart (newTrayApp [] [] true); messageLoop (replicate 12 Timer) t) []).2 = 4.
Proof. vm_compute. reflexivity. Qed.

Definition hung : TrayApp :=
  set_state_ Stopping (set_readyEvent_ (Some 3) (set_shutdownEvent_ (Some 2) (set_engineProcess_ (Some 1) (newTrayApp [] [] true)))).
Definition hung_answers (c : Os) : Answer c :=
  match c return Answer c with
  | Tick => 20000 | CurrentProcessId => 4 | ExitCode _ => 0 | ExecutablePath => [] | CreateEvent _ => None
  | CreateProcess _ _ => None | Signaled _ => false | SaveConfig _ => true | LoadConfig => newConfig
  | CloseHandle _ | SetEvent _ | TerminateProcess _ _ | Balloon _ | DestroyWindow => tt
  end.
Lemma hung_engine_killed_witness : killed (play (λ _ c, hung_answers c) (pollEngine hung) []).2 = [1].
Proof. rewrite (hung_engine_killed hung 1 hung_answers); reflexivity. Defined.
