(* ===== verification/DnsMessage.v ===== *)
(** * DnsMessage: DNS queries and responses on the wire

    Models [src/src/DnsMessage.hpp] and [src/src/DnsMessage.cpp] (namespace
    [dns_message]). A message is the list of its bytes; an access outside it, or a loop
    out of fuel, is a fault ([None]). Offsets are [size_t] values below the message length
    plus 2^17, so their sums are exact. A null pointer is the empty message. [inet_pton] is
    a parameter of [buildResponse]. *)

From S2P Require Import Prelude.

Definition kTypeA : Z := 1.
Definition kTypeAaaa : Z := 28.
Definition kRcodeNoError : Z := 0.
Definition kRcodeFormErr : Z := 1.
Definition kRcodeServFail : Z := 2.
Definition kRcodeNxDomain : Z := 3.
Definition kRcodeNotImp : Z := 4.
Definition kClassicUdpPayload : Z := 512.

Record Query := mkQuery {
  q_id : Z;
  q_type : Z;
  recursionDesired : bool;
  opcode : Z;
  ednsPayload : Z;
  dnssecOk : bool;
  q_error : Z;
  q_name : bytes;
  question : bytes;
}.
(** [Query{}] *)
Definition emptyQuery : Query := mkQuery 0 0 false 0 0 false 0 [] [].

Definition setError (q : Query) (e : Z) : Query :=
  mkQuery (q_id q) (q_type q) (recursionDesired q) (opcode q) (ednsPayload q) (dnssecOk q) e
    (q_name q) (question q).
Definition setEdns (q : Query) (payload : Z) (d : bool) : Query :=
  mkQuery (q_id q) (q_type q) (recursionDesired q) (opcode q) payload d (q_error q)
    (q_name q) (question q).

Definition kHeaderSize : Z := 12.
Definition kClassInternet : Z := 1.
Definition kTypeOpt : Z := 41.
Definition kMaxNameLength : Z := 253.
Definition kMaxAnswers : Z := 8.
Definition kAdvertisedPayload : Z := 1232.

Definition read16 (data : bytes) (i : Z) : option Z := rd16 data i.
Definition read32 (data : bytes) (i : Z) : option Z := rd32 data i.

Definition write16 (data : bytes) (i value : Z) : option bytes :=
  d ← wr data i (w8 (Z.shiftr value 8)); wr d (i + 1) (w8 value).
Definition write32 (data : bytes) (i value : Z) : option bytes :=
  d ← wr data i (w8 (Z.shiftr value 24)); d ← wr d (i + 1) (w8 (Z.shiftr value 16));
  d ← wr d (i + 2) (w8 (Z.shiftr value 8)); wr d (i + 3) (w8 value).

Definition isNameChar (c : Z) : bool :=
  ((97 <=? c) && (c <=? 122)) || ((48 <=? c) && (c <=? 57)) || (c =? 45) || (c =? 95).

Definition lowerAscii (c : Z) : Z := if (65 <=? c) && (c <=? 90) then c + 32 else c.

(** ** Queries *)

(** The loop of [parseEdns] over the additional records. *)
Fixpoint parseEdns_loop (count : nat) (data : bytes) (offset : Z) (out : Query) : option Query :=
  match count with
  | O => Some out
  | S count =>
      if zlen data <? offset + 11 then Some out else
      b ← rd data offset;
      if negb (b =? 0) then Some out else
      type ← read16 data (offset + 1);
      recordClass ← read16 data (offset + 3);
      ttl ← read32 data (offset + 5);
      rdLength ← read16 data (offset + 9);
      if zlen data <? offset + 11 + rdLength then Some out else
      if type =? kTypeOpt then Some (setEdns out recordClass (negb (Z.land ttl 0x8000 =? 0)))
      else parseEdns_loop count data (offset + (11 + rdLength)) out
  end.

Definition parseEdns (data : bytes) (offset : Z) (out : Query) : option Query :=
  an ← read16 data 6;
  if negb (an =? 0) then Some out else
  ns ← read16 data 8;
  if negb (ns =? 0) then Some out else
  ar ← read16 data 10;
  parseEdns_loop (Z.to_nat ar) data offset out.

(** The characters of one label, lowercased and checked. *)
Definition parseLabel (label : bytes) : option bytes :=
  if forallb (λ c, isNameChar (lowerAscii c)) label then Some (lowerAscii <$> label) else None.

(** The label loop of [parseQuery]: the offset after the root label and the name;
    [Some None] is a [return false]. *)
Fixpoint parseName_loop (fuel : nat) (data : bytes) (offset : Z) (name : bytes)
    : option (option (Z * bytes)) :=
  match fuel with
  | O => None
  | S f =>
      if zlen data <=? offset then Some None else
      labelLength ← rd data offset;
      let offset := offset + 1 in
      if labelLength =? 0 then Some (Some (offset, name)) else
      if negb (Z.land labelLength 0xC0 =? 0) || (63 <? labelLength) ||
         (zlen data <? offset + labelLength)
      then Some None else
      let name := match name with [] => name | _ => name ++ [46] end in
      if kMaxNameLength <? zlen name + labelLength then Some None else
      match parseLabel (slice data offset labelLength) with
      | None => Some None
      | Some label => parseName_loop f data (offset + labelLength) (name ++ label)
      end
  end.

(** The return value and the query left in [out]. *)
Definition parseQuery (data : bytes) : option (bool * Query) :=
  let length := zlen data in
  if length <? kHeaderSize then Some (false, emptyQuery) else
  flags ← read16 data 2;
  if negb (Z.land flags 0x8000 =? 0) then Some (false, emptyQuery) else
  id ← read16 data 0;
  let op := w8 (Z.land (Z.shiftr flags 11) 0x0F) in
  let out := mkQuery id 0 (negb (Z.land flags 0x0100 =? 0)) op 0 false 0 [] [] in
  if negb (op =? 0) then Some (false, setError out kRcodeNotImp) else
  let out := setError out kRcodeFormErr in
  qd ← read16 data 4;
  if negb (qd =? 1) then Some (false, out) else
  let? (offset, name) := parseName_loop (S (Z.to_nat length)) data kHeaderSize []
    else Some (false, out) in
  if bool_decide (name = []) || (length <? offset + 4) then Some (false, out) else
  type ← read16 data offset;
  queryClass ← read16 data (offset + 2);
  let offset := offset + 4 in
  if negb (queryClass =? kClassInternet) then Some (false, setError out kRcodeNotImp) else
  let out := mkQuery id type (recursionDesired out) op 0 false 0 name
               (slice data kHeaderSize (offset - kHeaderSize)) in
  out ← parseEdns data offset out;
  Some (true, out).

(** ** Walking a message *)

(** [skipName]: the offset after the name, or [Some None] for [return false]. *)
Fixpoint skipName_loop (fuel : nat) (data : bytes) (offset : Z) : option (option Z) :=
  match fuel with
  | O => None
  | S f =>
      if zlen data <=? offset then Some None else
      first ← rd data offset;
      if first =? 0 then Some (Some (offset + 1))
      else if Z.land first 0xC0 =? 0xC0 then
        if zlen data <? offset + 2 then Some None else Some (Some (offset + 2))
      else if negb (Z.land first 0xC0 =? 0) then Some None
      else skipName_loop f data (offset + (1 + first))
  end.
Definition skipName (data : bytes) (offset : Z) : option (option Z) :=
  skipName_loop (S (Z.to_nat (zlen data))) data offset.

Record RecordRef := mkRecordRef { r_type : Z; section : Z; ttlOffset : Z }.

Fixpoint walkQuestions (n : nat) (data : bytes) (offset : Z) : option (option Z) :=
  match n with
  | O => Some (Some offset)
  | S n =>
      let? offset := skipName data offset else Some None in
      if zlen data <? offset + 4 then Some None else walkQuestions n data (offset + 4)
  end.

(** One section; [records] is what has been collected so far. *)
Fixpoint walkSection (n : nat) (data : bytes) (sec offset : Z) (records : list RecordRef)
    : option (option (Z * list RecordRef)) :=
  match n with
  | O => Some (Some (offset, records))
  | S n =>
      let? offset := skipName data offset else Some None in
      if zlen data <? offset + 10 then Some None else
      type ← read16 data offset;
      rdLength ← read16 data (offset + 8);
      let ref := mkRecordRef type sec (offset + 4) in
      let offset := offset + 10 in
      if zlen data <? offset + rdLength then Some None
      else walkSection n data sec (offset + rdLength) (records ++ [ref])
  end.

(** [walk]: [questionEnd] and the records. *)
Definition walk (data : bytes) : option (option (Z * list RecordRef)) :=
  if zlen data <? kHeaderSize then Some None else
  questions ← read16 data 4;
  c0 ← read16 data 6; c1 ← read16 data 8; c2 ← read16 data 10;
  let total := c0 + c1 + c2 in
  if zlen data <? questions * 5 + total * 11 then Some None else
  let? offset := walkQuestions (Z.to_nat questions) data kHeaderSize else Some None in
  let questionEnd := offset in
  let? (offset, records) := walkSection (Z.to_nat c0) data 0 offset [] else Some None in
  let? (offset, records) := walkSection (Z.to_nat c1) data 1 offset records else Some None in
  let? (offset, records) := walkSection (Z.to_nat c2) data 2 offset records else Some None in
  Some (Some (questionEnd, records)).

(** ** Responses *)

Section buildResponse.
(** [inet_pton] for each family: the address bytes, or [None] on malformed text. *)
Variable inet_pton4 inet_pton6 : bytes -> option bytes.

(** The loop that encodes at most [kMaxAnswers] addresses. *)
Fixpoint encodeAddresses (parse : bytes -> option bytes) (addresses : list bytes) (n : nat)
    : list bytes :=
  match n, addresses with
  | S n', a :: rest =>
      match parse a with
      | Some b => b :: encodeAddresses parse rest n'
      | None => encodeAddresses parse rest n
      end
  | _, _ => []
  end.

Definition answerRecord (type ttlSeconds addressLength : Z) (address : bytes) : bytes :=
  be16 0xC00C ++ be16 type ++ be16 kClassInternet ++ be32 ttlSeconds ++ be16 addressLength ++
  take (Z.to_nat addressLength) address.

Definition optRecord : bytes :=
  [0] ++ be16 kTypeOpt ++ be16 kAdvertisedPayload ++ be32 0 ++ be16 0.

Definition buildResponse (q : Query) (addresses : list bytes) (ttlSeconds : Z) (failed : bool)
    (rcode : Z) : bytes :=
  let effectiveRcode := if failed && (rcode =? 0) then kRcodeServFail else rcode in
  let carriesAnswers := effectiveRcode =? 0 in
  let '(encoded, addressLength) :=
    if carriesAnswers && ((q_type q =? kTypeA) || (q_type q =? kTypeAaaa)) then
      (encodeAddresses (if q_type q =? kTypeA then inet_pton4 else inet_pton6) addresses
         (Z.to_nat kMaxAnswers), if q_type q =? kTypeA then 4 else 16)
    else ([], 0) in
  let withOpt := negb (ednsPayload q =? 0) in
  let flags := Z.lor 0x8080 (if recursionDesired q then 0x0100 else 0) in
  let flags := w16 (Z.lor flags (Z.land effectiveRcode 0x0F)) in
  be16 (q_id q) ++ be16 flags ++ be16 1 ++ be16 (w16 (zlen encoded)) ++ be16 0 ++
  be16 (if withOpt then 1 else 0) ++ question q ++
  (encoded ≫= answerRecord (q_type q) ttlSeconds addressLength) ++
  (if withOpt then optRecord else []).
End buildResponse.

Definition buildError (q : Query) (rcode : Z) : bytes :=
  let flags := w16 (Z.lor 0x8080 (Z.shiftl (Z.land (opcode q) 0x0F) 11)) in
  let flags := if recursionDesired q then Z.lor flags 0x0100 else flags in
  let flags := w16 (Z.lor flags (Z.land rcode 0x0F)) in
  be16 (q_id q) ++ be16 flags ++ be16 0 ++ be16 0 ++ be16 0 ++ be16 0.

Record ResponseInfo := mkResponseInfo {
  response : bool;
  truncated : bool;
  i_rcode : Z;
  answers : Z;
  answerTtl : option Z;
  authorityTtl : option Z;
}.

(** [out.ttl = out.hasTtl ? min(out.ttl, ttl) : ttl; out.hasTtl = true;] *)
Definition minTtl (cur : option Z) (ttl : Z) : option Z :=
  Some (match cur with Some t => Z.min t ttl | None => ttl end).

Fixpoint collectTtls (data : bytes) (records : list RecordRef) (out : ResponseInfo)
    : option ResponseInfo :=
  match records with
  | [] => Some out
  | r :: rest =>
      if r_type r =? kTypeOpt then collectTtls data rest out else
      ttl ← read32 data (ttlOffset r);
      let out :=
        if section r =? 0 then
          mkResponseInfo (response out) (truncated out) (i_rcode out) (answers out)
            (minTtl (answerTtl out) ttl) (authorityTtl out)
        else if section r =? 1 then
          mkResponseInfo (response out) (truncated out) (i_rcode out) (answers out)
            (answerTtl out) (minTtl (authorityTtl out) ttl)
        else out in
      collectTtls data rest out
  end.

(** [inspectResponse]: [Some None] is [return false]. *)
Definition inspectResponse (data : bytes) : option (option ResponseInfo) :=
  let? (questionEnd, records) := walk data else Some None in
  flags ← read16 data 2;
  an ← read16 data 6;
  out ← collectTtls data records
    (mkResponseInfo (negb (Z.land flags 0x8000 =? 0)) (negb (Z.land flags 0x0200 =? 0))
       (Z.land flags 0x000F) an None None);
  Some (Some out).

Definition echoesQuestion (data : bytes) (q : Query) : option bool :=
  if zlen data <? kHeaderSize + zlen (question q) then Some false else
  qd ← read16 data 4;
  if negb (qd =? 1) || bool_decide (question q = []) then Some false else
  Some (bool_decide ((lowerAscii <$> slice data kHeaderSize (zlen (question q))) =
                     (lowerAscii <$> question q))).

Definition setId (message : bytes) (id : Z) : option bytes :=
  if 2 <=? zlen message then write16 message 0 id else Some message.

(** [ttl > age ? ttl - age : (ttl > 0 ? 1 : 0)] *)
Definition agedTtl (ttl age : Z) : Z := if age <? ttl then ttl - age else if 0 <? ttl then 1 else 0.

Fixpoint ageRecords (message : bytes) (records : list RecordRef) (age : Z) : option bytes :=
  match records with
  | [] => Some message
  | r :: rest =>
      if r_type r =? kTypeOpt then ageRecords message rest age else
      ttl ← read32 message (ttlOffset r);
      m ← write32 message (ttlOffset r) (agedTtl ttl age);
      ageRecords m rest age
  end.

Definition ageTtls (message : bytes) (ageSeconds : Z) : option bytes :=
  let? (questionEnd, records) := walk message else Some message in
  ageRecords message records ageSeconds.

(** The return value and the message. *)
Definition truncateForUdp (message : bytes) (limit : Z) : option (bool * bytes) :=
  if (zlen message <=? limit) || (zlen message <? kHeaderSize) then Some (false, message) else
  w ← walk message;
  let cut := match w with Some (questionEnd, _) => questionEnd | None => kHeaderSize end in
  let m := take (Z.to_nat cut) message in
  flags ← read16 m 2;
  m ← write16 m 2 (w16 (Z.lor flags 0x0200));
  m ← match w with Some _ => Some m | None => write16 m 4 0 end;
  m ← write16 m 6 0;
  m ← write16 m 8 0;
  m ← write16 m 10 0;
  Some (true, m).

(** ** Where a walk reads *)

(** The bytes of the TTL fields of some records, and records laid out one after another
    in a region of the message. *)
Definition ttl_field (rs : list RecordRef) (j : Z) : Prop :=
  Exists (λ r, ttlOffset r <= j < ttlOffset r + 4) rs.
Fixpoint laid_out (lo hi : Z) (rs : list RecordRef) : Prop :=
  match rs with
  | [] => lo <= hi
  | r :: rs => lo <= ttlOffset r /\ laid_out (ttlOffset r + 4) hi rs
  end.

Lemma laid_out_le lo hi rs : laid_out lo hi rs -> lo <= hi.
Proof. revert lo. induction rs as [|r rs IH]; intros lo; simpl; [done |]. intros [? H%IH]. lia. Qed.

Lemma laid_out_field lo hi rs j : laid_out lo hi rs -> ttl_field rs j -> lo <= j < hi.
Proof.
  revert lo. induction rs as [|r rs IH]; intros lo; simpl; [by intros _ ?%Exists_nil |].
  intros [? H] [Hj|Hj]%Exists_cons; [apply laid_out_le in H; lia |]. specialize (IH _ H Hj). lia.
Qed.

Lemma laid_out_mono lo lo' hi hi' rs :
  lo' <= lo -> hi <= hi' -> laid_out lo hi rs -> laid_out lo' hi' rs.
Proof.
  revert lo lo'. induction rs as [|r rs IH]; intros lo lo'; simpl; [lia |].
  intros ?? [? H]. split; [lia |]. by eapply IH; [| |exact H].
Qed.

Lemma laid_out_app lo mid hi rs rs' :
  laid_out lo mid rs -> laid_out mid hi rs' -> laid_out lo hi (rs ++ rs').
Proof.
  revert lo. induction rs as [|r rs IH]; intros lo; simpl.
  - intros ? H. by eapply laid_out_mono; [| |exact H].
  - intros [? H] H'. split; [done | by apply IH].
Qed.

Lemma rd16_local d e i : (forall j, i <= j < i + 2 -> rd e j = rd d j) -> rd16 e i = rd16 d i.
Proof. intros H. unfold rd16. by rewrite !H by lia. Qed.
Lemma rd32_local d e i : (forall j, i <= j < i + 4 -> rd e j = rd d j) -> rd32 e i = rd32 d i.
Proof. intros H. unfold rd32. by rewrite !H by lia. Qed.

Lemma skipName_loop_total f d o :
  all_bytes d -> 0 <= o -> Z.max 0 (zlen d - o) < Z.of_nat f ->
  exists r, skipName_loop f d o = Some r.
Proof.
  intros Hd. revert o. induction f as [|f IH]; intros o Ho Hf; [lia |]. simpl.
  case_if; zbool; [eauto |]. destruct (rd_ok d o) as [b Hb]; [lia |]. rewrite Hb. simpl.
  pose proof (rd_byte _ _ _ Hd Hb) as [? ?]. repeat case_if; zbool; eauto; [].
  apply IH; lia.
Qed.

Lemma skipName_total d o : all_bytes d -> 0 <= o -> exists r, skipName d o = Some r.
Proof. intros. apply skipName_loop_total; [done | done | zlia]. Qed.

(** A name is skipped forwards, inside the message, and by its own bytes only. *)
Lemma skipName_loop_spec f d o o' :
  all_bytes d -> 0 <= o -> skipName_loop f d o = Some (Some o') ->
  o < o' <= zlen d /\
  forall e f', (forall j, o <= j < o' -> rd e j = rd d j) -> o' <= zlen e ->
    o' - o < Z.of_nat f' -> skipName_loop f' e o = Some (Some o').
Proof.
  intros Hd. revert o. induction f as [|f IH]; intros o Ho; [done |]. simpl.
  case_if; zbool; [done |]. destruct (rd_ok d o) as [b Hb]; [lia |]. rewrite Hb. simpl.
  pose proof (rd_byte _ _ _ Hd Hb) as [? ?]. intros Hs.
  assert (Hout : o < o' <= zlen d /\ (b = 0 -> o' = o + 1) /\ (b <> 0 -> Z.land b 0xC0 = 0xC0 -> o' = o + 2) /\
    (b <> 0 -> Z.land b 0xC0 <> 0xC0 -> o + (1 + b) < o' /\ Z.land b 0xC0 = 0 /\
       forall e f', (forall j, o + (1 + b) <= j < o' -> rd e j = rd d j) -> o' <= zlen e ->
         o' - (o + (1 + b)) < Z.of_nat f' -> skipName_loop f' e (o + (1 + b)) = Some (Some o'))).
  { repeat case_if_in Hs; zbool; simplify_eq; try (split_and!; intros; first [lia | congruence]).
    apply IH in Hs as [? Hloc]; [|lia]. split_and!; try lia. intros _ _. split_and!; [lia | done | done]. }
  clear Hs. destruct Hout as (Hbd & Hz & Hptr & Hrec). split; [done |]. intros e f' He Hlen Hf'.
  destruct f' as [|f']; [lia |]. simpl. rewrite (proj2 (Z.leb_gt _ _)), He, Hb by lia. simpl.
  destruct (b =? 0) eqn:Eb; zbool; [by rewrite Hz |].
  destruct (Z.land b 0xC0 =? 0xC0) eqn:Ep; zbool.
  { rewrite (Hptr Eb Ep) in *. by rewrite (proj2 (Z.ltb_ge _ _)) by lia. }
  destruct (Hrec Eb Ep) as (? & -> & Hl). apply Hl; [intros; apply He; lia | lia | lia].
Qed.

Lemma skipName_spec d o o' :
  all_bytes d -> 0 <= o -> skipName d o = Some (Some o') ->
  o < o' <= zlen d /\
  forall e, (forall j, o <= j < o' -> rd e j = rd d j) -> o' <= zlen e -> skipName e o = Some (Some o').
Proof.
  intros Hd Ho [? Hl]%skipName_loop_spec; [|done | done]. split; [done |]. intros e He Hlen.
  apply Hl; [done | done | zlia].
Qed.

Lemma walkQuestions_total n d o : all_bytes d -> 0 <= o -> exists r, walkQuestions n d o = Some r.
Proof.
  intros Hd. revert o. induction n as [|n IH]; intros o Ho; simpl; [eauto |].
  destruct (skipName_total d o Hd Ho) as [[o1|] Hs]; rewrite Hs; [|eauto].
  apply skipName_spec in Hs as [? _]; [|done | done]. case_if; [eauto | apply IH; lia].
Qed.

Lemma walkQuestions_spec n d o o' :
  all_bytes d -> 0 <= o <= zlen d -> walkQuestions n d o = Some (Some o') ->
  o + 5 * Z.of_nat n <= o' <= zlen d /\
  forall e, (forall j, o <= j < o' -> rd e j = rd d j) -> o' <= zlen e ->
    walkQuestions n e o = Some (Some o').
Proof.
  intros Hd. revert o. induction n as [|n IH]; intros o Ho; simpl.
  { intros [= <-]. split; [lia | done]. }
  destruct (skipName d o) as [[o1|]|] eqn:Hs; try done.
  apply skipName_spec in Hs as [? Hl]; [|done | lia]. case_if; zbool; [done |].
  intros (? & Hl')%IH; [|lia]. split; [lia |]. intros e He Hlen.
  rewrite Hl by (lia || intros; apply He; lia). rewrite (proj2 (Z.ltb_ge _ _)) by lia.
  apply Hl'; [|done]. intros; apply He; lia.
Qed.

Lemma walkSection_total n d sec o rs :
  all_bytes d -> 0 <= o -> exists r, walkSection n d sec o rs = Some r.
Proof.
  intros Hd. revert o rs. induction n as [|n IH]; intros o rs Ho; simpl; [eauto |].
  destruct (skipName_total d o Hd Ho) as [[o1|] Hs]; rewrite Hs; [|eauto].
  apply skipName_spec in Hs as [? _]; [|done | done]. case_if; zbool; [eauto |].
  unfold read16. destruct (rd16_ok d o1) as [t ->]; [lia | lia |]. simpl.
  destruct (rd16_ok d (o1 + 8)) as [len Hlen]; [lia | lia |]. rewrite Hlen. simpl.
  apply rd16_inv in Hlen. case_if; [eauto | apply IH; lia].
Qed.

(** A section is walked forwards; the result does not depend on the TTL fields. *)
Lemma walkSection_spec n d sec o rs0 o' rs1 :
  all_bytes d -> 0 <= o <= zlen d -> walkSection n d sec o rs0 = Some (Some (o', rs1)) ->
  o + 11 * Z.of_nat n <= o' <= zlen d /\ exists rs, rs1 = rs0 ++ rs /\ laid_out o o' rs /\
  Forall (λ r, section r = sec) rs /\
  forall e rs0', (forall j, o <= j < o' -> ~ ttl_field rs j -> rd e j = rd d j) -> o' <= zlen e ->
    walkSection n e sec o rs0' = Some (Some (o', rs0' ++ rs)).
Proof.
  intros Hd. revert o rs0. induction n as [|n IH]; intros o rs0 Ho; simpl.
  { intros [= <- <-]. split; [lia |]. exists []. rewrite app_nil_r.
    split_and!; [done | simpl; lia | done |]. intros. by rewrite app_nil_r. }
  destruct (skipName d o) as [[o1|]|] eqn:Hs; try done.
  apply skipName_spec in Hs as [? Hl]; [|done | lia]. case_if; zbool; [done |]. unfold read16.
  destruct (rd16 d o1) as [t|] eqn:Ht; [|done]. simpl.
  destruct (rd16 d (o1 + 8)) as [len|] eqn:Hlen; [|done]. simpl. pose proof (rd16_inv _ _ _ Hlen).
  case_if; zbool; [done |]. set (r := mkRecordRef t sec (o1 + 4)).
  intros (? & rs & -> & Hlay & Hsec & Hl')%IH; [|lia]. split; [lia |]. exists (r :: rs).
  split_and!.
  - by rewrite <- app_assoc.
  - simpl. split; [lia |]. eapply laid_out_mono; [| |exact Hlay]; lia.
  - by constructor.
  - intros e rs0' He Hz.
    assert (Hname : forall j, o <= j < o1 + 4 \/ o1 + 8 <= j < o1 + 10 + len -> rd e j = rd d j).
    { intros j Hj. apply He; [lia |]. intros [Hf|Hf]%Exists_cons; [simpl in Hf; lia |].
      apply (laid_out_field _ _ _ _ Hlay) in Hf. lia. }
    rewrite Hl by (lia || intros; apply Hname; lia). rewrite (proj2 (Z.ltb_ge _ _)) by lia.
    rewrite (rd16_local d e o1), Ht by (intros; apply Hname; lia). simpl.
    rewrite (rd16_local d e (o1 + 8)), Hlen by (intros; apply Hname; lia). simpl.
    rewrite (proj2 (Z.ltb_ge _ _)) by lia. rewrite (Hl' e); [by rewrite <- app_assoc | | done].
    intros j Hj Hnf. apply He; [lia |]. intros [Hf|Hf]%Exists_cons; [simpl in Hf; lia | done].
Qed.

(** A sixteen-bit read inside the message. *)
Ltac read_field d i v H :=
  destruct (rd16_ok d i) as [v H]; [lia | lia |]; rewrite H; cbn [mbind option_bind].

Lemma walk_total d : all_bytes d -> exists r, walk d = Some r.
Proof.
  intros Hd. unfold walk, kHeaderSize, read16. case_if; zbool; [eauto |]. read_field d 4 v Hv. read_field d 6 v0 Hv0.
  read_field d 8 v1 Hv1. read_field d 10 v2 Hv2.
  case_if; zbool; [eauto |].
  destruct (walkQuestions_total (Z.to_nat v) d 12) as [[o|] H0]; [done | lia | |]; rewrite H0; [|eauto].
  apply walkQuestions_spec in H0 as [? _]; [|done | lia].
  destruct (walkSection_total (Z.to_nat v0) d 0 o []) as [[[o1 r1]|] H1]; [done | lia | |]; rewrite H1; [|eauto].
  apply walkSection_spec in H1 as [? _]; [|done | lia].
  destruct (walkSection_total (Z.to_nat v1) d 1 o1 r1) as [[[o2 r2]|] H2]; [done | lia | |]; rewrite H2; [|eauto].
  apply walkSection_spec in H2 as [? _]; [|done | lia].
  destruct (walkSection_total (Z.to_nat v2) d 2 o2 r2) as [[[o3 r3]|] H3]; [done | lia | |]; rewrite H3; eauto.
Qed.

(** What a successful walk knows: the questions end where [questionEnd] says, the records
    follow them one after another, and any message that differs from this one only in TTL
    fields, the identifier and the flags is walked the same way. *)
Lemma walk_spec d q rs :
  all_bytes d -> walk d = Some (Some (q, rs)) ->
  12 <= q <= zlen d /\ laid_out q (zlen d) rs /\
  (exists n, rd16 d 4 = Some n /\ 12 + 5 * n <= q /\
     forall e, (forall j, 12 <= j < q -> rd e j = rd d j) -> q <= zlen e ->
       walkQuestions (Z.to_nat n) e 12 = Some (Some q)) /\
  (forall e, zlen e = zlen d -> (forall j, 4 <= j -> ~ ttl_field rs j -> rd e j = rd d j) ->
     walk e = Some (Some (q, rs))).
Proof.
  intros Hd. unfold walk at 1, read16 at 1 2 3 4, kHeaderSize at 1. case_if; zbool; [done |].
  read_field d 4 v Hv. read_field d 6 v0 Hv0.
  read_field d 8 v1 Hv1. read_field d 10 v2 Hv2. destruct (_ <? _) eqn:Efit; zbool; [done |].
  destruct (walkQuestions (Z.to_nat v) d kHeaderSize) as [[o|]|] eqn:H0; try done.
  apply walkQuestions_spec in H0 as [Hq Lq]; [|done | unfold kHeaderSize; lia].
  destruct (walkSection _ d 0 o []) as [[[o1 r1]|]|] eqn:H1; try done.
  apply walkSection_spec in H1 as (B1 & s1 & -> & A1 & _ & L1); [|done | unfold kHeaderSize in *; lia].
  destruct (walkSection _ d 1 o1 _) as [[[o2 r2]|]|] eqn:H2; try done.
  apply walkSection_spec in H2 as (B2 & s2 & -> & A2 & _ & L2); [|done | unfold kHeaderSize in *; lia].
  destruct (walkSection _ d 2 o2 _) as [[[o3 r3]|]|] eqn:H3; try done.
  apply walkSection_spec in H3 as (B3 & s3 & -> & A3 & _ & L3); [|done | unfold kHeaderSize in *; lia].
  intros [= <- <-]. cbn [app] in *. unfold kHeaderSize in *.
  pose proof (rd16_inv _ _ _ Hv) as (_ & _ & ?).
  assert (Hlay : laid_out o (zlen d) ((s1 ++ s2) ++ s3)).
  { apply (laid_out_mono o o o3); [lia | lia |]. repeat eapply laid_out_app; eauto. }
  split_and!; [lia | lia | done | |].
  - exists v. split_and!; [done | lia | done].
  - intros e Hz He. unfold walk, read16, kHeaderSize. rewrite Hz, (proj2 (Z.ltb_ge _ _)) by lia.
    assert (Hhd : forall j, 4 <= j < o -> rd e j = rd d j).
    { intros j Hj. apply He; [lia |]. intros Hf%(laid_out_field _ _ _ _ Hlay). lia. }
    rewrite (rd16_local d e 4), (rd16_local d e 6), (rd16_local d e 8), (rd16_local d e 10)
      by (intros; apply Hhd; lia). rewrite Hv, Hv0, Hv1, Hv2.
    cbn [mbind option_bind]. rewrite (proj2 (Z.ltb_ge _ _)) by lia.
    rewrite Lq by (lia || intros; apply Hhd; lia).
    assert (Hsub : forall s j, 4 <= j -> (s = s1 \/ s = s2 \/ s = s3) -> ~ ttl_field s j ->
      (forall s', s' = s1 \/ s' = s2 \/ s' = s3 -> s' = s \/ ~ ttl_field s' j) -> rd e j = rd d j).
    { intros s j Hj4 Hs Hn Ho. apply He; [done |]. unfold ttl_field. rewrite !Exists_app.
      intros [[F|F]|F]; [destruct (Ho s1) | destruct (Ho s2) | destruct (Ho s3)]; subst; auto. }
    rewrite (L1 e []); [| |lia].
    2:{ intros j Hj Hn. apply (Hsub s1); auto; [lia |]. intros s' [->|[->| ->]]; auto; right;
        intros Hf; [apply (laid_out_field _ _ _ _ A2) in Hf | apply (laid_out_field _ _ _ _ A3) in Hf]; lia. }
    rewrite (L2 e _); [| |lia].
    2:{ intros j Hj Hn. apply (Hsub s2); auto; [lia |]. intros s' [->|[->| ->]]; auto; right;
        intros Hf; [apply (laid_out_field _ _ _ _ A1) in Hf | apply (laid_out_field _ _ _ _ A3) in Hf]; lia. }
    rewrite (L3 e _); [done | |lia].
    intros j Hj Hn. apply (Hsub s3); auto; [lia |]. intros s' [->|[->| ->]]; auto; right;
        intros Hf; [apply (laid_out_field _ _ _ _ A1) in Hf | apply (laid_out_field _ _ _ _ A2) in Hf]; lia.
Qed.

(** ** Writes *)

Lemma write16_spec d i v :
  0 <= i -> i + 2 <= zlen d -> 0 <= v < 65536 ->
  exists d', write16 d i v = Some d' /\ zlen d' = zlen d /\ rd16 d' i = Some v /\
    (forall j, ~ (i <= j < i + 2) -> rd d' j = rd d j) /\ (all_bytes d -> all_bytes d').
Proof.
  intros Hi Hz Hv. unfold write16. rewrite wr_ok by lia. cbn [mbind option_bind].
  rewrite wr_ok by (rewrite zlen_insert; lia). eexists. split_and!; [done | by rewrite !zlen_insert | | |].
  - unfold rd16. rewrite !rd_insert by (rewrite ?zlen_insert; lia).
    repeat case_if; zbool; try lia. cbn [mbind option_bind].
    rewrite be16_combine, w16_small by lia. done.
  - intros j Hj. rewrite !rd_insert by (rewrite ?zlen_insert; lia). repeat case_if; zbool; try lia; done.
  - intros. do 2 (apply all_bytes_insert; [|apply w8_range]). done.
Qed.

Lemma write32_spec d i v :
  0 <= i -> i + 4 <= zlen d -> 0 <= v < 2 ^ 32 ->
  exists d', write32 d i v = Some d' /\ zlen d' = zlen d /\ rd32 d' i = Some v /\
    (forall j, ~ (i <= j < i + 4) -> rd d' j = rd d j) /\ (all_bytes d -> all_bytes d').
Proof.
  intros Hi Hz Hv. unfold write32.
  do 3 (rewrite wr_ok by (rewrite ?zlen_insert; lia); cbn [mbind option_bind]).
  rewrite wr_ok by (rewrite ?zlen_insert; lia). eexists.
  split_and!; [done | by rewrite !zlen_insert | | |].
  - unfold rd32. rewrite !rd_insert by (rewrite ?zlen_insert; lia).
    repeat case_if; zbool; try lia. cbn [mbind option_bind]. by rewrite be32_combine.
  - intros j Hj. rewrite !rd_insert by (rewrite ?zlen_insert; lia). repeat case_if; zbool; try lia; done.
  - intros. do 4 (apply all_bytes_insert; [|apply w8_range]). done.
Qed.

(** ** Ageing *)

(** The TTL after [age] seconds in a cache: never below one second while it was positive,
    so that a stale answer is not kept for ever nor turned into a permanent one. *)
Definition aged_spec (age ttl : Z) : Z := Z.max (ttl - age) (Z.min 1 ttl).
(** What a response says after ageing. *)
Definition agedInfo (age : Z) (i : ResponseInfo) : ResponseInfo :=
  mkResponseInfo (response i) (truncated i) (i_rcode i) (answers i)
    (aged_spec age <$> answerTtl i) (aged_spec age <$> authorityTtl i).

Lemma agedTtl_spec ttl age : 0 <= ttl -> 0 <= age -> agedTtl ttl age = aged_spec age ttl.
Proof. intros. unfold agedTtl, aged_spec. repeat case_if; zbool; lia. Qed.

Lemma aged_spec_range age ttl : 0 <= age -> 0 <= ttl < 2 ^ 32 -> 0 <= aged_spec age ttl < 2 ^ 32.
Proof. unfold aged_spec. lia. Qed.

Lemma minTtl_aged cur age ttl :
  0 <= age -> minTtl (aged_spec age <$> cur) (aged_spec age ttl) = aged_spec age <$> minTtl cur ttl.
Proof. intros. unfold minTtl, aged_spec. destruct cur; simpl; f_equal; lia. Qed.

(** The two messages carry the same records, those of [m'] with aged TTLs. *)
Definition ages (age : Z) (m m' : bytes) (r : RecordRef) : Prop :=
  rd32 m' (ttlOffset r) =
  (if r_type r =? kTypeOpt then id else aged_spec age) <$> rd32 m (ttlOffset r).

Lemma ageRecords_spec age rs m lo hi :
  0 <= age -> laid_out lo hi rs -> 0 <= lo -> hi <= zlen m ->
  exists m', ageRecords m rs age = Some m' /\ zlen m' = zlen m /\ (all_bytes m -> all_bytes m') /\
    (forall j, ~ ttl_field rs j -> rd m' j = rd m j) /\ Forall (ages age m m') rs.
Proof.
  intros Hage. revert m lo. induction rs as [|r rs IH]; intros m lo Hl Hlo Hhi.
  { exists m. split_and!; done || constructor. }
  simpl in Hl |- *. destruct Hl as [Hr Hl]. pose proof (laid_out_le _ _ _ Hl).
  assert (Hoff : forall j, ttlOffset r <= j < ttlOffset r + 4 -> ~ ttl_field rs j).
  { intros j Hj Hf%(laid_out_field _ _ _ _ Hl). lia. }
  assert (Hne : forall j, ~ ttl_field (r :: rs) j <->
    ~ (ttlOffset r <= j < ttlOffset r + 4) /\ ~ ttl_field rs j).
  { intros j. unfold ttl_field. rewrite Exists_cons. tauto. }
  destruct (r_type r =? kTypeOpt) eqn:Eo.
  - destruct (IH m _ Hl) as (m' & -> & Hz & Hb & Hkeep & Hall); [lia | lia |].
    exists m'. split_and!; try done; [intros j [_ Hj]%Hne; by apply Hkeep |].
    constructor; [|done]. unfold ages. rewrite Eo, option_fmap_id.
    apply rd32_local. intros j Hj. by apply Hkeep, Hoff.
  - destruct (rd32_ok m (ttlOffset r)) as [ttl Ht]; [lia | lia |]. unfold read32. rewrite Ht.
    cbn [mbind option_bind]. pose proof (rd32_inv _ _ _ Ht) as (_ & _ & Htr).
    rewrite agedTtl_spec by lia.
    destruct (write32_spec m (ttlOffset r) (aged_spec age ttl)) as (m1 & -> & Hz1 & Hw & Hk1 & Hb1);
      [lia | lia | by apply aged_spec_range |]. cbn [mbind option_bind].
    destruct (IH m1 _ Hl) as (m' & -> & Hz & Hb & Hkeep & Hall); [lia | lia |].
    exists m'. split_and!; [done | lia | auto | |].
    + intros j [Hj1 Hj2]%Hne. rewrite Hkeep, Hk1 by done. done.
    + constructor.
      * unfold ages. rewrite Eo, Ht. simpl. rewrite <- Hw.
        apply rd32_local. intros j Hj. by apply Hkeep, Hoff.
      * clear IH Hhi. rewrite Forall_forall in Hall |- *. intros r' Hin.
        specialize (Hall r' Hin). unfold ages in *. rewrite Hall. f_equal. apply rd32_local. intros j Hj. apply Hk1.
        intros Hj'. apply (Hoff j Hj'). apply Exists_exists. eauto.
Qed.

Lemma collectTtls_aged age m m' rs out :
  0 <= age -> Forall (ages age m m') rs ->
  collectTtls m' rs (agedInfo age out) = agedInfo age <$> collectTtls m rs out.
Proof.
  intros Hage H. revert out. induction H as [|r rs Hr _ IH]; intros out; [done |]. simpl.
  unfold ages in Hr. unfold read32. destruct (r_type r =? kTypeOpt); [apply IH |]. rewrite Hr.
  destruct (rd32 m (ttlOffset r)) as [ttl|]; [|done]. cbn [fmap option_fmap mbind option_bind].
  rewrite <- IH. f_equal. repeat case_if; [| |done]; unfold agedInfo; simpl;
    rewrite minTtl_aged by done; done.
Qed.

Lemma collectTtls_total m rs lo hi out :
  laid_out lo hi rs -> 0 <= lo -> hi <= zlen m -> exists i, collectTtls m rs out = Some i.
Proof.
  revert lo out. induction rs as [|r rs IH]; intros lo out; simpl; [eauto |].
  intros [? Hl] ??. pose proof (laid_out_le _ _ _ Hl). case_if; [eapply IH; [exact Hl|lia|lia] |].
  unfold read32. destruct (rd32_ok m (ttlOffset r)) as [t ->]; [lia | lia |]. simpl.
  eapply IH; [exact Hl | lia | lia].
Qed.

Lemma inspectResponse_total d : all_bytes d -> exists r, inspectResponse d = Some r.
Proof.
  intros Hd. unfold inspectResponse. destruct (walk_total d Hd) as [[[q rs]|] Hw]; rewrite Hw; [|eauto].
  apply walk_spec in Hw as (? & Hl & _); [|done]. unfold read16. read_field d 2 v Hv. read_field d 6 v0 Hv0.
  match goal with |- context [ collectTtls d rs ?o ] =>
    destruct (collectTtls_total d rs q (zlen d) o) as [i ->]; [done | lia | lia |] end. eauto.
Qed.

(** ** Names on the wire *)

(** A label as [parseQuery] accepts it, the wire form of a list of labels and the dotted
    name they spell. *)
Definition valid_label (l : bytes) : Prop :=
  1 <= zlen l <= 63 /\ Forall (λ c, isNameChar (lowerAscii c) = true) l.
Definition wire_name (labels : list bytes) : bytes := (labels ≫= λ l, zlen l :: l) ++ [0].
Definition dotted (labels : list bytes) : bytes :=
  match labels with [] => [] | l :: ls => l ++ (ls ≫= λ l, 46 :: l) end.
Definition lowered (labels : list bytes) : list bytes := (λ l : bytes, lowerAscii <$> l) <$> labels.

Definition addLabel (name label : bytes) : bytes :=
  match name with [] => name | _ => name ++ [46] end ++ label.

Lemma addLabel_dotted name ls : name <> [] -> foldl addLabel name ls = name ++ (ls ≫= λ l, 46 :: l).
Proof.
  revert name. induction ls as [|l ls IH]; intros name Hn; simpl; [by rewrite app_nil_r |].
  rewrite IH by (destruct name; [done |]; simpl; by destruct (name ++ [46])).
  unfold addLabel. destruct name; [done |]. by rewrite <- !app_assoc.
Qed.

Lemma dotted_foldl ls : Forall (λ l, l <> []) ls -> foldl addLabel [] ls = dotted ls.
Proof. destruct 1 as [|l ls Hl _]; [done |]. simpl. by rewrite addLabel_dotted. Qed.

Lemma lowered_nonempty ls : Forall valid_label ls -> Forall (λ l, l <> []) (lowered ls).
Proof.
  induction 1 as [|l ls [Hl _] _ IH]; constructor; [|done].
  destruct l; [rewrite zlen_nil in Hl; lia | done].
Qed.

Lemma zlen_dotted_lowered ls : zlen (dotted (lowered ls)) = zlen (dotted ls).
Proof.
  assert (Hc : forall l ls, lowered (l :: ls) = (lowerAscii <$> l) :: lowered ls) by done.
  destruct ls as [|l ls]; [done |]. rewrite Hc. unfold dotted. rewrite !zlen_app, zlen_fmap. f_equal.
  induction ls as [|k ls IH]; [done |].
  rewrite Hc, !bind_cons, !zlen_app, !zlen_cons, zlen_fmap, IH. done.
Qed.

Lemma zlen_wire_name ls : ls <> [] -> zlen (wire_name ls) = zlen (dotted ls) + 2.
Proof.
  destruct ls as [|l ls]; [done |]. intros _. unfold wire_name, dotted.
  rewrite bind_cons, !zlen_app, !zlen_cons, zlen_nil.
  assert (zlen (ls ≫= λ l, zlen l :: l) = zlen (ls ≫= λ l, 46 :: l)) as ->; [|lia].
  induction ls as [|k ls IH]; [done |]. rewrite !bind_cons, !zlen_app, !zlen_cons, IH. done.
Qed.

Lemma parseLabel_spec l r :
  parseLabel l = Some r -> Forall (λ c, isNameChar (lowerAscii c) = true) l /\ r = lowerAscii <$> l.
Proof.
  unfold parseLabel. case_if; [|done]. intros [= <-]. split; [|done].
  apply Forall_forall. intros c Hc%list_elem_of_In. rewrite forallb_forall in E. by apply E.
Qed.

Lemma parseLabel_valid l : valid_label l -> parseLabel l = Some (lowerAscii <$> l).
Proof.
  intros [_ H]. unfold parseLabel. rewrite (proj2 (forallb_forall _ _)); [done |].
  intros c Hc%list_elem_of_In. rewrite Forall_forall in H. by apply H.
Qed.

Lemma parseName_loop_total f d o name :
  all_bytes d -> 0 <= o -> Z.max 0 (zlen d - o) < Z.of_nat f ->
  exists r, parseName_loop f d o name = Some r.
Proof.
  intros Hd. revert o name. induction f as [|f IH]; intros o name Ho Hf; [lia |]. simpl.
  case_if; zbool; [eauto |]. destruct (rd_ok d o) as [b Hb]; [lia |]. rewrite Hb. simpl.
  pose proof (rd_byte _ _ _ Hd Hb) as [? ?]. case_if; [eauto |]. do 2 (case_if; [eauto |]). zbool.
  destruct (parseLabel _); [|eauto]. apply IH; lia.
Qed.

Lemma land_c0_small b : 0 <= b <= 63 -> Z.land b 0xC0 = 0.
Proof.
  intros Hb. apply Z.eqb_eq. apply (Z_range_check (λ b, Z.land b 0xC0 =? 0) 64); [done | lia].
Qed.

(** The label loop only accepts the wire form of valid labels, and spells their name; it
    stops where [skipName] stops. *)
Lemma parseName_loop_spec f d o name o' name' :
  all_bytes d -> 0 <= o -> zlen name <= 253 -> parseName_loop f d o name = Some (Some (o', name')) ->
  o < o' <= zlen d /\ zlen name' <= 253 /\ skipName_loop f d o = Some (Some o') /\
  exists labels, slice d o (o' - o) = wire_name labels /\ Forall valid_label labels /\
    name' = foldl addLabel name (lowered labels).
Proof.
  intros Hd. revert o name. induction f as [|f IH]; intros o name Ho Hn; [done |]. simpl.
  case_if; zbool; [done |]. destruct (rd_ok d o) as [b Hb]; [lia |]. rewrite Hb. simpl.
  pose proof (rd_byte _ _ _ Hd Hb) as [? ?]. case_if; zbool.
  { intros [= <- <-]. split_and!; [lia | lia | done | done |]. exists [].
    replace (o + 1 - o) with 1 by lia. rewrite (slice_1 _ _ _ Hb). subst b. done. }
  case_if; [done |]. zbool. destruct (kMaxNameLength <? _) eqn:Ek; [done |]. unfold kMaxNameLength in Ek. zbool.
  destruct (parseLabel _) as [low|] eqn:El; [|done]. apply parseLabel_spec in El as [Hchars ->].
  set (l := slice d (o + 1) b) in *.
  assert (Hl : zlen l = b) by (unfold l; rewrite zlen_slice; lia).
  rewrite <- app_assoc || idtac.
  intros Hs. apply IH in Hs as (? & ? & Hskip & ls & Hsl & Hv & ->);
    [| lia | rewrite zlen_app, zlen_fmap; lia].
  split_and!; [lia | lia | done | |].
  - replace (Z.land b 0xC0) with 0 by done. simpl. rewrite <- Hskip. f_equal. lia.
  - exists (l :: ls). split_and!.
    + replace (o' - o) with (1 + (b + (o' - (o + 1 + b)))) by lia.
      rewrite !slice_split by lia. rewrite (slice_1 _ _ _ Hb), Hsl. fold l.
      unfold wire_name. rewrite bind_cons, Hl. by rewrite <- !app_assoc.
    + constructor; [|done]. split; [lia | done].
    + done.
Qed.

(** And it accepts every such name of at most 253 characters. *)
Lemma parseName_loop_wire labels f pre post name :
  Forall valid_label labels -> zlen (foldl addLabel name (lowered labels)) <= 253 ->
  zlen (wire_name labels) <= Z.of_nat f ->
  parseName_loop f (pre ++ wire_name labels ++ post) (zlen pre) name =
  Some (Some (zlen pre + zlen (wire_name labels), foldl addLabel name (lowered labels))).
Proof.
  intros Hv. revert f pre name. induction Hv as [|l ls Hl Hv IH]; intros f pre name Hn Hf.
  - destruct f as [|f]; [by unfold wire_name in Hf |]. simpl. rewrite (proj2 (Z.leb_gt _ _)) by zlia.
    rewrite rd_app_r by lia. rewrite Z.sub_diag. done.
  - assert (Hw : wire_name (l :: ls) = (zlen l :: l) ++ wire_name ls)
      by (unfold wire_name; by rewrite bind_cons, <- app_assoc).
    rewrite Hw in *. rewrite zlen_app, zlen_cons in Hf. pose proof (zlen_nonneg (wire_name ls)).
    destruct f as [|f]; [destruct Hl; lia |]. cbn [parseName_loop].
    rewrite (proj2 (Z.leb_gt _ _)) by zlia. rewrite rd_app_r by lia. rewrite Z.sub_diag.
    rewrite <- app_assoc. cbn [app]. rewrite rd_cons_0. cbn [mbind option_bind].
    destruct Hl as [Hl Hc]. rewrite (proj2 (Z.eqb_neq _ _)), land_c0_small by lia.
    rewrite (proj2 (Z.ltb_ge 63 _)), (proj2 (Z.ltb_ge _ (zlen pre + 1 + zlen l))) by zlia. cbn [Z.eqb negb orb].
    change (lowered (l :: ls)) with ((lowerAscii <$> l) :: lowered ls) in *. cbn [foldl] in *.
    set (name1 := match name with [] => name | _ => name ++ [46] end).
    assert (Hgrow : forall ks n, zlen n <= zlen (foldl addLabel n ks)).
    { induction ks as [|k ks IHk]; intros n; [simpl; lia |]. cbn [foldl]. etrans; [|apply IHk].
      unfold addLabel. destruct n; zlia. }
    pose proof (Hgrow (lowered ls) (addLabel name (lowerAscii <$> l))) as Hg.
    unfold addLabel in Hg at 1. fold name1 in Hg. rewrite zlen_app, zlen_fmap in Hg.
    rewrite (proj2 (Z.ltb_ge kMaxNameLength _)) by (unfold kMaxNameLength; lia).
    replace (slice _ (zlen pre + 1) (zlen l)) with l.
    2:{ unfold slice. rewrite drop_app_ge by (unfold zlen; lia).
        replace (Z.to_nat (zlen pre + 1) - length pre)%nat with 1%nat by (unfold zlen; lia).
        cbn [skipn]. rewrite drop_0. rewrite take_app_le by (unfold zlen; lia).
        rewrite take_ge by (unfold zlen; lia). done. }
    rewrite parseLabel_valid by done. cbn iota. change (name1 ++ (lowerAscii <$> l)) with (addLabel name (lowerAscii <$> l)).
    specialize (IH f (pre ++ zlen l :: l) (addLabel name (lowerAscii <$> l)) Hn ltac:(lia)).
    replace (zlen pre + 1 + zlen l) with (zlen (pre ++ zlen l :: l)) by zlia.
    rewrite <- app_assoc in IH. cbn [app] in IH. rewrite IH. do 3 f_equal. zlia.
Qed.

Lemma parseEdns_loop_spec n d o q :
  0 <= o -> exists p b, parseEdns_loop n d o q = Some (setEdns q p b) /\ (p = ednsPayload q \/ 0 <= p < 65536).
Proof.
  assert (Hid : setEdns q (ednsPayload q) (dnssecOk q) = q) by (by destruct q).
  revert o. induction n as [|n IH]; intros o Ho; simpl.
  { exists (ednsPayload q), (dnssecOk q). rewrite Hid. auto. }
  case_if; zbool; [exists (ednsPayload q), (dnssecOk q); rewrite Hid; auto |].
  destruct (rd_ok d o) as [b ->]; [lia |]. cbn [mbind option_bind].
  case_if; [exists (ednsPayload q), (dnssecOk q); rewrite Hid; auto |].
  unfold read16, read32. read_field d (o + 1) t Ht. read_field d (o + 3) c Hc.
  destruct (rd32_ok d (o + 5)) as [ttl ->]; [lia | lia |]. cbn [mbind option_bind].
  read_field d (o + 9) len Hlen. apply rd16_inv in Hlen, Hc.
  case_if; [exists (ednsPayload q), (dnssecOk q); rewrite Hid; auto |].
  case_if; [eexists _, _; split; [done | right; lia] |]. apply IH. lia.
Qed.

Lemma parseEdns_spec d o q :
  0 <= o -> 12 <= zlen d ->
  exists p b, parseEdns d o q = Some (setEdns q p b) /\ (p = ednsPayload q \/ 0 <= p < 65536).
Proof.
  intros Ho Hd. assert (Hid : setEdns q (ednsPayload q) (dnssecOk q) = q) by (by destruct q).
  unfold parseEdns, read16. read_field d 6 an Han.
  case_if; [exists (ednsPayload q), (dnssecOk q); rewrite Hid; auto |]. read_field d 8 ns Hns.
  case_if; [exists (ednsPayload q), (dnssecOk q); rewrite Hid; auto |]. read_field d 10 ar Har.
  by apply parseEdns_loop_spec.
Qed.

(** A well-formed query: a header that says "standard query, one question", then the wire
    form of valid labels spelling at most 253 characters, a type and the Internet class. *)
Definition query_form (data : bytes) (labels : list bytes) (type : Z) : Prop :=
  exists hdr flags rest,
    data = hdr ++ (wire_name labels ++ be16 type ++ be16 1) ++ rest /\ zlen hdr = 12 /\
    rd16 data 2 = Some flags /\ Z.land flags 0x8000 = 0 /\ Z.land (Z.shiftr flags 11) 0x0F = 0 /\
    rd16 data 4 = Some 1 /\ labels <> [] /\ Forall valid_label labels /\
    zlen (dotted labels) <= 253 /\ 0 <= type < 65536.

(** The query [parseQuery] leaves for such a message. *)
Definition query_fields (data : bytes) (labels : list bytes) (type : Z) (q : Query) : Prop :=
  rd16 data 0 = Some (q_id q) /\ q_type q = type /\ opcode q = 0 /\ q_error q = 0 /\
  q_name q = dotted (lowered labels) /\ question q = wire_name labels ++ be16 type ++ be16 1 /\
  0 <= ednsPayload q < 65536.

Lemma three_slices (d : bytes) i n :
  0 <= i -> 0 <= n -> d = slice d 0 i ++ slice d i n ++ drop (Z.to_nat (i + n)) d.
Proof.
  intros. rewrite app_assoc. pose proof (slice_split d 0 i n) as Hs. rewrite Z.add_0_l in Hs.
  rewrite <- Hs by lia. unfold slice. rewrite Z2Nat.inj_0, drop_0. by rewrite take_drop.
Qed.

Lemma parseQuery_total d : all_bytes d -> exists r, parseQuery d = Some r.
Proof.
  intros Hd. unfold parseQuery. unfold kHeaderSize at 1. cbv zeta. case_if; zbool; [eauto |].
  unfold read16. read_field d 2 flags Hf. case_if; [eauto |]. read_field d 0 ident Hid.
  case_if; [eauto |]. read_field d 4 qd Hqd. case_if; [eauto |].
  destruct (parseName_loop_total (S (Z.to_nat (zlen d))) d kHeaderSize []) as [[[o name]|] Hp];
    [done | unfold kHeaderSize; lia | unfold kHeaderSize; lia | |]; rewrite Hp; [|eauto].
  apply parseName_loop_spec in Hp as (? & _); [|done | unfold kHeaderSize; lia | rewrite zlen_nil; lia].
  unfold kHeaderSize in *. case_if; zbool; [eauto |].
  read_field d o t Ht. read_field d (o + 2) c Hc. case_if; [eauto |].
  match goal with |- context [ parseEdns d ?x ?q ] =>
    destruct (parseEdns_spec d x q) as (p & b & -> & _); [lia | lia |] end. eauto.
Qed.

Lemma parseQuery_true d q :
  all_bytes d -> parseQuery d = Some (true, q) ->
  exists labels type, query_form d labels type /\ query_fields d labels type q /\
    skipName d 12 = Some (Some (12 + zlen (wire_name labels))).
Proof.
  intros Hd. unfold parseQuery. unfold kHeaderSize at 1. cbv zeta. case_if; zbool; [done |].
  unfold read16. read_field d 2 flags Hf. case_if; [done |]. read_field d 0 ident Hid.
  case_if; [done |]. read_field d 4 qd Hqd. case_if; [done |].
  destruct (parseName_loop _ d kHeaderSize []) as [[[o name]|]|] eqn:Hp; try done.
  apply parseName_loop_spec in Hp as (Ho & Hn & Hskip & ls & Hsl & Hv & ->);
    [|done | unfold kHeaderSize; lia | rewrite zlen_nil; lia].
  unfold kHeaderSize in *. rewrite dotted_foldl in * by (by apply lowered_nonempty).
  case_if; zbool; [done |]. read_field d o t Ht. read_field d (o + 2) c Hc.
  case_if; [done |]. zbool.
  match goal with |- context [ parseEdns d ?x ?q ] =>
    destruct (parseEdns_spec d x q) as (p & b & -> & Hpr); [lia | lia |] end.
  cbn [mbind option_bind]. intros [= <-]. exists ls, t.
  assert (Hlen : o = 12 + zlen (wire_name ls)) by (rewrite <- Hsl, zlen_slice; lia).
  assert (Hq : slice d 12 (o + 4 - 12) = wire_name ls ++ be16 t ++ be16 1).
  { replace (o + 4 - 12) with ((o - 12) + (2 + 2)) by lia. rewrite !slice_split by lia.
    rewrite Hsl. replace (12 + (o - 12)) with o by lia.
    rewrite (slice_be16 _ _ _ Hd Ht), (slice_be16 _ _ _ Hd Hc). unfold kClassInternet in *. by subst c. }
  pose proof (rd16_inv _ _ _ Ht) as (_ & _ & Htr).
  pose proof (rd16_inv _ _ _ Hf) as (_ & _ & Hfr).
  split_and!.
  - exists (slice d 0 12), flags, (drop (Z.to_nat (12 + (o + 4 - 12))) d). split_and!; try done; try lia.
    + rewrite <- Hq. apply three_slices; lia.
    + rewrite zlen_slice. lia.
    + match goal with H : w8 ?x = 0 |- _ => rewrite w8_small in H; [done |] end.
      change 15 with (Z.ones 4). rewrite Z.land_ones by lia.
      pose proof (Z.mod_pos_bound (Z.shiftr flags 11) (2 ^ 4)). lia.
    + congruence.
    + by intros ->.
    + by rewrite <- zlen_dotted_lowered.
  - unfold query_fields. cbn. cbn in Hpr. split_and!; try done; lia.
  - rewrite <- Hlen. done.
Qed.

Lemma rd16_at pre x i : 0 <= i -> rd16 (pre ++ x) (zlen pre + i) = rd16 x i.
Proof.
  intros. unfold rd16. rewrite !rd_app_r by lia.
  replace (zlen pre + i - zlen pre) with i by lia.
  by replace (zlen pre + i + 1 - zlen pre) with (i + 1) by lia.
Qed.

Lemma rd16_here pre v x : 0 <= v < 65536 -> rd16 (pre ++ be16 v ++ x) (zlen pre) = Some v.
Proof.
  intros. rewrite <- (Z.add_0_r (zlen pre)), rd16_at by lia. by apply rd16_be16.
Qed.

Lemma parseQuery_accepts d labels type :
  query_form d labels type ->
  exists q, parseQuery d = Some (true, q) /\ query_fields d labels type q.
Proof.
  intros (hdr & flags & rest & Hd & Hh & Hf & Hqr & Hop & Hqd & Hne & Hv & Hn & Ht).
  set (w := wire_name labels) in *.
  assert (Hz : zlen d = 12 + (zlen w + 4) + zlen rest) by (rewrite Hd, <- Hh; zlia).
  pose proof (zlen_nonneg rest). pose proof (zlen_nonneg w).
  unfold parseQuery. unfold kHeaderSize at 1. cbv zeta. rewrite (proj2 (Z.ltb_ge _ _)) by lia.
  unfold read16. rewrite Hf. cbn [mbind option_bind]. rewrite Hqr. cbn [Z.eqb negb].
  read_field d 0 ident Hid. rewrite Hop, Hqd. cbn [mbind option_bind]. 
  replace (w8 0 =? 0) with true by done. cbn [negb Z.eqb Pos.eqb].
  assert (Hp : parseName_loop (S (Z.to_nat (zlen d))) d kHeaderSize [] =
    Some (Some (12 + zlen w, dotted (lowered labels)))).
  { rewrite <- dotted_foldl by (by apply lowered_nonempty). rewrite Hd at 2. rewrite <- app_assoc.
    unfold kHeaderSize. rewrite <- Hh. apply parseName_loop_wire; [done | | fold w; lia].
    rewrite dotted_foldl, zlen_dotted_lowered by (by apply lowered_nonempty). done. }
  rewrite Hp. rewrite (proj2 (Z.ltb_ge _ _)) by lia.
  rewrite bool_decide_eq_false_2.
  2:{ intros He. apply (f_equal zlen) in He. rewrite zlen_dotted_lowered, zlen_nil in He.
      destruct labels as [|l ls]; [done |]. apply Forall_cons in Hv as [[? _] _].
      unfold dotted in He. rewrite zlen_app in He. zlia. }
  cbn [orb].
  assert (Hs1 : d = (hdr ++ w) ++ be16 type ++ be16 1 ++ rest) by (rewrite Hd; by rewrite <- !app_assoc).
  assert (Hs2 : d = ((hdr ++ w) ++ be16 type) ++ be16 1 ++ rest) by (rewrite Hd; by rewrite <- !app_assoc).
  assert (rd16 d (12 + zlen w) = Some type) as ->.
  { rewrite Hs1. replace (12 + zlen w) with (zlen (hdr ++ w)) by zlia. by apply rd16_here. }
  cbn [mbind option_bind].
  assert (rd16 d (12 + zlen w + 2) = Some 1) as ->.
  { rewrite Hs2. replace (12 + zlen w + 2) with (zlen ((hdr ++ w) ++ be16 type)) by zlia.
    apply rd16_here. lia. }
  cbn [mbind option_bind]. unfold kClassInternet. cbn [Z.eqb Pos.eqb negb].
  match goal with |- context [ parseEdns d ?x ?q ] =>
    destruct (parseEdns_spec d x q) as (p & b & -> & Hpr); [lia | lia |] end.
  cbn [mbind option_bind]. eexists. split; [done |].
  unfold query_fields. cbn. cbn in Hpr. split_and!; try done; try lia.
  rewrite Hd. unfold slice, kHeaderSize. replace (Z.to_nat 12) with (length hdr) by (unfold zlen in Hh; lia).
  rewrite drop_app_length, take_app_le by (unfold zlen in *; rewrite !length_app; simpl; lia).
  apply take_ge. rewrite !length_app. simpl. unfold zlen. fold w. lia.
Qed.

(** ** Responses: what a client reads back *)

Lemma encodeAddresses_length parse addresses n : (length (encodeAddresses parse addresses n) <= n)%nat.
Proof.
  revert n. induction addresses as [|a l IH]; intros [|n]; simpl; try lia.
  destruct (parse a); simpl; [specialize (IH n) | specialize (IH (S n))]; lia.
Qed.

Lemma encodeAddresses_all parse addresses n (P : bytes -> Prop) :
  (forall a b, parse a = Some b -> P b) -> Forall P (encodeAddresses parse addresses n).
Proof.
  intros HP. revert n. induction addresses as [|a l IH]; intros [|n]; simpl; try constructor.
  destruct (parse a) eqn:Ep; [constructor; eauto | apply IH].
Qed.

(** One record at the end of a prefix, its owner name [name] skipped in [k] bytes. *)
Lemma walkSection_record n d pre name type cls ttl rdata post sec rs :
  d = pre ++ name ++ be16 type ++ be16 cls ++ be32 ttl ++ be16 (zlen rdata) ++ rdata ++ post ->
  skipName d (zlen pre) = Some (Some (zlen pre + zlen name)) ->
  0 <= type < 65536 -> 0 <= ttl < 2 ^ 32 -> zlen rdata < 65536 ->
  let r := mkRecordRef type sec (zlen pre + zlen name + 4) in
  walkSection (S n) d sec (zlen pre) rs =
    walkSection n d sec (zlen pre + zlen name + 10 + zlen rdata) (rs ++ [r]) /\
  rd32 d (ttlOffset r) = Some ttl.
Proof.
  intros Hd Hs Ht Httl Hr r. pose proof (zlen_nonneg rdata). pose proof (zlen_nonneg post).
  assert (Hz : zlen d = zlen pre + zlen name + 10 + zlen rdata + zlen post) by (rewrite Hd; zlia).
  split.
  - cbn [walkSection]. rewrite Hs. rewrite (proj2 (Z.ltb_ge _ _)) by lia. unfold read16.
    assert (rd16 d (zlen pre + zlen name) = Some type) as ->.
    { rewrite Hd, app_assoc, <- zlen_app. by apply rd16_here. }
    cbn [mbind option_bind].
    assert (rd16 d (zlen pre + zlen name + 8) = Some (zlen rdata)) as ->.
    { rewrite Hd. replace (zlen pre + zlen name + 8) with
        (zlen (pre ++ name ++ be16 type ++ be16 cls ++ be32 ttl)) by zlia.
      rewrite !app_assoc, <- (app_assoc _ (rdata)), <- (app_assoc _ (be16 (zlen rdata))).
      apply rd16_here. lia. }
    cbn [mbind option_bind]. rewrite (proj2 (Z.ltb_ge _ _)) by lia. done.
  - unfold r. cbn [ttlOffset]. rewrite Hd.
    replace (zlen pre + zlen name + 4) with (zlen (pre ++ name ++ be16 type ++ be16 cls)) by zlia.
    replace (pre ++ name ++ be16 type ++ be16 cls ++ be32 ttl ++ be16 (zlen rdata) ++ rdata ++ post)
      with ((pre ++ name ++ be16 type ++ be16 cls) ++ be32 ttl ++ (be16 (zlen rdata) ++ rdata ++ post))
      by (by rewrite <- !app_assoc).
    by apply rd32_here.
Qed.

Lemma encodeAddresses_omap parse addresses n :
  encodeAddresses parse addresses n = take n (omap parse addresses).
Proof.
  revert n. induction addresses as [|a l IH]; intros n; simpl; [by rewrite take_nil; destruct n |].
  destruct n as [|n]; [done |]. destruct (parse a); simpl; by rewrite IH.
Qed.

Lemma skipName_pointer pre x post :
  skipName (pre ++ (192 :: x :: post)) (zlen pre) = Some (Some (zlen pre + 2)).
Proof.
  unfold skipName. cbn [skipName_loop]. rewrite (proj2 (Z.leb_gt _ _)) by zlia.
  rewrite rd_app_r by lia. rewrite Z.sub_diag, rd_cons_0. cbn [mbind option_bind].
  change (192 =? 0) with false. change (Z.land 192 0xC0 =? 0xC0) with true. cbn iota.
  by rewrite (proj2 (Z.ltb_ge _ _)) by zlia.
Qed.

Lemma skipName_root pre post : skipName (pre ++ (0 :: post)) (zlen pre) = Some (Some (zlen pre + 1)).
Proof.
  unfold skipName. cbn [skipName_loop]. rewrite (proj2 (Z.leb_gt _ _)) by zlia.
  rewrite rd_app_r by lia. by rewrite Z.sub_diag, rd_cons_0.
Qed.

Definition answer_ref (d : bytes) (type ttl : Z) (r : RecordRef) : Prop :=
  r_type r = type /\ section r = 0 /\ rd32 d (ttlOffset r) = Some ttl.

Lemma walkSection_answers enc d pre type ttl al post rs :
  d = pre ++ (enc ≫= answerRecord type ttl al) ++ post -> Forall (λ a, zlen a = al) enc ->
  0 <= type < 65536 -> 0 <= ttl < 2 ^ 32 -> 0 <= al < 65536 ->
  exists refs,
    walkSection (length enc) d 0 (zlen pre) rs =
      Some (Some (zlen pre + zlen (enc ≫= answerRecord type ttl al), rs ++ refs)) /\
    length refs = length enc /\ Forall (answer_ref d type ttl) refs.
Proof.
  intros Hd Henc Ht Httl Hal. revert pre rs Hd. induction Henc as [|a enc Ha _ IH]; intros pre rs Hd.
  { exists []. cbn. rewrite app_nil_r, zlen_nil, Z.add_0_r. done. }
  rewrite bind_cons in *. unfold answerRecord in Hd at 1.
  rewrite take_ge in Hd by (unfold zlen in Ha; lia).
  destruct (walkSection_record (length enc) d pre (be16 0xC00C) type kClassInternet ttl a
    ((enc ≫= answerRecord type ttl al) ++ post) 0 rs) as [Hw Hr]; [| |done|done|lia|].
  { rewrite Hd, Ha. by rewrite <- !app_assoc. }
  { rewrite Hd. change (be16 0xC00C) with [192; 12]. rewrite <- !app_assoc. cbn [app].
    by rewrite skipName_pointer. }
  cbn [length]. rewrite Hw. set (r := mkRecordRef _ _ _) in *.
  destruct (IH (pre ++ answerRecord type ttl al a) (rs ++ [r])) as (refs & Hrest & Hlen & Hall).
  { rewrite Hd. unfold answerRecord at 2. rewrite (take_ge a) by (unfold zlen in Ha; lia).
    by rewrite <- !app_assoc. }
  assert (Hza : zlen (answerRecord type ttl al a) = 12 + al).
  { unfold answerRecord. rewrite take_ge by (unfold zlen in Ha; lia). zlia. }
  exists (r :: refs). split_and!.
  - replace (zlen pre + zlen (be16 0xC00C) + 10 + zlen a) with (zlen (pre ++ answerRecord type ttl al a))
      by (rewrite zlen_app, Hza, zlen_be16; lia).
    rewrite Hrest. rewrite !zlen_app, <- app_assoc. do 3 f_equal. lia.
  - cbn [length]. by rewrite Hlen.
  - constructor; [|done]. by split_and!.
Qed.

Lemma collectTtls_answers d type ttl refs out :
  Forall (answer_ref d type ttl) refs -> type <> kTypeOpt ->
  answerTtl out = None \/ answerTtl out = Some ttl ->
  collectTtls d refs out =
  Some (mkResponseInfo (response out) (truncated out) (i_rcode out) (answers out)
    (match refs with [] => answerTtl out | _ => Some ttl end) (authorityTtl out)).
Proof.
  intros H Hne. revert out. induction H as [|r refs (Hty & Hsec & Hr) _ IH]; intros out Ho.
  { destruct out; done. }
  cbn [collectTtls]. rewrite Hty, (proj2 (Z.eqb_neq _ _)) by done. unfold read32. rewrite Hr, Hsec.
  cbn [mbind option_bind Z.eqb].
  assert (minTtl (answerTtl out) ttl = Some ttl) as ->
    by (destruct Ho as [-> | ->]; unfold minTtl; f_equal; lia).
  rewrite IH by (by right). cbn. by destruct refs.
Qed.

Lemma walkSection_opt n d pre post rs :
  d = pre ++ optRecord ++ post ->
  exists r, walkSection (S n) d 2 (zlen pre) rs = walkSection n d 2 (zlen pre + zlen optRecord) (rs ++ [r]) /\
    r_type r = kTypeOpt.
Proof.
  intros Hd. eexists (mkRecordRef kTypeOpt 2 _). split; [|done].
  destruct (walkSection_record n d pre [0] kTypeOpt kAdvertisedPayload 0 [] post 2 rs) as [Hw _];
    [by rewrite Hd | by rewrite Hd; apply skipName_root | done | done | done |].
  rewrite Hw. f_equal. change (zlen [0]) with 1. change (zlen (@nil Z)) with 0.
  change (zlen optRecord) with 11. lia.
Qed.

Lemma zlen_answers enc type ttl al :
  Forall (λ a, zlen a = al) enc -> zlen (enc ≫= answerRecord type ttl al) = zlen enc * (12 + al).
Proof.
  induction 1 as [|a enc Ha _ IH]; [done |].
  rewrite bind_cons, zlen_app, zlen_cons, IH. unfold answerRecord.
  rewrite take_ge by (unfold zlen in Ha; lia). autorewrite with zlen. lia.
Qed.

(** The walk of a hand-built response whose question was walked in the query. *)
Lemma response_walk m hdr ques enc type ttl al (withOpt : bool) :
  m = hdr ++ ques ++ (enc ≫= answerRecord type ttl al) ++ (if withOpt then optRecord else []) ->
  zlen hdr = 12 -> rd16 m 4 = Some 1 -> rd16 m 6 = Some (zlen enc) -> rd16 m 8 = Some 0 ->
  rd16 m 10 = Some (if withOpt then 1 else 0) ->
  skipName m 12 = Some (Some (12 + zlen ques - 4)) -> 5 <= zlen ques ->
  Forall (λ a, zlen a = al) enc -> 0 <= type < 65536 -> 0 <= ttl < 2 ^ 32 -> 0 <= al < 65536 ->
  exists refs opt, walk m = Some (Some (12 + zlen ques, refs ++ opt)) /\ length refs = length enc /\
    Forall (answer_ref m type ttl) refs /\ Forall (λ r, r_type r = kTypeOpt) opt.
Proof.
  intros Hm Hh H4 H6 H8 H10 Hs Hq Henc Ht Httl Hal.
  set (ans := enc ≫= answerRecord type ttl al) in *.
  assert (Hans : zlen ans = zlen enc * (12 + al)) by (by apply zlen_answers).
  assert (Hz : zlen m = 12 + zlen ques + zlen ans + (if withOpt then 11 else 0)).
  { rewrite Hm, !zlen_app, Hh. destruct withOpt; [change (zlen optRecord) with 11 | rewrite zlen_nil]; lia. }
  pose proof (zlen_nonneg ans). pose proof (zlen_nonneg enc).
  destruct (walkSection_answers enc m (hdr ++ ques) type ttl al (if withOpt then optRecord else []) [])
    as (refs & Hw & Hlen & Hall); [by rewrite Hm, <- app_assoc | done .. |]. fold ans in Hw.
  rewrite zlen_app, Hh in Hw. cbn [app] in Hw.
  assert (Hopt : exists opt, Forall (λ r, r_type r = kTypeOpt) opt /\
    walkSection (Z.to_nat (if withOpt then 1 else 0)) m 2 (12 + zlen ques + zlen ans) refs =
    Some (Some (zlen m, refs ++ opt))).
  { destruct withOpt.
    - destruct (walkSection_opt 0 m (hdr ++ ques ++ ans) [] refs) as (r & Hr & Hty);
        [by rewrite Hm, app_nil_r, <- !app_assoc |].
      exists [r]. split; [by constructor |]. rewrite !zlen_app, Hh in Hr.
      change (Z.to_nat 1) with 1%nat. replace (12 + zlen ques + zlen ans) with (12 + (zlen ques + zlen ans)) by lia.
      rewrite Hr. cbn [walkSection]. change (zlen optRecord) with 11. do 3 f_equal. lia.
    - exists []. split; [constructor |]. change (Z.to_nat 0) with 0%nat. cbn [walkSection]. rewrite app_nil_r. do 3 f_equal. lia. }
  destruct Hopt as (opt & Hot & Hwo). exists refs, opt. split_and!; try done.
  unfold walk, kHeaderSize, read16. rewrite (proj2 (Z.ltb_ge _ _)) by (destruct withOpt; lia).
  rewrite H4, H6, H8, H10. cbn [mbind option_bind].
  rewrite (proj2 (Z.ltb_ge _ _)) by (destruct withOpt; nia).
  change (Z.to_nat 1) with 1%nat. cbn [walkQuestions]. rewrite Hs.
  rewrite (proj2 (Z.ltb_ge _ _)) by (destruct withOpt; lia).
  replace (12 + zlen ques - 4 + 4) with (12 + zlen ques) by lia.
  replace (Z.to_nat (zlen enc)) with (length enc) by (unfold zlen; lia). rewrite Hw.
  change (Z.to_nat 0) with 0%nat. cbn [walkSection]. by rewrite Hwo.
Qed.

Lemma collectTtls_opt d opt out : Forall (λ r, r_type r = kTypeOpt) opt -> collectTtls d opt out = Some out.
Proof. induction 1 as [|r opt Hr _ IH]; [done |]. cbn [collectTtls]. by rewrite Hr. Qed.

Lemma collectTtls_app d a b out : collectTtls d (a ++ b) out = o ← collectTtls d a out; collectTtls d b o.
Proof.
  revert out. induction a as [|r a IH]; intros out; [done |]. cbn [app collectTtls].
  case_if; [apply IH |]. destruct (read32 d (ttlOffset r)); [apply IH | done].
Qed.

Lemma land_lor_keep f a b : Z.land a b = 0 -> Z.land (Z.lor f a) b = Z.land f b.
Proof. intros H. rewrite Z.land_lor_distr_l, H. apply Z.lor_0_r. Qed.

Lemma tc_flag f : (Z.land (Z.lor f 0x0200) 0x0200 =? 0) = false.
Proof.
  rewrite Z.land_lor_distr_l. apply Z.eqb_neq. rewrite Z.lor_eq_0_iff. by intros [_ ?].
Qed.

(** A header whose record counts are zero, and questions that are walked: the walk ends
    with them. *)
Lemma walk_no_records m n q :
  12 <= zlen m -> rd16 m 4 = Some n -> 5 * n <= zlen m ->
  rd16 m 6 = Some 0 -> rd16 m 8 = Some 0 -> rd16 m 10 = Some 0 ->
  walkQuestions (Z.to_nat n) m 12 = Some (Some q) -> walk m = Some (Some (q, [])).
Proof.
  intros Hz H4 Hn H6 H8 H10 Hq. unfold walk, kHeaderSize, read16.
  rewrite (proj2 (Z.ltb_ge (zlen m) 12)) by lia. rewrite H4, H6, H8, H10. cbn [mbind option_bind].
  rewrite (proj2 (Z.ltb_ge _ _)) by lia. by rewrite Hq.
Qed.

(** The header writes of [truncateForUdp], on a message already cut. *)
Lemma truncate_header m flags (keep : bool) :
  12 <= zlen m -> rd16 m 2 = Some flags ->
  exists m', (m ← write16 m 2 (w16 (Z.lor flags 0x0200));
              m ← (if keep then Some m else write16 m 4 0);
              m ← write16 m 6 0; m ← write16 m 8 0; m ← write16 m 10 0; Some (true, m)) = Some (true, m') /\
    zlen m' = zlen m /\ rd16 m' 0 = rd16 m 0 /\ rd16 m' 2 = Some (Z.lor flags 0x0200) /\
    rd16 m' 4 = (if keep then rd16 m 4 else Some 0) /\
    rd16 m' 6 = Some 0 /\ rd16 m' 8 = Some 0 /\ rd16 m' 10 = Some 0 /\
    (forall j, 12 <= j -> rd m' j = rd m j).
Proof.
  intros Hz Hf. pose proof (rd16_inv _ _ _ Hf) as (_ & _ & Hfr).
  assert (Hw : w16 (Z.lor flags 0x0200) = Z.lor flags 0x0200).
  { apply w16_small. split; [by apply Z.lor_nonneg; lia |].
    destruct (Z.eq_dec flags 0) as [->|]; [done |].
    change 65536 with (2 ^ 16).
    apply Z.log2_lt_pow2; [|rewrite Z.log2_lor by lia; apply Z.max_lub_lt; [apply Z.log2_lt_pow2; lia | done]].
    assert (0 <= Z.lor flags 512) by (apply Z.lor_nonneg; lia).
    assert (Z.lor flags 512 <> 0) by (rewrite Z.lor_eq_0_iff; lia). lia. }
  pose proof (w16_range (Z.lor flags 0x0200)) as Hr. rewrite Hw in *.
  destruct (write16_spec m 2 (Z.lor flags 0x0200)) as (m1 & -> & Z1 & R1 & K1 & _); [lia | lia | lia |].
  cbn [mbind option_bind].
  assert (H2 : exists m2, (if keep then Some m1 else write16 m1 4 0) = Some m2 /\ zlen m2 = zlen m1 /\
    rd16 m2 4 = (if keep then rd16 m1 4 else Some 0) /\
    forall j, ~ (4 <= j < 6) -> rd m2 j = rd m1 j).
  { destruct keep; [by exists m1 |]. destruct (write16_spec m1 4 0) as (m2 & ? & ? & ? & ? & _); [lia .. |].
    by exists m2. }
  destruct H2 as (m2 & -> & Z2 & R2 & K2). cbn [mbind option_bind].
  destruct (write16_spec m2 6 0) as (m3 & -> & Z3 & R3 & K3 & _); [lia .. |]. cbn [mbind option_bind].
  destruct (write16_spec m3 8 0) as (m4 & -> & Z4 & R4 & K4 & _); [lia .. |]. cbn [mbind option_bind].
  destruct (write16_spec m4 10 0) as (m5 & -> & Z5 & R5 & K5 & _); [lia .. |].
  exists m5. split_and!; try done; try lia.
  - unfold rd16. by rewrite !K5, !K4, !K3, !K2, !K1 by lia.
  - rewrite <- R1. unfold rd16. by rewrite !K5, !K4, !K3, !K2 by lia.
  - transitivity (rd16 m2 4); [unfold rd16; by rewrite !K5, !K4, !K3 by lia |]. rewrite R2.
    destruct keep; [|done]. unfold rd16. by rewrite !K1 by lia.
  - rewrite <- R3. unfold rd16. by rewrite !K5, !K4 by lia.
  - rewrite <- R4. unfold rd16. by rewrite !K5 by lia.
  - intros j Hj. by rewrite K5, K4, K3, K2, K1 by lia.
Qed.

(** The flags word of a hand-built response. *)
Lemma response_flags (rd : bool) (rc : Z) :
  let f := w16 (Z.lor (Z.lor 0x8080 (if rd then 0x0100 else 0)) (Z.land rc 0x0F)) in
  0 <= f < 65536 /\ (Z.land f 0x8000 =? 0) = false /\ (Z.land f 0x0200 =? 0) = true /\
  Z.land f 0x000F = Z.land rc 0x0F.
Proof.
  cbv zeta. set (x := Z.land rc 0x0F).
  assert (Hx : 0 <= x < 16).
  { unfold x. change 15 with (Z.ones 4). rewrite Z.land_ones by lia. apply Z.mod_pos_bound. lia. }
  split; [apply w16_range |].
  pose proof (Z_range_check (λ x,
    let f := w16 (Z.lor (Z.lor 0x8080 (if rd then 0x0100 else 0)) x) in
    negb (Z.land f 0x8000 =? 0) && (Z.land f 0x0200 =? 0) && (Z.land f 0x000F =? x)) 16) as Hc.
  specialize (Hc ltac:(by destruct rd) x Hx). cbv beta zeta in Hc. zbool. split_and!; [by apply Z.eqb_neq | by apply Z.eqb_eq | done].
Qed.

(** ** Properties *)

(** [parseQuery] decides the query language exactly. On every buffer it returns, without
    reading outside; it accepts exactly the messages with a standard one-question header
    followed by an uncompressed name of one to sixty-three byte labels over letters,
    digits, hyphen and underscore, at most 253 characters in all, and the Internet class;
    and what it stores is the identifier, the type, the lowercased dotted name and the
    bytes of the question. *)
Theorem parseQuery_exact (data : bytes) :
  all_bytes data ->
  exists ok q, parseQuery data = Some (ok, q) /\
    (ok = true <-> exists labels type, query_form data labels type) /\
    (forall labels type, query_form data labels type -> query_fields data labels type q).
Proof.
  intros Hd. destruct (parseQuery_total data Hd) as [[ok q] Hp]. exists ok, q.
  assert (Hacc : forall labels type, query_form data labels type ->
    ok = true /\ query_fields data labels type q).
  { intros labels type (q' & Hq' & Hf)%parseQuery_accepts. rewrite Hp in Hq'. by simplify_eq. }
  split_and!; [done | split |].
  - intros ->. destruct (parseQuery_true _ _ Hd Hp) as (labels & type & Hf & _). by exists labels, type.
  - intros (labels & type & Hf). by destruct (Hacc _ _ Hf).
  - intros labels type Hf. by destruct (Hacc _ _ Hf).
Qed.

(** What truncation does to every message. *)
Lemma truncate_sound (m : bytes) (limit : Z) :
  all_bytes m ->
  exists cut m', truncateForUdp m limit = Some (cut, m') /\
    (cut = true <-> limit < zlen m /\ 12 <= zlen m) /\ (cut = false -> m' = m) /\
    (cut = true -> exists flags, rd16 m 2 = Some flags /\ rd16 m' 0 = rd16 m 0 /\
      inspectResponse m' = Some (Some (mkResponseInfo (negb (Z.land flags 0x8000 =? 0)) true
        (Z.land flags 0x000F) 0 None None)) /\
      (walk m = Some None -> zlen m' = 12) /\
      (forall q rs, walk m = Some (Some (q, rs)) ->
         zlen m' = q /\ rd16 m' 4 = rd16 m 4 /\ forall j, 12 <= j < q -> rd m' j = rd m j)).
Proof.
  intros Hd. unfold truncateForUdp, kHeaderSize at 1. destruct (_ || _) eqn:Ec.
  { exists false, m. split_and!; try done. split; [done |]. apply orb_true_iff in Ec as [?|?]; zbool; lia. }
  apply orb_false_iff in Ec as [? ?]. zbool.
  destruct (walk_total m Hd) as [w Hw]. rewrite Hw. cbn [mbind option_bind].
  set (cut := match w with Some (q, _) => q | None => kHeaderSize end).
  assert (Hcut : 12 <= cut <= zlen m).
  { unfold cut, kHeaderSize. destruct w as [[q rs]|]; [|lia]. by apply walk_spec in Hw as [? _]. }
  set (m0 := take (Z.to_nat cut) m). assert (Hz0 : zlen m0 = cut) by (unfold m0; rewrite zlen_take; lia).
  assert (Hsame : forall j, j < cut -> rd m0 j = rd m j).
  { intros j Hj. unfold m0. rewrite rd_take by lia. by rewrite (proj2 (Z.ltb_lt _ _)) by lia. }
  unfold read16. read_field m0 2 flags Hf.
  assert (Hfm : rd16 m 2 = Some flags) by (rewrite <- Hf; symmetry; apply rd16_local; intros; apply Hsame; lia).
  destruct (truncate_header m0 flags (bool_decide (is_Some w)))
    as (m' & Hm' & Hz & R0 & R2 & R4 & R6 & R8 & R10 & Hrest); [lia | done |].
  exists true, m'. split.
  { rewrite <- Hm'. destruct w; [by rewrite bool_decide_eq_true_2 | by rewrite bool_decide_eq_false_2 by (by intros [? ?])]. }
  split_and!; [split; [lia | done] | done |]. intros _. exists flags.
  assert (Hwalk : walk m' = Some (Some (cut, [])) /\ (is_Some w -> rd16 m' 4 = rd16 m 4)).
  { destruct w as [[q rs]|]; unfold cut in *.
    - rewrite bool_decide_eq_true_2 in R4 by done.
      apply walk_spec in Hw as (_ & _ & (n & Hn & Hnq & Hwq) & _); [|done].
      assert (R4' : rd16 m' 4 = rd16 m 4).
      { rewrite R4. apply rd16_local. intros; apply Hsame; lia. }
      split; [|done]. apply (walk_no_records m' n); try done; try lia; [by rewrite R4' |].
      apply Hwq; [|lia]. intros j Hj. rewrite Hrest by lia. apply Hsame. lia.
    - rewrite bool_decide_eq_false_2 in R4 by (by intros [? ?]).
      split; [|by intros [? ?]]. by apply (walk_no_records m' 0); try done; lia. }
  destruct Hwalk as [Hwalk Hq4]. split_and!.
  - done.
  - rewrite R0. apply rd16_local. intros; apply Hsame; lia.
  - unfold inspectResponse, read16. rewrite Hwalk, R2, R6. cbn [mbind option_bind collectTtls].
    rewrite tc_flag, !land_lor_keep by done. done.
  - intros [= ->]. rewrite Hz. unfold cut, kHeaderSize in *. lia.
  - intros q rs [= ->]. unfold cut in *. split_and!; [lia | by apply Hq4 |].
    intros j Hj. rewrite Hrest by lia. apply Hsame. lia.
Qed.

(** Truncation for UDP. On every message and limit [truncateForUdp] returns; it acts
    exactly on a message longer than the limit (and long enough to have a header), and
    then the result is always a well-formed message that says "truncated", carries no
    records, keeps the identifier, the response flag and the response code, and keeps the
    question section whenever the original was well formed. *)
Theorem truncateForUdp_correct (m : bytes) (limit : Z) :
  all_bytes m ->
  exists cut m', truncateForUdp m limit = Some (cut, m') /\
    (cut = true <-> limit < zlen m /\ 12 <= zlen m) /\ (cut = false -> m' = m) /\
    (cut = true -> exists flags, rd16 m 2 = Some flags /\ rd16 m' 0 = rd16 m 0 /\
      inspectResponse m' = Some (Some (mkResponseInfo (negb (Z.land flags 0x8000 =? 0)) true
        (Z.land flags 0x000F) 0 None None)) /\
      (walk m = Some None -> zlen m' = 12) /\
      (forall q rs, walk m = Some (Some (q, rs)) ->
         zlen m' = q /\ rd16 m' 4 = rd16 m 4 /\ forall j, 12 <= j < q -> rd m' j = rd m j)).
Proof. exact (truncate_sound m limit). Qed.

(** What ageing does to every message. *)
Lemma age_sound (m : bytes) (age : Z) :
  all_bytes m -> 0 <= age < 2 ^ 32 ->
  exists m', ageTtls m age = Some m' /\ zlen m' = zlen m /\ all_bytes m' /\
    (walk m = Some None -> m' = m) /\
    (forall q rs, walk m = Some (Some (q, rs)) -> walk m' = Some (Some (q, rs)) /\
       (forall j, ~ ttl_field rs j -> rd m' j = rd m j) /\ Forall (ages age m m') rs) /\
    (forall info, inspectResponse m = Some (Some info) ->
       inspectResponse m' = Some (Some (agedInfo age info))).
Proof.
  intros Hd Hage. unfold ageTtls. destruct (walk_total m Hd) as [[[q rs]|] Hw]; rewrite Hw.
  2:{ exists m. split_and!; try done. intros info. unfold inspectResponse. by rewrite Hw. }
  pose proof (walk_spec _ _ _ Hd Hw) as (Hq & Hlay & _ & Hsame).
  destruct (ageRecords_spec age rs m q (zlen m)) as (m' & -> & Hz & Hb & Hkeep & Hall); [lia | done | lia | lia |].
  assert (Hw' : walk m' = Some (Some (q, rs))) by (apply Hsame; [done | intros j _; apply Hkeep]).
  assert (Hhd : forall i, 0 <= i -> i + 2 <= 12 -> rd16 m' i = rd16 m i).
  { intros i Hi Hi2. apply rd16_local. intros j Hj. apply Hkeep. intros Hf%(laid_out_field _ _ _ _ Hlay). lia. }
  exists m'. split_and!; try done; [by apply Hb | |].
  - intros q' rs' [= <- <-]. done.
  - intros info. unfold inspectResponse, read16. rewrite Hw, Hw', (Hhd 2), (Hhd 6) by lia.
    read_field m 2 f Hf. read_field m 6 an Han.
    match goal with |- context [ collectTtls m' rs ?o ] =>
      pose proof (collectTtls_aged age m m' rs o ltac:(lia) Hall) as Hc;
      change (agedInfo age o) with o in Hc; rewrite Hc; destruct (collectTtls m rs o) as [i|]; [|done] end.
    cbn. by intros [= ->].
Qed.

(** Ageing a cached response. On every message [ageTtls] returns a message of the same
    length; a malformed message is left alone; in a well-formed one only TTL fields
    change, and what a client reads from it is what it read before with every TTL reduced
    by the age, but not below one second unless it was zero. *)
Theorem ageTtls_correct (m : bytes) (age : Z) :
  all_bytes m -> 0 <= age < 2 ^ 32 ->
  exists m', ageTtls m age = Some m' /\ zlen m' = zlen m /\ all_bytes m' /\
    (walk m = Some None -> m' = m) /\
    (forall q rs, walk m = Some (Some (q, rs)) -> walk m' = Some (Some (q, rs)) /\
       (forall j, ~ ttl_field rs j -> rd m' j = rd m j) /\ Forall (ages age m m') rs) /\
    (forall info, inspectResponse m = Some (Some info) ->
       inspectResponse m' = Some (Some (agedInfo age info))).
Proof. exact (age_sound m age). Qed.

Section HandBuilt.
(** [inet_pton] writes four bytes for IPv4 and sixteen for IPv6. *)
Context (inet_pton4 inet_pton6 : bytes -> option bytes).
Context (pton4_len : forall t b, inet_pton4 t = Some b -> zlen b = 4).
Context (pton6_len : forall t b, inet_pton6 t = Some b -> zlen b = 16).

(** The response code of a reply and the addresses it carries. *)
Definition reply_code (failed : bool) (rcode : Z) : Z :=
  if failed && (rcode =? 0) then kRcodeServFail else rcode.
Definition reply_addresses (type : Z) (addresses : list bytes) (rc : Z) : list bytes :=
  if negb (rc =? 0) then []
  else if type =? kTypeA then take 8 (omap inet_pton4 addresses)
  else if type =? kTypeAaaa then take 8 (omap inet_pton6 addresses) else [].

(** The layout of a reply. *)
Lemma buildResponse_layout q addresses ttl failed rcode :
  exists al, (al = 0 \/ al = 4 \/ al = 16) /\
    let rc := reply_code failed rcode in
    let enc := reply_addresses (q_type q) addresses rc in
    let withOpt := negb (ednsPayload q =? 0) in
    Forall (λ a, zlen a = al) enc /\ zlen enc <= 8 /\
    (enc <> [] -> q_type q = kTypeA \/ q_type q = kTypeAaaa) /\
    buildResponse inet_pton4 inet_pton6 q addresses ttl failed rcode =
    (be16 (q_id q) ++
     be16 (w16 (Z.lor (Z.lor 0x8080 (if recursionDesired q then 0x0100 else 0)) (Z.land rc 0x0F))) ++
     be16 1 ++ be16 (w16 (zlen enc)) ++ be16 0 ++ be16 (if withOpt then 1 else 0)) ++
    question q ++ (enc ≫= answerRecord (q_type q) ttl al) ++ (if withOpt then optRecord else []).
Proof.
  exists (if negb (reply_code failed rcode =? 0) then 0
          else if q_type q =? kTypeA then 4 else if q_type q =? kTypeAaaa then 16 else 0).
  split; [by repeat case_if; auto |]. cbv zeta.
  assert (Henc : forall parse n, (forall t b, parse t = Some b -> zlen b = n) ->
    Forall (λ a : bytes, zlen a = n) (take 8 (omap parse addresses)) /\ zlen (take 8 (omap parse addresses)) <= 8).
  { intros parse n Hp. rewrite <- encodeAddresses_omap. split; [by apply encodeAddresses_all |].
    pose proof (encodeAddresses_length parse addresses 8). unfold zlen. lia. }
  unfold buildResponse. fold (reply_code failed rcode). unfold reply_addresses.
  rewrite !encodeAddresses_omap. change (Z.to_nat kMaxAnswers) with 8%nat.
  destruct (reply_code failed rcode =? 0); cbn [negb andb].
  - destruct (q_type q =? kTypeA) eqn:EA; cbn [orb]; zbool.
    + destruct (Henc inet_pton4 4 pton4_len). by split_and!; auto.
    + destruct (q_type q =? kTypeAaaa) eqn:E6; zbool.
      * destruct (Henc inet_pton6 16 pton6_len). by split_and!; auto.
      * by split_and!; auto.
  - by split_and!; auto.
Qed.

(** The six words of a reply header, read back at their offsets. *)
Lemma header_reads id fl an (ar : bool) body :
  0 <= id < 65536 -> 0 <= fl < 65536 -> 0 <= an < 65536 ->
  let m := (be16 id ++ be16 fl ++ be16 1 ++ be16 an ++ be16 0 ++ be16 (if ar then 1 else 0)) ++ body in
  rd16 m 0 = Some id /\ rd16 m 2 = Some fl /\ rd16 m 4 = Some 1 /\ rd16 m 6 = Some an /\
  rd16 m 8 = Some 0 /\ rd16 m 10 = Some (if ar then 1 else 0).
Proof.
  intros Hid Hfl Han m. subst m. rewrite <- !app_assoc. split_and!.
  - by apply rd16_be16.
  - by apply (rd16_here (be16 id)).
  - by apply (rd16_here (be16 id ++ be16 fl) 1).
  - by apply (rd16_here (be16 id ++ be16 fl ++ be16 1) an).
  - by apply (rd16_here (be16 id ++ be16 fl ++ be16 1 ++ be16 an) 0).
  - apply (rd16_here (be16 id ++ be16 fl ++ be16 1 ++ be16 an ++ be16 0)). by destruct ar.
Qed.

(** What [inspectResponse] reports once the records of a reply are known. *)
Lemma inspect_of_walk m qe refs opt type ttl (given : list bytes) fl :
  walk m = Some (Some (qe, refs ++ opt)) -> length refs = length given ->
  Forall (answer_ref m type ttl) refs -> Forall (λ r, r_type r = kTypeOpt) opt ->
  (given <> [] -> type = kTypeA \/ type = kTypeAaaa) ->
  rd16 m 2 = Some fl -> rd16 m 6 = Some (zlen given) ->
  inspectResponse m =
    Some (Some (mkResponseInfo (negb (Z.land fl 0x8000 =? 0)) (negb (Z.land fl 0x0200 =? 0))
                  (Z.land fl 0x0F) (zlen given)
                  (match given with [] => None | _ => Some ttl end) None)).
Proof.
  intros Hwalk Hlen Hrefs Hopt Htype R2 R6. unfold inspectResponse, read16.
  rewrite Hwalk, R2, R6. cbn [mbind option_bind]. rewrite collectTtls_app.
  destruct refs as [|r refs], given as [|a given]; try done.
  - cbn [collectTtls mbind option_bind]. by rewrite collectTtls_opt.
  - rewrite (collectTtls_answers m type ttl) by
      (done || (by left) || (unfold kTypeOpt; destruct Htype as [-> | ->]; done)).
    cbn [mbind option_bind]. by rewrite collectTtls_opt.
Qed.

(** A reply whose question section is the query's own bytes echoes it. *)
Lemma echoes_of_layout hdr q rest :
  zlen hdr = 12 -> question q <> [] -> rd16 (hdr ++ question q ++ rest) 4 = Some 1 ->
  echoesQuestion (hdr ++ question q ++ rest) q = Some true.
Proof.
  intros Hhdr Hne R4. unfold echoesQuestion, kHeaderSize, read16.
  pose proof (zlen_nonneg rest). rewrite (proj2 (Z.ltb_ge _ _)) by (rewrite !zlen_app; lia).
  rewrite R4. cbn [mbind option_bind]. rewrite (bool_decide_eq_false_2 (question q = [])) by done.
  cbn [Z.eqb Pos.eqb negb orb]. rewrite bool_decide_eq_true_2; [done |]. f_equal.
  unfold slice. replace (Z.to_nat 12) with (length hdr) by (unfold zlen in Hhdr; lia).
  rewrite drop_app_length. unfold zlen. by rewrite Nat2Z.id, take_app_length.
Qed.

(** What a client reads in a reply that was built here. *)
Lemma reply_sound (data : bytes) (q : Query) (addresses : list bytes) (ttl : Z)
    (failed : bool) (rcode : Z) :
  all_bytes data -> parseQuery data = Some (true, q) -> 0 <= ttl < 2 ^ 32 ->
  let m := buildResponse inet_pton4 inet_pton6 q addresses ttl failed rcode in
  let rc := reply_code failed rcode in
  let given := reply_addresses (q_type q) addresses rc in
  inspectResponse m =
    Some (Some (mkResponseInfo true false (Z.land rc 0x0F) (zlen given)
                  (match given with [] => None | _ => Some ttl end) None)) /\
  echoesQuestion m q = Some true /\ rd16 m 0 = rd16 data 0 /\
  zlen m <= kClassicUdpPayload /\
  forall limit, kClassicUdpPayload <= limit -> truncateForUdp m limit = Some (false, m).
Proof.
  intros Hd Hp Httl m rc given.
  destruct (parseQuery_true _ _ Hd Hp) as (labels & type & Hform & Hfields & Hskip).
  destruct Hform as (hdr0 & fl & rest & Hdata & Hh0 & _ & _ & _ & _ & Hne & Hv & Hn & Htr).
  destruct Hfields as (Hid & Hty & _ & _ & _ & Hq & Hep).
  destruct (buildResponse_layout q addresses ttl failed rcode) as (al & Hal & Henc & H8 & Htype & Hm).
  fold rc given m in Henc, H8, Htype, Hm. pose proof (zlen_nonneg given).
  pose proof (rd16_inv _ _ _ Hid) as (_ & _ & Hidr).
  destruct (response_flags (recursionDesired q) rc) as (Hfr & Hqr & Htc & Hrc).
  set (flags := w16 _) in Hm, Hfr, Hqr, Htc, Hrc. set (withOpt := negb (ednsPayload q =? 0)) in Hm.
  rewrite (w16_small (zlen given)) in Hm by lia.
  destruct (header_reads (q_id q) flags (zlen given) withOpt (question q ++
    (given ≫= answerRecord (q_type q) ttl al) ++ (if withOpt then optRecord else [])))
    as (R0 & R2 & R4 & R6 & R8 & R10); [done | done | lia |].
  rewrite <- Hm in R0, R2, R4, R6, R8, R10. set (hdr := be16 (q_id q) ++ _) in Hm.
  assert (Hhdr : zlen hdr = 12) by (unfold hdr; zlia).
  assert (Hql : zlen (question q) = zlen (dotted labels) + 6).
  { rewrite Hq, !zlen_app, !zlen_be16, zlen_wire_name by done. lia. }
  pose proof (zlen_nonneg (dotted labels)).
  assert (Hmz : zlen m = 12 + zlen (question q) +
    zlen (given ≫= answerRecord (q_type q) ttl al) + (if withOpt then 11 else 0)).
  { rewrite Hm, !zlen_app, Hhdr. destruct withOpt; [change (zlen optRecord) with 11 | rewrite zlen_nil]; lia. }
  pose proof (zlen_nonneg (given ≫= answerRecord (q_type q) ttl al)).
  destruct (response_walk m hdr (question q) given (q_type q) ttl al withOpt)
    as (refs & opt & Hwalk & Hlen & Hrefs & Hopt); try done; try lia.
  { apply skipName_spec in Hskip as [_ Hl]; [|done | lia]. rewrite zlen_wire_name in Hl by done.
    replace (12 + zlen (question q) - 4) with (12 + (zlen (dotted labels) + 2)) by lia.
    apply Hl; [|destruct withOpt; lia]. intros j Hj.
    rewrite Hm, Hdata, (rd_app_r hdr), (rd_app_r hdr0) by lia. rewrite Hhdr, Hh0, <- Hq.
    by rewrite !rd_app_l by lia. }
  assert (Hfit : zlen m <= kClassicUdpPayload).
  { rewrite Hmz, Hql, zlen_answers by done. unfold kClassicUdpPayload.
    destruct withOpt; destruct Hal as [-> | [-> | ->]]; lia. }
  split_and!.
  - rewrite (inspect_of_walk m _ refs opt (q_type q) ttl given flags) by done. by rewrite Hqr, Htc, Hrc.
  - rewrite Hm. apply echoes_of_layout; [done | | by rewrite <- Hm].
    intros Hnil. rewrite Hnil, zlen_nil in Hql. lia.
  - by rewrite R0, Hid.
  - done.
  - intros limit Hl. unfold truncateForUdp. by rewrite (proj2 (Z.leb_le _ _)) by lia.
Qed.

(** C12: A hand-built reply says what it should. For every accepted query, the reply built
    from any address list is a well-formed response that a client reads back as: same
    identifier, question echoed, not truncated, the right response code, one answer per
    parsable address (at most eight, none on an error code), each with the given TTL; and
    it always fits the 512 bytes of classic UDP, so that it is never cut. *)
Theorem response_reads_back (data : bytes) (q : Query) (addresses : list bytes) (ttl : Z)
    (failed : bool) (rcode : Z) :
  all_bytes data -> parseQuery data = Some (true, q) -> 0 <= ttl < 2 ^ 32 ->
  let m := buildResponse inet_pton4 inet_pton6 q addresses ttl failed rcode in
  let rc := reply_code failed rcode in
  let given := reply_addresses (q_type q) addresses rc in
  inspectResponse m =
    Some (Some (mkResponseInfo true false (Z.land rc 0x0F) (zlen given)
                  (match given with [] => None | _ => Some ttl end) None)) /\
  echoesQuestion m q = Some true /\ rd16 m 0 = rd16 data 0 /\
  zlen m <= kClassicUdpPayload /\
  forall limit, kClassicUdpPayload <= limit -> truncateForUdp m limit = Some (false, m).
Proof. exact (reply_sound data q addresses ttl failed rcode). Qed.
End HandBuilt.

(** ** Concrete messages *)

(** [a.Bc], type A, with an OPT record that offers 1400 bytes. *)
Definition sample_query : bytes :=
  [0x12; 0x34; 1; 0; 0; 1; 0; 0; 0; 0; 0; 1] ++ [1; 97; 2; 66; 99; 0; 0; 1; 0; 1] ++
  [0; 0; 41; 5; 120; 0; 0; 0x80; 0; 0; 0].
Definition sample_parsed : Query :=
  mkQuery 0x1234 1 true 0 1400 true 0 (str "a.bc") [1; 97; 2; 66; 99; 0; 0; 1; 0; 1].
(** Address parsers that know one address each. *)
Definition sample_pton4 (t : bytes) : option bytes :=
  if bool_decide (t = str "1.2.3.4") then Some [1; 2; 3; 4] else None.
Definition sample_pton6 (t : bytes) : option bytes :=
  if bool_decide (t = str "::1") then Some (replicate 15 0 ++ [1]) else None.
Definition sample_reply : bytes :=
  buildResponse sample_pton4 sample_pton6 sample_parsed [str "1.2.3.4"; str "x"; str "1.2.3.4"] 300 false 0.

Example sample_query_parses : parseQuery sample_query = Some (true, sample_parsed).
Proof. vm_compute. reflexivity. Qed.
Example sample_reply_reads :
  inspectResponse sample_reply = Some (Some (mkResponseInfo true false 0 2 (Some 300) None)).
Proof. vm_compute. reflexivity. Qed.
Example sample_reply_aged :
  (m ← ageTtls sample_reply 400; inspectResponse m) =
  Some (Some (mkResponseInfo true false 0 2 (Some 1) None)).
Proof. vm_compute. reflexivity. Qed.
(** A header-only limit: the question is still kept, so the result exceeds the limit. *)
Example sample_reply_cut :
  zlen <$> (snd <$> truncateForUdp sample_reply 12) = Some 22.
Proof. vm_compute. reflexivity. Qed.

Lemma parseQuery_exact_witness :
  exists ok q, parseQuery sample_query = Some (ok, q) /\
    (ok = true <-> exists labels type, query_form sample_query labels type) /\
    (forall labels type, query_form sample_query labels type -> query_fields sample_query labels type q).
Proof. apply (parseQuery_exact sample_query), all_bytes_check. reflexivity. Defined.

Lemma truncateForUdp_correct_witness :
  exists cut m', truncateForUdp sample_reply 30 = Some (cut, m') /\
    (cut = true <-> 30 < zlen sample_reply /\ 12 <= zlen sample_reply).
Proof.
  destruct (truncateForUdp_correct sample_reply 30) as (cut & m' & Hc & Hi & _).
  - apply all_bytes_check. vm_compute. reflexivity.
  - exists cut, m'. exact (conj Hc Hi).
Defined.

Lemma ageTtls_correct_witness :
  exists m', ageTtls sample_reply 100 = Some m' /\ zlen m' = zlen sample_reply /\
    inspectResponse m' = Some (Some (mkResponseInfo true false 0 2 (Some 200) None)).
Proof.
  destruct (ageTtls_correct sample_reply 100) as (m' & Ha & Hz & _ & _ & _ & Hi).
  - apply all_bytes_check. vm_compute. reflexivity.
  - split; [discriminate | reflexivity].
  - exists m'. split; [exact Ha |]. split; [exact Hz |].
    apply (Hi (mkResponseInfo true false 0 2 (Some 300) None)). vm_compute. reflexivity.
Defined.

Lemma response_reads_back_witness :
  inspectResponse sample_reply =
    Some (Some (mkResponseInfo true false 0 2 (Some 300) None)) /\
  echoesQuestion sample_reply sample_parsed = Some true /\ rd16 sample_reply 0 = rd16 sample_query 0 /\
  zlen sample_reply <= kClassicUdpPayload /\
  forall limit, kClassicUdpPayload <= limit -> truncateForUdp sample_reply limit = Some (false, sample_reply).
Proof.
  apply (response_reads_back sample_pton4 sample_pton6) with (data := sample_query) (rcode := 0).
  - intros t b. unfold sample_pton4. destruct (bool_decide _); [|discriminate].
    intros H. injection H as <-. reflexivity.
  - intros t b. unfold sample_pton6. destruct (bool_decide _); [|discriminate].
    intros H. injection H as <-. reflexivity.
  - apply all_bytes_check. reflexivity.
  - vm_compute. reflexivity.
  - split; [discriminate | reflexivity].
Defined.
