(* ===== verification/DnsAnswer.v ===== *)
(** * DnsAnswer: messages that answer a question

    Facts about [DnsMessage] that the resolver cache and the DNS proxy build on: what it
    means that a message answers a query, that rewriting the identifier and ageing the TTLs
    keep it an answer, and that the wire form of a question is determined by its lowercased
    dotted name. *)

From S2P Require Import Prelude DnsMessage.

(** A well-formed response that echoes the question of [q]. *)
Definition answers_query (m : bytes) (q : Query) : Prop :=
  exists info, inspectResponse m = Some (Some info) /\ DnsMessage.response info = true /\
    echoesQuestion m q = Some true.

(** [q] is what [parseQuery] makes of some message. *)
Definition parsed_query (q : Query) : Prop :=
  exists data, all_bytes data /\ parseQuery data = Some (true, q).

(** ** Locality *)

Lemma list_ext_rd (d e : bytes) : zlen d = zlen e -> (forall i, 0 <= i < zlen d -> rd d i = rd e i) -> d = e.
Proof.
  intros Hz H. unfold zlen in *. apply list_eq. intros i. destruct (decide (i < length d)%nat).
  - specialize (H (Z.of_nat i)). unfold rd in H.
    rewrite (proj2 (Z.ltb_ge _ _)), Nat2Z.id in H by lia. apply H. lia.
  - by rewrite !lookup_ge_None_2 by lia.
Qed.

Lemma slice_ext d e i n :
  0 <= i -> zlen d = zlen e -> (forall j, i <= j < i + n -> rd d j = rd e j) -> slice d i n = slice e i n.
Proof.
  intros Hi Hz H. apply list_ext_rd; [by rewrite !zlen_slice, Hz |].
  intros j Hj. rewrite zlen_slice in Hj. rewrite !rd_slice by lia. apply H. lia.
Qed.

Lemma echoes_local d e q :
  zlen d = zlen e -> rd16 d 4 = rd16 e 4 ->
  (forall j, 12 <= j < 12 + zlen (question q) -> rd d j = rd e j) ->
  echoesQuestion d q = echoesQuestion e q.
Proof.
  intros Hz H4 H. unfold echoesQuestion, kHeaderSize, read16. rewrite Hz, H4.
  case_if; [done |]. destruct (rd16 e 4); [|done]. cbn [mbind option_bind]. case_if; [done |].
  by rewrite (slice_ext d e) by (done || lia).
Qed.

(** ** The identifier *)

Lemma setId_sound m q_ident :
  all_bytes m -> 12 <= zlen m -> 0 <= q_ident < 65536 ->
  exists m', setId m q_ident = Some m' /\ zlen m' = zlen m /\ all_bytes m' /\
    rd16 m' 0 = Some q_ident /\ (forall j, 2 <= j -> rd m' j = rd m j).
Proof.
  intros Hd Hz Hi. unfold setId. rewrite (proj2 (Z.leb_le 2 _)) by lia.
  destruct (write16_spec m 0 q_ident) as (m' & -> & Hz' & H0 & Hk & Hb); [lia | lia | done |].
  exists m'. split_and!; auto. intros j Hj. apply Hk. lia.
Qed.

Lemma collectTtls_local m m' rs lo hi out :
  laid_out lo hi rs -> 2 <= lo -> (forall j, 2 <= j -> rd m' j = rd m j) ->
  collectTtls m' rs out = collectTtls m rs out.
Proof.
  intros Hl Hlo Hk. revert lo out Hl Hlo. induction rs as [|r rs IH]; intros lo out Hl Hlo; [done |].
  simpl in Hl. destruct Hl as [Hr Hl]. cbn [collectTtls]. unfold read32.
  case_if; [by apply (IH _ _ Hl); lia |]. rewrite (rd32_local m m') by (intros; apply Hk; lia).
  destruct (rd32 m (ttlOffset r)); [|done]. cbn [mbind option_bind]. apply (IH _ _ Hl). lia.
Qed.

(** A message that agrees with [m] from the flags on is the same answer. *)
Lemma answers_same m m' q :
  all_bytes m -> 12 <= zlen m -> zlen m' = zlen m -> (forall j, 2 <= j -> rd m' j = rd m j) ->
  answers_query m q -> answers_query m' q.
Proof.
  intros Hd Hz Hz' Hk (info & Hi & Hr & He). exists info. split_and!; [|done |].
  - unfold inspectResponse in Hi |- *. destruct (walk m) as [[[qe rs]|]|] eqn:Hw; try done.
    pose proof (walk_spec _ _ _ Hd Hw) as (Hq & Hl & _ & Hsame).
    rewrite (Hsame m' Hz') by (intros j Hj _; apply Hk; lia). unfold read16 in *.
    rewrite !(rd16_local m m') by (intros; apply Hk; lia).
    read_field m 2 f Hf. read_field m 6 an Han. rewrite Hf, Han in Hi. cbn [mbind option_bind] in Hi.
    by rewrite (collectTtls_local m m' rs qe (zlen m)) by (done || lia).
  - rewrite <- He. apply echoes_local; [done | |].
    + apply rd16_local. intros. apply Hk. lia.
    + intros j Hj. apply Hk. lia.
Qed.

(** ** The end of the question *)

(** Two bytes that differ at most in case, and a length byte, which has no case. *)
Lemma lower_small b c : 0 <= c <= 63 -> lowerAscii b = lowerAscii c -> b = c.
Proof.
  intros Hc. unfold lowerAscii. destruct ((65 <=? b) && (b <=? 90)) eqn:E1, ((65 <=? c) && (c <=? 90)) eqn:E2;
    zbool; try lia.
Qed.

(** [m] spells [w] at [o], up to case. *)
Definition spells (m : bytes) (o : Z) (w : bytes) : Prop :=
  forall j, 0 <= j < zlen w -> lowerAscii <$> rd m (o + j) = lowerAscii <$> rd w j.

Lemma spells_app m o w w' : 0 <= o -> spells m o (w ++ w') -> spells m o w /\ spells m (o + zlen w) w'.
Proof.
  intros Ho H. pose proof (zlen_nonneg w). pose proof (zlen_nonneg w'). split; intros j Hj.
  - specialize (H j). rewrite rd_app_l in H by lia. apply H. rewrite zlen_app. lia.
  - specialize (H (zlen w + j)). rewrite rd_app_r in H by lia.
    replace (zlen w + j - zlen w) with j in H by lia. rewrite Z.add_assoc in H. apply H. rewrite zlen_app. lia.
Qed.

Lemma wire_name_cons l ls : wire_name (l :: ls) = (zlen l :: l) ++ wire_name ls.
Proof. unfold wire_name. by rewrite bind_cons, <- app_assoc. Qed.

Lemma zlen_wire_pos ls : 1 <= zlen (wire_name ls).
Proof. unfold wire_name. rewrite zlen_app. pose proof (zlen_nonneg (ls ≫= λ l, zlen l :: l)). change (zlen [0]) with 1. lia. Qed.

Lemma skipName_spelled labels f m o :
  Forall valid_label labels -> 0 <= o -> spells m o (wire_name labels) -> o + zlen (wire_name labels) <= zlen m ->
  zlen (wire_name labels) < Z.of_nat f -> skipName_loop f m o = Some (Some (o + zlen (wire_name labels))).
Proof.
  intros Hv. revert f o. induction Hv as [|l ls [Hl _] _ IH]; intros f o Ho Hs Hz Hf.
  - change (wire_name []) with [0] in *. change (zlen [0]) with 1 in *. destruct f as [|f]; [lia |]. simpl.
    rewrite (proj2 (Z.leb_gt _ _)) by lia. specialize (Hs 0 ltac:(by split)). rewrite Z.add_0_r in Hs.
    destruct (rd_ok m o) as [b Hb]; [lia |]. rewrite Hb in Hs |- *.
    change (rd [0] 0) with (Some 0) in Hs. apply (inj Some), lower_small in Hs as ->; [done | lia].
  - rewrite wire_name_cons in *. pose proof (zlen_wire_pos ls). rewrite zlen_app, zlen_cons in *.
    destruct (spells_app _ _ _ _ Ho Hs) as [Hs1 Hs2]. rewrite zlen_cons in Hs2.
    destruct f as [|f]; [lia |]. simpl. rewrite (proj2 (Z.leb_gt _ _)) by lia.
    specialize (Hs1 0). rewrite zlen_cons in Hs1. specialize (Hs1 ltac:(lia)). rewrite Z.add_0_r in Hs1.
    destruct (rd_ok m o) as [b Hb]; [lia |]. rewrite Hb in Hs1 |- *.
    rewrite rd_cons_0 in Hs1. apply (inj Some), lower_small in Hs1 as ->; [|lia]. cbn [mbind option_bind].
    rewrite (proj2 (Z.eqb_neq (zlen l) 0)), land_c0_small by lia. cbn [Z.eqb negb].
    replace (o + (1 + zlen l + zlen (wire_name ls))) with (o + (1 + zlen l) + zlen (wire_name ls)) by lia.
    apply IH; [lia | done | lia | lia].
Qed.

Lemma echoes_spells m q :
  echoesQuestion m q = Some true ->
  12 + zlen (question q) <= zlen m /\ rd16 m 4 = Some 1 /\ question q <> [] /\ spells m 12 (question q).
Proof.
  unfold echoesQuestion, kHeaderSize, read16. case_if; [done |]. zbool.
  destruct (rd16 m 4) as [n|] eqn:E4; [|done]. cbn [mbind option_bind].
  destruct (_ || _) eqn:Eo; [done |]. apply orb_false_iff in Eo as [En Eq]. zbool. subst n.
  intros [= Heq]. zbool. split_and!; [done | done | done |]. intros j Hj.
  assert (Hrd : forall d : bytes, rd (lowerAscii <$> d) j = lowerAscii <$> rd d j).
  { intros d. unfold rd. case_if; [done | apply list_lookup_fmap]. }
  rewrite <- Hrd, <- Heq, Hrd, rd_slice by lia. done.
Qed.

Lemma question_end m q qe rs :
  all_bytes m -> parsed_query q -> echoesQuestion m q = Some true -> walk m = Some (Some (qe, rs)) ->
  qe = 12 + zlen (question q).
Proof.
  intros Hd (data & Hdata & Hp) He Hw.
  destruct (parseQuery_true _ _ Hdata Hp) as (labels & type & Hform & Hfields & _).
  destruct Hform as (_ & _ & _ & _ & _ & _ & _ & _ & _ & _ & Hv & _ & _).
  destruct Hfields as (_ & _ & _ & _ & _ & Hq & _).
  apply echoes_spells in He as (Hz & H4 & _ & Hs).
  pose proof (walk_spec _ _ _ Hd Hw) as (Hqe & _ & (n & Hn & _ & Hwq) & _).
  rewrite H4 in Hn. injection Hn as <-. specialize (Hwq m ltac:(done) ltac:(lia)).
  rewrite Hq in Hs, Hz |- *. destruct (spells_app m 12 _ _ ltac:(lia) Hs) as [Hs1 _].
  rewrite !zlen_app, !zlen_be16 in *. change (Z.to_nat 1) with 1%nat in Hwq. cbn [walkQuestions] in Hwq.
  unfold skipName in Hwq. rewrite (skipName_spelled labels) in Hwq by (done || lia).
  case_if_in Hwq; [done |]. injection Hwq as <-. lia.
Qed.

(** ** Ageing keeps the answer *)

Lemma age_answers m age q :
  all_bytes m -> 0 <= age < 2 ^ 32 -> parsed_query q -> answers_query m q ->
  exists m', ageTtls m age = Some m' /\ zlen m' = zlen m /\ all_bytes m' /\
    answers_query m' q /\ rd16 m' 0 = rd16 m 0.
Proof.
  intros Hd Hage Hq (info & Hi & Hr & He).
  destruct (age_sound m age Hd Hage) as (m' & Ha & Hz & Hb & _ & Hw & Hinfo).
  exists m'. pose proof Hi as Hi'. unfold inspectResponse in Hi'.
  destruct (walk m) as [[[qe rs]|]|] eqn:Ew; try done. destruct (Hw _ _ eq_refl) as (_ & Hk & _).
  pose proof (question_end _ _ _ _ Hd Hq He Ew) as Hqe. pose proof (walk_spec _ _ _ Hd Ew) as (Hqb & Hl & _ & _).
  assert (Hkeep : forall j, j < qe -> rd m' j = rd m j).
  { intros j Hj. apply Hk. intros Hf%(laid_out_field _ _ _ _ Hl). lia. }
  split_and!; [done | done | done | |].
  - exists (agedInfo age info). split_and!; [by apply Hinfo | done |]. rewrite <- He.
    apply echoes_local; [done | |].
    + apply rd16_local. intros. apply Hkeep. lia.
    + intros j Hj. apply Hkeep. lia.
  - apply rd16_local. intros. apply Hkeep. lia.
Qed.

(** ** The name determines the question *)

Lemma app_split_first {A} (c : A) (a b x y : list A) :
  c ∉ a -> c ∉ b -> a ++ c :: x = b ++ c :: y -> a = b /\ x = y.
Proof.
  revert b. induction a as [|u a IH]; intros [|v b] Ha Hb; simpl; intros He; simplify_eq.
  - done.
  - exfalso. apply Hb, elem_of_cons. by left.
  - exfalso. apply Ha, elem_of_cons. by left.
  - destruct (IH b) as [-> ->]; [| | done | done].
    + intros Hin. apply Ha, elem_of_cons. by right.
    + intros Hin. apply Hb, elem_of_cons. by right.
Qed.

Lemma name_char_not c d : isNameChar c = true -> (d = 46 \/ d = 124) -> c <> d.
Proof. unfold isNameChar. intros H [->| ->] ->; vm_compute in H; done. Qed.

Lemma lowered_chars labels : Forall valid_label labels ->
  Forall (Forall (λ c, isNameChar c = true)) (lowered labels) /\ Forall (λ l, l <> []) (lowered labels).
Proof.
  intros H. split; [|by apply lowered_nonempty]. induction H as [|l ls [_ Hl] _ IH]; constructor; [|done].
  apply Forall_fmap. eapply Forall_impl; [exact Hl |]. done.
Qed.

Lemma dotted_inj ls ks :
  Forall (Forall (λ c, isNameChar c = true)) ls -> Forall (Forall (λ c, isNameChar c = true)) ks ->
  ls <> [] -> ks <> [] -> dotted ls = dotted ks -> ls = ks.
Proof.
  assert (Hno : forall l : bytes, Forall (λ c, isNameChar c = true) l -> 46 ∉ l).
  { intros l Hl Hin. rewrite Forall_forall in Hl. apply Hl in Hin. by apply (name_char_not 46 46) in Hin; auto. }
  destruct ls as [|l ls], ks as [|k ks]; try done. intros Hl Hk _ _. unfold dotted.
  revert l k ks Hl Hk. induction ls as [|l' ls IH]; intros l k [|k' ks] [Hl Hls]%Forall_cons [Hk Hks]%Forall_cons;
    rewrite ?bind_cons; cbn [mbind list_bind]; rewrite ?app_nil_r.
  - by intros ->.
  - intros ->. exfalso. apply (Hno _ Hl), elem_of_app. right. apply elem_of_cons. by left.
  - intros <-. exfalso. apply (Hno _ Hk), elem_of_app. right. apply elem_of_cons. by left.
  - cbn [app]. intros [-> Heq]%app_split_first; [|by apply Hno | by apply Hno]. f_equal. by apply IH.
Qed.

(** The question as the wire has it, lowercased, from the lowercased labels. *)
Lemma lower_wire labels : Forall valid_label labels -> lowerAscii <$> wire_name labels = wire_name (lowered labels).
Proof.
  induction 1 as [|l ls [Hl _] _ IH]; [done |]. change (lowered (l :: ls)) with ((lowerAscii <$> l) :: lowered ls).
  rewrite !wire_name_cons, fmap_app, IH, zlen_fmap. cbn [fmap list_fmap]. f_equal. f_equal.
  unfold lowerAscii. case_if; [zbool; lia | done].
Qed.

Lemma same_question q q' :
  parsed_query q -> parsed_query q' -> q_name q = q_name q' -> q_type q = q_type q' ->
  (lowerAscii <$> question q) = (lowerAscii <$> question q').
Proof.
  intros (d & Hd & Hp) (d' & Hd' & Hp') Hn Ht.
  destruct (parseQuery_true _ _ Hd Hp) as (ls & ty & (_ & _ & _ & _ & _ & _ & _ & _ & _ & Hne & Hv & _ & _) & Hf & _).
  destruct (parseQuery_true _ _ Hd' Hp') as (ls' & ty' & (_ & _ & _ & _ & _ & _ & _ & _ & _ & Hne' & Hv' & _ & _) & Hf' & _).
  destruct Hf as (_ & T & _ & _ & N & Q & _), Hf' as (_ & T' & _ & _ & N' & Q' & _).
  assert (Hlow : lowered ls = lowered ls').
  { apply dotted_inj; [by apply lowered_chars | by apply lowered_chars | by destruct ls | by destruct ls' | congruence]. }
  rewrite Q, Q', !fmap_app, !lower_wire by done. rewrite Hlow. congruence.
Qed.

Lemma echoes_same m q q' :
  parsed_query q -> parsed_query q' -> q_name q = q_name q' -> q_type q = q_type q' ->
  echoesQuestion m q = echoesQuestion m q'.
Proof.
  intros H H' Hn Ht. pose proof (same_question q q' H H' Hn Ht) as Hs.
  assert (Hz : zlen (question q) = zlen (question q')).
  { rewrite <- (zlen_fmap lowerAscii (question q)), Hs. apply zlen_fmap. }
  unfold echoesQuestion. rewrite Hz, Hs. case_if; [done |]. destruct (read16 m 4); [|done]. cbn [mbind option_bind].
  by rewrite (bool_decide_ext (question q = []) (question q' = []))
    by (split; intros E0; apply zlen_0_inv; rewrite E0 in Hz; rewrite zlen_nil in Hz; lia).
Qed.

Lemma answers_same_question m q q' :
  parsed_query q -> parsed_query q' -> q_name q = q_name q' -> q_type q = q_type q' ->
  answers_query m q -> answers_query m q'.
Proof.
  intros H H' Hn Ht (info & Hi & Hr & He). exists info. split_and!; [done | done |].
  by rewrite <- (echoes_same m q q').
Qed.

(** ** Replies that were built here *)

Lemma parsed_question_bytes q : parsed_query q -> all_bytes (question q).
Proof.
  intros (d & Hd & Hp). destruct (parseQuery_true _ _ Hd Hp) as (ls & ty & (hdr & _ & rest & -> & _) & Hf & _).
  destruct Hf as (_ & _ & _ & _ & _ & -> & _). by apply all_bytes_app in Hd as [_ [? _]%all_bytes_app].
Qed.

Lemma parsed_id q data : parseQuery data = Some (true, q) -> all_bytes data -> rd16 data 0 = Some (q_id q) /\ 0 <= q_id q < 65536.
Proof.
  intros Hp Hd. destruct (parseQuery_true _ _ Hd Hp) as (ls & ty & _ & (Hid & _) & _).
  split; [done |]. by apply rd16_inv in Hid as (_ & _ & ?).
Qed.

Section Built.
Context (inet_pton4 inet_pton6 : bytes -> option bytes).
Context (pton4_len : forall t b, inet_pton4 t = Some b -> all_bytes b /\ zlen b = 4).
Context (pton6_len : forall t b, inet_pton6 t = Some b -> all_bytes b /\ zlen b = 16).

Lemma all_bytes_bind {A} (f : A -> bytes) l : Forall (λ a, all_bytes (f a)) l -> all_bytes (l ≫= f).
Proof. induction 1 as [|a l Ha _ IH]; [constructor |]. rewrite bind_cons. by apply all_bytes_app. Qed.

Lemma all_bytes_reply q addresses ttl failed rc :
  all_bytes (question q) -> all_bytes (buildResponse inet_pton4 inet_pton6 q addresses ttl failed rc).
Proof.
  intros Hq. destruct (buildResponse_layout inet_pton4 inet_pton6 (λ t b E, proj2 (pton4_len t b E))
    (λ t b E, proj2 (pton6_len t b E)) q addresses ttl failed rc) as (al & _ & _ & _ & _ & ->).
  rewrite !all_bytes_app. split_and!; auto with sh.
  - apply all_bytes_bind, Forall_forall. intros a Ha. unfold answerRecord.
    rewrite !all_bytes_app. split_and!; auto with sh. apply Forall_take.
    unfold reply_addresses in Ha. repeat case_if_in Ha; try (by apply elem_of_nil in Ha).
    all: apply elem_of_take in Ha as (i & Hi & _); apply list_elem_of_lookup_2, list_elem_of_omap in Hi as (t & _ & Ht).
    + by apply pton4_len in Ht as [? _].
    + by apply pton6_len in Ht as [? _].
  - case_if; [|constructor]. by apply all_bytes_check.
Qed.

(** A reply to an accepted query answers it, carries its identifier and fits 512 bytes. *)
Lemma reply_answers data q addresses ttl failed rc :
  all_bytes data -> parseQuery data = Some (true, q) -> 0 <= ttl < 2 ^ 32 ->
  let m := buildResponse inet_pton4 inet_pton6 q addresses ttl failed rc in
  answers_query m q /\ rd16 m 0 = rd16 data 0 /\ all_bytes m /\ 12 <= zlen m <= kClassicUdpPayload.
Proof.
  intros Hd Hp Ht m.
  destruct (reply_sound inet_pton4 inet_pton6 (λ t b E, proj2 (pton4_len t b E))
    (λ t b E, proj2 (pton6_len t b E)) data q addresses ttl failed rc Hd Hp Ht) as (Hi & He & H0 & Hz & _).
  fold m in Hi, He, H0, Hz. split_and!; [by eexists | done | | |done].
  - apply all_bytes_reply, parsed_question_bytes. by exists data.
  - apply echoes_spells in He as (? & _ & _ & _). pose proof (zlen_nonneg (question q)). lia.
Qed.
End Built.

Lemma echoesQuestion_total m q : all_bytes m -> exists b, echoesQuestion m q = Some b.
Proof.
  intros Hd. unfold echoesQuestion, kHeaderSize, read16. case_if; [eauto |]. zbool. pose proof (zlen_nonneg (question q)).
  destruct (rd16_ok m 4) as [v ->]; [lia | lia |]. cbn [mbind option_bind]. case_if; eauto.
Qed.

(** ** Cutting an answer for UDP *)

Lemma spells_echoes m q :
  12 + zlen (question q) <= zlen m -> rd16 m 4 = Some 1 -> question q <> [] -> spells m 12 (question q) ->
  echoesQuestion m q = Some true.
Proof.
  intros Hz H4 Hq Hs. unfold echoesQuestion, kHeaderSize, read16. rewrite (proj2 (Z.ltb_ge _ _)) by lia.
  rewrite H4. cbn [mbind option_bind]. rewrite bool_decide_eq_false_2 by done. cbn [Z.eqb negb orb].
  f_equal. apply bool_decide_eq_true_2. pose proof (zlen_nonneg (question q)). apply list_ext_rd.
  - rewrite !zlen_fmap, zlen_slice. lia.
  - intros j Hj. rewrite zlen_fmap, zlen_slice in Hj.
    assert (Hrd : forall d : bytes, rd (lowerAscii <$> d) j = lowerAscii <$> rd d j).
    { intros d. unfold rd. case_if; [done | apply list_lookup_fmap]. }
    rewrite !Hrd, rd_slice by lia. apply Hs. lia.
Qed.

Lemma parsed_question_size q : parsed_query q -> zlen (question q) <= 259.
Proof.
  intros (d & Hd & Hp). destruct (parseQuery_true _ _ Hd Hp) as (ls & ty & Hform & Hf & _).
  destruct Hform as (hdr & fl & rest & _ & _ & _ & _ & _ & _ & Hne & Hv & Hn & _).
  destruct Hf as (_ & _ & _ & _ & _ & -> & _). rewrite !zlen_app, !zlen_be16, zlen_wire_name by done.
  unfold kMaxNameLength in *. lia.
Qed.

(** Whatever its length, an answer becomes one that fits, with the same identifier. *)
Lemma cut_answers m q limit :
  all_bytes m -> parsed_query q -> answers_query m q -> kClassicUdpPayload <= limit -> 12 <= zlen m ->
  exists cut m', truncateForUdp m limit = Some (cut, m') /\ answers_query m' q /\ rd16 m' 0 = rd16 m 0 /\
    12 <= zlen m' <= limit.
Proof.
  intros Hd Hq Ha Hl Hm. destruct (truncate_sound m limit Hd) as (cut & m' & Ht & Hiff & Hsame & Hcut).
  exists cut, m'. split; [done |]. unfold kClassicUdpPayload in *. destruct cut.
  2:{ rewrite (Hsame eq_refl). split_and!; [done | done | lia |]. destruct Hiff as [_ Hi].
      destruct (decide (limit < zlen m)); [|lia]. by specialize (Hi ltac:(lia)). }
  destruct (Hcut eq_refl) as (flags & Hf & H0 & Hinfo & _ & Hw). destruct Ha as (info & Hi & Hr & He).
  pose proof Hi as Hwalk. unfold inspectResponse in Hwalk. destruct (walk m) as [[[qe rs]|]|] eqn:Ew; try done.
  pose proof (question_end _ _ _ _ Hd Hq He Ew) as Hqe. destruct (Hw _ _ eq_refl) as (Hz & H4 & Hk).
  pose proof (parsed_question_size q Hq). pose proof (zlen_nonneg (question q)).
  split_and!; [|done | lia | lia]. eexists. split_and!; [exact Hinfo | |].
  - cbn [DnsMessage.response]. unfold read16 in Hwalk. rewrite Hf in Hwalk. cbn [mbind option_bind] in Hwalk.
    destruct (rd16 m 6); [|done]. cbn [mbind option_bind] in Hwalk.
    destruct (collectTtls _ _ _) as [out|] eqn:Ec; [|done]. cbn in Hwalk. injection Hwalk as ->.
    assert (Hkeep : forall rs out info, collectTtls m rs out = Some info -> DnsMessage.response info = DnsMessage.response out).
    { clear. induction rs as [|r rs IH]; intros out info; cbn [collectTtls]; [by intros [= <-] |].
      case_if; [apply IH |]. destruct (read32 m (ttlOffset r)); [|done]. cbn [mbind option_bind].
      intros ->%IH. by repeat case_if. }
    apply Hkeep in Ec. cbn [DnsMessage.response] in Ec. by rewrite <- Ec.
  - apply echoes_spells in He as (_ & E4 & Hne & Hs). apply spells_echoes; [lia | congruence | done |].
    intros j Hj. rewrite Hk by lia. by apply Hs.
Qed.

(** ** Queries that are not answered *)

(** A datagram without a header that could be answered. *)
Definition unusable (d : bytes) : Prop := zlen d < 12 \/ exists f, rd16 d 2 = Some f /\ Z.land f 0x8000 <> 0.

(** What [parseQuery] leaves of a message it refuses. *)
Definition refused (d : bytes) (q : Query) : Prop :=
  (q_error q = 0 <-> unusable d) /\
  (q_error q <> 0 -> rd16 d 0 = Some (q_id q) /\ 0 <= q_id q < 65536 /\ 0 <= opcode q < 16 /\ 0 <= q_error q < 16).

Lemma parseQuery_false d q : all_bytes d -> parseQuery d = Some (false, q) -> refused d q.
Proof.
  intros Hd. unfold parseQuery. unfold kHeaderSize at 1. cbv zeta. case_if; zbool.
  { intros [= <-]. split; [|done]. split; [by left | done]. }
  unfold read16. read_field d 2 flags Hf. case_if; zbool.
  { intros [= <-]. split; [|done]. split; [|done]. intros _. right. by exists flags. }
  read_field d 0 ident Hid.
  assert (Hop : 0 <= w8 (Z.land (Z.shiftr flags 11) 0x0F) < 16).
  { change 15 with (Z.ones 4). rewrite Z.land_ones by lia.
    pose proof (Z.mod_pos_bound (Z.shiftr flags 11) (2 ^ 4)). rewrite w8_small; lia. }
  pose proof (rd16_inv _ _ _ Hid) as (_ & _ & Hidr).
  assert (Hgood : forall e q', Some (false, q') = Some (false, q) -> q_id q' = ident ->
    opcode q' = w8 (Z.land (Z.shiftr flags 11) 0x0F) -> q_error q' = e -> e = 1 \/ e = 4 -> refused d q).
  { intros e q' [= ->] Hi Ho <- He. unfold refused. rewrite Hi, Ho. split; [|intros _; split_and!; [done | lia..]].
    split; [lia |]. intros [?|(f & Hf' & Hn)]; [lia |]. rewrite Hf in Hf'. by injection Hf' as <-. }
  unfold kRcodeNotImp, kRcodeFormErr.
  case_if; [intros Hq; apply (Hgood 4 _ Hq); auto |]. read_field d 4 qd Hqd.
  case_if; [intros Hq; apply (Hgood 1 _ Hq); auto |].
  destruct (parseName_loop _ d kHeaderSize []) as [[[o name]|]|]; [|intros Hq; apply (Hgood 1 _ Hq); auto|done].
  case_if; [intros Hq; apply (Hgood 1 _ Hq); auto |].
  destruct (rd16 d o); [|done]. cbn [mbind option_bind]. destruct (rd16 d (o + 2)); [|done]. cbn [mbind option_bind].
  case_if; [intros Hq; apply (Hgood 4 _ Hq); auto |]. destruct (parseEdns _ _ _); done.
Qed.

Lemma error_flags (rd : bool) op rc :
  0 <= op < 16 -> 0 <= rc < 16 ->
  let f := w16 (Z.lor (if rd then Z.lor (w16 (Z.lor 0x8080 (Z.shiftl (Z.land op 0x0F) 11))) 0x0100
                       else w16 (Z.lor 0x8080 (Z.shiftl (Z.land op 0x0F) 11))) (Z.land rc 0x0F)) in
  0 <= f < 65536 /\ Z.land f 0x8000 <> 0 /\ Z.land f 0x0200 = 0 /\ Z.land f 0x000F = rc.
Proof.
  intros Hop Hrc f. pose proof (Z_range_check (λ x, let op := x / 16 in let rc := x mod 16 in
    let f := w16 (Z.lor (if rd then Z.lor (w16 (Z.lor 0x8080 (Z.shiftl (Z.land op 0x0F) 11))) 0x0100
                       else w16 (Z.lor 0x8080 (Z.shiftl (Z.land op 0x0F) 11))) (Z.land rc 0x0F)) in
    negb (Z.land f 0x8000 =? 0) && (Z.land f 0x0200 =? 0) && (Z.land f 0x000F =? rc)) 256) as Hc.
  specialize (Hc ltac:(by destruct rd) (op * 16 + rc) ltac:(lia)). cbv beta zeta in Hc.
  rewrite Z.div_add_l, (Z.div_small rc), Z.add_0_r, Z.add_comm, Z_mod_plus_full, (Z.mod_small rc) in Hc by lia. fold f in Hc.
  split; [apply w16_range |]. zbool. split_and!; done || by apply Z.eqb_neq || by apply Z.eqb_eq.
Qed.

(** An error reply is a bare header with the identifier and the code. *)
Lemma error_reads q rc :
  0 <= q_id q < 65536 -> 0 <= opcode q < 16 -> 0 <= rc < 16 ->
  zlen (buildError q rc) = 12 /\ rd16 (buildError q rc) 0 = Some (q_id q) /\
  inspectResponse (buildError q rc) = Some (Some (mkResponseInfo true false rc 0 None None)).
Proof.
  intros Hid Hop Hrc. destruct (error_flags (recursionDesired q) (opcode q) rc Hop Hrc) as (Hf & Hqr & Htc & Hc).
  unfold buildError. set (f := w16 (Z.lor _ (Z.land rc _))) in *.
  set (m := be16 (q_id q) ++ be16 f ++ be16 0 ++ be16 0 ++ be16 0 ++ be16 0).
  assert (Hz : zlen m = 12) by (unfold m; rewrite !zlen_app, !zlen_be16; lia).
  assert (R0 : rd16 m 0 = Some (q_id q)) by (exact (rd16_here [] (q_id q) _ Hid)).
  assert (R2 : rd16 m 2 = Some f) by (exact (rd16_here (be16 (q_id q)) f _ Hf)).
  assert (Rn : forall i, i = 4 \/ i = 6 \/ i = 8 \/ i = 10 -> rd16 m i = Some 0).
  { intros i [->|[->|[->| ->]]]; reflexivity. }
  split_and!; [done | done |].
  assert (Hw : walk m = Some (Some (12, []))).
  { apply (walk_no_records m 0); try (by apply Rn; auto); (done || lia || idtac). }
  unfold inspectResponse, read16. rewrite Hw, R2, (Rn 6) by auto. cbn [mbind option_bind collectTtls].
  rewrite Htc, Hc. rewrite (proj2 (Z.eqb_neq _ _) Hqr). done.
Qed.
