(* ===== verification/Resolver.v ===== *)
(** * Resolver: DNS through the Worker, with its caches

    Models [src/src/Dns.hpp], [src/src/Dns.cpp] (class [dns::Resolver]) and what it uses of
    [src/src/Http.hpp] and [Http.cpp]. The members that never change after construction are
    section variables; the rest is the record [Resolver]. An operation is a [Prog] of
    [Concurrency]: each [std::lock_guard] block or atomic access is one section, each
    [nowMs()] a clock reading, each [fetch] a request whose response is arbitrary. Wiping
    the secret from memory and log messages are omitted; [getaddrinfo] and [inet_pton] are
    inputs. *)

From S2P Require Import Prelude Containers Concurrency Json Strategy DnsMessage DnsAnswer RecoveryPolicy TcpConnect.

(** ** http *)

Record HttpResponse := mkHttpResponse { status : Z; body : bytes; retryAfterSeconds : Z }.
Definition ok (r : HttpResponse) : bool := (200 <=? status r) && (status r <? 300).

Record HttpRequest := mkHttpRequest {
  method : bytes;
  rq_host : bytes;
  path : bytes;
  headers : list (bytes * bytes);
  rq_body : bytes;
  timeoutMs : Z;
  rq_connectPort : Z;
}.

Definition hostFromUrl (url : bytes) : bytes :=
  let rest := match find_sub url (str "://") 0 with Some i => drop (i + 3) url | None => url end in
  let rest := match find_char rest 47 0 with Some i => take i rest | None => rest end in
  match find_char rest 58 0 with Some i => take i rest | None => rest end.

(** ** Constants *)

Definition kMinTtlSeconds : Z := 60.
Definition kMaxTtlSeconds : Z := 3600.
Definition kNegativeCacheSeconds : Z := 30.
Definition kTransientCacheSeconds : Z := 3.
Definition kMaxCacheEntries : Z := 2048.
Definition kMaxWireCacheEntries : Z := 1024.
Definition kWireMinTtlSeconds : Z := 10.
Definition kWireMaxTtlSeconds : Z := 3600.
Definition kWireNegativeMaxSeconds : Z := 60.
Definition kRequestTimeoutMs : Z := 4000.
Definition kMinRequestTimeoutMs : Z := 500.
Definition kBootstrapTtlMs : Z := 10 * 60 * 1000.
Definition kBootstrapRetryMs : Z := 30 * 1000.
Definition kBootstrapTimeoutMs : Z := 2000.
Definition kBootstrapDohHost : bytes := str "1.1.1.1".
Definition kNeverExpires : Z := 2 ^ 64 - 1.

(** ** Data *)

Record Result := mkResult {
  v4 : list bytes;
  v6 : list bytes;
  ttlSeconds : Z;
  allowWireFallback : bool;
  rcode : Z;
  transient : bool;
}.
Definition noResult : Result := mkResult [] [] 0 false 0 false.
Definition empty (r : Result) : bool := bool_decide (v4 r = []) && bool_decide (v6 r = []).
Definition transientResult : Result := mkResult [] [] 0 false 0 true.
Definition wireFallback : Result := mkResult [] [] 0 true 0 false.

Record Entry := mkEntry { result : Result; expiresAtMs : Z }.
Record WireEntry := mkWireEntry { w_response : bytes; storedAtMs : Z; w_expiresAtMs : Z }.

Record Resolver := mkResolver {
  cache_ : gmap bytes Entry;
  wireCache_ : gmap bytes WireEntry;
  inFlight_ : gset bytes;
  workerHealth_ : WorkerHealth;
  bootstrapNextMs_ : Z;
  bootstrapBusy_ : bool;
}.

Definition setCache (s : Resolver) (c : gmap bytes Entry) : Resolver :=
  mkResolver c (wireCache_ s) (inFlight_ s) (workerHealth_ s) (bootstrapNextMs_ s) (bootstrapBusy_ s).
Definition setWire (s : Resolver) (w : gmap bytes WireEntry) : Resolver :=
  mkResolver (cache_ s) w (inFlight_ s) (workerHealth_ s) (bootstrapNextMs_ s) (bootstrapBusy_ s).
Definition setInFlight (s : Resolver) (f : gset bytes) : Resolver :=
  mkResolver (cache_ s) (wireCache_ s) f (workerHealth_ s) (bootstrapNextMs_ s) (bootstrapBusy_ s).
Definition setHealth (s : Resolver) (h : WorkerHealth) : Resolver :=
  mkResolver (cache_ s) (wireCache_ s) (inFlight_ s) h (bootstrapNextMs_ s) (bootstrapBusy_ s).
Definition setNext (s : Resolver) (t : Z) : Resolver :=
  mkResolver (cache_ s) (wireCache_ s) (inFlight_ s) (workerHealth_ s) t (bootstrapBusy_ s).
Definition setBusy (s : Resolver) (b : bool) : Resolver :=
  mkResolver (cache_ s) (wireCache_ s) (inFlight_ s) (workerHealth_ s) (bootstrapNextMs_ s) b.

(** The operations of the class. *)
Abbreviation P := (Prog Resolver HttpRequest HttpResponse).

(** ** Helpers *)

Definition lowercase (value : bytes) : bytes := reverse (drop_dots (reverse (tolower <$> value))).

Definition isResolvableHost (host : bytes) : bool :=
  if bool_decide (host = []) || (253 <? zlen host) then false
  else forallb (λ c, ((97 <=? c) && (c <=? 122)) || ((48 <=? c) && (c <=? 57)) || (c =? 45) || (c =? 46)) host.

Definition agedResult (r : Result) (expires now : Z) : Result :=
  if (expires =? kNeverExpires) || (ttlSeconds r =? 0) then r else
  let remainingMs := if now <? expires then expires - now else 0 in
  let remaining := w64 (remainingMs + 999) / 1000 in
  mkResult (v4 r) (v6 r) (w32 (Z.max 1 (Z.min remaining (ttlSeconds r)))) (allowWireFallback r)
    (rcode r) (transient r).

Definition wireKey (q : Query) : bytes :=
  q_name q ++ str "|" ++ to_string (q_type q) ++ (if recursionDesired q then str "|r" else str "|-") ++
  (if dnssecOk q then str "d" else str "-") ++ (if negb (ednsPayload q =? 0) then str "e" else str "-").

Definition wireLifetimeSeconds (info : ResponseInfo) : Z :=
  if truncated info then 0
  else if (i_rcode info =? kRcodeNoError) && (0 <? answers info) then
    match answerTtl info with
    | Some t => if t =? 0 then 0 else clamp t kWireMinTtlSeconds kWireMaxTtlSeconds
    | None => 0
    end
  else if (i_rcode info =? kRcodeNoError) || (i_rcode info =? kRcodeNxDomain) then
    match authorityTtl info with
    | Some t => clamp t kWireMinTtlSeconds kWireNegativeMaxSeconds
    | None => kNegativeCacheSeconds
    end
  else 0.

Definition appendUnique (list : list bytes) (value : bytes) : Datatypes.list bytes :=
  if bool_decide (value ∈ list) then list else list ++ [value].

(** [Result::candidates]: the suffixes of the two lists that are left. *)
Fixpoint candidates_loop (limit : nat) (preferV6 : bool) (six four : list bytes) : list bytes :=
  match limit with
  | O => []
  | S limit =>
      match preferV6, six, four with
      | _, [], [] => []
      | true, a :: six', _ => a :: candidates_loop limit false six' four
      | _, _, b :: four' => b :: candidates_loop limit (negb preferV6) six four'
      | _, a :: six', [] => a :: candidates_loop limit (negb preferV6) six' four
      end
  end.
Definition candidates (r : Result) (limit : nat) : list bytes :=
  candidates_loop limit true (v6 r) (v4 r).

Section Resolver.
Context `{!MapOrder bytes}.
Variable inet_pton4 inet_pton6 : bytes -> option bytes.
(** Members that the constructor sets for good. *)
Variable workerHost_ sharedSecret_ : bytes.
Variable connectPort_ : Z.

Let isLiteral (value : bytes) : bool := isIpLiteral inet_pton4 inet_pton6 value.

Definition bootstrapKey : bytes := lowercase workerHost_.
Definition bootstrapNeeded_ : bool :=
  negb (bool_decide (workerHost_ = [])) && negb (isLiteral bootstrapKey).

(** ** The Worker's own addresses *)

(** One [addrinfo]: its family and what [inet_ntop] made of it. *)
Inductive SystemAddress := Inet (text : option bytes) | Inet6 (text : option bytes) | OtherFamily.

Definition addSystemAddress (out : Result) (a : SystemAddress) : Result :=
  match a with
  | Inet (Some t) => mkResult (appendUnique (v4 out) t) (v6 out) (ttlSeconds out) false 0 false
  | Inet6 (Some t) => mkResult (v4 out) (appendUnique (v6 out) t) (ttlSeconds out) false 0 false
  | _ => out
  end.
(** [lookupViaSystemResolver]; [resolved] is what [getaddrinfo] returned. *)
Definition lookupViaSystemResolver (resolved : option (list SystemAddress)) : option Result :=
  l ← resolved;
  let out := foldl addSystemAddress (mkResult [] [] (kBootstrapTtlMs / 1000) false 0 false) l in
  if empty out then None else Some out.

(** The constructor: [url] and [secret] become [workerHost_ = hostFromUrl url] and so on. *)
Definition newResolver (resolved : option (list SystemAddress)) (now : Z) : Resolver :=
  let s := mkResolver ∅ ∅ ∅ newWorkerHealth 0 false in
  if negb bootstrapNeeded_ then s else
  match lookupViaSystemResolver resolved with
  | Some b => setNext (setCache s (<[bootstrapKey := mkEntry b kNeverExpires]> ∅)) (w64 (now + kBootstrapTtlMs))
  | None => s
  end.

(** The loop over the answers of one DNS-over-HTTPS reply. *)
Fixpoint doh_loop (fuel : nat) (text : bytes) (wantV6 : bool) (position : nat) (out : Result) : option Result :=
  match fuel with
  | O => None
  | S f =>
      match findValue text (str "data") position with
      | None => Some out
      | Some position =>
          let '(address, e) := parseString text position in
          let next := if bool_decide (position < e)%nat then e else S position in
          if negb (isLiteral address) then doh_loop f text wantV6 next out else
          let isV6 := bool_decide (is_Some (find_char address 58 0)) in
          if eqb isV6 wantV6 then
            doh_loop f text wantV6 next
              (if isV6 then mkResult (v4 out) (appendUnique (v6 out) address) (ttlSeconds out) false 0 false
               else mkResult (appendUnique (v4 out) address) (v6 out) (ttlSeconds out) false 0 false)
          else doh_loop f text wantV6 next out
      end
  end.

Definition dohRequest (name type : bytes) : HttpRequest :=
  mkHttpRequest (str "GET") kBootstrapDohHost (str "/dns-query?name=" ++ name ++ str "&type=" ++ type)
    [(str "Accept", str "application/dns-json")] [] kBootstrapTimeoutMs 0.

(** One turn of the loop over [{"A", "AAAA"}]. *)
Definition dohLookup (name type : bytes) (wantV6 : bool) (out : Result) : P Result :=
  r ← fetch (dohRequest name type);
  if negb (ok r) then Ret out else checked (doh_loop (S (S (length (body r)))) (body r) wantV6 0 out).

Definition lookupViaDohByAddress : P (option Result) :=
  if negb (isResolvableHost bootstrapKey) then Ret None else
  out ← dohLookup bootstrapKey (str "A") false (mkResult [] [] (kBootstrapTtlMs / 1000) false 0 false);
  out ← dohLookup bootstrapKey (str "AAAA") true out;
  Ret (if empty out then None else Some out).

Definition hasBootstrap : P bool :=
  if negb bootstrapNeeded_ then Ret true else
  atomic (λ _ s, (match cache_ s !! bootstrapKey with
                  | Some e => negb (empty (result e))
                  | None => false
                  end, s)).

(** The [try] block of [refreshBootstrap]. *)
Definition fetchBootstrap : P bool :=
  try_catch (Ret false)
    (fresh ← lookupViaDohByAddress;
     match fresh with
     | None => Ret false
     | Some fresh =>
         atomic (λ _ s, (true, setCache s (<[bootstrapKey := mkEntry fresh kNeverExpires]> (cache_ s))))
     end).

(** [refreshBootstrap] from the exchange of the flag on. *)
Definition refreshOnce : P unit :=
  was ← atomic (λ _ s, (bootstrapBusy_ s, setBusy s true));
  if was : bool then Ret tt else
  refreshed ← fetchBootstrap;
  t ← nowMs;
  _ ← atomic (λ _ s, (tt, setNext s (w64 (t + (if refreshed : bool then kBootstrapTtlMs else kBootstrapRetryMs)))));
  atomic (λ _ s, (tt, setBusy s false)).

Definition refreshBootstrap : P unit :=
  due ← (if negb bootstrapNeeded_ then Ret false
         else atomic (λ t s, (negb (t <? bootstrapNextMs_ s), s)));
  if negb due then Ret tt else refreshOnce.

(** ** Calls to the Worker *)

Definition prepareWorkerCall (deadlineMs : Z) : P bool :=
  late ← (if deadlineMs =? 0 then Ret false else t ← nowMs; Ret (deadlineMs <=? t));
  if late : bool then Ret false else
  _ ← refreshBootstrap;
  reachable ← hasBootstrap;
  if negb reachable then Ret false else
  t ← nowMs;
  atomic (λ _ s, (negb (backingOff (workerHealth_ s) t), s)).

Definition requestTimeoutMs (deadlineMs : Z) : P Z :=
  if deadlineMs =? 0 then Ret kRequestTimeoutMs else
  t ← nowMs;
  if deadlineMs <=? t then Ret kMinRequestTimeoutMs
  else Ret (clamp (deadlineMs - t) kMinRequestTimeoutMs kRequestTimeoutMs).

Definition authorization : list (bytes * bytes) :=
  if bool_decide (sharedSecret_ = []) then [] else [(str "Authorization", str "Bearer " ++ sharedSecret_)].

Definition workerRequest (method path : bytes) (deadlineMs : Z) : P HttpRequest :=
  timeout ← requestTimeoutMs deadlineMs;
  Ret (mkHttpRequest method workerHost_ path authorization [] timeout connectPort_).

(** [Resolver::observe] *)
Definition observeResponse (r : HttpResponse) : P unit :=
  t ← nowMs;
  atomic (λ _ s, (tt, setHealth s (observe (workerHealth_ s) (status r) t (retryAfterSeconds r)).2)).

(** What a successful [/resolve] response says. *)
Definition resolveResult (text : bytes) : Result :=
  let a := getStringArray text (str "a") in
  let aaaa := getStringArray text (str "aaaa") in
  let a := if bool_decide (a = []) && bool_decide (aaaa = []) then
             let legacy := getString text (str "ip") 0 in
             if bool_decide (legacy = []) then a else [legacy]
           else a in
  let a := List.filter isLiteral a in
  let aaaa := List.filter isLiteral aaaa in
  let none := bool_decide (a = []) && bool_decide (aaaa = []) in
  let code := getInt text (str "rcode") (-1) in
  let partial := getBool text (str "partial") in
  let ttl := clamp (getInt text (str "ttl") kMinTtlSeconds) kMinTtlSeconds kMaxTtlSeconds in
  mkResult a aaaa (if partial then Z.min ttl kTransientCacheSeconds else ttl)
    (if 0 <=? code then false else none) (if 0 <=? code then Z.min code 15 else 0) partial.

Definition query (host : bytes) (deadlineMs : Z) : P Result :=
  if bool_decide (workerHost_ = []) then Ret noResult else
  if negb (isResolvableHost host) then Ret wireFallback else
  ready ← prepareWorkerCall deadlineMs;
  if negb ready then Ret transientResult else
  request ← workerRequest (str "GET") (str "/resolve?host=" ++ host) deadlineMs;
  response ← fetch request;
  _ ← observeResponse response;
  if (status response =? 401) || (status response =? 403) then Ret transientResult
  else if status response =? 429 then Ret transientResult
  else if status response =? 404 then Ret wireFallback
  else if negb (ok response) then Ret transientResult
  else Ret (resolveResult (body response)).

(** ** resolve *)

(** The section at the top of the loop: [Some (Some r)] is an answer from the cache,
    [Some None] that this thread must ask, [None] that another thread is asking. *)
Definition lookupSection (key : bytes) (now : Z) (s : Resolver) : option (option Result) * Resolver :=
  match cache_ s !! key with
  | Some e =>
      if now <? expiresAtMs e then (Some (Some (agedResult (result e) (expiresAtMs e) now)), s)
      else if bool_decide (key = bootstrapKey) then (Some (Some transientResult), s)
      else if bool_decide (key ∈ inFlight_ s) then (None, s)
      else (Some None, setInFlight s ({[key]} ∪ inFlight_ s))
  | None =>
      if bool_decide (key = bootstrapKey) then (Some (Some transientResult), s)
      else if bool_decide (key ∈ inFlight_ s) then (None, s)
      else (Some None, setInFlight s ({[key]} ∪ inFlight_ s))
  end.

(** The entry other than the bootstrap one that expires first. *)
Definition eraseVictim (c : gmap bytes Entry) : gmap bytes Entry :=
  match min_element (λ kv : bytes * Entry, expiresAtMs kv.2)
          (List.filter (λ kv, negb (bool_decide (kv.1 = bootstrapKey))) (iter c)) with
  | Some kv => delete kv.1 c
  | None => c
  end.

Definition lifetime (r : Result) : Z :=
  if transient r then kTransientCacheSeconds
  else if empty r then kNegativeCacheSeconds else ttlSeconds r.

(** The section that stores the answer and wakes the others. *)
Definition storeSection (key : bytes) (r : Result) (now : Z) (s : Resolver) : unit * Resolver :=
  let c := if negb (bool_decide (is_Some (cache_ s !! key))) && (kMaxCacheEntries <=? msize (cache_ s))
           then eraseVictim (cache_ s) else cache_ s in
  (tt, setInFlight (setCache s (<[key := mkEntry r (w64 (now + w64 (lifetime r * 1000)))]> c))
         (inFlight_ s ∖ {[key]})).

Definition directResult (key : bytes) : Result :=
  if bool_decide (is_Some (find_char key 58 0)) then mkResult [] [key] 0 false 0 false
  else mkResult [key] [] 0 false 0 false.

Definition resolve (host : bytes) (deadlineMs : Z) : P Result :=
  let key := lowercase host in
  if bool_decide (key = []) then Ret noResult else
  if isLiteral key then Ret (directResult key) else
  found ← Await (λ s, negb (bool_decide (key ∈ inFlight_ s))) (lookupSection key) Ret;
  match found with
  | Some r => Ret r
  | None =>
      r ← try_catch (Ret transientResult) (query key deadlineMs);
      _ ← atomic (storeSection key r);
      Ret r
  end.

(** ** queryWire *)

(** A live entry and its age in seconds; a stale one is erased. *)
Definition wireLookup (key : bytes) (now : Z) (s : Resolver) : option (bytes * Z) * Resolver :=
  match wireCache_ s !! key with
  | Some w =>
      if now <? w_expiresAtMs w then (Some (w_response w, w64 (now - storedAtMs w) / 1000), s)
      else (None, setWire s (delete key (wireCache_ s)))
  | None => (None, s)
  end.

Definition wireStore (key answer : bytes) (life now : Z) (s : Resolver) : unit * Resolver :=
  let w := if negb (bool_decide (is_Some (wireCache_ s !! key))) && (kMaxWireCacheEntries <=? msize (wireCache_ s))
           then erase_min w_expiresAtMs (wireCache_ s) else wireCache_ s in
  (tt, setWire s (<[key := mkWireEntry answer now (w64 (now + w64 (life * 1000)))]> w)).

(** The answer is a response to this question: the checks before it is passed on. *)
Definition acceptAnswer (answer : bytes) (q : Query) : option (option ResponseInfo) :=
  let? info := inspectResponse answer else Some None in
  if negb (DnsMessage.response info) then Some None else
  e ← echoesQuestion answer q;
  Some (if e : bool then Some info else None).

Definition wireRequest (message : bytes) (rq : HttpRequest) : HttpRequest :=
  mkHttpRequest (method rq) (rq_host rq) (path rq)
    (headers rq ++ [(str "Accept", str "application/dns-message");
                    (str "Content-Type", str "application/dns-message")])
    message (timeoutMs rq) (rq_connectPort rq).

(** The part of [queryWire] that asks the Worker. *)
Definition askWire (message : bytes) (q : Query) (deadlineMs : Z) : P bytes :=
  ready ← prepareWorkerCall deadlineMs;
  if negb ready then Ret [] else
  request ← workerRequest (str "POST") (str "/dns-query") deadlineMs;
  response ← fetch (wireRequest message request);
  _ ← observeResponse response;
  if (status response =? 401) || (status response =? 403) then Ret [] else
  if negb (ok response) || (zlen (body response) <? 12) || (65535 <? zlen (body response)) then Ret [] else
  accepted ← checked (acceptAnswer (body response) q);
  match accepted with
  | None => Ret []
  | Some info =>
      answer ← checked (setId (body response) (q_id q));
      let life := wireLifetimeSeconds info in
      _ ← (if life =? 0 then Ret tt else atomic (wireStore (wireKey q) answer life));
      Ret answer
  end.

(** The answer about the Worker itself, from the bootstrap entry. *)
Definition bootstrapAnswer (q : Query) (b : Result) : bytes :=
  let addresses := if q_type q =? kTypeAaaa then v6 b else if q_type q =? kTypeA then v4 b else [] in
  buildResponse inet_pton4 inet_pton6 q addresses
    (if ttlSeconds b =? 0 then kMinTtlSeconds else ttlSeconds b) (empty b) 0.

Definition queryWire (message : bytes) (deadlineMs : Z) : P bytes :=
  parsed ← checked (parseQuery message);
  let '(good, q) := parsed in
  if negb good then Ret [] else
  if bool_decide (workerHost_ = []) then Ret [] else
  if bool_decide (lowercase (q_name q) = bootstrapKey) then
    b ← resolve (q_name q) 0; Ret (bootstrapAnswer q b)
  else
  hit ← atomic (wireLookup (wireKey q));
  match hit with
  | Some (cached, age) =>
      m ← checked (setId cached (q_id q));
      checked (ageTtls m (Z.min age kWireMaxTtlSeconds))
  | None => askWire message q deadlineMs
  end.

Definition isBootstrapHost (host : bytes) : bool :=
  negb (bool_decide (workerHost_ = [])) && bool_decide (lowercase host = bootstrapKey).

Definition clearCache : P unit :=
  atomic (λ _ s, (tt, setWire (setCache s (erase_if (λ k _, negb (bool_decide (k = bootstrapKey))) (cache_ s))) ∅)).

Definition cacheSize (s : Resolver) : Z := msize (cache_ s).
Definition wireCacheSize (s : Resolver) : Z := msize (wireCache_ s).
End Resolver.

(** ** Specifications *)

(** [GetTickCount64] stays below 2^63; a response body is made of bytes. *)
Definition good_time (t : Z) : Prop := 0 <= t < 2 ^ 63.
Definition good_response (r : HttpResponse) : Prop := all_bytes (body r).

Section Specs.
Variable inet_pton4 inet_pton6 : bytes -> option bytes.
Variable workerHost_ sharedSecret_ : bytes.

Let bootKey : bytes := bootstrapKey workerHost_.
Let literal (a : bytes) : Prop := isIpLiteral inet_pton4 inet_pton6 a = true.

(** What is kept for an ordinary name: addresses that can be connected to, a TTL within
    bounds. *)
Definition result_ok (r : Result) : Prop :=
  0 <= ttlSeconds r <= kMaxTtlSeconds /\ 0 <= rcode r <= 15 /\ Forall literal (v4 r) /\ Forall literal (v6 r).

(** A relayed response is kept under the key of the query it answers. *)
Definition wire_ok (key : bytes) (w : WireEntry) : Prop :=
  all_bytes (w_response w) /\ 12 <= zlen (w_response w) <= 65535 /\
  exists q, parsed_query q /\ wireKey q = key /\ answers_query (w_response w) q.

Record resolver_ok (s : Resolver) : Prop := {
  rok_size : msize (delete bootKey (cache_ s)) <= kMaxCacheEntries;
  rok_results : forall k e, cache_ s !! k = Some e -> k <> bootKey -> result_ok (result e);
  rok_boot : forall e, cache_ s !! bootKey = Some e ->
    expiresAtMs e = kNeverExpires /\ empty (result e) = false /\ ttlSeconds (result e) = 600 /\ rcode (result e) = 0;
  rok_wsize : msize (wireCache_ s) <= kMaxWireCacheEntries;
  rok_wire : forall k w, wireCache_ s !! k = Some w -> wire_ok k w;
}.

(** A thread holds the name it is asking for, or nothing. A step takes a free name, gives
    its own back, or leaves the set alone; the Worker's addresses are never lost. *)
Definition holds_step (g : option bytes) (s s' : Resolver) (g' : option bytes) : Prop :=
  ((g' = g /\ inFlight_ s' = inFlight_ s) \/
   (exists k, g = None /\ g' = Some k /\ (k ∉ inFlight_ s) /\ inFlight_ s' = {[k]} ∪ inFlight_ s) \/
   (exists k, g = Some k /\ g' = None /\ inFlight_ s' = inFlight_ s ∖ {[k]})) /\
  (is_Some (cache_ s !! bootKey) -> is_Some (cache_ s' !! bootKey)).

(** The requests that may leave: to the Worker, with the secret, for the name that the
    thread holds or as a relayed message; or to the public resolver, without it. Nothing in
    the path can end the request line. *)
Definition request_ok (g : option bytes) (rq : HttpRequest) : Prop :=
  Forall (λ c, 33 <= c <= 126) (path rq) /\
  (rq_host rq = workerHost_ /\
     ((method rq = str "GET" /\ headers rq = authorization sharedSecret_ /\
        exists h, g = Some h /\ isResolvableHost h = true /\ path rq = str "/resolve?host=" ++ h) \/
      method rq = str "POST" /\ path rq = str "/dns-query" /\
        headers rq = authorization sharedSecret_ ++ [(str "Accept", str "application/dns-message");
                       (str "Content-Type", str "application/dns-message")]) \/
   rq_host rq = kBootstrapDohHost /\ headers rq = [(str "Accept", str "application/dns-json")] /\ rq_body rq = []).

(** A thread that waits holds nothing, and waits for one name. *)
Definition may_wait (g : option bytes) (ready : Resolver -> bool) : Prop :=
  g = None /\ exists key, ready = λ s, negb (bool_decide (key ∈ inFlight_ s)).

(** A thread knows nothing of the object beyond the invariant. *)
Definition owns_nothing (g : option bytes) (s : Resolver) : Prop := True.

(** The names being asked for are those the threads hold, each held once. *)
Definition single_flight (s : Resolver) (gs : list (option bytes)) : Prop :=
  (forall i j k, gs !! i = Some (Some k) -> gs !! j = Some (Some k) -> i = j) /\
  (forall k, k ∈ inFlight_ s <-> exists i, gs !! i = Some (Some k)).
End Specs.

(** A reply to the query in [message]: a well-formed response with its identifier that
    echoes its question. *)
Definition reply_to (message reply : bytes) : Prop :=
  exists q, parseQuery message = Some (true, q) /\ answers_query reply q /\
    rd16 reply 0 = rd16 message 0 /\ all_bytes reply /\ 12 <= zlen reply <= 65535.

(** ** Lemmas: keys *)

Lemma wireKey_inj q q' :
  parsed_query q -> parsed_query q' -> wireKey q = wireKey q' -> q_name q = q_name q' /\ q_type q = q_type q'.
Proof.
  assert (Hp : forall q, parsed_query q -> (124 ∉ q_name q) /\ 0 <= q_type q < 65536).
  { intros q0 (d & Hd & Hpq). destruct (parseQuery_true _ _ Hd Hpq) as (ls & ty & Hform & Hf & _).
    destruct Hform as (_ & _ & _ & _ & _ & _ & _ & _ & _ & _ & Hv & _ & Hty).
    destruct Hf as (_ & -> & _ & _ & -> & _ & _). split; [|done].
    apply lowered_chars in Hv as [Hc _].
    assert (Hno : forall l : bytes, Forall (λ c, isNameChar c = true) l -> 124 ∉ l).
    { intros l Hl Hin. rewrite Forall_forall in Hl. apply Hl in Hin. by apply (name_char_not 124 124) in Hin; auto. }
    destruct (lowered ls) as [|l ks]; [apply not_elem_of_nil |]. apply Forall_cons in Hc as [Hl Hks]. unfold dotted.
    rewrite not_elem_of_app. split; [by apply Hno |]. clear - Hks Hno.
    induction Hks as [|k ks Hk _ IH]; [apply not_elem_of_nil |]. rewrite bind_cons.
    rewrite not_elem_of_app, not_elem_of_cons. split; [split; [done | by apply Hno] | done]. }
  intros H H'. destruct (Hp q H) as [Hn Ht], (Hp q' H') as [Hn' Ht']. unfold wireKey.
  change (str "|") with [124]. cbn [app].
  intros [-> Heq]%app_split_first; [|done | done]. split; [done |].
  assert (Hd : forall n, 0 <= n < 65536 -> 124 ∉ to_string n).
  { intros n Hnr Hin. destruct (to_string_spec n ltac:(lia)) as (Hdig & _). rewrite Forall_forall in Hdig.
    apply Hdig in Hin. done. }
  assert (Hcut : forall b : bool, exists c, (if b then str "|r" else str "|-") = 124 :: c) by (intros []; by eexists).
  destruct (Hcut (recursionDesired q)) as [c Hc], (Hcut (recursionDesired q')) as [c' Hc'].
  rewrite Hc, Hc' in Heq. cbn [app] in Heq.
  apply app_split_first in Heq as [Heq _]; [|by apply Hd | by apply Hd].
  apply to_string_inj in Heq; [done | lia | lia].
Qed.

(** ** Lemmas: the bootstrap reply *)

Lemma printable l : forallb (λ c, (33 <=? c) && (c <=? 126)) l = true -> Forall (λ c, 33 <= c <= 126) l.
Proof.
  rewrite forallb_forall. intros H. apply Forall_forall. intros c Hc%list_elem_of_In. specialize (H c Hc). zbool. lia.
Qed.

Lemma isResolvable_chars h : isResolvableHost h = true -> Forall (λ c, 33 <= c <= 126) h.
Proof.
  unfold isResolvableHost. case_if; [done |]. intros H. apply Forall_forall. intros c Hc%list_elem_of_In.
  rewrite forallb_forall in H. specialize (H c Hc). repeat (apply orb_true_iff in H as [H|H]); zbool; lia.
Qed.

Section Literals.
Context (inet_pton4 inet_pton6 : bytes -> option bytes).

Lemma doh_loop_total fuel text want position out :
  (length text < fuel + position)%nat -> (0 < fuel)%nat ->
  exists r, doh_loop inet_pton4 inet_pton6 fuel text want position out = Some r /\
    ttlSeconds r = ttlSeconds out /\ (rcode out = 0 -> rcode r = 0).
Proof.
  revert position out. induction fuel as [|f IH]; intros position out Hf H0; [lia |]. cbn [doh_loop].
  destruct (findValue text (str "data") position) as [p|] eqn:Ev; [|eauto].
  apply findValue_advance in Ev as [Hp Hl]. destruct (parseString text p) as [address e].
  set (next := if bool_decide _ then e else S p). assert (Hn : (position < next)%nat).
  { unfold next. case_bool_decide; lia. }
  clearbody next. case_if; [apply IH; lia |]. case_if; [|apply IH; lia].
  case_if; (edestruct IH as (r & -> & Ht & Hr); [| |exists r; split_and!; [done | exact Ht | exact (λ _, Hr eq_refl)]]; lia).
Qed.
End Literals.

(** ** The operations keep their promises *)

Section Operations.
Context `{!MapOrder bytes} (inet_pton4 inet_pton6 : bytes -> option bytes).
Context (workerHost_ sharedSecret_ : bytes) (connectPort_ : Z).
(** [inet_pton] writes four bytes for IPv4 and sixteen for IPv6. *)
Context (pton4_len : forall t b, inet_pton4 t = Some b -> all_bytes b /\ zlen b = 4).
Context (pton6_len : forall t b, inet_pton6 t = Some b -> all_bytes b /\ zlen b = 16).

Abbreviation bootKey := (bootstrapKey workerHost_).
Abbreviation Inv := (resolver_ok inet_pton4 inet_pton6 workerHost_).
Abbreviation Rel := (holds_step workerHost_).
Abbreviation Wp := (wp good_time good_response Inv Rel owns_nothing (request_ok workerHost_ sharedSecret_) may_wait).

(** *** Steps *)

Lemma wp_fetch g rq (Q : HttpResponse -> option bytes -> Prop) (X : option bytes -> Prop) :
  request_ok workerHost_ sharedSecret_ g rq -> (forall r, good_response r -> Q r g) -> X g ->
  Wp (fetch rq) g Q X.
Proof. intros Hs Hq Hx. split; [done |]. intros [r|] Ho; simpl; auto. Qed.

Lemma wp_checked {A} (o : option A) a g (Q : A -> option bytes -> Prop) X :
  o = Some a -> Q a g -> Wp (checked o) g Q X.
Proof. by intros ->. Qed.

Lemma Rel_keep g s s' :
  inFlight_ s' = inFlight_ s -> (is_Some (cache_ s !! bootKey) -> is_Some (cache_ s' !! bootKey)) -> Rel g s s' g.
Proof. intros H1 H2. split; [by left | done]. Qed.

(** A section that leaves the tables and the set of names alone. *)
Lemma wp_atomic_read {A} (sec : Z -> Resolver -> A * Resolver) g (Q : A -> option bytes -> Prop) X :
  (forall t s, Inv s -> cache_ (sec t s).2 = cache_ s /\ wireCache_ (sec t s).2 = wireCache_ s /\
     inFlight_ (sec t s).2 = inFlight_ s) ->
  (forall t s, good_time t -> Inv s -> Q (sec t s).1 g) -> Wp (atomic sec) g Q X.
Proof.
  intros Hsame HQ t s Ht Hs _. destruct (Hsame t s Hs) as (Hc & Hw & Hf). split.
  - destruct Hs as [H1 H2 H3 H4 H5]. split; rewrite ?Hc, ?Hw; done.
  - exists g. split; [apply Rel_keep; [done | by rewrite Hc] |]. by apply HQ.
Qed.

(** *** The bootstrap addresses *)

Lemma wp_dohLookup name type want out g (Q : Result -> option bytes -> Prop) (X : option bytes -> Prop) :
  isResolvableHost name = true -> type = str "A" \/ type = str "AAAA" ->
  (forall r, ttlSeconds r = ttlSeconds out -> (rcode out = 0 -> rcode r = 0) -> Q r g) -> X g ->
  Wp (dohLookup inet_pton4 inet_pton6 name type want out) g Q X.
Proof.
  intros Hn Ht HQ HX. unfold dohLookup. apply wp_bind, wp_fetch.
  - split; [|by right]. cbn [path dohRequest]. rewrite !Forall_app. split_and!.
    + by apply printable.
    + by apply isResolvable_chars.
    + by apply printable.
    + destruct Ht as [-> | ->]; by apply printable.
  - intros r Hr. case_if; [by apply HQ |].
    destruct (doh_loop_total inet_pton4 inet_pton6 (S (S (length (body r)))) (body r) want 0 out)
      as (r' & Hd & Ht' & Hc'); [lia | lia |]. eapply wp_checked; [exact Hd |]. by apply HQ.
  - done.
Qed.

Lemma wp_lookupViaDoh g (X : option bytes -> Prop) :
  X g ->
  Wp (lookupViaDohByAddress inet_pton4 inet_pton6 workerHost_) g
    (λ o g', g' = g /\ forall r, o = Some r -> empty r = false /\ ttlSeconds r = 600 /\ rcode r = 0) X.
Proof.
  intros HX. unfold lookupViaDohByAddress. case_if; [split; [done |]; by intros r [=] |]. zbool.
  apply wp_bind, wp_dohLookup; [done | by left | | done]. intros r1 T1 C1.
  apply wp_bind, wp_dohLookup; [done | by right | | done]. intros r2 T2 C2. simpl in *.
  split; [done |]. intros r. case_if; [done |]. intros [= <-]. rewrite T2, T1. auto.
Qed.

Lemma wp_fetchBootstrap g X :
  Wp (fetchBootstrap inet_pton4 inet_pton6 workerHost_) g (λ _ g', g' = g) X.
Proof.
  unfold fetchBootstrap. apply wp_try, wp_bind.
  eapply wp_mono; [by apply (wp_lookupViaDoh g (λ g', g' = g)) | | by intros ? ->].
  intros o g' [-> Ho]. destruct o as [r|]; [|done]. destruct (Ho r eq_refl) as (He & Ht & Hc).
  intros t s _ Hs _. split.
  - destruct Hs as [H1 H2 H3 H4 H5]. split; cbn [snd cache_ wireCache_ setCache]; try done.
    + by rewrite delete_insert_eq.
    + intros k e Hk Hne. rewrite lookup_insert_ne in Hk by done. by eapply H2.
    + intros e. rewrite lookup_insert_eq. by intros [= <-].
  - exists g. split; [|done]. apply Rel_keep; [done |]. intros _. cbn. rewrite lookup_insert_eq. eauto.
Qed.

Lemma wp_refreshBootstrap g (Q : unit -> option bytes -> Prop) X :
  Q tt g -> Wp (refreshBootstrap inet_pton4 inet_pton6 workerHost_) g Q X.
Proof.
  intros HQ. assert (Honce : Wp (refreshOnce inet_pton4 inet_pton6 workerHost_) g Q X).
  { unfold refreshOnce. apply wp_bind, wp_atomic_read; [done |]. intros t s _ _. cbn [fst]. case_if; [done |].
    apply wp_bind. eapply wp_mono; [apply wp_fetchBootstrap | | done]. intros refreshed g' ->.
    apply wp_bind. intros t' Ht'. apply wp_bind, wp_atomic_read; [done |]. intros ? ? _ _.
    apply wp_atomic_read; [done |]. by intros. }
  unfold refreshBootstrap. apply wp_bind. case_if; [done |]. apply wp_atomic_read; [done |].
  intros t s _ _. by case_if.
Qed.

Lemma wp_prepareWorkerCall deadline g (Q : bool -> option bytes -> Prop) X :
  (forall b, Q b g) -> Wp (prepareWorkerCall inet_pton4 inet_pton6 workerHost_ deadline) g Q X.
Proof.
  intros HQ. unfold prepareWorkerCall. apply wp_bind.
  eapply wp_mono with (Q := λ (_ : bool) g', g' = g) (X := X); [| | done].
  { case_if; [done |]. by intros t Ht. }
  intros late g' ->. case_if; [apply HQ |]. apply wp_bind, wp_refreshBootstrap, wp_bind.
  eapply wp_mono with (Q := λ (_ : bool) g', g' = g) (X := X); [| | done].
  { unfold hasBootstrap. case_if; [done |]. by apply wp_atomic_read. }
  intros reachable g' ->. case_if; [apply HQ |]. apply wp_bind. intros t Ht. by apply wp_atomic_read.
Qed.

Lemma wp_workerRequest m p deadline g (Q : HttpRequest -> option bytes -> Prop) X :
  (forall t, Q (mkHttpRequest m workerHost_ p (authorization sharedSecret_) [] t connectPort_) g) ->
  Wp (workerRequest workerHost_ sharedSecret_ connectPort_ m p deadline) g Q X.
Proof.
  intros HQ. unfold workerRequest, requestTimeoutMs. apply wp_bind. case_if; [apply HQ |].
  intros t Ht. cbn. case_if; apply HQ.
Qed.

Lemma wp_observeResponse r g (Q : unit -> option bytes -> Prop) X : Q tt g -> Wp (observeResponse r) g Q X.
Proof. intros HQ t Ht. apply wp_atomic_read; [done |]. by intros. Qed.

(** *** resolve *)

Lemma simple_result_ok r : v4 r = [] -> v6 r = [] -> ttlSeconds r = 0 -> rcode r = 0 -> result_ok inet_pton4 inet_pton6 r.
Proof. intros H1 H2 H3 H4. unfold result_ok, kMaxTtlSeconds. rewrite H1, H2, H3, H4. by split_and!; constructor || lia. Qed.

Lemma filter_literal l : Forall (λ a, isIpLiteral inet_pton4 inet_pton6 a = true) (List.filter (isIpLiteral inet_pton4 inet_pton6) l).
Proof. apply Forall_forall. intros a Ha%list_elem_of_In%filter_In. apply Ha. Qed.

Lemma resolveResult_ok text : result_ok inet_pton4 inet_pton6 (resolveResult inet_pton4 inet_pton6 text).
Proof.
  unfold resolveResult, result_ok. cbn [ttlSeconds rcode v4 v6]. split_and!.
  1-4: unfold clamp, kMinTtlSeconds, kMaxTtlSeconds, kTransientCacheSeconds; repeat case_if; zbool; lia.
  - apply filter_literal.
  - apply filter_literal.
Qed.

Lemma wp_query host deadline (Q : Result -> option bytes -> Prop) (X : option bytes -> Prop) :
  (forall r, result_ok inet_pton4 inet_pton6 r -> Q r (Some host)) -> X (Some host) ->
  Wp (query inet_pton4 inet_pton6 workerHost_ sharedSecret_ connectPort_ host deadline) (Some host) Q X.
Proof.
  set (g := Some host). intros HQ HX. assert (Hs : forall r, v4 r = [] -> v6 r = [] -> ttlSeconds r = 0 -> rcode r = 0 -> Q r g).
  { intros. by apply HQ, simple_result_ok. }
  unfold query. case_if; [by apply Hs |]. destruct (isResolvableHost host) eqn:Eh; cbn [negb]; [|by apply Hs].
  apply wp_bind, wp_prepareWorkerCall. intros ready. case_if; [by apply Hs |].
  apply wp_bind, wp_workerRequest. intros t. apply wp_bind, wp_fetch; [| |done].
  - split; cbn [path rq_host method headers].
    + apply Forall_app. split; [by apply printable | by apply isResolvable_chars].
    + left. split; [done |]. left. split_and!; eauto.
  - intros r Hr. apply wp_bind, wp_observeResponse.
    do 4 (case_if; [by apply Hs |]). by apply HQ, resolveResult_ok.
Qed.

Lemma eraseVictim_spec (c : gmap bytes Entry) :
  eraseVictim workerHost_ c ⊆ c /\ eraseVictim workerHost_ c !! bootKey = c !! bootKey /\
  msize (delete bootKey (eraseVictim workerHost_ c)) <= Z.max 0 (msize (delete bootKey c) - 1).
Proof.
  unfold eraseVictim. destruct (min_element _ _) as [[k e]|] eqn:E.
  - apply min_element_in, filter_In in E as [Hin%iter_In Hk]. cbn [fst snd] in *. zbool.
    split_and!; [apply delete_subseteq | by rewrite lookup_delete_ne |].
    rewrite delete_delete. assert (Hd : delete bootKey c !! k = Some e) by (by rewrite lookup_delete_ne).
    unfold msize. rewrite map_size_delete, Hd. simpl. lia.
  - apply min_element_None in E. split_and!; [done | done |].
    assert (delete bootKey c = ∅) as ->; [|rewrite msize_empty; lia].
    apply map_eq. intros k. rewrite lookup_empty. destruct (decide (k = bootKey)) as [->|Hne]; [apply lookup_delete_eq |].
    rewrite lookup_delete_ne by done. destruct (c !! k) as [e|] eqn:Ek; [|done].
    assert (Hin : In (k, e) (List.filter (λ kv : bytes * Entry, negb (bool_decide (kv.1 = bootKey))) (iter c))).
    { apply filter_In. split; [by apply iter_In |]. cbn [fst]. by rewrite bool_decide_eq_false_2. }
    by rewrite E in Hin.
Qed.

Lemma storeSection_ok key r t s :
  key <> bootKey -> result_ok inet_pton4 inet_pton6 r -> Inv s ->
  Inv (storeSection workerHost_ key r t s).2 /\ Rel (Some key) s (storeSection workerHost_ key r t s).2 None.
Proof.
  intros Hk Hr Hs. unfold storeSection. set (c := if negb _ && _ then _ else _).
  assert (Hc : c ⊆ cache_ s /\ c !! bootKey = cache_ s !! bootKey /\
    msize (delete bootKey (<[key := mkEntry r (w64 (t + w64 (lifetime r * 1000)))]> c)) <= kMaxCacheEntries).
  { pose proof (rok_size _ _ _ s Hs) as Hz. unfold kMaxCacheEntries in *. rewrite delete_insert_ne by done.
    unfold c. destruct (cache_ s !! key) as [e|] eqn:Ek.
    - rewrite bool_decide_eq_true_2 by eauto. cbn [negb andb]. split_and!; [done | done |].
      rewrite (msize_insert_Some _ _ _ e); [done | by rewrite lookup_delete_ne].
    - rewrite bool_decide_eq_false_2 by (by intros [? ?]). cbn [negb andb].
      destruct (eraseVictim_spec (cache_ s)) as (H1 & H2 & H3). case_if; zbool; split_and!; try done.
      + etrans; [apply msize_insert_le |]. lia.
      + pose proof (msize_delete_le (cache_ s) bootKey). etrans; [apply msize_insert_le |]. lia. }
  clearbody c. destruct Hc as (Hsub & Hboot & Hsize). split.
  - destruct Hs as [H1 H2 H3 H4 H5]. split; cbn [snd cache_ wireCache_ setInFlight setCache]; try done.
    + intros k e He Hne. apply lookup_insert_Some in He as [[<- <-]|[_ He]]; [done |].
      eapply H2; [|done]. by eapply lookup_weaken.
    + intros e He. apply H3. rewrite lookup_insert_ne in He by done. congruence.
  - split; cbn [snd cache_ inFlight_ setInFlight setCache].
    + right. right. by exists key.
    + intros Hb. rewrite lookup_insert_ne by done. by rewrite Hboot.
Qed.

(** What [resolve] promises of its answer. *)
Definition resolve_ok (host : bytes) (r : Result) : Prop :=
  0 <= ttlSeconds r <= kMaxTtlSeconds /\ 0 <= rcode r <= 15 /\
  (lowercase host <> bootKey -> isIpLiteral inet_pton4 inet_pton6 (lowercase host) = false ->
     result_ok inet_pton4 inet_pton6 r).

Lemma agedResult_ttl r expires now :
  0 <= ttlSeconds r < 2 ^ 32 -> 0 <= ttlSeconds (agedResult r expires now) <= ttlSeconds r.
Proof.
  intros Ht. unfold agedResult. case_if; [lia |]. cbn [ttlSeconds]. zbool.
  pose proof (w64_range ((if now <? expires then expires - now else 0) + 999)).
  rewrite w32_small; [|pose proof (Z.div_pos (w64 ((if now <? expires then expires - now else 0) + 999)) 1000)]; lia.
Qed.

Lemma agedResult_fields r expires now :
  v4 (agedResult r expires now) = v4 r /\ v6 (agedResult r expires now) = v6 r /\ rcode (agedResult r expires now) = rcode r.
Proof. unfold agedResult. by case_if. Qed.

Lemma lookupSection_ok host t s :
  let key := lowercase host in
  isIpLiteral inet_pton4 inet_pton6 key = false -> Inv s ->
  let '(o, s') := lookupSection workerHost_ key t s in
  Inv s' /\
  match o with
  | Some (Some r) => s' = s /\ resolve_ok host r
  | Some None => key <> bootKey /\ Rel None s s' (Some key)
  | None => s' = s /\ key ∈ inFlight_ s
  end.
Proof.
  intros key Hl Hs.
  assert (Hmiss : let '(o, s') := (if bool_decide (key = bootKey) then (Some (Some transientResult), s)
      else if bool_decide (key ∈ inFlight_ s) then (None, s)
      else (Some None, setInFlight s ({[key]} ∪ inFlight_ s))) in
    Inv s' /\
    match o with
    | Some (Some r) => s' = s /\ resolve_ok host r
    | Some None => key <> bootKey /\ Rel None s s' (Some key)
    | None => s' = s /\ key ∈ inFlight_ s
    end).
  { case_bool_decide as Hb; [|case_bool_decide as Hf].
    - by split_and!.
    - done.
    - split; [by destruct Hs; split |]. split; [done |]. split; [|done]. right. left. by exists key. }
  unfold lookupSection. destruct (cache_ s !! key) as [e|] eqn:Ee; [|exact Hmiss].
  destruct (t <? expiresAtMs e); [|exact Hmiss]. split; [done |]. split; [done |].
  destruct (agedResult_fields (result e) (expiresAtMs e) t) as (F4 & F6 & Fr).
  assert (Htr : 0 <= ttlSeconds (result e) <= kMaxTtlSeconds /\ 0 <= rcode (result e) <= 15 /\
    (key <> bootKey -> result_ok inet_pton4 inet_pton6 (result e))).
  { unfold kMaxTtlSeconds. destruct (decide (key = bootKey)) as [Hb|Hb].
    - rewrite Hb in Ee. destruct (rok_boot _ _ _ s Hs e Ee) as (_ & _ & -> & ->). split_and!; try lia. done.
    - pose proof (rok_results _ _ _ s Hs key e Ee Hb) as Hr. destruct Hr as (? & ? & ?). by unfold kMaxTtlSeconds in *. }
  destruct Htr as (Ht & Hc & Hok). unfold kMaxTtlSeconds in *.
  pose proof (agedResult_ttl (result e) (expiresAtMs e) t ltac:(lia)).
  split_and!; try (rewrite ?Fr; unfold kMaxTtlSeconds; lia).
  intros Hne _. destruct (Hok Hne) as (? & ? & ? & ?). unfold result_ok. rewrite F4, F6, Fr.
  unfold kMaxTtlSeconds in *. split_and!; try done; lia.
Qed.

Lemma wp_resolve host deadline (Q : Result -> option bytes -> Prop) X :
  (forall r, resolve_ok host r -> Q r None) ->
  Wp (resolve inet_pton4 inet_pton6 workerHost_ sharedSecret_ connectPort_ host deadline) None Q X.
Proof.
  intros HQ. unfold resolve. cbv zeta. case_if.
  { apply HQ. split_and!; try done; intros _ _; by apply simple_result_ok. }
  case_if; [apply HQ; unfold directResult; case_if; split_and!; try done; intros _ H; congruence |].
  apply wp_bind. split; [split; [done |]; by exists (lowercase host) |]. intros t s Ht Hs _.
  pose proof (lookupSection_ok host t s E0 Hs) as Hl. destruct (lookupSection _ _ _ _) as [o s']. cbn [fst snd].
  destruct Hl as [Hi Hl]. split; [done |]. destruct o as [[r|]|].
  - destruct Hl as [-> Hr]. exists None. split; [by apply Rel_keep | by apply HQ].
  - destruct Hl as [Hb Hr]. exists (Some (lowercase host)). split; [done |]. cbn [wp]. apply wp_bind, wp_try.
    assert (Hstore : forall r, result_ok inet_pton4 inet_pton6 r ->
      Wp (_ ← atomic (storeSection workerHost_ (lowercase host) r); Ret r) (Some (lowercase host)) Q X).
    { intros r Hok. apply wp_bind. intros t' s2 _ Hs2 _. destruct (storeSection_ok _ _ t' s2 Hb Hok Hs2) as [Hi2 Hr2].
      split; [done |]. exists None. split; [done |]. apply HQ. pose proof Hok as (? & ? & _). split; [done |]. by split. }
    apply wp_query; [intros r Hok; by apply Hstore |]. apply Hstore, simple_result_ok; done.
  - destruct Hl as [-> Hf]. by apply Rel_keep.
Qed.

(** *** queryWire *)

(** Only the wire cache changes. *)
Lemma wire_step g s w :
  msize w <= kMaxWireCacheEntries -> (forall k e, w !! k = Some e -> wire_ok k e) -> Inv s ->
  Inv (setWire s w) /\ Rel g s (setWire s w) g.
Proof.
  intros Hz Hw Hs. split; [|by apply Rel_keep]. destruct Hs as [H1 H2 H3 H4 H5]. by split.
Qed.

Lemma wireLookup_ok key t g s :
  Inv s ->
  Inv (wireLookup key t s).2 /\ Rel g s (wireLookup key t s).2 g /\
  forall m age, (wireLookup key t s).1 = Some (m, age) ->
    0 <= age /\ exists w, wire_ok key w /\ w_response w = m.
Proof.
  intros Hs. unfold wireLookup. destruct (wireCache_ s !! key) as [w|] eqn:Ew; [|split_and!; [done | by apply Rel_keep | done]].
  case_if; cbn [fst snd].
  - split_and!; [done | by apply Rel_keep |]. intros m age [= <- <-]. split.
    + pose proof (w64_range (t - storedAtMs w)). apply Z.div_pos; lia.
    + exists w. split; [|done]. exact (rok_wire _ _ _ s Hs _ _ Ew).
  - destruct (wire_step g s (delete key (wireCache_ s))) as [? ?]; [| |done | by split_and!].
    + etrans; [apply msize_delete_le | apply (rok_wsize _ _ _ s Hs)].
    + intros k e [_ He]%lookup_delete_Some. exact (rok_wire _ _ _ s Hs _ _ He).
Qed.

Lemma wireStore_ok q answer life t g s :
  parsed_query q -> all_bytes answer -> 12 <= zlen answer <= 65535 -> answers_query answer q -> Inv s ->
  Inv (wireStore (wireKey q) answer life t s).2 /\ Rel g s (wireStore (wireKey q) answer life t s).2 g.
Proof.
  intros Hq Hb Hz Ha Hs. unfold wireStore. cbv zeta. cbn [snd]. set (w := if negb _ && _ then _ else _).
  pose proof (rok_wsize _ _ _ s Hs) as Hsz. apply wire_step; [| |done].
  - unfold w. destruct (wireCache_ s !! wireKey q) as [e|] eqn:Ek.
    + rewrite bool_decide_eq_true_2 by eauto. cbn [negb andb]. by rewrite (msize_insert_Some _ _ _ e).
    + rewrite bool_decide_eq_false_2 by (by intros [? ?]). cbn [negb andb]. etrans; [apply msize_insert_le |].
      unfold kMaxWireCacheEntries in *. case_if; zbool; [|lia].
      pose proof (msize_erase_min_room w_expiresAtMs (wireCache_ s) 1024 ltac:(lia) Hsz). lia.
  - intros k e [[<- <-]|[_ He]]%lookup_insert_Some; [split; [done |]; split; [done |]; by exists q |].
    eapply (rok_wire _ _ _ s Hs). eapply lookup_weaken; [exact He |]. unfold w. case_if; [apply erase_min_subseteq | done].
Qed.

Lemma acceptAnswer_spec m q : all_bytes m ->
  exists r, acceptAnswer m q = Some r /\ forall info, r = Some info -> answers_query m q.
Proof.
  intros Hd. unfold acceptAnswer. destruct (inspectResponse_total m Hd) as [[info|] Hi]; rewrite Hi; [|by eexists].
  destruct (DnsMessage.response info) eqn:Er; cbn [negb]; [|by eexists].
  destruct (echoesQuestion_total m q Hd) as [[] He]; rewrite He; [|by eexists].
  eexists. split; [done |]. intros info' [= <-]. by exists info.
Qed.

(** The identifier of the query is put into an answer to it. *)
Lemma reply_with_id message q m :
  all_bytes message -> parseQuery message = Some (true, q) -> all_bytes m -> 12 <= zlen m <= 65535 ->
  answers_query m q ->
  exists m', setId m (q_id q) = Some m' /\ reply_to message m'.
Proof.
  intros Hb Hp Hd Hz Ha. destruct (parsed_id q message Hp Hb) as [Hid Hr].
  destruct (setId_sound m (q_id q) Hd ltac:(lia) Hr) as (m' & Hs & Hz' & Hb' & Hi & Hk). exists m'. split; [done |].
  exists q. split_and!; [done | | congruence | done | lia | lia].
  apply (answers_same m); try done; lia.
Qed.

Lemma wp_askWire message q deadline (Q : bytes -> option bytes -> Prop) X :
  all_bytes message -> parseQuery message = Some (true, q) ->
  (forall m, m = [] \/ reply_to message m -> Q m None) -> X None ->
  Wp (askWire inet_pton4 inet_pton6 workerHost_ sharedSecret_ connectPort_ message q deadline) None Q X.
Proof.
  intros Hb Hp HQ HX. unfold askWire. apply wp_bind, wp_prepareWorkerCall. intros ready.
  case_if; [by apply HQ; left |]. apply wp_bind, wp_workerRequest. intros t. apply wp_bind, wp_fetch; [| |done].
  { split; [by apply printable |]. left. split; [done |]. by right. }
  intros r Hr. apply wp_bind, wp_observeResponse. case_if; [by apply HQ; left |]. case_if; [by apply HQ; left |].
  apply orb_false_iff in E1 as [[_ Hlo]%orb_false_iff Hhi]. zbool. apply wp_bind.
  destruct (acceptAnswer_spec (body r) q Hr) as (o & Ho & Hacc). eapply wp_checked; [exact Ho |].
  destruct o as [info|]; [|by apply HQ; left].
  destruct (reply_with_id message q (body r) Hb Hp Hr ltac:(lia) (Hacc info eq_refl)) as (m & Hm & Hrep).
  apply wp_bind. eapply wp_checked; [exact Hm |]. apply wp_bind.
  assert (Hdone : Wp (Ret m) None Q X) by (apply HQ; by right). case_if; [done |].
  intros t' s _ Hs _. destruct Hrep as (q' & Hq' & Ha & _ & Hb' & Hz). rewrite Hp in Hq'. injection Hq' as <-.
  destruct (wireStore_ok q m (wireLifetimeSeconds info) t' None s) as [Hi Hrel]; try done; [by exists message |].
  split; [done |]. by exists None.
Qed.

Lemma wp_queryWire message deadline (Q : bytes -> option bytes -> Prop) X :
  all_bytes message -> (forall m, m = [] \/ reply_to message m -> Q m None) -> X None ->
  Wp (queryWire inet_pton4 inet_pton6 workerHost_ sharedSecret_ connectPort_ message deadline) None Q X.
Proof.
  intros Hb HQ HX. unfold queryWire. apply wp_bind.
  destruct (parseQuery_total message Hb) as [[good q] Hp]. eapply wp_checked; [exact Hp |].
  destruct good; cbn [negb]; [|by apply HQ; left]. case_if; [by apply HQ; left |].
  assert (Hpq : parsed_query q) by (by exists message). case_if.
  - apply wp_bind, wp_resolve. intros r (Ht & _). apply HQ. right. exists q. unfold bootstrapAnswer, kMaxTtlSeconds in *.
    edestruct (reply_answers inet_pton4 inet_pton6 pton4_len pton6_len message q) as (Ha & Hi & Hd & Hz);
      [done | done | |split_and!; [done | exact Ha | exact Hi | exact Hd | |]].
    + case_if; [done | lia].
    + lia.
    + unfold kClassicUdpPayload in Hz. lia.
  - apply wp_bind. intros t s _ Hs _. destruct (wireLookup_ok (wireKey q) t None s Hs) as (Hi & Hrel & Hhit).
    split; [done |]. exists None. split; [done |]. destruct (wireLookup _ _ _).1 as [[m age]|]; [|by apply wp_askWire].
    destruct (Hhit m age eq_refl) as (Hage & w & (Hd & Hz & q' & Hq' & Hkey & Ha) & <-).
    destruct (wireKey_inj q' q Hq' Hpq Hkey) as [Hn Hty].
    apply (answers_same_question _ q' q) in Ha; [|done..].
    destruct (reply_with_id message q (w_response w) Hb Hp Hd Hz Ha) as (m' & Hm' & q2 & Hq2 & Ha2 & Hi2 & Hd2 & Hz2).
    rewrite Hp in Hq2. injection Hq2 as <-. apply wp_bind. eapply wp_checked; [exact Hm' |].
    destruct (age_answers m' (Z.min age kWireMaxTtlSeconds) q) as (m2 & Hm2 & Hz3 & Hd3 & Ha3 & Hi3); try done.
    { unfold kWireMaxTtlSeconds. lia. }
    eapply wp_checked; [exact Hm2 |]. apply HQ. right. exists q. split_and!; try done; [congruence | lia | lia].
Qed.

Lemma wp_clearCache g (Q : unit -> option bytes -> Prop) X : Q tt g -> Wp (clearCache workerHost_) g Q X.
Proof.
  intros HQ t s _ Hs _. cbn [fst snd]. set (c := erase_if _ _).
  assert (Hc : c ⊆ cache_ s) by apply erase_if_subseteq.
  assert (Hboot : c !! bootKey = cache_ s !! bootKey).
  { apply option_eq. intros e. unfold c. rewrite lookup_erase_if. rewrite bool_decide_eq_true_2 by done. cbn. tauto. }
  split.
  - destruct Hs as [H1 H2 H3 H4 H5]. split; cbn [cache_ wireCache_ setWire setCache].
    + etrans; [|exact H1]. apply msize_subseteq. by apply delete_mono.
    + intros k e He. apply H2. by eapply lookup_weaken.
    + intros e. by rewrite Hboot; apply H3.
    + by rewrite msize_empty.
    + intros k w. by rewrite lookup_empty.
  - exists g. split; [|done]. apply Rel_keep; [done |]. cbn. by rewrite Hboot.
Qed.

(** ** Any number of threads *)

(** What a thread does with the resolver, and what it gets. *)
Inductive Op := OpResolve (host : bytes) (deadline : Z) | OpQueryWire (message : bytes) (deadline : Z) | OpClear.
Inductive Answer := Addresses (r : Result) | Wire (reply : bytes) | Cleared.

Definition runOp (o : Op) : P Answer :=
  match o with
  | OpResolve h d => r ← resolve inet_pton4 inet_pton6 workerHost_ sharedSecret_ connectPort_ h d; Ret (Addresses r)
  | OpQueryWire m d => r ← queryWire inet_pton4 inet_pton6 workerHost_ sharedSecret_ connectPort_ m d; Ret (Wire r)
  | OpClear => _ ← clearCache workerHost_; Ret Cleared
  end.

Definition op_ok (o : Op) : Prop := match o with OpQueryWire m _ => all_bytes m | _ => True end.
Definition answer_ok (o : Op) (a : Answer) : Prop :=
  match o, a with
  | OpResolve h _, Addresses r => resolve_ok h r
  | OpQueryWire m _, Wire b => b = [] \/ reply_to m b
  | OpClear, Cleared => True
  | _, _ => False
  end.

Lemma wp_runOp o (Q : Answer -> option bytes -> Prop) X :
  op_ok o -> (forall a, answer_ok o a -> Q a None) -> X None -> Wp (runOp o) None Q X.
Proof.
  intros Ho HQ HX. destruct o; apply wp_bind.
  - apply wp_resolve. intros r Hr. by apply HQ.
  - apply wp_queryWire; [done | | done]. intros m Hm. by apply HQ.
  - apply wp_clearCache. by apply HQ.
Qed.

Definition launch (s : Resolver) (ops : list Op) : Pool Resolver HttpRequest HttpResponse (Op * Answer) :=
  mkPool s ((λ o, mkThread (a ← runOp o; Ret (o, a)) false) <$> ops).

(** The interleavings of [ops] over the resolver [s]. *)
Definition reachable (s : Resolver) (ops : list Op) (c : Pool Resolver HttpRequest HttpResponse (Op * Answer)) : Prop :=
  rtc (pool_step good_time good_response) (launch s ops) c.

Abbreviation done_with := (λ (oa : Op * Answer) (g : option bytes), answer_ok oa.1 oa.2 /\ g = None).
Abbreviation gave_up := (λ g : option bytes, g = None).
(** Each name is held once, and the Worker's addresses stay if [s0] had them. *)
Definition accounted (s0 s : Resolver) (gs : list (option bytes)) : Prop :=
  single_flight s gs /\ (is_Some (cache_ s0 !! bootKey) -> is_Some (cache_ s !! bootKey)).
Abbreviation Pool_ok s0 :=
  (pool_ok _ _ _ good_time good_response Inv Rel owns_nothing (request_ok workerHost_ sharedSecret_) may_wait
     (accounted s0) done_with gave_up).

Lemma single_flight_step s gs i g s' g' :
  Inv s -> single_flight s gs -> gs !! i = Some g -> Rel g s s' g' -> single_flight s' (<[i := g']> gs).
Proof.
  intros _ [Hone Hin] Hi [Hstep _]. pose proof (lookup_lt_Some _ _ _ Hi) as Hlt.
  destruct Hstep as [[-> Hf]|[(k & -> & -> & Hk & Hf)|(k & -> & -> & Hf)]].
  - rewrite list_insert_id by done. split; [done |]. intros k. by rewrite Hf.
  - split.
    + intros j1 j2 k' H1 H2. apply list_lookup_insert_Some in H1 as [(<- & [= <-] & _)|[Hn1 H1]],
        H2 as [(<- & Heq & _)|[Hn2 H2]]; [done | | | by eapply Hone].
      * destruct Hk. apply Hin. eauto.
      * injection Heq as <-. destruct Hk. apply Hin. eauto.
    + intros k'. rewrite Hf, elem_of_union, elem_of_singleton, Hin. split.
      * intros [->|[j Hj]]; [exists i; by rewrite list_lookup_insert_eq |]. exists j.
        rewrite list_lookup_insert_ne; [done |]. intros ->. congruence.
      * intros [j [(_ & [= <-] & _)|[_ Hj]]%list_lookup_insert_Some]; eauto.
  - split.
    + intros j1 j2 k' H1 H2. apply list_lookup_insert_Some in H1 as [(_ & Hbad & _)|[Hn1 H1]]; [done |].
      apply list_lookup_insert_Some in H2 as [(_ & Hbad & _)|[Hn2 H2]]; [done |]. by eapply Hone.
    + intros k'. rewrite Hf, elem_of_difference, elem_of_singleton, Hin. split.
      * intros [[j Hj] Hne]. exists j. rewrite list_lookup_insert_ne; [done |]. intros ->. congruence.
      * intros [j [(_ & Hbad & _)|[Hij Hj]]%list_lookup_insert_Some]; [done |]. split; [eauto |].
        intros ->. apply Hij. by eapply Hone.
Qed.

Lemma accounted_step s0 s gs i g s' g' :
  Inv s -> accounted s0 s gs -> gs !! i = Some g -> Rel g s s' g' -> accounted s0 s' (<[i := g']> gs).
Proof.
  intros Hs [H1 H2] Hi Hr. split; [by eapply single_flight_step |]. intros Hb. by apply Hr, H2.
Qed.

Lemma launch_ok s ops : Inv s -> inFlight_ s = ∅ -> Forall op_ok ops -> Pool_ok s (launch s ops).
Proof.
  intros Hs Hf Hops. split; [done |]. exists (replicate (length ops) None). split.
  - split; [|done]. split; [by intros i j k [? _]%lookup_replicate_1 |]. intros k. cbn [shared launch]. rewrite Hf.
    split; [by intros ?%not_elem_of_empty | by intros [i [? _]%lookup_replicate_1]].
  - cbn [threads launch]. clear Hs Hf. induction Hops as [|o ops Ho _ IH]; [constructor |].
    cbn [fmap list_fmap length replicate]. constructor; [|exact IH]. split; [|done]. cbn [prog].
    apply wp_bind. by apply wp_runOp.
Qed.

Lemma reachable_ok s ops c : Inv s -> inFlight_ s = ∅ -> Forall op_ok ops -> reachable s ops c -> Pool_ok s c.
Proof.
  intros Hs Hf Hops Hr. eapply pool_invariant; [exact (accounted_step s) | done | by apply launch_ok | exact Hr].
Qed.

Lemma addSystem_rest l out :
  let r := foldl addSystemAddress out l in
  ttlSeconds r = ttlSeconds out /\ (rcode out = 0 -> rcode r = 0).
Proof.
  revert out. induction l as [|a l IH]; intros out; [done |]. cbn [foldl].
  destruct (IH (addSystemAddress out a)) as [-> Hr]. by destruct a as [[t|]|[t|]|]; cbn in *; auto.
Qed.

Lemma newResolver_ok resolved t :
  Inv (newResolver inet_pton4 inet_pton6 workerHost_ resolved t) /\
  inFlight_ (newResolver inet_pton4 inet_pton6 workerHost_ resolved t) = ∅.
Proof.
  assert (H0 : Inv (mkResolver ∅ ∅ ∅ newWorkerHealth 0 false)).
  { split; cbn [cache_ wireCache_]; try (intros k e; by rewrite lookup_empty).
    - by rewrite delete_empty, msize_empty.
    - intros e. by rewrite lookup_empty.
    - by rewrite msize_empty. }
  unfold newResolver. case_if; [done |]. destruct (lookupViaSystemResolver resolved) as [b|] eqn:Eb; [|done].
  split; [|done]. unfold lookupViaSystemResolver in Eb. destruct resolved as [l|]; [|done]. cbn [mbind option_bind] in Eb.
  pose proof (addSystem_rest l (mkResult [] [] (kBootstrapTtlMs / 1000) false 0 false)) as [Ht Hc]. cbv zeta in *.
  case_if_in Eb; [done |]. injection Eb as <-. destruct H0 as [H1 H2 H3 H4 H5].
  split; cbn [cache_ wireCache_ setNext setCache]; try done.
  - by rewrite delete_insert_eq, delete_empty, msize_empty.
  - intros k e Hk Hne. rewrite lookup_insert_ne in Hk by done. by rewrite lookup_empty in Hk.
  - intros e. rewrite lookup_insert_eq. intros [= <-]. split_and!; [done | done | exact Ht | by apply Hc].
Qed.

(** ** Properties *)

Abbreviation fresh := (newResolver inet_pton4 inet_pton6 workerHost_).

Lemma fresh_ok resolved t ops c :
  Forall op_ok ops -> reachable (fresh resolved t) ops c -> Pool_ok (fresh resolved t) c.
Proof. intros Hops. destruct (newResolver_ok resolved t). by apply reachable_ok. Qed.

(** The ghost of a thread that is about to send. *)
Lemma sends_ok s0 c i th rq k :
  Pool_ok s0 c -> threads c !! i = Some th -> prog th = Fetch rq k ->
  exists gs g, single_flight (shared c) gs /\ gs !! i = Some g /\ request_ok workerHost_ sharedSecret_ g rq.
Proof.
  intros (_ & gs & [Hg _] & Hall) Hi Hp. destruct (Forall2_lookup_l _ _ _ _ _ Hall Hi) as (g & Hgi & [Hw _]).
  rewrite Hp in Hw. destruct Hw as [Hw _]. by exists gs, g.
Qed.

(** C14: Every answer is sound, in every interleaving of any number of threads that share a
    new resolver, whatever the clock reads and the network returns. No thread reads outside a
    buffer. What [resolve] returns has a TTL of at most an hour and, for an ordinary name, only
    addresses that parse; what [queryWire] returns, from the Worker, from the cache of relayed
    responses (with its TTLs aged) or from the bootstrap entry, is empty or a well-formed
    response of at most 65535 bytes to that very question, with the identifier of its query. *)
Theorem resolver_answers (resolved : option (list SystemAddress)) (t : Z) (ops : list Op)
    (c : Pool Resolver HttpRequest HttpResponse (Op * Answer)) (i : nat) (th : Thread Resolver HttpRequest HttpResponse (Op * Answer)) :
  Forall op_ok ops -> reachable (fresh resolved t) ops c -> threads c !! i = Some th ->
  match prog th with
  | Ret (o, a) => answer_ok o a
  | Fault => False
  | _ => True
  end.
Proof.
  intros Hops Hr Hi. destruct (fresh_ok _ _ _ _ Hops Hr) as (_ & gs & _ & Hall).
  destruct (Forall2_lookup_l _ _ _ _ _ Hall Hi) as (g & _ & [Hw _]). destruct (prog th) as [[o a]| | | | | |]; try done.
  apply Hw.
Qed.

(** C15: The caches stay bounded and single flight holds, in every interleaving: at most
    2048 names and the Worker's own, at most 1024 relayed responses, each stored under the key
    of a question it answers; the addresses of the Worker are never evicted or cleared; no two
    threads ask the Worker about the same name at once; and a name is never left marked as
    in flight when the threads are done, also when a request threw. *)
Theorem resolver_single_flight (resolved : option (list SystemAddress)) (t : Z) (ops : list Op)
    (c : Pool Resolver HttpRequest HttpResponse (Op * Answer)) :
  Forall op_ok ops -> reachable (fresh resolved t) ops c ->
  Inv (shared c) /\ cacheSize (shared c) <= kMaxCacheEntries + 1 /\ wireCacheSize (shared c) <= kMaxWireCacheEntries /\
  (is_Some (cache_ (fresh resolved t) !! bootKey) -> is_Some (cache_ (shared c) !! bootKey)) /\
  (forall i j ti tj rq rq' k k', i <> j -> threads c !! i = Some ti -> threads c !! j = Some tj ->
     prog ti = Fetch rq k -> prog tj = Fetch rq' k' -> rq_host rq = workerHost_ -> rq_host rq' = workerHost_ ->
     workerHost_ <> kBootstrapDohHost -> method rq = str "GET" -> method rq' = str "GET" -> path rq <> path rq') /\
  (Forall finished (threads c) -> inFlight_ (shared c) = ∅).
Proof.
  intros Hops Hr. pose proof (fresh_ok _ _ _ _ Hops Hr) as Hok. pose proof Hok as (Hs & gs & [[Hone Hin] Hb] & Hall).
  split_and!; [done | | apply (rok_wsize _ _ _ _ Hs) | done | |].
  - pose proof (rok_size _ _ _ _ Hs). unfold cacheSize, msize in *.
    rewrite map_size_delete in H. destruct (cache_ (shared c) !! bootKey); simpl in *; lia.
  - intros i j ti tj rq rq' k k' Hij Hi Hj Hpi Hpj Hh Hh' Hne Hm Hm' Hpath.
    destruct (Forall2_lookup_l _ _ _ _ _ Hall Hi) as (g & Hgi & [Hw _]).
    destruct (Forall2_lookup_l _ _ _ _ _ Hall Hj) as (g' & Hgj & [Hw' _]).
    rewrite Hpi in Hw. rewrite Hpj in Hw'. destruct Hw as [Hw _], Hw' as [Hw' _].
    destruct Hw as [_ [(_ & [(_ & _ & h & -> & _ & Hp)|(Hbad & _)])|(Hbad & _)]]; [|by rewrite Hm in Hbad | congruence].
    destruct Hw' as [_ [(_ & [(_ & _ & h' & -> & _ & Hp')|(Hbad & _)])|(Hbad & _)]]; [|by rewrite Hm' in Hbad | congruence].
    rewrite Hp, Hp' in Hpath. apply app_inv_head in Hpath as ->. by apply Hij, (Hone i j h').
  - intros Hf. apply set_eq. intros k. split; [|by intros ?%not_elem_of_empty]. intros [i Hgi]%Hin.
    destruct (Forall2_lookup_r _ _ _ _ _ Hall Hgi) as (th & Hi & [Hw _]).
    rewrite Forall_lookup in Hf. specialize (Hf i th Hi). unfold finished in Hf.
    destruct (prog th) as [[o a]| | | | | |]; try done. by destruct Hw.
Qed.

(** The resolver cannot deadlock: in every reachable state either every thread is done
    or some thread can make its next step. *)
Theorem resolver_no_deadlock (resolved : option (list SystemAddress)) (t : Z) (ops : list Op)
    (c : Pool Resolver HttpRequest HttpResponse (Op * Answer)) :
  Forall op_ok ops -> reachable (fresh resolved t) ops c ->
  Forall finished (threads c) \/ exists c', pool_step good_time good_response c c'.
Proof.
  intros Hops Hr. pose proof (fresh_ok _ _ _ _ Hops Hr) as Hok.
  eapply (pool_progress _ _ _ _ _ _ _ _ _ _ _ _ _ (λ g : option bytes, match g with Some _ => 0%nat | None => 1%nat end)) with (t := 0);
    [|done | exact Hok].
  intros s gs g ready _ [[_ Hin] _] _ [-> [key ->]] Hw. zbool. apply Hin in Hw as [i Hi].
  exists (Some key). split; [by eapply list_elem_of_lookup_2 |]. split_and!; [lia | done | by intros a [_ ?]].
Qed.

(** C16: The shared secret stays with the Worker: in every interleaving, a request about to
    leave goes to the Worker or to the public bootstrap resolver; only one that goes to the
    Worker carries an [Authorization] header; and its path holds printable characters only, so
    that a host name cannot smuggle in a second header or request. *)
Theorem secret_stays_home (resolved : option (list SystemAddress)) (t : Z) (ops : list Op)
    (c : Pool Resolver HttpRequest HttpResponse (Op * Answer)) (i : nat) (th : Thread Resolver HttpRequest HttpResponse (Op * Answer)) :
  Forall op_ok ops -> reachable (fresh resolved t) ops c -> threads c !! i = Some th ->
  match prog th with
  | Fetch rq _ =>
      (rq_host rq = workerHost_ \/ rq_host rq = kBootstrapDohHost) /\
      (forall v, (str "Authorization", v) ∈ headers rq -> rq_host rq = workerHost_ /\ v = str "Bearer " ++ sharedSecret_) /\
      Forall (λ c, 33 <= c <= 126) (path rq)
  | _ => True
  end.
Proof.
  intros Hops Hr Hi. destruct (prog th) as [a| | |k|rq k|B sec k|B ready sec k] eqn:Hp; try done.
  destruct (sends_ok _ _ _ _ _ _ (fresh_ok _ _ _ _ Hops Hr) Hi Hp) as (gs & g & _ & _ & Hpath & Hreq).
  assert (Hauth : forall v, (str "Authorization", v) ∈ authorization sharedSecret_ -> v = str "Bearer " ++ sharedSecret_).
  { intros v. unfold authorization. case_if; [by intros ?%elem_of_nil |]. by intros [= ->]%list_elem_of_singleton. }
  split_and!; [|intros v Hv|done].
  - destruct Hreq as [[-> _]|[-> _]]; auto.
  - destruct Hreq as [[-> [(_ & Hh & _)|(_ & _ & Hh)]]|(_ & Hh & _)]; rewrite Hh in Hv.
    + by split; [|apply Hauth].
    + apply elem_of_app in Hv as [Hv|Hv]; [by split; [|apply Hauth] |]. rewrite !elem_of_cons, elem_of_nil in Hv. by destruct Hv as [?|[?|?]].
    + by apply list_elem_of_singleton in Hv.
Qed.
End Operations.

(** ** The order of the candidates *)

(** Two lists dealt out in turn, the longer one's rest at the end. *)
Fixpoint interleave {A} (l k : list A) : list A :=
  match l, k with
  | a :: l, b :: k => a :: b :: interleave l k
  | [], k => k
  | l, [] => l
  end.

Lemma candidates_loop_spec limit (six four : list bytes) :
  candidates_loop limit true six four = take limit (interleave six four) /\
  candidates_loop limit false six four = take limit (match four with b :: f => b :: interleave six f | [] => six end).
Proof.
  revert six four. induction limit as [|n IH]; intros six four; [done |]. cbn [candidates_loop].
  destruct six as [|a six], four as [|b four]; cbn [negb].
  - done.
  - rewrite (proj1 (IH [] four)), (proj2 (IH [] four)). split; [destruct four; done | done].
  - split; [rewrite (proj2 (IH six [])) | rewrite (proj1 (IH six []))]; [done |]. by destruct six.
  - split; [by rewrite (proj2 (IH six (b :: four))) | by rewrite (proj1 (IH (a :: six) four))].
Qed.

(** The addresses to try are the IPv6 and IPv4 addresses dealt out in turn, IPv6 first,
    cut at the limit: no address is lost, invented, repeated or reordered, and one family that
    runs out does not stop the other. *)
Theorem candidates_dealt (r : Result) (limit : nat) :
  candidates r limit = take limit (interleave (v6 r) (v4 r)) /\
  interleave (v6 r) (v4 r) ≡ₚ v6 r ++ v4 r.
Proof.
  split; [apply candidates_loop_spec |]. generalize (v6 r) (v4 r). intros l.
  induction l as [|a l IH]; intros [|b k]; cbn [interleave app]; [done | done | by rewrite app_nil_r |].
  rewrite (IH k). f_equiv. by rewrite Permutation_middle.
Qed.

(** ** Concrete interleavings *)

(** Two lookups of one name and two relayed messages; the Worker answers both paths. *)
Definition sample_ops : list Op :=
  [OpResolve (str "a.bc") 0; OpResolve (str "A.bc.") 0; OpQueryWire sample_query 0; OpQueryWire sample_query 0].
Definition sample_boot : option (list SystemAddress) := Some [Inet (Some (str "1.2.3.4"))].
Definition sample_clock (n : nat) : Z := Z.min (1000 * Z.of_nat n) (2 ^ 40).
Definition sample_json : bytes :=
  str "{" ++ [34] ++ str "a" ++ [34] ++ str ":[" ++ [34] ++ str "1.2.3.4" ++ [34] ++ str "]}".
Definition sample_net (n : nat) (rq : HttpRequest) : option HttpResponse :=
  if bool_decide (path rq = str "/dns-query") then Some (mkHttpResponse 200 sample_reply 0)
  else if bool_decide (path rq = str "/resolve?host=a.bc") then Some (mkHttpResponse 200 sample_json 0) else None.

Abbreviation sample_launch :=
  (launch sample_pton4 sample_pton6 (str "w.example") (str "s3cret") 443
     (newResolver sample_pton4 sample_pton6 (str "w.example") sample_boot 0) sample_ops).
Abbreviation sample_pool schedule := (exec sample_clock sample_net schedule 0 sample_launch).

(** Thread 0 is about to ask about [a.bc], thread 1 sleeps on it. *)
Definition sample_asking : list nat := replicate 5 0%nat ++ [1%nat].
(** Thread 0 asks, 1 wakes and is served from the cache; 2 asks, 3 is served from the cache. *)
Definition sample_full : list nat :=
  sample_asking ++ replicate 10 0%nat ++ replicate 20 1%nat ++ replicate 20 2%nat ++ replicate 20 3%nat.

Definition is_asking {A} (th : option (Thread Resolver HttpRequest HttpResponse A)) (p : bytes) : bool :=
  match th with
  | Some th => match prog th with Fetch rq _ => bool_decide (path rq = p) | _ => false end
  | None => false
  end.
Example sample_asking_runs :
  (is_asking (threads (sample_pool sample_asking) !! 0%nat) (str "/resolve?host=a.bc"),
   asleep <$> threads (sample_pool sample_asking) !! 1%nat) = (true, Some true).
Proof. vm_compute. reflexivity. Qed.
(** Both lookups get the address, the second with its TTL aged; the second message is served
    from the cache, aged by twelve seconds. *)
Example sample_full_runs :
  (λ th, match prog th with
         | Ret (_, Addresses r) => (v4 r, ttlSeconds r)
         | Ret (_, Wire m) => ([], default 0 (i ← mjoin (inspectResponse m); answerTtl i))
         | _ => ([], -1)
         end) <$> threads (sample_pool sample_full) =
  [([str "1.2.3.4"], 60); ([str "1.2.3.4"], 52); ([], 300); ([], 288)].
Proof. vm_compute. reflexivity. Qed.

Lemma sample_pton4_len t b : sample_pton4 t = Some b -> all_bytes b /\ zlen b = 4.
Proof. unfold sample_pton4. case_if; [|done]. intros [= <-]. split; [by apply all_bytes_check | done]. Qed.
Lemma sample_pton6_len t b : sample_pton6 t = Some b -> all_bytes b /\ zlen b = 16.
Proof. unfold sample_pton6. case_if; [|done]. intros [= <-]. split; [by apply all_bytes_check | done]. Qed.
Lemma sample_ops_ok : Forall op_ok sample_ops.
Proof. repeat (apply Forall_cons; split; [first [exact I | by apply all_bytes_check] |]). constructor. Qed.
Lemma sample_net_ok i rq r : sample_net i rq = Some r -> good_response r.
Proof. unfold sample_net. repeat case_if; [| |done]; intros [= <-]; apply all_bytes_check; vm_compute; done. Qed.
Lemma sample_reached schedule :
  rtc (pool_step good_time good_response) sample_launch (sample_pool schedule).
Proof.
  apply exec_reaches.
  - intros i. unfold sample_clock, good_time. lia.
  - exact sample_net_ok.
Qed.

Lemma lookup_default {A} (d : A) l i : (i <? length l)%nat = true -> l !! i = Some (default d (l !! i)).
Proof. intros H%Nat.ltb_lt. by destruct (lookup_lt_is_Some_2 l i H) as [x ->]. Qed.

Lemma resolver_answers_witness :
  match prog (default (mkThread Throw false) (threads (sample_pool sample_full) !! 3%nat)) with
  | Ret (o, a) => answer_ok sample_pton4 sample_pton6 (str "w.example") o a
  | Fault => False
  | _ => True
  end.
Proof.
  apply (resolver_answers sample_pton4 sample_pton6 (str "w.example") (str "s3cret") 443
    sample_pton4_len sample_pton6_len sample_boot 0 sample_ops (sample_pool sample_full) 3).
  - exact sample_ops_ok.
  - exact (sample_reached sample_full).
  - apply lookup_default. vm_compute. reflexivity.
Defined.

Lemma resolver_single_flight_witness :
  cacheSize (shared (sample_pool sample_full)) <= kMaxCacheEntries + 1 /\
  wireCacheSize (shared (sample_pool sample_full)) <= kMaxWireCacheEntries /\
  is_Some (cache_ (shared (sample_pool sample_full)) !! bootstrapKey (str "w.example")).
Proof.
  destruct (resolver_single_flight sample_pton4 sample_pton6 (str "w.example") (str "s3cret") 443
    sample_pton4_len sample_pton6_len sample_boot 0 sample_ops (sample_pool sample_full)) as (_ & H1 & H2 & H3 & _).
  - exact sample_ops_ok.
  - exact (sample_reached sample_full).
  - split; [exact H1 |]. split; [exact H2 |]. apply H3. vm_compute. eauto.
Defined.

Lemma resolver_no_deadlock_witness :
  Forall finished (threads (sample_pool sample_asking)) \/
  exists c', pool_step good_time good_response (sample_pool sample_asking) c'.
Proof.
  apply (resolver_no_deadlock sample_pton4 sample_pton6 (str "w.example") (str "s3cret") 443
    sample_pton4_len sample_pton6_len sample_boot 0 sample_ops).
  - exact sample_ops_ok.
  - exact (sample_reached sample_asking).
Defined.

Lemma secret_stays_home_witness :
  match prog (default (mkThread Throw false) (threads (sample_pool sample_asking) !! 0%nat)) with
  | Fetch rq _ =>
      (rq_host rq = str "w.example" \/ rq_host rq = kBootstrapDohHost) /\
      (forall v, (str "Authorization", v) ∈ headers rq -> rq_host rq = str "w.example" /\ v = str "Bearer " ++ str "s3cret") /\
      Forall (λ c, 33 <= c <= 126) (path rq)
  | _ => True
  end.
Proof.
  apply (secret_stays_home sample_pton4 sample_pton6 (str "w.example") (str "s3cret") 443
    sample_pton4_len sample_pton6_len sample_boot 0 sample_ops (sample_pool sample_asking) 0).
  - exact sample_ops_ok.
  - exact (sample_reached sample_asking).
  - apply lookup_default. vm_compute. reflexivity.
Defined.
