(* ===== verification/DnsProxy.v ===== *)
(** * DnsProxy: the transparent DNS relay

    Models [src/src/TransparentDnsProxy.hpp] and [TransparentDnsProxy.cpp]. The object is the
    record [DnsProxy]; it contains the resolver and the datagram registry it uses. Its
    operations are programs of [Concurrency] whose calls are HTTPS requests, [recvfrom] and
    [sendto]; the resolver's own programs run inside it through [zoom]. A thread's loop is
    unrolled for a number of rounds, after which it only waits for [stop]: every finite
    execution is one of some number of rounds. [socket_] says whether the handle is valid,
    [alive_] counts the threads a join would wait for. Log messages and the socket options
    are omitted. *)

From S2P Require Import Prelude Containers Concurrency DnsMessage DnsAnswer RecoveryPolicy TransparentFlow TcpConnect Resolver.

Definition kWorkerCount : nat := 8.
Definition kMaxQueuedQueries : Z := 1024.
Definition kMaxQueueAgeMs : Z := 3000.
Definition kJobDeadlineMs : Z := 8000.

Record Job := mkJob { data : bytes; peer : Sockaddr; enqueuedMs : Z }.

Record DnsProxy := mkDnsProxy {
  resolver_ : Resolver;
  datagrams_ : DatagramRegistry;
  socket_ : bool;
  running_ : bool;
  jobs_ : list Job;
  lifecycleMutex_ : bool;
  alive_ : Z;
}.

Definition setResolver (r : Resolver) (s : DnsProxy) : DnsProxy :=
  mkDnsProxy r (datagrams_ s) (socket_ s) (running_ s) (jobs_ s) (lifecycleMutex_ s) (alive_ s).
Definition setDatagrams (d : DatagramRegistry) (s : DnsProxy) : DnsProxy :=
  mkDnsProxy (resolver_ s) d (socket_ s) (running_ s) (jobs_ s) (lifecycleMutex_ s) (alive_ s).
Definition setSocket (b : bool) (s : DnsProxy) : DnsProxy :=
  mkDnsProxy (resolver_ s) (datagrams_ s) b (running_ s) (jobs_ s) (lifecycleMutex_ s) (alive_ s).
Definition setRunning (b : bool) (s : DnsProxy) : DnsProxy :=
  mkDnsProxy (resolver_ s) (datagrams_ s) (socket_ s) b (jobs_ s) (lifecycleMutex_ s) (alive_ s).
Definition setJobs (l : list Job) (s : DnsProxy) : DnsProxy :=
  mkDnsProxy (resolver_ s) (datagrams_ s) (socket_ s) (running_ s) l (lifecycleMutex_ s) (alive_ s).
Definition setLifecycle (b : bool) (s : DnsProxy) : DnsProxy :=
  mkDnsProxy (resolver_ s) (datagrams_ s) (socket_ s) (running_ s) (jobs_ s) b (alive_ s).
Definition setAlive (n : Z) (s : DnsProxy) : DnsProxy :=
  mkDnsProxy (resolver_ s) (datagrams_ s) (socket_ s) (running_ s) (jobs_ s) (lifecycleMutex_ s) n.

(** What leaves the process and what comes back. *)
Inductive Call := ToWorker (rq : HttpRequest) | ReceiveFrom | SendTo (to : Sockaddr) (reply : bytes).
Inductive Event := FromWorker (r : HttpResponse) | Datagram (d : bytes) (from : Sockaddr) | ReceiveError (error : Z) | SendDone.

Definition fromWorker (e : Event) : option HttpResponse := match e with FromWorker r => Some r | _ => None end.

Abbreviation M := (Prog DnsProxy Call Event).

Section DnsProxy.
Context `{!MapOrder bytes}.
(** [inet_pton] and [inet_ntop] for each family. *)
Variable inet_pton4 inet_pton6 : bytes -> option bytes.
Variable inet_ntop4 inet_ntop6 : bytes -> option bytes.
(** The members of the resolver that never change, and the port. *)
Variable workerHost_ sharedSecret_ : bytes.
Variable connectPort_ : Z.
Variable port_ : Z.

(** The address and the port, when the function returns true. *)
Definition endpoint (p : Sockaddr) : option (bytes * Z) :=
  match p with
  | SockIn a port => t ← inet_ntop4 a; if port =? 0 then None else Some (t, port)
  | SockIn6 a port =>
      t ← (if v4Mapped a then inet_ntop4 (drop 12 a) else inet_ntop6 a);
      if port =? 0 then None else Some (t, port)
  | SockOther => None
  end.

(** ** The reply to one datagram *)

Let resolve' (name : bytes) (deadlineMs : Z) : P Result :=
  resolve inet_pton4 inet_pton6 workerHost_ sharedSecret_ connectPort_ name deadlineMs.
Let queryWire' (message : bytes) (deadlineMs : Z) : P bytes :=
  queryWire inet_pton4 inet_pton6 workerHost_ sharedSecret_ connectPort_ message deadlineMs.
Let buildResponse' (q : Query) (addresses : list bytes) (ttl : Z) (failed : bool) (rcode : Z) : bytes :=
  buildResponse inet_pton4 inet_pton6 q addresses ttl failed rcode.

Definition answerAddress (message : bytes) (q : Query) (deadlineMs : Z) : P bytes :=
  resolved ← resolve' (q_name q) deadlineMs;
  let addresses := if q_type q =? kTypeA then v4 resolved else v6 resolved in
  let ttl := if ttlSeconds resolved =? 0 then 60 else ttlSeconds resolved in
  if negb (empty resolved) then
    Ret (if negb (bool_decide (addresses = [])) || negb (transient resolved)
         then buildResponse' q addresses ttl false 0 else [])
  else if allowWireFallback resolved then queryWire' message deadlineMs
  else Ret (if negb (transient resolved) then buildResponse' q [] ttl false (rcode resolved) else []).

Definition buildReply (message : bytes) (deadlineMs : Z) : P bytes :=
  parsed ← checked (parseQuery message);
  let '(good, q) := parsed in
  if negb good then Ret (if negb (q_error q =? 0) then buildError q (q_error q) else []) else
  response ← (if (q_type q =? kTypeA) || (q_type q =? kTypeAaaa) then answerAddress message q deadlineMs
              else queryWire' message deadlineMs);
  let response := if bool_decide (response = []) then buildResponse' q [] 60 true 0 else response in
  cut ← checked (truncateForUdp response (Z.max kClassicUdpPayload (ednsPayload q)));
  Ret (snd cut).

(** ** The threads *)

Definition onResolver {A} (p : P A) : M A := zoom resolver_ setResolver ToWorker fromWorker p.

(** One external call whose return value is used. *)
Definition call (c : Call) : M Event := fetch c.

(** An atomic load. *)
Definition load {A} (f : DnsProxy -> A) : M A := atomic (λ _ s, (f s, s)).
Definition update (f : DnsProxy -> DnsProxy) : M unit := atomic (λ _ s, (tt, f s)).

Definition fail : M unit := update (setRunning false).

Definition process (job : Job) : M unit :=
  response ← onResolver (buildReply (data job) (w64 (enqueuedMs job + kJobDeadlineMs)));
  if bool_decide (response = []) then Ret tt else
  open ← load socket_;
  if negb open then Ret tt else
  run ← load running_;
  if negb run then Ret tt else
  _ ← call (SendTo (peer job) response);
  Ret tt.

(** What the receive loop does with a datagram that arrived. *)
Definition receive (d : bytes) (from : Sockaddr) : M unit :=
  match endpoint from with
  | None => Ret tt
  | Some (address, port) =>
      claimed ← atomic (λ t s, let '(b, r) := dgram_claim (datagrams_ s) address port 0 t in (b, setDatagrams r s));
      if negb claimed then Ret tt else
      t ← nowMs;
      let job := mkJob d from t in
      parsed ← checked (parseQuery d);
      let '(good, q) := parsed in
      if good && isBootstrapHost workerHost_ (q_name q) then process job
      else update (λ s, if kMaxQueuedQueries <=? zlen (jobs_ s) then s else setJobs (jobs_ s ++ [job]) s)
  end.

(** No more datagrams, or no more jobs for this thread: it is left to [stop]. *)
Definition waitForStop : M unit :=
  Await (λ s, negb (running_ s)) (λ _ s, (if negb (running_ s) then Some tt else None, s)) Ret.

Fixpoint receiveLoop (rounds : nat) : M unit :=
  match rounds with
  | O => waitForStop
  | S rounds =>
      run ← load running_;
      if negb run then Ret tt else
      open ← load socket_;
      if negb open then Ret tt else
      received ← call ReceiveFrom;
      match received with
      | Datagram d from => _ ← receive d from; receiveLoop rounds
      | ReceiveError error =>
          run ← load running_;
          if negb run then Ret tt
          else if shouldContinueDnsReceive error then receiveLoop rounds
          else fail
      | _ => Throw
      end
  end.

(** The section of [workerLoop] under the lock: [Some None] is the return. *)
Definition takeJob (s : DnsProxy) : option (option Job) * DnsProxy :=
  if negb (running_ s) then (Some None, s) else
  match jobs_ s with
  | [] => (None, s)
  | job :: rest => (Some (Some job), setJobs rest s)
  end.

Fixpoint workerLoop (rounds : nat) : M unit :=
  match rounds with
  | O => waitForStop
  | S rounds =>
      taken ← Await (λ s, negb (running_ s) || negb (bool_decide (jobs_ s = []))) (λ _ s, takeJob s) Ret;
      match taken with
      | None => Ret tt
      | Some job =>
          t ← nowMs;
          if kMaxQueueAgeMs <? w64 (t - enqueuedMs job) then workerLoop rounds
          else _ ← process job; workerLoop rounds
      end
  end.

(** The thread functions, up to the end of the thread. *)
Definition threadMain (loop : M unit) : M unit :=
  _ ← try_catch fail loop;
  update (λ s, setAlive (alive_ s - 1) s).

(** ** Lifecycle *)

Definition lockLifecycle : M unit :=
  Await (λ s, negb (lifecycleMutex_ s))
    (λ _ s, if lifecycleMutex_ s then (None, s) else (Some tt, setLifecycle true s)) Ret.
Definition unlockLifecycle : M unit := update (setLifecycle false).

(** The joins: until every thread is gone. *)
Definition joinThreads : M unit :=
  Await (λ s, alive_ s =? 0) (λ _ s, (if alive_ s =? 0 then Some tt else None, s)) Ret.

Definition stopLocked : M unit :=
  _ ← update (setRunning false);
  _ ← update (setJobs []);
  _ ← joinThreads;
  _ ← update (setSocket false);
  update (λ s, setDatagrams (dgram_clear (datagrams_ s)) s).

Definition stop : M unit :=
  _ ← lockLifecycle;
  _ ← stopLocked;
  unlockLifecycle.

(** Which of the system calls of [start] succeed, and how many threads could be started. *)
Record StartCalls := mkStartCalls { socketOk : bool; bindOk : bool; timeoutOk : bool; startedThreads : nat }.

Definition startLocked (io : StartCalls) : M bool :=
  run ← load running_;
  if run : bool then Ret true else
  _ ← stopLocked;
  if (port_ =? 0) || (port_ =? 53) then Ret false else
  if negb (socketOk io) || negb (bindOk io) || negb (timeoutOk io) then Ret false else
  _ ← update (setSocket true);
  _ ← update (setRunning true);
  _ ← update (λ s, setAlive (alive_ s + Z.of_nat (Nat.min (startedThreads io) (S kWorkerCount))) s);
  if bool_decide (startedThreads io < S kWorkerCount)%nat then _ ← stopLocked; Ret false else Ret true.

Definition start (io : StartCalls) : M bool :=
  _ ← lockLifecycle;
  b ← startLocked io;
  _ ← unlockLifecycle;
  Ret b.

Definition newDnsProxy (r : Resolver) (d : DatagramRegistry) : DnsProxy := mkDnsProxy r d false false [] false 0.
End DnsProxy.

(** ** Specifications *)

(** What goes back for a datagram: the answer to its question, with its identifier, within
    what the client can take; a bare header with the error code when the question could not
    be read; nothing exactly when there was no header to answer. *)
Definition valid_reply (message reply : bytes) : Prop :=
  match parseQuery message with
  | Some (true, q) =>
      answers_query reply q /\ rd16 reply 0 = rd16 message 0 /\
      12 <= zlen reply <= Z.max kClassicUdpPayload (ednsPayload q)
  | Some (false, q) =>
      (reply = [] <-> unusable message) /\
      (reply <> [] -> zlen reply = 12 /\ rd16 reply 0 = rd16 message 0 /\ q_error q <> 0 /\
         inspectResponse reply = Some (Some (mkResponseInfo true false (q_error q) 0 None None)))
  | None => False
  end.

Section Replies.
Context `{!MapOrder bytes} (inet_pton4 inet_pton6 : bytes -> option bytes).
Context (workerHost_ sharedSecret_ : bytes) (connectPort_ : Z).
Context (pton4_len : forall t b, inet_pton4 t = Some b -> all_bytes b /\ zlen b = 4).
Context (pton6_len : forall t b, inet_pton6 t = Some b -> all_bytes b /\ zlen b = 16).

Abbreviation RWp :=
  (wp good_time good_response (resolver_ok inet_pton4 inet_pton6 workerHost_) (holds_step workerHost_) owns_nothing
     (request_ok workerHost_ sharedSecret_) may_wait).

Lemma built_reply message q addresses ttl failed rc :
  all_bytes message -> parseQuery message = Some (true, q) -> 0 <= ttl < 2 ^ 32 ->
  reply_to message (buildResponse inet_pton4 inet_pton6 q addresses ttl failed rc).
Proof.
  intros Hb Hp Ht. destruct (reply_answers inet_pton4 inet_pton6 pton4_len pton6_len message q addresses ttl failed rc)
    as (? & ? & ? & ?); try done. exists q. unfold kClassicUdpPayload in *. split_and!; try done; lia.
Qed.

Lemma wp_answerAddress message q deadline (Q : bytes -> option bytes -> Prop) X :
  all_bytes message -> parseQuery message = Some (true, q) ->
  (forall m, m = [] \/ reply_to message m -> Q m None) -> X None ->
  RWp (answerAddress inet_pton4 inet_pton6 workerHost_ sharedSecret_ connectPort_ message q deadline) None Q X.
Proof.
  intros Hb Hp HQ HX. unfold answerAddress. apply wp_bind, wp_resolve. intros r (Ht & _).
  unfold kMaxTtlSeconds in Ht. set (ttl := if ttlSeconds r =? 0 then _ else _).
  assert (Httl : 0 <= ttl < 2 ^ 32) by (unfold ttl; case_if; lia). clearbody ttl.
  case_if; [apply HQ; case_if; [right; by apply built_reply | by left] |].
  case_if; [by apply wp_queryWire |]. apply HQ. case_if; [right; by apply built_reply | by left].
Qed.

Lemma wp_buildReply message deadline (Q : bytes -> option bytes -> Prop) X :
  all_bytes message -> (forall m, valid_reply message m -> Q m None) -> X None ->
  RWp (buildReply inet_pton4 inet_pton6 workerHost_ sharedSecret_ connectPort_ message deadline) None Q X.
Proof.
  intros Hb HQ HX. unfold buildReply. apply wp_bind.
  destruct (parseQuery_total message Hb) as [[good q] Hp]. eapply wp_checked; [exact Hp |].
  destruct good; cbn [negb].
  2:{ apply HQ. unfold valid_reply. rewrite Hp. destruct (parseQuery_false _ _ Hb Hp) as [Hu Hid]. case_if; zbool.
      - destruct (Hid E) as (Hi & Hr & Ho & He). destruct (error_reads q (q_error q) Hr Ho He) as (Hz & H0 & Hinfo).
        split; [|intros _; split_and!; congruence || done]. split; [|by intros ?%Hu]. intros Hnil. by rewrite Hnil in Hz.
      - rewrite <- Hu. done. }
  apply wp_bind.
  assert (Hrest : forall m, m = [] \/ reply_to message m ->
    RWp (let response := if bool_decide (m = []) then buildResponse inet_pton4 inet_pton6 q [] 60 true 0 else m in
         cut ← checked (truncateForUdp response (Z.max kClassicUdpPayload (ednsPayload q)));
         Ret (snd cut)) None Q X).
  { intros m Hm. cbv zeta. set (m' := if bool_decide _ then _ else _).
    assert (Hm' : reply_to message m').
    { unfold m'. case_bool_decide as Em; [by apply built_reply | by destruct Hm]. }
    clearbody m'. destruct Hm' as (q' & Hq' & Ha & Hi & Hd & Hz). rewrite Hp in Hq'. injection Hq' as <-.
    destruct (cut_answers m' q (Z.max kClassicUdpPayload (ednsPayload q))) as (cut & m2 & Hc & Ha2 & Hi2 & Hz2);
      [done | by exists message | done | lia | lia |].
    apply wp_bind. eapply wp_checked; [exact Hc |]. apply HQ. unfold valid_reply. rewrite Hp. cbn [snd].
    split_and!; try done; [congruence | lia | lia]. }
  case_if; [by apply wp_answerAddress | by apply wp_queryWire].
Qed.
End Replies.

(** ** Threads of the proxy *)

(** A thread of the proxy that has not ended, a caller of [stop] with the lifecycle mutex
    before and after the joins, and everyone else. *)
Inductive Role := Serving | Stopping | Joined | Idle.
#[export] Instance Role_eq_dec : EqDecision Role.
Proof. solve_decision. Defined.

(** The name a thread asks the resolver for, and its role. *)
Abbreviation Ghost := (option bytes * Role)%type.

Definition serving (gs : list Ghost) : Z := Z.of_nat (length (List.filter (λ g : Ghost, bool_decide (g.2 = Serving)) gs)).
Definition holds_mutex (g : Ghost) : Prop := g.2 = Stopping \/ g.2 = Joined.

Section ProxySpecs.
Variable inet_pton4 inet_pton6 inet_ntop4 inet_ntop6 : bytes -> option bytes.
Variable workerHost_ sharedSecret_ : bytes.
(** What the network may deliver: any relation between datagrams and senders. *)
Variable sent_by : bytes -> Sockaddr -> Prop.

Definition event_ok (e : Event) : Prop :=
  match e with
  | FromWorker r => good_response r
  | Datagram d p => all_bytes d /\ sent_by d p
  | _ => True
  end.

Definition job_ok (j : Job) : Prop :=
  all_bytes (data j) /\ sent_by (data j) (peer j) /\ is_Some (endpoint inet_ntop4 inet_ntop6 (peer j)).

Record proxy_ok (s : DnsProxy) : Prop := {
  pok_resolver : resolver_ok inet_pton4 inet_pton6 workerHost_ (resolver_ s);
  pok_queue : zlen (jobs_ s) <= kMaxQueuedQueries;
  pok_jobs : Forall job_ok (jobs_ s);
  pok_socket : 0 < alive_ s -> socket_ s = true;
}.

(** What a step may do: end a thread, take or release the mutex, finish the joins. *)
Definition role_step (r : Role) (s s' : DnsProxy) (r' : Role) : Prop :=
  (r' = r /\ alive_ s' = alive_ s /\ lifecycleMutex_ s' = lifecycleMutex_ s) \/
  (r = Serving /\ r' = Idle /\ alive_ s' = alive_ s - 1 /\ lifecycleMutex_ s' = lifecycleMutex_ s) \/
  (alive_ s' = alive_ s /\
    ((r = Idle /\ r' = Stopping /\ lifecycleMutex_ s = false /\ lifecycleMutex_ s' = true) \/
     (r = Stopping /\ r' = Joined /\ alive_ s = 0 /\ lifecycleMutex_ s' = lifecycleMutex_ s) \/
     (r = Joined /\ r' = Idle /\ lifecycleMutex_ s' = false))).
Definition proxy_step (g : Ghost) (s s' : DnsProxy) (g' : Ghost) : Prop :=
  holds_step workerHost_ g.1 (resolver_ s) (resolver_ s') g'.1 /\ role_step g.2 s s' g'.2.

(** After the joins no thread is left, for as long as the mutex is held. *)
Definition proxy_own (g : Ghost) (s : DnsProxy) : Prop :=
  match g.2 with
  | Serving => 0 < alive_ s
  | Joined => alive_ s = 0
  | _ => True
  end.

Definition proxy_send (g : Ghost) (c : Call) : Prop :=
  match c with
  | ToWorker rq => request_ok workerHost_ sharedSecret_ g.1 rq
  | ReceiveFrom => g.2 = Serving
  | SendTo p reply =>
      g.2 = Serving /\ exists d, sent_by d p /\ is_Some (endpoint inet_ntop4 inet_ntop6 p) /\
        valid_reply d reply /\ reply <> []
  end.

Definition proxy_wait (g : Ghost) (ready : DnsProxy -> bool) : Prop :=
  g.1 = None /\
  ((g.2 = Serving /\ exists key, ready = λ s, negb (bool_decide (key ∈ inFlight_ (resolver_ s)))) \/
   (g.2 = Serving /\ forall s, running_ s = false -> ready s = true) \/
   (g.2 = Stopping /\ ready = λ s, alive_ s =? 0) \/
   (g.2 = Idle /\ ready = λ s, negb (lifecycleMutex_ s))).

Definition proxy_accounted (s0 : Resolver) (s : DnsProxy) (gs : list Ghost) : Prop :=
  accounted workerHost_ s0 (resolver_ s) (fst <$> gs) /\
  alive_ s = serving gs /\
  mutex_held holds_mutex gs (lifecycleMutex_ s) /\
  (forall g, g ∈ gs -> g.2 = Joined -> alive_ s = 0).
End ProxySpecs.

Lemma serving_insert gs i (g g' : Ghost) :
  gs !! i = Some g ->
  serving (<[i := g']> gs) =
  serving gs - (if bool_decide (g.2 = Serving) then 1 else 0) + (if bool_decide (g'.2 = Serving) then 1 else 0).
Proof.
  unfold serving. revert i. induction gs as [|h gs IH]; intros [|i]; try done.
  - intros [= ->]. change (<[0%nat := g']> (g :: gs)) with (g' :: gs). cbn [List.filter].
    repeat case_bool_decide; cbn [length]; lia.
  - change (<[S i := g']> (h :: gs)) with (h :: <[i := g']> gs). intros Hi. specialize (IH i Hi). cbn [List.filter].
    destruct (bool_decide (h.2 = Serving)); cbn [length]; lia.
Qed.

Lemma serving_pos gs g : g ∈ gs -> g.2 = Serving -> 0 < serving gs.
Proof.
  intros Hin Hr. unfold serving. apply list_elem_of_In in Hin.
  assert (In g (List.filter (λ g : Ghost, bool_decide (g.2 = Serving)) gs)).
  { apply filter_In. split; [done |]. by apply bool_decide_eq_true_2. }
  destruct (List.filter _ _); [done |]. cbn [length]. lia.
Qed.

Lemma serving_exists gs : 0 < serving gs -> exists g, g ∈ gs /\ g.2 = Serving.
Proof.
  unfold serving. destruct (List.filter _ _) as [|g l] eqn:E; [simpl; lia |]. intros _.
  assert (Hin : In g (List.filter (λ g : Ghost, bool_decide (g.2 = Serving)) gs)) by (rewrite E; by left).
  apply filter_In in Hin as [Hin%list_elem_of_In Hr%bool_decide_eq_true_1]. eauto.
Qed.

Section ProxyProofs.
Context `{!MapOrder bytes} (inet_pton4 inet_pton6 inet_ntop4 inet_ntop6 : bytes -> option bytes).
Context (workerHost_ sharedSecret_ : bytes) (connectPort_ : Z).
Context (pton4_len : forall t b, inet_pton4 t = Some b -> all_bytes b /\ zlen b = 4).
Context (pton6_len : forall t b, inet_pton6 t = Some b -> all_bytes b /\ zlen b = 16).
Context (sent_by : bytes -> Sockaddr -> Prop).

Abbreviation Event_ok := (event_ok sent_by).
Abbreviation Job_ok := (job_ok inet_ntop4 inet_ntop6 sent_by).
Abbreviation Inv := (proxy_ok inet_pton4 inet_pton6 inet_ntop4 inet_ntop6 workerHost_ sent_by).
Abbreviation Rel := (proxy_step workerHost_).
Abbreviation Send := (proxy_send inet_ntop4 inet_ntop6 workerHost_ sharedSecret_ sent_by).
Abbreviation Wp := (wp good_time Event_ok Inv Rel proxy_own Send proxy_wait).
Abbreviation Process := (process inet_pton4 inet_pton6 workerHost_ sharedSecret_ connectPort_).

Lemma proxy_accounted_step s0 s gs i g s' g' :
  Inv s -> proxy_accounted workerHost_ s0 s gs -> gs !! i = Some g -> Rel g s s' g' ->
  proxy_accounted workerHost_ s0 s' (<[i := g']> gs).
Proof.
  intros Hs (Hacc & Hal & Hmut & Hjoin) Hi [Hres Hrole].
  pose proof (serving_insert gs i g g' Hi) as Hsv. pose proof (list_elem_of_lookup_2 _ _ _ Hi) as Hin.
  assert (Hfst : (fst <$> gs) !! i = Some g.1) by (by rewrite list_lookup_fmap, Hi).
  assert (Hcount : alive_ s' = serving (<[i := g']> gs)).
  { rewrite Hsv, <- Hal. destruct Hrole as [(-> & -> & _)|[(-> & -> & -> & _)|(-> & Hr)]].
    - lia.
    - rewrite bool_decide_eq_true_2, bool_decide_eq_false_2 by done. lia.
    - destruct Hr as [(-> & -> & _)|[(-> & -> & _)|(-> & -> & _)]]; rewrite !bool_decide_eq_false_2 by done; lia. }
  split_and!; [|done | |].
  - rewrite list_fmap_insert.
    exact (accounted_step inet_pton4 inet_pton6 workerHost_ s0 (resolver_ s) (fst <$> gs) i g.1 (resolver_ s') g'.1
      (pok_resolver _ _ _ _ _ _ s Hs) Hacc Hfst Hres).
  - eapply mutex_step; [exact Hi | exact Hmut |]. unfold holds_mutex.
    destruct Hrole as [(-> & _ & ->)|[(-> & -> & _ & ->)|(_ & [(-> & -> & -> & ->)|[(-> & -> & _ & ->)|(-> & -> & ->)]])]].
    + by left.
    + left. split; [|done]. split; intros [?|?]; done.
    + right. left. auto.
    + left. split; [|done]. split; auto.
    + right. right. split_and!; [auto | by intros [?|?] | done].
  - intros h [j Hj]%list_elem_of_lookup Hr. apply list_lookup_insert_Some in Hj as [(<- & -> & _)|[Hne Hj]].
    + destruct Hrole as [(Er & -> & _)|[(_ & Er & _)|(-> & [(_ & Er & _)|[(_ & _ & ? & _)|(_ & Er & _)]])]]; try congruence.
      apply (Hjoin g); congruence.
    + assert (H0 : alive_ s = 0) by (apply (Hjoin h); [by eapply list_elem_of_lookup_2 | done]).
      destruct Hrole as [(_ & -> & _)|[(Er & _)|(-> & _)]]; try done.
      pose proof (serving_pos gs g Hin Er). lia.
Qed.

Lemma proxy_owns s0 s gs i g : proxy_accounted workerHost_ s0 s gs -> gs !! i = Some g -> proxy_own g s.
Proof.
  intros (_ & Hal & _ & Hjoin) Hi%list_elem_of_lookup_2. unfold proxy_own. destruct (g.2) eqn:Er; try done.
  - rewrite Hal. by eapply serving_pos.
  - by apply (Hjoin g).
Qed.

(** *** Steps *)

Lemma Rel_same g s s' :
  resolver_ s' = resolver_ s -> alive_ s' = alive_ s -> lifecycleMutex_ s' = lifecycleMutex_ s -> Rel g s s' g.
Proof. intros Hr Ha Hl. split; [rewrite Hr; by apply Rel_keep | by left]. Qed.

Lemma wp_load {A} (f : DnsProxy -> A) g (Q : A -> Ghost -> Prop) X :
  (forall s, Inv s -> Q (f s) g) -> Wp (load f) g Q X.
Proof. intros HQ t s _ Hs _. split; [done |]. exists g. split; [by apply Rel_same | by apply HQ]. Qed.

Lemma wp_update f g g' (Q : unit -> Ghost -> Prop) X :
  (forall s, Inv s -> proxy_own g s -> Inv (f s) /\ Rel g s (f s) g') -> Q tt g' -> Wp (update f) g Q X.
Proof. intros Hf HQ t s _ Hs Ho. destruct (Hf s Hs Ho). split; [done |]. by exists g'. Qed.

Lemma wp_fail g (Q : unit -> Ghost -> Prop) X : Q tt g -> Wp fail g Q X.
Proof. intros HQ. apply wp_update with g; [|done]. intros s [] _. split; [by split | by apply Rel_same]. Qed.

Lemma wp_call c g (Q : Event -> Ghost -> Prop) (X : Ghost -> Prop) :
  Send g c -> (forall e, Event_ok e -> Q e g) -> X g -> Wp (call c) g Q X.
Proof. intros Hs HQ HX. split; [done |]. intros [e|] He; simpl; auto. Qed.

Lemma wp_onResolver {A} (p : P A) n (Q : A -> option bytes -> Prop) (X : option bytes -> Prop)
    (Q' : A -> Ghost -> Prop) (X' : Ghost -> Prop) :
  wp good_time good_response (resolver_ok inet_pton4 inet_pton6 workerHost_) (holds_step workerHost_) owns_nothing
    (request_ok workerHost_ sharedSecret_) may_wait p n Q X ->
  (forall a n, Q a n -> Q' a (n, Serving)) -> (forall n, X n -> X' (n, Serving)) ->
  Wp (onResolver p) (n, Serving) Q' X'.
Proof.
  intros Hp HQ HX. refine (wp_zoom _ _ _ _ good_time good_response _ _ _ _ _ _ _ _ _ _ _ (λ n, (n, Serving))
    _ _ _ _ _ _ _ p n Q X Q' X' Hp HQ HX).
  - intros [r| | |] x Hr; try done. by intros [= ->].
  - intros s Hs. apply Hs.
  - intros x s Hx []. by split.
  - intros g g' x s Hr. split; [exact Hr | by left].
  - done.
  - done.
  - intros g ready [-> [key ->]]. split; [done |]. left. split; [done |]. by exists key.
Qed.

(** *** The threads *)

Lemma wp_process job (Q : unit -> Ghost -> Prop) (X : Ghost -> Prop) :
  Job_ok job -> Q tt (None, Serving) -> X (None, Serving) -> Wp (Process job) (None, Serving) Q X.
Proof.
  intros (Hb & Hk & Hep) HQ HX. unfold process. apply wp_bind.
  eapply wp_onResolver with (Q := λ m n, valid_reply (data job) m /\ n = None) (X := λ n, n = None).
  - apply wp_buildReply; auto.
  - intros m n [Hv ->]. cbv beta. case_if; [done |]. zbool. apply wp_bind, wp_load. intros s _. case_if; [done |].
    apply wp_bind, wp_load. intros s' _. case_if; [done |]. apply wp_bind, wp_call; [|done | done].
    split; [done |]. exists (data job). by split_and!.
  - by intros n ->.
Qed.

Abbreviation Receive := (receive inet_pton4 inet_pton6 inet_ntop4 inet_ntop6 workerHost_ sharedSecret_ connectPort_).

Lemma wp_receive d from (Q : unit -> Ghost -> Prop) (X : Ghost -> Prop) :
  all_bytes d -> sent_by d from -> Q tt (None, Serving) -> X (None, Serving) ->
  Wp (Receive d from) (None, Serving) Q X.
Proof.
  intros Hb Hk HQ HX. unfold receive. destruct (endpoint inet_ntop4 inet_ntop6 from) as [[address port]|] eqn:Ee; [|done].
  apply wp_bind. intros t s _ Hs _. destruct (dgram_claim _ _ _ _ _) as [claimed r]. cbn [fst snd]. split; [by destruct Hs; split |].
  exists (None, Serving). split; [by apply Rel_same |]. cbn [wp]. case_if; [done |]. apply wp_bind. intros t' Ht'.
  assert (Hj : Job_ok (mkJob d from t')) by (split_and!; cbn; [done | done | by rewrite Ee]).
  apply wp_bind. destruct (parseQuery_total d Hb) as [[good q] Hp]. rewrite Hp. cbn [checked wp].
  case_if; [by apply wp_process |]. apply wp_update with (None, Serving); [|done]. intros s2 Hs2 _.
  case_if; [split; [done | by apply Rel_same] |]. zbool. split; [|by apply Rel_same].
  destruct Hs2 as [H1 H2 H3 H4]. split; cbn [jobs_ setJobs alive_ socket_ resolver_]; try done.
  - rewrite zlen_app. change (zlen [_]) with 1. lia.
  - apply Forall_app. split; [done |]. by constructor.
Qed.

Lemma wp_waitForStop (Q : unit -> Ghost -> Prop) X : Q tt (None, Serving) -> Wp waitForStop (None, Serving) Q X.
Proof.
  intros HQ. split.
  - split; [done |]. right. left. split; [done |]. intros s ->. done.
  - intros t s _ Hs _. cbn [fst snd]. split; [done |]. case_if; [exists (None, Serving); split; [|done]|]; by apply Rel_same.
Qed.

Abbreviation ReceiveLoop := (receiveLoop inet_pton4 inet_pton6 inet_ntop4 inet_ntop6 workerHost_ sharedSecret_ connectPort_).
Abbreviation WorkerLoop := (workerLoop inet_pton4 inet_pton6 workerHost_ sharedSecret_ connectPort_).

Lemma wp_receiveLoop n (Q : unit -> Ghost -> Prop) (X : Ghost -> Prop) :
  Q tt (None, Serving) -> X (None, Serving) -> Wp (ReceiveLoop n) (None, Serving) Q X.
Proof.
  intros HQ HX. induction n as [|n IH]; cbn [receiveLoop]; [by apply wp_waitForStop |].
  apply wp_bind, wp_load. intros s _. case_if; [done |]. apply wp_bind, wp_load. intros s' _. case_if; [done |].
  apply wp_bind, wp_call; [done | | done]. intros [r|d from|error|] He; try done.
  - destruct He as [Hb Hk]. by apply wp_bind, wp_receive.
  - apply wp_bind, wp_load. intros s2 _. case_if; [done |]. case_if; [done |]. by apply wp_fail.
Qed.

Lemma wp_workerLoop n (Q : unit -> Ghost -> Prop) (X : Ghost -> Prop) :
  Q tt (None, Serving) -> X (None, Serving) -> Wp (WorkerLoop n) (None, Serving) Q X.
Proof.
  intros HQ HX. induction n as [|n IH]; cbn [workerLoop]; [by apply wp_waitForStop |].
  apply wp_bind. split.
  - split; [done |]. right. left. split; [done |]. intros s ->. done.
  - intros t s _ Hs _. unfold takeJob. case_if.
    + split; [done |]. exists (None, Serving). split; [by apply Rel_same | done].
    + destruct (jobs_ s) as [|job rest] eqn:Ej; cbn [fst snd]; [split; [done | by apply Rel_same] |].
      destruct Hs as [H1 H2 H3 H4]. rewrite Ej in H2, H3. apply Forall_cons in H3 as [Hj H3]. rewrite zlen_cons in H2.
      split; [split; cbn [jobs_ setJobs]; try done; lia |]. exists (None, Serving). split; [by apply Rel_same |]. cbn [wp].
      apply wp_bind. intros t' _. cbn [wp]. case_if; [done |]. by apply wp_bind, wp_process.
Qed.

(** A thread of the proxy ends, whatever happens in its loop. *)
Lemma wp_threadMain loop (Q : unit -> Ghost -> Prop) X :
  (forall Q' X', Q' tt (None, Serving) -> X' (None, Serving) -> Wp loop (None, Serving) Q' X') ->
  Q tt (None, Idle) -> Wp (threadMain loop) (None, Serving) Q X.
Proof.
  intros Hloop HQ. unfold threadMain. apply wp_bind, wp_try.
  assert (Hend : Wp (update (λ s, setAlive (alive_ s - 1) s)) (None, Serving) Q X).
  { apply wp_update with (None, Idle); [|done]. intros s Hs Ho. split.
    - destruct Hs as [H1 H2 H3 H4]. split; try done. cbn [alive_ setAlive socket_]. intros _. by apply H4.
    - split; [by apply Rel_keep |]. right. left. done. }
  apply Hloop; [done | by apply wp_fail].
Qed.

Lemma wp_stop (Q : unit -> Ghost -> Prop) X : Q tt (None, Idle) -> Wp stop (None, Idle) Q X.
Proof.
  intros HQ. unfold stop, stopLocked, lockLifecycle, joinThreads. apply wp_bind. split.
  { split; [done |]. right. right. by right. }
  intros t s _ Hs _. destruct (lifecycleMutex_ s) eqn:El; cbn [fst snd]; [split; [done | by apply Rel_same] |].
  split; [by destruct Hs; split |]. exists (None, Stopping). split.
  { split; [by apply Rel_keep |]. right. right. split; [done |]. by left. }
  cbn [wp]. apply wp_bind, wp_bind. apply wp_update with (None, Stopping).
  { intros s2 [] _. split; [by split | by apply Rel_same]. }
  apply wp_bind. apply wp_update with (None, Stopping).
  { intros s2 [] _. split; [|by apply Rel_same]. by split. }
  apply wp_bind. split.
  { split; [done |]. right. right. by left. }
  intros t2 s2 _ Hs2 _. cbn [fst snd]. split; [done |]. case_if; [|by apply Rel_same]. zbool.
  exists (None, Joined). split.
  { split; [by apply Rel_keep |]. right. right. split; [done |]. right. by left. }
  cbn [wp]. apply wp_bind. apply wp_update with (None, Joined).
  { intros s3 [H1 H2 H3 H4] Ho. split; [|by apply Rel_same]. split; try done. cbn in *. lia. }
  apply wp_update with (None, Joined).
  { intros s3 [] _. split; [by split | by apply Rel_same]. }
  apply wp_update with (None, Idle); [|done]. intros s3 [] _. split; [by split |].
  split; [by apply Rel_keep |]. right. right. split; [done |]. right. by right.
Qed.

(** ** Properties *)

(** The resolver at work for many datagrams at once. *)
Definition launchReplies (s : Resolver) (ds : list (bytes * Z)) : Pool Resolver HttpRequest HttpResponse (bytes * bytes) :=
  mkPool s ((λ d, mkThread (m ← buildReply inet_pton4 inet_pton6 workerHost_ sharedSecret_ connectPort_ d.1 d.2;
                            Ret (d.1, m)) false) <$> ds).

(** Every datagram gets the right kind of reply. Whatever the datagrams are, however
    many are served at once and whatever the Worker returns, [buildReply] never reads
    outside a buffer, and when it returns: a datagram whose question can be read gets a
    well-formed response that echoes the question and carries its identifier, within
    512 bytes or the payload the client offered; a header that can be read but not the
    question gets a bare header with the error code; and nothing is sent exactly when there
    is no usable header. *)
Theorem replies_valid (resolved : option (list SystemAddress)) (t : Z) (ds : list (bytes * Z))
    (c : Pool Resolver HttpRequest HttpResponse (bytes * bytes)) (i : nat)
    (th : Thread Resolver HttpRequest HttpResponse (bytes * bytes)) :
  Forall (λ d, all_bytes d.1) ds ->
  rtc (pool_step good_time good_response)
    (launchReplies (newResolver inet_pton4 inet_pton6 workerHost_ resolved t) ds) c ->
  threads c !! i = Some th ->
  match prog th with
  | Ret (d, reply) => valid_reply d reply
  | Fault => False
  | _ => True
  end.
Proof.
  intros Hds Hr Hi. destruct (newResolver_ok inet_pton4 inet_pton6 workerHost_ resolved t) as [Hs Hf].
  set (s := newResolver _ _ _ _ _) in *.
  pose proof (pool_invariant _ _ _ good_time good_response (resolver_ok inet_pton4 inet_pton6 workerHost_)
    (holds_step workerHost_) owns_nothing (request_ok workerHost_ sharedSecret_) may_wait (accounted workerHost_ s)
    (accounted_step inet_pton4 inet_pton6 workerHost_ s) (λ _ _ _ _ _ _, I)
    (λ (dm : bytes * bytes) (g : option bytes), valid_reply dm.1 dm.2 /\ g = None) (λ g, g = None) (launchReplies s ds) c) as Hpool.
  destruct Hpool as (_ & gs & _ & Hall); [|done |].
  { split; [done |]. exists (replicate (length ds) None). split.
    - split; [|done]. split; [by intros a b k [? _]%lookup_replicate_1 |]. intros k. cbn [shared launchReplies].
      rewrite Hf. split; [by intros ?%not_elem_of_empty | by intros [a [? _]%lookup_replicate_1]].
    - cbn [threads launchReplies]. clear Hr Hf Hs. induction Hds as [|d ds Hd _ IH]; [constructor |].
      cbn [fmap list_fmap length replicate]. constructor; [|exact IH]. split; [|done]. cbn [prog].
      by apply wp_bind, wp_buildReply. }
  destruct (Forall2_lookup_l _ _ _ _ _ Hall Hi) as (g & _ & [Hw _]).
  destruct (prog th) as [[d m]| | | | | |]; try done. apply Hw.
Qed.

(** The proxy after a successful [start]: its threads, unrolled, and callers of [stop]. *)
Definition startedProxy (r : Resolver) (d : DatagramRegistry) : DnsProxy :=
  mkDnsProxy r d true true [] false (Z.of_nat (S kWorkerCount)).
Definition proxyThreads (rounds : nat) (stoppers : nat) : list (M unit) :=
  threadMain (ReceiveLoop rounds) :: replicate kWorkerCount (threadMain (WorkerLoop rounds)) ++ replicate stoppers stop.
Definition launchProxy (r : Resolver) (d : DatagramRegistry) (rounds stoppers : nat) : Pool DnsProxy Call Event unit :=
  mkPool (startedProxy r d) ((λ p, mkThread p false) <$> proxyThreads rounds stoppers).

Abbreviation Ended := (λ (_ : unit) (g : Ghost), g = (None, Idle)).
Abbreviation Never := (λ g : Ghost, False).
Abbreviation Proxy_ok s0 :=
  (pool_ok _ _ _ good_time Event_ok Inv Rel proxy_own Send proxy_wait (proxy_accounted workerHost_ s0) Ended Never).

Lemma launchProxy_ok r d rounds stoppers :
  resolver_ok inet_pton4 inet_pton6 workerHost_ r -> inFlight_ r = ∅ -> Proxy_ok r (launchProxy r d rounds stoppers).
Proof.
  intros Hr Hf. split; [by split |].
  exists (replicate (S kWorkerCount) (None, Serving) ++ replicate stoppers (None, Idle)). cbn [shared launchProxy startedProxy].
  set (gs := _ ++ _). assert (Hrole : forall g, g ∈ gs -> g = (None, Serving) \/ g = (None, Idle)).
  { intros g [[-> _]%elem_of_replicate|[-> _]%elem_of_replicate]%elem_of_app; auto. }
  split; [split_and!|].
  - assert (Hnone : forall j n, (fst <$> gs) !! j = Some n -> n = None).
    { intros j n Hj. rewrite list_lookup_fmap in Hj. apply fmap_Some in Hj as (g & Hg%list_elem_of_lookup_2 & ->).
      by destruct (Hrole g Hg) as [->| ->]. }
    split; [|done]. split; [intros a b k Ha%Hnone; done |]. intros k. cbn [resolver_ startedProxy]. rewrite Hf.
    split; [by intros ?%not_elem_of_empty | by intros [a Ha%Hnone]].
  - unfold serving, gs. rewrite List.filter_app, length_app, Nat2Z.inj_add.
    assert (Hz : List.filter (λ g : Ghost, bool_decide (g.2 = Serving)) (replicate stoppers (None, Idle)) = []).
    { clear. by induction stoppers as [|n IH]. }
    rewrite Hz. done.
  - split; [|split; [done |]].
    + intros a b g h Ha%list_elem_of_lookup_2%Hrole _ Hg _. by destruct Ha as [->| ->], Hg.
    + intros (a & g & Ha%list_elem_of_lookup_2%Hrole & Hg). by destruct Ha as [->| ->], Hg.
  - intros g [->| ->]%Hrole; done.
  - cbn [threads launchProxy]. unfold gs, proxyThreads. rewrite fmap_cons, fmap_app, !fmap_replicate.
    change (replicate (S kWorkerCount) ?x) with (x :: replicate kWorkerCount x). cbn [app].
    constructor; [|apply Forall2_app; apply Forall2_replicate].
    + split; [|done]. apply wp_threadMain; [|done]. intros. by apply wp_receiveLoop.
    + split; [|done]. apply wp_threadMain; [|done]. intros. by apply wp_workerLoop.
    + split; [|done]. by apply wp_stop.
Qed.

(** The interleavings of a proxy that was started on [r], an idle resolver, with any number
    of callers of [stop]. *)
Definition proxy_reaches (r : Resolver) (d : DatagramRegistry) (rounds stoppers : nat) (c : Pool DnsProxy Call Event unit) : Prop :=
  rtc (pool_step good_time Event_ok) (launchProxy r d rounds stoppers) c.

Lemma proxy_reaches_ok resolved t d rounds stoppers c :
  let r := newResolver inet_pton4 inet_pton6 workerHost_ resolved t in
  proxy_reaches r d rounds stoppers c -> Proxy_ok r c.
Proof.
  intros r Hr. destruct (newResolver_ok inet_pton4 inet_pton6 workerHost_ resolved t) as [Hs Hf].
  eapply pool_invariant; [exact (proxy_accounted_step r) | exact (proxy_owns r) | by apply launchProxy_ok | exact Hr].
Qed.

(** What the running proxy sends. In every interleaving of the receiver, the eight
    workers and any callers of [stop]: at most 1024 queries are queued; no thread ends by an
    exception or reads outside a buffer; a datagram is only ever sent, or waited for, while
    the socket is open, so [stop] never closes it under a thread; and what is sent to a peer
    is a valid reply to a datagram that came from that peer. *)
Theorem proxy_sends (resolved : option (list SystemAddress)) (t : Z) (d : DatagramRegistry) (rounds stoppers : nat)
    (c : Pool DnsProxy Call Event unit) (i : nat) (th : Thread DnsProxy Call Event unit) :
  proxy_reaches (newResolver inet_pton4 inet_pton6 workerHost_ resolved t) d rounds stoppers c ->
  threads c !! i = Some th ->
  zlen (jobs_ (shared c)) <= kMaxQueuedQueries /\ prog th <> Throw /\ prog th <> Fault /\
  (calling th = Some ReceiveFrom -> socket_ (shared c) = true) /\
  (forall p reply, calling th = Some (SendTo p reply) ->
     socket_ (shared c) = true /\
     exists q, sent_by q p /\ is_Some (endpoint inet_ntop4 inet_ntop6 p) /\ valid_reply q reply /\ reply <> []).
Proof.
  intros Hr Hi. destruct (proxy_reaches_ok _ _ _ _ _ _ Hr) as (Hs & gs & Hacc & Hall).
  destruct (Forall2_lookup_l _ _ _ _ _ Hall Hi) as (g & Hg & [Hw _]).
  pose proof (proxy_owns _ _ _ _ _ Hacc Hg) as Hown.
  assert (Hopen : g.2 = Serving -> socket_ (shared c) = true).
  { intros Er. apply (pok_socket _ _ _ _ _ _ _ Hs). unfold proxy_own in Hown. by rewrite Er in Hown. }
  unfold calling. split; [apply (pok_queue _ _ _ _ _ _ _ Hs) |].
  destruct (prog th) as [[]| | |k|cl k|B sec k|B ready sec k]; try done; try (by split_and!).
  destruct Hw as [Hsend _]. split_and!; try done.
  - intros [= ->]. by apply Hopen.
  - intros p reply [= ->]. destruct Hsend as [Er Hq]. split; [by apply Hopen | done].
Qed.

(** Stopping the proxy never hangs: once [running_] is false, by [stop] or by [fail],
    then in every reachable state either every thread has ended, the callers of [stop]
    included, or some thread can make its next step. *)
Theorem proxy_stops (resolved : option (list SystemAddress)) (t : Z) (d : DatagramRegistry) (rounds stoppers : nat)
    (c : Pool DnsProxy Call Event unit) :
  proxy_reaches (newResolver inet_pton4 inet_pton6 workerHost_ resolved t) d rounds stoppers c ->
  running_ (shared c) = false ->
  Forall finished (threads c) \/ exists c', pool_step good_time Event_ok c c'.
Proof.
  intros Hr Hrun. destruct (proxy_reaches_ok _ _ _ _ _ _ Hr) as (Hs & gs & Hacc & Hall).
  set (r := newResolver _ _ _ _ _) in *.
  apply (pool_progress _ _ _ good_time Event_ok Inv Rel proxy_own Send proxy_wait
    (λ s gs, proxy_accounted workerHost_ r s gs /\ running_ s = false) Ended Never
    (λ g : Ghost, match g.1 with Some _ => 0 | None => match g.2 with Serving => 1 | Idle => 3 | _ => 2 end end)%nat)
    with (t := 0); [|done | split; [done |]; by exists gs].
  clear - pton4_len. intros s gs g ready _ [(Hacc & Hal & Hmut & _) Hrun] _ [Hn Hw] Hready.
  rewrite Hn. destruct Hw as [[-> [key ->]]|[[-> Hq]|[[-> ->]|[-> ->]]]].
  - zbool. destruct Hacc as [[_ Hin] _]. apply Hin in Hready as [i Hi]. rewrite list_lookup_fmap in Hi.
    apply fmap_Some in Hi as (g' & Hg' & Hk). exists g'. split; [by eapply list_elem_of_lookup_2 |].
    rewrite <- Hk. split_and!; [lia | tauto |]. intros _ ->. done.
  - by rewrite Hq in Hready.
  - zbool. destruct (serving_exists gs) as (g' & Hin & Er); [unfold serving in *; lia |]. exists g'. split; [done |].
    rewrite Er. split_and!; [destruct g'.1; lia | tauto |]. intros _ ->. done.
  - zbool. destruct Hmut as [_ Hlock]. apply Hlock in Hready as (i & g' & Hg' & Hm). exists g'.
    split; [by eapply list_elem_of_lookup_2 |]. destruct g' as [[k|] r']; destruct Hm as [Hm|Hm]; cbn in Hm; subst r'; cbn;
      (split_and!; [lia | tauto |]; intros _ [=]).
Qed.
End ProxyProofs.

(** Runs a straight piece of a program. *)
Ltac run_steps :=
  cbn [mbind prog_bind_inst prog_bind atomic run lifecycleMutex_ setLifecycle running_ setRunning setJobs alive_ setAlive
    setSocket setDatagrams datagrams_ socket_ jobs_ resolver_ socketOk bindOk timeoutOk startedThreads Z.eqb
    dgram_clear d_entries_ negb andb orb].

(** [start] on an idle proxy: it returns true exactly when the port is usable, every
    system call succeeds and all nine threads start, and then the socket is open and the nine
    threads run; when anything fails, the queue is empty, the flag is down and the socket is
    closed when it returns false, or it waits for the threads that did start. The lifecycle
    mutex is free again whenever it returns. *)
Theorem start_outcome (now : nat -> Z) (net : nat -> Call -> option Event) (n : nat) (port : Z) (s : DnsProxy) (io : StartCalls) :
  running_ s = false -> alive_ s = 0 -> lifecycleMutex_ s = false ->
  let good := negb (port =? 0) && negb (port =? 53) && socketOk io && bindOk io && timeoutOk io in
  let '(o, _, s', _) := run now net (start port io) n s in
  jobs_ s' = [] /\ d_entries_ (datagrams_ s') = ∅ /\
  match o with
  | Returned b =>
      lifecycleMutex_ s' = false /\ socket_ s' = b /\ running_ s' = b /\ alive_ s' = (if b then 9 else 0) /\
      (b = true <-> good = true /\ (9 <= startedThreads io)%nat)
  | Stuck => good = true /\ running_ s' = false /\ 0 < alive_ s' < 9
  | _ => False
  end.
Proof.
  destruct s as [r d so ru jo li al], io as [o1 o2 o3 k]. cbn [running_ alive_ lifecycleMutex_]. intros -> -> ->. cbv zeta.
  unfold start, startLocked, lockLifecycle, stopLocked, joinThreads, unlockLifecycle, load, update. run_steps.
  destruct (port =? 0), (port =? 53), o1, o2, o3; run_steps; try (split_and!; try done; split; [done | by intros [? _]]).
  unfold kWorkerCount. case_bool_decide as Hk; run_steps.
  - destruct (0 + Z.of_nat (k `min` 9) =? 0) eqn:E; run_steps; zbool.
    + split_and!; done || lia.
    + split_and!; try done; lia.
  - split_and!; done || lia.
Qed.

(** ** Concrete runs *)

Lemma start_outcome_witness :
  let s := newDnsProxy (newResolver sample_pton4 sample_pton6 (str "w.example") None 0) newDatagramRegistry in
  let '(o, _, s', _) := run sample_clock (λ _ _, None) (start 15353 (mkStartCalls true false true 9)) 0 s in
  jobs_ s' = [] /\ d_entries_ (datagrams_ s') = ∅ /\
  match o with
  | Returned b =>
      lifecycleMutex_ s' = false /\ socket_ s' = b /\ running_ s' = b /\ alive_ s' = (if b then 9 else 0) /\
      (b = true <-> false = true /\ (9 <= 9)%nat)
  | Stuck => false = true /\ running_ s' = false /\ 0 < alive_ s' < 9
  | _ => False
  end.
Proof.
  exact (start_outcome sample_clock (λ _ _, None) 0 15353
    (newDnsProxy (newResolver sample_pton4 sample_pton6 (str "w.example") None 0) newDatagramRegistry)
    (mkStartCalls true false true 9) eq_refl eq_refl eq_refl).
Defined.

(** The datagrams of a client, and senders that sent anything made of bytes. *)
Definition sample_peer : Sockaddr := SockIn6 (replicate 10 0 ++ [255; 255; 10; 0; 0; 1]) 40000.
Definition sample_ntop (b : bytes) : option bytes := Some (str "10.0.0.1").
Definition sample_registry : DatagramRegistry := dgram_observe newDatagramRegistry (str "10.0.0.1") 40000 0 0.
Definition any_sender (d : bytes) (p : Sockaddr) : Prop := True.

Abbreviation sample_resolver := (newResolver sample_pton4 sample_pton6 (str "w.example") sample_boot 0).

(** The Worker answers, one datagram arrives, then the socket is silent. *)
Definition proxy_net (n : nat) (c : Call) : option Event :=
  match c with
  | ToWorker rq => FromWorker <$> sample_net n rq
  | ReceiveFrom => Some (if (n <? 4)%nat then Datagram sample_query sample_peer else ReceiveError WSAETIMEDOUT)
  | SendTo _ _ => Some SendDone
  end.
Definition proxy_clock (n : nat) : Z := Z.min (Z.of_nat n) (2 ^ 40).

Abbreviation proxy_pool schedule :=
  (exec proxy_clock proxy_net schedule 0
     (launchProxy sample_pton4 sample_pton6 sample_ntop sample_ntop (str "w.example") (str "s3cret") 443
        sample_resolver sample_registry 3 1)).

(** The receiver queues the datagram, worker 1 takes it and is about to send the reply. *)
Definition sample_sending : list nat := replicate 7 0%nat ++ replicate 15 1%nat.
Definition sending (th : option (Thread DnsProxy Call Event unit)) : option (Sockaddr * option Z) :=
  th ← th;
  match calling th with
  | Some (SendTo p reply) => Some (p, rd16 reply 0)
  | _ => None
  end.
Example sample_sending_runs :
  sending (threads (proxy_pool sample_sending) !! 1%nat) = Some (sample_peer, Some 0x1234).
Proof. vm_compute. reflexivity. Qed.
(** A caller of [stop] waits for the threads, which all end. *)
Definition sample_stopping : list nat := sample_sending ++ replicate 4 9%nat.
Definition sample_stopped : list nat :=
  sample_stopping ++ replicate 20 0%nat ++ (seq 1 8 ≫= λ i, replicate 10 i) ++ replicate 10 9%nat.
Example sample_stop_runs :
  (running_ (shared (proxy_pool sample_stopping)), asleep <$> threads (proxy_pool sample_stopping) !! 9%nat,
   alive_ (shared (proxy_pool sample_stopped)), socket_ (shared (proxy_pool sample_stopped))) =
  (false, Some true, 0, false).
Proof. vm_compute. reflexivity. Qed.

Lemma proxy_reached schedule :
  proxy_reaches sample_pton4 sample_pton6 sample_ntop sample_ntop (str "w.example") (str "s3cret") 443 any_sender
    sample_resolver sample_registry 3 1 (proxy_pool schedule).
Proof.
  apply exec_reaches.
  - intros i. unfold proxy_clock, good_time. lia.
  - intros i [rq| |] r; cbn [proxy_net].
    + destruct (sample_net i rq) as [x|] eqn:Ex; [|done]. intros [= <-]. by eapply sample_net_ok.
    + intros [= <-]. case_if; [|done]. split; [|done]. by apply all_bytes_check.
    + by intros [= <-].
Qed.

Lemma proxy_sends_witness :
  match calling (default (mkThread Throw false) (threads (proxy_pool sample_sending) !! 1%nat)) with
  | Some (SendTo p reply) =>
      socket_ (shared (proxy_pool sample_sending)) = true /\
      exists q, any_sender q p /\ is_Some (endpoint sample_ntop sample_ntop p) /\ valid_reply q reply /\ reply <> []
  | _ => False
  end.
Proof.
  pose proof sample_sending_runs as Hrun. pose proof (proxy_reached sample_sending) as Hr.
  assert (Hl : threads (proxy_pool sample_sending) !! 1%nat =
    Some (default (mkThread Throw false) (threads (proxy_pool sample_sending) !! 1%nat))).
  { apply lookup_default. vm_compute. reflexivity. }
  rewrite Hl in Hrun. revert Hl Hr Hrun. generalize (default (mkThread Throw false) (threads (proxy_pool sample_sending) !! 1%nat)).
  generalize (proxy_pool sample_sending). intros c th Hl Hr Hrun.
  pose proof (proxy_sends sample_pton4 sample_pton6 sample_ntop sample_ntop (str "w.example") (str "s3cret") 443
    sample_pton4_len sample_pton6_len any_sender sample_boot 0 sample_registry 3 1 c 1 th Hr Hl) as (_ & _ & _ & _ & H).
  cbn [sending mbind option_bind] in Hrun. destruct (calling th) as [[| |p reply]|]; try done. by apply H.
Defined.

Lemma proxy_stops_witness :
  Forall finished (threads (proxy_pool sample_stopping)) \/
  exists c', pool_step good_time (event_ok any_sender) (proxy_pool sample_stopping) c'.
Proof.
  apply (proxy_stops sample_pton4 sample_pton6 sample_ntop sample_ntop (str "w.example") (str "s3cret") 443
    sample_pton4_len sample_pton6_len any_sender sample_boot 0 sample_registry 3 1).
  - exact (proxy_reached sample_stopping).
  - vm_compute. reflexivity.
Defined.

(** A question, half a question and a response, served at once. *)
Definition sample_datagrams : list (bytes * Z) := [(sample_query, 0); (take 20 sample_query, 0); (sample_reply, 0)].
Abbreviation replies_pool schedule :=
  (exec sample_clock sample_net schedule 0
     (launchReplies sample_pton4 sample_pton6 (str "w.example") (str "s3cret") 443 sample_resolver sample_datagrams)).
Definition sample_answering : list nat := replicate 30 0%nat ++ replicate 2 1%nat ++ replicate 2 2%nat.
Example sample_answering_runs :
  (λ th, match prog th with
         | Ret (_, m) => (zlen m, i_rcode <$> mjoin (inspectResponse m))
         | _ => (-1, None)
         end) <$> threads (replies_pool sample_answering) =
  [(49, Some 0); (12, Some 1); (0, None)].
Proof. vm_compute. reflexivity. Qed.

Lemma replies_valid_witness :
  match prog (default (mkThread Throw false) (threads (replies_pool sample_answering) !! 0%nat)) with
  | Ret (d, reply) => valid_reply d reply
  | Fault => False
  | _ => True
  end.
Proof.
  apply (replies_valid sample_pton4 sample_pton6 (str "w.example") (str "s3cret") 443
    sample_pton4_len sample_pton6_len sample_boot 0 sample_datagrams (replies_pool sample_answering) 0).
  - repeat (apply Forall_cons; split; [apply all_bytes_check; vm_compute; reflexivity |]). constructor.
  - apply exec_reaches.
    + intros i. unfold sample_clock, good_time. lia.
    + exact sample_net_ok.
  - apply lookup_default. vm_compute. reflexivity.
Defined.
