(* ===== verification/SocksHandshake.v ===== *)
(** * SocksHandshake: what a client of the local proxy asks for

    Models the handshakes of [src/src/SocksProxy.cpp]: [parsePort], [peerEndpoint],
    [recvExact], [recvLine], [socks5Handshake], [httpConnectHandshake] and [negotiate]. The
    client's side of a connection is a script of what [waitReadable] and [recv] return: data
    in chunks of any size, a close, or silence until the deadline; [recv] takes at most what
    it is asked for and leaves the rest of a chunk. What [::send] does in each call of
    [tcp::sendAll] is a script too. The bytes sent are recorded. *)

From S2P Require Import Prelude Containers Json TransparentFlow TcpConnect.

Module socks5.
Definition VERSION : Z := 5.
Definition AUTH_NONE : Z := 0.
Definition AUTH_REJECT : Z := 255.
Definition CMD_CONNECT : Z := 1.
Definition ATYP_IPV4 : Z := 1.
Definition ATYP_DOMAIN : Z := 3.
Definition ATYP_IPV6 : Z := 4.
Definition REP_SUCCESS : Z := 0.
Definition REP_CMD_NOT_SUPPORTED : Z := 7.
End socks5.

Definition kMaxHeaderLines : nat := 100.

(** ** The connection *)

Inductive Rx := RxData (chunk : bytes) | RxClosed | RxTimeout.
Record Conn := mkConn { rx : list Rx; tx : bytes; sends : list (list SendResult) }.

(** A computation on the connection; [None] is [return false]. *)
Definition IO (A : Type) : Type := Conn -> option A * Conn.
#[export] Instance io_ret : MRet IO := λ A a c, (Some a, c).
#[export] Instance io_bind : MBind IO := λ A B f m c,
  let '(o, c') := m c in match o with Some a => f a c' | None => (None, c') end.
Definition reject {A} : IO A := λ c, (None, c).
Definition guard' (b : bool) : IO unit := λ c, (if b then Some tt else None, c).

(** [recvExact]; an empty script is silence. *)
Fixpoint recvExact_loop (l : list Rx) (n : Z) (got : bytes) : option bytes * list Rx :=
  if n <=? 0 then (Some got, l) else
  match l with
  | RxData [] :: l => (None, l)
  | RxData d :: l =>
      if zlen d <=? n then recvExact_loop l (n - zlen d) (got ++ d)
      else (Some (got ++ take (Z.to_nat n) d), RxData (drop (Z.to_nat n) d) :: l)
  | _ :: l => (None, l)
  | [] => (None, [])
  end.
Definition recvExact (n : Z) : IO bytes := λ c,
  let '(o, l) := recvExact_loop (rx c) n [] in (o, mkConn l (tx c) (sends c)).
Definition recvByte : IO Z := b ← recvExact 1; match b with c :: _ => mret c | [] => reject end.

(** [recvLine]: every turn adds a byte, and a line of more than 8192 ends the loop. *)
Fixpoint recvLine_loop (fuel : nat) (line : bytes) : IO bytes :=
  match fuel with
  | O => reject
  | S f =>
      c ← recvByte;
      let line := line ++ [c] in
      if (2 <=? zlen line) && bool_decide (drop (length line - 2) line = [13; 10])
      then mret (take (length line - 2) line)
      else if 8192 <? zlen line then reject
      else recvLine_loop f line
  end.
Definition recvLine : IO bytes := recvLine_loop (Z.to_nat 8194) [].

(** [tcp::sendAll] and its return value. *)
Definition send (d : bytes) : IO unit := λ c,
  let '(out, r) := sendAll (default [] (head (sends c))) d in
  (if bool_decide (r = Some true) then Some tt else None, mkConn (rx c) (tx c ++ out) (tail (sends c))).

(** A [sendAll] whose return value is ignored. *)
Definition sendIgnored (d : bytes) : IO unit := λ c, (Some tt, (send d c).2).

(** [recv] with [MSG_PEEK]. *)
Definition peekByte : IO Z := λ c,
  (match rx c with RxData (b :: _) :: _ => Some b | _ => None end, c).

(** ** Targets *)

Definition parsePort (text : bytes) : option Z :=
  match from_chars (2 ^ 32 - 1) text with
  | Some (v, []) => if (v =? 0) || (65535 <? v) then None else Some v
  | _ => None
  end.

(** [rfind] of a character. *)
Definition rfind_char (s : bytes) (c : Z) : option nat :=
  match find_char (reverse s) c 0 with Some i => Some (length s - 1 - i)%nat | None => None end.

Section Negotiate.
Variable inet_ntop4 inet_ntop6 : bytes -> option bytes.

(** [peerEndpoint] after a successful [getpeername]. *)
Definition peerEndpoint (p : Sockaddr) : option (bytes * Z) :=
  match p with
  | SockIn a port => t ← inet_ntop4 a; if port =? 0 then None else Some (t, port)
  | SockIn6 a port =>
      t ← (if v4Mapped a then inet_ntop4 (drop 12 a) else inet_ntop6 a);
      if port =? 0 then None else Some (t, port)
  | SockOther => None
  end.

(** ** SOCKS5 *)

Definition formatIpv4 (b : bytes) : bytes :=
  match b with
  | [a; b; c; d] => to_string a ++ str "." ++ to_string b ++ str "." ++ to_string c ++ str "." ++ to_string d
  | _ => []
  end.

Definition socksReply (code : Z) : bytes := [socks5.VERSION; code; 0; socks5.ATYP_IPV4; 0; 0; 0; 0; 0; 0].

Definition socksAuth : IO unit :=
  header ← recvExact 2;
  match header with
  | [version; nMethods] =>
      _ ← guard' (version =? socks5.VERSION);
      _ ← guard' (negb (nMethods =? 0));
      methods ← recvExact nMethods;
      let hasNoAuth := bool_decide (socks5.AUTH_NONE ∈ methods) in
      _ ← send [socks5.VERSION; if hasNoAuth then socks5.AUTH_NONE else socks5.AUTH_REJECT];
      guard' hasNoAuth
  | _ => reject
  end.

(** The host of the request. [inet_ntop] has room for every IPv6 address, and the source
    does not look at its result: the branch where it fails is never taken. *)
Definition socksHost (atyp : Z) : IO bytes :=
  if atyp =? socks5.ATYP_IPV4 then ip ← recvExact 4; mret (formatIpv4 ip)
  else if atyp =? socks5.ATYP_DOMAIN then
    domainLen ← recvByte;
    _ ← guard' (negb (domainLen =? 0));
    recvExact domainLen
  else if atyp =? socks5.ATYP_IPV6 then
    ip ← recvExact 16; match inet_ntop6 ip with Some t => mret t | None => reject end
  else reject.

Definition socks5Handshake : IO (bytes * Z) :=
  _ ← socksAuth;
  req ← recvExact 4;
  match req with
  | [version; cmd; _; atyp] =>
      _ ← guard' (version =? socks5.VERSION);
      if negb (cmd =? socks5.CMD_CONNECT) then _ ← sendIgnored (socksReply socks5.REP_CMD_NOT_SUPPORTED); reject else
      host ← socksHost atyp;
      portBytes ← recvExact 2;
      match portBytes with
      | [hi; lo] =>
          let port := w16 (Z.lor (Z.shiftl hi 8) lo) in
          _ ← send (socksReply socks5.REP_SUCCESS);
          mret (host, port)
      | _ => reject
      end
  | _ => reject
  end.

(** ** HTTP CONNECT *)

Definition CRLF : bytes := [13; 10].
Definition methodNotAllowed : bytes :=
  str "HTTP/1.1 405 Method Not Allowed" ++ CRLF ++ str "Content-Length: 0" ++ CRLF ++
  str "Connection: close" ++ CRLF ++ CRLF.
Definition connectionEstablished : bytes := str "HTTP/1.1 200 Connection Established" ++ CRLF ++ CRLF.

(** The header loop: true when it ended at an empty line. *)
Fixpoint headerLines (n : nat) : IO bool := λ c,
  match n with
  | O => (Some false, c)
  | S n =>
      match recvLine c with
      | (None, c') => (Some false, c')
      | (Some [], c') => (Some true, c')
      | (Some _, c') => headerLines n c'
      end
  end.

Definition httpConnectHandshake : IO (bytes * Z) :=
  requestLine ← recvLine;
  _ ← guard' (negb (bool_decide (requestLine = [])));
  match find_char requestLine 32 0 with
  | None => reject
  | Some spacePos =>
      let method := take spacePos requestLine in
      if negb (bool_decide (method = str "CONNECT")) then
        _ ← headerLines kMaxHeaderLines;
        _ ← sendIgnored methodNotAllowed;
        reject
      else
      let afterMethod := drop (spacePos + 1) requestLine in
      let hostPort := match find_char afterMethod 32 0 with Some i => take i afterMethod | None => afterMethod end in
      match rfind_char hostPort 58 with
      | None => reject
      | Some colonPos =>
          let targetHost := take colonPos hostPort in
          _ ← guard' (negb (bool_decide (targetHost = [])));
          match parsePort (drop (colonPos + 1) hostPort) with
          | None => reject
          | Some port =>
              endOfHeaders ← headerLines kMaxHeaderLines;
              _ ← guard' endOfHeaders;
              _ ← send connectionEstablished;
              mret (targetHost, port)
          end
      end
  end.

(** ** negotiate *)

Record Negotiated := mkNegotiated {
  n_targetHost : bytes;
  n_targetPort : Z;
  n_originalAddress : bytes;
  n_connectPort : Z;
}.

(** Transparent mode: the flow registry decides, and no byte is read. *)
Definition negotiateTransparent (flows : FlowRegistry) (p : option Sockaddr) (tick : Z) : option Negotiated * FlowRegistry :=
  match p ≫= peerEndpoint with
  | None => (None, flows)
  | Some (address, port) =>
      match flow_claim flows address port 0 tick with
      | (Some t, flows') => (Some (mkNegotiated (t_address t) (targetPort t) (t_address t) (connectPort t)), flows')
      | (None, flows') => (None, flows')
      end
  end.

(** Manual mode: the first byte selects the protocol. *)
Definition negotiateManual : IO Negotiated :=
  firstByte ← peekByte;
  t ← (if firstByte =? socks5.VERSION then socks5Handshake
       else if (65 <=? firstByte) && (firstByte <=? 90) then httpConnectHandshake
       else reject);
  mret (mkNegotiated (fst t) (snd t) [] 0).
End Negotiate.

(** ** Lemmas: the stream behind the chunks *)

(** The bytes that can still be read. *)
Fixpoint flat (l : list Rx) : bytes :=
  match l with
  | RxData [] :: _ => []
  | RxData d :: l => d ++ flat l
  | _ => []
  end.

Lemma recvExact_loop_flat l n got :
  0 <= n ->
  match recvExact_loop l n got with
  | (Some b, l') => n <= zlen (flat l) /\ b = got ++ take (Z.to_nat n) (flat l) /\ flat l' = drop (Z.to_nat n) (flat l)
  | (None, _) => zlen (flat l) < n
  end.
Proof.
  revert n got. induction l as [|e l IH]; intros n got Hn; cbn [recvExact_loop]; (case_if; zbool).
  - assert (n = 0) as -> by lia. cbn [flat]. rewrite app_nil_r. by split_and!.
  - cbn [flat]. rewrite zlen_nil. lia.
  - assert (n = 0) as -> by lia. rewrite take_0, drop_0, app_nil_r. pose proof (zlen_nonneg (flat (e :: l))). by split_and!.
  - destruct e as [[|b d]| |]; try (cbn [flat]; rewrite zlen_nil; lia).
    cbn [flat]. set (d' := b :: d). pose proof (zlen_nonneg d'). case_if; zbool.
    + specialize (IH (n - zlen d') (got ++ d') ltac:(lia)). rewrite zlen_app.
      destruct (recvExact_loop l (n - zlen d') (got ++ d')) as [[o|] l']; [|lia].
      destruct IH as (H1 & -> & ->). split; [lia |]. unfold zlen in *.
      rewrite take_app_ge, drop_app_ge by lia. rewrite <- app_assoc.
      by replace (Z.to_nat n - length d')%nat with (Z.to_nat (n - Z.of_nat (length d'))) by lia.
    + pose proof (zlen_nonneg (flat l)). rewrite zlen_app. split; [lia |]. unfold zlen in *.
      rewrite take_app_le, drop_app_le by lia. split; [done |]. cbn [flat].
      destruct (drop (Z.to_nat n) d') as [|x y] eqn:Ed; [|done]. exfalso.
      apply (f_equal length) in Ed. rewrite length_drop, length_nil in Ed. lia.
Qed.

(** Two connections with the same bytes to read, the same bytes sent and the same sends to
    come, however the bytes are cut into chunks. *)
Definition same_conn (c c' : Conn) : Prop :=
  flat (rx c) = flat (rx c') /\ tx c = tx c' /\ sends c = sends c'.
Definition same_out (c c' : Conn) : Prop := tx c = tx c' /\ sends c = sends c'.

#[export] Instance same_conn_equiv : Equivalence same_conn.
Proof. split; [by intros c | intros c c' (? & ? & ?); by split_and! | intros c c' c'' (? & ? & ?) (? & ? & ?); split_and!; congruence]. Qed.

(** A computation that sees only the bytes, not the chunks. *)
Class Chunkless {A} (m : IO A) : Prop := chunkless c c' :
  same_conn c c' ->
  (m c).1 = (m c').1 /\ same_out (m c).2 (m c').2 /\ ((m c).1 <> None -> same_conn (m c).2 (m c').2).

(** A computation that reads nothing and refuses. *)
Class Refuses {A} (m : IO A) : Prop := refuses c c' :
  same_out c c' -> (m c).1 = None /\ (m c').1 = None /\ same_out (m c).2 (m c').2.

#[export] Instance refuses_chunkless {A} (m : IO A) : Refuses m -> Chunkless m.
Proof. intros Hm c c' (_ & H2). destruct (Hm c c' H2) as (-> & -> & Ho). by split_and!. Qed.

#[export] Instance reject_refuses {A} : Refuses (@reject A).
Proof. by intros c c' H. Qed.

#[export] Instance chunkless_ret {A} (a : A) : Chunkless (mret a).
Proof. intros c c' H. split_and!; try done; apply H. Qed.

#[export] Instance chunkless_guard b : Chunkless (guard' b).
Proof. intros c c' H. unfold guard'. split_and!; try done; apply H. Qed.

#[export] Instance chunkless_bind {A B} (m : IO A) (f : A -> IO B) :
  Chunkless m -> (forall a, Chunkless (f a)) -> Chunkless (m ≫= f).
Proof.
  intros Hm Hf c c' H. destruct (Hm c c' H) as (H1 & H2 & H3). unfold mbind, io_bind.
  destruct (m c) as [[a|] c1], (m c') as [[a'|] c1']; cbn [fst snd] in *; try done.
  injection H1 as <-. apply (Hf a). by apply H3.
Qed.

#[export] Instance chunkless_recvExact n : Chunkless (recvExact n).
Proof.
  intros c c' (Hf & Ht & Hs). unfold recvExact. destruct (decide (0 <= n)) as [Hn|Hn].
  2:{ destruct (rx c) as [|x l], (rx c') as [|x' l']; cbn [recvExact_loop]; rewrite (proj2 (Z.leb_le _ _)) by lia; by split_and!. }
  pose proof (recvExact_loop_flat (rx c) n [] Hn) as H1. pose proof (recvExact_loop_flat (rx c') n [] Hn) as H2.
  rewrite <- Hf in H2. destruct (recvExact_loop (rx c) n []) as [[b|] l], (recvExact_loop (rx c') n []) as [[b'|] l']; cbn [fst snd].
  - destruct H1 as (_ & -> & H1), H2 as (_ & -> & H2). split_and!; [done | done |]. intros _. split_and!; cbn; congruence.
  - lia.
  - lia.
  - by split_and!.
Qed.

#[export] Instance chunkless_recvByte : Chunkless recvByte.
Proof. unfold recvByte. apply chunkless_bind; [apply _ |]. intros [|b l]; apply _. Qed.

#[export] Instance chunkless_recvLine_loop fuel line : Chunkless (recvLine_loop fuel line).
Proof.
  revert line. induction fuel as [|f IH]; intros line; cbn [recvLine_loop]; [apply _ |].
  apply chunkless_bind; [apply _ |]. intros c. cbv zeta. repeat case_if; apply _.
Qed.
#[export] Instance chunkless_recvLine : Chunkless recvLine.
Proof. apply _. Qed.

#[export] Instance chunkless_send d : Chunkless (send d).
Proof.
  intros c c' (Hf & Ht & Hs). unfold send. rewrite Hs. destruct (sendAll _ _) as [out r]. cbn [fst snd]. unfold same_out, same_conn.
  cbn. rewrite Ht. by split_and!.
Qed.
#[export] Instance chunkless_peek : Chunkless peekByte.
Proof.
  intros c c' (Hf & Ht & Hs). unfold peekByte. cbn [fst snd].
  assert (Hp : forall l, match l with RxData (b :: _) :: _ => Some b | _ => None end = head (flat l)).
  { intros [|[[|b d]| |] l]; done. }
  rewrite !Hp, Hf. by split_and!.
Qed.
#[export] Instance refuses_after_send {A} d : Refuses (_ ← sendIgnored d; @reject A).
Proof.
  intros c c' (Ht & Hs). unfold mbind, io_bind, sendIgnored, reject, send. cbn [fst snd]. rewrite Hs.
  destruct (sendAll _ _) as [out r]. unfold same_out. cbn. by rewrite Ht.
Qed.
#[export] Instance refuses_guard {A} (k : unit -> IO A) : Refuses (_ ← guard' false; k ()).
Proof. by intros c c' H. Qed.

(** The header loop may stop in the middle of what was sent: then nothing more is read. *)
Lemma chunkless_headers {A} n (k : bool -> IO A) :
  Refuses (k false) -> Chunkless (k true) -> Chunkless (b ← headerLines n; k b).
Proof.
  intros Hr Hk. induction n as [|n IH]; intros c c' H; unfold mbind, io_bind; cbn [headerLines].
  { apply (refuses_chunkless (k false)); [done | exact H]. }
  destruct (chunkless_recvLine c c' H) as (H1 & H2 & H3).
  destruct (recvLine c) as [[l|] c1], (recvLine c') as [[l'|] c1']; cbn [fst snd] in *; try done.
  - injection H1 as <-. specialize (H3 ltac:(done)). destruct l; [by apply Hk | by apply IH].
  - destruct (Hr c1 c1' H2) as (-> & -> & Ho). by split_and!.
Qed.

(** ** Lemmas: reading and sending *)

Lemma io_bind_Some {A B} (m : IO A) (f : A -> IO B) c b c' :
  (m ≫= f) c = (Some b, c') -> exists a c1, m c = (Some a, c1) /\ f a c1 = (Some b, c').
Proof. unfold mbind, io_bind. destruct (m c) as [[a|] c1]; [|done]. by exists a, c1. Qed.

Lemma io_bind_eq {A B} (m : IO A) (f : A -> IO B) c a c1 : m c = (Some a, c1) -> (m ≫= f) c = f a c1.
Proof. unfold mbind, io_bind. by intros ->. Qed.

Lemma guard_Some b c x c' : guard' b c = (Some x, c') -> b = true /\ c' = c.
Proof. unfold guard'. by destruct b; intros [= _ <-]. Qed.

(** What was read is the front of the stream. *)
Lemma recvExact_Some n c b c' :
  0 <= n -> recvExact n c = (Some b, c') -> flat (rx c) = b ++ flat (rx c') /\ zlen b = n /\ same_out c c'.
Proof.
  intros Hn. unfold recvExact. pose proof (recvExact_loop_flat (rx c) n [] Hn) as H.
  destruct (recvExact_loop (rx c) n []) as [[o|] l]; [|done]. intros [= <- <-]. destruct H as (Hz & -> & Hl).
  cbn [app rx]. rewrite Hl, take_drop, zlen_take. split_and!; [done | lia | done].
Qed.

Lemma recvExact_eq c b rest :
  flat (rx c) = b ++ rest ->
  exists c', recvExact (zlen b) c = (Some b, c') /\ flat (rx c') = rest /\ same_out c c'.
Proof.
  intros Hf. unfold recvExact. pose proof (zlen_nonneg b) as Hn. pose proof (recvExact_loop_flat (rx c) (zlen b) [] Hn) as H.
  rewrite Hf in H. unfold zlen in *. rewrite Nat2Z.id, take_app_length, drop_app_length in H.
  destruct (recvExact_loop (rx c) _ []) as [[o|] l].
  - destruct H as (_ & -> & Hl). eexists. by split_and!.
  - rewrite length_app in H. lia.
Qed.

Lemma send_Some d c x c' : send d c = (Some x, c') -> rx c' = rx c /\ tx c' = tx c ++ d.
Proof.
  unfold send. destruct (sendAll _ d) as [out r] eqn:E. case_if; [|done]. zbool. intros [= _ <-]. cbn. split; [done |]. f_equal.
  by apply (sendAll_prefix _ _ _ _ E).
Qed.

(** The next call of [sendAll] takes everything. *)
Definition will_send (c : Conn) (d : bytes) : Prop := (sendAll (default [] (head (sends c))) d).2 = Some true.

Lemma send_eq d c : will_send c d -> send d c = (Some tt, mkConn (rx c) (tx c ++ d) (tail (sends c))).
Proof.
  unfold will_send, send. destruct (sendAll _ d) as [out r] eqn:E. cbn [snd]. intros ->.
  rewrite bool_decide_eq_true_2 by done. by destruct (sendAll_prefix _ _ _ _ E) as [_ ->].
Qed.

(** ** SOCKS5 on the wire *)

Inductive SocksTarget := TargetV4 (address : bytes) | TargetDomain (name : bytes) | TargetV6 (address : bytes).

Section Socks.
Variable inet_ntop6 : bytes -> option bytes.

Definition socks_text (t : SocksTarget) : option bytes :=
  match t with TargetV4 b => Some (formatIpv4 b) | TargetDomain d => Some d | TargetV6 b => inet_ntop6 b end.
Definition socks_target_ok (t : SocksTarget) : Prop :=
  match t with TargetV4 b => zlen b = 4 | TargetDomain d => 1 <= zlen d <= 255 | TargetV6 b => zlen b = 16 end.
Definition socks_address (t : SocksTarget) : bytes :=
  match t with
  | TargetV4 b => socks5.ATYP_IPV4 :: b
  | TargetDomain d => socks5.ATYP_DOMAIN :: zlen d :: d
  | TargetV6 b => socks5.ATYP_IPV6 :: b
  end.
(** What a client sends: its methods, then the request ([rsv] is not looked at). *)
Definition socks_client (methods : bytes) (rsv : Z) (t : SocksTarget) (port : Z) : bytes :=
  [socks5.VERSION; zlen methods] ++ methods ++ [socks5.VERSION; socks5.CMD_CONNECT; rsv] ++ socks_address t ++ be16 port.
Definition socks_methods_ok (methods : bytes) : Prop := 1 <= zlen methods <= 255 /\ socks5.AUTH_NONE ∈ methods.

Lemma socksAuth_Some c x c' :
  all_bytes (flat (rx c)) -> socksAuth c = (Some x, c') ->
  exists methods, socks_methods_ok methods /\ flat (rx c) = [socks5.VERSION; zlen methods] ++ methods ++ flat (rx c') /\
    tx c' = tx c ++ [socks5.VERSION; socks5.AUTH_NONE].
Proof.
  intros Hb Hr. unfold socksAuth in Hr. apply io_bind_Some in Hr as (header & c1 & H1 & Hr).
  apply recvExact_Some in H1 as (F1 & Z1 & [T1 _]); [|lia]. destruct header as [|version [|n [|? ?]]]; try done.
  apply io_bind_Some in Hr as (u & c2 & [Hv ->]%guard_Some & Hr). apply io_bind_Some in Hr as (u2 & c3 & [Hn ->]%guard_Some & Hr).
  zbool. rewrite F1 in Hb. apply all_bytes_app in Hb as [Hb _]. assert (Hnb : 0 <= n < 256) by (by apply Forall_cons in Hb as [_ [? _]%Forall_cons]).
  apply io_bind_Some in Hr as (methods & c4 & H4 & Hr). apply recvExact_Some in H4 as (F4 & Z4 & [T4 _]); [|lia].
  apply io_bind_Some in Hr as (u3 & c5 & [R5 T5]%send_Some & Hr). apply guard_Some in Hr as [Hm ->].
  rewrite Hm in T5. zbool. exists methods. subst version n. rewrite R5. split_and!; [split; [lia | done] | | congruence].
  by rewrite F1, F4.
Qed.

Lemma socksHost_Some atyp c host c' :
  all_bytes (flat (rx c)) -> socksHost inet_ntop6 atyp c = (Some host, c') ->
  exists t, socks_target_ok t /\ socks_text t = Some host /\ atyp :: flat (rx c) = socks_address t ++ flat (rx c') /\
    same_out c c'.
Proof.
  intros Hb. unfold socksHost. case_if; [|case_if; [|case_if; [|done]]]; zbool; subst atyp; intros Hr.
  - apply io_bind_Some in Hr as (ip & c1 & (F & Hz & Ho)%recvExact_Some & [= <- <-]); [|lia].
    exists (TargetV4 ip). by rewrite F.
  - apply io_bind_Some in Hr as (n & c1 & Hn & Hr). unfold recvByte in Hn.
    apply io_bind_Some in Hn as (l & c2 & (F2 & Z2 & Ho2)%recvExact_Some & Hn); [|lia].
    destruct l as [|n' [|z l]]; [done | | rewrite !zlen_cons in Z2; pose proof (zlen_nonneg l); lia].
    injection Hn as <- <-. apply io_bind_Some in Hr as (u & c3 & [Hnz ->]%guard_Some & Hr). zbool.
    rewrite F2 in Hb. apply all_bytes_app in Hb as [Hb _]. apply Forall_cons in Hb as [Hb _]. unfold is_byte in Hb.
    apply recvExact_Some in Hr as (F & Hz & Ho); [|lia]. exists (TargetDomain host).
    split_and!; [cbn; lia | done | by rewrite F2, F, <- Hz |]. destruct Ho, Ho2. split; congruence.
  - apply io_bind_Some in Hr as (ip & c1 & (F & Hz & Ho)%recvExact_Some & Hr); [|lia].
    destruct (inet_ntop6 ip) as [t|] eqn:Et; [|done]. injection Hr as <- <-. exists (TargetV6 ip). by rewrite F.
Qed.

Lemma be16_of_bytes hi lo : is_byte hi -> is_byte lo -> be16 (w16 (Z.lor (Z.shiftl hi 8) lo)) = [hi; lo].
Proof. intros Hh Hl. symmetry. apply (slice_be16 [hi; lo] 0); [|done]. by apply Forall_cons; split; [|apply Forall_cons; split]. Qed.

Lemma socks5_sound c host port c' :
  all_bytes (flat (rx c)) -> socks5Handshake inet_ntop6 c = (Some (host, port), c') ->
  exists methods rsv t, socks_methods_ok methods /\ socks_target_ok t /\ socks_text t = Some host /\ 0 <= port < 65536 /\
    flat (rx c) = socks_client methods rsv t port ++ flat (rx c') /\
    tx c' = tx c ++ [socks5.VERSION; socks5.AUTH_NONE] ++ socksReply socks5.REP_SUCCESS.
Proof.
  intros Hb Hr. unfold socks5Handshake in Hr. apply io_bind_Some in Hr as (u & c1 & H1 & Hr).
  destruct (socksAuth_Some _ _ _ Hb H1) as (methods & Hm & F1 & T1). rewrite F1 in Hb.
  apply all_bytes_app in Hb as [_ [_ Hb]%all_bytes_app].
  apply io_bind_Some in Hr as (req & c2 & H2 & Hr). apply recvExact_Some in H2 as (F2 & Z2 & [T2 _]); [|lia].
  destruct req as [|version [|cmd [|rsv [|atyp [|? ?]]]]]; try done.
  apply io_bind_Some in Hr as (u2 & c3 & [Hv ->]%guard_Some & Hr). zbool. subst version.
  rewrite F2 in Hb. apply all_bytes_app in Hb as [_ Hb].
  destruct (cmd =? socks5.CMD_CONNECT) eqn:Ec; cbn [negb] in Hr.
  2:{ apply io_bind_Some in Hr as (? & ? & _ & Hr). done. }
  zbool. subst cmd. apply io_bind_Some in Hr as (host' & c4 & H4 & Hr).
  destruct (socksHost_Some _ _ _ _ Hb H4) as (t & Ht & Hx & F4 & [T4 _]).
  assert (Hb4 : all_bytes (flat (rx c4))).
  { destruct t; cbn [socks_address] in F4; injection F4 as _ F4; rewrite F4 in Hb.
    - by apply all_bytes_app in Hb as [_ ?].
    - by apply Forall_cons in Hb as [_ [_ ?]%all_bytes_app].
    - by apply all_bytes_app in Hb as [_ ?]. }
  apply io_bind_Some in Hr as (pb & c5 & H5 & Hr). apply recvExact_Some in H5 as (F5 & Z5 & [T5 _]); [|lia].
  destruct pb as [|hi [|lo [|? ?]]]; try done. rewrite F5 in Hb4. apply all_bytes_app in Hb4 as [Hb4 _].
  apply Forall_cons in Hb4 as [Hhi [Hlo _]%Forall_cons].
  apply io_bind_Some in Hr as (u3 & c6 & [R6 T6]%send_Some & Hr). injection Hr as <- <- <-.
  exists methods, rsv, t. split_and!; try done; try apply w16_range.
  - rewrite F1, F2, R6. unfold socks_client. rewrite be16_of_bytes by done. cbn [app] in F4 |- *.
    rewrite F4, F5, <- !app_assoc. cbn [app]. by rewrite <- !app_assoc.
  - rewrite T6, <- T5, <- T4, <- T2, T1, <- app_assoc. done.
Qed.

(** One more step of a computation that succeeds. *)
Lemma recv_step {A} n b rest (f : bytes -> IO A) c :
  flat (rx c) = b ++ rest -> zlen b = n ->
  exists c', (recvExact n ≫= f) c = f b c' /\ flat (rx c') = rest /\ same_out c c'.
Proof. intros Hf <-. destruct (recvExact_eq c b rest Hf) as (c' & Hr & ? & ?). exists c'. by rewrite (io_bind_eq _ _ _ _ _ Hr). Qed.

Ltac recv_next n b H c1 F T S :=
  match goal with |- context [ (recvExact n ≫= ?f) ?c ] =>
    destruct (recv_step n b _ f c H) as (c1 & -> & F & [T S]); [done |] end.

Lemma socksAuth_eq c methods rest :
  socks_methods_ok methods -> flat (rx c) = [socks5.VERSION; zlen methods] ++ methods ++ rest ->
  will_send c [socks5.VERSION; socks5.AUTH_NONE] ->
  exists c', socksAuth c = (Some tt, c') /\ flat (rx c') = rest /\
    tx c' = tx c ++ [socks5.VERSION; socks5.AUTH_NONE] /\ sends c' = tail (sends c).
Proof.
  intros [Hz Hm] Hf Hw. unfold socksAuth.
  recv_next 2 [socks5.VERSION; zlen methods] Hf c1 F1 T1 S1. cbv beta iota.
  rewrite (io_bind_eq _ _ c1 tt c1) by done. rewrite (io_bind_eq _ _ c1 tt c1).
  2:{ unfold guard'. by rewrite (proj2 (Z.eqb_neq _ _)) by lia. }
  recv_next (zlen methods) methods F1 c2 F2 T2 S2. cbv zeta.
  rewrite bool_decide_eq_true_2 by done. unfold will_send in Hw. rewrite S1, S2 in Hw.
  rewrite (io_bind_eq _ _ _ _ _ (send_eq _ c2 Hw)). eexists. split; [done |]. cbn [rx tx sends].
  split_and!; [done | congruence | congruence].
Qed.

Lemma socksHost_eq c t host rest atyp :
  socks_target_ok t -> socks_text t = Some host -> atyp :: flat (rx c) = socks_address t ++ rest ->
  exists c', socksHost inet_ntop6 atyp c = (Some host, c') /\ flat (rx c') = rest /\ same_out c c'.
Proof.
  intros Hok Ht Hf. destruct t as [b|d|b]; cbn [socks_address app] in Hf; injection Hf as -> Hf; cbn in Hok, Ht.
  - injection Ht as <-. unfold socksHost. cbn [Z.eqb]. change (socks5.ATYP_IPV4 =? socks5.ATYP_IPV4) with true. cbv iota.
    recv_next 4 b Hf c1 F1 T1 S1. by exists c1.
  - injection Ht as <-. change (socksHost inet_ntop6 socks5.ATYP_DOMAIN) with
      (domainLen ← recvByte; _ ← guard' (negb (domainLen =? 0)); recvExact domainLen).
    destruct (recvExact_eq c [zlen d] (d ++ rest) Hf) as (c1 & Hr & F1 & [T1 S1]).
    assert (Hrb : recvByte c = (Some (zlen d), c1)) by (unfold recvByte; by rewrite (io_bind_eq _ _ _ _ _ Hr)).
    rewrite (io_bind_eq _ _ _ _ _ Hrb), (io_bind_eq _ _ c1 tt c1).
    2:{ unfold guard'. by rewrite (proj2 (Z.eqb_neq _ _)) by lia. }
    destruct (recvExact_eq c1 d rest F1) as (c2 & -> & F2 & [T2 S2]). exists c2. split_and!; [done | done |]. split; congruence.
  - change (socksHost inet_ntop6 socks5.ATYP_IPV6) with
      (ip ← recvExact 16; match inet_ntop6 ip with Some t => mret t | None => reject end).
    recv_next 16 b Hf c1 F1 T1 S1. rewrite Ht. by exists c1.
Qed.

Lemma socks5_complete c methods rsv t port host rest s1 s2 ss :
  socks_methods_ok methods -> socks_target_ok t -> socks_text t = Some host -> 0 <= port < 65536 ->
  flat (rx c) = socks_client methods rsv t port ++ rest -> sends c = s1 :: s2 :: ss ->
  (sendAll s1 [socks5.VERSION; socks5.AUTH_NONE]).2 = Some true -> (sendAll s2 (socksReply socks5.REP_SUCCESS)).2 = Some true ->
  exists c', socks5Handshake inet_ntop6 c = (Some (host, port), c') /\ flat (rx c') = rest /\ sends c' = ss /\
    tx c' = tx c ++ [socks5.VERSION; socks5.AUTH_NONE] ++ socksReply socks5.REP_SUCCESS.
Proof.
  intros Hm Ht Hx Hp Hf Hs W1 W2. unfold socks_client in Hf. rewrite <- !app_assoc in Hf.
  destruct (socksAuth_eq c methods _ Hm Hf) as (c1 & H1 & F1 & T1 & S1); [by unfold will_send; rewrite Hs |].
  unfold socks5Handshake. rewrite (io_bind_eq _ _ _ _ _ H1).
  assert (Hat : exists atyp ta, socks_address t = atyp :: ta) by (by destruct t; eexists _, _). destruct Hat as (atyp & ta & Hat).
  rewrite Hat in F1. recv_next 4 [socks5.VERSION; socks5.CMD_CONNECT; rsv; atyp] F1 c2 F2 T2 S2. cbv beta iota. rewrite (io_bind_eq _ _ c2 tt c2) by done.
  change (negb (socks5.CMD_CONNECT =? socks5.CMD_CONNECT)) with false. cbv iota.
  destruct (socksHost_eq c2 t host (be16 port ++ rest) atyp Ht Hx) as (c3 & H3 & F3 & [T3 S3]); [by rewrite F2, Hat |].
  rewrite (io_bind_eq _ _ _ _ _ H3).
  recv_next 2 (be16 port) F3 c4 F4 T4 S4. unfold be16 at 1. cbv beta iota zeta.
  rewrite (io_bind_eq _ _ _ _ _ (send_eq (socksReply socks5.REP_SUCCESS) c4 ltac:(unfold will_send; by rewrite <- S4, <- S3, <- S2, S1, Hs))).
  pose proof (rd16_be16 port [] Hp) as Hport. unfold rd16, be16 in Hport. cbn in Hport. injection Hport as Hport.
  eexists. rewrite Hport. cbn [rx tx sends]. split_and!; [done | done | by rewrite <- S4, <- S3, <- S2, S1, Hs |].
  by rewrite <- T4, <- T3, <- T2, T1, <- app_assoc.
Qed.
End Socks.

(** ** Lines *)

(** A line that fits: no carriage return, at most 8191 bytes. *)
Definition clean_line (l : bytes) : Prop := (13 ∉ l) /\ zlen l <= 8191.

Lemma recvByte_eq c b rest :
  flat (rx c) = b :: rest -> exists c', recvByte c = (Some b, c') /\ flat (rx c') = rest /\ same_out c c'.
Proof.
  intros Hf. destruct (recvExact_eq c [b] rest Hf) as (c' & Hr & F & O). exists c'.
  unfold recvByte. change (zlen [b]) with 1 in Hr. by rewrite (io_bind_eq _ _ _ _ _ Hr).
Qed.

Lemma not_crlf (acc : bytes) b : 13 ∉ acc -> drop (length (acc ++ [b]) - 2) (acc ++ [b]) <> CRLF.
Proof.
  intros Hacc Heq. pose proof (take_drop (length (acc ++ [b]) - 2) (acc ++ [b])) as Hs. rewrite Heq in Hs.
  unfold CRLF in Hs. rewrite (app_assoc _ [13] [10] : take _ _ ++ [13; 10] = (take _ _ ++ [13]) ++ [10]) in Hs.
  apply app_inj_tail in Hs as [Hs _]. apply Hacc. rewrite <- Hs. apply elem_of_app. right. by apply list_elem_of_singleton.
Qed.

Lemma recvLine_loop_eq todo fuel acc c rest :
  flat (rx c) = todo ++ CRLF ++ rest -> 13 ∉ acc -> 13 ∉ todo -> zlen (acc ++ todo) <= 8191 ->
  (length todo + 1 < fuel)%nat ->
  exists c', recvLine_loop fuel acc c = (Some (acc ++ todo), c') /\ flat (rx c') = rest /\ same_out c c'.
Proof.
  revert fuel acc c. induction todo as [|b todo IH]; intros fuel acc c Hf Ha Ht Hz Hfu; (destruct fuel as [|f]; [lia |]); cbn [recvLine_loop].
  - destruct (recvByte_eq c 13 (10 :: rest) Hf) as (c1 & H1 & F1 & [T1 S1]). rewrite (io_bind_eq _ _ _ _ _ H1). cbv zeta.
    rewrite (bool_decide_eq_false_2 _ (not_crlf acc 13 Ha)), andb_false_r.
    rewrite app_nil_r in Hz |- *. rewrite (proj2 (Z.ltb_ge 8192 (zlen (acc ++ [13])))) by (rewrite zlen_app; change (zlen [13]) with 1; lia).
    destruct f as [|f]; [simpl in Hfu; lia |]. cbn [recvLine_loop].
    destruct (recvByte_eq c1 10 rest F1) as (c2 & H2 & F2 & [T2 S2]). rewrite (io_bind_eq _ _ _ _ _ H2). cbv zeta.
    rewrite <- !app_assoc. cbn [app]. pose proof (zlen_nonneg acc).
    rewrite (proj2 (Z.leb_le 2 (zlen (acc ++ [13; 10])))) by (rewrite zlen_app; change (zlen [13; 10]) with 2; lia).
    replace (length (acc ++ [13; 10]%Z) - 2)%nat with (length acc) by (rewrite length_app; simpl; lia).
    rewrite drop_app_length, take_app_length, bool_decide_eq_true_2 by done. exists c2. split_and!; [done | done |]. split; congruence.
  - destruct (recvByte_eq c b (todo ++ CRLF ++ rest) Hf) as (c1 & H1 & F1 & [T1 S1]). rewrite (io_bind_eq _ _ _ _ _ H1). cbv zeta.
    rewrite not_elem_of_cons in Ht. destruct Ht as [Hb Ht].
    rewrite (bool_decide_eq_false_2 _ (not_crlf acc b Ha)), andb_false_r.
    rewrite zlen_app, zlen_cons in Hz. pose proof (zlen_nonneg todo).
    rewrite (proj2 (Z.ltb_ge 8192 (zlen (acc ++ [b])))) by (rewrite zlen_app; change (zlen [b]) with 1; lia).
    destruct (IH f (acc ++ [b]) c1) as (c2 & H2 & F2 & [T2 S2]); [done | | done | | simpl in Hfu; lia |].
    + rewrite not_elem_of_app, list_elem_of_singleton. auto.
    + rewrite !zlen_app. change (zlen [b]) with 1. lia.
    + rewrite H2. exists c2. rewrite <- app_assoc. split_and!; [done | done |]. split; congruence.
Qed.

Lemma recvLine_eq l c rest :
  clean_line l -> flat (rx c) = l ++ CRLF ++ rest ->
  exists c', recvLine c = (Some l, c') /\ flat (rx c') = rest /\ same_out c c'.
Proof.
  intros [Hl Hz] Hf. apply (recvLine_loop_eq l); try done; [apply not_elem_of_nil |]. unfold zlen in Hz.
  assert (H : (length l <= Z.to_nat 8191)%nat) by lia. replace (Z.to_nat 8194) with (Z.to_nat 8191 + 3)%nat by done. lia.
Qed.

Lemma headerLines_eq n hs c rest :
  Forall (λ h, clean_line h /\ h <> []) hs -> (length hs < n)%nat ->
  flat (rx c) = (hs ≫= λ h, h ++ CRLF) ++ CRLF ++ rest ->
  exists c', headerLines n c = (Some true, c') /\ flat (rx c') = rest /\ same_out c c'.
Proof.
  intros Hhs. revert n c. induction Hhs as [|h hs [Hc Hne] _ IH]; intros n c Hn Hf; (destruct n as [|n]; [simpl in Hn; lia |]); cbn [headerLines].
  - destruct (recvLine_eq [] c rest) as (c1 & -> & F1 & O1); [split; [apply not_elem_of_nil | done] | done |]. by exists c1.
  - rewrite bind_cons, <- !app_assoc in Hf. destruct (recvLine_eq h c _ Hc Hf) as (c1 & -> & F1 & [T1 S1]).
    destruct h as [|x h]; [done |]. destruct (IH n c1) as (c2 & -> & F2 & [T2 S2]); [simpl in Hn; lia | done |].
    exists c2. split_and!; [done | done |]. split; congruence.
Qed.

(** ** CONNECT requests *)

Lemma find_char_here (a b : bytes) c : c ∉ a -> find_char (a ++ c :: b) c 0 = Some (length a).
Proof.
  intros Ha. unfold find_char. rewrite drop_0.
  assert (H : list_find (λ x, x = c) (a ++ c :: b) = Some (length a, c)); [|by rewrite H].
  apply list_find_Some. split_and!; [by rewrite list_lookup_middle | done |].
  intros j x Hj Hlt ->. rewrite lookup_app_l in Hj by done. apply Ha. by eapply list_elem_of_lookup_2.
Qed.

Lemma find_char_none (a : bytes) c : c ∉ a -> find_char a c 0 = None.
Proof.
  intros Ha. unfold find_char. rewrite drop_0. destruct (list_find _ a) as [[i x]|] eqn:E; [|done].
  apply list_find_Some in E as (Hi & -> & _). exfalso. apply Ha. by eapply list_elem_of_lookup_2.
Qed.

Lemma rfind_char_last (a b : bytes) c : c ∉ b -> rfind_char (a ++ c :: b) c = Some (length a).
Proof.
  intros Hb. unfold rfind_char. rewrite reverse_app, reverse_cons, <- app_assoc. cbn [app].
  rewrite find_char_here by (by rewrite elem_of_reverse). f_equal. rewrite length_app, length_reverse. simpl. lia.
Qed.

Lemma digits_free n c : 0 <= n < 2 ^ 64 -> isdigit c = false -> c ∉ to_string n.
Proof.
  intros Hn Hc Hin. destruct (to_string_spec n Hn) as (Hd & _). rewrite Forall_forall in Hd. apply Hd in Hin. congruence.
Qed.

Lemma parsePort_to_string p : 1 <= p <= 65535 -> parsePort (to_string p) = Some p.
Proof.
  intros Hp. unfold parsePort. rewrite <- (app_nil_r (to_string p)), from_chars_to_string by (done || lia).
  rewrite (proj2 (Z.eqb_neq p 0)), (proj2 (Z.ltb_ge 65535 p)) by lia. done.
Qed.

(** A request line, its headers and the empty line; [version] is what follows the target. *)
Definition connect_line (host : bytes) (port : Z) (version : option bytes) : bytes :=
  str "CONNECT " ++ host ++ str ":" ++ to_string port ++ match version with Some v => 32 :: v | None => [] end.
Definition connect_request (host : bytes) (port : Z) (version : option bytes) (hs : list bytes) : bytes :=
  connect_line host port version ++ CRLF ++ (hs ≫= λ h, h ++ CRLF) ++ CRLF.

Lemma http_complete c host port version hs rest s1 ss :
  host <> [] -> 32 ∉ host -> 1 <= port <= 65535 -> clean_line (connect_line host port version) ->
  Forall (λ h, clean_line h /\ h <> []) hs -> (length hs < kMaxHeaderLines)%nat ->
  flat (rx c) = connect_request host port version hs ++ rest -> sends c = s1 :: ss ->
  (sendAll s1 connectionEstablished).2 = Some true ->
  exists c', httpConnectHandshake c = (Some (host, port), c') /\ flat (rx c') = rest /\ sends c' = ss /\
    tx c' = tx c ++ connectionEstablished.
Proof.
  intros Hne Hsp Hp Hclean Hhs Hn Hf Hs Hw. unfold connect_request in Hf. rewrite <- !app_assoc in Hf.
  destruct (recvLine_eq _ c _ Hclean Hf) as (c1 & H1 & F1 & [T1 S1]). unfold httpConnectHandshake.
  rewrite (io_bind_eq _ _ _ _ _ H1), (io_bind_eq _ _ c1 tt c1) by done.
  assert (Hline : connect_line host port version = str "CONNECT" ++ 32 :: (host ++ str ":" ++ to_string port ++
    match version with Some v => 32 :: v | None => [] end)) by done.
  set (after := host ++ str ":" ++ to_string port ++ _) in Hline. 
  rewrite Hline, find_char_here by (apply (bool_decide_eq_false_1 (32 ∈ str _)); by vm_compute).
  rewrite take_app_length, bool_decide_eq_true_2 by done. cbn [negb]. cbv zeta.
  replace (drop (length (str "CONNECT") + 1) (str "CONNECT" ++ 32 :: after)) with after by done.
  assert (Hhp : match find_char after 32 0 with Some i => take i after | None => after end = host ++ 58 :: to_string port).
  { assert (Hfree : 32 ∉ host ++ 58 :: to_string port).
    { rewrite not_elem_of_app, not_elem_of_cons. split_and!; [done | done |]. apply digits_free; [lia | done]. }
    unfold after. change (str ":") with [58]. cbn [app]. destruct version as [v|].
    - rewrite (app_comm_cons (to_string port)), app_assoc, find_char_here by done. apply take_app_length.
    - rewrite app_nil_r, find_char_none; done. }
  rewrite Hhp, rfind_char_last by (apply digits_free; [lia | done]). rewrite take_app_length.
  rewrite (io_bind_eq _ _ c1 tt c1) by (unfold guard'; by rewrite bool_decide_eq_false_2).
  rewrite drop_app_ge by lia. replace (length host + 1 - length host)%nat with 1%nat by lia. cbn [drop]. rewrite drop_0.
  rewrite parsePort_to_string by done.
  destruct (headerLines_eq kMaxHeaderLines hs c1 rest Hhs Hn F1) as (c2 & H2 & F2 & [T2 S2]).
  rewrite (io_bind_eq _ _ _ _ _ H2), (io_bind_eq _ _ c2 tt c2) by done.
  rewrite (io_bind_eq _ _ _ _ _ (send_eq connectionEstablished c2 ltac:(unfold will_send; by rewrite <- S2, <- S1, Hs))).
  eexists. cbn [rx tx sends]. split_and!; [done | done | by rewrite <- S2, <- S1, Hs | by rewrite T1, T2].
Qed.

(** ** Properties *)

(** Solves [Chunkless] goals by the structure of the computation. *)
Ltac chunkless_step :=
  first [ apply _ | apply chunkless_headers | apply chunkless_bind; [| intros] | case_match ].

#[export] Instance chunkless_socksAuth : Chunkless socksAuth.
Proof. unfold socksAuth. repeat chunkless_step. Qed.
#[export] Instance chunkless_socksHost ntop6 atyp : Chunkless (socksHost ntop6 atyp).
Proof. unfold socksHost. repeat chunkless_step. Qed.
#[export] Instance chunkless_socks5 ntop6 : Chunkless (socks5Handshake ntop6).
Proof. unfold socks5Handshake. repeat chunkless_step. Qed.
#[export] Instance chunkless_http : Chunkless httpConnectHandshake.
Proof. unfold httpConnectHandshake. cbv zeta. repeat chunkless_step. Qed.

(** The negotiation sees the bytes, not the packets: however the network cuts what the
    client sends into chunks, [negotiate] accepts or refuses alike, finds the same target,
    sends the same replies and leaves the same bytes unread for the relay. *)
Theorem negotiate_chunkless (inet_ntop6 : bytes -> option bytes) (c c' : Conn) :
  same_conn c c' ->
  let '(o, d) := negotiateManual inet_ntop6 c in
  let '(o', d') := negotiateManual inet_ntop6 c' in
  o = o' /\ tx d = tx d' /\ (o <> None -> flat (rx d) = flat (rx d')).
Proof.
  intros H. assert (Hm : Chunkless (negotiateManual inet_ntop6)) by (unfold negotiateManual; repeat chunkless_step).
  destruct (Hm c c' H) as (H1 & [H2 _] & H3).
  destruct (negotiateManual inet_ntop6 c) as [o d], (negotiateManual inet_ntop6 c') as [o' d']. cbn [fst snd] in *.
  split_and!; [done | done |]. intros Ho. by apply H3.
Qed.

(** C17: The SOCKS5 handshake is exact. It succeeds only on a client that offers "no
    authentication" and then asks to connect to an IPv4 address, an IPv6 address or a name
    of 1 to 255 bytes, and returns exactly that address and port; on every such client it
    does succeed when the two replies can be sent; the replies are then the chosen method and
    the success record, and not a byte beyond the request is consumed. *)
Theorem socks5_exact (inet_ntop6 : bytes -> option bytes) (c : Conn) (host : bytes) (port : Z) :
  all_bytes (flat (rx c)) ->
  (forall c', socks5Handshake inet_ntop6 c = (Some (host, port), c') ->
     exists methods rsv t, socks_methods_ok methods /\ socks_target_ok t /\ socks_text inet_ntop6 t = Some host /\
       0 <= port < 65536 /\ flat (rx c) = socks_client methods rsv t port ++ flat (rx c') /\
       tx c' = tx c ++ [socks5.VERSION; socks5.AUTH_NONE] ++ socksReply socks5.REP_SUCCESS) /\
  (forall methods rsv t rest s1 s2 ss,
     socks_methods_ok methods -> socks_target_ok t -> socks_text inet_ntop6 t = Some host -> 0 <= port < 65536 ->
     flat (rx c) = socks_client methods rsv t port ++ rest -> sends c = s1 :: s2 :: ss ->
     (sendAll s1 [socks5.VERSION; socks5.AUTH_NONE]).2 = Some true ->
     (sendAll s2 (socksReply socks5.REP_SUCCESS)).2 = Some true ->
     exists c', socks5Handshake inet_ntop6 c = (Some (host, port), c') /\ flat (rx c') = rest).
Proof.
  intros Hb. split; [intros c' Hr; by apply socks5_sound |]. intros methods rsv t rest s1 s2 ss Hm Ht Hx Hp Hf Hs W1 W2.
  destruct (socks5_complete inet_ntop6 c methods rsv t port host rest s1 s2 ss) as (c' & ? & ? & _); try done. by exists c'.
Qed.

(** A CONNECT request is understood as it was written: for every host without spaces,
    every port from 1 to 65535, any text after the target and up to 99 header lines of at
    most 8191 bytes, the handshake returns that host and port, answers 200 and leaves what
    follows the request, such as the first TLS record, unread. *)
Theorem connect_roundtrip (c : Conn) (host : bytes) (port : Z) (version : option bytes) (hs : list bytes)
    (rest : bytes) (s1 : list SendResult) (ss : list (list SendResult)) :
  host <> [] -> 32 ∉ host -> 1 <= port <= 65535 -> clean_line (connect_line host port version) ->
  Forall (λ h, clean_line h /\ h <> []) hs -> (length hs < kMaxHeaderLines)%nat ->
  flat (rx c) = connect_request host port version hs ++ rest -> sends c = s1 :: ss ->
  (sendAll s1 connectionEstablished).2 = Some true ->
  exists c', negotiateManual (λ _, None) c = (Some (mkNegotiated host port [] 0), c') /\ flat (rx c') = rest /\
    tx c' = tx c ++ connectionEstablished.
Proof.
  intros Hne Hsp Hp Hcl Hhs Hn Hf Hs Hw.
  destruct (http_complete c host port version hs rest s1 ss) as (c' & Hc & Hr & _ & Ht); try done. exists c'.
  split_and!; [|done | done]. unfold negotiateManual.
  assert (Hpeek : peekByte c = (Some 67, c)).
  { unfold peekByte, connect_request, connect_line in *. destruct (rx c) as [|[[|b d]| |] l]; cbn in Hf; try done.
    by injection Hf as ->. }
  rewrite (io_bind_eq _ _ _ _ _ Hpeek). cbn [Z.eqb Z.leb andb]. change (67 =? socks5.VERSION) with false. cbv iota.
  by rewrite (io_bind_eq _ _ _ _ _ Hc).
Qed.

(** In transparent mode the proxy is not an open proxy. Over every history of the flow
    registry, a connection is given a target only if its peer address and port were
    observed on an outgoing SYN less than 15 seconds before, that observation has not been
    used, replaced or cleared since, and the target and port are the ones that observation
    recorded. *)
Theorem transparent_authorised `{!MapOrder bytes} (inet_ntop4 inet_ntop6 : bytes -> option bytes) (ops : list FlowOp)
    (peer : option Sockaddr) (tick : Z) (n : Negotiated) :
  Forall flow_op_ok ops -> (forall p a port, peer = Some p -> peerEndpoint inet_ntop4 inet_ntop6 p = Some (a, port) -> 0 <= port < 65536) ->
  (negotiateTransparent inet_ntop4 inet_ntop6 (foldl flow_run newFlowRegistry ops) peer tick).1 = Some n ->
  exists p port pre t cp now0 tick0 post,
    peer = Some p /\ peerEndpoint inet_ntop4 inet_ntop6 p = Some (n_targetHost n, port) /\
    ops = pre ++ FObserve (n_targetHost n) port t cp now0 tick0 :: post /\
    n = mkNegotiated (n_targetHost n) t (n_targetHost n) cp /\
    tick < clockMs now0 tick0 + kPendingFlowTtlMs /\ Forall (λ op, ~ flow_uses (n_targetHost n) port op) post.
Proof.
  intros Hok Hport. unfold negotiateTransparent. destruct peer as [p|]; [|done]. cbn [mbind option_bind].
  destruct (peerEndpoint _ _ p) as [[a port]|] eqn:Ep; [|done]. specialize (Hport p a port eq_refl Ep).
  destruct (flow_claim _ a port 0 tick) as [[tg|] r'] eqn:Ec; [|done]. intros [= <-].
  destruct (flow_claim_authorised ops a port 0 tick tg Hok Hport) as (pre & t & cp & now0 & tick0 & post & Hops & -> & Ht & Hu);
    [by rewrite Ec |]. cbn [n_targetHost t_address]. exists p, port, pre, t, cp, now0, tick0, post. by split_and!.
Qed.

(** ** Concrete handshakes *)

(** A client that offers two methods, asks for [a.bc:443] and goes on at once. *)
Definition sample_socks : bytes := socks_client [2; 0] 0 (TargetDomain (str "a.bc")) 443 ++ [22; 3; 1].
Definition sample_whole : Conn := mkConn [RxData sample_socks] [] [[Sent 2]; [Sent 10]].
Definition sample_cut : Conn := mkConn ((λ b, RxData [b]) <$> sample_socks) [] [[Sent 2]; [Sent 10]].

Example sample_cut_runs :
  (negotiateManual (λ _, None) sample_cut).1 = Some (mkNegotiated (str "a.bc") 443 [] 0) /\
  tx (negotiateManual (λ _, None) sample_cut).2 = [5; 0; 5; 0; 0; 1; 0; 0; 0; 0; 0; 0].
Proof. vm_compute. done. Qed.

(** A request in two chunks, with one header and the first bytes of a TLS record. *)
Definition sample_connect : bytes :=
  connect_request (str "a.bc") 443 (Some (str "HTTP/1.1")) [str "Host: a.bc"] ++ [22; 3; 1].
Definition sample_http : Conn :=
  mkConn [RxData (take 9 sample_connect); RxData (drop 9 sample_connect)] [] [[Sent 20; Sent 100]].

Example sample_get_refused :
  let c := mkConn [RxData (str "GET / HTTP/1.1" ++ CRLF ++ CRLF)] [] [[Sent 1000]] in
  (negotiateManual (λ _, None) c).1 = None /\ tx (negotiateManual (λ _, None) c).2 = methodNotAllowed.
Proof. vm_compute. done. Qed.

Lemma negotiate_chunkless_witness :
  let '(o, d) := negotiateManual (λ _, None) sample_whole in
  let '(o', d') := negotiateManual (λ _, None) sample_cut in
  o = o' /\ tx d = tx d' /\ (o <> None -> flat (rx d) = flat (rx d')).
Proof. apply (negotiate_chunkless (λ _, None) sample_whole sample_cut). vm_compute. split; [|split]; reflexivity. Defined.

Lemma socks5_exact_witness :
  exists c', socks5Handshake (λ _, None) sample_cut = (Some (str "a.bc", 443), c') /\ flat (rx c') = [22; 3; 1].
Proof.
  destruct (socks5_exact (λ _, None) sample_cut (str "a.bc") 443) as [_ H].
  - apply all_bytes_check. vm_compute. reflexivity.
  - apply (H [2; 0] 0 (TargetDomain (str "a.bc")) [22; 3; 1] [Sent 2] [Sent 10] []).
    + split; [vm_compute; split; discriminate |]. apply elem_of_cons. right. apply elem_of_cons. left. reflexivity.
    + vm_compute. split; discriminate.
    + reflexivity.
    + split; [discriminate | reflexivity].
    + vm_compute. reflexivity.
    + reflexivity.
    + vm_compute. reflexivity.
    + vm_compute. reflexivity.
Defined.

Lemma connect_roundtrip_witness :
  exists c', negotiateManual (λ _, None) sample_http = (Some (mkNegotiated (str "a.bc") 443 [] 0), c') /\
    flat (rx c') = [22; 3; 1] /\ tx c' = [] ++ connectionEstablished.
Proof.
  apply (connect_roundtrip sample_http (str "a.bc") 443 (Some (str "HTTP/1.1")) [str "Host: a.bc"] [22; 3; 1] [Sent 20; Sent 100] []).
  - discriminate.
  - apply (bool_decide_eq_false_1 (32 ∈ str "a.bc")). vm_compute. reflexivity.
  - lia.
  - split; [apply (bool_decide_eq_false_1 (13 ∈ connect_line (str "a.bc") 443 (Some (str "HTTP/1.1")))); vm_compute; reflexivity |].
    vm_compute. discriminate.
  - apply Forall_cons. split; [|constructor]. split; [|discriminate].
    split; [apply (bool_decide_eq_false_1 (13 ∈ str "Host: a.bc")); vm_compute; reflexivity | vm_compute; discriminate].
  - apply (bool_decide_eq_true_1 (length [str "Host: a.bc"] < kMaxHeaderLines)%nat). vm_compute. reflexivity.
  - vm_compute. reflexivity.
  - reflexivity.
  - vm_compute. reflexivity.
Defined.

Definition sample_flows : list FlowOp := [FObserve (str "10.0.0.1") 40000 443 8443 0 1000].
Definition sample_v4 (b : bytes) : option bytes := Some (str "10.0.0.1").

Lemma transparent_authorised_witness :
  exists p port pre t cp now0 tick0 post,
    Some (SockIn [10; 0; 0; 1] 40000) = Some p /\ peerEndpoint sample_v4 sample_v4 p = Some (str "10.0.0.1", port) /\
    sample_flows = pre ++ FObserve (str "10.0.0.1") port t cp now0 tick0 :: post /\
    mkNegotiated (str "10.0.0.1") 443 (str "10.0.0.1") 8443 = mkNegotiated (str "10.0.0.1") t (str "10.0.0.1") cp /\
    2000 < clockMs now0 tick0 + kPendingFlowTtlMs /\ Forall (λ op, ~ flow_uses (str "10.0.0.1") port op) post.
Proof.
  apply (transparent_authorised sample_v4 sample_v4 sample_flows (Some (SockIn [10; 0; 0; 1] 40000)) 2000
    (mkNegotiated (str "10.0.0.1") 443 (str "10.0.0.1") 8443)).
  - apply Forall_cons. split; [|constructor]. split; split; (discriminate || reflexivity).
  - intros p a port H. injection H as <-. cbn. intros H. injection H as _ <-. split; [discriminate | reflexivity].
  - vm_compute. reflexivity.
Defined.
