(* ===== verification/SocksSessions.v ===== *)
(** * SocksSessions: the connections of the local proxy

    Models the session bookkeeping and the accept loop of [src/src/SocksProxy.cpp]:
    [spawnSession], [sessionMain], [serve], [cancel], [stop], [reapFinished], [run] from its
    loop on. A session thread is where it stands in [serve] ([Phase]); one step is one section
    under [sessionsMutex_] or one destructor. The client handles that are open are recorded,
    and the system hands out only handles that are not: what [cancel] touches and what is
    closed can therefore be checked. Threads are named by their session; log messages and the
    negotiation itself ([SocksHandshake]) are outside. *)

From S2P Require Import Prelude Containers.

Record Session := mkSession { clientSock : option Z; relay : bool; cancelled : bool }.

(** Where a session thread is; [h] is the client handle it is responsible for. *)
Inductive Phase :=
  | Negotiating (h : Z)       (* in [negotiate] *)
  | Constructed (h : Z)       (* the relay object exists, not yet published *)
  | Relaying (h : Z)          (* in [relay.run()] *)
  | Leaving (h : Z)           (* the relay is unpublished, its destructor is to run *)
  | Returned.                 (* [serve] is left, by return or by exception *)

Record SocksProxy := mkSocksProxy {
  running_ : bool;
  stopRequested_ : bool;
  sessions_ : gmap Z Session;
  threads_ : gmap Z Phase;
  finished_ : list Z;
  nextSessionId_ : Z;
  rejected_ : Z;
  lastRejectLogAt_ : Z;
  handles_ : gset Z;
}.
Definition newSocksProxy : SocksProxy := mkSocksProxy true false ∅ ∅ [] 1 0 0 ∅.

Definition kRejectLogIntervalMs : Z := 5000.

Section Sessions.
Variable maxConnections_ : Z.

(** The constructor's [maxConnections == 0 ? 1 : maxConnections]. *)
Definition effectiveMax : Z := if maxConnections_ =? 0 then 1 else maxConnections_.

Definition reapFinished (s : SocksProxy) : SocksProxy :=
  mkSocksProxy (running_ s) (stopRequested_ s) (sessions_ s) (threads_ s) [] (nextSessionId_ s) (rejected_ s)
    (lastRejectLogAt_ s) (handles_ s).

Definition closeHandle (h : Z) (s : SocksProxy) : SocksProxy :=
  mkSocksProxy (running_ s) (stopRequested_ s) (sessions_ s) (threads_ s) (finished_ s) (nextSessionId_ s) (rejected_ s)
    (lastRejectLogAt_ s) (handles_ s ∖ {[h]}).

Definition setSession (id : Z) (session : Session) (p : Phase) (s : SocksProxy) : SocksProxy :=
  mkSocksProxy (running_ s) (stopRequested_ s) (<[id := session]> (sessions_ s)) (<[id := p]> (threads_ s)) (finished_ s)
    (nextSessionId_ s) (rejected_ s) (lastRejectLogAt_ s) (handles_ s).

(** [accept] returned [h]; [starts] says whether the thread could be created. *)
Definition spawnSession (h now : Z) (starts : bool) (s : SocksProxy) : SocksProxy :=
  let s := mkSocksProxy (running_ s) (stopRequested_ s) (sessions_ s) (threads_ s) [] (nextSessionId_ s) (rejected_ s)
             (lastRejectLogAt_ s) ({[h]} ∪ handles_ s) in
  if negb (running_ s) || (effectiveMax <=? msize (sessions_ s)) then
    let logAt := if running_ s && (kRejectLogIntervalMs <=? w64 (now - lastRejectLogAt_ s)) then now else lastRejectLogAt_ s in
    closeHandle h (mkSocksProxy (running_ s) (stopRequested_ s) (sessions_ s) (threads_ s) (finished_ s) (nextSessionId_ s)
                     (w64 (rejected_ s + 1)) logAt (handles_ s))
  else
    let id := nextSessionId_ s in
    let s := mkSocksProxy (running_ s) (stopRequested_ s) (sessions_ s) (threads_ s) (finished_ s) (w64 (id + 1)) (rejected_ s)
               (lastRejectLogAt_ s) (handles_ s) in
    if starts then setSession id (mkSession (Some h) false false) (Negotiating h) s
    else closeHandle h s.

(** *** The sections of a session thread *)

(** [serve] after a failed negotiation, and the catch of [sessionMain] during it. *)
Definition negotiationFailed (id : Z) (session : Session) (h : Z) (s : SocksProxy) : SocksProxy :=
  closeHandle h (setSession id (mkSession None (relay session) (cancelled session)) Returned s).

Definition constructRelay (id : Z) (session : Session) (h : Z) (s : SocksProxy) : SocksProxy :=
  setSession id session (Constructed h) s.

Definition publishRelay (id : Z) (session : Session) (h : Z) (s : SocksProxy) : SocksProxy :=
  if cancelled session then setSession id (mkSession None (relay session) true) (Leaving h) s
  else setSession id (mkSession None true false) (Relaying h) s.

(** [relay.run()] returned or threw. *)
Definition unpublishRelay (id : Z) (session : Session) (h : Z) (s : SocksProxy) : SocksProxy :=
  setSession id (mkSession (clientSock session) false (cancelled session)) (Leaving h) s.

(** The relay's destructor. *)
Definition destroyRelay (id : Z) (session : Session) (h : Z) (s : SocksProxy) : SocksProxy :=
  closeHandle h (setSession id session Returned s).

(** The last section of [sessionMain]: its own handle stays for someone else to join. *)
Definition finishSession (id : Z) (s : SocksProxy) : SocksProxy :=
  let finished := finished_ s ++ [id] in
  let finished := if 1 <? zlen finished then drop (length finished - 1) finished else finished in
  mkSocksProxy (running_ s) (stopRequested_ s) (delete id (sessions_ s)) (delete id (threads_ s)) finished
    (nextSessionId_ s) (rejected_ s) (lastRejectLogAt_ s) (handles_ s).

(** *** stop *)

(** What [cancel] touches: the relay object of the session, or its handle. *)
Inductive Touch := StopRelay (id : Z) | Shutdown (h : Z).
Definition cancelTouches (id : Z) (session : Session) : list Touch :=
  if relay session then [StopRelay id]
  else match clientSock session with Some h => [Shutdown h] | None => [] end.
Definition cancel (session : Session) : Session := mkSession (clientSock session) (relay session) true.

(** [stop] up to its wait: the flags, then the cancellation of every session. *)
Definition requestStop (s : SocksProxy) : SocksProxy :=
  mkSocksProxy false true (cancel <$> sessions_ s) (threads_ s) (finished_ s) (nextSessionId_ s) (rejected_ s)
    (lastRejectLogAt_ s) (handles_ s).
Definition stopTouches (s : SocksProxy) : list Touch :=
  map_to_list (sessions_ s) ≫= λ kv, cancelTouches kv.1 kv.2.

Definition activeConnections (s : SocksProxy) : Z := msize (sessions_ s).

(** *** Steps *)

(** One step of a session thread. *)
Inductive session_step (s : SocksProxy) : SocksProxy -> Prop :=
  | step_negotiation_failed id session h :
      sessions_ s !! id = Some session -> threads_ s !! id = Some (Negotiating h) ->
      session_step s (negotiationFailed id session h s)
  | step_construct id session h :
      sessions_ s !! id = Some session -> threads_ s !! id = Some (Negotiating h) ->
      session_step s (constructRelay id session h s)
  | step_publish id session h :
      sessions_ s !! id = Some session -> threads_ s !! id = Some (Constructed h) ->
      session_step s (publishRelay id session h s)
  | step_unpublish id session h :
      sessions_ s !! id = Some session -> threads_ s !! id = Some (Relaying h) ->
      session_step s (unpublishRelay id session h s)
  | step_destroy id session h :
      sessions_ s !! id = Some session -> threads_ s !! id = Some (Leaving h) ->
      session_step s (destroyRelay id session h s)
  | step_finish id session :
      sessions_ s !! id = Some session -> threads_ s !! id = Some Returned ->
      session_step s (finishSession id s).

(** Any step: also a new connection on a handle that is not in use, while the 64-bit counter
    has not run out, a stop, a reaping. *)
Inductive proxy_step (s : SocksProxy) : SocksProxy -> Prop :=
  | step_session s' : session_step s s' -> proxy_step s s'
  | step_accept h now starts :
      h ∉ handles_ s -> nextSessionId_ s + 1 < 2 ^ 64 -> proxy_step s (spawnSession h now starts s)
  | step_stop : proxy_step s (requestStop s)
  | step_reap : proxy_step s (reapFinished s).
End Sessions.

(** ** The accept loop *)

Definition WSAEBADF : Z := 10009.
Definition WSAEINVAL : Z := 10022.
Definition WSAENOTSOCK : Z := 10038.
Definition WSAEOPNOTSUPP : Z := 10045.
Definition WSANOTINITIALISED : Z := 10093.
Definition isFatalAcceptError (error : Z) : bool :=
  (error =? WSAENOTSOCK) || (error =? WSAEINVAL) || (error =? WSAEBADF) || (error =? WSAEOPNOTSUPP) ||
  (error =? WSANOTINITIALISED).
Definition kAcceptBackoffMinMs : Z := 10.
Definition kAcceptBackoffMaxMs : Z := 1000.
Definition kAcceptMaxConsecutiveErrors : Z := 100.

(** What one turn meets: [running_] at its top; a handle, or an error and [running_] then. *)
Inductive AcceptTurn := Stopped | Accepted (h : Z) | AcceptFailed (error : Z) (stillRunning : bool).
Inductive AcceptAction := Spawn (h : Z) | Sleep (ms : Z).

(** What the loop does, and its return value once it has one. *)
Fixpoint acceptLoop (turns : list AcceptTurn) (consecutiveErrors backoffMs : Z) : list AcceptAction * option bool :=
  match turns with
  | [] => ([], None)
  | Stopped :: _ => ([], Some true)
  | Accepted h :: turns =>
      let '(actions, r) := acceptLoop turns 0 kAcceptBackoffMinMs in (Spawn h :: actions, r)
  | AcceptFailed error stillRunning :: turns =>
      if negb stillRunning then ([], Some true) else
      let consecutiveErrors := w32 (consecutiveErrors + 1) in
      if isFatalAcceptError error || (kAcceptMaxConsecutiveErrors <? consecutiveErrors) then ([], Some false) else
      let '(actions, r) := acceptLoop turns consecutiveErrors (Z.min (w32 (backoffMs * 2)) kAcceptBackoffMaxMs) in
      (Sleep backoffMs :: actions, r)
  end.
Definition runAccept (turns : list AcceptTurn) : list AcceptAction * option bool :=
  acceptLoop turns 0 kAcceptBackoffMinMs.

(** ** The invariant *)

Definition owner (p : Phase) : option Z :=
  match p with Negotiating h | Constructed h | Relaying h | Leaving h => Some h | Returned => None end.

(** What the table shows of a thread: the handle until the relay has it, the relay while it
    runs. *)
Definition coupled (session : Session) (p : Phase) : Prop :=
  match p with
  | Negotiating h | Constructed h => clientSock session = Some h /\ relay session = false
  | Relaying _ => clientSock session = None /\ relay session = true
  | Leaving _ | Returned => clientSock session = None /\ relay session = false
  end.

Record sessions_ok (maxConnections_ : Z) (s : SocksProxy) : Prop := {
  sok_cap : msize (sessions_ s) <= effectiveMax maxConnections_;
  sok_next : 0 <= nextSessionId_ s < 2 ^ 64;
  sok_ids : forall id p, threads_ s !! id = Some p -> id < nextSessionId_ s;
  sok_coupled : forall id,
    match sessions_ s !! id, threads_ s !! id with
    | Some session, Some p => coupled session p
    | None, None => True
    | _, _ => False
    end;
  sok_handles : forall h, h ∈ handles_ s <-> exists id p, threads_ s !! id = Some p /\ owner p = Some h;
  sok_once : forall id id' p p' h, threads_ s !! id = Some p -> threads_ s !! id' = Some p' ->
    owner p = Some h -> owner p' = Some h -> id = id';
  sok_finished : zlen (finished_ s) <= 1;
}.

Section Invariant.
Variable maxConnections_ : Z.
Hypothesis max_range : 0 <= maxConnections_.

Lemma newSocksProxy_ok : sessions_ok maxConnections_ newSocksProxy.
Proof.
  split; cbn [newSocksProxy sessions_ threads_ nextSessionId_ handles_ finished_].
  - unfold effectiveMax. rewrite msize_empty. case_if; zbool; lia.
  - lia.
  - intros id p. by rewrite lookup_empty.
  - intros id. by rewrite !lookup_empty.
  - intros h. split; [by intros ?%not_elem_of_empty |]. intros (id & p & H & _). by rewrite lookup_empty in H.
  - intros id id' p p' h. by rewrite lookup_empty.
  - done.
Qed.

(** A thread moves on and keeps its handle. *)
Lemma move_keeps id session session' p p' s :
  sessions_ok maxConnections_ s -> sessions_ s !! id = Some session -> threads_ s !! id = Some p ->
  owner p' = owner p -> coupled session' p' -> sessions_ok maxConnections_ (setSession id session' p' s).
Proof.
  intros [H1 Hn H2 H3 H4 H5 H6] Hs Ht Ho Hc.
  assert (Hget : forall i q, <[id := p']> (threads_ s) !! i = Some q ->
    exists q', threads_ s !! i = Some q' /\ owner q = owner q').
  { intros i q [[<- <-]|[_ Hi]]%lookup_insert_Some; eauto. }
  split; cbn [sessions_ threads_ nextSessionId_ handles_ finished_ setSession]; try done.
  - by rewrite (msize_insert_Some _ _ _ session).
  - intros i q (q' & Hi & _)%Hget. by eapply H2.
  - intros i. destruct (decide (i = id)) as [->|Hne]; [by rewrite !lookup_insert_eq |].
    rewrite !lookup_insert_ne by done. apply H3.
  - intros h. rewrite H4. split.
    + intros (i & q & Hi & Hq). destruct (decide (i = id)) as [->|Hne].
      * exists id, p'. rewrite lookup_insert_eq, Ho. rewrite Ht in Hi. by injection Hi as ->.
      * exists i, q. by rewrite lookup_insert_ne.
    + intros (i & q & (q' & Hi & Hq)%Hget & Hh). exists i, q'. by rewrite <- Hq.
  - intros i j q r h (q' & Hi & Hq)%Hget (r' & Hj & Hr)%Hget Eq Er. rewrite Hq in Eq. rewrite Hr in Er. by eapply H5.
Qed.

(** A thread gives its handle up, and it is closed. *)
Lemma move_closes id session session' p h s :
  sessions_ok maxConnections_ s -> sessions_ s !! id = Some session -> threads_ s !! id = Some p ->
  owner p = Some h -> coupled session' Returned ->
  sessions_ok maxConnections_ (closeHandle h (setSession id session' Returned s)).
Proof.
  intros [H1 Hn H2 H3 H4 H5 H6] Hs Ht Ho Hc.
  assert (Hget : forall i q x, <[id := Returned]> (threads_ s) !! i = Some q -> owner q = Some x -> i <> id /\ threads_ s !! i = Some q).
  { intros i q x [[<- <-]|[? Hi]]%lookup_insert_Some; [done |]. by split. }
  split; cbn [sessions_ threads_ nextSessionId_ handles_ finished_ setSession closeHandle]; try done.
  - by rewrite (msize_insert_Some _ _ _ session).
  - intros i q [[<- <-]|[_ Hi]]%lookup_insert_Some; by eapply H2.
  - intros i. destruct (decide (i = id)) as [->|Hne]; [by rewrite !lookup_insert_eq |].
    rewrite !lookup_insert_ne by done. apply H3.
  - intros x. rewrite elem_of_difference, elem_of_singleton, H4. split.
    + intros [(i & q & Hi & Hq) Hne]. exists i, q. rewrite lookup_insert_ne; [done |]. intros <-. congruence.
    + intros (i & q & Hi & Hq). destruct (Hget i q x Hi Hq) as [Hne Hi']. split; [by exists i, q |].
      intros ->. apply Hne. by eapply H5.
  - intros i j q r x Hi Hj Eq Er. destruct (Hget i q x Hi Eq) as [_ Hi'], (Hget j r x Hj Er) as [_ Hj']. by eapply H5.
Qed.

Lemma session_step_ok s s' : session_step s s' -> sessions_ok maxConnections_ s -> sessions_ok maxConnections_ s'.
Proof.
  intros Hst Hok.
  assert (Hcp : forall id session p, sessions_ s !! id = Some session -> threads_ s !! id = Some p -> coupled session p).
  { intros id session p Hs Ht. pose proof (sok_coupled _ _ Hok id) as H. by rewrite Hs, Ht in H. }
  destruct Hst as [id session h Hs Ht|id session h Hs Ht|id session h Hs Ht|id session h Hs Ht|id session h Hs Ht|id session Hs Ht];
    pose proof (Hcp _ _ _ Hs Ht) as Hc; cbn in Hc.
  - eapply move_closes; try done. by destruct Hc.
  - by eapply move_keeps.
  - unfold publishRelay. case_if; (eapply move_keeps; [done | exact Hs | exact Ht | done |]); by destruct Hc.
  - eapply move_keeps; [done | exact Hs | exact Ht | done |]. by destruct Hc.
  - by eapply move_closes.
  - destruct Hok as [H1 Hn H2 H3 H4 H5 H6]. unfold finishSession.
    split; cbn [sessions_ threads_ nextSessionId_ handles_ finished_]; try done.
    + etrans; [apply msize_delete_le | done].
    + intros i q [_ Hi]%lookup_delete_Some. by eapply H2.
    + intros i. destruct (decide (i = id)) as [->|Hne]; [by rewrite !lookup_delete_eq |].
      rewrite !lookup_delete_ne by done. apply H3.
    + intros h. rewrite H4. split; intros (i & q & Hi & Hq).
      * exists i, q. rewrite lookup_delete_ne; [done |]. intros <-. rewrite Ht in Hi. by injection Hi as <-.
      * apply lookup_delete_Some in Hi as [_ Hi]. by exists i, q.
    + intros i j q r h [_ Hi]%lookup_delete_Some [_ Hj]%lookup_delete_Some. by eapply H5.
    + rewrite zlen_app in *. change (zlen [id]) with 1. case_if; zbool; unfold zlen in *.
      * rewrite length_drop. rewrite length_app. simpl. lia.
      * rewrite length_app. simpl. lia.
Qed.

Lemma spawn_ok h now starts s :
  h ∉ handles_ s -> nextSessionId_ s + 1 < 2 ^ 64 -> sessions_ok maxConnections_ s ->
  sessions_ok maxConnections_ (spawnSession maxConnections_ h now starts s).
Proof.
  intros Hh Hnx [H1 Hn H2 H3 H4 H5 H6]. unfold spawnSession. cbv zeta. cbn [running_ sessions_ nextSessionId_ lastRejectLogAt_].
  assert (Hclosed : ({[h]} ∪ handles_ s) ∖ {[h]} = handles_ s).
  { apply set_eq. intros x. rewrite elem_of_difference, elem_of_union, !elem_of_singleton. split; [by intros [[->|?] ?] |].
    intros Hx. split; [by right |]. by intros ->. }
  destruct (_ || _) eqn:E; [|destruct starts].
  - split; cbn [sessions_ threads_ nextSessionId_ handles_ finished_ closeHandle]; try done. by rewrite Hclosed.
  - apply orb_false_iff in E as [_ E]. zbool. rewrite w64_small by lia.
    assert (Hfresh : threads_ s !! nextSessionId_ s = None).
    { destruct (threads_ s !! nextSessionId_ s) as [p|] eqn:Ep; [|done]. apply H2 in Ep. lia. }
    assert (Hget : forall i q, <[nextSessionId_ s := Negotiating h]> (threads_ s) !! i = Some q ->
      i = nextSessionId_ s /\ q = Negotiating h \/ i <> nextSessionId_ s /\ threads_ s !! i = Some q).
    { intros i q [[<- <-]|[? Hi]]%lookup_insert_Some; auto. }
    assert (Hno : forall i q, threads_ s !! i = Some q -> owner q <> Some h).
    { intros i q Hi Hq. apply Hh, H4. eauto. }
    split; cbn [sessions_ threads_ nextSessionId_ handles_ finished_ setSession]; try done.
    + etrans; [apply msize_insert_le |]. lia.
    + lia.
    + intros i q [[-> _]|[_ Hi]]%Hget; [lia |]. apply H2 in Hi. lia.
    + intros i. destruct (decide (i = nextSessionId_ s)) as [->|Hne]; [by rewrite !lookup_insert_eq |].
      rewrite !lookup_insert_ne by done. apply H3.
    + intros x. rewrite elem_of_union, elem_of_singleton, H4. split.
      * intros [->|(i & q & Hi & Hq)]; [exists (nextSessionId_ s), (Negotiating h); by rewrite lookup_insert_eq |].
        exists i, q. rewrite lookup_insert_ne; [done |]. intros <-. congruence.
      * intros (i & q & [[-> ->]|[Hne Hi]]%Hget & Hq); [left; by injection Hq as -> | right; eauto].
    + intros i j q r x [[-> ->]|[Hni Hi]]%Hget [[-> ->]|[Hnj Hj]]%Hget Eq Er; [done | | | by eapply H5].
      * injection Eq as <-. by destruct (Hno j r Hj).
      * injection Er as <-. by destruct (Hno i q Hi).
  - rewrite w64_small by lia. split; cbn [sessions_ threads_ nextSessionId_ handles_ finished_ closeHandle]; try done.
    + lia.
    + intros id p Hp. apply H2 in Hp. lia.
    + by rewrite Hclosed.
Qed.

Lemma proxy_step_ok s s' : proxy_step maxConnections_ s s' -> sessions_ok maxConnections_ s -> sessions_ok maxConnections_ s'.
Proof.
  intros [s2 Hst|h now starts Hh Hn| |] Hok.
  - by eapply session_step_ok.
  - by apply spawn_ok.
  - destruct Hok as [H1 Hn H2 H3 H4 H5 H6]. split; cbn [sessions_ threads_ nextSessionId_ handles_ finished_ requestStop]; try done.
    + unfold msize in *. by rewrite map_size_fmap.
    + intros id. specialize (H3 id). rewrite lookup_fmap. destruct (sessions_ s !! id), (threads_ s !! id) as [[]|]; done.
  - destruct Hok as [H1 Hn H2 H3 H4 H5 H6]. by split.
Qed.

Lemma reachable_sessions s : rtc (proxy_step maxConnections_) newSocksProxy s -> sessions_ok maxConnections_ s.
Proof.
  intros Hr. pose proof newSocksProxy_ok as Hok. induction Hr as [|s1 s2 s3 Hst _ IH]; [done |].
  by apply IH, (proxy_step_ok s1).
Qed.

(** ** Draining *)

Definition rank (p : Phase) : nat :=
  match p with Negotiating _ => 5 | Constructed _ => 4 | Relaying _ => 3 | Leaving _ => 2 | Returned => 1 end%nat.
Definition work (m : gmap Z Phase) : nat := sum_list_with (λ kv, rank kv.2) (map_to_list m).

Lemma sum_list_with_perm {A} (f : A -> nat) l k : l ≡ₚ k -> sum_list_with f l = sum_list_with f k.
Proof. induction 1; simpl; lia. Qed.

Lemma work_delete m id p : m !! id = Some p -> work m = (rank p + work (delete id m))%nat.
Proof.
  intros Hm. unfold work. rewrite <- (insert_delete_id m id p Hm) at 1.
  by rewrite (sum_list_with_perm _ _ _ (map_to_list_insert _ _ _ (lookup_delete_eq m id))).
Qed.
Lemma work_insert m id p p' : m !! id = Some p -> (work (<[id := p']> m) + rank p = work m + rank p')%nat.
Proof.
  intros Hm. rewrite (work_delete m id p Hm), (work_delete _ id p' (lookup_insert_eq _ _ _)), delete_insert_eq. lia.
Qed.

Lemma session_step_works s s' : session_step s s' -> (work (threads_ s') < work (threads_ s))%nat.
Proof.
  intros Hst. destruct Hst as [id session h Hs Ht|id session h Hs Ht|id session h Hs Ht|id session h Hs Ht|id session h Hs Ht|id session Hs Ht].
  - pose proof (work_insert _ id _ Returned Ht) as Hw. cbn in *. lia.
  - pose proof (work_insert _ id _ (Constructed h) Ht) as Hw. cbn in *. lia.
  - pose proof (work_insert _ id _ (Leaving h) Ht) as Hw. pose proof (work_insert _ id _ (Relaying h) Ht) as Hw'.
    unfold publishRelay. case_if; cbn in *; lia.
  - pose proof (work_insert _ id _ (Leaving h) Ht) as Hw. cbn in *. lia.
  - pose proof (work_insert _ id _ Returned Ht) as Hw. cbn in *. lia.
  - cbn [threads_ finishSession]. rewrite (work_delete _ _ _ Ht). cbn [rank]. lia.
Qed.

Lemma sessions_sn s : sn session_step s.
Proof.
  remember (work (threads_ s)) as n eqn:En. revert s En. induction n as [n IH] using lt_wf_ind. intros s ->.
  constructor. intros s' Hst%session_step_works. by eapply IH.
Qed.

Lemma stuck_empty s : sessions_ok maxConnections_ s -> nf session_step s -> sessions_ s = ∅ /\ handles_ s = ∅.
Proof.
  intros Hok Hnf.
  assert (Hnone : forall id, sessions_ s !! id = None /\ threads_ s !! id = None).
  { intros id. pose proof (sok_coupled _ _ Hok id) as Hc. destruct (sessions_ s !! id) as [se|] eqn:Es, (threads_ s !! id) as [p|] eqn:Et; try done.
    destruct Hnf. destruct p as [h|h|h|h|]; eexists;
      [by eapply step_construct | by eapply step_publish | by eapply step_unpublish | by eapply step_destroy | by eapply step_finish]. }
  split; [apply map_eq; intros id; rewrite lookup_empty; apply Hnone |].
  apply set_eq. intros h. split; [|by intros ?%not_elem_of_empty]. intros (id & p & Hi & _)%(sok_handles _ _ Hok).
  by rewrite (proj2 (Hnone id)) in Hi.
Qed.

(** ** Properties *)

(** What [cancel] may touch: a relay whose [run] is executing, a handle that is open. *)
Definition touch_ok (s : SocksProxy) (t : Touch) : Prop :=
  match t with
  | StopRelay id => exists h, threads_ s !! id = Some (Relaying h)
  | Shutdown h => h ∈ handles_ s
  end.

(** C18: The sessions of the proxy are accounted for, over every history of connections,
    ends, failures and stops. There are never more than the configured number of
    connections, and at most one exited thread waits to be joined; every open client handle
    belongs to exactly one session thread, so none leaks and none is closed twice; and
    whenever [stop] runs, it stops only relays that are running and shuts down only
    handles that are open, never one that was closed and may have been reissued. *)
Theorem sessions_safe (s : SocksProxy) :
  rtc (proxy_step maxConnections_) newSocksProxy s ->
  activeConnections s <= effectiveMax maxConnections_ /\ zlen (finished_ s) <= 1 /\
  (forall h, h ∈ handles_ s <-> exists id p, threads_ s !! id = Some p /\ owner p = Some h) /\
  (forall id id' p p' h, threads_ s !! id = Some p -> threads_ s !! id' = Some p' ->
     owner p = Some h -> owner p' = Some h -> id = id') /\
  Forall (touch_ok s) (stopTouches s).
Proof.
  intros Hr. pose proof (reachable_sessions s Hr) as [H1 Hn H2 H3 H4 H5 H6]. split_and!; try done.
  apply Forall_forall. intros t Ht. unfold stopTouches in Ht. apply list_elem_of_bind in Ht as ([id se] & Ht & Hin).
  apply elem_of_map_to_list in Hin. specialize (H3 id). rewrite Hin in H3. cbn [fst snd] in *.
  destruct (threads_ s !! id) as [p|] eqn:Ep; [|done]. unfold cancelTouches in Ht. unfold touch_ok.
  destruct p as [h|h|h|h|]; destruct H3 as [Hc Hrel]; rewrite Hrel, ?Hc in Ht.
  - apply list_elem_of_singleton in Ht as ->. apply H4. by exists id, (Negotiating h).
  - apply list_elem_of_singleton in Ht as ->. apply H4. by exists id, (Constructed h).
  - apply list_elem_of_singleton in Ht as ->. by exists h.
  - by apply elem_of_nil in Ht.
  - by apply elem_of_nil in Ht.
Qed.

(** The wait of [stop] ends. From every reachable state the session threads can only
    take finitely many steps, in whatever order they are scheduled; and when none is left,
    the table is empty and every client handle is closed. *)
Theorem sessions_drain (s : SocksProxy) :
  rtc (proxy_step maxConnections_) newSocksProxy s ->
  sn session_step s /\
  (forall s', rtc session_step s s' -> nf session_step s' -> sessions_ s' = ∅ /\ handles_ s' = ∅).
Proof.
  intros Hr. split; [apply sessions_sn |]. intros s' Hs' Hnf. apply stuck_empty; [|done].
  apply reachable_sessions. transitivity s; [done |]. eapply rtc_subrel; [|exact Hs']. intros a b. apply step_session.
Qed.
End Invariant.

(** The pause after [k] failures in a row. *)
Definition backoff (k : nat) : Z := Z.min (10 * 2 ^ Z.of_nat k) 1000.

Lemma backoff_next k : Z.min (w32 (backoff k * 2)) kAcceptBackoffMaxMs = backoff (S k).
Proof.
  unfold backoff, kAcceptBackoffMaxMs. pose proof (Z.pow_pos_nonneg 2 (Z.of_nat k)).
  rewrite w32_small by lia. rewrite Nat2Z.inj_succ, Z.pow_succ_r by lia. lia.
Qed.

(** The same number of sleeps, growing; the counters go on. *)
Definition sleeps (k n : nat) : list AcceptAction := (λ i, Sleep (backoff i)) <$> seq k n.

Lemma acceptLoop_errors errors turns k :
  Forall (λ e, isFatalAcceptError e = false) errors -> (k + length errors <= 100)%nat ->
  acceptLoop (((λ e, AcceptFailed e true) <$> errors) ++ turns) (Z.of_nat k) (backoff k) =
  let '(actions, r) := acceptLoop turns (Z.of_nat (k + length errors)) (backoff (k + length errors)) in
  (sleeps k (length errors) ++ actions, r).
Proof.
  intros He. revert k. induction He as [|e errors He _ IH]; intros k Hk.
  - cbn [fmap list_fmap app length]. rewrite Nat.add_0_r. by destruct (acceptLoop _ _ _).
  - cbn [fmap list_fmap app length acceptLoop negb] in *. rewrite He. cbn [orb]. cbv zeta.
    replace (w32 (Z.of_nat k + 1)) with (Z.of_nat (S k)) by (rewrite w32_small; lia).
    unfold kAcceptMaxConsecutiveErrors. rewrite (proj2 (Z.ltb_ge _ _)) by lia.
    rewrite backoff_next. specialize (IH (S k) ltac:(lia)). cbn [fmap list_fmap app] in IH. rewrite IH.
    replace (k + S (length errors))%nat with (S k + length errors)%nat by lia. by destruct (acceptLoop turns _ _).
Qed.

(** A burst of failures does not take the listener down. Up to a hundred transient
    [accept] errors in a row are answered by pauses of 10, 20, 40, ... at most 1000 ms, and
    the next connection is served and starts the count afresh; the hundred and first, or
    any fatal error, ends the loop with failure; and a stop noticed at an error ends it with
    success. *)
Theorem accept_backoff (errors : list Z) (turns : list AcceptTurn) (h e : Z) :
  Forall (λ e, isFatalAcceptError e = false) errors -> (length errors <= 100)%nat ->
  let fails := (λ e, AcceptFailed e true) <$> errors in
  runAccept (fails ++ Accepted h :: turns) =
    (sleeps 0 (length errors) ++ Spawn h :: (runAccept turns).1, (runAccept turns).2) /\
  runAccept (fails ++ AcceptFailed e false :: turns) = (sleeps 0 (length errors), Some true) /\
  (isFatalAcceptError e = true \/ length errors = 100%nat ->
     runAccept (fails ++ AcceptFailed e true :: turns) = (sleeps 0 (length errors), Some false)).
Proof.
  intros He Hn fails. unfold runAccept, fails. change kAcceptBackoffMinMs with (backoff 0). change 0 with (Z.of_nat 0).
  rewrite !(acceptLoop_errors errors _ 0 He) by lia. cbn [acceptLoop negb]. rewrite !app_nil_r. change (Z.of_nat 0) with 0.
  change kAcceptBackoffMinMs with (backoff 0). split_and!.
  - by destruct (acceptLoop turns 0 (backoff 0)).
  - done.
  - intros Hx. cbn [Nat.add]. assert (Hf : isFatalAcceptError e || (kAcceptMaxConsecutiveErrors <? w32 (Z.of_nat (length errors) + 1)) = true).
    { destruct Hx as [-> | ->]; [done |]. by rewrite orb_true_r. }
    cbv zeta. by rewrite Hf, app_nil_r.
Qed.

(** ** Concrete histories *)

(** Two connections at a limit of one: the second is refused; the first is cancelled while
    it negotiates. *)
Definition sample_one : SocksProxy := spawnSession 1 7 0 true newSocksProxy.
Definition sample_two : SocksProxy := spawnSession 1 8 6000 true sample_one.
Definition sample_cancelled : SocksProxy := requestStop sample_two.

Example sample_counts :
  (activeConnections sample_two, rejected_ sample_two, bool_decide (handles_ sample_two = {[7]}), stopTouches sample_two) =
  (1, 1, true, [Shutdown 7]).
Proof. vm_compute. reflexivity. Qed.

Lemma sample_sessions_reached : rtc (proxy_step 1) newSocksProxy sample_two.
Proof.
  eapply rtc_l; [apply (step_accept 1 newSocksProxy 7 0 true); [apply not_elem_of_empty | done] |].
  eapply rtc_l; [apply (step_accept 1 sample_one 8 6000 true); [|done] | done].
  apply (bool_decide_eq_false_1 (8 ∈ handles_ sample_one)). vm_compute. reflexivity.
Qed.

Lemma sessions_safe_witness :
  activeConnections sample_two <= effectiveMax 1 /\ Forall (touch_ok sample_two) (stopTouches sample_two).
Proof.
  destruct (sessions_safe 1 ltac:(discriminate) sample_two sample_sessions_reached) as (H1 & _ & _ & _ & H2).
  exact (conj H1 H2).
Defined.

Lemma sessions_drain_witness :
  sn session_step sample_two /\
  (forall s', rtc session_step sample_two s' -> nf session_step s' -> sessions_ s' = ∅ /\ handles_ s' = ∅).
Proof. apply (sessions_drain 1); [discriminate | exact sample_sessions_reached]. Defined.

Lemma accept_backoff_witness :
  runAccept ([AcceptFailed 10055 true; AcceptFailed 10054 true] ++ [Accepted 9]) =
    ([Sleep 10; Sleep 20] ++ Spawn 9 :: (runAccept []).1, (runAccept []).2) /\
  runAccept ([AcceptFailed 10055 true; AcceptFailed 10054 true] ++ [AcceptFailed 10038 false]) = ([Sleep 10; Sleep 20], Some true) /\
  (isFatalAcceptError 10038 = true \/ 2%nat = 100%nat ->
     runAccept ([AcceptFailed 10055 true; AcceptFailed 10054 true] ++ [AcceptFailed 10038 true]) = ([Sleep 10; Sleep 20], Some false)).
Proof.
  apply (accept_backoff [10055; 10054] [] 9 10038).
  - repeat (apply Forall_cons; split; [reflexivity |]). constructor.
  - cbn [length]. lia.
Defined.
