(* ===== verification/ProcessFilter.v ===== *)
(** * ProcessFilter: which processes are intercepted

    Models [src/src/ProcessFilter.hpp] and [src/src/ProcessFilter.cpp] (namespace
    [process_filter]): the rule lists, the wildcard matcher, the owner lookup in the
    connection tables and the decision cache. The Windows calls are the fields of
    [Platform]. The mutex of [Filter::Impl] is held for one critical section at a time and
    released around the table walk, so each critical section is an operation of its own
    ([hitSection], [nameHitSection], [nameInsertSection], [insertSection]) and the
    properties of the cache are proved over arbitrary sequences of them. *)

From S2P Require Import Prelude Containers TransparentFlow.

Definition kMaximumRules : Z := 128.
Definition kMaximumRuleLength : Z := 1024.
Definition kMaximumCachedEndpoints : Z := 8192.
Definition kTcpCacheTtlMs : Z := 10 * 60 * 1000.
Definition kUdpCacheTtlMs : Z := 2 * 60 * 1000.
Definition kUnknownCacheTtlMs : Z := 1000.
Definition kProcessNameTtlMs : Z := 30 * 1000.

(** ** Rules *)

(** The characters of [" \t\r\n"]. *)
Definition isBlank (c : Z) : bool := (c =? 32) || (c =? 9) || (c =? 13) || (c =? 10).

(** [value] without its leading characters that satisfy [p]. *)
Fixpoint dropWhile (p : Z -> bool) (value : bytes) : bytes :=
  match value with
  | c :: rest => if p c then dropWhile p rest else value
  | [] => []
  end.

(** [find_first_not_of] and [find_last_not_of] delimit the trimmed text. *)
Definition trim (value : bytes) : bytes := reverse (dropWhile isBlank (reverse (dropWhile isBlank value))).

Definition normalize (value : bytes) : bytes :=
  let value := trim value in
  if kMaximumRuleLength <? zlen value then [] else
  (λ c, if c =? 47 then 92 else c) <$> (tolower <$> value).

(** The loop of [normalizeRules]: [result] and [rejected] are what it has so far. *)
Fixpoint normalizeRules_loop (values result : list bytes) (rejected : Z) : list bytes * Z :=
  match values with
  | [] => (result, rejected)
  | value :: rest =>
      let normalized := normalize value in
      if bool_decide (normalized = []) then
        normalizeRules_loop rest result
          (if forallb isBlank value then rejected else w64 (rejected + 1))
      else if bool_decide (normalized ∈ result) then normalizeRules_loop rest result rejected
      else if zlen result =? kMaximumRules then
        normalizeRules_loop rest result (w64 (rejected + 1))
      else normalizeRules_loop rest (result ++ [normalized]) rejected
  end.
Definition normalizeRules (values : list bytes) : list bytes * Z := normalizeRules_loop values [] 0.

Definition star : Z := 42.
Definition question_mark : Z := 63.

(** The matching loop of [wildcardMatch]: [None] is a loop out of fuel,
    [Some None] its [return false], [Some (Some i)] the [patternIndex] it ends with. *)
Fixpoint wildcard_loop (fuel : nat) (pattern text : bytes) (patternIndex textIndex : nat)
    (starIndex : option nat) (retryTextIndex : nat) : option (option nat) :=
  match fuel with
  | O => None
  | S f =>
      match text !! textIndex with
      | None => Some (Some patternIndex)
      | Some t =>
          let backtrack :=
            match starIndex with
            | Some s => wildcard_loop f pattern text (S s) (S retryTextIndex) starIndex (S retryTextIndex)
            | None => Some None
            end in
          match pattern !! patternIndex with
          | None => backtrack
          | Some c =>
              if (c =? question_mark) || (c =? t) then
                wildcard_loop f pattern text (S patternIndex) (S textIndex) starIndex retryTextIndex
              else if c =? star then
                wildcard_loop f pattern text (S patternIndex) textIndex (Some patternIndex) textIndex
              else backtrack
          end
      end
  end.

(** [while (patternIndex < pattern.size() && pattern[patternIndex] == '*') ++patternIndex;] *)
Definition skip_stars (pattern : bytes) (patternIndex : nat) : bytes :=
  dropWhile (Z.eqb star) (drop patternIndex pattern).

Definition wildcard_fuel (pattern text : bytes) : nat :=
  S ((S (length text)) * (S (length pattern))).

Definition wildcardMatch (pattern text : bytes) : option bool :=
  let? patternIndex := wildcard_loop (wildcard_fuel pattern text) pattern text 0 0 None 0
    else Some false in
  Some (bool_decide (skip_stars pattern patternIndex = [])).

Fixpoint matchesAny (patterns : list bytes) (fullPath basename : bytes) : option bool :=
  match patterns with
  | [] => Some false
  | pattern :: rest =>
      let fullPathPattern := bool_decide (92 ∈ pattern) in
      b ← wildcardMatch pattern (if fullPathPattern then fullPath else basename);
      if b : bool then Some true else matchesAny rest fullPath basename
  end.

Record Rules := mkRules {
  rejectedIncludes_ : Z;
  rejectedExcludes_ : Z;
  includes_ : list bytes;
  excludes_ : list bytes;
}.
(** [Rules()] and [Rules(includes, excludes)] *)
Definition emptyRules : Rules := mkRules 0 0 [] [].
Definition newRules (includes excludes : list bytes) : Rules :=
  let '(i, ri) := normalizeRules includes in
  let '(e, re) := normalizeRules excludes in
  mkRules ri re i e.

Definition includeListInvalid (r : Rules) : bool :=
  bool_decide (includes_ r = []) && negb (rejectedIncludes_ r =? 0).
Definition enabled (r : Rules) : bool :=
  negb (bool_decide (includes_ r = [])) || negb (bool_decide (excludes_ r = [])) ||
  includeListInvalid r.
Definition includeCount (r : Rules) : Z := zlen (includes_ r).
Definition excludeCount (r : Rules) : Z := zlen (excludes_ r).
Definition rejectedIncludeCount (r : Rules) : Z := rejectedIncludes_ r.
Definition rejectedExcludeCount (r : Rules) : Z := rejectedExcludes_ r.

(** The characters before the first backslash of the reversed path, put back in order:
    the text after the last backslash, or all of it when there is none. *)
Fixpoint untilSeparator (value : bytes) : bytes :=
  match value with
  | c :: rest => if c =? 92 then [] else c :: untilSeparator rest
  | [] => []
  end.
Definition basename (fullPath : bytes) : bytes := reverse (untilSeparator (reverse fullPath)).

Definition allowsImage (r : Rules) (imagePath : bytes) : option bool :=
  if includeListInvalid r then Some false else
  let fullPath := normalize imagePath in
  if bool_decide (fullPath = []) then Some false else
  let base := basename fullPath in
  ex ← matchesAny (excludes_ r) fullPath base;
  if ex : bool then Some false else
  if bool_decide (includes_ r = []) then Some true
  else matchesAny (includes_ r) fullPath base.

(** ** Endpoints *)

Inductive Protocol := Tcp | Udp.
#[export] Instance Protocol_eq_dec : EqDecision Protocol.
Proof. solve_decision. Defined.
(** [(uint8_t)protocol] *)
Definition protocolCode (p : Protocol) : Z := match p with Tcp => 6 | Udp => 17 end.

Record Endpoint := mkEndpoint {
  ipv6 : bool;
  protocol : Protocol;
  localAddress : bytes;
  remoteAddress : bytes;
  localPort : Z;
  remotePort : Z;
}.

Definition addressLength (e : Endpoint) : nat := if ipv6 e then 16 else 4.

(** [operator==]: an IPv4 endpoint compares four address bytes. *)
Definition endpoint_eqb (l r : Endpoint) : bool :=
  if negb (Bool.eqb (ipv6 l) (ipv6 r)) || negb (bool_decide (protocol l = protocol r)) ||
     negb (localPort l =? localPort r) || negb (remotePort l =? remotePort r)
  then false
  else bool_decide (take (addressLength l) (localAddress l) = take (addressLength l) (localAddress r)) &&
       bool_decide (take (addressLength l) (remoteAddress l) = take (addressLength l) (remoteAddress r)).

Definition EndpointHash (e : Endpoint) : Z :=
  foldl hash_add 1469598103934665603
    ([if ipv6 e then 1 else 0; protocolCode (protocol e)] ++
     take (addressLength e) (localAddress e) ++ take (addressLength e) (remoteAddress e) ++
     [w8 (Z.shiftr (localPort e) 8); w8 (localPort e);
      w8 (Z.shiftr (remotePort e) 8); w8 (remotePort e)]).

(** What [operator==] and the hash look at: the key of the cache. *)
Definition EndpointKey : Type := bool * Z * bytes * bytes * Z * Z.
Definition endpointKey (e : Endpoint) : EndpointKey :=
  (ipv6 e, protocolCode (protocol e), take (addressLength e) (localAddress e),
   take (addressLength e) (remoteAddress e), localPort e, remotePort e).

(** ** Owners *)

(** A row of the connection tables; a UDP row has no remote side. *)
Record Row := mkRow {
  rowLocalAddr : bytes;
  rowLocalPort : Z;
  rowRemoteAddr : bytes;
  rowRemotePort : Z;
  dwOwningPid : Z;
}.

(** The calls of the platform: [GetExtendedTcpTable] and [GetExtendedUdpTable] for a
    family, on the n-th call with a buffer of that many bytes: the status, the size it
    stored and the table; the size of the fixed part of each table; and
    [OpenProcess]/[QueryFullProcessImageNameW]/[WideCharToMultiByte] on a process. *)
Record Platform := mkPlatform {
  GetExtendedTcpTable : bool -> nat -> Z -> Z * Z * list Row;
  GetExtendedUdpTable : bool -> nat -> Z -> Z * Z * list Row;
  sizeofTcpTable : bool -> Z;
  sizeofUdpTable : bool -> Z;
  queryImage : Z -> option bytes;
}.

Definition NO_ERROR : Z := 0.
Definition ERROR_INSUFFICIENT_BUFFER : Z := 122.
Definition kAttempts : nat := 4.

(** [fetchTable]: the size of the buffer and the table in it. *)
Fixpoint fetch_loop {T} (fetch : nat -> Z -> Z * Z * T) (attempts call : nat) (status size : Z)
    : option (Z * T) :=
  match attempts with
  | O => None
  | S attempts =>
      if negb (status =? ERROR_INSUFFICIENT_BUFFER) || (size =? 0) then None else
      let size := w32 (size + w32 (size / 8 + 4096)) in
      let '(status, length, table) := fetch call size in
      if status =? NO_ERROR then Some (size, table)
      else fetch_loop fetch attempts (S call) status length
  end.
Definition fetchTable {T} (fetch : nat -> Z -> Z * Z * T) : option (Z * T) :=
  let '(status, size, _) := fetch 0%nat 0 in fetch_loop fetch kAttempts 1%nat status size.

(** [ownerTable]: a buffer smaller than the table's fixed part is refused. *)
Definition ownerTable {T} (sizeofTable : Z) (fetch : nat -> Z -> Z * Z * T) : option T :=
  match fetchTable fetch with
  | Some (size, table) => if size <? sizeofTable then None else Some table
  | None => None
  end.

(** [ntohs((uint16_t)value)] on a little-endian machine *)
Definition tablePort (value : Z) : Z :=
  let v := w16 value in Z.lor (Z.shiftl (Z.land v 0xFF) 8) (Z.shiftr v 8).

Definition zeroAddress (address : bytes) (length : nat) : bool := forallb (Z.eqb 0) (take length address).

Definition tcpRowMatches (e : Endpoint) (row : Row) : bool :=
  (tablePort (rowLocalPort row) =? localPort e) && (tablePort (rowRemotePort row) =? remotePort e) &&
  bool_decide (take (addressLength e) (rowLocalAddr row) = take (addressLength e) (localAddress e)) &&
  bool_decide (take (addressLength e) (rowRemoteAddr row) = take (addressLength e) (remoteAddress e)).

Definition tcpOwner (p : Platform) (e : Endpoint) : option Z :=
  table ← ownerTable (sizeofTcpTable p (ipv6 e)) (GetExtendedTcpTable p (ipv6 e));
  dwOwningPid <$> List.find (tcpRowMatches e) table.

Definition udpRowMatches (e : Endpoint) (row : Row) : bool :=
  (tablePort (rowLocalPort row) =? localPort e) &&
  (zeroAddress (rowLocalAddr row) (addressLength e) ||
   bool_decide (take (addressLength e) (rowLocalAddr row) = take (addressLength e) (localAddress e))).

(** [selectUdpOwner]: [selected] and [ambiguous]. *)
Definition selectUdpOwner (candidate : Z) (acc : option Z * bool) : option Z * bool :=
  match acc.1 with
  | None => (Some candidate, acc.2)
  | Some selected => (Some selected, if selected =? candidate then acc.2 else true)
  end.

Fixpoint udpOwner_loop (e : Endpoint) (table : list Row) (acc : option Z * bool) : option Z * bool :=
  match table with
  | [] => acc
  | row :: rest =>
      udpOwner_loop e rest (if udpRowMatches e row then selectUdpOwner (dwOwningPid row) acc else acc)
  end.

Definition udpOwner (p : Platform) (e : Endpoint) : option Z :=
  table ← ownerTable (sizeofUdpTable p (ipv6 e)) (GetExtendedUdpTable p (ipv6 e));
  let '(selected, ambiguous) := udpOwner_loop e table (None, false) in
  if ambiguous : bool then None else selected.

Definition processImage (p : Platform) (processId : Z) : bytes :=
  if processId =? 0 then [] else
  if processId =? 4 then str "system" else
  match queryImage p processId with
  | None => []
  | Some path => normalize path
  end.

(** ** The decision cache *)

Record Decision := mkDecision { intercept : bool; expiresAtMs : Z; resolved : bool }.
Record ProcessName := mkProcessName { image : bytes; pn_expiresAtMs : Z }.

Record Impl := mkImpl {
  rules_ : Rules;
  nextSweepMs_ : Z;
  endpoints_ : gmap EndpointKey Decision;
  processNames_ : gmap Z ProcessName;
}.
Definition newImpl (rules : Rules) : Impl := mkImpl rules 0 ∅ ∅.

Definition cacheTtl (e : Endpoint) : Z :=
  if bool_decide (protocol e = Tcp) then kTcpCacheTtlMs else kUdpCacheTtlMs.

(** The first critical section of [shouldIntercept]: a live cached decision. *)
Definition hitSection (s : Impl) (e : Endpoint) (now : Z) : option bool * Impl :=
  match endpoints_ s !! endpointKey e with
  | Some d =>
      if now <? expiresAtMs d then
        (Some (intercept d),
         if resolved d then
           mkImpl (rules_ s) (nextSweepMs_ s)
             (<[endpointKey e := mkDecision (intercept d)
                  (Z.max (expiresAtMs d) (w64 (now + cacheTtl e))) true]> (endpoints_ s))
             (processNames_ s)
         else s)
      else (None, s)
  | None => (None, s)
  end.

(** The two critical sections of [cachedProcessImage]. *)
Definition nameHitSection (s : Impl) (processId now : Z) : option bytes :=
  match processNames_ s !! processId with
  | Some n => if now <? pn_expiresAtMs n then Some (image n) else None
  | None => None
  end.

Section Cache.
Context `{!MapOrder EndpointKey} `{!MapOrder Z}.

Definition nameInsertSection (s : Impl) (processId : Z) (img : bytes) (now : Z) : Impl :=
  let m := processNames_ s in
  let m := if kMaximumCachedEndpoints <=? msize m then
             let m := erase_if (λ _ n, pn_expiresAtMs n <=? now) m in
             if kMaximumCachedEndpoints <=? msize m then
               match iter m with (k, _) :: _ => delete k m | [] => m end
             else m
           else m in
  mkImpl (rules_ s) (nextSweepMs_ s) (endpoints_ s)
    (<[processId := mkProcessName img (w64 (now + kProcessNameTtlMs))]> m).

(** The order of eviction: bypassed tuples first, then the earliest expiry. *)
Definition victim_le (l r : bool * Z * EndpointKey) : Prop :=
  if Bool.eqb l.1.1 r.1.1 then l.1.2 <= r.1.2 else l.1.1 = false.
#[export] Instance victim_le_dec : RelDecision victim_le.
Proof. intros l r. unfold victim_le. destruct (Bool.eqb _ _); apply _. Defined.

Definition evictEndpoints (m : gmap EndpointKey Decision) : gmap EndpointKey Decision :=
  let candidates := (λ kv : EndpointKey * Decision,
                       (intercept kv.2, expiresAtMs kv.2, kv.1)) <$> iter m in
  let evict := Z.max 1 (zlen candidates / 16) in
  erase_keys (smallest victim_le evict candidates).*2 m.

Definition makeRoomLocked (s : Impl) (now : Z) : Impl :=
  if nextSweepMs_ s <=? now then
    let next := w64 (now + 1000) in
    let m := erase_if (λ _ d, expiresAtMs d <=? now) (endpoints_ s) in
    if msize m <? kMaximumCachedEndpoints then mkImpl (rules_ s) next m (processNames_ s)
    else mkImpl (rules_ s) next (evictEndpoints m) (processNames_ s)
  else mkImpl (rules_ s) (nextSweepMs_ s) (evictEndpoints (endpoints_ s)) (processNames_ s).

(** The last critical section of [shouldIntercept]: the decision on the owner's image. *)
Definition insertSection (s : Impl) (e : Endpoint) (d : Decision) (now : Z) : Impl :=
  let key := endpointKey e in
  let s := if (kMaximumCachedEndpoints <=? msize (endpoints_ s)) &&
              negb (bool_decide (is_Some (endpoints_ s !! key)))
           then makeRoomLocked s now else s in
  mkImpl (rules_ s) (nextSweepMs_ s) (<[key := d]> (endpoints_ s)) (processNames_ s).

Definition cachedProcessImage (p : Platform) (s : Impl) (processId now : Z) : bytes * Impl :=
  match nameHitSection s processId now with
  | Some img => (img, s)
  | None => let img := processImage p processId in (img, nameInsertSection s processId img now)
  end.

(** The decision taken on an image: empty means "owner unknown". *)
Definition decideOn (r : Rules) (e : Endpoint) (img : bytes) (now : Z) : option Decision :=
  i ← (if bool_decide (img = []) then Some false else allowsImage r img);
  let ttl := if bool_decide (img = []) then kUnknownCacheTtlMs else cacheTtl e in
  Some (mkDecision i (w64 (now + ttl)) (negb (bool_decide (img = [])))).

Definition shouldIntercept (p : Platform) (s : Impl) (e : Endpoint) (outbound newTcpFlow : bool)
    (nowMs tick : Z) : option (bool * Impl) :=
  if negb (enabled (rules_ s)) then Some (true, s) else
  if (localPort e =? 0) || (remotePort e =? 0) then Some (false, s) else
  let now := if nowMs =? 0 then tick else nowMs in
  match hitSection s e now with
  | (Some i, s) => Some (i, s)
  | (None, s) =>
      if negb outbound || (bool_decide (protocol e = Tcp) && negb newTcpFlow) then Some (false, s) else
      let owner := if bool_decide (protocol e = Tcp) then tcpOwner p e else udpOwner p e in
      let '(img, s) := match owner with
                       | Some pid => cachedProcessImage p s pid now
                       | None => ([], s)
                       end in
      d ← decideOn (rules_ s) e img now;
      Some (intercept d, insertSection s e d now)
  end.

Definition forget (s : Impl) (e : Endpoint) : Impl :=
  mkImpl (rules_ s) (nextSweepMs_ s) (delete (endpointKey e) (endpoints_ s)) (processNames_ s).
Definition clear (s : Impl) : Impl := mkImpl (rules_ s) (nextSweepMs_ s) ∅ ∅.
End Cache.

(** ** The wildcard language *)

(** The language of patterns: [?] stands for one character, [*] for any text. *)
Fixpoint glob (p t : bytes) : bool :=
  match p with
  | [] => bool_decide (t = [])
  | c :: p =>
      if c =? star then
        (fix any (t : bytes) : bool :=
           glob p t || match t with [] => false | _ :: t => any t end) t
      else match t with
           | [] => false
           | x :: t => ((c =? question_mark) || (c =? x)) && glob p t
           end
  end.

Lemma glob_star p t : glob (star :: p) t = glob p t || match t with [] => false | _ :: t => glob (star :: p) t end.
Proof. by destruct t. Qed.

Lemma glob_star_iff p t : glob (star :: p) t = true <-> exists u v, t = u ++ v /\ glob p v = true.
Proof.
  induction t as [|x t IH]; rewrite glob_star.
  - rewrite orb_false_r. split; [by exists [], [] |]. intros (u & v & E & H).
    symmetry in E. by apply app_eq_nil in E as [_ ->].
  - rewrite orb_true_iff, IH. split.
    + intros [H|(u & v & -> & H)]; [by exists [], (x :: t) | by exists (x :: u), v].
    + intros ([|y u] & v & E & H); simpl in E; simplify_eq; [by left | right; by exists u, v].
Qed.

(** [w] has no star and its characters match those of [u] one by one. *)
Definition fits (c x : Z) : Prop := c <> star /\ (c = question_mark \/ c = x).

Lemma glob_fits w u p t : Forall2 fits w u -> glob (w ++ p) (u ++ t) = glob p t.
Proof.
  induction 1 as [|c x w u [Hs Hc] _ IH]; [done |]. simpl. rewrite (proj2 (Z.eqb_neq _ _)) by done.
  rewrite IH. destruct Hc as [-> | ->]; [done |]. by rewrite Z.eqb_refl, orb_true_r.
Qed.

Lemma glob_prefix w p s :
  Forall (λ c, c <> star) w -> glob (w ++ p) s = true ->
  exists u t, s = u ++ t /\ length u = length w /\ glob p t = true.
Proof.
  intros Hw. revert s. induction Hw as [|c w Hc _ IH]; intros s; simpl; [by exists [], s |].
  rewrite (proj2 (Z.eqb_neq _ _)) by done. destruct s as [|x s]; [done |].
  intros [_ H]%andb_true_iff. destruct (IH _ H) as (u & t & -> & Hl & ?).
  exists (x :: u), t. simpl. auto.
Qed.

Lemma glob_nil p : glob p [] = bool_decide (dropWhile (Z.eqb star) p = []).
Proof.
  induction p as [|c p IH]; [done |]. cbn [dropWhile]. rewrite (Z.eqb_sym star c). simpl.
  case_if; [by rewrite orb_false_r | done].
Qed.

(** Where the matcher stands: [k] characters after the last star it has passed, which it
    retries from [r]; the characters since then fit. *)
Definition position (p t : bytes) (pi ti : nat) (si : option nat) (r : nat) : Prop :=
  match si with
  | None => glob p t = glob (drop pi p) (drop ti t) /\ r = 0%nat /\ (ti <= length t)%nat /\
            (pi <= length p)%nat
  | Some s =>
      glob p t = glob (star :: drop (S s) p) (drop r t) /\
      exists w, drop (S s) p = w ++ drop pi p /\ Forall2 fits w (take (length w) (drop r t)) /\
        pi = (S s + length w)%nat /\ ti = (r + length w)%nat /\ (ti <= length t)%nat /\
        (pi <= length p)%nat
  end.

(** What is left to decide at a position. *)
Lemma position_here p t pi ti s r :
  position p t pi ti (Some s) r ->
  glob p t = glob (drop pi p) (drop ti t) ||
             match drop r t with [] => false | _ :: t' => glob (star :: drop (S s) p) t' end.
Proof.
  intros (Hg & w & Hp & Hf & -> & -> & Hti & _). rewrite Hg, glob_star. f_equal.
  rewrite Hp. rewrite <- (take_drop (length w) (drop r t)), drop_drop. by apply glob_fits.
Qed.

(** A later retry never helps once the text is used up, or once another star is reached:
    it would need as many characters as are left. *)
Lemma retry_bound p t pi ti s r x t' :
  position p t pi ti (Some s) r -> drop r t = x :: t' ->
  glob (star :: drop (S s) p) t' = true ->
  exists u v, drop ti t = u ++ v /\ u <> [] /\ glob (drop pi p) v = true.
Proof.
  intros (_ & w & Hp & Hf & -> & -> & Hti & _) Hd (u & v & Hu & Hv)%glob_star_iff.
  rewrite Hp in Hv.
  assert (Hns : Forall (λ c, c <> star) w).
  { clear -Hf. induction Hf as [|c y w u [? _] _ IH]; constructor; done. }
  destruct (glob_prefix w _ v Hns Hv) as (u1 & v1 & -> & Hl & Hg).
  rewrite <- drop_drop, Hd, Hu.
  exists (drop (length w) (x :: u ++ u1)), v1. split_and!; [| |done].
  - rewrite app_assoc. change (x :: (u ++ u1) ++ v1) with ((x :: u ++ u1) ++ v1).
    apply drop_app_le. simpl. rewrite length_app. lia.
  - intros Hnil. apply (f_equal length) in Hnil. rewrite length_drop in Hnil.
    cbn [length] in Hnil. rewrite length_app in Hnil. lia.
Qed.

Lemma position_match p t pi ti si r c x :
  position p t pi ti si r -> p !! pi = Some c -> t !! ti = Some x -> fits c x ->
  position p t (S pi) (S ti) si r.
Proof.
  intros Hpos Hc Hx Hf. pose proof (lookup_lt_Some _ _ _ Hc). pose proof (lookup_lt_Some _ _ _ Hx).
  destruct si as [s|].
  - destruct Hpos as (Hg & w & Hp & Hw & -> & -> & _). split; [done |].
    exists (w ++ [c]). rewrite length_app. simpl length. split_and!; try lia.
    + rewrite Hp. rewrite (drop_S p c _ Hc), <- app_assoc. done.
    + rewrite <- take_take_drop. apply Forall2_app; [done |]. rewrite drop_drop.
      rewrite (drop_S t x _ Hx). constructor; [done | constructor].
  - destruct Hpos as (Hg & -> & _). split_and!; try done; try lia. rewrite Hg.
    rewrite (drop_S p c _ Hc), (drop_S t x _ Hx). apply (glob_fits [c] [x]). constructor; [done | constructor].
Qed.

Lemma position_star p t pi ti si r :
  position p t pi ti si r -> p !! pi = Some star -> position p t (S pi) ti (Some pi) ti.
Proof.
  intros Hpos Hc. pose proof (lookup_lt_Some _ _ _ Hc).
  assert (Hti : (ti <= length t)%nat) by (destruct si; simpl in Hpos; [destruct Hpos as (_ & w & ?)|]; intuition lia).
  assert (Hg : glob p t = glob (drop pi p) (drop ti t)).
  { destruct si as [s|]; [|apply Hpos]. rewrite (position_here _ _ _ _ _ _ Hpos).
    destruct (glob (drop pi p) (drop ti t)) eqn:E0; [done |]. simpl.
    destruct (drop r t) as [|x t'] eqn:Ed; [done |].
    destruct (glob (star :: drop (S s) p) t') eqn:E1; [|done].
    destruct (retry_bound _ _ _ _ _ _ _ _ Hpos Ed E1) as (u & v & Hu & _ & Hv).
    enough (glob (drop pi p) (drop ti t) = true) by congruence. rewrite (drop_S p star _ Hc) in *. apply glob_star_iff in Hv as (u' & v' & -> & Hv).
    apply glob_star_iff. exists (u ++ u'), v'. by rewrite Hu, app_assoc. }
  split; [by rewrite Hg, (drop_S p star _ Hc) |]. exists []. simpl.
  split_and!; [done | constructor | lia | lia | lia | lia].
Qed.

Lemma position_retry p t pi ti s r :
  position p t pi ti (Some s) r -> (r < length t)%nat -> glob (drop pi p) (drop ti t) = false ->
  position p t (S s) (S r) (Some s) (S r).
Proof.
  intros Hpos Hr Hno. pose proof (position_here _ _ _ _ _ _ Hpos) as Hg.
  rewrite Hno, orb_false_l in Hg. destruct (lookup_lt_is_Some_2 t r Hr) as [x Hx].
  rewrite (drop_S t x r Hx) in Hg. split; [done |]. exists [].
  destruct Hpos as (_ & w & _ & _ & -> & _ & _ & ?). simpl.
  split_and!; [done | constructor | lia | lia | lia | lia].
Qed.

(** The loop ends within its fuel and answers the question of its position. *)
Lemma wildcard_loop_correct fuel p t pi ti si r :
  ~ In star t -> position p t pi ti si r ->
  ((length t - r) * S (length p) + (length p - pi) < fuel)%nat ->
  exists o, wildcard_loop fuel p t pi ti si r = Some o /\
    glob p t = match o with Some i => bool_decide (skip_stars p i = []) | None => false end.
Proof.
  intros Hns. revert pi ti si r. induction fuel as [|fuel IH]; intros pi ti si r Hpos Hf; [by apply Nat.nlt_0_r in Hf |].
  cbn [wildcard_loop]. destruct (t !! ti) as [x|] eqn:Hx.
  - pose proof (lookup_lt_Some _ _ _ Hx) as Hlt.
    assert (Hxs : x <> star).
    { intros ->. apply Hns. apply list_elem_of_In. by eapply list_elem_of_lookup_2. }
    assert (Hback : glob (drop pi p) (drop ti t) = false -> exists o,
      match si with
      | Some s => wildcard_loop fuel p t (S s) (S r) si (S r)
      | None => Some None
      end = Some o /\
      glob p t = match o with Some i => bool_decide (skip_stars p i = []) | None => false end).
    { intros Hno. destruct si as [s|].
      - assert (r <= ti)%nat by (destruct Hpos as (_ & w & ? & ? & ? & ? & ? & ?); lia).
        apply IH; [apply (position_retry p t pi ti); [done | lia | done] |].
        assert (S s <= length p)%nat by (destruct Hpos as (_ & w & ? & ? & ? & ? & ? & ?); lia). nia.
      - exists None. split; [done |]. destruct Hpos as [Hg _]. by rewrite Hg. }
    destruct (p !! pi) as [c|] eqn:Hc.
    + pose proof (lookup_lt_Some _ _ _ Hc). destruct ((c =? question_mark) || (c =? x)) eqn:Eq.
      * apply IH; [|nia]. eapply position_match; [done | done | done |]. unfold fits.
        apply orb_true_iff in Eq as [->%Z.eqb_eq | ->%Z.eqb_eq]; auto.
      * apply orb_false_iff in Eq as [Eq1 Eq2]. destruct (c =? star) eqn:Es; [apply Z.eqb_eq in Es; subst c|].
        -- apply IH; [by eapply position_star |].
           assert (r <= ti)%nat.
           { destruct si; [destruct Hpos as (_ & w & ? & ? & ? & ? & ? & ?); lia |].
             destruct Hpos as (_ & -> & _). lia. }
           nia.
        -- apply Hback. rewrite (drop_S p c _ Hc), (drop_S t x _ Hx). simpl.
           by rewrite Eq1, Eq2, Es.
    + apply Hback. apply lookup_ge_None in Hc. rewrite drop_ge by lia. simpl.
      apply bool_decide_eq_false_2. intros Hnil. apply (f_equal length) in Hnil.
      rewrite length_drop in Hnil. simpl in Hnil. lia.
  - exists (Some pi). split; [done |]. apply lookup_ge_None in Hx.
    unfold skip_stars. rewrite <- glob_nil.
    destruct si as [s|].
    + rewrite (position_here _ _ _ _ _ _ Hpos). rewrite (drop_ge t ti) by lia.
      destruct (drop r t) as [|x t'] eqn:Ed; [by rewrite orb_false_r |].
      destruct (glob (star :: drop (S s) p) t') eqn:E1; [|by rewrite orb_false_r].
      destruct (retry_bound _ _ _ _ _ _ _ _ Hpos Ed E1) as (u & v & Hu & Hne & _).
      rewrite drop_ge in Hu by lia. by destruct u.
    + destruct Hpos as (Hg & _). rewrite Hg. by rewrite (drop_ge t ti) by lia.
Qed.

Lemma wildcardMatch_glob p t : ~ In star t -> wildcardMatch p t = Some (glob p t).
Proof.
  intros Hns. unfold wildcardMatch.
  destruct (wildcard_loop_correct (wildcard_fuel p t) p t 0 0 None 0) as (o & -> & ->); [done | | |].
  - split_and!; [by rewrite !drop_0 | done | lia | lia].
  - unfold wildcard_fuel. nia.
  - by destruct o.
Qed.

(** ** Rules: what a rule list means *)

Lemma dropWhile_nil p v : dropWhile p v = [] <-> forallb p v = true.
Proof. induction v as [|c v IH]; simpl; [done |]. destruct (p c); simpl; [done |]. by split. Qed.

Lemma dropWhile_suffix p v : exists w, v = w ++ dropWhile p v.
Proof.
  induction v as [|c v [w Hw]]; [by exists [] |]. simpl.
  case_if; [by exists (c :: w); simpl; rewrite <- Hw | by exists []].
Qed.

Lemma trim_sub v c : In c (trim v) -> In c v.
Proof.
  unfold trim. rewrite <- !list_elem_of_In, elem_of_reverse.
  destruct (dropWhile_suffix isBlank v) as [w1 H1].
  destruct (dropWhile_suffix isBlank (reverse (dropWhile isBlank v))) as [w2 H2].
  intros Hc. rewrite H1. apply elem_of_app. right. apply elem_of_reverse. rewrite H2.
  apply elem_of_app. by right.
Qed.

Lemma normalize_no_star v : ~ In star v -> ~ In star (normalize v).
Proof.
  intros Hv. unfold normalize. cbv zeta. case_if; [by intros [] |].
  rewrite <- list_elem_of_In, list_elem_of_fmap. intros (c & Hc & Hin).
  apply list_elem_of_fmap in Hin as (c' & -> & Hin%list_elem_of_In%trim_sub).
  unfold star, tolower in *. repeat case_if_in Hc; zbool; try lia. by subst.
Qed.

Lemma untilSeparator_sub v c : In c (untilSeparator v) -> In c v.
Proof. induction v as [|x v IH]; simpl; [done |]. case_if; simpl; [done |]. intros [?|?]; auto. Qed.

Lemma basename_no_star v : ~ In star v -> ~ In star (basename v).
Proof.
  intros Hv Hin. apply Hv. unfold basename in Hin. rewrite <- list_elem_of_In, elem_of_reverse in Hin.
  apply list_elem_of_In, untilSeparator_sub in Hin. by rewrite <- list_elem_of_In, elem_of_reverse, list_elem_of_In in Hin.
Qed.

(** A pattern against an image: patterns with a backslash see the whole path. *)
Definition rule_matches (path pattern : bytes) : bool :=
  glob pattern (if bool_decide (92 ∈ pattern) then path else basename path).

Lemma matchesAny_spec ps path :
  ~ In star path -> matchesAny ps path (basename path) = Some (existsb (rule_matches path) ps).
Proof.
  intros Hs. induction ps as [|p ps IH]; [done |]. cbn [matchesAny existsb].
  rewrite wildcardMatch_glob by (case_if; [done | by apply basename_no_star]).
  cbn [mbind option_bind]. unfold rule_matches at 1. case_if; [done | apply IH].
Qed.

(** The matcher ends on every text, stars in it included. *)
Lemma wildcard_loop_total fuel p t pi ti si r :
  (r <= ti <= length t)%nat -> (pi <= length p)%nat -> (forall s, si = Some s -> s < length p)%nat ->
  ((length t - r) * S (length p) + (length p - pi) < fuel)%nat -> is_Some (wildcard_loop fuel p t pi ti si r).
Proof.
  revert pi ti si r. induction fuel as [|fuel IH]; intros pi ti si r Hti Hpi Hsi Hf; [by apply Nat.nlt_0_r in Hf |].
  cbn [wildcard_loop]. destruct (t !! ti) as [x|] eqn:Hx; [|done]. pose proof (lookup_lt_Some _ _ _ Hx) as Hlt.
  assert (Hback : is_Some (match si with Some s => wildcard_loop fuel p t (S s) (S r) si (S r) | None => Some None end)).
  { destruct si as [s|]; [|done]. specialize (Hsi s eq_refl). apply IH; [lia | lia | by intros ? [= <-] | nia]. }
  destruct (p !! pi) as [c|] eqn:Hc; [|done]. pose proof (lookup_lt_Some _ _ _ Hc).
  destruct (_ || _); [apply IH; [lia | lia | done | nia] |]. destruct (c =? star); [|done].
  apply IH; [lia | lia | by intros ? [= <-] | nia].
Qed.

Lemma matchesAny_total ps path base : is_Some (matchesAny ps path base).
Proof.
  induction ps as [|p ps IH]; [done |]. cbn [matchesAny]. set (text := if bool_decide _ then _ else _).
  assert (Hw : is_Some (wildcardMatch p text)).
  { unfold wildcardMatch. destruct (wildcard_loop_total (wildcard_fuel p text) p text 0 0 None 0) as [o ->];
      [lia | lia | done | unfold wildcard_fuel; nia |]. by destruct o. }
  destruct Hw as [b ->]. cbn [mbind option_bind]. by case_if.
Qed.

Lemma allowsImage_total r img : is_Some (allowsImage r img).
Proof.
  unfold allowsImage. case_if; [done |]. cbv zeta. case_if; [done |].
  destruct (matchesAny_total (excludes_ r) (normalize img) (basename (normalize img))) as [b ->]. cbn [mbind option_bind].
  case_if; [done |]. case_if; [done |]. apply matchesAny_total.
Qed.

(** A list under construction: distinct non-empty patterns within the cap. *)
Definition rule_list (result : list bytes) : Prop :=
  NoDup result /\ Forall (λ r, r <> []) result /\ zlen result <= kMaximumRules.

(** What the values added to [result] and [rejected]: every pattern comes from a value; a
    value that is neither kept nor blank is counted, and only such a value is. *)
Definition kept (values result : list bytes) (rejected : Z) (res : list bytes) (rej : Z) : Prop :=
  rejected <= rej /\
  (forall r, r ∈ res -> r ∈ result \/ exists v, v ∈ values /\ normalize v = r) /\
  (forall r, r ∈ result -> r ∈ res) /\
  (forall v, v ∈ values -> normalize v ∈ res \/ forallb isBlank v = true \/ rejected < rej) /\
  (rejected < rej -> exists v, v ∈ values /\ forallb isBlank v = false).

Lemma kept_nil result rejected : kept [] result rejected result rejected.
Proof. split_and!; try done; try lia; [by intros r; left | by intros v ?%elem_of_nil]. Qed.

Lemma kept_cons v values result rejected result' rejected' res rej :
  kept [v] result rejected result' rejected' -> kept values result' rejected' res rej ->
  kept (v :: values) result rejected res rej.
Proof.
  intros (N4 & N5 & N6 & N7 & N8) (I4 & I5 & I6 & I7 & I8). split_and!; [lia | | | |].
  - intros r Hr. destruct (I5 r Hr) as [Hr'|(v' & Hv' & <-)].
    + destruct (N5 r Hr') as [?|(v' & ->%list_elem_of_singleton & <-)]; [by left |].
      right. exists v. split; [apply elem_of_cons; by left | done].
    + right. exists v'. split; [apply elem_of_cons; by right | done].
  - intros r Hr. by apply I6, N6.
  - intros v' [->|Hv']%elem_of_cons.
    + destruct (N7 v) as [?|[?|?]]; [by apply list_elem_of_singleton | left; by apply I6 | auto | right; right; lia].
    + destruct (I7 v' Hv') as [?|[?|?]]; [by left | auto | right; right; lia].
  - intros Hr. destruct (Z_lt_ge_dec rejected rejected') as [Hl|Hl].
    + destruct (N8 Hl) as (v' & ->%list_elem_of_singleton & ?).
      exists v. split; [apply elem_of_cons; by left | done].
    + destruct I8 as (v' & Hv' & ?); [lia |]. exists v'. split; [apply elem_of_cons; by right | done].
Qed.

(** The step for one value that leaves the list alone, and the one that extends it. *)
Lemma kept_skip v result rejected rejected' :
  rejected <= rejected' ->
  (normalize v ∈ result \/ forallb isBlank v = true \/ rejected < rejected') ->
  (rejected < rejected' -> forallb isBlank v = false) -> kept [v] result rejected result rejected'.
Proof.
  intros ? Hk Hb. split_and!; [done | by intros r; left | done | by intros v' ->%list_elem_of_singleton |].
  intros ?. exists v. split; [by apply list_elem_of_singleton | auto].
Qed.

Lemma kept_add v result rejected : kept [v] result rejected (result ++ [normalize v]) rejected.
Proof.
  split_and!; try lia.
  - intros r [Hr|Hr%list_elem_of_singleton]%elem_of_app; [by left |]. right. exists v.
    split; [by apply list_elem_of_singleton | done].
  - intros r Hr. apply elem_of_app. by left.
  - intros v' ->%list_elem_of_singleton. left. apply elem_of_app. right. by apply list_elem_of_singleton.
Qed.

Lemma normalizeRules_loop_spec values result rejected :
  rule_list result -> 0 <= rejected -> rejected + zlen values < 2 ^ 64 ->
  let '(res, rej) := normalizeRules_loop values result rejected in
  rule_list res /\ kept values result rejected res rej.
Proof.
  revert result rejected. induction values as [|v values IH]; intros result rejected Hl H0 Hlt.
  { split; [done | apply kept_nil]. }
  rewrite zlen_cons in Hlt. pose proof (zlen_nonneg values). cbn [normalizeRules_loop]. cbv zeta.
  assert (Hstep : forall result' rejected', rule_list result' -> rejected <= rejected' <= rejected + 1 ->
    kept [v] result rejected result' rejected' ->
    let '(res, rej) := normalizeRules_loop values result' rejected' in
    rule_list res /\ kept (v :: values) result rejected res rej).
  { intros result' rejected' Hl' Hr Hk. specialize (IH result' rejected' Hl' ltac:(lia) ltac:(lia)).
    destruct (normalizeRules_loop values result' rejected') as [res rej]. destruct IH as [? ?].
    split; [done | by eapply kept_cons]. }
  assert (Hblank : normalize v <> [] -> forallb isBlank v = false).
  { intros Hn. destruct (forallb isBlank v) eqn:Eb; [|done]. exfalso. apply Hn.
    unfold normalize, trim. by rewrite (proj2 (dropWhile_nil isBlank v) Eb). }
  destruct (bool_decide (normalize v = [])) eqn:En.
  { destruct (forallb isBlank v) eqn:Eb; [|rewrite w64_small by lia];
      apply Hstep; try done; try lia; apply kept_skip; auto; try lia; right; right; lia. }
  apply bool_decide_eq_false in En. specialize (Hblank En).
  destruct (bool_decide (normalize v ∈ result)) eqn:Ei.
  { apply bool_decide_eq_true in Ei. apply Hstep; [done | lia |]. apply kept_skip; auto; lia. }
  apply bool_decide_eq_false in Ei. destruct (zlen result =? kMaximumRules) eqn:Ek; zbool.
  { rewrite w64_small by lia. apply Hstep; [done | lia |]. apply kept_skip; auto; lia. }
  apply Hstep; [|lia | apply kept_add]. destruct Hl as (Hnd & Hne & Hmax). split_and!.
  - apply NoDup_app. split_and!; [done | |apply NoDup_singleton].
    intros x Hx ->%list_elem_of_singleton. done.
  - apply Forall_app. split; [done | by constructor].
  - rewrite zlen_app, zlen_cons, zlen_nil. lia.
Qed.

Lemma normalizeRules_spec values :
  zlen values < 2 ^ 64 ->
  let '(res, rej) := normalizeRules values in rule_list res /\ kept values [] 0 res rej.
Proof.
  intros. apply normalizeRules_loop_spec; [|lia | lia].
  split_and!; [constructor | constructor | rewrite zlen_nil; unfold kMaximumRules; lia].
Qed.

(** A list whose patterns were all dropped is told from a blank one by the counter. *)
Lemma normalizeRules_blank values :
  zlen values < 2 ^ 64 ->
  (normalizeRules values).1 = [] ->
  (normalizeRules values).2 = 0 <-> Forall (λ v, forallb isBlank v = true) values.
Proof.
  intros Hz. pose proof (normalizeRules_spec values Hz) as H.
  destruct (normalizeRules values) as [res rej]. destruct H as (_ & K1 & _ & _ & K4 & K5). simpl. intros ->.
  split.
  - intros ->. apply Forall_forall. intros v Hv. destruct (K4 v Hv) as [?%elem_of_nil|[?|?]]; [done | done | lia].
  - intros Hall. destruct (Z.eq_dec rej 0) as [|Hne]; [done |]. destruct K5 as (v & Hv & Hb); [lia |].
    rewrite Forall_forall in Hall. specialize (Hall v Hv). congruence.
Qed.

(** With room for all of them, every pattern that is not empty is kept. *)
Lemma normalizeRules_keeps values v :
  zlen values <= kMaximumRules -> v ∈ values -> normalize v <> [] -> normalize v ∈ (normalizeRules values).1.
Proof.
  assert (Hloop : forall values result rejected, zlen result + zlen values <= kMaximumRules ->
    (normalize v ∈ result \/ v ∈ values) -> normalize v <> [] -> normalize v ∈ (normalizeRules_loop values result rejected).1).
  { clear. intros values. induction values as [|u values IH]; intros result rejected Hz Hin Hne; cbn [normalizeRules_loop].
    { by destruct Hin as [?|?%elem_of_nil]. }
    rewrite zlen_cons in Hz. pose proof (zlen_nonneg values). cbv zeta.
    assert (Hin' : normalize v ∈ result \/ v = u \/ v ∈ values) by (rewrite elem_of_cons in Hin; tauto).
    destruct (bool_decide_reflect (normalize u = [])) as [E|E].
    { apply IH; [lia | | done]. destruct Hin' as [?|[->|?]]; [by left | done | by right]. }
    destruct (bool_decide_reflect (normalize u ∈ result)) as [Ei|Ei].
    { apply IH; [lia | | done]. destruct Hin' as [?|[->|?]]; [by left | by left | by right]. }
    rewrite (proj2 (Z.eqb_neq _ _)) by lia. apply IH; [rewrite zlen_app, zlen_cons, zlen_nil; lia | | done].
    destruct Hin' as [?|[->|?]]; [left; set_solver | left; set_solver | by right]. }
  intros Hz Hin Hne. apply Hloop; [rewrite zlen_nil; lia | by right | done].
Qed.

Lemma dropWhile_shorter p t : zlen (dropWhile p t) <= zlen t.
Proof. induction t as [|c t IH]; cbn [dropWhile]; [lia |]. case_if; rewrite ?zlen_cons; lia. Qed.
Lemma dropWhile_head p t c rest : dropWhile p t = c :: rest -> p c = false.
Proof. induction t as [|d t IH]; cbn [dropWhile]; [done |]. destruct (p d) eqn:E; [done |]. by intros [= <- _]. Qed.

(** A pattern within the limit is empty after normalization exactly when it is blank. *)
Lemma normalize_empty p : zlen p <= kMaximumRuleLength -> normalize p = [] <-> forallb isBlank p = true.
Proof.
  intros Hz. unfold normalize, trim. cbv zeta. set (t := dropWhile isBlank p). rewrite <- (dropWhile_nil isBlank p). fold t.
  assert (Hrev : forall l : bytes, zlen (reverse l) = zlen l) by (intros l; unfold zlen; by rewrite length_reverse).
  pose proof (dropWhile_shorter isBlank p) as H1. pose proof (dropWhile_shorter isBlank (reverse t)) as H2. rewrite Hrev in H2. fold t in H1.
  rewrite (proj2 (Z.ltb_ge _ _)) by (rewrite Hrev; lia). split; [|intros ->; done].
  intros E. apply fmap_nil_inv, fmap_nil_inv in E. apply (f_equal reverse) in E. rewrite reverse_involutive in E.
  destruct t as [|c rest] eqn:Et; [done |]. exfalso. rewrite reverse_cons in E. change (reverse []) with ([] : bytes) in E.
  pose proof (dropWhile_head _ _ _ _ Et) as Hc. apply dropWhile_nil in E. rewrite forallb_app in E. cbn in E. by rewrite Hc, andb_false_r in E.
Qed.

(** ** The cache over every interleaving of its critical sections *)

Lemma endpoint_eqb_key l r : endpoint_eqb l r = true <-> endpointKey l = endpointKey r.
Proof.
  unfold endpoint_eqb, endpointKey. destruct l as [i p a b lp rp], r as [i' p' a' b' lp' rp'].
  unfold addressLength. cbn. split.
  - case_if; [done |]. intros [?%bool_decide_eq_true ?%bool_decide_eq_true]%andb_true_iff.
    repeat (match goal with H : _ || _ = false |- _ => apply orb_false_iff in H as [? ?] end).
    zbool. apply Bool.eqb_prop in H1. subst. congruence.
  - intros H. injection H as -> Hp Ha Hb -> ->. rewrite Bool.eqb_reflx, !Z.eqb_refl, Ha, Hb.
    assert (p = p') as -> by (by destruct p, p'). by rewrite !bool_decide_eq_true_2.
Qed.

Section CacheTraces.
Context `{!MapOrder EndpointKey} `{!MapOrder Z}.

(** One critical section of some thread. [CInsert] is the last section of a call that
    found no live decision and resolved the owner's image ([[]]: unknown). *)
Inductive CacheOp :=
  | CHit (e : Endpoint) (now : Z)
  | CNameInsert (pid : Z) (img : bytes) (now : Z)
  | CInsert (e : Endpoint) (img : bytes) (now : Z)
  | CForget (e : Endpoint)
  | CClear.

Definition cache_run (s : Impl) (op : CacheOp) : Impl :=
  match op with
  | CHit e now => (hitSection s e now).2
  | CNameInsert pid img now => nameInsertSection s pid img now
  | CInsert e img now =>
      match decideOn (rules_ s) e img now with Some d => insertSection s e d now | None => s end
  | CForget e => forget s e
  | CClear => clear s
  end.
Definition cache_after (rules : Rules) (ops : list CacheOp) : Impl := foldl cache_run (newImpl rules) ops.

Definition drops (k : EndpointKey) (op : CacheOp) : Prop :=
  match op with CForget e => endpointKey e = k | CClear => True | _ => False end.

(** A decision of the cache comes from an insertion for that tuple that was not dropped
    since. *)
Definition decided (rules : Rules) (ops : list CacheOp) (k : EndpointKey) (d : Decision) : Prop :=
  exists pre e img now post d0,
    ops = pre ++ CInsert e img now :: post /\ endpointKey e = k /\
    Forall (λ op, ~ drops k op) post /\ decideOn rules e img now = Some d0 /\
    intercept d = intercept d0 /\ resolved d = resolved d0.

Lemma decided_snoc rules ops k d d' op :
  decided rules ops k d -> ~ drops k op -> intercept d' = intercept d -> resolved d' = resolved d ->
  decided rules (ops ++ [op]) k d'.
Proof.
  intros (pre & e & img & now & post & d0 & -> & Hk & Hf & Hd & Hi & Hr) Hn Hi' Hr'.
  exists pre, e, img, now, (post ++ [op]), d0. rewrite <- app_assoc. split_and!; try done; [|congruence | congruence].
  apply Forall_app. split; [done |]. constructor; [done | constructor].
Qed.

Lemma makeRoom_sub s now : endpoints_ (makeRoomLocked s now) ⊆ endpoints_ s.
Proof.
  unfold makeRoomLocked. cbv zeta. repeat case_if; cbn [endpoints_].
  - apply erase_if_subseteq.
  - etrans; [apply erase_keys_subseteq | apply erase_if_subseteq].
  - apply erase_keys_subseteq.
Qed.

Lemma cache_rules rules ops : rules_ (cache_after rules ops) = rules.
Proof.
  induction ops as [|op ops IH] using rev_ind; [done |]. unfold cache_after in *. rewrite foldl_app.
  simpl. set (s := foldl _ _ _) in *. destruct op; simpl; try done.
  - unfold hitSection. destruct (endpoints_ s !! _) as [d|]; [|done]. by repeat case_if.
  - destruct (decideOn _ _ _ _); [|done]. unfold insertSection, makeRoomLocked. cbv zeta.
    by repeat case_if.
Qed.

Lemma cache_decided rules ops k d :
  endpoints_ (cache_after rules ops) !! k = Some d -> decided rules ops k d.
Proof.
  revert k d. induction ops as [|op ops IH] using rev_ind; intros k d Hk.
  { simpl in Hk. by rewrite lookup_empty in Hk. }
  pose proof (cache_rules rules ops) as Hru. unfold cache_after in *. rewrite foldl_app in Hk. simpl in Hk.
  set (s := foldl cache_run (newImpl rules) ops) in *.
  assert (Hkeep : forall d', endpoints_ s !! k = Some d' -> ~ drops k op -> intercept d = intercept d' ->
    resolved d = resolved d' -> decided rules (ops ++ [op]) k d).
  { intros d' Hd' ???. by eapply decided_snoc; [apply IH | | |]. }
  destruct op as [e now|pid img now|e img now|e|]; cbn [cache_run] in Hk.
  - unfold hitSection in Hk. destruct (endpoints_ s !! endpointKey e) as [d0|] eqn:E0;
      [|apply (Hkeep d Hk); simpl; auto].
    repeat case_if_in Hk; cbn in Hk; try (apply (Hkeep d Hk); simpl; auto).
    apply lookup_insert_Some in Hk as [[<- <-]|[_ Hk]]; [apply (Hkeep d0 E0) | apply (Hkeep d Hk)]; simpl; auto.
  - apply (Hkeep d Hk); simpl; auto.
  - destruct (decideOn (rules_ s) e img now) as [d1|] eqn:Ed; [|apply (Hkeep d Hk); simpl; auto].
    unfold insertSection in Hk. cbn [endpoints_] in Hk.
    apply lookup_insert_Some in Hk as [[<- <-]|[_ Hk]].
    + rewrite Hru in Ed. exists ops, e, img, now, [], d1. split_and!; try done; constructor.
    + assert (Hs : endpoints_ s !! k = Some d).
      { case_if_in Hk; [|done]. by eapply lookup_weaken; [|apply makeRoom_sub]. }
      apply (Hkeep d Hs); simpl; auto.
  - cbn in Hk. apply lookup_delete_Some in Hk as [Hne Hk]. by apply (Hkeep d Hk).
  - cbn in Hk. by rewrite lookup_empty in Hk.
Qed.

#[local] Instance victim_le_trans : Transitive victim_le.
Proof.
  intros [[i x] a] [[j y] b] [[k z] c]. unfold victim_le. simpl. destruct i, j, k; simpl; try done; lia.
Qed.
#[local] Instance victim_le_total : Total victim_le.
Proof. intros [[i x] a] [[j y] b]. unfold victim_le. simpl. destruct i, j; simpl; auto; lia. Qed.

Lemma evictEndpoints_ranked m :
  evictEndpoints m =
  erase_keys (smallest victim_le (Z.max 1 (msize m / 16)) (ranked (λ d, (intercept d, expiresAtMs d)) m)).*2 m.
Proof. unfold evictEndpoints. rewrite <- (zlen_ranked (λ d, (intercept d, expiresAtMs d)) m). done. Qed.

Lemma evictEndpoints_size m :
  m <> ∅ -> msize m - Z.max 1 (msize m / 16) <= msize (evictEndpoints m) <= msize m - 1.
Proof. intros Hm. rewrite evictEndpoints_ranked. apply evict_size; [done | lia]. Qed.

Lemma evictEndpoints_le m k d k' d' :
  m !! k = Some d -> evictEndpoints m !! k = None -> evictEndpoints m !! k' = Some d' ->
  if Bool.eqb (intercept d) (intercept d') then expiresAtMs d <= expiresAtMs d' else intercept d = false.
Proof.
  rewrite evictEndpoints_ranked. apply (evict_le (λ d, (intercept d, expiresAtMs d)) victim_le).
Qed.

Definition cache_bounded (s : Impl) : Prop :=
  msize (endpoints_ s) <= kMaximumCachedEndpoints /\ msize (processNames_ s) <= kMaximumCachedEndpoints.

Lemma makeRoom_size s now :
  msize (endpoints_ s) <= kMaximumCachedEndpoints ->
  msize (endpoints_ (makeRoomLocked s now)) <= kMaximumCachedEndpoints - 1.
Proof.
  intros Hs. unfold makeRoomLocked, kMaximumCachedEndpoints in *. cbv zeta.
  assert (Hev : forall m, msize m <= 8192 -> msize (evictEndpoints m) <= 8191).
  { intros m Hm. destruct (decide (m = ∅)) as [->|Hne].
    - etrans; [apply msize_subseteq, erase_keys_subseteq |]. rewrite msize_empty. lia.
    - pose proof (evictEndpoints_size m Hne). lia. }
  match goal with |- context [ erase_if ?f ?m ] => pose proof (msize_erase_if f m) end.
  repeat case_if; zbool; cbn [endpoints_]; [lia | apply Hev; lia | by apply Hev].
Qed.

Lemma cache_run_bounded s op : cache_bounded s -> cache_bounded (cache_run s op).
Proof.
  intros [He Hn]. destruct op as [e now|pid img now|e img now|e|]; cbn [cache_run].
  - unfold hitSection. destruct (endpoints_ s !! _) as [d|] eqn:E; [|done].
    repeat case_if; try done. split; [|done]. cbn. by rewrite (msize_insert_Some _ _ _ _ E).
  - split; [done |]. unfold nameInsertSection, kMaximumCachedEndpoints in *. cbn [processNames_].
    etrans; [apply msize_insert_le |]. case_if; zbool; [|lia].
    match goal with |- context [ erase_if ?f ?m ] => pose proof (msize_erase_if f m); set (m' := erase_if f m) in * end.
    case_if; zbool; [|lia]. destruct (iter m') as [|[k n] l] eqn:Ei.
    + apply iter_nil in Ei. rewrite Ei, msize_empty in *. lia.
    + assert (m' !! k = Some n) as Hk by (apply iter_In; rewrite Ei; by left).
      unfold msize in *. rewrite map_size_delete, Hk. simpl. lia.
  - destruct (decideOn _ _ _ _) as [d|]; [|done]. unfold insertSection. cbn [endpoints_ processNames_].
    destruct (_ && _) eqn:Ec.
    + split; cbn [endpoints_ processNames_].
      * etrans; [apply msize_insert_le |]. pose proof (makeRoom_size s now He). lia.
      * unfold makeRoomLocked. cbv zeta. by repeat case_if.
    + split; [|done]. cbn. apply andb_false_iff in Ec as [Ec|Ec]; zbool.
      * etrans; [apply msize_insert_le |]. unfold kMaximumCachedEndpoints in *. lia.
      * destruct Ec as [d' Hd']. by rewrite (msize_insert_Some _ _ _ _ Hd').
  - split; [|done]. cbn. etrans; [apply msize_delete_le | done].
  - split; cbn; rewrite msize_empty; unfold kMaximumCachedEndpoints; lia.
Qed.

(** The images a name lookup can return: those stored for the process. *)
Lemma cache_names rules ops pid n :
  processNames_ (cache_after rules ops) !! pid = Some n ->
  exists now, In (CNameInsert pid (image n) now) ops.
Proof.
  revert pid n. induction ops as [|op ops IH] using rev_ind; intros pid n Hn.
  { simpl in Hn. by rewrite lookup_empty in Hn. }
  unfold cache_after in *. rewrite foldl_app in Hn. simpl in Hn. set (s := foldl _ _ _) in *.
  assert (Hkeep : processNames_ s !! pid = Some n -> exists now, In (CNameInsert pid (image n) now) (ops ++ [op])).
  { intros (now & Hin)%IH. exists now. apply in_app_iff. by left. }
  destruct op as [e now|p img now|e img now|e|]; cbn [cache_run] in Hn; try (by apply Hkeep).
  - apply Hkeep. revert Hn. unfold hitSection. destruct (endpoints_ s !! _); [|done]. by repeat case_if.
  - unfold nameInsertSection in Hn. cbn [processNames_] in Hn.
    apply lookup_insert_Some in Hn as [[<- <-]|[_ Hn]].
    + exists now. apply in_app_iff. right. by left.
    + apply Hkeep. repeat case_if_in Hn; try done.
      * destruct (iter _) as [|[k x] l]; [|apply lookup_delete_Some in Hn as [_ Hn]]; by apply lookup_erase_if in Hn as [? _].
      * by apply lookup_erase_if in Hn as [? _].
  - apply Hkeep. revert Hn. destruct (decideOn _ _ _ _); [|done]. unfold insertSection, makeRoomLocked.
    cbv zeta. by repeat case_if.
Qed.

Lemma decideOn_intercept r e img now d :
  decideOn r e img now = Some d -> intercept d = true -> img <> [] /\ allowsImage r img = Some true.
Proof.
  unfold decideOn. destruct (bool_decide (img = [])) eqn:Ei; zbool; cbn [mbind option_bind].
  - by intros [= <-].
  - destruct (allowsImage r img) as [i|]; [|done]. cbn. intros [= <-]. cbn. by intros ->.
Qed.

(** Every question gets an answer. *)
Lemma shouldIntercept_total p s e outb new nowMs tick : is_Some (shouldIntercept p s e outb new nowMs tick).
Proof.
  unfold shouldIntercept. case_if; [done |]. case_if; [done |]. cbv zeta. destruct (hitSection _ _ _) as [[i|] s1]; [done |].
  case_if; [done |]. set (own := if bool_decide _ then tcpOwner p e else _). destruct (match own with Some _ => _ | None => _ end) as [img s2].
  unfold decideOn. destruct (allowsImage_total (rules_ s2) img) as [i ->]. by destruct (bool_decide (img = [])).
Qed.

(** ** Properties *)

(** C10: Only an identified process is intercepted. With rules enabled, whatever the history
    of the cache and however the calls of other threads interleave, a packet is
    intercepted only if some process image that the rules allow was resolved for its
    tuple: either by an earlier call whose decision was not forgotten or cleared since, or
    by this call, which then is for an outbound packet (a SYN, for TCP) whose owner the
    connection table names. *)
Theorem intercept_justified (p : Platform) (rules : Rules) (ops : list CacheOp) (e : Endpoint)
    (outbound newTcpFlow : bool) (nowMs tick : Z) (s' : Impl) :
  enabled rules = true ->
  shouldIntercept p (cache_after rules ops) e outbound newTcpFlow nowMs tick = Some (true, s') ->
  exists img, img <> [] /\ allowsImage rules img = Some true /\
    ((exists pre e' now post, ops = pre ++ CInsert e' img now :: post /\
        endpoint_eqb e' e = true /\ Forall (λ op, ~ drops (endpointKey e) op) post) \/
     (outbound = true /\ (protocol e = Tcp -> newTcpFlow = true) /\
      exists pid, (if bool_decide (protocol e = Tcp) then tcpOwner p e else udpOwner p e) = Some pid /\
        (img = processImage p pid \/ exists now, In (CNameInsert pid img now) ops))).
Proof.
  intros Hen. unfold shouldIntercept. rewrite cache_rules, Hen. cbn [negb].
  destruct (_ || _); [done |]. cbv zeta. set (now := if nowMs =? 0 then tick else nowMs).
  destruct (hitSection (cache_after rules ops) e now) as [[i|] s1] eqn:Eh.
  - intros [= -> _]. unfold hitSection in Eh.
    destruct (endpoints_ _ !! endpointKey e) as [d|] eqn:Ed; [|done].
    case_if_in Eh; [|done]. injection Eh as Hi _.
    destruct (cache_decided _ _ _ _ Ed) as (pre & e' & img & n0 & post & d0 & -> & Hk & Hf & Hd & Hi' & _).
    destruct (decideOn_intercept _ _ _ _ _ Hd) as [? ?]; [congruence |].
    exists img. split_and!; try done. left. exists pre, e', n0, post. split_and!; try done.
    by apply endpoint_eqb_key.
  - assert (s1 = cache_after rules ops) as ->.
    { unfold hitSection in Eh. destruct (endpoints_ _ !! _); [case_if_in Eh|]; by simplify_eq. }
    destruct (negb outbound || _) eqn:Eg; [done |]. apply orb_false_iff in Eg as [Eo Et].
    set (owner := if bool_decide (protocol e = Tcp) then tcpOwner p e else udpOwner p e).
    destruct (match owner with Some pid => _ | None => _ end) as [img s2] eqn:Ei.
    destruct (decideOn (rules_ s2) e img now) as [d|] eqn:Ed; [|done]. cbn. intros [= Hd _].
    assert (Hr : rules_ s2 = rules /\ (img <> [] -> exists pid, owner = Some pid /\
      (img = processImage p pid \/ exists now, In (CNameInsert pid img now) ops))).
    { destruct owner as [pid|]; [|by injection Ei as <- <-; rewrite cache_rules].
      unfold cachedProcessImage, nameHitSection in Ei.
      destruct (processNames_ _ !! pid) as [n|] eqn:En.
      - destruct (now <? pn_expiresAtMs n); injection Ei as <- <-; (split; [apply cache_rules |]);
          intros _; exists pid; (split; [done |]); [right | by left].
        by eapply cache_names.
      - injection Ei as <- <-. split; [apply cache_rules |]. intros _. exists pid. by split; [|left]. }
    destruct Hr as [Hr Hown]. rewrite Hr in Ed. destruct (decideOn_intercept _ _ _ _ _ Ed Hd) as [Hne Hal].
    exists img. split_and!; try done. right. split_and!; [by destruct outbound | | by apply Hown].
    intros Hp. rewrite bool_decide_eq_true_2 in Et by done. by destruct newTcpFlow.
Qed.

(** Both tables of the filter stay within 8192 entries over every interleaving, and a full
    cache of live tuples makes room by dropping at least one and at most a sixteenth of
    them: bypassed tuples before intercepted ones, and among equals the least recently
    used. *)
Theorem filter_cache_bounded (rules : Rules) (ops : list CacheOp) :
  let s := cache_after rules ops in
  cache_bounded s /\
  (endpoints_ s <> ∅ ->
     msize (endpoints_ s) - Z.max 1 (msize (endpoints_ s) / 16) <=
     msize (evictEndpoints (endpoints_ s)) <= msize (endpoints_ s) - 1) /\
  (forall k d k' d', endpoints_ s !! k = Some d -> evictEndpoints (endpoints_ s) !! k = None ->
     evictEndpoints (endpoints_ s) !! k' = Some d' ->
     if Bool.eqb (intercept d) (intercept d') then expiresAtMs d <= expiresAtMs d' else intercept d = false).
Proof.
  cbv zeta. split_and!; [|apply evictEndpoints_size | apply evictEndpoints_le].
  unfold cache_after. induction ops as [|op ops IH] using rev_ind.
  - split; cbn; rewrite msize_empty; unfold kMaximumCachedEndpoints; lia.
  - rewrite foldl_app. by apply cache_run_bounded.
Qed.
End CacheTraces.

(** [wildcardMatch] decides the pattern language: on every pattern and every text
    without a literal star (no Windows file name has one) the backtracking matcher
    terminates, and answers whether the text belongs to the language in which [?] is any
    character and [*] any text. *)
Theorem wildcard_is_glob (pattern text : bytes) :
  ~ In star text -> wildcardMatch pattern text = Some (glob pattern text).
Proof. apply wildcardMatch_glob. Qed.

(** What the rule lists mean. For every pair of lists and every image path, the rules
    decide, and allow exactly the images that are not blank or over-long, match no exclude
    pattern, and match an include pattern or face an include list of blank entries only:
    excludes win, and an include list whose patterns were all dropped allows nothing. *)
Theorem rules_decide (includes excludes : list bytes) (path : bytes) :
  zlen includes < 2 ^ 64 -> zlen excludes < 2 ^ 64 -> ~ In star path ->
  let r := newRules includes excludes in
  rule_list (includes_ r) /\ rule_list (excludes_ r) /\
  exists b, allowsImage r path = Some b /\
    (b = true <->
     normalize path <> [] /\
     (forall x, x ∈ excludes_ r -> rule_matches (normalize path) x = false) /\
     (Forall (λ v, forallb isBlank v = true) includes \/
      exists i, i ∈ includes_ r /\ rule_matches (normalize path) i = true)).
Proof.
  intros Hi He Hs. cbv zeta. unfold newRules.
  pose proof (normalizeRules_spec includes Hi) as Hin. pose proof (normalizeRules_blank includes Hi) as Hbl.
  pose proof (normalizeRules_spec excludes He) as Hex.
  destruct (normalizeRules includes) as [inc ri]. destruct (normalizeRules excludes) as [exc re].
  destruct Hin as (Li & _ & Kfrom & _), Hex as (Le & _). cbn [includes_ excludes_ fst snd] in *.
  split_and!; [done | done |]. unfold allowsImage, includeListInvalid. cbn [includes_ excludes_ rejectedIncludes_].
  rewrite !matchesAny_spec by (by apply normalize_no_star).
  assert (Hexi : forall l, existsb (rule_matches (normalize path)) l = true <->
    exists i, i ∈ l /\ rule_matches (normalize path) i = true).
  { intros l. rewrite existsb_exists. by setoid_rewrite list_elem_of_In. }
  assert (Hblank : inc <> [] -> ~ Forall (λ v, forallb isBlank v = true) includes).
  { intros Hne Hall. destruct Li as (_ & Hn & _). destruct inc as [|x inc]; [done |]. 
    apply Forall_cons in Hn as [Hx _]. destruct (Kfrom x) as [?%elem_of_nil|(v & Hv & <-)];
      [apply elem_of_cons; by left | done |].
    rewrite Forall_forall in Hall. apply Hx. unfold normalize, trim.
    by rewrite (proj2 (dropWhile_nil isBlank v) (Hall v Hv)). }
  destruct (bool_decide (inc = []) && negb (ri =? 0)) eqn:Einv.
  { exists false. split; [done |]. split; [done |]. intros (_ & _ & Hor).
    apply andb_true_iff in Einv as [Hnil%bool_decide_eq_true Hri]. zbool. subst inc.
    destruct Hor as [Hall|(i & ?%elem_of_nil & _)]; [|done]. exfalso. by apply Hri, Hbl. }
  destruct (bool_decide (normalize path = [])) eqn:Enp; zbool;
    [exists false; split; [done |]; split; [done | by intros [? _]] |].
  cbn [mbind option_bind]. destruct (existsb _ exc) eqn:Eex.
  { exists false. split; [done |]. split; [done |]. intros (_ & Hno & _).
    apply Hexi in Eex as (x & Hx & Hm). specialize (Hno x Hx). congruence. }
  assert (Hno : forall x, x ∈ exc -> rule_matches (normalize path) x = false).
  { intros x Hx. destruct (rule_matches _ x) eqn:Em; [|done].
    rewrite <- Eex. symmetry. apply Hexi. eauto. }
  destruct (bool_decide (inc = [])) eqn:Ein; zbool.
  - exists true. split; [done |]. split; [|done]. intros _. split_and!; [done | done |]. left.
    apply Hbl; [done |]. destruct Einv as [?|?]; [done |]. by zbool.
  - eexists. split; [done |]. rewrite Hexi. split.
    + intros Hi'. split_and!; auto.
    + intros (_ & _ & [Hall|?]); [by apply Hblank in Hall | done].
Qed.

(** ** Concrete runs *)

Definition sample_rules : Rules := newRules [str "Chrome*.exe"] [str "*\beta\*"].
Definition sample_endpoint : Endpoint :=
  mkEndpoint false Tcp ([10; 0; 0; 1] ++ replicate 12 0) ([1; 2; 3; 4] ++ replicate 12 0) 5000 443.
(** One connection, owned by process 77, whose image is Chrome. *)
Definition sample_platform : Platform :=
  mkPlatform
    (λ _ n _, match n with
              | O => (122, 28, [])
              | _ => (0, 28, [mkRow [10; 0; 0; 1] 0x8813 [1; 2; 3; 4] 0xBB01 77])
              end)
    (λ _ _ _, (0, 0, [])) (λ _, 28) (λ _, 16)
    (λ pid, if pid =? 77 then Some (str "C:/Apps/Chrome.exe") else None).

Example sample_intercepted :
  fst <$> shouldIntercept sample_platform (newImpl sample_rules) sample_endpoint true true 1000 0 = Some true.
Proof. vm_compute. reflexivity. Qed.
Example sample_excluded : allowsImage sample_rules (str "C:/beta/chrome.exe") = Some false.
Proof. vm_compute. reflexivity. Qed.
(** A list of blank entries is not a list whose entries were dropped. *)
Example blank_includes : allowsImage (newRules [str " "] []) (str "a.exe") = Some true.
Proof. vm_compute. reflexivity. Qed.
(** A literal star in the text is taken for the pattern's own. *)
Example literal_star : wildcardMatch (str "*") (str "*a") = Some false /\ glob (str "*") (str "*a") = true.
Proof. split; vm_compute; reflexivity. Qed.

Lemma wildcard_is_glob_witness : wildcardMatch (str "a*b?c") (str "axxbyc") = Some true.
Proof. apply (wildcard_is_glob (str "a*b?c") (str "axxbyc")). vm_compute. intuition discriminate. Defined.

Lemma rules_decide_witness :
  exists b, allowsImage sample_rules (str "C:/Apps/Chrome.exe") = Some b.
Proof.
  destruct (rules_decide [str "Chrome*.exe"] [str "*\beta\*"] (str "C:/Apps/Chrome.exe"))
    as (_ & _ & b & Hb & _).
  - vm_compute. reflexivity.
  - vm_compute. reflexivity.
  - vm_compute. intuition discriminate.
  - exists b. exact Hb.
Defined.

Lemma intercept_justified_witness :
  exists img, img <> [] /\ allowsImage sample_rules img = Some true.
Proof.
  destruct (intercept_justified sample_platform sample_rules
              [CNameInsert 78 (str "x") 5] sample_endpoint true true 1000 0
              (default (newImpl sample_rules)
                 (snd <$> shouldIntercept sample_platform
                    (cache_after sample_rules [CNameInsert 78 (str "x") 5]) sample_endpoint true true 1000 0)))
    as (img & Hne & Hal & _).
  - vm_compute. reflexivity.
  - vm_compute. reflexivity.
  - exists img. exact (conj Hne Hal).
Defined.
