(* ===== verification/DivertPacket.v ===== *)
(** * DivertPacket: IP packets as the interceptor sees them

    Models [src/src/WinDivertPacket.cpp] and the header accesses of
    [src/src/WinDivertInterceptor.cpp]. The two WinDivert helpers the program calls, the
    packet parser and the checksum calculator, are the class [WinDivert]; what their manual
    promises is the class [WinDivertLaws], and [PlainWinDivert] is an instance of both for
    packets without IPv6 extension headers. A header pointer is its offset in the packet. *)

From S2P Require Import Prelude.

(** ** Addresses and parsed packets *)

(** [WINDIVERT_ADDRESS]: the flags the program uses and the rest. *)
Record DivertAddress := mkDivertAddress {
  Outbound : bool;
  IPChecksum : bool;
  TCPChecksum : bool;
  UDPChecksum : bool;
  otherFields : Z;
}.
Definition setOutbound (b : bool) (a : DivertAddress) : DivertAddress :=
  mkDivertAddress b (IPChecksum a) (TCPChecksum a) (UDPChecksum a) (otherFields a).

(** Which of the two IP header pointers is set; the header is at the start of the packet. *)
Inductive Family := V4 | V6.
#[export] Instance Family_eq_dec : EqDecision Family.
Proof. solve_decision. Defined.

(** What [WinDivertHelperParsePacket] writes: the IP header, the offsets of the TCP and UDP
    headers, offset and length of the payload, the length of what follows the packet. *)
Record Parsed := mkParsed {
  p_ip : option Family;
  p_tcp : option Z;
  p_udp : option Z;
  p_payload : option (Z * Z);
  p_next : Z;
}.

Class WinDivert := {
  parse : bytes -> option Parsed;
  calcChecksums : bytes -> DivertAddress -> bytes * DivertAddress;
}.

Definition WINDIVERT_MTU_MAX : Z := 40 + 0xFFFF.
Definition sizeofIp (f : Family) : Z := match f with V4 => 20 | V6 => 40 end.
Definition isV6 (f : Family) : bool := match f with V4 => false | V6 => true end.
Definition sizeofTcp : Z := 20.
Definition sizeofUdp : Z := 8.

(** ** Fields *)

(** [memcpy] of [bs] to offset [i]; [None] is a write outside the buffer. *)
Definition store (d : bytes) (i : Z) (bs : bytes) : option bytes :=
  if (0 <=? i) && (i + zlen bs <=? zlen d)
  then Some (take (Z.to_nat i) d ++ bs ++ drop (Z.to_nat (i + zlen bs)) d) else None.

(** A field of [n] bytes at [i]; [None] is a read outside the buffer. *)
Definition fetchField (d : bytes) (i n : Z) : option bytes :=
  if (0 <=? i) && (i + n <=? zlen d) then Some (slice d i n) else None.

Definition srcAddrAt (f : Family) : Z := match f with V4 => 12 | V6 => 8 end.
Definition dstAddrAt (f : Family) : Z := match f with V4 => 16 | V6 => 24 end.
Definition addrSize (f : Family) : Z := match f with V4 => 4 | V6 => 16 end.
Definition ttlAt (f : Family) : Z := match f with V4 => 8 | V6 => 7 end.
Definition lengthAt (f : Family) : Z := match f with V4 => 2 | V6 => 4 end.

Definition setIpLength (f : Family) (d : bytes) : option bytes :=
  store d (lengthAt f) (be16 (match f with V4 => w16 (zlen d) | V6 => w16 (zlen d - sizeofIp V6) end)).

Definition swapAddresses (f : Family) (d : bytes) : option bytes :=
  s ← fetchField d (srcAddrAt f) (addrSize f);
  t ← fetchField d (dstAddrAt f) (addrSize f);
  d ← store d (srcAddrAt f) t;
  store d (dstAddrAt f) s.

Definition packetTtl (f : Family) (d : bytes) : option Z := rd d (ttlAt f).

(** The flags of the TCP header at [t]. *)
Definition tcpFlag (mask : Z) (d : bytes) (t : Z) : option bool :=
  b ← rd d (t + 13); Some (negb (Z.land b mask =? 0)).
Definition Fin : bytes -> Z -> option bool := tcpFlag 0x01.
Definition Syn : bytes -> Z -> option bool := tcpFlag 0x02.
Definition Rst : bytes -> Z -> option bool := tcpFlag 0x04.
Definition Ack : bytes -> Z -> option bool := tcpFlag 0x10.

(** ** Variants of a packet *)

Section Variant.
Context `{WinDivert}.

(** The headers with another payload behind them, the wire length put right:
    [Some None] is [return {}]. *)
Definition copyHeaders (packet : bytes) (headerLength : Z) (replacement : bytes) : option (option bytes) :=
  if (headerLength =? 0) || (WINDIVERT_MTU_MAX <? headerLength + zlen replacement) then Some None else
  let out := take (Z.to_nat headerLength) packet ++ replacement in
  b0 ← rd out 0;
  let isIpv6 := Z.shiftr b0 4 =? 6 in
  let ipBase := if isIpv6 then sizeofIp V6 else 0 in
  if (zlen out <? ipBase) || (0xFFFF <? zlen out - ipBase) then Some None else
  out ← store out (if isIpv6 then 4 else 2) (be16 (w16 (zlen out - ipBase)));
  Some (Some out).

(** The end of [buildTcpVariant], on the headers found in the copy. *)
Definition finishTcp (f : Family) (t : Z) (sequenceOffset : Z) (address : DivertAddress) (ttl : Z)
    (corruptChecksum : bool) (out : bytes) : option bytes :=
  out ← setIpLength f out;
  out ← (if negb (ttl =? 0) then store out (ttlAt f) [ttl] else Some out);
  sequence ← rd32 out (t + 4);
  out ← store out (t + 4) (be32 (w32 (sequence + w32 sequenceOffset)));
  let out := (calcChecksums out address).1 in
  if corruptChecksum then c ← rd16 out (t + 16); store out (t + 16) (be16 (Z.lxor c 0xFFFF)) else Some out.

(** [buildTcpVariant]: the empty list is [return {}], [None] an access outside a buffer;
    [payload] is the offset of the payload pointer. *)
Definition buildTcpVariant (packet : bytes) (payload : option Z) (replacement : bytes) (sequenceOffset : Z)
    (address : DivertAddress) (ttl : Z) (corruptChecksum : bool) : option bytes :=
  match payload, parse packet with
  | Some payload, Some p =>
      match p_tcp p, p_payload p with
      | Some _, Some (parsedPayload, _) =>
          if negb (parsedPayload =? payload) then Some [] else
          copy ← copyHeaders packet parsedPayload replacement;
          match copy with
          | None => Some []
          | Some out =>
              match parse out with
              | Some q =>
                  match p_ip q, p_tcp q with
                  | Some f, Some t => finishTcp f t sequenceOffset address ttl corruptChecksum out
                  | _, _ => Some []
                  end
              | None => Some []
              end
          end
      | _, _ => Some []
      end
  | _, _ => Some []
  end.

(** The end of [buildUdpVariant]; [n] is the length of the new payload. *)
Definition finishUdp (f : Family) (u n : Z) (address : DivertAddress) (out : bytes) : option bytes :=
  out ← setIpLength f out;
  out ← store out (u + 4) (be16 (w16 (sizeofUdp + n)));
  Some (calcChecksums out address).1.

Definition buildUdpVariant (packet : bytes) (payload : option Z) (replacement : bytes) (address : DivertAddress)
    : option bytes :=
  match payload, parse packet with
  | Some payload, Some p =>
      match p_udp p, p_payload p with
      | Some _, Some (headerLength, _) =>
          if negb (headerLength =? payload) then Some [] else
          copy ← copyHeaders packet headerLength replacement;
          match copy with
          | None => Some []
          | Some out =>
              if (headerLength <? sizeofUdp) || (0xFFFF - sizeofUdp <? zlen replacement) then Some [] else
              out ← store out (headerLength - sizeofUdp + 4) (be16 (w16 (sizeofUdp + zlen replacement)));
              match parse out with
              | Some q =>
                  match p_ip q, p_udp q with
                  | Some f, Some u => finishUdp f u (zlen replacement) address out
                  | _, _ => Some []
                  end
              | None => Some []
              end
          end
      | _, _ => Some []
      end
  | _, _ => Some []
  end.
End Variant.

(** ** What the helpers promise *)

(** The length of the packet that the IP header states. *)
Definition ipLength (f : Family) (d : bytes) : option Z :=
  l ← rd16 d (lengthAt f); Some (match f with V4 => l | V6 => l + sizeofIp V6 end).
Definition version (f : Family) : Z := match f with V4 => 4 | V6 => 6 end.

(** The headers a successful parse reports lie inside the packet, in order. *)
Record parsed_ok (d : bytes) (p : Parsed) : Prop := {
  po_next : 0 <= p_next p < zlen d;
  po_ip : forall f, p_ip p = Some f ->
    sizeofIp f <= zlen d - p_next p /\ ipLength f d = Some (zlen d - p_next p) /\
    exists b, rd d 0 = Some b /\ Z.shiftr b 4 = version f;
  po_tcp : forall t, p_tcp p = Some t ->
    p_udp p = None /\ exists f, p_ip p = Some f /\ sizeofIp f <= t /\ t + sizeofTcp <= zlen d - p_next p;
  po_udp : forall u, p_udp p = Some u ->
    p_tcp p = None /\ exists f, p_ip p = Some f /\ sizeofIp f <= u /\ u + sizeofUdp <= zlen d - p_next p;
  po_payload : forall o l, p_payload p = Some (o, l) ->
    0 < l /\ o + l = zlen d - p_next p /\ (forall t, p_tcp p = Some t -> t + sizeofTcp <= o) /\
    (forall u, p_udp p = Some u -> o = u + sizeofUdp);
  po_ihl : forall t, p_ip p = Some V4 -> p_tcp p = Some t -> exists b, rd d 0 = Some b /\ 4 * Z.land b 15 = t;
}.

(** Where the headers end. *)
Definition headerEnd (p : Parsed) (d : bytes) : Z :=
  match p_payload p with Some (o, _) => o | None => zlen d - p_next p end.

(** Header fields that do not decide where the headers are. *)
Definition ipMutable (f : Family) (i : Z) : Prop :=
  lengthAt f <= i < lengthAt f + 2 \/ i = ttlAt f \/ srcAddrAt f <= i < dstAddrAt f + addrSize f \/
  (f = V4 /\ 10 <= i < 12).
Definition mutable (p : Parsed) (i : Z) : Prop :=
  (exists f, p_ip p = Some f /\ ipMutable f i) \/
  (exists t, p_tcp p = Some t /\ (t <= i < t + 8 \/ t + 16 <= i < t + 18)) \/
  (exists u, p_udp p = Some u /\ u <= i < u + 8).

(** The checksum fields. *)
Definition checksumField (p : Parsed) (i : Z) : Prop :=
  (p_ip p = Some V4 /\ 10 <= i < 12) \/ (exists t, p_tcp p = Some t /\ t + 16 <= i < t + 18) \/
  (exists u, p_udp p = Some u /\ u + 6 <= i < u + 8).

Definition alone (p : Parsed) : Parsed := mkParsed (p_ip p) (p_tcp p) (p_udp p) (p_payload p) 0.

(** The UDP length of [d'] is that of its datagram, or nothing changed. *)
Definition udp_length_ok (d : bytes) (u : Z) (d' : bytes) : Prop :=
  rd16 d' (u + 4) = Some (zlen d' - u) \/ (rd16 d' (u + 4) = rd16 d (u + 4) /\ zlen d' = zlen d).

Class WinDivertLaws `{W : WinDivert} : Prop := {
  parse_inside : forall d p, parse d = Some p -> parsed_ok d p;
  (** The packet at the start of a buffer is parsed as it is alone. *)
  parse_alone : forall d p, parse d = Some p -> parse (take (Z.to_nat (zlen d - p_next p)) d) = Some (alone p);
  (** Headers that agree but for mutable fields and state their length are at the same
      places, whatever follows them. *)
  parse_headers : forall d p d',
    parse d = Some p -> p_next p = 0 -> p_tcp p <> None \/ p_udp p <> None -> headerEnd p d <= zlen d' ->
    (forall f, p_ip p = Some f -> ipLength f d' = Some (zlen d')) ->
    (forall u, p_udp p = Some u -> udp_length_ok d u d') ->
    (forall i, 0 <= i < headerEnd p d -> ~ mutable p i -> rd d' i = rd d i) ->
    parse d' = Some (mkParsed (p_ip p) (p_tcp p) (p_udp p)
      (if headerEnd p d <? zlen d' then Some (headerEnd p d, zlen d' - headerEnd p d) else None) 0);
  (** Only checksum fields, and the checksum flags of the address, are written. *)
  calc_zlen : forall d a, zlen (calcChecksums d a).1 = zlen d;
  calc_bytes : forall d a, all_bytes d -> all_bytes (calcChecksums d a).1;
  calc_frame : forall d a p i, parse d = Some p -> ~ checksumField p i -> rd (calcChecksums d a).1 i = rd d i;
  calc_address : forall d a, Outbound (calcChecksums d a).2 = Outbound a /\ otherFields (calcChecksums d a).2 = otherFields a;
}.

(** ** Lemmas: fields *)

Lemma store_inv d i bs d' : store d i bs = Some d' ->
  0 <= i /\ i + zlen bs <= zlen d /\ zlen d' = zlen d /\
  (forall j, rd d' j = if (i <=? j) && (j <? i + zlen bs) then rd bs (j - i) else rd d j).
Proof.
  unfold store. case_if; [|done]. intros [= <-]. zbool. pose proof (zlen_nonneg bs).
  assert (Ht : zlen (take (Z.to_nat i) d) = i) by (rewrite zlen_take; lia).
  split_and!; [lia | lia | rewrite !zlen_app, Ht, zlen_drop; lia |]. intros j.
  destruct (decide (j < i)) as [Hj|Hj].
  { rewrite rd_app_l, rd_take by lia. by rewrite (proj2 (Z.ltb_lt _ _)), (proj2 (Z.leb_gt _ _)) by lia. }
  rewrite rd_app_r, Ht, (proj2 (Z.leb_le i j)) by lia. cbn [andb]. case_if; zbool; [by rewrite rd_app_l by lia |].
  rewrite rd_app_r, rd_drop, (proj2 (Z.ltb_ge _ _)) by lia. f_equal. lia.
Qed.

Lemma store_ok d i bs : 0 <= i -> i + zlen bs <= zlen d -> exists d', store d i bs = Some d'.
Proof. intros. unfold store. rewrite !(proj2 (Z.leb_le _ _)) by lia. by eexists. Qed.

Lemma store_bytes d i bs d' : all_bytes d -> all_bytes bs -> store d i bs = Some d' -> all_bytes d'.
Proof.
  intros Hd Hb. unfold store. case_if; [|done]. intros [= <-].
  rewrite !all_bytes_app. split_and!; [by apply Forall_take | done | by apply Forall_drop].
Qed.

Lemma fetchField_ok d i n : 0 <= i -> i + n <= zlen d -> fetchField d i n = Some (slice d i n).
Proof. intros. unfold fetchField. by rewrite !(proj2 (Z.leb_le _ _)) by lia. Qed.

(** Outside the stored bytes nothing changed; inside, the field reads back. *)
Lemma store_other d i bs d' j : store d i bs = Some d' -> j < i \/ i + zlen bs <= j -> rd d' j = rd d j.
Proof.
  intros (Hi & _ & _ & Hr)%store_inv Hj. rewrite Hr. case_if; [|done]. zbool. lia.
Qed.
Lemma store_field d i bs d' j : store d i bs = Some d' -> i <= j < i + zlen bs -> rd d' j = rd bs (j - i).
Proof. intros (Hi & _ & _ & Hr)%store_inv Hj. rewrite Hr. by rewrite (proj2 (Z.leb_le _ _)), (proj2 (Z.ltb_lt _ _)) by lia. Qed.

Lemma rd16_eq d d' i j : rd d i = rd d' j -> rd d (i + 1) = rd d' (j + 1) -> rd16 d i = rd16 d' j.
Proof. intros H1 H2. unfold rd16. by rewrite H1, H2. Qed.
Lemma store_rd16 d i v d' : 0 <= v < 65536 -> store d i (be16 v) = Some d' -> rd16 d' i = Some v.
Proof.
  intros Hv Hs. rewrite <- (rd16_be16 v [] Hv), app_nil_r.
  apply rd16_eq; (rewrite (store_field _ _ _ _ _ Hs); [f_equal; lia | rewrite zlen_be16; lia]).
Qed.
Lemma rd32_eq d d' i j : (forall k, 0 <= k < 4 -> rd d (i + k) = rd d' (j + k)) -> rd32 d i = rd32 d' j.
Proof.
  intros Hk. unfold rd32. pose proof (Hk 0 ltac:(lia)) as H0. rewrite !Z.add_0_r in H0.
  by rewrite H0, (Hk 1), (Hk 2), (Hk 3) by lia.
Qed.
Lemma store_rd32 d i v d' : 0 <= v < 2 ^ 32 -> store d i (be32 v) = Some d' -> rd32 d' i = Some v.
Proof.
  intros Hv Hs. pose proof (rd32_here [] v [] Hv) as Hr. cbn [app] in Hr. rewrite app_nil_r in Hr. rewrite <- Hr.
  apply rd32_eq. intros k Hk. rewrite (store_field _ _ _ _ _ Hs); [f_equal; rewrite ?zlen_nil; lia | rewrite zlen_be32; lia].
Qed.
Lemma slice_eq d d' i j n : 0 <= i -> 0 <= j -> 0 <= n -> i + n <= zlen d -> j + n <= zlen d' ->
  (forall k, 0 <= k < n -> rd d (i + k) = rd d' (j + k)) -> slice d i n = slice d' j n.
Proof.
  intros Hi Hj Hn Hd Hd' Hk. apply list_eq. intros k. destruct (decide (Z.of_nat k < n)) as [Hkn|Hkn].
  - pose proof (rd_slice d i n (Z.of_nat k) Hi ltac:(lia)) as H1. pose proof (rd_slice d' j n (Z.of_nat k) Hj ltac:(lia)) as H2.
    rewrite Hk in H1 by lia. rewrite <- H2 in H1. unfold rd in H1.
    rewrite !(proj2 (Z.ltb_ge _ _)) in H1 by lia. by rewrite !Nat2Z.id in H1.
  - rewrite !lookup_ge_None_2; [done | |]; unfold slice; rewrite length_take, length_drop; lia.
Qed.

(** ** Lemmas: variants *)

(** [d'] is [d] but for the places in [P]. *)
Definition same_except (P : Z -> Prop) (d d' : bytes) : Prop :=
  zlen d' = zlen d /\ forall i, ~ P i -> rd d' i = rd d i.

Lemma same_except_refl P d : same_except P d d.
Proof. by split. Qed.
Lemma same_except_trans P d1 d2 d3 : same_except P d1 d2 -> same_except P d2 d3 -> same_except P d1 d3.
Proof. intros [Hz H1] [Hz' H2]. split; [congruence |]. intros i Hi. rewrite H2, H1; done. Qed.
Lemma same_except_mono (P Q : Z -> Prop) d d' : (forall i, P i -> Q i) -> same_except P d d' -> same_except Q d d'.
Proof. intros HPQ [Hz H]. split; [done |]. intros i Hi. apply H. auto. Qed.
Lemma store_same d i bs d' : store d i bs = Some d' -> same_except (λ j, i <= j < i + zlen bs) d d'.
Proof.
  intros Hs. destruct (store_inv _ _ _ _ Hs) as (_ & _ & Hz & _). split; [done |].
  intros j Hj. eapply store_other; [exact Hs | lia].
Qed.

(** The largest packet of a family. *)
Definition fits (f : Family) (n : Z) : bool := n <=? 0xFFFF + match f with V4 => 0 | V6 => sizeofIp V6 end.

(** What a TCP variant changes in the headers. *)
Definition variantField (f : Family) (t ttl i : Z) : Prop :=
  lengthAt f <= i < lengthAt f + 2 \/ (ttl <> 0 /\ i = ttlAt f) \/ t + 4 <= i < t + 8 \/
  (f = V4 /\ 10 <= i < 12) \/ t + 16 <= i < t + 18.

Lemma ipLength_stored f d d' :
  store d (lengthAt f) (be16 (match f with V4 => w16 (zlen d) | V6 => w16 (zlen d - sizeofIp V6) end)) = Some d' ->
  sizeofIp f <= zlen d -> fits f (zlen d) = true -> ipLength f d' = Some (zlen d').
Proof.
  intros Hs Hlo Hf%Z.leb_le. destruct (store_inv _ _ _ _ Hs) as (_ & _ & Hz & _). unfold ipLength.
  pose proof (store_rd16 d (lengthAt f)) as Hr. destruct f; cbn [lengthAt sizeofIp] in *.
  - rewrite (Hr (w16 (zlen d)) d' (w16_range _) Hs). cbn [mbind option_bind]. rewrite w16_small; [congruence | lia].
  - rewrite (Hr (w16 (zlen d - 40)) d' (w16_range _) Hs). cbn [mbind option_bind].
    rewrite w16_small by lia. f_equal. lia.
Qed.

Lemma ipLength_same f P d d' : same_except P d d' -> (forall i, P i -> i < lengthAt f \/ lengthAt f + 2 <= i) ->
  ipLength f d' = ipLength f d.
Proof.
  intros [_ H] HP. unfold ipLength. rewrite (rd16_eq d' d (lengthAt f) (lengthAt f)); [done | |]; apply H; intros Hi%HP; lia.
Qed.

(** The TCP packet [out] is [d], whose TCP header is at [t] and whose payload starts at [o],
    with another payload, sequence number and, unless [ttl] is zero, TTL: every other header
    byte but the checksums is the same, and the lengths are right. *)
Record tcp_variant `{WinDivert} (d : bytes) (f : Family) (t o : Z) (repl : bytes) (off ttl : Z) (out : bytes) : Prop := {
  tv_zlen : zlen out = o + zlen repl;
  tv_payload : drop (Z.to_nat o) out = repl;
  tv_length : ipLength f out = Some (zlen out);
  tv_sequence : exists s, rd32 d (t + 4) = Some s /\ rd32 out (t + 4) = Some (w32 (s + w32 off));
  tv_ttl : ttl <> 0 -> rd out (ttlAt f) = Some ttl;
  tv_headers : forall i, 0 <= i < o -> ~ variantField f t ttl i -> rd out i = rd d i;
  tv_parse : parse out = Some (mkParsed (Some f) (Some t) None (if 0 <? zlen repl then Some (o, zlen repl) else None) 0);
}.

(** The same for UDP. *)
Definition udpVariantField (f : Family) (u i : Z) : Prop :=
  lengthAt f <= i < lengthAt f + 2 \/ (f = V4 /\ 10 <= i < 12) \/ u + 4 <= i < u + 8.
Record udp_variant (d : bytes) (f : Family) (u o : Z) (repl : bytes) (out : bytes) : Prop := {
  uv_zlen : zlen out = o + zlen repl;
  uv_payload : drop (Z.to_nat o) out = repl;
  uv_length : ipLength f out = Some (zlen out);
  uv_udp_length : rd16 out (u + 4) = Some (sizeofUdp + zlen repl);
  uv_headers : forall i, 0 <= i < o -> ~ udpVariantField f u i -> rd out i = rd d i;
}.

Lemma drop_eq_rd d o x : 0 <= o -> zlen d = o + zlen x -> (forall i, o <= i -> rd d i = rd x (i - o)) -> drop (Z.to_nat o) d = x.
Proof.
  intros Ho Hz Hr. apply list_eq. intros k. rewrite lookup_drop. specialize (Hr (o + Z.of_nat k) ltac:(lia)). unfold rd in Hr.
  rewrite !(proj2 (Z.ltb_ge _ _)) in Hr by lia. replace (Z.to_nat (o + Z.of_nat k)) with (Z.to_nat o + k)%nat in Hr by lia.
  by replace (Z.to_nat (o + Z.of_nat k - o)) with k in Hr by lia.
Qed.

Section Laws.
Context `{W : WinDivert, !WinDivertLaws}.

(** The family is the one the first byte states. *)
Lemma version_family d p f : parse d = Some p -> p_ip p = Some f ->
  exists b, rd d 0 = Some b /\ (Z.shiftr b 4 =? 6) = isV6 f.
Proof.
  intros Hp Hf. destruct (po_ip _ _ (parse_inside _ _ Hp) _ Hf) as (_ & _ & b & Hb & Hv). exists b. split; [done |].
  rewrite Hv. by destruct f.
Qed.

Lemma copyHeaders_spec d p f o l repl :
  parse d = Some p -> p_next p = 0 -> p_ip p = Some f -> p_payload p = Some (o, l) -> sizeofIp f <= o ->
  if fits f (o + zlen repl) then
    exists out, copyHeaders d o repl = Some (Some out) /\ zlen out = o + zlen repl /\ ipLength f out = Some (zlen out) /\
      (forall i, o <= i -> rd out i = rd repl (i - o)) /\
      (forall i, i < o -> i < lengthAt f \/ lengthAt f + 2 <= i -> rd out i = rd d i) /\
      (all_bytes d -> all_bytes repl -> all_bytes out)
  else copyHeaders d o repl = Some None.
Proof.
  intros Hp Hn Hf Ho Hlo. destruct (po_payload _ _ (parse_inside _ _ Hp) _ _ Ho) as (Hl & Hol & _).
  destruct (version_family _ _ _ Hp Hf) as (b & Hb & Hv). assert (20 <= o) by (destruct f; cbn in Hlo; lia).
  pose proof (zlen_nonneg repl) as Hr0.
  set (out := take (Z.to_nat o) d ++ repl).
  assert (Ht : zlen (take (Z.to_nat o) d) = o) by (rewrite zlen_take; lia).
  assert (Hz : zlen out = o + zlen repl) by (unfold out; rewrite zlen_app; lia).
  assert (Hlow : forall i, i < o -> rd out i = rd d i).
  { intros i Hi. unfold out. rewrite rd_app_l, rd_take by lia. by rewrite (proj2 (Z.ltb_lt _ _)) by lia. }
  assert (Hhigh : forall i, o <= i -> rd out i = rd repl (i - o)) by (intros i Hi; unfold out; by rewrite rd_app_r, Ht by lia).
  unfold copyHeaders. rewrite (proj2 (Z.eqb_neq o 0)) by lia. cbn [orb]. fold out. rewrite Hlow, Hb by lia.
  cbn [mbind option_bind]. rewrite Hv. unfold fits, WINDIVERT_MTU_MAX.
  assert (Hstore : forall n, exists out', store out (lengthAt f) (be16 n) = Some out').
  { intros n. apply store_ok; rewrite ?zlen_be16; destruct f; cbn [lengthAt sizeofIp] in *; lia. }
  case_if; zbool.
  - rewrite (proj2 (Z.ltb_ge _ _)) by (destruct f; cbn [sizeofIp] in *; lia).
    assert (Hw : exists out', store out (lengthAt f) (be16 (match f with V4 => w16 (zlen out) | V6 => w16 (zlen out - sizeofIp V6) end)) = Some out')
      by (destruct f; apply Hstore).
    destruct Hw as [out' Hs]. exists out'.
    assert (HL := ipLength_stored _ _ _ Hs ltac:(destruct f; cbn [sizeofIp] in *; lia) ltac:(unfold fits; destruct f; cbn [sizeofIp] in *; apply Z.leb_le; lia)).
    destruct (store_inv _ _ _ _ Hs) as (_ & _ & Hz' & _).
    split_and!; try done; try lia.
    + destruct f; cbn [isV6 sizeofIp lengthAt] in *; rewrite (proj2 (Z.ltb_ge _ _)), (proj2 (Z.ltb_ge _ _)) by lia;
        cbn [orb]; rewrite ?Z.sub_0_r; by rewrite Hs.
    + intros i Hi. rewrite (store_other _ _ _ _ _ Hs), Hhigh; [done | done |]. rewrite zlen_be16. destruct f; cbn [lengthAt]; lia.
    + intros i Hi Hne. rewrite (store_other _ _ _ _ _ Hs), Hlow; [done | done |]. rewrite zlen_be16. lia.
    + intros Hd Hr. eapply store_bytes; [|apply all_bytes_be16 | exact Hs]. apply all_bytes_app. split; [by apply Forall_take | done].
  - case_if; [done |]. zbool. destruct f; cbn [isV6 sizeofIp] in *.
    + rewrite Z.sub_0_r. by rewrite (proj2 (Z.ltb_ge (zlen out) 0)), (proj2 (Z.ltb_lt _ _)) by lia.
    + lia.
Qed.

(** A packet whose mutable fields were rewritten parses as before. *)
Lemma parse_rewritten d p d' :
  parse d = Some p -> p_next p = 0 -> p_tcp p <> None \/ p_udp p <> None -> same_except (mutable p) d d' ->
  (forall f, p_ip p = Some f -> ipLength f d' = Some (zlen d')) ->
  (forall u, p_udp p = Some u -> udp_length_ok d u d') -> parse d' = Some p.
Proof.
  intros Hp Hn Ht [Hz Hs] HL HU. pose proof (parse_inside _ _ Hp) as Hok.
  rewrite (parse_headers d p d') by (done || (unfold headerEnd; destruct (p_payload p) as [[o l]|] eqn:Eo; [destruct (po_payload _ _ Hok _ _ Eo) as (? & ? & _) |]; lia) || (intros; by apply Hs)).
  f_equal. destruct p as [ip tcp udp pay nx]. cbn [p_ip p_tcp p_udp p_payload p_next] in *. subst nx. f_equal. unfold headerEnd. cbn [p_payload p_next].
  destruct pay as [[o l]|]; [destruct (po_payload _ _ Hok _ _ eq_refl) as (? & Hl & _); cbn [p_next] in Hl |].
  - rewrite (proj2 (Z.ltb_lt _ _)) by lia. do 2 f_equal. lia.
  - by rewrite (proj2 (Z.ltb_ge _ _)) by lia.
Qed.

(** The optional TTL. *)
Lemma setTtl_spec f ttl d : sizeofIp f <= zlen d ->
  exists d', (if negb (ttl =? 0) then store d (ttlAt f) [ttl] else Some d) = Some d' /\
    same_except (λ i, ttl <> 0 /\ i = ttlAt f) d d' /\ (ttl <> 0 -> rd d' (ttlAt f) = Some ttl).
Proof.
  intros Hr. destruct (ttl =? 0) eqn:E0; zbool; cbn [negb].
  { exists d. split_and!; [done | apply same_except_refl | done]. }
  destruct (store_ok d (ttlAt f) [ttl]) as [d' E]; [by destruct f | rewrite zlen_cons, zlen_nil; destruct f; cbn [ttlAt sizeofIp] in *; lia |].
  exists d'. split_and!; [done | |].
  - eapply same_except_mono; [|exact (store_same _ _ _ _ E)]. cbn beta. intros i. rewrite zlen_cons, zlen_nil. lia.
  - intros _. rewrite (store_field _ _ _ _ _ E) by (rewrite zlen_cons, zlen_nil; lia). by rewrite Z.sub_diag.
Qed.

(** The checksums, and the one that is made wrong on purpose. *)
Lemma checksums_spec d q f t a (corrupt : bool) :
  parse d = Some q -> p_ip q = Some f -> p_tcp q = Some t -> p_udp q = None -> 0 <= t -> t + 20 <= zlen d ->
  let d' := (calcChecksums d a).1 in
  exists d'', (if corrupt then c ← rd16 d' (t + 16); store d' (t + 16) (be16 (Z.lxor c 0xFFFF)) else Some d') = Some d'' /\
    same_except (λ i, (f = V4 /\ 10 <= i < 12) \/ t + 16 <= i < t + 18) d d''.
Proof.
  intros Hp Hf Ht Hu Hlo Hhi d'.
  assert (S : same_except (λ i, (f = V4 /\ 10 <= i < 12) \/ t + 16 <= i < t + 18) d d').
  { split; [apply calc_zlen |]. intros i Hi. apply (calc_frame _ _ q); [done |]. unfold checksumField. rewrite Hf, Ht, Hu.
    intros [[[= ->] ?]|[(t' & [= <-] & ?)|(u & [=] & _)]]; tauto. }
  destruct corrupt; [|by exists d']. pose proof (proj1 S) as Hz.
  destruct (rd16_ok d' (t + 16)) as [c Ec]; [lia | lia |]. rewrite Ec. cbn [mbind option_bind].
  destruct (store_ok d' (t + 16) (be16 (Z.lxor c 0xFFFF))) as [d'' E]; [lia | rewrite zlen_be16; lia |].
  exists d''. split; [done |]. eapply same_except_trans; [exact S |].
  eapply same_except_mono; [|exact (store_same _ _ _ _ E)]. cbn beta. intros i. rewrite zlen_be16. lia.
Qed.

Lemma variantField_mutable q f t ttl i :
  p_ip q = Some f -> p_tcp q = Some t -> variantField f t ttl i -> mutable q i.
Proof.
  intros Hf Ht Hi. unfold variantField in Hi. unfold mutable, ipMutable. rewrite Hf, Ht.
  destruct Hi as [Hi|[Hi|[Hi|[Hi|Hi]]]]; [left; eauto 10 | left; exists f; split; [done |]; tauto | | left; eauto 10 |];
    right; left; exists t; (split; [done | lia]).
Qed.

Lemma finishTcp_spec d q f t off a ttl (corrupt : bool) :
  parse d = Some q -> p_next q = 0 -> p_ip q = Some f -> p_tcp q = Some t -> fits f (zlen d) = true ->
  exists d' s, finishTcp f t off a ttl corrupt d = Some d' /\ same_except (variantField f t ttl) d d' /\
    ipLength f d' = Some (zlen d') /\ rd32 d (t + 4) = Some s /\ rd32 d' (t + 4) = Some (w32 (s + w32 off)) /\
    (ttl <> 0 -> rd d' (ttlAt f) = Some ttl) /\ parse d' = Some q.
Proof.
  intros Hp Hn Hf Ht Hfit. pose proof (parse_inside _ _ Hp) as Hok.
  destruct (po_tcp _ _ Hok _ Ht) as (Hu & f' & Hf' & Hlo & Hhi). rewrite Hf in Hf'. injection Hf' as <-.
  unfold sizeofTcp in *. assert (Hr : sizeofIp f <= zlen d) by lia. assert (20 <= t) by (destruct f; cbn in Hlo; lia).
  assert (H1 : exists d1, setIpLength f d = Some d1) by (apply store_ok; rewrite ?zlen_be16; destruct f; cbn [lengthAt sizeofIp] in *; lia).
  destruct H1 as [d1 E1]. pose proof (ipLength_stored _ _ _ E1 Hr Hfit) as HL1. pose proof (store_same _ _ _ _ E1) as S1.
  rewrite zlen_be16 in S1. pose proof (proj1 S1) as Z1.
  destruct (setTtl_spec f ttl d1 ltac:(lia)) as (d2 & E2 & S2 & T2). pose proof (proj1 S2) as Z2.
  destruct (rd32_ok d2 (t + 4)) as [s Es]; [lia | lia |].
  destruct (store_ok d2 (t + 4) (be32 (w32 (s + w32 off)))) as [d3 E3]; [lia | rewrite zlen_be32; lia |].
  pose proof (store_same _ _ _ _ E3) as S3. rewrite zlen_be32 in S3. pose proof (store_rd32 _ _ _ _ (w32_range _) E3) as R3.
  assert (HL3 : ipLength f d3 = Some (zlen d3)).
  { rewrite (ipLength_same f _ _ _ S3), (ipLength_same f _ _ _ S2), HL1; [destruct S3; congruence | |]; destruct f; cbn in *; lia. }
  assert (S03 : same_except (variantField f t ttl) d d3).
  { eapply same_except_trans; [eapply same_except_mono; [|exact S1] |]; [unfold variantField; cbn; intros; lia |].
    eapply same_except_trans; (eapply same_except_mono; [|eassumption]); unfold variantField; cbn beta; intros; first [tauto | lia]. }
  assert (Hre : forall d', same_except (variantField f t ttl) d d' -> ipLength f d' = Some (zlen d') -> parse d' = Some q).
  { intros d' S' L'. apply (parse_rewritten d q d' Hp Hn); [left; congruence | | |congruence].
    - eapply same_except_mono; [|exact S']. intros i. by apply variantField_mutable.
    - intros f'. rewrite Hf. by intros [= <-]. }
  destruct (checksums_spec d3 q f t a corrupt (Hre _ S03 HL3) Hf Ht Hu) as (d4 & E4 & S4); [lia | rewrite (proj1 S03); lia |].
  assert (S04 : same_except (variantField f t ttl) d d4).
  { eapply same_except_trans; [exact S03 |]. eapply same_except_mono; [|exact S4]. unfold variantField. cbn beta. tauto. }
  assert (HL4 : ipLength f d4 = Some (zlen d4)).
  { rewrite (ipLength_same f _ _ _ S4), HL3; [by rewrite (proj1 S4) |]. destruct f; cbn in *; intuition (lia || done). }
  exists d4, s. split_and!; try done; try (by apply Hre).
  - unfold finishTcp. rewrite E1. cbn [mbind option_bind]. rewrite E2. cbn [mbind option_bind]. rewrite Es. cbn [mbind option_bind].
    rewrite E3. cbn [mbind option_bind]. exact E4.
  - rewrite <- Es. apply rd32_eq. intros k Hk. rewrite (proj2 S2), (proj2 S1); [done | |]; destruct f; cbn in *; lia.
  - rewrite <- R3. apply rd32_eq. intros k Hk. apply (proj2 S4). destruct f; cbn in *; intuition (lia || done).
  - intros Hne. rewrite (proj2 S4), (proj2 S3); [by apply T2 | |]; destruct f; cbn in *; intuition (lia || done).
Qed.

(** The copy of the headers parses like the packet. *)
Lemma parse_copied d p f t o l (repl : bytes) out :
  parse d = Some p -> p_next p = 0 -> p_ip p = Some f -> p_tcp p = Some t -> p_payload p = Some (o, l) ->
  zlen out = o + zlen repl -> ipLength f out = Some (zlen out) ->
  (forall i, i < o -> i < lengthAt f \/ lengthAt f + 2 <= i -> rd out i = rd d i) ->
  parse out = Some (mkParsed (Some f) (Some t) None (if 0 <? zlen repl then Some (o, zlen repl) else None) 0).
Proof.
  intros Hp Hn Hf Ht Ho Hz HL Hsame. pose proof (parse_inside _ _ Hp) as Hok. pose proof (zlen_nonneg repl).
  destruct (po_tcp _ _ Hok _ Ht) as (Hu & _).
  rewrite (parse_headers d p out Hp Hn); unfold headerEnd; rewrite ?Ho, ?Hf, ?Ht, ?Hu.
  - f_equal. f_equal. replace (o <? zlen out) with (0 <? zlen repl) by (apply eq_true_iff_eq; rewrite !Z.ltb_lt; lia).
    case_if; [|done]. do 2 f_equal. lia.
  - by left.
  - lia.
  - by intros ? [= <-].
  - done.
  - intros i Hi Hm. apply Hsame; [lia |]. unfold mutable, ipMutable in Hm. rewrite Hf in Hm.
    destruct (decide (lengthAt f <= i < lengthAt f + 2)); [|lia]. exfalso. apply Hm. left. exists f. split; [done |]. by left.
Qed.

(** [buildTcpVariant] reads and writes inside its buffers; it gives the variant exactly when
    the family can express its length, and the empty packet otherwise. *)
Lemma tcp_variant_built d p f t o l (repl : bytes) off a ttl (corrupt : bool) :
  parse d = Some p -> p_next p = 0 -> p_ip p = Some f -> p_tcp p = Some t -> p_payload p = Some (o, l) ->
  exists out, buildTcpVariant d (Some o) repl off a ttl corrupt = Some out /\
    (fits f (o + zlen repl) = true -> tcp_variant d f t o repl off ttl out) /\
    (fits f (o + zlen repl) = false -> out = []).
Proof.
  intros Hp Hn Hf Ht Ho. pose proof (parse_inside _ _ Hp) as Hok.
  destruct (po_tcp _ _ Hok _ Ht) as (Hu & f' & Hf' & Hlo & _). rewrite Hf in Hf'. injection Hf' as <-.
  destruct (po_payload _ _ Hok _ _ Ho) as (_ & _ & Hto & _). specialize (Hto _ Ht). unfold sizeofTcp in *.
  pose proof (copyHeaders_spec d p f o l repl Hp Hn Hf Ho ltac:(lia)) as Hc.
  unfold buildTcpVariant. rewrite Hp, Ht, Ho, Z.eqb_refl. cbn [negb].
  destruct (fits f (o + zlen repl)) eqn:Efit; [|rewrite Hc; by exists []].
  destruct Hc as (c & -> & Hz & HL & Hhigh & Hlow & _). cbn [mbind option_bind].
  pose proof (parse_copied d p f t o l repl c Hp Hn Hf Ht Ho Hz HL Hlow) as Hq. rewrite Hq. cbn [p_ip p_tcp].
  destruct (finishTcp_spec c _ f t off a ttl corrupt Hq eq_refl eq_refl eq_refl) as (out & s & E & [Hsz Hse] & HL' & Hs & Hs' & Httl & Hp');
    [by rewrite Hz |].
  exists out. split; [exact E |]. split; [|done]. intros _.
  assert (20 <= t) by (destruct f; cbn in Hlo; lia).
  split; try done.
  - congruence.
  - apply drop_eq_rd; [lia | congruence |]. intros i Hi. rewrite Hse; [by apply Hhigh |]. unfold variantField. destruct f; cbn; lia.
  - exists s. split; [|done]. rewrite <- Hs. apply rd32_eq. intros k Hk. symmetry. apply Hlow; destruct f; cbn [lengthAt] in *; lia.
  - intros i Hi Hv. rewrite Hse by done. apply Hlow; [lia |]. unfold variantField in Hv. lia.
Qed.

Lemma finishUdp_spec d q f u n a :
  parse d = Some q -> p_next q = 0 -> p_ip q = Some f -> p_udp q = Some u -> fits f (zlen d) = true ->
  zlen d = u + 8 + n -> 0 <= n <= 65527 ->
  exists d', finishUdp f u n a d = Some d' /\ same_except (udpVariantField f u) d d' /\
    ipLength f d' = Some (zlen d') /\ rd16 d' (u + 4) = Some (sizeofUdp + n).
Proof.
  intros Hp Hn Hf Hu Hfit Hz Hrange. pose proof (parse_inside _ _ Hp) as Hok.
  destruct (po_udp _ _ Hok _ Hu) as (Ht & f' & Hf' & Hlo & _). rewrite Hf in Hf'. injection Hf' as <-.
  assert (20 <= u) by (destruct f; cbn in *; lia).
  assert (E1 : exists d1, setIpLength f d = Some d1) by (apply store_ok; rewrite ?zlen_be16; destruct f; cbn [lengthAt sizeofIp] in *; lia).
  destruct E1 as [d1 E1]. pose proof (store_same _ _ _ _ E1) as S1. rewrite zlen_be16 in S1. pose proof (proj1 S1) as Z1.
  pose proof (ipLength_stored _ _ _ E1 ltac:(lia) Hfit) as HL1. unfold finishUdp, sizeofUdp. rewrite E1. cbn [mbind option_bind].
  rewrite w16_small by lia. destruct (store_ok d1 (u + 4) (be16 (8 + n))) as [d2 E2]; [lia | rewrite zlen_be16; lia |].
  rewrite E2. cbn [mbind option_bind]. pose proof (store_same _ _ _ _ E2) as S2. rewrite zlen_be16 in S2.
  pose proof (store_rd16 d1 (u + 4) (8 + n) d2 ltac:(lia) E2) as R2.
  assert (HL2 : ipLength f d2 = Some (zlen d2)).
  { rewrite (ipLength_same f _ _ _ S2), HL1; [by rewrite (proj1 S2) |]. destruct f; cbn in *; lia. }
  assert (S02 : same_except (udpVariantField f u) d d2).
  { eapply same_except_trans; (eapply same_except_mono; [|eassumption]); unfold udpVariantField; cbn beta; intros; first [tauto | right; right; lia]. }
  assert (P2 : parse d2 = Some q).
  { apply (parse_rewritten d q d2 Hp Hn); [right; congruence | | |].
    - eapply same_except_mono; [|exact S02]. unfold udpVariantField, mutable, ipMutable. rewrite Hf, Hu.
      intros i [Hi|[Hi|Hi]]; [left; exists f; tauto .. |]. right. right. exists u. split; [done | lia].
    - intros f'. rewrite Hf. by intros [= <-].
    - intros u'. rewrite Hu. intros [= <-]. left. rewrite R2. f_equal. rewrite (proj1 S2). lia. }
  set (d3 := (calcChecksums d2 a).1).
  assert (S3 : same_except (λ i, (f = V4 /\ 10 <= i < 12) \/ u + 6 <= i < u + 8) d2 d3).
  { split; [apply calc_zlen |]. intros i Hi. apply (calc_frame _ _ q); [done |]. unfold checksumField. rewrite Hf, Ht, Hu.
    intros [[[= ->] ?]|[(t' & [=] & _)|(u' & [= <-] & ?)]]; tauto. }
  exists d3. split_and!; [done | | |].
  - eapply same_except_trans; [exact S02 |]. eapply same_except_mono; [|exact S3]. unfold udpVariantField. cbn beta.
    intros i [Hi|Hi]; [tauto | right; right; lia].
  - rewrite (ipLength_same f _ _ _ S3), HL2; [by rewrite (proj1 S3) |]. destruct f; cbn in *; intuition (lia || done).
  - rewrite <- R2. apply rd16_eq; apply (proj2 S3); destruct f; cbn in *; intuition (lia || done).
Qed.

Lemma udp_variant_built d p f u o l (repl : bytes) a :
  parse d = Some p -> p_next p = 0 -> p_ip p = Some f -> p_udp p = Some u -> p_payload p = Some (o, l) ->
  exists out, buildUdpVariant d (Some o) repl a = Some out /\
    (fits f (o + zlen repl) = true -> udp_variant d f u o repl out) /\
    (fits f (o + zlen repl) = false -> out = []).
Proof.
  intros Hp Hn Hf Hu Ho. pose proof (parse_inside _ _ Hp) as Hok. pose proof (zlen_nonneg repl).
  destruct (po_udp _ _ Hok _ Hu) as (Ht & f' & Hf' & Hlo & _). rewrite Hf in Hf'. injection Hf' as <-.
  destruct (po_payload _ _ Hok _ _ Ho) as (_ & _ & _ & Hou). specialize (Hou _ Hu). unfold sizeofUdp in *.
  pose proof (copyHeaders_spec d p f o l repl Hp Hn Hf Ho ltac:(lia)) as Hc.
  unfold buildUdpVariant. rewrite Hp, Hu, Ho, Z.eqb_refl. cbn [negb].
  destruct (fits f (o + zlen repl)) eqn:Efit; [|rewrite Hc; by exists []].
  destruct Hc as (c & -> & Hz & HL & Hhigh & Hlow & _). cbn [mbind option_bind]. unfold sizeofUdp.
  assert (20 <= u) by (destruct f; cbn in *; lia).
  assert (Hrepl : zlen repl <= 65527) by (apply Z.leb_le in Efit; destruct f; cbn in *; lia).
  rewrite (proj2 (Z.ltb_ge o 8)), (proj2 (Z.ltb_ge (0xFFFF - 8) (zlen repl))) by lia. cbn [orb].
  replace (o - 8 + 4) with (u + 4) by lia. rewrite w16_small by lia.
  destruct (store_ok c (u + 4) (be16 (8 + zlen repl))) as [c1 E1]; [lia | rewrite zlen_be16; lia |]. rewrite E1. cbn [mbind option_bind].
  pose proof (store_same _ _ _ _ E1) as S1. rewrite zlen_be16 in S1. pose proof (proj1 S1) as Z1.
  pose proof (store_rd16 c (u + 4) (8 + zlen repl) c1 ltac:(lia) E1) as R1.
  assert (HL1 : ipLength f c1 = Some (zlen c1)).
  { rewrite (ipLength_same f _ _ _ S1), HL; [by rewrite Z1 |]. destruct f; cbn in *; lia. }
  assert (Hq : exists q, parse c1 = Some q /\ p_next q = 0 /\ p_ip q = Some f /\ p_udp q = Some u).
  { eexists. split; [apply (parse_headers d p c1 Hp Hn); unfold headerEnd; rewrite ?Ho |]; try done; try lia.
    - right. by rewrite Hu.
    - intros f'. rewrite Hf. by intros [= <-].
    - intros u'. rewrite Hu. intros [= <-]. left. rewrite R1. f_equal. lia.
    - intros i Hi Hm. unfold mutable, ipMutable in Hm. rewrite Hf, Hu in Hm.
      assert (~ u <= i < u + 8) by (intros ?; apply Hm; right; right; by exists u).
      assert (~ lengthAt f <= i < lengthAt f + 2) by (intros ?; apply Hm; left; exists f; split; [done | by left]).
      rewrite (proj2 S1) by lia. apply Hlow; lia. }
  destruct Hq as (q & Hq & Hq0 & Hqf & Hqu). rewrite Hq, Hqf, Hqu.
  destruct (finishUdp_spec c1 q f u (zlen repl) a Hq Hq0 Hqf Hqu) as (out & E & S2 & HL2 & R2);
    [by rewrite Z1, Hz | lia | lia |].
  assert (S0 : same_except (udpVariantField f u) c out).
  { eapply same_except_trans; [|exact S2]. eapply same_except_mono; [|exact S1]. unfold udpVariantField. cbn beta. intros. right. right. lia. }
  exists out. split; [done |]. split; [|done]. intros _. split; try done.
  - by rewrite (proj1 S0).
  - apply drop_eq_rd; [lia | by rewrite (proj1 S0) |]. intros i Hi. rewrite (proj2 S0); [by apply Hhigh |].
    unfold udpVariantField. destruct f; cbn; lia.
  - intros i Hi Hv. rewrite (proj2 S0) by done. apply Hlow; [lia |]. unfold udpVariantField in Hv. lia.
Qed.
End Laws.

(** ** Packets without extension headers *)

(** Family, end of the IP header, protocol and packet length. *)
Definition plainIp (d : bytes) : option (Family * Z * Z * Z) :=
  b0 ← rd d 0;
  if Z.shiftr b0 4 =? 4 then
    total ← ipLength V4 d; frag ← rd16 d 6; proto ← rd d 9;
    let ihl := 4 * Z.land b0 15 in
    if (ihl <? 20) || (total <? ihl) || negb (Z.land frag 0x1FFF =? 0) then None else Some (V4, ihl, proto, total)
  else if Z.shiftr b0 4 =? 6 then
    total ← ipLength V6 d; proto ← rd d 6; Some (V6, 40, proto, total)
  else None.

Definition plainPayload (h total : Z) : option (Z * Z) := if h <? total then Some (h, total - h) else None.

Definition plainTransport (d : bytes) (f : Family) (t proto total : Z) : option Parsed :=
  if proto =? 6 then
    b ← rd d (t + 12);
    let h := t + 4 * Z.shiftr b 4 in
    if (h <? t + sizeofTcp) || (total <? h) then None
    else Some (mkParsed (Some f) (Some t) None (plainPayload h total) (zlen d - total))
  else if proto =? 17 then
    l ← rd16 d (t + 4);
    if (total <? t + sizeofUdp) || negb (l =? total - t) then None
    else Some (mkParsed (Some f) None (Some t) (plainPayload (t + sizeofUdp) total) (zlen d - total))
  else Some (mkParsed (Some f) None None None (zlen d - total)).

Definition plainParse (d : bytes) : option Parsed :=
  h ← plainIp d;
  let '(f, t, proto, total) := h in
  if zlen d <? total then None else plainTransport d f t proto total.

(** Checksums are left as they are: offloaded to the hardware. *)
#[export] Instance PlainWinDivert : WinDivert := {| parse := plainParse; calcChecksums d a := (d, a) |}.

Lemma plainIp_inv d f t proto total : plainIp d = Some (f, t, proto, total) ->
  sizeofIp f <= t <= total /\ ipLength f d = Some total /\
  (exists b, rd d 0 = Some b /\ Z.shiftr b 4 = version f /\ (f = V4 -> 4 * Z.land b 15 = t)) /\
  (forall d' total', rd d' 0 = rd d 0 -> rd d' 6 = rd d 6 -> (f = V4 -> rd d' 7 = rd d 7 /\ rd d' 9 = rd d 9) ->
     ipLength f d' = Some total' -> t <= total' -> plainIp d' = Some (f, t, proto, total')).
Proof.
  unfold plainIp. destruct (rd d 0) as [b0|] eqn:E0; [|done]. cbn [mbind option_bind]. destruct (Z.shiftr b0 4 =? 4) eqn:E4.
  - destruct (ipLength V4 d) as [n|] eqn:En; [|done]. cbn [mbind option_bind]. destruct (rd16 d 6) as [fr|] eqn:Ef; [|done].
    cbn [mbind option_bind]. destruct (rd d 9) as [pr|] eqn:Ep; [|done]. cbn [mbind option_bind]. case_if; [done |].
    intros [= <- <- <- <-]. repeat (apply orb_false_iff in E as [E ?]). zbool. cbn [sizeofIp version]. split_and!; try done; try lia; [by exists b0 |].
    intros d' n' Hb0 H6 H7 Hn Ht. rewrite Hb0. cbn [mbind option_bind]. rewrite (proj2 (Z.eqb_eq _ _) E4), Hn. cbn [mbind option_bind].
    destruct (H7 eq_refl) as [H7' H9]. rewrite (rd16_eq d' d 6 6), Ef, H9 by done. cbn [mbind option_bind].
    rewrite (proj2 (Z.ltb_ge _ 20)), (proj2 (Z.ltb_ge n' _)) by lia. rewrite (proj2 (Z.eqb_eq (Z.land fr 0x1FFF) 0)) by done. done.
  - destruct (Z.shiftr b0 4 =? 6) eqn:E6; [|done]. destruct (ipLength V6 d) as [n|] eqn:En; [|done]. cbn [mbind option_bind].
    destruct (rd d 6) as [pr|] eqn:Ep; [|done]. cbn [mbind option_bind]. intros [= <- <- <- <-]. zbool. cbn [sizeofIp version].
    assert (40 <= n).
    { unfold ipLength in En. destruct (rd16 d (lengthAt V6)) as [l|] eqn:El; [|done]. cbn in En. injection En as <-.
      destruct (rd16_inv _ _ _ El) as (_ & _ & ?). lia. }
    split_and!; try done; try lia; [by exists b0 |]. intros d' n' Hb0 H6 _ Hn Ht. rewrite Hb0. cbn [mbind option_bind].
    rewrite (proj2 (Z.eqb_neq _ _) E4), (proj2 (Z.eqb_eq _ _) E6), Hn. cbn [mbind option_bind]. by rewrite H6.
Qed.

Lemma plainParse_inv d p : plainParse d = Some p -> exists f t proto total,
  plainIp d = Some (f, t, proto, total) /\ total <= zlen d /\ plainTransport d f t proto total = Some p.
Proof.
  unfold plainParse. destruct (plainIp d) as [[[[f t] proto] total]|]; [|done]. cbn [mbind option_bind]. case_if; [done |]. zbool.
  intros Hp. by exists f, t, proto, total.
Qed.

Lemma plainParse_ok d p : plainParse d = Some p -> parsed_ok d p.
Proof.
  intros (f & t & proto & total & Hi & Hz & Ht)%plainParse_inv. destruct (plainIp_inv _ _ _ _ _ Hi) as (Hlo & HL & (b0 & Hb0 & Hv & Hihl) & _).
  assert (20 <= total) by (destruct f; cbn in Hlo; lia). unfold plainTransport, plainPayload, sizeofTcp, sizeofUdp in Ht.
  destruct (proto =? 6); [|destruct (proto =? 17)].
  - destruct (rd d (t + 12)) as [b|]; [|done]. cbn [mbind option_bind] in Ht. case_if_in Ht; [done |]. zbool. injection Ht as <-.
    split; cbn [p_ip p_tcp p_udp p_payload p_next]; try done; try lia.
    + intros f' [= <-]. replace (zlen d - (zlen d - total)) with total by lia. split_and!; [lia | done | by exists b0].
    + intros t' [= <-]. split; [done |]. exists f. unfold sizeofTcp. split_and!; [done | lia | lia].
    + intros o l. case_if; [|done]. zbool. intros [= <- <-]. unfold sizeofTcp. split_and!; [lia | lia | intros t' [= <-]; lia | done].
    + intros t' [= ->] [= <-]. exists b0. auto.
  - destruct (rd16 d (t + 4)) as [l|]; [|done]. cbn [mbind option_bind] in Ht. case_if_in Ht; [done |]. zbool. injection Ht as <-.
    split; cbn [p_ip p_tcp p_udp p_payload p_next]; try done; try lia.
    + intros f' [= <-]. replace (zlen d - (zlen d - total)) with total by lia. split_and!; [lia | done | by exists b0].
    + intros t' [= <-]. split; [done |]. exists f. unfold sizeofUdp. split_and!; [done | lia | lia].
    + intros o l'. case_if; [|done]. zbool. intros [= <- <-]. unfold sizeofUdp. split_and!; [lia | lia | done | intros t' [= <-]; lia].
  - injection Ht as <-. split; cbn [p_ip p_tcp p_udp p_payload p_next]; try done; try lia.
    intros f' [= <-]. replace (zlen d - (zlen d - total)) with total by lia. split_and!; [lia | done | by exists b0].
Qed.

(** The transport header is found from the bytes before the end of the headers. *)
Lemma plainTransport_agree d d' f t proto total total' p :
  plainTransport d f t proto total = Some p -> total <= zlen d -> total' <= zlen d' ->
  p_tcp p <> None \/ p_udp p <> None -> headerEnd p d <= total' ->
  (p_udp p = None -> rd d' (t + 12) = rd d (t + 12)) ->
  (p_tcp p = None -> rd16 d' (t + 4) = Some (total' - t)) ->
  plainTransport d' f t proto total' =
    Some (mkParsed (p_ip p) (p_tcp p) (p_udp p) (plainPayload (headerEnd p d) total') (zlen d' - total')).
Proof.
  intros Ht Hz Hz' Hsome Hh Htcp Hudp. unfold plainTransport in *. destruct (proto =? 6); [|destruct (proto =? 17)].
  - destruct (rd d (t + 12)) as [b|] eqn:Eb; [|done]. cbn [mbind option_bind] in Ht. case_if_in Ht; [done |]. zbool. injection Ht as <-.
    cbn [p_ip p_tcp p_udp] in *. rewrite Htcp by done. cbn [mbind option_bind]. revert Hh. unfold headerEnd, plainPayload. cbn [p_payload p_next].
    case_if; zbool; intros Hh.
    + by rewrite (proj2 (Z.ltb_ge _ _)), (proj2 (Z.ltb_ge total' _)) by lia.
    + assert (Et : t + 4 * Z.shiftr b 4 = total) by lia. rewrite Et. replace (zlen d - (zlen d - total)) with total in * by lia.
      by rewrite (proj2 (Z.ltb_ge _ _)), (proj2 (Z.ltb_ge total' _)) by lia.
  - destruct (rd16 d (t + 4)) as [l|] eqn:El; [|done]. cbn [mbind option_bind] in Ht. case_if_in Ht; [done |]. zbool. injection Ht as <-.
    cbn [p_ip p_tcp p_udp] in *. rewrite Hudp by done. cbn [mbind option_bind]. revert Hh. unfold headerEnd, plainPayload. cbn [p_payload p_next].
    rewrite Z.eqb_refl. case_if; zbool; intros Hh.
    + by rewrite (proj2 (Z.ltb_ge total' _)) by lia.
    + assert (Et : t + sizeofUdp = total) by lia. rewrite Et. replace (zlen d - (zlen d - total)) with total in * by lia.
      by rewrite (proj2 (Z.ltb_ge total' _)) by lia.
  - injection Ht as <-. cbn in Hsome. by destruct Hsome.
Qed.

Lemma plain_alone d p : plainParse d = Some p -> plainParse (take (Z.to_nat (zlen d - p_next p)) d) = Some (alone p).
Proof.
  intros Hp. pose proof (plainParse_ok _ _ Hp) as Hok. destruct (plainParse_inv _ _ Hp) as (f & t & proto & total & Hi & Hz & Ht).
  destruct (plainIp_inv _ _ _ _ _ Hi) as (Hlo & HL & _ & Hagree).
  assert (Hn : p_next p = zlen d - total).
  { unfold plainTransport in Ht. destruct (proto =? 6); [|destruct (proto =? 17)]; [destruct (rd d _) | destruct (rd16 d _) |];
      cbn [mbind option_bind] in Ht; try case_if_in Ht; try done; by injection Ht as <-. }
  replace (zlen d - p_next p) with total by lia. set (d' := take (Z.to_nat total) d). assert (20 <= total) by (destruct f; cbn in Hlo; lia).
  assert (Hz' : zlen d' = total) by (unfold d'; rewrite zlen_take; lia).
  assert (Hrd : forall i, i < total -> rd d' i = rd d i) by (intros i Hi'; unfold d'; rewrite rd_take by lia; by rewrite (proj2 (Z.ltb_lt _ _)) by lia).
  assert (HL' : ipLength f d' = Some total).
  { rewrite <- HL. unfold ipLength. by rewrite (rd16_eq d' d (lengthAt f) (lengthAt f)) by (apply Hrd; destruct f; cbn in *; lia). }
  unfold plainParse. rewrite (Hagree d' total) by (done || lia || (intros; rewrite ?Hrd by lia; done)).
  cbn [mbind option_bind]. rewrite (proj2 (Z.ltb_ge _ _)) by lia. revert Ht. unfold plainTransport.
  destruct (proto =? 6); [|destruct (proto =? 17)].
  - destruct (rd d (t + 12)) as [b|] eqn:Eb; [|done]. cbn [mbind option_bind]. case_if; [done |]. zbool. intros [= <-].
    rewrite Hrd, Eb by (unfold sizeofTcp in *; lia). cbn [mbind option_bind].
    rewrite (proj2 (Z.ltb_ge _ _)), (proj2 (Z.ltb_ge total _)) by lia. unfold alone. cbn. do 2 f_equal. lia.
  - destruct (rd16 d (t + 4)) as [l|] eqn:El; [|done]. cbn [mbind option_bind]. case_if; [done |]. zbool. intros [= <-]. unfold sizeofUdp in *.
    rewrite (rd16_eq d' d _ (t + 4)), El by (apply Hrd; lia). cbn [mbind option_bind].
    rewrite (proj2 (Z.ltb_ge total _)), (proj2 (Z.eqb_eq l _)) by lia. unfold alone. cbn. do 2 f_equal. lia.
  - intros [= <-]. unfold alone. cbn. do 2 f_equal. lia.
Qed.

#[export] Instance PlainWinDivertLaws : WinDivertLaws.
Proof.
  split; cbn [parse calcChecksums PlainWinDivert fst snd]; try done; [exact plainParse_ok | exact plain_alone |].
  intros d p d' Hp Hn Hsome Hh HL HU Hsame. pose proof (plainParse_ok _ _ Hp) as Hok.
  destruct (plainParse_inv _ _ Hp) as (f & t & proto & total & Hi & Hz & Ht).
  destruct (plainIp_inv _ _ _ _ _ Hi) as (Hlo & _ & _ & Hagree).
  assert (Hp' : p_ip p = Some f /\ (p_tcp p = Some t /\ t + 20 <= headerEnd p d \/ p_udp p = Some t /\ p_tcp p = None /\ t + 8 <= headerEnd p d)).
  { unfold plainTransport, plainPayload, sizeofTcp, sizeofUdp in Ht.
    destruct (proto =? 6); [|destruct (proto =? 17)]; [destruct (rd d _) | destruct (rd16 d _) |]; cbn [mbind option_bind] in Ht;
      try case_if_in Ht; try done; injection Ht as <-; zbool; cbn in *; [..| by destruct Hsome];
      (split; [done |]); [left | right]; unfold headerEnd; cbn [p_payload p_next]; (split_and!; try done; case_if; zbool; lia). }
  destruct Hp' as [Hf Htr]. specialize (HL f Hf).
  assert (Hudp' : p_udp p = Some t -> rd16 d' (t + 4) = Some (zlen d' - t)).
  { intros Hu. destruct (HU t Hu) as [|[-> ->]]; [done |]. unfold plainTransport in Ht.
    destruct (proto =? 6); [|destruct (proto =? 17)]; [destruct (rd d (t + 12)) | destruct (rd16 d (t + 4)) |]; cbn [mbind option_bind] in Ht;
      try case_if_in Ht; try done; injection Ht as <-; cbn in Hu, Hn; try done. zbool. f_equal. lia. }
  assert (Hkeep : forall i, 0 <= i < headerEnd p d -> ~ ipMutable f i -> (i < t \/ (p_tcp p = Some t /\ i = t + 12)) -> rd d' i = rd d i).
  { intros i Hi' Hm Hor. apply Hsame; [done |]. unfold mutable. rewrite Hf. intros [(f' & [= <-] & Hx)|[(t' & Et & Hx)|(u & Eu & Hx)]]; [done | |].
    - destruct Htr as [[Htr _]|(_ & Htr & _)]; [|congruence]. rewrite Htr in Et. injection Et as <-. lia.
    - destruct Htr as [[Htr _]|(Htr & Htn & _)]; [|rewrite Htr in Eu; injection Eu as <-; destruct Hor as [?|[? ?]]; [lia | congruence]].
      destruct (po_udp _ _ Hok _ Eu) as (Hx' & _). congruence. }
  assert (Hhe : t + 8 <= headerEnd p d) by (destruct Htr as [[_ ?]|(_ & _ & ?)]; lia).
  unfold plainParse. rewrite (Hagree d' (zlen d')).
  - cbn [mbind option_bind]. rewrite Z.ltb_irrefl.
    rewrite (plainTransport_agree d d' f t proto total (zlen d') p Ht Hz); try done; [by rewrite Z.sub_diag | |].
    + intros Hnu. destruct Htr as [[Htr ?]|(Htr & _)]; [|congruence]. apply Hkeep; [destruct f; cbn in Hlo; lia | | by right].
      unfold ipMutable. destruct f; cbn in *; lia.
    + intros Hnt. destruct Htr as [[Htr _]|(Htr & _)]; [congruence |]. by apply Hudp'.
  - apply Hkeep; [destruct f; cbn in Hlo; lia | unfold ipMutable; destruct f; cbn; lia | left; destruct f; cbn in Hlo; lia].
  - apply Hkeep; [destruct f; cbn in Hlo; lia | unfold ipMutable; destruct f; cbn; lia | left; destruct f; cbn in Hlo; lia].
  - intros ->. split; apply Hkeep; [cbn in Hlo; lia | unfold ipMutable; cbn; lia | left; cbn in Hlo; lia | cbn in Hlo; lia | unfold ipMutable; cbn; lia | left; cbn in Hlo; lia].
  - exact HL.
  - lia.
Qed.

(** ** Lemmas: addresses *)

Lemma addr_layout f : srcAddrAt f + addrSize f = dstAddrAt f /\ dstAddrAt f + addrSize f = sizeofIp f /\ 0 < addrSize f /\ 0 <= srcAddrAt f /\
  lengthAt f + 2 <= srcAddrAt f /\ ttlAt f < srcAddrAt f.
Proof. by destruct f. Qed.

Lemma swapAddresses_spec f d : sizeofIp f <= zlen d ->
  exists d', swapAddresses f d = Some d' /\ same_except (λ i, srcAddrAt f <= i < sizeofIp f) d d' /\
    slice d' (srcAddrAt f) (addrSize f) = slice d (dstAddrAt f) (addrSize f) /\
    slice d' (dstAddrAt f) (addrSize f) = slice d (srcAddrAt f) (addrSize f) /\ (all_bytes d -> all_bytes d').
Proof.
  intros Hz. destruct (addr_layout f) as (H1 & H2 & H3 & H4 & _). unfold swapAddresses.
  set (sa := srcAddrAt f) in *. set (da := dstAddrAt f) in *. set (n := addrSize f) in *.
  rewrite !fetchField_ok by lia. cbn [mbind option_bind].
  assert (Hn : forall i, 0 <= i -> i + n <= zlen d -> zlen (slice d i n) = n).
  { intros i Hi Hin. rewrite zlen_slice; lia. }
  destruct (store_ok d sa (slice d da n)) as [d1 E1]; [lia | rewrite Hn; lia |]. rewrite E1. cbn [mbind option_bind].
  destruct (store_inv _ _ _ _ E1) as (_ & _ & Z1 & R1). rewrite Hn in R1 by lia.
  destruct (store_ok d1 da (slice d sa n)) as [d2 E2]; [lia | rewrite Hn; lia |]. rewrite E2. exists d2.
  destruct (store_inv _ _ _ _ E2) as (_ & _ & Z2 & R2). rewrite Hn in R2 by lia.
  assert (Hrd : forall i, rd d2 i = if (da <=? i) && (i <? da + n) then rd d (sa + (i - da)) else
                                    if (sa <=? i) && (i <? sa + n) then rd d (da + (i - sa)) else rd d i).
  { intros i. rewrite R2. case_if; zbool; [by rewrite rd_slice by lia |]. rewrite R1. case_if; zbool; [by rewrite rd_slice by lia | done]. }
  split; [done |]. split; [split; [congruence |] | split_and!].
  - intros i Hi. rewrite Hrd. repeat case_if; zbool; try done; lia.
  - apply slice_eq; try lia. intros k Hk. rewrite Hrd. rewrite (proj2 (Z.leb_gt _ _)) by lia. cbn [andb].
    rewrite (proj2 (Z.leb_le _ _)), (proj2 (Z.ltb_lt _ _)) by lia. cbn [andb]. f_equal. lia.
  - apply slice_eq; try lia. intros k Hk. rewrite Hrd.
    rewrite (proj2 (Z.leb_le _ _)), (proj2 (Z.ltb_lt _ _)) by lia. cbn [andb]. f_equal. lia.
  - intros Hb. assert (Hs : forall i, all_bytes (slice d i n)) by (intros i; by apply Forall_take, Forall_drop).
    eapply store_bytes; [eapply store_bytes; [exact Hb | apply Hs | exact E1] | apply Hs | exact E2].
Qed.

(** A field read after the fields in [P] were changed. *)
Lemma slice_same P d d' i n : same_except P d d' -> 0 <= i -> 0 <= n -> i + n <= zlen d -> (forall j, P j -> j < i \/ i + n <= j) ->
  slice d' i n = slice d i n.
Proof.
  intros [Hz Hs] Hi Hn Hd HP. apply slice_eq; try lia. intros k Hk. apply Hs. intros Hp%HP. lia.
Qed.
Lemma rd16_same P d d' i : same_except P d d' -> (forall j, P j -> j < i \/ i + 2 <= j) -> rd16 d' i = rd16 d i.
Proof. intros [_ Hs] HP. apply rd16_eq; apply Hs; intros Hp%HP; lia. Qed.

(** ** Rewriting a packet on its way *)

(** [d'] is [d] with the port at [q] replaced by [v], with its addresses exchanged if [swap],
    and with fresh checksums: nothing else changed and the headers are where they were. *)
Record rewritten `{WinDivert} (f : Family) (p : Parsed) (d : bytes) (swap : bool) (q v : Z) (d' : bytes) : Prop := {
  rw_zlen : zlen d' = zlen d;
  rw_src : slice d' (srcAddrAt f) (addrSize f) = slice d (if swap then dstAddrAt f else srcAddrAt f) (addrSize f);
  rw_dst : slice d' (dstAddrAt f) (addrSize f) = slice d (if swap then srcAddrAt f else dstAddrAt f) (addrSize f);
  rw_port : rd16 d' q = Some v;
  rw_rest : forall i, ~ (swap = true /\ srcAddrAt f <= i < sizeofIp f) -> ~ q <= i < q + 2 -> ~ checksumField p i -> rd d' i = rd d i;
  rw_parse : parse d' = Some p;
  rw_bytes : all_bytes d -> all_bytes d';
}.

(** The transport header and its offset. *)
Definition transport (p : Parsed) (t : Z) : Prop := p_tcp p = Some t \/ p_udp p = Some t.

Section Rewrite.
Context `{W : WinDivert, !WinDivertLaws}.

Lemma transport_inside d p f t : parse d = Some p -> p_next p = 0 -> p_ip p = Some f -> transport p t ->
  sizeofIp f <= t /\ t + 8 <= zlen d /\ ipLength f d = Some (zlen d).
Proof.
  intros Hp Hn Hf Ht. pose proof (parse_inside _ _ Hp) as Hok. destruct (po_ip _ _ Hok _ Hf) as (_ & HL & _).
  rewrite Hn, Z.sub_0_r in HL. unfold sizeofTcp, sizeofUdp in *.
  destruct Ht as [Ht|Ht]; [destruct (po_tcp _ _ Hok _ Ht) as (_ & f' & Hf' & ? & ?) | destruct (po_udp _ _ Hok _ Ht) as (_ & f' & Hf' & ? & ?)];
    rewrite Hf in Hf'; injection Hf' as <-; unfold sizeofTcp, sizeofUdp in *; split_and!; try done; lia.
Qed.

Lemma checksumField_at d p f t : parse d = Some p -> p_ip p = Some f -> transport p t ->
  forall i, checksumField p i -> (f = V4 /\ 10 <= i < 12) \/ t + 6 <= i.
Proof.
  intros Hp Hf Ht i. pose proof (parse_inside _ _ Hp) as Hok.
  intros [[Hv ?]|[(t' & Et & ?)|(u & Eu & ?)]]; [left; split; congruence | |]; right; destruct Ht as [Ht|Ht];
    try (rewrite Ht in Et; injection Et as <-; lia); try (rewrite Ht in Eu; injection Eu as <-; lia); exfalso;
    [destruct (po_udp _ _ Hok _ Ht) | destruct (po_tcp _ _ Hok _ Ht)]; congruence.
Qed.

(** What may be written without moving the headers. *)
Lemma parse_kept d p f t d' : parse d = Some p -> p_next p = 0 -> p_ip p = Some f -> transport p t ->
  same_except (λ i, srcAddrAt f <= i < sizeofIp f \/ t <= i < t + 4 \/ checksumField p i) d d' -> parse d' = Some p.
Proof.
  intros Hp Hn Hf Ht HS. destruct (transport_inside d p f t Hp Hn Hf Ht) as (Hlo & Hhi & HL).
  destruct (addr_layout f) as (A1 & A2 & A3 & A4 & A5 & A6).
  pose proof (checksumField_at d p f t Hp Hf Ht) as Hck.
  apply (parse_rewritten d p d' Hp Hn).
  - destruct Ht as [Ht|Ht]; rewrite Ht; [by left | by right].
  - eapply same_except_mono; [|exact HS]. cbn beta. intros i [Hi|[Hi|Hi]]; unfold mutable.
    + left. exists f. split; [done |]. unfold ipMutable. rewrite A2. tauto.
    + destruct Ht as [Ht|Ht]; [right; left | right; right]; exists t; (split; [done | lia]).
    + destruct Hi as [[Hv Hi]|[(t' & Et & Hi)|(u & Eu & Hi)]]; [left; exists V4 | right; left; exists t' | right; right; exists u]; (split; [done |]); [|lia..].
      unfold ipMutable. tauto.
  - intros f' Hf'. rewrite Hf in Hf'. injection Hf' as <-. rewrite (ipLength_same f _ _ _ HS), HL; [by rewrite (proj1 HS) |].
    intros i [Hi|[Hi|Hi%Hck]]; [lia | lia |]. destruct f; cbn in *; intuition (lia || done).
  - intros u Hu. right. split; [|exact (proj1 HS)]. destruct Ht as [Ht|Ht].
    { destruct (po_tcp _ _ (parse_inside _ _ Hp) _ Ht). congruence. }
    rewrite Hu in Ht. injection Ht as <-. apply (rd16_same _ _ _ _ HS). intros i [Hi|[Hi|Hi%Hck]]; [lia | lia |].
    destruct f; cbn in *; intuition lia.
Qed.

Lemma rewrite_spec d p f t (swap : bool) q v a :
  parse d = Some p -> p_next p = 0 -> p_ip p = Some f -> transport p t -> q = t \/ q = t + 2 -> 0 <= v < 65536 ->
  exists d1 d2, store d q (be16 v) = Some d1 /\ (if swap then swapAddresses f d1 else Some d1) = Some d2 /\
    rewritten f p d swap q v (calcChecksums d2 a).1.
Proof.
  intros Hp Hn Hf Ht Hq Hv. destruct (transport_inside d p f t Hp Hn Hf Ht) as (Hlo & Hhi & _).
  destruct (addr_layout f) as (A1 & A2 & A3 & A4 & _).
  destruct (store_ok d q (be16 v)) as [d1 E1]; [lia | rewrite zlen_be16; lia |]. pose proof (store_same _ _ _ _ E1) as S1. rewrite zlen_be16 in S1.
  pose proof (store_rd16 d q v d1 Hv E1) as R1. pose proof (proj1 S1) as Z1.
  assert (H2 : exists d2, (if swap then swapAddresses f d1 else Some d1) = Some d2 /\
    same_except (λ i, swap = true /\ srcAddrAt f <= i < sizeofIp f) d1 d2 /\
    slice d2 (srcAddrAt f) (addrSize f) = slice d (if swap then dstAddrAt f else srcAddrAt f) (addrSize f) /\
    slice d2 (dstAddrAt f) (addrSize f) = slice d (if swap then srcAddrAt f else dstAddrAt f) (addrSize f) /\
    (all_bytes d1 -> all_bytes d2)).
  { assert (K : forall i, srcAddrAt f <= i -> i + addrSize f <= sizeofIp f -> slice d1 i (addrSize f) = slice d i (addrSize f)).
    { intros i Hi Hi'. apply (slice_same _ _ _ _ _ S1); lia. }
    destruct swap.
    - destruct (swapAddresses_spec f d1 ltac:(lia)) as (d2 & E2 & S2 & K1 & K2 & KB). exists d2. split_and!; [done | | | | done].
      + eapply same_except_mono; [|exact S2]. done.
      + rewrite K1. apply K; lia.
      + rewrite K2. apply K; lia.
    - exists d1. split_and!; [done | apply same_except_refl | | | done]; apply K; lia. }
  destruct H2 as (d2 & E2 & S2 & Ks & Kd & KB). exists d1, d2. split; [done |]. split; [done |].
  set (P := λ i, (swap = true /\ srcAddrAt f <= i < sizeofIp f) \/ q <= i < q + 2).
  assert (S02 : same_except P d d2).
  { eapply same_except_trans; (eapply same_except_mono; [|eassumption]); unfold P; cbn beta; tauto. }
  assert (P2 : parse d2 = Some p).
  { eapply parse_kept; [exact Hp | done | done | done |]. eapply same_except_mono; [|exact S02]. unfold P. cbn beta.
    intros i [[_ Hi]|Hi]; [by left | right; left; lia]. }
  set (d3 := (calcChecksums d2 a).1).
  assert (S3 : same_except (checksumField p) d2 d3) by (split; [apply calc_zlen | intros i Hi; by apply (calc_frame _ _ p)]).
  pose proof (checksumField_at d p f t Hp Hf Ht) as Hck.
  assert (Ka : forall i, srcAddrAt f <= i -> i + addrSize f <= sizeofIp f -> slice d3 i (addrSize f) = slice d2 i (addrSize f)).
  { intros i Hi Hi'. apply (slice_same _ _ _ _ _ S3); try lia; [rewrite (proj1 S02); lia |]. intros j [[-> Hj]|Hj]%Hck; cbn in *; lia. }
  split.
  - rewrite (proj1 S3). exact (proj1 S02).
  - by rewrite Ka by lia.
  - by rewrite Ka by lia.
  - rewrite (rd16_same _ _ _ _ S3), (rd16_same _ _ _ _ S2); [done | intros j [_ Hj]; lia |]. intros j [[-> Hj]|Hj]%Hck; cbn in *; lia.
  - intros i H1 H2 H3. rewrite (proj2 S3), (proj2 S02); [done | |done]. unfold P. tauto.
  - eapply parse_kept; [exact Hp | done | done | done |]. eapply same_except_trans; (eapply same_except_mono; [|eassumption]); unfold P; cbn beta.
    + intros i [[_ Hi]|Hi]; [by left | right; left; lia].
    + tauto.
  - intros Hb. apply calc_bytes, KB. eapply store_bytes; [exact Hb | apply all_bytes_be16 | exact E1].
Qed.
End Rewrite.
