(* ===== verification/Interceptor.v ===== *)
(** * Interceptor: the packet path

    Models [src/src/WinDivertInterceptor.cpp] (class [WinDivertInterceptor]): what becomes of
    one captured packet and of a batch (the loop is in [DivertEngine], start and stop in
    [EngineLifecycle]). It composes
    [TransparentFlow] (routing, the flow tables), [ProcessFilter], [PacketStrategy],
    [QuicStrategy], [RecoveryPolicy] and [DivertPacket]. Ports and mode never change and are
    section variables; the registries the object refers to or owns are the record
    [Interceptor]. Clock readings, random bytes and the results of the driver are inputs;
    [None] is an access outside a buffer. Log messages are omitted. *)

From S2P Require Import Prelude Containers TlsHello TransparentFlow RecoveryPolicy QuicStrategy PacketStrategy ProcessFilter DivertPacket.

#[export] Instance PacketRoute_eq_dec : EqDecision PacketRoute.
Proof. solve_decision. Defined.
#[export] Instance DatagramRoute_eq_dec : EqDecision DatagramRoute.
Proof. solve_decision. Defined.
#[export] Instance QuicMode_eq_dec : EqDecision QuicStrategy.Mode.
Proof. solve_decision. Defined.

Definition kHttpsPort : Z := 443.
Definition kDnsPort : Z := 53.
Definition kFatalSendFailures : Z := 16.
Definition kFatalSendWindowMs : Z := 500.
Definition kSendStreakGapMs : Z := 1000.

(** ** State *)

Record Interceptor := mkInterceptor {
  flows_ : FlowRegistry;
  datagrams_ : DatagramRegistry;
  packetPolicies_ : PolicyRegistry;
  quicRegistry_ : AdaptiveRegistry;
  tcpFlows_ : TcpFlowTable;
  processFilter_ : option Impl;
}.
Definition setFlowsOf (s : Interceptor) (x : FlowRegistry) : Interceptor :=
  mkInterceptor x (datagrams_ s) (packetPolicies_ s) (quicRegistry_ s) (tcpFlows_ s) (processFilter_ s).
Definition setDatagramsOf (s : Interceptor) (x : DatagramRegistry) : Interceptor :=
  mkInterceptor (flows_ s) x (packetPolicies_ s) (quicRegistry_ s) (tcpFlows_ s) (processFilter_ s).
Definition setPolicies (s : Interceptor) (x : PolicyRegistry) : Interceptor :=
  mkInterceptor (flows_ s) (datagrams_ s) x (quicRegistry_ s) (tcpFlows_ s) (processFilter_ s).
Definition setQuic (s : Interceptor) (x : AdaptiveRegistry) : Interceptor :=
  mkInterceptor (flows_ s) (datagrams_ s) (packetPolicies_ s) x (tcpFlows_ s) (processFilter_ s).
Definition setTcpFlows (s : Interceptor) (x : TcpFlowTable) : Interceptor :=
  mkInterceptor (flows_ s) (datagrams_ s) (packetPolicies_ s) (quicRegistry_ s) x (processFilter_ s).
Definition setFilter (s : Interceptor) (x : option Impl) : Interceptor :=
  mkInterceptor (flows_ s) (datagrams_ s) (packetPolicies_ s) (quicRegistry_ s) (tcpFlows_ s) x.

(** [processFilter_ && processFilter_->enabled()] *)
Definition ruled (s : Interceptor) : bool :=
  match processFilter_ s with Some i => enabled (rules_ i) | None => false end.

(** *** PacketBatch *)

Record PacketBatch := mkPacketBatch {
  b_bytes : bytes;
  b_addresses : list DivertAddress;
  b_lengths : list Z;
}.
Definition emptyBatch : PacketBatch := mkPacketBatch [] [] [].
Definition count (b : PacketBatch) : nat := length (b_addresses b).
Definition append (b : PacketBatch) (packet : bytes) (a : DivertAddress) : PacketBatch :=
  mkPacketBatch (b_bytes b ++ packet) (b_addresses b ++ [a]) (b_lengths b ++ [zlen packet]).
Definition rollback (b : PacketBatch) (packets : nat) (byteCount : nat) : PacketBatch :=
  mkPacketBatch (take byteCount (b_bytes b)) (take packets (b_addresses b)) (take packets (b_lengths b)).

(** What a packet is handled with: the clock readings, in the order of the calls, and the
    bytes [BCryptGenRandom] wrote. *)
Record Readings := mkReadings { clk : nat -> Z; random : option bytes }.

Section Packets.
Context `{WinDivert, !MapOrder bytes, !MapOrder PeerKey, !MapOrder EndpointKey, !MapOrder Z}.
Variable inet_ntop4 inet_ntop6 : bytes -> option bytes.
Variable platform : Platform.
Variable proxyPort_ dnsProxyPort_ connectPort_ : Z.
Variable quicMode_ : QuicStrategy.Mode.

(** ** Header access *)

Definition addressAt (f : Family) (destination : bool) : Z := if destination then dstAddrAt f else srcAddrAt f.

Definition addressText (f : Family) (d : bytes) (destination : bool) : option bytes :=
  b ← fetchField d (addressAt f destination) (addrSize f);
  Some (default [] (match f with V4 => inet_ntop4 b | V6 => inet_ntop6 b end)).

Definition packetAddress (f : Family) (d : bytes) (destination : bool) : option Address :=
  b ← fetchField d (addressAt f destination) (addrSize f);
  Some (addressFromBytes (Some b) (isV6 f)).

(** An address in the sixteen zeroed bytes of an [Endpoint]. *)
Definition padAddress (b : bytes) : bytes := b ++ replicate (16 - length b) 0.

Definition processEndpoint (f : Family) (d : bytes) (sourcePort destinationPort : Z) (proto : Protocol)
    (outbound : bool) : option Endpoint :=
  s ← fetchField d (srcAddrAt f) (addrSize f);
  t ← fetchField d (dstAddrAt f) (addrSize f);
  Some (mkEndpoint (isV6 f) proto (padAddress (if outbound then s else t)) (padAddress (if outbound then t else s))
          (if outbound then sourcePort else destinationPort) (if outbound then destinationPort else sourcePort)).

(** [processFilter_->shouldIntercept]: the filter is there when [ruled]. *)
Definition filterSays (s : Interceptor) (e : Endpoint) (outbound newTcpFlow : bool) (tick : Z) : option (bool * Interceptor) :=
  match processFilter_ s with
  | None => Some (true, s)
  | Some i => r ← shouldIntercept platform i e outbound newTcpFlow 0 tick; Some (r.1, setFilter s (Some r.2))
  end.

(** ** TCP *)

(** The first switch: whether the packet belongs to a tuple the engine rewrites. *)
Definition ownPacket (r : Readings) (s : Interceptor) (f : Family) (d : bytes) (t sourcePort destinationPort : Z)
    (syn fin rst : bool) (route : PacketRoute) : option (bool * Interceptor) :=
  match route with
  | ReflectClientToProxy =>
      server ← packetAddress f d true;
      if syn then
        x ← (if ruled s then
               e ← processEndpoint f d sourcePort destinationPort Tcp true;
               filterSays s e true true (clk r 0)
             else Some (true, s));
        let '(intercept, s) := x in
        if negb intercept then Some (false, setTcpFlows s (tcp_remove (tcpFlows_ s) Client server sourcePort))
        else Some (true, setTcpFlows s (tcp_add (tcpFlows_ s) Client server sourcePort 0 (clk r 1)))
      else
        let '(owned, flows) := tcp_track (tcpFlows_ s) Client server sourcePort fin rst 0 (clk r 1) in
        let s := setTcpFlows s flows in
        if owned && rst && ruled s then
          e ← processEndpoint f d sourcePort destinationPort Tcp true;
          Some (owned, setFilter s ((λ i, forget i e) <$> processFilter_ s))
        else Some (owned, s)
  | ReflectProxyToClient =>
      server ← packetAddress f d true;
      let '(owned, flows) := tcp_track (tcpFlows_ s) Client server destinationPort fin rst 0 (clk r 1) in
      Some (owned, setTcpFlows s flows)
  | RedirectProxyToTarget =>
      server ← packetAddress f d true;
      Some (true, setTcpFlows s (if syn then tcp_add (tcpFlows_ s) Upstream server sourcePort 0 (clk r 1)
                                 else (tcp_track (tcpFlows_ s) Upstream server sourcePort fin rst 0 (clk r 1)).2))
  | RedirectTargetToProxy =>
      server ← packetAddress f d false;
      let '(owned, flows) := tcp_track (tcpFlows_ s) Upstream server destinationPort fin rst 0 (clk r 1) in
      Some (owned, setTcpFlows s flows)
  | Pass => Some (false, s)
  end.

(** The second switch: the packet, its address and the registries after the rewriting. *)
Definition rewritePacket (r : Readings) (s : Interceptor) (f : Family) (d : bytes) (t sourcePort destinationPort : Z)
    (syn synAck : bool) (a : DivertAddress) (route : PacketRoute) : option (bytes * DivertAddress * Interceptor) :=
  match route with
  | ReflectClientToProxy =>
      s ← (if syn then text ← addressText f d true;
                       Some (setFlowsOf s (flow_observe (flows_ s) text sourcePort kHttpsPort connectPort_ 0 (clk r 2)))
           else Some s);
      d ← store d (t + 2) (be16 proxyPort_);
      d ← swapAddresses f d;
      Some (d, setOutbound false a, s)
  | ReflectProxyToClient =>
      d ← store d t (be16 kHttpsPort);
      d ← swapAddresses f d;
      Some (d, setOutbound false a, s)
  | RedirectProxyToTarget => d ← store d (t + 2) (be16 kHttpsPort); Some (d, a, s)
  | RedirectTargetToProxy =>
      s ← (if synAck then
             server ← packetAddress f d false; ttl ← packetTtl f d;
             Some (setPolicies s (observeHop (packetPolicies_ s) server destinationPort ttl 0 (clk r 2)))
           else Some s);
      d ← store d t (be16 connectPort_);
      Some (d, a, s)
  | Pass => Some (d, a, s)
  end.

(** *** The armed strategy *)

(** The loop over the segments. *)
Fixpoint appendSegments (d : bytes) (o : Z) (a : DivertAddress) (segments : list Segment) (b : PacketBatch) : option PacketBatch :=
  match segments with
  | [] => Some b
  | segment :: segments =>
      variant ← buildTcpVariant d (Some o) (PacketStrategy.payload segment) (sequenceOffset segment) a 0 false;
      appendSegments d o a segments (if bool_decide (variant = []) then b else append b variant a)
  end.

Definition withMode (p : Policy) (m : PacketStrategy.Mode) : Policy :=
  mkPolicy m (splitOffset p) (overlapBytes p) (fakeSequenceDelta p) (fakeTtl p) (coverSni p) (sniBegin p) (sniEnd p).

(** The packet as two IPv4 fragments: the batch and whether that was done. *)
Definition sendFragments (p : Policy) (d : bytes) (o l : Z) (a : DivertAddress) (b : PacketBatch) : option (PacketBatch * bool) :=
  b0 ← rd d 0;
  let ipHeaderLength := 4 * Z.land b0 15 in
  let boundary := ipv4FragmentBoundary (w64 (o - ipHeaderLength)) p l in
  fragments ← (if boundary =? 0 then Some [] else buildIpv4Fragments d ipHeaderLength (ipHeaderLength + boundary));
  Some (match fragments with
        | [first; second] => (append (append b first a) second a, true)
        | _ => (b, false)
        end).

(** The packet as reordered segments. *)
Definition sendSegments (p : Policy) (d : bytes) (o l : Z) (a : DivertAddress) (b : PacketBatch) : option (PacketBatch * bool) :=
  let segmentPolicy := if bool_decide (mode p = IpFragment) then withMode p ReverseOrder else p in
  let segments := buildSegments (slice d o l) segmentPolicy in
  b' ← appendSegments d o a segments b;
  let appended := negb (bool_decide (segments = [])) && bool_decide (count b' = count b + length segments)%nat in
  Some (if appended then b' else rollback b' (count b) (length (b_bytes b)), appended).

(** A cover packet before the packet. *)
Definition sendFake (p : Policy) (d : bytes) (o : Z) (a : DivertAddress) (b : PacketBatch) : option (PacketBatch * bool) :=
  let badChecksum := bool_decide (mode p = FakeBadChecksum) in
  fakePacket ← buildTcpVariant d (Some o) (buildFakeClientHello (coverSni p))
                 (if bool_decide (mode p = FakeBadSequence) then fakeSequenceDelta p else 0) a
                 (if bool_decide (mode p = FakeAutoTtl) then fakeTtl p else 0) badChecksum;
  Some (if bool_decide (fakePacket = []) then (b, false) else
        (append b fakePacket
           (if badChecksum then mkDivertAddress (Outbound a) true true (UDPChecksum a) (otherFields a) else a), true)).

(** The batch, whether the packet itself is in it already, and whether the profile was
    applied. *)
Definition usePolicy (p : Policy) (f : Family) (d : bytes) (o l : Z) (a : DivertAddress) (b : PacketBatch)
    : option (PacketBatch * bool * bool) :=
  if bool_decide (mode p = IpFragment) && negb (isV6 f) then
    x ← sendFragments p d o l a b; Some (x.1, x.2, x.2)
  else if bool_decide (mode p = ReverseOrder) || bool_decide (mode p = SequenceOverlap) || bool_decide (mode p = IpFragment) then
    x ← sendSegments p d o l a b; Some (x.1, x.2, x.2 && splitsSni p (segmentSplit p l))
  else
    x ← sendFake p d o a b; Some (x.1, false, x.2).

(** The block after the checksums: only for a TLS record on its way to the server. *)
Definition strategyStep (r : Readings) (s : Interceptor) (f : Family) (d : bytes) (t sourcePort : Z) (pay : option (Z * Z))
    (a : DivertAddress) (b : PacketBatch) : option (Interceptor * PacketBatch * bool) :=
  match pay with
  | None => Some (s, b, false)
  | Some (o, l) =>
      if l <? 2 then Some (s, b, false) else
      tls ← looksLikeTlsRecord (slice d o l);
      if negb tls then Some (s, b, false) else
      target ← packetAddress f d true;
      sequence ← rd32 d (t + 4);
      let '(policy, policies) := takePolicy (packetPolicies_ s) target sourcePort (Some sequence) 0 (clk r 3) in
      let s := setPolicies s policies in
      match policy with
      | None => Some (s, b, false)
      | Some p =>
          x ← usePolicy p f d o l a b;
          let '(b, appended, applied) := x in
          Some (if applied : bool then setPolicies s (noteApplied (packetPolicies_ s) target sourcePort 0 (clk r 4)) else s, b, appended)
      end
  end.

Definition handleTcp (r : Readings) (s : Interceptor) (f : Family) (d : bytes) (t : Z) (pay : option (Z * Z))
    (a : DivertAddress) (b : PacketBatch) : option (Interceptor * PacketBatch) :=
  sourcePort ← rd16 d t;
  destinationPort ← rd16 d (t + 2);
  synFlag ← Syn d t; ack ← Ack d t; fin ← Fin d t; rst ← Rst d t;
  let syn := synFlag && negb ack in
  let route := routePacket (Outbound a) sourcePort destinationPort kHttpsPort proxyPort_ connectPort_ in
  o ← ownPacket r s f d t sourcePort destinationPort syn fin rst route;
  let '(owned, s) := o in
  if negb owned then Some (s, append b d a) else
  x ← rewritePacket r s f d t sourcePort destinationPort syn (synFlag && ack) a route;
  let '(d, a, s) := x in
  let '(d, a) := calcChecksums d a in
  y ← (if bool_decide (route = RedirectProxyToTarget) then strategyStep r s f d t sourcePort pay a b
       else Some (s, b, false));
  let '(s, b, appended) := y in
  Some (s, if appended : bool then b else append b d a).

(** ** UDP *)

(** [route] is not [Pass]: the rewritten datagram. *)
Definition rewriteDatagram (r : Readings) (s : Interceptor) (f : Family) (d : bytes) (u sourcePort : Z)
    (a : DivertAddress) (route : DatagramRoute) : option (bytes * DivertAddress * Interceptor) :=
  match route with
  | ReflectDnsToProxy =>
      text ← addressText f d true;
      let s := setDatagramsOf s (dgram_observe (datagrams_ s) text sourcePort 0 (clk r 1)) in
      d ← store d (u + 2) (be16 dnsProxyPort_);
      d ← swapAddresses f d;
      let '(d, a) := calcChecksums d (setOutbound false a) in
      Some (d, a, s)
  | DReflectProxyToClient =>
      d ← store d u (be16 kDnsPort);
      d ← swapAddresses f d;
      let '(d, a) := calcChecksums d (setOutbound false a) in
      Some (d, a, s)
  | DPass => Some (d, a, s)
  end.

(** UDP/443 in adaptive mode: the registry, what goes before the packet, whether it is
    dropped. *)
Definition adaptiveQuic (r : Readings) (s : Interceptor) (f : Family) (d : bytes) (sourcePort destinationPort : Z)
    (pay : option (Z * Z)) (a : DivertAddress) (b : PacketBatch) : option (Interceptor * PacketBatch * bool) :=
  if Outbound a && (destinationPort =? kHttpsPort) then
    initial ← match pay with Some (o, l) => looksLikeInitial (slice d o l) | None => Some false end;
    if negb (needsOutbound (quicRegistry_ s) initial) then Some (s, b, false) else
    server ← addressText f d true;
    let '(decision, quic) := QuicStrategy.outbound (quicRegistry_ s) server sourcePort initial (clk r 2) in
    let s := setQuic s quic in
    match decision with
    | QuicStrategy.Drop => Some (s, b, true)
    | PrimeAndPass =>
        primePacket ← buildUdpVariant d (fst <$> pay) (buildPrimePayload (random r)) a;
        Some (s, if bool_decide (primePacket = []) then b else append b primePacket a, false)
    | DecPass => Some (s, b, false)
    end
  else if negb (Outbound a) && (sourcePort =? kHttpsPort) && needsInbound (quicRegistry_ s) then
    server ← addressText f d false;
    Some (setQuic s (QuicStrategy.inbound (quicRegistry_ s) server destinationPort (clk r 2)), b, false)
  else Some (s, b, false).

Definition handleUdp (r : Readings) (s : Interceptor) (f : Family) (d : bytes) (u : Z) (pay : option (Z * Z))
    (a : DivertAddress) (b : PacketBatch) : option (Interceptor * PacketBatch) :=
  sourcePort ← rd16 d u;
  destinationPort ← rd16 d (u + 2);
  let outb := Outbound a in
  let route := routeDatagram outb sourcePort destinationPort kDnsPort dnsProxyPort_ in
  let scoped := ruled s && ((outb && ((destinationPort =? kDnsPort) || (destinationPort =? kHttpsPort))) ||
                            (negb outb && (sourcePort =? kHttpsPort))) in
  x ← (if scoped then
         e ← processEndpoint f d sourcePort destinationPort Udp outb;
         filterSays s e outb false (clk r 0)
       else Some (true, s));
  let '(intercept, s) := x in
  if negb intercept then Some (s, append b d a) else
  y ← rewriteDatagram r s f d u sourcePort a route;
  let '(d, a, s) := y in
  if negb (bool_decide (route = DPass)) then Some (s, append b d a) else
  if bool_decide (quicMode_ = Block) && ((outb && (destinationPort =? kHttpsPort)) || (negb outb && (sourcePort =? kHttpsPort)))
  then Some (s, b)
  else if bool_decide (quicMode_ = Adaptive) then
    z ← adaptiveQuic r s f d sourcePort destinationPort pay a b;
    let '(s, b, drop) := z in
    Some (s, if drop : bool then b else append b d a)
  else Some (s, append b d a).

(** ** A batch of packets *)

(** One turn of the loop over the batch: the packet at the start of [rest]. *)
Definition handlePacket (r : Readings) (s : Interceptor) (rest : bytes) (a : DivertAddress) (b : PacketBatch)
    : option (Interceptor * PacketBatch) :=
  match parse rest with
  | Some p =>
      let d := take (Z.to_nat (zlen rest - p_next p)) rest in
      if bool_decide (d = []) then Some (s, b) else
      match p_ip p, p_tcp p, p_udp p with
      | Some f, Some t, _ => handleTcp r s f d t (p_payload p) a b
      | Some f, None, Some u => handleUdp r s f d u (p_payload p) a b
      | _, _, _ => Some (s, append b d a)
      end
  | None => Some (s, append b rest a)
  end.

Fixpoint handleBatch (rs : nat -> Readings) (s : Interceptor) (rest : bytes) (addresses : list DivertAddress) (b : PacketBatch)
    : option (Interceptor * PacketBatch) :=
  match addresses with
  | [] => Some (s, b)
  | a :: addresses =>
      if bool_decide (rest = []) then Some (s, b) else
      x ← handlePacket (rs 0%nat) s rest a b;
      let '(s, b) := x in
      let nextLength := match parse rest with Some p => p_next p | None => 0 end in
      if (nextLength =? 0) || (zlen rest <=? nextLength) then Some (s, b) else
      handleBatch (λ n, rs (S n)) s (drop (Z.to_nat (zlen rest - nextLength)) rest) addresses b
  end.
End Packets.

(** ** Batches as lists of packets *)

Definition batch_of (l : list (bytes * DivertAddress)) : PacketBatch :=
  mkPacketBatch (concat l.*1) l.*2 (zlen <$> l.*1).

Lemma append_batch l d a : append (batch_of l) d a = batch_of (l ++ [(d, a)]).
Proof. unfold append, batch_of. cbn [b_bytes b_addresses b_lengths]. rewrite !fmap_app, concat_app. cbn. by rewrite app_nil_r. Qed.

Lemma rollback_batch l l' : rollback (batch_of (l ++ l')) (count (batch_of l)) (length (b_bytes (batch_of l))) = batch_of l.
Proof.
  unfold rollback, batch_of, count. cbn [b_bytes b_addresses b_lengths]. rewrite !fmap_app, concat_app.
  rewrite take_app_length. f_equal; [by rewrite take_app_length |]. rewrite take_app_le by (rewrite !length_fmap; lia).
  apply take_ge. rewrite !length_fmap. lia.
Qed.

Lemma count_batch l : count (batch_of l) = length l.
Proof. unfold count, batch_of. cbn [b_addresses]. apply length_fmap. Qed.

(** ** Lemmas: one packet *)

(** A packet by itself, as the handlers get it. *)
Record lone_packet `{WinDivert} (d : bytes) (p : Parsed) (f : Family) (t : Z) : Prop := {
  lp_parse : parse d = Some p;
  lp_next : p_next p = 0;
  lp_ip : p_ip p = Some f;
  lp_transport : transport p t;
}.

(** *** What an armed policy does to a packet *)

Definition segment_policy (pol : Policy) : Policy :=
  if bool_decide (mode pol = IpFragment) then withMode pol ReverseOrder else pol.
Definition fake_address (pol : Policy) (a : DivertAddress) : DivertAddress :=
  if bool_decide (mode pol = FakeBadChecksum) then mkDivertAddress (Outbound a) true true (UDPChecksum a) (otherFields a) else a.

(** [strategy_out pol f d t o l a out appended applied]: the policy [pol] puts [out] in the
    batch for the packet [d], whose TCP header is at [t] and whose payload of [l] bytes starts
    at [o]; [appended] says whether [out] stands for [d] or only precedes it, [applied] whether
    this counts as the profile. *)
Inductive strategy_out `{WinDivert} (pol : Policy) (f : Family) (d : bytes) (t o l : Z) (a : DivertAddress)
    : list (bytes * DivertAddress) -> bool -> bool -> Prop :=
  | out_fragments f1 f2 part1 part2 :
      mode pol = IpFragment -> f = V4 -> drop (Z.to_nat t) d = part1 ++ part2 ->
      valid_boundary (o - t) pol l (zlen part1) ->
      fragment_of d t part1 0x2000 f1 -> fragment_of d t part2 (zlen part1 / 8) f2 ->
      strategy_out pol f d t o l a [(f1, a); (f2, a)] true true
  | out_segments out :
      mode pol = ReverseOrder \/ mode pol = SequenceOverlap \/ (mode pol = IpFragment /\ f = V6) ->
      buildSegments (slice d o l) (segment_policy pol) <> [] ->
      Forall2 (λ s x, tcp_variant d f t o (PacketStrategy.payload s) (sequenceOffset s) 0 x.1 /\ x.2 = a)
        (buildSegments (slice d o l) (segment_policy pol)) out ->
      strategy_out pol f d t o l a out true (splitsSni pol (segmentSplit pol l))
  | out_fake fake :
      mode pol = FakeBadSequence \/ mode pol = FakeBadChecksum \/ mode pol = FakeAutoTtl \/ mode pol = ModeNone ->
      tcp_variant d f t o (buildFakeClientHello (coverSni pol))
        (if bool_decide (mode pol = FakeBadSequence) then fakeSequenceDelta pol else 0)
        (if bool_decide (mode pol = FakeAutoTtl) then fakeTtl pol else 0) fake ->
      strategy_out pol f d t o l a [(fake, fake_address pol a)] false true
  | out_nothing : strategy_out pol f d t o l a [] false false.

Section Lemmas.
Context `{W : WinDivert, !WinDivertLaws} `{!MapOrder bytes, !MapOrder PeerKey, !MapOrder EndpointKey, !MapOrder Z}.
Variable inet_ntop4 inet_ntop6 : bytes -> option bytes.
Variable platform : Platform.
Variable proxyPort_ dnsProxyPort_ connectPort_ : Z.
Variable quicMode_ : QuicStrategy.Mode.

Let ownPacket' := ownPacket platform.
Let rewritePacket' := rewritePacket inet_ntop4 inet_ntop6 proxyPort_ connectPort_.
Let handleTcp' := handleTcp inet_ntop4 inet_ntop6 platform proxyPort_ connectPort_.

Lemma lone_inside d p f t : lone_packet d p f t -> sizeofIp f <= t /\ t + 8 <= zlen d.
Proof. intros [Hp Hn Hf Ht]. destruct (transport_inside d p f t Hp Hn Hf Ht) as (? & ? & _). lia. Qed.

Lemma lone_address d p f t dest : lone_packet d p f t ->
  fetchField d (addressAt f dest) (addrSize f) = Some (slice d (addressAt f dest) (addrSize f)).
Proof.
  intros Hl. destruct (lone_inside _ _ _ _ Hl) as [Hlo Hhi]. destruct (addr_layout f) as (A1 & A2 & A3 & A4 & _).
  apply fetchField_ok; destruct dest; cbn [addressAt]; lia.
Qed.
Lemma lone_endpoint d p f t sp dp proto outb : lone_packet d p f t -> is_Some (processEndpoint f d sp dp proto outb).
Proof.
  intros Hl. unfold processEndpoint. pose proof (lone_address d p f t true Hl) as H1. pose proof (lone_address d p f t false Hl) as H2.
  cbn [addressAt] in *. rewrite H1, H2. done.
Qed.

Lemma filterSays_total s e outb new tick : exists b i, filterSays platform s e outb new tick = Some (b, setFilter s i).
Proof.
  unfold filterSays. destruct (processFilter_ s) as [i|] eqn:Ei; [|exists true, None; by destruct s; cbn in Ei; subst].
  destruct (shouldIntercept_total platform i e outb new 0 tick) as [[b i'] ->]. cbn [mbind option_bind fst snd]. by eexists _, _.
Qed.

(** Only the flow table and the filter can change. *)
Definition only_own (s s' : Interceptor) : Prop :=
  flows_ s' = flows_ s /\ datagrams_ s' = datagrams_ s /\ packetPolicies_ s' = packetPolicies_ s /\ quicRegistry_ s' = quicRegistry_ s.

Lemma ownPacket_total r s f d p t sp dp syn fin rst route : lone_packet d p f t ->
  exists owned s', ownPacket platform r s f d t sp dp syn fin rst route = Some (owned, s') /\ only_own s s'.
Proof.
  intros Hl. pose proof (lone_address d p f t true Hl) as H1. pose proof (lone_address d p f t false Hl) as H2.
  unfold ownPacket, packetAddress. destruct route; rewrite ?H1, ?H2; cbn [mbind option_bind]; unfold only_own.
  - by eexists _, _.
  - destruct syn.
    + assert (Hx : exists b i, (if ruled s then e ← processEndpoint f d sp dp Tcp true; filterSays platform s e true true (clk r 0)
                                else Some (true, s)) = Some (b, setFilter s i)).
      { case_if; [|exists true, (processFilter_ s); by destruct s].
        destruct (lone_endpoint d p f t sp dp Tcp true Hl) as [e ->]. cbn [mbind option_bind]. apply filterSays_total. }
      destruct Hx as (b & i & ->). cbn [mbind option_bind]. case_if; by eexists _, _.
    + destruct (tcp_track _ _ _ _ _ _ _ _) as [o fl]. case_if; [|by eexists _, _].
      destruct (lone_endpoint d p f t sp dp Tcp true Hl) as [e ->]. cbn [mbind option_bind]. by eexists _, _.
  - destruct (tcp_track _ _ _ _ _ _ _ _) as [o fl]. by eexists _, _.
  - by eexists _, _.
  - destruct (tcp_track _ _ _ _ _ _ _ _) as [o fl]. by eexists _, _.
Qed.

(** *** The policy registry *)

Definition policy_range (pol : Policy) : Prop := 0 <= sniBegin pol < 2 ^ 62 /\ 0 <= sniEnd pol < 2 ^ 62.
(** The policies a registry holds; they come from [policyForProfile]. *)
Definition policies_ok (r : PolicyRegistry) : Prop := forall k e, policies_ r !! k = Some e -> policy_range (pe_policy e).

Lemma policies_ok_insert (m : PolicyRegistry) key e hops next :
  policies_ok m -> policy_range (pe_policy e) -> policies_ok (mkPolicyRegistry (<[key := e]> (policies_ m)) hops next).
Proof. intros Hm He k e' Hk. cbn [policies_] in Hk. apply lookup_insert_Some in Hk as [[_ <-]|[_ Hk]]; [done | by eapply Hm]. Qed.

Lemma policies_ok_prune (m : PolicyRegistry) now : policies_ok m -> policies_ok (policy_pruneIfDue m now).
Proof.
  intros Hm. unfold policy_pruneIfDue. case_if; [done |]. intros k e Hk. cbn [policies_] in Hk.
  apply lookup_erase_if in Hk as [Hk _]. by eapply Hm.
Qed.

(** Whatever the proxy and the packet loop do to the registry, if the policies armed are in
    range then so are those it holds. *)
Lemma policies_ok_run pton4 pton6 (m : PolicyRegistry) op : policies_ok m ->
  (forall x port pol now tick, op = PArm x port pol now tick -> policy_range pol) -> policies_ok (policy_run pton4 pton6 m op).
Proof.
  intros Hm Harm. destruct op as [x port pol now tick|srv port ttl now tick|srv port seq now tick|srv port now tick|x port now tick|]; cbn [policy_run].
  - specialize (Harm _ _ _ _ _ eq_refl). unfold arm. case_if; [done |]. destruct (parseAddress _ _ _) as [ad|]; [|done]. cbv zeta.
    intros k e Hk. cbn [policies_] in Hk. apply insertBounded_lookup in Hk as [[_ ->]|[_ Hk]]; [done |]. by eapply (policies_ok_prune m).
  - unfold observeHop. case_if; [done |]. cbv zeta. case_if; [done |]. intros k e Hk. cbn [policies_] in Hk. by eapply (policies_ok_prune m).
  - destruct (takePolicy m srv port seq now tick) as [[pol|] m'] eqn:Et; cbn [snd]; revert Et; unfold takePolicy; cbv zeta;
      (destruct (policies_ m !! policyKey srv port) as [e|] eqn:Ee; [|by intros [= <-]]); case_if; try done.
    + destruct (taken e); [by destruct seq as [q|]; [case_if; intros [= <- <-]|] |]. intros [= <- <-]. apply policies_ok_insert; [done |].
      pose proof (Hm _ _ Ee) as He. unfold policy_range, resolveTtl in *. cbn [pe_policy]. case_if; [|done]. destruct (hops_ m !! _); [case_if |]; done.
    + intros [= <-]. intros k e' Hk. cbn [policies_] in Hk. apply lookup_delete_Some in Hk as [_ Hk]. by eapply Hm.
    + destruct (taken e); [|done]. destruct seq as [q|]; [case_if|]; intros [= <-]; done.
  - unfold noteApplied. cbv zeta. destruct (policies_ m !! _) as [e|] eqn:Ee; [|done]. apply policies_ok_insert; [done |]. by apply (Hm _ _ Ee).
  - unfold consumeApplied. destruct (parseAddress _ _ _); [|done]. cbv zeta. destruct (policies_ m !! _) as [e|]; [|done]. cbn [snd].
    intros k e' Hk. cbn [policies_] in Hk. apply lookup_delete_Some in Hk as [_ Hk]. by eapply Hm.
  - intros k e Hk. cbn [policies_ policyClear] in Hk. by rewrite lookup_empty in Hk.
Qed.
(** What the routes do to a packet. *)
Definition swaps (route : PacketRoute) : bool :=
  match route with ReflectClientToProxy | ReflectProxyToClient => true | _ => false end.
Definition portAt (route : PacketRoute) (t : Z) : Z :=
  match route with ReflectClientToProxy | RedirectProxyToTarget => t + 2 | _ => t end.
Definition newPort (route : PacketRoute) : Z :=
  match route with
  | ReflectClientToProxy => proxyPort_
  | RedirectTargetToProxy => connectPort_
  | _ => kHttpsPort
  end.

Definition text_of (f : Family) (b : bytes) : bytes := default [] (match f with V4 => inet_ntop4 b | V6 => inet_ntop6 b end).

(** What the flow registry sees. *)
Definition observed (r : Readings) (s : Interceptor) (f : Family) (d : bytes) (sp : Z) (syn : bool) (route : PacketRoute) : FlowRegistry :=
  if bool_decide (route = ReflectClientToProxy) && syn
  then flow_observe (flows_ s) (text_of f (slice d (dstAddrAt f) (addrSize f))) sp kHttpsPort connectPort_ 0 (clk r 2)
  else flows_ s.

Hypothesis proxy_range : 0 <= proxyPort_ < 65536.
Hypothesis connect_range : 0 <= connectPort_ < 65536.

Lemma rewritePacket_spec r s f d p t sp dp syn synAck a route : lone_packet d p f t -> route <> Pass ->
  exists d2 s', rewritePacket' r s f d t sp dp syn synAck a route = Some (d2, if swaps route then setOutbound false a else a, s') /\
    rewritten f p d (swaps route) (portAt route t) (newPort route) (calcChecksums d2 (if swaps route then setOutbound false a else a)).1 /\
    tcpFlows_ s' = tcpFlows_ s /\ flows_ s' = observed r s f d sp syn route /\ datagrams_ s' = datagrams_ s /\
    quicRegistry_ s' = quicRegistry_ s /\ processFilter_ s' = processFilter_ s /\
    (policies_ok (packetPolicies_ s) -> policies_ok (packetPolicies_ s')).
Proof.
  intros Hl Hr. pose proof (lone_address d p f t true Hl) as H1. pose proof (lone_address d p f t false Hl) as H2.
  destruct (rewrite_spec d p f t (swaps route) (portAt route t) (newPort route) (if swaps route then setOutbound false a else a))
    as (d1 & d2 & E1 & E2 & HR); [apply Hl .. | destruct route; cbn; tauto | unfold newPort, kHttpsPort; destruct route; lia |].
  unfold rewritePacket', rewritePacket, addressText, packetAddress, observed, text_of. destruct route; cbn [swaps portAt newPort bool_decide] in *; try done.
  - rewrite H1. cbn [mbind option_bind]. destruct syn; cbn [mbind option_bind]; rewrite E1; cbn [mbind option_bind]; rewrite E2;
      cbn [mbind option_bind]; by eexists _, _.
  - rewrite E1. cbn [mbind option_bind]. rewrite E2. cbn [mbind option_bind]. by eexists _, _.
  - rewrite E1. cbn [mbind option_bind]. injection E2 as ->. by eexists _, _.
  - rewrite H2. cbn [mbind option_bind]. destruct (rd_ok d (ttlAt f)) as [ttl Httl].
    { destruct (lone_inside _ _ _ _ Hl). destruct f; cbn in *; lia. }
    unfold packetTtl. rewrite Httl. cbn [mbind option_bind]. destruct synAck; cbn [mbind option_bind]; rewrite E1; cbn [mbind option_bind];
      injection E2 as ->; eexists _, _; split_and!; try done. cbn [setPolicies packetPolicies_]. intros Hpol.
    by apply (policies_ok_run (λ _, None) (λ _, None) _ (PObserveHop _ _ _ _ _)).
Qed.

(** *** Strategies *)

Lemma sendFragments_spec pol d p t o l a b :
  lone_packet d p V4 t -> p_tcp p = Some t -> p_payload p = Some (o, l) -> all_bytes d -> policy_range pol -> mode pol = IpFragment ->
  exists out done, sendFragments pol d o l a (batch_of b) = Some (batch_of (b ++ out), done) /\ strategy_out pol V4 d t o l a out done done.
Proof.
  intros Hl Ht Hpay Hb [Hsb Hse] Hm. pose proof (parse_inside _ _ (lp_parse _ _ _ _ Hl)) as Hok. pose proof (lp_next _ _ _ _ Hl) as Hn.
  destruct (po_ihl _ _ Hok t (lp_ip _ _ _ _ Hl) Ht) as (b0 & Hb0 & Hihl). destruct (po_payload _ _ Hok _ _ Hpay) as (Hl0 & Hol & Hto & _).
  specialize (Hto _ Ht). unfold sizeofTcp in Hto. destruct (lone_inside _ _ _ _ Hl) as [Hlo _]. cbn in Hlo.
  destruct (po_ip _ _ Hok _ (lp_ip _ _ _ _ Hl)) as (_ & HL & _).
  assert (Hsmall : zlen d < 65536).
  { unfold ipLength in HL. destruct (rd16 d (lengthAt V4)) as [x|] eqn:Ex; [|done]. destruct (rd16_inv _ _ _ Ex) as (_ & _ & ?).
    cbn in HL. injection HL as HL. lia. }
  unfold sendFragments. rewrite Hb0. cbn [mbind option_bind]. rewrite Hihl, w64_small by lia.
  destruct (fragment_boundary_correct (o - t) pol l) as (_ & Hvb & _); [lia | lia | done | done |]. set (m := ipv4FragmentBoundary (o - t) pol l) in *.
  destruct (m =? 0) eqn:Em; zbool; cbn [mbind option_bind].
  { exists [], false. rewrite app_nil_r. split; [done | constructor]. }
  specialize (Hvb Em). destruct Hvb as (Hm8 & Hmc & Hcut).
  destruct (ipv4_fragments_built d t (t + m) Hb) as [->|(f1 & f2 & part1 & part2 & -> & Hcat & Hz1 & _ & _ & _ & F1 & F2)].
  - rewrite <- Hihl. rewrite Z.mul_mod by lia. done.
  - exists [], false. rewrite app_nil_r. split; [done | constructor].
  - assert (Hzm : zlen part1 = m).
    { rewrite Hz1. replace (t + m - t + 7) with (m + 7) by lia. rewrite w64_small, align8_spec by lia.
      rewrite <- (Z.mod_add (m + 7) 0 8), Z.mul_0_l, Z.add_0_r, Z.add_mod, Hm8 by lia. change ((0 + 7 mod 8) mod 8) with 7. lia. }
    exists [(f1, a); (f2, a)], true. cbn [mbind option_bind]. rewrite !append_batch, <- app_assoc. split; [done |].
    eapply out_fragments; try done. split_and!; rewrite ?Hzm; try done; lia.
Qed.

Lemma appendSegments_spec d p f t o l a segs b :
  lone_packet d p f t -> p_tcp p = Some t -> p_payload p = Some (o, l) ->
  exists out, appendSegments d o a segs (batch_of b) = Some (batch_of (b ++ out)) /\ (length out <= length segs)%nat /\
    (length out = length segs ->
     Forall2 (λ s x, tcp_variant d f t o (PacketStrategy.payload s) (sequenceOffset s) 0 x.1 /\ x.2 = a) segs out).
Proof.
  intros Hl Ht Hpay. revert b. induction segs as [|sg segs IH]; intros b.
  { exists []. rewrite app_nil_r. split_and!; [done | done | constructor]. }
  cbn [appendSegments length].
  destruct (tcp_variant_built d p f t o l (PacketStrategy.payload sg) (sequenceOffset sg) a 0 false) as (v & -> & Hfit & Hno); [apply Hl | apply Hl | apply Hl | done | done |].
  cbn [mbind option_bind]. case_bool_decide as Ev.
  - destruct (IH b) as (out & E & Hle & _). exists out. split_and!; [done | lia | intros; lia].
  - rewrite append_batch. destruct (IH (b ++ [(v, a)])) as (out & E & Hle & Hf). exists ((v, a) :: out). rewrite <- app_assoc in E. cbn [length].
    split_and!; [done | lia |]. intros Hlen. constructor; [|apply Hf; lia]. split; [|done].
    destruct (fits f (o + zlen (PacketStrategy.payload sg))); [by apply Hfit | by specialize (Hno eq_refl)].
Qed.

Lemma sendSegments_spec pol d p f t o l a b :
  lone_packet d p f t -> p_tcp p = Some t -> p_payload p = Some (o, l) ->
  mode pol = ReverseOrder \/ mode pol = SequenceOverlap \/ (mode pol = IpFragment /\ f = V6) ->
  exists out done, sendSegments pol d o l a (batch_of b) = Some (batch_of (b ++ out), done) /\
    strategy_out pol f d t o l a out done (done && splitsSni pol (segmentSplit pol l)).
Proof.
  intros Hl Ht Hpay Hm. unfold sendSegments. fold (segment_policy pol). set (segs := buildSegments _ _).
  destruct (appendSegments_spec d p f t o l a segs b Hl Ht Hpay) as (out & -> & Hle & Hf). cbn [mbind option_bind].
  rewrite !count_batch, length_app. destruct (negb (bool_decide (segs = [])) && _) eqn:E.
  - apply andb_true_iff in E as [En Ec]. zbool. exists out, true. split; [done |]. cbn [andb]. apply out_segments; [done | done |].
    apply Hf. lia.
  - exists [], false. rewrite app_nil_r. split; [|constructor]. rewrite <- (count_batch b). by rewrite rollback_batch.
Qed.

Lemma sendFake_spec pol d p f t o l a b :
  lone_packet d p f t -> p_tcp p = Some t -> p_payload p = Some (o, l) ->
  mode pol = FakeBadSequence \/ mode pol = FakeBadChecksum \/ mode pol = FakeAutoTtl \/ mode pol = ModeNone ->
  exists out done, sendFake pol d o a (batch_of b) = Some (batch_of (b ++ out), done) /\ strategy_out pol f d t o l a out false done.
Proof.
  intros Hl Ht Hpay Hm. unfold sendFake.
  destruct (tcp_variant_built d p f t o l (buildFakeClientHello (coverSni pol))
    (if bool_decide (mode pol = FakeBadSequence) then fakeSequenceDelta pol else 0) a
    (if bool_decide (mode pol = FakeAutoTtl) then fakeTtl pol else 0) (bool_decide (mode pol = FakeBadChecksum)))
    as (v & -> & Hfit & Hno); [apply Hl | apply Hl | apply Hl | done | done |].
  cbn [mbind option_bind]. destruct (bool_decide (v = [])) eqn:Ev; zbool.
  - exists [], false. rewrite app_nil_r. split; [done | constructor].
  - rewrite append_batch. exists [(v, fake_address pol a)], true. split; [done |]. apply out_fake; [done |].
    destruct (fits f _); [by apply Hfit | by specialize (Hno eq_refl)].
Qed.

Lemma usePolicy_spec pol d p f t o l a b :
  lone_packet d p f t -> p_tcp p = Some t -> p_payload p = Some (o, l) -> all_bytes d -> policy_range pol ->
  exists out appended applied, usePolicy pol f d o l a (batch_of b) = Some (batch_of (b ++ out), appended, applied) /\
    strategy_out pol f d t o l a out appended applied.
Proof.
  intros Hl Ht Hpay Hb Hr. unfold usePolicy.
  destruct (bool_decide (mode pol = IpFragment) && negb (isV6 f)) eqn:E1.
  { apply andb_true_iff in E1 as [Em Ef]. zbool. destruct f; [|done].
    destruct (sendFragments_spec pol d p t o l a b Hl Ht Hpay Hb Hr Em) as (out & dn & -> & Hso). by exists out, dn, dn. }
  destruct (_ || _) eqn:E2.
  - destruct (sendSegments_spec pol d p f t o l a b Hl Ht Hpay) as (out & dn & -> & Hso); [|by exists out, dn, (dn && splitsSni pol (segmentSplit pol l))].
    apply orb_true_iff in E2 as [[E2|E2]%orb_true_iff|E2]; zbool; auto. right. right. split; [done |].
    rewrite bool_decide_eq_true_2 in E1 by done. destruct E1 as [?|E1]; [done |]. by destruct f.
  - apply orb_false_iff in E2 as [[E2 E3]%orb_false_iff E4]. zbool.
    destruct (sendFake_spec pol d p f t o l a b Hl Ht Hpay) as (out & dn & -> & Hso); [destruct (mode pol); tauto |]. by exists out, false, dn.
Qed.

Lemma takePolicy_range (r : PolicyRegistry) target sp seq now tick pol r' :
  policies_ok r -> takePolicy r target sp seq now tick = (Some pol, r') -> policy_range pol.
Proof.
  intros Hr. unfold takePolicy. destruct (policies_ r !! policyKey target sp) as [e|] eqn:Ee; [|done]. specialize (Hr _ _ Ee).
  case_if; [done |]. destruct (taken e).
  - destruct seq as [q|]; [|done]. case_if; [|done]. by intros [= <- _].
  - intros [= <- _]. unfold resolveTtl. case_if; [|done]. destruct (hops_ r !! _) as [h|]; [case_if |]; done.
Qed.

(** What the strategy step put into the batch for the packet [d]. *)
Definition strategy_result (r : Readings) (s : Interceptor) (f : Family) (d : bytes) (t sp : Z) (pay : option (Z * Z)) (a : DivertAddress)
    (s' : Interceptor) (out : list (bytes * DivertAddress)) (appended : bool) : Prop :=
  (out = [] /\ appended = false) \/
  exists o l pol target seq policies applied,
    pay = Some (o, l) /\ packetAddress f d true = Some target /\ rd32 d (t + 4) = Some seq /\
    takePolicy (packetPolicies_ s) target sp (Some seq) 0 (clk r 3) = (Some pol, policies) /\
    strategy_out pol f d t o l a out appended applied /\
    packetPolicies_ s' = (if applied then noteApplied policies target sp 0 (clk r 4) else policies).

Lemma strategyStep_spec r s f d p t sp a b :
  lone_packet d p f t -> p_tcp p = Some t -> all_bytes d -> policies_ok (packetPolicies_ s) ->
  exists s' out appended, strategyStep r s f d t sp (p_payload p) a (batch_of b) = Some (s', batch_of (b ++ out), appended) /\
    s' = setPolicies s (packetPolicies_ s') /\ policies_ok (packetPolicies_ s') /\ strategy_result r s f d t sp (p_payload p) a s' out appended.
Proof.
  intros Hl Ht Hb Hpol. unfold strategyStep.
  assert (Hnone : forall s', s' = setPolicies s (packetPolicies_ s') -> policies_ok (packetPolicies_ s') ->
    exists s'' out appended, Some (s', batch_of b, false) = Some (s'', batch_of (b ++ out), appended) /\
    s'' = setPolicies s (packetPolicies_ s'') /\ policies_ok (packetPolicies_ s'') /\ strategy_result r s f d t sp (p_payload p) a s'' out appended).
  { intros s' Hs' Hok. exists s', [], false. rewrite app_nil_r. split_and!; [done | done | done | by left]. }
  destruct (p_payload p) as [[o l]|] eqn:Ep; [|by apply Hnone; destruct s]. case_if; [by apply Hnone; destruct s |]. zbool.
  destruct (po_payload _ _ (parse_inside _ _ (lp_parse _ _ _ _ Hl)) _ _ Ep) as (Hl0 & Hol & Hto & _). rewrite (lp_next _ _ _ _ Hl) in Hol.
  specialize (Hto _ Ht). unfold sizeofTcp in Hto. destruct (lone_inside _ _ _ _ Hl) as [Hlo Hhi].
  assert (20 <= t) by (destruct f; cbn in Hlo; lia).
  assert (Htls : is_Some (looksLikeTlsRecord (slice d o l))).
  { unfold looksLikeTlsRecord. assert (Hz : zlen (slice d o l) = l) by (rewrite zlen_slice; lia). rewrite Hz.
    rewrite (proj2 (Z.eqb_neq l 0)) by lia. destruct (rd_ok (slice d o l) 0) as [x ->]; [lia |]. cbn [mbind option_bind]. case_if; [done |].
    rewrite (proj2 (Z.ltb_ge l 2)) by lia. destruct (rd_ok (slice d o l) 1) as [y ->]; [lia |]. done. }
  destruct Htls as [tls ->]. cbn [mbind option_bind]. case_if; [by apply Hnone; destruct s |].
  unfold packetAddress at 1. pose proof (lone_address d p f t true Hl) as Ha. rewrite Ha. cbn [mbind option_bind].
  destruct (rd32_ok d (t + 4)) as [seq Hseq]; [lia | lia |]. rewrite Hseq. cbn [mbind option_bind].
  set (target := addressFromBytes _ _). destruct (takePolicy (packetPolicies_ s) target sp (Some seq) 0 (clk r 3)) as [ret policies] eqn:Etake.
  assert (Hpol' : policies_ok policies).
  { pose proof (policies_ok_run (λ _, None) (λ _, None) _ (PTake target sp (Some seq) 0 (clk r 3)) Hpol ltac:(done)) as Hx.
    cbn [policy_run] in Hx. by rewrite Etake in Hx. }
  destruct ret as [pol|]; [|by apply Hnone].
  destruct (usePolicy_spec pol d p f t o l a b Hl Ht Ep Hb (takePolicy_range _ _ _ _ _ _ _ _ Hpol Etake)) as (out & app & appl & -> & Hso).
  cbn [mbind option_bind]. eexists _, out, app. split; [done |]. split; [by destruct appl |]. split.
  { destruct appl; [|done]. by apply (policies_ok_run (λ _, None) (λ _, None) _ (PNoteApplied _ _ _ _)). }
  right.
  exists o, l, pol, target, seq, policies, appl. split_and!; try done; [|by destruct appl].
  unfold packetAddress. by rewrite Ha.
Qed.

(** *** A TCP packet *)

Record tcp_view := mkTcpView { v_src : Z; v_dst : Z; v_syn : bool; v_ack : bool; v_fin : bool; v_rst : bool }.
Definition views (d : bytes) (t : Z) (v : tcp_view) : Prop :=
  rd16 d t = Some (v_src v) /\ rd16 d (t + 2) = Some (v_dst v) /\ Syn d t = Some (v_syn v) /\ Ack d t = Some (v_ack v) /\
  Fin d t = Some (v_fin v) /\ Rst d t = Some (v_rst v).
(** A connection request. *)
Definition opens (v : tcp_view) : bool := v_syn v && negb (v_ack v).
Definition route_of (v : tcp_view) (a : DivertAddress) : PacketRoute :=
  routePacket (Outbound a) (v_src v) (v_dst v) kHttpsPort proxyPort_ connectPort_.

Lemma views_ok d p f t : lone_packet d p f t -> p_tcp p = Some t -> exists v, views d t v.
Proof.
  intros Hl Ht. destruct (po_tcp _ _ (parse_inside _ _ (lp_parse _ _ _ _ Hl)) _ Ht) as (_ & f' & Hf' & Hlo & Hhi).
  rewrite (lp_next _ _ _ _ Hl) in Hhi. unfold sizeofTcp in Hhi. assert (20 <= t) by (destruct f'; cbn in Hlo; lia).
  destruct (rd16_ok d t) as [sp Hsp]; [lia | lia |]. destruct (rd16_ok d (t + 2)) as [dp Hdp]; [lia | lia |].
  destruct (rd_ok d (t + 13)) as [x Hx]; [lia |].
  exists (mkTcpView sp dp (negb (Z.land x 2 =? 0)) (negb (Z.land x 16 =? 0)) (negb (Z.land x 1 =? 0)) (negb (Z.land x 4 =? 0))).
  unfold views, Syn, Ack, Fin, Rst, tcpFlag. rewrite Hx. done.
Qed.

(** What becomes of an owned packet. *)
Definition owned_out (r : Readings) (s : Interceptor) (f : Family) (d : bytes) (p : Parsed) (t : Z) (v : tcp_view) (a : DivertAddress)
    (s' : Interceptor) (out : list (bytes * DivertAddress)) : Prop :=
  let route := route_of v a in
  exists d' a', rewritten f p d (swaps route) (portAt route t) (newPort route) d' /\
    Outbound a' = (if swaps route then false else Outbound a) /\ otherFields a' = otherFields a /\
    flows_ s' = observed r s f d (v_src v) (opens v) route /\
    (route <> RedirectProxyToTarget -> out = [(d', a')]) /\
    (route = RedirectProxyToTarget -> exists s2 pre appended,
       packetPolicies_ s2 = packetPolicies_ s /\ strategy_result r s2 f d' t (v_src v) (p_payload p) a' s' pre appended /\
       out = pre ++ (if appended then [] else [(d', a')])).

Lemma handleTcp_spec r s f d p t v a b :
  lone_packet d p f t -> p_tcp p = Some t -> all_bytes d -> policies_ok (packetPolicies_ s) -> views d t v ->
  exists owned s1 s' out,
    ownPacket platform r s f d t (v_src v) (v_dst v) (opens v) (v_fin v) (v_rst v) (route_of v a) = Some (owned, s1) /\
    handleTcp' r s f d t (p_payload p) a (batch_of b) = Some (s', batch_of (b ++ out)) /\
    tcpFlows_ s' = tcpFlows_ s1 /\ processFilter_ s' = processFilter_ s1 /\ policies_ok (packetPolicies_ s') /\
    if owned : bool then owned_out r s f d p t v a s' out else s' = s1 /\ out = [(d, a)].
Proof.
  intros Hl Ht Hb Hpol (Hsp & Hdp & Hsyn & Hack & Hfin & Hrst).
  destruct (ownPacket_total r s f d p t (v_src v) (v_dst v) (opens v) (v_fin v) (v_rst v) (route_of v a) Hl) as (owned & s1 & Hown & Ho1 & Ho2 & Ho3 & Ho4).
  exists owned, s1. unfold handleTcp', handleTcp. rewrite Hsp, Hdp, Hsyn, Hack, Hfin, Hrst. cbn [mbind option_bind].
  fold (opens v) (route_of v a). rewrite Hown. cbn [mbind option_bind]. destruct owned; cbn [negb].
  2:{ exists s1, [(d, a)]. rewrite append_batch. split_and!; try done. by rewrite Ho3. }
  assert (Hroute : route_of v a <> Pass) by (intros Hp; rewrite Hp in Hown; discriminate Hown).
  destruct (rewritePacket_spec r s1 f d p t (v_src v) (v_dst v) (opens v) (v_syn v && v_ack v) a (route_of v a) Hl Hroute)
    as (d2 & s2 & E2 & HR & Hs1 & Hs2 & _ & _ & Hs5 & Hs6). unfold rewritePacket' in E2. rewrite E2. cbn [mbind option_bind].
  set (a2 := if swaps (route_of v a) then setOutbound false a else a) in *.
  destruct (calcChecksums d2 a2) as [d3 a3] eqn:E3. pose proof (calc_address d2 a2) as [Ha1 Ha2]. rewrite E3 in Ha1, Ha2. cbn [fst snd] in Ha1, Ha2, HR.
  assert (Hout : Outbound a3 = (if swaps (route_of v a) then false else Outbound a)) by (rewrite Ha1; unfold a2; by case_if).
  assert (Hoth : otherFields a3 = otherFields a) by (rewrite Ha2; unfold a2; by case_if).
  assert (Hobs : observed r s1 f d (v_src v) (opens v) (route_of v a) = observed r s f d (v_src v) (opens v) (route_of v a))
    by (unfold observed; by rewrite Ho1).
  assert (Hpol2 : packetPolicies_ s2 = packetPolicies_ s \/ route_of v a <> RedirectProxyToTarget).
  { destruct (decide (route_of v a = RedirectProxyToTarget)) as [Er|]; [left | by right]. rewrite Er in E2. unfold rewritePacket in E2.
    destruct (store d (t + 2) _); [|done]. cbn [mbind option_bind] in E2. assert (s2 = s1) as -> by congruence. done. }
  destruct (bool_decide (route_of v a = RedirectProxyToTarget)) eqn:Er; zbool.
  - destruct Hpol2 as [Hpol2|]; [|done].
    assert (Hl3 : lone_packet d3 p f t) by (split; [apply HR | apply Hl ..]).
    destruct (strategyStep_spec r s2 f d3 p t (v_src v) a3 b Hl3 Ht (rw_bytes _ _ _ _ _ _ _ HR Hb) ltac:(by rewrite Hpol2)) as (s3 & pre & app & -> & Hs3 & Hok3 & Hres).
    cbn [mbind option_bind]. eexists s3, (pre ++ if app then [] else [(d3, a3)]). split; [done |]. split.
    { do 2 f_equal. destruct app; [by rewrite app_nil_r |]. by rewrite append_batch, app_assoc. }
    rewrite Hs3. cbn [setPolicies tcpFlows_ processFilter_ packetPolicies_]. split_and!; [done | done | done |].
    exists d3, a3. split_and!; try done; [cbn; congruence |]. intros _. exists s2, pre, app. rewrite <- Hs3. by split_and!.
  - cbn [mbind option_bind]. rewrite append_batch. eexists s2, [(d3, a3)]. split_and!; try done; [by apply Hs6; rewrite Ho3 |].
    exists d3, a3. split_and!; try done. congruence.
Qed.

(** *** Who may be rewritten *)

(** The tuple a packet belongs to: the kind of the flow, the server, the local port. *)
Definition tuple_of (f : Family) (d : bytes) (v : tcp_view) (route : PacketRoute) : option (FlowKind * Address * Z) :=
  match route with
  | ReflectClientToProxy => a ← packetAddress f d true; Some (Client, a, v_src v)
  | ReflectProxyToClient => a ← packetAddress f d true; Some (Client, a, v_dst v)
  | RedirectProxyToTarget => a ← packetAddress f d true; Some (Upstream, a, v_src v)
  | RedirectTargetToProxy => a ← packetAddress f d false; Some (Upstream, a, v_dst v)
  | Pass => None
  end.

(** The packet asks for a connection of the tuple. *)
Definition requests (x : bytes * DivertAddress) (k : FlowKind) (server : Address) (port : Z) : Prop :=
  exists p f t v, lone_packet x.1 p f t /\ p_tcp p = Some t /\ views x.1 t v /\ opens v = true /\
    (route_of v x.2 = ReflectClientToProxy \/ route_of v x.2 = RedirectProxyToTarget) /\
    tuple_of f x.1 v (route_of v x.2) = Some (k, server, port).

(** What one packet does to the flow table. *)
Lemma ownPacket_ops r s f d p t v a owned s' : lone_packet d p f t -> p_tcp p = Some t -> views d t v ->
  ownPacket platform r s f d t (v_src v) (v_dst v) (opens v) (v_fin v) (v_rst v) (route_of v a) = Some (owned, s') ->
  exists ops, tcpFlows_ s' = foldl tcp_run (tcpFlows_ s) ops /\
    (forall k srv port now tick, TAdd k srv port now tick ∈ ops -> requests (d, a) k srv port) /\
    (owned = true -> route_of v a = RedirectProxyToTarget \/ exists k srv port, tuple_of f d v (route_of v a) = Some (k, srv, port) /\
       (requests (d, a) k srv port \/ (tcp_track (tcpFlows_ s) k srv port (v_fin v) (v_rst v) 0 (clk r 1)).1 = true)).
Proof.
  intros Hl Ht Hv. pose proof (lone_address d p f t true Hl) as H1. pose proof (lone_address d p f t false Hl) as H2.
  assert (Hreq : forall k srv port, opens v = true -> (route_of v a = ReflectClientToProxy \/ route_of v a = RedirectProxyToTarget) ->
    tuple_of f d v (route_of v a) = Some (k, srv, port) -> requests (d, a) k srv port).
  { intros. exists p, f, t, v. by split_and!. }
  assert (Hkeep : forall (P : Prop), tcpFlows_ s' = tcpFlows_ s -> (owned = true -> P) -> exists ops, tcpFlows_ s' = foldl tcp_run (tcpFlows_ s) ops /\
    (forall k srv port now tick, TAdd k srv port now tick ∈ ops -> requests (d, a) k srv port) /\ (owned = true -> P)).
  { intros P Hs HP. exists []. split_and!; [done | | done]. intros k srv port now tick Hin. by apply elem_of_nil in Hin. }
  assert (Hone : forall op (P : Prop), tcpFlows_ s' = tcp_run (tcpFlows_ s) op ->
    (forall k srv port now tick, TAdd k srv port now tick = op -> requests (d, a) k srv port) -> (owned = true -> P) ->
    exists ops, tcpFlows_ s' = foldl tcp_run (tcpFlows_ s) ops /\
    (forall k srv port now tick, TAdd k srv port now tick ∈ ops -> requests (d, a) k srv port) /\ (owned = true -> P)).
  { intros op P Hs Ha HP. exists [op]. split_and!; [done | | done]. intros k srv port now tick Hin%list_elem_of_singleton. eapply Ha. exact Hin. }
  unfold ownPacket, packetAddress. revert Hreq. unfold tuple_of, packetAddress. destruct (route_of v a) eqn:Er; rewrite ?H1, ?H2; cbn [mbind option_bind].
  - intros _ [= <- <-]. apply Hkeep; done.
  - intros Hreq. destruct (opens v) eqn:Eo.
    + destruct (if ruled s then _ else _) as [[i s1]|] eqn:Ex; [|done]. cbn [mbind option_bind].
      assert (Hs1 : tcpFlows_ s1 = tcpFlows_ s).
      { case_if_in Ex; [|by injection Ex as _ <-]. destruct (processEndpoint _ _ _ _ _ _) as [e|]; [|done]. cbn [mbind option_bind] in Ex.
        destruct (filterSays_total s e true true (clk r 0)) as (b & fi & Ef). rewrite Ef in Ex. by injection Ex as _ <-. }
      case_if; intros [= <- <-]; (eapply Hone; [cbn [setTcpFlows tcpFlows_]; rewrite Hs1 | |]).
      * by instantiate (1 := TRemove _ _ _).
      * done.
      * done.
      * by instantiate (1 := TAdd _ _ _ _ _).
      * intros k srv port now tick [= -> -> -> _ _]. apply Hreq; auto.
      * intros _. right. eexists _, _, _. split; [done |]. left. apply Hreq; auto.
    + destruct (tcp_track _ _ _ _ _ _ _ _) as [o fl] eqn:Etr.
      assert (Hfl : forall fi, tcpFlows_ (setFilter (setTcpFlows s fl) fi) = fl) by done.
      set (op := TTrack Client (addressFromBytes (Some (slice d (addressAt f true) (addrSize f))) (isV6 f)) (v_src v) (v_fin v) (v_rst v) 0 (clk r 1)).
      assert (Hop : tcp_run (tcpFlows_ s) op = fl) by (unfold op; cbn [tcp_run]; by rewrite Etr).
      case_if; [destruct (processEndpoint _ _ _ _ _ _) as [e|]; [|done]; cbn [mbind option_bind] |]; intros [= <- <-];
        (apply (Hone op); [by rewrite Hop | done |]); intros Ho; right; eexists _, _, _; (split; [done |]); right; by rewrite Etr.
  - intros _. destruct (tcp_track _ _ _ _ _ _ _ _) as [o fl] eqn:Etr. intros [= <- <-].
    eapply Hone; [cbn [setTcpFlows tcpFlows_]; instantiate (1 := TTrack _ _ _ _ _ _ _); cbn [tcp_run]; by rewrite Etr | done |].
    intros Ho. right. eexists _, _, _. split; [done |]. right. by rewrite Etr.
  - intros Hreq [= <- <-]. destruct (opens v) eqn:Eo.
    + eapply Hone; [cbn [setTcpFlows tcpFlows_]; by instantiate (1 := TAdd _ _ _ _ _) | | by left].
      intros k srv port now tick [= -> -> -> _ _]. apply Hreq; auto.
    + eapply Hone; [cbn [setTcpFlows tcpFlows_]; by instantiate (1 := TTrack _ _ _ _ _ _ _) | done | by left].
  - intros _. destruct (tcp_track _ _ _ _ _ _ _ _) as [o fl] eqn:Etr. intros [= <- <-].
    eapply Hone; [cbn [setTcpFlows tcpFlows_]; instantiate (1 := TTrack _ _ _ _ _ _ _); cbn [tcp_run]; by rewrite Etr | done |].
    intros Ho. right. eexists _, _, _. split; [done |]. right. by rewrite Etr.
Qed.

(** What one packet does to the flow table, exactly: at most one operation, on the packet's
    own tuple; a packet that asks for no connection is tracked, and owned while it is live. *)
Lemma ownPacket_tuple r s f d p t v a owned s' : lone_packet d p f t -> p_tcp p = Some t -> views d t v ->
  ownPacket platform r s f d t (v_src v) (v_dst v) (opens v) (v_fin v) (v_rst v) (route_of v a) = Some (owned, s') ->
  (tcpFlows_ s' = tcpFlows_ s \/ exists k srv port op, tuple_of f d v (route_of v a) = Some (k, srv, port) /\
     tcpFlows_ s' = tcp_run (tcpFlows_ s) op /\ tcp_key op = Some (mkPeerKey srv port (kindCode k))) /\
  (forall srv port, tuple_of f d v (route_of v a) = Some (Client, srv, port) ->
     opens v && bool_decide (route_of v a = ReflectClientToProxy) = false ->
     (owned, tcpFlows_ s') = tcp_track (tcpFlows_ s) Client srv port (v_fin v) (v_rst v) 0 (clk r 1)).
Proof.
  intros Hl Ht Hv. pose proof (lone_address d p f t true Hl) as H1. pose proof (lone_address d p f t false Hl) as H2.
  assert (Hone : forall k srv port op, tuple_of f d v (route_of v a) = Some (k, srv, port) -> tcpFlows_ s' = tcp_run (tcpFlows_ s) op ->
    tcp_key op = Some (mkPeerKey srv port (kindCode k)) -> tcpFlows_ s' = tcpFlows_ s \/ exists k srv port op,
      tuple_of f d v (route_of v a) = Some (k, srv, port) /\ tcpFlows_ s' = tcp_run (tcpFlows_ s) op /\ tcp_key op = Some (mkPeerKey srv port (kindCode k))).
  { intros k srv port op ? ? ?. right. by exists k, srv, port, op. }
  unfold ownPacket, packetAddress. revert Hone. unfold tuple_of, packetAddress. destruct (route_of v a) eqn:Er; rewrite ?H1, ?H2; cbn [mbind option_bind]; intros Hone.
  - intros [= <- <-]. split; [by left | done].
  - destruct (opens v) eqn:Eo.
    + destruct (if ruled s then _ else _) as [[i s1]|] eqn:Ex; [|done]. cbn [mbind option_bind].
      assert (Hs1 : tcpFlows_ s1 = tcpFlows_ s).
      { case_if_in Ex; [|by injection Ex as _ <-]. destruct (processEndpoint _ _ _ _ _ _) as [e|]; [|done]. cbn [mbind option_bind] in Ex.
        destruct (filterSays_total s e true true (clk r 0)) as (b & fi & Ef). rewrite Ef in Ex. by injection Ex as _ <-. }
      case_if; intros [= <- <-]; (split; [|done]).
      * eapply (Hone _ _ _ (TRemove _ _ _) eq_refl); [cbn [setTcpFlows tcpFlows_]; by rewrite Hs1 | done].
      * eapply (Hone _ _ _ (TAdd _ _ _ _ _) eq_refl); [cbn [setTcpFlows tcpFlows_]; by rewrite Hs1 | done].
    + destruct (tcp_track _ _ _ _ _ _ _ _) as [o fl] eqn:Etr.
      case_if; [destruct (processEndpoint _ _ _ _ _ _) as [e|]; [|done]; cbn [mbind option_bind] |]; intros [= <- <-];
        (split; [eapply (Hone _ _ _ (TTrack Client _ _ (v_fin v) (v_rst v) 0 (clk r 1)) eq_refl); [cbn [tcp_run setFilter setTcpFlows tcpFlows_]; by rewrite Etr | done]
                | intros srv port [= <- <-] _; symmetry; exact Etr]).
  - destruct (tcp_track _ _ _ _ _ _ _ _) as [o fl] eqn:Etr. intros [= <- <-]. cbn [setTcpFlows tcpFlows_]. split.
    + eapply (Hone _ _ _ (TTrack Client _ _ (v_fin v) (v_rst v) 0 (clk r 1)) eq_refl); [cbn [tcp_run setTcpFlows tcpFlows_]; by rewrite Etr | done].
    + intros srv port [= <- <-] _. symmetry. exact Etr.
  - intros [= <- <-]. split; [|done]. cbn [setTcpFlows tcpFlows_]. destruct (opens v).
    + by eapply (Hone _ _ _ (TAdd Upstream _ _ 0 (clk r 1)) eq_refl).
    + by eapply (Hone _ _ _ (TTrack Upstream _ _ (v_fin v) (v_rst v) 0 (clk r 1)) eq_refl).
  - destruct (tcp_track _ _ _ _ _ _ _ _) as [o fl] eqn:Etr. intros [= <- <-]. split; [|done].
    eapply (Hone _ _ _ (TTrack Upstream _ _ (v_fin v) (v_rst v) 0 (clk r 1)) eq_refl); [cbn [tcp_run setTcpFlows tcpFlows_]; by rewrite Etr | done].
Qed.

(** *** A UDP datagram *)

Hypothesis dns_range : 0 <= dnsProxyPort_ < 65536.
Let handleUdp' := handleUdp inet_ntop4 inet_ntop6 platform dnsProxyPort_ quicMode_.

(** UDP/443. *)
Definition quic_packet (a : DivertAddress) (sp dp : Z) : Prop :=
  (Outbound a = true /\ dp = kHttpsPort) \/ (Outbound a = false /\ sp = kHttpsPort).

(** Whether the payload is a QUIC Initial. *)
Definition initial_of (p : Parsed) (d : bytes) : option bool :=
  match p_payload p with Some (o, l) => looksLikeInitial (slice d o l) | None => Some false end.

(** The QUIC registry lets the datagram pass. *)
Definition quic_passed (r : Readings) (s : Interceptor) (f : Family) (d : bytes) (p : Parsed) (sp dp : Z) (a : DivertAddress) (s' : Interceptor) : Prop :=
  (quicRegistry_ s' = quicRegistry_ s /\
     (quicMode_ <> Adaptive \/ ~ quic_packet a sp dp \/
      (Outbound a = true /\ exists i, initial_of p d = Some i /\ needsOutbound (quicRegistry_ s) i = false) \/
      (Outbound a = false /\ needsInbound (quicRegistry_ s) = false))) \/
  (Outbound a = true /\ exists i dec, initial_of p d = Some i /\ dec <> QuicStrategy.Drop /\
     QuicStrategy.outbound (quicRegistry_ s) (text_of f (slice d (dstAddrAt f) (addrSize f))) sp i (clk r 2) = (dec, quicRegistry_ s')) \/
  (Outbound a = false /\
     quicRegistry_ s' = QuicStrategy.inbound (quicRegistry_ s) (text_of f (slice d (srcAddrAt f) (addrSize f))) dp (clk r 2)).

(** [udp_out r s f d p u sp dp a s' out]: what may become of the datagram [d] of the process
    it belongs to. *)
Inductive udp_out (r : Readings) (s : Interceptor) (f : Family) (d : bytes) (p : Parsed) (u sp dp : Z) (a : DivertAddress)
    : Interceptor -> list (bytes * DivertAddress) -> Prop :=
  | udp_query d' a' s' :
      routeDatagram (Outbound a) sp dp kDnsPort dnsProxyPort_ = ReflectDnsToProxy ->
      rewritten f p d true (u + 2) dnsProxyPort_ d' -> Outbound a' = false -> otherFields a' = otherFields a ->
      datagrams_ s' = dgram_observe (datagrams_ s) (text_of f (slice d (dstAddrAt f) (addrSize f))) sp 0 (clk r 1) ->
      quicRegistry_ s' = quicRegistry_ s -> udp_out r s f d p u sp dp a s' [(d', a')]
  | udp_answer d' a' s' :
      routeDatagram (Outbound a) sp dp kDnsPort dnsProxyPort_ = DReflectProxyToClient ->
      rewritten f p d true u kDnsPort d' -> Outbound a' = false -> otherFields a' = otherFields a ->
      datagrams_ s' = datagrams_ s -> quicRegistry_ s' = quicRegistry_ s -> udp_out r s f d p u sp dp a s' [(d', a')]
  | udp_forward s' :
      routeDatagram (Outbound a) sp dp kDnsPort dnsProxyPort_ = DPass -> ~ (quicMode_ = Block /\ quic_packet a sp dp) ->
      datagrams_ s' = datagrams_ s -> quic_passed r s f d p sp dp a s' -> udp_out r s f d p u sp dp a s' [(d, a)]
  | udp_blocked s' :
      quicMode_ = Block -> quic_packet a sp dp -> datagrams_ s' = datagrams_ s -> quicRegistry_ s' = quicRegistry_ s ->
      udp_out r s f d p u sp dp a s' []
  | udp_unanswered s' initial :
      quicMode_ = Adaptive -> initial_of p d = Some initial -> Outbound a = true -> dp = kHttpsPort -> datagrams_ s' = datagrams_ s ->
      QuicStrategy.outbound (quicRegistry_ s) (text_of f (slice d (dstAddrAt f) (addrSize f))) sp initial (clk r 2) =
        (QuicStrategy.Drop, quicRegistry_ s') -> udp_out r s f d p u sp dp a s' []
  | udp_primed s' o prime :
      quicMode_ = Adaptive -> initial_of p d = Some true -> Outbound a = true -> dp = kHttpsPort -> datagrams_ s' = datagrams_ s ->
      QuicStrategy.outbound (quicRegistry_ s) (text_of f (slice d (dstAddrAt f) (addrSize f))) sp true (clk r 2) =
        (PrimeAndPass, quicRegistry_ s') ->
      udp_variant d f u o (buildPrimePayload (random r)) prime -> udp_out r s f d p u sp dp a s' [(prime, a); (d, a)].

Lemma rewriteDatagram_spec r s f d p u sp dp a : lone_packet d p f u ->
  let route := routeDatagram (Outbound a) sp dp kDnsPort dnsProxyPort_ in
  exists d' a' s', rewriteDatagram inet_ntop4 inet_ntop6 dnsProxyPort_ r s f d u sp a route = Some (d', a', s') /\
    packetPolicies_ s' = packetPolicies_ s /\ tcpFlows_ s' = tcpFlows_ s /\
    (route = DPass -> d' = d /\ a' = a /\ s' = s) /\ (route <> DPass -> udp_out r s f d p u sp dp a s' [(d', a')]).
Proof.
  intros Hl route. pose proof (lone_address d p f u true Hl) as Ha. cbn [addressAt] in Ha. unfold rewriteDatagram.
  assert (Hca : forall d2, Outbound (calcChecksums d2 (setOutbound false a)).2 = false /\ otherFields (calcChecksums d2 (setOutbound false a)).2 = otherFields a)
    by (intros d2; destruct (calc_address d2 (setOutbound false a)) as [-> ->]; done).
  destruct route eqn:Er.
  - exists d, a, s. by split_and!.
  - unfold addressText. cbn [addressAt]. rewrite Ha. cbn [mbind option_bind]. fold (text_of f (slice d (dstAddrAt f) (addrSize f))).
    destruct (rewrite_spec d p f u true (u + 2) dnsProxyPort_ (setOutbound false a)) as (d1 & d2 & E1 & E2 & HR); [apply Hl .. | by right | done |].
    rewrite E1. cbn [mbind option_bind]. rewrite E2. cbn [mbind option_bind]. destruct (Hca d2) as [Ho Hf].
    destruct (calcChecksums d2 (setOutbound false a)) as [d3 a3]. cbn [fst snd] in *.
    eexists d3, a3, _. split; [done |]. split_and!; try done. intros _. eapply udp_query; done.
  - destruct (rewrite_spec d p f u true u kDnsPort (setOutbound false a)) as (d1 & d2 & E1 & E2 & HR); [apply Hl .. | by left | done |].
    rewrite E1. cbn [mbind option_bind]. rewrite E2. cbn [mbind option_bind]. destruct (Hca d2) as [Ho Hf].
    destruct (calcChecksums d2 (setOutbound false a)) as [d3 a3]. cbn [fst snd] in *.
    eexists d3, a3, _. split; [done |]. split_and!; try done. intros _. eapply udp_answer; done.
Qed.

Lemma adaptiveQuic_spec r s f d p u sp dp a b : lone_packet d p f u -> p_udp p = Some u -> quicMode_ = Adaptive ->
  routeDatagram (Outbound a) sp dp kDnsPort dnsProxyPort_ = DPass ->
  exists s' pre drop, adaptiveQuic inet_ntop4 inet_ntop6 r s f d sp dp (p_payload p) a (batch_of b) = Some (s', batch_of (b ++ pre), drop) /\
    packetPolicies_ s' = packetPolicies_ s /\ tcpFlows_ s' = tcpFlows_ s /\
    udp_out r s f d p u sp dp a s' (if drop : bool then [] else pre ++ [(d, a)]) /\ (drop = true -> pre = []).
Proof.
  intros Hl Hu Hm Hroute. pose proof (lone_address d p f u true Hl) as Ha1. pose proof (lone_address d p f u false Hl) as Ha2. cbn [addressAt] in *.
  assert (Hpass : forall s', packetPolicies_ s' = packetPolicies_ s -> tcpFlows_ s' = tcpFlows_ s -> datagrams_ s' = datagrams_ s -> quic_passed r s f d p sp dp a s' ->
    exists s'' pre drop, Some (s', batch_of b, false) = Some (s'', batch_of (b ++ pre), drop) /\
    packetPolicies_ s'' = packetPolicies_ s /\ tcpFlows_ s'' = tcpFlows_ s /\
    udp_out r s f d p u sp dp a s'' (if drop : bool then [] else pre ++ [(d, a)]) /\ (drop = true -> pre = [])).
  { intros s' E1 E2 E3 E4. exists s', [], false. rewrite app_nil_r. split_and!; try done. apply udp_forward; try done. intros [? _]. congruence. }
  unfold adaptiveQuic, addressText. fold (initial_of p d). cbn [addressAt]. destruct (Outbound a && (dp =? kHttpsPort)) eqn:E1.
  - apply andb_true_iff in E1 as [Eo Ed]. zbool.
    assert (Hin : exists initial, initial_of p d = Some initial /\
      (initial = true -> exists o l, p_payload p = Some (o, l))).
    { unfold initial_of. destruct (p_payload p) as [[o l]|]; [|by exists false]. unfold looksLikeInitial. case_if; [by exists false |]. zbool.
      unfold kMinimumInitialSize in *. destruct (rd_ok (slice d o l) 0) as [x ->]; [lia |]. cbn [mbind option_bind]. case_if; [by exists false |].
      unfold readU32. destruct (rd32_ok (slice d o l) 1) as [y ->]; [lia | lia |]. cbn [mbind option_bind]. case_if; [by exists false |].
      eexists. split; [done |]. intros _. by exists o, l. }
    destruct Hin as (initial & Hi & Hini). rewrite Hi. cbn [mbind option_bind]. case_if.
    { apply Hpass; try done. left. split; [done |]. right. right. left. split; [done |]. exists initial. split; [done |]. by destruct (needsOutbound _ _). } rewrite Ha1. cbn [mbind option_bind].
    fold (text_of f (slice d (dstAddrAt f) (addrSize f))). set (srv := text_of _ _) in *.
    destruct (QuicStrategy.outbound (quicRegistry_ s) srv sp initial (clk r 2)) as [dec quic] eqn:Eq. destruct dec.
    + apply Hpass; try done. right. left. split; [done |]. by exists initial, DecPass.
    + destruct initial; [|unfold QuicStrategy.outbound in Eq; destruct (match blockedUntil_ _ !! srv with Some _ => _ | None => _ end) as [dr q2]; destruct dr; done].
      destruct (Hini eq_refl) as (o & l & Hp). rewrite Hp. cbn [fmap option_fmap option_map fst].
      destruct (udp_variant_built d p f u o l (buildPrimePayload (random r)) a) as (prime & -> & Hfit & Hno); [apply Hl | apply Hl | apply Hl | done | done |].
      cbn [mbind option_bind]. destruct (bool_decide (prime = [])) eqn:Eb; zbool.
      { apply Hpass; try done. right. left. split; [done |]. by exists true, PrimeAndPass. }
      rewrite append_batch. exists (setQuic s quic), [(prime, a)], false. split_and!; try done. eapply udp_primed; try done.
      destruct (fits f _); [by apply Hfit | by specialize (Hno eq_refl)].
    + exists (setQuic s quic), [], true. rewrite app_nil_r. split_and!; try done. by eapply udp_unanswered.
  - destruct (negb (Outbound a) && _ && _) eqn:E2.
    + apply andb_true_iff in E2 as [[E2 E3]%andb_true_iff E4]. rewrite Ha2. cbn [mbind option_bind]. apply Hpass; try done. right. right.
      split; [by destruct (Outbound a) | done].
    + apply Hpass; try done. left. split; [done |]. right. unfold quic_packet. destruct (Outbound a); cbn [negb andb] in E1, E2.
      * left. zbool. intros [[_ ?]|[? _]]; done.
      * destruct (sp =? kHttpsPort) eqn:E3; cbn [andb] in E2; [right; by right | left]. zbool. intros [[? _]|[_ ?]]; done.
Qed.
Lemma udp_out_filter r s i f d p u sp dp a s' out : udp_out r (setFilter s i) f d p u sp dp a s' out -> udp_out r s f d p u sp dp a s' out.
Proof. by destruct 1; econstructor. Qed.

Lemma handleUdp_spec r s f d p u sp dp a b :
  lone_packet d p f u -> p_udp p = Some u -> rd16 d u = Some sp -> rd16 d (u + 2) = Some dp ->
  exists s' out, handleUdp' r s f d u (p_payload p) a (batch_of b) = Some (s', batch_of (b ++ out)) /\
    packetPolicies_ s' = packetPolicies_ s /\ tcpFlows_ s' = tcpFlows_ s /\
    ((ruled s = true /\ out = [(d, a)] /\ (exists i, s' = setFilter s i)) \/ udp_out r s f d p u sp dp a s' out).
Proof.
  intros Hl Hu Hsp Hdp. unfold handleUdp', handleUdp. rewrite Hsp, Hdp. cbn [mbind option_bind].
  match goal with |- context [if ruled s && ?c then _ else _] => set (scoped := ruled s && c) end.
  assert (Hx : exists b i, (if scoped then e ← processEndpoint f d sp dp Udp (Outbound a); filterSays platform s e (Outbound a) false (clk r 0)
                            else Some (true, s)) = Some (b, setFilter s i) /\ (b = false -> ruled s = true)).
  { destruct scoped eqn:Esc; [|exists true, (processFilter_ s); by destruct s].
    destruct (lone_endpoint d p f u sp dp Udp (Outbound a) Hl) as [e ->]. cbn [mbind option_bind].
    destruct (filterSays_total s e (Outbound a) false (clk r 0)) as (b1 & i & Ef). exists b1, i. split; [done |]. intros _.
    apply andb_true_iff in Esc. tauto. }
  destruct Hx as (int & i & -> & Hint). cbn [mbind option_bind]. destruct int; cbn [negb].
  2:{ rewrite append_batch. eexists _, [(d, a)]. split_and!; try done. left. split_and!; try done; [by apply Hint | by eexists]. }
  destruct (rewriteDatagram_spec r (setFilter s i) f d p u sp dp a Hl) as (d' & a' & s' & -> & Hp1 & Hp2 & Hpass & Hrw). cbn [mbind option_bind].
  destruct (bool_decide (routeDatagram _ _ _ _ _ = DPass)) eqn:Er; zbool; cbn [negb].
  2:{ rewrite append_batch. eexists _, [(d', a')]. split_and!; try done. right. eapply udp_out_filter. by apply Hrw. }
  destruct (Hpass Er) as (-> & -> & ->).
  destruct (bool_decide (quicMode_ = Block) && _) eqn:Eb.
  - apply andb_true_iff in Eb as [Em Eq]. zbool. eexists _, []. rewrite app_nil_r. split_and!; try done. right. apply udp_blocked; try done.
    unfold quic_packet. destruct Eq as [[E1 E2]%andb_true_iff|[E1 E2]%andb_true_iff]; zbool; [by left |]. right. by destruct (Outbound a).
  - destruct (bool_decide (quicMode_ = Adaptive)) eqn:Em; zbool.
    + destruct (adaptiveQuic_spec r (setFilter s i) f d p u sp dp a b Hl Hu Em Er) as (s2 & pre & dr & -> & Hq1 & Hq2 & Hq3 & Hq4).
      cbn [mbind option_bind]. eexists s2, (if dr then [] else pre ++ [(d, a)]). split_and!; try done.
      * destruct dr; [by rewrite (Hq4 eq_refl) |]. by rewrite append_batch, app_assoc.
      * right. by eapply udp_out_filter.
    + rewrite append_batch. eexists _, [(d, a)]. split_and!; try done. right. apply udp_forward; try done; [|left; split; [done | by left]].
      intros [Hb Hq]. rewrite bool_decide_eq_true_2 in Eb by done. destruct Eb as [Eb|Eb]; [done |]. apply orb_false_iff in Eb as [E1 E2].
      destruct Hq as [[Ho ->]|[Ho ->]]; rewrite Ho in E1, E2; done.
Qed.

End Lemmas.
