(* ===== verification/PacketPath.v ===== *)
(** * PacketPath: what the interceptor does to the traffic

    The theorems about [Interceptor]: a batch is handled packet by packet, each as
    [packet_fate] says; only connections whose request was seen are rewritten; a connection
    reflected to the proxy is the one the proxy claims; an armed strategy changes how a
    ClientHello travels and not what it says. [engine_reach] gives the states a run of the
    packet loop goes through. *)

From S2P Require Import Prelude Containers TlsHello TcpConnect TransparentFlow RecoveryPolicy QuicStrategy PacketStrategy ProcessFilter SocksHandshake DivertPacket Interceptor.

(** ** The packets of a buffer *)

(** The packets the driver put into a buffer, one after the other, with their addresses. *)
Fixpoint frames `{WinDivert} (rest : bytes) (addresses : list DivertAddress) : list (bytes * DivertAddress) :=
  match addresses with
  | [] => []
  | a :: addresses =>
      if bool_decide (rest = []) then [] else
      match parse rest with
      | None => [(rest, a)]
      | Some p => (take (Z.to_nat (zlen rest - p_next p)) rest, a) ::
                  frames (drop (Z.to_nat (zlen rest - p_next p)) rest) addresses
      end
  end.

Section Path.
Context `{W : WinDivert, !WinDivertLaws} `{!MapOrder bytes, !MapOrder PeerKey, !MapOrder EndpointKey, !MapOrder Z}.
Variable inet_ntop4 inet_ntop6 : bytes -> option bytes.
Variable platform : Platform.
Variable proxyPort_ dnsProxyPort_ connectPort_ : Z.
Variable quicMode_ : QuicStrategy.Mode.

Let route_of := route_of proxyPort_ connectPort_.
Let owned_out := owned_out inet_ntop4 inet_ntop6 proxyPort_ connectPort_.
Let udp_out := udp_out inet_ntop4 inet_ntop6 dnsProxyPort_ quicMode_.
Let handlePacket := handlePacket inet_ntop4 inet_ntop6 platform proxyPort_ dnsProxyPort_ connectPort_ quicMode_.
Let handleBatch := handleBatch inet_ntop4 inet_ntop6 platform proxyPort_ dnsProxyPort_ connectPort_ quicMode_.
Let requests := requests proxyPort_ connectPort_.

(** [packet_fate r s d a s' out]: what becomes of the packet [d]. *)
Inductive packet_fate (r : Readings) (s : Interceptor) (d : bytes) (a : DivertAddress)
    : Interceptor -> list (bytes * DivertAddress) -> Prop :=
  | fate_other :
      (forall p, parse d = Some p -> p_ip p = None \/ (p_tcp p = None /\ p_udp p = None)) -> packet_fate r s d a s [(d, a)]
  | fate_tcp p f t v (owned : bool) s1 s' out :
      lone_packet d p f t -> p_tcp p = Some t -> views d t v ->
      ownPacket platform r s f d t (v_src v) (v_dst v) (opens v) (v_fin v) (v_rst v) (route_of v a) = Some (owned, s1) ->
      tcpFlows_ s' = tcpFlows_ s1 -> processFilter_ s' = processFilter_ s1 ->
      (if owned then owned_out r s f d p t v a s' out else s' = s1 /\ out = [(d, a)]) ->
      packet_fate r s d a s' out
  | fate_udp p f u sp dp s' out :
      lone_packet d p f u -> p_udp p = Some u -> rd16 d u = Some sp -> rd16 d (u + 2) = Some dp ->
      tcpFlows_ s' = tcpFlows_ s ->
      (ruled s = true /\ out = [(d, a)] /\ (exists i, s' = setFilter s i)) \/ udp_out r s f d p u sp dp a s' out ->
      packet_fate r s d a s' out.

(** The packets [l] one after the other. *)
Inductive fates : (nat -> Readings) -> Interceptor -> list (bytes * DivertAddress) -> Interceptor -> list (list (bytes * DivertAddress)) -> Prop :=
  | fates_nil rs s : fates rs s [] s []
  | fates_cons rs s d a l s1 s2 out outs :
      packet_fate (rs 0%nat) s d a s1 out -> fates (λ n, rs (S n)) s1 l s2 outs -> fates rs s ((d, a) :: l) s2 (out :: outs).

(** *** Runs *)

(** [engine_reach h s]: the packet loop, started afresh, is in state [s] after the packets
    [h]. The threads of the proxies may do anything to the registries meanwhile but touch the
    table of rewritten tuples, which is the loop's own; the policies they arm are in range. *)
Inductive engine_reach : list (bytes * DivertAddress) -> Interceptor -> Prop :=
  | reach_start s : policies_ok (packetPolicies_ s) -> engine_reach [] (setTcpFlows s (tcp_clear (tcpFlows_ s)))
  | reach_batch h s rs rest l s' b :
      engine_reach h s -> all_bytes rest -> handleBatch rs s rest l emptyBatch = Some (s', b) -> engine_reach (h ++ frames rest l) s'
  | reach_others h s s' :
      engine_reach h s -> tcpFlows_ s' = tcpFlows_ s -> policies_ok (packetPolicies_ s') -> engine_reach h s'.

(** Every tuple in the table was asked for by a packet of [h]. *)
Definition table_from (h : list (bytes * DivertAddress)) (s : Interceptor) : Prop :=
  exists ops : list TcpOp, tcpFlows_ s = foldl tcp_run newTcpFlowTable ops /\
    forall k srv port now tick, TAdd k srv port now tick ∈ ops -> exists x, x ∈ h /\ requests x k srv port.

(** If the TCP packet [d] is not forwarded as it is, it is the proxy's own, or the tuple it
    belongs to was asked for by a packet of [h]. *)
Definition rewrite_authorised (h : list (bytes * DivertAddress)) (d : bytes) (a : DivertAddress) (out : list (bytes * DivertAddress)) : Prop :=
  forall p f t v, lone_packet d p f t -> p_tcp p = Some t -> views d t v -> out <> [(d, a)] ->
    route_of v a = RedirectProxyToTarget \/
    exists k srv port x, tuple_of f d v (route_of v a) = Some (k, srv, port) /\ x ∈ h /\ requests x k srv port.

(** *** Reflection *)

(** No rule stops the connection request [d]. *)
Definition allowed (r : Readings) (s : Interceptor) (f : Family) (d : bytes) (v : tcp_view) : Prop :=
  ruled s = false \/ exists e s1, processEndpoint f d (v_src v) (v_dst v) Tcp true = Some e /\
    filterSays platform s e true true (clk r 0) = Some (true, s1).

(** The packet at the head of a buffer. *)
Definition headPacket (rest : bytes) : bytes :=
  match parse rest with Some p => take (Z.to_nat (zlen rest - p_next p)) rest | None => rest end.

(** The packet is one of the connection of [server] and the application's [port]. *)
Definition of_connection (server : Address) (port : Z) (d : bytes) (a : DivertAddress) (p : Parsed) (f : Family) (t : Z) (v : tcp_view) : Prop :=
  lone_packet d p f t /\ p_tcp p = Some t /\ views d t v /\ tuple_of f d v (route_of v a) = Some (Client, server, port).
(** It asks for the connection once more. *)
Definition asks_again (v : tcp_view) (a : DivertAddress) : bool := opens v && bool_decide (route_of v a = ReflectClientToProxy).

(** [converses server port s0 e0 s e]: while the packet loop went from [s0] to [s], packet
    after packet, the connection stayed alive, and its deadline and whether a FIN was seen
    went from [e0] to [e]. Every packet of the connection, of either side, came before the
    deadline and moved it: four hours on, or two minutes once a FIN was seen; none was a
    reset, and a repeated request was not stopped by a rule. In between there may be any
    other packets while there is room in the table, and whatever the other threads do. *)
Inductive converses (server : Address) (port : Z) (s0 : Interceptor) (e0 : TcpEntry) : Interceptor -> TcpEntry -> Prop :=
  | conv_start : converses server port s0 e0 s0 e0
  | conv_others s s' e :
      converses server port s0 e0 s e -> tcpFlows_ s' = tcpFlows_ s -> policies_ok (packetPolicies_ s') -> converses server port s0 e0 s' e
  | conv_elsewhere r s rest a b s' b' e :
      converses server port s0 e0 s e -> rest <> [] -> all_bytes rest -> handlePacket r s rest a (batch_of b) = Some (s', b') ->
      (forall p f t v, ~ of_connection server port (headPacket rest) a p f t v) -> tcp_size (tcpFlows_ s) < kMaxTcpFlows ->
      converses server port s0 e0 s' e
  | conv_packet r s rest a b s' b' e p f t v :
      converses server port s0 e0 s e -> rest <> [] -> all_bytes rest -> handlePacket r s rest a (batch_of b) = Some (s', b') ->
      of_connection server port (headPacket rest) a p f t v -> asks_again v a = false -> v_rst v = false ->
      0 <= clk r 1 < 2 ^ 63 -> clk r 1 < t_expiresAtMs e ->
      converses server port s0 e0 s' (mkTcpEntry (clk r 1 + if v_fin v || closing e then kTcpFlowClosingMs else kTcpFlowIdleMs) (v_fin v || closing e))
  | conv_again r s rest a b s' b' e p f t v :
      converses server port s0 e0 s e -> rest <> [] -> all_bytes rest -> handlePacket r s rest a (batch_of b) = Some (s', b') ->
      of_connection server port (headPacket rest) a p f t v -> asks_again v a = true -> allowed r s f (headPacket rest) v ->
      0 <= clk r 1 < 2 ^ 63 -> port <> 0 ->
      converses server port s0 e0 s' (mkTcpEntry (clk r 1 + kTcpFlowIdleMs) false).

(** What [getpeername] reports on the proxy's socket for a packet from [address], [port]. *)
Definition peer_of (f : Family) (address : bytes) (port : Z) (peer : Sockaddr) : Prop :=
  match f with
  | V4 => peer = SockIn address port \/ exists m, peer = SockIn6 m port /\ v4Mapped m = true /\ drop 12 m = address
  | V6 => peer = SockIn6 address port /\ v4Mapped address = false
  end.

(** *** What a ClientHello becomes *)

(** The segment a receiver sees in a packet of the connection, with the sequence number
    relative to [seq]. *)
Definition wire_segment (t o seq : Z) (x : bytes * DivertAddress) : Segment :=
  mkSegment (i32 (default 0 (rd32 x.1 (t + 4)) - seq)) (drop (Z.to_nat o) x.1).

(** [conveys pol f d t o l a out]: [out] says what the packet [d] says. *)
Inductive conveys (pol : Policy) (f : Family) (d : bytes) (t o l : Z) (a : DivertAddress) : list (bytes * DivertAddress) -> Prop :=
  | conveys_fragments f1 f2 part1 part2 :
      f = V4 -> drop (Z.to_nat t) d = part1 ++ part2 -> fragment_of d t part1 0x2000 f1 -> fragment_of d t part2 (zlen part1 / 8) f2 ->
      valid_boundary (o - t) pol l (zlen part1) -> conveys pol f d t o l a [(f1, a); (f2, a)]
  | conveys_segments out seq :
      rd32 d (t + 4) = Some seq -> (forall i, stream_at (wire_segment t o seq <$> out) i = rd (slice d o l) i) ->
      Forall (λ x, x.2 = a /\ (exists q, parse x.1 = Some q /\ p_tcp q = Some t) /\
                   forall i, 0 <= i < o -> ~ variantField f t 0 i -> rd x.1 i = rd d i) out ->
      conveys pol f d t o l a out
  | conveys_cover fake :
      mode pol <> IpFragment -> mode pol <> ReverseOrder -> mode pol <> SequenceOverlap ->
      tcp_variant d f t o (buildFakeClientHello (coverSni pol))
        (if bool_decide (mode pol = FakeBadSequence) then fakeSequenceDelta pol else 0)
        (if bool_decide (mode pol = FakeAutoTtl) then fakeTtl pol else 0) fake ->
      conveys pol f d t o l a [(fake, fake_address pol a); (d, a)].

(** ** Lemmas *)

Hypothesis proxy_range : 0 <= proxyPort_ < 65536.
Hypothesis connect_range : 0 <= connectPort_ < 65536.
Hypothesis dns_range : 0 <= dnsProxyPort_ < 65536.

Lemma handlePacket_spec r s rest a b : rest <> [] -> all_bytes rest -> policies_ok (packetPolicies_ s) ->
  let d := match parse rest with Some p => take (Z.to_nat (zlen rest - p_next p)) rest | None => rest end in
  exists s' out, handlePacket r s rest a (batch_of b) = Some (s', batch_of (b ++ out)) /\ policies_ok (packetPolicies_ s') /\
    packet_fate r s d a s' out.
Proof.
  intros Hne Hb Hpol d. unfold handlePacket, Interceptor.handlePacket, d. destruct (parse rest) as [p|] eqn:Ep.
  2:{ rewrite append_batch. exists s, [(rest, a)]. split_and!; try done. constructor. intros p. by rewrite Ep. }
  pose proof (parse_inside _ _ Ep) as Hok. pose proof (po_next _ _ Hok) as Hn. pose proof (parse_alone _ _ Ep) as Hd.
  set (d' := take _ rest) in *. assert (Hz : zlen d' = zlen rest - p_next p) by (unfold d', zlen in *; rewrite length_take; lia).
  rewrite bool_decide_eq_false_2 by (intros E; rewrite E in Hz; unfold zlen in *; cbn in Hz; lia).
  assert (Hbd : all_bytes d') by (by apply Forall_take).
  assert (Hlone : forall f t, p_ip p = Some f -> transport p t -> lone_packet d' (alone p) f t) by (intros f t Hf Ht; by split).
  assert (Hskip : (p_ip p = None \/ (p_tcp p = None /\ p_udp p = None)) -> exists s' out,
    Some (s, append (batch_of b) d' a) = Some (s', batch_of (b ++ out)) /\ policies_ok (packetPolicies_ s') /\ packet_fate r s d' a s' out).
  { intros Hx. rewrite append_batch. exists s, [(d', a)]. split_and!; try done. constructor. intros q Hq. rewrite Hd in Hq. by injection Hq as <-. }
  destruct (p_ip p) as [f|] eqn:Ef; [|apply Hskip; tauto]. destruct (p_tcp p) as [t|] eqn:Et.
  - specialize (Hlone f t eq_refl ltac:(by left)). destruct (views_ok d' (alone p) f t Hlone Et) as [v Hv].
    destruct (handleTcp_spec inet_ntop4 inet_ntop6 platform proxyPort_ connectPort_ proxy_range connect_range r s f d' (alone p) t v a b)
      as (owned & s1 & s' & out & H1 & H2 & H3 & H4 & H5 & H6); try done.
    exists s', out. split_and!; try done. by eapply fate_tcp.
  - destruct (p_udp p) as [u|] eqn:Eu; [|apply Hskip; tauto]. specialize (Hlone f u eq_refl ltac:(by right)).
    destruct (lone_inside _ _ _ _ Hlone) as [Hlo Hhi]. assert (20 <= u) by (destruct f; cbn in Hlo; lia).
    destruct (rd16_ok d' u) as [sp Hsp]; [lia | lia |]. destruct (rd16_ok d' (u + 2)) as [dp Hdp]; [lia | lia |].
    destruct (handleUdp_spec inet_ntop4 inet_ntop6 platform proxyPort_ dnsProxyPort_ connectPort_ quicMode_ proxy_range connect_range dns_range r s f d' (alone p) u sp dp a b)
      as (s' & out & H1 & H2 & H3 & H4); try done.
    exists s', out. split_and!; try done; [by rewrite H2 |]. by eapply fate_udp.
Qed.

Lemma frames_cons (rest : bytes) a l : rest <> [] -> frames rest (a :: l) =
  match parse rest with
  | None => [(rest, a)]
  | Some p => (take (Z.to_nat (zlen rest - p_next p)) rest, a) :: frames (drop (Z.to_nat (zlen rest - p_next p)) rest) l
  end.
Proof. intros Hne. cbn [frames]. by rewrite bool_decide_eq_false_2. Qed.

Lemma frames_nil l : frames [] l = [].
Proof. by destruct l. Qed.

(** Nothing between two packets is skipped. *)
Lemma frames_prefix rest l : concat (frames rest l).*1 `prefix_of` rest.
Proof.
  revert rest. induction l as [|a l IH]; intros rest; [apply prefix_nil |]. destruct (decide (rest = [])) as [->|Hne]; [done |].
  rewrite frames_cons by done. destruct (parse rest) as [p|]; [|cbn; by rewrite app_nil_r].
  destruct (IH (drop (Z.to_nat (zlen rest - p_next p)) rest)) as [k Hk]. exists k. cbn [fmap list_fmap concat fst].
  by rewrite <- app_assoc, <- Hk, take_drop.
Qed.

Lemma handleBatch_spec rs s rest l b : all_bytes rest -> policies_ok (packetPolicies_ s) ->
  exists s' outs, handleBatch rs s rest l (batch_of b) = Some (s', batch_of (b ++ concat outs)) /\ policies_ok (packetPolicies_ s') /\
    fates rs s (frames rest l) s' outs.
Proof.
  revert rs s rest b. induction l as [|a l IH]; intros rs s rest b Hb Hpol.
  { exists s, []. rewrite app_nil_r. split_and!; try done. constructor. }
  unfold handleBatch. cbn [Interceptor.handleBatch]. destruct (bool_decide (rest = [])) eqn:Ee; zbool.
  { subst. exists s, []. rewrite app_nil_r. split_and!; try done. constructor. }
  destruct (handlePacket_spec (rs 0%nat) s rest a b Ee Hb Hpol) as (s1 & out & E1 & Hpol1 & Hf). unfold handlePacket in E1. rewrite E1.
  cbn [mbind option_bind]. rewrite frames_cons by done.
  destruct (parse rest) as [p|] eqn:Ep.
  - pose proof (po_next _ _ (parse_inside _ _ Ep)) as Hn. rewrite (proj2 (Z.leb_gt (zlen rest) (p_next p))), orb_false_r by lia. case_if; zbool.
    + exists s1, [out]. cbn [concat]. rewrite app_nil_r. split_and!; try done. econstructor; [exact Hf |].
      rewrite drop_ge by (unfold zlen in *; lia). rewrite frames_nil. constructor.
    + destruct (IH (λ n, rs (S n)) s1 (drop (Z.to_nat (zlen rest - p_next p)) rest) (b ++ out)) as (s2 & outs & E2 & Hpol2 & Hf2); [by apply Forall_drop | done |].
      exists s2, (out :: outs). cbn [concat]. rewrite app_assoc. split_and!; try done. by econstructor.
  - exists s1, [out]. cbn. rewrite app_nil_r. split_and!; try done. econstructor; [exact Hf | constructor].
Qed.

(** *** One packet *)

Lemma lone_unique d p f t p' f' t' : lone_packet d p f t -> p_tcp p = Some t -> lone_packet d p' f' t' -> p_tcp p' = Some t' ->
  p' = p /\ f' = f /\ t' = t.
Proof.
  intros [P1 _ F1 _] T1 [P2 _ F2 _] T2. rewrite P1 in P2. injection P2 as <-. rewrite F1 in F2. rewrite T1 in T2.
  by injection F2 as <-; injection T2 as <-.
Qed.
Lemma views_unique d t v v' : views d t v -> views d t v' -> v' = v.
Proof. intros (A1 & A2 & A3 & A4 & A5 & A6) (B1 & B2 & B3 & B4 & B5 & B6). destruct v, v'; cbn in *. congruence. Qed.

Lemma fate_tcp_inv r s d a s' out p f t v : packet_fate r s d a s' out -> lone_packet d p f t -> p_tcp p = Some t -> views d t v ->
  exists owned s1, ownPacket platform r s f d t (v_src v) (v_dst v) (opens v) (v_fin v) (v_rst v) (route_of v a) = Some (owned, s1) /\
    tcpFlows_ s' = tcpFlows_ s1 /\ if owned : bool then owned_out r s f d p t v a s' out else s' = s1 /\ out = [(d, a)].
Proof.
  intros Hf Hl Ht Hv. destruct Hf as [Hno|p' f' t' v' owned s1 s' out Hl' Ht' Hv' Ho Hs _ Hout|p' f' u sp dp s' out Hl' Hu _ _ _ _].
  - destruct (Hno p (lp_parse _ _ _ _ Hl)) as [E|[E _]]; [|congruence]. pose proof (lp_ip _ _ _ _ Hl). congruence.
  - destruct (lone_unique _ _ _ _ _ _ _ Hl Ht Hl' Ht') as (-> & -> & ->). rewrite (views_unique _ _ _ _ Hv Hv') in *. by exists owned, s1.
  - pose proof (lp_parse _ _ _ _ Hl) as P1. pose proof (lp_parse _ _ _ _ Hl') as P2. rewrite P1 in P2. injection P2 as <-.
    destruct (po_tcp _ _ (parse_inside _ _ P1) _ Ht). congruence.
Qed.

(** A packet that is alone in its buffer. *)
Lemma handlePacket_lone r s d p f t a b : lone_packet d p f t -> all_bytes d -> policies_ok (packetPolicies_ s) ->
  exists s' out, handlePacket r s d a (batch_of b) = Some (s', batch_of (b ++ out)) /\ packet_fate r s d a s' out.
Proof.
  intros Hl Hb Hpol. destruct (lone_inside _ _ _ _ Hl) as [Hlo Hhi].
  destruct (handlePacket_spec r s d a b) as (s' & out & E & _ & Hf); [|done..|].
  { intros ->. assert (20 <= sizeofIp f) by (destruct f; cbn; lia). unfold zlen in Hhi. cbn in Hhi. lia. }
  exists s', out. split; [done |]. rewrite (lp_parse _ _ _ _ Hl), (lp_next _ _ _ _ Hl) in Hf.
  by rewrite take_ge in Hf by (unfold zlen; lia).
Qed.

(** *** The table of rewritten tuples *)

Lemma table_mono h h' s s' : table_from h s -> (forall x, x ∈ h -> x ∈ h') -> tcpFlows_ s' = tcpFlows_ s -> table_from h' s'.
Proof. intros (ops & E & Hops) Hsub Hs. exists ops. split; [congruence |]. intros k srv port now tick Hin. destruct (Hops _ _ _ _ _ Hin) as (x & Hx & ?). eauto. Qed.

Lemma fate_table h r s d a s' out : table_from h s -> packet_fate r s d a s' out ->
  table_from (h ++ [(d, a)]) s' /\ rewrite_authorised (h ++ [(d, a)]) d a out.
Proof.
  intros Htab Hf. assert (Hsub : forall x, x ∈ h -> x ∈ h ++ [(d, a)]) by (intros x Hx; apply elem_of_app; by left).
  assert (Hme : (d, a) ∈ h ++ [(d, a)]) by (apply elem_of_app; right; by apply list_elem_of_singleton).
  split.
  - destruct Hf as [Hno|p f t v owned s1 s' out Hl Ht Hv Ho Hs _ Hout|p f u sp dp s' out Hl Hu _ _ Hs _]; [by eapply table_mono | | by eapply table_mono].
    destruct (ownPacket_ops platform proxyPort_ connectPort_ r s f d p t v a owned s1 Hl Ht Hv Ho) as (ops & E & Hadd & _).
    destruct Htab as (ops0 & E0 & H0). exists (ops0 ++ ops). split; [by rewrite Hs, E, E0, foldl_app |].
    intros k srv port now tick [Hin|Hin]%elem_of_app; [destruct (H0 _ _ _ _ _ Hin) as (x & Hx & ?); eauto |]. exists (d, a). split; [done | by eapply Hadd].
  - intros p f t v Hl Ht Hv Hne. destruct (fate_tcp_inv _ _ _ _ _ _ _ _ _ _ Hf Hl Ht Hv) as (owned & s1 & Ho & _ & Hout).
    destruct owned; [|by destruct Hout]. destruct (ownPacket_ops platform proxyPort_ connectPort_ r s f d p t v a true s1 Hl Ht Hv Ho) as (_ & _ & _ & Hown).
    destruct (Hown eq_refl) as [|(k & srv & port & Htu & Hreq)]; [by left | right]. exists k, srv, port. destruct Hreq as [Hreq|Htr]; [by exists (d, a) |].
    destruct Htab as (ops0 & E0 & H0). rewrite E0 in Htr. destruct (tcp_track_requires_syn _ _ _ _ _ _ _ _ Htr) as (pre & now & tick & post & -> & _).
    destruct (H0 k srv port now tick) as (x & Hx & Hreq); [apply elem_of_app; right; by left |]. exists x. split_and!; [done | by apply Hsub | done].
Qed.

Lemma fates_table h rs s l s' outs : table_from h s -> fates rs s l s' outs ->
  table_from (h ++ l) s' /\ length outs = length l /\
  forall i d a out, l !! i = Some (d, a) -> outs !! i = Some out -> rewrite_authorised (h ++ take (S i) l) d a out.
Proof.
  intros Htab Hf. revert h Htab. induction Hf as [rs s|rs s d a l s1 s2 out outs Hp Hf IH]; intros h Htab.
  { rewrite app_nil_r. by split_and!. }
  destruct (fate_table h _ _ _ _ _ _ Htab Hp) as [Ht1 Ha]. destruct (IH _ Ht1) as (Ht2 & Hlen & Hall). rewrite <- app_assoc in Ht2.
  split_and!; [done | cbn; lia |]. intros [|i] d' a' out' Hd Ho; cbn in Hd, Ho.
  - injection Hd as <- <-. injection Ho as <-. done.
  - specialize (Hall i d' a' out' Hd Ho). rewrite <- app_assoc in Hall. done.
Qed.

Lemma reach_table h s : engine_reach h s -> table_from h s /\ policies_ok (packetPolicies_ s).
Proof.
  induction 1 as [s Hp|h s rs rest l s' b Hr [Htab Hpol] Hb E|h s s' Hr [Htab Hpol] Hs Hp].
  - split; [|done]. exists []. split; [done |]. intros k srv port now tick Hin. by apply elem_of_nil in Hin.
  - destruct (handleBatch_spec rs s rest l [] Hb Hpol) as (s2 & outs & E2 & Hp2 & Hf). change (batch_of []) with emptyBatch in E2.
    rewrite E in E2. injection E2 as -> _. by destruct (fates_table h _ _ _ _ _ Htab Hf).
  - split; [|done]. by eapply table_mono.
Qed.

(** *** Strategies *)

Lemma i32_relative s off : 0 <= off < 2 ^ 31 -> i32 (w32 (s + w32 off) - s) = off.
Proof.
  intros Ho. assert (E : w32 (w32 (s + w32 off) - s) = off).
  { rewrite (w32_small off) by lia. unfold w32. rewrite Zminus_mod_idemp_l. replace (s + off - s) with off by lia. apply Z.mod_small. lia. }
  unfold i32. rewrite E. case_if; zbool; lia.
Qed.

Lemma segments_offsets data pol : 2 <= zlen data < 2 ^ 31 -> Forall (λ s, 0 <= sequenceOffset s < 2 ^ 31) (buildSegments data pol).
Proof.
  intros Hz. unfold buildSegments. rewrite (proj2 (Z.ltb_ge _ 2)) by lia. pose proof (segmentSplit_bounds pol (zlen data) ltac:(lia)) as Hs.
  pose proof (clamp_bounds (overlapBytes pol) 1 (segmentSplit pol (zlen data)) ltac:(lia)) as Ho.
  destruct (mode pol); repeat constructor; cbn [sequenceOffset]; rewrite ?i32_small; lia.
Qed.

Lemma wire_segments d f t o seq a segs out : rd32 d (t + 4) = Some seq -> Forall (λ s, 0 <= sequenceOffset s < 2 ^ 31) segs ->
  Forall2 (λ s x, tcp_variant d f t o (PacketStrategy.payload s) (sequenceOffset s) 0 x.1 /\ x.2 = a) segs out ->
  wire_segment t o seq <$> out = segs.
Proof.
  intros Hseq Hoff Hf. induction Hf as [|sg x segs out [Hv _] Hf IH]; [done |]. apply Forall_cons in Hoff as [Ho Hoff].
  cbn [fmap list_fmap]. f_equal; [|by apply IH]. unfold wire_segment. destruct (tv_sequence _ _ _ _ _ _ _ _ Hv) as (q & Hq & ->).
  rewrite Hseq in Hq. injection Hq as <-. cbn [from_option]. unfold id. rewrite (tv_payload _ _ _ _ _ _ _ _ Hv), i32_relative by done. by destruct sg.
Qed.

Lemma strategy_conveys pol f d p t o l a out (appended applied : bool) :
  lone_packet d p f t -> p_tcp p = Some t -> p_payload p = Some (o, l) -> strategy_out pol f d t o l a out appended applied ->
  out ++ (if appended then [] else [(d, a)]) = [(d, a)] \/ conveys pol f d t o l a (out ++ if appended then [] else [(d, a)]).
Proof.
  intros Hl Ht Hpay Hso. pose proof (parse_inside _ _ (lp_parse _ _ _ _ Hl)) as Hok.
  destruct (po_payload _ _ Hok _ _ Hpay) as (Hl0 & Hol & Hto & _). rewrite (lp_next _ _ _ _ Hl) in Hol. specialize (Hto _ Ht). unfold sizeofTcp in Hto.
  destruct (lone_inside _ _ _ _ Hl) as [Hlo Hhi]. assert (20 <= t) by (destruct f; cbn in Hlo; lia).
  destruct Hso as [f1 f2 part1 part2 Hm Hf Hcat Hvb F1 F2|out Hm Hne Hf|fake Hm Hf|]; [right; by eapply conveys_fragments | right | right | by left].
  - destruct (rd32_ok d (t + 4)) as [seq Hseq]; [lia | lia |]. rewrite app_nil_r.
    assert (Hz : zlen (slice d o l) = l) by (rewrite zlen_slice; lia).
    assert (Hl2 : 2 <= l) by (unfold buildSegments in Hne; rewrite Hz in Hne; destruct (l <? 2) eqn:E; zbool; [done | lia]).
    assert (Hlen : l < 2 ^ 31).
    { destruct (po_ip _ _ Hok _ (lp_ip _ _ _ _ Hl)) as (_ & HL & _). unfold ipLength in HL.
      destruct (rd16 d (lengthAt f)) as [x|] eqn:Ex; [|done]. destruct (rd16_inv _ _ _ Ex) as (_ & _ & ?). injection HL as HL. rewrite (lp_next _ _ _ _ Hl) in HL.
      destruct f; cbn in HL; lia. }
    apply (conveys_segments _ _ _ _ _ _ _ _ seq Hseq).
    + intros i. rewrite (wire_segments d f t o seq a _ _ Hseq (segments_offsets (slice d o l) _ ltac:(lia)) Hf). apply segments_stream; [lia |].
      unfold segment_policy. destruct Hm as [Hm|[Hm|[Hm _]]]; rewrite Hm; cbn; auto.
    + apply Forall_forall. intros x Hx. apply list_elem_of_lookup_1 in Hx as [i Hi]. destruct (Forall2_lookup_r _ _ _ _ _ Hf Hi) as (sg & _ & Hv & Ha).
      split_and!; [done | eexists; split; [apply (tv_parse _ _ _ _ _ _ _ _ Hv) | done] | apply (tv_headers _ _ _ _ _ _ _ _ Hv)].
  - apply conveys_cover; [intuition congruence .. | done].
Qed.

(** *** Reflection *)

Lemma tcp_add_entry (tab : TcpFlowTable) k srv port now : port <> 0 -> 0 <= now < 2 ^ 63 ->
  t_entries_ (tcp_add tab k srv port 0 now) !! mkPeerKey srv port (kindCode k) = Some (mkTcpEntry (now + kTcpFlowIdleMs) false).
Proof.
  intros Hp Hn. unfold tcp_add. rewrite (proj2 (Z.eqb_neq port 0)) by done. unfold clockMs. cbn [Z.eqb]. unfold kTcpFlowIdleMs.
  rewrite w64_small by lia. destruct (t_entries_ tab !! _); cbn [t_entries_]; apply lookup_insert_eq.
Qed.

(** Whatever a buffer begins with. *)
Lemma handlePacket_fate r s rest a b s' b' : handlePacket r s rest a (batch_of b) = Some (s', b') -> rest <> [] -> all_bytes rest ->
  policies_ok (packetPolicies_ s) -> policies_ok (packetPolicies_ s') /\ exists out, packet_fate r s (headPacket rest) a s' out.
Proof.
  intros E Hne Hb Hpol. destruct (handlePacket_spec r s rest a b Hne Hb Hpol) as (s2 & out & E2 & Hp2 & Hf). rewrite E in E2.
  injection E2 as <- _. split; [done |]. by exists out.
Qed.

(** A request that no rule stops. *)
Lemma own_request r s d p f t v a owned s1 : lone_packet d p f t -> route_of v a = ReflectClientToProxy -> opens v = true -> allowed r s f d v ->
  ownPacket platform r s f d t (v_src v) (v_dst v) (opens v) (v_fin v) (v_rst v) (route_of v a) = Some (owned, s1) ->
  owned = true /\ tcpFlows_ s1 = tcp_add (tcpFlows_ s) Client (addressFromBytes (Some (slice d (dstAddrAt f) (addrSize f))) (isV6 f)) (v_src v) 0 (clk r 1).
Proof.
  intros Hl Hr Ho Hall Hown. rewrite Hr in Hown. unfold ownPacket, packetAddress in Hown. pose proof (lone_address d p f t true Hl) as Hx.
  rewrite Hx, Ho in Hown. cbn [mbind option_bind] in Hown.
  assert (Hx1 : exists s2, (if ruled s then e ← processEndpoint f d (v_src v) (v_dst v) Tcp true; filterSays platform s e true true (clk r 0) else Some (true, s)) = Some (true, s2) /\
    tcpFlows_ s2 = tcpFlows_ s).
  { destruct Hall as [->|(e & s2 & -> & Ef)]; [by exists s |]. destruct (ruled s); [|by exists s]. cbn [mbind option_bind]. exists s2. split; [done |].
    destruct (filterSays_total platform s e true true (clk r 0)) as (b & i & Ef2). rewrite Ef in Ef2. by injection Ef2 as _ ->. }
  destruct Hx1 as (s2 & Hx1 & Hs2). rewrite Hx1 in Hown. injection Hown as <- <-. cbn [setTcpFlows tcpFlows_]. by rewrite Hs2.
Qed.

Lemma reflect_request r s d p f t v a : lone_packet d p f t -> p_tcp p = Some t -> views d t v -> all_bytes d -> policies_ok (packetPolicies_ s) ->
  Outbound a = true -> v_dst v = kHttpsPort -> v_src v <> proxyPort_ -> connectPort_ <> kHttpsPort -> opens v = true -> allowed r s f d v ->
  exists s' d' a', handlePacket r s d a emptyBatch = Some (s', batch_of [(d', a')]) /\ rewritten f p d true (t + 2) proxyPort_ d' /\
    Outbound a' = false /\
    flows_ s' = flow_observe (flows_ s) (text_of inet_ntop4 inet_ntop6 f (slice d (dstAddrAt f) (addrSize f))) (v_src v) kHttpsPort connectPort_ 0 (clk r 2) /\
    tcpFlows_ s' = tcp_add (tcpFlows_ s) Client (addressFromBytes (Some (slice d (dstAddrAt f) (addrSize f))) (isV6 f)) (v_src v) 0 (clk r 1) /\
    policies_ok (packetPolicies_ s').
Proof.
  intros Hl Ht Hv Hb Hpol Ha Hd Hs Hc Ho Hall. destruct (handlePacket_lone r s d p f t a [] Hl Hb Hpol) as (s' & out & E & Hf).
  destruct (fate_tcp_inv _ _ _ _ _ _ _ _ _ _ Hf Hl Ht Hv) as (owned & s1 & Hown & Htf & Hout).
  assert (Hr : route_of v a = ReflectClientToProxy).
  { unfold route_of, Interceptor.route_of, routePacket. rewrite Ha, Hd, (proj2 (Z.eqb_neq _ _) Hs), (proj2 (Z.eqb_neq kHttpsPort connectPort_)) by done. done. }
  destruct (own_request r s d p f t v a owned s1 Hl Hr Ho Hall Hown) as [-> Htab].
  assert (Hne : d <> []) by (intros ->; destruct (lone_inside _ _ _ _ Hl) as [Hlo Hhi]; destruct f; unfold zlen in *; cbn in *; lia).
  destruct (handlePacket_fate _ _ _ _ _ _ _ E Hne Hb Hpol) as [Hpol' _].
  destruct Hout as (d' & a' & HR & HO & _ & HF & Hout & _).
  fold (route_of v a) in *. rewrite Hr, ?Ho in *. cbn [swaps portAt newPort] in *. rewrite (Hout ltac:(done)) in E. exists s', d', a'. split_and!; try done.
  by rewrite Htf.
Qed.

(** A packet of a connection that is alive. *)
Lemma reflect_live r s d p f t v a server port e : of_connection server port d a p f t v -> asks_again v a = false -> all_bytes d -> policies_ok (packetPolicies_ s) ->
  t_entries_ (tcpFlows_ s) !! mkPeerKey server port (kindCode Client) = Some e -> clk r 1 < t_expiresAtMs e ->
  exists s' d' a', handlePacket r s d a emptyBatch = Some (s', batch_of [(d', a')]) /\
    rewritten f p d true (portAt (route_of v a) t) (newPort proxyPort_ connectPort_ (route_of v a)) d' /\ Outbound a' = false.
Proof.
  intros (Hl & Ht & Hv & Htu) Hask Hb Hpol He Hlt. destruct (handlePacket_lone r s d p f t a [] Hl Hb Hpol) as (s' & out & E & Hf).
  destruct (fate_tcp_inv _ _ _ _ _ _ _ _ _ _ Hf Hl Ht Hv) as (owned & s1 & Hown & _ & Hout).
  destruct (ownPacket_tuple platform proxyPort_ connectPort_ r s f d p t v a owned s1 Hl Ht Hv Hown) as [_ Htr].
  specialize (Htr _ _ Htu Hask). unfold tcp_track in Htr. rewrite He in Htr. unfold clockMs in Htr. cbn [Z.eqb] in Htr.
  rewrite (proj2 (Z.leb_gt _ _) Hlt), (proj2 (Z.ltb_lt _ _) Hlt) in Htr. cbn [orb] in Htr.
  assert (owned = true) as -> by (destruct (v_rst v); by injection Htr).
  destruct Hout as (d' & a' & HR & HO & _ & _ & Hout & _). fold (route_of v a) in *.
  assert (Hsw : swaps (route_of v a) = true /\ route_of v a <> RedirectProxyToTarget).
  { unfold tuple_of in Htu. destruct (route_of v a); try done; by destruct (packetAddress _ _ _). }
  destruct Hsw as [Hsw Hne]. rewrite Hsw in *. rewrite (Hout Hne) in E. by exists s', d', a'.
Qed.

(** The table knows a connection as long as it is alive, with its deadline. *)
Lemma converses_entry server port s0 e0 s e : converses server port s0 e0 s e -> policies_ok (packetPolicies_ s0) ->
  t_entries_ (tcpFlows_ s0) !! mkPeerKey server port (kindCode Client) = Some e0 ->
  policies_ok (packetPolicies_ s) /\ t_entries_ (tcpFlows_ s) !! mkPeerKey server port (kindCode Client) = Some e.
Proof.
  intros Hc Hp0 He0. induction Hc as [|s s' e _ [Hp He] Hs Hp'|r s rest a b s' b' e _ [Hp He] Hne Hb E Hno Hroom
    |r s rest a b s' b' e p f t v _ [Hp He] Hne Hb E (Hl & Ht & Hv & Htu) Hask Hrst Hclk Hlt|r s rest a b s' b' e p f t v _ [Hp He] Hne Hb E (Hl & Ht & Hv & Htu) Hask Hall Hclk Hport];
    [done | by rewrite Hs | ..]; destruct (handlePacket_fate _ _ _ _ _ _ _ E Hne Hb Hp) as [Hp' [out Hf]]; (split; [done |]).
  - destruct Hf as [_|p f t v owned s1 s' out Hl Ht Hv Ho Hs _ _|p f u sp dp s' out _ _ _ _ Hs _]; [done | | by rewrite Hs]. rewrite Hs.
    destruct (ownPacket_tuple platform proxyPort_ connectPort_ r s f _ p t v a owned s1 Hl Ht Hv Ho) as [[->|(k & srv & q & op & Htu & -> & Hk)] _]; [done |].
    rewrite tcp_run_elsewhere; [done | by rewrite Hk | | done]. rewrite Hk. intros E2. apply (Hno p f t v). split_and!; try done.
    injection E2 as <- <- Ek. by destruct k.
  - destruct (fate_tcp_inv _ _ _ _ _ _ _ _ _ _ Hf Hl Ht Hv) as (owned & s1 & Hown & -> & _).
    destruct (ownPacket_tuple platform proxyPort_ connectPort_ r s f _ p t v a owned s1 Hl Ht Hv Hown) as [_ Htr]. specialize (Htr _ _ Htu Hask).
    pose proof (tcp_track_life (tcpFlows_ s) Client server port (v_fin v) (v_rst v) 0 (clk r 1) e He Hclk) as Hlife. rewrite <- Htr in Hlife.
    destruct Hlife as (-> & -> & _). change (clockMs 0 (clk r 1)) with (clk r 1). by rewrite Hrst, (proj2 (Z.ltb_lt _ _) Hlt).
  - destruct (fate_tcp_inv _ _ _ _ _ _ _ _ _ _ Hf Hl Ht Hv) as (owned & s1 & Hown & -> & _).
    unfold asks_again in Hask. apply andb_true_iff in Hask as [Ho Hr%bool_decide_eq_true].
    destruct (own_request r s _ p f t v a owned s1 Hl Hr Ho Hall Hown) as [_ ->].
    unfold tuple_of, packetAddress in Htu. rewrite Hr, (lone_address _ p f t true Hl) in Htu. cbn [mbind option_bind] in Htu.
    assert (server = addressFromBytes (Some (slice (headPacket rest) (dstAddrAt f) (addrSize f))) (isV6 f) /\ port = v_src v) as [-> ->].
    { split; [exact (f_equal (λ x, (default (Client, [], 0) x).1.2) (eq_sym Htu)) | exact (f_equal (λ x, (default (Client, [], 0) x).2) (eq_sym Htu))]. }
    by apply tcp_add_entry.
Qed.

Lemma peer_claims f address port peer text (flows : FlowRegistry) now tick : peer_of f address port peer ->
  match f with V4 => inet_ntop4 address | V6 => inet_ntop6 address end = Some text -> text <> [] -> port <> 0 -> connectPort_ <> 0 ->
  0 <= now < 2 ^ 63 -> tick < now + kPendingFlowTtlMs ->
  (negotiateTransparent inet_ntop4 inet_ntop6 (flow_observe flows text port kHttpsPort connectPort_ 0 now) (Some peer) tick).1 =
    Some (mkNegotiated text kHttpsPort text connectPort_).
Proof.
  intros Hp Hx Hne Hport Hc Hn Ht. unfold negotiateTransparent. cbn [mbind option_bind].
  assert (Hpe : peerEndpoint inet_ntop4 inet_ntop6 peer = Some (text, port)).
  { destruct f; cbn [peer_of] in Hp; [destruct Hp as [->|(m & -> & Hm & Hd)] | destruct Hp as [-> Hm]]; cbn [peerEndpoint]; rewrite ?Hm, ?Hd, Hx;
      cbn [mbind option_bind]; by rewrite (proj2 (Z.eqb_neq port 0)). }
  rewrite Hpe. pose proof (flow_observe_then_claim flows text port kHttpsPort connectPort_ 0 now 0 tick 0 0) as Hclaim. cbv zeta in Hclaim.
  destruct (flow_claim _ text port 0 tick) as [got r2]. destruct Hclaim as [-> _]; done.
Qed.

(** *** Datagrams *)

Lemma dgram_observe_claim (m : DatagramRegistry) text port now tick : dgram_ok m -> text <> [] -> port <> 0 -> 0 <= now < 2 ^ 63 ->
  tick < now + kPendingFlowTtlMs -> (dgram_claim (dgram_observe m text port 0 now) text port 0 tick).1 = true.
Proof.
  intros Hm Hne Hp Hn Ht. unfold dgram_observe. rewrite bool_decide_eq_false_2, (proj2 (Z.eqb_neq port 0)) by done. cbn [orb]. unfold clockMs. cbn [Z.eqb].
  set (pr := if d_nextPruneMs_ m <=? now then _ else _). assert (Hsub : pr.1 ⊆ d_entries_ m) by (unfold pr; case_if; [apply erase_if_subseteq | done]).
  destruct pr as [m1 next]. cbn [fst] in Hsub. unfold dgram_claim, clockMs. cbn [Z.eqb]. unfold kPendingFlowTtlMs in *.
  destruct (m1 !! flowKey text port) as [e|] eqn:Ee; cbn [d_entries_]; rewrite lookup_insert_eq; cbn [d_expiresAtMs pending];
    rewrite w64_small, (proj2 (Z.leb_gt _ tick)) by lia; cbn [orb]; [|done].
  pose proof (proj2 Hm _ _ (lookup_weaken _ _ _ _ Ee Hsub)) as He. unfold kMaxPendingDatagramsPerTuple in *.
  set (q := if d_expiresAtMs e <=? now then 0 else pending e). assert (Hq : 0 <= q <= 32) by (unfold q; case_if; lia).
  rewrite w32_small by lia. rewrite (proj2 (Z.eqb_neq (Z.min (q + 1) 32) 0)) by lia. done.
Qed.

Lemma fate_udp_inv r s d a s' out p f u sp dp : packet_fate r s d a s' out -> lone_packet d p f u -> p_udp p = Some u ->
  rd16 d u = Some sp -> rd16 d (u + 2) = Some dp ->
  (ruled s = true /\ out = [(d, a)] /\ (exists i, s' = setFilter s i)) \/ udp_out r s f d p u sp dp a s' out.
Proof.
  intros Hf Hl Hu Hsp Hdp. pose proof (lp_parse _ _ _ _ Hl) as P1. pose proof (lp_ip _ _ _ _ Hl) as F1.
  destruct Hf as [Hno|p' f' t' v' owned s1 s' out Hl' Ht' _ _ _ _ _|p' f' u' sp' dp' s' out Hl' Hu' Hsp' Hdp' _ Hout].
  - destruct (Hno p P1) as [E|[_ E]]; congruence.
  - pose proof (lp_parse _ _ _ _ Hl') as P2. rewrite P1 in P2. injection P2 as <-. destruct (po_tcp _ _ (parse_inside _ _ P1) _ Ht'). congruence.
  - pose proof (lp_parse _ _ _ _ Hl') as P2. pose proof (lp_ip _ _ _ _ Hl') as F2. rewrite P1 in P2. injection P2 as <-.
    rewrite F1 in F2. injection F2 as <-. rewrite Hu in Hu'. injection Hu' as <-. rewrite Hsp in Hsp'. rewrite Hdp in Hdp'. by injection Hsp' as <-; injection Hdp' as <-.
Qed.

(** ** Properties *)

(** A batch is handled packet by packet. Whatever bytes the driver delivers, the loop over
    the batch reads and writes inside its buffers only; the packets it queues are exactly what
    becomes of each packet of the buffer by itself, in the order of arrival and with nothing
    of the buffer skipped, and the queue's byte, length and address vectors agree. *)
Theorem batch_handled rs s rest l : all_bytes rest -> policies_ok (packetPolicies_ s) ->
  exists s' outs, handleBatch rs s rest l emptyBatch = Some (s', batch_of (concat outs)) /\
    fates rs s (frames rest l) s' outs /\ concat (frames rest l).*1 `prefix_of` rest /\ policies_ok (packetPolicies_ s').
Proof.
  intros Hb Hpol. destruct (handleBatch_spec rs s rest l [] Hb Hpol) as (s' & outs & E & Hp & Hf). exists s', outs.
  split_and!; [done | done | apply frames_prefix | done].
Qed.

(** C2: Only connections whose request was seen are rewritten. In every state a run of the
    packet loop reaches, a TCP packet that is not forwarded byte for byte either goes to the
    proxy's own connect port, or belongs to a tuple whose connection request (a SYN without
    ACK) is among the packets seen since the start, itself included: connections older than
    the engine pass untouched. *)
Theorem syn_before_rewrite h s rs rest l s' b : engine_reach h s -> all_bytes rest -> handleBatch rs s rest l emptyBatch = Some (s', b) ->
  exists outs, b = batch_of (concat outs) /\ length outs = length (frames rest l) /\
    forall i d a out, frames rest l !! i = Some (d, a) -> outs !! i = Some out -> rewrite_authorised (h ++ take (S i) (frames rest l)) d a out.
Proof.
  intros Hr Hb E. destruct (reach_table h s Hr) as [Htab Hpol]. destruct (handleBatch_spec rs s rest l [] Hb Hpol) as (s2 & outs & E2 & _ & Hf).
  change (batch_of []) with emptyBatch in E2. rewrite E in E2. injection E2 as -> ->. exists outs. split; [done |].
  by destruct (fates_table h _ _ _ _ _ Htab Hf) as (_ & Hlen & Hall).
Qed.

(** C4: A strategy changes how a ClientHello travels and not what it says. A packet of the
    proxy to its connect port leaves for port 443 with nothing else changed but checksums; if
    a policy is armed for the connection and the packet starts a TLS record, it leaves instead
    as two IPv4 fragments that add up to it and are cut inside the host name, as TCP segments
    that reassemble at the receiver to its payload, or after a cover packet that differs in
    sequence number, TTL or checksum. *)
Theorem armed_hello_on_wire r s d p f t v a o l :
  lone_packet d p f t -> p_tcp p = Some t -> views d t v -> p_payload p = Some (o, l) -> all_bytes d -> policies_ok (packetPolicies_ s) ->
  route_of v a = RedirectProxyToTarget ->
  exists s' out d' a', handlePacket r s d a emptyBatch = Some (s', batch_of out) /\ rewritten f p d false (t + 2) kHttpsPort d' /\
    otherFields a' = otherFields a /\ Outbound a' = true /\
    (out = [(d', a')] \/ exists pol target seq policies,
       packetAddress f d true = Some target /\ rd32 d (t + 4) = Some seq /\
       takePolicy (packetPolicies_ s) target (v_src v) (Some seq) 0 (clk r 3) = (Some pol, policies) /\ conveys pol f d' t o l a' out).
Proof.
  intros Hl Ht Hv Hpay Hb Hpol Hroute. destruct (handlePacket_lone r s d p f t a [] Hl Hb Hpol) as (s' & out & E & Hf). exists s', out.
  destruct (fate_tcp_inv _ _ _ _ _ _ _ _ _ _ Hf Hl Ht Hv) as (owned & s1 & Ho & _ & Hout).
  pose proof (lone_address d p f t true Hl) as Ha. rewrite Hroute in Ho. unfold ownPacket, packetAddress in Ho. rewrite Ha in Ho. injection Ho as <- _.
  destruct Hout as (d' & a' & HR & HO & HF & _ & _ & Hout). fold (route_of v a) in *. rewrite Hroute in HR, HO, Hout. cbn [swaps portAt newPort] in HR, HO.
  assert (Houtb : Outbound a = true).
  { unfold route_of, Interceptor.route_of, routePacket in Hroute. destruct (Outbound a); [done |]. case_if_in Hroute; done. }
  exists d', a'. split_and!; [done | done | done | by rewrite HO |]. destruct (Hout eq_refl) as (s2 & pre & app & Hp2 & Hres & ->).
  destruct Hres as [[-> ->]|(o' & l' & pol & target & seq & policies & applied & Hpay' & Hta & Hseq & Htake & Hso & _)]; [by left |].
  rewrite Hpay in Hpay'. injection Hpay' as <- <-.
  assert (Hl' : lone_packet d' p f t) by (split; [apply HR | apply Hl ..]).
  destruct (strategy_conveys pol f d' p t o l a' pre app applied Hl' Ht Hpay Hso) as [->|Hc]; [by left | right].
  rewrite Hp2 in Htake. exists pol, target, seq, policies. split_and!; try done.
  - rewrite <- Hta. unfold packetAddress. pose proof (lone_address d' p f t true Hl') as Ha'. cbn [addressAt] in *. rewrite Ha, Ha'. cbn [mbind option_bind].
    by rewrite (rw_dst _ _ _ _ _ _ _ HR).
  - rewrite <- Hseq. symmetry. apply rd32_eq. intros k Hk. apply (rw_rest _ _ _ _ _ _ _ HR); [by intros [] | lia |].
    destruct (lone_inside _ _ _ _ Hl) as [Hlo _]. assert (20 <= t) by (destruct f; cbn in Hlo; lia).
    intros [[_ Hi]|[(t' & Et & Hi)|(u & Eu & _)]]; [lia | rewrite Ht in Et; injection Et as <-; lia |].
    destruct (po_tcp _ _ (parse_inside _ _ (lp_parse _ _ _ _ Hl)) _ Ht). congruence.
Qed.

(** C3: The reflection round trip. When no rule stops it, an application's connection request
    to port 443 of a server enters the host again as a packet of the server to the proxy, with
    the application's port as its source; the proxy that accepts it finds, by the peer address
    of its socket, the server and port 443 to dial through the connect port, while the
    registry's 15 seconds last; and as long as the connection is alive ([converses]: packets
    of both sides and of other connections have gone by, the deadline has moved with each of
    its own) every packet of the proxy on it reaches the application as a packet of the server
    from port 443, and every packet of the application reaches the proxy as the first did. *)
Theorem reflection_roundtrip r s d p f t v a text :
  lone_packet d p f t -> p_tcp p = Some t -> views d t v -> all_bytes d -> policies_ok (packetPolicies_ s) ->
  Outbound a = true -> v_dst v = kHttpsPort -> v_src v <> proxyPort_ -> v_src v <> 0 -> connectPort_ <> 0 -> connectPort_ <> kHttpsPort ->
  opens v = true -> allowed r s f d v ->
  match f with V4 => inet_ntop4 | V6 => inet_ntop6 end (slice d (dstAddrAt f) (addrSize f)) = Some text -> text <> [] ->
  0 <= clk r 1 < 2 ^ 63 -> 0 <= clk r 2 < 2 ^ 63 ->
  let server := addressFromBytes (Some (slice d (dstAddrAt f) (addrSize f))) (isV6 f) in
  exists s' d' a', handlePacket r s d a emptyBatch = Some (s', batch_of [(d', a')]) /\
    rewritten f p d true (t + 2) proxyPort_ d' /\ Outbound a' = false /\
    (forall peer tick, peer_of f (slice d' (srcAddrAt f) (addrSize f)) (v_src v) peer -> tick < clk r 2 + kPendingFlowTtlMs ->
       (negotiateTransparent inet_ntop4 inet_ntop6 (flows_ s') (Some peer) tick).1 = Some (mkNegotiated text kHttpsPort text connectPort_)) /\
    (forall s2 e r2 d2 p2 t2 v2 a2, converses server (v_src v) s' (mkTcpEntry (clk r 1 + kTcpFlowIdleMs) false) s2 e ->
       lone_packet d2 p2 f t2 -> p_tcp p2 = Some t2 -> views d2 t2 v2 -> all_bytes d2 -> Outbound a2 = true -> clk r2 1 < t_expiresAtMs e ->
       (v_src v2 = proxyPort_ -> v_dst v2 = v_src v -> slice d2 (dstAddrAt f) (addrSize f) = slice d' (srcAddrAt f) (addrSize f) ->
        exists s3 d3 a3, handlePacket r2 s2 d2 a2 emptyBatch = Some (s3, batch_of [(d3, a3)]) /\
          rewritten f p2 d2 true t2 kHttpsPort d3 /\ Outbound a3 = false) /\
       (v_src v2 = v_src v -> v_dst v2 = kHttpsPort -> opens v2 = false -> slice d2 (dstAddrAt f) (addrSize f) = slice d (dstAddrAt f) (addrSize f) ->
        exists s3 d3 a3, handlePacket r2 s2 d2 a2 emptyBatch = Some (s3, batch_of [(d3, a3)]) /\
          rewritten f p2 d2 true (t2 + 2) proxyPort_ d3 /\ Outbound a3 = false)).
Proof.
  intros Hl Ht Hv Hb Hpol Ha Hd Hs Hs0 Hc0 Hc Ho Hall Hx Hne Hc1 Hc2 server.
  destruct (reflect_request r s d p f t v a) as (s' & d' & a' & E & HR & HO & HF & HT & Hpol'); try done. exists s', d', a'.
  pose proof (rw_src _ _ _ _ _ _ _ HR) as Hsrc. cbn iota in Hsrc. split_and!; try done.
  - intros peer tick Hp Htick. assert (Htext : text_of inet_ntop4 inet_ntop6 f (slice d (dstAddrAt f) (addrSize f)) = text)
      by (unfold text_of; destruct f; by rewrite Hx).
    rewrite HF, Htext. apply (peer_claims f (slice d' (srcAddrAt f) (addrSize f))); try done. rewrite Hsrc. by destruct f.
  - intros s2 e r2 d2 p2 t2 v2 a2 Hconv Hl2 Ht2 Hv2 Hb2 Ha2 Hlt.
    destruct (converses_entry _ _ _ _ _ _ Hconv Hpol') as [Hp2 He2]; [rewrite HT; by apply tcp_add_entry |].
    assert (Hlive : forall route, route_of v2 a2 = route -> tuple_of f d2 v2 route = Some (Client, server, v_src v) ->
      opens v2 && bool_decide (route = ReflectClientToProxy) = false -> exists s3 d3 a3, handlePacket r2 s2 d2 a2 emptyBatch = Some (s3, batch_of [(d3, a3)]) /\
        rewritten f p2 d2 true (portAt route t2) (newPort proxyPort_ connectPort_ route) d3 /\ Outbound a3 = false).
    { intros route <- Htu Hask. by apply (reflect_live r2 s2 d2 p2 f t2 v2 a2 server (v_src v) e). }
    pose proof (lone_address d2 p2 f t2 true Hl2) as Hx2. cbn [addressAt] in Hx2. split.
    + intros Hsrc2 Hdst2 Haddr. apply (Hlive ReflectProxyToClient); [| | by rewrite bool_decide_eq_false_2, andb_false_r].
      * unfold route_of, Interceptor.route_of, routePacket. by rewrite Ha2, Hsrc2, Z.eqb_refl.
      * unfold tuple_of, packetAddress. cbn [addressAt]. rewrite Hx2, Haddr, Hsrc. cbn [mbind option_bind]. by rewrite Hdst2.
    + intros Hsrc2 Hdst2 Hop Haddr. apply (Hlive ReflectClientToProxy); [| | by rewrite Hop].
      * unfold route_of, Interceptor.route_of, routePacket. rewrite Ha2, Hdst2, Hsrc2, (proj2 (Z.eqb_neq _ _) Hs), (proj2 (Z.eqb_neq kHttpsPort connectPort_)) by done. done.
      * unfold tuple_of, packetAddress. cbn [addressAt]. rewrite Hx2, Haddr. cbn [mbind option_bind]. by rewrite Hsrc2.
Qed.

(** What becomes of a datagram. If the process rules leave it alone it is forwarded as it
    is. Otherwise a DNS query is reflected to the DNS proxy, which can then claim it by its
    peer address for 15 seconds, and the proxy's answer returns from port 53; QUIC is dropped
    only in block mode or, in adaptive mode, where the registry has given the server up; a
    first flight may be preceded by a prime packet; and everything else is forwarded. *)
Theorem udp_fate r s d p f u sp dp a : lone_packet d p f u -> p_udp p = Some u -> rd16 d u = Some sp -> rd16 d (u + 2) = Some dp ->
  all_bytes d -> policies_ok (packetPolicies_ s) ->
  exists s' out, handlePacket r s d a emptyBatch = Some (s', batch_of out) /\
    ((ruled s = true /\ out = [(d, a)] /\ (exists i, s' = setFilter s i)) \/ udp_out r s f d p u sp dp a s' out) /\
    (forall text tick, out <> [(d, a)] -> routeDatagram (Outbound a) sp dp kDnsPort dnsProxyPort_ = ReflectDnsToProxy ->
       text_of inet_ntop4 inet_ntop6 f (slice d (dstAddrAt f) (addrSize f)) = text -> text <> [] -> sp <> 0 ->
       dgram_ok (datagrams_ s) -> 0 <= clk r 1 < 2 ^ 63 -> tick < clk r 1 + kPendingFlowTtlMs ->
       (dgram_claim (datagrams_ s') text sp 0 tick).1 = true).
Proof.
  intros Hl Hu Hsp Hdp Hb Hpol. destruct (handlePacket_lone r s d p f u a [] Hl Hb Hpol) as (s' & out & E & Hf). exists s', out.
  pose proof (fate_udp_inv _ _ _ _ _ _ _ _ _ _ _ Hf Hl Hu Hsp Hdp) as Hout. split_and!; [done | done |].
  intros text tick Hne Hroute Htext Htn Hp Hok Hc Ht.
  assert (Ho : Outbound a = true /\ dp <> kHttpsPort).
  { unfold routeDatagram in Hroute. destruct (Outbound a); [|done]. cbn [negb] in Hroute. case_if_in Hroute; [done |].
    destruct (dp =? kDnsPort) eqn:Ed; [|done]. zbool. subst. done. }
  destruct Ho as [Ho Hq].
  destruct Hout as [(_ & -> & _)|Hout]; [done |]. destruct Hout as [d' a' s' _ _ _ _ Hd _|d' a' s' Hr _ _ _ _ _|s' _ _ _ _|s' _ [[_ ?]|[? _]] _ _|s' ini _ _ _ ? _ _|s' o prime _ _ _ ? _ _ _]; try congruence.
  rewrite Hd, Htext. by apply dgram_observe_claim.
Qed.
End Path.

(** ** Concrete packets *)

(** An IPv4 packet of protocol [proto] from [10.0.0.1] to [1.2.3.4]. *)
Definition sample_ip (proto : Z) (rest : bytes) : bytes :=
  [0x45; 0] ++ be16 (20 + zlen rest) ++ [0; 0; 0; 0; 64; proto; 0; 0; 10; 0; 0; 1; 1; 2; 3; 4] ++ rest.
Definition sample_tcp (sp dp flags : Z) (data : bytes) : bytes :=
  sample_ip 6 (be16 sp ++ be16 dp ++ [0; 0; 0; 77; 0; 0; 0; 0; 0x50; flags; 1; 0; 0; 0; 0; 0] ++ data).
Definition sample_udp (sp dp : Z) (data : bytes) : bytes := sample_ip 17 (be16 sp ++ be16 dp ++ be16 (8 + zlen data) ++ [0; 0] ++ data).

Definition sample_syn : bytes := sample_tcp 40000 443 2 [].
Definition sample_client_hello : bytes := sample_tcp 40001 7443 16 sample_hello.
Definition sample_query : bytes := sample_udp 40002 53 [1; 2; 3].
Definition sample_out : DivertAddress := mkDivertAddress true false false false 0.
Definition sample_engine : Interceptor :=
  mkInterceptor newFlowRegistry newDatagramRegistry newPolicyRegistry (newRegistry 0 0) newTcpFlowTable None.
Definition sample_clock : Readings := mkReadings (λ _, 1000) None.

Lemma sample_policies_ok : policies_ok (packetPolicies_ sample_engine).
Proof. intros k e Hk. cbn in Hk. by rewrite lookup_empty in Hk. Qed.

Lemma batch_handled_witness : exists s' outs,
  handleBatch sample_v4 sample_v4 sample_platform 8443 5353 7443 Allow (λ _, sample_clock) sample_engine (sample_syn ++ sample_query)
    [sample_out; sample_out] emptyBatch = Some (s', batch_of (concat outs)) /\ length outs = 2%nat.
Proof.
  destruct (batch_handled sample_v4 sample_v4 sample_platform 8443 5353 7443 Allow ltac:(lia) ltac:(lia) ltac:(lia) (λ _, sample_clock) sample_engine
    (sample_syn ++ sample_query) [sample_out; sample_out]) as (s' & outs & E & Hf & _).
  - apply all_bytes_check. vm_compute. reflexivity.
  - apply sample_policies_ok.
  - exists s', outs. split; [exact E |].
    assert (Hl : forall rs s l s' outs, fates sample_v4 sample_v4 sample_platform 8443 5353 7443 Allow rs s l s' outs -> length outs = length l)
      by (induction 1; cbn; congruence).
    rewrite (Hl _ _ _ _ _ Hf). vm_compute. reflexivity.
Defined.

Lemma syn_before_rewrite_witness : exists outs, length outs = 2%nat /\
  rewrite_authorised 8443 7443 (take 1 (frames (sample_syn ++ sample_query) [sample_out; sample_out])) sample_syn sample_out (default [] (outs !! 0%nat)).
Proof.
  destruct (syn_before_rewrite sample_v4 sample_v4 sample_platform 8443 5353 7443 Allow ltac:(lia) ltac:(lia) ltac:(lia) [] sample_engine (λ _, sample_clock)
    (sample_syn ++ sample_query) [sample_out; sample_out]
    (default (sample_engine, emptyBatch) (handleBatch sample_v4 sample_v4 sample_platform 8443 5353 7443 Allow (λ _, sample_clock) sample_engine
       (sample_syn ++ sample_query) [sample_out; sample_out] emptyBatch)).1
    (default (sample_engine, emptyBatch) (handleBatch sample_v4 sample_v4 sample_platform 8443 5353 7443 Allow (λ _, sample_clock) sample_engine
       (sample_syn ++ sample_query) [sample_out; sample_out] emptyBatch)).2) as (outs & _ & Hlen & Hall).
  - apply (reach_start sample_v4 sample_v4 sample_platform 8443 5353 7443 Allow sample_engine). apply sample_policies_ok.
  - apply all_bytes_check. vm_compute. reflexivity.
  - vm_compute. reflexivity.
  - assert (Hlen2 : length outs = 2%nat) by (rewrite Hlen; vm_compute; reflexivity). exists outs. split; [exact Hlen2 |].
    destruct outs as [|o1 outs]; [done |]. apply (Hall 0%nat); [vm_compute; reflexivity | reflexivity].
Defined.

Definition sample_armed : Interceptor :=
  setPolicies sample_engine (arm one_address no_address newPolicyRegistry (str "1.2.3.4") 40001 sample_reverse 0 500).

Lemma sample_armed_ok : policies_ok (packetPolicies_ sample_armed).
Proof.
  apply (policies_ok_run one_address no_address newPolicyRegistry (PArm (str "1.2.3.4") 40001 sample_reverse 0 500)); [apply sample_policies_ok |].
  intros x port pol now tick E. injection E as _ _ <- _ _. repeat split; vm_compute; congruence.
Qed.

Lemma armed_hello_on_wire_witness : exists s' out d' a',
  handlePacket sample_v4 sample_v4 sample_platform 8443 5353 7443 Allow sample_clock sample_armed sample_client_hello sample_out emptyBatch =
    Some (s', batch_of out) /\ rewritten V4 (mkParsed (Some V4) (Some 20) None (Some (40, 66)) 0) sample_client_hello false 22 443 d' /\
  conveys sample_reverse V4 d' 20 40 66 a' out.
Proof.
  destruct (armed_hello_on_wire sample_v4 sample_v4 sample_platform 8443 5353 7443 Allow ltac:(lia) ltac:(lia) ltac:(lia) sample_clock sample_armed
    sample_client_hello (mkParsed (Some V4) (Some 20) None (Some (40, 66)) 0) V4 20 (mkTcpView 40001 7443 false true false false) sample_out 40 66)
    as (s' & out & d' & a' & E & HR & _ & _ & Hc).
  - split; [vm_compute; reflexivity | reflexivity | reflexivity | left; reflexivity].
  - reflexivity.
  - repeat split; vm_compute; reflexivity.
  - reflexivity.
  - apply all_bytes_check. vm_compute. reflexivity.
  - apply sample_armed_ok.
  - vm_compute. reflexivity.
  - exists s', out, d', a'. split; [exact E |]. split; [exact HR |].
    assert (Hlen : length out = 2%nat).
    { rewrite <- count_batch. assert (Hx : (λ x : Interceptor * PacketBatch, count x.2) <$>
        handlePacket sample_v4 sample_v4 sample_platform 8443 5353 7443 Allow sample_clock sample_armed sample_client_hello sample_out emptyBatch = Some 2%nat)
        by (vm_compute; reflexivity). rewrite E in Hx. by injection Hx. }
    destruct Hc as [->|(pol & target & seq & policies & Ht & Hs & Htake & Hc)]; [discriminate Hlen |].
    vm_compute in Ht. vm_compute in Hs. injection Ht as <-. injection Hs as <-.
    assert (Hp : (takePolicy (packetPolicies_ sample_armed) (addressFromBytes (Some [1; 2; 3; 4]) false) 40001 (Some 77) 0 1000).1 = Some sample_reverse)
      by (vm_compute; reflexivity).
    assert (pol = sample_reverse) as ->; [|exact Hc].
    change (addressFromBytes (Some [1; 2; 3; 4]) false) with [0; 0; 0; 0; 0; 0; 0; 0; 0; 0; 255; 255; 1; 2; 3; 4] in Hp.
    cbn [v_src clk sample_clock] in Htake. rewrite Htake in Hp. by injection Hp.
Defined.

Definition sample_view : tcp_view := mkTcpView 40000 443 true false false false.
Definition sample_v4_1 (b : bytes) : option bytes := Some (str "1.2.3.4").

(** The application's next packet, a second later, and the proxy's answer. *)
Definition sample_ack : bytes := sample_tcp 40000 443 16 [].
Definition sample_answer : bytes := sample_tcp 8443 40000 16 [].
Definition sample_later : Readings := mkReadings (λ _, 2000) None.

Lemma reflection_roundtrip_witness : exists s' d' a',
  handlePacket sample_v4_1 sample_v4 sample_platform 8443 5353 7443 Allow sample_clock sample_engine sample_syn sample_out emptyBatch =
    Some (s', batch_of [(d', a')]) /\ rewritten V4 (mkParsed (Some V4) (Some 20) None None 0) sample_syn true 22 8443 d' /\
  (negotiateTransparent sample_v4_1 sample_v4 (flows_ s') (Some (SockIn [1; 2; 3; 4] 40000)) 1500).1 =
    Some (mkNegotiated (str "1.2.3.4") 443 (str "1.2.3.4") 7443) /\
  exists s2 b2 s3 d3 a3,
    handlePacket sample_v4_1 sample_v4 sample_platform 8443 5353 7443 Allow sample_later s' sample_ack sample_out emptyBatch = Some (s2, b2) /\
    handlePacket sample_v4_1 sample_v4 sample_platform 8443 5353 7443 Allow sample_later s2 sample_answer sample_out emptyBatch = Some (s3, batch_of [(d3, a3)]) /\
    rewritten V4 (mkParsed (Some V4) (Some 20) None None 0) sample_answer true 20 443 d3.
Proof.
  destruct (reflection_roundtrip sample_v4_1 sample_v4 sample_platform 8443 5353 7443 Allow ltac:(lia) ltac:(lia) ltac:(lia) sample_clock sample_engine
    sample_syn (mkParsed (Some V4) (Some 20) None None 0) V4 20 sample_view sample_out (str "1.2.3.4")) as (s' & d' & a' & E & HR & _ & Hclaim & Hlive);
    try reflexivity; try discriminate; try (cbn; lia).
  - split; [vm_compute; reflexivity | reflexivity | reflexivity | left; reflexivity].
  - repeat split; vm_compute; reflexivity.
  - apply all_bytes_check. vm_compute. reflexivity.
  - left. reflexivity.
  - pose proof (rw_src _ _ _ _ _ _ _ HR) as Hsrc. exists s', d', a'. split; [exact E |]. split; [exact HR |]. split.
    { apply Hclaim; [left; f_equal | cbn; unfold kPendingFlowTtlMs; lia]. rewrite Hsrc. vm_compute. reflexivity. }
    assert (Hb : all_bytes sample_ack) by (apply all_bytes_check; vm_compute; reflexivity).
    destruct (handlePacket_fate sample_v4_1 sample_v4 sample_platform 8443 5353 7443 Allow ltac:(lia) ltac:(lia) ltac:(lia) _ _ _ _ [] _ _ E) as [Hp _];
      [discriminate | apply all_bytes_check; vm_compute; reflexivity | apply sample_policies_ok |].
    destruct (handlePacket_spec sample_v4_1 sample_v4 sample_platform 8443 5353 7443 Allow ltac:(lia) ltac:(lia) ltac:(lia) sample_later s' sample_ack sample_out [])
      as (s2 & out & E2 & _); [discriminate | exact Hb | exact Hp |].
    destruct (Hlive s2 (mkTcpEntry (2000 + kTcpFlowIdleMs) false) sample_later sample_answer (mkParsed (Some V4) (Some 20) None None 0) 20
      (mkTcpView 8443 40000 false true false false) sample_out) as [Hanswer _].
    + refine (conv_packet sample_v4_1 sample_v4 sample_platform 8443 5353 7443 Allow _ _ _ _ sample_later s' sample_ack sample_out [] s2 _ _
        (mkParsed (Some V4) (Some 20) None None 0) V4 20 (mkTcpView 40000 443 false true false false) (conv_start _ _ _ _ _ _ _ _ _ _ _) _ Hb E2 _ _ _ _ _);
        [discriminate | | reflexivity | reflexivity | cbn; lia | cbn; unfold kTcpFlowIdleMs; lia].
      split; [split; [vm_compute; reflexivity | reflexivity | reflexivity | left; reflexivity] |]. split; [reflexivity |].
      split; [repeat split; vm_compute; reflexivity | vm_compute; reflexivity].
    + split; [vm_compute; reflexivity | reflexivity | reflexivity | left; reflexivity].
    + reflexivity.
    + repeat split; vm_compute; reflexivity.
    + apply all_bytes_check. vm_compute. reflexivity.
    + reflexivity.
    + cbn. unfold kTcpFlowIdleMs. lia.
    + destruct Hanswer as (s3 & d3 & a3 & E3 & HR3 & _); [reflexivity | reflexivity | rewrite Hsrc; vm_compute; reflexivity |].
      exists s2, (batch_of ([] ++ out)), s3, d3, a3. split; [exact E2 |]. split; [exact E3 | exact HR3].
Defined.

Lemma udp_fate_witness : exists s' out,
  handlePacket sample_v4_1 sample_v4 sample_platform 8443 5353 7443 Allow sample_clock sample_engine sample_query sample_out emptyBatch =
    Some (s', batch_of out) /\ (dgram_claim (datagrams_ s') (str "1.2.3.4") 40002 0 1500).1 = true.
Proof.
  destruct (udp_fate sample_v4_1 sample_v4 sample_platform 8443 5353 7443 Allow ltac:(lia) ltac:(lia) ltac:(lia) sample_clock sample_engine
    sample_query (mkParsed (Some V4) None (Some 20) (Some (28, 3)) 0) V4 20 40002 53 sample_out) as (s' & out & E & _ & Hclaim);
    try reflexivity.
  - split; [vm_compute; reflexivity | reflexivity | reflexivity | right; reflexivity].
  - apply all_bytes_check. vm_compute. reflexivity.
  - apply sample_policies_ok.
  - exists s', out. split; [exact E |]. apply Hclaim; try reflexivity; try discriminate; try (cbn; unfold kPendingFlowTtlMs; lia).
    + intros ->. assert (Hx : (λ x : Interceptor * PacketBatch, b_bytes x.2) <$>
        handlePacket sample_v4_1 sample_v4 sample_platform 8443 5353 7443 Allow sample_clock sample_engine sample_query sample_out emptyBatch <> Some sample_query)
        by (vm_compute; discriminate). rewrite E in Hx. apply Hx. vm_compute. reflexivity.
    + split; [vm_compute; discriminate |]. intros k e Hk. cbn in Hk. by rewrite lookup_empty in Hk.
Defined.
