(* ===== verification/DivertEngine.v ===== *)
(** * DivertEngine: the packet loop

    Models [WinDivertInterceptor::run] of [src/src/WinDivertInterceptor.cpp] ([start],
    [stop] and [closeHandles] are in [EngineLifecycle]). The loop reads a batch, handles it
    ([Interceptor.handleBatch]) and sends the result. The driver, the clock, a [stop] that
    clears [running_] and what the proxies' threads do to the registries meanwhile are inputs
    ([Env]), indexed by the number of calls the loop has made; the calls to
    [WinDivertSendEx] and their results are kept in a log. [None] is an access outside a
    buffer. Sleeping and log messages are omitted. *)

From S2P Require Import Prelude Containers TransparentFlow RecoveryPolicy QuicStrategy PacketStrategy ProcessFilter DivertPacket Interceptor PacketPath.

(** ** The environment *)

Inductive RecvResult := Received (data : bytes) (addresses : list DivertAddress) | RecvError (error : Z).
Inductive SendResult := SendOk | SendError (error sentBytes : Z).

Record Env := mkEnv {
  WinDivertRecvEx : nat -> RecvResult;
  WinDivertSendEx : nat -> SendResult;
  GetTickCount64 : nat -> Z;
  (** [stop] has cleared [running_]. *)
  stopping : nat -> bool;
  readings : nat -> nat -> Readings;
  (** What the other threads did to the registries since the last batch. *)
  others : nat -> Interceptor -> Interceptor;
}.

Definition Packets := list (bytes * DivertAddress).

(** ** State of the loop *)

(** The accounting of the sends. *)
Record Streak := mkStreak { failedSends : Z; streakStartMs : Z; lastFailureMs : Z }.
Definition newStreak : Streak := mkStreak 0 0 0.

(** A send that counts for the accounting. *)
Inductive Outcome := Sent | Failed (nowMs : Z).

Record Loop := mkLoop {
  calls : nat;
  (** [running_] as far as this thread is concerned. *)
  keepRunning : bool;
  fatalErrorCode_ : Z;
  streak : Streak;
  completedReadRetries : Z;
  registries : Interceptor;
  sendLog : list (Packets * SendResult);
  outcomes : list Outcome;
}.
Definition called (s : Loop) : Loop :=
  mkLoop (S (calls s)) (keepRunning s) (fatalErrorCode_ s) (streak s) (completedReadRetries s) (registries s) (sendLog s) (outcomes s).
Definition setStreak (s : Loop) (x : Streak) (o : Outcome) : Loop :=
  mkLoop (calls s) (keepRunning s) (fatalErrorCode_ s) x (completedReadRetries s) (registries s) (sendLog s) (outcomes s ++ [o]).
Definition setRetries (s : Loop) (n : Z) : Loop :=
  mkLoop (calls s) (keepRunning s) (fatalErrorCode_ s) (streak s) n (registries s) (sendLog s) (outcomes s).
Definition setRegistries (s : Loop) (x : Interceptor) : Loop :=
  mkLoop (calls s) (keepRunning s) (fatalErrorCode_ s) (streak s) (completedReadRetries s) x (sendLog s) (outcomes s).
Definition logged (s : Loop) (l : Packets) (r : SendResult) : Loop :=
  mkLoop (calls s) (keepRunning s) (fatalErrorCode_ s) (streak s) (completedReadRetries s) (registries s) (sendLog s ++ [(l, r)]) (outcomes s).
(** [fatalErrorCode_ = error; running_ = false] *)
Definition fail (s : Loop) (error : Z) : Loop :=
  mkLoop (calls s) false error (streak s) (completedReadRetries s) (registries s) (sendLog s) (outcomes s).

(** A read of [running_]. *)
Definition running (e : Env) (s : Loop) : bool * Loop := (keepRunning s && negb (stopping e (calls s)), called s).

(** ** Send accounting *)

Definition sendSucceeded (k : Streak) : Streak := mkStreak 0 (streakStartMs k) (lastFailureMs k).

(** The streak after a failure at [nowMs], and whether the engine goes on. *)
Definition sendFailed (k : Streak) (nowMs : Z) : Streak * bool :=
  let '(n, start) :=
    if (failedSends k =? 0) || (kSendStreakGapMs <? w64 (nowMs - lastFailureMs k)) then (0, nowMs)
    else (failedSends k, streakStartMs k) in
  let n := w32 (n + 1) in
  (mkStreak n start nowMs, negb ((kFatalSendFailures <=? n) && (kFatalSendWindowMs <=? w64 (nowMs - start)))).

Section Loop.
Context `{WinDivert, !MapOrder bytes, !MapOrder PeerKey, !MapOrder EndpointKey, !MapOrder Z}.
Variable inet_ntop4 inet_ntop6 : bytes -> option bytes.
Variable platform : Platform.
Variable proxyPort_ dnsProxyPort_ connectPort_ : Z.
Variable quicMode_ : QuicStrategy.Mode.
Variable e : Env.

Definition sendEx (s : Loop) (l : Packets) : SendResult * Loop :=
  let r := WinDivertSendEx e (calls s) in (r, logged (called s) l r).

(** [sendOne]: the error, if the packet was not sent. At most [kMaxWinDivertReadRetries]
    retries, so that [fuel] is that and one. *)
Fixpoint sendOne (fuel : nat) (retries : Z) (s : Loop) (data : bytes) (a : DivertAddress) : option (option Z * Loop) :=
  match fuel with
  | O => None
  | S fuel =>
      let '(r, s) := sendEx s [(data, a)] in
      match r with
      | SendOk => Some (None, s)
      | SendError error _ =>
          let '(on, s) := running e s in
          if negb on || negb (shouldRetryWinDivertRead error retries) then Some (Some error, s)
          else sendOne fuel (retries + 1) s data a
      end
  end.
Definition sendFuel : nat := Z.to_nat (kMaxWinDivertReadRetries + 1).

(** The number of packets of [lengths] that [sentBytes] covers, and what they add up to. *)
Fixpoint coveredBy (lengths : list Z) (next : nat) (covered sentBytes : Z) : nat * Z :=
  match lengths with
  | [] => (next, covered)
  | n :: lengths =>
      if w32 (covered + n) <=? sentBytes then coveredBy lengths (S next) (w32 (covered + n)) sentBytes else (next, covered)
  end.

(** The loop over the packets that are sent one by one: [lengths] and [addresses] from the
    packet at [offset] on. *)
Fixpoint sendEach (s : Loop) (bs : bytes) (offset : Z) (lengths : list Z) (addresses : list DivertAddress) : option Loop :=
  match lengths with
  | [] => Some s
  | n :: lengths =>
      let '(on, s) := running e s in
      if negb on then Some s else
      a ← head addresses;
      data ← fetchField bs offset n;
      x ← sendOne sendFuel 0 s data a;
      let '(error, s) := x in
      match error with
      | None => sendEach (setStreak s (sendSucceeded (streak s)) Sent) bs (offset + n) lengths (tail addresses)
      | Some error =>
          let '(on, s) := running e s in
          if negb on then sendEach s bs (offset + n) lengths (tail addresses) else
          let nowMs := GetTickCount64 e (calls s) in
          let '(k, goOn) := sendFailed (streak s) nowMs in
          let s := setStreak (called s) k (Failed nowMs) in
          if negb goOn then Some (fail s error) else sendEach s bs (offset + n) lengths (tail addresses)
      end
  end.

(** The offset of the packet [i] of a batch. *)
Definition offsetOf (lengths : list Z) (i : nat) : Z := foldr Z.add 0 (take i lengths).

(** The packets of a batch, by the vectors that describe it. *)
Definition packetsOf (b : PacketBatch) : Packets :=
  zip ((λ i, slice (b_bytes b) (offsetOf (b_lengths b) i) (default 0 (b_lengths b !! i))) <$> seq 0 (count b)) (b_addresses b).

(** The batch in one call, and what is left of it one by one; [false] leaves the loop. *)
Definition sendBatch (s : Loop) (b : PacketBatch) : option (Loop * bool) :=
  if (count b =? 0)%nat then Some (s, true) else
  let rest s next :=
    s ← sendEach s (b_bytes b) (offsetOf (b_lengths b) next) (drop next (b_lengths b)) (drop next (b_addresses b)); Some (s, true) in
  if (1 <? count b)%nat then
    let '(r, s) := sendEx s (packetsOf b) in
    match r with
    | SendOk => Some (setStreak s (sendSucceeded (streak s)) Sent, true)
    | SendError _ sentBytes =>
        let '(on, s) := running e s in
        if negb on then Some (s, false) else
        let '(next, covered) := coveredBy (b_lengths b) 0 0 sentBytes in
        rest s (if covered =? sentBytes then next else O)
    end
  else rest s O.

(** ** The loop *)

(** One turn of [while (running_)]; [false] leaves the loop. *)
Definition turn (s : Loop) : option (Loop * bool) :=
  let '(on, s) := running e s in
  if negb on then Some (s, false) else
  let result := WinDivertRecvEx e (calls s) in
  let s := called s in
  match result with
  | RecvError error =>
      let '(on, s) := running e s in
      if negb on then Some (s, false) else
      if shouldRetryWinDivertRead error (completedReadRetries s)
      then Some (setRetries s (w32 (completedReadRetries s + 1)), true)
      else Some (fail s error, false)
  | Received data addresses =>
      let s := setRetries s 0 in
      let g := others e (calls s) (registries s) in
      x ← handleBatch inet_ntop4 inet_ntop6 platform proxyPort_ dnsProxyPort_ connectPort_ quicMode_
            (readings e (calls s)) g data addresses emptyBatch;
      let '(g, batch) := x in
      sendBatch (setRegistries s g) batch
  end.

(** [run] for at most [fuel] turns; [false]: it has not returned yet. *)
Fixpoint run (fuel : nat) (s : Loop) : option (Loop * bool) :=
  match fuel with
  | O => Some (s, false)
  | S fuel =>
      x ← turn s;
      let '(s, goOn) := x in
      if goOn : bool then run fuel s else Some (s, true)
  end.
End Loop.

Definition newLoop (g : Interceptor) : Loop := mkLoop 0 true 0 newStreak 0 g [] [].

(** ** Specification of the accounting *)

(** The times of the unbroken run of failures before a failure at [t], latest first:
    [back] is the history of the sends, latest first. *)
Fixpoint failuresBefore (back : list Outcome) (t : Z) : list Z :=
  match back with
  | Failed t' :: back => if t - t' <=? kSendStreakGapMs then t' :: failuresBefore back t' else []
  | _ => []
  end.
Definition firstOf (back : list Outcome) (t : Z) : Z := List.last (failuresBefore back t) t.

(** A failure at [t] shows that the handle is gone. *)
Definition handle_gone (back : list Outcome) (t : Z) : Prop :=
  kFatalSendFailures <= 1 + zlen (failuresBefore back t) /\ kFatalSendWindowMs <= t - firstOf back t.

Definition accounted (os : list Outcome) : Streak :=
  foldl (λ k o, match o with Sent => sendSucceeded k | Failed t => (sendFailed k t).1 end) newStreak os.

(** The clock does not go back. *)
Fixpoint clock_ok (back : list Outcome) (t : Z) : Prop :=
  match back with
  | [] => 0 <= t
  | Sent :: back => clock_ok back t
  | Failed t' :: back => t' <= t /\ clock_ok back t'
  end.

Lemma clock_le back t t' : clock_ok back t -> t <= t' -> clock_ok back t'.
Proof. revert t. induction back as [|[|u] back IH]; cbn; intros t Hc Hle; [lia | by eapply IH | destruct Hc; split; [lia | done]]. Qed.

Lemma clock_nonneg back t : clock_ok back t -> 0 <= t.
Proof. revert t. induction back as [|[|u] back IH]; cbn; intros t Hc; [done | by apply IH | destruct Hc as [? ?%IH]; lia]. Qed.

Lemma failures_length back t : (length (failuresBefore back t) <= length back)%nat.
Proof. revert t. induction back as [|[|u] back IH]; cbn; intros t; [lia | lia |]. case_if; cbn; [specialize (IH u) |]; lia. Qed.

Lemma last_cons (x d : Z) l : List.last (x :: l) d = List.last l x.
Proof. revert x d. induction l as [|y l IH]; intros x d; [done |]. change (List.last (y :: l) d = List.last (y :: l) x). by rewrite !IH. Qed.

Lemma first_le back t : clock_ok back t -> 0 <= firstOf back t <= t.
Proof.
  revert t. unfold firstOf. induction back as [|[|u] back IH]; cbn [failuresBefore]; intros t Hc; [cbn in *; lia | cbn; split; [by eapply clock_nonneg | lia] |].
  destruct Hc as [Hle Hc]. pose proof (clock_nonneg _ _ Hc). case_if; [|cbn; lia]. specialize (IH u Hc).
  rewrite last_cons. lia.
Qed.

(** What the counters are after a history. *)
Definition streak_spec (back : list Outcome) (k : Streak) : Prop :=
  match back with
  | Failed t :: back => failedSends k = 1 + zlen (failuresBefore back t) /\ streakStartMs k = firstOf back t /\ lastFailureMs k = t
  | _ => failedSends k = 0
  end.

Lemma sendFailed_spec back k t : streak_spec back k -> clock_ok back t -> t < 2 ^ 63 -> zlen back < 2 ^ 32 - 1 ->
  streak_spec (Failed t :: back) (sendFailed k t).1 /\ ((sendFailed k t).2 = false <-> handle_gone back t).
Proof.
  intros Hk Hc Ht Hlen. pose proof (failures_length back t) as Hfl. pose proof (first_le back t Hc) as Hfirst.
  assert (Hpair : (if (failedSends k =? 0) || (kSendStreakGapMs <? w64 (t - lastFailureMs k)) then (0, t) else (failedSends k, streakStartMs k)) =
    (zlen (failuresBefore back t), firstOf back t)).
  { destruct back as [|[|u] back]; cbn [streak_spec] in Hk; [by rewrite Hk | by rewrite Hk |]. destruct Hk as (Hn & Hst & Hla). destruct Hc as [Hle Hc].
    pose proof (clock_nonneg _ _ Hc). rewrite Hla, Hn, Hst, w64_small by lia. unfold firstOf. cbn [failuresBefore].
    rewrite (proj2 (Z.eqb_neq _ 0)) by (unfold zlen; lia). cbn [orb]. rewrite Z.ltb_antisym. destruct (t - u <=? kSendStreakGapMs); cbn [negb]; [|done].
    rewrite zlen_cons, last_cons. f_equal; lia. }
  unfold sendFailed. rewrite Hpair. cbn [fst snd streak_spec failedSends streakStartMs lastFailureMs]. unfold zlen in *. rewrite !w32_small, w64_small by lia.
  split; [split_and!; [lia | done | done] |]. unfold handle_gone, zlen. rewrite negb_false_iff, andb_true_iff, !Z.leb_le. rewrite Z.add_comm. lia.
Qed.

Lemma accounted_spec os : clock_ok (rev os) (2 ^ 63 - 1) -> zlen os < 2 ^ 32 -> streak_spec (rev os) (accounted os).
Proof.
  induction os as [|o os IH] using rev_ind; [done |]. rewrite rev_app_distr, zlen_app. cbn [rev app]. intros Hc Hlen. unfold accounted. rewrite foldl_app. cbn [foldl].
  fold (accounted os). assert (Hlen' : zlen os < 2 ^ 32 - 1) by (unfold zlen in *; cbn in Hlen; lia).
  destruct o as [|t]; [done |]. destruct Hc as [Hle Hc]. apply sendFailed_spec; [apply IH; [by eapply clock_le | lia] | done | lia |].
  unfold zlen in *. by rewrite length_rev.
Qed.

(** ** Specification of the wire *)

(** The packets of [l] that [n] bytes cover: those a failed call has sent. *)
Fixpoint sentPrefix (l : Packets) (n : Z) : Packets :=
  match l with
  | [] => []
  | x :: l => if zlen x.1 <=? n then x :: sentPrefix l (n - zlen x.1) else []
  end.
Definition total (l : Packets) : Z := foldr (λ x n, zlen x.1 + n) 0 l.

Definition sentBy (x : Packets * SendResult) : Packets :=
  match x.2 with SendOk => x.1 | SendError _ n => sentPrefix x.1 n end.
(** What the calls of the log put on the wire. *)
Definition wire (log : list (Packets * SendResult)) : Packets := concat (sentBy <$> log).

(** A call that fails has sent the packets before one of the batch and says how many bytes
    they have. *)
Definition honest (x : Packets * SendResult) : Prop :=
  match x.2 with SendOk => True | SendError _ n => n = total (sentPrefix x.1 n) /\ 0 <= n < total x.1 end.

(** The packet was offered by itself and refused. *)
Definition refused (log : list (Packets * SendResult)) (x : bytes * DivertAddress) : Prop := exists error n, ([x], SendError error n) ∈ log.

(** [log] sends the packets [l] in order: [kept] is what reached the wire of each. *)
Definition sends_in_order (log : list (Packets * SendResult)) (l : Packets) : Prop :=
  exists kept, Forall2 (λ x y, y = [x] \/ (y = [] /\ refused log x)) l kept /\ wire log = concat kept.

Lemma wire_app l l' : wire (l ++ l') = wire l ++ wire l'.
Proof. unfold wire. by rewrite fmap_app, concat_app. Qed.

Lemma wire_cons x l : wire (x :: l) = sentBy x ++ wire l.
Proof. done. Qed.

Lemma refused_mono log log' x : (forall y, y ∈ log -> y ∈ log') -> refused log x -> refused log' x.
Proof. intros Hs (err & n & Hin). exists err, n. by apply Hs. Qed.

Lemma sends_app log1 log2 l1 l2 : sends_in_order log1 l1 -> sends_in_order log2 l2 -> sends_in_order (log1 ++ log2) (l1 ++ l2).
Proof.
  intros (k1 & F1 & E1) (k2 & F2 & E2). exists (k1 ++ k2). split; [|by rewrite wire_app, concat_app, E1, E2].
  apply Forall2_app; (eapply Forall2_impl; [eassumption |]); cbn beta; (intros x y [Hk|[Hk Hr]]; [by left | right]);
    (split; [done |]); (eapply refused_mono; [|done]); intros z Hz; apply elem_of_app; auto.
Qed.

Lemma sentPrefix_all (l : Packets) n : Forall (λ x, 0 <= zlen x.1) l -> total l <= n -> sentPrefix l n = l.
Proof.
  revert n. induction l as [|x l IH]; intros n Hl Ht; [done |]. apply Forall_cons in Hl as [Hx Hl]. cbn [sentPrefix total foldr] in *. fold (total l) in Ht.
  assert (0 <= total l) by (clear -Hl; induction Hl; cbn; [lia |]; unfold total in *; lia).
  rewrite (proj2 (Z.leb_le _ n)) by lia. f_equal. apply IH; [done | lia].
Qed.

(** The packets sent before the failing one are a prefix, and the count tells which. *)
Lemma coveredBy_spec (l : Packets) next c n : Forall (λ x, 0 < zlen x.1) l -> 0 <= c -> c + total l < 2 ^ 32 -> c <= n ->
  coveredBy (zlen <$> l.*1) next c n = ((next + length (sentPrefix l (n - c)))%nat, c + total (sentPrefix l (n - c))).
Proof.
  revert next c. induction l as [|x l IH]; intros next c Hl Hc Hs Hn; cbn [fmap list_fmap coveredBy sentPrefix].
  { cbn. f_equal; lia. }
  apply Forall_cons in Hl as [Hx Hl]. cbn [total foldr] in Hs. fold (total l) in Hs.
  assert (0 <= total l) by (clear -Hl; induction Hl; cbn; [lia |]; unfold total in *; lia).
  rewrite w32_small by lia. destruct (zlen x.1 <=? n - c) eqn:E; zbool.
  - rewrite (proj2 (Z.leb_le _ n)) by lia. rewrite IH by (done || lia). replace (n - (c + zlen x.1)) with (n - c - zlen x.1) by lia.
    cbn [length total foldr]. fold (total (sentPrefix l (n - c - zlen x.1))). f_equal; lia.
  - rewrite (proj2 (Z.leb_gt _ n)) by lia. cbn. f_equal; lia.
Qed.

Lemma sentPrefix_take l n : sentPrefix l n = take (length (sentPrefix l n)) l.
Proof. revert n. induction l as [|x l IH]; intros n; cbn; [done |]. case_if; cbn; [|done]. f_equal. apply IH. Qed.

(** ** Lemmas: sending *)

(** Only the log and the number of calls differ. *)
Record only_sent (s s' : Loop) (log : list (Packets * SendResult)) : Prop := {
  os_calls : (calls s < calls s')%nat;
  os_keep : keepRunning s' = keepRunning s;
  os_fatal : fatalErrorCode_ s' = fatalErrorCode_ s;
  os_streak : streak s' = streak s;
  os_retries : completedReadRetries s' = completedReadRetries s;
  os_registries : registries s' = registries s;
  os_outcomes : outcomes s' = outcomes s;
  os_log : sendLog s' = sendLog s ++ log;
}.

(** What the sends leave of the state of the loop. *)
Record loop_inv (e : Env) (s : Loop) : Prop := {
  li_streak : streak s = accounted (outcomes s);
  li_clock : clock_ok (rev (outcomes s)) (GetTickCount64 e (calls s));
  li_count : (length (outcomes s) <= calls s)%nat;
}.

(** The engine stopped itself for a reason. *)
Definition stopped_by_send (s : Loop) : Prop := exists os t, outcomes s = os ++ [Failed t] /\ handle_gone (rev os) t.

Section Sends.
Variable e : Env.
Hypothesis clock_mono : forall n m, (n <= m)%nat -> 0 <= GetTickCount64 e n <= GetTickCount64 e m /\ GetTickCount64 e m < 2 ^ 63.
Hypothesis sent_range : forall n error k, WinDivertSendEx e n = SendError error k -> 0 <= k.

Lemma inv_later s s' : loop_inv e s -> streak s' = streak s -> outcomes s' = outcomes s -> (calls s <= calls s')%nat -> loop_inv e s'.
Proof.
  intros [H1 H2 H3] Hs Ho Hc. split; rewrite ?Hs, ?Ho; [done | | lia]. eapply clock_le; [exact H2 |]. destruct (clock_mono _ _ Hc). lia.
Qed.

Lemma sendOne_spec fuel retries s d a : kMaxWinDivertReadRetries - retries < Z.of_nat fuel -> 0 <= retries <= kMaxWinDivertReadRetries ->
  exists error s' results, sendOne e fuel retries s d a = Some (error, s') /\ only_sent s s' ((λ r, ([(d, a)], r)) <$> results) /\
    match error with
    | None => exists before, results = before ++ [SendOk] /\ Forall (λ r, r <> SendOk) before
    | Some _ => results <> [] /\ Forall (λ r, r <> SendOk) results
    end.
Proof.
  revert retries s. induction fuel as [|fuel IH]; intros retries s Hf Hr; [lia |]. cbn [sendOne sendEx].
  destruct (WinDivertSendEx e (calls s)) as [|error n] eqn:Er.
  { exists None, (logged (called s) [(d, a)] SendOk), [SendOk]. split; [done |]. split; [split; cbn; try done; lia |]. by exists []. }
  cbn [running]. destruct (negb _ || negb (shouldRetryWinDivertRead error retries)) eqn:Ec.
  - eexists (Some error), _, [SendError error n]. split; [done |]. split; [split; cbn; try done; lia |]. split; [done |]. by repeat constructor.
  - apply orb_false_iff in Ec as [_ Ec]. unfold shouldRetryWinDivertRead in Ec.
    destruct (IH (retries + 1) (called (logged (called s) [(d, a)] (SendError error n)))) as (err & s' & results & -> & Hs & Hm).
    1,2: destruct (isTransientWinDivertReadError error); cbn in Ec; [|done]; destruct (retries <? kMaxWinDivertReadRetries) eqn:E; [|done]; zbool; lia.
    exists err, s', (SendError error n :: results). split; [done |]. destruct Hs as [C1 C2 C3 C4 C5 C6 C7 C8]. cbn in C1, C2, C3, C4, C5, C6, C7, C8. split.
    + split; try done; [lia |]. cbn [fmap list_fmap]. rewrite C8. by rewrite <- app_assoc.
    + destruct err; [destruct Hm; split; [done | by constructor] |]. destruct Hm as (before & -> & Hb). exists (SendError error n :: before). split; [done | by constructor].
Qed.

(** What a packet sent by itself puts on the wire. *)
Lemma alone_wire d a results : 0 < zlen d -> Forall honest ((λ r, ([(d, a)], r)) <$> results) -> Forall (λ r, r <> SendOk) results ->
  wire ((λ r, ([(d, a)], r)) <$> results) = [].
Proof.
  intros Hd Hh Hf. induction Hf as [|r results Hr Hf IH]; [done |]. cbn [fmap list_fmap] in *. apply Forall_cons in Hh as [H1 Hh].
  rewrite wire_cons, (IH Hh), app_nil_r. destruct r as [|err n]; [done |]. destruct H1 as [_ H1].
  cbn in H1 |- *. rewrite (proj2 (Z.leb_gt _ n)) by lia. done.
Qed.

Lemma one_in_order d a (error : option Z) results : 0 < zlen d ->
  Forall honest ((λ r, ([(d, a)], r)) <$> results) ->
  match error with
  | None => exists before, results = before ++ [SendOk] /\ Forall (λ r, r <> SendOk) before
  | Some _ => results <> [] /\ Forall (λ r, r <> SendOk) results
  end -> sends_in_order ((λ r, ([(d, a)], r)) <$> results) [(d, a)].
Proof.
  intros Hd Hh Hm. destruct error as [err|].
  - destruct Hm as [Hne Hf]. exists [[]]. split; [|cbn; by apply alone_wire]. constructor; [|constructor]. right. split; [done |].
    destruct results as [|[|er n] results]; [done | by apply Forall_cons in Hf as [? _] |]. exists er, n. by left.
  - destruct Hm as (before & -> & Hf). rewrite fmap_app in Hh |- *. apply Forall_app in Hh as [Hh _]. exists [[(d, a)]]. split; [repeat constructor |].
    rewrite wire_app, alone_wire by done. done.
Qed.

(** [sent s s' log l rest]: between [s] and [s'] the packets [l] were sent by the calls
    [log], and [rest] was left because the engine was stopped. *)
Record sent (s s' : Loop) (log : list (Packets * SendResult)) (l rest : Packets) : Prop := {
  st_calls : (calls s <= calls s')%nat;
  st_retries : completedReadRetries s' = completedReadRetries s;
  st_registries : registries s' = registries s;
  st_log : sendLog s' = sendLog s ++ log;
  st_order : Forall honest log -> sends_in_order log l;
  st_rest : rest <> [] -> keepRunning s' = false \/ exists n, (calls s <= n < calls s')%nat /\ stopping e n = true;
  st_inv : loop_inv e s -> loop_inv e s';
  st_keep : keepRunning s' = keepRunning s \/
    (keepRunning s' = false /\ (loop_inv e s -> Z.of_nat (calls s') < 2 ^ 32 - 1 -> stopped_by_send s'));
}.

Lemma sent_nothing s : sent s s [] [] [].
Proof. split; try done; [by rewrite app_nil_r | | by left]. intros _. by exists []. Qed.

Lemma sent_trans s1 s2 s3 log1 log2 l1 l2 rest : sent s1 s2 log1 l1 [] -> keepRunning s2 = keepRunning s1 -> sent s2 s3 log2 l2 rest ->
  sent s1 s3 (log1 ++ log2) (l1 ++ l2) rest.
Proof.
  intros [A1 A2 A3 A4 A5 _ A7 _] Hk [B1 B2 B3 B4 B5 B6 B7 B8]. split.
  - lia.
  - congruence.
  - congruence.
  - by rewrite B4, A4, app_assoc.
  - intros [H1 H2]%Forall_app. apply sends_app; auto.
  - intros Hr. destruct (B6 Hr) as [|(n & Hn & ?)]; [by left | right]. exists n. split; [lia | done].
  - auto.
  - destruct B8 as [B8|[B8 B9]]; [left; congruence | right]. split; [done |]. auto.
Qed.

(** The accounting of a success. *)
Lemma noted_sent s s' log l : only_sent s s' log -> (Forall honest log -> sends_in_order log l) ->
  sent s (setStreak s' (sendSucceeded (streak s')) Sent) log l [].
Proof.
  intros [C1 C2 C3 C4 C5 C6 C7 C8] Ho. split; cbn; try done; [lia | | by left]. intros Hi.
  assert (Hi' : loop_inv e s') by (eapply inv_later; [exact Hi | done | done | lia]). destruct Hi' as [I1 I2 I3].
  split; cbn; [|by rewrite rev_app_distr | rewrite length_app; rewrite C7; destruct Hi; cbn; lia].
  unfold accounted. rewrite foldl_app. cbn. fold (accounted (outcomes s')). by rewrite <- I1.
Qed.

(** The accounting of a failure, and whether the engine goes on. *)
Lemma noted_failed s s' log l error : only_sent s s' log -> (Forall honest log -> sends_in_order log l) ->
  let now := GetTickCount64 e (calls s') in
  let s2 := setStreak (called s') (sendFailed (streak s') now).1 (Failed now) in
  sent s s2 log l [] /\ keepRunning s2 = keepRunning s /\ ((sendFailed (streak s') now).2 = false -> sent s (fail s2 error) log l [] /\ keepRunning (fail s2 error) = false).
Proof.
  intros [C1 C2 C3 C4 C5 C6 C7 C8] Ho now s2.
  assert (Hinv : loop_inv e s -> loop_inv e s2).
  { intros Hi. assert (Hi' : loop_inv e s') by (eapply inv_later; [exact Hi | done | done | lia]). destruct Hi' as [I1 I2 I3].
    split; cbn; [| rewrite rev_app_distr; cbn; split; [|exact I2]; apply (clock_mono (calls s') (S (calls s'))); lia |
                 rewrite length_app; cbn; lia].
    unfold accounted. rewrite foldl_app. cbn. fold (accounted (outcomes s')). by rewrite <- I1. }
  split_and!; [| by cbn |].
  - split; cbn; try done; [lia | by left].
  - intros Hf. split; [|done]. split; cbn; try done; [lia | |].
    + intros Hi. destruct (Hinv Hi) as [I1 I2 I3]. by split.
    + right. split; [done |]. intros Hi Hn. exists (outcomes s'), now. split; [done |].
      assert (Hi' : loop_inv e s') by (eapply inv_later; [exact Hi | done | done | lia]). destruct Hi' as [I1 I2 I3].
      destruct (clock_mono (calls s') (calls s')) as [_ Hc]; [lia |].
      assert (Hlen : zlen (outcomes s') < 2 ^ 32 - 1) by (unfold zlen; lia).
      apply (sendFailed_spec (rev (outcomes s')) (accounted (outcomes s')) now); [| done | done | by unfold zlen; rewrite length_rev; unfold zlen in Hlen | by rewrite <- I1].
      apply accounted_spec; [|lia]. eapply clock_le; [exact I2 | lia].
Qed.

Lemma unnoted s s' log l : only_sent s s' log -> (Forall honest log -> sends_in_order log l) -> sent s s' log l [].
Proof. intros [C1 C2 C3 C4 C5 C6 C7 C8] Ho. split; try done; [lia | | by left]. intros Hi. eapply inv_later; [done .. | lia]. Qed.

Lemma only_sent_called s s' log : only_sent (called s) s' log -> only_sent s s' log /\ only_sent s (called s') log.
Proof. intros [C1 C2 C3 C4 C5 C6 C7 C8]. cbn in *. split; split; cbn; try done; lia. Qed.

Lemma stopped_early s l : (running e s).1 = false -> sent s (called s) [] [] l.
Proof.
  intros Hr. split; cbn; try done; [lia | by rewrite app_nil_r | intros _; by exists [] | | | by left].
  - intros _. unfold running in Hr. cbn in Hr. apply andb_false_iff in Hr as [Hr|Hr]; [by left | right]. exists (calls s). split; [lia |]. by destruct (stopping e (calls s)).
  - intros Hi. eapply inv_later; [done .. | cbn; lia].
Qed.

Lemma sendEach_spec s bs offset (l : Packets) : 0 <= offset -> drop (Z.to_nat offset) bs = concat l.*1 -> Forall (λ x, 0 < zlen x.1) l ->
  exists s' log now later, sendEach e s bs offset (zlen <$> l.*1) l.*2 = Some s' /\ l = now ++ later /\ sent s s' log now later /\
    (l <> [] -> (calls s < calls s')%nat).
Proof.
  revert s offset. induction l as [|[d a] l IH]; intros s offset Ho Hb Hl.
  { exists s, [], [], []. split_and!; try done. apply sent_nothing. }
  apply Forall_cons in Hl as [Hd Hl]. cbn [fmap list_fmap concat fst snd] in *. cbn [sendEach]. change (running e s) with ((running e s).1, called s).
  destruct (running e s).1 eqn:Er; cbn [negb].
  2:{ exists (called s), [], [], ((d, a) :: l). split_and!; try done; [by apply stopped_early | cbn; lia]. }
  cbn [head tail mbind option_bind].
  assert (Hz : zlen bs = offset + zlen d + zlen (concat l.*1)).
  { assert (Hx : zlen (drop (Z.to_nat offset) bs) = zlen d + zlen (concat l.*1)) by (rewrite Hb; apply zlen_app). rewrite zlen_drop in Hx.
    pose proof (zlen_nonneg (concat l.*1)). lia. }
  pose proof (zlen_nonneg (concat l.*1)).
  assert (Hfetch : fetchField bs offset (zlen d) = Some d).
  { rewrite fetchField_ok by lia. f_equal. unfold slice. rewrite Hb, take_app_le by (unfold zlen; lia). apply take_ge. unfold zlen. lia. }
  rewrite Hfetch. cbn [mbind option_bind].
  assert (Hb2 : drop (Z.to_nat (offset + zlen d)) bs = concat l.*1).
  { rewrite Z2Nat.inj_add by lia. rewrite <- drop_drop, Hb. unfold zlen. rewrite Nat2Z.id. by rewrite drop_app_length. }
  destruct (sendOne_spec sendFuel 0 (called s) d a) as (error & s1 & results & -> & Hs1 & Hm); [vm_compute; reflexivity | split; vm_compute; discriminate |].
  cbn [mbind option_bind]. destruct (only_sent_called _ _ _ Hs1) as [Hs2 Hs3]. set (log := (λ r, ([(d, a)], r)) <$> results) in *.
  assert (Hord : Forall honest log -> sends_in_order log [(d, a)]) by (intros Hh; by apply (one_in_order d a error)).
  assert (Hgo : forall s2, sent s s2 log [(d, a)] [] -> keepRunning s2 = keepRunning s -> (calls s < calls s2)%nat ->
    exists s' log now later, sendEach e s2 bs (offset + zlen d) (zlen <$> l.*1) l.*2 = Some s' /\ (d, a) :: l = now ++ later /\ sent s s' log now later /\
      ((d, a) :: l <> [] -> (calls s < calls s')%nat)).
  { intros s2 Hs Hk Hc. destruct (IH s2 (offset + zlen d) ltac:(lia) Hb2 Hl) as (s' & log' & now & later & E & -> & Hs' & _).
    exists s', (log ++ log'), ((d, a) :: now), later. split_and!; try done; [by apply (sent_trans s s2 s' log log' [(d, a)] now) | destruct Hs'; lia]. }
  destruct error as [error|].
  - change (running e s1) with ((running e s1).1, called s1). destruct (running e s1).1; cbn [negb].
    + destruct (noted_failed s (called s1) log [(d, a)] error Hs3 Hord) as (Hn1 & Hn2 & Hn3).
      destruct (sendFailed (streak (called s1)) (GetTickCount64 e (calls (called s1)))) as [k goOn]. cbn [fst snd] in *. destruct goOn; cbn [negb].
      * apply Hgo; [done | done | cbn; destruct Hs1; cbn in *; lia].
      * destruct (Hn3 eq_refl) as [Hn4 Hn5]. eexists _, log, [(d, a)], l. split_and!; try done; [|intros _; cbn; destruct Hs1; cbn in *; lia].
        destruct Hn4 as [D1 D2 D3 D4 D5 D6 D7 D8]. split; try done. intros _. by left.
    + apply Hgo; [by apply unnoted | by destruct Hs3 | cbn; destruct Hs1; cbn in *; lia].
  - apply Hgo; [by apply noted_sent | by destruct Hs2 | cbn; destruct Hs1; cbn in *; lia].
Qed.

Lemma offsetOf_drop (ls : list bytes) i : drop (Z.to_nat (offsetOf (zlen <$> ls) i)) (concat ls) = concat (drop i ls) /\ 0 <= offsetOf (zlen <$> ls) i.
Proof.
  revert i. induction ls as [|d ls IH]; intros i; [by destruct i |]. destruct i as [|i]; [done |].
  unfold offsetOf. cbn [fmap list_fmap take foldr concat drop]. destruct (IH i) as [IH1 IH2]. fold (offsetOf (zlen <$> ls) i). pose proof (zlen_nonneg d). split; [|lia].
  rewrite Z2Nat.inj_add by lia. rewrite <- drop_drop. unfold zlen. rewrite Nat2Z.id, drop_app_length. done.
Qed.

Lemma packetsOf_batch l : packetsOf (batch_of l) = l.
Proof.
  unfold packetsOf. rewrite count_batch. cbn [batch_of b_bytes b_lengths b_addresses].
  assert (Hx : (λ i, slice (concat l.*1) (offsetOf (zlen <$> l.*1) i) (default 0 ((zlen <$> l.*1) !! i))) <$> seq 0 (length l) = l.*1).
  { apply list_eq. intros i. rewrite list_lookup_fmap. destruct (decide (i < length l)%nat) as [Hi|Hi].
    - rewrite lookup_seq_lt by done. cbn [fmap option_fmap option_map]. rewrite Nat.add_0_l. destruct (lookup_lt_is_Some_2 l.*1 i) as [d Hd]; [by rewrite length_fmap |].
      rewrite list_lookup_fmap, Hd. cbn [fmap option_fmap option_map default from_option]. unfold id. f_equal. unfold slice. rewrite (proj1 (offsetOf_drop _ _)).
      rewrite (drop_S _ _ _ Hd). cbn [concat]. rewrite take_app_le by (unfold zlen; lia). apply take_ge. unfold zlen. lia.
    - rewrite (lookup_ge_None_2 (seq _ _)) by (rewrite length_seq; lia). cbn. symmetry. apply lookup_ge_None_2. rewrite length_fmap. lia. }
  rewrite Hx. apply zip_fst_snd.
Qed.

Lemma singles_in_order log l : wire log = l -> sends_in_order log l.
Proof.
  intros Hw. exists ((λ x, [x]) <$> l). split; [|rewrite Hw; clear; induction l; cbn; congruence].
  apply Forall2_fmap_r. apply Forall_Forall2_diag. apply Forall_forall. intros x _. by left.
Qed.

Lemma sendBatch_spec s l : Forall (λ x, 0 < zlen x.1) l -> total l < 2 ^ 32 ->
  exists s' goOn log now later, sendBatch e s (batch_of l) = Some (s', goOn) /\ sent s s' log now later /\ (Forall honest log -> l = now ++ later) /\
    (l <> [] -> (calls s < calls s')%nat).
Proof.
  intros Hl Ht. unfold sendBatch. rewrite count_batch, packetsOf_batch. destruct (length l =? 0)%nat eqn:E0.
  { apply Nat.eqb_eq in E0. destruct l; [|done]. exists s, true, [], [], []. split_and!; try done. apply sent_nothing. }
  cbv zeta. cbn [batch_of b_bytes b_lengths b_addresses].
  assert (Hrest : forall s1 log0 l0 next, sent s s1 log0 l0 [] -> keepRunning s1 = keepRunning s -> (Forall honest log0 -> l0 = take next l) -> (l <> [] -> next = O \/ (calls s < calls s1)%nat) ->
    exists s' goOn log now later, (s1 ← sendEach e s1 (concat l.*1) (offsetOf (zlen <$> l.*1) next) (drop next (zlen <$> l.*1)) (drop next l.*2); Some (s1, true)) = Some (s', goOn) /\
      sent s s' log now later /\ (Forall honest log -> l = now ++ later) /\ (l <> [] -> (calls s < calls s')%nat)).
  { intros s1 log0 l0 next Hs1 Hk Hl0 Hc. rewrite <- !fmap_drop. destruct (offsetOf_drop l.*1 next) as [Hd Hp]. rewrite <- fmap_drop in Hd.
    destruct (sendEach_spec s1 (concat l.*1) _ (drop next l) Hp Hd) as (s' & log & now & later & -> & Hcat & Hs' & Hcalls); [by apply Forall_drop |].
    cbn [mbind option_bind]. exists s', true, (log0 ++ log), (l0 ++ now), later. split_and!; try done; [by eapply sent_trans | |].
    - intros [Hh _]%Forall_app. rewrite (Hl0 Hh), <- app_assoc, <- Hcat. by rewrite take_drop.
    - intros Hne. pose proof (st_calls _ _ _ _ _ Hs1). pose proof (st_calls _ _ _ _ _ Hs'). destruct (Hc Hne) as [->|]; [|lia]. rewrite drop_0 in Hcalls. specialize (Hcalls Hne). lia. }
  destruct (1 <? length l)%nat; [|apply (Hrest s [] []); [apply sent_nothing | done | done | by left]].
  cbn [sendEx]. destruct (WinDivertSendEx e (calls s)) as [|error n] eqn:Es.
  - eexists _, true, [(l, SendOk)], l, []. split; [done |]. split; [|split; [by rewrite app_nil_r | cbn; lia]].
    apply noted_sent; [split; cbn; try done; lia |]. intros _. apply singles_in_order. unfold wire. cbn. by rewrite app_nil_r.
  - set (s1 := logged (called s) l (SendError error n)). change (running e s1) with ((running e s1).1, called s1).
    assert (Hs1 : only_sent s s1 [(l, SendError error n)] /\ only_sent s (called s1) [(l, SendError error n)]) by (split; split; cbn; try done; lia).
    assert (Hw : Forall honest [(l, SendError error n)] -> sends_in_order [(l, SendError error n)] (sentPrefix l n))
      by (intros _; apply singles_in_order; unfold wire; cbn; by rewrite app_nil_r).
    destruct (running e s1).1 eqn:Er; cbn [negb].
    + pose proof (sent_range _ _ _ Es) as Hn. rewrite (coveredBy_spec l 0 0 n Hl) by lia. rewrite Z.sub_0_r, Z.add_0_l, Nat.add_0_l.
      destruct (total (sentPrefix l n) =? n) eqn:Et.
      * apply (Hrest _ [(l, SendError error n)] (sentPrefix l n)); [apply unnoted; [apply Hs1 | done] | done | intros _; apply sentPrefix_take | right; cbn; lia].
      * apply (Hrest _ [(l, SendError error n)] []); [|done | done | by left]. apply unnoted; [apply Hs1 |]. intros Hh.
        apply Forall_cons in Hh as [[Hh _] _]. cbn [fst snd] in Hh. zbool. congruence.
    + eexists _, false, ([(l, SendError error n)] ++ []), (sentPrefix l n ++ []), (drop (length (sentPrefix l n)) l). split; [done |].
      split; [apply (sent_trans s s1); [apply unnoted; [apply Hs1 | done] | done | by apply stopped_early] |]. split; [|cbn; lia].
      intros _. rewrite app_nil_r, sentPrefix_take at 1. by rewrite take_drop.
Qed.
End Sends.

(** ** Lemmas: the size of a batch *)

(** The buffer of [run] holds [kBatchSize] packets of any size. *)
Definition kBatchSize : Z := 64.
Definition bufferSize : Z := WINDIVERT_MTU_MAX * kBatchSize.

Section Sizes.
Context `{W : WinDivert, !WinDivertLaws} `{!MapOrder bytes, !MapOrder PeerKey, !MapOrder EndpointKey, !MapOrder Z}.
Variable inet_ntop4 inet_ntop6 : bytes -> option bytes.
Variable platform : Platform.
Variable proxyPort_ dnsProxyPort_ connectPort_ : Z.
Variable quicMode_ : QuicStrategy.Mode.

(** At most two packets, none of them empty or larger than [n]. *)
Definition modest (n : Z) (out : Packets) : Prop := (length out <= 2)%nat /\ Forall (λ x, 0 < zlen x.1 <= n) out.

Lemma modest_one n d a : 0 < zlen d <= n -> modest n [(d, a)].
Proof. intros Hd. split; [cbn; lia | by apply Forall_singleton]. Qed.
Lemma modest_two n d1 a1 d2 a2 : 0 < zlen d1 <= n -> 0 < zlen d2 <= n -> modest n [(d1, a1); (d2, a2)].
Proof. intros H1 H2. split; [cbn; lia |]. apply Forall_cons. split; [done | by apply Forall_singleton]. Qed.

Lemma ipLength_bound f d n : ipLength f d = Some n -> n < 2 ^ 17 /\ 0 < zlen d.
Proof. unfold ipLength. destruct (rd16 d (lengthAt f)) as [x|] eqn:E; [|done]. destruct (rd16_inv _ _ _ E) as (? & ? & ?). intros [= <-]. destruct f; cbn in *; lia. Qed.

Lemma segments_at_most data pol : (length (buildSegments data pol) <= 2)%nat.
Proof. unfold buildSegments. cbv zeta. case_if; [cbn; lia |]. destruct (mode pol); cbn; lia. Qed.

Lemma strategy_modest pol f d p t o l a out (appended applied : bool) n : lone_packet d p f t -> p_tcp p = Some t -> p_payload p = Some (o, l) ->
  0 < zlen d <= n -> 2 ^ 17 <= n -> strategy_out pol f d t o l a out appended applied -> modest n (out ++ if appended then [] else [(d, a)]).
Proof.
  intros Hl Ht Hpay Hd Hn Hso. pose proof (parse_inside _ _ (lp_parse _ _ _ _ Hl)) as Hok. destruct (lone_inside _ _ _ _ Hl) as [Hlo _].
  assert (20 <= t) by (destruct f; cbn in Hlo; lia).
  destruct (po_payload _ _ Hok _ _ Hpay) as (Hl0 & Hol & Hto & _). specialize (Hto _ Ht). unfold sizeofTcp in Hto.
  assert (Hvar : forall repl off ttl v, tcp_variant d f t o repl off ttl v -> 0 < zlen v <= n).
  { intros repl off ttl v Hv. pose proof (ipLength_bound _ _ _ (tv_length _ _ _ _ _ _ _ _ Hv)). pose proof (tv_zlen _ _ _ _ _ _ _ _ Hv). pose proof (zlen_nonneg repl). lia. }
  assert (Hfrag : forall part field fr, fragment_of d t part field fr -> 0 < zlen fr <= n).
  { intros part field fr (_ & Hz & H16 & _). destruct (rd16_inv _ _ _ H16) as (_ & _ & ?). pose proof (zlen_nonneg part). lia. }
  destruct Hso as [f1 f2 part1 part2 Hm Hf Hcat Hvb F1 F2|out Hm Hne Hf|fake Hm Hf|].
  - apply modest_two; eauto.
  - rewrite app_nil_r. split.
    + rewrite <- (Forall2_length _ _ _ Hf). apply segments_at_most.
    + apply Forall_forall. intros x Hx. apply list_elem_of_lookup_1 in Hx as [i Hi]. destruct (Forall2_lookup_r _ _ _ _ _ Hf Hi) as (sg & _ & Hv & _). eauto.
  - apply modest_two; eauto.
  - by apply modest_one.
Qed.

Lemma fate_modest r s d a s' out n : packet_fate inet_ntop4 inet_ntop6 platform proxyPort_ dnsProxyPort_ connectPort_ quicMode_ r s d a s' out ->
  0 < zlen d <= n -> 2 ^ 17 <= n -> modest n out.
Proof.
  intros Hf Hd Hn. destruct Hf as [Hno|p f t v owned s1 s' out Hl Ht Hv Ho Hs _ Hout|p f u sp dp s' out Hl Hu _ _ Hs Hout].
  - by apply modest_one.
  - destruct owned; [|destruct Hout as [_ ->]; by apply modest_one]. destruct Hout as (d' & a' & HR & _ & _ & _ & H1 & H2).
    assert (Hd' : 0 < zlen d' <= n) by (by rewrite (rw_zlen _ _ _ _ _ _ _ HR)).
    destruct (decide (Interceptor.route_of proxyPort_ connectPort_ v a = RedirectProxyToTarget)) as [Er|Er]; [|rewrite (H1 Er); by apply modest_one].
    destruct (H2 Er) as (s2 & pre & app & _ & Hres & ->).
    destruct Hres as [[-> ->]|(o & l & pol & target & seq & policies & applied & Hpay & _ & _ & _ & Hso & _)]; [by apply modest_one |].
    assert (Hl' : lone_packet d' p f t) by (split; [apply HR | apply Hl ..]). by eapply strategy_modest.
  - destruct Hout as [(_ & -> & _)|Hout]; [by apply modest_one |].
    destruct Hout as [d' a' s' _ HR _ _ _ _|d' a' s' _ HR _ _ _ _|s' _ _ _ _|s' _ _ _ _|s' ini _ _ _ _ _ _|s' o prime _ _ _ _ _ _ Hv].
    1,2: apply modest_one; by rewrite (rw_zlen _ _ _ _ _ _ _ HR).
    + by apply modest_one.
    + split; [cbn; lia | constructor].
    + split; [cbn; lia | constructor].
    + apply modest_two; [|done]. destruct (ipLength_bound _ _ _ (uv_length _ _ _ _ _ _ Hv)). lia.
Qed.

Lemma total_app l l' : total (l ++ l') = total l + total l'.
Proof. induction l; cbn; [done |]. unfold total in *. lia. Qed.

Lemma modest_total n out : 0 <= n -> modest n out -> total out <= 2 * n.
Proof.
  intros Hn [Hlen Hall]. destruct out as [|x [|y [|z out]]]; cbn in *; [lia | | | lia]; apply Forall_cons in Hall as [Hx Hall]; [lia |].
  apply Forall_cons in Hall as [Hy _]. lia.
Qed.

Lemma fates_modest rs s l s' outs n : fates inet_ntop4 inet_ntop6 platform proxyPort_ dnsProxyPort_ connectPort_ quicMode_ rs s l s' outs ->
  Forall (λ x, 0 < zlen x.1 <= n) l -> 2 ^ 17 <= n -> Forall (λ x, 0 < zlen x.1) (concat outs) /\ total (concat outs) <= 2 * n * zlen l.
Proof.
  intros Hf. induction Hf as [rs s|rs s d a l s1 s2 out outs Hp Hf IH]; intros Hl Hn; [split; [done |]; change (zlen []) with 0; cbn [concat total foldr]; lia |].
  apply Forall_cons in Hl as [Hd Hl]. destruct (IH Hl Hn) as [I1 I2]. pose proof (fate_modest _ _ _ _ _ _ _ Hp Hd Hn) as Hm. cbn [concat].
  rewrite total_app, zlen_cons. split; [|pose proof (modest_total n out ltac:(lia) Hm); lia]. apply Forall_app. split; [|done].
  destruct Hm as [_ Hm]. eapply Forall_impl; [exact Hm |]. cbn. lia.
Qed.

Lemma frames_modest rest l : Forall (λ x, 0 < zlen x.1 <= zlen rest) (frames rest l) /\ zlen (frames rest l) <= zlen l.
Proof.
  revert rest. induction l as [|a l IH]; intros rest; [done |]. pose proof (zlen_nonneg l). rewrite zlen_cons.
  destruct (decide (rest = [])) as [->|Hne]; [rewrite frames_nil; split; [done | change (zlen []) with 0; lia] |]. rewrite frames_cons by done.
  assert (0 < zlen rest) by (destruct rest; [done |]; rewrite zlen_cons; pose proof (zlen_nonneg rest); lia).
  destruct (parse rest) as [p|] eqn:Ep; [|split; [apply Forall_singleton; cbn [fst]; lia | rewrite zlen_cons; change (zlen []) with 0; lia]].
  pose proof (po_next _ _ (parse_inside _ _ Ep)). destruct (IH (drop (Z.to_nat (zlen rest - p_next p)) rest)) as [I1 I2]. split; [|rewrite zlen_cons; lia].
  apply Forall_cons. split; [cbn [fst]; rewrite zlen_take; lia |]. eapply Forall_impl; [exact I1 |]. cbn beta. intros x. rewrite zlen_drop. lia.
Qed.
End Sizes.

(** ** Lemmas: the loop *)

(** What the driver and the other threads respect. *)
Record env_ok (e : Env) : Prop := {
  eo_clock : forall n m, (n <= m)%nat -> 0 <= GetTickCount64 e n <= GetTickCount64 e m /\ GetTickCount64 e m < 2 ^ 63;
  eo_sent : forall n error k, WinDivertSendEx e n = SendError error k -> 0 <= k;
  eo_recv : forall n data addresses, WinDivertRecvEx e n = Received data addresses ->
    all_bytes data /\ zlen data <= bufferSize /\ zlen addresses <= kBatchSize;
  eo_others : forall n g, tcpFlows_ (others e n g) = tcpFlows_ g /\
    (policies_ok (packetPolicies_ g) -> policies_ok (packetPolicies_ (others e n g)));
}.

Section Run.
Context `{W : WinDivert, !WinDivertLaws} `{!MapOrder bytes, !MapOrder PeerKey, !MapOrder EndpointKey, !MapOrder Z}.
Variable inet_ntop4 inet_ntop6 : bytes -> option bytes.
Variable platform : Platform.
Variable proxyPort_ dnsProxyPort_ connectPort_ : Z.
Variable quicMode_ : QuicStrategy.Mode.
Hypothesis proxy_range : 0 <= proxyPort_ < 65536.
Hypothesis connect_range : 0 <= connectPort_ < 65536.
Hypothesis dns_range : 0 <= dnsProxyPort_ < 65536.
Variable e : Env.
Hypothesis Henv : env_ok e.

Let turn := turn inet_ntop4 inet_ntop6 platform proxyPort_ dnsProxyPort_ connectPort_ quicMode_ e.
Let run := run inet_ntop4 inet_ntop6 platform proxyPort_ dnsProxyPort_ connectPort_ quicMode_ e.
Let fates := fates inet_ntop4 inet_ntop6 platform proxyPort_ dnsProxyPort_ connectPort_ quicMode_.
Let engine_reach := engine_reach inet_ntop4 inet_ntop6 platform proxyPort_ dnsProxyPort_ connectPort_ quicMode_.

(** The last read failed for good: not a passing lack of resources, or one too often. *)
Definition stopped_by_read (s : Loop) : Prop :=
  exists n error, (n < calls s)%nat /\ WinDivertRecvEx e n = RecvError error /\
    (isTransientWinDivertReadError error = false \/ kMaxWinDivertReadRetries <= completedReadRetries s).

(** What one turn does: the packets [fs] were read and became [outs], of which the calls [log]
    sent [now]; [later] was left because the engine was stopped. *)
Record turned (s s' : Loop) (fs : Packets) (outs : list Packets) (log : list (Packets * SendResult)) (now later : Packets) : Prop := {
  tu_calls : (calls s < calls s')%nat;
  tu_read : fs = match WinDivertRecvEx e (S (calls s)) with Received data l => if (running e s).1 then frames data l else [] | RecvError _ => [] end;
  tu_reach : forall h, engine_reach h (registries s) -> engine_reach (h ++ fs) (registries s');
  tu_ok : policies_ok (packetPolicies_ (registries s'));
  tu_fates : exists rs g g', fates rs g fs g' outs;
  tu_log : sendLog s' = sendLog s ++ log;
  tu_order : Forall honest log -> concat outs = now ++ later /\ sends_in_order log now;
  tu_later : later <> [] -> keepRunning s' = false \/ exists n, (calls s <= n < calls s')%nat /\ stopping e n = true;
  tu_inv : loop_inv e s -> loop_inv e s';
  tu_keep : keepRunning s' = keepRunning s \/
    (keepRunning s' = false /\ (loop_inv e s -> Z.of_nat (calls s') < 2 ^ 32 - 1 -> stopped_by_send s' \/ stopped_by_read s'));
}.

Lemma turned_nothing s s' : policies_ok (packetPolicies_ (registries s)) -> (calls s < calls s')%nat -> registries s' = registries s -> sendLog s' = sendLog s ->
  streak s' = streak s -> outcomes s' = outcomes s ->
  keepRunning s' = keepRunning s \/ (keepRunning s' = false /\ stopped_by_read s') ->
  (running e s).1 = false \/ (exists error, WinDivertRecvEx e (S (calls s)) = RecvError error) -> turned s s' [] [] [] [] [].
Proof.
  intros Hp Hc Hr Hl Hst Hou Hk Hread. split; rewrite ?Hr; try done.
  - destruct Hread as [->|[error ->]]; [|done]. by destruct (WinDivertRecvEx e (S (calls s))).
  - intros h. by rewrite app_nil_r.
  - exists (λ _, readings e 0 0), (registries s), (registries s). constructor.
  - by rewrite app_nil_r.
  - intros _. split; [done |]. by exists [].
  - intros Hi. eapply inv_later; [apply (eo_clock _ Henv) | done .. | lia].
  - destruct Hk as [Hk|[Hk Hs]]; [by left | right]. auto.
Qed.

Lemma turn_spec s : policies_ok (packetPolicies_ (registries s)) ->
  exists s' goOn fs outs log now later, turn s = Some (s', goOn) /\ turned s s' fs outs log now later /\
    ((running e s).1 = false -> goOn = false).
Proof.
  intros Hpol. unfold turn, DivertEngine.turn. change (running e s) with ((running e s).1, called s). destruct (running e s).1 eqn:Er; cbn [negb].
  2:{ exists (called s), false, [], [], [], [], []. split; [done |]. split; [|done]. apply turned_nothing; try done; [cbn; lia | by left | by left]. }
  destruct (WinDivertRecvEx e (calls (called s))) as [data addresses|error] eqn:Erecv.
  - set (s1 := setRetries (called (called s)) 0). set (g := others e (calls s1) (registries s1)).
    destruct (eo_recv _ Henv _ _ _ Erecv) as (Hb & Hsize & Hcount). destruct (eo_others _ Henv (calls s1) (registries s1)) as [Ho1 Ho2].
    destruct (handleBatch_spec inet_ntop4 inet_ntop6 platform proxyPort_ dnsProxyPort_ connectPort_ quicMode_ proxy_range connect_range dns_range
      (readings e (calls s1)) g data addresses [] Hb (Ho2 Hpol)) as (g' & outs & E & Hpol' & Hf). change (batch_of []) with emptyBatch in E. cbn [app] in E.
    rewrite E. cbn [mbind option_bind]. destruct (frames_modest data addresses) as [Hm1 Hm2].
    destruct (fates_modest inet_ntop4 inet_ntop6 platform proxyPort_ dnsProxyPort_ connectPort_ quicMode_ _ _ _ _ _ bufferSize Hf) as [Hm3 Hm4].
    { eapply Forall_impl; [exact Hm1 |]. cbn beta. intros x. lia. }
    { vm_compute. discriminate. }
    assert (Htot : total (concat outs) < 2 ^ 32).
    { change bufferSize with 4196800 in Hm4. unfold kBatchSize in Hcount. pose proof (zlen_nonneg (frames data addresses)). lia. }
    destruct (sendBatch_spec e (eo_clock _ Henv) (eo_sent _ Henv) (setRegistries s1 g') (concat outs) Hm3 Htot)
      as (s' & goOn & log & now & later & -> & Hs & Hcat & _).
    assert (Hread : frames data addresses = match WinDivertRecvEx e (S (calls s)) with Received data l => if (running e s).1 then frames data l else [] | RecvError _ => [] end)
      by (rewrite Er; change (S (calls s)) with (calls (called s)); by rewrite Erecv).
    exists s', goOn, (frames data addresses), outs, log, now, later. split; [done |]. split; [|done]. destruct Hs as [C1 C2 C3 C4 C5 C6 C7 C8]. cbn in *. split; try done.
    + lia.
    + intros h Hr. rewrite C3. eapply reach_batch; [|exact Hb | exact E]. eapply reach_others; [exact Hr | done |]. by apply Ho2.
    + by rewrite C3.
    + by eexists _, _, _.
    + intros Hh. split; [by apply Hcat | by apply C5].
    + intros Hl. destruct (C6 Hl) as [|(n & Hn & ?)]; [by left | right]. exists n. split; [lia | done].
    + intros Hi. apply C7. eapply inv_later; [apply (eo_clock _ Henv) | exact Hi | done | done | cbn; lia].
    + destruct C8 as [C8|[C8 C9]]; [by left | right]. split; [done |]. intros Hi Hc. left. apply C9; [|done].
      eapply inv_later; [apply (eo_clock _ Henv) | exact Hi | done | done | cbn; lia].
  - change (running e (called (called s))) with ((running e (called (called s))).1, called (called (called s))).
    destruct (running e (called (called s))).1; cbn [negb].
    2:{ eexists _, false, [], [], [], [], []. split; [done |]. split; [|done]. apply turned_nothing; try done; [cbn; lia | by left | right; by exists error]. }
    destruct (shouldRetryWinDivertRead error (completedReadRetries (called (called (called s))))) eqn:Eretry.
    + eexists _, true, [], [], [], [], []. split; [done |]. split; [|done]. apply turned_nothing; try done; [cbn; lia | by left | right; by exists error].
    + eexists _, false, [], [], [], [], []. split; [done |]. split; [|done]. apply turned_nothing; try done; [cbn; lia | | right; by exists error]. right. split; [done |].
      exists (S (calls s)), error. split; [cbn; lia |]. split; [done |]. unfold shouldRetryWinDivertRead in Eretry. apply andb_false_iff in Eretry as [?|Er2]; [by left | right].
      zbool. done.
Qed.

(** A run as a sequence of turns. *)
Inductive turns : Loop -> Loop -> Prop :=
  | turns_nil s : turns s s
  | turns_step s s1 s2 fs outs log now later : turned s s1 fs outs log now later -> turns s1 s2 -> turns s s2.

Lemma run_turns fuel s : policies_ok (packetPolicies_ (registries s)) -> exists s' done, run fuel s = Some (s', done) /\ turns s s'.
Proof.
  revert s. induction fuel as [|fuel IH]; intros s Hpol; [exists s, false; split; [done | constructor] |]. unfold run. cbn [DivertEngine.run].
  destruct (turn_spec s Hpol) as (s1 & goOn & fs & outs & log & now & later & E & Ht & _). unfold turn in E. rewrite E. cbn [mbind option_bind]. destruct goOn.
  - destruct (IH s1 (tu_ok _ _ _ _ _ _ _ Ht)) as (s' & dn & E' & Hts). exists s', dn. split; [exact E' |]. by econstructor.
  - exists s1, true. split; [done |]. econstructor; [exact Ht | constructor].
Qed.

Lemma turns_calls s s' : turns s s' -> (calls s <= calls s')%nat.
Proof. induction 1 as [|? ? ? ? ? ? ? ? T]; [lia |]. destruct T. lia. Qed.

Lemma run_stops fuel s N : policies_ok (packetPolicies_ (registries s)) -> (forall n, (N <= n)%nat -> stopping e n = true) -> (N <= calls s + fuel)%nat ->
  exists s', run (S fuel) s = Some (s', true).
Proof.
  revert s. induction fuel as [|fuel IH]; intros s Hpol Hstop Hf; unfold run in *; cbn [DivertEngine.run];
    destruct (turn_spec s Hpol) as (s1 & goOn & fs & outs & log & now & later & E & Ht & Hoff); unfold turn in E; rewrite E; cbn [mbind option_bind].
  - rewrite Hoff; [by eexists |]. unfold running. cbn [fst]. rewrite Hstop by lia. apply andb_false_r.
  - destruct goOn; [|by eexists]. apply IH; [apply Ht | done | destruct Ht; lia].
Qed.

Definition stopped (s : Loop) : Prop := stopped_by_send s \/ stopped_by_read s.

Lemma run_reason fuel s s' b : policies_ok (packetPolicies_ (registries s)) -> loop_inv e s -> keepRunning s = true \/ stopped s ->
  run fuel s = Some (s', b) -> Z.of_nat (calls s') < 2 ^ 32 - 1 -> keepRunning s' = true \/ stopped s'.
Proof.
  revert s. induction fuel as [|fuel IH]; intros s Hpol Hi Hk E Hc; unfold run in E; cbn [DivertEngine.run] in E; [injection E as <- <-; done |].
  destruct (keepRunning s) eqn:Ek.
  - destruct (turn_spec s Hpol) as (s1 & goOn & fs & outs & log & now & later & E1 & Ht & _). unfold turn in E1. rewrite E1 in E. cbn [mbind option_bind] in E.
    assert (Hc1 : (calls s1 <= calls s')%nat).
    { destruct goOn; [|injection E as <- _; lia]. destruct (run_turns fuel s1 (tu_ok _ _ _ _ _ _ _ Ht)) as (s2 & d & E2 & Hts). unfold run in E2.
      rewrite E in E2. injection E2 as -> _. by apply turns_calls. }
    assert (Hk1 : keepRunning s1 = true \/ stopped s1).
    { destruct (tu_keep _ _ _ _ _ _ _ Ht) as [Hk1|[_ Hk1]]; [left; congruence | right]. apply Hk1; [done | lia]. }
    destruct goOn; [|injection E as <- _; done]. eapply IH; [apply Ht | by apply Ht | done | exact E | done].
  - destruct Hk as [|Hk]; [done |]. unfold DivertEngine.turn, running in E. rewrite Ek in E. cbn in E. injection E as <- _. right.
    destruct Hk as [Hk|(n & error & Hn & Hk)]; [left; exact Hk | right]. exists n, error. split; [cbn; lia | exact Hk].
Qed.

(** ** Properties of the loop *)

(** C5: No packet is lost or reordered by the batch send. In every turn of the loop the
    packets the driver delivered become, each by itself, what is to be sent; if the driver's
    count of the bytes a failed call has sent is right, every packet of that reaches the wire
    once and in order, whether the batch was accepted, partly accepted or resent one by one,
    except a packet the driver refused when it was offered by itself; and packets are left
    unsent only when the engine was stopped. *)
Theorem turn_delivers s : policies_ok (packetPolicies_ (registries s)) ->
  exists s' goOn outs log now later, turn s = Some (s', goOn) /\ sendLog s' = sendLog s ++ log /\
    (exists rs g g', fates rs g (match WinDivertRecvEx e (S (calls s)) with
                                 | Received data l => if (running e s).1 then frames data l else [] | RecvError _ => [] end) g' outs) /\
    (Forall honest log -> concat outs = now ++ later /\ sends_in_order log now) /\
    (later <> [] -> keepRunning s' = false \/ exists n, (calls s <= n < calls s')%nat /\ stopping e n = true).
Proof.
  intros Hpol. destruct (turn_spec s Hpol) as (s' & goOn & fs & outs & log & now & later & E & Ht & _). destruct Ht as [C1 -> C3 C4 C5 C6 C7 C8 C9 C10].
  by exists s', goOn, outs, log, now, later.
Qed.

(** The packet loop ends. Whatever the driver delivers or refuses, no turn of the loop
    touches memory outside its buffers, and once [stop] has cleared the flag the loop returns:
    a stop seen by the call number [N] ends it within [N + 1] turns. *)
Theorem engine_stops g N : policies_ok (packetPolicies_ g) -> (forall n, (N <= n)%nat -> stopping e n = true) ->
  (forall fuel, exists s' finished, run fuel (newLoop g) = Some (s', finished)) /\ exists s', run (S N) (newLoop g) = Some (s', true).
Proof.
  intros Hpol Hstop. split; [|by apply (run_stops N (newLoop g) N)].
  intros fuel. destruct (run_turns fuel (newLoop g) Hpol) as (s' & d & E & _). by exists s', d.
Qed.

(** The engine gives up only for cause. When the loop has cleared [running_] itself, then
    either its last send completed an unbroken run of at least sixteen failures, no two of them
    more than a second apart, that lasts for half a second or more; or a read failed with an
    error that is not a passing lack of resources, or for the fourth time in a row. *)
Theorem engine_gives_up_for_cause g fuel s' finished : policies_ok (packetPolicies_ g) -> run fuel (newLoop g) = Some (s', finished) ->
  Z.of_nat (calls s') < 2 ^ 32 - 1 -> keepRunning s' = false -> stopped_by_send s' \/ stopped_by_read s'.
Proof.
  intros Hpol E Hc Hk. destruct (run_reason fuel (newLoop g) s' finished Hpol) as [|]; try done; [|by left | congruence].
  split; cbn; [done | apply (eo_clock _ Henv 0%nat 0%nat); lia | lia].
Qed.
End Run.

(** ** Concrete runs *)

(** Two packets at once; the driver takes the first, then each by itself. *)
Definition sample_env : Env :=
  mkEnv (λ n, if (n =? 1)%nat then Received (sample_syn ++ sample_query) [sample_out; sample_out] else RecvError 8)
    (λ n, if (n =? 2)%nat then SendError 5 40 else SendOk) (λ _, 1000) (λ n, (9 <=? n)%nat) (λ _ _, sample_clock) (λ _ g, g).
(** The driver is gone. *)
Definition sample_dead : Env :=
  mkEnv (λ _, RecvError 5) (λ _, SendOk) (λ _, 1000) (λ _, false) (λ _ _, sample_clock) (λ _ g, g).

Lemma sample_env_ok : env_ok sample_env.
Proof.
  split; cbn.
  - intros n m _. lia.
  - intros n error k. case_if; [|done]. intros [= _ <-]. lia.
  - intros n data l. case_if; [|done]. intros [= <- <-]. split; [apply all_bytes_check; vm_compute; reflexivity |]. split; vm_compute; discriminate.
  - done.
Qed.
Lemma sample_dead_ok : env_ok sample_dead.
Proof. by split; cbn. Qed.

Definition sample_turn (e : Env) : Loop -> option (Loop * bool) := turn sample_v4_1 sample_v4_1 sample_platform 8443 5353 7443 Allow e.
Definition sample_run (e : Env) : nat -> Loop -> option (Loop * bool) := run sample_v4_1 sample_v4_1 sample_platform 8443 5353 7443 Allow e.

(** The packet the batch did not cover is sent again, alone. *)
Example sample_turn_log : (λ x : Loop * bool, (λ y : Packets * SendResult, (length y.1, y.2)) <$> sendLog x.1) <$> sample_turn sample_env (newLoop sample_engine) =
  Some [(2%nat, SendError 5 40); (1%nat, SendOk)].
Proof. vm_compute. reflexivity. Qed.

Lemma turn_delivers_witness : exists s' goOn outs log now later,
  sample_turn sample_env (newLoop sample_engine) = Some (s', goOn) /\ sendLog s' = sendLog (newLoop sample_engine) ++ log /\
  (Forall honest log -> concat outs = now ++ later /\ sends_in_order log now).
Proof.
  destruct (turn_delivers sample_v4_1 sample_v4_1 sample_platform 8443 5353 7443 Allow ltac:(lia) ltac:(lia) ltac:(lia) sample_env sample_env_ok (newLoop sample_engine)
    sample_policies_ok) as (s' & goOn & outs & log & now & later & E & Hlog & _ & Hord & _).
  exists s', goOn, outs, log, now, later. split; [exact E |]. split; [exact Hlog | exact Hord].
Defined.

Lemma engine_stops_witness :
  (forall fuel, exists s' finished, sample_run sample_env fuel (newLoop sample_engine) = Some (s', finished)) /\
  exists s', sample_run sample_env 10 (newLoop sample_engine) = Some (s', true).
Proof.
  apply (engine_stops sample_v4_1 sample_v4_1 sample_platform 8443 5353 7443 Allow ltac:(lia) ltac:(lia) ltac:(lia) sample_env sample_env_ok sample_engine 9).
  - apply sample_policies_ok.
  - intros n Hn. by apply Nat.leb_le.
Defined.

Lemma engine_gives_up_for_cause_witness :
  exists s', sample_run sample_dead 5 (newLoop sample_engine) = Some (s', true) /\ (stopped_by_send s' \/ stopped_by_read sample_dead s').
Proof.
  assert (Hx : exists s', sample_run sample_dead 5 (newLoop sample_engine) = Some (s', true) /\ calls s' = 3%nat /\ keepRunning s' = false)
    by (vm_compute; eexists; repeat split).
  destruct Hx as (s' & E & Hc & Hk). exists s'. split; [exact E |].
  apply (engine_gives_up_for_cause sample_v4_1 sample_v4_1 sample_platform 8443 5353 7443 Allow ltac:(lia) ltac:(lia) ltac:(lia) sample_dead sample_dead_ok sample_engine 5 s' true).
  - apply sample_policies_ok.
  - exact E.
  - rewrite Hc. vm_compute. reflexivity.
  - exact Hk.
Defined.
