(* ===== verification/EngineLifecycle.v ===== *)
(** * EngineLifecycle: starting and stopping the interceptor

    Models [WinDivertInterceptor::start], [stop] and [closeHandles] of
    [src/src/WinDivertInterceptor.cpp] and the end of the worker thread. Both operations hold
    [stopMutex_] from beginning to end, so that they follow one another in any order
    ([life]); the packet loop may end by itself between them. The answers of the driver are
    inputs, and what is asked of it and of the thread is kept in order in [asked]. The queue
    parameters, whose refusal is only logged, are omitted. *)

From S2P Require Import Prelude Containers TransparentFlow QuicStrategy PacketStrategy ProcessFilter DivertPacket Interceptor.

Definition kDivertPriority : Z := 123.
Definition WINDIVERT_FLAG_DROP : Z := 2.

(** What the engine asks of the driver and of its thread. *)
Inductive Request :=
  | AskOpen (filter : bytes) (priority flags : Z) (handle : option Z)
  | AskShutdown (handle : Z)
  | AskClose (handle : Z)
  | AskSpawn
  | AskJoin.

(** The object; [None] is [INVALID_HANDLE_VALUE], [joinable] is [worker_.joinable()]. *)
Record Engine := mkEngine {
  running_ : bool;
  fatalErrorCode_ : Z;
  joinable : bool;
  packetHandle_ : option Z;
  quicDropHandle_ : option Z;
  registries : Interceptor;
  asked : list Request;
}.
Definition setRunning (s : Engine) (b : bool) : Engine :=
  mkEngine b (fatalErrorCode_ s) (joinable s) (packetHandle_ s) (quicDropHandle_ s) (registries s) (asked s).
Definition setFatal (s : Engine) (code : Z) : Engine :=
  mkEngine (running_ s) code (joinable s) (packetHandle_ s) (quicDropHandle_ s) (registries s) (asked s).
Definition setJoinable (s : Engine) (b : bool) : Engine :=
  mkEngine (running_ s) (fatalErrorCode_ s) b (packetHandle_ s) (quicDropHandle_ s) (registries s) (asked s).
Definition setPacketHandle (s : Engine) (h : option Z) : Engine :=
  mkEngine (running_ s) (fatalErrorCode_ s) (joinable s) h (quicDropHandle_ s) (registries s) (asked s).
Definition setQuicHandle (s : Engine) (h : option Z) : Engine :=
  mkEngine (running_ s) (fatalErrorCode_ s) (joinable s) (packetHandle_ s) h (registries s) (asked s).
Definition setRegistries (s : Engine) (g : Interceptor) : Engine :=
  mkEngine (running_ s) (fatalErrorCode_ s) (joinable s) (packetHandle_ s) (quicDropHandle_ s) g (asked s).
Definition ask (s : Engine) (r : Request) : Engine :=
  mkEngine (running_ s) (fatalErrorCode_ s) (joinable s) (packetHandle_ s) (quicDropHandle_ s) (registries s) (asked s ++ [r]).

(** What the driver answers to one [start]: whether the two filters compile, the two handles,
    whether the thread is created. *)
Record Answers := mkAnswers {
  compiles : bool;
  opened : option Z;
  quicCompiles : bool;
  quicOpened : option Z;
  spawned : bool;
}.

Section Lifecycle.
Variable proxyPort_ dnsProxyPort_ connectPort_ : Z.
Variable quicMode_ : QuicStrategy.Mode.
Variable captureDns_ : bool.

(** ** The filter *)

Definition portsInvalid : bool :=
  (proxyPort_ =? 0) || (dnsProxyPort_ =? 0) || (connectPort_ =? 0) || (proxyPort_ =? connectPort_) || (proxyPort_ =? dnsProxyPort_) ||
  (dnsProxyPort_ =? connectPort_) || (proxyPort_ =? kHttpsPort) || (dnsProxyPort_ =? kHttpsPort) || (dnsProxyPort_ =? kDnsPort) ||
  (connectPort_ =? kHttpsPort).

(** [snprintf] into a buffer of [size] bytes: what is in it. *)
Definition snprintf (size : Z) (text : bytes) : bytes := take (Z.to_nat (size - 1)) text.

Definition processAwareQuicBlock (g : Interceptor) : bool := bool_decide (quicMode_ = Block) && ruled g.

Definition capturedQuic (g : Interceptor) : bytes :=
  if bool_decide (quicMode_ = Adaptive) || processAwareQuicBlock g
  then str " or (udp and ((outbound and udp.DstPort == 443) or (inbound and udp.SrcPort == 443)))" else [].

Definition dnsText : bytes :=
  str " or (udp and outbound and (udp.DstPort == " ++ to_string kDnsPort ++ str " or udp.SrcPort == " ++ to_string dnsProxyPort_ ++ str "))".
Definition dnsClause : bytes := if captureDns_ then snprintf 128 dnsText else [].

Definition filterText (g : Interceptor) : bytes :=
  str "!loopback and ((tcp and ((outbound and (tcp.DstPort == " ++ to_string kHttpsPort ++ str " or tcp.DstPort == " ++ to_string connectPort_ ++
  str " or tcp.SrcPort == " ++ to_string proxyPort_ ++ str ")) or (inbound and tcp.SrcPort == " ++ to_string kHttpsPort ++ str ")))" ++
  dnsClause ++ capturedQuic g ++ str ")".

Definition kQuicFilter : bytes :=
  str "udp and !loopback and ((outbound and udp.DstPort == 443) or (inbound and udp.SrcPort == 443))".

(** ** Operations *)

Definition closeHandles (s : Engine) : Engine :=
  let s := match packetHandle_ s with Some h => setPacketHandle (ask s (AskClose h)) None | None => s end in
  match quicDropHandle_ s with Some h => setQuicHandle (ask s (AskClose h)) None | None => s end.

Definition join (s : Engine) : Engine := if joinable s then setJoinable (ask s AskJoin) false else s.

(** The drop handle of block mode; [false] if it cannot be had. *)
Definition openQuic (s : Engine) (w : Answers) : Engine * bool :=
  if bool_decide (quicMode_ = Block) && negb (processAwareQuicBlock (registries s)) then
    if negb (quicCompiles w) then (closeHandles s, false) else
    let s := setQuicHandle (ask s (AskOpen kQuicFilter (kDivertPriority + 1) WINDIVERT_FLAG_DROP (quicOpened w))) (quicOpened w) in
    match quicOpened w with None => (closeHandles s, false) | Some _ => (s, true) end
  else (s, true).

Definition start (s : Engine) (w : Answers) : Engine * bool :=
  if running_ s then (s, true) else
  let s := closeHandles (join s) in
  let s := setFatal (setRegistries s (setTcpFlows (registries s) (tcp_clear (tcpFlows_ (registries s))))) 0 in
  if portsInvalid then (s, false) else
  let filter := filterText (registries s) in
  if 640 <=? zlen filter then (s, false) else
  if negb (compiles w) then (s, false) else
  let s := setPacketHandle (ask s (AskOpen filter kDivertPriority 0 (opened w))) (opened w) in
  match opened w with
  | None => (s, false)
  | Some _ =>
      let '(s, ok) := openQuic s w in
      if negb ok then (s, false) else
      let s := setRunning s true in
      if spawned w then (setJoinable (ask s AskSpawn) true, true)
      else (closeHandles (setRunning s false), false)
  end.

Definition stop (s : Engine) : Engine :=
  let wasRunning := running_ s in
  let s := setRunning s false in
  let s := match wasRunning, packetHandle_ s with true, Some h => ask s (AskShutdown h) | _, _ => s end in
  let s := closeHandles (join s) in
  let g := registries s in
  setRegistries s (mkInterceptor (flow_clear (flows_ g)) (dgram_clear (datagrams_ g)) (policyClear (packetPolicies_ g)) (quicClear (quicRegistry_ g))
    (tcp_clear (tcpFlows_ g)) (clear <$> processFilter_ g)).

(** The worker's function ends by itself, with an error or an exception: the thread can still
    be joined. *)
Definition workerEnds (s : Engine) (code : Z) : Engine := setRunning (setFatal s code) false.

(** ** Lives *)

(** The states of an engine: [start] and [stop] are called in any order, the worker ends by
    itself while it runs, and the registries change. The driver gives two handles that are
    not the same. *)
Inductive life : Engine -> Prop :=
  | life_new g : life (mkEngine false 0 false None None g [])
  | life_start s w : life s -> (forall h, opened w = Some h -> quicOpened w <> Some h) -> life (start s w).1
  | life_stop s : life s -> life (stop s)
  | life_worker s code : life s -> running_ s = true -> life (workerEnds s code)
  | life_packets s g : life s -> life (setRegistries s g).

(** What the requests amount to: the open handles, whether there is a thread to join, and
    whether each request made sense: handles are closed or shut down only while they are open
    and closed only when no thread is left that could use them. *)
Record World := mkWorld { handles : list Z; thread : bool; sensible : bool }.
Definition meet (w : World) (r : Request) : World :=
  match r with
  | AskOpen _ _ _ None => w
  | AskOpen _ _ _ (Some h) => mkWorld (handles w ++ [h]) (thread w) (sensible w && negb (thread w) && bool_decide (h ∉ handles w))
  | AskShutdown h => mkWorld (handles w) (thread w) (sensible w && bool_decide (h ∈ handles w))
  | AskClose h =>
      mkWorld (filter (λ x, x <> h) (handles w)) (thread w) (sensible w && negb (thread w) && bool_decide (h ∈ handles w))
  | AskSpawn => mkWorld (handles w) true (sensible w && negb (thread w) && negb (bool_decide (handles w = [])))
  | AskJoin => mkWorld (handles w) false (sensible w && thread w)
  end.
Definition world (l : list Request) : World := foldl meet (mkWorld [] false true) l.
#[local] Arguments world : simpl never.

Definition held (s : Engine) : list Z := option_list (packetHandle_ s) ++ option_list (quicDropHandle_ s).

(** ** Lemmas *)

(** The object and the world agree. *)
Record tidy (s : Engine) : Prop := {
  ti_sensible : sensible (world (asked s)) = true;
  ti_handles : handles (world (asked s)) = held s;
  ti_thread : thread (world (asked s)) = joinable s;
  ti_distinct : NoDup (held s);
}.
(** Handles are held only on behalf of a thread; a running engine has its packet handle and,
    if it blocks all of QUIC, the drop handle. *)
Record settled (s : Engine) : Prop := {
  se_tidy : tidy s;
  se_idle : joinable s = false -> held s = [] /\ running_ s = false;
  se_running : running_ s = true -> is_Some (packetHandle_ s);
}.

Lemma world_ask s r : world (asked (ask s r)) = meet (world (asked s)) r.
Proof. cbn. unfold world. by rewrite foldl_app. Qed.

Lemma tidy_same s s' : tidy s -> asked s' = asked s -> held s' = held s -> joinable s' = joinable s -> tidy s'.
Proof. intros [T1 T2 T3 T4] E1 E2 E3. split; rewrite ?E1, ?E2, ?E3; done. Qed.

Lemma join_spec s : tidy s -> tidy (join s) /\ joinable (join s) = false /\ held (join s) = held s /\ running_ (join s) = running_ s /\ registries (join s) = registries s.
Proof.
  intros Ht. unfold join. destruct (joinable s) eqn:Ej; [|done]. destruct Ht as [T1 T2 T3 T4]. split_and!; try done.
  assert (Hw : world (asked (setJoinable (ask s AskJoin) false)) = meet (world (asked s)) AskJoin) by apply world_ask.
  split; rewrite ?Hw; cbn; try done. by rewrite T1, T3, Ej.
Qed.

Lemma filter_others (h : Z) (l : list Z) : h ∉ l -> filter (λ x, x <> h) l = l.
Proof.
  induction l as [|x l IH]; [done |]. intros Hn. apply not_elem_of_cons in Hn as [Hx Hn]. rewrite filter_cons_True by congruence. by rewrite IH.
Qed.

Lemma close_one s s' h rest : tidy s -> joinable s = false -> asked s' = asked (ask s (AskClose h)) -> joinable s' = false ->
  (held s = h :: rest \/ held s = rest ++ [h]) -> held s' = rest -> tidy s'.
Proof.
  intros [T1 T2 T3 T4] Hj Ha Hj' Hh Hr.
  assert (Hin : h ∈ held s) by (destruct Hh as [->| ->]; [by left | apply elem_of_app; right; by left]).
  assert (Hf : filter (λ x, x <> h) (held s) = rest /\ NoDup rest).
  { destruct Hh as [E|E]; rewrite E in T4 |- *.
    - apply NoDup_cons in T4 as [Hn Hd]. rewrite filter_cons_False by (intros Hx; by apply Hx). split; [by apply filter_others | done].
    - apply NoDup_app in T4 as (Hd & Hn & _). rewrite filter_app, filter_others; [|intros Hx; apply (Hn h Hx); by left].
      rewrite filter_cons_False by (intros Hx; by apply Hx). by rewrite filter_nil, app_nil_r. }
  destruct Hf as [Hf Hd]. split; rewrite ?Ha, ?world_ask, ?Hr, ?Hj'; cbn; rewrite ?T2, ?Hf; try done; [|congruence].
  rewrite T1, T3, Hj, bool_decide_eq_true_2 by done. done.
Qed.

Lemma closeHandles_spec s : tidy s -> joinable s = false -> tidy (closeHandles s) /\ held (closeHandles s) = [] /\ joinable (closeHandles s) = false /\
  packetHandle_ (closeHandles s) = None /\ running_ (closeHandles s) = running_ s /\ registries (closeHandles s) = registries s.
Proof.
  intros Ht Hj. unfold closeHandles.
  set (s1 := match packetHandle_ s with Some h => _ | None => s end).
  assert (H1 : tidy s1 /\ joinable s1 = false /\ held s1 = option_list (quicDropHandle_ s) /\ packetHandle_ s1 = None /\ quicDropHandle_ s1 = quicDropHandle_ s /\
    running_ s1 = running_ s /\ registries s1 = registries s).
  { unfold s1. destruct (packetHandle_ s) as [h|] eqn:E; [|split_and!; try done; unfold held; by rewrite E]. split_and!; try done.
    apply (close_one s _ h (option_list (quicDropHandle_ s))); try done. left. unfold held. by rewrite E. }
  destruct H1 as (T1 & J1 & H1 & P1 & Q1 & R1 & G1). rewrite <- Q1, <- R1, <- G1 in *. clearbody s1.
  destruct (quicDropHandle_ s1) as [h|] eqn:E; [|by split_and!; try done; rewrite H1]. split_and!; try done; [|cbn; unfold held; cbn; by rewrite P1].
  apply (close_one s1 _ h []); try done; [by left |]. unfold held. cbn. by rewrite P1.
Qed.

Lemma open_one s s' text priority flags h l : tidy s -> joinable s = false -> asked s' = asked (ask s (AskOpen text priority flags (Some h))) -> joinable s' = false ->
  held s = l -> h ∉ l -> held s' = l ++ [h] -> tidy s'.
Proof.
  intros [T1 T2 T3 T4] Hj Ha Hj' Hl Hn Hh. split; rewrite ?Ha, ?world_ask, ?Hh, ?Hj'; cbn; rewrite ?T2, ?Hl; try done; [|congruence |].
  - rewrite T1, T3, Hj, bool_decide_eq_true_2 by done. done.
  - rewrite Hl in T4. apply NoDup_app. split_and!; [done | intros x Hx ->%list_elem_of_singleton; done | apply NoDup_singleton].
Qed.

Lemma ask_nothing s r : tidy s -> meet (world (asked s)) r = world (asked s) -> tidy (ask s r).
Proof. intros [T1 T2 T3 T4] Hw. split; rewrite ?world_ask, ?Hw; done. Qed.

Lemma stop_spec s : settled s -> tidy (stop s) /\ held (stop s) = [] /\ joinable (stop s) = false /\ running_ (stop s) = false.
Proof.
  intros [Ht Hi Hr]. unfold stop. cbv zeta. set (s1 := match running_ s, packetHandle_ (setRunning s false) with true, Some h => _ | _, _ => _ end).
  assert (H1 : tidy s1 /\ running_ s1 = false).
  { assert (H0 : tidy (setRunning s false)) by (by apply (tidy_same s)). unfold s1. destruct (running_ s); [|done]. cbn [packetHandle_ setRunning].
    destruct (packetHandle_ s) as [h|] eqn:E; [|done]. split; [|done]. apply ask_nothing; [done |]. destruct H0 as [T1 T2 T3 T4]. cbn in *.
    destruct (world (asked s)) as [hs th sn]. cbn in *. f_equal. rewrite T1, T2, bool_decide_eq_true_2; [done |]. unfold held. cbn. rewrite E. by left. }
  destruct H1 as [H1 R1]. destruct (join_spec s1 H1) as (H2 & J2 & _ & R2 & _). destruct (closeHandles_spec (join s1) H2 J2) as (H3 & E3 & J3 & _ & R3 & _).
  split_and!; try done; [by apply (tidy_same (closeHandles (join s1))) |]. cbn. by rewrite R3, R2.
Qed.

(** Block mode without process rules needs the second handle. *)
Definition blocksAll (g : Interceptor) : bool := bool_decide (quicMode_ = Block) && negb (processAwareQuicBlock g).

Lemma openQuic_spec s w h : tidy s -> joinable s = false -> packetHandle_ s = Some h -> quicDropHandle_ s = None -> quicOpened w <> Some h ->
  let '(s', ok) := openQuic s w in
  tidy s' /\ joinable s' = false /\ running_ s' = running_ s /\ registries s' = registries s /\
  if ok : bool then packetHandle_ s' = Some h /\ (blocksAll (registries s) = true -> is_Some (quicDropHandle_ s')) else held s' = [].
Proof.
  intros Ht Hj Hp Hq Hw. unfold openQuic. fold (blocksAll (registries s)). destruct (blocksAll (registries s)); [|by split_and!].
  assert (Hclose : forall s1, tidy s1 -> joinable s1 = false -> running_ s1 = running_ s -> registries s1 = registries s ->
    tidy (closeHandles s1) /\ joinable (closeHandles s1) = false /\ running_ (closeHandles s1) = running_ s /\ registries (closeHandles s1) = registries s /\
    held (closeHandles s1) = []).
  { intros s1 T1 J1 R1 G1. destruct (closeHandles_spec s1 T1 J1) as (T2 & E2 & J2 & _ & R2 & G2). split_and!; try done; congruence. }
  destruct (quicCompiles w); cbn [negb]; [|by apply Hclose]. destruct (quicOpened w) as [h2|] eqn:E2.
  - cbn. split_and!; try done. apply (open_one s _ kQuicFilter (kDivertPriority + 1) WINDIVERT_FLAG_DROP h2 [h]); try done.
    + unfold held. by rewrite Hp, Hq.
    + intros ->%list_elem_of_singleton. done.
    + unfold held. cbn. by rewrite Hp.
  - apply Hclose; try done. apply (tidy_same (ask s (AskOpen kQuicFilter (kDivertPriority + 1) WINDIVERT_FLAG_DROP None))); try done.
    + by apply ask_nothing.
    + unfold held. cbn. by rewrite Hq.
Qed.

Lemma start_spec s w : settled s -> (forall h, opened w = Some h -> quicOpened w <> Some h) ->
  settled (start s w).1 /\ (start s w).2 = running_ (start s w).1 /\ ((start s w).2 = false -> held (start s w).1 = []).
Proof.
  intros Hs Hw. pose proof Hs as [Ht Hi Hr]. unfold start. destruct (running_ s) eqn:Erun; [done |].
  destruct (join_spec s Ht) as (H1 & J1 & _ & R1 & _). destruct (closeHandles_spec (join s) H1 J1) as (H2 & E2 & J2 & P2 & R2 & G2).
  set (s2 := setFatal _ 0). assert (Ht2 : tidy s2) by (by apply (tidy_same (closeHandles (join s)))).
  assert (Hf2 : held s2 = [] /\ joinable s2 = false /\ running_ s2 = false /\ packetHandle_ s2 = None /\ quicDropHandle_ s2 = None).
  { unfold s2. cbn. rewrite R2, R1, Erun. split_and!; try done. unfold held in E2. rewrite P2 in E2. cbn in E2. by destruct (quicDropHandle_ (closeHandles (join s))). }
  clearbody s2. destruct Hf2 as (E & J & R & P & Q).
  assert (Hfail : forall s3, tidy s3 -> held s3 = [] -> joinable s3 = false -> running_ s3 = false -> settled s3 /\ false = running_ s3 /\ (false = false -> held s3 = [])).
  { intros s3 T3 E3 J3 R3. split; [split; try done; congruence | done]. }
  case_if; [by apply Hfail |]. case_if; [by apply Hfail |]. case_if; [by apply Hfail |]. cbv zeta.
  destruct (opened w) as [h|] eqn:Eo.
  2:{ apply Hfail; try done; [|by unfold held; cbn; rewrite Q].
      apply (tidy_same (ask s2 (AskOpen (filterText (registries s2)) kDivertPriority 0 None))); [by apply ask_nothing | done | | done]. unfold held. cbn. by rewrite P. }
  set (s3 := setPacketHandle _ (Some h)).
  assert (Ht3 : tidy s3) by (apply (open_one s2 s3 (filterText (registries s2)) kDivertPriority 0 h []); try done; [apply not_elem_of_nil | unfold held, s3; cbn; by rewrite Q]).
  pose proof (openQuic_spec s3 w h Ht3 J eq_refl Q (Hw h eq_refl)) as Hq. destruct (openQuic s3 w) as [s4 ok]. destruct Hq as (T4 & J4 & R4 & _ & H4). cbn in R4. rewrite R in R4.
  destruct ok; cbn [negb]; [|by apply Hfail]. destruct H4 as [P4 _]. destruct (spawned w).
  - split; [|done]. split; [|done | intros _; cbn; by rewrite P4]. destruct T4 as [T1 T2 T3 T4'].
    assert (Hwo : world (asked s4 ++ [AskSpawn]) = meet (world (asked s4)) AskSpawn)
      by apply (world_ask (setRunning s4 true)).
    split; cbn; rewrite ?Hwo; cbn; try done.
    rewrite T1, T2, T3, J4, bool_decide_eq_false_2; [done |]. unfold held. by rewrite P4.
  - assert (T5 : tidy (setRunning (setRunning s4 true) false)) by (by apply (tidy_same s4)).
    destruct (closeHandles_spec _ T5 J4) as (T6 & E6 & J6 & _ & R6 & _). apply Hfail; done.
Qed.

Lemma life_settled s : life s -> settled s.
Proof.
  induction 1 as [g|s w Hl IH Hw|s Hl IH|s code Hl [T I R] Hr|s g Hl [T I R]].
  - split; [split; try done; constructor | done | done].
  - by apply start_spec.
  - destruct (stop_spec s IH) as (T & E & J & R). split; [done | done | congruence].
  - split; [by apply (tidy_same s) | | done]. intros Hj. by destruct (I Hj).
  - split; [by apply (tidy_same s) | done | done].
Qed.

(** *** The filter fits its buffer *)

Lemma dec_digits_len fuel n acc k : 0 <= n < 10 ^ Z.of_nat k -> (0 < k)%nat -> zlen (dec_digits fuel n acc) <= zlen acc + Z.of_nat k.
Proof.
  revert n acc k. induction fuel as [|fuel IH]; intros n acc k Hn Hk; cbn [dec_digits]; [lia |]. case_if; zbool; [rewrite zlen_cons; lia |].
  destruct k as [|[|k]]; [lia | cbn in Hn; lia |]. etrans; [apply (IH (n / 10) _ (S k)); [|lia] | rewrite zlen_cons; lia].
  rewrite Nat2Z.inj_succ, Z.pow_succ_r in Hn by lia. split; [apply Z.div_pos; lia | apply Z.div_lt_upper_bound; lia].
Qed.

Lemma port_digits n : 0 <= n < 65536 -> zlen (to_string n) <= 5.
Proof. intros Hn. pose proof (dec_digits_len 20 n [] 5) as Hd. change (10 ^ Z.of_nat 5) with 100000 in Hd. unfold to_string. cbn [zlen length] in Hd. unfold zlen in *. cbn in *. lia. Qed.

Lemma dnsClause_whole : 0 <= dnsProxyPort_ < 65536 -> dnsClause = if captureDns_ then dnsText else [].
Proof.
  intros Hd. unfold dnsClause, snprintf. destruct captureDns_; [|done]. apply take_ge. pose proof (port_digits _ Hd) as Hp.
  assert (Hz : zlen dnsText <= 127) by (unfold dnsText; rewrite !zlen_app; change (zlen (to_string kDnsPort)) with 2;
    repeat match goal with |- context [zlen (str ?x)] => let n := eval vm_compute in (zlen (str x)) in change (zlen (str x)) with n end; lia).
  unfold zlen in Hz. change (Z.to_nat (128 - 1)) with 127%nat. lia.
Qed.

Lemma filterText_fits g : 0 <= proxyPort_ < 65536 -> 0 <= connectPort_ < 65536 -> 0 <= dnsProxyPort_ < 65536 -> zlen (filterText g) < 640.
Proof.
  intros Hp Hc Hd. pose proof (port_digits _ Hp). pose proof (port_digits _ Hc).
  assert (Hdns : zlen dnsClause <= 127) by (unfold dnsClause, snprintf; destruct captureDns_; [rewrite zlen_take; lia | done]).
  assert (Hq : zlen (capturedQuic g) <= 90) by (unfold capturedQuic; case_if; vm_compute; discriminate).
  unfold filterText. rewrite !zlen_app. change (zlen (to_string kHttpsPort)) with 3.
  repeat match goal with |- context [zlen (str ?x)] => let n := eval vm_compute in (zlen (str x)) in change (zlen (str x)) with n end. lia.
Qed.

(** ** Properties *)

(** C20: The life of the engine, whatever the order of its starts and stops and whenever the
    packet loop ends by itself. The handles the object holds are those that are open; a handle
    is closed once, only while it is open and only after the thread that reads from it has been
    joined; only one thread exists at a time; an engine without a thread holds nothing; a
    running one has its packet handle; a failed start leaves no handle open; and after a stop
    there is neither handle nor thread. *)
Theorem engine_lifecycle s : life s ->
  sensible (world (asked s)) = true /\ handles (world (asked s)) = held s /\ thread (world (asked s)) = joinable s /\
  (joinable s = false -> held s = [] /\ running_ s = false) /\ (running_ s = true -> is_Some (packetHandle_ s)) /\
  handles (world (asked (stop s))) = [] /\ thread (world (asked (stop s))) = false /\
  (forall w, (forall h, opened w = Some h -> quicOpened w <> Some h) -> (start s w).2 = false -> handles (world (asked (start s w).1)) = []).
Proof.
  intros Hl. pose proof (life_settled s Hl) as Hs. pose proof Hs as [[T1 T2 T3 T4] Hi Hr]. destruct (stop_spec s Hs) as ([_ S2 S3 _] & E & J & _).
  split_and!; try done; [congruence | congruence |]. intros w Hw Hf. destruct (start_spec s w Hs Hw) as ([[_ U2 _ _] _ _] & _ & Hh). rewrite U2. auto.
Qed.

(** When a start succeeds. An engine that is not running starts exactly if its ports are
    valid and the driver and the system grant what it asks for: the filter compiles and opens,
    the drop filter too where all of QUIC is blocked, and the thread is created. The filter text
    always fits its buffer, and the clause for DNS is never cut. *)
Theorem engine_starts s w : 0 <= proxyPort_ < 65536 -> 0 <= connectPort_ < 65536 -> 0 <= dnsProxyPort_ < 65536 -> running_ s = false ->
  ((start s w).2 = true <->
     portsInvalid = false /\ compiles w = true /\ is_Some (opened w) /\
     (blocksAll (registries s) = true -> quicCompiles w = true /\ is_Some (quicOpened w)) /\ spawned w = true) /\
  zlen (filterText (registries s)) < 640 /\ dnsClause = (if captureDns_ then dnsText else []).
Proof.
  intros Hp Hc Hd Hr. split; [|split; [by apply filterText_fits | by apply dnsClause_whole]].
  unfold start. rewrite Hr. cbv zeta. set (s2 := setFatal _ 0).
  assert (Hb : blocksAll (registries s2) = blocksAll (registries s)).
  { unfold s2. cbn. unfold closeHandles, join. destruct (joinable s); cbn; destruct (packetHandle_ s); cbn; destruct (quicDropHandle_ s); done. }
  rewrite <- Hb. clearbody s2. destruct portsInvalid; [split; [done | by intros (? & _)] |].
  rewrite (proj2 (Z.leb_gt 640 _)) by (by apply filterText_fits). destruct (compiles w); cbn [negb]; [|split; [done | by intros (_ & ? & _)]].
  destruct (opened w) as [h|] eqn:Eo; [|split; [done | intros (_ & _ & [? ?] & _); done]].
  unfold openQuic. cbn [registries setPacketHandle ask]. fold (blocksAll (registries s2)). destruct (blocksAll (registries s2)).
  - destruct (quicCompiles w); cbn [negb]; [|split; [done | intros (_ & _ & _ & Hq & _); by destruct (Hq eq_refl)]].
    destruct (quicOpened w) as [h2|]; cbn [negb]; [|split; [done | intros (_ & _ & _ & Hq & _); destruct (Hq eq_refl) as [_ [? ?]]; done]].
    destruct (spawned w); split; intros Hx; first [done | by split_and! | by destruct Hx as (_ & _ & _ & _ & ?)].
  - cbn [negb]. destruct (spawned w); split; intros Hx; first [done | by split_and! | by destruct Hx as (_ & _ & _ & _ & ?)].
Qed.
End Lifecycle.

(** ** Concrete lives *)

Definition idle_registries : Interceptor :=
  mkInterceptor newFlowRegistry newDatagramRegistry newPolicyRegistry (newRegistry 0 0) newTcpFlowTable None.
Definition sample_answers : Answers := mkAnswers true (Some 100) true (Some 101) true.
Definition new_engine : Engine := mkEngine false 0 false None None idle_registries [].
Definition sample_started : Engine := (start 8443 5353 7443 Block true new_engine sample_answers).1.

(** Both handles, then the thread; stopped in the reverse order. *)
Example sample_life : handles (world (asked sample_started)) = [100; 101] /\
  drop 3 (asked (stop sample_started)) = [AskShutdown 100; AskJoin; AskClose 100; AskClose 101].
Proof. vm_compute. split; reflexivity. Qed.

Lemma engine_lifecycle_witness :
  sensible (world (asked sample_started)) = true /\ handles (world (asked (stop sample_started))) = [].
Proof.
  destruct (engine_lifecycle 8443 5353 7443 Block true sample_started) as (H1 & _ & _ & _ & _ & H2 & _).
  - apply life_start; [apply life_new |]. intros h [= <-]. discriminate.
  - split; [exact H1 | exact H2].
Defined.

Lemma engine_starts_witness :
  ((start 8443 5353 7443 Block true new_engine sample_answers).2 = true <->
     portsInvalid 8443 5353 7443 = false /\ compiles sample_answers = true /\ is_Some (opened sample_answers) /\
     (blocksAll Block (registries new_engine) = true -> quicCompiles sample_answers = true /\ is_Some (quicOpened sample_answers)) /\
     spawned sample_answers = true) /\
  zlen (filterText 8443 5353 7443 Block true (registries new_engine)) < 640 /\ dnsClause 5353 true = dnsText 5353.
Proof. apply (engine_starts 8443 5353 7443 Block true new_engine sample_answers); try lia. reflexivity. Defined.
