(* ===== verification/Main.v ===== *)
(** * Main: the program around the components

    Models [main] of [src/src/main.cpp]: which of the program's roles a start takes (a
    command that exits at once, the tray, the engine, the manual proxy), the configuration
    and setup before it, the ports, and the life of the engine: listeners first, then
    interception, then supervision, and the shutdown in the opposite order. The components
    are system calls of [Calls.Sys] here ([MainCall]); what they do is modelled in
    [SocksSessions], [DnsProxy], [EngineLifecycle], [TrayApp], [Config] and
    [StrategyStore]. Destructors that run at every return ([WinsockGuard],
    [ShutdownEventMonitor]) are calls on every path. Logging, console output and the window
    of the console are omitted.

    The ledger [Stage] knows what is up. The theorems: traffic is intercepted only while
    somebody listens for it and while the engine can be told to stop, listeners go down only
    after interception, nothing is left up, and an unreadable configuration is never
    overwritten ([main_order]); the exit code says which component failed
    ([exit_code_tells]); the ports never collide, except with HTTPS itself
    ([ports_collide_iff]). *)

From S2P Require Import Prelude Calls Strategy RecoveryPolicy QuicStrategy ProcessFilter Interceptor EngineLifecycle CommandLine Config TrayApp.

Definition kEngineFailOpenExitCode : Z := 2.

(** ** Ports *)

Definition kPreferredConnectPort : Z := 65534.
Definition kAlternateConnectPort : Z := 65533.
Definition kPreferredDnsProxyPort : Z := 1053.
Definition kAlternateDnsProxyPort : Z := 1054.
Definition connectPort (port : Z) : Z :=
  if port =? kPreferredConnectPort then kAlternateConnectPort else kPreferredConnectPort.
Definition dnsProxyPort (port : Z) : Z :=
  if port =? kPreferredDnsProxyPort then kAlternateDnsProxyPort else kPreferredDnsProxyPort.

(** ** What a run is given *)

(** The settings [main] puts into the relay's context. *)
Record RelayContext := mkRelayContext {
  ctxWorkerUrl : bytes;
  ctxSharedSecret : bytes;
  withResolver : bool;         (* [resolver != nullptr] *)
  withPacketPolicies : bool;   (* [packetPolicies != nullptr] *)
  ctxSplitDelayMs : Z;
  ctxProbeTimeoutMs : Z;
  ctxTunnelFallback : bool;
  bypassConnectPort : Z;
  forcedProfile : bytes;
}.

(** The configuration with what the command line overrides for this run. *)
Definition overridden (o : Options) (c : Config) : Config :=
  mkConfig (apiToken c) (accountId c) (workerName c) (Config.workerUrl c) (sharedSecret c) (dnsMode c)
    (if splitDelaySet o then CommandLine.splitDelayMs o else Config.splitDelayMs c)
    (probeTimeoutMs c) (CommandLine.tunnelFallback o || Config.tunnelFallback c)
    (Config.processInclude c ++ CommandLine.processInclude o) (Config.processExclude c ++ CommandLine.processExclude o)
    (migratedFromPlaintext c) (legacyApiTokenPresent c) (sharedSecretBlob c) (loadFailed c) (processIncludeInvalid c).

Definition relayContext (o : Options) (config : Config) (workerUrl : bytes) : RelayContext :=
  let useWorkerDns := bool_decide (dnsMode config = DnsWorker) in
  mkRelayContext (if useWorkerDns then workerUrl else []) (if useWorkerDns then sharedSecret config else [])
    useWorkerDns (negb (manualProxy o)) (Config.splitDelayMs config) (probeTimeoutMs config)
    (useWorkerDns && Config.tunnelFallback config)
    (if manualProxy o then 0 else connectPort (port o)) (forcedStrategy o).

(** What the interceptor is constructed with. *)
Record Interception := mkInterception {
  proxyPort : Z;
  dnsPort : Z;
  connectFrom : Z;
  quic : QuicStrategy.Mode;
  include : list bytes;
  exclude : list bytes;
  captureDns : bool;
}.
Definition interception (o : Options) (config : Config) : Interception :=
  mkInterception (port o) (dnsProxyPort (port o)) (connectPort (port o)) (quicMode o)
    (Config.processInclude config) (Config.processExclude config) (bool_decide (dnsMode config = DnsWorker)).

(** ** Calls *)

Inductive MainCall :=
  | IsElevated | TrayInstanceRunning | RelaunchElevated (waitForExit : bool) | ErrorBox
  | CreateInstanceMutex          (* [None]: failed; otherwise whether it existed *)
  | CloseInstanceMutex
  | RunTray (configured : bool)
  | OpenMonitor (shutdownEvent : bytes) (parentPid : Z) | CloseMonitor  (* whether it is active *)
  | WsaStartup | WsaCleanup
  | LoadFile | SaveFile (c : Config)
  | RestoreLeftovers (force : bool) | ForgetStrategies
  | Redeploy (c : Config) | RunSetup (c : Config) | WaitForEnter
  | StartTelemetry | StopTelemetry
  | SpawnProxy (context : RelayContext) (listenPort : Z) (transparent : bool) | ProxyRunning | ProxyExited | StopProxy | JoinProxy     (* the result of [run] *)
  | StartDns | DnsRunning | StopDns
  | StartInterceptor (i : Interception) | InterceptorRunning | FatalError | StopInterceptor
  | SignalReady (name : bytes)
  | ShutdownRequested | WorkerUnavailable
  | Sleep (ms : Z).

Definition Reply (c : MainCall) : Type :=
  match c with
  | IsElevated | TrayInstanceRunning | OpenMonitor _ _ | WsaStartup | SaveFile _ | RestoreLeftovers _ | Redeploy _
  | StartTelemetry | ProxyRunning | ProxyExited | JoinProxy | StartDns | DnsRunning | StartInterceptor _
  | InterceptorRunning | ShutdownRequested | WorkerUnavailable => bool
  | RelaunchElevated _ | RunTray _ | FatalError => Z
  | CreateInstanceMutex => option bool
  | LoadFile => Config
  | RunSetup _ => option Config
  | _ => unit
  end.

Definition M (A : Type) : Type := Sys Reply A.
#[export] Instance main_ret : MRet M := λ A, Done.
#[export] Instance main_bind : MBind M := λ A B, sys_bind.
Definition do (c : MainCall) : M (Reply c) := call c.

(** ** The engine *)

(** The condition of the supervision loop, in the order it is evaluated. *)
Definition keepRunning (useWorkerDns : bool) : M bool :=
  shutdown ← do ShutdownRequested; if (shutdown : bool) then mret false else
  exited ← do ProxyExited; if (exited : bool) then mret false else
  running ← do InterceptorRunning; if negb running then mret false else
  if negb useWorkerDns then mret true else
  dns ← do DnsRunning; if negb dns then mret false else
  unavailable ← do WorkerUnavailable; mret (negb unavailable).

(** The supervision loop for at most [turns] turns; [false]: still running. *)
Fixpoint supervise (useWorkerDns : bool) (turns : nat) : M bool :=
  keep ← keepRunning useWorkerDns;
  if negb keep then mret true else
  match turns with
  | O => mret false
  | S turns => _ ← do (Sleep 50); supervise useWorkerDns turns
  end.

(** The wait for the listener: [waited] goes up by 10 while it is below 2000. *)
Fixpoint awaitProxy (turns : nat) : M unit :=
  match turns with
  | O => mret ()
  | S turns =>
      running ← do ProxyRunning; if (running : bool) then mret () else
      exited ← do ProxyExited; if (exited : bool) then mret () else
      _ ← do (Sleep 10); awaitProxy turns
  end.

(** [a && b] on calls *)
Definition andAlso (a b : M bool) : M bool := x ← a; if (x : bool) then b else mret false.
Definition notShutdown : M bool := s ← do ShutdownRequested; mret (negb s).

(** Which exit code the end of the loop means. *)
Definition runtimeExitCode (useWorkerDns : bool) : M Z :=
  fatal ← do FatalError;
  relayExited ← andAlso (do ProxyExited) (do InterceptorRunning);
  lost ← andAlso notShutdown (if useWorkerDns then do WorkerUnavailable else mret false);
  if (lost : bool) then mret kWorkerUnavailableExitCode else
  dnsDown ← andAlso notShutdown (if useWorkerDns then running ← do DnsRunning; mret (negb running) else mret false);
  if (dnsDown : bool) then mret kEngineFailOpenExitCode
  else if negb (fatal =? 0) then mret kEngineFailOpenExitCode
  else if (relayExited : bool) then mret kEngineFailOpenExitCode
  else mret 0.

Definition stopProxyThread : M bool := _ ← do StopProxy; do JoinProxy.

(** Interception: the exit code, or nothing while it still runs after [turns] turns. *)
Definition intercept (o : Options) (config : Config) (workerUrl : bytes) (turns : nat) : M (option Z) :=
  let useWorkerDns := bool_decide (dnsMode config = DnsWorker) in
  _ ← do (SpawnProxy (relayContext o config workerUrl) (port o) true);
  _ ← awaitProxy 200;
  running ← do ProxyRunning;
  if negb running then
    result ← stopProxyThread; mret (Some (if (result : bool) then 0 else kRelayPortInUse))
  else
  dnsUp ← (if useWorkerDns then do StartDns else mret true);
  if negb dnsUp then _ ← stopProxyThread; mret (Some kDnsRelayPortInUse) else
  started ← do (StartInterceptor (interception o config));
  if negb started then
    _ ← do StopDns; _ ← stopProxyThread; mret (Some kWinDivertOpenFailed)
  else
  _ ← do (SignalReady (readyEventName o));
  ended ← supervise useWorkerDns turns;
  if negb ended then mret None else
  code ← runtimeExitCode useWorkerDns;
  _ ← do StopInterceptor; _ ← do StopDns; _ ← stopProxyThread;
  mret (Some code).

Fixpoint awaitManual (turns : nat) : M bool :=
  shutdown ← do ShutdownRequested; if (shutdown : bool) then mret true else
  exited ← do ProxyExited; if (exited : bool) then mret true else
  match turns with
  | O => mret false
  | S turns => _ ← do (Sleep 50); awaitManual turns
  end.

Definition manualProxyMode (o : Options) (config : Config) (workerUrl : bytes) (turns : nat) : M (option Z) :=
  _ ← do (SpawnProxy (relayContext o config workerUrl) (port o) false);
  ended ← awaitManual turns;
  if negb ended then mret None else
  _ ← stopProxyThread; mret (Some 0).

(** From the configuration that is to be used to the end of the program. *)
Definition runEngine (o : Options) (config : Config) (workerUrl : bytes) (turns : nat) : M (option Z) :=
  if processIncludeInvalid config then mret (Some kInvalidProcessRules) else
  let config := overridden o config in
  _ ← do (RestoreLeftovers false);
  _ ← do StartTelemetry;
  result ← (if manualProxy o then manualProxyMode o config workerUrl turns else intercept o config workerUrl turns);
  match result with
  | None => mret None
  | Some code => _ ← do StopTelemetry; mret (Some code)
  end.

(** ** Before the engine *)

(** [if (config.migratedFromPlaintext || config.legacyApiTokenPresent)] *)
Definition migrateConfig (config : Config) : M Config :=
  if migratedFromPlaintext config || legacyApiTokenPresent config
  then let config := clearToken config in _ ← do (SaveFile config); mret config
  else mret config.

(** The configuration and the address of the Worker, after the setup that a missing Worker
    starts; [inr] is the end with that code. *)
Definition ensureWorker (o : Options) (config : Config) : M (Config * bytes + Z) :=
  let workerUrl := if bool_decide (CommandLine.workerUrl o = []) then Config.workerUrl config else CommandLine.workerUrl o in
  if bool_decide (workerUrl = []) && bool_decide (dnsMode config = DnsWorker) then
    if engine o then mret (inr kSetupRequired) else
    done ← do (RunSetup config);
    match done with None => mret (inr 1) | Some config => mret (inl (config, Config.workerUrl config)) end
  else mret (inl (config, workerUrl)).

Definition setupThen (o : Options) (config : Config) (turns : nat) : M (option Z) :=
  done ← (if setup o then do (RunSetup config) else mret (Some config));
  if setup o && setupOnly o then
    _ ← do WaitForEnter; mret (Some (match done with Some _ => 0 | None => 1 end))
  else
  match done with
  | None => mret (Some 1)
  | Some config =>
      ready ← ensureWorker o config;
      match ready with
      | inr code => mret (Some code)
      | inl (config, workerUrl) => runEngine o config workerUrl turns
      end
  end.

(** Everything between [WSAStartup] and the guard's destructor. *)
Definition withConfig (o : Options) (turns : nat) : M (option Z) :=
  config ← do LoadFile;
  if loadFailed config && negb (restoreProxy o) then mret (Some kConfigUnreadable) else
  config ← migrateConfig config;
  if restoreProxy o then restored ← do (RestoreLeftovers true); mret (Some (if (restored : bool) then 0 else 1))
  else if CommandLine.forgetToken o then
    ok ← do (SaveFile (clearToken config)); mret (Some (if (ok : bool) then 0 else 1))
  else if forgetStrategies o then _ ← do ForgetStrategies; mret (Some 0)
  else if redeploy o then
    if bool_decide (workerName config = []) then mret (Some 1)
    else ok ← do (Redeploy config); mret (Some (if (ok : bool) then 0 else 1))
  else setupThen o config turns.

(** The role of the elevated process that is not the tray. *)
Definition engineRole (o : Options) (turns : nat) : M (option Z) :=
  active ← do (OpenMonitor (shutdownEventName o) (parentPid o));
  let monitorRequested := engine o || negb (bool_decide (shutdownEventName o = [])) || negb (parentPid o =? 0) in
  if monitorRequested && negb active then _ ← do CloseMonitor; mret (Some kMonitorUnavailable) else
  wsa ← do WsaStartup;
  if negb wsa then _ ← do CloseMonitor; mret (Some 1) else
  result ← withConfig o turns;
  match result with
  | None => mret None
  | Some code => _ ← do WsaCleanup; _ ← do CloseMonitor; mret (Some code)
  end.

Definition trayRole (o : Options) : M (option Z) :=
  mutex ← do CreateInstanceMutex;
  match mutex with
  | None => mret (Some 1)
  | Some true => _ ← do CloseInstanceMutex; mret (Some 0)
  | Some false =>
      config ← do LoadFile;
      let configured := negb (bool_decide (CommandLine.workerUrl o = [])) || isValid config || loadFailed config in
      code ← do (RunTray configured);
      _ ← do CloseInstanceMutex; mret (Some code)
  end.

Definition needsElevation (o : Options) : bool :=
  negb (manualProxy o) && negb (restoreProxy o || CommandLine.forgetToken o || forgetStrategies o || redeploy o).

Definition elevate (trayMode : bool) : M (option Z) :=
  already ← (if trayMode then do TrayInstanceRunning else mret false);
  if (already : bool) then mret (Some 0) else
  code ← do (RelaunchElevated (negb trayMode));
  if code <? 0 then _ ← (if trayMode then do ErrorBox else mret ()); mret (Some 1)
  else mret (Some code).

Definition mainWith (o : Options) (turns : nat) : M (option Z) :=
  let trayMode := shouldRunTray o in
  if listStrategies o then mret (Some 0) else
  elevated ← (if needsElevation o then do IsElevated else mret true);
  if negb elevated then elevate trayMode
  else if trayMode then trayRole o
  else engineRole o turns.

Definition main (argv : list bytes) (turns : nat) : M (option Z) :=
  match parseArgs argv with
  | Exit code => mret (Some code)
  | Parsed o => mainWith o turns
  end.

(** ** What is up *)

Record Stage := mkStage {
  monitored : bool;      (* somebody watches for the shutdown *)
  wsa : bool;
  proxy : bool;          (* the thread of the proxy *)
  listening : bool;
  stopAsked : bool;
  dns : bool;
  intercepting : bool;
  unreadable : bool;     (* the configuration could not be read *)
  badScope : bool;       (* its include list is present and unusable *)
  ran : bool;            (* interception was up *)
  refusedBy : list Z;    (* the exit codes of what was refused *)
}.
Definition idle : Stage := mkStage false false false false false false false false false false [].

Definition after (s : Stage) (c : MainCall) : Reply c -> Stage :=
  let '(mkStage m w p l a d i u b r f) := s in
  match c return Reply c -> Stage with
  | OpenMonitor _ _ => λ x, mkStage x w p l a d i u b r (if (x : bool) then f else kMonitorUnavailable :: f)
  | CloseMonitor => λ _, mkStage false w p l a d i u b r f
  | WsaStartup => λ x, mkStage m x p l a d i u b r f
  | WsaCleanup => λ _, mkStage m false p l a d i u b r f
  | LoadFile => λ x, mkStage m w p l a d i (loadFailed x) (processIncludeInvalid x) r f
  | RunSetup _ => λ x, mkStage m w p l a d i u (default b (processIncludeInvalid <$> x)) r f
  | SpawnProxy _ _ _ => λ _, mkStage m w true false false d i u b r f
  | ProxyRunning => λ x, mkStage m w p x a d i u b r f
  | StopProxy => λ _, mkStage m w p false true d i u b r f
  | JoinProxy => λ x, mkStage m w false false a d i u b r (if (x : bool) then f else kRelayPortInUse :: f)
  | StartDns => λ x, mkStage m w p l a x i u b r (if (x : bool) then f else kDnsRelayPortInUse :: f)
  | StopDns => λ _, mkStage m w p l a false i u b r f
  | StartInterceptor _ => λ x, mkStage m w p l a d x u b (r || x) (if (x : bool) then f else kWinDivertOpenFailed :: f)
  | StopInterceptor => λ _, mkStage m w p l a d false u b r f
  | _ => λ _, s
  end.

(** A configuration that could not be read has its defaults. *)
Definition answers (s : Stage) (c : MainCall) : Reply c -> Prop :=
  match c return Reply c -> Prop with
  | LoadFile => λ x, loadFailed x = true -> migratedFromPlaintext x = false /\ legacyApiTokenPresent x = false
  | _ => λ _, True
  end.

(** What a file that cannot be read leaves of a new configuration. *)
Lemma load_failed_defaults dec b64 path content exists_ :
  let c := (load dec b64 path content exists_ newConfig).2 in
  loadFailed c = true -> migratedFromPlaintext c = false /\ legacyApiTokenPresent c = false.
Proof.
  unfold load. case_if; [done |]. destruct content as [json|]; [|done].
  destruct (readSecret _ _ _ _ _ _ _) as [[t m] k]. destruct (readSecret _ _ _ _ _ _ _) as [[t' m'] k']. done.
Qed.

Section Order.
Variable o : Options.

Definition legal (s : Stage) (c : MainCall) : Prop :=
  match c with
  | SpawnProxy c _ _ =>
      wsa s = true /\ proxy s = false /\ badScope s = false /\
      (* without the Worker's DNS the relay knows nothing of the Worker *)
      (withResolver c = false -> ctxWorkerUrl c = [] /\ ctxSharedSecret c = [] /\ ctxTunnelFallback c = false)
  | StartDns => listening s = true
  | StartInterceptor i =>
      listening s = true /\ intercepting s = false /\ badScope s = false /\ (captureDns i = true -> dns s = true) /\
      (engine o = true -> monitored s = true) /\ dnsPort i = dnsProxyPort (proxyPort i) /\ connectFrom i = connectPort (proxyPort i)
  | SignalReady _ | StopInterceptor => intercepting s = true
  | StopProxy => proxy s = true /\ intercepting s = false
  | JoinProxy => proxy s = true /\ stopAsked s = true
  | StopDns => intercepting s = false
  | WsaCleanup => wsa s = true /\ proxy s = false /\ dns s = false /\ intercepting s = false
  | SaveFile _ | RunSetup _ | Redeploy _ => unreadable s = false
  | _ => True
  end.

Notation wpm := (wps legal answers after).

(** Calls that only ask. *)
Definition asks (c : MainCall) : bool :=
  match c with
  | ProxyExited | DnsRunning | InterceptorRunning | FatalError | ShutdownRequested | WorkerUnavailable | Sleep _
  | RestoreLeftovers _ | ForgetStrategies | WaitForEnter | StartTelemetry | StopTelemetry
  | IsElevated | TrayInstanceRunning | RelaunchElevated _ | ErrorBox | CreateInstanceMutex | CloseInstanceMutex | RunTray _ => true
  | _ => false
  end.
Lemma wp_ask {A} c (k : Reply c -> M A) s Q : asks c = true -> (forall r, wpm (k r) s Q) -> wpm (do c ≫= k) s Q.
Proof. intros Hc Hk. apply wps_do; [by destruct c |]. intros r _. destruct s, c; try done; apply Hk. Qed.
Lemma wp_ask1 c s Q : asks c = true -> (forall r, Q r s) -> wpm (do c) s Q.
Proof. intros Hc Hk. split; [by destruct c |]. intros r _. destruct s, c; try done; apply Hk. Qed.

Ltac ask := first [ apply wp_ask; [reflexivity | intros ?] | apply wp_ask1; [reflexivity | intros ?] ].

Lemma wp_keepRunning useWorkerDns s (Q : bool -> Stage -> Prop) : (forall b, Q b s) -> wpm (keepRunning useWorkerDns) s Q.
Proof.
  intros HQ. unfold keepRunning. ask. destruct r; [apply HQ |]. ask. destruct r; [apply HQ |]. ask. case_if; [apply HQ |].
  case_if; [apply HQ |]. ask. case_if; [apply HQ |]. ask. apply HQ.
Qed.

Lemma wp_supervise useWorkerDns turns s Q : (forall b, Q b s) -> wpm (supervise useWorkerDns turns) s Q.
Proof.
  intros HQ. induction turns as [|turns IH]; cbn [supervise]; (apply wps_bind, wp_keepRunning; intros b; case_if; [apply HQ |]).
  - apply HQ.
  - ask. apply IH.
Qed.

(** The proxy's thread runs and may listen. *)
Definition spawned (m l : bool) (f : list Z) : Stage := mkStage m true true l false false false false false false f.

Lemma wp_awaitProxy turns m l f Q : (forall l, Q tt (spawned m l f)) -> wpm (awaitProxy turns) (spawned m l f) Q.
Proof.
  intros HQ. revert l. induction turns as [|turns IH]; intros l; cbn [awaitProxy]; [apply HQ |].
  apply wps_do; [done |]. intros running _. cbn [after spawned]. destruct running; [apply HQ |].
  ask. destruct r; [apply HQ |]. ask. apply IH.
Qed.

(** Programs that change nothing. *)
Definition quiet (p : M bool) : Prop := forall s (Q : bool -> Stage -> Prop), (forall b, Q b s) -> wpm p s Q.

Lemma quiet_ret b : quiet (mret b).
Proof. intros s Q HQ. apply HQ. Qed.
Lemma quiet_andAlso a b : quiet a -> quiet b -> quiet (andAlso a b).
Proof. intros Ha Hb s Q HQ. apply wps_bind, Ha. intros []; [by apply Hb | apply HQ]. Qed.
Lemma quiet_ask c (f : Reply c -> bool) : asks c = true -> quiet (x ← do c; mret (f x)).
Proof. intros Hc s Q HQ. apply wp_ask; [done |]. intros r. apply HQ. Qed.
Lemma quiet_if (b : bool) p q : quiet p -> quiet q -> quiet (if b then p else q).
Proof. by destruct b. Qed.

Definition runtimeCodes : list Z := [0; kEngineFailOpenExitCode; kWorkerUnavailableExitCode].

Lemma wp_runtimeExitCode useWorkerDns s (Q : Z -> Stage -> Prop) :
  (forall code, code ∈ runtimeCodes -> Q code s) -> wpm (runtimeExitCode useWorkerDns) s Q.
Proof.
  intros HQ. assert (H0 := HQ 0 ltac:(set_solver)). assert (H2 := HQ kEngineFailOpenExitCode ltac:(set_solver)).
  assert (H3 := HQ kWorkerUnavailableExitCode ltac:(set_solver)). clear HQ.
  unfold runtimeExitCode. ask. rename r into fatal.
  apply wps_bind, quiet_andAlso; [intros s' Q' HQ'; by apply (wp_ask1 ProxyExited) | intros s' Q' HQ'; by apply (wp_ask1 InterceptorRunning) |]. intros relay.
  apply wps_bind, quiet_andAlso; [by apply quiet_ask | apply quiet_if; [intros s' Q' HQ'; by apply (wp_ask1 WorkerUnavailable) | apply quiet_ret] |].
  intros [|]; [exact H3 |].
  apply wps_bind, quiet_andAlso; [by apply quiet_ask | apply quiet_if; [by apply quiet_ask | apply quiet_ret] |].
  intros [|]; [exact H2 |]. destruct (negb _); [exact H2 |]. by destruct relay.
Qed.

(** The component with that exit code refused to start. *)
Definition refused (code : Z) (s : Stage) : bool := existsb (Z.eqb code) (refusedBy s).

(** What the exit code of a run says of it. *)
Definition tells (code : Z) (s : Stage) : Prop :=
  (code = kWinDivertOpenFailed <-> refused kWinDivertOpenFailed s = true) /\
  (code = kDnsRelayPortInUse <-> refused kDnsRelayPortInUse s = true) /\
  (code = kRelayPortInUse -> refused kRelayPortInUse s = true) /\
  (code = kEngineFailOpenExitCode \/ code = kWorkerUnavailableExitCode -> ran s = true) /\
  (ran s = true -> code ∈ runtimeCodes) /\
  (code = kConfigUnreadable -> unreadable s = true) /\
  (unreadable s = true -> code = kConfigUnreadable \/ restoreProxy o = true).

(** A run that has ended left nothing up. *)
Definition over (m : bool) (result : option Z) (s : Stage) : Prop :=
  match result with
  | None => True
  | Some code =>
      proxy s = false /\ dns s = false /\ intercepting s = false /\ wsa s = true /\ monitored s = m /\
      code <> kMonitorUnavailable /\ refused kMonitorUnavailable s = negb m /\ tells code s
  end.

(** What was refused before the engine: at most the monitor. *)
Definition before (m : bool) : list Z := if m then [] else [kMonitorUnavailable].

(** Nothing is up but Winsock; the configuration was read. *)
Definition settled (b m l a : bool) : Stage := mkStage m true false l a false false false b false (before m).
Definition rest : bool -> bool -> bool -> Stage := settled false.

Lemma wp_stopProxyThread m l d f r b0 Q :
  (forall x : bool, Q x (mkStage m true false false true d false false b0 r (if x then f else kRelayPortInUse :: f))) ->
  wpm stopProxyThread (mkStage m true true l false d false false b0 r f) Q.
Proof.
  intros HQ. apply wps_do; [done |]. intros [] _. split; [done |]. intros x _. apply HQ.
Qed.

(** The codes and the stages are concrete: [tells] and [over] are decided by evaluation. *)
Ltac tells_tac m :=
  unfold tells; split_and!; try (split; intros H; revert H; first [done | by destruct m]);
  intros H; first [ done | by destruct m | by destruct H | cbn in H; discriminate H | by right | unfold runtimeCodes; set_solver ].
Ltac over_tac m := split_and!; try reflexivity; try discriminate; try (by destruct m); tells_tac m.

Lemma wp_intercept config url turns m l a :
  (engine o = true -> m = true) -> wpm (intercept o config url turns) (rest m l a) (over m).
Proof.
  intros Hm. unfold intercept. cbv zeta. set (w := bool_decide _).
  apply wps_do.
  { split_and!; try done. cbn. fold w. intros Hw. by destruct w. }
  intros [] _. cbn [after rest settled]. apply wps_bind. apply wp_awaitProxy with (l := false). intros l1.
  apply wps_do; [done |]. intros running _. cbn [after spawned]. destruct running; cbn [negb].
  2: { apply wps_bind, wp_stopProxyThread. intros []; over_tac m. }
  apply wps_bind.
  assert (Hdns : forall Q : bool -> Stage -> Prop,
    Q true (mkStage m true true true false w false false false false (before m)) ->
    (w = true -> Q false (mkStage m true true true false false false false false false (kDnsRelayPortInUse :: before m))) ->
    wpm (if w then do StartDns else mret true) (spawned m true (before m)) Q).
  { intros Q H1 H2. destruct w; [|done]. split; [done |]. intros [] _; [done | by apply H2]. }
  apply Hdns; cbn [negb].
  2: { intros _. apply wps_bind, wp_stopProxyThread. intros []; over_tac m. }
  apply wps_do; [by split_and! |]. intros started _. cbn [after orb]. destruct started; cbn [negb].
  2: { apply wps_do; [done |]. intros [] _. cbn [after]. apply wps_bind, wp_stopProxyThread. intros []; over_tac m. }
  apply wps_do; [done |]. intros [] _. cbn [after]. apply wps_bind, wp_supervise. intros [|]; [cbn [negb] | done].
  apply wps_bind, wp_runtimeExitCode. intros code Hcode. do 2 (apply wps_do; [done |]; intros [] _; cbn [after]).
  apply wps_bind, wp_stopProxyThread. unfold runtimeCodes in Hcode. rewrite !elem_of_cons in Hcode.
  intros x. destruct Hcode as [->|[->|[->|[]%elem_of_nil]]]; destruct x; over_tac m.
Qed.

Lemma wp_manualProxyMode config url turns m l a :
  wpm (manualProxyMode o config url turns) (rest m l a) (over m).
Proof.
  unfold manualProxyMode. apply wps_do.
  { split_and!; try done. cbn. intros Hw. by rewrite Hw. }
  intros [] _. cbn [after rest settled]. apply wps_bind.
  assert (Hwait : forall Q : bool -> Stage -> Prop, (forall b, Q b (spawned m false (before m))) ->
    wpm (awaitManual turns) (spawned m false (before m)) Q).
  { intros Q HQ. induction turns as [|n IH]; cbn [awaitManual]; ask; (destruct r; [apply HQ |]); ask; (destruct r; [apply HQ |]).
    - apply HQ.
    - ask. apply IH. }
  apply Hwait. intros [|]; [cbn [negb] | done]. apply wps_bind, wp_stopProxyThread. intros []; over_tac m.
Qed.

Lemma wp_runEngine config url turns m l a :
  (engine o = true -> m = true) ->
  wpm (runEngine o config url turns) (settled (processIncludeInvalid config) m l a) (over m).
Proof.
  intros Hm. unfold runEngine. destruct (processIncludeInvalid config) eqn:Eb; [over_tac m |]. ask. ask.
  apply wps_bind. eapply wps_mono with (Q := over m).
  { case_if; [apply wp_manualProxyMode | by apply wp_intercept]. }
  intros [code|] s Hs; [|done]. by ask.
Qed.

Lemma over_plain code b m l a : code = 0 \/ code = 1 \/ code = kSetupRequired -> over m (Some code) (settled b m l a).
Proof. intros [->|[->| ->]]; over_tac m. Qed.

Lemma wp_setupThen config turns m l a :
  (engine o = true -> m = true) ->
  wpm (setupThen o config turns) (settled (processIncludeInvalid config) m l a) (over m).
Proof.
  intros Hm. pose proof (λ c url, wp_runEngine c url turns m l a Hm) as Hrun. clear Hm. unfold setupThen. apply wps_bind.
  assert (Hgo : forall config, wpm (ready ← ensureWorker o config;
      match ready with inr code => mret (Some code) | inl (config, url) => runEngine o config url turns end)
    (settled (processIncludeInvalid config) m l a) (over m)).
  { intros c. unfold ensureWorker. case_if; [|exact (Hrun _ _)]. case_if; [apply (over_plain kSetupRequired); auto |].
    apply wps_bind, wps_do; [done |]. intros [c'|] _; [exact (Hrun _ _) | apply (over_plain 1); auto]. }
  assert (Hend : forall x b, wpm (if setup o && setupOnly o
      then _ ← do WaitForEnter; mret (Some (match x with Some _ => 0 | None => 1 end))
      else match x with
           | None => mret (Some 1)
           | Some config => ready ← ensureWorker o config;
               match ready with inr code => mret (Some code) | inl (config, url) => runEngine o config url turns end
           end) (settled (default b (processIncludeInvalid <$> x)) m l a) (over m)).
  { intros x b. case_if; [ask; apply over_plain; case_match; auto |]. destruct x; [apply Hgo | apply over_plain; auto]. }
  case_if; [|apply (Hend (Some config) false)]. split; [done |]. intros x _. apply Hend.
Qed.

(** What the ledger says once the configuration was asked for. *)
Definition asked (u b m : bool) : Stage := mkStage m true false false false false false u b false (before m).

Lemma over_restored code b u m : restoreProxy o = true -> code = 0 \/ code = 1 -> over m (Some code) (asked u b m).
Proof.
  intros Hr [-> | ->]; over_tac m.
Qed.

Lemma wp_withConfig turns m :
  (engine o = true -> m = true) -> wpm (withConfig o turns) (mkStage m true false false false false false false false false (before m)) (over m).
Proof.
  intros Hm. pose proof (λ c, wp_setupThen c turns m false false Hm) as Hsetup. clear Hm.
  unfold withConfig. apply wps_do; [done |]. intros config Hload. cbn [after].
  change (mkStage m true false false false false false (loadFailed config) (processIncludeInvalid config) false (before m))
    with (asked (loadFailed config) (processIncludeInvalid config) m).
  destruct (restoreProxy o) eqn:Er; cbn [negb].
  - rewrite andb_false_r. apply wps_bind. unfold migrateConfig. destruct (loadFailed config) eqn:Ef.
    + destruct (Hload Ef) as [-> ->]. cbn [orb]. ask. apply over_restored; [done |]. destruct r; auto.
    + case_if; [apply wps_do; [done |]; intros ok _ |]; ask; apply over_restored; auto; destruct r; auto.
  - rewrite andb_true_r. destruct (loadFailed config) eqn:Ef; [over_tac m |].
    assert (Hrest : forall c, wpm (if CommandLine.forgetToken o then
          ok ← do (SaveFile (clearToken c)); mret (Some (if (ok : bool) then 0 else 1))
        else if forgetStrategies o then _ ← do ForgetStrategies; mret (Some 0)
        else if redeploy o then
          if bool_decide (workerName c = []) then mret (Some 1)
          else ok ← do (Redeploy c); mret (Some (if (ok : bool) then 0 else 1))
        else setupThen o c turns) (settled (processIncludeInvalid c) m false false) (over m)).
    { intros c. repeat case_if; try (ask; apply over_plain; auto); try (apply (over_plain 1); auto); try apply Hsetup.
      all: apply wps_do; [done |]; intros [] _; apply over_plain; auto. }
    apply wps_bind. unfold migrateConfig. case_if; [|apply Hrest].
    apply wps_do; [done |]. intros ok _. apply (Hrest (clearToken config)).
Qed.

(** The end of a role: nothing is up, and the code says why. *)
Definition ended (result : option Z) (s : Stage) : Prop :=
  match result with
  | None => True
  | Some code =>
      proxy s = false /\ dns s = false /\ intercepting s = false /\ wsa s = false /\ monitored s = false /\ tells code s /\
      (code = kMonitorUnavailable -> refused kMonitorUnavailable s = true) /\
      (engine o = true -> refused kMonitorUnavailable s = true -> code = kMonitorUnavailable)
  end.

Lemma tells_same code s s' :
  tells code s -> refusedBy s' = refusedBy s -> ran s' = ran s -> unreadable s' = unreadable s -> tells code s'.
Proof. unfold tells, refused. by intros H -> -> ->. Qed.

Lemma wp_engineRole turns : wpm (engineRole o turns) idle ended.
Proof.
  unfold engineRole. apply wps_do; [done |]. intros active _. cbn [after idle]. case_if.
  { apply wps_do; [done |]. intros [] _. destruct active; [by rewrite andb_false_r in E |]. split_and!; try done. tells_tac E. }
  assert (Hm : engine o = true -> active = true).
  { intros He. rewrite He in E. by destruct active. }
  apply wps_do; [done |]. intros wsa _. cbn [after]. destruct wsa; cbn [negb].
  - apply wps_bind. eapply wps_mono; [apply (wp_withConfig turns active Hm) |].
    intros [code|] s H; [|done]. destruct H as (H1 & H2 & H3 & H4 & H5 & Hne & H6 & H7).
    apply wps_do; [done |]. intros [] _. apply wps_do; [by destruct s |]. intros [] _. destruct s; cbn in *. subst.
    do 5 (split; [done |]). split; [eapply tells_same; [exact H7 | done..] |]. split; [done |].
    intros He Hr. rewrite (Hm He) in H6. destruct (eq_true_false_abs _ Hr H6).
  - apply wps_do; [done |]. intros [] _. cbn [after]. split_and!; try done; [tells_tac active |].
    intros He. by rewrite (Hm He).
Qed.

(** The roles that are not the engine touch nothing of it. *)
Definition aside (s : Stage) : Prop :=
  proxy s = false /\ dns s = false /\ intercepting s = false /\ wsa s = false /\ monitored s = false.

Lemma wp_trayRole : wpm (trayRole o) idle (λ _ s, aside s).
Proof.
  unfold trayRole. ask. destruct r as [[|]|]; [by ask | | done].
  apply wps_do; [done |]. intros config _. cbn [after idle]. ask. by ask.
Qed.

Lemma wp_elevate trayMode : wpm (elevate trayMode) idle (λ _ s, aside s).
Proof.
  unfold elevate. apply wps_bind. assert (H : quiet (if trayMode then do TrayInstanceRunning else mret false)).
  { apply quiet_if; [intros s Q HQ; by apply (wp_ask1 TrayInstanceRunning) | apply quiet_ret]. }
  apply H. intros []; [done |]. ask. case_if; [|done]. destruct trayMode; [by ask | done].
Qed.

Lemma wp_mainWith turns : wpm (mainWith o turns) idle (λ result s, match result with None => True | Some _ => aside s end).
Proof.
  unfold mainWith. cbv zeta. case_if; [done |]. apply wps_bind.
  assert (H : quiet (if needsElevation o then do IsElevated else mret true)).
  { apply quiet_if; [intros s Q HQ; by apply (wp_ask1 IsElevated) | apply quiet_ret]. }
  apply H. intros elevated. case_if; [eapply wps_mono; [apply wp_elevate |]; intros [] s; tauto |].
  case_if; [eapply wps_mono; [apply wp_trayRole |]; intros [] s; tauto |].
  eapply wps_mono; [apply wp_engineRole |]. intros [code|] s; [|done]. intros (H1 & H2 & H3 & H4 & H5 & _). done.
Qed.
End Order.

Lemma wp_main argv turns o :
  parseArgs argv = Parsed o ->
  wps (legal o) answers after (main argv turns) idle (λ result s, match result with None => True | Some _ => aside s end).
Proof. intros H. unfold main. rewrite H. apply wp_mainWith. Qed.

(** ** The exit code of the engine *)

(** What the program was last told by the components it supervises; the request to stop is
    never taken back. *)
Record News := mkNews {
  toldToStop : bool; relayGone : bool; filtering : bool; dnsGone : bool; workerGone : bool; fatalError : Z;
}.
(** What was refused, the configuration, whether traffic was intercepted, and the news. *)
Record Story := mkStory {
  noMonitor : bool; noWinsock : bool; loaded : option Config; noRelay : bool; noDns : bool; noDriver_ : bool; wasUp : bool; news : News;
}.
Definition noNews : News := mkNews false false false false false 0.
Definition noStory : Story := mkStory false false None false false false false noNews.

Definition note (s : Story) (c : MainCall) : Reply c -> Story :=
  let 'mkStory nm nw l nr nd nv up (mkNews stop gone fil dns wk fatal as n) := s in
  match c return Reply c -> Story with
  | OpenMonitor _ _ => λ x, mkStory (negb x) nw l nr nd nv up n
  | WsaStartup => λ x, mkStory nm (negb x) l nr nd nv up n
  | LoadFile => λ x, mkStory nm nw (Some x) nr nd nv up n
  | JoinProxy => λ x, mkStory nm nw l (negb x) nd nv up n
  | StartDns => λ x, mkStory nm nw l nr (negb x) nv up n
  | StartInterceptor _ => λ x, mkStory nm nw l nr nd (negb x) x n
  | ShutdownRequested => λ x, mkStory nm nw l nr nd nv up (mkNews (stop || x) gone fil dns wk fatal)
  | ProxyExited => λ x, mkStory nm nw l nr nd nv up (mkNews stop x fil dns wk fatal)
  | InterceptorRunning => λ x, mkStory nm nw l nr nd nv up (mkNews stop gone x dns wk fatal)
  | DnsRunning => λ x, mkStory nm nw l nr nd nv up (mkNews stop gone fil (negb x) wk fatal)
  | WorkerUnavailable => λ x, mkStory nm nw l nr nd nv up (mkNews stop gone fil dns x fatal)
  | FatalError => λ x, mkStory nm nw l nr nd nv up (mkNews stop gone fil dns wk x)
  | _ => λ _, s
  end.
(** [g_shutdownRequested] is only ever set. *)
Definition steady (s : Story) (c : MainCall) : Reply c -> Prop :=
  match c return Reply c -> Prop with ShutdownRequested => λ x, toldToStop (news s) = true -> x = true | _ => λ _, True end.
Definition anything (s : Story) (c : MainCall) : Prop := True.
Notation wpn := (wps anything steady note).

(** The engine as the tray starts it. *)
Definition serves (o : Options) : bool :=
  engine o && negb (restoreProxy o || CommandLine.forgetToken o || forgetStrategies o || redeploy o || setup o || manualProxy o).
(** There is no Worker to ask for names. *)
Definition workerMissing (o : Options) (c : Config) : bool :=
  bool_decide (CommandLine.workerUrl o = []) && bool_decide (Config.workerUrl c = []) && bool_decide (dnsMode c = DnsWorker).

(** After interception: the Worker first, unless the user stopped the engine; then anything
    else that failed; a clean end otherwise. *)
Definition newsCode (n : News) : Z :=
  if negb (toldToStop n) && workerGone n then kWorkerUnavailableExitCode
  else if negb (toldToStop n) && dnsGone n || negb (fatalError n =? 0) || relayGone n && filtering n then kEngineFailOpenExitCode
  else 0.
(** The code a story ends with: the first thing that was missing, in the order in which the
    engine needs them. *)
Definition storyCode (o : Options) (s : Story) : Z :=
  if noMonitor s then kMonitorUnavailable
  else if noWinsock s then 1
  else match loaded s with
  | None => 1
  | Some c =>
      if loadFailed c then kConfigUnreadable
      else if workerMissing o c then kSetupRequired
      else if processIncludeInvalid c then kInvalidProcessRules
      else if noDns s then kDnsRelayPortInUse
      else if noDriver_ s then kWinDivertOpenFailed
      else if wasUp s then newsCode (news s)
      else if noRelay s then kRelayPortInUse
      else 0
  end.

(** Without the Worker's DNS nobody asks for it. *)
Definition quietDns (w : bool) (n : News) : Prop := w = false -> dnsGone n = false /\ workerGone n = false.

Section Codes.
Variable o : Options.

(** A configuration was loaded, and these were refused. *)
Definition told (c : Config) (nr nd nv up : bool) (n : News) : Story := mkStory false false (Some c) nr nd nv up n.

Lemma wpn_do {A} c (k : Reply c -> M A) s Q : (forall r, steady s c r -> wpn (k r) (note s c r) Q) -> wpn (do c ≫= k) s Q.
Proof. intros Hk. by split. Qed.

Lemma wpn_keepRunning w c nr nd nv up n (Q : bool -> Story -> Prop) :
  quietDns w n -> (forall b n', quietDns w n' -> Q b (told c nr nd nv up n')) -> wpn (keepRunning w) (told c nr nd nv up n) Q.
Proof.
  intros Hq HQ. destruct n as [stop gone fil dns wk fatal]. unfold keepRunning.
  apply wpn_do. intros [|] _; cbn [note told]; [by apply HQ |]. apply wpn_do. intros [|] _; cbn [note told]; [by apply HQ |].
  apply wpn_do. intros [|] _; cbn [note told negb]; [|by apply HQ]. destruct w; cbn [negb]; [|by apply HQ].
  apply wpn_do. intros [|] _; cbn [note told negb]; [|by apply HQ]. apply wpn_do. intros r _. by apply HQ.
Qed.

Lemma wpn_supervise w turns c nr nd nv up n (Q : bool -> Story -> Prop) :
  quietDns w n -> (forall b n', quietDns w n' -> Q b (told c nr nd nv up n')) -> wpn (supervise w turns) (told c nr nd nv up n) Q.
Proof.
  intros Hq HQ. revert n Hq. induction turns as [|turns IH]; intros n Hq; cbn [supervise];
    (apply wps_bind, wpn_keepRunning; [done |]; intros [|] n' Hq'; cbn [negb]; [|by apply HQ]).
  - by apply HQ.
  - apply wpn_do. intros r _. destruct n'. by apply IH.
Qed.

Lemma wpn_awaitProxy turns c nr nd nv up n (Q : unit -> Story -> Prop) w :
  quietDns w n -> (forall n', quietDns w n' -> Q tt (told c nr nd nv up n')) -> wpn (awaitProxy turns) (told c nr nd nv up n) Q.
Proof.
  intros Hq HQ. revert n Hq. induction turns as [|turns IH]; intros n Hq; cbn [awaitProxy]; [by apply HQ |]. destruct n as [stop gone fil dns wk fatal].
  apply wpn_do. intros [|] _; cbn [note told]; [by apply HQ |]. apply wpn_do. intros [|] _; cbn [note told]; [by apply HQ |].
  apply wpn_do. intros r _. by apply IH.
Qed.

(** The code after interception is the one the last news call for. *)
Lemma wpn_runtimeExitCode w c nr nd nv up n (Q : Z -> Story -> Prop) :
  quietDns w n -> (forall n', Q (newsCode n') (told c nr nd nv up n')) -> wpn (runtimeExitCode w) (told c nr nd nv up n) Q.
Proof.
  intros Hq HQ. destruct n as [stop gone fil dns wk fatal0]. unfold runtimeExitCode. apply wpn_do. intros fatal _. cbn [note told].
  assert (Hmain : forall gone fil, wpn (lost ← andAlso notShutdown (if w then do WorkerUnavailable else mret false);
      if (lost : bool) then mret kWorkerUnavailableExitCode else
      dnsDown ← andAlso notShutdown (if w then running ← do DnsRunning; mret (negb running) else mret false);
      if (dnsDown : bool) then mret kEngineFailOpenExitCode
      else if negb (fatal =? 0) then mret kEngineFailOpenExitCode
      else if (gone && fil : bool) then mret kEngineFailOpenExitCode
      else mret 0) (told c nr nd nv up (mkNews stop gone fil dns wk fatal)) Q).
  { intros gone1 fil1.
    assert (Hend : forall dnsDown stop' dns' wk', negb stop' && wk' = false -> dnsDown = negb stop' && dns' ->
      wpn (if (dnsDown : bool) then mret kEngineFailOpenExitCode else if negb (fatal =? 0) then mret kEngineFailOpenExitCode
           else if (gone1 && fil1 : bool) then mret kEngineFailOpenExitCode else mret 0) (told c nr nd nv up (mkNews stop' gone1 fil1 dns' wk' fatal)) Q).
    { intros dnsDown stop' dns' wk' Hw Hd. pose proof (HQ (mkNews stop' gone1 fil1 dns' wk' fatal)) as H. unfold newsCode in H.
      cbn [toldToStop workerGone dnsGone fatalError relayGone filtering] in H. rewrite Hw, <- Hd in H.
      destruct dnsDown; [exact H |]. destruct (negb (fatal =? 0)); [exact H |]. by destruct (gone1 && fil1). }
    apply wps_bind, wps_bind, wpn_do. intros x Hx. cbn [note told mret main_ret wps]. cbn [steady news told toldToStop] in Hx.
    assert (Hsx : stop || x = x) by (destruct stop; [by rewrite Hx | done]). rewrite Hsx.
    destruct w; destruct x; cbn [negb].
    - cbn [wps mret main_ret]. apply wps_bind, wps_bind, wpn_do. intros y Hy. cbn [note told mret main_ret wps]. cbn [steady news told toldToStop] in Hy.
      rewrite (Hy eq_refl). cbn [negb orb wps]. by apply Hend.
    - split; [done |]. intros lost _. cbn [note told wps]. destruct lost.
      { pose proof (HQ (mkNews false gone1 fil1 dns true fatal)) as H. exact H. }
      apply wps_bind, wps_bind, wpn_do. intros y _. cbn [note told mret main_ret wps orb]. destruct y; cbn [negb].
      + by apply Hend.
      + apply wpn_do. intros running _. cbn [note told wps mret main_ret]. by apply Hend.
    - destruct (Hq eq_refl) as [Hd Hw]. cbn in Hd, Hw. subst dns wk. cbn [wps mret main_ret]. apply wps_bind, wps_bind, wpn_do. intros y _.
      cbn [note told mret main_ret wps]. destruct (negb y); apply Hend; by rewrite ?andb_false_r.
    - destruct (Hq eq_refl) as [Hd Hw]. cbn in Hd, Hw. subst dns wk. cbn [wps mret main_ret]. apply wps_bind, wps_bind, wpn_do. intros y _.
      cbn [note told mret main_ret wps]. destruct (negb y); apply Hend; by rewrite ?andb_false_r. }
  apply wps_bind. unfold andAlso at 1. apply wpn_do. intros [|] _; cbn [note told].
  - split; [done |]. intros fil' _. cbn [note told]. exact (Hmain true fil').
  - exact (Hmain false fil).
Qed.

Definition asStory (r : option Z) (s : Story) : Prop := forall code, r = Some code -> code = storyCode o s.

Lemma wpn_stopProxy nm nw l nr nd nv up n (Q : bool -> Story -> Prop) :
  (forall x : bool, Q x (mkStory nm nw l (negb x) nd nv up n)) -> wpn stopProxyThread (mkStory nm nw l nr nd nv up n) Q.
Proof. intros HQ. destruct n. apply wpn_do. intros [] _. cbn [note]. split; [done |]. intros x _. apply HQ. Qed.

Lemma wpn_intercept c config url turns :
  loadFailed c = false -> workerMissing o c = false -> processIncludeInvalid c = false ->
  wpn (intercept o config url turns) (told c false false false false noNews) asStory.
Proof.
  intros H1 H2 H3.
  assert (Hcode : forall nr nd nv up n, storyCode o (told c nr nd nv up n) =
    if nd then kDnsRelayPortInUse else if nv then kWinDivertOpenFailed else if up then newsCode n else if nr then kRelayPortInUse else 0)
    by (intros; unfold storyCode; cbn [noMonitor noWinsock loaded told noDns noDriver_ wasUp news noRelay]; by rewrite H1, H2, H3).
  unfold intercept. cbv zeta. set (w := bool_decide _). apply wpn_do. intros [] _. cbn [note told noNews].
  apply wps_bind, (wpn_awaitProxy _ c false false false false noNews _ w); [by intros ? |]. intros n Hq. destruct n as [stop gone fil dns wk fatal].
  apply wpn_do. intros running _. cbn [note told]. destruct running; cbn [negb].
  2: { apply wps_bind, wpn_stopProxy. intros x code [= <-]. symmetry. etransitivity; [apply Hcode |]. by destruct x. }
  apply wps_bind.
  assert (Hdns : forall Q : bool -> Story -> Prop,
    (forall b, (b = false -> w = true) -> Q b (told c false (negb b) false false (mkNews stop gone fil dns wk fatal))) ->
    wpn (if w then do StartDns else mret true) (told c false false false false (mkNews stop gone fil dns wk fatal)) Q).
  { intros Q HQ. destruct w; [|by apply (HQ true)]. split; [done |]. intros r _. by apply (HQ r). }
  apply Hdns. intros [|] _; cbn [negb].
  2: { apply wps_bind, wpn_stopProxy. intros x code [= <-]. symmetry. by etransitivity; [apply Hcode |]. }
  apply wpn_do. intros started _. cbn [note told]. destruct started; cbn [negb].
  2: { apply wpn_do. intros [] _. cbn [note]. apply wps_bind, wpn_stopProxy. intros x code [= <-]. symmetry. by etransitivity; [apply Hcode |]. }
  apply wpn_do. intros [] _. cbn [note]. apply wps_bind, (wpn_supervise w turns c false false false true); [done |]. intros [|] n' Hq'; cbn [negb]; [|done].
  apply wps_bind, (wpn_runtimeExitCode w c false false false true n'); [done |]. intros n2.
  destruct n2 as [stop2 gone2 fil2 dns2 wk2 fatal2]. do 2 (apply wpn_do; intros [] _; cbn [note told]).
  apply wps_bind, wpn_stopProxy. intros x code [= <-]. symmetry. by etransitivity; [apply Hcode |].
Qed.

Lemma wpn_engineRole turns : serves o = true -> wpn (engineRole o turns) noStory asStory.
Proof.
  unfold serves. rewrite andb_true_iff, negb_true_iff, !orb_false_iff. intros (He & (((((Hr & Hf) & Hg) & Hd) & Hs) & Hm)).
  unfold engineRole. rewrite He. cbn [orb andb]. apply wpn_do. intros [|] _; cbn [note noStory noNews negb].
  2: { apply wpn_do. intros [] _. by intros code [= <-]. }
  apply wpn_do. intros [|] _; cbn [note negb].
  2: { apply wpn_do. intros [] _. by intros code [= <-]. }
  assert (Hend : forall code s, code = storyCode o s -> wpn (_ ← do WsaCleanup; _ ← do CloseMonitor; mret (Some code)) s asStory).
  { intros code [] ->. apply wpn_do. intros [] _. apply wpn_do. intros [] _. destruct news0. by intros code [= <-]. }
  apply wps_bind. eapply wps_mono with (Q := asStory); [|intros [code|] s Hc; [by apply Hend, Hc | by intros code]].
  unfold withConfig. apply wpn_do. intros c _. cbn [note]. fold noNews. fold (told c false false false false noNews). rewrite Hr. cbn [negb]. rewrite andb_true_r.
  assert (Hcode : storyCode o (told c false false false false noNews) =
    if loadFailed c then kConfigUnreadable else if workerMissing o c then kSetupRequired else if processIncludeInvalid c then kInvalidProcessRules else 0) by done.
  destruct (loadFailed c) eqn:El; [intros code [= <-]; symmetry; exact Hcode |].
  assert (Hrest : forall c', Config.workerUrl c' = Config.workerUrl c -> dnsMode c' = dnsMode c -> processIncludeInvalid c' = processIncludeInvalid c ->
    wpn (setupThen o c' turns) (told c false false false false noNews) asStory).
  { intros c' E1 E2 E3. unfold setupThen. rewrite Hs. cbn [andb mbind main_bind sys_bind mret main_ret]. unfold ensureWorker. rewrite He, E1, E2.
    assert (Hurl : bool_decide ((if bool_decide (CommandLine.workerUrl o = []) then Config.workerUrl c else CommandLine.workerUrl o) = []) =
      bool_decide (CommandLine.workerUrl o = []) && bool_decide (Config.workerUrl c = [])) by (destruct (bool_decide_reflect (CommandLine.workerUrl o = [])); [done | by rewrite bool_decide_false]).
    rewrite Hurl. change (_ && _ && _) with (workerMissing o c). destruct (workerMissing o c) eqn:Ew; [intros code [= <-]; symmetry; exact Hcode |].
    cbn [mbind main_bind sys_bind mret main_ret]. unfold runEngine. rewrite E3. destruct (processIncludeInvalid c) eqn:Ei; [intros code [= <-]; symmetry; exact Hcode |].
    apply wpn_do. intros x _. cbn [note told noNews]. apply wpn_do. intros y _. cbn [note]. rewrite Hm. fold noNews. fold (told c false false false false noNews).
    apply wps_bind. eapply wps_mono; [by apply wpn_intercept |]. intros [code|] s Hc; [|by intros code]. apply wpn_do. intros [] _.
    destruct s as [? ? ? ? ? ? ? []]. exact Hc. }
  apply wps_bind. unfold migrateConfig. rewrite Hf, Hg, Hd. case_if; [|by apply Hrest]. apply wpn_do. intros x _. cbn [note told noNews]. by apply (Hrest (clearToken c)).
Qed.
End Codes.

(** The history of a run of a program from nothing, and what is up after it. *)
Definition run {A} (oracle : Oracle Reply) (p : M A) : A * list (Event Reply) := play oracle p [].
Definition stage (history : list (Event Reply)) : Stage := ledger after idle history.

(** C21: Whatever the command line says and whatever the system answers, the program uses
    its components in order: traffic is intercepted only while the proxy listens (and the
    DNS relay answers, if DNS is captured), only with a usable process scope, and in the
    tray's engine only while somebody can stop it; a listener goes down only after
    interception; a configuration that could not be read is never written over; without the
    Worker's DNS the relay is given nothing of the Worker; and when the program returns,
    nothing is up: no interception, no listener, no monitor, no Winsock. *)
Theorem main_order argv turns o oracle :
  parseArgs argv = Parsed o -> honest answers after idle oracle ->
  let '(result, history) := run oracle (main argv turns) in
  all_legal (legal o) after idle history /\ (is_Some result -> aside (stage history)).
Proof.
  intros Ho Hh. pose proof (wps_play (legal o) answers after idle oracle (main argv turns) [] _ Hh ltac:(done) (wp_main argv turns o Ho)) as H.
  unfold run. destruct (play _ _ _) as [result history]. destruct H as [H [Hl _]]. split; [done |]. intros [code ->]. exact H.
Qed.

(** C22: The exit code of the engine tells the tray what happened. As the tray starts it, the
    code is exactly the one [storyCode] gives for what the system and the components
    answered: the first thing the engine needed and did not get (a channel to be stopped by,
    Winsock, a readable configuration, a Worker, a usable process scope, the DNS relay, the
    interceptor, the relay), and after interception what the last news call for: 3 only and
    always when the Worker is lost and nobody asked to stop, 2 when something else failed, 0
    otherwise. In every other role too the codes of the driver and of the DNS relay mean that
    they did not start, those of the relay, the configuration and the monitor are used for
    nothing else, and 2 and 3 only after traffic was really intercepted. (The interceptor
    also refuses to start for port 443, [ports_collide_iff]; and a relay that is not up after
    two seconds but then ends without an error gives 0.) *)
Theorem exit_code_tells o turns oracle code history :
  honest answers after idle oracle -> honest steady note noStory oracle ->
  run oracle (engineRole o turns) = (Some code, history) ->
  (serves o = true -> code = storyCode o (ledger note noStory history)) /\
  tells o code (stage history) /\
  (code = kMonitorUnavailable -> refused kMonitorUnavailable (stage history) = true) /\
  (engine o = true -> refused kMonitorUnavailable (stage history) = true -> code = kMonitorUnavailable).
Proof.
  intros Hh Hn Hrun. split.
  - intros Hs. pose proof (wps_play anything steady note noStory oracle (engineRole o turns) [] _ Hn ltac:(done) (wpn_engineRole o turns Hs)) as H.
    unfold run in Hrun. rewrite Hrun in H. destruct H as [H _]. by apply H.
  - pose proof (wps_play (legal o) answers after idle oracle (engineRole o turns) [] _ Hh ltac:(done) (wp_engineRole o turns)) as H.
    unfold run in Hrun. rewrite Hrun in H. destruct H as [(_ & _ & _ & _ & _ & H) _]. exact H.
Qed.

(** The ports [main] derives never collide with each other or with the proxy's port,
    for every port the command line accepts; the one port the interceptor then refuses is
    443, the port it captures. *)
Theorem ports_collide_iff port :
  1 <= port <= 65535 -> portsInvalid port (dnsProxyPort port) (connectPort port) = (port =? 443).
Proof.
  intros Hp. unfold portsInvalid, dnsProxyPort, connectPort, kPreferredConnectPort, kAlternateConnectPort, kPreferredDnsProxyPort, kAlternateDnsProxyPort.
  unfold Interceptor.kHttpsPort, Interceptor.kDnsPort. apply eq_true_iff_eq. rewrite !orb_true_iff, !Z.eqb_eq. repeat case_if; zbool; lia.
Qed.
Lemma ports_collide_iff_witness :
  portsInvalid 1080 (dnsProxyPort 1080) (connectPort 1080) = false /\
  portsInvalid 1053 (dnsProxyPort 1053) (connectPort 1053) = (1053 =? 443) /\ dnsProxyPort 1053 = 1054.
Proof. split; [by rewrite ports_collide_iff by lia |]. split; [apply ports_collide_iff; lia | done]. Defined.

(** The rules of a run: those of the configuration and those of the command line. *)
Definition runRules (o : Options) (c : Config) : Rules :=
  newRules (Config.processInclude (overridden o c)) (Config.processExclude (overridden o c)).

(** A list of rules that is within the cap keeps a pattern of acceptable length unless it is
    blank. *)
Lemma pattern_kept before patterns p :
  (length (before ++ patterns) <= 128)%nat -> p ∈ patterns -> 0 < zlen p <= 1024 ->
  normalize p ∈ (normalizeRules (before ++ patterns)).1 <-> forallb isBlank p = false.
Proof.
  intros Hn Hin Hp. pose proof (normalize_empty p ltac:(unfold ProcessFilter.kMaximumRuleLength; lia)) as He.
  assert (Hz : zlen (before ++ patterns) <= ProcessFilter.kMaximumRules) by (unfold zlen, ProcessFilter.kMaximumRules; lia). split.
  - intros Hk. destruct (forallb isBlank p); [|done]. rewrite (proj2 He eq_refl) in Hk.
    pose proof (normalizeRules_spec (before ++ patterns) ltac:(unfold ProcessFilter.kMaximumRules in Hz; lia)) as Hs.
    destruct (normalizeRules (before ++ patterns)) as [res rej]. destruct Hs as ((_ & Hne & _) & _). rewrite Forall_forall in Hne. by destruct (Hne _ Hk).
  - intros Hb. apply normalizeRules_keeps; [done | set_solver |]. intros E%He. congruence.
Qed.

(** C24: What becomes of options that were accepted. The port, the delay and the process id
    are in range and a forced strategy exists. The port makes an interceptor whose ports do
    not collide, except 443, which the parser accepts and the interceptor then refuses. Among
    at most 128 rules a pattern of the command line takes effect exactly when it is not
    blank: a blank one is accepted by the parser and dropped by the filter. *)
Theorem options_usable args o :
  parseArgs args = Parsed o ->
  1 <= port o <= 65535 /\ 0 <= CommandLine.splitDelayMs o <= 2000 /\ 0 <= parentPid o < 2 ^ 32 /\
  (forcedStrategy o = [] \/ is_Some (findProfile (forcedStrategy o))) /\
  portsInvalid (port o) (dnsProxyPort (port o)) (connectPort (port o)) = (port o =? Interceptor.kHttpsPort) /\
  forall c,
    ((length (Config.processInclude (overridden o c)) <= 128)%nat -> forall p, p ∈ CommandLine.processInclude o ->
       normalize p ∈ includes_ (runRules o c) <-> forallb isBlank p = false) /\
    ((length (Config.processExclude (overridden o c)) <= 128)%nat -> forall p, p ∈ CommandLine.processExclude o ->
       normalize p ∈ excludes_ (runRules o c) <-> forallb isBlank p = false).
Proof.
  intros Hp. destruct (parseArgs_bounds args o Hp) as (H1 & H2 & H3 & H4 & H5). split_and!; try done; try lia; [by apply ports_collide_iff |].
  rewrite Forall_forall in H5. intros c. unfold runRules, newRules.
  pose proof (pattern_kept (Config.processInclude c) (CommandLine.processInclude o)) as Hi.
  pose proof (pattern_kept (Config.processExclude c) (CommandLine.processExclude o)) as He.
  cbn [overridden Config.processInclude Config.processExclude].
  destruct (normalizeRules (Config.processInclude c ++ _)) as [i ri]. destruct (normalizeRules (Config.processExclude c ++ _)) as [e re].
  cbn [includes_ excludes_]. split; intros Hn p Hin; [apply Hi | apply He]; try done; apply H5; set_solver.
Qed.

Definition ruleArgs : list bytes := [str "--include-process"; str " "; str "--include-process"; str "Game.exe"; str "--port"; str "443"].
Lemma options_usable_witness :
  exists o, parseArgs ruleArgs = Parsed o /\ portsInvalid (port o) (dnsProxyPort (port o)) (connectPort (port o)) = true /\
    includes_ (runRules o newConfig) = [str "game.exe"] /\
    (normalize (str "Game.exe") ∈ includes_ (runRules o newConfig) <-> forallb isBlank (str "Game.exe") = false) /\
    (normalize (str " ") ∈ includes_ (runRules o newConfig) <-> forallb isBlank (str " ") = false).
Proof.
  destruct (parseArgs ruleArgs) as [o|] eqn:E; [|discriminate E]. exists o. split; [reflexivity |].
  destruct (options_usable ruleArgs o E) as (_ & _ & _ & _ & Hports & Hrules). injection E as <-. destruct (Hrules newConfig) as [Hi _].
  split; [rewrite Hports; reflexivity |]. split; [vm_compute; reflexivity |].
  split; apply Hi; cbn; first [lia | set_solver].
Defined.

(** A system where everything starts and the user stops the engine after a while. *)
Definition sunny : Oracle Reply := λ history c,
  match c return Reply c with
  | IsElevated | OpenMonitor _ _ | WsaStartup | SaveFile _ | StartTelemetry | ProxyRunning | JoinProxy | StartDns | DnsRunning
  | StartInterceptor _ | InterceptorRunning => true
  | TrayInstanceRunning | RestoreLeftovers _ | Redeploy _ | ProxyExited | WorkerUnavailable => false
  | ShutdownRequested => 30 <? zlen history
  | RelaunchElevated _ | RunTray _ | FatalError => 0
  | CreateInstanceMutex => Some false
  | LoadFile => mkConfig [] [] [] (str "https://w.example") (str "s") DnsWorker 0 400 false [] [] false false [] false false
  | RunSetup _ => None
  | CloseInstanceMutex | ErrorBox | CloseMonitor | WsaCleanup | ForgetStrategies | WaitForEnter | StopTelemetry | SpawnProxy _ _ _
  | StopProxy | StopDns | StopInterceptor | SignalReady _ | Sleep _ => tt
  end.
(** The same with a driver that cannot be opened. *)
Definition noDriver : Oracle Reply := λ history c,
  match c return Reply c with
  | StartInterceptor _ => false
  | c => sunny history c
  end.
Lemma sunny_honest : honest answers after idle sunny.
Proof. intros h c _. by destruct c. Qed.
Lemma noDriver_honest : honest answers after idle noDriver.
Proof. intros h c _. by destruct c. Qed.

Definition engineArgs : list bytes := [str "--engine"; str "--ready-event"; str "r"; str "--parent-pid"; str "7"].
Definition engineOptions : Options := match parseArgs engineArgs with Parsed o => o | Exit _ => newOptions end.

Lemma main_order_witness :
  (run sunny (main engineArgs 50)).1 = Some 0 /\ ran (stage (run sunny (main engineArgs 50)).2) = true /\
  (let '(result, history) := run sunny (main engineArgs 50) in
   all_legal (legal engineOptions) after idle history /\ (is_Some result -> aside (stage history))).
Proof.
  split; [vm_compute; reflexivity |]. split; [vm_compute; reflexivity |].
  apply (main_order engineArgs 50 engineOptions sunny); [vm_compute; reflexivity | exact sunny_honest].
Defined.

(** The same with a Worker that is lost while the engine runs. *)
Definition workerLost : Oracle Reply := λ history c,
  match c return Reply c with
  | ShutdownRequested => toldToStop (news (ledger note noStory history))
  | WorkerUnavailable => 20 <? zlen history
  | c => sunny history c
  end.
Lemma workerLost_honest : honest answers after idle workerLost.
Proof. intros h c _. by destruct c. Qed.
Lemma workerLost_steady : honest steady note noStory workerLost.
Proof.
  intros h c _. destruct c; cbn [steady workerLost]; auto.
Qed.

Lemma exit_code_tells_witness :
  serves engineOptions = true /\ (run workerLost (engineRole engineOptions 50)).1 = Some kWorkerUnavailableExitCode /\
  storyCode engineOptions (ledger note noStory (run workerLost (engineRole engineOptions 50)).2) = kWorkerUnavailableExitCode /\
  tells engineOptions kWorkerUnavailableExitCode (stage (run workerLost (engineRole engineOptions 50)).2).
Proof.
  split; [reflexivity |]. split; [vm_compute; reflexivity |].
  destruct (exit_code_tells engineOptions 50 workerLost kWorkerUnavailableExitCode (run workerLost (engineRole engineOptions 50)).2 workerLost_honest workerLost_steady)
    as (H1 & H2 & _); [vm_compute; reflexivity |]. split; [symmetry; by apply H1 | exact H2].
Defined.
