(* ===== verification/DirectRelay.v ===== *)
(** * DirectRelay: one proxied connection

    Models the program logic of [src/src/DirectRelay.cpp]: collecting the ClientHello,
    writing it under a fragmentation plan, waiting for the server's first flight, the probe
    loop with its learning rules ([deliverHello]) and the two-way pump. The sockets are
    inputs: what [recv] returns, whether a [send] succeeds, what other connections and the
    packet loop do to the shared store and policy registry meanwhile. Writes and sleeps are
    recorded as events in program order. A fault (a read outside the client buffer) is
    [None]. *)

From S2P Require Import Prelude Containers TlsHello Diagnosis Strategy StrategyStore TransparentFlow PacketStrategy.

Definition kMaxHelloBuffer : Z := 64 * 1024.
Definition kMaxProbeAttempts : Z := 12.
Definition kRetryPauseMs : Z := 150.
Definition kMaxProbeResponse : Z := 64 * 1024.
Definition kHealthySampleRate : Z := 20.

(** ** Writing *)

(** A completed [tcp::sendAll], or a [Sleep]. *)
Inductive Event := Send (data : bytes) | Pause (ms : Z).

(** The bytes that left, in order. *)
Definition stream (evs : list Event) : bytes :=
  evs ≫= λ e, match e with Send b => b | Pause _ => [] end.

(** [n] bytes at [data + offset]; [None] outside the buffer. *)
Definition region (data : bytes) (offset n : Z) : option bytes :=
  if (0 <=? offset) && (0 <=? n) && (offset + n <=? zlen data) then Some (slice data offset n) else None.

(** The effects in order; the first [sendAll] that fails ends them with [return false].
    [ok n] is the result of the n-th [sendAll]. *)
Fixpoint perform (ok : nat -> bool) (n : nat) (evs : list Event) : bool * list Event :=
  match evs with
  | [] => (true, [])
  | Pause ms :: rest => let '(b, done) := perform ok n rest in (b, Pause ms :: done)
  | Send d :: rest =>
      if ok n then let '(b, done) := perform ok (S n) rest in (b, Send d :: done)
      else (false, [])
  end.

(** The loop over the pieces of one record: [base] is [payload + start]. *)
Fixpoint chunkEvents (fuel : nat) (data : bytes) (base offset length chunk : Z) : option (list Event) :=
  match fuel with
  | O => None
  | S f =>
      if offset <? length then
        let piece := Z.min chunk (length - offset) in
        b ← region data (base + offset) piece;
        rest ← chunkEvents f data base (offset + chunk) length chunk;
        Some (Send b :: (if offset + piece <? length then [Pause 1] else []) ++ rest)
      else Some []
  end.

(** The loop over the boundaries. *)
Fixpoint recordEvents (data : bytes) (contentType versionMajor versionMinor payloadLength : Z)
    (plan : FragmentPlan) (start : Z) (boundaries : list Z) : option (list Event) :=
  match boundaries with
  | [] => Some []
  | end_ :: rest =>
      let length := w64 (end_ - start) in
      let header := [contentType; versionMajor; versionMinor; w8 (Z.shiftr length 8); w8 (Z.land length 0xFF)] in
      body ← (if writeChunk plan =? 0 then
                b ← region data (kRecordHeaderSize + start) length; Some [Send b]
              else chunkEvents (S (Z.to_nat length)) data (kRecordHeaderSize + start) 0 length (writeChunk plan));
      tail ← recordEvents data contentType versionMajor versionMinor payloadLength plan end_ rest;
      Some (Send header :: body ++
            (if (end_ <? payloadLength) && (0 <? delayMs plan) then [Pause (delayMs plan)] else []) ++ tail)
  end.

Definition writeFragmented (data : bytes) (hello : ClientHello) (plan : FragmentPlan)
    (ok : nat -> bool) : option (bool * list Event) :=
  contentType ← rd data 0; versionMajor ← rd data 1; versionMinor ← rd data 2;
  let payloadLength := recordPayloadLength hello in
  evs ← recordEvents data contentType versionMajor versionMinor payloadLength plan 0
          (recordSplits plan ++ [payloadLength]);
  Some (perform ok 0 evs).

Definition writePlan (helloComplete : bool) (data : bytes) (hello : ClientHello) (plan : FragmentPlan)
    (ok : nat -> bool) : option (bool * list Event) :=
  if helloComplete && splitsAnything plan then writeFragmented data hello plan ok
  else if helloComplete then
    b ← region data 0 (recordTotalLength hello); Some (perform ok 0 [Send b])
  else Some (true, []).

Definition flushTrailingClientData (helloComplete : bool) (data : bytes) (hello : ClientHello)
    (ok : nat -> bool) : option (bool * list Event) :=
  if negb helloComplete || spansRecords hello || (zlen data <=? recordTotalLength hello)
  then Some (true, [])
  else b ← region data (recordTotalLength hello) (zlen data - recordTotalLength hello);
       Some (perform ok 0 [Send b]).

(** ** Reading *)

(** The results of [tcp::recvTimeout] before its timeout: some bytes, an orderly end ([0])
    or an error. The end of a list of them is [tcp::kTimedOut]. *)
Inductive Recv := Data (b : bytes) | Closed0 | Error0.

(** What [collectClientHello] leaves: the buffer, the hello, [helloComplete_] and
    [targetHost_]. *)
Record Collected := mkCollected {
  clientBuffer_ : bytes;
  hello_ : ClientHello;
  helloComplete_ : bool;
  targetHost_ : bytes;
}.

(** The loop of [collectClientHello]. Each reception comes with the value of [stopping_]
    when the loop is entered for it; [stopEnd] is that value at the final timeout. *)
Fixpoint collect_loop (inputs : list (bool * Recv)) (stopEnd : bool) (c : Collected)
    : option (bool * Collected) :=
  match inputs with
  | [] => Some (negb stopEnd, c)
  | (stopping, r) :: rest =>
      if stopping : bool then Some (false, c) else
      match r with
      | Closed0 | Error0 => Some (negb (bool_decide (clientBuffer_ c = [])), c)
      | Data b =>
          let buffer := clientBuffer_ c ++ b in
          sh ← parseClientHello buffer;
          let '(status, hello) := sh in
          let c := mkCollected buffer hello false (targetHost_ c) in
          match status with
          | Ok =>
              Some (true, mkCollected buffer hello true
                            (if bool_decide (serverName hello = []) then targetHost_ c
                             else normalizeHost (serverName hello)))
          | NeedMore =>
              if kMaxHelloBuffer <=? zlen buffer then Some (true, c) else collect_loop rest stopEnd c
          | NotTls | Malformed => Some (true, c)
          end
      end
  end.
Definition collectClientHello (inputs : list (bool * Recv)) (stopEnd : bool) (hello : ClientHello)
    (host : bytes) : option (bool * Collected) :=
  collect_loop inputs stopEnd (mkCollected [] hello false host).

(** [awaitResponse]: the signal and [out]; the list ends at the deadline. *)
Fixpoint await_loop (inputs : list Recv) (out : bytes) : option (ProbeSignal * bytes) :=
  if kMaxProbeResponse <=? zlen out then Some (Unexpected, out) else
  match inputs with
  | [] => Some (Timeout, out)
  | Closed0 :: _ => Some (Closed, out)
  | Error0 :: _ => Some (Reset, out)
  | Data b :: rest =>
      let out := out ++ b in
      status ← classifyServerResponse out;
      match status with
      | RServerHello => Some (ServerHello, out)
      | RAlert => Some (Alert, out)
      | RUnexpected => Some (Unexpected, out)
      | RNeedMore => await_loop rest out
      end
  end.
Definition awaitResponse (inputs : list Recv) : option (ProbeSignal * bytes) := await_loop inputs [].

(** ** The probe loop *)

Record ProbeRecord := mkProbeRecord {
  pr_networkId : bytes;
  pr_host : bytes;
  pr_remembered : bytes;
  pr_verdict : Verdict;
  pr_attempts : list Attempt;
  pr_totalElapsedMs : Z;
  pr_success : bool;
  pr_forced : bool;
}.

(** The calls on the live statistics handle. *)
Inductive LiveCall := SetProfile (profile : bytes) | Decision (success bypassed : bool).

(** What the call finds in its environment during one iteration of the loop. *)
Record AttemptEnv := mkAttemptEnv {
  ae_stopping : bool;              (* [stopping_] when the iteration starts *)
  ae_reconnect : option bytes;     (* [reconnect()]: the address it connected to *)
  ae_localPort : Z;                (* from [getsockname], 0 when it fails *)
  ae_armTick : Z;                  (* [GetTickCount64] inside [arm] *)
  ae_sendOk : nat -> bool;         (* results of [sendAll] *)
  ae_replies : list Recv;          (* what the target sends before the deadline *)
  ae_elapsed : Z;                  (* [GetTickCount64() - probeStarted] *)
  ae_packets : list PolicyOp;      (* the registry, used by the packet loop meanwhile *)
  ae_others : list StoreOp;        (* the store, used by other connections meanwhile *)
  ae_clock : Clock;                (* clock readings of the store's operations *)
  ae_consumeTick : Z;              (* [GetTickCount64] inside [consumeApplied] *)
  ae_total : Z;                    (* [GetTickCount64() - decisionStarted] *)
}.

(** The fixed part of the connection. *)
Record Connection := mkConnection {
  networkId : bytes;
  host : bytes;
  forcedProfile : bytes;
  splitDelayMs : Z;
  hasTelemetry : bool;
  buffer : bytes;
  hello : ClientHello;
}.

(** The state [deliverHello] changes. [store] and [registry] ([None]: no packet driver) are
    shared; [calls] are this connection's own operations on the store, [written] its writes
    per attempt, [records] what it hands to telemetry, [sampled] the sampling counter,
    [liveCalls] its calls on [liveFlow_]. *)
Record Deliver := mkDeliver {
  store : Store;
  registry : option PolicyRegistry;
  connectedAddress_ : bytes;
  armedLocalPort_ : Z;
  attempts : Z;
  evidence : list Attempt;
  rememberedFailed : bool;
  activeProfile_ : bytes;
  firstResponse_ : bytes;
  calls : list StoreOp;
  written : list (bytes * list Event);
  records : list ProbeRecord;
  sampled : Z;
  liveCalls : list LiveCall;
}.

Section Deliver.
Context `{!MapOrder bytes} `{!MapOrder PeerKey}.
Variable inet_pton4 inet_pton6 : bytes -> option bytes.
Variable conn : Connection.
Variable env : nat -> AttemptEnv.

Definition learning : bool := bool_decide (forcedProfile conn = []).

(** One operation of this connection on the store. *)
Definition call (st : Deliver) (op : StoreOp) : Deliver :=
  mkDeliver (run_op (store st) op) (registry st) (connectedAddress_ st) (armedLocalPort_ st)
    (attempts st) (evidence st) (rememberedFailed st) (activeProfile_ st) (firstResponse_ st)
    (calls st ++ [op]) (written st) (records st) (sampled st) (liveCalls st).

(** [settleFailure] *)
Definition settleFailure (remembered : bytes) (ck : Clock) (st : Deliver) : Deliver :=
  if learning && rememberedFailed st
  then call st (OpRecordFailure (networkId conn) (host conn) remembered ck) else st.

(** The live counters: only a verified bypass counts as one. *)
Definition publishLive (verdict : Verdict) (success : bool) (st : Deliver) : Deliver :=
  let named := if success && negb (bool_decide (winningProfile verdict = []))
               then [SetProfile (winningProfile verdict)] else [] in
  mkDeliver (store st) (registry st) (connectedAddress_ st) (armedLocalPort_ st)
    (attempts st) (evidence st) (rememberedFailed st) (activeProfile_ st) (firstResponse_ st)
    (calls st) (written st) (records st) (sampled st)
    (liveCalls st ++ named ++ [Decision success (success && isVerifiedBypass (kind verdict))]).

Definition recordTelemetry (verdict : Verdict) (remembered : bytes) (success : bool) (total : Z)
    (st : Deliver) : Deliver :=
  let st := publishLive verdict success st in
  if negb (hasTelemetry conn) then st else
  let healthy := success && (zlen (evidence st) =? 1) && bool_decide (kind verdict = NoInterference) &&
                 bool_decide (winningProfile verdict = str "none") && bool_decide (remembered = []) in
  let sampled' := if healthy then w32 (sampled st + 1) else sampled st in
  let keep := negb (healthy && negb (sampled st mod kHealthySampleRate =? 0)) in
  mkDeliver (store st) (registry st) (connectedAddress_ st) (armedLocalPort_ st)
    (attempts st) (evidence st) (rememberedFailed st) (activeProfile_ st) (firstResponse_ st)
    (calls st) (written st)
    (if keep then records st ++ [mkProbeRecord (networkId conn) (host conn) remembered verdict
                                   (evidence st) (Z.min total 0xFFFFFFFF) success (negb learning)]
     else records st) sampled' (liveCalls st).

(** The end without an answer, after the loop or on a failed reconnect. *)
Definition giveUp (ctx : Context) (remembered : bytes) (i : nat) (st : Deliver) : bool * Deliver :=
  let verdict := infer (evidence st) ctx in
  let st := settleFailure remembered (ae_clock (env i)) st in
  (false, recordTelemetry verdict remembered false (ae_total (env i)) st).

(** [packetPolicyApplied]; the registry forgets the policy. *)
Definition packetPolicyApplied (tick : Z) (st : Deliver) : bool * Deliver :=
  match registry st with
  | None => (false, st)
  | Some r =>
      if armedLocalPort_ st =? 0 then (false, st) else
      let '(b, r) := consumeApplied inet_pton4 inet_pton6 r (connectedAddress_ st) (armedLocalPort_ st) 0 tick in
      (b, mkDeliver (store st) (Some r) (connectedAddress_ st) (armedLocalPort_ st) (attempts st)
            (evidence st) (rememberedFailed st) (activeProfile_ st) (firstResponse_ st) (calls st)
            (written st) (records st) (sampled st) (liveCalls st))
  end.

(** What is learned from a ServerHello: the verdict for the record and the new state. *)
Definition learnFrom (verdict : Verdict) (remembered profile : bytes) (e : AttemptEnv) (st : Deliver)
    : Verdict * Deliver :=
  if negb learning then (verdict, st)
  else if bool_decide (profile = str "none") then
    let st := call st (OpNoteBaselineHealthy (networkId conn) (host conn) 0 (ae_clock e)) in
    (verdict,
     if bool_decide (remembered = []) then st
     else call st (OpRemember (networkId conn) (host conn) profile (kind verdict) (confidence verdict) 0 (ae_clock e)))
  else
    let '(skip, st) :=
      if isPacketProfile profile
      then let '(applied, st) := packetPolicyApplied (ae_consumeTick e) st in (negb applied, st)
      else (false, st) in
    if skip : bool then (verdict, st)
    else if bool_decide (kind verdict = TransientFailure) then (verdict, st)
    else
      let st := settleFailure remembered (ae_clock e) st in
      let learned := (remember (store st) (networkId conn) (host conn) profile (kind verdict)
                        (confidence verdict) 0 (ae_clock e)).1.1 in
      let st := call st (OpRemember (networkId conn) (host conn) profile (kind verdict)
                           (confidence verdict) 0 (ae_clock e)) in
      (if bool_decide (learned = OCandidate)
       then mkVerdict InterferenceSuspected (Z.min (confidence verdict) 55) (winningProfile verdict)
       else verdict, st).

(** The branch of a ServerHello. *)
Definition onServerHello (ctx : Context) (remembered profile : bytes) (i : nat) (st : Deliver)
    : Deliver :=
  let '(verdict, st) := learnFrom (infer (evidence st) ctx) remembered profile (env i) st in
  recordTelemetry verdict remembered true (ae_total (env i)) st.

(** One transmission: arm the packet policy, write the hello, let the world act, wait. *)
Definition armPolicy (profile : bytes) (e : AttemptEnv) (st : Deliver) : Deliver :=
  let '(found, policy) := policyForProfile profile (hello conn) in
  let '(port, reg) :=
    match registry st with
    | Some r => if found : bool
                then (ae_localPort e, Some (arm inet_pton4 inet_pton6 r (connectedAddress_ st) (ae_localPort e)
                                              policy 0 (ae_armTick e)))
                else (0, Some r)
    | None => (0, None)
    end in
  mkDeliver (store st) reg (connectedAddress_ st) port (attempts st) (evidence st)
    (rememberedFailed st) (activeProfile_ st) (firstResponse_ st) (calls st) (written st)
    (records st) (sampled st) (liveCalls st).

Definition beginAttempt (address : bytes) (st : Deliver) : Deliver :=
  mkDeliver (store st) (registry st) address (armedLocalPort_ st) (attempts st + 1) (evidence st)
    (rememberedFailed st) (activeProfile_ st) (firstResponse_ st) (calls st) (written st)
    (records st) (sampled st) (liveCalls st).

Definition logWrite (profile : bytes) (evs : list Event) (st : Deliver) : Deliver :=
  mkDeliver (store st) (registry st) (connectedAddress_ st) (armedLocalPort_ st) (attempts st)
    (evidence st) (rememberedFailed st) (activeProfile_ st) (firstResponse_ st) (calls st)
    (written st ++ [(profile, evs)]) (records st) (sampled st) (liveCalls st).

(** What the packet loop and the other connections do while this one waits. *)
Definition worldActs (e : AttemptEnv) (st : Deliver) : Deliver :=
  mkDeliver (run_ops (store st) (ae_others e))
    (match registry st with
     | Some r => Some (foldl (policy_run inet_pton4 inet_pton6) r (ae_packets e))
     | None => None
     end)
    (connectedAddress_ st) (armedLocalPort_ st) (attempts st) (evidence st) (rememberedFailed st)
    (activeProfile_ st) (firstResponse_ st) (calls st) (written st) (records st) (sampled st) (liveCalls st).

Definition observed (profile : bytes) (outcome : ProbeSignal) (elapsed : Z) (response : bytes)
    (st : Deliver) : Deliver :=
  mkDeliver (store st) (registry st) (connectedAddress_ st) (armedLocalPort_ st) (attempts st)
    (evidence st ++ [mkAttempt profile outcome (Z.min elapsed 0xFFFFFFFF)]) (rememberedFailed st)
    (if bool_decide (outcome = ServerHello) then profile else activeProfile_ st) response
    (calls st) (written st) (records st) (sampled st) (liveCalls st).

Definition attemptFailed (profile remembered : bytes) (st : Deliver) : Deliver :=
  mkDeliver (store st) (registry st) (connectedAddress_ st) (armedLocalPort_ st) (attempts st)
    (evidence st) (if learning && bool_decide (profile = remembered) then true else rememberedFailed st)
    (activeProfile_ st) [] (calls st) (written st) (records st) (sampled st) (liveCalls st).

Fixpoint deliver_loop (ctx : Context) (remembered : bytes) (i : nat) (order : list bytes) (st : Deliver)
    : option (bool * Deliver) :=
  match order with
  | [] => Some (giveUp ctx remembered i st)
  | profile :: rest =>
      let e := env i in
      if (kMaxProbeAttempts <=? attempts st) || ae_stopping e then Some (giveUp ctx remembered i st) else
      let '(applicable, plan) := buildPlan profile (hello conn) (splitDelayMs conn) in
      if negb applicable && negb (bool_decide (profile = str "none"))
      then deliver_loop ctx remembered (S i) rest st
      else if bool_decide (registry st = None) && isPacketProfile profile
      then deliver_loop ctx remembered (S i) rest st
      else
      match (if 0 <? attempts st then ae_reconnect e else Some (connectedAddress_ st)) with
      | None => Some (giveUp ctx remembered i (logWrite profile [Pause kRetryPauseMs] st))
      | Some address =>
          let pause := if 0 <? attempts st then [Pause kRetryPauseMs] else [] in
          let st := armPolicy profile e (beginAttempt address st) in
          w ← writePlan true (buffer conn) (hello conn) plan (ae_sendOk e);
          let '(sent, evs) := w in
          let st := worldActs e (logWrite profile (pause ++ evs) st) in
          if negb sent then deliver_loop ctx remembered (S i) rest st else
          a ← awaitResponse (ae_replies e);
          let '(outcome, response) := a in
          let st := observed profile outcome (ae_elapsed e) response st in
          if bool_decide (outcome = ServerHello)
          then Some (true, onServerHello ctx remembered profile i st)
          else deliver_loop ctx remembered (S i) rest (attemptFailed profile remembered st)
      end
  end.

(** The locals of [deliverHello]: no attempt yet, no evidence. *)
Definition freshProbe (st : Deliver) : Deliver :=
  mkDeliver (store st) (registry st) (connectedAddress_ st) (armedLocalPort_ st) 0 [] false
    (activeProfile_ st) (firstResponse_ st) (calls st) (written st) (records st) (sampled st) (liveCalls st).

(** [deliverHello] from the state in which [connectTarget] left the connection;
    [helloComplete] is [helloComplete_], [ok] the results of the plain [sendAll]. *)
Definition deliverHello (helloComplete : bool) (ck : Clock) (ok : nat -> bool) (st : Deliver)
    : option (bool * Deliver) :=
  if bool_decide (buffer conn = []) then Some (true, st) else
  if negb helloComplete || spansRecords (hello conn) then
    let '(b, evs) := perform ok 0 [Send (buffer conn)] in
    Some (b, logWrite (str "none") evs
               (mkDeliver (store st) (registry st) (connectedAddress_ st) (armedLocalPort_ st)
                  (attempts st) (evidence st) (rememberedFailed st)
                  (if helloComplete then str "none" else activeProfile_ st)
                  (firstResponse_ st) (calls st) (written st) (records st) (sampled st) (liveCalls st)))
  else
  let '(order, st) :=
    if learning then
      let op := OpProbeOrder (networkId conn) (host conn) (hello conn) 0 ck in
      ((probeOrder (store st) (networkId conn) (host conn) (hello conn) 0 ck).1, call st op)
    else if bool_decide (forcedProfile conn = str "none") then ([str "none"], st)
    else ([forcedProfile conn; str "none"], st) in
  let remembered := storeLookup (store st) (networkId conn) (host conn) ck in
  let ctx := if learning
             then mkContext remembered (baselineRecentlyHealthy (store st) (networkId conn) (host conn) 0 ck)
             else mkContext [] false in
  deliver_loop ctx remembered 0 order (freshProbe st).
End Deliver.

(** ** The pump *)

(** The results of [::send]: some bytes, [WSAEWOULDBLOCK] or another error. *)
Inductive SendResult := Wrote (n : Z) | WouldBlock | SendError.
(** The results of [::recv]. *)
Inductive RecvResult := RecvBytes (b : bytes) | RecvFin | RecvWouldBlock | RecvError.

(** [sendSome]: its return value and [sent]. [::send] never reports more than it was
    given; the list ends with a full send buffer. *)
Fixpoint sendSome (results : list SendResult) (length sent : Z) : bool * Z :=
  if length <=? sent then (true, sent) else
  match results with
  | [] | WouldBlock :: _ => (true, sent)
  | SendError :: _ => (false, sent)
  | Wrote n :: rest =>
      let chunk := Z.min (length - sent) (Z.shiftl 1 20) in
      let written := Z.min n chunk in
      if written <=? 0 then (false, sent) else sendSome rest length (sent + written)
  end.

Record Direction := mkDirection {
  pending : bytes;
  offset : Z;
  eof : bool;
}.
Definition newDirection : Direction := mkDirection [] 0 false.
Definition finished (d : Direction) : bool := eof d && bool_decide (pending d = []).

(** What a wake-up brings to one direction: whether the handle it waits for is ready, the
    result of [::recv] and those of [::send], and the clock. *)
Record DirectionInput := mkDirectionInput {
  di_ready : bool;
  di_recv : RecvResult;
  di_sends : list SendResult;
  di_tick : Z;
}.

(** What happened to one direction: bytes read, bytes written, half-closes of the
    destination. *)
Record Effect := mkEffect { received : bytes; delivered : bytes; shutdowns : nat }.
Definition noEffect : Effect := mkEffect [] [] 0.

(** The body of the inner loop of [pump]: the direction, its effect, the new
    [lastActivity], and whether [pump] goes on ([false]: [abortive_] and return). *)
Definition directionStep (d : Direction) (inp : DirectionInput) (lastActivity : Z)
    : Direction * Effect * Z * bool :=
  if finished d then (d, noEffect, lastActivity, true) else
  if negb (bool_decide (pending d = [])) then
    if negb (di_ready inp) then (d, noEffect, lastActivity, true) else
    let rest := drop (Z.to_nat (offset d)) (pending d) in
    let '(ok, sent) := sendSome (di_sends inp) (zlen rest) 0 in
    let out := take (Z.to_nat sent) rest in
    if negb ok then (d, mkEffect [] out 0, lastActivity, false) else
    let last := if 0 <? sent then di_tick inp else lastActivity in
    let offset' := offset d + sent in
    if offset' =? zlen (pending d)
    then (mkDirection [] 0 (eof d), mkEffect [] out (if eof d then 1 else 0), last, true)
    else (mkDirection (pending d) offset' (eof d), mkEffect [] out 0, last, true)
  else
    if negb (di_ready inp) then (d, noEffect, lastActivity, true) else
    match di_recv inp with
    | RecvWouldBlock => (d, noEffect, lastActivity, true)
    | RecvError => (d, noEffect, lastActivity, false)
    | RecvFin => (mkDirection (pending d) (offset d) true, mkEffect [] [] 1, di_tick inp, true)
    | RecvBytes b =>
        let '(ok, sent) := sendSome (di_sends inp) (zlen b) 0 in
        let out := take (Z.to_nat sent) b in
        if negb ok then (d, mkEffect b out 0, di_tick inp, false)
        else if sent <? zlen b
        then (mkDirection (drop (Z.to_nat sent) b) 0 (eof d), mkEffect b out 0, di_tick inp, true)
        else (d, mkEffect b out 0, di_tick inp, true)
    end.

Definition kHalfClosedLingerMs : Z := 30 * 1000.

(** One turn of the outer loop: [stopping_], [GetTickCount64], the sign of [::select]'s
    result and what each direction meets. *)
Record Wake := mkWake {
  wk_stopping : bool;
  wk_now : Z;
  wk_select : Z;
  wk_up : DirectionInput;
  wk_down : DirectionInput;
}.

(** How [pump] ended; [Blocking]: a socket refused the non-blocking mode; [Running]: the
    list of wake-ups is exhausted and it has not. *)
Inductive PumpEnd := Blocking | Stopped | Finished | Idle | SelectFailed | Aborted | Running.

Record Pump := mkPump {
  upstream : Direction;
  downstream : Direction;
  lastActivity_ : Z;
  upEffect : Effect;
  downEffect : Effect;
}.

Definition addEffect (a b : Effect) : Effect :=
  mkEffect (received a ++ received b) (delivered a ++ delivered b) (shutdowns a + shutdowns b).

Fixpoint pump_loop (idleTimeoutMs : Z) (wakes : list Wake) (p : Pump) : PumpEnd * Pump :=
  match wakes with
  | [] => (Running, p)
  | w :: rest =>
      if wk_stopping w then (Stopped, p) else
      if finished (upstream p) && finished (downstream p) then (Finished, p) else
      let halfClosed := eof (upstream p) || eof (downstream p) in
      let idleLimit := if halfClosed then Z.min kHalfClosedLingerMs idleTimeoutMs else idleTimeoutMs in
      let idle := w64 (wk_now w - lastActivity_ p) in
      if idleLimit <=? idle then (Idle, p) else
      if wk_select w <? 0 then (SelectFailed, p) else
      if wk_select w =? 0 then pump_loop idleTimeoutMs rest p else
      let '(up, ue, last, go) := directionStep (upstream p) (wk_up w) (lastActivity_ p) in
      if negb go then
        (Aborted, mkPump up (downstream p) last (addEffect (upEffect p) ue) (downEffect p))
      else
      let '(down, de, last, go) := directionStep (downstream p) (wk_down w) last in
      let p' := mkPump up down last (addEffect (upEffect p) ue) (addEffect (downEffect p) de) in
      if negb go then (Aborted, p') else pump_loop idleTimeoutMs rest p'
  end.

(** [nonBlocking]: both calls of [setNonBlocking] succeeded. *)
Definition pump (nonBlocking : bool) (idleTimeoutMs start : Z) (wakes : list Wake) : PumpEnd * Pump :=
  let p := mkPump newDirection newDirection start noEffect noEffect in
  if negb nonBlocking then (Blocking, p) else pump_loop idleTimeoutMs wakes p.

(** ** Lemmas: writing *)

Lemma stream_app a b : stream (a ++ b) = stream a ++ stream b.
Proof. apply bind_app. Qed.
Lemma stream_send d evs : stream (Send d :: evs) = d ++ stream evs.
Proof. done. Qed.
Lemma stream_pause (b : bool) ms : stream (if b then [Pause ms] else []) = [].
Proof. by destruct b. Qed.

Lemma perform_spec ok n evs :
  let '(b, done) := perform ok n evs in
  stream done `prefix_of` stream evs /\ (b = true -> done = evs) /\ ((forall m, ok m = true) -> b = true).
Proof.
  revert n. induction evs as [|[d|ms] evs IH]; intros n; [done | |].
  - cbn [perform]. destruct (ok n) eqn:Eo.
    + specialize (IH (S n)). destruct (perform ok (S n) evs) as [b l]. destruct IH as (Hp & He & Ha).
      split_and!; [by apply prefix_app | intros Hb; by rewrite (He Hb) | done].
    + split_and!; [apply prefix_nil | done |]. intros H. by rewrite H in Eo.
  - cbn [perform]. specialize (IH n). destruct (perform ok n evs) as [b l]. destruct IH as (Hp & He & Ha).
    split_and!; [done | intros Hb; by rewrite (He Hb) | done].
Qed.

Lemma region_ok data off n : 0 <= off -> 0 <= n -> off + n <= zlen data -> region data off n = Some (slice data off n).
Proof.
  intros. unfold region. by rewrite !(proj2 (Z.leb_le _ _)) by lia.
Qed.

Lemma chunkEvents_spec fuel data base off len chunk :
  0 <= base -> 0 <= off -> 0 < chunk -> base + len <= zlen data -> Z.max 0 (len - off) < Z.of_nat fuel ->
  exists evs, chunkEvents fuel data base off len chunk = Some evs /\
    stream evs = slice data (base + off) (Z.max 0 (len - off)).
Proof.
  intros Hb Ho Hc Hz. revert off Ho. induction fuel as [|f IH]; intros off Ho Hf; [lia |].
  cbn [chunkEvents]. case_if; zbool.
  - cbv zeta. set (piece := Z.min chunk (len - off)). rewrite region_ok by lia. cbn [mbind option_bind].
    destruct (IH (off + chunk)) as (evs & -> & Hs); [lia | lia |]. cbn [mbind option_bind].
    eexists. split; [done |]. rewrite stream_send, stream_app, stream_pause, Hs. cbn [app].
    rewrite (Z.max_r 0 (len - off)) by lia. replace (len - off) with (piece + Z.max 0 (len - (off + chunk))) by lia.
    rewrite slice_split by lia. f_equal. destruct (Z_le_gt_dec len (off + chunk)).
    + rewrite Z.max_l by lia. by rewrite !slice_0.
    + f_equal. lia.
  - exists []. split; [done |]. rewrite Z.max_l by lia. by rewrite slice_0.
Qed.

(** The ends of consecutive parts. *)
Fixpoint ends (acc : Z) (parts : list bytes) : list Z :=
  match parts with
  | [] => []
  | p :: parts => (acc + zlen p) :: ends (acc + zlen p) parts
  end.

Lemma record_header ct minor len payload :
  zlen payload = len -> 0 <= len < 65536 ->
  [ct; 0x03; minor; w8 (Z.shiftr len 8); w8 (Z.land len 0xFF)] ++ payload = wire_record ct minor payload.
Proof.
  intros <- Hl. unfold wire_record, be16. cbn [app]. do 4 f_equal. f_equal.
  change 0xFF with (Z.ones 8). rewrite Z.land_ones by lia. unfold w8. by rewrite Z.mod_mod by lia.
Qed.

Lemma recordEvents_spec data ct minor n plan start bs :
  StronglySorted Z.lt bs -> Forall (λ b, start < b <= n) bs -> 0 <= start -> n <= kMaxRecordPayload ->
  kRecordHeaderSize + n <= zlen data -> 0 <= writeChunk plan ->
  exists evs parts, recordEvents data ct 0x03 minor n plan start bs = Some evs /\
    stream evs = parts ≫= wire_record ct minor /\ ends start parts = bs /\ Forall valid_payload parts /\
    concat parts = slice data (kRecordHeaderSize + start) (default start (last bs) - start).
Proof.
  unfold kMaxRecordPayload, kRecordHeaderSize. intros Hsort. revert start.
  induction Hsort as [|e bs Hs IH Hlt]; intros start Hin Hst Hn Hz Hc.
  { exists [], []. cbn. rewrite Z.sub_diag, slice_0. by split_and!. }
  apply Forall_cons in Hin as [He Hin]. cbn [recordEvents]. cbv zeta.
  rewrite (w64_small (e - start)) by lia. unfold kRecordHeaderSize in *.
  set (part := slice data (5 + start) (e - start)).
  assert (Hp : zlen part = e - start) by (unfold part; rewrite zlen_slice; lia).
  assert (Hbody : exists body, (if writeChunk plan =? 0
      then b ← region data (5 + start) (e - start); Some [Send b]
      else chunkEvents (S (Z.to_nat (e - start))) data (5 + start) 0 (e - start) (writeChunk plan)) = Some body /\
      stream body = part).
  { case_if; zbool.
    - rewrite region_ok by lia. eexists. split; [done |]. cbn. by rewrite app_nil_r.
    - destruct (chunkEvents_spec (S (Z.to_nat (e - start))) data (5 + start) 0 (e - start) (writeChunk plan))
        as (evs & -> & Hev); [lia .. |]. eexists. split; [done |].
      rewrite Hev. unfold part. f_equal; lia. }
  destruct Hbody as (body & -> & Hbody). cbn [mbind option_bind].
  destruct (IH e) as (evs & parts & -> & Hstream & Hends & Hvalid & Hcat); try done; [|lia|].
  { rewrite Forall_forall in Hin, Hlt |- *. intros b Hb. specialize (Hin b Hb). specialize (Hlt b Hb). lia. }
  cbn [mbind option_bind]. exists (Send [ct; 3; minor; w8 (Z.shiftr (e - start) 8); w8 (Z.land (e - start) 255)] ::
    body ++ (if (e <? n) && (0 <? delayMs plan) then [Pause (delayMs plan)] else []) ++ evs), (part :: parts).
  split_and!.
  - done.
  - rewrite stream_send, !stream_app, stream_pause, Hbody, Hstream. cbn [app]. rewrite bind_cons.
    rewrite <- (record_header ct minor (e - start) part) by lia. by rewrite <- app_assoc.
  - cbn [ends]. rewrite Hp. replace (start + (e - start)) with e by lia. by rewrite Hends.
  - constructor; [|done]. unfold valid_payload, kMaxRecordPayload. lia.
  - cbn [concat]. rewrite Hcat. unfold part.
    assert (Hlast : default start (last (e :: bs)) = default e (last bs)).
    { rewrite last_cons. by destruct (last bs). }
    rewrite Hlast. assert (Hle : e <= default e (last bs)).
    { destruct (last bs) as [l|] eqn:El; [|simpl; lia]. simpl. apply last_Some_elem_of in El.
      rewrite Forall_forall in Hlt. specialize (Hlt l El). lia. }
    replace (default e (last bs) - start) with ((e - start) + (default e (last bs) - e)) by lia.
    rewrite slice_split by lia. f_equal. f_equal. lia.
Qed.

Lemma buildPlan_chunk p h d : 0 <= writeChunk (buildPlan p h d).2.
Proof. unfold buildPlan. destruct (Strategy.findProfile p); [|done]. repeat case_if; simpl; lia. Qed.


(** The records that carry a payload cut at given places. *)
Definition reframed (data : bytes) (h : ClientHello) (cuts : list Z) (out : bytes) : Prop :=
  exists minor parts, rd data 2 = Some minor /\
    out = parts ≫= wire_record kRecordHandshake minor /\
    concat parts = slice data kRecordHeaderSize (recordPayloadLength h) /\
    ends 0 parts = cuts ++ [recordPayloadLength h] /\ Forall valid_payload parts.

Lemma parse_ok_header data h :
  all_bytes data -> parseClientHello data = Some (Ok, h) ->
  hello_ok data h /\ rd data 0 = Some kRecordHandshake /\ rd data 1 = Some 0x03 /\
  rd16 data 3 = Some (recordPayloadLength h).
Proof.
  intros Hd Hp. destruct (parseClientHello_spec data Hd) as (st & h' & Hp' & Hok & _).
  rewrite Hp in Hp'. injection Hp' as <- <-. specialize (Hok eq_refl). split; [done |].
  destruct Hok as (Hlen & Htot & Hfit & _). unfold kRecordHeaderSize, kMaxRecordPayload in *.
  unfold parseClientHello, kRecordHeaderSize in Hp.
  case_if_in Hp; [done |]. destruct (rd data 0) as [b0|] eqn:E0'; [|done]. cbn [mbind option_bind] in Hp.
  case_if_in Hp; [done |]. case_if_in Hp; [done |].
  destruct (rd data 1) as [b1|] eqn:E1'; [|done]. cbn [mbind option_bind] in Hp.
  case_if_in Hp; [done |]. case_if_in Hp; [done |].
  destruct (rd data 3) as [b3|] eqn:E3'; [|done]. destruct (rd data 4) as [b4|] eqn:E4'; [|done].
  cbn [mbind option_bind] in Hp. pose proof (be16_byte_range b3 b4 (rd_byte _ _ _ Hd E3') (rd_byte _ _ _ Hd E4')) as Hr.
  assert (Hn : recordPayloadLength h = Z.lor (Z.shiftl b3 8) b4).
  { do 3 (case_if_in Hp; [done |]).
    destruct (rd data 5); [|done]. cbn [mbind option_bind] in Hp. case_if_in Hp; [done |].
    destruct (rd data (5 + 1)) as [b6|] eqn:E6'; [|done]. destruct (rd data (5 + 2)) as [b7|] eqn:E7'; [|done].
    destruct (rd data (5 + 3)) as [b8|] eqn:E8'; [|done]. cbn [mbind option_bind] in Hp.
    pose proof (be24_byte_range b6 b7 b8 (rd_byte _ _ _ Hd E6') (rd_byte _ _ _ Hd E7') (rd_byte _ _ _ Hd E8')).
    case_if_in Hp; [by injection Hp as <- |]. cbn [recordTotalLength setLengths] in *. zbool.
    match type of Hp with parseBody data ?lo ?hi ?h0 = _ =>
      destruct (parseBody_safe data lo hi h0 Hd) as (st' & h2 & Hb & (Hpl & _) & _); [lia .. | |] end.
    { by split_and!; [| simpl; lia | left]. }
    rewrite Hp in Hb. injection Hb as <- <-. done. }
  zbool. split_and!; [congruence | congruence |]. rewrite Hn. unfold rd16. change (3 + 1) with 4.
  rewrite E3', E4'. cbn [mbind option_bind]. by rewrite w16_small.
Qed.

(** What one attempt writes. *)
Lemma writePlan_spec data h profile delay ok :
  all_bytes data -> parseClientHello data = Some (Ok, h) ->
  let plan := (buildPlan profile h delay).2 in
  exists sent evs full, writePlan true data h plan ok = Some (sent, evs) /\
    reframed data h (recordSplits plan) full /\ stream evs `prefix_of` full /\
    (sent = true -> stream evs = full) /\ ((forall m, ok m = true) -> sent = true).
Proof.
  intros Hd Hp plan. destruct (parse_ok_header data h Hd Hp) as (Hok & H0 & H1 & H3).
  destruct Hok as (Hlen & Htot & Hfit & _).
  unfold kRecordHeaderSize, kMaxRecordPayload in Hlen, Htot, Hfit.
  destruct (rd_ok data 2) as [minor H2]; [lia |].
  assert (Hgo : forall evs full, stream evs = full -> reframed data h (recordSplits plan) full ->
    exists sent evs' full, Some (perform ok 0 evs) = Some (sent, evs') /\
      reframed data h (recordSplits plan) full /\ stream evs' `prefix_of` full /\
      (sent = true -> stream evs' = full) /\ ((forall m, ok m = true) -> sent = true)).
  { intros evs full <- Hr. pose proof (perform_spec ok 0 evs) as Hs. destruct (perform ok 0 evs) as [b l].
    destruct Hs as (Hs1 & Hs2 & Hs3). exists b, l, (stream evs). split_and!; try done.
    intros Hb. by rewrite (Hs2 Hb). }
  unfold writePlan. cbn [andb]. destruct (splitsAnything plan) eqn:Es.
  - unfold writeFragmented. rewrite H0, H1, H2. cbn [mbind option_bind].
    pose proof (buildPlan_plan_ok profile h delay) as [Hsort Hin]. fold plan in Hsort, Hin.
    destruct (recordEvents_spec data kRecordHandshake minor (recordPayloadLength h) plan 0
      (recordSplits plan ++ [recordPayloadLength h])) as (evs & parts & -> & Hst & Hends & Hv & Hcat).
    + apply StronglySorted_snoc; [done |]. eapply Forall_impl; [exact Hin |]. simpl. intros; lia.
    + apply Forall_app. split; [|constructor; [lia | done]]. eapply Forall_impl; [exact Hin |]. simpl. intros; lia.
    + lia.
    + unfold kMaxRecordPayload. lia.
    + unfold kRecordHeaderSize. lia.
    + apply buildPlan_chunk.
    + cbn [mbind option_bind]. apply (Hgo evs _ eq_refl). exists minor, parts. split_and!; try done.
      rewrite Hcat, last_snoc. cbn. by rewrite Z.sub_0_r.
  - rewrite region_ok by lia. cbn [mbind option_bind]. eapply Hgo; [cbn; rewrite app_nil_r; done |].
    assert (Hnil : recordSplits plan = []) by (unfold splitsAnything in Es; by destruct (recordSplits plan)).
    set (payload := slice data kRecordHeaderSize (recordPayloadLength h)).
    assert (Hz : zlen payload = recordPayloadLength h)
      by (unfold payload, kRecordHeaderSize; rewrite zlen_slice; lia).
    exists minor, [payload]. split_and!; [done | | by cbn; rewrite app_nil_r | cbn; by rewrite Hz, Hnil |].
    + rewrite bind_singleton, Htot, slice_split by lia.
      replace (slice data 0 5) with ([kRecordHandshake; 3; minor] ++ be16 (recordPayloadLength h)).
      { unfold wire_record. by rewrite Hz. }
      change (slice data 0 5) with (slice data 0 (1 + (1 + (1 + 2)))). rewrite !slice_split by lia.
      change (0 + 1) with 1. change (1 + 1) with 2. change (2 + 1) with 3.
      by rewrite (slice_1 _ _ _ H0), (slice_1 _ _ _ H1), (slice_1 _ _ _ H2), (slice_be16 _ _ _ Hd H3).
    + constructor; [|done]. unfold valid_payload, kMaxRecordPayload. lia.
Qed.

(** ** Lemmas: the pump *)

Lemma sendSome_bounds results len sent :
  0 <= sent <= len -> let '(_, n) := sendSome results len sent in sent <= n <= len.
Proof.
  revert sent. induction results as [|r results IH]; intros sent Hs; cbn [sendSome].
  { case_if; lia. }
  case_if; [lia |]. zbool. destruct r as [n| |]; [|lia | lia]. cbv zeta.
  set (wr := Z.min n _). case_if; zbool; [lia |].
  assert (wr <= len - sent) by (unfold wr; lia).
  specialize (IH (sent + wr) ltac:(lia)). destruct (sendSome results len (sent + wr)). lia.
Qed.

(** What is still owed to the destination, and when the half-close went out. *)
Definition direction_ok (d : Direction) (e : Effect) : Prop :=
  received e = delivered e ++ drop (Z.to_nat (offset d)) (pending d) /\
  0 <= offset d <= zlen (pending d) /\ (eof d = true -> pending d = []) /\
  shutdowns e = (if eof d then 1 else 0)%nat.

Lemma addEffect_none e : addEffect e noEffect = e.
Proof. destruct e. unfold addEffect, noEffect. cbn. by rewrite !app_nil_r, Nat.add_0_r. Qed.

Lemma directionStep_ok d e inp last d' ef last' go :
  direction_ok d e -> directionStep d inp last = (d', ef, last', go) ->
  let e' := addEffect e ef in
  delivered e' `prefix_of` received e' /\ (go = true -> direction_ok d' e').
Proof.
  intros Hok Hs. cbv zeta. pose proof Hok as (Hr & Ho & Heof & Hsh).
  assert (Hpre : delivered e `prefix_of` received e) by (rewrite Hr; by apply prefix_app_r).
  unfold directionStep in Hs.
  destruct (finished d) eqn:Ef; [injection Hs as <- <- <- <-; by rewrite addEffect_none |].
  destruct (bool_decide (pending d = [])) eqn:Ep; cbn [negb] in Hs.
  - apply bool_decide_eq_true in Ep.
    assert (Ee : eof d = false) by (unfold finished in Ef; rewrite Ep in Ef; by destruct (eof d)).
    rewrite Ep, drop_nil, app_nil_r in Hr. rewrite Ee in Hsh.
    destruct (di_ready inp); cbn [negb] in Hs; [|injection Hs as <- <- <- <-; by rewrite addEffect_none].
    destruct (di_recv inp) as [b| | |]; try (injection Hs as <- <- <- <-; by rewrite addEffect_none).
    + pose proof (sendSome_bounds (di_sends inp) (zlen b) 0 ltac:(zlia)) as Hb.
      destruct (sendSome (di_sends inp) (zlen b) 0) as [ok n].
      assert (Hpx : delivered e ++ take (Z.to_nat n) b `prefix_of` received e ++ b).
      { rewrite Hr. apply prefix_app. exists (drop (Z.to_nat n) b). by rewrite take_drop. }
      destruct ok; cbn [negb] in Hs; [|by injection Hs as <- <- <- <-].
      case_if_in Hs; zbool; injection Hs as <- <- <- <-; (split; [done |]); intros _.
      * split_and!; cbn; [by rewrite Hr, drop_0, <- app_assoc, take_drop | lia | zlia | by rewrite Ee | ].
        rewrite Ee. lia.
      * split_and!; cbn; [|lia | lia | done | by rewrite Ee; lia].
        rewrite Ep, drop_nil, app_nil_r, Hr, take_ge by (unfold zlen in *; lia). done.
    + injection Hs as <- <- <- <-. cbn. rewrite !app_nil_r. split; [done |]. intros _.
      split_and!; cbn; [by rewrite !app_nil_r, Ep, drop_nil, app_nil_r | lia | lia | done | lia].
  - apply bool_decide_eq_false in Ep.
    assert (Ee : eof d = false) by (destruct (eof d); [exfalso; by apply Ep, Heof | done]). rewrite Ee in *.
    destruct (di_ready inp); cbn [negb] in Hs; [|injection Hs as <- <- <- <-; by rewrite addEffect_none].
    set (rest := drop (Z.to_nat (offset d)) (pending d)) in *.
    assert (Hz : zlen rest = zlen (pending d) - offset d) by (unfold rest; rewrite zlen_drop; lia).
    pose proof (sendSome_bounds (di_sends inp) (zlen rest) 0 ltac:(zlia)) as Hb.
    destruct (sendSome (di_sends inp) (zlen rest) 0) as [ok n].
    assert (Hrest : drop (Z.to_nat (offset d + n)) (pending d) = drop (Z.to_nat n) rest).
    { unfold rest. rewrite drop_drop. f_equal. lia. }
    assert (Hpx : delivered e ++ take (Z.to_nat n) rest `prefix_of` received e ++ []).
    { rewrite app_nil_r, Hr. apply prefix_app. exists (drop (Z.to_nat n) rest). by rewrite take_drop. }
    destruct ok; cbn [negb] in Hs; [|by injection Hs as <- <- <- <-].
    case_if_in Hs; zbool; injection Hs as <- <- <- <-; (split; [done |]); intros _.
    + split_and!; cbn; try done; try lia.
      rewrite !app_nil_r, Hr, take_ge by (unfold zlen in *; lia). done.
    + split_and!; cbn; [|lia | lia | done | lia].
      by rewrite app_nil_r, Hrest, <- app_assoc, take_drop.
Qed.

Lemma pump_loop_ok limit wakes p :
  direction_ok (upstream p) (upEffect p) -> direction_ok (downstream p) (downEffect p) ->
  let '(r, p') := pump_loop limit wakes p in
  delivered (upEffect p') `prefix_of` received (upEffect p') /\
  delivered (downEffect p') `prefix_of` received (downEffect p') /\
  (r <> Aborted -> direction_ok (upstream p') (upEffect p') /\ direction_ok (downstream p') (downEffect p')) /\
  (r = Finished -> finished (upstream p') = true /\ finished (downstream p') = true).
Proof.
  revert p. induction wakes as [|w wakes IH]; intros p Hu Hd.
  all: assert (Hup : delivered (upEffect p) `prefix_of` received (upEffect p))
    by (destruct Hu as [-> _]; by apply prefix_app_r).
  all: assert (Hdp : delivered (downEffect p) `prefix_of` received (downEffect p))
    by (destruct Hd as [-> _]; by apply prefix_app_r).
  { by cbn. }
  cbn [pump_loop]. case_if; [by split_and! |].
  destruct (finished (upstream p) && _) eqn:Ef; [apply andb_true_iff in Ef; by split_and! |].
  do 2 (case_if; [by split_and! |]). case_if; [by apply IH |].
  destruct (directionStep (upstream p) (wk_up w) _) as [[[up ue] last] go] eqn:Eu.
  destruct (directionStep_ok _ _ _ _ _ _ _ _ Hu Eu) as [Hup' Hu'].
  destruct go; cbn [negb]; [|by split_and!]. specialize (Hu' eq_refl).
  destruct (directionStep (downstream p) (wk_down w) last) as [[[down de] last'] go] eqn:Ed.
  destruct (directionStep_ok _ _ _ _ _ _ _ _ Hd Ed) as [Hdp' Hd'].
  destruct go; cbn [negb]; [|by split_and!]. specialize (Hd' eq_refl). by apply IH.
Qed.

(** ** Properties *)

(** C13: The pump loses, invents and reorders nothing. Whatever the sockets do, in each
    direction the bytes written are a prefix of the bytes read; unless it ended on an
    error, what is missing is exactly what is pending, a half-close is passed on once and
    only after every byte before it; and when the pump ends because both sides are done,
    every byte was delivered both ways. *)
Theorem pump_preserves_streams (nonBlocking : bool) (idleTimeoutMs start : Z) (wakes : list Wake) :
  let '(r, p) := pump nonBlocking idleTimeoutMs start wakes in
  delivered (upEffect p) `prefix_of` received (upEffect p) /\
  delivered (downEffect p) `prefix_of` received (downEffect p) /\
  (r <> Aborted -> direction_ok (upstream p) (upEffect p) /\ direction_ok (downstream p) (downEffect p)) /\
  (r = Finished ->
     received (upEffect p) = delivered (upEffect p) /\ shutdowns (upEffect p) = 1%nat /\
     received (downEffect p) = delivered (downEffect p) /\ shutdowns (downEffect p) = 1%nat).
Proof.
  unfold pump. destruct nonBlocking; cbn [negb]; [|by split_and!].
  pose proof (pump_loop_ok idleTimeoutMs wakes (mkPump newDirection newDirection start noEffect noEffect)) as H.
  destruct (pump_loop _ _ _) as [r p].
  destruct H as (H1 & H2 & H3 & H4); [by split_and! | by split_and! |]. split_and!; try done.
  intros ->. destruct (H3 ltac:(done)) as [(Ru & _ & _ & Su) (Rd & _ & _ & Sd)]. destruct (H4 eq_refl) as [Fu Fd].
  apply andb_true_iff in Fu as [Eu Pu%bool_decide_eq_true], Fd as [Ed Pd%bool_decide_eq_true].
  rewrite Pu, drop_nil, app_nil_r in Ru. rewrite Pd, drop_nil, app_nil_r in Rd. rewrite Eu in Su. rewrite Ed in Sd.
  by split_and!.
Qed.

Section DeliverProperties.
Context `{!MapOrder bytes} `{!MapOrder PeerKey}.
Context (inet_pton4 inet_pton6 : bytes -> option bytes) (conn : Connection) (env : nat -> AttemptEnv).

(** The last attempt was profile [p] and drew a ServerHello. *)
Definition answered (ev : list Attempt) (p : bytes) : Prop :=
  exists pre a, ev = pre ++ [a] /\ profile a = p /\ signal a = ServerHello.

(** The packet policy armed for iteration [i] was reported as applied when it was asked
    for, after what the packet loop did meanwhile. *)
Definition transformed (i : nat) (p : bytes) (st : Deliver) : Prop :=
  exists r0,
    let r := arm inet_pton4 inet_pton6 r0 (connectedAddress_ st) (ae_localPort (env i))
               (policyForProfile p (hello conn)).2 0 (ae_armTick (env i)) in
    (consumeApplied inet_pton4 inet_pton6 (foldl (policy_run inet_pton4 inet_pton6) r (ae_packets (env i)))
       (connectedAddress_ st) (ae_localPort (env i)) 0 (ae_consumeTick (env i))).1 = true.

(** What justifies one of this connection's operations on the store. *)
Definition call_justified (ctx : Context) (remembered : bytes) (ok : bool) (st : Deliver) (op : StoreOp)
    : Prop :=
  let ev := evidence st in
  let verdict := infer ev ctx in
  learning conn = true /\
  match op with
  | OpNoteBaselineHealthy n h _ _ => n = networkId conn /\ h = host conn /\ answered ev (str "none")
  | OpRemember n h p k c _ _ =>
      n = networkId conn /\ h = host conn /\ answered ev p /\ k = kind verdict /\ c = confidence verdict /\
      (if bool_decide (p = str "none") then remembered <> []
       else k <> TransientFailure /\ (isPacketProfile p = true -> exists i, transformed i p st))
  | OpRecordFailure n h p _ =>
      n = networkId conn /\ h = host conn /\ p = remembered /\
      (exists a, a ∈ ev /\ profile a = remembered /\ signal a <> ServerHello) /\
      (ok = true -> kind verdict <> TransientFailure /\ ~ answered ev (str "none"))
  | _ => False
  end.

(** The loop between two attempts. *)
Definition probing (base : list StoreOp) (remembered : bytes) (st : Deliver) : Prop :=
  Forall (λ a, signal a <> ServerHello) (evidence st) /\
  0 <= attempts st /\ zlen (evidence st) <= attempts st <= kMaxProbeAttempts /\ calls st = base /\
  (rememberedFailed st = true -> exists a, a ∈ evidence st /\ profile a = remembered).

Definition delivered_ok (base : list StoreOp) (ctx : Context) (remembered : bytes) (ok : bool) (st : Deliver)
    : Prop :=
  zlen (evidence st) <= kMaxProbeAttempts /\ (ok = true <-> exists p, answered (evidence st) p) /\
  (ok = true -> answered (evidence st) (activeProfile_ st)) /\
  exists own, calls st = base ++ own /\ Forall (call_justified ctx remembered ok st) own.

Lemma recordTelemetry_frame v r s t st :
  let st' := recordTelemetry conn v r s t st in
  evidence st' = evidence st /\ calls st' = calls st /\ connectedAddress_ st' = connectedAddress_ st /\
  activeProfile_ st' = activeProfile_ st.
Proof. cbv zeta. unfold recordTelemetry. by case_if. Qed.

Lemma settleFailure_frame r ck st :
  let st' := settleFailure conn r ck st in
  evidence st' = evidence st /\ connectedAddress_ st' = connectedAddress_ st /\
  activeProfile_ st' = activeProfile_ st /\
  calls st' = calls st ++
    (if learning conn && rememberedFailed st then [OpRecordFailure (networkId conn) (host conn) r ck] else []).
Proof. cbv zeta. unfold settleFailure. case_if; [done |]. by rewrite app_nil_r. Qed.

Lemma giveUp_ok base ctx remembered i st :
  probing base remembered st ->
  delivered_ok base ctx remembered (giveUp conn env ctx remembered i st).1 (giveUp conn env ctx remembered i st).2.
Proof.
  intros (Hns & H0 & Hat & Hc & Hrf). unfold giveUp. cbv zeta. cbn [fst snd].
  set (st1 := settleFailure conn remembered _ st).
  destruct (settleFailure_frame remembered (ae_clock (env i)) st) as (E1 & _ & _ & C1). fold st1 in E1, C1.
  set (st2 := recordTelemetry conn _ _ _ _ st1).
  destruct (recordTelemetry_frame (infer (evidence st) ctx) remembered false (ae_total (env i)) st1) as (E2 & C2 & _).
  fold st2 in E2, C2. unfold delivered_ok. rewrite E2, E1, C2, C1, Hc. split_and!; [lia | | done |].
  - split; [done |]. intros (p & pre & a & He & _ & Hs). rewrite He in Hns.
    apply Forall_app in Hns as [_ Hns]. by apply Forall_inv in Hns.
  - eexists. split; [done |]. destruct (learning conn && rememberedFailed st) eqn:El; [|constructor].
    apply andb_true_iff in El as [Hl Hr]. constructor; [|constructor]. split; [done |].
    rewrite E2, E1. split_and!; try done. destruct (Hrf Hr) as (a & Ha & Hp). exists a. split_and!; try done.
    rewrite Forall_forall in Hns. by apply Hns.
Qed.

Lemma call_justified_frame ctx remembered ok st st' op :
  evidence st' = evidence st -> connectedAddress_ st' = connectedAddress_ st ->
  call_justified ctx remembered ok st op -> call_justified ctx remembered ok st' op.
Proof. intros He Ha. unfold call_justified, transformed. by rewrite He, Ha. Qed.

(** Asking for the policy of this attempt. *)
Lemma packetPolicyApplied_frame tick st :
  let '(b, st') := packetPolicyApplied inet_pton4 inet_pton6 tick st in
  evidence st' = evidence st /\ connectedAddress_ st' = connectedAddress_ st /\
  activeProfile_ st' = activeProfile_ st /\ calls st' = calls st /\
  rememberedFailed st' = rememberedFailed st /\
  (b = true -> exists r, registry st = Some r /\ armedLocalPort_ st <> 0 /\
     (consumeApplied inet_pton4 inet_pton6 r (connectedAddress_ st) (armedLocalPort_ st) 0 tick).1 = true).
Proof.
  unfold packetPolicyApplied. destruct (registry st) as [r|]; [|done]. destruct (armedLocalPort_ st =? 0) eqn:E0; [done |]. zbool.
  destruct (consumeApplied _ _ _ _ _ _ _) as [b r'] eqn:Ec. split_and!; try done.
  intros ->. exists r. by rewrite Ec.
Qed.

(** The state in which a ServerHello arrives for profile [p] in iteration [i]. *)
Definition answered_state (base : list StoreOp) (remembered p : bytes) (i : nat) (st : Deliver) : Prop :=
  (exists pre a, evidence st = pre ++ [a] /\ profile a = p /\ signal a = ServerHello /\
     Forall (λ a, signal a <> ServerHello) pre /\
     (rememberedFailed st = true -> exists b, b ∈ pre /\ profile b = remembered)) /\
  zlen (evidence st) <= kMaxProbeAttempts /\ activeProfile_ st = p /\ calls st = base /\
  (isPacketProfile p = true -> forall r, registry st = Some r -> armedLocalPort_ st <> 0 -> exists r0,
     r = foldl (policy_run inet_pton4 inet_pton6)
           (arm inet_pton4 inet_pton6 r0 (connectedAddress_ st) (ae_localPort (env i))
              (policyForProfile p (hello conn)).2 0 (ae_armTick (env i))) (ae_packets (env i)) /\
     armedLocalPort_ st = ae_localPort (env i)).

Lemma learnFrom_ok base ctx remembered p i st :
  answered_state base remembered p i st ->
  let st' := (learnFrom inet_pton4 inet_pton6 conn (infer (evidence st) ctx) remembered p (env i) st).2 in
  evidence st' = evidence st /\ connectedAddress_ st' = connectedAddress_ st /\
  activeProfile_ st' = activeProfile_ st /\
  exists own, calls st' = calls st ++ own /\ Forall (call_justified ctx remembered true st) own.
Proof.
  intros ((pre & a & He & Hp & Ha & Hpre & Hrf) & Hz & Hact & Hcalls & Hpk). cbv zeta.
  assert (Hans : answered (evidence st) p) by (by exists pre, a).
  assert (Hone : ~ answered (evidence st) (str "none") \/ p = str "none").
  { destruct (decide (p = str "none")); [by right | left]. intros (pre' & a' & He' & Hp' & _).
    rewrite He in He'. apply app_inj_tail in He' as [_ <-]. congruence. }
  unfold learnFrom. destruct (learning conn) eqn:El; cbn [negb]; [|by split_and!; [..|exists []; rewrite app_nil_r]].
  destruct (bool_decide (p = str "none")) eqn:En; zbool.
  { assert (Hnote : call_justified ctx remembered true st
      (OpNoteBaselineHealthy (networkId conn) (host conn) 0 (ae_clock (env i)))) by (rewrite En in Hans; by split_and!).
    cbn [snd]. destruct (bool_decide (remembered = [])) eqn:Er; zbool; cbn [call evidence connectedAddress_ activeProfile_ calls];
      (split_and!; [done | done | done |]).
    - eexists. split; [done |]. by constructor.
    - eexists. rewrite <- app_assoc. split; [done |]. constructor; [done |]. constructor; [|constructor].
      split_and!; try done. by rewrite bool_decide_eq_true_2. }
  destruct Hone as [Hone|]; [|done].
  set (q := if isPacketProfile p then _ else _).
  assert (Hq : evidence q.2 = evidence st /\ connectedAddress_ q.2 = connectedAddress_ st /\
    activeProfile_ q.2 = activeProfile_ st /\ calls q.2 = calls st /\
    rememberedFailed q.2 = rememberedFailed st /\
    (q.1 = false -> isPacketProfile p = true -> transformed i p st)).
  { unfold q. destruct (isPacketProfile p) eqn:Ep; [|by split_and!].
    pose proof (packetPolicyApplied_frame (ae_consumeTick (env i)) st) as Hf.
    destruct (packetPolicyApplied _ _ _ _) as [b st']. destruct Hf as (F1 & F2 & F3 & F4 & F5 & F6).
    cbn. split_and!; try done. intros Hb _. destruct b; [|done]. destruct (F6 eq_refl) as (r & Hr & Hpt & Hc).
    destruct (Hpk eq_refl r Hr Hpt) as (r0 & -> & Hport). exists r0. by rewrite Hport in Hc. }
  destruct q as [skip st1]. cbn [fst snd] in Hq. destruct Hq as (Q1 & Q2 & Q3 & Q4 & Q5 & Q6).
  destruct skip; [cbn; split_and!; try done; exists []; by rewrite app_nil_r |].
  destruct (bool_decide (kind _ = TransientFailure)) eqn:Et; zbool; [cbn; split_and!; try done; exists []; by rewrite app_nil_r |].
  cbn [snd call evidence connectedAddress_ activeProfile_ calls].
  destruct (settleFailure_frame remembered (ae_clock (env i)) st1) as (S1 & S2 & S3 & S4).
  rewrite S1, S2, S3, S4, Q1, Q2, Q3, Q4, Q5. split_and!; try done.
  eexists. rewrite <- app_assoc. split; [done |]. apply Forall_app. split.
  - destruct (learning conn && rememberedFailed st) eqn:Elr; [|constructor].
    apply andb_true_iff in Elr as [_ Hr]. constructor; [|constructor]. split_and!; try done.
    destruct (Hrf Hr) as (b & Hb & Hbp). exists b. split_and!; try done.
    + rewrite He. apply elem_of_app. by left.
    + rewrite Forall_forall in Hpre. by apply Hpre.
  - constructor; [|constructor]. split_and!; try done. rewrite bool_decide_eq_false_2 by done.
    split; [done |]. intros Hpk'. exists i. by apply Q6.
Qed.

Lemma onServerHello_ok base ctx remembered p i st :
  answered_state base remembered p i st ->
  delivered_ok base ctx remembered true (onServerHello inet_pton4 inet_pton6 conn env ctx remembered p i st).
Proof.
  intros Hst. pose proof (learnFrom_ok base ctx remembered p i st Hst) as Hl. cbv zeta in Hl.
  destruct Hst as ((pre & a & He & Hp & Ha & _) & Hz & Hact & Hcalls & _).
  unfold onServerHello. destruct (learnFrom _ _ _ _ _ _ _ _) as [v st1]. cbn [snd] in Hl.
  destruct Hl as (E1 & A1 & P1 & own & C1 & J).
  destruct (recordTelemetry_frame v remembered true (ae_total (env i)) st1) as (E2 & C2 & A2 & P2).
  unfold delivered_ok. rewrite E2, E1, P2, P1, Hact. split_and!; [done | | |].
  - split; [|done]. intros _. by exists p, pre, a.
  - intros _. by exists pre, a.
  - exists own. rewrite C2, C1, Hcalls. split; [done |]. eapply Forall_impl; [exact J |].
    intros op. apply call_justified_frame; congruence.
Qed.

Lemma giveUp_done base ctx remembered i st ok st' :
  probing base remembered st -> Some (giveUp conn env ctx remembered i st) = Some (ok, st') ->
  delivered_ok base ctx remembered ok st'.
Proof.
  intros Hpr Hg%(inj Some). pose proof (giveUp_ok base ctx remembered i st Hpr) as Hok. by rewrite Hg in Hok.
Qed.

Lemma deliver_loop_ok base ctx remembered order i st ok st' :
  probing base remembered st ->
  deliver_loop inet_pton4 inet_pton6 conn env ctx remembered i order st = Some (ok, st') ->
  delivered_ok base ctx remembered ok st'.
Proof.
  revert i st. induction order as [|p order IH]; intros i st Hpr.
  { by apply giveUp_done. }
  cbn [deliver_loop]. destruct (_ || _) eqn:Estop; [by apply giveUp_done |]. apply orb_false_iff in Estop as [Emax _].
  unfold kMaxProbeAttempts in Emax. zbool.
  destruct (buildPlan p (hello conn) (splitDelayMs conn)) as [applicable plan].
  case_if; [by apply IH |]. case_if; [by apply IH |].
  destruct (if 0 <? attempts st then _ else _) as [address|].
  2:{ apply giveUp_done. exact Hpr. }
  destruct (writePlan _ _ _ _ _) as [[sent evs]|]; [|done]. cbn [mbind option_bind].
  destruct Hpr as (Hns & H0 & Hat & Hc & Hrf). unfold kMaxProbeAttempts in Hat.
  set (st1 := worldActs _ _ _ _).
  assert (Hst1 : evidence st1 = evidence st /\ attempts st1 = attempts st + 1 /\ calls st1 = calls st /\
    rememberedFailed st1 = rememberedFailed st).
  { unfold st1, armPolicy. destruct (policyForProfile _ _) as [fnd pol]. cbn.
    destruct (registry st); [destruct fnd|]; done. }
  assert (Hreg : forall r, registry st1 = Some r -> armedLocalPort_ st1 <> 0 -> exists r0,
    r = foldl (policy_run inet_pton4 inet_pton6)
          (arm inet_pton4 inet_pton6 r0 (connectedAddress_ st1) (ae_localPort (env i))
             (policyForProfile p (hello conn)).2 0 (ae_armTick (env i))) (ae_packets (env i)) /\
    armedLocalPort_ st1 = ae_localPort (env i)).
  { intros r. unfold st1, armPolicy. destruct (policyForProfile p (hello conn)) as [fnd pol]. cbn.
    destruct (registry st) as [r0|]; [|done]. destruct fnd; cbn; [|done]. intros [= <-] _. by exists r0. }
  clearbody st1. destruct Hst1 as (T1 & T2 & T3 & T4).
  assert (Hp1 : probing base remembered st1).
  { unfold probing, kMaxProbeAttempts. rewrite T1, T2, T3, T4. split_and!; try done; lia. }
  destruct sent; cbn [negb]; [|by apply IH].
  destruct (awaitResponse _) as [[outcome response]|]; [|done]. cbn [mbind option_bind].
  destruct (bool_decide (outcome = ServerHello)) eqn:Eo; zbool.
  - intros [= <- <-]. subst outcome. apply onServerHello_ok. split_and!.
    + eexists _, _. cbn [observed evidence rememberedFailed]. rewrite T1, T4. split_and!; done.
    + cbn [observed evidence]. rewrite T1, zlen_app, zlen_cons, zlen_nil. unfold kMaxProbeAttempts. lia.
    + cbn [observed activeProfile_]. by rewrite bool_decide_eq_true_2.
    + cbn [observed calls]. by rewrite T3.
    + intros _. exact Hreg.
  - apply IH. unfold probing, kMaxProbeAttempts. cbn [attemptFailed observed evidence attempts calls rememberedFailed].
    rewrite T1, T2, T3, T4. split_and!; try done; try zlia.
    + apply Forall_app. split; [done | by constructor].
    + case_if.
      * intros _. apply andb_true_iff in E1 as [_ ->%bool_decide_eq_true]. eexists.
        split; [apply elem_of_app; right; by apply list_elem_of_singleton | done].
      * intros (b & Hb & ?)%Hrf. exists b. split; [apply elem_of_app; by left | done].
Qed.
Definition reply_bytes (x : Recv) : Prop := match x with Data b => all_bytes b | _ => True end.

Lemma await_loop_total inputs out :
  all_bytes out -> Forall reply_bytes inputs -> exists r, await_loop inputs out = Some r.
Proof.
  intros Ho Hi. revert out Ho. induction Hi as [|x inputs Hx _ IH]; intros out Ho; cbn [await_loop];
    (case_if; [eauto |]); [eauto |]. destruct x as [b| |]; [|eauto | eauto].
  assert (Hb : all_bytes (out ++ b)) by (by apply all_bytes_app).
  destruct (classify_loop_total (S (length (out ++ b))) (out ++ b) Hb) as (s & Hs & _); [unfold zlen; lia |].
  fold (classifyServerResponse (out ++ b)) in Hs. rewrite Hs. cbn [mbind option_bind].
  destruct s; eauto.
Qed.

Context (Hbytes : all_bytes (buffer conn)) (Hparse : parseClientHello (buffer conn) = Some (Ok, hello conn)).
Context (Hreplies : forall i, Forall reply_bytes (ae_replies (env i))).

Lemma deliver_loop_total ctx remembered order i st :
  exists r, deliver_loop inet_pton4 inet_pton6 conn env ctx remembered i order st = Some r.
Proof.
  revert i st. induction order as [|p order IH]; intros i st; cbn [deliver_loop]; [eauto |].
  case_if; [eauto |].
  destruct (writePlan_spec (buffer conn) (hello conn) p (splitDelayMs conn) (ae_sendOk (env i)) Hbytes Hparse)
    as (sent & evs & full & Hw & _).
  destruct (buildPlan p (hello conn) (splitDelayMs conn)) as [applicable plan]. cbn [snd] in Hw.
  do 2 (case_if; [apply IH |]). destruct (if 0 <? attempts st then _ else _); [|eauto].
  rewrite Hw. cbn [mbind option_bind]. destruct sent; cbn [negb]; [|apply IH].
  destruct (await_loop_total (ae_replies (env i)) []) as [[outcome response] Ha]; [constructor | done |].
  fold (awaitResponse (ae_replies (env i))) in Ha. rewrite Ha. cbn [mbind option_bind].
  case_if; [eauto | apply IH].
Qed.

(** C7: What the relay learns is earned. For a parsed hello, whatever the network, the
    packet loop and other connections do, [deliverHello] returns after at most twelve
    attempts, with success exactly when its last attempt drew a ServerHello, and every
    operation it makes on the store is justified: the baseline is noted healthy, or
    retires a winner, only when the untouched hello was answered; a bypass is remembered
    only when it was answered, the verdict is not a transient failure and, for a packet
    profile, the armed policy was reported applied; a failure is held against the
    remembered profile only if it failed here and the event was neither a transient
    failure nor won by the baseline. A pinned profile touches the store not at all. *)
Theorem deliver_learns_soundly (ck : Clock) (sendOk : nat -> bool) (st : Deliver) :
  spansRecords (hello conn) = false ->
  let op := OpProbeOrder (networkId conn) (host conn) (hello conn) 0 ck in
  let first := if learning conn then [op] else [] in
  let s := run_ops (store st) first in
  let remembered := storeLookup s (networkId conn) (host conn) ck in
  let ctx := if learning conn
             then mkContext remembered (StrategyStore.baselineRecentlyHealthy s (networkId conn) (host conn) 0 ck)
             else mkContext [] false in
  exists ok st', deliverHello inet_pton4 inet_pton6 conn env true ck sendOk st = Some (ok, st') /\
    delivered_ok (calls st ++ first) ctx remembered ok st' /\
    (learning conn = false -> calls st' = calls st).
Proof.
  intros Hsp. cbv zeta.
  assert (Hfin : forall base ctx remembered ok st', (learning conn = false -> base = calls st) ->
    delivered_ok base ctx remembered ok st' -> learning conn = false -> calls st' = calls st).
  { intros base ctx rem ok st' Hb (_ & _ & _ & own & Hc & Hj) Hl. rewrite Hc, (Hb Hl).
    destruct Hj as [|x own [Hx _] _]; [apply app_nil_r | congruence]. }
  assert (Hbuf : buffer conn <> []) by (intros Hn; rewrite Hn in Hparse; done).
  unfold deliverHello. rewrite bool_decide_eq_false_2 by done. rewrite Hsp. cbn [negb orb].
  set (start := if learning conn then _ else _).
  assert (Hstart : calls start.2 = calls st ++
      (if learning conn then [OpProbeOrder (networkId conn) (host conn) (hello conn) 0 ck] else []) /\
    store start.2 = run_ops (store st)
      (if learning conn then [OpProbeOrder (networkId conn) (host conn) (hello conn) 0 ck] else [])).
  { unfold start. destruct (learning conn); [done |]. rewrite app_nil_r. by case_if. }
  destruct start as [order st0]. cbn [snd] in Hstart. destruct Hstart as [Hc Hs]. rewrite <- Hs.
  set (base := calls st ++ _) in *.
  assert (Hinit : forall remembered, probing base remembered (freshProbe st0)).
  { intros rem. unfold probing, kMaxProbeAttempts. cbn. split_and!; try done; lia. }
  match goal with |- context [ deliver_loop _ _ _ _ ?c ?r 0 order ?s0 ] =>
    destruct (deliver_loop_total c r order 0 s0) as [[ok st'] Hd]; rewrite Hd;
    pose proof (deliver_loop_ok base c r order 0 s0 ok st' (Hinit r) Hd) as Hok end.
  exists ok, st'. split_and!; [done | done |]. eapply Hfin; [|exact Hok].
  intros Hl. unfold base. rewrite Hl. apply app_nil_r.
Qed.
End DeliverProperties.

(** C6: A transformed hello is still the hello. Under every plan of the profile table, what
    an attempt writes is, when no send fails, a sequence of TLS handshake records of legal
    size whose payloads concatenate to the payload of the client's record and whose
    boundaries are exactly the plan's cuts; when a send fails it is a prefix of that. No
    byte that follows the ClientHello is written, so early data is never replayed. *)
Theorem hello_reassembles (data : bytes) (h : ClientHello) (profileName : bytes) (delay : Z) (ok : nat -> bool) :
  all_bytes data -> parseClientHello data = Some (Ok, h) ->
  let plan := (buildPlan profileName h delay).2 in
  exists sent evs full, writePlan true data h plan ok = Some (sent, evs) /\
    reframed data h (recordSplits plan) full /\ stream evs `prefix_of` full /\
    (sent = true -> stream evs = full) /\ ((forall m, ok m = true) -> sent = true).
Proof. apply writePlan_spec. Qed.

(** The bytes of the receptions, in order. *)
Definition incoming (inputs : list (bool * Recv)) : bytes :=
  inputs ≫= λ i, match i.2 with Data b => b | _ => [] end.

(** Collecting the hello: on every sequence of receptions the loop returns; the buffer is a
    prefix of what arrived, nothing dropped or reordered; and a hello declared complete is
    what the parser says of exactly that buffer, with the host taken from it. *)
Theorem collect_sound (inputs : list (bool * Recv)) (stopEnd : bool) (h : ClientHello) (host : bytes) :
  Forall (λ i, reply_bytes i.2) inputs ->
  exists r c, collectClientHello inputs stopEnd h host = Some (r, c) /\
    clientBuffer_ c `prefix_of` incoming inputs /\
    (helloComplete_ c = true ->
       r = true /\ parseClientHello (clientBuffer_ c) = Some (Ok, hello_ c) /\
       targetHost_ c = if bool_decide (serverName (hello_ c) = []) then host
                       else normalizeHost (serverName (hello_ c))).
Proof.
  intros Hi. unfold collectClientHello.
  enough (Hgen : forall c0, helloComplete_ c0 = false -> targetHost_ c0 = host -> all_bytes (clientBuffer_ c0) ->
    exists r c, collect_loop inputs stopEnd c0 = Some (r, c) /\
      clientBuffer_ c `prefix_of` clientBuffer_ c0 ++ incoming inputs /\
      (helloComplete_ c = true ->
         r = true /\ parseClientHello (clientBuffer_ c) = Some (Ok, hello_ c) /\
         targetHost_ c = if bool_decide (serverName (hello_ c) = []) then host
                         else normalizeHost (serverName (hello_ c)))).
  { destruct (Hgen (mkCollected [] h false host)) as (r & c & ? & ? & ?); [done | done | constructor |].
    exists r, c. by split_and!. }
  induction Hi as [|[stopping x] inputs Hx _ IH]; intros c0 Hc Hh Hb.
  { exists (negb stopEnd), c0. split_and!; [done | by apply prefix_app_r | by rewrite Hc]. }
  cbn [collect_loop]. case_if.
  { exists false, c0. split_and!; [done | by apply prefix_app_r | by rewrite Hc]. }
  destruct x as [b| |].
  2,3: eexists _, c0; split_and!; [done | by apply prefix_app_r | by rewrite Hc].
  assert (Hb' : all_bytes (clientBuffer_ c0 ++ b)) by (by apply all_bytes_app).
  destruct (parseClientHello_spec _ Hb') as (s & h' & Hp & _). rewrite Hp. cbn [mbind option_bind].
  assert (Hpre : clientBuffer_ c0 ++ b `prefix_of` clientBuffer_ c0 ++ incoming ((stopping, Data b) :: inputs)).
  { apply prefix_app. unfold incoming. rewrite bind_cons. cbn. by apply prefix_app_r. }
  destruct s.
  - eexists _, _. split; [done |]. cbn [clientBuffer_ hello_ helloComplete_ targetHost_]. rewrite Hh. by split_and!.
  - case_if; [eexists _, _; by split_and! |].
    destruct (IH (mkCollected (clientBuffer_ c0 ++ b) h' false (targetHost_ c0))) as (r & c & -> & Hpx & Hdone); try done.
    exists r, c. split_and!; try done. cbn in Hpx. unfold incoming. rewrite bind_cons. cbn. by rewrite app_assoc.
  - eexists _, _. by split_and!.
  - eexists _, _. by split_and!.
Qed.

(** ** Concrete runs *)

Definition sample_connection : Connection :=
  mkConnection (str "net") (str "ab.cd") [] 20 true sample_hello (mkClientHello 61 66 61 5 (str "ab.cd") false false).
(** The target resets every connection. *)
Definition sample_env (i : nat) : AttemptEnv :=
  mkAttemptEnv false (Some (str "1.2.3.4")) 5000 1000 (λ _, true) [Error0] 30 [] []
    (mkClock 1000 1000 1000) 1000 500.
Definition sample_deliver : Deliver :=
  mkDeliver (newStore []) None (str "1.2.3.4") 0 0 [] false (str "none") [] [] [] [] 0 [].

Example sample_gives_up :
  (λ r, (r.1, length (evidence r.2))) <$>
    deliverHello one_address no_address sample_connection sample_env true (mkClock 1000 1000 1000) (λ _, true)
      sample_deliver = Some (false, 6%nat).
Proof. vm_compute. reflexivity. Qed.

Lemma hello_reassembles_witness :
  let plan := (buildPlan (str "sni-multi") (mkClientHello 61 66 61 5 (str "ab.cd") false false) 20).2 in
  exists sent evs full,
    writePlan true sample_hello (mkClientHello 61 66 61 5 (str "ab.cd") false false) plan (λ _, true) = Some (sent, evs) /\
    reframed sample_hello (mkClientHello 61 66 61 5 (str "ab.cd") false false) (recordSplits plan) full /\
    stream evs `prefix_of` full /\ (sent = true -> stream evs = full) /\
    ((forall m : nat, true = true) -> sent = true).
Proof.
  apply (hello_reassembles sample_hello (mkClientHello 61 66 61 5 (str "ab.cd") false false) (str "sni-multi") 20 (λ _, true)).
  - apply all_bytes_check. reflexivity.
  - vm_compute. reflexivity.
Defined.

Lemma deliver_learns_soundly_witness :
  exists ok st', deliverHello one_address no_address sample_connection sample_env true
    (mkClock 1000 1000 1000) (λ _, true) sample_deliver = Some (ok, st').
Proof.
  destruct (deliver_learns_soundly one_address no_address sample_connection sample_env)
    with (ck := mkClock 1000 1000 1000) (sendOk := λ _ : nat, true) (st := sample_deliver)
    as (ok & st' & Hd & _).
  - apply all_bytes_check. reflexivity.
  - vm_compute. reflexivity.
  - intros i. constructor; [exact I | constructor].
  - reflexivity.
  - exists ok, st'. exact Hd.
Defined.
