(* ===== verification/RelayLife.v ===== *)
(** * RelayLife: the handles of one relayed connection, and the Worker tunnel

    Models what [DirectRelay.v] leaves out of [src/src/DirectRelay.cpp]: the addresses a
    connection is tried on, connecting and reconnecting, [run], handing the connection over
    to the tunnel, [closeSockets] and [stop]; and the tunnel itself: [src/src/Relay.cpp]
    and [src/src/WsClient.cpp].

    Three kinds of threads meet here: the session's thread, which runs the relay and owns
    it; the thread that pumps the client's bytes into the WebSocket; and whoever calls
    [stop]. Two mutexes, [socketMutex_] and [sendMutex_], protect handle values. The
    programs are those of [Concurrency]; what only the owner writes is the record [Core],
    the flags everybody writes are in [Relay]. A handle is a number that is never reused;
    to use or close a handle that is not open, or to touch a tunnel that is gone, is a
    fault. Sections that hold a mutex without blocking are one step that waits for the
    mutex; where the code blocks while it holds a mutex, taking and releasing it are steps
    of their own. The safety of all this is proved in [RelayThreads]. *)

From S2P Require Import Prelude Concurrency Json.

(** ** Addresses *)

(** A row of [getaddrinfo]: the text [inet_ntop] makes of it, empty if it fails. *)
Inductive AddrInfo := Inet (text : bytes) | Inet6 (text : bytes) | OtherFamily.

Definition kMaxSystemAddresses : nat := 8.

Definition addUnique (out : list bytes) (address : bytes) : list bytes :=
  if bool_decide (address ∈ out) then out else out ++ [address].

Fixpoint systemResolve_loop (rows : list AddrInfo) (out : list bytes) : list bytes :=
  match rows with
  | [] => out
  | row :: rows =>
      if negb (length out <? kMaxSystemAddresses)%nat then out
      else match row with
           | OtherFamily => systemResolve_loop rows out
           | Inet text | Inet6 text =>
               systemResolve_loop rows (if bool_decide (text = []) then out else addUnique out text)
           end
  end.

(** [None]: [getaddrinfo] failed. *)
Definition systemResolve (resolved : option (list AddrInfo)) : list bytes :=
  match resolved with None => [] | Some rows => systemResolve_loop rows [] end.

(** What decides about addresses: the address the application chose, whether the target is
    an address itself, whether there is a resolver. *)
Record Target := mkTarget {
  originalTargetAddress_ : bytes;
  literal : bool;           (* [tcp::isIpLiteral(targetHost_)] *)
  hasResolver : bool;
}.

(** [resolved] is what the resolver would answer, [system] what [systemResolve] would. *)
Definition prepareCandidates (t : Target) (resolved system : list bytes) : list bytes :=
  let start := if bool_decide (originalTargetAddress_ t = []) then [] else [originalTargetAddress_ t] in
  let candidates :=
    if negb (literal t) && (hasResolver t || bool_decide (originalTargetAddress_ t = []))
    then foldl addUnique start (if hasResolver t then resolved else system) else start in
  if bool_decide (candidates = []) && (hasResolver t || literal t) then system else candidates.

Definition selectedByApplication (t : Target) (candidates : list bytes) : bool :=
  negb (hasResolver t) && negb (bool_decide (originalTargetAddress_ t = [])) && negb (literal t) &&
  (length candidates =? 1)%nat.

(** [std::rotate] by one *)
Definition rotate (l : list bytes) : list bytes := match l with [] => [] | x :: l => l ++ [x] end.

Definition kConnectTimeoutMs : Z := 10000.
Definition kOriginalConnectTimeoutMs : Z := 2000.

(** The second try of [connectTarget]: [None] if there is nothing else to try. *)
Definition otherCandidates (candidates system : list bytes) : list bytes * bool :=
  let all := foldl addUnique candidates system in
  if (1 <? length all)%nat then (rotate all, true) else (all, false).

(** ** The URL of the tunnel *)

Record WsUrl := mkWsUrl { secure : bool; host : bytes; wsPort : Z; path : bytes }.

Definition cut (c : Z) (s : bytes) : bytes * option bytes :=
  match list_find (λ x, x = c) s with
  | Some (i, _) => (take i s, Some (drop i s))
  | None => (s, None)
  end.

Definition parseWsUrl (url : bytes) : option WsUrl :=
  scheme ← (if starts_with url (str "wss://") then Some (true, drop 6 url)
            else if starts_with url (str "ws://") then Some (false, drop 5 url) else None);
  let '(secure, sv) := scheme in
  let '(hostPort, slash) := cut 47 sv in
  let path := default (str "/") slash in
  match cut 58 hostPort with
  | (host, Some (_ :: digits)) =>
      match from_chars (2 ^ 32 - 1) digits with
      | Some (value, []) =>
          if (value =? 0) || (65535 <? value) then None else Some (mkWsUrl secure host (w16 value) path)
      | _ => None
      end
  | _ => Some (mkWsUrl secure hostPort (if secure then 443 else 80) path)
  end.

(** The URL [Relay::run] asks for. *)
Definition tunnelUrl (workerUrl : bytes) : bytes :=
  (if bool_decide (last workerUrl = Some 47) then workerUrl else workerUrl ++ [47]) ++ str "tunnel".

(** ** Messages *)

Inductive BufferType := Utf8Message | Utf8Fragment | BinaryMessage | BinaryFragment | CloseFrame.
#[export] Instance BufferType_eq_dec : EqDecision BufferType.
Proof. solve_decision. Defined.
Definition kMaxMessageBytes : Z := 1024 * 1024.
Definition CHUNK_SIZE : Z := 8192.

(** What one [WinHttpWebSocketReceive] does to the message so far. *)
Inductive Received := More (out : bytes) | Message (isText : bool) (out : bytes) | Closed | ReceiveFailed.

Definition receiveStep (out : bytes) (frame : option (BufferType * bytes)) : Received :=
  match frame with
  | None => ReceiveFailed
  | Some (CloseFrame, _) => Closed
  | Some (type, chunk) =>
      if kMaxMessageBytes - zlen out <? zlen chunk then ReceiveFailed else
      let out := out ++ chunk in
      match type with
      | Utf8Fragment | BinaryFragment => More out
      | _ => if bool_decide (out = []) then More [] else Message (bool_decide (type = Utf8Message)) out
      end
  end.

(** ** State *)

(** What only the owner writes of a tunnel. *)
Record Tunnel := mkTunnel {
  session_ : option Z;
  connect_ : option Z;
  request_ : option Z;
  websocket_ : option Z;
  connectAttempted_ : bool;
  tunnelClient_ : option Z;      (* [clientSock_] of [Relay] *)
  spawned : bool;                (* [sockToWs_] runs or has run *)
}.
Definition newTunnel (client : Z) : Tunnel := mkTunnel None None None None false (Some client) false.

(** What only the owner writes of the relay, and the handles that are open. *)
Record Core := mkCore {
  clientSock_ : option Z;
  targetSock_ : option Z;
  abortive_ : bool;
  tunnel_ : bool;                (* the pointer [stop] sees *)
  tunnel : option Tunnel;        (* the tunnel on the owner's stack *)
  open : list Z;
  nextHandle : Z;
  resets : list Z;               (* the handles closed with a reset *)
  misused : bool;                (* a handle was closed that was not open *)
  gone : bool;                   (* the relay has been destroyed *)
}.

(** The whole object: the owner's part and what any thread may write. *)
Record Relay := mkRelay {
  core : Core;
  socketMutex_ : bool;
  stopping_ : bool;
  sendMutex_ : bool;
  connected_ : bool;
  wsStopping_ : bool;            (* [stopping_] of [WsClient] *)
  tunnelStopping_ : bool;        (* [stopping_] of [Relay] *)
  pumpEnded : bool;
}.

Definition setCore (c : Core) (s : Relay) : Relay :=
  mkRelay c (socketMutex_ s) (stopping_ s) (sendMutex_ s) (connected_ s) (wsStopping_ s) (tunnelStopping_ s) (pumpEnded s).
Definition setSocketMutex (b : bool) (s : Relay) : Relay :=
  mkRelay (core s) b (stopping_ s) (sendMutex_ s) (connected_ s) (wsStopping_ s) (tunnelStopping_ s) (pumpEnded s).
Definition setStopping (s : Relay) : Relay :=
  mkRelay (core s) (socketMutex_ s) true (sendMutex_ s) (connected_ s) (wsStopping_ s) (tunnelStopping_ s) (pumpEnded s).
Definition setSendMutex (b : bool) (s : Relay) : Relay :=
  mkRelay (core s) (socketMutex_ s) (stopping_ s) b (connected_ s) (wsStopping_ s) (tunnelStopping_ s) (pumpEnded s).
Definition setConnected (b : bool) (s : Relay) : Relay :=
  mkRelay (core s) (socketMutex_ s) (stopping_ s) (sendMutex_ s) b (wsStopping_ s) (tunnelStopping_ s) (pumpEnded s).
Definition setWsStopping (s : Relay) : Relay :=
  mkRelay (core s) (socketMutex_ s) (stopping_ s) (sendMutex_ s) (connected_ s) true (tunnelStopping_ s) (pumpEnded s).
Definition setTunnelStopping (s : Relay) : Relay :=
  mkRelay (core s) (socketMutex_ s) (stopping_ s) (sendMutex_ s) (connected_ s) (wsStopping_ s) true (pumpEnded s).
Definition setPumpEnded (s : Relay) : Relay :=
  mkRelay (core s) (socketMutex_ s) (stopping_ s) (sendMutex_ s) (connected_ s) (wsStopping_ s) (tunnelStopping_ s) true.

Definition setClient (h : option Z) (c : Core) : Core :=
  mkCore h (targetSock_ c) (abortive_ c) (tunnel_ c) (tunnel c) (open c) (nextHandle c) (resets c) (misused c) (gone c).
Definition setTarget (h : option Z) (c : Core) : Core :=
  mkCore (clientSock_ c) h (abortive_ c) (tunnel_ c) (tunnel c) (open c) (nextHandle c) (resets c) (misused c) (gone c).
Definition setAbortive (c : Core) : Core :=
  mkCore (clientSock_ c) (targetSock_ c) true (tunnel_ c) (tunnel c) (open c) (nextHandle c) (resets c) (misused c) (gone c).
Definition setPointer (b : bool) (c : Core) : Core :=
  mkCore (clientSock_ c) (targetSock_ c) (abortive_ c) b (tunnel c) (open c) (nextHandle c) (resets c) (misused c) (gone c).
Definition setTunnel (t : option Tunnel) (c : Core) : Core :=
  mkCore (clientSock_ c) (targetSock_ c) (abortive_ c) (tunnel_ c) t (open c) (nextHandle c) (resets c) (misused c) (gone c).
Definition setGone (c : Core) : Core :=
  mkCore (clientSock_ c) (targetSock_ c) (abortive_ c) (tunnel_ c) (tunnel c) (open c) (nextHandle c) (resets c) (misused c) true.

Definition setSession (h : option Z) (t : Tunnel) : Tunnel :=
  mkTunnel h (connect_ t) (request_ t) (websocket_ t) (connectAttempted_ t) (tunnelClient_ t) (spawned t).
Definition setConnect (h : option Z) (t : Tunnel) : Tunnel :=
  mkTunnel (session_ t) h (request_ t) (websocket_ t) (connectAttempted_ t) (tunnelClient_ t) (spawned t).
Definition setRequest (h : option Z) (t : Tunnel) : Tunnel :=
  mkTunnel (session_ t) (connect_ t) h (websocket_ t) (connectAttempted_ t) (tunnelClient_ t) (spawned t).
Definition setWebsocket (h : option Z) (t : Tunnel) : Tunnel :=
  mkTunnel (session_ t) (connect_ t) (request_ t) h (connectAttempted_ t) (tunnelClient_ t) (spawned t).
Definition setAttempted (t : Tunnel) : Tunnel :=
  mkTunnel (session_ t) (connect_ t) (request_ t) (websocket_ t) true (tunnelClient_ t) (spawned t).
Definition setTunnelClient (h : option Z) (t : Tunnel) : Tunnel :=
  mkTunnel (session_ t) (connect_ t) (request_ t) (websocket_ t) (connectAttempted_ t) h (spawned t).
Definition setSpawned (t : Tunnel) : Tunnel :=
  mkTunnel (session_ t) (connect_ t) (request_ t) (websocket_ t) (connectAttempted_ t) (tunnelClient_ t) true.

(** ** Calls *)

Inductive Call :=
  | SetSendTimeout (h : Z)
  | Work                                     (* what the relay does with its sockets meanwhile *)
  | ConnectAny (candidates : list bytes) (timeoutMs : Z)
  | WinHttpOpen | WinHttpSetTimeouts (h : Z) | WinHttpConnect (h : Z) (host : bytes) (transportPort : Z)
  | WinHttpOpenRequest (h : Z) (path : bytes) (secure : bool)
  | WinHttpAddRequestHeaders (h : Z) (name value : bytes)
  | WinHttpSetOption (h : Z) | WinHttpSendRequest (h : Z) | WinHttpReceiveResponse (h : Z)
  | WinHttpQueryStatus (h : Z) | WinHttpWebSocketCompleteUpgrade (h : Z)
  | WinHttpWebSocketSend (h : Z) (isText : bool) (data : bytes)
  | WinHttpWebSocketReceive (h : Z)
  | WinHttpWebSocketShutdown (h : Z)
  | StartThread
  | Recv (h : Z) | SendAll (h : Z) (data : bytes) | Shutdown (h : Z).

Inductive Answer :=
  | Is (b : bool)                            (* it succeeded *)
  | Status (code : Z)
  | Frame (f : option (BufferType * bytes))  (* [None]: an error *)
  | Data (d : option bytes).                 (* [None]: an error; an empty one the end *)

Definition M (A : Type) : Type := Prog Relay Call Answer A.
#[export] Instance relay_ret : MRet M := λ A, Ret.
#[export] Instance relay_bind : MBind M := λ A B, prog_bind.

(** A call that may throw (memory), and one of a thread whose exceptions are not caught. *)
Definition ask (c : Call) : M bool := Fetch c (λ o, match o with Some (Is b) => Ret b | Some _ => Ret false | None => Throw end).
Definition askOnly (c : Call) : M bool := Fetch c (λ o, match o with Some (Is b) => Ret b | _ => Ret false end).

Definition load {A} (f : Relay -> A) : M A := atomic (λ _ s, (f s, s)).
Definition update (f : Relay -> Relay) : M unit := atomic (λ _ s, (tt, f s)).
Definition updateCore (f : Core -> Core) : M unit := update (λ s, setCore (f (core s)) s).

(** A handle must be open. *)
Definition use (h : Z) : M unit :=
  ok ← load (λ s, bool_decide (h ∈ open (core s))); if (ok : bool) then mret () else Fault.
(** It stays open while a call uses it. *)
Definition during {A} (h : Z) (p : M A) : M A := _ ← use h; r ← p; _ ← use h; mret r.

(** A new handle, put where [put] says. *)
Definition opened (put : Z -> Core -> Core) : M Z :=
  atomic (λ _ s,
    let c := core s in
    let h := nextHandle c in
    (h, setCore (put h (mkCore (clientSock_ c) (targetSock_ c) (abortive_ c) (tunnel_ c) (tunnel c) (h :: open c) (h + 1) (resets c) (misused c) (gone c))) s)).

(** [closesocket], [WinHttpCloseHandle] and, if [abort], [closeAbortive] *)
Definition closed (abort : bool) (h : Z) (c : Core) : Core :=
  mkCore (clientSock_ c) (targetSock_ c) (abortive_ c) (tunnel_ c) (tunnel c) (filter (λ x, x <> h) (open c)) (nextHandle c)
    (if abort then h :: resets c else resets c) (misused c || negb (bool_decide (h ∈ open c))) (gone c).
Definition closeHandle (h : Z) (forget : Core -> Core) : M unit := updateCore (λ c, forget (closed false h c)).

(** A section under [socketMutex_] that does not block. *)
Definition freeSocket (s : Relay) : bool := negb (socketMutex_ s).
Definition guarded {A} (sec : Relay -> A * Relay) : M A :=
  Await freeSocket (λ _ s, if socketMutex_ s then (None, s) else let '(a, s') := sec s in (Some a, s')) Ret.

(** The same under [sendMutex_], in a tunnel that must be there. *)
Definition freeSend (s : Relay) : bool := negb (sendMutex_ s).
Definition guardedSend {A} (sec : Tunnel -> Relay -> A * Relay) : M A :=
  Await freeSend (λ _ s,
    match tunnel (core s) with
    | None => (Some None, s)
    | Some t => if sendMutex_ s then (None, s) else let '(a, s') := sec t s in (Some (Some a), s')
    end) (λ o, match o with Some a => Ret a | None => Fault end).

(** A member of the tunnel. *)
Definition inTunnel {A} (f : Tunnel -> Relay -> A * Relay) : M A :=
  o ← atomic (λ _ s, match tunnel (core s) with Some t => let '(a, s') := f t s in (Some a, s') | None => (None, s) end);
  match o with Some a => mret a | None => Fault end.
Definition setInTunnel (f : Tunnel -> Tunnel) (s : Relay) : Relay :=
  setCore (setTunnel (f <$> tunnel (core s)) (core s)) s.
Definition inCoreTunnel (f : Tunnel -> Tunnel) (c : Core) : Core := setTunnel (f <$> tunnel c) c.

(** ** WsClient *)

Definition closeMember (get : Tunnel -> option Z) (set : option Z -> Tunnel -> Tunnel) : M unit :=
  h ← inTunnel (λ t s, (get t, s));
  match h with Some h => closeHandle h (inCoreTunnel (set None)) | None => mret () end.

Definition wsCleanup : M unit :=
  _ ← closeMember websocket_ setWebsocket;
  _ ← closeMember request_ setRequest;
  _ ← closeMember connect_ setConnect;
  _ ← closeMember session_ setSession;
  inTunnel (λ t s, (tt, setConnected false s)).

(** The latch at the start of [connect]. *)
Definition latch : M bool :=
  guardedSend (λ t s,
    if wsStopping_ s || connectAttempted_ t then (false, s) else (true, setInTunnel setAttempted s)).

(** [cleanup(); return false;] *)
Definition giveUp : M bool := _ ← wsCleanup; mret false.

(** The headers of the upgrade: the host the Worker expects behind a port of our own, then
    those of the caller. *)
Definition upgradeHeaders (u : WsUrl) (headers : list (bytes * bytes)) (connectPortOverride : Z) : list (bytes * bytes) :=
  (if negb (connectPortOverride =? 0) && negb (connectPortOverride =? wsPort u) then [(str "Host", host u)] else []) ++ headers.

Fixpoint addHeaders (request : Z) (headers : list (bytes * bytes)) : M unit :=
  match headers with
  | [] => mret ()
  | (name, value) :: headers =>
      _ ← during request (ask (WinHttpAddRequestHeaders request name value)); addHeaders request headers
  end.

Definition queryStatus (request : Z) : M Z :=
  Fetch (WinHttpQueryStatus request) (λ o, match o with Some (Status code) => Ret code | Some _ => Ret 0 | None => Throw end).

(** The rest of [connect] once the request is open. *)
Definition upgrade (request : Z) (headers : list (bytes * bytes)) : M bool :=
  _ ← addHeaders request headers;
  ok ← during request (ask (WinHttpSetOption request)); if negb ok then giveUp else
  ok ← during request (ask (WinHttpSendRequest request)); if negb ok then giveUp else
  ok ← during request (ask (WinHttpReceiveResponse request)); if negb ok then giveUp else
  code ← during request (queryStatus request); if negb (code =? 101) then giveUp else
  ok ← during request (ask (WinHttpWebSocketCompleteUpgrade request)); if negb ok then giveUp else
  websocket ← opened (λ _ c, c);
  _ ← closeMember request_ setRequest;
  published ← guardedSend (λ t s,
    if wsStopping_ s then (false, s)
    else (true, setConnected true (setInTunnel (setWebsocket (Some websocket)) s)));
  if (published : bool) then mret true
  else _ ← closeHandle websocket id; giveUp.

Definition wsConnect (url : bytes) (headers : list (bytes * bytes)) (connectPortOverride : Z) : M bool :=
  go ← latch; if negb go then mret false else
  _ ← wsCleanup;
  match parseWsUrl url with
  | None => mret false
  | Some u =>
      let transportPort := if connectPortOverride =? 0 then wsPort u else connectPortOverride in
      ok ← ask WinHttpOpen; if negb ok then mret false else
      session ← opened (λ h, inCoreTunnel (setSession (Some h)));
      _ ← during session (ask (WinHttpSetTimeouts session));
      ok ← during session (ask (WinHttpConnect session (host u) transportPort)); if negb ok then giveUp else
      connection ← opened (λ h, inCoreTunnel (setConnect (Some h)));
      ok ← during connection (ask (WinHttpOpenRequest connection (path u) (secure u))); if negb ok then giveUp else
      request ← opened (λ h, inCoreTunnel (setRequest (Some h)));
      upgrade request (upgradeHeaders u headers connectPortOverride)
  end.

(** [std::lock_guard sendLock] and the test behind it: the WebSocket if it may be used. *)
Definition lockSend : M (option Z) :=
  guardedSend (λ t s,
    (if connected_ s && negb (wsStopping_ s) then websocket_ t else None, setSendMutex true s)).
Definition unlockSend : M unit := update (setSendMutex false).

(** [sendText] and [sendBinary]. *)
Definition wsSend (isText : bool) (data : bytes) : M bool :=
  w ← lockSend;
  match w with
  | None => _ ← unlockSend; mret false
  | Some h =>
      ok ← during h (askOnly (WinHttpWebSocketSend h isText data));
      _ ← (if (ok : bool) then mret () else inTunnel (λ _ s, (tt, setConnected false s)));
      _ ← unlockSend; mret ok
  end.

(** One [WinHttpWebSocketReceive]. *)
Definition receiveFrame (h : Z) : M (option (BufferType * bytes)) :=
  Fetch (WinHttpWebSocketReceive h) (λ o, match o with Some (Frame f) => Ret f | Some _ => Ret None | None => Throw end).

(** The loops of [receive]; after [frames] frames the peer is taken to have closed. *)
Fixpoint receiveLoop (frames : nat) (h : Z) (out : bytes) : M Received :=
  match frames with
  | O => mret Closed
  | S frames =>
      f ← during h (receiveFrame h);
      match receiveStep out f with
      | More out => receiveLoop frames h out
      | r => mret r
      end
  end.

Definition receive (frames : nat) : M Received :=
  w ← inTunnel (λ t s, (if negb (connected_ s) || wsStopping_ s then None else Some (websocket_ t), s));
  match w with
  | None => mret ReceiveFailed
  | Some None => Fault
  | Some (Some h) =>
      r ← receiveLoop frames h [];
      _ ← (match r with Closed | ReceiveFailed => inTunnel (λ _ s, (tt, setConnected false s)) | _ => mret () end);
      mret r
  end.

Definition wsClose : M unit :=
  first ← inTunnel (λ _ s, (negb (wsStopping_ s), setWsStopping s));
  if negb first then mret () else
  w ← guardedSend (λ t s, (websocket_ t, setConnected false (setSendMutex true s)));
  _ ← (match w with Some h => during h (askOnly (WinHttpWebSocketShutdown h)) | None => mret false end);
  unlockSend.

(** ** Relay *)

(** [stop] of the tunnel, from any thread. *)
Definition tunnelStop : M unit :=
  first ← inTunnel (λ _ s, (negb (tunnelStopping_ s), setTunnelStopping s));
  if negb first then mret () else
  _ ← wsClose;
  client ← inTunnel (λ t s, (tunnelClient_ t, s));
  match client with Some h => _ ← during h (askOnly (Shutdown h)); mret () | None => mret () end.

(** The bytes of one [recv]: nothing on the end or an error. *)
Definition recvClient (h : Z) : M (option bytes) :=
  Fetch (Recv h) (λ o, match o with Some (Data (Some [])) => Ret None | Some (Data d) => Ret d | _ => Ret None end).

(** [pumpSockToWs]: at most [rounds] rounds. *)
Fixpoint pumpSockToWs_loop (rounds : nat) : M unit :=
  match rounds with
  | O => mret ()
  | S rounds =>
      client ← inTunnel (λ t s, (if tunnelStopping_ s then None else tunnelClient_ t, s));
      match client with
      | None => mret ()
      | Some h =>
          received ← during h (recvClient h);
          match received with
          | None => mret ()
          | Some data => ok ← wsSend false data; if (ok : bool) then pumpSockToWs_loop rounds else mret ()
          end
      end
  end.
Definition pumpSockToWs (rounds : nat) : M unit := _ ← pumpSockToWs_loop rounds; tunnelStop.

Fixpoint pumpWsToSock_loop (rounds frames : nat) : M unit :=
  match rounds with
  | O => mret ()
  | S rounds =>
      client ← inTunnel (λ t s, (if tunnelStopping_ s then None else tunnelClient_ t, s));
      match client with
      | None => mret ()
      | Some h =>
          received ← receive frames;
          match received with
          | Message true _ => pumpWsToSock_loop rounds frames
          | Message false data =>
              ok ← during h (ask (SendAll h data)); if (ok : bool) then pumpWsToSock_loop rounds frames else mret ()
          | _ => mret ()
          end
      end
  end.
Definition pumpWsToSock (rounds frames : nat) : M unit := _ ← pumpWsToSock_loop rounds frames; tunnelStop.

(** [if (sockToWs_.joinable()) sockToWs_.join();] *)
Definition joined (s : Relay) : bool :=
  match tunnel (core s) with Some t => pumpEnded s || negb (spawned t) | None => true end.
Definition joinPump : M unit := Await joined (λ _ s, if joined s then (Some tt, s) else (None, s)) Ret.

(** What the tunnel is for. *)
Record TunnelJob := mkTunnelJob {
  workerUrl_ : bytes;
  sharedSecret_ : bytes;
  targetHost_ : bytes;
  targetPort_ : Z;
  initialData_ : bytes;
  workerConnectPort_ : Z;
}.

Definition connectCommand (j : TunnelJob) : bytes :=
  str "{" ++ [cQuote] ++ str "cmd" ++ [cQuote] ++ str ":" ++ [cQuote] ++ str "connect" ++ [cQuote] ++ str "," ++
  [cQuote] ++ str "host" ++ [cQuote] ++ str ":" ++ [cQuote] ++ escape (targetHost_ j) ++ [cQuote] ++ str "," ++
  [cQuote] ++ str "port" ++ [cQuote] ++ str ":" ++ to_string (targetPort_ j) ++ str "}".

Definition accepted (response : bytes) : bool :=
  bool_decide (is_Some (find_sub response ([cQuote] ++ str "connected" ++ [cQuote]) 0)).

Definition authorization (j : TunnelJob) : list (bytes * bytes) :=
  if bool_decide (sharedSecret_ j = []) then [] else [(str "Authorization", str "Bearer " ++ sharedSecret_ j)].

(** [Relay::run] *)
Definition tunnelRun (j : TunnelJob) (rounds frames : nat) : M unit :=
  stop ← inTunnel (λ _ s, (tunnelStopping_ s, s)); if (stop : bool) then mret () else
  ok ← wsConnect (tunnelUrl (workerUrl_ j)) (authorization j) (workerConnectPort_ j);
  if negb ok then mret () else
  stop ← inTunnel (λ _ s, (tunnelStopping_ s, s)); if (stop : bool) then mret () else
  ok ← wsSend true (connectCommand j); if negb ok then mret () else
  response ← receive frames;
  match response with
  | Message _ text =>
      if negb (accepted text) then mret () else
      ok ← (if bool_decide (initialData_ j = []) then mret true else wsSend false (initialData_ j));
      if negb ok then mret () else
      started ← ask StartThread;
      if negb started then mret () else
      _ ← inTunnel (λ _ s, (tt, setInTunnel setSpawned s));
      _ ← pumpWsToSock rounds frames;
      _ ← tunnelStop; joinPump
  | _ => mret ()
  end.

(** [~Relay], then [~WsClient] of its member. *)
Definition destroyTunnel : M unit :=
  _ ← tunnelStop;
  _ ← joinPump;
  _ ← closeMember tunnelClient_ setTunnelClient;
  _ ← wsClose;
  _ ← wsCleanup;
  updateCore (setTunnel None).

(** The thread [sockToWs_]; it exists once it is spawned and ends with the relay. *)
Definition carried (s : Relay) : bool :=
  gone (core s) || match tunnel (core s) with Some t => spawned t | None => false end.
Definition pumpThread (rounds : nat) : M unit :=
  run ← Await carried (λ _ s,
    if carried s then (Some (match tunnel (core s) with Some t => spawned t | None => false end), s) else (None, s)) Ret;
  if (run : bool) then _ ← pumpSockToWs rounds; update setPumpEnded else mret ().

(** ** DirectRelay *)

(** Whatever the relay does with both of its sockets; the answer decides how it went on. *)
Definition work : M bool :=
  client ← load (λ s, clientSock_ (core s));
  target ← load (λ s, targetSock_ (core s));
  _ ← (match client with Some h => use h | None => mret () end);
  _ ← (match target with Some h => use h | None => mret () end);
  ok ← ask Work;
  _ ← (match client with Some h => use h | None => mret () end);
  _ ← (match target with Some h => use h | None => mret () end);
  mret ok.

(** The end of [connectTarget], under the mutex. [timeoutSet] is what [setsockopt] would
    answer; a relay that is stopping does not look at it. *)
Definition publishTarget (sock : Z) (timeoutSet : bool) : M bool :=
  guarded (λ s,
    if stopping_ s || negb timeoutSet then (false, setCore (closed false sock (core s)) s)
    else (true, setCore (setTarget (Some sock) (core s)) s)).

(** The result and [candidates_] as it is left, for the next time. *)
Definition connectTarget (t : Target) (system candidates : list bytes) : M (bool * list bytes) :=
  stop ← load stopping_; if (stop : bool) then mret (false, candidates) else
  let selected := selectedByApplication t candidates in
  ok ← ask (ConnectAny candidates (if selected then kOriginalConnectTimeoutMs else kConnectTimeoutMs));
  stop ← load stopping_;
  tried ← (if negb ok && selected && negb stop then
             let '(all, again) := otherCandidates candidates system in
             if again then ok ← ask (ConnectAny all (kConnectTimeoutMs - kOriginalConnectTimeoutMs)); mret (ok, all)
             else mret (false, all)
           else mret (ok, candidates));
  let '(ok, candidates) := tried in
  if negb ok then mret (false, candidates) else
  sock ← opened (λ _ c, c);
  timeoutSet ← askOnly (SetSendTimeout sock);
  ok ← publishTarget sock timeoutSet; mret (ok, candidates).

Definition reconnect (t : Target) (system candidates : list bytes) : M (bool * list bytes) :=
  _ ← guarded (λ s, (tt,
    match targetSock_ (core s) with
    | Some h => setCore (setTarget None (closed false h (core s))) s
    | None => s
    end));
  connectTarget t system candidates.

(** What [deliverHello] does to the handles: it works with them, and reconnects before every
    attempt but the first. *)
Fixpoint attempts (t : Target) (system candidates : list bytes) (n : nat) : M bool :=
  ok ← work;
  if (ok : bool) then mret true else
  match n with
  | O => mret false
  | S n =>
      again ← ask Work; if negb again then mret false else
      '(ok, candidates) ← reconnect t system candidates; if negb ok then mret false else attempts t system candidates n
  end.

Definition handOffToTunnel (tunnelFallback : bool) (j : TunnelJob) (rounds frames : nat) : M bool :=
  if negb tunnelFallback || bool_decide (workerUrl_ j = []) then mret false else
  client ← load (λ s, clientSock_ (core s));
  match client with
  | None => mret false
  | Some h =>
      _ ← updateCore (setTunnel (Some (newTunnel h)));
      go ← guarded (λ s,
        let c := setClient None (core s) in
        if stopping_ s then (false, setCore c s) else (true, setCore (setPointer true c) s));
      if negb go then _ ← destroyTunnel; mret false else
      let clear := guarded (λ s, (tt, setCore (setPointer false (core s)) s)) in
      _ ← try_catch (_ ← clear; _ ← destroyTunnel; Throw) (tunnelRun j rounds frames);
      _ ← clear; _ ← destroyTunnel; mret true
  end.

Definition closeOne (abort : bool) (get : Core -> option Z) (forget : Core -> Core) (c : Core) : Core :=
  match get c with Some h => forget (closed abort h c) | None => c end.
Definition closeSockets : M unit :=
  guarded (λ s,
    let abort := stopping_ s || abortive_ (core s) in
    (tt, setCore (closeOne abort targetSock_ (setTarget None) (closeOne abort clientSock_ (setClient None) (core s))) s)).


Record Settings := mkSettings {
  aim : Target;
  resolved : list bytes;
  system : list bytes;
  tunnelFallback : bool;
  job : TunnelJob;
  probes : nat;
}.

(** From the prepared connection to the end of [run]. *)
Definition relayed (st : Settings) (rounds frames : nat) (prepared : bool * list bytes) : M unit :=
  _ ← (if negb prepared.1 then mret () else
       delivered ← attempts (aim st) (system st) prepared.2 (probes st);
       if (delivered : bool) then
         flushed ← work;
         if (flushed : bool) then _ ← work; mret () else updateCore setAbortive
       else _ ← handOffToTunnel (tunnelFallback st) (job st) rounds frames; mret ());
  closeSockets.

(** [run] behind its first checks: a redirected connection is read before it is connected. *)
Definition prepareAndRelay (st : Settings) (rounds frames : nat) : M unit :=
  let candidates := prepareCandidates (aim st) (resolved st) (system st) in
  let connect := if bool_decide (candidates = []) then mret (false, []) else connectTarget (aim st) (system st) candidates in
  prepared ← (if bool_decide (originalTargetAddress_ (aim st) = []) then
                connected ← connect;
                if negb connected.1 then mret (false, []) else collected ← work; mret (collected, connected.2)
              else collected ← work; if negb collected then mret (false, []) else connect);
  relayed st rounds frames prepared.

Definition directRun (st : Settings) (rounds frames : nat) : M unit :=
  stop ← load stopping_; if (stop : bool) then closeSockets else
  client ← load (λ s, clientSock_ (core s));
  ok ← (match client with Some h => during h (ask (SetSendTimeout h)) | None => mret false end);
  if (ok : bool) then prepareAndRelay st rounds frames else closeSockets.

(** [stop], from any thread. *)
Definition stop : M unit :=
  _ ← update setStopping;
  pointer ← guarded (λ s, (tunnel_ (core s), setSocketMutex true s));
  _ ← (if (pointer : bool) then tunnelStop else mret ());
  target ← load (λ s, targetSock_ (core s));
  _ ← (match target with Some h => _ ← during h (askOnly (Shutdown h)); mret () | None => mret () end);
  client ← load (λ s, clientSock_ (core s));
  _ ← (match client with Some h => _ ← during h (askOnly (Shutdown h)); mret () | None => mret () end);
  update (setSocketMutex false).

(** The session's thread: [run], whatever it throws, and the destructor. *)
Definition relayThread (st : Settings) (rounds frames : nat) : M unit :=
  _ ← try_catch (mret ()) (directRun st rounds frames);
  _ ← closeSockets;
  updateCore setGone.

Definition newRelay : Relay :=
  mkRelay (mkCore (Some 0) None false false None [0] 1 [] false false) false false false false false false false.
