(* ===== verification/RelayThreads.v ===== *)
(** * RelayThreads: stopping a relay from anywhere

    The threads of [RelayLife] together: the session's thread that runs a relay and destroys
    it, the pump thread of its tunnel, and any number of threads that call [stop] at any
    time. Whatever the interleaving and whatever the network answers or throws, nobody uses
    or closes a handle that is not open, nobody touches a tunnel that is gone, every handle
    is closed once ([relay_handles_safe]), and nobody waits for ever ([relay_never_stuck]).

    The proof follows the ownership in the comments of the code. The session's thread is the
    only one that opens and closes handles: its ghost knows the record [Core] exactly. The
    pump thread may rely on the tunnel until it has ended, a thread in [stop] on the
    pointers and sockets as long as it holds [socketMutex_], and whoever holds [sendMutex_]
    on the WebSocket it saw when it took it. *)

From S2P Require Import Prelude Concurrency Json RelayLife.

Inductive Phase := PIdle | PRun | PDone.
Inductive Inside := SOut | SIn | SPtr.

(** Who a thread is. The owner also knows whether the pump thread is out of the way. *)
Inductive Who :=
  | Owner (c : Core) (quietPump : bool)
  | Carrier (p : Phase)
  | Stopper (q : Inside).

(** A handle a thread relies on, and why. *)
Inductive Grip := NoGrip | SocketGrip (h : Z) | TunnelGrip (h : Z).

Record Ghost := mkGhost { who : Who; hold : option (option Z); grip : Grip }.

Definition holder (w : Who) : bool :=
  match w with Owner _ _ | Carrier PRun | Stopper SPtr => true | _ => false end.
Definition inside (w : Who) : bool := match w with Stopper SIn | Stopper SPtr => true | _ => false end.

Definition who_own (w : Who) (s : Relay) : Prop :=
  match w with
  | Owner c quiet => core s = c /\ (quiet = true -> joined s = true)
  | Carrier PIdle => pumpEnded s = false
  | Carrier PRun => pumpEnded s = false /\ exists t, tunnel (core s) = Some t /\ spawned t = true
  | Carrier PDone => pumpEnded s = true \/ gone (core s) = true
  | Stopper SOut => True
  | Stopper SIn => socketMutex_ s = true
  | Stopper SPtr => socketMutex_ s = true /\ tunnel_ (core s) = true
  end.
Definition hold_own (g : Ghost) (s : Relay) : Prop :=
  match hold g with
  | None => True
  | Some w => holder (who g) = true /\ sendMutex_ s = true /\ exists t, tunnel (core s) = Some t /\ websocket_ t = w
  end.
Definition grip_own (g : Ghost) (s : Relay) : Prop :=
  match grip g with
  | NoGrip => True
  | SocketGrip h => inside (who g) = true /\ (clientSock_ (core s) = Some h \/ targetSock_ (core s) = Some h)
  | TunnelGrip h => holder (who g) = true /\ exists t, tunnel (core s) = Some t /\ tunnelClient_ t = Some h
  end.
Definition own (g : Ghost) (s : Relay) : Prop := who_own (who g) s /\ hold_own g s /\ grip_own g s.

(** The handles that members hold are open. *)
Definition members (c : Core) : list Z :=
  option_list (clientSock_ c) ++ option_list (targetSock_ c) ++
  match tunnel c with
  | None => []
  | Some t => option_list (tunnelClient_ t) ++ option_list (websocket_ t) ++ option_list (request_ t) ++
              option_list (connect_ t) ++ option_list (session_ t)
  end.
Record core_ok (c : Core) : Prop := {
  ok_members : forall h, h ∈ members c -> h ∈ open c;
  ok_used : misused c = false;
  ok_pointer : tunnel_ c = true -> is_Some (tunnel c);
  ok_gone : gone c = true -> tunnel c = None;
}.
Definition Inv (s : Relay) : Prop := core_ok (core s).

(** What the owner may do while others are at work. *)
Record ownerMay (s : Relay) (c c' : Core) : Prop := {
  may_sockets : socketMutex_ s = true ->
    tunnel_ c' = tunnel_ c /\ clientSock_ c' = clientSock_ c /\ targetSock_ c' = targetSock_ c;
  may_tunnel : forall t, tunnel c = Some t -> tunnel_ c' = true \/ spawned t = true /\ pumpEnded s = false ->
    exists t', tunnel c' = Some t' /\ tunnelClient_ t' = tunnelClient_ t /\ (spawned t = true -> spawned t' = true) /\
      (sendMutex_ s = true -> websocket_ t' = websocket_ t);
  may_go : gone c = true -> gone c' = true;
}.

Definition who_step (w : Who) (s s' : Relay) (w' : Who) : Prop :=
  match w, w' with
  | Owner c _, Owner c' _ => ownerMay s c c' /\ socketMutex_ s' = socketMutex_ s /\ pumpEnded s' = pumpEnded s
  | Carrier p, Carrier p' =>
      core s' = core s /\ socketMutex_ s' = socketMutex_ s /\
      (pumpEnded s' = pumpEnded s \/ p = PRun /\ p' = PDone /\ pumpEnded s' = true)
  | Stopper q, Stopper q' =>
      core s' = core s /\ pumpEnded s' = pumpEnded s /\
      ((inside w' = inside w /\ socketMutex_ s' = socketMutex_ s) \/
       (inside w = false /\ inside w' = true /\ socketMutex_ s = false /\ socketMutex_ s' = true) \/
       (inside w = true /\ inside w' = false /\ socketMutex_ s' = false))
  | _, _ => False
  end.
Definition hold_step (g : Ghost) (s s' : Relay) (g' : Ghost) : Prop :=
  (bool_decide (hold g' = None) = bool_decide (hold g = None) /\ sendMutex_ s' = sendMutex_ s) \/
  (hold g = None /\ hold g' <> None /\ sendMutex_ s = false /\ sendMutex_ s' = true) \/
  (hold g <> None /\ hold g' = None /\ sendMutex_ s' = false).
Definition Rel (g : Ghost) (s s' : Relay) (g' : Ghost) : Prop :=
  who_step (who g) s s' (who g') /\ hold_step g s s' g' /\ own g' s'.

(** ** All threads together *)

Inductive Kind := KOwner | KCarrier | KStopper.
Definition kind (g : Ghost) : Kind :=
  match who g with Owner _ _ => KOwner | Carrier _ => KCarrier | Stopper _ => KStopper end.

Definition Global (n : nat) (s : Relay) (gs : list Ghost) : Prop :=
  kind <$> gs = KOwner :: KCarrier :: replicate n KStopper /\
  mutex_held (λ g, inside (who g) = true) gs (socketMutex_ s) /\
  mutex_held (λ g, hold g <> None) gs (sendMutex_ s) /\
  forall i g, gs !! i = Some g -> own g s.

Lemma relay_global_own n s gs i g : Global n s gs -> gs !! i = Some g -> own g s.
Proof. intros (_ & _ & _ & H) Hi. by apply (H i). Qed.

Lemma who_step_kind g s s' g' : who_step (who g) s s' (who g') -> kind g' = kind g.
Proof. destruct g as [[]], g' as [[]]; done. Qed.

(** Owner and carrier are one thread each. *)
Lemma kinds_unique n gs i j g h :
  kind <$> gs = KOwner :: KCarrier :: replicate n KStopper ->
  gs !! i = Some g -> gs !! j = Some h -> kind g = kind h -> kind g <> KStopper -> i = j.
Proof.
  intros Hk Hi Hj He Hn.
  assert (H : forall k x, gs !! k = Some x -> (KOwner :: KCarrier :: replicate n KStopper) !! k = Some (kind x))
    by (intros k x Hx; by rewrite <- Hk, list_lookup_fmap, Hx).
  apply H in Hi. apply H in Hj. rewrite <- He in Hj.
  destruct i as [|[|i]], j as [|[|j]]; cbn in Hi, Hj; try congruence.
  all: repeat match goal with H : replicate _ _ !! _ = Some _ |- _ => apply lookup_replicate in H as [H _] end; congruence.
Qed.

(** What a thread relies on survives the steps of the others. *)
Lemma send_kept n s gs i j g h s' g' :
  Global n s gs -> gs !! i = Some g -> gs !! j = Some h -> i <> j -> hold h <> None -> hold_step g s s' g' ->
  sendMutex_ s = true /\ sendMutex_ s' = true.
Proof.
  intros (_ & _ & [Hone Hlock] & _) Hi Hj Hne Hh Hst.
  assert (Hs : sendMutex_ s = true) by (apply Hlock; eauto). split; [done |].
  destruct Hst as [[_ ->]|[(_ & _ & Hf & _)|(Hg & _)]]; [done | congruence |]. destruct Hne. by eapply Hone.
Qed.
Lemma socket_kept n s gs i j g h s' g' :
  Global n s gs -> gs !! i = Some g -> gs !! j = Some h -> i <> j -> inside (who h) = true -> who_step (who g) s s' (who g') ->
  socketMutex_ s = true /\ socketMutex_ s' = true.
Proof.
  intros (_ & [Hone Hlock] & _) Hi Hj Hne Hh Hst.
  assert (Hs : socketMutex_ s = true) by (apply Hlock; eauto). split; [done |].
  destruct g as [[c q|p|q] ? ?], g' as [[c' q'|p'|q'] ? ?]; cbn in Hst; try done.
  - by destruct Hst as (_ & -> & _).
  - by destruct Hst as (_ & -> & _).
  - destruct Hst as (_ & _ & [[_ ->]|[(_ & _ & Hf & _)|(Hg & _)]]); [done | congruence |].
    destruct Hne. eapply Hone; [exact Hi | exact Hj | exact Hg | exact Hh].
Qed.

Lemma owner_kept n s gs i j c q h g s' c' q' :
  Global n s gs -> gs !! i = Some g -> who g = Owner c q -> gs !! j = Some h -> i <> j -> own h s ->
  ownerMay s c c' -> core s = c -> core s' = c' -> socketMutex_ s' = socketMutex_ s -> pumpEnded s' = pumpEnded s ->
  (hold h <> None -> sendMutex_ s = true /\ sendMutex_ s' = true) ->
  who_own q' s' -> own h s'.
Proof.
  intros HG Hi Hw Hj Hne (Hwho & Hhold & Hgrip) [M1 M2 M3] Hc Hc' Hsm Hpe Hsend _. subst c c'.
  assert (Hnot : forall c q, who h <> Owner c q).
  { intros c0 q0 E. apply Hne. destruct HG as (Hk & _). eapply kinds_unique; try done; unfold kind; by rewrite Hw, ?E. }
  assert (Halive : holder (who h) = true -> forall t, tunnel (core s) = Some t ->
    exists t', tunnel (core s') = Some t' /\ tunnelClient_ t' = tunnelClient_ t /\ (spawned t = true -> spawned t' = true) /\
      (sendMutex_ s = true -> websocket_ t' = websocket_ t)).
  { intros Hh t Ht. apply M2; [done |]. destruct (who h) as [? ?|[]|[]]; try done.
    - by destruct (Hnot _ _ eq_refl).
    - right. destruct Hwho as (He & t0 & Ht0 & Hsp). rewrite Ht in Ht0. injection Ht0 as <-. done.
    - left. destruct Hwho as [Hs Hp]. by rewrite (proj1 (M1 Hs)). }
  split; [|split].
  - destruct (who h) as [c0 q0|p|q0] eqn:Ew; [by destruct (Hnot c0 q0) | |].
    + destruct p; cbn in *; [by rewrite Hpe | | rewrite Hpe; destruct Hwho; auto].
      destruct Hwho as (He & t & Ht & Hsp). rewrite Hpe. split; [done |].
      destruct (Halive eq_refl t Ht) as (t' & Ht' & _ & H & _). eauto.
    + destruct q0; cbn in *; [done | by rewrite Hsm |]. rewrite Hsm. destruct Hwho as [Hs Hp]. split; [done |].
      by rewrite (proj1 (M1 Hs)).
  - unfold hold_own in *. destruct (hold h) as [w|]; [|done]. destruct Hhold as (Hh & Hs & t & Ht & Hwb).
    destruct (Halive Hh t Ht) as (t' & Ht' & _ & _ & H). split; [done |]. split; [by apply Hsend |]. exists t'. by rewrite H.
  - unfold grip_own in *. destruct (grip h) as [|x|x]; [done | |].
    + destruct Hgrip as [Hins Hx]. split; [done |]. destruct (who h) as [|[]|[]]; try done; cbn in Hwho.
      * destruct (M1 Hwho) as (_ & -> & ->). done.
      * destruct Hwho as [Hs _]. destruct (M1 Hs) as (_ & -> & ->). done.
    + destruct Hgrip as (Hh & t & Ht & Hx). destruct (Halive Hh t Ht) as (t' & Ht' & H & _). split; [done |]. exists t'. by rewrite H.
Qed.

Lemma joined_core s s' : core s' = core s -> (pumpEnded s = true -> pumpEnded s' = true) -> joined s = true -> joined s' = true.
Proof.
  unfold joined. intros -> H. destruct (tunnel (core s)); [|done]. rewrite !orb_true_iff. tauto.
Qed.

(** Steps of the others leave the owner's part alone. *)
Lemma other_kept s s' h :
  own h s -> core s' = core s -> pumpEnded s' = pumpEnded s \/ (pumpEnded s' = true /\ forall p, who h <> Carrier p) ->
  (hold h <> None -> sendMutex_ s' = true) -> (inside (who h) = true -> socketMutex_ s' = true) -> own h s'.
Proof.
  intros (Hwho & Hhold & Hgrip) Hc Hp Hs Hm. split; [|split].
  - destruct (who h) as [c q|p|q]; cbn in *.
    + destruct Hwho as [He Hj]. split; [congruence |]. intros Hq. eapply joined_core; [done | | by apply Hj].
      destruct Hp as [->|[-> _]]; done.
    + destruct Hp as [Hp|[_ Hn]]; [|by destruct (Hn p)]. rewrite Hp, Hc. done.
    + destruct q; rewrite ?Hc; try done; [by apply Hm | split; [by apply Hm | apply Hwho]].
  - unfold hold_own in *. rewrite Hc. destruct (hold h) as [w|]; [|done]. destruct Hhold as (H1 & _ & H2). split_and!; try done. by apply Hs.
  - unfold grip_own in *. by rewrite Hc.
Qed.

Lemma relay_global_step n s gs i g s' g' :
  Inv s -> Global n s gs -> gs !! i = Some g -> Rel g s s' g' -> Global n s' (<[i := g']> gs).
Proof.
  intros _ HG Hi (Hw & Hh & Ho). pose proof HG as (Hk & Hsock & Hsend & Hall).
  pose proof (lookup_lt_Some _ _ _ Hi) as Hlt.
  split; [|split; [|split]].
  - rewrite list_fmap_insert, (who_step_kind g s s' g' Hw), list_insert_id; [done |]. by rewrite list_lookup_fmap, Hi.
  - eapply mutex_step; [done | done |]. destruct g as [[c q|p|q] ho gr], g' as [[c' q'|p'|q'] ho' gr']; cbn in Hw |- *; try done.
    + left. split; [done | tauto].
    + left. split; [done | tauto].
    + destruct Hw as (_ & _ & [[He ->]|[(H1 & H2 & H3 & H4)|(H1 & H2 & H3)]]); [left; rewrite He; done | right; left; done | right; right].
      split_and!; try done. congruence.
  - eapply mutex_step; [done | done |]. destruct Hh as [[He ->]|[(H1 & H2 & H3 & H4)|(H1 & H2 & H3)]].
    + left. split; [|done]. destruct (hold g'), (hold g); cbn in He; try done.
    + right. left. done.
    + right. right. split; [done |]. split; [|done]. intros Hn. by destruct Hn.
  - intros j h Hj. apply list_lookup_insert_Some in Hj as [(<- & -> & _)|[Hne Hj]]; [done |].
    assert (Hown := Hall j h Hj). assert (Hs := λ H, send_kept n s gs i j g h s' g' HG Hi Hj Hne H Hh).
    assert (Hm := λ H, proj2 (socket_kept n s gs i j g h s' g' HG Hi Hj Hne H Hw)).
    destruct g as [w ho gr], g' as [w' ho' gr']. cbn [who] in *. destruct w as [c q|p|q], w' as [c' q'|p'|q']; try done.
    + destruct Hw as (HM & H1 & H2). destruct (Hall i _ Hi) as ((Hc & _) & _). destruct Ho as ((Hc' & Hq') & _). cbn in Hc, Hc'.
      eapply (owner_kept n s gs i j c q h _ s' c' (Owner c' q')); try done.
    + destruct Hw as (H1 & H2 & H3). apply (other_kept s); try done; [|by intros H; apply Hs].
      destruct H3 as [H3|(-> & -> & H3)]; [by left | right]. split; [done |]. intros p0 E. apply Hne.
      eapply kinds_unique; try done; unfold kind; cbn; by rewrite ?E.
    + destruct Hw as (H1 & H2 & H3). apply (other_kept s); try done; [by left | by intros H; apply Hs].
Qed.

(** ** The program logic here *)

Definition isOwner (w : Who) : bool := match w with Owner _ _ => true | _ => false end.

Inductive may_wait (g : Ghost) : (Relay -> bool) -> Prop :=
  | wait_socket : hold g = None -> isOwner (who g) = true \/ who g = Stopper SOut -> may_wait g freeSocket
  | wait_send : hold g = None -> holder (who g) = true -> may_wait g freeSend
  | wait_join : hold g = None -> isOwner (who g) = true -> may_wait g joined
  | wait_spawn : hold g = None -> who g = Carrier PIdle -> may_wait g carried.

Notation Wp := (wp (Rq := Call) (λ _, True) (λ _ : Answer, True) Inv Rel own (λ _ _, True) may_wait).

(** Steps that only set flags. *)
Definition same (s s' : Relay) : Prop :=
  core s' = core s /\ socketMutex_ s' = socketMutex_ s /\ sendMutex_ s' = sendMutex_ s /\ pumpEnded s' = pumpEnded s.

Lemma own_same g s s' : own g s -> same s s' -> own g s'.
Proof.
  intros Ho (H1 & H2 & H3 & H4). pose proof Ho as (Hw & Hh & Hg). apply (other_kept s); [done | done | by left | |].
  - rewrite H3. unfold hold_own in Hh. destruct (hold g); [|done]. by destruct Hh as (_ & -> & _).
  - rewrite H2. destruct (who g) as [|[]|[]]; try done. by destruct Hw.
Qed.
Lemma ownerMay_refl s c : ownerMay s c c.
Proof. split; [done | | done]. intros t Ht _. exists t. done. Qed.
Lemma who_step_same w s s' : same s s' -> who_own w s -> who_step w s s' w.
Proof.
  intros (H1 & H2 & H3 & H4) Hw. destruct w; cbn; rewrite ?H1, ?H2, ?H4; split_and!; auto. apply ownerMay_refl.
Qed.
Lemma relay_Rel_same g s s' : own g s -> same s s' -> Rel g s s' g.
Proof.
  intros Ho Hs. split; [apply who_step_same; [done | apply Ho] |]. split; [|by eapply own_same]. left. by destruct Hs as (_ & _ & -> & _).
Qed.
Lemma Inv_same s s' : Inv s -> same s s' -> Inv s'.
Proof. unfold Inv. by intros H (-> & _). Qed.

Lemma wp_flags {A} (f : Relay -> A * Relay) g (Q : A -> Ghost -> Prop) X :
  (forall s, Inv s -> own g s -> same s (f s).2 /\ Q (f s).1 g) -> Wp (atomic (λ _ s, f s) : M A) g Q X.
Proof.
  intros H t s _ Hs Ho. destruct (H s Hs Ho) as [Hsame HQ]. split; [by eapply Inv_same |]. exists g. split; [by apply relay_Rel_same | done].
Qed.
Lemma same_refl s : same s s.
Proof. done. Qed.
Lemma relay_wp_load {A} (f : Relay -> A) g (Q : A -> Ghost -> Prop) X :
  (forall s, Inv s -> own g s -> Q (f s) g) -> Wp (load f) g Q X.
Proof. intros H. apply (wp_flags (λ s, (f s, s))). intros s Hs Ho. split; [done | by apply H]. Qed.

(** Threads that may touch the tunnel. *)
Definition uses (g : Ghost) : Prop :=
  match who g with Owner c _ => is_Some (tunnel c) | w => holder w = true end.
Lemma uses_tunnel g s : uses g -> Inv s -> own g s -> exists t, tunnel (core s) = Some t.
Proof.
  unfold uses. intros Hu Hs (Hw & _). destruct (who g) as [c q|[]|[]]; try done; cbn in Hw.
  - destruct Hw as [-> _]. destruct Hu as [t Ht]. eauto.
  - destruct Hw as (_ & t & Ht & _). eauto.
  - destruct Hw as [_ Hp]. by apply (ok_pointer _ Hs).
Qed.
Lemma uses_holder g : uses g -> holder (who g) = true.
Proof. unfold uses. by destruct (who g) as [|[]|[]]. Qed.

Lemma wp_inTunnel {A} (f : Tunnel -> Relay -> A * Relay) g (Q : A -> Ghost -> Prop) X :
  uses g -> (forall t s, tunnel (core s) = Some t -> Inv s -> own g s -> same s (f t s).2 /\ Q (f t s).1 g) ->
  Wp (inTunnel f) g Q X.
Proof.
  intros Hu H. apply wp_bind. apply wp_flags. intros s Hs Ho. destruct (uses_tunnel g s Hu Hs Ho) as [t Ht]. rewrite Ht.
  destruct (H t s Ht Hs Ho) as [Hsame HQ]. destruct (f t s) as [a s']. done.
Qed.

Lemma wp_use h g (Q : unit -> Ghost -> Prop) X :
  (forall s, Inv s -> own g s -> h ∈ open (core s)) -> Q tt g -> Wp (use h) g Q X.
Proof. intros Ho HQ. apply wp_bind, relay_wp_load. intros s Hs Hg. by rewrite bool_decide_eq_true_2 by auto. Qed.
Lemma wp_during {A} h (p : M A) g (Q : A -> Ghost -> Prop) X :
  (forall s, Inv s -> own g s -> h ∈ open (core s)) -> Wp p g (λ a g', g' = g /\ Q a g) X -> Wp (during h p) g Q X.
Proof.
  intros Ho Hp. apply wp_bind, wp_use; [done |]. apply wp_bind. eapply wp_mono; [exact Hp | | done].
  intros a g' [-> HQ]. apply wp_bind. by apply wp_use.
Qed.
Lemma relay_wp_ask c g (Q : bool -> Ghost -> Prop) (X : Ghost -> Prop) : (forall b, Q b g) -> X g -> Wp (ask c) g Q X.
Proof. intros HQ HX. split; [done |]. intros [[]|] _; cbn; auto. Qed.
Lemma wp_askOnly c g (Q : bool -> Ghost -> Prop) X : (forall b, Q b g) -> Wp (askOnly c) g Q X.
Proof. intros HQ. split; [done |]. intros [[]|] _; cbn; auto. Qed.
Lemma wp_during_ask h c g (Q : bool -> Ghost -> Prop) (X : Ghost -> Prop) :
  (forall s, Inv s -> own g s -> h ∈ open (core s)) -> (forall b, Q b g) -> X g -> Wp (during h (ask c)) g Q X.
Proof. intros Ho HQ HX. apply wp_during; [done |]. apply relay_wp_ask; auto. Qed.
Lemma wp_during_askOnly h c g (Q : bool -> Ghost -> Prop) X :
  (forall s, Inv s -> own g s -> h ∈ open (core s)) -> (forall b, Q b g) -> Wp (during h (askOnly c)) g Q X.
Proof. intros Ho HQ. apply wp_during; [done |]. apply wp_askOnly; auto. Qed.

(** ** The send mutex *)

Definition holding (w : option Z) (g : Ghost) : Ghost := mkGhost (who g) (Some w) (grip g).
Definition released (g : Ghost) : Ghost := mkGhost (who g) None (grip g).
Definition gripping (k : Grip) (g : Ghost) : Ghost := mkGhost (who g) (hold g) k.

Lemma released_id g : hold g = None -> released g = g.
Proof. destruct g. cbn. by intros ->. Qed.
Lemma gripping_id g : grip g = NoGrip -> gripping NoGrip g = g.
Proof. destruct g. cbn. by intros ->. Qed.

Lemma wp_lockWith (f : Tunnel -> Relay -> option Z) (k : Relay -> Relay) g (Q : option Z -> Ghost -> Prop) X :
  uses g -> hold g = None -> (forall s, same s (k s)) -> (forall t s, f t s = websocket_ t \/ f t s = None) ->
  (forall w w', w' = w \/ w' = None -> Q w' (holding w g)) ->
  Wp (guardedSend (λ t s, (f t s, k (setSendMutex true s)))) g Q X.
Proof.
  intros Hu Hn Hk Hf HQ. split; [by apply wait_send, uses_holder |]. intros _ s _ Hs Ho.
  destruct (uses_tunnel g s Hu Hs Ho) as [t Ht]. rewrite Ht. destruct (sendMutex_ s) eqn:Em.
  { cbn. split; [done |]. by apply relay_Rel_same. }
  cbn [fst snd]. destruct (Hk (setSendMutex true s)) as (K1 & K2 & K3 & K4). cbn in K1, K2, K3, K4.
  split; [unfold Inv; by rewrite K1 |]. exists (holding (websocket_ t) g). split.
  - assert (Hw : who_step (who g) s (k (setSendMutex true s)) (who g)).
    { destruct Ho as (Hw & _). destruct (who g); cbn; rewrite ?K1, ?K2, ?K4; split_and!; auto. apply ownerMay_refl. }
    split; [done |]. split; [right; left; by rewrite K3 |]. destruct Ho as (Hwho & Hhold & Hgrip). split; [|split].
    + apply (other_kept s (k (setSendMutex true s)) (released g)).
      * by rewrite released_id.
      * done.
      * by left.
      * done.
      * intros Hi. rewrite K2. cbn in Hi. destruct (who g) as [|[]|[]]; try done. by destruct Hwho.
    + split; [by apply uses_holder |]. rewrite K3, K1. eauto.
    + unfold grip_own in *. by rewrite K1.
  - apply HQ. destruct (Hf t s); auto.
Qed.

Lemma wp_unlockSend w g (Q : unit -> Ghost -> Prop) X : Q tt (released g) -> hold g = Some w -> Wp unlockSend g Q X.
Proof.
  intros HQ Hh t s _ Hs Ho. split; [exact Hs |]. exists (released g). split; [|done].
  destruct Ho as (Hwho & Hhold & Hgrip). split; [|split; [right; right; by rewrite Hh |]].
  - cbn [released who]. destruct (who g); cbn; split_and!; auto. apply ownerMay_refl.
  - split; [|split; [done | exact Hgrip]]. cbn [released who]. destruct (who g) as [|[]|[]]; exact Hwho.
Qed.

(** A WebSocket that was seen under the mutex stays open. *)
Lemma held_open h g s : hold g = Some (Some h) -> Inv s -> own g s -> h ∈ open (core s).
Proof.
  intros Hh Hs (_ & Ho & _). unfold hold_own in Ho. rewrite Hh in Ho. destruct Ho as (_ & _ & t & Ht & Hw).
  apply (ok_members _ Hs). unfold members. rewrite Ht, Hw. rewrite !elem_of_app. cbn. set_solver.
Qed.
Lemma holding_uses w g : uses g -> uses (holding w g).
Proof. done. Qed.

Lemma wp_connectedOff g (Q : unit -> Ghost -> Prop) X :
  uses g -> Q tt g -> Wp (inTunnel (λ _ s, (tt, setConnected false s))) g Q X.
Proof. intros Hu HQ. apply wp_inTunnel; [done |]. intros t s _ _ _. by split. Qed.

Lemma wp_wsSend isText data g (Q : bool -> Ghost -> Prop) X :
  uses g -> hold g = None -> (forall b, Q b g) -> Wp (wsSend isText data) g Q X.
Proof.
  intros Hu Hn HQ. apply wp_bind. apply (wp_lockWith (λ t s, if connected_ s && negb (wsStopping_ s) then websocket_ t else None) (λ s, s)); try done.
  { intros t s. destruct (_ && _); auto. }
  intros w w' Hw'. assert (Hend : forall b, Wp (_ ← unlockSend; mret b) (holding w g) Q X).
  { intros b. apply wp_bind. eapply (wp_unlockSend w); [|done]. change (released (holding w g)) with (released g). rewrite released_id by done. apply HQ. }
  destruct w' as [h|]; [|apply Hend]. destruct Hw' as [<-|]; [|done]. apply wp_bind, wp_during_askOnly; [intros s0; by apply held_open |].
  intros b. apply wp_bind. destruct b; [apply Hend |]. apply wp_connectedOff; [done |]. apply Hend.
Qed.

Lemma wp_wsClose g (Q : unit -> Ghost -> Prop) X : uses g -> hold g = None -> Q tt g -> Wp wsClose g Q X.
Proof.
  intros Hu Hn HQ. apply wp_bind, wp_inTunnel; [done |]. intros t s _ _ _. split; [done |]. case_if; [done |].
  apply wp_bind. apply (wp_lockWith (λ t s, websocket_ t) (setConnected false)); try done; [by left |].
  intros w w' Hw'. apply wp_bind.
  assert (Hend : forall b : bool, Wp unlockSend (holding w g) Q X).
  { intros _. eapply (wp_unlockSend w); [|done]. change (released (holding w g)) with (released g). by rewrite released_id. }
  destruct w' as [h|]; [|apply (Hend false)]. destruct Hw' as [<-|]; [|done].
  apply wp_during_askOnly; [intros s0; by apply held_open |]. apply Hend.
Qed.

(** ** Handles a thread holds on to *)

Lemma grip_open g s h : grip g = SocketGrip h \/ grip g = TunnelGrip h -> Inv s -> own g s -> h ∈ open (core s).
Proof.
  intros Hg Hs (_ & _ & Ho). unfold grip_own in Ho. apply (ok_members _ Hs). unfold members. destruct Hg as [Hg|Hg]; rewrite Hg in Ho.
  - destruct Ho as [_ [->| ->]]; rewrite !elem_of_app; cbn; set_solver.
  - destruct Ho as (_ & t & Ht & Hc). rewrite Ht, Hc, !elem_of_app. cbn. set_solver.
Qed.

Lemma Rel_grip g k s : own (gripping k g) s -> own g s -> Rel g s s (gripping k g).
Proof.
  intros Hk Ho. split; [apply who_step_same; [done | apply Ho] |]. split; [by left | done].
Qed.

Lemma wp_during_grip {A} h k (p : M A) g (Q : A -> Ghost -> Prop) X :
  k = SocketGrip h \/ k = TunnelGrip h -> grip g = NoGrip ->
  Wp p (gripping k g) (λ a g', g' = gripping k g /\ Q a g) X -> Wp (during h p) (gripping k g) Q X.
Proof.
  intros Hk Hg Hp. assert (Hop : forall s, Inv s -> own (gripping k g) s -> h ∈ open (core s)).
  { intros s. apply grip_open. exact Hk. }
  apply wp_bind, wp_use; [done |]. apply wp_bind. eapply wp_mono; [exact Hp | | done]. intros a g' [-> HQ].
  apply wp_bind, wp_bind. intros t s _ Hs Ho. split; [done |]. exists g. cbn [fst]. rewrite bool_decide_eq_true_2 by auto.
  split; [|done]. rewrite <- (gripping_id g Hg) at 2. apply (Rel_grip (gripping k g)); [|done].
  destruct Ho as (H1 & H2 & _). by split.
Qed.

Lemma wp_gripTunnel (f : Tunnel -> Relay -> option Z) g (Q : option Z -> Ghost -> Prop) X :
  uses g -> (forall t s, f t s = tunnelClient_ t \/ f t s = None) ->
  Q None g -> (forall h, Q (Some h) (gripping (TunnelGrip h) g)) -> Wp (inTunnel (λ t s, (f t s, s))) g Q X.
Proof.
  intros Hu Hf Hnone Hsome. apply wp_bind. intros t s _ Hs Ho. destruct (uses_tunnel g s Hu Hs Ho) as [tn Ht]. rewrite Ht.
  cbn [fst snd]. split; [done |]. destruct (f tn s) as [h|] eqn:E; [|exists g; split; [by apply relay_Rel_same | done]].
  exists (gripping (TunnelGrip h) g). split; [|apply Hsome]. apply Rel_grip; [|done]. destruct Ho as (H1 & H2 & _).
  split; [done |]. split; [done |]. split; [by apply uses_holder |]. exists tn. split; [done |]. destruct (Hf tn s); congruence.
Qed.

Lemma wp_tunnelStop g (Q : unit -> Ghost -> Prop) X :
  uses g -> hold g = None -> grip g = NoGrip -> Q tt g -> Wp tunnelStop g Q X.
Proof.
  intros Hu Hn Hg HQ. apply wp_bind, wp_inTunnel; [done |]. intros t s _ _ _. split; [done |]. case_if; [done |].
  apply wp_bind, wp_wsClose; [done | done |]. apply wp_bind, wp_gripTunnel; [done | by left | done |].
  intros h. apply wp_bind, wp_during_grip; [by right | done |]. by apply wp_askOnly.
Qed.

(** ** The pump thread *)

Lemma wp_recvClient h g (Q : option bytes -> Ghost -> Prop) X : (forall d, Q d g) -> Wp (recvClient h) g Q X.
Proof. intros HQ. split; [done |]. intros [[| | |[[]|]]|] _; apply HQ. Qed.

Lemma wp_pumpLoop n g (Q : unit -> Ghost -> Prop) X :
  uses g -> hold g = None -> grip g = NoGrip -> Q tt g -> Wp (pumpSockToWs_loop n) g Q X.
Proof.
  intros Hu Hn Hg HQ. induction n as [|n IH]; [done |]. cbn [pumpSockToWs_loop].
  apply wp_bind, wp_gripTunnel; [done | intros t s; case_if; auto | done |]. intros h.
  apply wp_bind, wp_during_grip; [by right | done |]. apply wp_recvClient. intros d. split; [done |].
  destruct d as [d|]; [|done]. apply wp_bind, wp_wsSend; [done | done |]. intros []; [exact IH | exact HQ].
Qed.

Lemma wp_pumpThread n (Q : unit -> Ghost -> Prop) X :
  Q tt (mkGhost (Carrier PDone) None NoGrip) -> Wp (pumpThread n) (mkGhost (Carrier PIdle) None NoGrip) Q X.
Proof.
  intros HQ. apply wp_bind. split; [by apply wait_spawn |]. intros t s _ Hs Ho. destruct (carried s) eqn:Ec; cbn [fst snd]; (split; [done |]).
  2: { by apply relay_Rel_same. }
  destruct Ho as (He & _). cbn in He. destruct (match tunnel (core s) with Some t0 => spawned t0 | None => false end) eqn:Er.
  - exists (mkGhost (Carrier PRun) None NoGrip). split.
    + split; [by split_and!; [..| left] |]. split; [by left |]. split; [|done]. cbn. split; [done |].
      destruct (tunnel (core s)) as [t0|]; [|done]. eauto.
    + cbn. apply wp_bind. apply wp_bind, wp_pumpLoop; [done.. |]. apply wp_tunnelStop; [done.. |].
      intros t' s' _ Hs' Ho'. split; [exact Hs' |]. exists (mkGhost (Carrier PDone) None NoGrip). split; [|done].
      split; [split_and!; [done | done | by right] |]. split; [by left |]. split; [by left | done].
  - exists (mkGhost (Carrier PDone) None NoGrip). split; [|exact HQ].
    split; [by split_and!; [..| left] |]. split; [by left |]. split; [|done]. cbn. right.
    unfold carried in Ec. rewrite Er, orb_false_r in Ec. done.
Qed.

(** ** Threads in stop *)

Lemma wp_gripSocket (f : Relay -> option Z) g (Q : option Z -> Ghost -> Prop) X :
  inside (who g) = true -> (forall s, f s = targetSock_ (core s) \/ f s = clientSock_ (core s)) ->
  Q None g -> (forall h, Q (Some h) (gripping (SocketGrip h) g)) -> Wp (load f) g Q X.
Proof.
  intros Hu Hf Hnone Hsome t s _ Hs Ho. cbn [fst snd]. split; [done |].
  destruct (f s) as [h|] eqn:E; [|exists g; split; [by apply relay_Rel_same | done]].
  exists (gripping (SocketGrip h) g). split; [|apply Hsome]. apply Rel_grip; [|done]. destruct Ho as (H1 & H2 & _).
  split; [done |]. split; [done |]. split; [done |]. destruct (Hf s) as [<-|<-]; auto.
Qed.

Lemma wp_shutSocket (f : Relay -> option Z) (k : M unit) g Q X :
  inside (who g) = true -> grip g = NoGrip -> (forall s, f s = targetSock_ (core s) \/ f s = clientSock_ (core s)) ->
  Wp k g Q X ->
  Wp (h ← load f; _ ← (match h with Some h => _ ← during h (askOnly (Shutdown h)); mret () | None => mret () end); k) g Q X.
Proof.
  intros Hi Hg Hf Hk. apply wp_bind. eapply (wp_gripSocket f); [done | done | by apply wp_bind |]. intros h.
  apply wp_bind. apply wp_bind, wp_during_grip; [by left | done |]. by apply wp_askOnly.
Qed.

Lemma relay_wp_stop (Q : unit -> Ghost -> Prop) X :
  Q tt (mkGhost (Stopper SOut) None NoGrip) -> Wp stop (mkGhost (Stopper SOut) None NoGrip) Q X.
Proof.
  intros HQ. apply wp_bind. apply (wp_flags (λ s, (tt, setStopping s))). intros s _ _. split; [done |].
  assert (Hend : forall q, inside (Stopper q) = true -> Wp (update (setSocketMutex false)) (mkGhost (Stopper q) None NoGrip) Q X).
  { intros q Hq t s' _ Hs' Ho'. split; [exact Hs' |]. exists (mkGhost (Stopper SOut) None NoGrip). split; [|exact HQ].
    split; [|by split; [left | split]]. cbn. split_and!; [done | done |]. right. right. by destruct q. }
  assert (Hrest : forall q, inside (Stopper q) = true ->
    Wp (target ← load (λ s, targetSock_ (core s));
        _ ← (match target with Some h => _ ← during h (askOnly (Shutdown h)); mret () | None => mret () end);
        client ← load (λ s, clientSock_ (core s));
        _ ← (match client with Some h => _ ← during h (askOnly (Shutdown h)); mret () | None => mret () end);
        update (setSocketMutex false)) (mkGhost (Stopper q) None NoGrip) Q X).
  { intros q Hq. apply wp_shutSocket; [done | done | by left |]. apply wp_shutSocket; [done | done | by right |]. by apply Hend. }
  apply wp_bind. split; [apply wait_socket; [done | by right] |]. intros t s' _ Hs' Ho'.
  destruct (socketMutex_ s') eqn:Em; cbn [fst snd]; (split; [exact Hs' |]); [by apply relay_Rel_same |].
  destruct (tunnel_ (core s')) eqn:Ep.
  - exists (mkGhost (Stopper SPtr) None NoGrip). split.
    + split; [cbn; split_and!; [done | done |]; right; left; by rewrite Em |]. split; [by left |]. by split.
    + apply wp_bind, wp_tunnelStop; [done.. |]. by apply Hrest.
  - exists (mkGhost (Stopper SIn) None NoGrip). split.
    + split; [cbn; split_and!; [done | done |]; right; left; by rewrite Em |]. split; [by left |]. by split.
    + apply wp_bind. by apply Hrest.
Qed.

(** ** The owner *)

Definition me (c : Core) (q : bool) : Ghost := mkGhost (Owner c q) None NoGrip.

(** Every open handle is a member or a local variable ([L]), once. *)
Record balanced (c : Core) (L : list Z) : Prop := {
  bal_open : open c ≡ₚ members c ++ L;
  bal_once : NoDup (open c);
  bal_fresh : Forall (λ h, h < nextHandle c) (open c);
  bal_used : misused c = false;
  bal_pointer : tunnel_ c = true -> is_Some (tunnel c);
  bal_gone : gone c = true -> tunnel c = None;
}.
Lemma balanced_ok c L : balanced c L -> core_ok c.
Proof. intros [H1 H2 H3 H4 H5 H6]. split; try done. intros h Hh. rewrite H1, elem_of_app. by left. Qed.

(** Permutations by counting. *)
Lemma count_cons (h : Z) l x : count_occ Z.eq_dec (h :: l) x = (count_occ Z.eq_dec [h] x + count_occ Z.eq_dec l x)%nat.
Proof. by rewrite <- count_occ_app. Qed.
Ltac perm :=
  apply (Permutation_count_occ Z.eq_dec); intros ?x;
  repeat first [ rewrite count_occ_app | rewrite count_occ_nil |
    match goal with |- context [count_occ Z.eq_dec (?h :: ?l) ?x] =>
      lazymatch l with [] => fail | _ => rewrite (count_cons h l x) end end ];
  lia.

Lemma filter_out (h : Z) (l r : list Z) : NoDup l -> l ≡ₚ h :: r -> filter (λ x, x <> h) l ≡ₚ r.
Proof.
  intros Hn Hp. rewrite Hp in Hn |- *. apply NoDup_cons in Hn as [Hh Hr].
  rewrite filter_cons_False by (by intros H; apply H). clear Hp Hr. induction r as [|x r IH]; [done |].
  apply not_elem_of_cons in Hh as [Hx Hh]. rewrite filter_cons_True by done. by rewrite (IH Hh).
Qed.

(** A handle more, a handle less. *)
Lemma balanced_opened c L c' L' :
  balanced c L -> open c' = nextHandle c :: open c -> nextHandle c' = nextHandle c + 1 -> misused c' = misused c ->
  (tunnel_ c' = true -> is_Some (tunnel c')) -> (gone c' = true -> tunnel c' = None) ->
  members c' ++ L' ≡ₚ nextHandle c :: members c ++ L -> balanced c' L'.
Proof.
  intros [H1 H2 H3 H4 H5 H6] Ho Hn Hm Hp Hg HL. split; try done.
  - rewrite Ho, H1. by rewrite HL.
  - rewrite Ho. apply NoDup_cons. split; [|done]. intros Hin. rewrite Forall_forall in H3. specialize (H3 _ Hin). lia.
  - rewrite Ho, Hn. constructor; [lia |]. eapply Forall_impl; [exact H3 |]. cbn. lia.
  - congruence.
Qed.
Lemma balanced_closed c L h a c' L' :
  balanced c L -> open c' = open (closed a h c) -> nextHandle c' = nextHandle c -> misused c' = misused (closed a h c) ->
  (tunnel_ c' = true -> is_Some (tunnel c')) -> (gone c' = true -> tunnel c' = None) ->
  members c ++ L ≡ₚ h :: members c' ++ L' -> balanced c' L'.
Proof.
  intros [H1 H2 H3 H4 H5 H6] Ho Hn Hm Hp Hg HL. cbn in Ho, Hm.
  assert (Hin : h ∈ open c) by (rewrite H1, HL; apply elem_of_cons; by left).
  split; try done.
  - rewrite Ho. apply filter_out; [done |]. by rewrite H1, HL.
  - rewrite Ho. by apply NoDup_filter.
  - rewrite Ho, Hn. apply Forall_forall. intros x Hx. apply list_elem_of_filter in Hx as [_ Hx]. rewrite Forall_forall in H3. by apply H3.
  - rewrite Hm, H4. rewrite bool_decide_eq_true_2 by done. done.
Qed.

(** What stays as it is around the tunnel. *)
Definition kept (c c' : Core) : Prop :=
  clientSock_ c' = clientSock_ c /\ targetSock_ c' = targetSock_ c /\ tunnel_ c' = tunnel_ c /\ gone c' = gone c.
Lemma kept_refl c : kept c c.
Proof. done. Qed.
Lemma kept_trans a b c : kept a b -> kept b c -> kept a c.
Proof. intros (A1 & A2 & A3 & A4) (B1 & B2 & B3 & B4). split_and!; congruence. Qed.

(** The tunnel changes in a way nobody notices, or nobody is there to notice. *)
Lemma may_calm s c c' t t' :
  kept c c' -> tunnel c = Some t -> tunnel c' = Some t' -> tunnelClient_ t' = tunnelClient_ t -> spawned t' = spawned t ->
  websocket_ t' = websocket_ t -> ownerMay s c c'.
Proof.
  intros (K1 & K2 & K3 & K4) Ht Ht' H1 H2 H3. split; [by rewrite K1, K2, K3 | | congruence].
  intros t0 Ht0 _. rewrite Ht in Ht0. injection Ht0 as <-. exists t'. split_and!; try done. congruence.
Qed.
Lemma may_alone s c c' : kept c c' -> core s = c -> tunnel_ c = false -> joined s = true -> ownerMay s c c'.
Proof.
  intros (K1 & K2 & K3 & K4) Hc Hp Hj. split; [by rewrite K1, K2, K3 | | congruence].
  intros t Ht [H|[Hs He]]; [congruence |]. unfold joined in Hj. rewrite Hc, Ht, Hs, He in Hj. done.
Qed.
Lemma may_local s c c' : kept c c' -> tunnel c' = tunnel c -> ownerMay s c c'.
Proof.
  intros (K1 & K2 & K3 & K4) Ht. split; [by rewrite K1, K2, K3 | | congruence].
  intros t Htt _. exists t. by rewrite Ht.
Qed.

(** The pump is still out of the way. *)
Lemma joined_kept s s' c t t' :
  core s = c -> tunnel c = Some t -> tunnel (core s') = Some t' -> spawned t' = spawned t -> pumpEnded s' = pumpEnded s ->
  joined s = true -> joined s' = true.
Proof. intros Hc Ht Ht' Hs Hp. unfold joined. by rewrite Hc, Ht, Ht', Hs, Hp. Qed.

(** One step of the owner. *)
Lemma wp_step {A} (sec : Relay -> A * Relay) c q (Q : A -> Ghost -> Prop) X :
  (forall s, Inv s -> own (me c q) s -> exists c' q',
     core (sec s).2 = c' /\ socketMutex_ (sec s).2 = socketMutex_ s /\ sendMutex_ (sec s).2 = sendMutex_ s /\
     pumpEnded (sec s).2 = pumpEnded s /\ core_ok c' /\ ownerMay s c c' /\ (q' = true -> joined (sec s).2 = true) /\
     Q (sec s).1 (me c' q')) ->
  Wp (atomic (λ _ s, sec s) : M A) (me c q) Q X.
Proof.
  intros H t s _ Hs Ho. destruct (H s Hs Ho) as (c' & q' & H1 & H2 & H3 & H4 & H5 & H6 & H7 & HQ).
  split; [unfold Inv; by rewrite H1 |]. exists (me c' q'). split; [|done]. split; [by split_and! |]. split; [by left |]. by split.
Qed.

(** *** Members of the tunnel *)

Record slot (get : Tunnel -> option Z) (set : option Z -> Tunnel -> Tunnel) : Prop := {
  slot_less : forall c t h, tunnel c = Some t -> get t = Some h -> members c ≡ₚ h :: members (inCoreTunnel (set None) c);
  slot_more : forall c t h, tunnel c = Some t -> get t = None -> members (inCoreTunnel (set (Some h)) c) ≡ₚ h :: members c;
  slot_spawned : forall o t, spawned (set o t) = spawned t;
  slot_keep : forall t, get t = None -> set None t = t;
}.
Definition plain (set : option Z -> Tunnel -> Tunnel) : Prop :=
  forall o t, tunnelClient_ (set o t) = tunnelClient_ t /\ websocket_ (set o t) = websocket_ t.

Ltac slot_tac :=
  split; [ | | done | by intros []; cbn; intros -> ];
  (intros c t h Ht Hg; unfold members, inCoreTunnel; cbn; rewrite Ht; cbn; rewrite Hg; cbn; perm).
Lemma session_slot : slot session_ setSession.
Proof. slot_tac. Qed.
Lemma connect_slot : slot connect_ setConnect.
Proof. slot_tac. Qed.
Lemma request_slot : slot request_ setRequest.
Proof. slot_tac. Qed.
Lemma websocket_slot : slot websocket_ setWebsocket.
Proof. slot_tac. Qed.
Lemma client_slot : slot tunnelClient_ setTunnelClient.
Proof. slot_tac. Qed.

Lemma own_core c q s : own (me c q) s -> core s = c /\ (q = true -> joined s = true).
Proof. by intros ((H1 & H2) & _). Qed.

(** [closeMember] may be used where nobody notices, or alone. *)
Lemma wp_closeMember get set c q t L (Q : unit -> Ghost -> Prop) X :
  slot get set -> tunnel c = Some t -> balanced c L -> plain set \/ get t = None \/ (tunnel_ c = false /\ q = true) ->
  (forall c', kept c c' -> tunnel c' = Some (set None t) -> balanced c' L -> Q tt (me c' q)) ->
  Wp (closeMember get set) (me c q) Q X.
Proof.
  intros [S1 S2 S3 S4] Ht Hb Hmay HQ. assert (Hu : uses (me c q)) by (unfold uses; cbn; eauto).
  apply wp_bind, wp_inTunnel; [done |]. intros t0 s Ht0 _ Ho. apply own_core in Ho as [Hc _]. rewrite Hc, Ht in Ht0. injection Ht0 as <-.
  split; [done |]. cbn [fst]. destruct (get t) as [h|] eqn:Eg.
  2: { apply HQ; [done | by rewrite S4 | done]. }
  set (c' := inCoreTunnel (set None) (closed false h c)).
  assert (Ht' : tunnel c' = Some (set None t)) by (unfold c', inCoreTunnel; cbn; by rewrite Ht).
  assert (Hk : kept c c') by done.
  assert (Hb' : balanced c' L).
  { apply (balanced_closed c L h false c' L); [done | done | done | done | | |].
    - intros _. by rewrite Ht'.
    - intros Hg. pose proof (bal_gone _ _ Hb Hg). congruence.
    - rewrite (S1 c t h Ht Eg). change (members c') with (members (inCoreTunnel (set None) c)). done. }
  apply (wp_step (λ s, (tt, setCore (inCoreTunnel (set None) (closed false h (core s))) s))).
  intros s1 _ Ho. apply own_core in Ho as [Hc1 Hj1]. exists c', q. rewrite Hc1. fold c'. split_and!; try done.
  - by eapply balanced_ok.
  - destruct Hmay as [Hp|[|[Hp Hq]]]; [|done | by apply may_alone; auto].
    destruct (Hp None t) as [P1 P2]. eapply may_calm; try done.
  - intros Hq. eapply (joined_kept s1 _ c t (set None t)); try done. by apply Hj1.
  - by apply HQ.
Qed.

Definition cleared (t : Tunnel) : Tunnel := mkTunnel None None None None (connectAttempted_ t) (tunnelClient_ t) (spawned t).

Lemma wp_wsCleanup c q t L (Q : unit -> Ghost -> Prop) X :
  tunnel c = Some t -> balanced c L -> websocket_ t = None \/ (tunnel_ c = false /\ q = true) ->
  (forall c', kept c c' -> tunnel c' = Some (cleared t) -> balanced c' L -> Q tt (me c' q)) ->
  Wp wsCleanup (me c q) Q X.
Proof.
  intros Ht Hb Hw HQ. unfold wsCleanup.
  apply wp_bind. eapply wp_closeMember; [exact websocket_slot | done | done | by right |]. intros c1 K1 T1 B1.
  apply wp_bind. eapply wp_closeMember; [exact request_slot | done | done | by left |]. intros c2 K2 T2 B2.
  apply wp_bind. eapply wp_closeMember; [exact connect_slot | done | done | by left |]. intros c3 K3 T3 B3.
  apply wp_bind. eapply wp_closeMember; [exact session_slot | done | done | by left |]. intros c4 K4 T4 B4.
  apply wp_connectedOff; [unfold uses; cbn; eauto |]. apply HQ; [|done | done].
  eapply kept_trans; [|exact K4]. eapply kept_trans; [|exact K3]. by eapply kept_trans.
Qed.

(** A new handle for a member, and for a local variable. *)
Lemma wp_openMember get set c q t L (Q : Z -> Ghost -> Prop) X :
  slot get set -> plain set -> tunnel c = Some t -> get t = None -> balanced c L ->
  (forall h c', kept c c' -> tunnel c' = Some (set (Some h) t) -> balanced c' L -> h ∈ open c' -> Q h (me c' q)) ->
  Wp (opened (λ h, inCoreTunnel (set (Some h)))) (me c q) Q X.
Proof.
  intros [S1 S2 S3 S4] Hp Ht Hg Hb HQ. set (h := nextHandle c).
  set (c1 := mkCore (clientSock_ c) (targetSock_ c) (abortive_ c) (tunnel_ c) (tunnel c) (h :: open c) (h + 1) (resets c) (misused c) (gone c)).
  set (c' := inCoreTunnel (set (Some h)) c1).
  assert (Ht' : tunnel c' = Some (set (Some h) t)) by (unfold c', inCoreTunnel; cbn; by rewrite Ht).
  assert (Hb' : balanced c' L).
  { apply (balanced_opened c L c' L); [done.. | | |].
    - intros _. by rewrite Ht'.
    - intros Hgo. pose proof (bal_gone _ _ Hb Hgo). congruence.
    - change (members c') with (members (inCoreTunnel (set (Some h)) c)). by rewrite (S2 c t h Ht Hg). }
  apply (wp_step (λ s, (nextHandle (core s), setCore (inCoreTunnel (set (Some (nextHandle (core s)))) (mkCore (clientSock_ (core s)) (targetSock_ (core s)) (abortive_ (core s)) (tunnel_ (core s)) (tunnel (core s)) (nextHandle (core s) :: open (core s)) (nextHandle (core s) + 1) (resets (core s)) (misused (core s)) (gone (core s)))) s))).
  intros s _ Ho. apply own_core in Ho as [Hc Hj]. rewrite Hc. fold h c1 c'. exists c', q. split_and!; try done.
  - by eapply balanced_ok.
  - destruct (Hp (Some h) t) as [P1 P2]. eapply may_calm; try done.
  - intros Hq. eapply (joined_kept s _ c t (set (Some h) t)); try done. by apply Hj.
  - apply HQ; try done. apply elem_of_cons. by left.
Qed.

Lemma wp_openLocal c q L (Q : Z -> Ghost -> Prop) X :
  balanced c L ->
  (forall h c', kept c c' -> tunnel c' = tunnel c -> balanced c' (h :: L) -> Q h (me c' q)) ->
  Wp (opened (λ _ c, c)) (me c q) Q X.
Proof.
  intros Hb HQ. set (h := nextHandle c).
  set (c' := mkCore (clientSock_ c) (targetSock_ c) (abortive_ c) (tunnel_ c) (tunnel c) (h :: open c) (h + 1) (resets c) (misused c) (gone c)).
  assert (Hb' : balanced c' (h :: L)).
  { apply (balanced_opened c L c' (h :: L)); [done.. | apply Hb | apply Hb |].
    change (members c') with (members c). fold h. perm. }
  apply (wp_step (λ s, (nextHandle (core s), setCore (mkCore (clientSock_ (core s)) (targetSock_ (core s)) (abortive_ (core s)) (tunnel_ (core s)) (tunnel (core s)) (nextHandle (core s) :: open (core s)) (nextHandle (core s) + 1) (resets (core s)) (misused (core s)) (gone (core s))) s))).
  intros s _ Ho. apply own_core in Ho as [Hc Hj]. rewrite Hc. fold h c'. exists c', q. split_and!; try done.
  - by eapply balanced_ok.
  - by apply may_local.
  - intros Hq. unfold joined in *. rewrite Hc in Hj. cbn. by apply Hj.
  - by apply HQ.
Qed.

(** What a section of the owner leaves. *)
Definition stepped {A} (c : Core) (s : Relay) (r : A * Relay) (Q : A -> Ghost -> Prop) : Prop :=
  exists c' q', core r.2 = c' /\ socketMutex_ r.2 = socketMutex_ s /\ sendMutex_ r.2 = sendMutex_ s /\
    pumpEnded r.2 = pumpEnded s /\ core_ok c' /\ ownerMay s c c' /\ (q' = true -> joined r.2 = true) /\ Q r.1 (me c' q').

Lemma wp_stepSend {A} (sec : Tunnel -> Relay -> A * Relay) c q t (Q : A -> Ghost -> Prop) X :
  tunnel c = Some t -> (forall s, own (me c q) s -> sendMutex_ s = false -> stepped c s (sec t s) Q) ->
  Wp (guardedSend sec) (me c q) Q X.
Proof.
  intros Ht H. split; [by apply wait_send |]. intros _ s _ Hs Ho. destruct (own_core _ _ _ Ho) as [Hc _].
  rewrite Hc, Ht. destruct (sendMutex_ s) eqn:Em; [cbn; split; [done | by apply relay_Rel_same] |].
  destruct (H s Ho Em) as (c' & q' & H1 & H2 & H3 & H4 & H5 & H6 & H7 & HQ). destruct (sec t s) as [a s']. cbn [fst snd] in *.
  split; [unfold Inv; by rewrite H1 |]. exists (me c' q'). split; [|done]. split; [by split_and! |]. split; [left; by rewrite H3 |]. by split.
Qed.
Lemma wp_stepSocket {A} (sec : Relay -> A * Relay) c q (Q : A -> Ghost -> Prop) X :
  (forall s, own (me c q) s -> socketMutex_ s = false -> stepped c s (sec s) Q) -> Wp (guarded sec) (me c q) Q X.
Proof.
  intros H. split; [apply wait_socket; [done | by left] |]. intros _ s _ Hs Ho.
  destruct (socketMutex_ s) eqn:Em; [cbn; split; [done | by apply relay_Rel_same] |].
  destruct (H s Ho Em) as (c' & q' & H1 & H2 & H3 & H4 & H5 & H6 & H7 & HQ). destruct (sec s) as [a s']. cbn [fst snd] in *.
  split; [unfold Inv; by rewrite H1 |]. exists (me c' q'). split; [|done]. split; [by split_and! |]. split; [by left |]. by split.
Qed.

(** *** Connecting the WebSocket *)

(** The tunnel after a part of [connect]: the same to everybody else. *)
Definition grown (c : Core) (t : Tunnel) (c' : Core) : Prop :=
  kept c c' /\ balanced c' [] /\ exists t', tunnel c' = Some t' /\ tunnelClient_ t' = tunnelClient_ t /\ spawned t' = spawned t.

Section Connect.
Variable c0 : Core.
Variable t0 : Tunnel.
Variable q : bool.
Variable Q : bool -> Ghost -> Prop.
Variable X : Ghost -> Prop.
Hypothesis HQ : forall b c', grown c0 t0 c' ->
  (b = true -> exists t' h, tunnel c' = Some t' /\ websocket_ t' = Some h) -> Q b (me c' q).
Hypothesis HX : forall c', grown c0 t0 c' -> X (me c' q).

Lemma wp_giveUp c t :
  kept c0 c -> tunnel c = Some t -> balanced c [] -> tunnelClient_ t = tunnelClient_ t0 -> spawned t = spawned t0 ->
  websocket_ t = None -> Wp giveUp (me c q) Q X.
Proof.
  intros K T B H1 H2 H3. apply wp_bind. eapply wp_wsCleanup; [done | done | by left |]. intros c' K' T' B'.
  apply HQ; [|done]. split; [by eapply kept_trans |]. split; [done |]. by exists (cleared t).
Qed.

Lemma wp_addHeaders request headers c (Q' : unit -> Ghost -> Prop) :
  request ∈ open c -> Q' tt (me c q) -> X (me c q) -> Wp (addHeaders request headers) (me c q) Q' X.
Proof.
  intros Hin H1 H2. induction headers as [|[name value] headers IH]; [done |]. cbn [addHeaders]. apply wp_bind, wp_during_ask; [|done | done].
  intros s _ Ho. by rewrite (proj1 (own_core _ _ _ Ho)).
Qed.

Lemma owner_open h c s : h ∈ open c -> Inv s -> own (me c q) s -> h ∈ open (core s).
Proof. intros Hin _ Ho. by rewrite (proj1 (own_core _ _ _ Ho)). Qed.

Lemma members_open c t L h : tunnel c = Some t -> balanced c L -> request_ t = Some h -> h ∈ open c.
Proof.
  intros Ht Hb Hr. apply (ok_members c (balanced_ok _ _ Hb)). unfold members. rewrite Ht, Hr, !elem_of_app. cbn. set_solver.
Qed.

Lemma wp_upgrade request headers c t :
  kept c0 c -> tunnel c = Some t -> balanced c [] -> tunnelClient_ t = tunnelClient_ t0 -> spawned t = spawned t0 ->
  websocket_ t = None -> request_ t = Some request -> Wp (upgrade request headers) (me c q) Q X.
Proof.
  intros K T B H1 H2 H3 Hr. pose proof (members_open c t [] request T B Hr) as Hin.
  assert (Hx : X (me c q)) by (apply HX; split; [done |]; split; [done |]; by exists t).
  assert (Hgu : Wp giveUp (me c q) Q X) by (by eapply wp_giveUp).
  assert (Hop : forall s, Inv s -> own (me c q) s -> request ∈ open (core s)) by (intros s; by apply owner_open).
  apply wp_bind, wp_addHeaders; [done | | done].
  do 3 (apply wp_bind, wp_during_ask; [done | | done]; intros []; [|exact Hgu]; cbn [negb]).
  apply wp_bind, wp_during; [done |]. split; [done |]. intros o _.
  assert (Hcode : forall code : Z, Wp (if negb (code =? 101) then giveUp else
      ok ← during request (ask (WinHttpWebSocketCompleteUpgrade request)); if negb ok then giveUp else
      websocket ← opened (λ _ c, c); _ ← closeMember request_ setRequest;
      published ← guardedSend (λ t s,
        if wsStopping_ s then (false, s) else (true, setConnected true (setInTunnel (setWebsocket (Some websocket)) s)));
      if (published : bool) then mret true else _ ← closeHandle websocket id; giveUp) (me c q) Q X).
  2: { destruct o as [[]|]; [split; [done | apply Hcode].. |]. exact Hx. }
  intros code. case_if; [exact Hgu |]. apply wp_bind, wp_during_ask; [done | | done]. intros []; [|exact Hgu]. cbn [negb].
  apply wp_bind. eapply wp_openLocal; [done |]. intros h c1 K1 T1 B1. rewrite T in T1.
  apply wp_bind. eapply wp_closeMember; [exact request_slot | done | done | by left |]. intros c2 K2 T2 B2.
  assert (K02 : kept c0 c2) by (eapply kept_trans; [|done]; by eapply kept_trans).
  apply wp_bind. eapply wp_stepSend; [done |]. intros s Ho Hm. destruct (own_core _ _ _ Ho) as [Hc Hj]. destruct (wsStopping_ s) eqn:Ews.
  - exists c2, q. cbn [fst snd]. split_and!; try done; [by eapply balanced_ok | apply ownerMay_refl |].
    set (c3 := closed false h c2). assert (B3 : balanced c3 []).
    { apply (balanced_closed c2 [h] h false c3 []); [done.. | apply B2 | apply B2 |]. change (members c3) with (members c2). perm. }
    apply wp_bind. apply (wp_step (λ s, (tt, setCore (closed false h (core s)) s))). intros s' _ Ho'. destruct (own_core _ _ _ Ho') as [Hc' Hj'].
    rewrite Hc'. fold c3. exists c3, q. split_and!; try done; [by eapply balanced_ok | by apply may_local | |].
    + intros Hq. unfold joined in *. rewrite Hc' in Hj'. by apply Hj'.
    + eapply wp_giveUp; try done.
  - set (t2 := setRequest None t) in *. set (c3 := inCoreTunnel (setWebsocket (Some h)) c2).
    assert (T3 : tunnel c3 = Some (setWebsocket (Some h) t2)) by (unfold c3, inCoreTunnel; cbn; by rewrite T2).
    assert (B3 : balanced c3 []).
    { destruct B2 as [D1 D2 D3 D4 D5 D6]. split; [|exact D2 | exact D3 | exact D4 | intros _; rewrite T3; eauto | intros Hg; rewrite (D6 Hg) in T2; done].
      pose proof (slot_more _ _ websocket_slot c2 t2 h T2 H3) as Hm3. fold c3 in Hm3. change (open c3) with (open c2). rewrite D1, Hm3. perm. }
    exists c3, q. cbn [fst snd]. split_and!; try done.
    + unfold setInTunnel. cbn. by rewrite Hc.
    + by eapply balanced_ok.
    + split; [done | | done]. intros t' Ht' _. rewrite T2 in Ht'. injection Ht' as <-. exists (setWebsocket (Some h) t2). split_and!; try done. congruence.
    + intros Hq. eapply (joined_kept s _ c2 t2 (setWebsocket (Some h) t2)); try done; [|by apply Hj].
      unfold setInTunnel. cbn. by rewrite Hc.
    + apply HQ; [split; [done |]; split; [done |]; by exists (setWebsocket (Some h) t2) |]. intros _. by exists (setWebsocket (Some h) t2), h.
Qed.
End Connect.

Lemma wp_wsConnect url headers port c t q (Q : bool -> Ghost -> Prop) (X : Ghost -> Prop) :
  tunnel c = Some t -> balanced c [] -> session_ t = None -> connect_ t = None -> request_ t = None -> websocket_ t = None ->
  (forall b c', grown c t c' -> (b = true -> exists t' h, tunnel c' = Some t' /\ websocket_ t' = Some h) -> Q b (me c' q)) ->
  (forall c', grown c t c' -> X (me c' q)) -> Wp (wsConnect url headers port) (me c q) Q X.
Proof.
  intros T B Hse Hco Hre Hws HQ HX. unfold wsConnect.
  assert (Hno : forall c' t', kept c c' -> tunnel c' = Some t' -> balanced c' [] -> tunnelClient_ t' = tunnelClient_ t ->
    spawned t' = spawned t -> Q false (me c' q) /\ X (me c' q)).
  { intros c' t' K T' B' H1 H2. split; [apply HQ; [|done] | apply HX]; (split; [done |]; split; [done |]; by exists t'). }
  set (c1 := inCoreTunnel setAttempted c).
  assert (T1 : tunnel c1 = Some (setAttempted t)) by (unfold c1, inCoreTunnel; cbn; by rewrite T).
  assert (B1 : balanced c1 []).
  { destruct B as [D1 D2 D3 D4 D5 D6]. split; [|exact D2 | exact D3 | exact D4 | intros _; rewrite T1; eauto | intros Hg; rewrite (D6 Hg) in T; done].
    change (open c1) with (open c). rewrite D1. unfold members. rewrite T1, T. done. }
  apply wp_bind. eapply wp_stepSend; [done |]. intros s Ho Hm. destruct (own_core _ _ _ Ho) as [Hc Hj].
  destruct (wsStopping_ s || connectAttempted_ t).
  { exists c, q. cbn [fst snd]. split_and!; try done; [by eapply balanced_ok | apply ownerMay_refl |]. by apply (Hno c t). }
  exists c1, q. cbn [fst snd]. split_and!; try done; [unfold setInTunnel; cbn; by rewrite Hc | by eapply balanced_ok | by eapply may_calm | |].
  { intros Hq. eapply (joined_kept s _ c t (setAttempted t)); try done; [|by apply Hj]. unfold setInTunnel. cbn. by rewrite Hc. }
  cbn [negb]. apply wp_bind. eapply wp_wsCleanup; [done | done | by left |]. intros c2 K2 T2 B2.
  destruct (Hno c2 _ K2 T2 B2 eq_refl eq_refl) as [Hq2 Hx2]. destruct (parseWsUrl url) as [u|]; [|exact Hq2].
  apply wp_bind, relay_wp_ask; [|exact Hx2]. intros []; [cbn [negb] | exact Hq2].
  apply wp_bind. eapply (wp_openMember session_ setSession); [exact session_slot | done | done | done | done |].
  intros se c3 K3 T3 B3 Hse3. assert (K03 : kept c c3) by (by eapply kept_trans).
  destruct (Hno c3 _ K03 T3 B3 eq_refl eq_refl) as [_ Hx3].
  assert (Hgu3 : Wp giveUp (me c3 q) Q X) by (by eapply (wp_giveUp c t q Q X)).
  apply wp_bind, wp_during_ask; [intros ?; by apply owner_open | intros _ | done].
  apply wp_bind, wp_during_ask; [intros ?; by apply owner_open | | done]. intros []; [cbn [negb] | exact Hgu3].
  apply wp_bind. eapply (wp_openMember connect_ setConnect); [exact connect_slot | done | done | done | done |].
  intros co c4 K4 T4 B4 Hco4. assert (K04 : kept c c4) by (by eapply kept_trans).
  destruct (Hno c4 _ K04 T4 B4 eq_refl eq_refl) as [_ Hx4].
  assert (Hgu4 : Wp giveUp (me c4 q) Q X) by (by eapply (wp_giveUp c t q Q X)).
  apply wp_bind, wp_during_ask; [intros ?; by apply owner_open | | done]. intros []; [cbn [negb] | exact Hgu4].
  apply wp_bind. eapply (wp_openMember request_ setRequest); [exact request_slot | done | done | done | done |].
  intros re c5 K5 T5 B5 _. assert (K05 : kept c c5) by (by eapply kept_trans).
  by eapply (wp_upgrade c t q Q X HQ HX).
Qed.

(** *** Serving the tunnel *)

Section Serve.
Variable c : Core.
Variable t : Tunnel.
Variable q : bool.
Hypothesis T : tunnel c = Some t.
Hypothesis B : balanced c [].

Lemma serve_uses : uses (me c q).
Proof. unfold uses. cbn. eauto. Qed.
Lemma serve_open h s : websocket_ t = Some h \/ tunnelClient_ t = Some h -> Inv s -> own (me c q) s -> h ∈ open (core s).
Proof.
  intros Hh Hs Ho. apply owner_open with (c := c) (q := q); [|done | done]. apply (ok_members c (balanced_ok _ _ B)).
  unfold members. rewrite T, !elem_of_app. destruct Hh as [-> | ->]; cbn; set_solver.
Qed.

Lemma relay_wp_receive frames ws (Q : Received -> Ghost -> Prop) (X : Ghost -> Prop) :
  websocket_ t = Some ws -> (forall r, Q r (me c q)) -> X (me c q) -> Wp (receive frames) (me c q) Q X.
Proof.
  intros Hw HQ HX. apply wp_bind, wp_inTunnel; [apply serve_uses |]. intros t0 s Ht0 _ Ho.
  rewrite (proj1 (own_core _ _ _ Ho)), T in Ht0. injection Ht0 as <-. split; [done |]. cbn [fst]. case_if; [apply HQ |]. rewrite Hw.
  apply wp_bind. assert (Hloop : forall out, Wp (receiveLoop frames ws out) (me c q) (λ r g, g = me c q) X).
  { induction frames as [|n IH]; intros out; cbn [receiveLoop]; [done |].
    apply wp_bind, wp_during; [intros s0; apply serve_open; by left |]. split; [done |]. intros o _.
    destruct o as [[]|]; cbn; try done; (split; [done |]); destruct (receiveStep _ _); try done; apply IH. }
  eapply wp_mono; [apply Hloop | | done]. intros r g ->. apply wp_bind.
  destruct r; try (apply HQ); (apply wp_connectedOff; [apply serve_uses | apply HQ]).
Qed.

Lemma wp_pumpWsToSock rounds frames ws client (Q : unit -> Ghost -> Prop) (X : Ghost -> Prop) :
  websocket_ t = Some ws -> tunnelClient_ t = Some client -> Q tt (me c q) -> X (me c q) ->
  Wp (pumpWsToSock rounds frames) (me c q) Q X.
Proof.
  intros Hw Hcl HQ HX. apply wp_bind. assert (Hstop : Wp tunnelStop (me c q) Q X).
  { apply wp_tunnelStop; [apply serve_uses | done..]. }
  induction rounds as [|n IH]; cbn [pumpWsToSock_loop]; [exact Hstop |].
  apply wp_bind, wp_inTunnel; [apply serve_uses |]. intros t0 s Ht0 _ Ho.
  rewrite (proj1 (own_core _ _ _ Ho)), T in Ht0. injection Ht0 as <-. split; [done |]. cbn [fst]. case_if; [exact Hstop |]. rewrite Hcl.
  apply wp_bind. eapply relay_wp_receive; [done | | done]. intros [| [] out | |]; try exact Hstop; [exact IH |].
  apply wp_bind, wp_during_ask; [intros s0; apply serve_open; by right | | done]. intros []; [exact IH | exact Hstop].
Qed.

Lemma wp_joinPump (Q : unit -> Ghost -> Prop) X : Q tt (me c true) -> Wp joinPump (me c q) Q X.
Proof.
  intros HQ. split; [by apply wait_join |]. intros _ s _ Hs Ho. destruct (joined s) eqn:Ej; cbn [fst snd]; (split; [done |]).
  - exists (me c true). split; [|done]. split; [split_and!; [apply ownerMay_refl | done | done] |]. split; [by left |].
    split; [|done]. split; [by apply own_core in Ho as [? _] | done].
  - by apply relay_Rel_same.
Qed.
End Serve.

(** A tunnel in service: whatever happened to it, its client is the same. *)
Definition serving (c : Core) (client : Z) (c' : Core) : Prop :=
  kept c c' /\ balanced c' [] /\ exists t', tunnel c' = Some t' /\ tunnelClient_ t' = Some client.

Lemma wp_tunnelRun job rounds frames c client q (Q : unit -> Ghost -> Prop) (X : Ghost -> Prop) :
  tunnel c = Some (newTunnel client) -> balanced c [] ->
  (forall c' q', serving c client c' -> Q tt (me c' q')) -> (forall c' q', serving c client c' -> X (me c' q')) ->
  Wp (tunnelRun job rounds frames) (me c q) Q X.
Proof.
  intros T B HQ HX. assert (H0 : serving c client c) by (split; [done |]; split; [done |]; by exists (newTunnel client)).
  apply wp_bind, wp_inTunnel; [by eapply serve_uses |]. intros t0 s Ht0 _ _. split; [done |]. cbn [fst]. case_if; [by apply HQ |].
  apply wp_bind. eapply wp_wsConnect; [done.. | |].
  2: { intros c' (K & B' & t' & T' & H1 & H2). apply HX. split; [done |]. split; [done |]. by exists t'. }
  intros ok c1 (K1 & B1 & t1 & T1 & H1 & H2) Hw. assert (S1 : serving c client c1) by (split; [done |]; split; [done |]; by exists t1).
  destruct ok; [cbn [negb] | by apply HQ]. destruct (Hw eq_refl) as (t1' & ws & T1' & Hws). rewrite T1 in T1'. injection T1' as <-.
  assert (Hu : uses (me c1 q)) by (by eapply serve_uses).
  apply wp_bind, wp_inTunnel; [done |]. intros t2 s2 Ht2 _ _. split; [done |]. cbn [fst]. case_if; [by apply HQ |].
  apply wp_bind, wp_wsSend; [done | done |]. intros []; [cbn [negb] | by apply HQ].
  apply wp_bind. eapply relay_wp_receive; [done.. | | by apply HX]. intros [| isText out | |]; try (by apply HQ). case_if; [by apply HQ |].
  apply wp_bind. assert (Hgo : Wp (started ← ask StartThread; if negb started then mret () else
      _ ← inTunnel (λ _ s, (tt, setInTunnel setSpawned s)); _ ← pumpWsToSock rounds frames; _ ← tunnelStop; joinPump) (me c1 q) Q X).
  2: { case_if; [exact Hgo |]. apply wp_wsSend; [done | done |]. intros []; [exact Hgo | by apply HQ]. }
  apply wp_bind, relay_wp_ask; [|by apply HX]. intros []; [cbn [negb] | by apply HQ].
  set (c2 := inCoreTunnel setSpawned c1). set (t3 := setSpawned t1).
  assert (T2 : tunnel c2 = Some t3) by (unfold c2, inCoreTunnel; cbn; by rewrite T1).
  assert (B2 : balanced c2 []).
  { destruct B1 as [D1 D2 D3 D4 D5 D6]. split; [|exact D2 | exact D3 | exact D4 | intros _; rewrite T2; eauto | intros Hg; rewrite (D6 Hg) in T1; done].
    change (open c2) with (open c1). rewrite D1. unfold members. rewrite T1, T2. done. }
  assert (S2 : serving c client c2) by (split; [done |]; split; [done |]; by exists t3).
  apply wp_bind. apply wp_bind. apply (wp_step (λ s, match tunnel (core s) with Some t => let '(a, s') := (tt, setInTunnel setSpawned s) in (Some a, s') | None => (None, s) end)).
  intros s3 _ Ho. destruct (own_core _ _ _ Ho) as [Hc _]. rewrite Hc, T1. exists c2, false. unfold setInTunnel. cbn [fst snd]. rewrite Hc.
  split_and!; try done; [by eapply balanced_ok | |].
  { split; [done | | done]. intros t' Ht' _. rewrite T1 in Ht'. injection Ht' as <-. exists t3. split_and!; done. }
  apply wp_bind. eapply (wp_pumpWsToSock c2 t3); [done | done | exact Hws | exact H1 | | by apply HX].
  apply wp_bind, wp_tunnelStop; [by eapply serve_uses | done | done |]. apply wp_joinPump. by apply HQ.
Qed.

Lemma wp_destroyTunnel c t q (Q : unit -> Ghost -> Prop) X :
  tunnel c = Some t -> balanced c [] -> tunnel_ c = false ->
  (forall c', kept c c' -> balanced c' [] -> tunnel c' = None -> Q tt (me c' true)) -> Wp destroyTunnel (me c q) Q X.
Proof.
  intros T B P HQ. apply wp_bind, wp_tunnelStop; [by eapply serve_uses | done | done |].
  apply wp_bind, wp_joinPump. apply wp_bind.
  eapply (wp_closeMember tunnelClient_ setTunnelClient); [exact client_slot | done | done | by right; right |]. intros c1 K1 T1 B1.
  apply wp_bind, wp_wsClose; [by eapply serve_uses | done |].
  assert (P1 : tunnel_ c1 = false) by (destruct K1 as (_ & _ & -> & _); done).
  apply wp_bind. eapply wp_wsCleanup; [done | done | by right |]. intros c2 K2 T2 B2.
  assert (P2 : tunnel_ c2 = false) by (destruct K2 as (_ & _ & -> & _); done).
  set (c3 := setTunnel None c2). assert (B3 : balanced c3 []).
  { destruct B2 as [D1 D2 D3 D4 D5 D6]. split; [|exact D2 | exact D3 | exact D4 | intros H; cbn in H; congruence | done].
    change (open c3) with (open c2). rewrite D1. unfold members. rewrite T2. done. }
  apply (wp_step (λ s, (tt, setCore (setTunnel None (core s)) s))). intros s _ Ho. destruct (own_core _ _ _ Ho) as [Hc Hj].
  rewrite Hc. fold c3. exists c3, true. split_and!; try done; [by eapply balanced_ok | by apply may_alone; auto |].
  apply HQ; [|done | done]. eapply kept_trans; [exact K1 |]. by eapply kept_trans.
Qed.

(** The relay without a tunnel. *)
Record resting (c : Core) : Prop := {
  rest_balanced : balanced c [];
  rest_tunnel : tunnel c = None;
  rest_pointer : tunnel_ c = false;
  rest_here : gone c = false;
}.

Lemma joined_resting s c : core s = c -> tunnel c = None -> joined s = true.
Proof. intros Hc Ht. unfold joined. by rewrite Hc, Ht. Qed.

(** Sections under [socketMutex_] that leave the tunnel alone. *)
Lemma may_unlocked s c c' : socketMutex_ s = false -> tunnel c = None -> gone c' = gone c -> ownerMay s c c'.
Proof. intros Hm Ht Hg. split; [by rewrite Hm | by rewrite Ht | congruence]. Qed.

Lemma wp_restingSocket {A} (sec : Relay -> A * Relay) c q (Q : A -> Ghost -> Prop) X :
  resting c ->
  (forall s, core s = c -> resting (core (sec s).2) /\ socketMutex_ (sec s).2 = socketMutex_ s /\ sendMutex_ (sec s).2 = sendMutex_ s /\
     pumpEnded (sec s).2 = pumpEnded s /\ Q (sec s).1 (me (core (sec s).2) true)) ->
  Wp (guarded sec) (me c q) Q X.
Proof.
  intros R H. apply wp_stepSocket. intros s Ho Hm. destruct (own_core _ _ _ Ho) as [Hc _]. destruct (H s Hc) as (R' & H1 & H2 & H3 & HQ).
  exists (core (sec s).2), true. split_and!; try done.
  - eapply balanced_ok, R'.
  - apply may_unlocked; [done | exact (rest_tunnel _ R) |].
    pose proof (rest_here _ R). pose proof (rest_here _ R'). congruence.
  - intros _. eapply joined_resting; [done | exact (rest_tunnel _ R')].
Qed.

Lemma closeOne_balanced a get forget c :
  balanced c [] -> tunnel (forget c) = tunnel c -> tunnel_ (forget c) = tunnel_ c -> gone (forget c) = gone c ->
  (forall h, get c = Some h -> members c ≡ₚ h :: members (forget (closed a h c)) /\
     open (forget (closed a h c)) = open (closed a h c) /\ nextHandle (forget (closed a h c)) = nextHandle c /\
     misused (forget (closed a h c)) = misused (closed a h c) /\ tunnel (forget (closed a h c)) = tunnel c /\
     tunnel_ (forget (closed a h c)) = tunnel_ c /\ gone (forget (closed a h c)) = gone c) ->
  balanced (closeOne a get forget c) [].
Proof.
  intros B _ _ _ H. unfold closeOne. destruct (get c) as [h|] eqn:E; [|done]. destruct (H h eq_refl) as (H1 & H2 & H3 & H4 & H5 & H6 & H7).
  apply (balanced_closed c [] h a _ []); try done; [rewrite H5, H6; apply B | rewrite H5, H7; apply B |]. by rewrite !app_nil_r.
Qed.

Lemma resting_closeClient a c : resting c -> resting (closeOne a clientSock_ (setClient None) c) /\ clientSock_ (closeOne a clientSock_ (setClient None) c) = None.
Proof.
  intros [B T P G]. split; [|unfold closeOne; by destruct (clientSock_ c) eqn:E].
  split; [apply closeOne_balanced; try done | by unfold closeOne; destruct (clientSock_ c)..].
  intros h Hh. split_and!; try done. unfold members. cbn. rewrite Hh. cbn. perm.
Qed.
Lemma resting_closeTarget a c : resting c -> resting (closeOne a targetSock_ (setTarget None) c) /\ targetSock_ (closeOne a targetSock_ (setTarget None) c) = None.
Proof.
  intros [B T P G]. split; [|unfold closeOne; by destruct (targetSock_ c) eqn:E].
  split; [apply closeOne_balanced; try done | by unfold closeOne; destruct (targetSock_ c)..].
  intros h Hh. split_and!; try done. unfold members. cbn. rewrite Hh. cbn. perm.
Qed.

Lemma wp_closeSockets c q (Q : unit -> Ghost -> Prop) X :
  resting c -> (forall c', resting c' -> clientSock_ c' = None -> targetSock_ c' = None -> Q tt (me c' true)) ->
  Wp closeSockets (me c q) Q X.
Proof.
  intros R HQ. apply wp_restingSocket; [done |]. intros s Hc. cbn [fst snd]. rewrite Hc.
  set (a := stopping_ s || abortive_ c). destruct (resting_closeClient a c R) as [R1 C1].
  set (c1 := closeOne a clientSock_ (setClient None) c) in *. destruct (resting_closeTarget a c1 R1) as [R2 C2].
  split_and!; try done. apply HQ; try done. cbn. unfold closeOne. by destruct (targetSock_ c1).
Qed.

Lemma resting_open c h : resting c -> clientSock_ c = Some h \/ targetSock_ c = Some h -> h ∈ open c.
Proof.
  intros R Hh. apply (ok_members c (balanced_ok _ _ (rest_balanced _ R))). unfold members. rewrite !elem_of_app.
  destruct Hh as [-> | ->]; cbn; set_solver.
Qed.

Lemma wp_useMember (o : option Z) c q (Q : unit -> Ghost -> Prop) X :
  resting c -> clientSock_ c = o \/ targetSock_ c = o -> Q tt (me c q) ->
  Wp (match o with Some h => use h | None => mret () end) (me c q) Q X.
Proof.
  intros R Ho HQ. destruct o as [h|]; [|done]. apply wp_use; [|done]. intros s Hs Hown.
  rewrite (proj1 (own_core _ _ _ Hown)). by apply resting_open.
Qed.

Lemma wp_work c q (Q : bool -> Ghost -> Prop) (X : Ghost -> Prop) :
  resting c -> (forall b, Q b (me c q)) -> X (me c q) -> Wp work (me c q) Q X.
Proof.
  intros R HQ HX. unfold work. apply wp_bind, relay_wp_load. intros s _ Ho. rewrite (proj1 (own_core _ _ _ Ho)).
  apply wp_bind, relay_wp_load. intros s' _ Ho'. rewrite (proj1 (own_core _ _ _ Ho')).
  apply wp_bind, wp_useMember; [done | by left |]. apply wp_bind, wp_useMember; [done | by right |].
  apply wp_bind, relay_wp_ask; [|done]. intros b.
  apply wp_bind, wp_useMember; [done | by left |]. apply wp_bind, wp_useMember; [done | by right |]. apply HQ.
Qed.

Section Owner.
Variable Q : bool * list bytes -> Ghost -> Prop.
Variable X : Ghost -> Prop.
Hypothesis HQ : forall b c q, resting c -> Q b (me c q).
Hypothesis HX : forall c q, resting c -> X (me c q).

Lemma wp_publishTarget sock timeoutSet rest c q :
  balanced c [sock] -> tunnel c = None -> tunnel_ c = false -> gone c = false -> targetSock_ c = None ->
  Wp (ok ← publishTarget sock timeoutSet; mret (ok, rest)) (me c q) Q X.
Proof.
  intros B T P G Ht. apply wp_bind, wp_stepSocket. intros s Ho Hm. destruct (own_core _ _ _ Ho) as [Hc _]. rewrite Hc.
  assert (Hgo : forall c' b, resting c' -> stepped c s (b, setCore c' s) (λ ok g, Q (ok, rest) g)).
  { intros c' b R. exists c', true. cbn [fst snd]. split_and!; try done; [eapply balanced_ok, R | | | by apply HQ].
    - apply may_unlocked; [done | done |]. pose proof (rest_here _ R). congruence.
    - intros _. eapply joined_resting; [done | exact (rest_tunnel _ R)]. }
  case_if; apply Hgo; split; try done.
  - apply (balanced_closed c [sock] sock false _ []); [exact B | done | done | done | intros H; cbn in H; congruence | done |]. change (members (closed false sock c)) with (members c). perm.
  - destruct B as [D1 D2 D3 D4 D5 D6]. split; try done. change (open (setTarget (Some sock) c)) with (open c). rewrite D1.
    unfold members. cbn. rewrite Ht. cbn. perm.
Qed.

Lemma wp_connectTarget t system candidates c q :
  resting c -> targetSock_ c = None -> Wp (connectTarget t system candidates) (me c q) Q X.
Proof.
  intros R Ht. apply wp_bind, relay_wp_load. intros s _ _. case_if; [by apply HQ |].
  apply wp_bind, relay_wp_ask; [intros ok | by apply HX]. apply wp_bind, relay_wp_load. intros s' _ _. apply wp_bind.
  assert (Hgo : forall tried : bool * list bytes, Wp (let '(ok, candidates) := tried in if negb ok then mret (false, candidates) else
      sock ← opened (λ _ c, c); timeoutSet ← askOnly (SetSendTimeout sock); ok ← publishTarget sock timeoutSet; mret (ok, candidates)) (me c q) Q X).
  { intros [[|] rest]; [cbn [negb] | by apply HQ]. apply wp_bind. eapply wp_openLocal; [exact (rest_balanced _ R) |]. intros h c1 (K1 & K2 & K3 & K4) T1 B1.
    apply wp_bind, wp_askOnly. intros b. apply wp_publishTarget; try done.
    - rewrite T1. exact (rest_tunnel _ R).
    - rewrite K3. exact (rest_pointer _ R).
    - rewrite K4. exact (rest_here _ R).
    - congruence. }
  case_if; [|apply (Hgo (ok, candidates))]. destruct (otherCandidates _ _) as [all []]; [|by apply (Hgo (false, all))].
  apply wp_bind, relay_wp_ask; [intros b; apply (Hgo (b, all)) | by apply HX].
Qed.

Lemma wp_reconnect t system candidates c q : resting c -> Wp (reconnect t system candidates) (me c q) Q X.
Proof.
  intros R. apply wp_bind, wp_restingSocket; [done |]. intros s Hc. cbn [fst snd]. rewrite Hc.
  destruct (resting_closeTarget false c R) as [R1 C1]. unfold closeOne in R1, C1. destruct (targetSock_ c) as [h|] eqn:E.
  - split_and!; try done. by apply wp_connectTarget.
  - rewrite Hc. split_and!; try done. by apply wp_connectTarget.
Qed.
End Owner.

Lemma wp_attempts t system candidates n c q (Q : bool -> Ghost -> Prop) (X : Ghost -> Prop) :
  resting c -> (forall b c q, resting c -> Q b (me c q)) -> (forall c q, resting c -> X (me c q)) ->
  Wp (attempts t system candidates n) (me c q) Q X.
Proof.
  intros R HQ HX. revert candidates c q R. induction n as [|n IH]; intros candidates c q R; cbn [attempts];
    (apply wp_bind, wp_work; [done | | by apply HX]; intros []; [by apply HQ |]).
  - by apply HQ.
  - apply wp_bind, relay_wp_ask; [|by apply HX]. intros []; [cbn [negb] | by apply HQ].
    apply wp_bind. apply wp_reconnect; [|done | done]. intros [[] rest] c' q' R'; [by apply IH | by apply HQ].
Qed.

(** The pointer is cleared and the tunnel destroyed. *)
Lemma wp_retire {A} (k : M A) c client q (Q : A -> Ghost -> Prop) X :
  (exists t, tunnel c = Some t /\ tunnelClient_ t = Some client) -> balanced c [] -> gone c = false ->
  (forall c' q', resting c' -> Wp k (me c' q') Q X) ->
  Wp (_ ← guarded (λ s, (tt, setCore (setPointer false (core s)) s)); _ ← destroyTunnel; k) (me c q) Q X.
Proof.
  intros (t & T & _) B G HQ. set (c1 := setPointer false c).
  assert (B1 : balanced c1 []) by (destruct B as [D1 D2 D3 D4 D5 D6]; split; done).
  apply wp_bind, wp_stepSocket. intros s Ho Hm. destruct (own_core _ _ _ Ho) as [Hc Hj]. cbn [fst snd]. rewrite Hc. fold c1.
  exists c1, q. split_and!; try done; [by eapply balanced_ok | | |].
  - split; [by rewrite Hm | | done]. intros t0 T0 _. exists t0. done.
  - intros Hq. eapply (joined_kept s _ c t t); try done. by apply Hj.
  - apply wp_bind. eapply wp_destroyTunnel; [done | done | done |]. intros c2 (K1 & K2 & K3 & K4) B2 T2. apply HQ. split; try done. by rewrite K4.
Qed.

Lemma wp_handOff fallback j rounds frames c q (Q : bool -> Ghost -> Prop) (X : Ghost -> Prop) :
  resting c -> (forall b c q, resting c -> Q b (me c q)) -> (forall c q, resting c -> X (me c q)) ->
  Wp (handOffToTunnel fallback j rounds frames) (me c q) Q X.
Proof.
  intros R HQ HX. unfold handOffToTunnel. case_if; [by apply HQ |]. apply wp_bind, relay_wp_load. intros s0 _ Ho0. rewrite (proj1 (own_core _ _ _ Ho0)).
  destruct (clientSock_ c) as [h|] eqn:Ec; [|by apply HQ]. pose proof R as [B T P G].
  set (c1 := setTunnel (Some (newTunnel h)) c).
  assert (Ok1 : core_ok c1).
  { split; [|apply B | intros _; cbn; eauto | intros Hg; cbn in Hg; congruence]. intros x Hx. apply (ok_members c (balanced_ok _ _ B)).
    revert Hx. unfold members. cbn. rewrite T, Ec, !elem_of_app. cbn. intros Hx. set_solver. }
  apply wp_bind. apply (wp_step (λ s, (tt, setCore (setTunnel (Some (newTunnel h)) (core s)) s))). intros s1 _ Ho1.
  rewrite (proj1 (own_core _ _ _ Ho1)). fold c1. exists c1, true. split_and!; try done.
  { split; [done | by rewrite T | done]. }
  { intros _. unfold joined. cbn. by rewrite orb_true_r. }
  set (c2 := setClient None c1).
  assert (B2 : balanced c2 []).
  { destruct B as [D1 D2 D3 D4 D5 D6]. split; [|exact D2 | exact D3 | exact D4 | intros _; cbn; eauto | intros Hg; cbn in Hg; congruence].
    change (open c2) with (open c). rewrite D1. unfold members. cbn. rewrite Ec, T. cbn. perm. }
  set (c3 := setPointer true c2). assert (B3 : balanced c3 []) by (destruct B2 as [D1 D2 D3 D4 D5 D6]; split; try done; cbn; eauto).
  apply wp_bind, wp_stepSocket. intros s2 Ho2 Hm2. destruct (own_core _ _ _ Ho2) as [Hc2 Hj2]. rewrite Hc2. fold c2.
  destruct (stopping_ s2).
  - exists c2, true. cbn [fst snd]. split_and!; try done; [by eapply balanced_ok | | |].
    + split; [by rewrite Hm2 | | done]. intros t Ht _. injection Ht as <-. by exists (newTunnel h).
    + intros _. unfold joined. cbn. by rewrite orb_true_r.
    + cbn [negb]. apply wp_bind. eapply wp_destroyTunnel; [done | done | done |]. intros c' (K1 & K2 & K3 & K4) B' T'.
      apply HQ. split; [done | done | rewrite K3; exact P | rewrite K4; exact G].
  - exists c3, true. cbn [fst snd]. split_and!; try done; [by eapply balanced_ok | | |].
    + split; [by rewrite Hm2 | | done]. intros t Ht _. injection Ht as <-. by exists (newTunnel h).
    + intros _. unfold joined. cbn. by rewrite orb_true_r.
    + cbn [negb]. apply wp_bind, wp_try. eapply wp_tunnelRun; [done | done | |].
      * intros c' q' ((K1 & K2 & K3 & K4) & B' & Ht'). eapply wp_retire; [done | done | by rewrite K4 |]. intros c'' q'' R''. by apply HQ.
      * intros c' q' ((K1 & K2 & K3 & K4) & B' & Ht'). eapply wp_retire; [done | done | by rewrite K4 |]. intros c'' q'' R''. by apply HX.
Qed.

Section Run.
Variable Q : unit -> Ghost -> Prop.
Variable X : Ghost -> Prop.
Hypothesis HQ : forall c q, resting c -> Q tt (me c q).
Hypothesis HX : forall c q, resting c -> X (me c q).

Lemma wp_ret {A} (a : A) g (P : A -> Ghost -> Prop) : P a g -> Wp (mret a : M A) g P X.
Proof. done. Qed.
Lemma wp_close c q : resting c -> Wp closeSockets (me c q) Q X.
Proof. intros R. apply wp_closeSockets; [done |]. intros c' R' _ _. by apply HQ. Qed.

Lemma wp_abort c q (P : unit -> Ghost -> Prop) :
  resting c -> (forall c q, resting c -> P tt (me c q)) -> Wp (updateCore setAbortive) (me c q) P X.
Proof.
  intros [B T Po G] HP. apply (wp_step (λ s, (tt, setCore (setAbortive (core s)) s))). intros s _ Ho.
  rewrite (proj1 (own_core _ _ _ Ho)). assert (R' : resting (setAbortive c)) by (split; try done; destruct B; by split).
  exists (setAbortive c), true. split_and!; try done; [eapply balanced_ok, R' | by apply may_local | | by apply HP].
  intros _. by eapply joined_resting.
Qed.

Lemma wp_relayed st rounds frames prepared c q :
  resting c -> Wp (relayed st rounds frames prepared) (me c q) Q X.
Proof.
  intros R. apply wp_bind. destruct prepared as [[] rest]; cbn [negb fst snd]; [|by apply wp_close].
  apply wp_bind. apply wp_attempts; [done | | done]. intros [|] c2 q2 R2.
  - apply wp_bind, wp_work; [done | | by apply HX]. intros [|].
    + apply wp_bind, wp_work; [done | | by apply HX]. intros _. by apply wp_close.
    + apply wp_abort; [done |]. intros c3 q3 R3. by apply wp_close.
  - apply wp_bind. apply wp_handOff; [done | | done]. intros _ c3 q3 R3. by apply wp_close.
Qed.

Lemma wp_directRun st rounds frames c q : resting c -> targetSock_ c = None -> Wp (directRun st rounds frames) (me c q) Q X.
Proof.
  intros R Ht. unfold directRun. apply wp_bind, relay_wp_load. intros s _ _. case_if; [by apply wp_close |].
  apply wp_bind, relay_wp_load. intros s1 _ Ho1. rewrite (proj1 (own_core _ _ _ Ho1)). apply wp_bind.
  assert (Hrest : forall ok : bool, Wp (if ok then prepareAndRelay st rounds frames else closeSockets) (me c q) Q X).
  2: { destruct (clientSock_ c) as [h|] eqn:Ec; [|apply (Hrest false)]. apply wp_during_ask; [|exact Hrest | by apply HX].
       intros s2 _ Ho2. rewrite (proj1 (own_core _ _ _ Ho2)). by apply resting_open; [|left]. }
  intros [|]; [|by apply wp_close]. unfold prepareAndRelay. cbv zeta. apply wp_bind.
  assert (Hconnect : forall q (P : bool * list bytes -> Ghost -> Prop), (forall r c q, resting c -> P r (me c q)) ->
    Wp (if bool_decide (prepareCandidates (aim st) (resolved st) (system st) = []) then mret (false, [])
        else connectTarget (aim st) (system st) (prepareCandidates (aim st) (resolved st) (system st))) (me c q) P X).
  { intros q' P HP. case_if; [by apply HP |]. by apply wp_connectTarget. }
  case_if.
  - apply wp_bind, Hconnect. intros [[] rest] c1 q1 R1; cbn [fst snd negb]; [|by apply wp_relayed].
    apply wp_bind, wp_work; [done | | by apply HX]. intros b. by apply wp_relayed.
  - apply wp_bind, wp_work; [done | | by apply HX]. intros [|]; cbn [negb]; [|by apply wp_relayed].
    apply Hconnect. intros r c1 q1 R1. by apply wp_relayed.
Qed.
End Run.

Lemma resting_empty c : resting c -> clientSock_ c = None -> targetSock_ c = None -> open c = [].
Proof.
  intros [B T P G] H1 H2. destruct B as [D1 _ _ _ _ _]. unfold members in D1. rewrite H1, H2, T in D1. cbn in D1. by apply Permutation_nil_r in D1.
Qed.

Lemma wp_relayThread st rounds frames c q (Q : unit -> Ghost -> Prop) X :
  resting c -> targetSock_ c = None -> (forall c, open c = [] -> gone c = true -> Q tt (me c true)) ->
  Wp (relayThread st rounds frames) (me c q) Q X.
Proof.
  intros R Ht HQ. assert (Hend : forall c q, resting c -> Wp (_ ← closeSockets; updateCore setGone) (me c q) Q X).
  { intros c1 q1 R1. apply wp_bind, wp_closeSockets; [done |]. intros c2 R2 H1 H2. pose proof (resting_empty _ R2 H1 H2) as Hempty.
    apply (wp_step (λ s, (tt, setCore (setGone (core s)) s))). intros s _ Ho. rewrite (proj1 (own_core _ _ _ Ho)).
    exists (setGone c2), true. split_and!; try done.
    - destruct R2 as [B2 T2 P2 G2]. pose proof (balanced_ok _ _ B2) as [O1 O2 O3 O4]. by split.
    - split; [done | | done]. intros t T0 _. exists t. done.
    - intros _. eapply joined_resting; [done |]. exact (rest_tunnel _ R2).
    - by apply HQ. }
  apply wp_bind, wp_try. apply wp_directRun; [| | done | done]; intros c1 q1 R1; by apply Hend.
Qed.

(** ** All threads together *)

(** Where a thread ends. *)
Definition atEnd (_ : unit) (g : Ghost) : Prop :=
  hold g = None /\
  match who g with
  | Owner c _ => open c = [] /\ gone c = true
  | Carrier p => p = PDone
  | Stopper q => q = SOut
  end.

Definition launch (st : Settings) (rounds frames stoppers : nat) : Pool Relay Call Answer unit :=
  mkPool newRelay (mkThread (relayThread st rounds frames) false :: mkThread (pumpThread rounds) false ::
                   replicate stoppers (mkThread stop false)).

Definition relay_step : Pool Relay Call Answer unit -> Pool Relay Call Answer unit -> Prop :=
  pool_step (λ _, True) (λ _, True).

Definition together (n : nat) : Pool Relay Call Answer unit -> Prop :=
  pool_ok Relay Call Answer (λ _, True) (λ _, True) Inv Rel own (λ _ _, True) may_wait (Global n) atEnd (λ _, False).

Lemma newRelay_resting : resting (core newRelay).
Proof.
  split; [|done..]. split; [reflexivity | | by constructor | done..]. apply NoDup_cons. split; [set_solver | constructor].
Qed.

Lemma relay_launch_ok st rounds frames n : together n (launch st rounds frames n).
Proof.
  split; [exact (balanced_ok _ _ (rest_balanced _ newRelay_resting)) |].
  set (idle := mkGhost (Stopper SOut) None NoGrip).
  exists (me (core newRelay) true :: mkGhost (Carrier PIdle) None NoGrip :: replicate n idle). split.
  - assert (Hfree : forall (P : Ghost -> Prop), ~ P (me (core newRelay) true) -> ~ P (mkGhost (Carrier PIdle) None NoGrip) -> ~ P idle ->
      mutex_held P (me (core newRelay) true :: mkGhost (Carrier PIdle) None NoGrip :: replicate n idle) false).
    { intros P H0 H1 H2. assert (Hno : forall i g, (me (core newRelay) true :: mkGhost (Carrier PIdle) None NoGrip :: replicate n idle) !! i = Some g -> ~ P g).
      { intros [|[|i]] g Hg; cbn in Hg; [by injection Hg as <- | by injection Hg as <- |]. by apply lookup_replicate in Hg as [-> _]. }
      split; [intros i j g h Hi Hj Hg; by destruct (Hno i g Hi) |]. split; [done |]. intros (i & g & Hi & Hg). by destruct (Hno i g Hi). }
    split; [cbn; by rewrite fmap_replicate |]. split; [by apply Hfree |]. split; [by apply Hfree; intros H; apply H |].
    intros [|[|i]] g Hg; cbn in Hg; [by injection Hg as <- | by injection Hg as <- |]. by apply lookup_replicate in Hg as [-> _].
  - constructor; [|constructor].
    + split; [|done]. apply wp_relayThread; [exact newRelay_resting | done |]. by intros c H1 H2.
    + split; [|done]. by apply wp_pumpThread.
    + apply Forall2_replicate. split; [|done]. by apply relay_wp_stop.
Qed.

Lemma together_reach st rounds frames n c : rtc relay_step (launch st rounds frames n) c -> together n c.
Proof.
  apply pool_invariant; [intros; by eapply relay_global_step | intros; by eapply relay_global_own | apply relay_launch_ok].
Qed.

(** Who waits waits for somebody closer to the end. *)
Definition rank (g : Ghost) : nat :=
  match hold g, who g with
  | Some _, _ => 0
  | None, Carrier PRun | None, Carrier PDone | None, Stopper SIn | None, Stopper SPtr => 1
  | None, Stopper SOut => 2
  | None, Carrier PIdle => 4
  | None, Owner c _ => if match tunnel c with Some t => spawned t | None => false end then 5 else 2
  end.

Lemma waits_for n s gs g ready :
  Inv s -> Global n s gs -> g ∈ gs -> may_wait g ready -> ready s = false ->
  exists g', g' ∈ gs /\ (rank g' < rank g)%nat /\ ~ False /\ forall a, ~ atEnd a g'.
Proof.
  intros Hs (Hk & [_ Hsock] & [_ Hsend] & Hown) Hin Hw Hr. apply list_elem_of_lookup in Hin as [i Hi]. destruct (Hown i g Hi) as (Hwho & _).
  assert (Hat : forall j k, (KOwner :: KCarrier :: replicate n KStopper) !! j = Some k -> exists h, gs !! j = Some h /\ kind h = k).
  { intros j k Hj. rewrite <- Hk, list_lookup_fmap in Hj. destruct (gs !! j) as [h|]; [|done]. injection Hj as <-. eauto. }
  destruct Hw as [Hh Hg|Hh Hg|Hh Hg|Hh Hg].
  - unfold freeSocket in Hr. apply negb_false_iff in Hr. apply Hsock in Hr as (j & h & Hj & Hins). exists h.
    split; [by eapply list_elem_of_lookup_2 |]. split; [|split; [tauto |]].
    + assert (rank h <= 1)%nat by (unfold rank; destruct (hold h); [lia |]; destruct (who h) as [|[]|[]]; first [done | lia]).
      assert (2 <= rank g)%nat; [|lia]. unfold rank. rewrite Hh. destruct Hg as [Hg| ->]; [|lia]. destruct (who g) as [c q| |]; try done. case_match; lia.
    + intros a [_ Hend]. destruct (who h) as [|[]|[]]; done.
  - unfold freeSend in Hr. apply negb_false_iff in Hr. apply Hsend in Hr as (j & h & Hj & Hhold). exists h.
    split; [by eapply list_elem_of_lookup_2 |]. split; [|split; [tauto | by intros a [He _]]].
    assert (rank h = 0%nat) by (unfold rank; by destruct (hold h)). assert (1 <= rank g)%nat; [|lia].
    unfold rank. rewrite Hh. destruct (who g) as [c q|[]|[]]; try done; try lia. case_match; lia.
  - destruct (who g) as [c q| |] eqn:Ew; try done. destruct Hwho as [Hc _]. unfold joined in Hr. rewrite Hc in Hr.
    destruct (tunnel c) as [t|] eqn:Et; [|done]. apply orb_false_iff in Hr as [He Hsp]. apply negb_false_iff in Hsp.
    destruct (Hat 1%nat KCarrier eq_refl) as (h & Hj & Hkh). exists h. split; [by eapply list_elem_of_lookup_2 |].
    destruct (Hown 1%nat h Hj) as (Hwh & _). unfold kind in Hkh. destruct (who h) as [|p|] eqn:Eh; try done.
    assert (Hp : p <> PDone).
    { intros ->. destruct Hwh as [H|H]; [congruence |]. pose proof (ok_gone _ Hs H). congruence. }
    split; [|split; [tauto | intros a [_ H]; rewrite Eh in H; done]].
    assert (rank g = 5%nat) by (unfold rank; by rewrite Hh, Ew, Et, Hsp).
    assert (rank h <= 4)%nat; [|lia]. unfold rank. rewrite Eh. destruct (hold h); [lia |]. destruct p; lia.
  - unfold carried in Hr. apply orb_false_iff in Hr as [Hgo Hsp].
    destruct (Hat 0%nat KOwner eq_refl) as (h & Hj & Hkh). exists h. split; [by eapply list_elem_of_lookup_2 |].
    destruct (Hown 0%nat h Hj) as (Hwh & _). unfold kind in Hkh. destruct (who h) as [c q| |] eqn:Eh; try done. destruct Hwh as [Hc _].
    split; [|split; [tauto | intros a [_ H]; rewrite Eh in H; destruct H; congruence]].
    assert (rank g = 4%nat) by (unfold rank; by rewrite Hh, Hg). assert (rank h <= 2)%nat; [|lia].
    unfold rank. rewrite Eh. destruct (hold h); [lia |]. rewrite Hc in Hsp. rewrite Hsp. lia.
Qed.

(** ** Claims *)

Definition faulted (th : Thread Relay Call Answer unit) : bool := match prog th with Fault => true | _ => false end.
Definition returned (th : Thread Relay Call Answer unit) : bool := match prog th with Ret _ => true | _ => false end.

(** C26: A relay can be stopped from any thread at any time. However the session's thread,
    the pump thread of the tunnel and any number of calls to [stop] interleave, whatever the
    network answers, and whatever throws on the session's thread, no thread ever uses a
    handle that is not open or a tunnel that is gone, no handle is closed twice, and once
    the session's thread has returned every handle it opened is closed. *)
Theorem relay_handles_safe st rounds frames stoppers c :
  rtc relay_step (launch st rounds frames stoppers) c ->
  Forall (λ th, faulted th = false) (threads c) /\ misused (core (shared c)) = false /\
  (forall th, threads c !! 0%nat = Some th -> returned th = true -> open (core (shared c)) = []).
Proof.
  intros H%together_reach. destruct H as (Hs & gs & HG & Hall). split; [|split; [exact (ok_used _ Hs) |]].
  - apply Forall_lookup. intros i th Hi. destruct (Forall2_lookup_l _ _ _ _ _ Hall Hi) as (g & _ & [Hw _]).
    unfold faulted. destruct (prog th); done.
  - intros th Hi Hret. destruct (Forall2_lookup_l _ _ _ _ _ Hall Hi) as (g & Hg & [Hw _]). unfold returned in Hret.
    destruct (prog th); try done. destruct Hw as [_ Hend]. destruct HG as (Hk & _ & _ & Hown). destruct (Hown 0%nat g Hg) as (Hwho & _).
    assert (Hkind : kind g = KOwner) by (assert (Hf := f_equal (.!! 0%nat) Hk); rewrite list_lookup_fmap, Hg in Hf; cbn in Hf; congruence).
    unfold kind in Hkind. destruct (who g) as [c0 q0| |]; try done. destruct Hwho as [-> _]. apply Hend.
Qed.

(** C27: Nobody waits for ever: in every state the threads can reach, either all of them have
    returned or one can take a step, and no thread ends with an uncaught exception. So no
    mutex stays locked, the pump thread is always joined, and a [stop] always returns,
    although [stop] holds [socketMutex_] while it waits for [sendMutex_]. *)
Theorem relay_never_stuck st rounds frames stoppers c :
  rtc relay_step (launch st rounds frames stoppers) c ->
  Forall (λ th, returned th = true) (threads c) \/ exists c', relay_step c c'.
Proof.
  intros H%together_reach. destruct (pool_progress Relay Call Answer (λ _, True) (λ _, True) Inv Rel own (λ _ _, True) may_wait (Global stoppers)
    atEnd (λ _, False) rank (waits_for stoppers) c 0 I H) as [Hf|Hstep]; [left | by right].
  destruct H as (_ & gs & _ & Hall). apply Forall_lookup. intros i th Hi. rewrite Forall_lookup in Hf. specialize (Hf i th Hi).
  destruct (Forall2_lookup_l _ _ _ _ _ Hall Hi) as (g & _ & [Hw _]). unfold finished in Hf. unfold returned. by destruct (prog th).
Qed.

(** A connection that no profile gets through, handed to the tunnel, and stopped. *)
Definition sample_settings : Settings :=
  mkSettings (mkTarget (str "203.0.113.7") false false) [] [] true
    (mkTunnelJob (str "wss://w.example") (str "s") (str "blocked.example") 443 (str "hello") 65534) 0.
Definition sample_net (n : nat) (c : Call) : option Answer :=
  match c with
  | Work => Some (Is (n <? 10)%nat)
  | WinHttpQueryStatus _ => Some (Status 101)
  | WinHttpWebSocketReceive _ => Some (Frame (Some (Utf8Message, [cQuote] ++ str "connected" ++ [cQuote])))
  | Recv _ => Some (Data (Some (str "x")))
  | _ => Some (Is true)
  end.
Definition sample_schedule : list nat := replicate 120 0%nat ++ replicate 20 2%nat ++ flat_map (λ _, [0; 1; 2]%nat) (seq 0 60).
Definition sample_end : Pool Relay Call Answer unit :=
  exec (λ _, 0) sample_net sample_schedule 0 (launch sample_settings 3 5 1).

Lemma sample_end_reached : rtc relay_step (launch sample_settings 3 5 1) sample_end.
Proof. apply exec_reaches; done. Qed.

Lemma relay_handles_safe_witness :
  nextHandle (core (shared sample_end)) = 6 /\ returned <$> threads sample_end = [true; true; true] /\
  Forall (λ th, faulted th = false) (threads sample_end) /\ misused (core (shared sample_end)) = false /\
  (forall th, threads sample_end !! 0%nat = Some th -> returned th = true -> open (core (shared sample_end)) = []).
Proof.
  split; [vm_compute; reflexivity |]. split; [vm_compute; reflexivity |].
  exact (relay_handles_safe sample_settings 3 5 1 sample_end sample_end_reached).
Defined.

Definition sample_middle : Pool Relay Call Answer unit :=
  exec (λ _, 0) sample_net (take 125 sample_schedule) 0 (launch sample_settings 3 5 1).
Lemma sample_middle_reached : rtc relay_step (launch sample_settings 3 5 1) sample_middle.
Proof. apply exec_reaches; done. Qed.
Lemma relay_never_stuck_witness :
  socketMutex_ (shared sample_middle) = true /\
  (Forall (λ th, returned th = true) (threads sample_middle) \/ exists c', relay_step sample_middle c').
Proof.
  split; [vm_compute; reflexivity |]. exact (relay_never_stuck sample_settings 3 5 1 sample_middle sample_middle_reached).
Defined.
