(* ===== verification/TunnelText.v ===== *)
(** * TunnelText: what goes through the Worker tunnel, and which addresses are tried

    Theorems about the pure parts of [RelayLife] ([src/src/DirectRelay.cpp],
    [src/src/Relay.cpp], [src/src/WsClient.cpp]): the candidates of a connection, the URL of
    the tunnel, its connect command, and the messages that carry the server's bytes. *)

From S2P Require Import Prelude Concurrency Json JsonText RelayLife.

(** ** Candidates *)

Lemma addUnique_elem out a x : x ∈ addUnique out a <-> x ∈ out \/ x = a.
Proof.
  unfold addUnique. case_bool_decide; [split; [auto | intros [?| ->]; done] |]. by rewrite elem_of_app, list_elem_of_singleton.
Qed.
Lemma addUnique_NoDup out a : NoDup out -> NoDup (addUnique out a).
Proof.
  unfold addUnique. intros H. case_bool_decide as Hin; [done |]. apply NoDup_app. split; [done |]. split; [|apply NoDup_singleton].
  intros x Hx ->%list_elem_of_singleton. done.
Qed.
Lemma addUnique_prefix out a : out `prefix_of` addUnique out a.
Proof. unfold addUnique. case_bool_decide; [done |]. by exists [a]. Qed.
Lemma addUnique_all l out :
  (forall x, x ∈ foldl addUnique out l <-> x ∈ out \/ x ∈ l) /\ (NoDup out -> NoDup (foldl addUnique out l)) /\
  out `prefix_of` foldl addUnique out l.
Proof.
  revert out. induction l as [|a l IH]; intros out; cbn; [split_and!; [set_solver | done | done] |].
  destruct (IH (addUnique out a)) as (H1 & H2 & H3). split_and!.
  - intros x. rewrite H1, addUnique_elem, elem_of_cons. tauto.
  - intros H. by apply H2, addUnique_NoDup.
  - etrans; [apply addUnique_prefix | exact H3].
Qed.

Lemma systemResolve_sound resolved :
  NoDup (systemResolve resolved) /\ (length (systemResolve resolved) <= kMaxSystemAddresses)%nat /\ [] ∉ systemResolve resolved.
Proof.
  destruct resolved as [rows|]; [|cbn; split_and!; [constructor | lia | set_solver]]. cbn [systemResolve].
  assert (H : forall rows out, NoDup out -> (length out <= kMaxSystemAddresses)%nat -> [] ∉ out ->
    NoDup (systemResolve_loop rows out) /\ (length (systemResolve_loop rows out) <= kMaxSystemAddresses)%nat /\ [] ∉ systemResolve_loop rows out).
  { clear rows. intros rows. induction rows as [|r rows IH]; intros out H1 H2 H3; cbn [systemResolve_loop]; [done |].
    destruct (Nat.ltb_spec (length out) kMaxSystemAddresses) as [Hlt|]; [|done]. cbn [negb].
    assert (Hadd : forall text, NoDup (systemResolve_loop rows (if bool_decide (text = []) then out else addUnique out text)) /\
      (length (systemResolve_loop rows (if bool_decide (text = []) then out else addUnique out text)) <= kMaxSystemAddresses)%nat /\
      [] ∉ systemResolve_loop rows (if bool_decide (text = []) then out else addUnique out text)).
    { intros text. case_bool_decide as He; [by apply IH |]. apply IH; [by apply addUnique_NoDup | | rewrite addUnique_elem; intros [?|?]; done].
      unfold addUnique. case_bool_decide; [lia |]. rewrite length_app. cbn. lia. }
    destruct r; [apply Hadd | apply Hadd | by apply IH]. }
  apply H; [constructor | cbn; lia | set_solver].
Qed.

(** Which addresses a connection is tried on. The address the application chose comes
    first; no address is tried twice; everything else was answered by the resolver or by
    the system. With the address of the application and no resolver nothing else is looked
    up, and then a failed connection is retried on the system's other addresses, all of
    them, with the application's own choice last. *)
Theorem candidates_sound t answered asked :
  let system := systemResolve asked in
  let cs := prepareCandidates t answered system in
  NoDup cs /\
  (originalTargetAddress_ t <> [] -> head cs = Some (originalTargetAddress_ t)) /\
  (forall x, x ∈ cs -> x = originalTargetAddress_ t \/ x ∈ (if hasResolver t then answered ++ system else system)) /\
  (selectedByApplication t cs = true ->
   cs = [originalTargetAddress_ t] /\
   let '(all, again) := otherCandidates cs system in
   (again = true <-> exists x, x ∈ system /\ x <> originalTargetAddress_ t) /\
   (again = true -> NoDup all /\ last all = Some (originalTargetAddress_ t) /\ forall x, x ∈ all <-> x = originalTargetAddress_ t \/ x ∈ system)).
Proof.
  intros system cs. destruct (systemResolve_sound asked) as (Hnd & _ & _). fold system in Hnd.
  set (o := originalTargetAddress_ t). set (start := if bool_decide (o = []) then [] else [o]).
  assert (Hstart : NoDup start) by (unfold start; case_bool_decide; [constructor | apply NoDup_singleton]).
  assert (Hin : forall x, x ∈ start -> x = o) by (unfold start; case_bool_decide; set_solver).
  set (base := if negb (literal t) && (hasResolver t || bool_decide (o = [])) then foldl addUnique start (if hasResolver t then answered else system) else start).
  assert (Hcs : cs = if bool_decide (base = []) && (hasResolver t || literal t) then system else base) by done.
  destruct (addUnique_all (if hasResolver t then answered else system) start) as (F1 & F2 & F3).
  assert (Hb : NoDup base /\ start `prefix_of` base /\ forall x, x ∈ base -> x = o \/ x ∈ (if hasResolver t then answered else system)).
  { unfold base. case_if; [|by split_and!; auto]. split_and!; [auto | done |]. intros x Hx%F1. destruct Hx; auto. }
  destruct Hb as (B1 & B2 & B3). split_and!.
  - rewrite Hcs. by case_if.
  - intros Ho. rewrite Hcs. unfold start in B2. rewrite (bool_decide_eq_false_2 (o = [])) in B2 by done. destruct B2 as [r ->]. done.
  - intros x. rewrite Hcs. case_if; [intros Hx; right; destruct (hasResolver t); [rewrite elem_of_app; by right | done] |].
    intros Hx. destruct (B3 x Hx) as [?|Hx']; [by left | right]. destruct (hasResolver t); [rewrite elem_of_app; by left | done].
  - unfold selectedByApplication. rewrite !andb_true_iff, !negb_true_iff. fold o. intros (((Hr & Ho) & Hl) & Hlen).
    assert (Ecs : cs = [o]) by (rewrite Hcs; unfold base, start; rewrite Hr, Hl, Ho; reflexivity).
    split; [done |]. rewrite Ecs. unfold otherCandidates. destruct (addUnique_all system [o]) as (G1 & G2 & [r G3]).
    specialize (G2 (NoDup_singleton _)). rewrite G3 in *. cbn [length app].
    apply NoDup_cons in G2 as [G4 G5].
    assert (Hr' : forall x, x ∈ r <-> x ∈ system /\ x <> o).
    { intros x. specialize (G1 x). change ([o] ++ r) with (o :: r) in G1. rewrite list_elem_of_singleton, elem_of_cons in G1. split.
      - intros Hx. split; [|congruence]. destruct (proj1 G1 (or_intror Hx)); congruence.
      - intros [Hx Hne]. destruct (proj2 G1 (or_intror Hx)); congruence. }
    destruct r as [|y r].
    + cbn. split; [|done]. split; [done |]. intros (x & Hx & Hne). pose proof (proj2 (Hr' x) (conj Hx Hne)) as Hnil. by apply elem_of_nil in Hnil.
    + cbn [length Nat.ltb Nat.leb rotate app]. split; [split; [|done] |].
      * intros _. exists y. apply Hr'. apply elem_of_cons. by left.
      * intros _. change (y :: r ++ [o]) with ((y :: r) ++ [o]). split_and!.
        -- apply NoDup_app. split; [done |]. split; [|apply NoDup_singleton]. intros x Hx ->%list_elem_of_singleton. done.
        -- by rewrite last_snoc.
        -- intros x. rewrite elem_of_app, list_elem_of_singleton, Hr'. destruct (decide (x = o)); tauto.
Qed.

(** ** The URL *)

Lemma cut_first c (pre rest : bytes) : c ∉ pre -> cut c (pre ++ c :: rest) = (pre, Some (c :: rest)).
Proof.
  intros Hin. unfold cut. assert (H : list_find (λ x, x = c) (pre ++ c :: rest) = Some (length pre, c)).
  { induction pre as [|x pre IH]; cbn; [by rewrite decide_True |]. apply not_elem_of_cons in Hin as [Hx Hin].
    rewrite decide_False by congruence. by rewrite IH. }
  by rewrite H, take_app_length, drop_app_length.
Qed.
Lemma cut_none c (s : bytes) : c ∉ s -> cut c s = (s, None).
Proof.
  intros Hin. unfold cut. assert (H : list_find (λ x, x = c) s = None).
  { induction s as [|x s IH]; cbn; [done |]. apply not_elem_of_cons in Hin as [Hx Hin]. rewrite decide_False by congruence. by rewrite IH. }
  by rewrite H.
Qed.

(** The address of a Worker: a host and an optional port. *)
Definition workerAddress (host : bytes) (port : option Z) : bytes :=
  str "wss://" ++ host ++ match port with Some p => [58] ++ to_string p | None => [] end.

(** The tunnel is asked for at the Worker's own host and port, over TLS, under the path
    [/tunnel], with or without a slash at the end of the configured address. *)
Theorem tunnel_url_parses host port (slash : bool) :
  host <> [] -> 47 ∉ host -> 58 ∉ host -> (forall p, port = Some p -> 1 <= p <= 65535) ->
  parseWsUrl (tunnelUrl (workerAddress host port ++ if slash then [47] else [])) =
    Some (mkWsUrl true host (default 443 port) (str "/tunnel")).
Proof.
  intros Hne Hs Hc Hp. set (hp := host ++ match port with Some p => [58] ++ to_string p | None => [] end).
  assert (Hnoslash : 47 ∉ hp).
  { unfold hp. rewrite not_elem_of_app. split; [done |]. destruct port as [p|]; [|set_solver]. rewrite not_elem_of_app. split; [set_solver |].
    specialize (Hp p eq_refl). destruct (to_string_spec p ltac:(lia)) as (Hd & _).
    intros Hin. rewrite Forall_forall in Hd. specialize (Hd 47 Hin). done. }
  assert (Hurl : tunnelUrl (workerAddress host port ++ if slash then [47] else []) = str "wss://" ++ hp ++ str "/tunnel").
  { unfold tunnelUrl, workerAddress. fold hp. destruct slash.
    - rewrite last_snoc, bool_decide_eq_true_2 by done. by rewrite <- !app_assoc.
    - rewrite app_nil_r. rewrite bool_decide_eq_false_2; [by rewrite <- !app_assoc |].
      assert (Hhp : hp <> []) by (unfold hp; destruct host; done). rewrite last_app. destruct (last hp) as [x|] eqn:El; [|by apply last_None in El].
      intros [= ->]. apply Hnoslash. apply last_Some in El as [l ->]. apply elem_of_app. right. set_solver. }
  rewrite Hurl. unfold parseWsUrl. unfold starts_with at 1. rewrite bool_decide_eq_true_2 by done. cbn [mbind option_bind].
  change (drop 6 (str "wss://" ++ hp ++ str "/tunnel")) with (hp ++ 47 :: str "tunnel").
  rewrite cut_first by done. cbn [default from_option id]. unfold hp. destruct port as [p|].
  - change (host ++ [58] ++ to_string p) with (host ++ 58 :: to_string p). rewrite cut_first by done. specialize (Hp p eq_refl).
    rewrite <- (app_nil_r (to_string p)), from_chars_to_string by (try lia; done).
    destruct (Z.eqb_spec p 0); [lia |]. destruct (Z.ltb_spec 65535 p); [lia |]. cbn. by rewrite w16_small by lia.
  - rewrite app_nil_r, cut_none by done. done.
Qed.
Lemma tunnel_url_parses_witness :
  parseWsUrl (tunnelUrl (str "wss://n.w.dev:8443/")) = Some (mkWsUrl true (str "n.w.dev") 8443 (str "/tunnel")).
Proof.
  apply (tunnel_url_parses (str "n.w.dev") (Some 8443) true); [done | | | by intros p [= <-]].
  all: apply (bool_decide_eq_false_1 (_ ∈ _)); reflexivity.
Defined.

(** ** The connect command *)

(** The Worker reads from the connect command the host the client asked for, whatever octets
    it has. *)
Theorem connect_command_reads_back j :
  all_bytes (targetHost_ j) ->
  getString (connectCommand j) (str "cmd") 0 = str "connect" /\ getString (connectCommand j) (str "host") 0 = targetHost_ j.
Proof.
  intros Hb. set (l := [(str "cmd", quoted (escape (str "connect"))); (str "host", quoted (escape (targetHost_ j)))]).
  assert (Hc : connectCommand j = str "{" ++ JsonText.members l ++ member (str "port") (to_string (targetPort_ j)) ++ str "}").
  { unfold connectCommand, JsonText.members, l, member, quoted. cbn [mbind list_bind fst snd]. rewrite <- !app_assoc. reflexivity. }
  assert (Hok : document_ok l).
  { split; [apply (bool_decide_eq_true_1 (NoDup _)); reflexivity |]. repeat (apply Forall_cons; split; [split; [by apply plain_ok |] |]); try (by constructor); cbn [snd].
    all: apply settled_string; try done; by apply all_bytes_check. }
  rewrite Hc. split; apply members_string; [exact Hok | by apply all_bytes_check | | exact Hok | done |].
  - exact (list_elem_of_lookup_2 l 0 _ eq_refl).
  - exact (list_elem_of_lookup_2 l 1 _ eq_refl).
Qed.
Lemma connect_command_reads_back_witness :
  getString (connectCommand (mkTunnelJob [] [] [104; 34; 92; 10; 128] 443 [] 0)) (str "host") 0 = [104; 34; 92; 10; 128].
Proof. apply (connect_command_reads_back (mkTunnelJob [] [] [104; 34; 92; 10; 128] 443 [] 0)). by apply all_bytes_check. Defined.

(** ** Messages *)

(** What [pumpWsToSock] gives the client of a sequence of frames: the message under way, the
    bytes written, and whether it still runs. *)
Record Stream := mkStream { underWay : bytes; toClient : bytes; running : bool }.

Definition feed (st : Stream) (frame : option (BufferType * bytes)) : Stream :=
  if negb (running st) then st else
  match receiveStep (underWay st) frame with
  | More out => mkStream out (toClient st) true
  | Message true _ => mkStream [] (toClient st) true
  | Message false out => mkStream [] (toClient st ++ out) true
  | Closed | ReceiveFailed => mkStream [] (toClient st) false
  end.
Definition feedAll : Stream -> list (option (BufferType * bytes)) -> Stream := foldl feed.

(** A message as the Worker sends it: its pieces, as WinHTTP hands them over. *)
Record Sent := mkSent { isText : bool; pieces : list bytes; lastPiece : bytes }.
Definition content (m : Sent) : bytes := concat (pieces m) ++ lastPiece m.
Definition framesOf (m : Sent) : list (option (BufferType * bytes)) :=
  ((λ p, Some (if isText m then Utf8Fragment else BinaryFragment, p)) <$> pieces m) ++
  [Some (if isText m then Utf8Message else BinaryMessage, lastPiece m)].
Definition payload (m : Sent) : bytes := if isText m then [] else content m.

(** *** The calls of a pump *)

(** The frames a trace received, and the writes to the client it made. *)
Definition frameOf (e : Call * option Answer) : list (option (BufferType * bytes)) :=
  match e with
  | (WinHttpWebSocketReceive _, Some (Frame f)) => [f]
  | (WinHttpWebSocketReceive _, _) => [None]
  | _ => []
  end.
Definition received (tr : list (Call * option Answer)) := tr ≫= frameOf.
Definition writeOf (e : Call * option Answer) : list bytes :=
  match e with (SendAll _ d, _) => [d] | _ => [] end.
Definition writes (tr : list (Call * option Answer)) := tr ≫= writeOf.

(** A call that moves no byte of the connection. *)
Definition quiet (c : Call) : Prop :=
  match c with SendAll _ _ | WinHttpWebSocketReceive _ => False | _ => True end.
Lemma quiet_trace tr : Forall (λ e, quiet e.1) tr -> received tr = [] /\ writes tr = [].
Proof.
  induction 1 as [|[c a] tr H _ [IH1 IH2]]; [done |]. unfold received, writes in *. cbn. rewrite IH1, IH2. by destruct c.
Qed.
Lemma quiet_calls {A} (p : M A) tr o : calls_only quiet p -> trace p tr o -> received tr = [] /\ writes tr = [].
Proof. intros H Ht. by eapply quiet_trace, trace_calls_only. Qed.

Lemma received_app a b : received (a ++ b) = received a ++ received b.
Proof. apply bind_app. Qed.
Lemma writes_app a b : writes (a ++ b) = writes a ++ writes b.
Proof. apply bind_app. Qed.

Lemma use_quiet h : calls_only quiet (use h).
Proof. cbn. by intros []. Qed.
Lemma inTunnel_quiet {A} (f : Tunnel -> RelayLife.Relay -> A * RelayLife.Relay) : calls_only quiet (inTunnel f).
Proof. cbn. by intros []. Qed.

(** A call between two uses of its handle: it was not made yet, or it was, and perhaps
    answered. *)
Lemma during_trace {A} h (p : M A) tr o :
  trace (during h p) tr o ->
  (tr = [] /\ o = None) \/ (trace p tr None /\ o = None) \/ (exists a, trace p tr (Some a) /\ (o = None \/ o = Some a)).
Proof.
  unfold during. intros Ht. apply trace_bind in Ht as [[Ht ->]|([] & tr1 & tr2 & -> & H1 & Ht)].
  - left. split; [|done]. destruct Ht as [[]|(t & s & Ht)]; [done |]. cbn in Ht. case_bool_decide; destruct Ht as [[]|[]]; done.
  - assert (tr1 = []) as ->.
    { destruct H1 as [[]|(t & s & Ht')]; [done |]. cbn in Ht'. case_bool_decide; destruct Ht' as [[]|[]]; done. }
    right. apply trace_bind in Ht as [[Ht ->]|(a & tr3 & tr4 & -> & H3 & Ht)]; [by left |]. right. exists a.
    destruct Ht as [[-> ->]|(t & s & Ht)]; [rewrite app_nil_r; auto |]. cbn in Ht.
    case_bool_decide; destruct Ht as [[-> ->]|Ht]; rewrite ?app_nil_r; auto; [|done]. destruct Ht as [-> ->]. rewrite app_nil_r. auto.
Qed.

(** ** The stream *)

Lemma feedAll_app st a b : feedAll st (a ++ b) = feedAll (feedAll st a) b.
Proof. apply foldl_app. Qed.

Lemma feed_pieces (t : bool) ps out w :
  zlen (out ++ concat ps) <= kMaxMessageBytes ->
  feedAll (mkStream out w true) ((λ p, Some (if t then Utf8Fragment else BinaryFragment, p)) <$> ps) = mkStream (out ++ concat ps) w true.
Proof.
  revert out. induction ps as [|p ps IH]; intros out Hl; cbn [fmap list_fmap feedAll foldl concat]; [by rewrite app_nil_r |].
  cbn [concat] in Hl. rewrite !zlen_app in Hl.
  assert (E : feed (mkStream out w true) (Some (if t then Utf8Fragment else BinaryFragment, p)) = mkStream (out ++ p) w true).
  { unfold feed, receiveStep. cbn [running negb underWay toClient].
    pose proof (zlen_nonneg (concat ps)). destruct t; (destruct (Z.ltb_spec (kMaxMessageBytes - zlen out) (zlen p)); [lia | done]). }
  rewrite E. etrans; [apply IH; rewrite !zlen_app; lia |]. by rewrite <- app_assoc.
Qed.

(** A message arrives as it was sent, whatever its pieces. *)
Lemma feed_message m w :
  zlen (content m) <= kMaxMessageBytes -> feedAll (mkStream [] w true) (framesOf m) = mkStream [] (w ++ payload m) true.
Proof.
  intros Hm. unfold framesOf. rewrite feedAll_app.
  unfold content in Hm. rewrite zlen_app in Hm. pose proof (zlen_nonneg (lastPiece m)).
  rewrite feed_pieces by (cbn; lia). cbn [app feedAll foldl]. unfold feed, receiveStep, payload, content. cbn [running negb underWay toClient].
  destruct (isText m) eqn:Et; (destruct (Z.ltb_spec (kMaxMessageBytes - zlen (concat (pieces m))) (zlen (lastPiece m))); [lia |]); case_bool_decide as He.
  - by rewrite app_nil_r.
  - cbn. by rewrite app_nil_r.
  - rewrite He. by rewrite app_nil_r.
  - done.
Qed.
Lemma feed_messages ms w :
  Forall (λ m, zlen (content m) <= kMaxMessageBytes) ms -> feedAll (mkStream [] w true) (ms ≫= framesOf) = mkStream [] (w ++ (ms ≫= payload)) true.
Proof.
  intros H. revert w. induction H as [|m ms Hm _ IH]; intros w; [by rewrite app_nil_r |].
  cbn. rewrite feedAll_app, feed_message, IH by done. by rewrite <- app_assoc.
Qed.

(** What one [receive] does to the stream: it writes nothing, and returns the message that
    the frames complete. *)
Definition afterReceive (w : bytes) (st : Stream) (o : option Received) : Prop :=
  match o with
  | Some (Message true _) => st = mkStream [] w true
  | Some (Message false d) => st = mkStream [] (w ++ d) true /\ 0 < zlen d <= kMaxMessageBytes
  | Some _ => toClient st = w
  | None => toClient st = w \/ running st = true /\ w `prefix_of` toClient st
  end.

Lemma receiveFrame_trace h tr o :
  trace (receiveFrame h) tr o ->
  writes tr = [] /\ (match o with Some f => received tr = [f] | None => received tr = [] \/ exists f, received tr = [f] end).
Proof.
  intros [[-> ->]|(r & tr' & -> & Ht)]; [cbn; auto |].
  destruct r as [[]|]; (destruct Ht as [[-> ->]|Ht]; [cbn; eauto |]); try done; by destruct Ht as [-> ->].
Qed.

(** A message is never longer than its limit, and never empty. *)
Lemma receiveStep_bounds out f :
  zlen out <= kMaxMessageBytes ->
  match receiveStep out f with
  | More out => zlen out <= kMaxMessageBytes
  | Message _ d => 0 < zlen d <= kMaxMessageBytes
  | _ => True
  end.
Proof.
  intros Hout. unfold receiveStep. destruct f as [[type chunk]|]; [|done].
  destruct (Z.ltb_spec (kMaxMessageBytes - zlen out) (zlen chunk)) as [|Hle]; [by destruct type |].
  assert (Hl : zlen (out ++ chunk) <= kMaxMessageBytes) by (rewrite zlen_app; lia).
  assert (Hp : out ++ chunk <> [] -> 0 < zlen (out ++ chunk)) by (destruct (out ++ chunk); [done | rewrite zlen_cons; pose proof (zlen_nonneg l); lia]).
  destruct type; try done; by case_bool_decide; [|auto].
Qed.

Lemma receiveLoop_trace frames h out tr o w :
  zlen out <= kMaxMessageBytes -> trace (receiveLoop frames h out) tr o ->
  writes tr = [] /\ afterReceive w (feedAll (mkStream out w true) (received tr)) o.
Proof.
  revert out tr. induction frames as [|frames IH]; intros out tr Hout; cbn [receiveLoop].
  { intros [[-> ->]|[-> ->]]; cbn; auto. }
  assert (Hone : forall f, (toClient (feed (mkStream out w true) f) = w \/ running (feed (mkStream out w true) f) = true /\ w `prefix_of` toClient (feed (mkStream out w true) f))).
  { intros f. unfold feed. cbn [running negb underWay toClient]. destruct (receiveStep out f) as [|[]| |]; cbn; auto. right. split; [done |]. by exists out0. }
  intros Ht. apply trace_bind in Ht as [[Ht ->]|(f & tr1 & tr2 & -> & H1 & Ht)].
  - apply during_trace in Ht as [[-> _]|[[Ht _]|(f & Ht & _)]]; [cbn; auto | |];
      apply receiveFrame_trace in Ht as [-> Hr]; (split; [done |]).
    + destruct Hr as [->|[f ->]]; cbn; auto. exact (Hone f).
    + rewrite Hr. exact (Hone f).
  - apply during_trace in H1 as [[_ ?]|[[_ ?]|(f' & H1 & [?|[= <-]])]]; try done.
    apply receiveFrame_trace in H1 as [Hw Hr]. rewrite writes_app, received_app, Hw, Hr, feedAll_app. cbn [app feedAll foldl].
    pose proof (receiveStep_bounds out f Hout) as Hlen.
    unfold feed at 1. cbn [running negb underWay toClient].
    destruct (receiveStep out f) as [out'|t d| |] eqn:Er.
    + by apply IH.
    + destruct Ht as [[-> ->]|[-> ->]]; cbn [writes mbind list_bind received feedAll foldl]; (split; [done |]).
      * destruct t; cbn; auto. right. split; [done |]. by exists d.
      * destruct t; cbn; [done |]. by split.
    + destruct Ht as [[-> ->]|[-> ->]]; cbn; auto.
    + destruct Ht as [[-> ->]|[-> ->]]; cbn; auto.
Qed.

Lemma receive_trace frames tr o w :
  trace (receive frames) tr o -> writes tr = [] /\ afterReceive w (feedAll (mkStream [] w true) (received tr)) o.
Proof.
  intros Ht. apply trace_bind in Ht as [[Ht ->]|(h & tr1 & tr2 & -> & H1 & Ht)].
  { apply (quiet_calls _ _ _ (inTunnel_quiet _)) in Ht as [-> ->]. cbn. auto. }
  apply (quiet_calls _ _ _ (inTunnel_quiet _)) in H1 as [Hr Hw]. rewrite writes_app, received_app, Hw, Hr. cbn [app].
  destruct h as [[h|]|].
  - apply trace_bind in Ht as [[Ht ->]|(r & tr3 & tr4 & -> & H3 & Ht)].
    { eapply (receiveLoop_trace _ _ _ _ None) in Ht; [exact Ht | cbn; done]. }
    apply (receiveLoop_trace _ _ _ _ _ w) in H3 as [Hw3 Ha]; [|done].
    assert (Hq : received tr4 = [] /\ writes tr4 = []).
    { eapply quiet_calls, Ht. apply calls_only_bind; [|done]. destruct r; try done; apply inTunnel_quiet. }
    destruct Hq as [Hr4 Hw4]. rewrite writes_app, received_app, Hw3, Hw4, Hr4, !app_nil_r. split; [done |].
    assert (Ho : o = None \/ o = Some r).
    { apply trace_bind in Ht as [[_ ->]|(? & ? & ? & _ & _ & Ht)]; [by left |]. destruct Ht as [[_ ->]|[_ ->]]; auto. }
    destruct Ho as [-> | ->]; [|done]. destruct r as [|[]| |]; cbn in *; auto.
    + rewrite Ha. cbn. auto.
    + destruct Ha as [-> _]. cbn. right. split; [done |]. by exists out.
  - destruct Ht as [[-> ->]|[]]. cbn. auto.
  - destruct Ht as [[-> ->]|[-> ->]]; cbn; auto.
Qed.

(** What the loop has written is what the frames carried; at most the message that has just
    arrived is still to be written. *)
Lemma pumpWsToSock_loop_trace rounds frames tr o w :
  trace (pumpWsToSock_loop rounds frames) tr o ->
  let st := feedAll (mkStream [] w true) (received tr) in
  (w ++ concat (writes tr) = toClient st \/ running st = true /\ w ++ concat (writes tr) `prefix_of` toClient st) /\
  Forall (λ d, 0 < zlen d <= kMaxMessageBytes) (writes tr).
Proof.
  revert tr w. induction rounds as [|rounds IH]; intros tr w; cbn [pumpWsToSock_loop].
  { intros [[-> _]|[-> _]]; cbn; rewrite app_nil_r; by split; [left |]. }
  intros Ht. apply trace_bind in Ht as [[Ht ->]|(c & tr1 & tr2 & -> & H1 & Ht)].
  { apply (quiet_calls _ _ _ (inTunnel_quiet _)) in Ht as [-> ->]. cbn. rewrite app_nil_r. by split; [left |]. }
  apply (quiet_calls _ _ _ (inTunnel_quiet _)) in H1 as [Hr Hw]. rewrite writes_app, received_app, Hw, Hr. cbn [app].
  destruct c as [h|]; [|destruct Ht as [[-> _]|[-> _]]; cbn; rewrite app_nil_r; by split; [left |]].
  apply trace_bind in Ht as [[Ht ->]|(r & tr3 & tr4 & -> & H3 & Ht)].
  { apply (receive_trace _ _ _ w) in Ht as [-> Ha]. cbn in *. rewrite app_nil_r. split; [|done]. destruct Ha as [Ha|Ha]; auto. }
  apply (receive_trace _ _ _ w) in H3 as [Hw3 Ha]. rewrite writes_app, received_app, Hw3, feedAll_app. cbn [app].
  assert (Hend : toClient (feedAll (mkStream [] w true) (received tr3)) = w -> tr4 = [] ->
    (w ++ concat (writes tr4) = toClient (feedAll (feedAll (mkStream [] w true) (received tr3)) (received tr4)) \/
     running (feedAll (feedAll (mkStream [] w true) (received tr3)) (received tr4)) = true /\
     w ++ concat (writes tr4) `prefix_of` toClient (feedAll (feedAll (mkStream [] w true) (received tr3)) (received tr4))) /\
    Forall (λ d, 0 < zlen d <= kMaxMessageBytes) (writes tr4)).
  { intros E ->. cbn. rewrite app_nil_r. by split; [left |]. }
  destruct r as [out|[] d| |].
  - apply Hend; [done |]. by destruct Ht as [[-> _]|[-> _]].
  - cbn in Ha. rewrite Ha. exact (IH _ w Ht).
  - destruct Ha as [Ha Hd]. rewrite Ha. apply trace_bind in Ht as [[Ht ->]|(ok & tr5 & tr6 & -> & H5 & Ht)].
    + apply during_trace in Ht as Hs.
      assert (Hs' : tr4 = [] \/ exists a, tr4 = [(SendAll h d, a)]).
      { destruct Hs as [[-> _]|[[Hs _]|(a & Hs & _)]]; [by left | |].
        - destruct Hs as [[-> _]|(r & tr' & -> & Hs)]; [by left |]. right. exists r. by destruct r as [[]|]; destruct Hs as [[-> _]|Hs]; try done; destruct Hs as [-> _].
        - destruct Hs as [[-> _]|(r & tr' & -> & Hs)]; [by left |]. right. exists r. by destruct r as [[]|]; destruct Hs as [[-> _]|Hs]; try done; destruct Hs as [-> _]. }
      destruct Hs' as [->|[a ->]]; cbn.
      * rewrite app_nil_r. split; [right; split; [done |]; by exists d | done].
      * rewrite app_nil_r. split; [by left | by constructor].
    + assert (Hs : exists a, tr5 = [(SendAll h d, a)]).
      { apply during_trace in H5 as [[_ ?]|[[_ ?]|(a & Hs & _)]]; try done. destruct Hs as [[_ ?]|(r & tr' & -> & Hs)]; [done |].
        exists r. by destruct r as [[]|]; destruct Hs as [[_ ?]|Hs]; try done; destruct Hs as [-> _]. }
      destruct Hs as [a ->]. rewrite writes_app, received_app. cbn [writes received mbind list_bind writeOf frameOf app concat].
      rewrite app_assoc. destruct ok.
      * apply (IH _ (w ++ d)) in Ht as [Ht1 Ht2]. split; [exact Ht1 | by constructor].
      * assert (tr6 = []) as -> by (by destruct Ht as [[-> _]|[-> _]]). cbn. rewrite app_nil_r. split; [by left | by constructor].
  - apply Hend; [done |]. by destruct Ht as [[-> _]|[-> _]].
  - apply Hend; [done |]. by destruct Ht as [[-> _]|[-> _]].
Qed.

Lemma guardedSend_quiet {A} (f : Tunnel -> RelayLife.Relay -> A * RelayLife.Relay) : calls_only quiet (guardedSend f).
Proof. cbn. by intros []. Qed.
Lemma during_quiet {A} h (p : M A) : calls_only quiet p -> calls_only quiet (during h p).
Proof.
  intros H. apply calls_only_bind; [apply use_quiet |]. intros _. apply calls_only_bind; [done |]. intros a.
  apply calls_only_bind; [apply use_quiet | done].
Qed.
Lemma tunnelStop_quiet : calls_only quiet tunnelStop.
Proof.
  assert (Hask : forall c, quiet c -> calls_only quiet (askOnly c)) by (intros c Hc; cbn; split; [done | by intros [[]|]]).
  apply calls_only_bind; [apply inTunnel_quiet |]. intros first. case_if; [done |]. apply calls_only_bind.
  - apply calls_only_bind; [apply inTunnel_quiet |]. intros again. case_if; [done |].
    apply calls_only_bind; [apply guardedSend_quiet |]. intros [h|]; (apply calls_only_bind; [|done]); [by apply during_quiet, Hask | done].
  - intros _. apply calls_only_bind; [apply inTunnel_quiet |]. intros [h|]; [|done]. apply calls_only_bind; [by apply during_quiet, Hask | done].
Qed.

(** C28: The server's bytes reach the client as they were sent. However WinHTTP cuts the
    Worker's messages into pieces, and whatever the other threads do meanwhile, the client
    is written nothing but the contents of the binary messages, in their order, without a
    gap, and nothing of a message of which a piece is still missing; once the peer has closed
    every one of them has been written. Text messages never reach the
    client. Every write has between one byte and a megabyte. *)
Theorem tunnel_stream rounds frames tr o ms m k closing :
  Forall (λ m, zlen (content m) <= kMaxMessageBytes) (m :: ms) -> (k <= length (pieces m))%nat ->
  trace (pumpWsToSock rounds frames) tr o ->
  (received tr = (ms ≫= framesOf) ++ take k (framesOf m) -> concat (writes tr) `prefix_of` (ms ≫= payload)) /\
  (received tr = (ms ≫= framesOf) ++ [Some (CloseFrame, closing)] -> concat (writes tr) = ms ≫= payload) /\
  Forall (λ d, 0 < zlen d <= kMaxMessageBytes) (writes tr).
Proof.
  intros [Hm Hms]%Forall_cons Hk Ht.
  assert (H : exists tr1 tr2 o', tr = tr1 ++ tr2 /\ trace (pumpWsToSock_loop rounds frames) tr1 o' /\ received tr2 = [] /\ writes tr2 = []).
  { apply trace_bind in Ht as [[Ht ->]|(a & tr1 & tr2 & -> & H1 & Ht)].
    - exists tr, [], None. by rewrite app_nil_r.
    - exists tr1, tr2, (Some a). split_and!; [done | done | |]; eapply quiet_calls; first [exact Ht | apply tunnelStop_quiet]. }
  destruct H as (tr1 & tr2 & o' & -> & H1 & Hr & Hw). rewrite received_app, writes_app, Hr, Hw, !app_nil_r.
  destruct (pumpWsToSock_loop_trace _ _ _ _ [] H1) as [Hpre Hb]. cbn [app] in Hpre.
  pose proof (feed_messages ms [] Hms) as Hall. cbn [app] in Hall. split_and!; [| |done].
  - intros E. rewrite E, feedAll_app, Hall in Hpre. unfold framesOf in Hpre. rewrite take_app_le in Hpre by (by rewrite length_fmap).
    rewrite <- fmap_take, feed_pieces in Hpre; [destruct Hpre as [-> |[_ ?]]; done |].
    unfold content in Hm. rewrite <- (take_drop k (pieces m)), concat_app, <- app_assoc, zlen_app in Hm.
    pose proof (zlen_nonneg (concat (drop k (pieces m)) ++ lastPiece m)). cbn [app]. lia.
  - intros E. rewrite E, feedAll_app, Hall in Hpre. cbn in Hpre. destruct Hpre as [Hp|[? _]]; done.
Qed.

(** A tunnel in use. *)
Definition inUse : RelayLife.Relay :=
  setConnected true (setCore (mkCore None None false true (Some (mkTunnel (Some 1) (Some 2) None (Some 3) true (Some 0) true))
    [3; 2; 1; 0] 4 [] false false) newRelay).
Definition aMessage : Sent := mkSent false [[1; 2]; []; [3]] [4; 5].
Definition aScript : list (option Answer) :=
  [Some (Frame (Some (BinaryFragment, [1; 2]))); Some (Frame (Some (BinaryFragment, []))); Some (Frame (Some (BinaryFragment, [3])));
   Some (Frame (Some (BinaryMessage, [4; 5]))); Some (Is true); Some (Frame (Some (Utf8Message, [123; 125])));
   Some (Frame (Some (CloseFrame, []))); Some (Is true); Some (Is true)].

Lemma tunnel_stream_witness :
  let tr := (played (pumpWsToSock 5 9) aScript inUse).1 in
  received tr = ([aMessage; mkSent true [] [123; 125]] ≫= framesOf) ++ [Some (CloseFrame, [])] /\ concat (writes tr) = [1; 2; 3; 4; 5].
Proof.
  intros tr. assert (Hr : received tr = ([aMessage; mkSent true [] [123; 125]] ≫= framesOf) ++ [Some (CloseFrame, [])]) by (vm_compute; reflexivity).
  split; [exact Hr |].
  destruct (tunnel_stream 5 9 tr _ [aMessage; mkSent true [] [123; 125]] aMessage 0 [] ltac:(repeat constructor; done) ltac:(cbn; lia)
    (played_trace (pumpWsToSock 5 9) aScript inUse)) as (_ & H & _).
  exact (H Hr).
Defined.
