(* ===== verification/Files.v ===== *)
(** * Files: files, and the machine they are on

    Models [src/src/FileUtil.hpp] and [src/src/FileUtil.cpp] (namespace [fileutil]). The
    functions are programs of [Calls]; the ledger of their calls is a [Machine]: the files
    with what is known to be on the disk, the open handles, and the registry key of
    [SystemProxy]. The program may be killed, or the power fail, between any two calls:
    what holds then is what holds of the machine before each call of a run.

    The conversions between code pages are parameters (class [CodePages]). *)

From S2P Require Import Prelude Calls.

(** ** Paths *)

(** A [std::wstring] *)
Abbreviation wide := (list Z).

Inductive CodePage := CP_UTF8 | CP_ACP.

(** [MultiByteToWideChar] ([MB_ERR_INVALID_CHARS] for UTF-8) and [WideCharToMultiByte];
    [None] when the length they answer is not positive. *)
Class CodePages := {
  MultiByteToWideChar : CodePage -> bytes -> option wide;
  WideCharToMultiByte : wide -> option bytes;
}.

(** [L".tmp"] *)
Definition dotTmp : wide := str ".tmp".

(** ** Calls *)

Inductive RegName := ProxyEnable | ProxyServer | ProxyOverride.
#[export] Instance regName_eq : EqDecision RegName.
Proof. solve_decision. Defined.
#[export] Instance regName_countable : Countable RegName.
Proof.
  refine (inj_countable' (λ n, match n with ProxyEnable => 0 | ProxyServer => 1 | ProxyOverride => 2 end%nat)
    (λ k, match k with 0 => ProxyEnable | 1 => ProxyServer | _ => ProxyOverride end%nat) _).
  by intros [].
Defined.

(** A value of the registry: its type and its data. *)
Record RegValue := mkRegValue { reg_type : Z; reg_data : bytes }.
Definition REG_SZ : Z := 1.
Definition REG_EXPAND_SZ : Z := 2.
Definition REG_DWORD : Z := 4.

Inductive FileCall :=
  | CreateAlways (path : wide)          (* [CreateFileW] for writing, [CREATE_ALWAYS] *)
  | OpenExisting (path : wide)          (* [CreateFileW] for reading, [OPEN_EXISTING] *)
  | WriteFile (file : Z) (data : bytes) (* whether it succeeded, and [written] *)
  | ReadFile (file : Z) (size : nat)    (* [None]: it failed *)
  | FlushFileBuffers (file : Z)
  | CloseHandle (file : Z)
  | MoveReplace (from to : wide)        (* [MoveFileExW], replacing, write-through *)
  | DeleteFileW (path : wide)           (* [inl]: whether it deleted; [inr]: not found *)
  | FileExists (path : wide)            (* [GetFileAttributesW] *)
  | RegOpenKey                          (* the key of the Internet settings *)
  | RegQuerySize (key : Z) (name : RegName)
  | RegQueryData (key : Z) (name : RegName) (size : nat)
  | RegSetValue (key : Z) (name : RegName) (value : RegValue)
  | RegDeleteValue (key : Z) (name : RegName)
  | RegCloseKey (key : Z)
  | InternetSetOption.

Definition Reply (c : FileCall) : Type :=
  match c with
  | CreateAlways _ | OpenExisting _ | RegOpenKey => option Z
  | WriteFile _ _ => bool * nat
  | ReadFile _ _ => option bytes
  | FlushFileBuffers _ | MoveReplace _ _ | FileExists _ | RegSetValue _ _ _ | RegDeleteValue _ _ => bool
  | DeleteFileW _ => bool + unit
  | RegQuerySize _ _ => option (Z * nat)
  | RegQueryData _ _ _ => option RegValue
  | CloseHandle _ | RegCloseKey _ | InternetSetOption => unit
  end.

Definition M (A : Type) : Type := Sys Reply A.
#[export] Instance file_ret : MRet M := λ A, Done.
#[export] Instance file_bind : MBind M := λ A B, sys_bind.
Definition do (c : FileCall) : M (Reply c) := call c.

(** ** The functions *)

Section Functions.
Context `{!CodePages}.

Definition widen (path : bytes) : wide :=
  if bool_decide (path = []) then [] else
  match MultiByteToWideChar CP_UTF8 path with
  | Some wide => wide
  | None => default [] (MultiByteToWideChar CP_ACP path)
  end.

Definition toUtf8 (path : bytes) : bytes :=
  let wide := widen path in
  if bool_decide (wide = []) then [] else default [] (WideCharToMultiByte wide).

(** The loop of [writeAtomic]: [left] bytes from [cursor] on. Every turn that goes on wrote
    at least one byte, so fuel for [left] turns is enough. *)
Fixpoint writeLoop (fuel : nat) (file : Z) (cursor : bytes) (left : Z) : M bool :=
  if negb (0 <? left) then mret true else
  match fuel with
  | O => mret false
  | S fuel =>
      '(ok, written) ← do (WriteFile file (take (Z.to_nat left) cursor));
      if negb ok || bool_decide (written = 0%nat) then mret false
      else writeLoop fuel file (drop written cursor) (left - Z.of_nat written)
  end.

(** [writeAtomic]; [left] is a [DWORD]. *)
Definition writeAtomic (path content : bytes) : M bool :=
  let target := widen path in
  if bool_decide (target = []) then mret false else
  let tempPath := target ++ dotTmp in
  file ← do (CreateAlways tempPath);
  match (file : option Z) with
  | None => mret false
  | Some file =>
      let left := w32 (zlen content) in
      written ← writeLoop (Z.to_nat left) file content left;
      if negb written then _ ← do (CloseHandle file); _ ← do (DeleteFileW tempPath); mret false else
      _ ← do (FlushFileBuffers file);
      _ ← do (CloseHandle file);
      moved ← do (MoveReplace tempPath target);
      if negb moved then _ ← do (DeleteFileW tempPath); mret false else mret true
  end.

(** The loop of [readAll]: whether it reached the end, and what it read; [None]: the turns
    are used up. *)
Fixpoint readLoop (turns : nat) (file : Z) (out : bytes) : M (option (bool * bytes)) :=
  match turns with
  | O => mret None
  | S turns =>
      read ← do (ReadFile file 4096);
      match (read : option bytes) with
      | None => mret (Some (false, out))
      | Some [] => mret (Some (true, out))
      | Some data => readLoop turns file (out ++ data)
      end
  end.

(** [readAll]: the content, or [Some None] when it could not be read whole. *)
Definition readAll (turns : nat) (path : bytes) : M (option (option bytes)) :=
  let source := widen path in
  if bool_decide (source = []) then mret (Some None) else
  file ← do (OpenExisting source);
  match (file : option Z) with
  | None => mret (Some None)
  | Some file =>
      result ← readLoop turns file [];
      _ ← do (CloseHandle file);
      mret (match result with
            | None => None
            | Some (complete, out) => Some (if complete : bool then Some out else None)
            end)
  end.

Definition exists_ (path : bytes) : M bool :=
  let wide := widen path in
  if bool_decide (wide = []) then mret false else do (FileExists wide).

Definition remove (path : bytes) : M bool :=
  let wide := widen path in
  if bool_decide (wide = []) then mret false else
  result ← do (DeleteFileW wide);
  mret (match (result : bool + unit) with inl deleted => deleted | inr _ => true end).
End Functions.

(** ** The machine *)

(** A file, and whether the disk is known to hold it: one whose last bytes were not flushed
    may hold anything after a power failure. *)
Record File := mkFile { content : bytes; synced : bool }.

(** What the system may refuse to do; opening a file that is not there is no refusal. *)
Inductive Refusal := RRead | RCreate | RWrite | RFlush | RMove | RDelete | ROpenKey | RValue (name : RegName).
#[export] Instance refusal_eq : EqDecision Refusal.
Proof. solve_decision. Defined.

Record Machine := mkMachine {
  files : gmap wide File;
  handles : gmap Z (wide * nat);        (* the file and the position *)
  keys : gset Z;
  registry : gmap RegName RegValue;
  refusals : list Refusal;              (* what was refused, last one first *)
}.
(** Something was refused. *)
Definition failed (m : Machine) : bool := negb (bool_decide (refusals m = [])).
(** A file could not be written. *)
Definition unwritten (m : Machine) : Prop := exists r, r ∈ [RCreate; RWrite; RMove] /\ r ∈ refusals m.

Definition setFiles (f : gmap wide File -> gmap wide File) (m : Machine) : Machine :=
  mkMachine (f (files m)) (handles m) (keys m) (registry m) (refusals m).
Definition setHandles (f : gmap Z (wide * nat) -> gmap Z (wide * nat)) (m : Machine) : Machine :=
  mkMachine (files m) (f (handles m)) (keys m) (registry m) (refusals m).
Definition setKeys (f : gset Z -> gset Z) (m : Machine) : Machine :=
  mkMachine (files m) (handles m) (f (keys m)) (registry m) (refusals m).
Definition setRegistry (f : gmap RegName RegValue -> gmap RegName RegValue) (m : Machine) : Machine :=
  mkMachine (files m) (handles m) (keys m) (f (registry m)) (refusals m).
Definition refuse (r : Refusal) (m : Machine) : Machine := mkMachine (files m) (handles m) (keys m) (registry m) (r :: refusals m).
Lemma refusal_failed r m : r ∈ refusals m -> failed m = true.
Proof. unfold failed. intros Hr. rewrite bool_decide_eq_false_2; [done |]. intros E. rewrite E in Hr. by apply elem_of_nil in Hr. Qed.

(** Changing the file behind a handle. *)
Definition onFile (file : Z) (f : File -> File) (m : Machine) : Machine :=
  match handles m !! file with
  | Some (path, _) => setFiles (alter f path) m
  | None => m
  end.

Definition rename (from to : wide) (fs : gmap wide File) : gmap wide File :=
  match fs !! from with Some f => <[to := f]> (delete from fs) | None => fs end.

Definition after (m : Machine) (c : FileCall) : Reply c -> Machine :=
  match c return Reply c -> Machine with
  | CreateAlways path => λ r, match r with
      | Some h => setHandles <[h := (path, 0%nat)]> (setFiles <[path := mkFile [] false]> m)
      | None => refuse RCreate m end
  | OpenExisting path => λ r, match r with
      | Some h => setHandles <[h := (path, 0%nat)]> m
      | None => match files m !! path with Some _ => refuse RRead m | None => m end end
  | WriteFile h data => λ '(ok, written),
      let m' := onFile h (λ f, mkFile (content f ++ take written data) false) m in
      if ok && negb (bool_decide (written = 0%nat)) then m' else refuse RWrite m'
  | ReadFile h _ => λ r, match r with
      | Some data => setHandles (alter (prod_map id (Nat.add (length data))) h) m
      | None => refuse RRead m end
  | FlushFileBuffers h => λ ok, if ok then onFile h (λ f, mkFile (content f) true) m else refuse RFlush m
  | CloseHandle h => λ _, setHandles (delete h) m
  | MoveReplace from to => λ ok, if ok then setFiles (rename from to) m else refuse RMove m
  | DeleteFileW path => λ r, match r with inl true => setFiles (delete path) m | inl false => refuse RDelete m | inr _ => m end
  | RegOpenKey => λ r, match r with Some k => setKeys (λ s, {[k]} ∪ s) m | None => refuse ROpenKey m end
  | RegSetValue _ name v => λ ok, if ok then setRegistry <[name := v]> m else refuse (RValue name) m
  | RegDeleteValue _ name => λ ok, if ok then setRegistry (delete name) m else refuse (RValue name) m
  | RegCloseKey k => λ _, setKeys (λ s, s ∖ {[k]}) m
  | _ => λ _, m
  end.

(** What the calls may answer: a handle is a new one; at most the bytes given are written;
    a read gives the next bytes of the file, none only at its end; a query gives the value,
    if the buffer holds it; a value that is not there cannot fail to be deleted. *)
Definition answers (m : Machine) (c : FileCall) : Reply c -> Prop :=
  match c return Reply c -> Prop with
  | CreateAlways _ => λ r, forall h, r = Some h -> handles m !! h = None
  | OpenExisting path => λ r, forall h, r = Some h -> handles m !! h = None /\ is_Some (files m !! path)
  | WriteFile _ data => λ '(_, written), (written <= length data)%nat
  | ReadFile h size => λ r, forall data, r = Some data ->
      exists path pos f, handles m !! h = Some (path, pos) /\ files m !! path = Some f /\
        data = take (length data) (drop pos (content f)) /\ (length data <= size)%nat /\
        (data = [] -> size = 0%nat \/ (length (content f) <= pos)%nat)
  | MoveReplace from _ => λ ok, ok = true -> is_Some (files m !! from)
  | DeleteFileW path => λ r, match r with inl _ => is_Some (files m !! path) | inr _ => files m !! path = None end
  | FileExists path => λ ok, ok = true -> is_Some (files m !! path)
  | RegOpenKey => λ r, forall k, r = Some k -> k ∉ keys m
  | RegQuerySize _ name => λ r, r = (λ v, (reg_type v, length (reg_data v))) <$> registry m !! name
  | RegQueryData _ name size => λ r,
      r = v ← registry m !! name; if bool_decide (length (reg_data v) <= size)%nat then Some v else None
  | RegDeleteValue _ name => λ ok, ok = false -> is_Some (registry m !! name)
  | _ => λ _, True
  end.

(** The handles a call is made on are open. *)
Definition usable (m : Machine) (c : FileCall) : Prop :=
  match c with
  | WriteFile h _ | ReadFile h _ | FlushFileBuffers h | CloseHandle h => is_Some (handles m !! h)
  | RegQuerySize k _ | RegQueryData k _ _ | RegSetValue k _ _ | RegDeleteValue k _ | RegCloseKey k => k ∈ keys m
  | _ => True
  end.

(** ** Runs *)

(** Nothing but the files of [ps] and the handles has changed. *)
Record Near (ps : list wide) (m m' : Machine) : Prop := {
  near_files : forall q, q ∉ ps -> files m' !! q = files m !! q;
  near_keys : keys m' = keys m;
  near_registry : registry m' = registry m;
  near_refusals : forall r, r ∈ refusals m -> r ∈ refusals m';
}.

Lemma near_refl ps m : Near ps m m.
Proof. by split. Qed.
Lemma near_trans ps m m' m'' : Near ps m m' -> Near ps m' m'' -> Near ps m m''.
Proof. intros [H1 H2 H3 H4] [H1' H2' H3' H4']. split; [intros q Hq; by rewrite H1', H1 | congruence | congruence | auto]. Qed.
Lemma near_more ps ps' m m' : ps ⊆ ps' -> Near ps m m' -> Near ps' m m'.
Proof. intros Hs [H1 H2 H3 H4]. split; auto. Qed.
Lemma near_handles ps f m : Near ps m (setHandles f m).
Proof. by split. Qed.
Lemma near_refuse ps r m : Near ps m (refuse r m).
Proof. split; try done. intros x Hx. by right. Qed.
Lemma near_setFiles (ps : list wide) (p : wide) (f : gmap wide File -> gmap wide File) (m : Machine) :
  p ∈ ps -> (forall fs q, q <> p -> f fs !! q = fs !! q) -> Near ps m (setFiles f m).
Proof. intros Hp Hf. split; [intros q Hq; cbn; apply Hf; congruence | done..]. Qed.
Lemma near_onFile ps p o h f m : handles m !! h = Some (p, o) -> p ∈ ps -> Near ps m (onFile h f m).
Proof. intros Hh Hp. unfold onFile. rewrite Hh. apply (near_setFiles ps p); [done |]. intros fs q Hq. by apply lookup_alter_ne. Qed.
Lemma onFile_handles h f m : handles (onFile h f m) = handles m.
Proof. unfold onFile. by destruct (handles m !! h) as [[]|]. Qed.
Lemma onFile_refusals h f m : refusals (onFile h f m) = refusals m.
Proof. unfold onFile. by destruct (handles m !! h) as [[]|]. Qed.
Lemma onFile_file h f m p o x :
  handles m !! h = Some (p, o) -> files m !! p = Some x -> files (onFile h f m) !! p = Some (f x).
Proof. intros Hh Hx. unfold onFile. rewrite Hh. cbn. rewrite lookup_alter_eq, Hx. done. Qed.
Lemma dotTmp_ne (p : wide) : p ++ dotTmp <> p.
Proof. intros E. apply (f_equal length) in E. rewrite length_app in E. change (length dotTmp) with 4%nat in E. lia. Qed.

Create HintDb near discriminated.
#[export] Hint Resolve near_refl near_handles near_refuse : near.

Section Runs.
Context `{!CodePages}.
(** What is to hold whenever the program is killed. *)
Variable Safe : Machine -> Prop.
Definition legal (m : Machine) (c : FileCall) : Prop := Safe m /\ usable m c.
Notation wpf := (wps legal answers after).

Lemma wp_safely {A} c (k : Reply c -> M A) m Q :
  Safe m -> usable m c -> (forall r, answers m c r -> wpf (k r) (after m c r) Q) -> wpf (do c ≫= k) m Q.
Proof. intros Hs Hu Hk. by split. Qed.

Lemma wp_writeLoop fuel h p o f cursor left m (Q : bool -> Machine -> Prop) :
  handles m !! h = Some (p, o) -> files m !! p = Some f ->
  0 <= left <= zlen cursor -> (Z.to_nat left <= fuel)%nat ->
  (forall m', Near [p] m m' -> Safe m') ->
  (forall (b : bool) m' f', Near [p] m m' -> handles m' = handles m -> files m' !! p = Some f' ->
     (if b then content f' = content f ++ take (Z.to_nat left) cursor /\ refusals m' = refusals m
      else RWrite ∈ refusals m') -> Q b m') ->
  wpf (writeLoop fuel h cursor left) m Q.
Proof.
  revert cursor left f m. induction fuel as [|fuel IH]; intros cursor left f m Hh Hf Hl Hfuel HS HQ; cbn [writeLoop].
  - destruct (Z.ltb_spec 0 left) as [Hp|Hp]; [lia |]. cbn [negb].
    apply (HQ true m f); [apply near_refl | done | done |]. split; [| done]. replace left with 0 by lia. by rewrite app_nil_r.
  - destruct (Z.ltb_spec 0 left) as [Hp|Hp]; cbn [negb].
    2: { apply (HQ true m f); [apply near_refl | done | done |]. split; [| done]. replace left with 0 by lia. by rewrite app_nil_r. }
    apply wp_safely; [apply HS, near_refl | unfold usable; by rewrite Hh |]. intros [ok written] Hw. cbn in Hw. rewrite length_take in Hw.
    cbn [after]. set (m1 := onFile h _ m).
    assert (N1 : Near [p] m m1) by (apply (near_onFile [p] p o); [done | by left]).
    assert (F1 : files m1 !! p = Some (mkFile (content f ++ take written (take (Z.to_nat left) cursor)) false)) by exact (onFile_file _ _ _ _ _ _ Hh Hf).
    assert (H1 : handles m1 = handles m) by apply onFile_handles.
    destruct (negb ok || bool_decide (written = 0%nat)) eqn:E.
    + assert (E' : ok && negb (bool_decide (written = 0%nat)) = false) by (destruct ok, (bool_decide (written = 0%nat)); done).
      rewrite E'. apply (HQ false (refuse RWrite m1) _ (near_trans _ _ _ _ N1 (near_refuse _ _ _)) H1 F1). by left.
    + assert (E' : ok && negb (bool_decide (written = 0%nat)) = true) by (destruct ok, (bool_decide (written = 0%nat)); done).
      rewrite E'. apply orb_false_iff in E as [_ Hw0%bool_decide_eq_false].
      unfold zlen in Hl. apply (IH _ _ _ _ ltac:(by rewrite H1) F1).
      * rewrite zlen_drop. unfold zlen. lia.
      * lia.
      * intros m' N'. apply HS. by apply (near_trans _ _ m1).
      * intros b m' f' N' Hh' Hf' Hb. apply (HQ b m' f'); [by apply (near_trans _ _ m1) | congruence | done |].
        destruct b; [| done]. destruct Hb as [Hc Hfail]. split; [| rewrite Hfail; apply onFile_refusals].
        rewrite Hc. cbn [content]. rewrite <- app_assoc. f_equal. rewrite take_take.
        rewrite Nat.min_l, take_take_drop by lia. f_equal. lia.
Qed.

(** The file has the new content, and the others are as they were. *)
Definition Swapped (target : wide) (text : bytes) (m m' : Machine) : Prop :=
  Near [target ++ dotTmp; target] m m' /\
  exists s, files m' !! target = Some (mkFile text s) /\ (s = true \/ RFlush ∈ refusals m').

Lemma wp_tidy path ps m (Q : bool -> Machine -> Prop) :
  path ∈ ps -> (forall m', Near ps m m' -> Safe m') -> unwritten m ->
  (forall m', Near ps m m' -> handles m' = handles m -> unwritten m' -> Q false m') ->
  wpf (_ ← do (DeleteFileW path); mret false) m Q.
Proof.
  intros Hp HS Hf HQ. apply wp_safely; [apply HS, near_refl | done |]. intros r _. cbn [after wps]. 
  destruct r as [[|]|]; apply HQ; auto with near; try done; [| destruct Hf as (x & Hx & Hr); exists x; split; [done | by right]].
  apply (near_setFiles ps path); [done |]. intros fs q Hq. by apply lookup_delete_ne.
Qed.

(** The end of [writeAtomic]. *)
Lemma wp_commit h o f target m (Q : bool -> Machine -> Prop) :
  let temp := target ++ dotTmp in
  handles m !! h = Some (temp, o) -> files m !! temp = Some f ->
  (forall m', Near [temp] m m' -> Safe m') ->
  (forall m', Swapped target (content f) m m' -> handles m' = delete h (handles m) -> Q true m') ->
  (forall m', Near [temp] m m' -> handles m' = delete h (handles m) -> unwritten m' -> Q false m') ->
  wpf (_ ← do (FlushFileBuffers h); _ ← do (CloseHandle h); moved ← do (MoveReplace temp target);
       if negb moved then _ ← do (DeleteFileW temp); mret false else mret true) m Q.
Proof.
  intros temp Hh Hf HS HQ1 HQ0.
  assert (Hne : target <> temp) by (intros E; by apply (dotTmp_ne target)).
  apply wp_safely; [apply HS, near_refl | unfold usable; by rewrite Hh |]. intros flushed _. cbn [after].
  set (m1 := if flushed then _ else _).
  assert (N1 : Near [temp] m m1) by (unfold m1; destruct flushed; [apply (near_onFile _ temp o); [done | by left] | apply near_refuse]).
  assert (H1 : handles m1 = handles m) by (unfold m1; destruct flushed; [apply onFile_handles | done]).
  assert (F1 : exists s, files m1 !! temp = Some (mkFile (content f) s) /\ (s = true \/ RFlush ∈ refusals m1)).
  { unfold m1. destruct flushed.
    - exists true. split; [exact (onFile_file _ (λ f, mkFile (content f) true) _ _ _ _ Hh Hf) | by left].
    - exists (synced f). split; [cbn; rewrite Hf; by destruct f | right; by left]. }
  destruct F1 as (s & F1 & Hs). clearbody m1.
  apply wp_safely; [by apply HS | unfold usable; by rewrite H1, Hh |]. intros ? _. cbn [after]. set (m2 := setHandles _ m1).
  assert (N2 : Near [temp] m m2) by (apply (near_trans _ _ m1); [done | apply near_handles]).
  assert (H2 : handles m2 = delete h (handles m)) by (cbn; by rewrite H1).
  apply wp_safely; [by apply HS | done |]. intros [|] _; cbn [after negb].
  - apply HQ1; [| done]. split.
    + apply (near_trans _ _ m2); [by apply (near_more [temp]); [set_solver |] |]. split; try done. intros q Hq. cbn.
      unfold rename. rewrite F1. rewrite lookup_insert_ne by set_solver. apply lookup_delete_ne. set_solver.
    + exists s. split; [| done]. cbn. unfold rename. rewrite F1. by rewrite lookup_insert_eq.
  - apply (wp_tidy temp [temp]); [by left | | exists RMove; split; [set_solver | by left] |].
    + intros m' N. apply HS. apply (near_trans _ _ m2); [done |]. by apply (near_trans _ _ (refuse RMove m2)); [apply near_refuse |].
    + intros m' N H' Hf'. apply HQ0; [| by rewrite H' | done]. apply (near_trans _ _ m2); [done |].
      by apply (near_trans _ _ (refuse RMove m2)); [apply near_refuse |].
Qed.

Lemma wp_writeAtomic path text m (Q : bool -> Machine -> Prop) :
  let target := widen path in
  let temp := target ++ dotTmp in
  zlen text < 2 ^ 32 ->
  (forall m', Near [temp] m m' -> Safe m') ->
  (forall m', Swapped target text m m' -> Safe m') ->
  (forall m', Swapped target text m m' -> handles m' = handles m -> Q true m') ->
  (forall m', Near [temp] m m' -> handles m' = handles m -> (target <> [] -> unwritten m') -> Q false m') ->
  wpf (writeAtomic path text) m Q.
Proof.
  intros target temp Hlen HS HS' HQ1 HQ0. unfold writeAtomic. fold target. 
  destruct (bool_decide_reflect (target = [])) as [E|Ht]; [by apply HQ0; [auto with near | |] |]. fold temp.
  apply wp_safely; [apply HS, near_refl | done |]. intros [h|] Hnew; cbn [after].
  2: { apply HQ0; [auto with near | done | intros _; exists RCreate; split; [set_solver | by left]]. }
  specialize (Hnew h eq_refl). set (m1 := setHandles _ _).
  assert (N1 : Near [temp] m m1).
  { apply (near_trans _ _ (setFiles <[temp:=mkFile [] false]> m)); [| apply near_handles].
    apply (near_setFiles _ temp); [by left |]. intros fs q Hq. by apply lookup_insert_ne. }
  assert (S1 : forall m', Near [temp] m1 m' -> Safe m') by (intros m' N; apply HS; by apply (near_trans _ _ m1)).
  rewrite w32_small by (unfold zlen in *; lia).
  apply wps_bind, (wp_writeLoop _ h temp 0 (mkFile [] false)).
  1: { by apply lookup_insert_eq. } 1: { cbn. by apply lookup_insert_eq. } 1: { unfold zlen. lia. } 1: lia. 1: exact S1.
  intros b m2 f2 N2 H2 F2 Hb.
  assert (Hh2 : handles m2 !! h = Some (temp, 0%nat)) by (rewrite H2; apply lookup_insert_eq).
  assert (Hdel : delete h (handles m2) = handles m) by (rewrite H2; cbn; by apply delete_insert_id).
  destruct b; cbn [negb].
  - destruct Hb as [Hc _]. cbn [content app] in Hc. unfold zlen in Hc. rewrite Nat2Z.id, firstn_all in Hc.
    apply (wp_commit h 0 f2 target m2); [done | done | intros m' N; apply S1; by apply (near_trans _ _ m2) | |].
    + intros m' [N' Hsw] H'. rewrite Hc in Hsw. apply HQ1; [split; [| done] | congruence].
      apply (near_trans _ _ m2); [| done]. apply (near_more [temp]); [set_solver |]. by apply (near_trans _ _ m1).
    + intros m' N' H' Hf'. apply HQ0; [| congruence | done]. by apply (near_trans _ _ m1); [| apply (near_trans _ _ m2)].
  - apply wp_safely; [by apply S1 | unfold usable; by rewrite Hh2 |]. intros ? _. cbn [after].
    assert (N3 : Near [temp] m1 (setHandles (delete h) m2)) by (apply (near_trans _ _ m2); [done | apply near_handles]).
    apply (wp_tidy temp [temp]); [by left | | exists RWrite; split; [set_solver | done] |].
    + intros m' N'. apply S1. by apply (near_trans _ _ _ _ N3).
    + intros m' N' H' Hf'. apply HQ0; [| rewrite H'; done | done]. apply (near_trans _ _ m1); [done |]. by apply (near_trans _ _ _ _ N3).
Qed.

(** The machine with a file opened for reading. *)
Definition reading (h : Z) (path : wide) (pos : nat) (m : Machine) : Machine := setHandles <[h := (path, pos)]> m.

Lemma reading_closed h path pos m : handles m !! h = None -> setHandles (delete h) (reading h path pos m) = m.
Proof. intros Hh. destruct m. unfold setHandles, reading. cbn in *. by rewrite delete_insert_id. Qed.

(** The machine after a read that was refused, or not. *)
Definition readOf (refused : bool) (m : Machine) : Machine := if refused then refuse RRead m else m.
Lemma near_readOf ps refused m : Near ps m (readOf refused m).
Proof. destruct refused; [apply near_refuse | apply near_refl]. Qed.

Lemma wp_readLoop turns h path pos f m (Q : option (bool * bytes) -> Machine -> Prop) :
  files m !! path = Some f -> (forall m', Near [] m m' -> Safe m') -> (pos <= length (content f))%nat ->
  (forall r refused pos', (forall out, r = Some (true, out) -> out = content f) ->
     (forall out, r = Some (false, out) -> refused = true) ->
     ((length (content f) - pos < turns)%nat -> r <> None) -> Q r (readOf refused (reading h path pos' m))) ->
  wpf (readLoop turns h (take pos (content f))) (reading h path pos m) Q.
Proof.
  intros Hf HS. revert pos. induction turns as [|turns IH]; intros pos Hp HQ; cbn [readLoop].
  - apply (HQ None false); [done | done | lia].
  - apply wp_safely; [apply HS, near_handles | eexists; apply lookup_insert_eq |]. intros [data|] Hr; cbn [after].
    2: { by apply (HQ _ true). }
    destruct (Hr data eq_refl) as (path' & pos' & f' & Hh & Hf' & Hd & _ & Hend). cbn in Hh, Hf'.
    rewrite lookup_insert_eq in Hh. injection Hh as <- <-. assert (f' = f) as -> by congruence. clear Hr Hf'.
    assert (E : setHandles (alter (prod_map id (Nat.add (length data))) h) (reading h path pos m) = reading h path (length data + pos) m).
    { unfold reading, setHandles. cbn. by rewrite alter_insert_eq. }
    rewrite E. clear E. destruct data as [|b data].
    + apply (HQ _ false); [| done | done]. intros out [= <-]. apply firstn_all2. by destruct (Hend eq_refl).
    + set (d := b :: data) in *.
      assert (Hl : (length d + pos <= length (content f))%nat).
      { apply (f_equal length) in Hd. rewrite length_take, length_drop in Hd. lia. }
      replace (take pos (content f) ++ d) with (take (length d + pos) (content f)) by (rewrite Hd at 2; rewrite take_take_drop; f_equal; lia).
      apply IH; [done |]. intros r refused posn H1 H2 H3. apply HQ; [done | done |]. intros Hn. apply H3. unfold d in *. cbn [length] in *. lia.
Qed.

Lemma wp_readAll turns path m (Q : option (option bytes) -> Machine -> Prop) :
  (forall m', Near [] m m' -> Safe m') ->
  (forall r refused, (forall text, r = Some (Some text) -> exists f, files m !! widen path = Some f /\ content f = text) ->
     ((forall f, files m !! widen path = Some f -> (length (content f) < turns)%nat) -> r <> None) ->
     (r = Some None -> refused = true \/ widen path = [] \/ files m !! widen path = None) -> Q r (readOf refused m)) ->
  wpf (readAll turns path) m Q.
Proof.
  intros HS HQ. unfold readAll. destruct (bool_decide_reflect (widen path = [])) as [E|Hne].
  { apply (HQ _ false); [done | done | intros _; right; by left]. }
  apply wp_safely; [apply HS, near_refl | done |]. intros [h|] Ho; cbn [after].
  2: { destruct (files m !! widen path) as [f|] eqn:E; [apply (HQ _ true) | apply (HQ _ false)]; try done; intros _; [by left | right; by right]. }
  destruct (Ho h eq_refl) as [Hh [f Hf]]. apply wps_bind.
  apply (wp_readLoop turns h (widen path) 0 f m); [done | done | lia |].
  intros r refused pos H1 H2 H3. apply wp_safely; [| destruct refused; eexists; apply lookup_insert_eq |].
  { apply HS. apply (near_trans _ _ (reading h (widen path) pos m)); [apply near_handles | apply near_readOf]. }
  intros ? _. cbn [after].
  replace (setHandles (delete h) (readOf refused (reading h (widen path) pos m))) with (readOf refused m).
  2: { rewrite <- (reading_closed h (widen path) pos m Hh) at 1. by destruct refused. }
  apply HQ.
  - intros text Ht. exists f. split; [done |]. destruct r as [[[|] out]|]; simplify_eq. symmetry. by apply H1.
  - intros Hlen. destruct r as [[]|]; [done |]. destruct (H3 ltac:(specialize (Hlen f Hf); lia) eq_refl).
  - intros E. left. destruct r as [[[|] out]|]; simplify_eq. by apply (H2 out).
Qed.

Lemma wp_remove path m (Q : bool -> Machine -> Prop) :
  Safe m ->
  (forall m', Near [widen path] m m' -> handles m' = handles m -> widen path <> [] -> files m' !! widen path = None ->
     refusals m' = refusals m -> Q true m') ->
  (forall m', Near [] m m' -> handles m' = handles m -> (widen path <> [] -> RDelete ∈ refusals m') -> Q false m') ->
  wpf (remove path) m Q.
Proof.
  intros HS HQ1 HQ0. unfold remove. destruct (bool_decide_reflect (widen path = [])) as [E|Hne]; [by apply HQ0; [auto with near | |] |].
  apply wp_safely; [done | done |]. intros [[|]|] Ha; cbn [after wps]; cbn in Ha.
  - apply HQ1; [| done | done | by apply lookup_delete_eq | done]. apply (near_setFiles _ (widen path)); [by left |].
    intros fs q Hq. by apply lookup_delete_ne.
  - apply HQ0; [auto with near | done | intros _; by left].
  - apply HQ1; auto with near.
Qed.
End Runs.

(** What is proved of every call holds of the machine at every point of a run. *)
Lemma legal_throughout Safe m0 (h : list (Event Reply)) :
  all_legal (legal Safe) after m0 h -> Safe (ledger after m0 h) -> forall k, Safe (ledger after m0 (take k h)).
Proof.
  revert m0. induction h as [|e h IH]; intros m0 Hl Hs k; [by rewrite take_nil |]. destruct Hl as [[He _] Hl].
  destruct k as [|k]; [done |]. cbn [firstn ledger]. by apply IH.
Qed.

Lemma wp_safe_run {A} Safe m0 oracle (p : M A) (Q : A -> Machine -> Prop) :
  honest answers after m0 oracle -> wps (legal Safe) answers after p m0 (λ a m, Q a m /\ Safe m) ->
  let '(a, h) := play oracle p [] in Q a (ledger after m0 h) /\ forall k, Safe (ledger after m0 (take k h)).
Proof.
  intros Ho Hp. pose proof (wps_play (legal Safe) answers after m0 oracle p [] _ Ho ltac:(done) Hp) as H.
  destruct (play oracle p []) as [a h]. destruct H as [[HQ Hs] [Hl _]]. split; [done |]. by apply legal_throughout.
Qed.

(** A machine on which everything works; files are read [chunk] bytes at a time. *)
Definition works (chunk : nat) (m0 : Machine) : Oracle Reply := λ h c,
  let m := ledger after m0 h in
  match c return Reply c with
  | CreateAlways _ => Some (fresh (dom (handles m)))
  | OpenExisting path => if bool_decide (is_Some (files m !! path)) then Some (fresh (dom (handles m))) else None
  | WriteFile _ data => (true, length data)
  | ReadFile h size =>
      match handles m !! h with
      | Some (path, pos) => (λ f, take (S chunk `min` size) (drop pos (content f))) <$> files m !! path
      | None => None
      end
  | MoveReplace from _ => bool_decide (is_Some (files m !! from))
  | DeleteFileW path => if bool_decide (is_Some (files m !! path)) then inl true else inr ()
  | FileExists path => bool_decide (is_Some (files m !! path))
  | RegOpenKey => Some (fresh (keys m))
  | RegQuerySize _ name => (λ v, (reg_type v, length (reg_data v))) <$> registry m !! name
  | RegQueryData _ name size => v ← registry m !! name; if bool_decide (length (reg_data v) <= size)%nat then Some v else None
  | FlushFileBuffers _ | RegSetValue _ _ _ | RegDeleteValue _ _ => true
  | CloseHandle _ | RegCloseKey _ | InternetSetOption => tt
  end.

Lemma fresh_handle (m : Machine) : handles m !! fresh (dom (handles m)) = None.
Proof. apply not_elem_of_dom, is_fresh. Qed.
Lemma works_honest chunk m0 : honest answers after m0 (works chunk m0).
Proof.
  intros h c _. set (m := ledger after m0 h). destruct c; cbn [works answers]; fold m; try done.
  - intros h' [= <-]. apply fresh_handle.
  - case_bool_decide as Hs; [| done]. intros h' [= <-]. split; [apply fresh_handle | done].
  - intros data E. destruct (handles m !! file) as [[path pos]|] eqn:Hh; [| done]. destruct (files m !! path) as [f|] eqn:Hf; [| done].
    assert (data = take (S chunk `min` size) (drop pos (content f))) as -> by (by injection E). clear E.
    assert (Hn : (S chunk `min` size <= size)%nat /\ (size <> 0 -> S chunk `min` size <> 0)%nat) by lia. revert Hn.
    generalize (S chunk `min` size)%nat. intros n Hn. exists path, pos, f. split; [done | split; [done |]]. split; [| split].
    + rewrite length_take. destruct (Nat.le_ge_cases n (length (drop pos (content f)))).
      * by rewrite Nat.min_l.
      * by rewrite Nat.min_r, firstn_all, firstn_all2.
    + rewrite length_take. lia.
    + intros E. apply (f_equal length) in E. rewrite length_take, length_drop in E. cbn [length] in E. lia.
  - apply bool_decide_eq_true_1.
  - case_bool_decide as Hs; [done |]. by apply eq_None_not_Some.
  - apply bool_decide_eq_true_1.
  - intros k [= <-]. apply is_fresh.
Qed.

(** ** Atomic replacement *)

(** The power fails: what was on the disk is there, what was not flushed may be anything. *)
Definition power_loss (m m' : Machine) : Prop :=
  forall p, match files m !! p with
  | Some f => synced f = true -> files m' !! p = Some f
  | None => files m' !! p = None
  end.

(** The file is what it was, or the new text, on the disk unless flushing it was refused. *)
Definition whole (target : wide) (text : bytes) (m0 m : Machine) : Prop :=
  files m !! target = files m0 !! target \/
  exists s, files m !! target = Some (mkFile text s) /\ (s = true \/ RFlush ∈ refusals m).

Section Atomic.
Context `{!CodePages} (path text : bytes) (m0 : Machine).
Hypothesis Hlen : zlen text < 2 ^ 32.
Notation target := (widen path).

(** How [writeAtomic] ends. *)
Definition replaced (ok : bool) (m : Machine) : Prop :=
  handles m = handles m0 /\ (forall q, q ∉ [target ++ dotTmp; target] -> files m !! q = files m0 !! q) /\
  if ok then exists s, files m !! target = Some (mkFile text s) /\ (s = true \/ RFlush ∈ refusals m)
  else files m !! target = files m0 !! target /\ (target = [] \/ unwritten m).

Lemma near_whole m : Near [target ++ dotTmp] m0 m -> whole target text m0 m.
Proof. intros [Hf _ _ _]. left. apply Hf. intros E%list_elem_of_singleton. by apply (dotTmp_ne target). Qed.

Lemma writeAtomic_ends : wps (legal (whole target text m0)) answers after (writeAtomic path text) m0
  (λ ok m, replaced ok m /\ whole target text m0 m).
Proof.
  apply wp_writeAtomic; [done | apply near_whole | intros m [_ Hm]; by right | |].
  - intros m [[Hf _ _ _] Hm] Hh. split; [by split | by right].
  - intros m N Hh Hfail. pose proof (near_whole m N) as Hw. split; [| done]. destruct N as [Hf _ _ _].
    split; [done | split; [intros q Hq; apply Hf; set_solver |]]. split.
    + apply Hf. intros E%list_elem_of_singleton. by apply (dotTmp_ne target).
    + destruct (decide (target = [])); [by left | right; auto].
Qed.

Lemma readAll_reads turns m oracle :
  honest answers after m oracle ->
  let '(r, h) := play oracle (readAll turns path) [] in
  ((forall f, files m !! target = Some f -> (length (content f) < turns)%nat) -> r <> None) /\
  forall t, r = Some (Some t) -> exists f, files m !! target = Some f /\ content f = t.
Proof.
  intros Ho. pose proof (wp_safe_run (λ _, True) m oracle (readAll turns path)
    (λ r m', ((forall f, files m !! target = Some f -> (length (content f) < turns)%nat) -> r <> None) /\
      forall t, r = Some (Some t) -> exists f, files m !! target = Some f /\ content f = t) Ho) as H0.
  destruct (play oracle (readAll turns path) []) as [r h]. apply H0. apply wp_readAll; [done |]. by intros r' refused H1 H2 _.
Qed.
End Atomic.

(** C32: [writeAtomic] replaces a file whole: at every point of a run the file is the old one
    or has the new text, it is the new one exactly when the call says so, other files are
    untouched and every handle is closed. Killed or without power at any point, the next
    [readAll], which always ends, gives the old text or the new one and nothing else,
    unless the system had refused to flush the file, which [writeAtomic] does not look at. *)
Theorem writeAtomic_atomic `{!CodePages} path text m0 oracle :
  zlen text < 2 ^ 32 -> honest answers after m0 oracle ->
  (forall f, files m0 !! widen path = Some f -> synced f = true) ->
  let '(ok, h) := play oracle (writeAtomic path text) [] in
  replaced path text m0 ok (ledger after m0 h) /\
  forall k, let m := ledger after m0 (take k h) in
  whole (widen path) text m0 m /\
  forall m' oracle' turns, power_loss m m' -> honest answers after m' oracle' ->
    (forall f, files m' !! widen path = Some f -> (length (content f) < turns)%nat) ->
    exists r, fst (play oracle' (readAll turns path) []) = Some r /\
    forall t, r = Some t -> RFlush ∈ refusals m \/ t = text \/ content <$> files m0 !! widen path = Some t.
Proof.
  intros Hlen Ho Hold. pose proof (wp_safe_run _ m0 oracle _ _ Ho (writeAtomic_ends path text m0 Hlen)) as Hrun.
  destruct (play oracle (writeAtomic path text) []) as [ok h]. destruct Hrun as [Hr Hw]. split; [done |].
  intros k m. specialize (Hw k). fold m in Hw. split; [done |]. intros m' oracle' turns Hp Ho' Hturns.
  pose proof (readAll_reads path turns m' oracle' Ho') as Hread. destruct (play oracle' (readAll turns path) []) as [r h'].
  destruct Hread as (Hdone & Hread). destruct r as [r|]; [| by destruct (Hdone Hturns)]. exists r. split; [done |].
  intros t ->. destruct (Hread t eq_refl) as (f & Hf & Ht). specialize (Hp (widen path)). destruct Hw as [E|(s & E & Hs)]; rewrite E in Hp.
  - destruct (files m0 !! widen path) as [f0|] eqn:E0; [| congruence]. specialize (Hp (Hold _ eq_refl)).
    right. right. cbn. congruence.
  - destruct Hs as [->|Hs]; [| by left]. specialize (Hp eq_refl). right. left. rewrite Hp in Hf. by injection Hf as <-.
Qed.

(** The bytes of the path are its characters. *)
Definition latin : CodePages := {| MultiByteToWideChar _ p := Some p; WideCharToMultiByte := Some |}.

Lemma writeAtomic_atomic_witness :
  let m0 := mkMachine {[ str "a" := mkFile (str "old") true ]} ∅ ∅ ∅ [] in
  exists ok h, @play _ _ bool (works 1 m0) (@writeAtomic latin (str "a") (str "new")) [] = (ok, h) /\
  ok = true /\ length h = 5%nat /\ @replaced latin (str "a") (str "new") m0 ok (ledger after m0 h) /\
  whole (str "a") (str "new") m0 (ledger after m0 (take 3 h)) /\
  fst (@play _ _ _ (works 1 m0) (@readAll latin 9 (str "a")) []) = Some (Some (str "old")).
Proof.
  intros m0. pose proof (@writeAtomic_atomic latin (str "a") (str "new") m0 (works 1 m0) ltac:(reflexivity) (works_honest 1 m0)
    ltac:(intros f; cbn; by intros [= <-])) as Hw.
  destruct (play _ _ _) as [ok h] eqn:E. exists ok, h. destruct Hw as [Hr Hw].
  assert (Hv : ok = true /\ length h = 5%nat) by (vm_compute in E; injection E as <- <-; by split).
  destruct Hv as [Hv1 Hv2]. split; [done |]. split; [done |]. split; [done |]. split; [done |].
  split; [apply (Hw 3%nat) | by vm_compute].
Defined.
