(* ===== verification/SystemProxy.v ===== *)
(** * SystemProxy: the proxy settings of Windows

    Models [src/src/SystemProxy.hpp] and [src/src/SystemProxy.cpp]: the settings the user
    had are written to a file before they are replaced, and put back from memory
    ([disable]) or from the file after a crash ([restoreLeftovers]). The registry and the
    files are those of [Files]. *)

From S2P Require Import Prelude Calls Json JsonText Files.

Definition kBypassList : bytes := str "localhost;127.0.0.1;<local>".

(** [ourProxyValue] *)
Definition ourProxyValue (port : Z) : bytes := str "https=127.0.0.1:" ++ to_string port.

(** [pointsAtUs] *)
Definition pointsAtUs (value : bytes) (port : Z) : bool :=
  bool_decide (value = ourProxyValue port) || bool_decide (value = str "127.0.0.1:" ++ to_string port).

(** [while (!value.empty() && value.back() == '\0') value.pop_back();] on the reversed text *)
Fixpoint dropZeros (value : bytes) : bytes :=
  match value with
  | c :: rest => if c =? 0 then dropZeros rest else value
  | [] => []
  end.
Definition stripZeros (value : bytes) : bytes := reverse (dropZeros (reverse value)).

(** A [DWORD] in memory, and the one whose low bytes were filled. *)
Definition le32 (v : Z) : bytes := [w8 v; w8 (Z.shiftr v 8); w8 (Z.shiftr v 16); w8 (Z.shiftr v 24)].
Fixpoint le_value (data : bytes) : Z :=
  match data with
  | [] => 0
  | b :: data => b + 256 * le_value data
  end.

Definition isText (type : Z) : bool := (type =? REG_SZ) || (type =? REG_EXPAND_SZ).

(** [regGetString] *)
Definition regGetString (key : Z) (name : RegName) : M bytes :=
  info ← do (RegQuerySize key name);
  match (info : option (Z * nat)) with
  | None => mret []
  | Some (type, size) =>
      if negb (isText type) then mret [] else
      value ← do (RegQueryData key name size);
      mret (match (value : option RegValue) with None => [] | Some v => stripZeros (reg_data v) end)
  end.

(** [regGetDword] *)
Definition regGetDword (key : Z) (name : RegName) : M Z :=
  value ← do (RegQueryData key name 4);
  mret (match (value : option RegValue) with
        | Some v => if reg_type v =? REG_DWORD then le_value (reg_data v) else 0
        | None => 0
        end).

(** [regSetOrDelete] *)
Definition regSetOrDelete (key : Z) (name : RegName) (value : bytes) : M unit :=
  if bool_decide (value = []) then _ ← do (RegDeleteValue key name); mret ()
  else _ ← do (RegSetValue key name (mkRegValue REG_SZ (value ++ [0]))); mret ().

Record Snapshot := mkSnapshot { enabled : Z; server : bytes; bypass : bytes; ourPort : Z }.
Definition noSnapshot : Snapshot := mkSnapshot 0 [] [] 0.

(** The static members. *)
Record SystemProxy := mkSystemProxy { saved_ : bool; snapshot_ : Snapshot; backupPath_ : bytes }.
Definition fresh_start : SystemProxy := mkSystemProxy false noSnapshot [].

Definition notifySystem : M unit := _ ← do InternetSetOption; _ ← do InternetSetOption; mret ().

(** [readCurrent] *)
Definition readCurrent : M (option Snapshot) :=
  key ← do RegOpenKey;
  match (key : option Z) with
  | None => mret None
  | Some key =>
      e ← regGetDword key ProxyEnable;
      s ← regGetString key ProxyServer;
      b ← regGetString key ProxyOverride;
      _ ← do (RegCloseKey key);
      mret (Some (mkSnapshot e s b 0))
  end.

(** [applySnapshot] *)
Definition applySnapshot (s : Snapshot) : M bool :=
  key ← do RegOpenKey;
  match (key : option Z) with
  | None => mret false
  | Some key =>
      enableWritten ← do (RegSetValue key ProxyEnable (mkRegValue REG_DWORD (le32 (enabled s))));
      _ ← regSetOrDelete key ProxyServer (server s);
      _ ← regSetOrDelete key ProxyOverride (bypass s);
      _ ← do (RegCloseKey key);
      _ ← notifySystem;
      mret enableWritten
  end.

(** The text [writeBackup] writes. *)
Definition backupText (s : Snapshot) : bytes :=
  document [(str "version", str "1"); (str "our_port", to_string (ourPort s)); (str "proxy_enable", to_string (enabled s));
            (str "proxy_server", quoted (escape (server s))); (str "proxy_override", quoted (escape (bypass s)))].

Section Functions.
Context `{!CodePages}.

Definition writeBackup (path : bytes) (s : Snapshot) : M bool :=
  if bool_decide (path = []) then mret false else writeAtomic path (backupText s).

(** The snapshot a backup's text gives. *)
Definition parseBackup (text : bytes) : Snapshot :=
  mkSnapshot (w32 (getInt text (str "proxy_enable") 0)) (getString text (str "proxy_server") 0)
    (getString text (str "proxy_override") 0) (w16 (getInt text (str "our_port") 0)).

(** [readBackup]; the outer [None]: [readAll] used its turns up. *)
Definition readBackup (turns : nat) (path : bytes) : M (option (option Snapshot)) :=
  if bool_decide (path = []) then mret (Some None) else
  read ← readAll turns path;
  mret (match read with
        | None => None
        | Some None => Some None
        | Some (Some text) => Some (if bool_decide (text = []) then None else Some (parseBackup text))
        end).

(** [enable] *)
Definition enable (p : SystemProxy) (port : Z) (backupPath : bytes) : M (bool * SystemProxy) :=
  current ← readCurrent;
  match current with
  | None => mret (false, p)
  | Some current =>
      p ← (if (enabled current =? 1) && pointsAtUs (server current) port then mret p
           else if negb (saved_ p) then
             let s := mkSnapshot (enabled current) (server current) (bypass current) port in
             _ ← writeBackup backupPath s;
             mret (mkSystemProxy true s backupPath)
           else mret p);
      applied ← applySnapshot (mkSnapshot 1 (ourProxyValue port) kBypassList 0);
      mret (applied, p)
  end.

(** [disable] *)
Definition disable (p : SystemProxy) : M (bool * SystemProxy) :=
  if negb (saved_ p) then mret (true, p) else
  restored ← applySnapshot (snapshot_ p);
  if negb restored then mret (false, p) else
  _ ← remove (backupPath_ p);
  mret (true, mkSystemProxy false (snapshot_ p) []).

(** [isOurs] *)
Definition isOurs (port : Z) : M bool :=
  current ← readCurrent;
  mret (match current with
        | None => false
        | Some current => (enabled current =? 1) && pointsAtUs (server current) port
        end).

(** [restoreLeftovers]; [None]: [readAll] used its turns up. *)
Definition restoreLeftovers (turns : nat) (backupPath : bytes) (force : bool) : M (option bool) :=
  backup ← readBackup turns backupPath;
  match backup with
  | None => mret None
  | Some None => mret (Some false)
  | Some (Some backup) =>
      ours ← (if force then mret true else isOurs (ourPort backup));
      if negb ours then mret (Some false) else
      restored ← applySnapshot backup;
      _ ← (if (restored : bool) then remove backupPath else mret true);
      mret (Some restored)
  end.
End Functions.

(** ** The settings *)

(** What [readCurrent] makes of the registry. *)
Definition textValue (v : option RegValue) : bytes :=
  match v with Some v => if isText (reg_type v) then stripZeros (reg_data v) else [] | None => [] end.
Definition dwordValue (v : option RegValue) : Z :=
  match v with
  | Some v => if bool_decide (length (reg_data v) <= 4)%nat && (reg_type v =? REG_DWORD) then le_value (reg_data v) else 0
  | None => 0
  end.
Definition settings (m : Machine) : Snapshot :=
  mkSnapshot (dwordValue (registry m !! ProxyEnable)) (textValue (registry m !! ProxyServer))
    (textValue (registry m !! ProxyOverride)) 0.

Definition withPort (port : Z) (s : Snapshot) : Snapshot := mkSnapshot (enabled s) (server s) (bypass s) port.

(** A snapshot that the registry and the file can hold. *)
Record storable (s : Snapshot) : Prop := {
  st_enabled : 0 <= enabled s < 2 ^ 32;
  st_server : all_bytes (server s) /\ stripZeros (server s) = server s;
  st_bypass : all_bytes (bypass s) /\ stripZeros (bypass s) = bypass s;
  st_port : 0 <= ourPort s < 2 ^ 16;
}.

Lemma backup_ok s : storable s -> document_ok
  [(str "version", str "1"); (str "our_port", to_string (ourPort s)); (str "proxy_enable", to_string (enabled s));
   (str "proxy_server", quoted (escape (server s))); (str "proxy_override", quoted (escape (bypass s)))].
Proof.
  intros [He [Hs _] [Hb _] Hp]. split.
  - apply (bool_decide_eq_true_1 (NoDup _)). reflexivity.
  - repeat (apply Forall_cons; split; [split; [by apply plain_ok |] |]); try (by constructor); cbn [snd];
      first [by apply settled_string | by apply settled_number; lia | by apply (settled_number 1)].
Qed.

(** The backup gives the snapshot back. *)
Lemma backup_roundtrip s : storable s -> parseBackup (backupText s) = s.
Proof.
  intros Hs. pose proof (backup_ok s Hs) as Hok. destruct Hs as [He [Hs _] [Hb _] Hp]. unfold parseBackup, backupText.
  rewrite (document_int _ Hok _ (enabled s)); [| lia | by apply (list_elem_of_lookup_2 _ 2%nat)].
  rewrite (document_int _ Hok _ (ourPort s)); [| lia | by apply (list_elem_of_lookup_2 _ 1%nat)].
  rewrite (document_string _ Hok _ (server s)); [| done | by apply (list_elem_of_lookup_2 _ 3%nat)].
  rewrite (document_string _ Hok _ (bypass s)); [| done | by apply (list_elem_of_lookup_2 _ 4%nat)].
  rewrite w32_small, w16_small by lia. by destruct s.
Qed.

Lemma stripZeros_snoc t : stripZeros (t ++ [0]) = stripZeros t.
Proof. unfold stripZeros. by rewrite reverse_app. Qed.
Lemma dropZeros_twice t : dropZeros (dropZeros t) = dropZeros t.
Proof. induction t as [|c t IH]; [done |]. cbn. destruct (c =? 0) eqn:E; [done |]. cbn. by rewrite E. Qed.
Lemma stripZeros_twice t : stripZeros (stripZeros t) = stripZeros t.
Proof. unfold stripZeros. by rewrite reverse_involutive, dropZeros_twice. Qed.
Lemma dropZeros_bytes t : all_bytes t -> all_bytes (dropZeros t).
Proof. unfold all_bytes. induction t as [|c t IH]; intros Ht; cbn; [done |]. destruct (c =? 0); [apply IH; by inversion Ht | done]. Qed.
Lemma stripZeros_bytes t : all_bytes t -> all_bytes (stripZeros t).
Proof. intros Ht. unfold stripZeros. apply Forall_reverse, dropZeros_bytes, Forall_reverse, Ht. Qed.
Lemma dropZeros_none t : Forall (λ c, c <> 0) t -> dropZeros t = t.
Proof. intros [|c l Hc _]; [done |]. cbn. by apply Z.eqb_neq in Hc as ->. Qed.
Lemma stripZeros_none t : Forall (λ c, c <> 0) t -> stripZeros t = t.
Proof. intros Ht. unfold stripZeros. rewrite dropZeros_none; [apply reverse_involutive | by apply Forall_reverse]. Qed.
Lemma le_value_le32 v : le_value (le32 v) = w32 v.
Proof.
  unfold le32, le_value, w8, w32. rewrite !Z.shiftr_div_pow2 by lia.
  change (2 ^ 8) with 256. change (2 ^ 16) with 65536. change (2 ^ 24) with 16777216. change (2 ^ 32) with 4294967296.
  Z.to_euclidean_division_equations. lia.
Qed.
Lemma le_value_range d : all_bytes d -> 0 <= le_value d < 2 ^ (8 * zlen d).
Proof.
  intros Hd. induction Hd as [|b d Hb Hd IH]; [done |]. cbn [le_value]. rewrite zlen_cons.
  replace (8 * (1 + zlen d)) with (8 + 8 * zlen d) by lia. pose proof (zlen_nonneg d). rewrite Z.pow_add_r by lia.
  change (2 ^ 8) with 256. unfold is_byte in Hb. lia.
Qed.

(** The settings of a registry of bytes can be stored. *)
Lemma settings_storable m port :
  map_Forall (λ _ v, all_bytes (reg_data v)) (registry m) -> 0 <= port < 2 ^ 16 -> storable (withPort port (settings m)).
Proof.
  intros Hr Hp.
  assert (Ht : forall name, all_bytes (textValue (registry m !! name)) /\ stripZeros (textValue (registry m !! name)) = textValue (registry m !! name)).
  { intros name. unfold textValue. destruct (registry m !! name) as [v|] eqn:E; [| by split; [constructor |]].
    case_match; [| by split; [constructor |]]. split; [apply stripZeros_bytes, (Hr _ _ E) | apply stripZeros_twice]. }
  split; cbn; [| apply Ht | apply Ht | done]. unfold dwordValue. destruct (registry m !! ProxyEnable) as [v|] eqn:E; [| lia].
  case_match eqn:Eb; [| lia]. apply andb_true_iff in Eb as [Hl%bool_decide_eq_true _].
  pose proof (le_value_range _ (Hr _ _ E)) as [H0 H1]. split; [done |]. eapply Z.lt_le_trans; [exact H1 |].
  apply Z.pow_le_mono_r; [lia |]. unfold zlen. lia.
Qed.

(** ** Runs *)

(** Only the registry and its keys have changed. *)
Record Regs (m m' : Machine) : Prop := {
  regs_files : files m' = files m;
  regs_handles : handles m' = handles m;
  regs_refusals : forall r, r ∈ refusals m -> r ∈ refusals m';
}.
Lemma regs_refl m : Regs m m.
Proof. by split. Qed.
Lemma regs_trans m m' m'' : Regs m m' -> Regs m' m'' -> Regs m m''.
Proof. intros [H1 H2 H3] [H1' H2' H3']. split; [congruence | congruence | auto]. Qed.
Lemma regs_keys f m : Regs m (setKeys f m).
Proof. by split. Qed.
Lemma regs_set f m : Regs m (setRegistry f m).
Proof. by split. Qed.
Lemma regs_refuse r m : Regs m (refuse r m).
Proof. split; try done. intros x Hx. by right. Qed.
#[export] Hint Resolve regs_refl regs_keys regs_set regs_refuse : near.

Definition opened (k : Z) (m : Machine) : Machine := setKeys (λ s, {[k]} ∪ s) m.
Lemma opened_closed k m : k ∉ keys m -> setKeys (λ s, s ∖ {[k]}) (opened k m) = m.
Proof. intros Hk. destruct m. unfold opened, setKeys. cbn in *. f_equal. set_solver. Qed.

(** A refusal this code does not look at: the backup is not on the disk, or a value other
    than the first one was not written. *)
Definition lossy (m : Machine) : Prop :=
  exists r, r ∈ [RCreate; RWrite; RFlush; RMove; RValue ProxyServer; RValue ProxyOverride] /\ r ∈ refusals m.
Lemma lossy_mono m m' : (forall r, r ∈ refusals m -> r ∈ refusals m') -> lossy m -> lossy m'.
Proof. intros Hm (r & Hr & Hin). exists r. auto. Qed.
Lemma lossy_failed m : lossy m -> failed m = true.
Proof. intros (r & _ & Hr). by apply (refusal_failed r). Qed.
Lemma failed_mono m m' : (forall r, r ∈ refusals m -> r ∈ refusals m') -> failed m = true -> failed m' = true.
Proof.
  intros Hm Hf. unfold failed in Hf. destruct (refusals m) as [|r l] eqn:E; [done |]. apply (refusal_failed r), Hm. by left.
Qed.

Section Runs.
Variable Safe : Machine -> Prop.
Notation wpf := (wps (legal Safe) answers after).

Lemma wp_regGetString k name m (Q : bytes -> Machine -> Prop) :
  Safe m -> k ∈ keys m -> Q (textValue (registry m !! name)) m -> wpf (regGetString k name) m Q.
Proof.
  intros HS Hk HQ. unfold regGetString. apply wp_safely; [done | done |]. intros r Hr. cbn in Hr. cbn [after].
  unfold textValue in HQ. destruct (registry m !! name) as [v|] eqn:E; cbn in Hr; subst r; [| done].
  destruct (isText (reg_type v)) eqn:Et; cbn [negb]; [| done].
  apply wp_safely; [done | done |]. intros r Hr. cbn in Hr. rewrite E in Hr. cbn in Hr. rewrite bool_decide_true in Hr by lia. by subst r.
Qed.
Lemma wp_regGetDword k name m (Q : Z -> Machine -> Prop) :
  Safe m -> k ∈ keys m -> Q (dwordValue (registry m !! name)) m -> wpf (regGetDword k name) m Q.
Proof.
  intros HS Hk HQ. unfold regGetDword. apply wp_safely; [done | done |]. intros r Hr. cbn in Hr. cbn [after].
  unfold dwordValue in HQ. destruct (registry m !! name) as [v|] eqn:E; cbn in Hr; [| by subst r].
  case_bool_decide; cbn [andb] in HQ; subst r; done.
Qed.

Lemma wp_readCurrent m (Q : option Snapshot -> Machine -> Prop) :
  (forall m', Regs m m' -> registry m' = registry m -> Safe m') ->
  Q (Some (settings m)) m -> Q None (refuse ROpenKey m) -> wpf readCurrent m Q.
Proof.
  intros HS HQ1 HQ0. unfold readCurrent. apply wp_safely; [by apply HS; auto with near | done |]. intros [k|] Hk; cbn [after]; [| done].
  specialize (Hk k eq_refl). fold (opened k m).
  assert (HS1 : Safe (opened k m)) by (apply HS; [apply regs_keys | done]).
  assert (Hin : k ∈ keys (opened k m)) by (cbn; set_solver).
  apply wps_bind, wp_regGetDword; [done | done |]. apply wps_bind, wp_regGetString; [done | done |].
  apply wps_bind, wp_regGetString; [done | done |]. apply wp_safely; [done | done |]. intros ? _. cbn [after].
  by rewrite opened_closed.
Qed.

(** Setting or deleting one value: it is refused, or the value is what was asked. *)
Lemma wp_regSetOrDelete k name value m (Q : unit -> Machine -> Prop) :
  name ∈ [ProxyServer; ProxyOverride] -> Safe m -> k ∈ keys m -> stripZeros value = value ->
  (forall m', Regs m m' -> keys m' = keys m -> lossy m' -> Q tt m') ->
  (forall v, textValue v = value -> Q tt (setRegistry (partial_alter (λ _, v) name) m)) ->
  wpf (regSetOrDelete k name value) m Q.
Proof.
  intros Hn HS Hk Hz HQ0 HQ1. unfold regSetOrDelete.
  assert (Hloss : lossy (refuse (RValue name) m)) by (exists (RValue name); split; [set_solver | by left]).
  case_bool_decide as E.
  - apply wp_safely; [done | done |]. intros [|] _; cbn [after].
    + apply (HQ1 None). by rewrite E.
    + apply HQ0; auto with near.
  - apply wp_safely; [done | done |]. intros [|] _; cbn [after].
    + apply (HQ1 (Some (mkRegValue REG_SZ (value ++ [0])))). transitivity (stripZeros (value ++ [0])); [reflexivity |]. by rewrite stripZeros_snoc.
    + apply HQ0; auto with near.
Qed.

(** What [applySnapshot] leaves when it says that the first value was written: all are,
    unless another one was refused. *)
Definition applied (s : Snapshot) (m : Machine) : Prop := lossy m \/ settings m = withPort 0 s.

Lemma wpf_finish k ok m0 m s (Q : bool -> Machine -> Prop) :
  (forall m', Regs m0 m' -> Safe m') -> k ∉ keys m0 -> Regs m0 m -> keys m = {[k]} ∪ keys m0 -> (ok = true -> applied s m) ->
  (ok = false -> failed m = true) ->
  (forall b m', Regs m0 m' -> keys m' = keys m0 -> (b = true -> applied s m') -> (b = false -> failed m' = true) -> Q b m') ->
  wpf (_ ← do (RegCloseKey k); _ ← notifySystem; mret ok) m Q.
Proof.
  intros HS Hk N Hkeys Ha Hok HQ. apply wp_safely; [by apply HS | cbn; rewrite Hkeys; set_solver |]. intros ? _. cbn [after].
  set (m1 := setKeys _ m). assert (N1 : Regs m0 m1) by (apply (regs_trans _ m); [done | apply regs_keys]).
  apply wps_bind. unfold notifySystem. apply wp_safely; [by apply HS | done |]. intros ? _. apply wp_safely; [by apply HS | done |].
  intros ? _. cbn [after wps mret]. apply HQ; [done | cbn; rewrite Hkeys; set_solver | done | done].
Qed.

(** One more value is as asked, and those before it still are. *)
Lemma wp_value k name value m0 m (done_ : gmap RegName RegValue -> Prop) (Q : unit -> Machine -> Prop) :
  name ∈ [ProxyServer; ProxyOverride] ->
  (forall m', Regs m0 m' -> Safe m') -> k ∈ keys m -> Regs m0 m -> stripZeros value = value ->
  lossy m \/ done_ (registry m) ->
  (forall r v, done_ r -> done_ (partial_alter (λ _, v) name r)) ->
  (forall m', Regs m m' -> keys m' = keys m ->
     lossy m' \/ done_ (registry m') /\ textValue (registry m' !! name) = value -> Q tt m') ->
  wpf (regSetOrDelete k name value) m Q.
Proof.
  intros Hn HS Hk N Hz Hd Hkeep HQ. apply wp_regSetOrDelete; [done | by apply HS | done | done | |].
  - intros m' N' Hk' Hf. apply HQ; [done | done | by left].
  - intros v Hv. apply HQ; [apply regs_set | done |].
    destruct Hd as [Hf|Hd]; [by left |]. right. cbn. split; [by apply Hkeep |]. by rewrite lookup_partial_alter_eq.
Qed.

Lemma wp_applySnapshot s m (Q : bool -> Machine -> Prop) :
  storable s -> (forall m', Regs m m' -> Safe m') ->
  (forall b m', Regs m m' -> keys m' = keys m -> (b = true -> applied s m') -> (b = false -> failed m' = true) -> Q b m') ->
  wpf (applySnapshot s) m Q.
Proof.
  intros [He [_ Hsv] [_ Hby] _] HS HQ. unfold applySnapshot.
  apply wp_safely; [by apply HS, regs_refl | done |]. intros [k|] Hk; cbn [after].
  2: { apply HQ; auto with near; done. }
  specialize (Hk k eq_refl). fold (opened k m). assert (Hin : k ∈ keys (opened k m)) by (cbn; set_solver).
  apply wp_safely; [apply HS, regs_keys | done |]. intros ok _. cbn [after]. set (m1 := if ok then _ else _).
  assert (N1 : Regs m m1) by (apply (regs_trans _ (opened k m)); [apply regs_keys | unfold m1; destruct ok; auto with near]).
  assert (K1 : keys m1 = {[k]} ∪ keys m) by by destruct ok.
  assert (F1 : ok = false -> failed m1 = true) by (unfold m1; by intros ->).
  set (first := λ r : gmap RegName RegValue, ok = true -> dwordValue (r !! ProxyEnable) = enabled s).
  assert (D1 : first (registry m1)).
  { unfold first, m1. intros ->. cbn [registry setRegistry opened setKeys]. rewrite lookup_insert_eq.
    transitivity (le_value (le32 (enabled s))); [reflexivity |]. rewrite le_value_le32. by apply w32_small. }
  clearbody m1. apply wps_bind.
  apply (wp_value k _ _ m m1 first); [set_solver | done | set_solver | done | done | by right | |].
  { intros r v Hr. unfold first. by rewrite lookup_partial_alter_ne. }
  intros m2 N2 K2 D2. apply wps_bind.
  apply (wp_value k _ _ m m2 (λ r, first r /\ textValue (r !! ProxyServer) = server s));
    [set_solver | done | set_solver | by apply (regs_trans _ m1) | done | done | |].
  { intros r v [Hr1 Hr2]. unfold first. by rewrite !lookup_partial_alter_ne. }
  intros m3 N3 K3 D3. assert (N13 : Regs m1 m3) by by apply (regs_trans _ m2).
  apply (wpf_finish k ok m m3 s); [done | done | by apply (regs_trans _ m1) | by rewrite K3, K2 | | | done].
  - intros Hok. destruct D3 as [D3|[[D3 D4] D5]]; [by left | right]. unfold settings, withPort. by rewrite (D3 Hok), D4, D5.
  - intros Hok. apply (failed_mono m1); [apply N13 | auto].
Qed.
End Runs.

(** ** What is never lost *)

(** The registry points at this program. *)
Definition pointing (port : Z) (s : Snapshot) : bool := (enabled s =? 1) && pointsAtUs (server s) port.

Section Recovery.
(** The settings at the start, and the file an earlier run may have left. *)
Context `{!CodePages} (path : bytes) (port : Z) (U : Snapshot) (old : option File).
Hypothesis Hpath : widen path <> [].
Hypothesis HU : storable (withPort port U).
Hypothesis HU0 : ourPort U = 0.
Hypothesis Hlen : zlen (backupText (withPort port U)) < 2 ^ 32.
Hypothesis Hnot : pointing port U = false.
Notation target := (widen path).
Notation backup := (mkFile (backupText (withPort port U)) true).

(** The settings [U] are in the registry, or whole in the backup on the disk. *)
Definition kept (m : Machine) : Prop :=
  lossy m \/ (settings m = U /\ (files m !! target = old \/ files m !! target = None)) \/ files m !! target = Some backup.
(** They are on the disk. *)
Definition onDisk (m : Machine) : Prop := lossy m \/ files m !! target = Some backup.
(** They are back. *)
Definition restored (m : Machine) : Prop :=
  (lossy m \/ settings m = U) /\ (failed m = false -> files m !! target = None).

Notation wpk := (wps (legal kept) answers after).

Lemma onDisk_kept m : onDisk m -> kept m.
Proof. intros [Hf|Hf]; [by left | right; by right]. Qed.
Lemma onDisk_regs m m' : onDisk m -> Regs m m' -> onDisk m'.
Proof. intros [Hf|Hf] [H1 _ H3]; [left; by apply (lossy_mono m) | right; by rewrite H1]. Qed.
Lemma settings_eq m m' : registry m' = registry m -> settings m' = settings m.
Proof. intros E. unfold settings. by rewrite E. Qed.
Lemma kept_same m m' : kept m -> files m' !! target = files m !! target -> registry m' = registry m ->
  (forall r, r ∈ refusals m -> r ∈ refusals m') -> kept m'.
Proof.
  intros [Hf|[[Hs Hf]|Hf]] E1 E2 E3; [left; by apply (lossy_mono m) | right; left | right; right; congruence].
  by rewrite E1, (settings_eq m).
Qed.
Lemma path_ne : path <> [].
Proof. intros ->. by apply Hpath. Qed.
Lemma applied_U m : applied (withPort port U) m -> lossy m \/ settings m = U.
Proof. intros [Hf|Hs]; [by left | right]. rewrite Hs. clear -HU0. destruct U. cbn in *. by subst. Qed.
Lemma temp_target : target ∉ [target ++ dotTmp].
Proof. intros E%list_elem_of_singleton. by apply (dotTmp_ne target). Qed.
Lemma unwritten_lossy m : unwritten m -> lossy m.
Proof. intros (r & Hr & Hin). exists r. split; [set_solver | done]. Qed.
Lemma flush_lossy m : RFlush ∈ refusals m -> lossy m.
Proof. intros Hr. exists RFlush. split; [set_solver | done]. Qed.

(** The settings of this program can be stored, and point at it. *)
Lemma ours_storable : storable (mkSnapshot 1 (ourProxyValue port) kBypassList 0).
Proof.
  destruct HU as [_ _ _ Hp]. cbn in Hp.
  assert (Ho : Forall (λ c, is_byte c /\ c <> 0) (ourProxyValue port)).
  { apply Forall_app. split; [by apply (bool_decide_eq_true_1 (Forall _ _)); vm_compute |].
    destruct (to_string_spec port ltac:(lia)) as (Hd & _ & _). eapply Forall_impl; [exact Hd |].
    intros c Hc. unfold isdigit, is_byte in *. lia. }
  apply Forall_and in Ho as [Ho1 Ho2].
  split; cbn [enabled server bypass ourPort]; [lia | split; [done | by apply stripZeros_none] | by split; [apply all_bytes_check |] | lia].
Qed.
Lemma ours_pointing bypass p : pointing port (mkSnapshot 1 (ourProxyValue port) bypass p) = true.
Proof. unfold pointing, pointsAtUs. cbn [enabled server]. by rewrite bool_decide_true. Qed.

(** [enable] on settings that are the user's. *)
Definition enabled_well (r : bool * SystemProxy) (m : Machine) : Prop :=
  (r.1 = true -> lossy m \/ pointing port (settings m) = true) /\ (r.1 = false -> failed m = true).

Lemma wp_enable m (Q : bool * SystemProxy -> Machine -> Prop) :
  settings m = U -> files m !! target = old ->
  Q (false, fresh_start) (refuse ROpenKey m) ->
  (forall b m', onDisk m' -> handles m' = handles m ->
     enabled_well (b, mkSystemProxy true (withPort port U) path) m' -> Q (b, mkSystemProxy true (withPort port U) path) m') ->
  wpk (enable fresh_start port path) m Q.
Proof.
  intros Hset Hf0 HQ0 HQ1. assert (Hk : kept m) by (right; left; by split; [| left]).
  unfold enable. apply wps_bind, wp_readCurrent.
  { intros m' [H1 H2 H3] H4. apply (kept_same m); [done | by rewrite H1 | done | done]. }
  2: { exact HQ0. }
  rewrite Hset. fold (pointing port U). rewrite Hnot. cbn [saved_ fresh_start negb]. fold (withPort port U). apply wps_bind, wps_bind.
  unfold writeBackup. rewrite bool_decide_false by apply path_ne.
  assert (Hpost : forall m1, onDisk m1 -> handles m1 = handles m -> wpk (applied ← applySnapshot (mkSnapshot 1 (ourProxyValue port) kBypassList 0);
      mret (applied, mkSystemProxy true (withPort port U) path)) m1 Q).
  { intros m1 Hd H1. apply wps_bind, wp_applySnapshot; [apply ours_storable | |].
    - intros m' N. by apply onDisk_kept, (onDisk_regs m1).
    - intros b m' N _ Ha Hb. apply HQ1; [by apply (onDisk_regs m1) | rewrite <- H1; apply N |]. split; [| done].
      intros Hb'. destruct (Ha Hb') as [Hl|Hs]; [by left | right]. rewrite Hs. apply ours_pointing. }
  apply wp_writeAtomic; [done | | | |].
  - intros m' [Hf _ Hr Hfail]. apply (kept_same m); [done | apply Hf, temp_target | done | done].
  - intros m' [_ (s & Hf & [-> |Hs])]; [right; by right | left; by apply flush_lossy].
  - intros m' [_ (s & Hf & Hs)] Hh. apply Hpost; [| done]. destruct Hs as [-> |Hs]; [by right | left; by apply flush_lossy].
  - intros m' _ Hh Hfail. apply Hpost; [left; by apply unwritten_lossy, Hfail | done].
Qed.

(** [remove] once the settings are back. *)
Lemma wp_cleared {A} (k : bool -> M A) m (Q : A -> Machine -> Prop) :
  kept m -> lossy m \/ settings m = U ->
  (forall b m', kept m' -> handles m' = handles m -> (forall r, r ∈ refusals m -> r ∈ refusals m') -> restored m' -> wpk (k b) m' Q) ->
  wpk (remove path ≫= k) m Q.
Proof.
  intros Hk Hs HQ. apply wps_bind, wp_remove; [done | |].
  - intros m' [_ _ Hr Hf] Hh _ Hnone _.
    assert (Hend : lossy m' \/ settings m' = U) by (rewrite (settings_eq m m' Hr); destruct Hs; [left; by apply (lossy_mono m) | by right]).
    apply HQ; [| done | done | by split]. destruct Hend; [by left | right; left; by split; [| right]].
  - intros m' [Hf _ Hr Hm] Hh Hd. specialize (Hd Hpath). apply HQ; [| done | done |].
    + apply (kept_same m); [done | apply Hf; set_solver | done | done].
    + split; [| rewrite (refusal_failed _ _ Hd); congruence]. rewrite (settings_eq m m' Hr). destruct Hs; [left; by apply (lossy_mono m) | by right].
Qed.

(** A restoration that says it succeeded did; one that does not was refused a change. *)
Definition ends_well (b : bool) (m : Machine) : Prop := if b then restored m else failed m = true.

Lemma wp_disable m (Q : bool * SystemProxy -> Machine -> Prop) :
  onDisk m ->
  (forall b p' m', kept m' -> handles m' = handles m -> ends_well b m' -> Q (b, p') m') ->
  wpk (disable (mkSystemProxy true (withPort port U) path)) m Q.
Proof.
  intros Hd HQ. unfold disable. cbn [saved_ snapshot_ backupPath_ negb].
  apply wps_bind, wp_applySnapshot; [done | intros m' N; by apply onDisk_kept, (onDisk_regs m) |].
  intros b m1 N _ Ha Hb. pose proof (onDisk_kept _ (onDisk_regs _ _ Hd N)) as K1.
  destruct b; cbn [negb]; [| by apply HQ; [| apply N | apply Hb]]. apply wp_cleared; [done | by apply applied_U, Ha |].
  intros ? m' K' H' _ Hend. apply HQ; [done | rewrite H'; apply N | done].
Qed.

(** The settings are to be put back: the registry points at this program, or it was asked for. *)
Definition due (force : bool) (m : Machine) : Prop :=
  pointing port (settings m) = true \/ force = true /\ files m !! target = Some backup.

Lemma due_disk force m : kept m -> refusals m = [] -> due force m -> files m !! target = Some backup.
Proof.
  intros [(x & _ & Hx)|[[Hs _]|Hf]] Hre Hd; [rewrite Hre in Hx; by apply elem_of_nil in Hx | | done].
  destruct Hd as [Hp|[_ Hf]]; [rewrite Hs in Hp; congruence | done].
Qed.

(** What [restoreLeftovers] answers on the machine [m]. *)
Definition recovered (force : bool) (m : Machine) (b : bool) (m' : Machine) : Prop :=
  (b = true -> restored m') /\
  (due force m -> ends_well b m') /\
  (force = false -> pointing port (settings m) = false ->
     b = false /\ registry m' = registry m /\ files m' !! target = files m !! target).

Lemma wp_restore m :
  onDisk m ->
  wpk (restored ← applySnapshot (withPort port U); _ ← (if (restored : bool) then remove path else mret true); mret (Some restored)) m
    (λ r m', (exists b, r = Some b /\ ends_well b m') /\ kept m').
Proof.
  intros Hd. apply wps_bind, wp_applySnapshot; [done | intros m' N; by apply onDisk_kept, (onDisk_regs m) |].
  intros b m1 N _ Ha Hb. pose proof (onDisk_kept _ (onDisk_regs _ _ Hd N)) as K1.
  destruct b; [| by split; [exists false; split; [| apply Hb] |]]. apply wp_cleared; [done | by apply applied_U, Ha |].
  intros ? m' K' H' _ Hend. split; [by exists true | done].
Qed.

Lemma wp_isOurs other m (Q : bool -> Machine -> Prop) :
  kept m -> Q (pointing other (settings m)) m -> Q false (refuse ROpenKey m) -> wpk (isOurs other) m Q.
Proof.
  intros Hk HQ1 HQ0. unfold isOurs. apply wps_bind, wp_readCurrent; [| done | done].
  intros m' [H1 H2 H3] H4. apply (kept_same m); [done | by rewrite H1 | done | done].
Qed.

(** Nothing done, with the backup on the disk only if the system refused. *)
Lemma recovered_not force m m' :
  registry m' = registry m -> files m' !! target = files m !! target ->
  (due force m -> failed m' = true) -> recovered force m false m'.
Proof. intros Hr Hf Hd. by repeat split. Qed.

(** [restoreLeftovers] with the backup of the session on the disk. *)
Lemma wp_recover force m m1 :
  onDisk m1 -> registry m1 = registry m -> files m1 = files m ->
  wpk (ours ← ((if force : bool then mret true else isOurs port) : M bool); if negb ours then mret (Some false) else
    restored ← applySnapshot (withPort port U); _ ← (if (restored : bool) then remove path else mret true); mret (Some restored)) m1
    (λ r m', (exists b, r = Some b /\ recovered force m b m') /\ kept m').
Proof.
  intros Hd Hr Hf. apply wps_bind.
  assert (Hgo : force = true \/ pointing port (settings m) = true -> wpk (restored ← applySnapshot (withPort port U);
      _ ← (if (restored : bool) then remove path else mret true); mret (Some restored)) m1
      (λ r m', (exists b, r = Some b /\ recovered force m b m') /\ kept m')).
  { intros Hc. apply wps_mono with (1 := wp_restore m1 Hd). intros r m' [(b & -> & Hb) Hk]. split; [| done]. exists b. split; [done |].
    split; [by intros -> | split; [done |]]. intros -> Hp. destruct Hc; congruence. }
  destruct force; [by apply Hgo; left |]. apply wp_isOurs; [by apply onDisk_kept | |].
  - rewrite (settings_eq m m1 Hr). destruct (pointing port (settings m)) eqn:E; cbn [negb]; [apply Hgo; by right |].
    split; [| by apply onDisk_kept]. exists false. split; [done |]. apply recovered_not; [done | by rewrite Hf |]. unfold due. rewrite E. by intros [|[]].
  - split; [| apply onDisk_kept, (onDisk_regs m1); [done | apply regs_refuse]].
    exists false. split; [done |]. apply recovered_not; [done | cbn; by rewrite Hf | done].
Qed.

(** How a session ([enable], and [disable] at the end) ends. *)
Definition session_ends (m : Machine) (r : bool) (m' : Machine) : Prop :=
  handles m' = handles m /\ (r = true -> lossy m' \/ settings m' = U) /\
  (failed m' = false -> r = true /\ files m' !! target = None).

Lemma wp_session m :
  settings m = U -> files m !! target = old ->
  wpk (enable fresh_start port path) m (λ r m1, enabled_well r m1 /\
    wpk (disable r.2) m1 (λ r' m', session_ends m r'.1 m' /\ kept m')).
Proof.
  intros Hs Ho. apply wp_enable; [done | done | |].
  - split; [by split |]. cbn [disable snd saved_ fresh_start negb wps mret]. split; [| right; left; by split; [| left]].
    split; [done | split; [intros _; by right | done]].
  - intros b m' Hd Hh He. split; [done |]. apply wp_disable; [done |]. intros b' p' m'' Hk Hh' Hb. split; [| done].
    cbn [fst]. unfold ends_well, restored in Hb. split; [congruence |]. destruct b'; [| by rewrite Hb]. destruct Hb as [Hb1 Hb2]. split; [done | auto].
Qed.
(** [restoreLeftovers] has left it alone. *)
Hypothesis Hold : forall f, old = Some f -> synced f = true /\ pointing (ourPort (parseBackup (content f))) U = false.

(** [restoreLeftovers] wherever the program ended before. *)
Lemma wp_restoreLeftovers turns force m :
  kept m -> refusals m = [] -> (force = true -> files m !! target = Some backup \/ files m !! target = None) ->
  (forall f, files m !! target = Some f -> (length (content f) < turns)%nat) ->
  wpk (restoreLeftovers turns path force) m (λ r m', (exists b, r = Some b /\ recovered force m b m') /\ kept m').
Proof.
  intros Hk Hre Hforce Hturns. unfold restoreLeftovers. apply wps_bind. unfold readBackup. rewrite bool_decide_false by apply path_ne.
  assert (Hnear : forall m', Near [] m m' -> kept m').
  { intros m' [H1 _ H3 H4]. apply (kept_same m); [done | apply H1; set_solver | done | done]. }
  apply wps_bind, wp_readAll; [exact Hnear |].
  intros r refused Hr Hdone Hnone. set (m1 := readOf refused m). pose proof (near_readOf [] refused m : Near [] m m1) as N1.
  assert (F1 : files m1 = files m) by (unfold m1; by destruct refused). assert (R1 : registry m1 = registry m) by apply N1.
  destruct r as [[text|]|]; [| | by destruct (Hdone Hturns)].
  2: { split; [| by apply Hnear]. exists false. split; [done |]. apply recovered_not; [done | by rewrite F1 |]. intros Hb%due_disk; [| done | done].
       destruct (Hnone eq_refl) as [->|[|]]; [done | done | congruence]. }
  destruct (Hr text eq_refl) as (f & Hf & <-). clear Hr Hdone Hnone.
  assert (Hcase : files m !! target = Some backup \/ force = false /\ settings m = U /\ old = Some f).
  { destruct Hk as [(x & _ & Hx)|[[Hs Hf']|Hf']]; [rewrite Hre in Hx; set_solver | | by left].
    destruct force; [destruct (Hforce eq_refl); [by left | congruence] | right]. destruct Hf'; [split; [done | split; congruence] | congruence]. }
  destruct Hcase as [Hb|(-> & Hs & Ho)].
  - assert (f = backup) as -> by congruence. cbn [content mret wps]. rewrite bool_decide_false by done. rewrite backup_roundtrip by done.
    apply wp_recover; [right; by rewrite F1 | done | done].
  - destruct (Hold f Ho) as [_ Hp]. cbn [mret wps].
    assert (Hq : forall m', registry m' = registry m -> files m' = files m -> recovered false m false m').
    { intros m' Hr' Hf'. apply recovered_not; [done | by rewrite Hf' |]. unfold due. rewrite Hs, Hnot. by intros [|[]]. }
    case_bool_decide; [split; [exists false; split; [done | by apply Hq] | by apply Hnear] |].
    apply wps_bind, wp_isOurs; [by apply Hnear | |].
    + rewrite (settings_eq m m1 R1), Hs, Hp. split; [exists false; split; [done | by apply Hq] | by apply Hnear].
    + split; [exists false; split; [done | by apply Hq] |]. apply Hnear. apply (near_trans _ _ m1); [done | apply near_refuse].
Qed.

End Recovery.

(** Started while the registry points at this program, a session leaves the files alone. *)
Lemma wp_session_ours `{!CodePages} path port m :
  0 <= port < 2 ^ 16 -> pointing port (settings m) = true ->
  wps (legal (λ m', files m' = files m)) answers after (enable fresh_start port path) m (λ r m1,
    True /\ wps (legal (λ m', files m' = files m)) answers after (disable r.2) m1 (λ r' m', True /\ files m' = files m)).
Proof.
  intros Hp Ho. unfold enable. apply wps_bind, wp_readCurrent; [by intros m' [H1 _ _] _ | | done].
  fold (pointing port (settings m)). rewrite Ho. apply wps_bind. cbn [mret wps]. apply wps_bind, wp_applySnapshot.
  - apply (ours_storable port (mkSnapshot 0 [] [] 0)). split; cbn; [lia | by split; [constructor |] | by split; [constructor |] | done].
  - by intros m' [H1 _ _].
  - by intros b m' [H1 _ _] _ _ _.
Qed.

(** Two programs, one after the other. *)
Lemma wp_safe_pair {A B} Safe m0 oracle (p : M A) (f : A -> M B) (Q1 : A -> Machine -> Prop) (Q : B -> Machine -> Prop) :
  honest answers after m0 oracle ->
  wps (legal Safe) answers after p m0 (λ a m1, Q1 a m1 /\ wps (legal Safe) answers after (f a) m1 (λ b m, Q b m /\ Safe m)) ->
  let '(a, h1) := play oracle p [] in let '(b, h) := play oracle (f a) h1 in
  Q1 a (ledger after m0 h1) /\ Q b (ledger after m0 h) /\ forall k, Safe (ledger after m0 (take k h)).
Proof.
  intros Ho Hp. pose proof (wps_play (legal Safe) answers after m0 oracle p [] _ Ho ltac:(done) Hp) as H1.
  destruct (play oracle p []) as [a h1]. destruct H1 as [[H1 Hf] V1].
  pose proof (wps_play (legal Safe) answers after m0 oracle (f a) h1 _ Ho V1 Hf) as H2.
  destruct (play oracle (f a) h1) as [b h]. destruct H2 as [[H2 Hs] [Hl _]]. split; [done | split; [done |]]. by apply legal_throughout.
Qed.

(** The program, or the machine, goes down and comes up again. *)
Definition restart (m m' : Machine) : Prop := power_loss m m' /\ registry m' = registry m /\ refusals m' = [].

Lemma kept_restart `{!CodePages} path port U old m m' :
  (forall f, old = Some f -> synced f = true) -> kept path port U old m -> ~ lossy m -> restart m m' -> kept path port U old m'.
Proof.
  intros Hold Hk Hl (Hp & Hr & Hf). specialize (Hp (widen path)). destruct Hk as [Hk|[[Hs Hk]|Hk]]; [done | |].
  - right. left. rewrite (settings_eq m m' Hr). split; [done |]. destruct Hk as [Hk|Hk]; rewrite Hk in Hp; [left | by right].
    destruct old as [f|]; [auto | done].
  - rewrite Hk in Hp. right. right. auto.
Qed.


(** A proxy of the user's, switched off, and a backup an earlier run on another port left. *)
Definition userMachine : Machine := mkMachine {[ str "b" := mkFile (backupText (mkSnapshot 1 (str "home:3128") [] 999)) true ]} ∅ ∅
  {[ ProxyEnable := mkRegValue REG_DWORD [0; 0; 0; 0]; ProxyServer := mkRegValue REG_SZ (str "corp:8080" ++ [0]) ]} [].
(** The same machine, killed after [k] calls and started again. *)
Definition reborn (h : list (Event Reply)) : Machine :=
  let m := ledger after userMachine h in mkMachine (files m) ∅ ∅ (registry m) [].
Definition userRun : list (Event Reply) :=
  snd (@play _ _ _ (works 4095 userMachine) (@enable latin fresh_start 1080 (str "b")) []).


(** A registry that refuses to have [ProxyServer] set, once the settings are to be put back:
    they are not, [restoreLeftovers] still says so and removes the backup. *)
Definition stubborn (m0 : Machine) : Oracle Reply := λ h c,
  match c return Reply c with
  | RegSetValue _ ProxyServer _ => false
  | c => works 4095 m0 h c
  end.
Example restore_reports_too_much :
  let backup := mkFile (backupText (mkSnapshot 1 (str "corp:8080") [] 1080)) true in
  let m0 := mkMachine {[ str "b" := backup ]} ∅ ∅
    {[ ProxyEnable := mkRegValue REG_DWORD [1; 0; 0; 0]; ProxyServer := mkRegValue REG_SZ (ourProxyValue 1080 ++ [0]) ]} [] in
  let '(r, h) := @play _ _ _ (stubborn m0) (@restoreLeftovers latin 9 (str "b") false) [] in
  r = Some true /\ files (ledger after m0 h) !! str "b" = None /\ server (settings (ledger after m0 h)) = ourProxyValue 1080.
Proof. by vm_compute. Qed.

(** Killed between the first and the second value [disable] puts back: the next start leaves
    the backup alone, and [enable] then writes this program's own server over it. *)
Example leftover_overwritten :
  let backup := mkFile (backupText (mkSnapshot 0 (str "corp:8080") [] 1080)) true in
  let m0 := mkMachine {[ str "b" := backup ]} ∅ ∅
    {[ ProxyEnable := mkRegValue REG_DWORD [0; 0; 0; 0]; ProxyServer := mkRegValue REG_SZ (ourProxyValue 1080 ++ [0]) ]} [] in
  let '(r, h) := @play _ _ _ (works 4095 m0) (r ← @restoreLeftovers latin 9 (str "b") false; '(ok, _) ← @enable latin fresh_start 1080 (str "b"); mret (r, ok)) [] in
  r = (Some false, true) /\
  files (ledger after m0 h) !! str "b" = Some (mkFile (backupText (mkSnapshot 0 (ourProxyValue 1080) [] 1080)) true).
Proof. by vm_compute. Qed.
