(* ===== verification/NetworkIdentity.v ===== *)
(** * NetworkIdentity: naming the network

    Models [src/src/NetworkIdentity.hpp] and [src/src/NetworkIdentity.cpp]: the name made of
    the connected networks ([current], a program of [Calls] over COM) and the cache in front
    of it ([CachedIdentity], a program of [Concurrency] shared by all connections). *)

From S2P Require Import Prelude Calls Concurrency Json.

Definition kDefaultId : bytes := str "network-default".

(** ** The name *)

(** [fnv1a] *)
Definition fnv1a (text : bytes) : Z :=
  foldl (λ hash c, w64 (Z.lxor hash c * 1099511628211)) 14695981039346656037 text.

(** [operator<] of strings, or equal *)
Fixpoint string_le (a b : bytes) : bool :=
  match a, b with
  | [], _ => true
  | _, [] => false
  | x :: a, y :: b => if x <? y then true else if y <? x then false else string_le a b
  end.
Definition text_le (a b : bytes) : Prop := string_le a b = true.
#[export] Instance text_le_dec a b : Decision (text_le a b).
Proof. unfold text_le. apply _. Defined.

(** [std::hex << std::setw(16) << std::setfill('0')] *)
Definition hex16 (v : Z) : bytes := (λ i, hexdigit (Z.land (Z.shiftr v (60 - 4 * Z.of_nat i)) 15)) <$> seq 0 16.

(** What [current] makes of the identifiers. *)
Definition identityOf (ids : list bytes) : bytes :=
  if bool_decide (ids = []) then kDefaultId
  else str "nla-" ++ hex16 (fnv1a (merge_sort text_le ids ≫= λ id, id ++ [124])).

(** [guidText]; [text] is what [StringFromGUID2] wrote, up to its zero. *)
Definition guidText (text : option bytes) : bytes := filter (λ c, c <> 123 /\ c <> 125) (default [] text).

(** ** Asking Windows *)

Inductive Init := InitOk | InitChangedMode | InitFailed.

Inductive ComCall :=
  | CoInitializeEx | CoUninitialize
  | CreateManager                       (* [CoCreateInstance]; [None]: failed or null *)
  | GetNetworks (manager : Z)
  | NextNetwork (networks : Z)          (* [None]: not [S_OK] *)
  | GetConnectivity (network : Z)
  | GetNetworkId (network : Z)          (* the text [StringFromGUID2] makes of it *)
  | Release (object : Z).

Definition Reply (c : ComCall) : Type :=
  match c with
  | CoInitializeEx => Init
  | CreateManager | GetNetworks _ | NextNetwork _ | GetConnectivity _ => option Z
  | GetNetworkId _ => option (option bytes)
  | _ => unit
  end.

Definition M (A : Type) : Type := Sys Reply A.
#[export] Instance com_ret : MRet M := λ A, Done.
#[export] Instance com_bind : MBind M := λ A B, sys_bind.
Definition do (c : ComCall) : M (Reply c) := call c.

Definition NLM_CONNECTIVITY_IPV4_INTERNET : Z := 0x40.
Definition NLM_CONNECTIVITY_IPV6_INTERNET : Z := 0x400.
Definition hasInternet (connectivity : option Z) : bool :=
  match connectivity with
  | Some c => negb (Z.land c NLM_CONNECTIVITY_IPV4_INTERNET =? 0) || negb (Z.land c NLM_CONNECTIVITY_IPV6_INTERNET =? 0)
  | None => false
  end.

(** The loop over the networks; [None]: the turns are used up. *)
Fixpoint collect (turns : nat) (networks : Z) (ids : list bytes) : M (option (list bytes)) :=
  match turns with
  | O => mret None
  | S turns =>
      network ← do (NextNetwork networks);
      match (network : option Z) with
      | None => mret (Some ids)
      | Some network =>
          connectivity ← do (GetConnectivity network);
          id ← (if hasInternet connectivity then do (GetNetworkId network) else mret None);
          let text := match (id : option (option bytes)) with Some text => guidText text | None => [] end in
          _ ← do (Release network);
          collect turns networks (if bool_decide (text = []) then ids else ids ++ [text])
      end
  end.

(** [current] *)
Definition current (turns : nat) : M (option bytes) :=
  init ← do CoInitializeEx;
  match (init : Init) with
  | InitFailed => mret (Some kDefaultId)
  | init =>
      let uninitialize := (match init with InitOk => do CoUninitialize | _ => mret () end) : M unit in
      manager ← do CreateManager;
      match (manager : option Z) with
      | None => _ ← uninitialize; mret (Some kDefaultId)
      | Some manager =>
          networks ← do (GetNetworks manager);
          ids ← (match (networks : option Z) with
                 | None => mret (Some [])
                 | Some networks => ids ← collect turns networks []; _ ← do (Release networks); mret ids
                 end);
          _ ← do (Release manager);
          _ ← uninitialize;
          mret (identityOf <$> ids)
      end
  end.

(** ** The cache *)

Record CachedIdentity := mkCachedIdentity { value_ : bytes; fetchedAt_ : Z; refreshing_ : bool }.
Definition emptyCache : CachedIdentity := mkCachedIdentity [] 0 false.
Definition kTtlMs : Z := 30 * 1000.

(** The first section of [get]: the answer, or nothing when this thread has to ask. *)
Definition lookupSection (now : Z) (c : CachedIdentity) : option bytes * CachedIdentity :=
  let known := negb (bool_decide (value_ c = [])) in
  if known && (now - fetchedAt_ c <? kTtlMs) then (Some (value_ c), c)
  else if refreshing_ c && known then (Some (value_ c), c)
  else (None, mkCachedIdentity (value_ c) (fetchedAt_ c) true).

(** The second one. *)
Definition storeSection (now : Z) (fetched : bytes) (c : CachedIdentity) : bytes * CachedIdentity :=
  let value := if bool_decide (value_ c = []) || negb (bool_decide (fetched = kDefaultId)) then fetched else value_ c in
  (value, mkCachedIdentity value now false).

(** [get], with the clock of its default argument and [fetch_] = [current] *)
Definition get : Prog CachedIdentity unit bytes bytes :=
  Now (λ now,
  Atomic (λ _ c, lookupSection now c) (λ known,
  match known with
  | Some value => Ret value
  | None => Fetch tt (λ fetched, match fetched with
      | None => Throw
      | Some fetched => Atomic (λ _ c, storeSection now fetched c) Ret
      end)
  end)).

(** ** The name does not depend on the order *)

Lemma string_le_total a b : string_le a b = true \/ string_le b a = true.
Proof. revert b. induction a as [|x a IH]; intros [|y b]; cbn; auto. destruct (Z.ltb_spec x y), (Z.ltb_spec y x); auto; lia. Qed.
Lemma string_le_trans a b c : string_le a b = true -> string_le b c = true -> string_le a c = true.
Proof.
  revert b c. induction a as [|x a IH]; intros [|y b] [|z c]; cbn; try done.
  destruct (Z.ltb_spec x y), (Z.ltb_spec y x), (Z.ltb_spec y z), (Z.ltb_spec z y), (Z.ltb_spec x z), (Z.ltb_spec z x); try done; try lia. apply IH.
Qed.
Lemma string_le_antisym a b : string_le a b = true -> string_le b a = true -> a = b.
Proof.
  revert b. induction a as [|x a IH]; intros [|y b]; cbn; try done.
  destruct (Z.ltb_spec x y), (Z.ltb_spec y x); try done; try lia. intros H1 H2. f_equal; [lia | by apply IH].
Qed.
#[export] Instance text_le_total : Total text_le.
Proof. intros a b. apply string_le_total. Qed.
#[export] Instance text_le_trans : Transitive text_le.
Proof. intros a b c. apply string_le_trans. Qed.
#[export] Instance text_le_antisym : AntiSymm (=) text_le.
Proof. intros a b. apply string_le_antisym. Qed.

(** The same networks have the same name, in whatever order Windows lists them; it is never
    the name of an unknown network. *)
Theorem identity_order_free ids ids' : ids ≡ₚ ids' -> identityOf ids = identityOf ids'.
Proof.
  intros P. unfold identityOf. assert (E : merge_sort text_le ids = merge_sort text_le ids').
  { apply (StronglySorted_unique text_le); try apply (StronglySorted_merge_sort _). by rewrite !merge_sort_Permutation. }
  rewrite E. destruct ids, ids'; [done | by apply Permutation_nil_l in P | by apply Permutation_nil_r in P | done].
Qed.
Lemma identity_known ids : ids <> [] -> identityOf ids <> kDefaultId /\ zlen (identityOf ids) = 20.
Proof. intros Hn. unfold identityOf. rewrite bool_decide_false by done. split; [done | reflexivity]. Qed.

(** ** COM is left as it was found *)

(** The references held, whether COM is initialized here, and how many networks are still to
    be listed. *)
Record Com := mkCom { references : gset Z; initialized : bool; unlisted : nat }.

Definition after (m : Com) (c : ComCall) : Reply c -> Com :=
  let 'mkCom o i n := m in
  match c return Reply c -> Com with
  | CoInitializeEx => λ r, match r with InitOk => mkCom o true n | _ => m end
  | CoUninitialize => λ _, mkCom o false n
  | CreateManager | GetNetworks _ => λ r, match r with Some x => mkCom ({[x]} ∪ o) i n | None => m end
  | NextNetwork _ => λ r, match r with Some x => mkCom ({[x]} ∪ o) i (n - 1) | None => m end
  | Release x => λ _, mkCom (o ∖ {[x]}) i n
  | _ => λ _, m
  end.
Definition answers (m : Com) (c : ComCall) : Reply c -> Prop :=
  match c return Reply c -> Prop with
  | CreateManager | GetNetworks _ => λ r, forall x, r = Some x -> x ∉ references m
  | NextNetwork _ => λ r, forall x, r = Some x -> x ∉ references m /\ (0 < unlisted m)%nat
  | _ => λ _, True
  end.
(** Objects are used while they are held, and released before COM is. *)
Definition legal (m : Com) (c : ComCall) : Prop :=
  match c with
  | GetNetworks x | NextNetwork x | GetConnectivity x | GetNetworkId x | Release x => x ∈ references m
  | CoUninitialize => initialized m = true /\ references m = ∅
  | _ => True
  end.
Notation wpc := (wps legal answers after).

Lemma wp_collect turns networks ids o i n (Q : option (list bytes) -> Com -> Prop) :
  networks ∈ o -> (n < turns)%nat -> (forall ids' n', Q (Some ids') (mkCom o i n')) ->
  wpc (collect turns networks ids) (mkCom o i n) Q.
Proof.
  intros Ho. revert ids n. induction turns as [|turns IH]; intros ids n Hn HQ; [lia |]. cbn [collect].
  apply wps_do; [done |]. intros network Hnew. destruct network as [x|]; cbn [after]; [| apply HQ].
  destruct (Hnew x eq_refl) as [Hx Hpos]. cbn [references unlisted] in Hx, Hpos.
  apply wps_do; [cbn; set_solver |]. intros connectivity _. cbn [after]. apply wps_bind.
  assert (Hrest : forall id, wpc (_ ← do (Release x); collect turns networks
      (if bool_decide ((match id with Some text => guidText text | None => [] end) = []) then ids
       else ids ++ [match id with Some text => guidText text | None => [] end])) (mkCom ({[x]} ∪ o) i (n - 1)) Q).
  { intros id. apply wps_do; [cbn; set_solver |]. intros ? _. cbn [after]. assert (({[x]} ∪ o) ∖ {[x]} = o) as -> by set_solver. apply IH; [lia | done]. }
  destruct (hasInternet connectivity); [| apply (Hrest None)]. split; [cbn; set_solver |]. intros id _. apply Hrest.
Qed.

(** asking for the network leaves nothing behind: [current] ends, every COM object it
    obtained is released exactly once and not used after, and COM is uninitialized exactly
    when it was initialized here, after the last release. *)
Theorem current_balanced turns n oracle :
  (n < turns)%nat -> let m0 := mkCom ∅ false n in honest answers after m0 oracle ->
  let '(result, h) := play oracle (current turns) [] in
  valid legal answers after m0 h /\ is_Some result /\
  references (ledger after m0 h) = ∅ /\ initialized (ledger after m0 h) = false.
Proof.
  intros Hn m0 Ho.
  pose proof (wps_play legal answers after m0 oracle (current turns) [] (λ r m, is_Some r /\ references m = ∅ /\ initialized m = false) Ho ltac:(done)) as Hrun.
  destruct (play oracle _ []) as [result h]. destruct Hrun as [Hr Hv]; [| done].
  unfold current. apply wps_do; [done |]. intros init _.
  assert (Hgo : forall i (fini : M unit), (forall (r : bytes) k, wpc (_ ← fini; mret (Some r)) (mkCom ∅ i k)
       (λ r m, is_Some r /\ references m = ∅ /\ initialized m = false)) ->
    wpc (manager ← do CreateManager;
      match (manager : option Z) with
      | None => _ ← fini; mret (Some kDefaultId)
      | Some manager =>
          networks ← do (GetNetworks manager);
          ids ← (match (networks : option Z) with
                 | None => mret (Some [])
                 | Some networks => ids ← collect turns networks []; _ ← do (Release networks); mret ids
                 end);
          _ ← do (Release manager); _ ← fini; mret (identityOf <$> ids)
      end) (mkCom ∅ i n) (λ r m, is_Some r /\ references m = ∅ /\ initialized m = false)).
  { intros i fini Hf. apply wps_do; [done |]. intros manager _. destruct manager as [x|]; cbn [after]; [| apply Hf].
    apply wps_do; [cbn; set_solver |]. intros networks Hnew. apply wps_bind.
    assert (Hend : forall ids k, wpc (_ ← do (Release x); _ ← fini; mret (identityOf <$> Some ids)) (mkCom ({[x]} ∪ ∅) i k)
      (λ r m, is_Some r /\ references m = ∅ /\ initialized m = false)).
    { intros ids k. apply wps_do; [cbn; set_solver |]. intros ? _. cbn [after]. assert (({[x]} ∪ ∅) ∖ {[x]} =@{gset Z} ∅) as -> by set_solver. apply Hf. }
    destruct networks as [y|]; cbn [after]; [| apply Hend]. specialize (Hnew y eq_refl). cbn [references] in Hnew.
    apply wps_bind, wp_collect; [set_solver | done |]. intros ids k. apply wps_do; [cbn; set_solver |]. intros ? _. cbn [after].
    assert (({[y]} ∪ ({[x]} ∪ ∅)) ∖ {[y]} =@{gset Z} {[x]} ∪ ∅) as -> by set_solver. apply Hend. }
  destruct init; cbn [after m0].
  - apply Hgo. intros r k. apply wps_do; [done |]. intros ? _. by split; [eexists |].
  - apply Hgo. intros r k. by split; [eexists |].
  - by split; [eexists |].
Qed.

(** Two networks, one of them with the Internet. *)
Definition twoNetworks (m0 : Com) : Oracle Reply := λ h c,
  let m := ledger after m0 h in
  match c return Reply c with
  | CoInitializeEx => InitOk
  | CreateManager | GetNetworks _ => Some (fresh (references m))
  | NextNetwork _ => if bool_decide (unlisted m = 0%nat) then None else Some (fresh (references m))
  | GetConnectivity _ => Some (if bool_decide (unlisted m = 0%nat) then 0x40 else 1)
  | GetNetworkId _ => Some (Some (str "{AB-1}"))
  | _ => tt
  end.
Lemma twoNetworks_honest m0 : honest answers after m0 (twoNetworks m0).
Proof.
  intros h c _. set (m := ledger after m0 h). assert (Hf : fresh (references m) ∉ references m) by apply is_fresh.
  destruct c; cbn [twoNetworks answers]; fold m; try done.
  - by intros x [= <-].
  - by intros x [= <-].
  - case_bool_decide; [done |]. intros x [= <-]. split; [done | lia].
Qed.
Lemma current_balanced_witness :
  let m0 := mkCom ∅ false 2 in let '(result, h) := play (twoNetworks m0) (current 3) [] in
  result = Some (identityOf [str "AB-1"]) /\ references (ledger after m0 h) = ∅ /\ initialized (ledger after m0 h) = false.
Proof.
  intros m0. pose proof (current_balanced 3 2 (twoNetworks m0) ltac:(lia) (twoNetworks_honest m0)) as H.
  destruct (play (twoNetworks m0) (current 3) []) as [result h] eqn:E. destruct H as (_ & _ & Hr & Hi). split; [| by split].
  apply (f_equal fst) in E. cbn [fst] in E. rewrite <- E. by vm_compute.
Defined.

(** ** The cache under every interleaving *)

Definition real (c : CachedIdentity) : Prop := value_ c <> [] /\ value_ c <> kDefaultId.
Definition get_time (t : Z) : Prop := 0 <= t.
Definition get_fetch (v : bytes) : Prop := v <> [].

#[export] Instance real_dec c : Decision (real c).
Proof. unfold real. apply _. Defined.

(** A thread's ghost: the network was known before it looked. *)
Definition get_rel (g : bool) (s s' : CachedIdentity) (g' : bool) : Prop :=
  (real s -> real s') /\ (g = true -> g' = true) /\ (g' = true -> real s').
Definition get_own (g : bool) (s : CachedIdentity) : Prop := g = true -> real s.
Definition get_global (s : CachedIdentity) (gs : list bool) : Prop := Forall (λ g, get_own g s) gs.
Abbreviation wpg := (wp get_time get_fetch (λ _ : CachedIdentity, True) get_rel get_own (λ (_ : bool) (_ : unit), True) (λ _ _, False)).
Definition told_real (v : bytes) (g : bool) : Prop := v <> [] /\ (g = true -> v <> kDefaultId).

Lemma store_real now fetched c : real c -> fetched <> [] -> real (storeSection now fetched c).2 /\ (storeSection now fetched c).1 <> kDefaultId.
Proof.
  intros [H1 H2] Hf. unfold storeSection, real. cbn. rewrite (bool_decide_false (value_ c = [])) by done.
  destruct (bool_decide_reflect (fetched = kDefaultId)) as [->|]; cbn; done.
Qed.
Lemma store_nonempty now fetched c : fetched <> [] -> (storeSection now fetched c).1 <> [].
Proof. intros Hf. unfold storeSection. cbn. destruct (bool_decide_reflect (value_ c = [])); [done |]. destruct (bool_decide_reflect (fetched = kDefaultId)); done. Qed.

Lemma get_global_step s gs i g s' g' :
  True -> get_global s gs -> gs !! i = Some g -> get_rel g s s' g' -> get_global s' (<[i := g']> gs).
Proof.
  intros _ Hg _ (Hr & _ & Hr'). apply Forall_insert; [| done]. apply (Forall_impl _ _ _ Hg). intros x Hx E. auto.
Qed.
Lemma get_global_own s gs i g : get_global s gs -> gs !! i = Some g -> get_own g s.
Proof. intros Hg Hi. exact (Forall_lookup_1 _ _ _ _ Hg Hi). Qed.

Lemma get_stores now fetched g :
  get_fetch fetched -> wpg (Atomic (λ _ c, storeSection now fetched c) Ret) g told_real (λ _, True).
Proof.
  intros Hf t c _ _ Hown. split; [done |]. exists g. split.
  - split; [intros Hc; by apply (store_real now fetched c Hc) |]. split; [done |]. intros Hg. by apply (store_real now fetched c (Hown Hg)).
  - split; [by apply store_nonempty |]. intros Hg. by apply (store_real now fetched c (Hown Hg)).
Qed.
Lemma get_ok g : wpg get g told_real (λ _, True).
Proof.
  intros now _ t c _ _ Hown. split; [done |]. unfold lookupSection.
  exists (bool_decide (real c)).
  assert (Hrel : forall c', value_ c' = value_ c -> get_rel g c c' (bool_decide (real c))).
  { intros c' E. split; [unfold real; by rewrite E |]. split; [intros Hg; apply bool_decide_eq_true_2; auto |].
    intros Hr%bool_decide_eq_true. unfold real in *. by rewrite E. }
  assert (Htold : value_ c <> [] -> told_real (value_ c) (bool_decide (real c))).
  { intros Hv. split; [done |]. intros [_ Hr]%bool_decide_eq_true. done. }
  destruct (bool_decide_reflect (value_ c = [])) as [E|E]; cbn [negb andb].
  - rewrite andb_false_r. split; [by apply Hrel |]. cbn [wp]. split; [done |]. intros [fetched|] Hf; [| done]. apply get_stores, Hf. done.
  - destruct (now - fetchedAt_ c <? kTtlMs); [split; [by apply Hrel | by apply Htold] |]. rewrite andb_true_r.
    destruct (refreshing_ c); [split; [by apply Hrel | by apply Htold] |]. split; [by apply Hrel |].
    cbn [wp]. split; [done |]. intros [fetched|] Hf; [| done]. apply get_stores, Hf. done.
Qed.

Definition callers (n : nat) : Pool CachedIdentity unit bytes bytes := mkPool emptyCache (replicate n (mkThread get false)).

Definition cache_ok (c : Pool CachedIdentity unit bytes bytes) : Prop :=
  pool_ok CachedIdentity unit bytes get_time get_fetch (λ _, True) get_rel get_own (λ (_ : bool) (_ : unit), True) (λ _ _, False)
    get_global told_real (λ _, True) c.
Lemma cache_ok_reach c c' : cache_ok c -> rtc (pool_step get_time get_fetch) c c' -> cache_ok c'.
Proof. apply pool_invariant; [intros; by eapply get_global_step | intros; by eapply get_global_own]. Qed.
Lemma callers_ok n : cache_ok (callers n).
Proof.
  split; [done |]. exists (replicate n false). split; [by apply Forall_replicate |]. cbn.
  induction n as [|n IH]; constructor; [split; [apply get_ok | done] | exact IH].
Qed.

(** The network is known, and the threads [who] may rely on it. *)
Definition known_global (who : list nat) (s : CachedIdentity) (gs : list bool) : Prop :=
  get_global s gs /\ real s /\ Forall (λ i, gs !! i = Some true) who.
Definition known_ok (who : list nat) (c : Pool CachedIdentity unit bytes bytes) : Prop :=
  pool_ok CachedIdentity unit bytes get_time get_fetch (λ _, True) get_rel get_own (λ (_ : bool) (_ : unit), True) (λ _ _, False)
    (known_global who) told_real (λ _, True) c.
Lemma known_ok_reach who c c' : known_ok who c -> rtc (pool_step get_time get_fetch) c c' -> known_ok who c'.
Proof.
  apply pool_invariant.
  - intros s gs i g s' g' _ (Hg & Hr & His) Hi Hrel. destruct Hrel as (Hr1 & Hr2 & Hr3). split; [by eapply get_global_step |]. split; [by apply Hr1 |].
    apply (Forall_impl _ _ _ His). intros j Hj. destruct (decide (j = i)) as [-> |Hne]; [| by rewrite list_lookup_insert_ne].
    rewrite list_lookup_insert_eq by (by eapply lookup_lt_Some). f_equal. apply Hr2. congruence.
  - intros s gs i g (Hg & _) Hi. by eapply get_global_own.
Qed.
Lemma known_ok_start c who :
  cache_ok c -> real (shared c) -> Forall (λ i, exists b, threads c !! i = Some (mkThread get b)) who -> known_ok who c.
Proof.
  intros (_ & gs & Hg & Hall) Hr His. split; [done |].
  induction His as [|i who (b & Hi) _ (gs' & (Hg' & _ & His') & Hall')]; [by exists gs |].
  destruct (Forall2_lookup_l _ _ _ _ _ Hall' Hi) as (g & Hgi & [_ Hb]). exists (<[i := true]> gs'). split.
  - split; [apply Forall_insert; [done | by intros _] |]. split; [done |]. constructor; [apply list_lookup_insert_eq; by eapply lookup_lt_Some |].
    apply (Forall_impl _ _ _ His'). intros j Hj. destruct (decide (j = i)) as [-> |Hne]; [| by rewrite list_lookup_insert_ne].
    apply list_lookup_insert_eq. by eapply lookup_lt_Some.
  - rewrite <- (list_insert_id (threads c) i _ Hi). apply Forall2_insert; [done |]. split; [apply get_ok | done].
Qed.

(** the name of the network under every interleaving of connections that ask for it.
    Nobody waits for another thread; whoever gets an answer gets a name; and once the network
    is known it stays known: the fallback name never replaces a real one, and no connection
    that asks from then on is given it, although a refresh may fail. *)
Theorem identity_kept n c1 c2 :
  rtc (pool_step get_time get_fetch) (callers n) c1 -> rtc (pool_step get_time get_fetch) c1 c2 ->
  (forall i th, threads c1 !! i = Some th -> finished th \/ exists s' th', thread_step get_time get_fetch (shared c1) th s' th') /\
  (forall i v b, threads c2 !! i = Some (mkThread (Ret v) b) -> v <> []) /\
  (real (shared c1) -> real (shared c2) /\
     forall i v b b', threads c1 !! i = Some (mkThread get b) -> threads c2 !! i = Some (mkThread (Ret v) b') -> v <> kDefaultId).
Proof.
  intros H1 H2. pose proof (cache_ok_reach _ _ (callers_ok n) H1) as Hok1. pose proof (cache_ok_reach _ _ Hok1 H2) as Hok2.
  split; [| split].
  - intros i th Hi. destruct Hok1 as (_ & gs & _ & Hall). destruct (Forall2_lookup_l _ _ _ _ _ Hall Hi) as (g & _ & [Hw Ha]).
    destruct th as [p b]. cbn [prog asleep] in *. destruct b.
    { destruct (Ha eq_refl) as (B & ready & sec & k & ->). by destruct Hw. }
    destruct p as [a| | |k|rq k|B sec k|B ready sec k]; [by left | by left | by left | right | right | right | by destruct Hw].
    + eexists _, _. by apply (step_now _ _ _ _ _ _ _ 0).
    + eexists _, _. by apply (step_fetch _ _ _ _ _ _ _ _ None).
    + destruct (sec 0 (shared c1)) as [y s'] eqn:E. eexists _, _. by apply (step_atomic _ _ _ _ _ _ _ sec k 0 y s').
  - intros i v b Hi. destruct Hok2 as (_ & gs & _ & Hall). destruct (Forall2_lookup_l _ _ _ _ _ Hall Hi) as (g & _ & [Hw _]). by apply Hw.
  - intros Hr. split.
    + pose proof (known_ok_reach [] c1 c2 (known_ok_start c1 [] Hok1 Hr ltac:(done)) H2) as (_ & gs & (_ & Hr2 & _) & _). done.
    + intros i v b b' Hi Hi2.
      pose proof (known_ok_reach [i] c1 c2 (known_ok_start c1 [i] Hok1 Hr ltac:(by repeat constructor; exists b)) H2) as (_ & gs & (_ & _ & Hg) & Hall).
      assert (Hgt : gs !! i = Some true) by by inversion Hg. destruct (Forall2_lookup_l _ _ _ _ _ Hall Hi2) as (g & Hgi & [Hw _]). rewrite Hgt in Hgi. injection Hgi as <-.
      by apply Hw.
Qed.

(** Two connections: the first finds the network, the second asks half a minute later, when
    it cannot be told. *)
Definition twoReplies (n : nat) (_ : unit) : option bytes := Some (if (n <? 4)%nat then str "nla-1" else kDefaultId).
Lemma identity_kept_witness :
  let c1 := exec (λ n, Z.of_nat n * 20000) twoReplies [0; 0; 0; 0]%nat 0 (callers 2) in
  let c2 := exec (λ n, Z.of_nat n * 20000) twoReplies [1; 1; 1; 1]%nat 4 c1 in
  value_ (shared c1) = str "nla-1" /\ real (shared c2) /\
  forall v b, threads c2 !! 1%nat = Some (mkThread (Ret v) b) -> v <> kDefaultId.
Proof.
  intros c1 c2.
  assert (Hr : forall l k (c : Pool CachedIdentity unit bytes bytes), rtc (pool_step get_time get_fetch) c (exec (λ n, Z.of_nat n * 20000) twoReplies l k c)).
  { intros l k c. apply exec_reaches; [intros m; unfold get_time; lia |]. intros m r rq. unfold twoReplies. case_match; intros [= <-]; done. }
  assert (Hv : value_ (shared c1) = str "nla-1") by by vm_compute.
  destruct (identity_kept 2 c1 c2 (Hr _ _ _) (Hr _ _ _)) as (_ & _ & Hk).
  destruct Hk as [Hreal Hno]; [by unfold real; rewrite Hv |]. split; [done |]. split; [done |]. intros v b. by apply (Hno 1%nat v false b).
Defined.
