(* ===== verification/HttpRequests.v ===== *)
(** * HttpRequests: one HTTPS request

    Models [sharedSession], [queryRetryAfterSeconds] and [perform] of [src/src/Http.cpp] as
    programs of [Calls]; the destructors of [class Handle] are the calls they make. The
    types of requests and responses and [hostFromUrl] are in [Resolver]. The conversion to
    UTF-16 is a parameter. *)

From S2P Require Import Prelude Calls Resolver.

Inductive HttpCall :=
  | WinHttpOpen                                   (* without a proxy *)
  | WinHttpConnect (session : Z) (host : bytes) (port : Z)
  | WinHttpOpenRequest (connection : Z) (method path : bytes)   (* [WINHTTP_FLAG_SECURE] *)
  | WinHttpSetTimeouts (request ms : Z)
  | NeverRedirect (request : Z)                   (* [WINHTTP_OPTION_REDIRECT_POLICY] *)
  | WinHttpAddRequestHeaders (request : Z) (line : bytes)       (* adding or replacing *)
  | WinHttpSendRequest (request : Z) (body : bytes)
  | WinHttpReceiveResponse (request : Z)
  | QueryStatusCode (request : Z)
  | QueryRetryAfter (request : Z)                 (* at most 31 characters *)
  | WinHttpReadData (request : Z) (size : nat)
  | WinHttpCloseHandle (h : Z).

Definition Reply (c : HttpCall) : Type :=
  match c with
  | WinHttpOpen | WinHttpConnect _ _ _ | WinHttpOpenRequest _ _ _ | QueryStatusCode _ => option Z
  | NeverRedirect _ | WinHttpAddRequestHeaders _ _ | WinHttpSendRequest _ _ | WinHttpReceiveResponse _ => bool
  | QueryRetryAfter _ | WinHttpReadData _ _ => option bytes
  | _ => unit
  end.

Definition M (A : Type) : Type := Sys Reply A.
#[export] Instance http_ret : MRet M := λ A, Done.
#[export] Instance http_bind : MBind M := λ A B, sys_bind.
Definition do (c : HttpCall) : M (Reply c) := call c.

Definition INTERNET_DEFAULT_HTTPS_PORT : Z := 443.
Definition kMaxBody : Z := 256 * 1024.
Definition kMaxRetryAfter : Z := 86400.

(** [sharedSession]; the state is the static variable. *)
Definition sharedSession (session : option Z) : M (option Z) :=
  match session with
  | Some s => mret (Some s)
  | None => do WinHttpOpen
  end.

(** The loop of [queryRetryAfterSeconds] over the characters; [seconds] is 32 bits wide. *)
Fixpoint retryAfterLoop (value : bytes) (seconds : Z) : Z :=
  match value with
  | c :: value =>
      if negb (isdigit c) then seconds else
      let seconds := w32 (seconds * 10 + (c - 48)) in
      if kMaxRetryAfter <? seconds then kMaxRetryAfter else retryAfterLoop value seconds
  | [] => seconds
  end.

(** [queryRetryAfterSeconds] *)
Definition queryRetryAfterSeconds (request : Z) : M Z :=
  value ← do (QueryRetryAfter request);
  mret (match (value : option bytes) with None => 0 | Some value => retryAfterLoop value 0 end).

(** [for (const auto& [name, value] : request.headers)] *)
Fixpoint addHeaders (toWide : bytes -> bytes) (handle : Z) (headers : list (bytes * bytes)) : M unit :=
  match headers with
  | [] => mret ()
  | (name, value) :: headers =>
      _ ← do (WinHttpAddRequestHeaders handle (toWide (name ++ str ": " ++ value)));
      addHeaders toWide handle headers
  end.

(** The loop that reads the body; [None]: the turns are used up. *)
Fixpoint readBody (turns : nat) (handle : Z) (body : bytes) : M (option bytes) :=
  match turns with
  | O => mret None
  | S turns =>
      read ← do (WinHttpReadData handle 8192);
      match (read : option bytes) with
      | None | Some [] => mret (Some body)
      | Some data => if kMaxBody <? zlen body + zlen data then mret (Some body) else readBody turns handle (body ++ data)
      end
  end.

Definition failedResponse : HttpResponse := mkHttpResponse (-1) [] 0.

Section Perform.
Variable multiByteToWide : bytes -> bytes.     (* [MultiByteToWideChar(CP_UTF8, 0, ...)] *)

(** [toWide] *)
Definition toWide (s : bytes) : bytes := if bool_decide (s = []) then [] else multiByteToWide s.

(** [(int)statusCode] *)
Definition toInt (v : Z) : Z := i32 (w32 v).

(** Once the request is sent and a response received. *)
Definition readResponse (turns : nat) (handle : Z) : M (option HttpResponse) :=
  status ← do (QueryStatusCode handle);
  let statusCode := default 0 (status : option Z) in
  retryAfter ← (if (statusCode =? 429) || (statusCode =? 503) then queryRetryAfterSeconds handle else mret 0);
  body ← readBody turns handle [];
  mret (match body with None => None | Some body => Some (mkHttpResponse (toInt statusCode) body retryAfter) end).

(** With the request handle: what is set, added and sent. *)
Definition converse (turns : nat) (request : HttpRequest) (handle : Z) : M (option HttpResponse) :=
  _ ← do (WinHttpSetTimeouts handle (toInt (timeoutMs request)));
  _ ← do (NeverRedirect handle);
  _ ← (if negb (rq_connectPort request =? 0) && negb (rq_connectPort request =? INTERNET_DEFAULT_HTTPS_PORT)
       then _ ← do (WinHttpAddRequestHeaders handle (toWide (str "Host: " ++ rq_host request))); mret () else mret ());
  _ ← addHeaders toWide handle (headers request);
  sent ← do (WinHttpSendRequest handle (rq_body request));
  if negb sent then mret (Some failedResponse) else
  received ← do (WinHttpReceiveResponse handle);
  if negb received then mret (Some failedResponse) else readResponse turns handle.

(** [perform]: the response and the shared session; [None]: the turns are used up. *)
Definition perform (turns : nat) (shared : option Z) (request : HttpRequest) : M (option HttpResponse * option Z) :=
  if bool_decide (rq_host request = []) then mret (Some failedResponse, shared) else
  session ← sharedSession shared;
  match (session : option Z) with
  | None => mret (Some failedResponse, None)
  | Some session =>
      let connectPort := if rq_connectPort request =? 0 then INTERNET_DEFAULT_HTTPS_PORT else rq_connectPort request in
      connection ← do (WinHttpConnect session (toWide (rq_host request)) connectPort);
      match (connection : option Z) with
      | None => mret (Some failedResponse, Some session)
      | Some connection =>
          handle ← do (WinHttpOpenRequest connection (toWide (method request)) (toWide (path request)));
          response ← (match (handle : option Z) with
                      | None => mret (Some failedResponse)
                      | Some handle => response ← converse turns request handle; _ ← do (WinHttpCloseHandle handle); mret response
                      end);
          _ ← do (WinHttpCloseHandle connection);
          mret (response, Some session)
      end
  end.
End Perform.

(** ** Waiting as long as the server says, within reason *)

(** The number a text starts with, capped. *)
Lemma retryAfterLoop_spec value seconds :
  0 <= seconds <= kMaxRetryAfter ->
  retryAfterLoop value seconds = Z.min kMaxRetryAfter (fst (scan_digits value seconds)).
Proof.
  assert (Hmono : forall value seconds, 0 <= seconds -> seconds <= fst (scan_digits value seconds)).
  { clear. induction value as [|c value IH]; intros seconds Hs; cbn; [lia |]. destruct (isdigit c) eqn:E; [| cbn; lia].
    unfold isdigit in E. etransitivity; [| apply IH]; lia. }
  revert seconds. induction value as [|c value IH]; intros seconds Hs; cbn [retryAfterLoop scan_digits]; [cbn; lia |].
  destruct (isdigit c) eqn:E; cbn [negb]; [| cbn; lia]. unfold isdigit in E. unfold kMaxRetryAfter in *.
  rewrite w32_small by lia. destruct (Z.ltb_spec 86400 (seconds * 10 + (c - 48))) as [Hgt|Hle].
  - specialize (Hmono value (seconds * 10 + (c - 48)) ltac:(lia)). lia.
  - apply IH. lia.
Qed.

(** ** What a request does *)

(** Whether a request follows redirects: as it does by itself, never, or as it does by itself
    because the system refused to switch them off. *)
Inductive Policy := Following | Never | Refused.

(** The open handles; the connection and where it leads; the request, whether it follows
    redirects, and the header lines WinHTTP was given for it. *)
Record Net := mkNet {
  open : gset Z;
  connected : option (Z * bytes * Z);
  asking : option (Z * Z * bytes * bytes);
  redirects : Policy;
  lines : list bytes;
}.

Definition after (n : Net) (c : HttpCall) : Reply c -> Net :=
  let 'mkNet o k q d l := n in
  match c return Reply c -> Net with
  | WinHttpOpen => λ r, match r with Some s => mkNet ({[s]} ∪ o) k q d l | None => n end
  | WinHttpConnect _ host port => λ r, match r with Some h => mkNet ({[h]} ∪ o) (Some (h, host, port)) q d l | None => n end
  | WinHttpOpenRequest x m p => λ r, match r with Some h => mkNet ({[h]} ∪ o) k (Some (h, x, m, p)) Following [] | None => n end
  | NeverRedirect _ => λ ok, mkNet o k q (if ok then Never else Refused) l
  | WinHttpAddRequestHeaders _ line => λ _, mkNet o k q d (l ++ [line])
  | WinHttpCloseHandle h => λ _, mkNet (o ∖ {[h]}) k q d l
  | _ => λ _, n
  end.

Definition answers (n : Net) (c : HttpCall) : Reply c -> Prop :=
  match c return Reply c -> Prop with
  | WinHttpOpen | WinHttpConnect _ _ _ | WinHttpOpenRequest _ _ _ => λ r, forall h, r = Some h -> h ∉ open n
  | WinHttpReadData _ size => λ r, forall data, r = Some data -> (length data <= size)%nat
  | _ => λ _, True
  end.

Section Runs.
Variables (multiByteToWide : bytes -> bytes) (request : HttpRequest).
Notation wideOf := (toWide multiByteToWide).

(** The header lines of the request, in order. *)
Definition hostLine : list bytes :=
  if negb (rq_connectPort request =? 0) && negb (rq_connectPort request =? INTERNET_DEFAULT_HTTPS_PORT)
  then [wideOf (str "Host: " ++ rq_host request)] else [].
Definition requestLines : list bytes :=
  hostLine ++
  ((λ '(name, value), wideOf (name ++ str ": " ++ value)) <$> headers request).

(** Handles are open. Headers are added only once redirects were to be switched off, and what
    is sent is the request, to its host. *)
Definition legal (n : Net) (c : HttpCall) : Prop :=
  match c with
  | WinHttpOpen => True
  | WinHttpConnect h _ _ | WinHttpOpenRequest h _ _ | WinHttpSetTimeouts h _ | NeverRedirect h | WinHttpReceiveResponse h
  | QueryStatusCode h | QueryRetryAfter h | WinHttpReadData h _ | WinHttpCloseHandle h => h ∈ open n
  | WinHttpAddRequestHeaders h _ => h ∈ open n /\ redirects n <> Following
  | WinHttpSendRequest h body => h ∈ open n /\ redirects n <> Following /\ body = rq_body request /\ lines n = requestLines /\
      exists connection, asking n = Some (h, connection, wideOf (method request), wideOf (path request)) /\
        connected n = Some (connection, wideOf (rq_host request),
          if rq_connectPort request =? 0 then INTERNET_DEFAULT_HTTPS_PORT else rq_connectPort request)
  end.

Notation wph := (wps legal answers after).

Lemma wph_addHeaders hs h o k q d l (Q : unit -> Net -> Prop) :
  d <> Following -> h ∈ o -> Q tt (mkNet o k q d (l ++ ((λ '(name, value), wideOf (name ++ str ": " ++ value)) <$> hs))) ->
  wph (addHeaders wideOf h hs) (mkNet o k q d l) Q.
Proof.
  intros Hd Ho. revert l. induction hs as [|[name value] hs IH]; intros l HQ; cbn [addHeaders].
  - by rewrite app_nil_r in HQ.
  - apply wps_do; [done |]. intros ? _. cbn [after]. apply IH. by rewrite <- app_assoc.
Qed.

(** Every read that goes on brings at least one byte, so the cap bounds the turns. *)
Lemma wp_readBody turns h b n (Q : option bytes -> Net -> Prop) :
  h ∈ open n -> zlen b <= kMaxBody -> kMaxBody - zlen b < Z.of_nat turns ->
  (forall b', zlen b' <= kMaxBody -> Q (Some b') n) -> wph (readBody turns h b) n Q.
Proof.
  intros Ho. revert b. induction turns as [|turns IH]; intros b Hb Ht HQ; [lia |]. cbn [readBody].
  apply wps_do; [by destruct n |]. intros r _. assert (E : after n (WinHttpReadData h 8192) r = n) by by destruct n. rewrite E.
  destruct r as [[|c data]|]; [by apply HQ | | by apply HQ]. set (dt := c :: data).
  destruct (Z.ltb_spec kMaxBody (zlen b + zlen dt)) as [Hgt|Hle]; [by apply HQ |].
  apply IH; [by rewrite zlen_app | | done]. rewrite zlen_app. unfold dt in *. rewrite zlen_cons in *. pose proof (zlen_nonneg data). lia.
Qed.

(** What [perform] may answer. *)
Definition answered (r : HttpResponse) : Prop :=
  zlen (body r) <= kMaxBody /\ 0 <= retryAfterSeconds r <= kMaxRetryAfter /\
  (retryAfterSeconds r <> 0 -> status r = 429 \/ status r = 503).

Lemma answered_failed : answered failedResponse.
Proof. split; [unfold kMaxBody, zlen; cbn; lia |]. split; [unfold kMaxRetryAfter; cbn; lia | done]. Qed.

Lemma wp_readResponse turns h n (Q : option HttpResponse -> Net -> Prop) :
  h ∈ open n -> kMaxBody < Z.of_nat turns -> (forall r, answered r -> Q (Some r) n) -> wph (readResponse turns h) n Q.
Proof.
  intros Ho Ht HQ. unfold readResponse. apply wps_do; [by destruct n |]. intros status _.
  assert (E : forall r, after n (QueryStatusCode h) r = n) by (intros r; by destruct n). rewrite E. clear E.
  set (code := default 0 status). apply wps_bind.
  assert (Hbody : forall seconds, 0 <= seconds <= kMaxRetryAfter -> (seconds <> 0 -> code = 429 \/ code = 503) ->
    wph (body ← readBody turns h []; mret (match body with None => None | Some body => Some (mkHttpResponse (toInt code) body seconds) end)) n Q).
  { intros seconds Hs Hc. apply wps_bind, wp_readBody; [done | unfold kMaxBody, zlen; cbn; lia | unfold zlen; cbn [length]; lia |].
    intros b Hb. apply HQ. split; [done |]. split; [done |]. intros Hn. destruct (Hc Hn) as [-> | ->]; [by left | by right]. }
  destruct ((code =? 429) || (code =? 503)) eqn:Ec; [| apply Hbody; [unfold kMaxRetryAfter; lia | done]].
  unfold queryRetryAfterSeconds. apply wps_do; [by destruct n |]. intros value _.
  assert (E : after n (QueryRetryAfter h) value = n) by by destruct n. rewrite E. apply Hbody; [| intros _; lia].
  destruct value as [value|]; [| unfold kMaxRetryAfter; lia]. rewrite retryAfterLoop_spec by (unfold kMaxRetryAfter; lia).
  assert (Hpos : forall v acc, 0 <= acc -> 0 <= fst (scan_digits v acc)).
  { clear. induction v as [|c v IH]; intros acc Ha; cbn; [done |]. destruct (isdigit c) eqn:E; [| done]. unfold isdigit in E. apply IH. lia. }
  specialize (Hpos value 0 ltac:(lia)). unfold kMaxRetryAfter. lia.
Qed.

Lemma wp_converse turns h o x d l (Q : option HttpResponse -> Net -> Prop) :
  h ∈ o -> kMaxBody < Z.of_nat turns ->
  let k := Some (x, wideOf (rq_host request), if rq_connectPort request =? 0 then INTERNET_DEFAULT_HTTPS_PORT else rq_connectPort request) in
  let q := Some (h, x, wideOf (method request), wideOf (path request)) in
  l = [] -> (forall r n, open n = o -> answered r -> Q (Some r) n) ->
  wph (converse multiByteToWide turns request h) (mkNet o k q d l) Q.
Proof.
  intros Ho Ht k q -> HQ. unfold converse. apply wps_do; [done |]. intros ? _. cbn [after]. apply wps_do; [done |]. intros off _. cbn [after].
  set (policy := if off then Never else Refused). assert (Hp : policy <> Following) by (unfold policy; by destruct off). clearbody policy.
  assert (Hgo : wph (_ ← addHeaders wideOf h (headers request); sent ← do (WinHttpSendRequest h (rq_body request));
     if negb sent then mret (Some failedResponse) else received ← do (WinHttpReceiveResponse h);
     if negb received then mret (Some failedResponse) else readResponse turns h) (mkNet o k q policy hostLine) Q).
  { apply wps_bind, wph_addHeaders; [done | done |].
    apply wps_do; [split; [done |]; split; [done |]; split; [done |]; split; [done |]; by exists x |].
    intros sent _. cbn [after]. destruct sent; cbn [negb]; [| by apply HQ; [| apply answered_failed]].
    apply wps_do; [done |]. intros received _. cbn [after]. destruct received; cbn [negb]; [| by apply HQ; [| apply answered_failed]].
    apply wp_readResponse; [done | done |]. intros response Hr. by apply HQ. }
  apply wps_bind. unfold hostLine in Hgo. destruct (_ && _); [| exact Hgo]. split; [done |]. intros ? _. exact Hgo.
Qed.

Lemma wp_perform turns shared o k q d l (Q : option HttpResponse * option Z -> Net -> Prop) :
  kMaxBody < Z.of_nat turns -> (forall s, shared = Some s -> s ∈ o) ->
  (forall r s n, open n = o ∪ list_to_set (option_list s) -> answered r -> (forall x, shared = Some x -> s = Some x) -> Q (Some r, s) n) ->
  wph (perform multiByteToWide turns shared request) (mkNet o k q d l) Q.
Proof.
  intros Ht Hs HQ. unfold perform.
  assert (Hno : forall k q d l, Q (Some failedResponse, shared) (mkNet o k q d l)).
  { intros k' q' d' l'. apply HQ; [| apply answered_failed | done]. cbn. destruct shared as [s|]; [specialize (Hs s eq_refl) |]; cbn; set_solver. }
  destruct (bool_decide (rq_host request = [])); [apply Hno |].
  assert (Hgo : forall s o', s ∈ o' -> o' = o ∪ {[s]} -> (forall x, shared = Some x -> s = x) -> wph (
      connection ← do (WinHttpConnect s (wideOf (rq_host request)) (if rq_connectPort request =? 0 then INTERNET_DEFAULT_HTTPS_PORT else rq_connectPort request));
      match (connection : option Z) with
      | None => mret (Some failedResponse, Some s)
      | Some connection =>
          handle ← do (WinHttpOpenRequest connection (wideOf (method request)) (wideOf (path request)));
          response ← (match (handle : option Z) with
                      | None => mret (Some failedResponse)
                      | Some handle => response ← converse multiByteToWide turns request handle; _ ← do (WinHttpCloseHandle handle); mret response
                      end);
          _ ← do (WinHttpCloseHandle connection);
          mret (response, Some s)
      end) (mkNet o' k q d l) Q).
  { intros s o' Hin Eo Hsh.
    assert (HQ' : forall r n, open n = o' -> answered r -> Q (Some r, Some s) n).
    { intros r n Hn Hr. apply HQ; [rewrite Hn, Eo; cbn; set_solver | done | intros x Hx; f_equal; by apply Hsh]. }
    apply wps_do; [done |]. intros connection Hc. destruct connection as [x|]; cbn [after]; [| by apply HQ'; [| apply answered_failed]].
    specialize (Hc x eq_refl). cbn [open] in Hc. apply wps_do; [cbn; set_solver |]. intros handle Hh. apply wps_bind.
    assert (Hend : forall r n, open n = {[x]} ∪ o' -> answered r -> wph (_ ← do (WinHttpCloseHandle x); mret (Some r, Some s)) n Q).
    { intros r n Hn Hr. apply wps_do; [cbn; rewrite Hn; set_solver |]. intros ? _. apply HQ'; [| done]. destruct n. cbn in *. rewrite Hn. set_solver. }
    destruct handle as [h|]; cbn [after]; [| apply Hend; [done | apply answered_failed]].
    specialize (Hh h eq_refl). cbn [open] in Hh. apply wps_bind, wp_converse; [set_solver | done | done |]. intros r n Hn Hr.
    apply wps_do; [cbn; rewrite Hn; set_solver |]. intros ? _. apply Hend; [| done]. destruct n. cbn in *. rewrite Hn. set_solver. }
  apply wps_bind. unfold sharedSession. destruct shared as [s|].
  - specialize (Hs s eq_refl). apply (Hgo s o); [done | set_solver | by intros ? [= <-]].
  - split; [done |]. intros session Hn. destruct session as [s|]; cbn [after]; [| apply Hno].
    specialize (Hn s eq_refl). apply (Hgo s ({[s]} ∪ o)); [set_solver | set_solver | done].
Qed.
End Runs.

(** C37: a request goes where it should and nowhere else. [perform] always ends; it sends
    exactly the request it was given, with its headers in order, over the connection to its
    own host, and no header (so no secret) is attached before redirects are switched off
    (unless WinHTTP refuses that, which [perform] does not look at, nor whether a header is
    taken);
    every handle except the shared session, which is opened once, is closed again and not
    used after; the body is at most 256 KiB, and a server can make the caller wait a day at
    most, with the status codes that mean so. *)
Theorem request_contained multiByteToWide turns shared request o oracle :
  kMaxBody < Z.of_nat turns -> (forall s, shared = Some s -> s ∈ o) ->
  let n0 := mkNet o None None Following [] in
  honest answers after n0 oracle ->
  let '((result, session), h) := play oracle (perform multiByteToWide turns shared request) [] in
  let n := ledger after n0 h in
  valid (legal multiByteToWide request) answers after n0 h /\
  open n = o ∪ list_to_set (option_list session) /\ (forall x, shared = Some x -> session = Some x) /\
  exists r, result = Some r /\ answered r.
Proof.
  intros Ht Hs n0 Ho.
  pose proof (wps_play (legal multiByteToWide request) answers after n0 oracle (perform multiByteToWide turns shared request) []
    (λ r n, open n = o ∪ list_to_set (option_list r.2) /\ (forall x, shared = Some x -> r.2 = Some x) /\ exists a, r.1 = Some a /\ answered a)
    Ho ltac:(done)) as Hrun.
  destruct (play oracle _ []) as [[result session] h]. destruct Hrun as [Hr Hv]; [| by split].
  apply wp_perform; [done | done |]. intros r s n Hn Hr Hx. split; [done |]. split; [done |]. by exists r.
Qed.

(** A server that answers 429 with a long delay and a short body. *)
Definition busyServer (n0 : Net) : Oracle Reply := λ h c,
  match c return Reply c with
  | WinHttpOpen | WinHttpConnect _ _ _ | WinHttpOpenRequest _ _ _ => Some (fresh (open (ledger after n0 h)))
  | NeverRedirect _ | WinHttpAddRequestHeaders _ _ | WinHttpSendRequest _ _ | WinHttpReceiveResponse _ => true
  | QueryStatusCode _ => Some 429
  | QueryRetryAfter _ => Some (str "99999999999")
  | WinHttpReadData _ n => if existsb (λ e, match projT1 e with WinHttpReadData _ _ => true | _ => false end) h then Some [] else Some (take n (str "busy"))
  | _ => tt
  end.
Lemma busyServer_honest n0 : honest answers after n0 (busyServer n0).
Proof.
  intros h c _. destruct c; cbn [busyServer answers]; try done.
  - intros s [= <-]. apply is_fresh.
  - intros s [= <-]. apply is_fresh.
  - intros s [= <-]. apply is_fresh.
  - intros data. case_match; intros [= <-]; [cbn; lia | rewrite length_take; lia].
Qed.

Definition bearerRequest : HttpRequest :=
  mkHttpRequest (str "GET") (str "w.workers.dev") (str "/resolve") [(str "Authorization", str "Bearer s")] [] 4000 8443.
Definition manyTurns : nat := Z.to_nat 262146.
Abbreviation busyRun := (play (busyServer (mkNet ∅ None None Following [])) (perform id manyTurns None bearerRequest) []).
Lemma busyRun_ends : fst (fst busyRun) = Some (mkHttpResponse 429 (str "busy") 86400) /\ length (snd busyRun) = 15%nat.
Proof. split; vm_compute; reflexivity. Qed.
Lemma manyTurns_enough : kMaxBody < Z.of_nat manyTurns.
Proof. unfold manyTurns, kMaxBody. rewrite Z2Nat.id; lia. Qed.
#[local] Opaque manyTurns.

Lemma request_contained_witness :
  fst (fst busyRun) = Some (mkHttpResponse 429 (str "busy") 86400) /\
  valid (legal id bearerRequest) answers after (mkNet ∅ None None Following []) (snd busyRun) /\
  exists r, fst (fst busyRun) = Some r /\ answered r.
Proof.
  destruct busyRun_ends as [E _].
  pose proof (request_contained id manyTurns None bearerRequest ∅ (busyServer (mkNet ∅ None None Following [])) manyTurns_enough
    ltac:(done) (busyServer_honest _)) as H.
  split; [exact E |]. clear E. destruct (play _ _ _) as [[result session] h]. cbn [fst snd]. destruct H as (Hv & _ & _ & Hr).
  exact (conj Hv Hr).
Defined.
