(* ===== verification/WranglerText.v ===== *)
(** * WranglerText: what is said to Wrangler and what it says

    Models the pure functions of [src/src/Wrangler.cpp] and [src/src/Console.hpp]: the
    environment Wrangler is given, its configuration file, and what is read from its
    output. Wide characters are [Z]; [towupper] and [_wcsicmp] are those of the C locale. *)

From S2P Require Import Prelude Json CommandLine.

(** ** Constants *)

Definition kWranglerVersion : bytes := str "4.149.0".
Definition kKeyringVersion : bytes := str "1.3.0".
Definition kProbeTimeoutMs : Z := 120000.
Definition kLoginTimeoutMs : Z := 10 * 60 * 1000.
Definition kDeployTimeoutMs : Z := 5 * 60 * 1000.
Definition kMaxCapturedOutput : Z := 2 * 1024 * 1024.

(** ** Characters *)

Definition islower (c : Z) : bool := (97 <=? c) && (c <=? 122).
Definition isalnum (c : Z) : bool := isdigit c || islower c || ((65 <=? c) && (c <=? 90)).
Definition isspace (c : Z) : bool := (c =? 32) || ((9 <=? c) && (c <=? 13)).
Definition toupper (c : Z) : Z := if islower c then c - 32 else c.
Definition cEquals : Z := 61.
Definition cDot : Z := 46.
Definition cMinus : Z := 45.

(** ** The environment *)

(** The key of an entry; an entry like [=C:=...] has a key that starts with [=]. *)
Definition entryKey (entry : bytes) : bytes :=
  let from := if starts_with entry [cEquals] then 1%nat else 0%nat in
  toupper <$> match find_char entry cEquals from with Some equals => take equals entry | None => entry end.

Definition strippedKeys : list bytes :=
  str <$> ["CLOUDFLARE_API_TOKEN"; "CLOUDFLARE_API_KEY"; "CLOUDFLARE_EMAIL"; "CF_API_TOKEN"; "CF_API_KEY"; "CF_EMAIL";
           "CLOUDFLARE_AUTH_USE_KEYRING"; "NO_COLOR"; "WRANGLER_SEND_METRICS"]%string.

Definition addedEntries : list bytes :=
  str <$> ["CLOUDFLARE_AUTH_USE_KEYRING=true"; "NO_COLOR=1"; "WRANGLER_SEND_METRICS=false"]%string.

(** [_wcsicmp(a, b) <= 0] *)
Fixpoint wcsicmp_le (a b : bytes) : bool :=
  match a, b with
  | [], _ => true
  | _, [] => false
  | x :: a, y :: b => if tolower x <? tolower y then true else if tolower y <? tolower x then false else wcsicmp_le a b
  end.
Definition entry_le (a b : bytes) : Prop := wcsicmp_le a b = true.
#[export] Instance entry_le_dec a b : Decision (entry_le a b).
Proof. unfold entry_le. apply _. Defined.

(** The entries of [sanitizedEnvironment], in the order of [std::sort]; and the block. *)
Definition sanitizedEntries (block : option (list bytes)) : list bytes :=
  merge_sort entry_le (filter (λ entry, entryKey entry ∉ strippedKeys) (default [] block) ++ addedEntries).
Definition sanitizedEnvironment (block : option (list bytes)) : bytes :=
  (sanitizedEntries block ≫= λ entry, entry ++ [0]) ++ [0].

(** [appendCaptured] *)
Definition appendCaptured (destination data : bytes) : bytes :=
  if kMaxCapturedOutput <=? zlen destination then destination
  else destination ++ take (Z.to_nat (Z.min (zlen data) (kMaxCapturedOutput - zlen destination))) data.

(** ** The command line *)

(** One character of [quoteArgument]: what is quoted so far, and the backslashes kept back. *)
Definition quoteStep (s : bytes * nat) (ch : Z) : bytes * nat :=
  let '(quoted, backslashes) := s in
  if ch =? cBackslash then (quoted, S backslashes)
  else if ch =? cQuote then (quoted ++ slashes (backslashes * 2 + 1) ++ [ch], 0%nat)
  else (quoted ++ slashes backslashes ++ [ch], 0%nat).
(** [quoteArgument] of this file *)
Definition quoteValue (value : bytes) : bytes :=
  if negb (bool_decide (value = [])) && negb (existsb (λ ch, bool_decide (ch ∈ [cSpace; 9; 10; 11; cQuote])) value) then value
  else let '(quoted, backslashes) := fold_left quoteStep value ([cQuote], 0%nat) in quoted ++ slashes (backslashes * 2) ++ [cQuote].
Definition commandLine (application : bytes) (arguments : list bytes) : bytes :=
  fold_left (λ line argument, (line ++ [cSpace]) ++ quoteValue argument) arguments (quoteValue application).

(** ** The configuration file *)

Definition nl : bytes := [10].
Definition configLines (accountId workerName : bytes) (withRateLimiter : bool) : list bytes :=
  [str "name = " ++ [cQuote] ++ workerName ++ [cQuote];
   str "main = " ++ [cQuote] ++ str "index.js" ++ [cQuote];
   str "account_id = " ++ [cQuote] ++ accountId ++ [cQuote];
   str "compatibility_date = " ++ [cQuote] ++ str "2024-09-23" ++ [cQuote];
   str "compatibility_flags = [" ++ [cQuote] ++ str "nodejs_compat" ++ [cQuote] ++ str "]";
   str "workers_dev = true"; str "preview_urls = false"; str "send_metrics = false"] ++
  if withRateLimiter then
    [[]; str "[[unsafe.bindings]]"; str "name = " ++ [cQuote] ++ str "RATE_LIMITER" ++ [cQuote];
     str "type = " ++ [cQuote] ++ str "ratelimit" ++ [cQuote]; str "namespace_id = " ++ [cQuote] ++ str "1001" ++ [cQuote];
     str "simple = { limit = 600, period = 60 }"]
  else [].

(** [makeWranglerConfig] *)
Definition makeWranglerConfig (accountId workerName : bytes) (withRateLimiter : bool) : bytes :=
  configLines accountId workerName withRateLimiter ≫= λ line, line ++ nl.

(** [isHexAccountId] *)
Definition isHexAccountId (accountId : bytes) : bool := (zlen accountId =? 32) && forallb isxdigit accountId.

(** [isValidWorkerName] *)
Definition isValidWorkerName (name : bytes) : bool :=
  if bool_decide (name = []) || (63 <? zlen name) || bool_decide (head name = Some cMinus) || bool_decide (last name = Some cMinus)
  then false
  else forallb (λ ch, islower ch || isdigit ch || (ch =? cMinus)) name.

(** [npxArguments] *)
Definition npxArguments (npxCli : bytes) (arguments : list bytes) : list bytes :=
  [npxCli; str "--yes"; str "wrangler@" ++ kWranglerVersion] ++ arguments.

(** ** Accounts *)

Record Account := mkAccount { id_ : bytes; name_ : bytes }.
Record Identity := mkIdentity { email : bytes; accounts : list Account }.

(** The loop of [arrayObjects] at position [i]. *)
Fixpoint objectsFrom (array rest : bytes) (i : nat) (depth : Z) (objectStart : option nat) (inString escaped : bool)
    (objects : list bytes) : list bytes :=
  match rest with
  | [] => objects
  | ch :: rest =>
      let next := objectsFrom array rest (S i) in
      if inString then
        if escaped then next depth objectStart true false objects
        else if ch =? cBackslash then next depth objectStart true true objects
        else next depth objectStart (negb (ch =? cQuote)) false objects
      else if ch =? cQuote then next depth objectStart true escaped objects
      else if ch =? 123 then next (depth + 1) (if depth =? 0 then Some i else objectStart) inString escaped objects
      else if (ch =? 125) && (0 <? depth) then
        match objectStart with
        | Some start =>
            if depth - 1 =? 0 then next 0 None inString escaped (objects ++ [take (i - start + 1) (drop start array)])
            else next (depth - 1) objectStart inString escaped objects
        | None => next (depth - 1) objectStart inString escaped objects
        end
      else next depth objectStart inString escaped objects
  end.
Definition arrayObjects (array : bytes) : list bytes := objectsFrom array array 0 0 None false false [].

(** [parseIdentity] *)
Definition parseIdentity (output : bytes) : option Identity :=
  let accountsJson := getRaw output (str "accounts") in
  if bool_decide (accountsJson = []) then None else
  let found := omap (λ object,
    let id := getString object (str "id") 0 in
    if isHexAccountId id then Some (mkAccount id (getString object (str "name") 0)) else None) (arrayObjects accountsJson) in
  if bool_decide (length found = 0%nat) then None
  else Some (mkIdentity (getString output (str "email") 0) found).

(** ** The address *)

Definition hostChar (c : Z) : bool := isalnum c || (c =? cDot) || (c =? cMinus).

(** The characters a text starts with that a host name may have. *)
Fixpoint hostSpan (text : bytes) : bytes :=
  match text with
  | c :: text => if hostChar c then c :: hostSpan text else []
  | [] => []
  end.

Definition urlPrefix : bytes := str "https://".
Definition workersDev : bytes := str ".workers.dev".

(** Is this the host of the Worker? *)
Definition isWorkerHost (namePrefix host : bytes) : bool :=
  (zlen workersDev <? zlen host) && ends_with host workersDev && starts_with host namePrefix &&
  (zlen namePrefix + zlen workersDev <? zlen host).

(** The loop of [parseWorkersDevUrl]; [None] is out of fuel. *)
Fixpoint urlLoop (fuel : nat) (output namePrefix : bytes) (cursor : nat) : option bytes :=
  match fuel with
  | O => None
  | S fuel =>
      match find_sub output urlPrefix cursor with
      | None => Some []
      | Some cursor =>
          let hostStart := (cursor + length urlPrefix)%nat in
          let raw := hostSpan (drop hostStart output) in
          let host := tolower <$> raw in
          if isWorkerHost namePrefix host then Some (str "wss://" ++ host)
          else urlLoop fuel output namePrefix (hostStart + length raw)
      end
  end.

(** [parseWorkersDevUrl] *)
Definition parseWorkersDevUrl (output workerName : bytes) : bytes :=
  let namePrefix := if bool_decide (workerName = []) then [] else workerName ++ [cDot] in
  default [] (urlLoop (S (length output)) output namePrefix 0).

(** ** The reason of a failure *)

(** The first loop of [lastErrorLine]; [skipping] inside an escape sequence. *)
Fixpoint stripAnsi (skipping : bool) (output : bytes) : bytes :=
  match output with
  | [] => []
  | c :: rest =>
      if skipping then stripAnsi (negb ((64 <=? c) && (c <=? 126))) rest
      else match rest with
           | d :: rest' => if (c =? 27) && (d =? 91) then stripAnsi true rest' else c :: stripAnsi false rest
           | [] => [c]
           end
  end.

Fixpoint splitOn (sep : Z) (text line : bytes) : list bytes :=
  match text with
  | [] => [line]
  | c :: text => if c =? sep then line :: splitOn sep text [] else splitOn sep text (line ++ [c])
  end.

(** [while (!line.empty() && p(line.back())) line.pop_back();] *)
Fixpoint dropWhile (p : Z -> bool) (text : bytes) : bytes :=
  match text with
  | c :: rest => if p c then dropWhile p rest else text
  | [] => []
  end.
Definition trimEnd (p : Z -> bool) (text : bytes) : bytes := reverse (dropWhile p (reverse text)).

(** One line of the second loop. *)
Definition errorOf (found line : bytes) : bytes :=
  let line := trimEnd (λ c, (c =? 13) || (c =? 32)) line in
  match find_sub line (str "[ERROR]") 0 with
  | None => found
  | Some marker =>
      let text := dropWhile (Z.eqb 32) (drop (marker + 7) line) in
      if starts_with text (str "Error: ") then drop 7 text else text
  end.

(** [console::lastErrorLine] *)
Definition lastErrorLine (output : bytes) : bytes := foldl errorOf [] (splitOn 10 (stripAnsi false output) []).

(** ** The environment is safe *)

Lemma entryKey_added : entryKey <$> addedEntries = str <$> ["CLOUDFLARE_AUTH_USE_KEYRING"; "NO_COLOR"; "WRANGLER_SEND_METRICS"]%string.
Proof. reflexivity. Qed.

Lemma wcsicmp_total a b : wcsicmp_le a b = true \/ wcsicmp_le b a = true.
Proof.
  revert b. induction a as [|x a IH]; intros [|y b]; cbn; auto.
  destruct (Z.ltb_spec (tolower x) (tolower y)), (Z.ltb_spec (tolower y) (tolower x)); auto; lia.
Qed.
#[export] Instance entry_le_total : Total entry_le.
Proof. intros a b. apply wcsicmp_total. Qed.

(** Reading a block: texts that end with a zero, up to an empty one. *)
Definition blockEntries (block : bytes) : list bytes := splitOn 0 block [].

Lemma splitOn_line sep line text acc : sep ∉ line -> splitOn sep (line ++ [sep] ++ text) acc = (acc ++ line) :: splitOn sep text [].
Proof.
  revert acc. induction line as [|c line IH]; intros acc Hl; cbn.
  - by rewrite Z.eqb_refl, app_nil_r.
  - apply not_elem_of_cons in Hl as [Hc Hl]. destruct (Z.eqb_spec c sep); [congruence |].
    rewrite (IH _ Hl). by rewrite <- app_assoc.
Qed.
Lemma splitOn_lines sep lines text :
  Forall (λ line, sep ∉ line) lines -> splitOn sep ((lines ≫= λ line, line ++ [sep]) ++ text) [] = lines ++ splitOn sep text [].
Proof.
  induction 1 as [|line lines Hl _ IH]; [done |]. rewrite bind_cons, <- !app_assoc, splitOn_line by done. by rewrite IH.
Qed.

(** the environment Wrangler gets. Whatever the caller's environment, the block read
    back has none of the entries that would make Wrangler use an API token instead of the
    keyring, in any spelling of their names, except the three that are added; it has these
    three, every other entry of the caller's and no more, in the order Windows demands. *)
Theorem environment_sanitized block :
  Forall (λ entry, 0 ∉ entry) (default [] block) ->
  exists entries, blockEntries (sanitizedEnvironment block) = entries ++ [[]; []] /\
    entries ≡ₚ filter (λ entry, entryKey entry ∉ strippedKeys) (default [] block) ++ addedEntries /\
    Sorted entry_le entries /\
    (forall entry, entry ∈ entries -> entryKey entry ∈ strippedKeys -> entry ∈ addedEntries) /\
    length (filter (λ entry, entryKey entry = str "CLOUDFLARE_AUTH_USE_KEYRING") entries) = 1%nat.
Proof.
  intros Hz. exists (sanitizedEntries block). unfold blockEntries, sanitizedEnvironment.
  assert (P : sanitizedEntries block ≡ₚ filter (λ entry, entryKey entry ∉ strippedKeys) (default [] block) ++ addedEntries)
    by apply merge_sort_Permutation.
  assert (Hz' : Forall (λ entry, 0 ∉ entry) (sanitizedEntries block)).
  { rewrite P. apply Forall_app. split; [| by apply (bool_decide_eq_true_1 (Forall _ _)); vm_compute].
    rewrite Forall_forall in Hz |- *. intros e [_ He]%list_elem_of_filter. by apply Hz. }
  split; [rewrite splitOn_lines by done; reflexivity |]. split; [exact P |]. split; [apply Sorted_merge_sort, _ |]. split.
  - intros e He Hk. rewrite P in He. apply elem_of_app in He as [[He _]%list_elem_of_filter|He]; [done | exact He].
  - rewrite P. rewrite filter_app, length_app.
    rewrite (filter_none _ (filter _ _)); [reflexivity |]. apply Forall_forall. intros e [He _]%list_elem_of_filter E.
    apply He. rewrite E. by apply (bool_decide_eq_true_1 (_ ∈ _)); vm_compute.
Qed.

Lemma environment_sanitized_witness :
  let block := Some (str <$> ["=C:=C:\x"; "Path=C:\w"; "cloudflare_api_token=t"]%string) in
  Forall (λ entry, 0 ∉ entry) (default [] block) /\
  exists entries, blockEntries (sanitizedEnvironment block) = entries ++ [[]; []] /\
    entries = str <$> ["=C:=C:\x"; "CLOUDFLARE_AUTH_USE_KEYRING=true"; "NO_COLOR=1"; "Path=C:\w"; "WRANGLER_SEND_METRICS=false"]%string.
Proof.
  intros block. assert (Hz : Forall (λ entry, 0 ∉ entry) (default [] block)) by (apply (bool_decide_eq_true_1 (Forall _ _)); by vm_compute).
  split; [exact Hz |]. destruct (environment_sanitized block Hz) as (entries & E & _). exists entries. split; [exact E |].
  assert (E' : entries ++ [[]; []] = (str <$> ["=C:=C:\x"; "CLOUDFLARE_AUTH_USE_KEYRING=true"; "NO_COLOR=1"; "Path=C:\w"; "WRANGLER_SEND_METRICS=false"]%string) ++ [[]; []])
    by (rewrite <- E; by vm_compute).
  by apply app_inv_tail in E'.
Defined.

(** ** The configuration names what it should *)

(** A text that needs no escape inside quotes. *)
Definition tomlPlain (text : bytes) : Prop := Forall (λ c, c <> cQuote /\ c <> cBackslash /\ 32 <= c <= 126) text.

Lemma forallb_Forall (p : Z -> bool) l : forallb p l = true -> Forall (λ c, p c = true) l.
Proof. rewrite forallb_forall. intros H. apply Forall_forall. intros c Hc. apply H. by apply list_elem_of_In. Qed.
Lemma hex_id_plain a : isHexAccountId a = true -> tomlPlain a.
Proof.
  unfold isHexAccountId. intros [_ H%forallb_Forall]%andb_true_iff. apply (Forall_impl _ _ _ H). intros c.
  unfold isxdigit, isdigit, cQuote, cBackslash. lia.
Qed.
Lemma worker_name_chars n : isValidWorkerName n = true ->
  n <> [] /\ zlen n <= 63 /\ Forall (λ c, islower c || isdigit c || (c =? cMinus) = true) n.
Proof.
  unfold isValidWorkerName. destruct (bool_decide_reflect (n = [])); [done |]. destruct (Z.ltb_spec 63 (zlen n)); [done |].
  destruct (bool_decide (head n = Some cMinus)); [done |]. destruct (bool_decide (last n = Some cMinus)); [done |].
  intros Hc%forallb_Forall. done.
Qed.
Lemma worker_name_plain n : isValidWorkerName n = true -> tomlPlain n.
Proof.
  intros (_ & _ & H)%worker_name_chars. apply (Forall_impl _ _ _ H). intros c.
  unfold islower, isdigit, cQuote, cBackslash, cMinus. lia.
Qed.
Lemma tomlPlain_no t c : tomlPlain t -> c < 32 \/ c = cQuote -> c ∉ t.
Proof. unfold tomlPlain. rewrite Forall_forall. intros H Hc Hin. specialize (H c Hin). unfold cQuote in *. lia. Qed.

(** The value of a quoted setting: on the first line that sets the key, up to the quote that
    ends the line. *)
Definition tomlValue (key : string) (text : bytes) : option bytes :=
  let opening := str key ++ str " = " ++ [cQuote] in
  line ← head (filter (λ line, starts_with line opening = true) (splitOn 10 text []));
  match splitOn cQuote (drop (length opening) line) [] with
  | [value; []] => Some value
  | _ => None
  end.

Lemma configLines_no_nl a n rl : tomlPlain a -> tomlPlain n -> Forall (λ line, 10 ∉ line) (configLines a n rl).
Proof.
  intros Ha Hn. pose proof (tomlPlain_no a 10 Ha ltac:(lia)). pose proof (tomlPlain_no n 10 Hn ltac:(lia)).
  assert (Hs : forall s, forallb (λ c, negb (c =? 10)) (str s) = true -> 10 ∉ str s).
  { intros s Hs%forallb_Forall Hin. rewrite Forall_forall in Hs. by specialize (Hs 10 Hin). }
  assert (Hq : 10 ∉ [cQuote]) by (by rewrite list_elem_of_singleton).
  apply Forall_app. split.
  - repeat (apply Forall_cons; split; [repeat (apply not_elem_of_app; split); first [done | by apply Hs] |]). done.
  - destruct rl; [| done].
    repeat (apply Forall_cons; split; [repeat (apply not_elem_of_app; split); first [done | by apply Hs | set_solver] |]). done.
Qed.

Lemma starts_with_app p rest : starts_with (p ++ rest) p = true.
Proof. apply bool_decide_eq_true_2, take_app_length. Qed.
Lemma starts_with_head line p : starts_with line p = true -> p <> [] -> head line = head p.
Proof. intros Hs%bool_decide_eq_true Hp. destruct p as [|d p], line as [|c line]; cbn in Hs |- *; congruence. Qed.

(** A setting is found behind lines that start otherwise. *)
Lemma tomlValue_line key before value after text :
  let opening := str key ++ str " = " ++ [cQuote] in
  splitOn 10 text [] = before ++ (opening ++ value ++ [cQuote]) :: after ->
  Forall (λ line, head line <> head opening) before -> str key <> [] -> cQuote ∉ value -> tomlValue key text = Some value.
Proof.
  intros opening E Hb Hk Hv. unfold tomlValue. fold opening. rewrite E, filter_app, filter_none.
  2: { apply (Forall_impl _ _ _ Hb). intros line Hl Hs. apply Hl, starts_with_head; [done |]. unfold opening. by destruct (str key). }
  rewrite filter_cons_True by apply starts_with_app. cbn [app head mbind option_bind]. rewrite drop_app_length.
  pose proof (splitOn_line cQuote value [] [] Hv) as Hs. cbn [app] in Hs. by rewrite Hs.
Qed.

(** The configuration file written for an account and a name that passed the checks of
    [deploy] sets exactly these, in one line each. *)
Theorem config_names a n rl :
  isHexAccountId a = true -> isValidWorkerName n = true ->
  splitOn 10 (makeWranglerConfig a n rl) [] = configLines a n rl ++ [[]] /\
  tomlValue "name" (makeWranglerConfig a n rl) = Some n /\ tomlValue "account_id" (makeWranglerConfig a n rl) = Some a /\
  tomlValue "main" (makeWranglerConfig a n rl) = Some (str "index.js").
Proof.
  intros Ha%hex_id_plain Hn%worker_name_plain.
  assert (E : splitOn 10 (makeWranglerConfig a n rl) [] = configLines a n rl ++ [[]]).
  { unfold makeWranglerConfig. rewrite <- (app_nil_r (_ ≫= _)). by rewrite splitOn_lines by by apply configLines_no_nl. }
  split; [exact E |].
  pose proof (tomlPlain_no a cQuote Ha ltac:(by right)) as Qa. pose proof (tomlPlain_no n cQuote Hn ltac:(by right)) as Qn.
  split; [| split].
  - apply (tomlValue_line _ [] n (drop 1 (configLines a n rl) ++ [[]])); [rewrite E; reflexivity | done..].
  - apply (tomlValue_line _ (take 2 (configLines a n rl)) a (drop 3 (configLines a n rl) ++ [[]])); [rewrite E; reflexivity | by repeat constructor | done | done].
  - apply (tomlValue_line _ (take 1 (configLines a n rl)) (str "index.js") (drop 2 (configLines a n rl) ++ [[]])); [rewrite E; reflexivity | by repeat constructor | done |].
    apply (bool_decide_eq_false_1 (_ ∈ _)). reflexivity.
Qed.

(** ** The address is the Worker's *)

Lemma hostSpan_spec text :
  exists rest, text = hostSpan text ++ rest /\ Forall (λ c, hostChar c = true) (hostSpan text) /\
    (forall c, head rest = Some c -> hostChar c = false).
Proof.
  induction text as [|c text (rest & E & Hf & Hr)]; [by exists [] |]. cbn [hostSpan]. destruct (hostChar c) eqn:Hc.
  - exists rest. split; [cbn; by f_equal |]. split; [by constructor | done].
  - exists (c :: text). split; [done |]. split; [done |]. by intros ? [= <-].
Qed.
Lemma hostSpan_app host rest :
  Forall (λ c, hostChar c = true) host -> (forall c, head rest = Some c -> hostChar c = false) -> hostSpan (host ++ rest) = host.
Proof.
  intros Hh Hr. induction Hh as [|c host Hc _ IH]; cbn.
  - destruct rest as [|c rest]; [done |]. cbn. by rewrite (Hr c eq_refl).
  - by rewrite Hc, IH.
Qed.
Lemma isWorkerHost_spec np host :
  isWorkerHost np host = true <-> exists sub, sub <> [] /\ host = np ++ sub ++ workersDev.
Proof.
  unfold isWorkerHost. rewrite !andb_true_iff. split.
  - intros [[[_ [Hl%bool_decide_eq_true Hd%bool_decide_eq_true]%andb_true_iff] Hs%bool_decide_eq_true] Hn%Z.ltb_lt].
    unfold zlen in Hn. pose proof (take_drop (length np) host) as E1. rewrite Hs in E1.
    set (tail := drop (length np) host) in *. rewrite <- E1 in Hd, Hn, Hl. rewrite length_app in Hn, Hl, Hd.
    rewrite drop_app_ge in Hd by lia. replace (length np + length tail - length workersDev - length np)%nat with (length tail - length workersDev)%nat in Hd by lia.
    exists (take (length tail - length workersDev) tail). split.
    + intros E. apply (f_equal length) in E. rewrite length_take in E. cbn [length] in E. lia.
    + rewrite <- E1 at 1. f_equal. rewrite <- Hd at 2. by rewrite take_drop.
  - intros (sub & Hne & ->). unfold ends_with, starts_with. rewrite take_app_length, !zlen_app.
    assert (0 < zlen sub) by (destruct sub; [done |]; unfold zlen; cbn [length]; lia).
    pose proof (zlen_nonneg np). split; [split; [split |] |].
    + apply Z.ltb_lt. lia.
    + apply andb_true_iff. split; [apply bool_decide_eq_true_2; rewrite !length_app; lia |]. apply bool_decide_eq_true_2.
      rewrite app_assoc, (length_app (np ++ sub)). replace (length (np ++ sub) + length workersDev - length workersDev)%nat with (length (np ++ sub)) by lia.
      apply drop_app_length.
    + by apply bool_decide_eq_true_2.
    + apply Z.ltb_lt. lia.
Qed.

(** The text at [p] starts with [https://]. *)
Lemma urlPrefix_at (output : bytes) p :
  starts_with (drop p output) urlPrefix = true -> (p <= length output)%nat ->
  output = take p output ++ urlPrefix ++ drop (p + length urlPrefix) output.
Proof.
  intros Hs%bool_decide_eq_true Hp. rewrite <- (take_drop p output) at 1. f_equal. rewrite <- drop_drop. rewrite <- Hs at 1. by rewrite take_drop.
Qed.

Definition foundAt (output np url : bytes) : Prop :=
  exists pre raw rest, output = pre ++ urlPrefix ++ raw ++ rest /\ Forall (λ c, hostChar c = true) raw /\
    isWorkerHost np (tolower <$> raw) = true /\ url = str "wss://" ++ (tolower <$> raw).

Lemma urlLoop_spec fuel output np cursor :
  (length output - cursor < fuel)%nat ->
  exists url, urlLoop fuel output np cursor = Some url /\ (url = [] \/ foundAt output np url).
Proof.
  revert cursor. induction fuel as [|fuel IH]; intros cursor Hf; [lia |]. cbn [urlLoop].
  pose proof (find_sub_spec output urlPrefix cursor ltac:(done)) as Hs.
  destruct (find_sub output urlPrefix cursor) as [p|]; [| exists []; split; [done | by left]].
  destruct Hs as (Hp & Hs & _). pose proof (urlPrefix_at output p Hs ltac:(lia)) as E.
  destruct (hostSpan_spec (drop (p + length urlPrefix) output)) as (rest & E2 & Hc & _).
  set (raw := hostSpan _) in *. destruct (isWorkerHost np (tolower <$> raw)) eqn:Ew.
  - eexists. split; [done |]. right. exists (take p output), raw, rest. split; [by rewrite <- E2 |]. done.
  - apply IH. change (length urlPrefix) with 8%nat. lia.
Qed.

Lemma worker_url_loop output name :
  name <> [] -> parseWorkersDevUrl output name = [] \/
  exists sub, parseWorkersDevUrl output name = str "wss://" ++ name ++ [cDot] ++ sub ++ str ".workers.dev".
Proof.
  intros Hne. unfold parseWorkersDevUrl. rewrite bool_decide_false by done.
  destruct (urlLoop_spec (S (length output)) output (name ++ [cDot]) 0 ltac:(lia)) as (url & -> & [-> |(pre & raw & rest & E & Hc & Hw & ->)]); [by left |].
  right. apply isWorkerHost_spec in Hw as (sub & Hs & Ew). exists sub. cbn [default from_option id]. by rewrite Ew, <- app_assoc.
Qed.

(** the address read from Wrangler's output is the Worker's. It is empty or
    [wss://<name>.<subdomain>.workers.dev] in lower case with some subdomain, made of
    characters of host names only, from a link that is in the output; and a link of that
    form that is the first one in the output is found. *)
Theorem worker_url_exact output name :
  name <> [] ->
  (parseWorkersDevUrl output name = [] \/
   exists pre raw rest sub, output = pre ++ str "https://" ++ raw ++ rest /\ Forall (λ c, hostChar c = true) raw /\ sub <> [] /\
     tolower <$> raw = name ++ str "." ++ sub ++ str ".workers.dev" /\
     parseWorkersDevUrl output name = str "wss://" ++ name ++ str "." ++ sub ++ str ".workers.dev") /\
  (forall pre sub rest, output = pre ++ str "https://" ++ (name ++ str "." ++ sub ++ str ".workers.dev") ++ rest ->
     sub <> [] -> Forall (λ c, hostChar c = true /\ tolower c = c) (name ++ sub) ->
     (forall c, head rest = Some c -> hostChar c = false) ->
     (forall q, (q < length pre)%nat -> starts_with (drop q output) (str "https://") = false) ->
     parseWorkersDevUrl output name = str "wss://" ++ name ++ str "." ++ sub ++ str ".workers.dev").
Proof.
  intros Hne. unfold parseWorkersDevUrl. rewrite bool_decide_false by done. split.
  - destruct (urlLoop_spec (S (length output)) output (name ++ [cDot]) 0 ltac:(lia)) as (url & -> & [-> |(pre & raw & rest & E & Hc & Hw & ->)]); [by left |].
    right. apply isWorkerHost_spec in Hw as (sub & Hs & Ew). exists pre, raw, rest, sub. cbn [default from_option id].
    rewrite <- app_assoc in Ew. split; [exact E |]. split; [done |]. split; [done |]. split; [done |]. by rewrite Ew.
  - intros pre sub rest E Hs Hl Hr Hfirst. set (host := name ++ str "." ++ sub ++ str ".workers.dev") in *.
    assert (Hhost : Forall (λ c, hostChar c = true /\ tolower c = c) host).
    { apply Forall_app in Hl as [Hl1 Hl2]. unfold host. rewrite !Forall_app. split; [done |]. split; [by repeat constructor |].
      split; [done |]. by apply (bool_decide_eq_true_1 (Forall _ _)); vm_compute. }
    apply Forall_and in Hhost as [Hh1 Hh2].
    assert (El : tolower <$> host = host) by (clear -Hh2; induction Hh2; cbn; [done |]; by f_equal).
    assert (Hfind : find_sub output urlPrefix 0 = Some (length pre)).
    { pose proof (find_sub_spec output urlPrefix 0 ltac:(done)) as Hf.
      assert (Ht : starts_with (drop (length pre) output) urlPrefix = true) by (rewrite E, drop_app_length; apply starts_with_app).
      destruct (find_sub output urlPrefix 0) as [p|]; [| by rewrite (Hf (length pre) ltac:(lia)) in Ht].
      destruct Hf as (Hp & Hs' & Hb). destruct (decide (p < length pre)%nat) as [Hlt|Hge]; [unfold urlPrefix in Hs'; by rewrite (Hfirst p Hlt) in Hs' |].
      destruct (decide (p = length pre)) as [-> |Hn]; [done |]. by rewrite (Hb (length pre) ltac:(lia)) in Ht. }
    cbn [urlLoop]. rewrite Hfind.
    assert (Ed : drop (length pre + length urlPrefix) output = host ++ rest)
      by (rewrite E, <- drop_drop, drop_app_length; apply (drop_app_length urlPrefix)).
    rewrite Ed, (hostSpan_app host rest Hh1 Hr), El.
    replace (isWorkerHost (name ++ [cDot]) host) with true; [done |]. symmetry. apply isWorkerHost_spec. exists sub. split; [done |].
    unfold host. by rewrite <- app_assoc.
Qed.

Lemma worker_url_exact_witness :
  let output := str "Deployed relay triggers" ++ nl ++ str "  https://docs.x.dev  https://Relay.Me.workers.dev" in
  parseWorkersDevUrl output (str "relay") = str "wss://relay.me.workers.dev" /\
  exists pre raw rest sub, output = pre ++ str "https://" ++ raw ++ rest /\ Forall (λ c, hostChar c = true) raw /\ sub <> [] /\
     tolower <$> raw = str "relay" ++ str "." ++ sub ++ str ".workers.dev" /\
     parseWorkersDevUrl output (str "relay") = str "wss://" ++ str "relay" ++ str "." ++ sub ++ str ".workers.dev".
Proof.
  intros output. assert (E : parseWorkersDevUrl output (str "relay") = str "wss://relay.me.workers.dev") by by vm_compute.
  split; [exact E |]. destruct (worker_url_exact output (str "relay") ltac:(done)) as [[H|H] _]; [| exact H].
  exfalso. rewrite E in H. vm_compute in H. discriminate.
Defined.

(** Accounts that are offered have proper identifiers, and there is one. *)
Theorem identity_proper output identity :
  parseIdentity output = Some identity ->
  accounts identity <> [] /\ Forall (λ a, isHexAccountId (id_ a) = true) (accounts identity).
Proof.
  unfold parseIdentity. destruct (bool_decide (getRaw _ _ = [])); [done |]. set (found := omap _ _).
  destruct (bool_decide_reflect (length found = 0%nat)) as [|Hn]; [done |]. intros [= <-]. cbn [accounts]. split; [by destruct found |].
  apply Forall_forall. intros a (object & _ & Ho)%list_elem_of_omap. cbn in Ho.
  destruct (isHexAccountId _) eqn:E; [| done]. by injection Ho as <-.
Qed.

(** Never more than the bound is kept of a child's output. *)
Lemma appendCaptured_bound d data : zlen d <= kMaxCapturedOutput -> zlen (appendCaptured d data) <= kMaxCapturedOutput.
Proof. intros Hd. unfold appendCaptured. case_if; [done |]. rewrite zlen_app, zlen_take. lia. Qed.

(** ** The command line is read back as it was written *)

Lemma quoteStep_loop value s :
  let s' := fold_left quoteStep value s in s'.1 ++ slashes (s'.2 * 2) ++ [cQuote] = s.1 ++ quoteLoop value s.2.
Proof.
  revert s. induction value as [|c value IH]; intros [quoted n]; [done |]. cbn [fold_left quoteStep quoteLoop fst snd].
  destruct (c =? cBackslash); [apply IH |]. destruct (c =? cQuote); cbn zeta; rewrite IH; cbn [fst snd]; by rewrite <- !app_assoc.
Qed.
Lemma quoteValue_same value : quoteValue value = quoteArgument value.
Proof.
  unfold quoteValue, quoteArgument. replace (existsb _ value) with (existsb mustQuote value).
  - destruct (negb _ && negb _); [done |]. pose proof (quoteStep_loop value ([cQuote], 0%nat)) as E. by destruct (fold_left quoteStep _ _).
  - induction value as [|c value IH]; [done |]. cbn [existsb]. rewrite IH. f_equal. unfold mustQuote.
    apply eq_true_iff_eq. rewrite existsb_exists, bool_decide_eq_true, list_elem_of_In. split.
    + by intros (x & Hx & ->%Z.eqb_eq).
    + intros Hx. exists c. split; [done | apply Z.eqb_refl].
Qed.

(** The command line is the application followed by the quoted arguments, which the rules
    of the C runtime split again into exactly these arguments. *)
Theorem commandLine_read application arguments :
  commandLine application arguments = quoteArgument application ++ appendArguments arguments /\
  splitArguments false None (appendArguments arguments) = arguments.
Proof.
  split; [| apply append_survives]. unfold commandLine. rewrite quoteValue_same. generalize (quoteArgument application).
  induction arguments as [|a arguments IH]; intros line; cbn [fold_left].
  - by rewrite app_nil_r.
  - rewrite IH, quoteValue_same. unfold appendArguments. cbn [mbind list_bind]. by rewrite <- !app_assoc.
Qed.
