(* ===== verification/Wrangler.v ===== *)
(** * Wrangler: running Wrangler and deploying the Worker

    Models [runProcess], [TemporaryWorkerDirectory], [findNpxRuntime],
    [ensureKeyringBinding] and [Client] of [src/src/Wrangler.cpp] as programs of [Calls].
    The destructors of the handles ([struct Handle]) and of the temporary directory are the
    calls they make, in the order C++ makes them. The operations of [std::filesystem::path]
    are the class [Paths]. *)

From S2P Require Import Prelude Calls Json Resolver Config CommandLine Files WranglerText.

(** [a / b], [parent_path] and [filename]; no law of them is needed. *)
Class Paths := { join : wide -> string -> wide; parent_path : wide -> wide; filename : wide -> wide }.

(** ** Calls *)

Inductive DeployCall :=
  (* processes *)
  | SearchPathW (file : string) (size : Z)      (* the length, and the path *)
  | IsRegularFile (path : wide)
  | CreatePipe                                  (* read end, write end *)
  | NoInherit (h : Z)                           (* [SetHandleInformation] *)
  | GetEnvironmentStringsW | FreeEnvironmentStringsW
  | AttributeListSize | InitializeAttributes | ListHandles (hs : list Z) | DeleteAttributes
  | CreateProcessW (application commandLine environment directory : wide) (stdin stdout : Z)  (* process, thread *)
  | CreateJobObjectW | KillOnJobClose (job : Z) | AssignProcess (job process : Z)
  | ResumeThread (thread : Z)
  | PipeWrite (pipe : Z) (data : bytes) | PeekPipe (pipe : Z) | PipeRead (pipe : Z) (size : nat) | Echo (data : bytes)
  | WaitProcess (process ms : Z) | GetTickCount64 | TerminateJob (job : Z) | TerminateProcess (process : Z)
  | GetExitCode (process : Z)
  | CloseHandle (h : Z)
  (* files *)
  | GetTempPathW | GetTempFileNameW (directory : wide) | CreateDirectoryW (path : wide) | RemoveDirectoryW (path : wide)
  | DeleteFile (path : wide)
  | WriteAtomic (file content : bytes)          (* [fileutil::writeAtomic] *)
  (* setup *)
  | GetLine                                     (* [None]: the end of the input *)
  | GenRandom (count : Z)                       (* [BCryptGenRandom] *)
  | ConfigDirectory                             (* [Config::configDirPath]: is it known? *)
  | CreateDirectories                           (* of the configuration *)
  | ProtectSecret (secret : bytes)              (* [secure::protect]; empty: it failed *)
  | WriteConfig (content : bytes)               (* [fileutil::writeAtomic] of the configuration *)
  | Perform (request : HttpRequest)             (* [http::perform] *)
  | Sleep (ms : Z).

Definition Reply (c : DeployCall) : Type :=
  match c with
  | SearchPathW _ _ => Z * wide
  | CreatePipe | CreateProcessW _ _ _ _ _ _ => option (Z * Z)
  | GetEnvironmentStringsW => option (list wide)
  | AttributeListSize | GetTickCount64 => Z
  | InitializeAttributes | ListHandles _ | AssignProcess _ _ | WaitProcess _ _ | IsRegularFile _ | CreateDirectoryW _
  | WriteAtomic _ _ | DeleteFile _ | RemoveDirectoryW _ | ConfigDirectory | CreateDirectories | WriteConfig _ => bool
  | CreateJobObjectW | GetExitCode _ => option Z
  | PipeWrite _ _ => bool * nat
  | PeekPipe _ => option nat
  | PipeRead _ _ | GetTempPathW | GetTempFileNameW _ | GetLine | GenRandom _ => option bytes
  | ProtectSecret _ => bytes
  | Perform _ => HttpResponse
  | _ => unit
  end.

Definition M (A : Type) : Type := Sys Reply A.
#[export] Instance deploy_ret : MRet M := λ A, Done.
#[export] Instance deploy_bind : MBind M := λ A B, sys_bind.
Definition do (c : DeployCall) : M (Reply c) := call c.

(** ** A child process *)

Definition ERROR_GEN_FAILURE : Z := 31.
Record ProcessResult := mkProcessResult { launched : bool; timedOut : bool; exitCode : Z; output : bytes }.
Definition noProcess : ProcessResult := mkProcessResult false false ERROR_GEN_FAILURE [].

(** [ProcessResult::ok] *)
Definition succeeded (r : ProcessResult) : bool := launched r && negb (timedOut r) && (exitCode r =? 0).

(** Destructors of [Handle]s, last one first. *)
Fixpoint closeHandles (hs : list Z) : M unit :=
  match hs with
  | [] => mret ()
  | h :: hs => _ ← do (CloseHandle h); closeHandles hs
  end.

(** [environment = sanitizedEnvironment()] *)
Definition takeEnvironment : M wide :=
  block ← do GetEnvironmentStringsW;
  _ ← (match (block : option (list wide)) with Some _ => do FreeEnvironmentStringsW | None => mret () end);
  mret (sanitizedEnvironment block).

(** The loop that writes [input]; every turn that goes on wrote at least one byte. *)
Fixpoint writeInput (fuel : nat) (pipe : Z) (input : bytes) : M unit :=
  match fuel, input with
  | S fuel, _ :: _ =>
      let chunk := Z.min (zlen input) (2 ^ 32 - 1) in
      '(ok, written) ← do (PipeWrite pipe (take (Z.to_nat chunk) input));
      if negb ok || bool_decide (written = 0%nat) then mret () else writeInput fuel pipe (drop written input)
  | _, _ => mret ()
  end.

(** The inner loop: what is in the pipe is read; [None]: the turns are used up. *)
Fixpoint drain (turns : nat) (pipe : Z) (echoOutput : bool) (output : bytes) : M (option bytes) :=
  match turns with
  | O => mret None
  | S turns =>
      available ← do (PeekPipe pipe);
      match (available : option nat) with
      | None | Some O => mret (Some output)
      | Some available =>
          read ← do (PipeRead pipe (Nat.min available 4096));
          match (read : option bytes) with
          | None | Some [] => mret (Some output)
          | Some data =>
              _ ← (if echoOutput then do (Echo data) else mret ());
              drain turns pipe echoOutput (appendCaptured output data)
          end
      end
  end.

(** The outer loop: whether the time was up, and the output. *)
Fixpoint watch (turns inner : nat) (process pipe : Z) (job : option Z) (echoOutput : bool) (deadline : Z)
    (processEnded expired : bool) (output : bytes) : M (option (bool * bytes)) :=
  match turns with
  | O => mret None
  | S turns =>
      drained ← drain inner pipe echoOutput output;
      match drained with
      | None => mret None
      | Some output =>
          if processEnded then mret (Some (expired, output)) else
          ended ← do (WaitProcess process 50);
          if (ended : bool) then watch turns inner process pipe job echoOutput deadline true expired output else
          now ← do GetTickCount64;
          if deadline <=? now then
            _ ← (match job with Some job => do (TerminateJob job) | None => do (TerminateProcess process) end);
            _ ← do (WaitProcess process 5000);
            watch turns inner process pipe job echoOutput deadline true true output
          else watch turns inner process pipe job echoOutput deadline false expired output
      end
  end.

(** [Handle job(CreateJobObjectW(...))] and what follows until the thread is resumed *)
Definition makeJob (process thread : Z) : M (option Z) :=
  job ← do CreateJobObjectW;
  job ← (match (job : option Z) with
         | None => mret None
         | Some job =>
             _ ← do (KillOnJobClose job);
             assigned ← do (AssignProcess job process);
             if (assigned : bool) then mret (Some job) else _ ← do (CloseHandle job); mret None
         end);
  _ ← do (ResumeThread thread);
  mret job.

(** Once the child runs: its input, its output, its exit code, and the destructors. *)
Definition attend (turns inner : nat) (process thread outputRead inputWrite : Z) (input : bytes) (echoOutput : bool)
    (timeoutMs : Z) : M (option ProcessResult) :=
  job ← makeJob process thread;
  _ ← writeInput (length input) inputWrite input;
  _ ← do (CloseHandle inputWrite);
  now ← do GetTickCount64;
  watched ← watch turns inner process outputRead job echoOutput (now + timeoutMs) false false [];
  match watched with
  | None => mret None
  | Some (expired, output) =>
      code ← do (GetExitCode process);
      _ ← closeHandles (option_list job ++ [thread; process; outputRead]);
      mret (Some (mkProcessResult true expired (default ERROR_GEN_FAILURE code) output))
  end.

(** [runProcess] once both pipes are there. *)
Definition spawn (turns inner : nat) (application : wide) (arguments : list wide) (workingDirectory : wide) (input : bytes)
    (echoOutput : bool) (timeoutMs : Z) (outputRead outputWrite inputRead inputWrite : Z) : M (option ProcessResult) :=
  _ ← do (NoInherit outputRead);
  _ ← do (NoInherit inputWrite);
  environment ← takeEnvironment;
  let giveUp := (_ ← closeHandles [inputWrite; inputRead; outputWrite; outputRead]; mret (Some noProcess)) : M (option ProcessResult) in
  attributeSize ← do AttributeListSize;
  if attributeSize =? 0 then giveUp else
  initialized ← do InitializeAttributes;
  if negb initialized then giveUp else
  attributesReady ← do (ListHandles [inputRead; outputWrite]);
  created ← (if (attributesReady : bool)
             then do (CreateProcessW application (commandLine application arguments) environment workingDirectory inputRead outputWrite)
             else mret None);
  _ ← do DeleteAttributes;
  match (created : option (Z * Z)) with
  | None => giveUp
  | Some (process, thread) =>
      _ ← do (CloseHandle inputRead);
      _ ← do (CloseHandle outputWrite);
      attend turns inner process thread outputRead inputWrite input echoOutput timeoutMs
  end.

(** [runProcess]; [None]: the turns of a loop are used up. *)
Definition runProcess (turns inner : nat) (application : wide) (arguments : list wide) (workingDirectory : wide) (input : bytes)
    (echoOutput : bool) (timeoutMs : Z) : M (option ProcessResult) :=
  out ← do CreatePipe;
  match (out : option (Z * Z)) with
  | None => mret (Some noProcess)
  | Some (outputRead, outputWrite) =>
      inp ← do CreatePipe;
      match (inp : option (Z * Z)) with
      | None => _ ← closeHandles [outputRead; outputWrite]; mret (Some noProcess)
      | Some (inputRead, inputWrite) =>
          spawn turns inner application arguments workingDirectory input echoOutput timeoutMs outputRead outputWrite inputRead inputWrite
      end
  end.

(** ** The client *)

(** [searchPath]; the answer of [SearchPathW] without room is the room it needs. *)
Definition searchPath (file : string) : M wide :=
  '(required, _) ← do (SearchPathW file 0);
  if required =? 0 then mret [] else
  '(length_, path) ← do (SearchPathW file required);
  if (length_ =? 0) || (required <=? length_) then mret [] else mret (take (Z.to_nat length_) path).

Section Client.
Context `{!CodePages, !Paths}.
(** Turns of the two loops of [runProcess]. *)
Variables turns inner : nat.

Definition run := runProcess turns inner.

(** [utf8Path] *)
Definition utf8Path (path : wide) : bytes :=
  if bool_decide (path = []) then [] else default [] (WideCharToMultiByte path).

(** [findNpxRuntime]'s loop over [roots] *)
Fixpoint firstCli (node : wide) (roots : list wide) : M (wide * wide) :=
  match roots with
  | [] => mret ([], [])
  | root :: roots =>
      let cli := join (join (join (join root "node_modules") "npm") "bin") "npx-cli.js" in
      found ← do (IsRegularFile cli);
      if (found : bool) then mret (node, cli) else firstCli node roots
  end.

Definition findNpxRuntime : M (wide * wide) :=
  node ← searchPath "node.exe";
  if bool_decide (node = []) then mret ([], []) else
  npx ← searchPath "npx.cmd";
  let roots := if bool_decide (npx = []) then [] else
    let npxDir := parent_path npx in
    [npxDir] ++ if bool_decide (filename npxDir = str "bin") then [parent_path (parent_path (parent_path npxDir))] else [] in
  firstCli node ([parent_path node] ++ roots).

Record Client := mkClient { nodePath_ : wide; npxCliPath_ : wide }.

(** The constructor. *)
Definition newClient : M Client := '(node, npx) ← findNpxRuntime; mret (mkClient node npx).

Definition trim (text : bytes) : bytes := dropWhile isspace (trimEnd isspace text).

(** A run whose loops may use their turns up. *)
Definition orStop {A} (p : M (option ProcessResult)) (k : ProcessResult -> M (option A)) : M (option A) :=
  r ← p; match r with None => mret None | Some r => k r end.

(** [ensureKeyringBinding] *)
Definition ensureKeyringBinding (c : Client) : M (option bool) :=
  let npmCli := join (parent_path (npxCliPath_ c)) "npm-cli.js" in
  there ← do (IsRegularFile npmCli);
  if negb there then mret (Some true) else
  orStop (run (nodePath_ c) [npmCli; str "root"; str "-g"] [] [] false kProbeTimeoutMs) (λ root,
  let path := trim (output root) in
  installed ← (if succeeded root && negb (bool_decide (path = []))
               then do (IsRegularFile (join (join (join (widen path) "@napi-rs") "keyring") "index.js"))
               else mret false);
  if (installed : bool) then mret (Some true) else
  orStop (run (nodePath_ c) [npmCli; str "install"; str "-g"; str "@napi-rs/keyring@" ++ kKeyringVersion;
                             str "--no-audit"; str "--no-fund"; str "--loglevel=error"] [] [] false kProbeTimeoutMs) (λ install,
  mret (Some (succeeded install)))).

(** [Client::available] *)
Definition available (c : Client) : M (option bool) :=
  if bool_decide (nodePath_ c = []) || bool_decide (npxCliPath_ c = []) then mret (Some false) else
  orStop (run (nodePath_ c) (npxArguments (npxCliPath_ c) [str "--version"]) [] [] false kProbeTimeoutMs) (λ r,
  mret (Some (succeeded r))).

(** [Client::loginWithKeyring] *)
Definition loginWithKeyring (c : Client) : M (option bool) :=
  ensured ← ensureKeyringBinding c;
  match ensured with
  | None => mret None
  | Some false => mret (Some false)
  | Some true =>
      orStop (run (nodePath_ c) (npxArguments (npxCliPath_ c) [str "login"; str "--use-keyring"]) [] [] false kLoginTimeoutMs) (λ r,
      mret (Some (succeeded r)))
  end.

(** [Client::whoami] *)
Definition whoami (c : Client) : M (option (option Identity)) :=
  orStop (run (nodePath_ c) (npxArguments (npxCliPath_ c) [str "whoami"; str "--json"]) [] [] false kProbeTimeoutMs) (λ r,
  mret (Some (if succeeded r then parseIdentity (output r) else None))).

(** ** Deploying *)

Record DeployResult := mkDeployResult { success : bool; deployedUrl : bytes }.
Definition notDeployed : DeployResult := mkDeployResult false [].

(** The constructor of [TemporaryWorkerDirectory]; the empty path is an invalid one. *)
Definition temporaryDirectory : M wide :=
  temp ← do GetTempPathW;
  match (temp : option bytes) with
  | None => mret []
  | Some temp =>
      candidate ← do (GetTempFileNameW temp);
      match (candidate : option bytes) with
      | None => mret []
      | Some candidate =>
          _ ← do (DeleteFile candidate);
          created ← do (CreateDirectoryW candidate);
          mret (if (created : bool) then candidate else [])
      end
  end.

(** Its destructor. *)
Definition removeDirectory (directory : wide) : M unit :=
  if bool_decide (directory = []) then mret () else
  _ ← do (DeleteFile (join directory "index.js"));
  _ ← do (DeleteFile (join directory "wrangler.toml"));
  _ ← do (RemoveDirectoryW directory);
  mret ().

(** [deployCode] *)
Definition deployCode (c : Client) (directory : wide) : M (option ProcessResult) :=
  run (nodePath_ c)
    (npxArguments (npxCliPath_ c) [str "deploy"; str "--config"; join directory "wrangler.toml"; str "--no-autoconfig"])
    directory [] false kDeployTimeoutMs.

(** [wrangler secret put SHARED_SECRET] *)
Definition putSecret (c : Client) (directory : wide) (sharedSecret : bytes) : M (option ProcessResult) :=
  run (nodePath_ c)
    (npxArguments (npxCliPath_ c) [str "secret"; str "put"; str "SHARED_SECRET"; str "--config"; join directory "wrangler.toml"])
    directory (sharedSecret ++ [10]) false kDeployTimeoutMs.

(** The address: from the output, or the previous one when it is of this Worker. *)
Definition deployedAddress (text workerName previousWorkerUrl : bytes) : bytes :=
  let url := parseWorkersDevUrl text workerName in
  if bool_decide (url = []) && starts_with previousWorkerUrl (str "wss://" ++ workerName ++ [cDot]) &&
     ends_with previousWorkerUrl (str ".workers.dev")
  then previousWorkerUrl else url.

(** The code is deployed with the rate limiter, or else once more without it; the results
    of [wrangler deploy], or nothing when the second configuration could not be written. *)
Definition deployTwice (c : Client) (directory : wide) (accountId workerName : bytes) : M (option (option ProcessResult)) :=
  orStop (deployCode c directory) (λ first,
  if succeeded first then mret (Some (Some first)) else
  rewritten ← do (WriteAtomic (utf8Path (join directory "wrangler.toml")) (makeWranglerConfig accountId workerName false));
  if negb rewritten then mret (Some None) else
  orStop (deployCode c directory) (λ second, mret (Some (Some second)))).

(** [deploy] inside the temporary directory *)
Definition deployIn (c : Client) (directory : wide) (accountId workerName workerSource sharedSecret previousWorkerUrl : bytes)
    : M (option DeployResult) :=
  let scriptFile := utf8Path (join directory "index.js") in
  let configFile := utf8Path (join directory "wrangler.toml") in
  written ← (if bool_decide (scriptFile = []) || bool_decide (configFile = []) then mret false else
             script ← do (WriteAtomic scriptFile workerSource);
             if negb script then mret false else do (WriteAtomic configFile (makeWranglerConfig accountId workerName true)));
  if negb written then mret (Some notDeployed) else
  code ← deployTwice c directory accountId workerName;
  match code with
  | None => mret None
  | Some None => mret (Some notDeployed)
  | Some (Some code) =>
      if negb (succeeded code) then mret (Some notDeployed) else
      orStop (putSecret c directory sharedSecret) (λ secret,
      if negb (succeeded secret) then mret (Some notDeployed) else
      let url := deployedAddress (output code) workerName previousWorkerUrl in
      mret (Some (mkDeployResult (negb (bool_decide (url = []))) url)))
  end.

(** [Client::deploy] *)
Definition deploy (c : Client) (accountId workerName workerSource sharedSecret previousWorkerUrl : bytes) : M (option DeployResult) :=
  if negb (isHexAccountId accountId) || negb (isValidWorkerName workerName) || bool_decide (workerSource = []) ||
     bool_decide (sharedSecret = [])
  then mret (Some notDeployed) else
  directory ← temporaryDirectory;
  if bool_decide (directory = []) then mret (Some notDeployed) else
  result ← deployIn c directory accountId workerName workerSource sharedSecret previousWorkerUrl;
  match result with
  | None => mret None
  | Some result => _ ← removeDirectory directory; mret (Some result)
  end.
End Client.

(** ** The world of the calls *)

(** A process that was started: what it was given. *)
Record Child := mkChild {
  ch_application : wide; ch_command : wide; ch_environment : wide; ch_directory : wide;
  ch_input : bytes;
  ch_cut : bool;               (* writing its input was refused *)
}.
Definition feed (data : bytes) (cut : bool) (c : Child) : Child :=
  mkChild (ch_application c) (ch_command c) (ch_environment c) (ch_directory c) (ch_input c ++ data) (ch_cut c || cut).
(** The last child reads [data]. *)
Definition feedLast (data : bytes) (cut : bool) (l : list Child) : list Child :=
  match reverse l with
  | c :: before => reverse before ++ [feed data cut c]
  | [] => []
  end.

Record World := mkWorld {
  handles : gset Z;            (* open handles *)
  attributes : bool;           (* an attribute list is initialized *)
  environment : bool;          (* an environment block is held *)
  inheritable : gset Z;        (* pipe ends a child could inherit *)
  listed : list Z;             (* the handles of the attribute list *)
  children : list Child;
  written : gset bytes;        (* files written and not deleted *)
  directories : gset wide;     (* directories created and not removed *)
  clock : Z;
  pending : nat;               (* how much the children will still say *)
  stuck : gset bytes * gset wide; (* files and directories the system refused to delete *)
}.

Section World.
Context `{!CodePages}.

Definition after (w : World) (c : DeployCall) : Reply c -> World :=
  let 'mkWorld o a e i l ch f d ck pd st := w in
  match c return Reply c -> World with
  | CreatePipe => λ r, match r with Some (x, y) => mkWorld ({[x; y]} ∪ o) a e ({[x; y]} ∪ i) l ch f d ck pd st | None => w end
  | NoInherit h => λ _, mkWorld o a e (i ∖ {[h]}) l ch f d ck pd st
  | GetEnvironmentStringsW => λ r, match r with Some _ => mkWorld o a true i l ch f d ck pd st | None => w end
  | FreeEnvironmentStringsW => λ _, mkWorld o a false i l ch f d ck pd st
  | InitializeAttributes => λ ok, if ok then mkWorld o true e i [] ch f d ck pd st else w
  | ListHandles hs => λ ok, if ok then mkWorld o a e i hs ch f d ck pd st else w
  | DeleteAttributes => λ _, mkWorld o false e i [] ch f d ck pd st
  | CreateProcessW app cmd env dir _ _ => λ r, match r with
      | Some (p, t) => mkWorld ({[p; t]} ∪ o) a e i l (ch ++ [mkChild app cmd env dir [] false]) f d ck pd st
      | None => w end
  | CreateJobObjectW => λ r, match r with Some j => mkWorld ({[j]} ∪ o) a e i l ch f d ck pd st | None => w end
  | PipeWrite _ data => λ '(ok, n),
      mkWorld o a e i l (feedLast (take n data) (negb ok || bool_decide (n = 0%nat)) ch) f d ck pd st
  | PipeRead _ _ => λ r, match r with Some data => mkWorld o a e i l ch f d ck (pd - length data) st | None => w end
  | WaitProcess _ _ => λ ended, if ended then w else mkWorld o a e i l ch f d (ck + 1) pd st
  | GetTickCount64 => λ now, mkWorld o a e i l ch f d now pd st
  | CloseHandle h => λ _, mkWorld (o ∖ {[h]}) a e (i ∖ {[h]}) l ch f d ck pd st
  | CreateDirectoryW p => λ ok, if ok then mkWorld o a e i l ch f ({[p]} ∪ d) ck pd st else w
  | GetTempFileNameW _ => λ r, match r with Some p => mkWorld o a e i l ch ({[utf8Path p]} ∪ f) d ck pd st | None => w end
  | RemoveDirectoryW p => λ ok,
      if ok then mkWorld o a e i l ch f (d ∖ {[p]}) ck pd st else mkWorld o a e i l ch f d ck pd (st.1, {[p]} ∪ st.2)
  | DeleteFile p => λ ok,
      if ok then mkWorld o a e i l ch (f ∖ {[utf8Path p]}) d ck pd st
      else mkWorld o a e i l ch f d ck pd ((f ∩ {[utf8Path p]}) ∪ st.1, st.2)
  | WriteAtomic p _ => λ ok, if ok then mkWorld o a e i l ch ({[p]} ∪ f) d ck pd st else w
  | _ => λ _, w
  end.

(** Handles and directories are new; the pipe gives what there is; the clock goes on, and does when a wait
    was in vain. *)
Definition answers (w : World) (c : DeployCall) : Reply c -> Prop :=
  match c return Reply c -> Prop with
  | CreatePipe => λ r, forall x y, r = Some (x, y) -> x ∉ handles w /\ y ∉ handles w /\ x <> y
  | CreateProcessW _ _ _ _ _ _ => λ r, forall x y, r = Some (x, y) -> x ∉ handles w /\ y ∉ handles w /\ x <> y
  | CreateJobObjectW => λ r, forall j, r = Some j -> j ∉ handles w
  | GetTempFileNameW _ => λ r, r <> Some []
  | CreateDirectoryW p => λ ok, ok = true -> p ∉ directories w
  | PipeWrite _ data => λ '(_, n), (n <= length data)%nat
  | PipeRead _ size => λ r, forall data, r = Some data -> (length data <= size)%nat /\ (length data <= pending w)%nat
  | GetTickCount64 => λ now, clock w <= now
  | _ => λ _, True
  end.

(** Calls are made on open handles only; a child is started with exactly the two pipe ends
    that are its own, and no other end of a pipe can be inherited. The calls of the setup are
    not made here. *)
Definition legal (w : World) (c : DeployCall) : Prop :=
  match c with
  | NoInherit h | KillOnJobClose h | ResumeThread h | PipeWrite h _ | PeekPipe h | PipeRead h _ | WaitProcess h _
  | TerminateJob h | TerminateProcess h | GetExitCode h | CloseHandle h => h ∈ handles w
  | AssignProcess j p => j ∈ handles w /\ p ∈ handles w
  | GetEnvironmentStringsW => environment w = false
  | FreeEnvironmentStringsW => environment w = true
  | InitializeAttributes => attributes w = false
  | ListHandles hs => attributes w = true /\ Forall (λ h, h ∈ handles w) hs
  | DeleteAttributes => attributes w = true
  | CreateProcessW _ _ _ _ i o =>
      attributes w = true /\ listed w = [i; o] /\ i ∈ handles w /\ o ∈ handles w /\ inheritable w ⊆ {[i; o]}
  | GetLine | GenRandom _ | ConfigDirectory | CreateDirectories | ProtectSecret _ | WriteConfig _ | Perform _ | Sleep _ => False
  | _ => True
  end.

Notation wpd := (wps legal answers after).

Lemma wp_closeHandles hs o a e i l ch f d ck pd st (Q : unit -> World -> Prop) :
  NoDup hs -> Forall (λ h, h ∈ o) hs ->
  Q tt (mkWorld (o ∖ list_to_set hs) a e (i ∖ list_to_set hs) l ch f d ck pd st) ->
  wpd (closeHandles hs) (mkWorld o a e i l ch f d ck pd st) Q.
Proof.
  revert o i. induction hs as [|h hs IH]; intros o i Hn Ho HQ; cbn [closeHandles].
  - cbn in HQ. by rewrite !difference_empty_L in HQ.
  - apply NoDup_cons in Hn as [Hh Hn]. apply Forall_cons in Ho as [Hho Ho]. apply wps_do; [done |]. intros r _. cbn [after].
    apply IH; [done | |].
    + rewrite Forall_forall in Ho |- *. intros x Hx. specialize (Ho x Hx). apply elem_of_difference. split; [done |].
      intros ->%elem_of_singleton. done.
    + cbn [list_to_set] in HQ. by rewrite <- !difference_difference_l_L in HQ.
Qed.

(** The environment a child gets is a sanitized one. *)
Lemma wp_takeEnvironment {A} (k : wide -> M A) o a i l ch f d ck pd st Q :
  (forall block, wpd (k (sanitizedEnvironment block)) (mkWorld o a false i l ch f d ck pd st) Q) ->
  wpd (takeEnvironment ≫= k) (mkWorld o a false i l ch f d ck pd st) Q.
Proof.
  intros HQ. apply wps_bind. unfold takeEnvironment. apply wps_do; [done |]. intros block _. destruct block as [block|]; cbn [after].
  - apply wps_do; [done |]. intros ? _. cbn [after]. apply HQ.
  - apply (HQ None).
Qed.

Lemma feedLast_snoc data cut l c : feedLast data cut (l ++ [c]) = l ++ [feed data cut c].
Proof. unfold feedLast. rewrite reverse_snoc. by rewrite reverse_involutive. Qed.

Lemma feed_none c : feed [] false c = c.
Proof. destruct c. unfold feed. cbn. by rewrite app_nil_r, orb_false_r. Qed.
Lemma feed_feed a b x y c : feed b y (feed a x c) = feed (a ++ b) (x || y) c.
Proof. destruct c. unfold feed. cbn. by rewrite app_assoc, orb_assoc. Qed.

(** All of the input, unless writing it was refused. *)
Definition given (sent : bytes) (cut : bool) (input : bytes) : Prop := if cut then sent `prefix_of` input else sent = input.

Lemma wp_writeInput fuel pipe input o a e i l ch c f d ck pd st (Q : unit -> World -> Prop) :
  pipe ∈ o -> (length input <= fuel)%nat ->
  (forall sent cut, given sent cut input -> Q tt (mkWorld o a e i l (ch ++ [feed sent cut c]) f d ck pd st)) ->
  wpd (writeInput fuel pipe input) (mkWorld o a e i l (ch ++ [c]) f d ck pd st) Q.
Proof.
  intros Hp. revert input c. induction fuel as [|fuel IH]; intros input c Hfuel HQ.
  - destruct input; [| cbn in Hfuel; lia]. rewrite <- (feed_none c). by apply HQ.
  - destruct input as [|b input]; [rewrite <- (feed_none c); by apply HQ |]. cbn [writeInput]. set (data := b :: input) in *.
    apply wps_do; [done |]. intros [ok n] Hn. cbn [answers] in Hn. cbn [after]. rewrite feedLast_snoc.
    set (sent := take n (take _ data)).
    assert (Hs : sent = take n data).
    { unfold sent. rewrite take_take. f_equal. rewrite length_take in Hn. lia. }
    destruct (negb ok || bool_decide (n = 0%nat)) eqn:E; cbn [wps].
    + apply HQ. rewrite Hs. apply prefix_take.
    + apply orb_false_iff in E as [_ En%bool_decide_eq_false]. apply IH; [rewrite length_drop; unfold data in *; cbn [length] in *; lia |].
      intros sent' cut Hg. rewrite feed_feed. apply HQ. rewrite Hs. unfold given in *. destruct cut; cbn [orb].
      * destruct Hg as [rest Hpre]. exists rest. rewrite <- app_assoc, <- Hpre. by rewrite take_drop.
      * rewrite Hg. apply take_drop.
Qed.

Lemma wp_drain inner pipe echo output o a e i l ch f d ck pd st (Q : option bytes -> World -> Prop) :
  pipe ∈ o -> (pd < inner)%nat -> zlen output <= kMaxCapturedOutput ->
  (forall out pd', (pd' <= pd)%nat -> zlen out <= kMaxCapturedOutput -> Q (Some out) (mkWorld o a e i l ch f d ck pd' st)) ->
  wpd (drain inner pipe echo output) (mkWorld o a e i l ch f d ck pd st) Q.
Proof.
  intros Hp. revert output pd. induction inner as [|inner IH]; intros output pd Hpd Hout HQ; [lia |]. cbn [drain].
  apply wps_do; [done |]. intros available _. destruct available as [[|n]|]; cbn [after]; [by apply HQ | | by apply HQ].
  apply wps_do; [done |]. intros read Hr. destruct read as [[|b data]|]; cbn [after].
  - apply HQ; [cbn; lia | done].
  - destruct (Hr _ eq_refl) as [_ Hlen]. cbn [pending] in Hlen. set (dt := b :: data) in *.
    assert (Hgo : wpd (drain inner pipe echo (appendCaptured output dt)) (mkWorld o a e i l ch f d ck (pd - length dt) st) Q).
    { apply IH; [unfold dt in *; cbn [length] in *; lia | by apply appendCaptured_bound |]. intros out pd' Hpd' Ho. apply HQ; [lia | done]. }
    destruct echo; [apply wps_do; [done |]; intros ? _; exact Hgo | exact Hgo].
  - by apply HQ.
Qed.

Lemma wp_watch turns inner process pipe job echo deadline ended expired output o a e i l ch f d ck pd st
    (Q : option (bool * bytes) -> World -> Prop) :
  process ∈ o -> pipe ∈ o -> (forall j, job = Some j -> j ∈ o) -> (pd < inner)%nat -> zlen output <= kMaxCapturedOutput ->
  (if ended : bool then 0 else 1 + Z.max 0 (deadline - ck)) < Z.of_nat turns ->
  (forall x out ck' pd', (pd' <= pd)%nat -> zlen out <= kMaxCapturedOutput -> Q (Some (x, out)) (mkWorld o a e i l ch f d ck' pd' st)) ->
  wpd (watch turns inner process pipe job echo deadline ended expired output) (mkWorld o a e i l ch f d ck pd st) Q.
Proof.
  intros Hpr Hpi Hj. revert ended expired output ck pd.
  induction turns as [|turns IH]; intros ended expired output ck pd Hpd Hout Hturns HQ; [destruct ended; lia |].
  cbn [watch]. apply wps_bind, wp_drain; [done | done | done |]. intros out pd' Hpd' Hout'.
  assert (HQ' : forall x out ck'' pd'', (pd'' <= pd')%nat -> zlen out <= kMaxCapturedOutput ->
    Q (Some (x, out)) (mkWorld o a e i l ch f d ck'' pd'' st)) by (intros x out' ck'' pd'' Hle Hz; apply HQ; [lia | done]).
  destruct ended; [by apply HQ' |]. apply wps_do; [done |]. intros r _. destruct r; cbn [after].
  { apply IH; [lia | done | lia | done]. }
  apply wps_do; [done |]. intros now Hnow. cbn [answers clock] in Hnow. cbn [after]. destruct (Z.leb_spec deadline now) as [Hd|Hd].
  - destruct job as [j|].
    + apply wps_do; [by apply Hj |]. intros ? _. apply wps_do; [done |]. intros r' _. destruct r'; (apply IH; [lia | done | lia | done]).
    + apply wps_do; [done |]. intros ? _. apply wps_do; [done |]. intros r' _. destruct r'; (apply IH; [lia | done | lia | done]).
  - apply IH; [lia | done | lia | done].
Qed.

(** The handle of the job, if there is one. *)
Definition owned (job : option Z) : gset Z := list_to_set (option_list job).
Lemma owned_some j (o : gset Z) : owned (Some j) ∪ o = {[j]} ∪ o.
Proof. unfold owned. cbn. set_solver. Qed.
Lemma owned_none (o : gset Z) : owned None ∪ o = o.
Proof. unfold owned. cbn. set_solver. Qed.

Lemma wp_makeJob {A} process thread (k : option Z -> M A) o a e i l ch f d ck pd st Q :
  process ∈ o -> thread ∈ o -> i ⊆ o ->
  (forall job, (forall j, job = Some j -> j ∉ o) -> wpd (k job) (mkWorld (owned job ∪ o) a e i l ch f d ck pd st) Q) ->
  wpd (makeJob process thread ≫= k) (mkWorld o a e i l ch f d ck pd st) Q.
Proof.
  intros Hp Ht Hi HQ. apply wps_bind. unfold makeJob. apply wps_do; [done |]. intros job Hjob. destruct job as [j|]; cbn [after].
  - specialize (Hjob j eq_refl). cbn [handles] in Hjob. apply wps_bind. apply wps_do; [cbn; set_solver |]. intros ? _. cbn [after].
    apply wps_do; [cbn; set_solver |]. intros assigned _. destruct assigned; cbn [after].
    + cbn [wps mret]. apply wps_do; [cbn; set_solver |]. intros ? _. cbn [after wps mret].
      specialize (HQ (Some j) ltac:(by intros ? [= <-])). by rewrite owned_some in HQ.
    + apply wps_do; [cbn; set_solver |]. intros ? _. cbn [after wps mret].
      assert (({[j]} ∪ o) ∖ {[j]} = o) as -> by set_solver. assert (i ∖ {[j]} = i) as -> by set_solver.
      apply wps_do; [done |]. intros ? _. cbn [after wps mret].
      specialize (HQ None ltac:(done)). by rewrite owned_none in HQ.
  - cbn [wps mret]. apply wps_do; [done |]. intros ? _. cbn [after wps mret].
    specialize (HQ None ltac:(done)). by rewrite owned_none in HQ.
Qed.

Lemma wp_attend turns inner process thread outputRead inputWrite input echo timeoutMs o1 l ch c f d ck pd st (Q : option ProcessResult -> World -> Prop) :
  NoDup [thread; process; outputRead; inputWrite] -> Forall (λ h, h ∈ o1) [thread; process; outputRead; inputWrite] ->
  (pd < inner)%nat -> 0 <= timeoutMs -> timeoutMs + 1 < Z.of_nat turns ->
  (forall x code out sent cut ck' pd', (pd' <= pd)%nat -> zlen out <= kMaxCapturedOutput -> given sent cut input ->
     Q (Some (mkProcessResult true x code out))
       (mkWorld (o1 ∖ list_to_set [thread; process; outputRead; inputWrite]) false false ∅ l (ch ++ [feed sent cut c]) f d ck' pd' st)) ->
  wpd (attend turns inner process thread outputRead inputWrite input echo timeoutMs) (mkWorld o1 false false ∅ l (ch ++ [c]) f d ck pd st) Q.
Proof.
  intros Hnd Ho Hpd Ht0 Ht HQ. rewrite !Forall_cons in Ho. destruct Ho as (Hth & Hpr & Hor & Hiw & _).
  unfold attend. apply wp_makeJob; [done | done | set_solver |]. intros job Hjob.
  apply wps_bind, wp_writeInput; [set_solver | done |]. intros sent cut Hsent.
  apply wps_do; [cbn; set_solver |]. intros ? _. cbn [after]. assert ((∅ : gset Z) ∖ {[inputWrite]} = ∅) as -> by set_solver.
  apply wps_do; [done |]. intros now Hnow. cbn [answers clock] in Hnow. cbn [after].
  rewrite !NoDup_cons, !not_elem_of_cons in Hnd. destruct Hnd as ((? & ? & ? & _) & (? & ? & _) & (? & _) & _).
  assert (Hj : forall j, job = Some j -> j <> inputWrite /\ j <> thread /\ j <> process /\ j <> outputRead).
  { intros j E. specialize (Hjob j E). split_and!; intros ->; contradiction. }
  apply wps_bind, wp_watch; [set_solver | set_solver | | done | unfold kMaxCapturedOutput, zlen; cbn [length]; lia | lia |].
  { intros j ->. specialize (Hj j eq_refl). unfold owned. cbn. set_solver. }
  intros x out ck' pd' Hpd' Hout. apply wps_do; [cbn; set_solver |]. intros code _. cbn [after].
  apply wps_bind, wp_closeHandles.
  - destruct job as [j|]; [specialize (Hj j eq_refl) |]; cbn; rewrite !NoDup_cons, !not_elem_of_cons;
      (split_and!; try apply not_elem_of_nil; try apply NoDup_nil_2; try done; try (by apply Hj)).
  - destruct job as [j|]; [specialize (Hj j eq_refl) |]; cbn; rewrite !Forall_cons; split_and!; try done;
      unfold owned; cbn; set_solver.
  - assert ((∅ : gset Z) ∖ list_to_set (option_list job ++ [thread; process; outputRead]) = ∅) as -> by set_solver.
    assert ((((owned job ∪ o1) ∖ {[inputWrite]}) ∖ list_to_set (option_list job ++ [thread; process; outputRead])) =
      o1 ∖ list_to_set [thread; process; outputRead; inputWrite]) as ->; [| by apply HQ].
    rewrite list_to_set_app_L. fold (owned job). assert (Hd : owned job ## o1).
    { unfold owned. destruct job as [j|]; cbn; [specialize (Hjob j eq_refl); set_solver | set_solver]. }
    clear -Hd. cbn [list_to_set]. set_solver.
Qed.

(** What running a process leaves behind: the child and what it was given. *)
Definition spawned (application : wide) (arguments : list wide) (directory : wide) (input : bytes) (started : bool) (kids : list Child) : Prop :=
  if started then exists block sent cut, given sent cut input /\
    kids = [mkChild application (commandLine application arguments) (sanitizedEnvironment block) directory sent cut]
  else kids = [].

Definition ends_run (o : gset Z) (ch : list Child) (f : gset bytes) (d : gset wide) (pd : nat) (st : gset bytes * gset wide) (application : wide) (arguments : list wide)
    (directory : wide) (input : bytes) (Q : option ProcessResult -> World -> Prop) : Prop :=
  forall r l' ck' pd' kids, (pd' <= pd)%nat -> zlen (output r) <= kMaxCapturedOutput ->
    spawned application arguments directory input (launched r) kids -> (launched r = false -> r = noProcess) ->
    Q (Some r) (mkWorld o false false ∅ l' (ch ++ kids) f d ck' pd' st).

Lemma ends_run_none o ch f d pd st application arguments directory input (Q : option ProcessResult -> World -> Prop) l ck :
  ends_run o ch f d pd st application arguments directory input Q -> Q (Some noProcess) (mkWorld o false false ∅ l ch f d ck pd st).
Proof. intros HQ. rewrite <- (app_nil_r ch). by apply HQ. Qed.

Lemma wp_spawn turns inner application arguments directory input echo timeoutMs outputRead outputWrite inputRead inputWrite o l ch f d ck pd st Q :
  NoDup [outputRead; outputWrite; inputRead; inputWrite] -> Forall (λ h, h ∉ o) [outputRead; outputWrite; inputRead; inputWrite] ->
  (pd < inner)%nat -> 0 <= timeoutMs -> timeoutMs + 1 < Z.of_nat turns ->
  ends_run o ch f d pd st application arguments directory input Q ->
  let pipes := {[inputRead; inputWrite]} ∪ ({[outputRead; outputWrite]} ∪ o) in
  wpd (spawn turns inner application arguments directory input echo timeoutMs outputRead outputWrite inputRead inputWrite)
    (mkWorld pipes false false ({[inputRead; inputWrite]} ∪ ({[outputRead; outputWrite]} ∪ ∅)) l ch f d ck pd st) Q.
Proof.
  intros Hnd Ho Hpd Ht0 Ht HQ pipes. rewrite !Forall_cons in Ho. destruct Ho as (Ho1 & Ho2 & Ho3 & Ho4 & _).
  pose proof Hnd as Hnd'. rewrite !NoDup_cons, !not_elem_of_cons in Hnd. destruct Hnd as ((? & ? & ? & _) & (? & ? & _) & (? & _) & _).
  unfold spawn. apply wps_do; [cbn; set_solver |]. intros ? _. cbn [after]. apply wps_do; [cbn; set_solver |]. intros ? _. cbn [after].
  set (ends := (_ ∖ _) ∖ _). assert (Hends : ends ⊆ {[inputRead; outputWrite]}) by (unfold ends; set_solver). clearbody ends.
  apply wp_takeEnvironment. intros block.
  assert (Hclosed : pipes ∖ list_to_set [inputWrite; inputRead; outputWrite; outputRead] = o).
  { unfold pipes. cbn [list_to_set]. set_solver. }
  assert (Hgive : forall l', wpd (_ ← closeHandles [inputWrite; inputRead; outputWrite; outputRead]; mret (Some noProcess))
    (mkWorld pipes false false ends l' ch f d ck pd st) Q).
  { intros l'. apply wps_bind, wp_closeHandles.
    - rewrite !NoDup_cons, !not_elem_of_cons. split_and!; try apply not_elem_of_nil; try apply NoDup_nil_2; done.
    - rewrite !Forall_cons. unfold pipes. split_and!; try done; set_solver.
    - rewrite Hclosed. assert (ends ∖ list_to_set [inputWrite; inputRead; outputWrite; outputRead] = ∅) as -> by (cbn [list_to_set]; set_solver).
      by apply (ends_run_none o ch f d pd st application arguments directory input). }
  apply wps_do; [done |]. intros size _. cbn [after]. destruct (size =? 0); [apply Hgive |].
  apply wps_do; [done |]. intros initialized _. destruct initialized; cbn [after negb]; [| apply Hgive].
  apply wps_do; [split; [done |]; rewrite !Forall_cons; unfold pipes; cbn; split_and!; try done; set_solver |].
  intros ready _. destruct ready; cbn [after].
  2: { cbn [wps mret mbind deploy_bind sys_bind]. apply wps_do; [done |]. intros ? _. cbn [after]. apply Hgive. }
  apply wps_do; [unfold pipes; cbn; split_and!; try done; set_solver |]. intros created Hc.
  destruct created as [[process thread]|]; cbn [after]; (apply wps_do; [done |]; intros ? _; cbn [after]); [| apply Hgive].
  destruct (Hc process thread eq_refl) as (Hp & Ht' & Hpt). cbn [handles] in Hp, Ht'.
  assert (Hfresh : forall h, h ∈ pipes -> h <> process /\ h <> thread) by (intros h Hh; split; intros ->; contradiction).
  assert (Hin : inputRead ∈ pipes /\ inputWrite ∈ pipes /\ outputRead ∈ pipes /\ outputWrite ∈ pipes) by (unfold pipes; set_solver).
  destruct Hin as (Hi1 & Hi2 & Hi3 & Hi4). apply wps_do; [cbn; set_solver |]. intros ? _. cbn [after].
  pose proof (Hfresh _ Hi1) as [? ?]. pose proof (Hfresh _ Hi2) as [? ?]. pose proof (Hfresh _ Hi3) as [? ?]. pose proof (Hfresh _ Hi4) as [? ?].
  apply wps_do; [cbn; set_solver |]. intros ? _. cbn [after]. set (o1 := (_ ∖ _) ∖ _).
  assert ((ends ∖ {[inputRead]}) ∖ {[outputWrite]} = ∅) as -> by (clear -Hends; set_solver).
  apply wp_attend; [ | | done | done | done |].
  - rewrite !NoDup_cons, !not_elem_of_cons. split_and!; try apply not_elem_of_nil; try apply NoDup_nil_2; done.
  - rewrite !Forall_cons. unfold o1. split_and!; try done; set_solver.
  - intros x code out sent cut ck' pd' Hpd' Hout Hsent.
    assert (o1 ∖ list_to_set [thread; process; outputRead; inputWrite] = o) as ->.
    { rewrite <- Hclosed at 1. unfold o1. cbn [list_to_set]. clear -Hp Ht'. set_solver. }
    unfold feed. cbn. apply HQ; [done | done | by exists block, sent, cut | done].
Qed.

(** [runProcess]: always ends, every handle is closed again, the child had its own pipe
    ends, a sanitized environment and no more than its input. *)
Lemma wp_runProcess turns inner application arguments directory input echo timeoutMs o l ch f d ck pd st Q :
  (pd < inner)%nat -> 0 <= timeoutMs -> timeoutMs + 1 < Z.of_nat turns ->
  ends_run o ch f d pd st application arguments directory input Q ->
  wpd (runProcess turns inner application arguments directory input echo timeoutMs) (mkWorld o false false ∅ l ch f d ck pd st) Q.
Proof.
  intros Hpd Ht0 Ht HQ. unfold runProcess. apply wps_do; [done |]. intros out Hout. destruct out as [[outputRead outputWrite]|]; cbn [after].
  2: { by apply (ends_run_none o ch f d pd st application arguments directory input). }
  destruct (Hout _ _ eq_refl) as (H1 & H2 & H3). cbn [handles] in H1, H2. apply wps_do; [done |]. intros inp Hinp.
  destruct inp as [[inputRead inputWrite]|]; cbn [after].
  - destruct (Hinp _ _ eq_refl) as (H4 & H5 & H6). cbn [handles] in H4, H5. apply wp_spawn; try done.
    + rewrite !NoDup_cons, !not_elem_of_cons. split_and!; try apply not_elem_of_nil; try apply NoDup_nil_2; try done; set_solver.
    + rewrite !Forall_cons. split_and!; try done; set_solver.
  - apply wps_bind, wp_closeHandles.
    + rewrite !NoDup_cons, !not_elem_of_cons. split_and!; try apply not_elem_of_nil; try apply NoDup_nil_2; done.
    + rewrite !Forall_cons. split_and!; try done; set_solver.
    + assert (({[outputRead; outputWrite]} ∪ o) ∖ list_to_set [outputRead; outputWrite] = o) as -> by (cbn [list_to_set]; set_solver).
      assert (({[outputRead; outputWrite]} ∪ ∅) ∖ list_to_set [outputRead; outputWrite] =@{gset Z} ∅) as -> by (cbn [list_to_set]; set_solver).
      by apply (ends_run_none o ch f d pd st application arguments directory input).
Qed.
End World.
