(* ===== verification/Deployment.v ===== *)
(** * Deployment: what deploying the Worker does

    Theorems about [Wrangler]: processes and handles, what the secret can reach, which
    address comes out, what is left behind. *)

From S2P Require Import Prelude Calls Json Resolver Config CommandLine Files WranglerText Wrangler.

(** What was not there before is what the system refused to delete. *)
Record Left (f : gset bytes) (d : gset wide) (st : gset bytes * gset wide) (f' : gset bytes) (d' : gset wide) (st' : gset bytes * gset wide) : Prop := {
  left_files : f' ⊆ f ∪ st'.1;
  left_directories : d ⊆ d' /\ d' ⊆ d ∪ st'.2;
  left_stuck : st.1 ⊆ st'.1 /\ st.2 ⊆ st'.2;
}.
Lemma left_refl f d st : Left f d st f d st.
Proof. split; [set_solver | split; set_solver | done]. Qed.
Lemma left_trans f d st f1 d1 st1 f2 d2 st2 : Left f d st f1 d1 st1 -> Left f1 d1 st1 f2 d2 st2 -> Left f d st f2 d2 st2.
Proof. intros [H1 [H2 H3] [H4 H5]] [G1 [G2 G3] [G4 G5]]. split; [set_solver | split; set_solver | split; set_solver]. Qed.

Section Deployment.
Context `{!CodePages, !Paths} (turns inner : nat).
Notation wpd := (wps legal answers after).
Hypothesis Hturns : kLoginTimeoutMs + 1 < Z.of_nat turns.

(** Wrangler, in the version that is pinned, run by [client] on the files of [directory] with
    a sanitized environment. *)
Definition pinned (client : Client) (directory : wide) (arguments : list wide) (c : Child) : Prop :=
  ch_application c = nodePath_ client /\
  ch_command c = commandLine (nodePath_ client) ([npxCliPath_ client; str "--yes"; str "wrangler@" ++ kWranglerVersion] ++ arguments) /\
  ch_directory c = directory /\ exists block, ch_environment c = sanitizedEnvironment block.
(** The child that deploys the code gets no input; the one that stores the secret gets the
    secret and a line end, or a part of it when writing to it was refused. *)
Definition coder (client : Client) (directory : wide) (c : Child) : Prop :=
  pinned client directory [str "deploy"; str "--config"; join directory "wrangler.toml"; str "--no-autoconfig"] c /\ ch_input c = [].
Definition told (client : Client) (directory : wide) (secret : bytes) (c : Child) : Prop :=
  pinned client directory [str "secret"; str "put"; str "SHARED_SECRET"; str "--config"; join directory "wrangler.toml"] c /\
  given (ch_input c) (ch_cut c) (secret ++ [10]).

(** A program that ends, has closed what it opened and leaves the files [F] at most. *)
Definition ends {A : Type} (o : gset Z) (d : gset wide) (F : gset bytes) (ch : list Child) (pd : nat) (st : gset bytes * gset wide)
    (R : A -> list Child -> Prop) (Q : option A -> World -> Prop) : Prop :=
  forall a l ck pd' f kids, (pd' <= pd)%nat -> f ⊆ F -> R a kids -> Q (Some a) (mkWorld o false false ∅ l (ch ++ kids) f d ck pd' st).

(** A program that ends, has closed what it opened and deleted what it could. *)
Definition cleans {A : Type} (o : gset Z) (d : gset wide) (f : gset bytes) (ch : list Child) (pd : nat) (st : gset bytes * gset wide)
    (R : A -> list Child -> Prop) (Q : option A -> World -> Prop) : Prop :=
  forall a l ck pd' f' d' st' kids, (pd' <= pd)%nat -> Left f d st f' d' st' -> R a kids ->
    Q (Some a) (mkWorld o false false ∅ l (ch ++ kids) f' d' ck pd' st').

Lemma wpd_ret {A} (a : A) w (Q : A -> World -> Prop) : Q a w -> wpd (mret a) w Q.
Proof. done. Qed.

Lemma wpd_run {A} application arguments directory input timeoutMs (k : ProcessResult -> M (option A)) o l ch f d ck pd st Q :
  (pd < inner)%nat -> 0 <= timeoutMs <= kLoginTimeoutMs ->
  (forall r l' ck' pd' kids, (pd' <= pd)%nat -> spawned application arguments directory input (launched r) kids ->
     wpd (k r) (mkWorld o false false ∅ l' (ch ++ kids) f d ck' pd' st) Q) ->
  wpd (orStop (run turns inner application arguments directory input false timeoutMs) k) (mkWorld o false false ∅ l ch f d ck pd st) Q.
Proof. intros Hpd Ht Hk. apply wps_bind, wp_runProcess; [done | lia | lia |]. intros r l' ck' pd' kids Hp _ Hs _. by apply Hk. Qed.

Section Deploy.
Variables (client : Client) (directory : wide) (secret : bytes).
Notation script := (utf8Path (join directory "index.js")).
Notation config := (utf8Path (join directory "wrangler.toml")).

Lemma spawned_coder started kids :
  spawned (nodePath_ client) (npxArguments (npxCliPath_ client) [str "deploy"; str "--config"; join directory "wrangler.toml"; str "--no-autoconfig"])
    directory [] started kids -> Forall (coder client directory) kids /\ (length kids <= 1)%nat.
Proof.
  unfold spawned. destruct started; [| intros ->; split; [done | cbn; lia]]. intros (block & sent & cut & Hs & ->). split; [| done].
  apply Forall_singleton. split; [split_and!; try done; by exists block |]. unfold given in Hs. destruct cut; [by apply prefix_nil_inv in Hs | done].
Qed.

Lemma wp_deployTwice accountId workerName o l ch f d ck pd st F (Q : option (option ProcessResult) -> World -> Prop) :
  (pd < inner)%nat -> f ⊆ F -> config ∈ F ->
  ends o d F ch pd st (λ _ kids, Forall (coder client directory) kids /\ (length kids <= 2)%nat) Q ->
  wpd (deployTwice turns inner client directory accountId workerName) (mkWorld o false false ∅ l ch f d ck pd st) Q.
Proof.
  intros Hpd Hf Hc HQ. unfold deployTwice, deployCode. apply wpd_run; [done | unfold kDeployTimeoutMs, kLoginTimeoutMs; lia |].
  intros first l1 ck1 pd1 kids1 Hp1 [Hs1 Hn1]%spawned_coder.
  assert (H1 : Forall (coder client directory) kids1 /\ (length kids1 <= 2)%nat) by (split; [done | lia]).
  destruct (succeeded first); [by apply HQ |].
  apply wps_do; [done |]. intros rewritten _. destruct rewritten; cbn [after negb]; [| by apply HQ].
  apply wpd_run; [lia | unfold kDeployTimeoutMs, kLoginTimeoutMs; lia |]. intros second l2 ck2 pd2 kids2 Hp2 [Hs2 Hn2]%spawned_coder.
  cbn [wps mret]. rewrite <- app_assoc. apply HQ; [lia | set_solver |]. split; [by apply Forall_app | rewrite length_app; lia].
Qed.

(** Of whom a deployment's address is. *)
Definition addressOf (workerName url : bytes) : Prop :=
  starts_with url (str "wss://" ++ workerName ++ [cDot]) = true /\ ends_with url (str ".workers.dev") = true.

Lemma ends_with_app a b : ends_with (a ++ b) b = true.
Proof.
  unfold ends_with. apply andb_true_iff. split; apply bool_decide_eq_true_2; rewrite length_app; [lia |].
  replace (length a + length b - length b)%nat with (length a) by lia. apply drop_app_length.
Qed.

Lemma deployedAddress_of text workerName previous :
  workerName <> [] -> deployedAddress text workerName previous <> [] -> addressOf workerName (deployedAddress text workerName previous).
Proof.
  intros Hn. unfold deployedAddress. match goal with |- context [if ?b then _ else _] => destruct b eqn:E end.
  - apply andb_true_iff in E as [[_ E1]%andb_true_iff E2]. done.
  - intros Hne. destruct (worker_url_loop text workerName Hn) as [E0|(sub & ->)]; [done |].
    split; [change (str "wss://" ++ workerName ++ [cDot] ++ sub ++ str ".workers.dev") with (str "wss://" ++ workerName ++ [cDot] ++ (sub ++ str ".workers.dev")); rewrite !app_assoc; rewrite <- (app_assoc _ sub); apply starts_with_app |].
    rewrite !app_assoc. apply ends_with_app.
Qed.

(** The processes of a deployment: the code first, then the secret. *)
Definition deployKids (workerName : bytes) (result : DeployResult) (kids : list Child) : Prop :=
  exists codes secrets, kids = codes ++ secrets /\ Forall (coder client directory) codes /\ (length codes <= 2)%nat /\
    (secrets = [] \/ exists c, secrets = [c] /\ told client directory secret c) /\
    (success result = true -> secrets <> [] /\ addressOf workerName (deployedUrl result)).

Lemma deployKids_none workerName kids :
  Forall (coder client directory) kids /\ (length kids <= 2)%nat -> deployKids workerName notDeployed kids.
Proof. intros [Hk Hn]. exists kids, []. rewrite app_nil_r. split_and!; try done. by left. Qed.

Lemma wp_deployIn accountId workerName source previous o l ch f d ck pd st F (Q : option DeployResult -> World -> Prop) :
  workerName <> [] -> (pd < inner)%nat -> f ⊆ F -> script ∈ F -> config ∈ F ->
  ends o d F ch pd st (deployKids workerName) Q ->
  wpd (deployIn turns inner client directory accountId workerName source secret previous) (mkWorld o false false ∅ l ch f d ck pd st) Q.
Proof.
  intros Hn Hpd Hf Hs Hc HQ. unfold deployIn.
  assert (Hno : forall l ck f, f ⊆ F -> Q (Some notDeployed) (mkWorld o false false ∅ l ch f d ck pd st)).
  { intros l' ck' f' Hf'. rewrite <- (app_nil_r ch). apply HQ; [lia | done | apply deployKids_none]. split; [done | cbn; lia]. }
  destruct (bool_decide (script = []) || bool_decide (config = [])); [by apply Hno |].
  apply wps_bind, wps_do; [done |]. intros s _. destruct s; cbn [after negb]; [| by apply Hno].
  split; [done |]. intros s _. destruct s; cbn [after negb wps]; [| apply Hno; set_solver].
  apply wps_bind, (wp_deployTwice _ _ _ _ _ _ _ _ _ _ F); [done | set_solver | done |].
  intros code l1 ck1 pd1 f1 kids1 Hp1 Hf1 Hm1. destruct code as [code|]; [| by apply HQ, deployKids_none].
  destruct (succeeded code); cbn [negb]; [| by apply HQ, deployKids_none].
  unfold putSecret. apply wpd_run; [lia | unfold kDeployTimeoutMs, kLoginTimeoutMs; lia |].
  intros r l2 ck2 pd2 kids2 Hp2 Hs2. rewrite <- app_assoc.
  assert (Hk : kids2 = [] /\ launched r = false \/ exists c, kids2 = [c] /\ told client directory secret c).
  { unfold spawned in Hs2. destruct (launched r); [right | by left]. destruct Hs2 as (block & sent & cut & Hpre & ->).
    eexists. split; [done |]. split; [split_and!; try done; by exists block | done]. }
  set (url := deployedAddress (output code) workerName previous).
  assert (HQ' : forall b, (b = true -> launched r = true /\ url <> []) -> deployKids workerName (mkDeployResult b (if b then url else [])) (kids1 ++ kids2)).
  { intros b Hb. exists kids1, kids2. split; [done |]. destruct Hm1 as [Hm1 Hn1]. split; [done |]. split; [done |]. split; [destruct Hk as [[-> _]|Hk]; [by left | by right] |].
    cbn [success deployedUrl]. intros ->. destruct (Hb eq_refl) as [Hl Hu]. split; [| by apply deployedAddress_of].
    destruct Hk as [[_ ?]|(c & -> & _)]; [congruence | done]. }
  destruct (succeeded r) eqn:Er; cbn [negb wps mret].
  - apply andb_true_iff in Er as [[Hl _]%andb_true_iff _]. apply HQ; [lia | done |].
    destruct (bool_decide_reflect (url = [])) as [E|E]; cbn [negb]; [rewrite E; by apply (HQ' false) | by apply (HQ' true)].
  - apply HQ; [lia | done | by apply (HQ' false)].
Qed.
End Deploy.

(** What [deploy] does in all: the temporary directory is known to the children only. *)
Definition deployed (client : Client) (secret workerName : bytes) (result : DeployResult) (kids : list Child) : Prop :=
  result = notDeployed /\ kids = [] \/ exists directory, deployKids client directory secret workerName result kids.

(** One attempt to delete a file; what it leaves is gone or stuck. *)
Lemma wp_delete {A} path (k : bool -> M A) o l ch f d ck pd st Q :
  (forall r f' s, f' ⊆ f -> f ∖ {[utf8Path path]} ⊆ f' -> (utf8Path path ∈ f' -> utf8Path path ∈ s) -> st.1 ⊆ s ->
     wpd (k r) (mkWorld o false false ∅ l ch f' d ck pd (s, st.2)) Q) ->
  wpd (do (DeleteFile path) ≫= k) (mkWorld o false false ∅ l ch f d ck pd st) Q.
Proof.
  intros HQ. apply wps_do; [done |]. intros r _. destruct r; cbn [after].
  - destruct st as [s1 s2]. apply HQ; set_solver.
  - apply HQ; set_solver.
Qed.

(** The temporary directory: none, or a new one. *)
Lemma wp_temporaryDirectory {A} (k : wide -> M A) o l ch f d ck pd st Q :
  (forall f' s, f' ⊆ f ∪ s -> st.1 ⊆ s -> wpd (k []) (mkWorld o false false ∅ l ch f' d ck pd (s, st.2)) Q) ->
  (forall directory f' s, directory <> [] -> directory ∉ d -> f' ⊆ f ∪ s -> st.1 ⊆ s ->
     wpd (k directory) (mkWorld o false false ∅ l ch f' ({[directory]} ∪ d) ck pd (s, st.2)) Q) ->
  wpd (temporaryDirectory ≫= k) (mkWorld o false false ∅ l ch f d ck pd st) Q.
Proof.
  intros HQ0 HQ1. assert (Hno : wpd (k []) (mkWorld o false false ∅ l ch f d ck pd st) Q) by (destruct st as [s1 s2]; apply (HQ0 f s1); set_solver).
  apply wps_bind. unfold temporaryDirectory. apply wps_do; [done |]. intros temp _. destruct temp as [temp|]; cbn [after]; [| done].
  apply wps_do; [done |]. intros candidate Hne. destruct candidate as [directory|]; cbn [after]; [| done].
  apply wp_delete. intros ? f' s Hf Hf' Hs Hst. apply wps_do; [done |]. intros created Hc.
  assert (Hle : f' ⊆ f ∪ s).
  { intros x Hx. destruct (decide (x = utf8Path directory)) as [->|Hx']; [apply elem_of_union_r; auto |]. specialize (Hf x Hx). set_solver. }
  destruct created; cbn [after]; apply wpd_ret; [| by apply HQ0]. apply HQ1; [congruence | by apply Hc | done | done].
Qed.

(** The destructor: both files and the directory are gone, or stuck. *)
Lemma wp_removeDirectory {A} directory (k : unit -> M A) o l ch f1 f d ck pd st st0 Q :
  directory <> [] -> directory ∉ d -> f1 ⊆ f ∪ st.1 ∪ {[utf8Path (join directory "index.js"); utf8Path (join directory "wrangler.toml")]} ->
  st0.1 ⊆ st.1 -> st0.2 ⊆ st.2 ->
  (forall f' d' st', Left f d st0 f' d' st' -> wpd (k tt) (mkWorld o false false ∅ l ch f' d' ck pd st') Q) ->
  wpd (removeDirectory directory ≫= k) (mkWorld o false false ∅ l ch f1 ({[directory]} ∪ d) ck pd st) Q.
Proof.
  intros Hne Hd Hf H01 H02 HQ. apply wps_bind. unfold removeDirectory. rewrite bool_decide_false by done.
  set (a := utf8Path (join directory "index.js")) in *. set (b := utf8Path (join directory "wrangler.toml")) in *.
  apply wp_delete. fold a. intros ? f2 s2 Hf2 _ Hs2 Hst2. apply wp_delete. fold b. cbn [fst snd]. intros ? f3 s3 Hf3 _ Hs3 Hst3.
  assert (Hleft : f3 ⊆ f ∪ s3).
  { intros x Hx. destruct (decide (x = b)) as [->|Hb]; [apply elem_of_union_r; auto |].
    pose proof (Hf3 x Hx) as Hx2. destruct (decide (x = a)) as [->|Ha]; [apply elem_of_union_r; auto |].
    pose proof (Hf x (Hf2 x Hx2)) as Hx1. set_solver. }
  apply wps_do; [done |]. intros removed _. destruct removed; cbn [after fst snd].
  - apply HQ. assert (({[directory]} ∪ d) ∖ {[directory]} = d) as -> by set_solver.
    split; cbn [fst snd]; [done | split; set_solver | split; set_solver].
  - apply HQ. split; cbn [fst snd]; [done | split; set_solver | split; set_solver].
Qed.

Lemma wp_deploy client accountId workerName source secret previous o l ch f d ck pd st (Q : option DeployResult -> World -> Prop) :
  (pd < inner)%nat -> cleans o d f ch pd st (deployed client secret workerName) Q ->
  wpd (deploy turns inner client accountId workerName source secret previous) (mkWorld o false false ∅ l ch f d ck pd st) Q.
Proof.
  intros Hpd HQ. unfold deploy.
  assert (Hno : forall f' s, f' ⊆ f ∪ s -> st.1 ⊆ s -> Q (Some notDeployed) (mkWorld o false false ∅ l ch f' d ck pd (s, st.2))).
  { intros f' s Hf' Hs. rewrite <- (app_nil_r ch). apply HQ; [lia | | by left]. split; cbn [fst snd]; [done | split; set_solver | split; set_solver]. }
  assert (Hno' : Q (Some notDeployed) (mkWorld o false false ∅ l ch f d ck pd st)) by (destruct st; apply Hno; set_solver).
  destruct (isHexAccountId accountId); [| done]. destruct (isValidWorkerName workerName) eqn:Hn; [| done].
  apply worker_name_chars in Hn as (Hn & _). destruct (bool_decide (source = [])); [done |].
  destruct (bool_decide (secret = [])); [done |]. cbn [negb orb].
  apply wp_temporaryDirectory; [intros f' s Hf' Hs; by apply Hno |].
  intros directory f0 s Hne Hd Hf0 Hs. rewrite bool_decide_false by done.
  apply wps_bind, (wp_deployIn _ _ _ _ _ _ _ _ _ _ _ _ _ _ _ (f0 ∪ {[utf8Path (join directory "index.js"); utf8Path (join directory "wrangler.toml")]}));
    [done | done | set_solver | set_solver | set_solver |].
  intros result l1 ck1 pd1 f1 kids Hp1 Hf1 Hk. apply (wp_removeDirectory _ _ _ _ _ _ f _ _ _ _ st); [done | done | set_solver | done | done |].
  intros f2 d2 st2 Hl. apply wpd_ret, HQ; [done | done |]. right. by exists directory.
Qed.

(** ** What the secret can reach *)

(** The same calls whatever the answers, except for what is written to a child's input. *)
Inductive blind {A : Type} : M A -> M A -> Prop :=
  | blind_done a : blind (Done a) (Done a)
  | blind_call c (k k' : Reply c -> M A) : (forall r, blind (k r) (k' r)) -> blind (Call c k) (Call c k')
  | blind_input h data data' (k k' : bool * nat -> M A) :
      length data = length data' -> (forall r, blind (k r) (k' r)) ->
      blind (Call (PipeWrite h data) k) (Call (PipeWrite h data') k').

Lemma blind_refl {A} (p : M A) : blind p p.
Proof. induction p as [a|c k IH]; constructor; auto. Qed.
Lemma blind_bind {A B} (p p' : M A) (f f' : A -> M B) :
  blind p p' -> (forall a, blind (f a) (f' a)) -> blind (p ≫= f) (p' ≫= f').
Proof. intros Hp Hf. induction Hp as [a|c k k' _ IH|h data data' k k' Hl _ IH]; [apply Hf | by apply blind_call | by apply blind_input]. Qed.
Lemma blind_same {A B} (p : M A) (f f' : A -> M B) : (forall a, blind (f a) (f' a)) -> blind (p ≫= f) (p ≫= f').
Proof. apply blind_bind, blind_refl. Qed.
Lemma blind_orStop {A} (p p' : M (option ProcessResult)) (f f' : ProcessResult -> M (option A)) :
  blind p p' -> (forall a, blind (f a) (f' a)) -> blind (orStop p f) (orStop p' f').
Proof. intros Hp Hf. apply blind_bind; [done |]. intros [r|]; [apply Hf | apply blind_refl]. Qed.

Lemma blind_writeInput fuel pipe input input' :
  length input = length input' -> blind (writeInput fuel pipe input) (writeInput fuel pipe input').
Proof.
  revert input input'. induction fuel as [|fuel IH]; intros input input' Hl; [apply blind_refl |].
  destruct input as [|b input], input' as [|b' input']; try done; [apply blind_refl |]. cbn [writeInput].
  apply blind_input; [rewrite !length_take; unfold zlen; by rewrite Hl |]. intros [ok n].
  destruct (negb ok || bool_decide (n = 0%nat)); [apply blind_refl |]. apply IH. by rewrite !length_drop, Hl.
Qed.
Lemma blind_runProcess application arguments directory input input' echo timeoutMs :
  length input = length input' ->
  blind (runProcess turns inner application arguments directory input echo timeoutMs)
        (runProcess turns inner application arguments directory input' echo timeoutMs).
Proof.
  intros Hl. apply blind_same. intros [[x y]|]; [| apply blind_refl]. apply blind_same. intros [[z w]|]; [| apply blind_refl].
  unfold spawn. do 3 (apply blind_same; intros ?). apply blind_same. intros size. destruct (size =? 0); [apply blind_refl |].
  apply blind_same. intros initialized. destruct (negb initialized); [apply blind_refl |].
  apply blind_same. intros ready. apply blind_same. intros created. apply blind_same. intros ?.
  destruct created as [[process thread]|]; [| apply blind_refl].
  do 2 (apply blind_same; intros ?). unfold attend. apply blind_same. intros job. rewrite Hl.
  apply blind_bind; [by apply blind_writeInput |]. intros ?. apply blind_refl.
Qed.

(** C34: the shared secret reaches Wrangler through the input of one process and nothing
    else. Two deployments with secrets of the same length make the same calls, whatever the
    answers: the same command lines, environments, directories, files and requests, except
    for the bytes written to the child's standard input; and they end alike. *)
Theorem secret_only_on_stdin client accountId workerName source secret secret' previous :
  length secret = length secret' ->
  blind (deploy turns inner client accountId workerName source secret previous)
        (deploy turns inner client accountId workerName source secret' previous).
Proof.
  intros Hl. unfold deploy. replace (bool_decide (secret' = [])) with (bool_decide (secret = [])) by (by destruct secret, secret').
  destruct (_ || _); [apply blind_refl |]. apply blind_same. intros directory. destruct (bool_decide (directory = [])); [apply blind_refl |].
  apply blind_bind; [| intros ?; apply blind_refl]. unfold deployIn. apply blind_same. intros ok. destruct (negb ok); [apply blind_refl |].
  apply blind_same. intros [[code|]|]; [| apply blind_refl..]. destruct (negb (succeeded code)); [apply blind_refl |].
  apply blind_orStop; [| intros ?; apply blind_refl]. apply blind_runProcess. by rewrite !length_app, Hl.
Qed.
End Deployment.

(** C35: deploying the Worker ends and leaves behind only what the system refused to delete.
    Whatever the system answers, [deploy] returns; every handle, attribute list and
    environment block it took is given back exactly once and never used after, no child
    inherits an end of a pipe that is not its own; of the files it created and its directory
    nothing is left but what [DeleteFileW] and [RemoveDirectoryW] refused to remove, and
    nothing else was removed from the directories. It starts nothing but the pinned Wrangler:
    at most two children that deploy from the temporary directory, with a sanitized
    environment and no input, then at most one that stores the secret, with the secret as its
    input (a part of it if the pipe refused the rest); when [deploy] succeeds there was one,
    and the address is one of this Worker. *)
Theorem deploy_contained `{!CodePages, !Paths} turns inner oracle client accountId workerName source secret previous o f d ck pd :
  kLoginTimeoutMs + 1 < Z.of_nat turns -> (pd < inner)%nat ->
  let w0 := mkWorld o false false ∅ [] [] f d ck pd (∅, ∅) in
  honest answers after w0 oracle ->
  let '(result, h) := play oracle (deploy turns inner client accountId workerName source secret previous) [] in
  valid legal answers after w0 h /\
  exists r, result = Some r /\
  let w := ledger after w0 h in
  handles w = o /\ attributes w = false /\ environment w = false /\ inheritable w = ∅ /\
  written w ⊆ f ∪ (stuck w).1 /\ d ⊆ directories w /\ directories w ⊆ d ∪ (stuck w).2 /\
  deployed client secret workerName r (children w).
Proof.
  intros Ht Hpd w0 Ho.
  pose proof (wps_play legal answers after w0 oracle (deploy turns inner client accountId workerName source secret previous) []
    (λ result w, exists r, result = Some r /\ handles w = o /\ attributes w = false /\ environment w = false /\ inheritable w = ∅ /\
       written w ⊆ f ∪ (stuck w).1 /\ d ⊆ directories w /\ directories w ⊆ d ∪ (stuck w).2 /\
       deployed client secret workerName r (children w)) Ho ltac:(done)) as Hw.
  destruct (play oracle _ []) as [result h]. destruct Hw as [Hw Hv]; [| by split].
  apply wp_deploy; [done | done |]. intros r l ck' pd' f' d' st' kids _ [H1 [H2 H3] _] Hk. exists r. done.
Qed.

(** A system that answers each question in the simplest way: handles are numbered, a child
    says [said] and ends well. *)
Definition kindly `{!CodePages} (w0 : World) (said : bytes) : Oracle Reply := λ h c,
  let w := ledger after w0 h in
  let x := fresh (handles w) in
  match c return Reply c with
  | CreatePipe | CreateProcessW _ _ _ _ _ _ => Some (x, fresh ({[x]} ∪ handles w))
  | CreateJobObjectW => Some x
  | AttributeListSize => 48
  | GetTickCount64 => clock w
  | InitializeAttributes | ListHandles _ | AssignProcess _ _ | WaitProcess _ _ | WriteAtomic _ _ | IsRegularFile _
  | ConfigDirectory | CreateDirectories | WriteConfig _ => true
  | CreateDirectoryW p => bool_decide (p ∉ directories w)
  | RemoveDirectoryW p => bool_decide (p ∈ directories w)
  | DeleteFile p => bool_decide (utf8Path p ∈ written w)
  | ProtectSecret secret => str "sealed:" ++ secret
  | PipeWrite _ data => (true, length data)
  | PeekPipe _ => Some (pending w)
  | PipeRead _ n => Some (take (Nat.min n (pending w)) said)
  | GetExitCode _ => Some 0
  | GetTempPathW | GetTempFileNameW _ => Some (str "T")
  | GetEnvironmentStringsW => Some [str "CF_API_KEY=x"; str "Path=p"]
  | SearchPathW _ _ => (0, [])
  | GetLine | GenRandom _ => None
  | Perform _ => mkHttpResponse 0 [] 0
  | _ => tt
  end.

Lemma kindly_answers `{!CodePages} w0 said h c : answers (ledger after w0 h) c (kindly w0 said h c).
Proof.
  set (w := ledger after w0 h).
  assert (Hfresh : fresh (handles w) ∉ handles w) by apply is_fresh.
  assert (Hfresh2 : fresh ({[fresh (handles w)]} ∪ handles w) ∉ {[fresh (handles w)]} ∪ handles w) by apply is_fresh.
  destruct c; cbn [kindly answers]; fold w; try done.
  - intros x y [= <- <-]. set_solver.
  - intros x y [= <- <-]. set_solver.
  - by intros j [= <-].
  - intros data [= <-]. rewrite length_take. lia.
  - by intros Hd%bool_decide_eq_true.
Qed.
Lemma kindly_honest `{!CodePages} w0 said : honest answers after w0 (kindly w0 said).
Proof. intros h c _. apply kindly_answers. Qed.

Definition plainPaths : Paths :=
  {| join a b := a ++ str "\" ++ str b; parent_path p := p; filename p := p |}.
Definition someAccount : bytes := str "0123456789abcdef0123456789ABCDEF".
Definition someWorld (said : bytes) : World := mkWorld ∅ false false ∅ [] [] ∅ ∅ 0 (length said) (∅, ∅).

Definition someOutput : bytes := str "https://relay.me.workers.dev ".
Definition someRun : option DeployResult * list (Event Reply) :=
  play (@kindly latin (someWorld someOutput) someOutput)
    (@deploy latin plainPaths (Z.to_nat 600100) 99 (mkClient (str "node") (str "npx")) someAccount (str "relay") (str "code") (str "s3cret") []) [].
Lemma someRun_ends :
  fst someRun = Some (mkDeployResult true (str "wss://relay.me.workers.dev")) /\
  ch_input <$> children (ledger (@after latin) (someWorld someOutput) (snd someRun)) = [[]; str "s3cret" ++ [10]] /\
  stuck (ledger (@after latin) (someWorld someOutput) (snd someRun)) = (∅, ∅).
Proof. split_and!; vm_compute; reflexivity. Qed.

Lemma deploy_contained_witness :
  let w := ledger (@after latin) (someWorld someOutput) (snd someRun) in
  kLoginTimeoutMs + 1 < Z.of_nat (Z.to_nat 600100) /\
  fst someRun = Some (mkDeployResult true (str "wss://relay.me.workers.dev")) /\
  ch_input <$> children w = [[]; str "s3cret" ++ [10]] /\ written w ⊆ ∅ /\ directories w ⊆ ∅ /\ handles w = ∅.
Proof.
  assert (Ht : kLoginTimeoutMs + 1 < Z.of_nat (Z.to_nat 600100)) by (rewrite Z2Nat.id; unfold kLoginTimeoutMs; lia).
  pose proof (@deploy_contained latin plainPaths (Z.to_nat 600100) 99 (@kindly latin (someWorld someOutput) someOutput)
    (mkClient (str "node") (str "npx")) someAccount (str "relay") (str "code") (str "s3cret") []
    ∅ ∅ ∅ 0 (length someOutput) Ht ltac:(vm_compute; lia) (@kindly_honest latin _ _)) as H.
  destruct someRun_ends as (E1 & E2 & E3). intros w. split; [exact Ht |]. split; [exact E1 |]. split; [exact E2 |].
  fold (someWorld someOutput) in H. fold someRun in H. unfold w. destruct someRun as [r h]. destruct H as [_ (r' & _ & Hh & _ & _ & _ & Hf & _ & Hd & _)].
  cbn [snd] in *. rewrite E3 in Hf, Hd. split; [exact Hf |]. exact (conj Hd Hh).
Defined.

(** A system that lets nothing be deleted: the files and the directory stay, with the
    configuration and the code but without the secret. *)
Definition clinging `{!CodePages} (w0 : World) (said : bytes) : Oracle Reply := λ h c,
  match c return Reply c with
  | DeleteFile _ | RemoveDirectoryW _ => false
  | c => kindly w0 said h c
  end.
Example leftovers :
  let run := play (@clinging latin (someWorld someOutput) someOutput)
    (@deploy latin plainPaths 99 99 (mkClient (str "node") (str "npx")) someAccount (str "relay") (str "code") (str "s3cret") []) [] in
  let w := ledger (@after latin) (someWorld someOutput) (snd run) in
  success <$> fst run = Some true /\ written w = {[str "T"; str "T\index.js"; str "T\wrangler.toml"]} /\ directories w = {[str "T"]}.
Proof. split_and!; vm_compute; reflexivity. Qed.

Lemma secret_only_on_stdin_witness :
  let program secret := @deploy latin plainPaths 9 9 (mkClient (str "node") (str "npx")) someAccount (str "relay") (str "code") secret [] in
  blind (program (str "s3cret")) (program (str "hidden")).
Proof. intros program. apply (@secret_only_on_stdin latin plainPaths 9 9). reflexivity. Defined.
