(* ===== verification/Setup.v ===== *)
(** * Setup: setting the program up

    Models [src/src/Setup.hpp], [src/src/Setup.cpp] and [randomHex] of
    [src/src/Secure.cpp]: choosing the account, deploying the Worker with a new secret,
    saving the configuration, and checking that the Worker accepts the secret. The source
    of the Worker is a parameter (the build generates it). *)

From S2P Require Import Prelude Calls Json JsonText Resolver Config CommandLine Files WranglerText Wrangler Deployment.

Definition kSharedSecretBytes : Z := 32.

(** [randomHex] *)
Definition randomHex (byteCount : Z) : M bytes :=
  random ← do (GenRandom byteCount);
  mret (match (random : option bytes) with
        | None => []
        | Some random => random ≫= λ b, [hexdigit (Z.shiftr b 4); hexdigit (Z.land b 15)]
        end).

(** [askRetry]: the answer decides by its first character. *)
Definition askRetry : M bool :=
  answer ← do GetLine;
  mret (match (answer : option bytes) with
        | None => false
        | Some [] => true
        | Some (c :: _) => existsb (Z.eqb c) (str "eEyY")
        end).

(** [std::stoul(text, &consumed)] with 32 bits: the value and what it left; [None] is an
    exception. *)
Definition stoul (text : bytes) : option (Z * bytes) :=
  let text := dropWhile isspace text in
  let '(negative, digits) := match text with
    | c :: rest => if c =? 45 then (true, rest) else if c =? 43 then (false, rest) else (false, text)
    | [] => (false, [])
    end in
  match digits with
  | c :: _ =>
      if negb (isdigit c) then None else
      let '(v, rest) := scan_digits digits 0 in
      if 2 ^ 32 <=? v then None else Some (if negative : bool then (- v) mod 2 ^ 32 else v, rest)
  | [] => None
  end.

(** [selectAccount] *)
Definition selectAccount (identity : Identity) (preferredId : bytes) : M (option bytes) :=
  let existing := if bool_decide (preferredId = []) then None
                  else snd <$> list_find (λ account, id_ account = preferredId) (accounts identity) in
  match existing with
  | Some account => mret (Some (id_ account))
  | None =>
      match accounts identity with
      | [account] => mret (Some (id_ account))
      | [] => mret None
      | all =>
          answer ← do GetLine;
          mret (match stoul (default [] (answer : option bytes)) with
                | Some (selected, []) =>
                    if (1 <=? selected) && (selected <=? zlen all) then id_ <$> all !! Z.to_nat (selected - 1) else None
                | _ => None
                end)
      end
  end.

(** The request of [verifyDeployment]. *)
Definition verifyRequest (host sharedSecret : bytes) : HttpRequest :=
  mkHttpRequest (str "GET") host (str "/resolve?host=cloudflare.com") [(str "Authorization", str "Bearer " ++ sharedSecret)] [] 15000 0.

(** [verifyDeployment]; the status is only reported. *)
Definition verifyDeployment (workerUrl sharedSecret : bytes) : M bool :=
  let host := hostFromUrl workerUrl in
  if bool_decide (host = []) then mret false else
  response ← do (Perform (verifyRequest host sharedSecret));
  mret (Resolver.ok response && negb (bool_decide (getStringArray (body response) (str "a") = []))).

(** [for (int attempt = 0; attempt < 10; ++attempt)] *)
Fixpoint verifyAgain (attempts : nat) (workerUrl sharedSecret : bytes) : M bool :=
  match attempts with
  | O => mret false
  | S attempts =>
      verified ← verifyDeployment workerUrl sharedSecret;
      if (verified : bool) then mret true else
      _ ← do (Sleep 2000); verifyAgain attempts workerUrl sharedSecret
  end.

(** Assignments to members of the configuration. *)
Definition setAccountId (v : bytes) (c : Config) : Config :=
  mkConfig (apiToken c) v (workerName c) (Config.workerUrl c) (sharedSecret c) (dnsMode c) (Config.splitDelayMs c) (probeTimeoutMs c)
    (Config.tunnelFallback c) (Config.processInclude c) (Config.processExclude c) (migratedFromPlaintext c) (legacyApiTokenPresent c)
    (sharedSecretBlob c) (loadFailed c) (processIncludeInvalid c).
Definition setWorkerName (v : bytes) (c : Config) : Config :=
  mkConfig (apiToken c) (accountId c) v (Config.workerUrl c) (sharedSecret c) (dnsMode c) (Config.splitDelayMs c) (probeTimeoutMs c)
    (Config.tunnelFallback c) (Config.processInclude c) (Config.processExclude c) (migratedFromPlaintext c) (legacyApiTokenPresent c)
    (sharedSecretBlob c) (loadFailed c) (processIncludeInvalid c).
Definition setWorkerUrl (v : bytes) (c : Config) : Config :=
  mkConfig (apiToken c) (accountId c) (workerName c) v (sharedSecret c) (dnsMode c) (Config.splitDelayMs c) (probeTimeoutMs c)
    (Config.tunnelFallback c) (Config.processInclude c) (Config.processExclude c) (migratedFromPlaintext c) (legacyApiTokenPresent c)
    (sharedSecretBlob c) (loadFailed c) (processIncludeInvalid c).
Definition setSharedSecret (v : bytes) (c : Config) : Config :=
  mkConfig (apiToken c) (accountId c) (workerName c) (Config.workerUrl c) v (dnsMode c) (Config.splitDelayMs c) (probeTimeoutMs c)
    (Config.tunnelFallback c) (Config.processInclude c) (Config.processExclude c) (migratedFromPlaintext c) (legacyApiTokenPresent c)
    (sharedSecretBlob c) (loadFailed c) (processIncludeInvalid c).

(** [Config::save]: a secret that cannot be sealed is left out. *)
Definition saveConfig (c : Config) : M bool :=
  known ← do ConfigDirectory;
  if negb known then mret false else
  created ← do CreateDirectories;
  if negb created then mret false else
  protectedSecret ← (if bool_decide (sharedSecret c = []) then mret (sharedSecretBlob c) else do (ProtectSecret (sharedSecret c)));
  do (WriteConfig (saveText protectedSecret c)).

Section Setup.
Context `{!CodePages, !Paths} (turns inner attempts : nat) (kWorkerSource : bytes).

(** [deployAndVerify]: its result and the configuration; [None]: turns are used up. *)
Definition deployAndVerify (c : Config) (client : Client) : M (option (bool * Config)) :=
  c ← (if bool_decide (sharedSecret c = []) then secret ← randomHex kSharedSecretBytes; mret (setSharedSecret secret c) else mret c);
  if bool_decide (sharedSecret c = []) then mret (Some (false, c)) else
  deployment ← deploy turns inner client (accountId c) (workerName c) kWorkerSource (sharedSecret c) (Config.workerUrl c);
  match deployment with
  | None => mret None
  | Some deployment =>
      if negb (success deployment) then mret (Some (false, c)) else
      let c := setWorkerUrl (deployedUrl deployment) c in
      saved ← saveConfig c;
      if negb saved then mret (Some (false, c)) else
      verified ← verifyAgain 10 (Config.workerUrl c) (sharedSecret c);
      mret (Some (verified, c))
  end.

(** [prepareClient] *)
Definition prepareClient (client : Client) : M (option bool) := available turns inner client.

(** The login loop of [loginAndReadIdentity], as long as the user wants. *)
Fixpoint loginLoop (attempts : nat) (client : Client) : M (option bool) :=
  match attempts with
  | O => mret None
  | S attempts =>
      loggedIn ← loginWithKeyring turns inner client;
      match loggedIn with
      | None => mret None
      | Some true => mret (Some true)
      | Some false => again ← askRetry; if (again : bool) then loginLoop attempts client else mret (Some false)
      end
  end.

(** [loginAndReadIdentity] *)
Definition loginAndReadIdentity (client : Client) (alwaysLogin : bool) : M (option (option Identity)) :=
  known ← (if alwaysLogin then mret (Some None) else whoami turns inner client);
  match known with
  | None => mret None
  | Some (Some identity) => mret (Some (Some identity))
  | Some None =>
      loggedIn ← loginLoop attempts client;
      match loggedIn with
      | None => mret None
      | Some false => mret (Some None)
      | Some true => whoami turns inner client
      end
  end.

(** From the client to an account that was chosen; the rest of both commands follows. *)
Definition withAccount (c : Config) (alwaysLogin : bool) (k : Client -> Config -> M (option (bool * Config))) : M (option (bool * Config)) :=
  client ← newClient;
  prepared ← prepareClient client;
  match prepared with
  | None => mret None
  | Some false => mret (Some (false, c))
  | Some true =>
      identity ← loginAndReadIdentity client alwaysLogin;
      match identity with
      | None => mret None
      | Some None => mret (Some (false, c))
      | Some (Some identity) =>
          account ← selectAccount identity (accountId c);
          match account with
          | None => mret (Some (false, c))
          | Some account => k client (setAccountId account c)
          end
      end
  end.

Definition kDefaultWorkerName : bytes := str "splithello-relay".

(** [runSetup] *)
Definition runSetup (c : Config) : M (option (bool * Config)) :=
  withAccount c true (λ client c,
    let c := if bool_decide (workerName c = []) then setWorkerName kDefaultWorkerName c else c in
    if negb (isValidWorkerName (workerName c)) then mret (Some (false, c)) else
    secret ← randomHex kSharedSecretBytes;
    deployAndVerify (setSharedSecret secret (clearToken c)) client).

(** [redeployWorker] *)
Definition redeployWorker (c : Config) : M (option (bool * Config)) :=
  withAccount c false (λ client c,
    if negb (isValidWorkerName (workerName c)) then mret (Some (false, c)) else
    secret ← randomHex kSharedSecretBytes;
    let c := setSharedSecret secret (clearToken c) in
    if bool_decide (secret = []) then mret (Some (false, c)) else
    deployAndVerify c client).
End Setup.

(** ** What setup does *)

(** What was saved, asked and drawn. *)
Record Log := mkLog {
  sealed : option (bytes * bytes); (* the secret last given to DPAPI, and its answer *)
  stored : option bytes;        (* the text of the configuration last written *)
  asked : nat;                  (* requests since *)
  confirmed : bool;             (* the last one was answered with addresses *)
  drawn : list bytes;           (* random bytes *)
  lines : nat;                  (* answers of the user *)
}.
Definition newLog : Log := mkLog None None 0 false [] 0.

Definition hexOf (random : bytes) : bytes := random ≫= λ b, [hexdigit (Z.shiftr b 4); hexdigit (Z.land b 15)].
Definition confirms (r : HttpResponse) : bool := Resolver.ok r && negb (bool_decide (getStringArray (body r) (str "a") = [])).

Definition logAfter (log : Log) (c : DeployCall) : Reply c -> Log :=
  match c return Reply c -> Log with
  | ProtectSecret secret => λ blob, mkLog (Some (secret, blob)) (stored log) (asked log) (confirmed log) (drawn log) (lines log)
  | WriteConfig text => λ ok, if ok then mkLog (sealed log) (Some text) 0 false (drawn log) (lines log) else log
  | Perform _ => λ r, mkLog (sealed log) (stored log) (S (asked log)) (confirms r) (drawn log) (lines log)
  | GenRandom _ => λ r, mkLog (sealed log) (stored log) (asked log) (confirmed log) (drawn log ++ option_list r) (lines log)
  | GetLine => λ _, mkLog (sealed log) (stored log) (asked log) (confirmed log) (drawn log) (S (lines log))
  | _ => λ _, log
  end.

Section SetupRuns.
Context `{!CodePages, !Paths}.

Definition afterS (s : World * Log) (c : DeployCall) (r : Reply c) : World * Log := (after s.1 c r, logAfter s.2 c r).

Definition answersS (s : World * Log) (c : DeployCall) : Reply c -> Prop :=
  match c return Reply c -> Prop with
  | GenRandom n => λ r, forall b, r = Some b -> zlen b = n /\ all_bytes b
  | c => answers s.1 c
  end.

(** The secret of the configuration was drawn now, and it was the last child's input. *)
Definition rotated (s : World * Log) (c : Config) : Prop :=
  (exists b, b ∈ drawn s.2 /\ sharedSecret c = hexOf b) /\
  exists client directory child, last (children s.1) = Some child /\ told client directory (sharedSecret c) child.

(** The configuration on the disk, with its secret as DPAPI sealed it; an empty blob is one
    that DPAPI refused, and the file then has no secret. *)
Definition holds (log : Log) (c : Config) : Prop :=
  exists blob, sealed log = Some (sharedSecret c, blob) /\ stored log = Some (saveText blob c).

(** A configuration is written only after its secret was handed to the Worker whose address
    it has; requests go to the address that was written, with the secret that was sealed for
    it. *)
Definition legalS (s : World * Log) (c : DeployCall) : Prop :=
  match c with
  | WriteConfig text => exists c blob, text = saveText blob c /\ sealed s.2 = Some (sharedSecret c, blob) /\
      apiToken c = [] /\ rotated s c /\ addressOf (workerName c) (Config.workerUrl c)
  | Perform request => (asked s.2 < 10)%nat /\
      exists c, holds s.2 c /\ request = verifyRequest (hostFromUrl (Config.workerUrl c)) (sharedSecret c)
  | GetLine | GenRandom _ | Sleep _ | ConfigDirectory | CreateDirectories | ProtectSecret _ => True
  | c => legal s.1 c
  end.

Notation wpp := (wps legalS answersS afterS).
Notation wpd := (wps legal answers after).

Lemma wp_lift {A} (p : M A) w log (Q : A -> World -> Prop) :
  wpd p w Q -> wpp p (w, log) (λ a s, Q a s.1 /\ s.2 = log).
Proof.
  revert w. induction p as [a|c k IH]; intros w; cbn; [done |]. intros [Hl Hk]. split; [by destruct c |].
  intros r Hr. assert (Ha : answers w c r) by by destruct c. specialize (IH r _ (Hk r Ha)).
  assert (E : afterS (w, log) c r = (after w c r, log)) by (unfold afterS; by destruct c). by rewrite E.
Qed.
Lemma wpp_do {A} c (k : Reply c -> M A) s Q :
  legalS s c -> (forall r, answersS s c r -> wpp (k r) (afterS s c r) Q) -> wpp (do c ≫= k) s Q.
Proof. intros Hl Hk. by split. Qed.

(** Everything is given back: handles [o]; of the files and directories what could be
    deleted. *)
Definition calm (o : gset Z) (f : gset bytes) (d : gset wide) (pd : nat) (w : World) : Prop :=
  exists l ch f' d' ck pd' st, w = mkWorld o false false ∅ l ch f' d' ck pd' st /\ Left f d (∅, ∅) f' d' st /\ (pd' <= pd)%nat.

Section Client.
Variables (turns inner : nat) (o : gset Z) (f : gset bytes) (d : gset wide) (pd : nat).
Hypothesis Hturns : kLoginTimeoutMs + 1 < Z.of_nat turns.
Hypothesis Hinner : (pd < inner)%nat.
Notation quietly := (calm o f d pd).

Lemma calm_run {A} application arguments directory input timeoutMs (k : ProcessResult -> M (option A)) w Q :
  quietly w -> 0 <= timeoutMs <= kLoginTimeoutMs -> (forall r w', quietly w' -> wpd (k r) w' Q) ->
  wpd (orStop (run turns inner application arguments directory input false timeoutMs) k) w Q.
Proof.
  intros (l & ch & f' & d' & ck & pd' & st & -> & Hf & Hp) Ht HQ. apply wpd_run; [done | lia | done |].
  intros r l' ck' pd'' kids Hp' _. apply HQ. exists l', (ch ++ kids), f', d', ck', pd'', st. split_and!; [done | done | lia].
Qed.

(** Calls that ask. *)
Lemma calm_ask {A} c (k : Reply c -> M A) w Q :
  match c with IsRegularFile _ | SearchPathW _ _ => True | _ => False end ->
  quietly w -> (forall r, wpd (k r) w Q) -> wpd (do c ≫= k) w Q.
Proof.
  intros Hc (l & ch & f' & d' & ck & pd' & st & -> & _) HQ. apply wps_do; [by destruct c |]. intros r _. specialize (HQ r). by destruct c.
Qed.
Definition fine {A} (p : M (option A)) : Prop :=
  forall w (Q : option A -> World -> Prop), quietly w -> (forall a w', quietly w' -> Q (Some a) w') -> wpd p w Q.

Lemma fine_ensureKeyringBinding client : fine (ensureKeyringBinding turns inner client).
Proof.
  intros w Q Hw HQ. unfold ensureKeyringBinding. apply calm_ask; [done | done |]. intros there. destruct there; cbn [negb]; [| by apply HQ].
  apply calm_run; [done | unfold kProbeTimeoutMs, kLoginTimeoutMs; lia |]. intros root w1 Hw1.
  assert (Hrest : forall b : bool, wpd (if b then mret (Some true) else orStop (run turns inner (nodePath_ client)
      [join (parent_path (npxCliPath_ client)) "npm-cli.js"; str "install"; str "-g"; str "@napi-rs/keyring@" ++ kKeyringVersion;
       str "--no-audit"; str "--no-fund"; str "--loglevel=error"] [] [] false kProbeTimeoutMs) (λ install, mret (Some (succeeded install)))) w1 Q).
  { intros [|]; [by apply HQ |]. apply calm_run; [done | unfold kProbeTimeoutMs, kLoginTimeoutMs; lia |]. intros r w2 Hw2. by apply HQ. }
  destruct (succeeded root && _); [| apply (Hrest false)].
  apply (calm_ask (IsRegularFile _)); [done | done |]. intros b. apply Hrest.
Qed.
Lemma fine_available client : fine (available turns inner client).
Proof.
  intros w Q Hw HQ. unfold available. destruct (_ || _); [by apply HQ |].
  apply calm_run; [done | unfold kProbeTimeoutMs, kLoginTimeoutMs; lia |]. intros r w1 Hw1. by apply HQ.
Qed.
Lemma fine_login client : fine (loginWithKeyring turns inner client).
Proof.
  intros w Q Hw HQ. unfold loginWithKeyring. apply wps_bind, fine_ensureKeyringBinding; [done |]. intros [|] w1 Hw1; [| by apply HQ].
  apply calm_run; [done | unfold kLoginTimeoutMs; lia |]. intros r w2 Hw2. by apply HQ.
Qed.
Lemma fine_whoami client : fine (whoami turns inner client).
Proof.
  intros w Q Hw HQ. unfold whoami. apply calm_run; [done | unfold kProbeTimeoutMs, kLoginTimeoutMs; lia |]. intros r w1 Hw1. by apply HQ.
Qed.

Lemma calm_searchPath {A} file (k : wide -> M A) w Q : quietly w -> (forall p, wpd (k p) w Q) -> wpd (searchPath file ≫= k) w Q.
Proof.
  intros Hw HQ. apply wps_bind. unfold searchPath. apply (calm_ask (SearchPathW _ _)); [done | done |]. intros [required p].
  destruct (required =? 0); [apply HQ |]. apply (calm_ask (SearchPathW _ _)); [done | done |]. intros [n p']. destruct (_ || _); apply HQ.
Qed.
Lemma calm_newClient w (Q : Client -> World -> Prop) : quietly w -> (forall c, Q c w) -> wpd newClient w Q.
Proof.
  intros Hw HQ. unfold newClient, findNpxRuntime. apply wps_bind. apply calm_searchPath; [done |]. intros node.
  destruct (bool_decide (node = [])); [apply HQ |]. apply calm_searchPath; [done |]. intros npx.
  generalize ([parent_path node] ++ (if bool_decide (npx = []) then [] else
    [parent_path npx] ++ (if bool_decide (filename (parent_path npx) = str "bin") then [parent_path (parent_path (parent_path (parent_path npx)))] else []))).
  intros roots. induction roots as [|root roots IH]; cbn [firstCli]; [apply HQ |].
  apply (calm_ask (IsRegularFile _)); [done | done |]. intros found. destruct found; [apply HQ | apply IH].
Qed.

(** A deployment, and what its success means. *)
Lemma calm_deploy client accountId workerName source secret previous w (Q : option DeployResult -> World -> Prop) :
  quietly w ->
  (forall r w', quietly w' ->
     (success r = true -> addressOf workerName (deployedUrl r) /\
        exists directory child, last (children w') = Some child /\ told client directory secret child) -> Q (Some r) w') ->
  wpd (deploy turns inner client accountId workerName source secret previous) w Q.
Proof.
  intros (l & ch & f' & d' & ck & pd' & st & -> & Hf & Hp) HQ. apply wp_deploy; [done | lia |].
  intros r l' ck' pd'' f'' d'' st'' kids Hp' Hf' Hk. apply HQ.
  - exists l', (ch ++ kids), f'', d'', ck', pd'', st''. split; [done |]. split; [by apply (left_trans _ _ _ f' d' st) | lia].
  - intros Hs. destruct Hk as [[-> _]|(directory & codes & secrets & -> & _ & _ & Hsec & Hok)]; [done |].
    destruct (Hok Hs) as [Hne Ha]. split; [done |]. destruct Hsec as [-> |(c & -> & Hc)]; [done |]. exists directory, c. split; [| done].
    cbn [children]. rewrite app_assoc. apply last_snoc.
Qed.

(** A result with a configuration: nothing is left open; success was confirmed. *)
Definition settledWith (r : option (bool * Config)) (s : World * Log) : Prop :=
  quietly s.1 /\
  forall b c, r = Some (b, c) -> b = true ->
    holds s.2 c /\ confirmed s.2 = true /\ apiToken c = [] /\ (exists b, b ∈ drawn s.2 /\ zlen b = 32 /\ sharedSecret c = hexOf b).

Lemma wp_verifyAgain n c s (Q : bool -> World * Log -> Prop) :
  quietly s.1 -> holds s.2 c -> (asked s.2 + n <= 10)%nat ->
  (forall b s', quietly s'.1 -> holds s'.2 c -> drawn s'.2 = drawn s.2 -> lines s'.2 = lines s.2 -> (b = true -> confirmed s'.2 = true) -> Q b s') ->
  wpp (verifyAgain n (Config.workerUrl c) (sharedSecret c)) s Q.
Proof.
  revert s. induction n as [|n IH]; intros [w log] Hw Hs Hn HQ; cbn [verifyAgain]; [by apply HQ |]. cbn [fst snd] in *.
  assert (Hagain : forall log', holds log' c -> (asked log' + n <= 10)%nat -> drawn log' = drawn log -> lines log' = lines log ->
    wpp (_ ← do (Sleep 2000); verifyAgain n (Config.workerUrl c) (sharedSecret c)) (w, log') Q).
  { intros log' H1 H2 H3 H4. apply wpp_do; [done |]. intros ? _.
    assert (E : afterS (w, log') (Sleep 2000) r = (w, log')) by (destruct Hw as (? & ? & ? & ? & ? & ? & ? & -> & _); done). rewrite E.
    apply IH; [done | done | done |]. cbn. intros b s' G1 G2 G3 G4 G5. apply HQ; congruence || done. }
  apply wps_bind. unfold verifyDeployment. destruct (bool_decide (hostFromUrl (Config.workerUrl c) = [])).
  - apply Hagain; [done | lia | done | done].
  - apply wpp_do; [split; [cbn; lia |]; by exists c |]. intros r _.
    assert (E : afterS (w, log) (Perform (verifyRequest (hostFromUrl (Config.workerUrl c)) (sharedSecret c))) r =
      (w, mkLog (sealed log) (stored log) (S (asked log)) (confirms r) (drawn log) (lines log))) by (destruct Hw as (? & ? & ? & ? & ? & ? & ? & -> & _); done).
    rewrite E. fold (confirms r). destruct (confirms r) eqn:Ec; cbn [wps mret deploy_ret]; [by apply HQ |].
    apply Hagain; [done | cbn; lia | done | done].
Qed.

Lemma wp_randomHex {A} (k : bytes -> M A) w log Q :
  quietly w ->
  (forall r, (forall b, r = Some b -> zlen b = 32 /\ all_bytes b) ->
     wpp (k (match r with Some b => hexOf b | None => [] end))
       (w, mkLog (sealed log) (stored log) (asked log) (confirmed log) (drawn log ++ option_list r) (lines log)) Q) ->
  wpp (randomHex kSharedSecretBytes ≫= k) (w, log) Q.
Proof.
  intros Hw HQ. apply wps_bind. unfold randomHex. apply wpp_do; [done |]. intros r Hr.
  assert (E : afterS (w, log) (GenRandom kSharedSecretBytes) r =
    (w, mkLog (sealed log) (stored log) (asked log) (confirmed log) (drawn log ++ option_list r) (lines log))) by (destruct Hw as (? & ? & ? & ? & ? & ? & ? & -> & _); done).
  rewrite E. by apply HQ.
Qed.

(** [Config::save] of a configuration whose secret the Worker has. *)
Lemma wp_saveConfig {A} c (k : bool -> M A) w log Q :
  quietly w -> sharedSecret c <> [] -> apiToken c = [] -> rotated (w, log) c -> addressOf (workerName c) (Config.workerUrl c) ->
  (forall log', lines log' = lines log -> wpp (k false) (w, log') Q) ->
  (forall log', holds log' c -> asked log' = 0%nat -> drawn log' = drawn log -> lines log' = lines log -> wpp (k true) (w, log') Q) ->
  wpp (saveConfig c ≫= k) (w, log) Q.
Proof.
  intros Hw Hs Ht Hr Ha HQ0 HQ1. apply wps_bind. unfold saveConfig.
  assert (E : forall log' (c' : DeployCall) r, match c' with ConfigDirectory | CreateDirectories | ProtectSecret _ | WriteConfig _ => True | _ => False end ->
    afterS (w, log') c' r = (w, logAfter log' c' r)).
  { intros log' c' r Hc. destruct Hw as (? & ? & ? & ? & ? & ? & ? & -> & _). by destruct c'. }
  apply wpp_do; [done |]. intros known _. rewrite E by done. cbn [logAfter]. destruct known; cbn [negb]; [| by apply HQ0].
  apply wpp_do; [done |]. intros created _. rewrite E by done. cbn [logAfter]. destruct created; cbn [negb]; [| by apply HQ0].
  rewrite bool_decide_false by done. apply wpp_do; [done |]. intros blob _. rewrite E by done. cbn [logAfter].
  split; [exists c, blob; by split_and! |]. intros saved _. rewrite E by done. cbn [logAfter wps]. destruct saved; [| by apply HQ0].
  apply HQ1; [by exists blob | done | done | done].
Qed.

Lemma wp_deployAndVerify source c client w log (Q : option (bool * Config) -> World * Log -> Prop) :
  quietly w -> apiToken c = [] ->
  (sharedSecret c <> [] -> exists b, b ∈ drawn log /\ zlen b = 32 /\ sharedSecret c = hexOf b) ->
  (forall r s, settledWith (Some r) s -> lines s.2 = lines log -> Q (Some r) s) ->
  wpp (deployAndVerify turns inner source c client) (w, log) Q.
Proof.
  intros Hw Ht Hsec HQ. unfold deployAndVerify. apply wps_bind.
  assert (Hgo : forall c log', lines log' = lines log -> apiToken c = [] ->
    (sharedSecret c <> [] -> exists b, b ∈ drawn log' /\ zlen b = 32 /\ sharedSecret c = hexOf b) ->
    wpp (if bool_decide (sharedSecret c = []) then mret (Some (false, c)) else
      deployment ← deploy turns inner client (accountId c) (workerName c) source (sharedSecret c) (Config.workerUrl c);
      match deployment with
      | None => mret None
      | Some deployment =>
          if negb (success deployment) then mret (Some (false, c)) else
          let c := setWorkerUrl (deployedUrl deployment) c in
          saved ← saveConfig c;
          if negb saved then mret (Some (false, c)) else
          verified ← verifyAgain 10 (Config.workerUrl c) (sharedSecret c);
          mret (Some (verified, c))
      end) (w, log') Q).
  2: { case_bool_decide as E; [| by apply (Hgo c log)]. apply wp_randomHex; [done |]. intros r Hr. apply (Hgo (setSharedSecret _ c)); [done | done |].
       destruct r as [b|]; [| done]. intros _. exists b. cbn. split; [set_solver | by destruct (Hr b eq_refl)]. }
  clear c Ht Hsec. intros c log' El Ht Hsec. case_bool_decide as E; [apply HQ; [split; [done |]; congruence | done] |]. specialize (Hsec E).
  apply wps_bind. eapply wps_mono; [apply wp_lift, (calm_deploy client _ _ _ _ _ w (λ r w', exists r', r = Some r' /\ quietly w' /\
     (success r' = true -> addressOf (workerName c) (deployedUrl r') /\
        exists directory child, last (children w') = Some child /\ told client directory (sharedSecret c) child))) |].
  { done. } { intros r w' Hw' Hs. by exists r. }
  intros result [w1 log1] [(r & -> & Hw1 & Hs) Elog]. cbn [fst snd] in *. subst log1.
  destruct (success r) eqn:Es; cbn [negb]; [| apply HQ; [split; [done |]; congruence | done]]. destruct (Hs eq_refl) as [Ha (directory & child & Hlast & Htold)].
  set (c' := setWorkerUrl (deployedUrl r) c).
  apply (wp_saveConfig c'); [done | done | done | | done | |].
  { split; [destruct Hsec as (b & Hb & _ & Eb); by exists b | by exists client, directory, child]. }
  { intros log2 H2. apply HQ; [split; [done |]; congruence | cbn [snd]; congruence]. }
  intros log2 Hh Ha0 Hd2 Hl2. cbn [negb]. apply wps_bind, wp_verifyAgain; [done | done | cbn; lia |]. intros b s' Hq Hl Hd Hli Hc.
  apply HQ; [| cbn in Hli; congruence]. split; [done |]. intros b' c'' [= <- <-] ->. split; [done |]. split; [by apply Hc |]. split; [done |].
  cbn in Hd. rewrite Hd, Hd2. exact Hsec.
Qed.

(** The user was asked [n] times more, nothing else happened. *)
Definition askedUser (n : nat) (log log' : Log) : Prop :=
  drawn log' = drawn log /\ (lines log + n <= lines log')%nat.

Lemma calm_getLine {A} (k : option bytes -> M A) w log Q :
  quietly w -> (forall r, wpp (k r) (w, mkLog (sealed log) (stored log) (asked log) (confirmed log) (drawn log) (S (lines log))) Q) ->
  wpp (do GetLine ≫= k) (w, log) Q.
Proof.
  intros Hw HQ. apply wpp_do; [done |]. intros r _.
  assert (E : afterS (w, log) GetLine r = (w, mkLog (sealed log) (stored log) (asked log) (confirmed log) (drawn log) (S (lines log))))
    by (destruct Hw as (? & ? & ? & ? & ? & ? & ? & -> & _); done). rewrite E. apply HQ.
Qed.

(** A client's program inside the setup. *)
Lemma fine_lift {A B} (p : M (option A)) (k : option A -> M B) w log Q :
  fine p -> quietly w -> (forall a w', quietly w' -> wpp (k (Some a)) (w', log) Q) -> wpp (p ≫= k) (w, log) Q.
Proof.
  intros Hp Hw HQ. apply wps_bind. eapply wps_mono; [apply wp_lift, (Hp w (λ a w', exists a', a = Some a' /\ quietly w')) |].
  { done. } { intros a w' Hw'. by exists a. }
  intros a [w' log'] [(a' & -> & Hw') E]. cbn [fst snd] in *. subst log'. by apply HQ.
Qed.

Lemma wp_loginLoop {A} n client (k : option bool -> M A) w log Q :
  quietly w ->
  (forall b w' log', quietly w' -> askedUser 0 log log' -> wpp (k (Some b)) (w', log') Q) ->
  (forall w' log', quietly w' -> askedUser n log log' -> wpp (k None) (w', log') Q) ->
  wpp (loginLoop turns inner n client ≫= k) (w, log) Q.
Proof.
  intros Hw HQ1 HQ0. apply wps_bind. revert w log Hw HQ1 HQ0. induction n as [|n IH]; intros w log Hw HQ1 HQ0; cbn [loginLoop].
  - apply HQ0; [done | split; [done | lia]].
  - apply fine_lift; [apply fine_login | done |]. intros [|] w1 Hw1; [apply HQ1; [done | split; [done | lia]] |].
    apply wps_bind. unfold askRetry. apply calm_getLine; [done |]. intros answer.
    match goal with |- context [mret ?b] => destruct b end.
    + apply IH; [done | |].
      * intros b w2 log2 Hw2 [Hd Hl]. apply HQ1; [done | split; [done | cbn in Hl; lia]].
      * intros w2 log2 Hw2 [Hd Hl]. apply HQ0; [done | split; [done | cbn in Hl; lia]].
    + apply HQ1; [done | split; [done | cbn; lia]].
Qed.

Lemma wp_identity {A} attempts client always (k : option (option Identity) -> M A) w log Q :
  quietly w ->
  (forall i w' log', quietly w' -> askedUser 0 log log' -> wpp (k (Some i)) (w', log') Q) ->
  (forall w' log', quietly w' -> askedUser attempts log log' -> wpp (k None) (w', log') Q) ->
  wpp (loginAndReadIdentity turns inner attempts client always ≫= k) (w, log) Q.
Proof.
  intros Hw HQ1 HQ0. apply wps_bind. unfold loginAndReadIdentity.
  assert (Hid : forall w' log', quietly w' -> askedUser 0 log log' -> wpp (whoami turns inner client) (w', log') (λ a s, wpp (k a) s Q)).
  { intros w' log' Hw' Hl. eapply wps_mono; [apply wp_lift, (fine_whoami client w' (λ a w', exists a', a = Some a' /\ quietly w')) |].
    { done. } { intros a w'' Hw''. by exists a. }
    intros a [w'' log''] [(a' & -> & Hw'') E]. cbn [fst snd] in *. subst log''. by apply HQ1. }
  assert (Hlogin : forall w', quietly w' -> wpp (loggedIn ← loginLoop turns inner attempts client;
      match loggedIn with None => mret None | Some false => mret (Some None) | Some true => whoami turns inner client end) (w', log) (λ a s, wpp (k a) s Q)).
  { intros w' Hw'. apply wp_loginLoop; [done | |].
    - intros [|] w2 log2 Hw2 Hl; [by apply Hid | by apply HQ1].
    - intros w2 log2 Hw2 Hl. by apply HQ0. }
  destruct always; [by apply Hlogin |]. apply fine_lift; [apply fine_whoami | done |]. intros [i|] w1 Hw1.
  - apply HQ1; [done | split; [done | lia]].
  - by apply Hlogin.
Qed.

Lemma wp_selectAccount {A} identity preferred (k : option bytes -> M A) w log Q :
  quietly w -> (forall r log', askedUser 0 log log' -> wpp (k r) (w, log') Q) -> wpp (selectAccount identity preferred ≫= k) (w, log) Q.
Proof.
  intros Hw HQ. apply wps_bind. unfold selectAccount.
  assert (Hlog0 : askedUser 0 log log) by (split; [done | lia]).
  destruct (if bool_decide (preferred = []) then None else _); [by apply HQ |].
  destruct (accounts identity) as [|a [|b all]]; [by apply HQ | by apply HQ |].
  apply calm_getLine; [done |]. intros answer. apply HQ. split; [done | cbn; lia].
Qed.

(** How a command of the setup ends. *)
Definition completed (attempts : nat) (log : Log) (r : option (bool * Config)) (s : World * Log) : Prop :=
  settledWith r s /\ (r = None -> (lines log + attempts <= lines s.2)%nat).

Lemma completed_no attempts log c w' log' : quietly w' -> completed attempts log (Some (false, c)) (w', log').
Proof. intros Hw. split; [split; [done |]; intros b c' [= <- <-]; congruence | done]. Qed.

Lemma wp_withAccount attempts c always k w log :
  quietly w ->
  (forall client c' w' log', quietly w' -> drawn log' = drawn log -> workerName c' = workerName c ->
     wpp (k client c') (w', log') (completed attempts log)) ->
  wpp (withAccount turns inner attempts c always k) (w, log) (completed attempts log).
Proof.
  intros Hw Hk. unfold withAccount. apply wps_bind.
  eapply wps_mono; [apply wp_lift, (calm_newClient w (λ _ w', w' = w)); done |].
  intros client [w0 log0] [E1 E2]. cbn [fst snd] in E1, E2. subst w0 log0. apply fine_lift; [apply fine_available | done |]. intros [|] w1 Hw1; [| by apply completed_no].
  apply wp_identity; [done | |].
  - intros [identity|] w2 log2 Hw2 [Hd2 Hl2]; [| by apply completed_no].
    apply wp_selectAccount; [done |]. intros [account|] log3 [Hd3 Hl3]; [| by apply completed_no].
    apply Hk; [done | congruence | done].
  - intros w2 log2 Hw2 [Hd2 Hl2]. split; [split; [done |]; congruence | intros _; cbn; lia].
Qed.

Lemma wp_rotate source attempts client c w log log0 :
  quietly w -> drawn log = drawn log0 ->
  wpp (secret ← randomHex kSharedSecretBytes; deployAndVerify turns inner source (setSharedSecret secret (clearToken c)) client) (w, log)
    (completed attempts log0).
Proof.
  intros Hw Hd. apply wp_randomHex; [done |]. intros r Hr. apply wp_deployAndVerify; [done | done | | by split].
  destruct r as [b|]; [| done]. intros _. exists b. cbn. split; [set_solver | by destruct (Hr b eq_refl)].
Qed.

Lemma wp_runSetup source attempts c w log :
  quietly w -> wpp (runSetup turns inner attempts source c) (w, log) (completed attempts log).
Proof.
  intros Hw. apply wp_withAccount; [done |]. intros client c' w' log' Hw' Hd _. cbv zeta.
  match goal with |- context [if negb (isValidWorkerName (workerName ?x)) then _ else _] => generalize x end. intros c2.
  destruct (isValidWorkerName (workerName c2)); cbn [negb]; [by apply wp_rotate | by apply completed_no].
Qed.
Lemma wp_redeployWorker source attempts c w log :
  quietly w -> wpp (redeployWorker turns inner attempts source c) (w, log) (completed attempts log).
Proof.
  intros Hw. apply wp_withAccount; [done |]. intros client c' w' log' Hw' Hd _.
  destruct (isValidWorkerName (workerName c')); cbn [negb]; [| by apply completed_no].
  apply wp_randomHex; [done |]. intros r Hr. case_bool_decide as E; [by apply completed_no |].
  apply wp_deployAndVerify; [done | done | | by split].
  destruct r as [b|]; [| done]. intros _. exists b. cbn. split; [set_solver | by destruct (Hr b eq_refl)].
Qed.
End Client.
End SetupRuns.

(** The two commands. *)
Inductive Command := DoSetup | DoRedeploy.
Definition command `{!CodePages, !Paths} (which : Command) (turns inner attempts : nat) (source : bytes) (c : Config) : M (option (bool * Config)) :=
  match which with
  | DoSetup => runSetup turns inner attempts source c
  | DoRedeploy => redeployWorker turns inner attempts source c
  end.

(** C36: setting up rotates the secret in order. In every run of [--setup] and [--redeploy]
    the configuration is written only with a secret of 256 bits drawn in this run and sealed
    by DPAPI, after that secret was handed to the Worker it names, with that Worker's address
    and without an API token; only then is the Worker asked, at most ten times, at the address
    written, with the secret that was sealed, and nowhere else. The command says yes only when
    the Worker confirmed and the text on the disk is the configuration it gives, with the
    answer of DPAPI for its secret; when DPAPI refused, that answer is empty and the secret is
    not on the disk, which [Config::save] does not report ([sealing_refused]). It ends, unless
    the user keeps asking for another login, with every handle given back and every file and
    directory deleted that could be. *)
Theorem setup_rotates_safely `{!CodePages, !Paths} which turns inner attempts source c oracle o f d ck pd :
  kLoginTimeoutMs + 1 < Z.of_nat turns -> (pd < inner)%nat ->
  let s0 := (mkWorld o false false ∅ [] [] f d ck pd (∅, ∅), newLog) in
  honest answersS afterS s0 oracle ->
  let '(result, h) := play oracle (command which turns inner attempts source c) [] in
  let s := ledger afterS s0 h in
  valid legalS answersS afterS s0 h /\ calm o f d pd s.1 /\
  (result = None -> (attempts <= lines s.2)%nat) /\
  forall c', result = Some (true, c') ->
    holds s.2 c' /\ confirmed s.2 = true /\ apiToken c' = [] /\
    exists b, b ∈ drawn s.2 /\ zlen b = 32 /\ sharedSecret c' = hexOf b.
Proof.
  intros Ht Hp s0 Ho. assert (Hc : calm o f d pd s0.1) by (exists [], [], f, d, ck, pd, (∅, ∅); split_and!; [done | apply left_refl | done]).
  assert (Hw : wps legalS answersS afterS (command which turns inner attempts source c) (ledger afterS s0 []) (completed o f d pd attempts newLog))
    by (destruct which; [by apply wp_runSetup | by apply wp_redeployWorker]).
  pose proof (wps_play legalS answersS afterS s0 oracle _ [] _ Ho ltac:(done) Hw) as Hrun.
  destruct (play oracle _ []) as [result h]. destruct Hrun as [[[Hq Hok] Hn] Hv]. cbn [ledger fold_left] in *.
  split; [done |]. split; [done |]. split; [done |]. intros c' E. by apply (Hok true c').
Qed.

(** ** A run *)

(** Has the last child been read already? *)
Definition readSince (h : list (Event Reply)) : bool :=
  foldl (λ b e, match projT1 e with CreateProcessW _ _ _ _ _ _ => false | PipeRead _ _ => true | _ => b end) false h.

(** Everything works: each child says [said] once, the user answers [h], random bytes are
    sevens, the Worker answers. *)
Definition obliging `{!CodePages} (w0 : World) (said : bytes) : Oracle Reply := λ h c,
  match c return Reply c with
  | SearchPathW _ size => if size =? 0 then (2, []) else (1, str "n")
  | PeekPipe _ => if readSince h then Some 0%nat else Some (length said)
  | GenRandom n => if 0 <=? n then Some (replicate (Z.to_nat n) 7) else None
  | GetLine => Some (str "h")
  | Perform _ => mkHttpResponse 200 (str "{" ++ quoted (str "a") ++ str ":[" ++ quoted (str "1.1.1.1") ++ str "]}") 0
  | c => kindly w0 said h c
  end.

Lemma ledgerS_world `{!CodePages} (h : list (Event Reply)) s0 : (ledger afterS s0 h).1 = ledger after s0.1 h.
Proof. revert s0. induction h as [|e h IH]; intros s0; [done |]. cbn. unfold ledger in IH. by rewrite IH. Qed.
Lemma obliging_honest `{!CodePages} w0 log0 said : honest answersS afterS (w0, log0) (obliging w0 said).
Proof.
  intros h c _. pose proof (kindly_answers w0 said h c) as Hk. pose proof (ledgerS_world h (w0, log0)) as E. cbn [fst] in E.
  destruct c; cbn [answersS obliging]; try (rewrite E; exact Hk); try done.
  intros b. destruct (Z.leb_spec 0 count) as [Hc|]; [| done]. intros [= <-]. split; [unfold zlen; rewrite length_replicate; lia |].
  apply Forall_replicate. unfold is_byte. lia.
Qed.

Definition someSaid : bytes :=
  str "{" ++ member (str "email") (quoted (str "me@x.org")) ++ str "," ++
  quoted (str "accounts") ++ str ":[{" ++ member (str "id") (quoted someAccount) ++ str "," ++ member (str "name") (quoted (str "Me")) ++ str "}]} " ++
  str "https://splithello-relay.me.workers.dev ".
Definition someRoom : World := mkWorld ∅ false false ∅ [] [] ∅ ∅ 0 999 (∅, ∅).
Definition someTurns : nat := Z.to_nat 600100.
Abbreviation someSetup :=
  (play (@obliging latin someRoom someSaid) (@command latin plainPaths DoSetup someTurns 1000 5 (str "code") newConfig) []).
Definition someConfig : Config :=
  setWorkerUrl (str "wss://splithello-relay.me.workers.dev") (setSharedSecret (hexOf (replicate 32 7)) (setAccountId someAccount newConfig)).
Lemma someSetup_ends : fst someSetup = Some (true, someConfig).
Proof. vm_compute. reflexivity. Qed.

Lemma someTurns_enough : kLoginTimeoutMs + 1 < Z.of_nat someTurns.
Proof. unfold someTurns. rewrite Z2Nat.id; unfold kLoginTimeoutMs; lia. Qed.
#[local] Opaque someTurns.

Lemma setup_rotates_safely_witness :
  let s := ledger (@afterS latin) (someRoom, newLog) (snd someSetup) in
  fst someSetup = Some (true, someConfig) /\
  calm ∅ ∅ ∅ 999 s.1 /\ holds s.2 someConfig /\ confirmed s.2 = true.
Proof.
  pose proof (@setup_rotates_safely latin plainPaths DoSetup someTurns 1000 5 (str "code") newConfig
    (@obliging latin someRoom someSaid) ∅ ∅ ∅ 0 999 someTurns_enough ltac:(lia) (@obliging_honest latin someRoom newLog someSaid)) as H.
  pose proof someSetup_ends as E. cbv zeta. change (mkWorld ∅ false false ∅ [] [] ∅ ∅ 0 999 (∅, ∅)) with someRoom in H.
  destruct (play _ _ _) as [r h]. cbn [fst snd] in *. destruct H as (_ & Hc & _ & Hs). destruct (Hs _ E) as (H1 & H2 & _).
  exact (conj E (conj Hc (conj H1 H2))).
Defined.

(** Wrangler deploys the code and stores the secret, but its output has no address: the
    Worker then has a secret that is saved nowhere. *)
Definition strandedRun : option (bool * Config) * list (Event Reply) :=
  play (@obliging latin someRoom (take 120 someSaid))
    (@command latin plainPaths DoRedeploy 99 1000 5 (str "code") newConfig) [].
Example secret_stranded :
  let s := ledger (@afterS latin) (someRoom, newLog) (snd strandedRun) in
  fst <$> fst strandedRun = Some false /\ stored s.2 = None /\
  ch_input <$> last (children s.1) = Some (hexOf (replicate 32 7) ++ [10]).
Proof. vm_compute. by split_and!. Qed.

(** DPAPI refuses: the configuration is written without the secret, and the setup says it
    was a success. *)
Definition unsealing `{!CodePages} (w0 : World) (said : bytes) : Oracle Reply := λ h c,
  match c return Reply c with
  | ProtectSecret _ => []
  | c => obliging w0 said h c
  end.
Definition unsealedRun : option (bool * Config) * list (Event Reply) :=
  play (@unsealing latin someRoom someSaid) (@command latin plainPaths DoSetup 99 1000 5 (str "code") newConfig) [].
Example sealing_refused :
  let s := ledger (@afterS latin) (someRoom, newLog) (snd unsealedRun) in
  fst unsealedRun = Some (true, someConfig) /\ stored s.2 = Some (saveText [] someConfig).
Proof. vm_compute. by split. Qed.
