(* ===== verification/StartupTask.v ===== *)
(** * StartupTask: starting with Windows

    Models the part of [src/src/TrayApp.cpp] behind "start with Windows": a scheduled task
    that runs the program elevated at every logon, registered only from a place whose
    access-control lists grant a standard user no right to change it. Hidden child processes, access-control lists, the XML of
    the task and [setStartupEnabled] are programs of [Calls]. Access-control lists and
    canonical paths are what the system says of a path and do not change meanwhile;
    [parent_path] is the class [Hierarchy]. *)

From S2P Require Import Prelude Calls Json CommandLine WranglerText.

Abbreviation wide := (list Z).

(** [parent_path] drops the last component, and nothing at a root; [join] is [operator/]. *)
Class Hierarchy := {
  parent_path : wide -> wide;
  join : wide -> string -> wide;
  parent_shorter p : parent_path p = p \/ (length (parent_path p) < length p)%nat;
}.

(** ** Access-control lists *)

Inductive Sid := WorldSid | AuthenticatedUserSid | BuiltinUsersSid | InteractiveSid | OtherSid (n : Z).
#[export] Instance sid_eq : EqDecision Sid.
Proof. solve_decision. Defined.

Record Ace := mkAce { ace_type : Z; ace_flags : Z; ace_mask : Z; ace_sid : Sid }.
Definition ACCESS_ALLOWED_ACE_TYPE : Z := 0.
Definition ACCESS_DENIED_ACE_TYPE : Z := 1.
Definition INHERIT_ONLY_ACE : Z := 8.

(** The list of a path; [None] among the entries is a [GetAce] that failed; no list at all
    is a null DACL. *)
Definition Acl : Type := option (list (option Ace)).

(** Everybody who need not be an administrator. *)
Definition lowPrivilege (currentUser : option Sid) (sid : Sid) : bool :=
  bool_decide (sid = WorldSid) || bool_decide (sid = AuthenticatedUserSid) || bool_decide (sid = BuiltinUsersSid) ||
  bool_decide (sid = InteractiveSid) || bool_decide (currentUser = Some sid).

(** The loop of [lowPrivilegeCanModify] *)
Fixpoint aclRisky (mask : Z) (currentUser : option Sid) (aces : list (option Ace)) : bool :=
  match aces with
  | [] => false
  | None :: aces => aclRisky mask currentUser aces
  | Some ace :: aces =>
      if negb (ace_type ace =? ACCESS_ALLOWED_ACE_TYPE) || negb (Z.land (ace_flags ace) INHERIT_ONLY_ACE =? 0)
      then aclRisky mask currentUser aces
      else if Z.land (ace_mask ace) mask =? 0 then aclRisky mask currentUser aces
      else if lowPrivilege currentUser (ace_sid ace) then true else aclRisky mask currentUser aces
  end.

Definition FILE_WRITE_DATA : Z := 0x2.
Definition FILE_APPEND_DATA : Z := 0x4.
Definition FILE_DELETE_CHILD : Z := 0x40.
Definition DELETE : Z := 0x10000.
Definition WRITE_DAC : Z := 0x40000.
Definition WRITE_OWNER : Z := 0x80000.
Definition GENERIC_ALL : Z := 0x10000000.
Definition GENERIC_EXECUTE : Z := 0x20000000.
Definition GENERIC_WRITE : Z := 0x40000000.
Definition GENERIC_READ : Z := 0x80000000.
Definition kAncestorMask : Z := FILE_DELETE_CHILD + DELETE + WRITE_DAC + WRITE_OWNER + GENERIC_ALL.
Definition kObjectMask : Z := FILE_WRITE_DATA + FILE_APPEND_DATA + GENERIC_WRITE + kAncestorMask.

(** ** Calls *)

Inductive TaskCall :=
  | GetModuleFileNameW (size : Z) | GetSystemDirectoryW (size : Z)    (* the length, and the path *)
  | CreateProcessW (application commandLine : wide)                   (* process, thread *)
  | StopRequested | GetTickCount64
  | WaitForSingleObject (process ms : Z)                              (* [Some true]: signalled, [None]: failed *)
  | GetExitCodeProcess (process : Z) | TerminateProcess (process : Z)
  | CloseHandle (h : Z)
  | Canonical (path : wide)
  | GetNamedSecurityInfoW (path : wide)                               (* the descriptor, and the list *)
  | LocalFree (memory : Z)
  | OpenProcessToken | TokenUserSize (token : Z) | TokenUser (token : Z)
  | LookupAccountSidW (sid : Sid)                                     (* name, domain *)
  | ConvertSidToStringSidW (sid : Sid)                                (* memory, text *)
  | CreateFileW (path : wide) | WriteFile (file : Z) (words : wide)
  | DeleteFileW (path : wide).

Definition Reply (c : TaskCall) : Type :=
  match c with
  | GetModuleFileNameW _ | GetSystemDirectoryW _ => Z * wide
  | CreateProcessW _ _ => option (Z * Z)
  | StopRequested | WriteFile _ _ | CloseHandle _ => bool
  | GetTickCount64 | TokenUserSize _ => Z
  | WaitForSingleObject _ _ => option bool
  | GetExitCodeProcess _ | OpenProcessToken | CreateFileW _ => option Z
  | Canonical _ => option wide
  | GetNamedSecurityInfoW _ => option (Z * Acl)
  | TokenUser _ => option Sid
  | LookupAccountSidW _ => option (wide * wide)
  | ConvertSidToStringSidW _ => option (Z * wide)
  | TerminateProcess _ | LocalFree _ | DeleteFileW _ => unit
  end.

Definition M (A : Type) : Type := Sys Reply A.
#[export] Instance task_ret : MRet M := λ A, Done.
#[export] Instance task_bind : MBind M := λ A B, sys_bind.
Definition do (c : TaskCall) : M (Reply c) := call c.

Definition kSchedulerTimeoutMs : Z := 5000.
Definition kTaskName : wide := str "\SplitHello".
Definition MAX_PATH : Z := 260.

(** [executablePath] *)
Definition executablePath : M wide :=
  '(length_, path) ← do (GetModuleFileNameW 32768);
  mret (if (length_ =? 0) || (32768 <=? length_) then [] else take (Z.to_nat length_) path).

(** [systemExecutable] *)
Definition systemExecutable (name : wide) : M wide :=
  '(length_, directory) ← do (GetSystemDirectoryW MAX_PATH);
  mret (if (length_ =? 0) || (MAX_PATH <=? length_) then name else take (Z.to_nat length_) directory ++ str "\" ++ name).

(** The loop of [runHiddenProcess]: the last answer of the wait, [Some false] being a
    timeout; the outer [None]: the turns are used up. *)
Fixpoint waitLoop (turns : nat) (process deadline : Z) (wait : option bool) : M (option (option bool)) :=
  match wait with
  | Some false =>
      stop ← do StopRequested;
      if (stop : bool) then mret (Some wait) else
      now ← do GetTickCount64;
      if negb (now <? deadline) then mret (Some wait) else
      match turns with
      | O => mret None
      | S turns => wait ← do (WaitForSingleObject process 100); waitLoop turns process deadline wait
      end
  | _ => mret (Some wait)
  end.

(** [runHiddenProcess]; [Some None]: it did not start or was killed. *)
Definition runHiddenProcess (turns : nat) (application : wide) (arguments : list wide) (timeoutMs : Z) : M (option (option Z)) :=
  created ← do (CreateProcessW application (quoteArgument application ++ appendArguments arguments));
  match (created : option (Z * Z)) with
  | None => mret (Some None)
  | Some (process, thread) =>
      _ ← do (CloseHandle thread);
      now ← do GetTickCount64;
      waited ← waitLoop turns process (now + timeoutMs) (Some false);
      match waited with
      | None => mret None
      | Some wait =>
          result ← (match wait with
                    | Some true => code ← do (GetExitCodeProcess process); mret (Some (default 1 (code : option Z)))
                    | _ => _ ← do (TerminateProcess process); _ ← do (WaitForSingleObject process 1000); mret None
                    end);
          _ ← do (CloseHandle process);
          mret (Some result)
      end
  end.

(** ** The place *)

(** [lowPrivilegeCanModify] *)
Definition lowPrivilegeCanModify (path : wide) (mask : Z) (currentUser : option Sid) : M bool :=
  info ← do (GetNamedSecurityInfoW path);
  match (info : option (Z * Acl)) with
  | None => mret true
  | Some (descriptor, dacl) =>
      let risky := match dacl with None => true | Some aces => aclRisky mask currentUser aces end in
      _ ← do (LocalFree descriptor);
      mret risky
  end.

(** The user of the process token. *)
Definition tokenUser (token : Z) : M (option Sid) :=
  size ← do (TokenUserSize token);
  user ← (if negb (size =? 0) then do (TokenUser token) else mret None);
  mret user.

Section Task.
Context `{!Hierarchy}.
(** Turns of the wait for a child. *)
Variable turns : nat.

(** The loop over the parents; the path gets shorter, so its length is enough fuel. [None]:
    the fuel is used up, which [startup_guarded] excludes. *)
Fixpoint parentsNeedAdmin (fuel : nat) (current : wide) (directory : bool) (currentUser : option Sid) : M (option bool) :=
  if bool_decide (current = []) then mret (Some true) else
  match fuel with
  | O => mret None
  | S fuel =>
      risky ← lowPrivilegeCanModify current (if directory then kObjectMask else kAncestorMask) currentUser;
      if (risky : bool) then mret (Some false) else
      let parent := parent_path current in
      if bool_decide (parent = current) then mret (Some true) else parentsNeedAdmin fuel parent false currentUser
  end.

(** [locationNeedsAdminToModify] *)
Definition locationNeedsAdminToModify (executable : wide) : M (option bool) :=
  real ← do (Canonical executable);
  match (real : option wide) with
  | None => mret (Some false)
  | Some real =>
      token ← do OpenProcessToken;
      currentUser ← (match (token : option Z) with
                     | None => mret None
                     | Some token => user ← tokenUser token; _ ← do (CloseHandle token); mret user
                     end);
      risky ← lowPrivilegeCanModify real kObjectMask currentUser;
      if (risky : bool) then mret (Some false)
      else parentsNeedAdmin (S (length real)) (parent_path real) true currentUser
  end.

(** [currentUserId] *)
Definition currentUserId : M wide :=
  token ← do OpenProcessToken;
  match (token : option Z) with
  | None => mret []
  | Some token =>
      sid ← tokenUser token;
      result ← (match sid with
                | None => mret []
                | Some sid =>
                    account ← do (LookupAccountSidW sid);
                    match (account : option (wide * wide)) with
                    | Some (name, domain) =>
                        if negb (bool_decide (name = [])) then
                          mret ((if bool_decide (domain = []) then [] else domain ++ str "\") ++ name)
                        else
                          text ← do (ConvertSidToStringSidW sid);
                          (match (text : option (Z * wide)) with None => mret [] | Some (memory, text) => _ ← do (LocalFree memory); mret text end)
                    | None =>
                        text ← do (ConvertSidToStringSidW sid);
                        (match (text : option (Z * wide)) with None => mret [] | Some (memory, text) => _ ← do (LocalFree memory); mret text end)
                    end
                end);
      _ ← do (CloseHandle token);
      mret result
  end.

(** ** The task *)

(** [xmlEscape] *)
Definition xmlEscapeChar (c : Z) : wide :=
  if c =? 38 then str "&amp;" else if c =? 60 then str "&lt;" else if c =? 62 then str "&gt;" else if c =? 34 then str "&quot;" else [c].
Definition xmlEscape (text : wide) : wide := text ≫= xmlEscapeChar.

(** A text in quotes. *)
Definition inQuotes (text : wide) : wide := [34] ++ text ++ [34].
Definition crlf : wide := [13; 10].

(** The lines up to the action. *)
Definition taskLinesBefore (user : wide) : list wide :=
  [str "<?xml version=" ++ inQuotes (str "1.0") ++ str " encoding=" ++ inQuotes (str "UTF-16") ++ str "?>";
   str "<Task version=" ++ inQuotes (str "1.2") ++ str " xmlns=" ++ inQuotes (str "http://schemas.microsoft.com/windows/2004/02/mit/task") ++ str ">";
   str "  <RegistrationInfo><Description>SplitHello</Description></RegistrationInfo>";
   str "  <Triggers>"; str "    <LogonTrigger>"; str "      <Enabled>true</Enabled>";
   str "      <UserId>" ++ user ++ str "</UserId>";
   str "      <Delay>PT5S</Delay>"; str "    </LogonTrigger>"; str "  </Triggers>"; str "  <Principals>";
   str "    <Principal id=" ++ inQuotes (str "Author") ++ str ">";
   str "      <UserId>" ++ user ++ str "</UserId>";
   str "      <LogonType>InteractiveToken</LogonType>"; str "      <RunLevel>HighestAvailable</RunLevel>"; str "    </Principal>"; str "  </Principals>";
   str "  <Settings>"; str "    <MultipleInstancesPolicy>IgnoreNew</MultipleInstancesPolicy>";
   str "    <DisallowStartIfOnBatteries>false</DisallowStartIfOnBatteries>"; str "    <StopIfGoingOnBatteries>false</StopIfGoingOnBatteries>";
   str "    <AllowHardTerminate>true</AllowHardTerminate>"; str "    <StartWhenAvailable>false</StartWhenAvailable>";
   str "    <RunOnlyIfNetworkAvailable>false</RunOnlyIfNetworkAvailable>"; str "    <AllowStartOnDemand>true</AllowStartOnDemand>";
   str "    <Enabled>true</Enabled>"; str "    <Hidden>false</Hidden>"; str "    <ExecutionTimeLimit>PT0S</ExecutionTimeLimit>";
   str "    <Priority>7</Priority>"; str "  </Settings>"; str "  <Actions Context=" ++ inQuotes (str "Author") ++ str ">"; str "    <Exec>"].

(** [startupTaskXml] *)
Definition startupTaskXml (executable userId : wide) : wide :=
  (taskLinesBefore (xmlEscape userId) ++
   [str "      <Command>" ++ inQuotes (xmlEscape executable) ++ str "</Command>";
    str "      <WorkingDirectory>" ++ xmlEscape (parent_path executable) ++ str "</WorkingDirectory>";
    str "    </Exec>"; str "  </Actions>"; str "</Task>"]) ≫= λ line, line ++ crlf.

(** [writeUtf16File] *)
Definition writeUtf16File (path text : wide) : M bool :=
  file ← do (CreateFileW path);
  match (file : option Z) with
  | None => mret false
  | Some file =>
      bom ← do (WriteFile file [0xFEFF]);
      ok ← (if (bom : bool) then do (WriteFile file text) else mret false);
      closed ← do (CloseHandle file);
      mret (closed && ok)
  end.

(** [startupTaskExists] *)
Definition startupTaskExists : M (option (option bool)) :=
  scheduler ← systemExecutable (str "schtasks.exe");
  code ← runHiddenProcess turns scheduler [str "/Query"; str "/TN"; kTaskName] kSchedulerTimeoutMs;
  mret (match code with None => None | Some None => Some None | Some (Some code) => Some (Some (code =? 0)) end).

Inductive StartupResult := Ok | Failed | UnsafeLocation.
Definition resultOf (code : option Z) : StartupResult := match code with Some 0 => Ok | _ => Failed end.

Definition createArguments (xmlPath : wide) : list wide := [str "/Create"; str "/TN"; kTaskName; str "/XML"; xmlPath; str "/F"].
Definition xmlPathOf (executable : wide) : wide := join (parent_path executable) "splithello-startup-task.xml".

(** [setStartupEnabled]; [None]: turns are used up. *)
Definition setStartupEnabled (enabled : bool) : M (option StartupResult) :=
  scheduler ← systemExecutable (str "schtasks.exe");
  if negb enabled then
    exists_ ← startupTaskExists;
    match exists_ with
    | None => mret None
    | Some (Some false) => mret (Some Ok)
    | _ =>
        code ← runHiddenProcess turns scheduler [str "/Delete"; str "/TN"; kTaskName; str "/F"] kSchedulerTimeoutMs;
        mret (resultOf <$> code)
    end
  else
  executable ← executablePath;
  if bool_decide (executable = []) then mret (Some Failed) else
  needsAdmin ← locationNeedsAdminToModify executable;
  match needsAdmin with
  | None => mret None
  | Some false => mret (Some UnsafeLocation)
  | Some true =>
      user ← currentUserId;
      if bool_decide (user = []) then mret (Some Failed) else
      let xmlPath := xmlPathOf executable in
      written ← writeUtf16File xmlPath (startupTaskXml executable user);
      if negb written then _ ← do (DeleteFileW xmlPath); mret (Some Failed) else
      code ← runHiddenProcess turns scheduler (createArguments xmlPath) kSchedulerTimeoutMs;
      _ ← do (DeleteFileW xmlPath);
      mret (resultOf <$> code)
  end.
End Task.

(** ** What the task says *)

(** The texts of the elements that open with a tag: from the tag to the next bracket. *)
Fixpoint stripPrefix (prefix text : wide) : option wide :=
  match prefix, text with
  | [], _ => Some text
  | p :: prefix, c :: text => if p =? c then stripPrefix prefix text else None
  | _ :: _, [] => None
  end.
Definition entities : list (wide * Z) := [(str "amp;", 38); (str "lt;", 60); (str "gt;", 62); (str "quot;", 34)].
Fixpoint entityOf (names : list (wide * Z)) (text : wide) : option (nat * Z) :=
  match names with
  | [] => None
  | (name, c) :: names => match stripPrefix name text with Some _ => Some (length name, c) | None => entityOf names text end
  end.
(** Escapes read back; [skip] characters of an entity are still to be dropped. *)
Fixpoint unescape (skip : nat) (text : wide) : wide :=
  match text with
  | [] => []
  | c :: text =>
      match skip with
      | S skip => unescape skip text
      | O => if c =? 38 then match entityOf entities text with Some (n, d) => d :: unescape n text | None => c :: unescape 0 text end
             else c :: unescape 0 text
      end
  end.
Fixpoint upToBracket (text : wide) : wide :=
  match text with [] => [] | c :: text => if c =? 60 then [] else c :: upToBracket text end.
Fixpoint elements (tag text : wide) : list wide :=
  match text with
  | [] => []
  | c :: rest =>
      match stripPrefix tag text with
      | Some inner => unescape 0 (upToBracket inner) :: elements tag rest
      | None => elements tag rest
      end
  end.

(** A text in which no tag begins that might be [tag], whatever follows. *)
Fixpoint clash (tag text : wide) : bool :=
  match tag, text with
  | p :: tag, c :: text => negb (p =? c) || clash tag text
  | _, _ => false
  end.
Fixpoint quiet (tag text : wide) : bool :=
  match text with [] => true | _ :: rest => clash tag text && quiet tag rest end.

Lemma clash_app tag s t : clash tag s = true -> clash tag (s ++ t) = true /\ stripPrefix tag (s ++ t) = None.
Proof.
  revert s. induction tag as [|p tag IH]; intros [|c s]; cbn; try done.
  destruct (Z.eqb_spec p c); cbn; [apply IH | done].
Qed.
Lemma elements_quiet tag s t : quiet tag s = true -> elements tag (s ++ t) = elements tag t.
Proof.
  induction s as [|c s IH]; cbn [quiet]; [done |]. intros [H1 H2]%andb_prop. apply (clash_app tag (c :: s) t) in H1 as [_ H1].
  cbn [app elements] in *. rewrite H1. auto.
Qed.
Lemma quiet_join tag s t : quiet tag s = true -> quiet tag t = true -> quiet tag (s ++ t) = true.
Proof.
  induction s as [|c s IH]; cbn [quiet app]; [done |]. intros [H1 H2]%andb_prop Ht. apply andb_true_intro. split; [| auto].
  exact (proj1 (clash_app tag (c :: s) t H1)).
Qed.
Lemma quiet_lines tag (ls : list wide) :
  quiet tag crlf = true -> Forall (λ l, quiet tag l = true) ls -> quiet tag (ls ≫= λ line, line ++ crlf) = true.
Proof. intros Hc Hl. induction Hl as [|l ls H _ IH]; [done |]. cbn [mbind list_bind]. apply quiet_join; [by apply quiet_join | exact IH]. Qed.

Lemma stripPrefix_app p t : stripPrefix p (p ++ t) = Some t.
Proof. induction p as [|c p IH]; [done |]. cbn. by rewrite Z.eqb_refl. Qed.
Lemma upToBracket_app s t : Forall (λ c, c <> 60) s -> upToBracket (s ++ 60 :: t) = s.
Proof. induction 1 as [|c s H _ IH]; [done |]. cbn. destruct (Z.eqb_spec c 60); [done |]. by rewrite IH. Qed.

(** An element, in a text that is quiet before it and inside it. *)
Lemma elements_hit c tag s inner rest :
  quiet (c :: tag) s = true -> quiet (c :: tag) tag = true -> quiet (c :: tag) inner = true -> Forall (λ c, c <> 60) inner ->
  elements (c :: tag) (s ++ (c :: tag) ++ inner ++ 60 :: rest) = unescape 0 inner :: elements (c :: tag) (60 :: rest).
Proof.
  intros Hs Ht Hi Hn. rewrite elements_quiet by done. cbn [app]. change (elements (c :: tag) (c :: ?x)) with
    (match stripPrefix (c :: tag) (c :: x) with
     | Some inner => unescape 0 (upToBracket inner) :: elements (c :: tag) x | None => elements (c :: tag) x end).
  change (c :: tag ++ ?x) with ((c :: tag) ++ x). rewrite stripPrefix_app, upToBracket_app by done.
  by rewrite (elements_quiet _ tag), (elements_quiet _ inner).
Qed.

Lemma escape_no_bracket s : Forall (λ c, c <> 60) (xmlEscape s).
Proof.
  unfold xmlEscape. induction s as [|c s IH]; [constructor |]. cbn [mbind list_bind]. apply Forall_app. split; [| exact IH]. unfold xmlEscapeChar.
  destruct (Z.eqb_spec c 38), (Z.eqb_spec c 60), (Z.eqb_spec c 62), (Z.eqb_spec c 34); repeat constructor; done.
Qed.
Lemma quiet_no_bracket tag s : Forall (λ c, c <> 60) s -> quiet (60 :: tag) s = true.
Proof. induction 1 as [|c s H _ IH]; [done |]. cbn [quiet clash]. rewrite IH, andb_true_r. destruct (Z.eqb_spec 60 c); [by subst | done]. Qed.
Lemma quiet_escape tag s : quiet (60 :: tag) (xmlEscape s) = true.
Proof. apply quiet_no_bracket, escape_no_bracket. Qed.

Lemma unescape_drop n t : unescape (length n) (n ++ t) = unescape 0 t.
Proof. induction n as [|c n IH]; [done |]. exact IH. Qed.
Lemma unescape_char c t : unescape 0 (xmlEscapeChar c ++ t) = c :: unescape 0 t.
Proof.
  unfold xmlEscapeChar. destruct (Z.eqb_spec c 38); [by subst |]. destruct (Z.eqb_spec c 60); [by subst |].
  destruct (Z.eqb_spec c 62); [by subst |]. destruct (Z.eqb_spec c 34); [by subst |].
  cbn [app unescape]. destruct (Z.eqb_spec c 38); done.
Qed.
Lemma unescape_escape s t : unescape 0 (xmlEscape s ++ t) = s ++ unescape 0 t.
Proof.
  unfold xmlEscape. induction s as [|c s IH]; [done |]. cbn [mbind list_bind]. rewrite <- app_assoc, unescape_char. cbn [app]. by rewrite <- IH.
Qed.
Lemma unescape_inverse s : unescape 0 (xmlEscape s) = s.
Proof. rewrite <- (app_nil_r (xmlEscape s)), unescape_escape. apply app_nil_r. Qed.

(** What a piece of the text contributes, whatever follows. *)
Definition says (tag piece : wide) (e : list wide) : Prop := forall t, elements tag (piece ++ t) = e ++ elements tag t.

Lemma says_quiet tag s : quiet tag s = true -> says tag s [].
Proof. intros H t. by apply elements_quiet. Qed.
Lemma says_app tag s t e f : says tag s e -> says tag t f -> says tag (s ++ t) (e ++ f).
Proof. intros Hs Ht u. by rewrite <- app_assoc, Hs, Ht, app_assoc. Qed.
Lemma says_element tag pre inner post :
  quiet (60 :: tag) pre = true -> quiet (60 :: tag) tag = true -> Forall (λ c, c <> 60) inner -> quiet (60 :: tag) (60 :: post) = true ->
  says (60 :: tag) (pre ++ (60 :: tag) ++ inner ++ 60 :: post) [unescape 0 inner].
Proof.
  intros Hp Ht Hi Hq t. rewrite <- !app_assoc. cbn [app]. change (60 :: tag ++ ?x) with ((60 :: tag) ++ x).
  rewrite elements_hit; [| done | done | by apply quiet_no_bracket | done]. by rewrite <- (elements_quiet (60 :: tag) (60 :: post) t).
Qed.
Lemma says_lines tag (ls : list wide) es :
  quiet tag crlf = true -> Forall2 (says tag) ls es -> says tag (ls ≫= λ line, line ++ crlf) (concat es).
Proof.
  intros Hc H. induction H as [|l e ls es Hl _ IH]; [by intros t |]. cbn [mbind list_bind concat].
  apply says_app; [| exact IH]. rewrite <- (app_nil_r e). apply says_app; [done | by apply says_quiet].
Qed.

(** A line without a tag that counts: plain, or around the user. *)
Ltac quiet_line :=
  apply says_quiet; first
    [ vm_compute; reflexivity
    | repeat first [ apply quiet_escape | apply quiet_join | vm_compute; reflexivity ] ].

Section Says.
Context `{!Hierarchy}.
Variables executable user : wide.

Definition taskLines : list wide :=
  taskLinesBefore (xmlEscape user) ++
   [str "      <Command>" ++ inQuotes (xmlEscape executable) ++ str "</Command>";
    str "      <WorkingDirectory>" ++ xmlEscape (parent_path executable) ++ str "</WorkingDirectory>";
    str "    </Exec>"; str "  </Actions>"; str "</Task>"].

Lemma task_says tag es e :
  quiet tag crlf = true -> Forall2 (says tag) taskLines es -> concat es = e -> elements tag (startupTaskXml executable user) = e.
Proof.
  intros Hc Hl <-. pose proof (says_lines tag taskLines es Hc Hl []) as E. rewrite !app_nil_r in E. exact E.
Qed.
Lemma says_user : says (str "<UserId>") (str "      <UserId>" ++ xmlEscape user ++ str "</UserId>") [user].
Proof.
  rewrite <- (unescape_inverse user) at 2.
  apply (says_element (str "UserId>") (str "      ") _ (str "/UserId>")); try reflexivity. apply escape_no_bracket.
Qed.
Lemma says_directory :
  says (str "<WorkingDirectory>") (str "      <WorkingDirectory>" ++ xmlEscape (parent_path executable) ++ str "</WorkingDirectory>") [parent_path executable].
Proof.
  rewrite <- (unescape_inverse (parent_path executable)) at 2.
  apply (says_element (str "WorkingDirectory>") (str "      ") _ (str "/WorkingDirectory>")); try reflexivity. apply escape_no_bracket.
Qed.
Lemma says_command : says (str "<Command>") (str "      <Command>" ++ inQuotes (xmlEscape executable) ++ str "</Command>") [inQuotes executable].
Proof.
  assert (E : inQuotes executable = unescape 0 (inQuotes (xmlEscape executable))).
  { unfold inQuotes. cbn [app unescape]. change (34 =? 38) with false. cbn match. by rewrite unescape_escape. }
  rewrite E. apply (says_element (str "Command>") (str "      ") _ (str "/Command>")); try reflexivity.
  repeat constructor; [done |]. apply Forall_app. split; [apply escape_no_bracket | by repeat constructor].
Qed.
(** The level at which the task runs. *)
Lemma says_level : says (str "<RunLevel>") (str "      <RunLevel>HighestAvailable</RunLevel>") [str "HighestAvailable"].
Proof. apply (says_element (str "RunLevel>") (str "      ") (str "HighestAvailable") (str "/RunLevel>")); try reflexivity. by repeat constructor. Qed.

(** The lines that [H] speaks of, and the others. *)
Ltac each_line H :=
  eapply task_says;
    [ reflexivity
    | unfold taskLines, taskLinesBefore; cbn [app]; repeat (apply Forall2_cons_2; [first [exact H | quiet_line] |]); apply Forall2_nil_2
    | reflexivity ].

(** Who runs what, as the scheduler reads it. *)
Definition namesTask (xml : wide) : Prop :=
  elements (str "<Command>") xml = [inQuotes executable] /\ elements (str "<WorkingDirectory>") xml = [parent_path executable] /\
  elements (str "<UserId>") xml = [user; user] /\ elements (str "<RunLevel>") xml = [str "HighestAvailable"].
Lemma task_names : namesTask (startupTaskXml executable user).
Proof.
  split; [each_line says_command |]. split; [each_line says_directory |]. split; [each_line says_user | each_line says_level].
Qed.
End Says.

(** ** Who may change a path *)

Section Guard.
Context `{!Hierarchy}.
(** The list of every path, and whose the process is. *)
Variable acl : wide -> Acl.

(** *** What the system makes of a list *)

(** The rights an entry speaks of, generic ones as they are mapped for files. *)
Definition granted (mask : Z) : Z :=
  Z.lor mask (Z.lor (if Z.land mask GENERIC_ALL =? 0 then 0 else 0x1F01FF)
    (Z.lor (if Z.land mask GENERIC_WRITE =? 0 then 0 else 0x120116)
    (Z.lor (if Z.land mask GENERIC_READ =? 0 then 0 else 0x120089) (if Z.land mask GENERIC_EXECUTE =? 0 then 0 else 0x1200A0)))).

(** The access check for one right: the first entry that applies decides, none is a denial. *)
Fixpoint accessCheck (token : list Sid) (right : Z) (aces : list (option Ace)) : bool :=
  match aces with
  | [] => false
  | None :: aces => accessCheck token right aces
  | Some ace :: aces =>
      if negb (Z.land (ace_flags ace) INHERIT_ONLY_ACE =? 0) || bool_decide (ace_sid ace ∉ token) || (Z.land (granted (ace_mask ace)) right =? 0)
      then accessCheck token right aces
      else if ace_type ace =? ACCESS_ALLOWED_ACE_TYPE then true
      else if ace_type ace =? ACCESS_DENIED_ACE_TYPE then false
      else accessCheck token right aces
  end.

(** The token of somebody who is not elevated: the user, and whom everybody logged on is. *)
Definition standardToken (user : option Sid) : list Sid :=
  option_list user ++ [WorldSid; AuthenticatedUserSid; BuiltinUsersSid; InteractiveSid].

(** Entries this access check is complete for: they can be read, and allow or deny plainly. *)
Definition plain (aces : list (option Ace)) : Prop :=
  Forall (λ e, exists ace, e = Some ace /\ ace_type ace ∈ [ACCESS_ALLOWED_ACE_TYPE; ACCESS_DENIED_ACE_TYPE]) aces.

(** Replacing or changing a file or what is in a folder; and moving a folder away. *)
Definition objectRights : list Z := [FILE_WRITE_DATA; FILE_APPEND_DATA; FILE_DELETE_CHILD; DELETE; WRITE_DAC; WRITE_OWNER].
Definition ancestorRights : list Z := [FILE_DELETE_CHILD; DELETE; WRITE_DAC; WRITE_OWNER].

(** The path has a list, and it grants none of the rights to the user's standard token. *)
Definition closed (user : option Sid) (rights : list Z) (path : wide) : Prop :=
  exists aces, acl path = Some aces /\ (plain aces -> forall right, right ∈ rights -> accessCheck (standardToken user) right aces = false).

(** *** What the program looks for *)

Definition unrisky (user : option Sid) (mask : Z) (path : wide) : Prop :=
  exists aces, acl path = Some aces /\ aclRisky mask user aces = false.

Lemma lowPrivilege_token user sid : sid ∈ standardToken user -> lowPrivilege user sid = true.
Proof.
  unfold standardToken, lowPrivilege. rewrite elem_of_app, !elem_of_cons, !orb_true_iff, !bool_decide_eq_true.
  intros [Hu|[|[|[|[|Hn]]]]]; [| auto..| by apply elem_of_nil in Hn]. destruct user; [| by apply elem_of_nil in Hu].
  apply list_elem_of_singleton in Hu as ->. by right.
Qed.

(** A right that an entry grants is one the mask of the program sees. *)
Definition seen (mask right : Z) : Prop := forall m, Z.land (granted m) right <> 0 -> Z.land m mask <> 0.
Lemma seen_part mask part m : Z.land mask part = part -> Z.land m part <> 0 -> Z.land m mask <> 0.
Proof. intros E Hm Hz. apply Hm. rewrite <- E, Z.land_assoc, Hz. apply Z.land_0_l. Qed.
Lemma seen_right mask right :
  Z.land mask right = right -> Z.land mask GENERIC_ALL = GENERIC_ALL ->
  (Z.land 0x120116 right = 0 \/ Z.land mask GENERIC_WRITE = GENERIC_WRITE) -> Z.land 0x120089 right = 0 -> Z.land 0x1200A0 right = 0 ->
  seen mask right.
Proof.
  intros Hr Ha Hw H1 H2 m. unfold granted. rewrite !Z.land_lor_distr_l. intros Hg.
  destruct (Z.eq_dec (Z.land m right) 0) as [E0|E0]; [| by apply (seen_part mask right)].
  destruct (Z.eqb_spec (Z.land m GENERIC_ALL) 0) as [Ea|Ea]; [| by apply (seen_part mask GENERIC_ALL)].
  destruct (Z.eqb_spec (Z.land m GENERIC_WRITE) 0) as [Ew|Ew].
  - destruct Hg. rewrite E0. destruct (_ =? 0), (_ =? 0); rewrite ?H1, ?H2; reflexivity.
  - destruct Hw as [Hw|Hw]; [| by apply (seen_part mask GENERIC_WRITE)].
    destruct Hg. rewrite E0, Hw. destruct (_ =? 0), (_ =? 0); rewrite ?H1, ?H2; reflexivity.
Qed.
Lemma seen_object right : right ∈ objectRights -> seen kObjectMask right.
Proof. intros Hr. apply seen_right; repeat (apply elem_of_cons in Hr as [->|Hr]; [first [reflexivity | by left | by right] |]); by apply elem_of_nil in Hr. Qed.
Lemma seen_ancestor right : right ∈ ancestorRights -> seen kAncestorMask right.
Proof. intros Hr. apply seen_right; repeat (apply elem_of_cons in Hr as [->|Hr]; [first [reflexivity | by left | by right] |]); by apply elem_of_nil in Hr. Qed.

(** What the loop lets pass grants no right of the mask to a standard token. *)
Lemma aclRisky_denies mask user right aces :
  seen mask right -> plain aces -> aclRisky mask user aces = false -> accessCheck (standardToken user) right aces = false.
Proof.
  intros Hs Hp. induction Hp as [|e aces (ace & -> & Ht) _ IH]; [done |]. cbn [aclRisky accessCheck]. intros Hr.
  destruct (Z.land (ace_flags ace) INHERIT_ONLY_ACE =? 0); cbn [negb orb] in *; [| apply IH; by rewrite orb_true_r in Hr].
  rewrite orb_false_r in Hr. case_bool_decide as Hsid; cbn [orb]; [apply IH; by repeat case_match |].
  destruct (Z.eqb_spec (Z.land (granted (ace_mask ace)) right) 0) as [Eg|Eg]; [apply IH; by repeat case_match |].
  apply Hs in Eg. apply lowPrivilege_token in Hsid.
  apply elem_of_cons in Ht as [Ht|Ht%list_elem_of_singleton]; rewrite Ht in *; [| done].
  change (negb (ACCESS_ALLOWED_ACE_TYPE =? ACCESS_ALLOWED_ACE_TYPE)) with false in Hr. cbv iota in Hr.
  rewrite (proj2 (Z.eqb_neq _ _) Eg), Hsid in Hr. done.
Qed.
Lemma unrisky_closed user mask rights path :
  (forall right, right ∈ rights -> seen mask right) -> unrisky user mask path -> closed user rights path.
Proof. intros Hs (aces & E & Hr). exists aces. split; [done |]. intros Hp right Hin. by apply (aclRisky_denies mask); [apply Hs | |]. Qed.

(** The loop with a smaller mask, and without the user. *)
Lemma aclRisky_mono mask mask' user user' aces :
  Z.land mask mask' = mask' -> user' = user \/ user' = None -> aclRisky mask user aces = false -> aclRisky mask' user' aces = false.
Proof.
  intros Hm Hu. induction aces as [|[ace|] aces IH]; cbn [aclRisky]; [done | | done]. destruct (_ || _); [done |].
  destruct (Z.eqb_spec (Z.land (ace_mask ace) mask') 0) as [E'|E'].
  - destruct (Z.land (ace_mask ace) mask =? 0); [done |]. by destruct (lowPrivilege user (ace_sid ace)).
  - rewrite (proj2 (Z.eqb_neq _ _) (seen_part mask mask' _ Hm E')). destruct (lowPrivilege user (ace_sid ace)) eqn:El; [done |].
    assert (lowPrivilege user' (ace_sid ace) = false) as ->; [| done].
    destruct Hu as [-> | ->]; [done |]. revert El. unfold lowPrivilege. rewrite !orb_false_iff. intros [? _]. by split.
Qed.

(** The place of an executable: it, its folder and every folder above. *)
Definition place (object ancestor : wide -> Prop) (real : wide) : Prop :=
  object real /\ (parent_path real <> [] -> object (parent_path real)) /\
  (forall n, let above := Nat.iter (S (S n)) parent_path real in above <> [] -> ancestor above).
Definition guarded (user : option Sid) : wide -> Prop := place (closed user objectRights) (closed user ancestorRights).
Definition checked (user : option Sid) : wide -> Prop := place (unrisky user kObjectMask) (unrisky user kAncestorMask).

Lemma place_mono (P P' Q Q' : wide -> Prop) real : (forall p, P p -> P' p) -> (forall p, Q p -> Q' p) -> place P Q real -> place P' Q' real.
Proof. intros HP HQ (H1 & H2 & H3). split; [auto |]. split; [auto |]. intros n q Hq. apply HQ. by apply H3. Qed.
Lemma checked_guarded user user' real : user' = user \/ user' = None -> checked user real -> guarded user' real.
Proof.
  assert (Hm : forall mask p, user' = user \/ user' = None -> unrisky user mask p -> unrisky user' mask p).
  { intros mask p Hu (aces & E & Hr). exists aces. split; [done |]. apply (aclRisky_mono mask mask user); [apply Z.land_diag | done | done]. }
  intros Hu. apply place_mono; intros p Hp.
  - apply (unrisky_closed user' kObjectMask); [apply seen_object | by apply Hm].
  - apply (unrisky_closed user' kAncestorMask); [apply seen_ancestor | by apply Hm].
Qed.

Lemma iter_fixed n p : parent_path p = p -> Nat.iter n parent_path p = p.
Proof. intros E. induction n as [|n IH]; [done |]. by rewrite Nat.iter_succ, IH. Qed.
Lemma parent_empty : parent_path [] = [].
Proof. destruct (parent_shorter []) as [?|Hl]; [done | cbn in Hl; lia]. Qed.
Lemma mask_weaker user p : unrisky user kObjectMask p -> unrisky user kAncestorMask p.
Proof. intros (aces & E & Hr). exists aces. split; [done |]. by apply (aclRisky_mono kObjectMask _ user); [| left |]. Qed.
End Guard.

(** ** What the calls amount to *)

(** Handles and memory held, the child that runs, files written and not deleted, the clock,
    whether a question about the user went unanswered, the file being written, and how many
    children were started. *)
Record Box := mkBox {
  open : gset Z; memory : gset Z; running : option Z; files : gmap wide wide; clock : Z; refused : bool; writing : option (Z * wide); started : nat;
}.

Definition after (b : Box) (c : TaskCall) : Reply c -> Box :=
  let 'mkBox o m p f t rf w n := b in
  match c return Reply c -> Box with
  | CreateProcessW _ _ => λ r, match r with Some (x, th) => mkBox ({[x; th]} ∪ o) m (Some x) f t rf w (S n) | None => b end
  | GetTickCount64 => λ now, mkBox o m p f now rf w n
  | WaitForSingleObject _ ms => λ r,
      match r with Some true => mkBox o m None f t rf w n | Some false => mkBox o m p f (t + ms) rf w n | None => b end
  | TerminateProcess _ => λ _, mkBox o m None f t rf w n
  | CloseHandle h => λ _, mkBox (o ∖ {[h]}) m p f t rf (match w with Some (x, _) => if x =? h then None else w | None => None end) n
  | GetNamedSecurityInfoW _ => λ r, match r with Some (d, _) => mkBox o ({[d]} ∪ m) p f t rf w n | None => b end
  | ConvertSidToStringSidW _ => λ r, match r with Some (d, _) => mkBox o ({[d]} ∪ m) p f t rf w n | None => b end
  | LocalFree d => λ _, mkBox o (m ∖ {[d]}) p f t rf w n
  | OpenProcessToken => λ r, match r with Some h => mkBox ({[h]} ∪ o) m p f t rf w n | None => mkBox o m p f t true w n end
  | TokenUserSize _ => λ r, mkBox o m p f t (rf || (r =? 0)) w n
  | TokenUser _ => λ r, match r with Some _ => b | None => mkBox o m p f t true w n end
  | CreateFileW path => λ r, match r with Some h => mkBox ({[h]} ∪ o) m p (<[path := []]> f) t rf (Some (h, path)) n | None => b end
  | WriteFile _ words => λ r,
      match w, r with Some (_, path), true => mkBox o m p (<[path := default [] (f !! path) ++ words]> f) t rf w n | _, _ => b end
  | DeleteFileW path => λ _, mkBox o m p (delete path f) t rf w n
  | _ => λ _, b
  end.

Section Runs.
Context `{!Hierarchy}.
(** The executable, its canonical path, the list of every path, the user and its names. *)
Variables (self real : wide) (acl : wide -> Acl) (user : Sid) (name domain sidText : wide).

Definition answers (b : Box) (c : TaskCall) : Reply c -> Prop :=
  match c return Reply c -> Prop with
  | GetModuleFileNameW size => λ '(n, path), 0 < n < size -> take (Z.to_nat n) path = self
  | CreateProcessW _ _ => λ r, forall x th, r = Some (x, th) -> x ∉ open b /\ th ∉ open b /\ x <> th
  | GetTickCount64 => λ now, clock b <= now
  | OpenProcessToken | CreateFileW _ => λ r, forall h, r = Some h -> h ∉ open b
  | Canonical path => λ r, forall q, r = Some q -> path = self -> q = real
  | GetNamedSecurityInfoW path => λ r, forall d a, r = Some (d, a) -> d ∉ memory b /\ a = acl path
  | TokenUser _ => λ r, forall s, r = Some s -> s = user
  | LookupAccountSidW _ => λ r, forall n d, r = Some (n, d) -> n = name /\ d = domain
  | ConvertSidToStringSidW _ => λ r, forall d t, r = Some (d, t) -> d ∉ memory b /\ t = sidText
  | _ => λ _, True
  end.

(** The user's name in the task. *)
Definition isUser (id : wide) : Prop :=
  id <> [] /\ (id = (if bool_decide (domain = []) then [] else domain ++ str "\") ++ name \/ id = sidText).

(** When the scheduler may be told to register the file. *)
Definition mayRegister (b : Box) : Prop :=
  guarded acl None real /\ (refused b = true \/ guarded acl (Some user) real) /\
  exists id xml, isUser id /\ namesTask self id xml /\ files b !! xmlPathOf self = Some (0xFEFF :: xml).

Definition legal (b : Box) (c : TaskCall) : Prop :=
  match c with
  | CreateProcessW application commandLine => running b = None /\ exists arguments,
      commandLine = quoteArgument application ++ appendArguments arguments /\
      (arguments = [str "/Query"; str "/TN"; kTaskName] \/ arguments = [str "/Delete"; str "/TN"; kTaskName; str "/F"] \/
       arguments = createArguments (xmlPathOf self) /\ mayRegister b)
  | WaitForSingleObject h _ | GetExitCodeProcess h | TerminateProcess h | CloseHandle h | TokenUserSize h | TokenUser h => h ∈ open b
  | LocalFree d => d ∈ memory b
  | CreateFileW path => path = xmlPathOf self /\ guarded acl None real
  | WriteFile h _ => exists path, writing b = Some (h, path)
  | DeleteFileW path => path = xmlPathOf self
  | _ => True
  end.
Notation wpt := (wps legal answers after).

Lemma wp_modify path mask usr o m p f t rf w n (Q : bool -> Box -> Prop) :
  (forall b, (b = false -> unrisky acl usr mask path) -> Q b (mkBox o m p f t rf w n)) ->
  wpt (lowPrivilegeCanModify path mask usr) (mkBox o m p f t rf w n) Q.
Proof.
  intros HQ. apply wps_do; [done |]. intros info Hi. destruct info as [[d a]|]; cbn [after]; [| by apply HQ].
  destruct (Hi d a eq_refl) as [Hd ->]. cbn [memory] in Hd. apply wps_do; [cbn; set_solver |]. intros ? _. cbn [after].
  assert (({[d]} ∪ m) ∖ {[d]} = m) as -> by set_solver. apply HQ. destruct (acl path) as [aces|] eqn:E; [| done]. by exists aces.
Qed.

(** The folders from [current] upwards. *)
Definition above (directory : bool) (usr : option Sid) (current : wide) : Prop :=
  (current <> [] -> unrisky acl usr (if directory then kObjectMask else kAncestorMask) current) /\
  forall n, let q := Nat.iter (S n) parent_path current in q <> [] -> unrisky acl usr kAncestorMask q.
Lemma above_empty (directory : bool) usr : above directory usr [].
Proof. split; [done |]. intros n q. unfold q. by rewrite iter_fixed by apply parent_empty. Qed.
Lemma above_root (directory : bool) usr p :
  unrisky acl usr (if directory then kObjectMask else kAncestorMask) p -> parent_path p = p -> above directory usr p.
Proof.
  intros Ha E. split; [done |]. intros n q _. unfold q. rewrite iter_fixed by done. destruct directory; [by apply mask_weaker | done].
Qed.
Lemma above_step (directory : bool) usr p :
  unrisky acl usr (if directory then kObjectMask else kAncestorMask) p -> above false usr (parent_path p) -> above directory usr p.
Proof.
  intros Ha [H1 H2]. split; [done |]. intros n q. unfold q. rewrite Nat.iter_succ_r. destruct n as [|n]; [exact H1 | apply H2].
Qed.

Lemma wp_parents fuel current (directory : bool) usr o m p f t rf w n (Q : option bool -> Box -> Prop) :
  (length current < fuel)%nat ->
  (forall b, (b = true -> above directory usr current) -> Q (Some b) (mkBox o m p f t rf w n)) ->
  wpt (parentsNeedAdmin fuel current directory usr) (mkBox o m p f t rf w n) Q.
Proof.
  revert current directory. induction fuel as [|fuel IH]; intros current directory Hf HQ; [lia |]. cbn [parentsNeedAdmin].
  case_bool_decide as Ec; [apply HQ; intros _; rewrite Ec; apply above_empty |].
  apply wps_bind, wp_modify. intros [] Hb; [by apply HQ |]. specialize (Hb eq_refl).
  case_bool_decide as Ep; [apply HQ; intros _; by apply above_root |].
  apply IH; [destruct (parent_shorter current); [done | lia] |]. intros b Hab. apply HQ. intros ->. by apply above_step, Hab.
Qed.

(** Whom the token names: the user, or nobody because the question went unanswered. *)
Definition told (r : option Sid) (rf : bool) : Prop := r = Some user \/ r = None /\ rf = true.
Lemma wp_tokenUser token o m p f t (rf : bool) w n (Q : option Sid -> Box -> Prop) :
  token ∈ o -> (forall r (rf' : bool), told r rf' -> (rf = true -> rf' = true) -> Q r (mkBox o m p f t rf' w n)) ->
  wpt (tokenUser token) (mkBox o m p f t rf w n) Q.
Proof.
  intros Ho HQ. apply wps_do; [done |]. intros size _. cbn [after]. apply wps_bind.
  destruct (Z.eqb_spec size 0) as [->|Hs]; cbn [negb].
  - apply HQ; [right; by rewrite orb_true_r | by intros ->].
  - split; [done |]. rewrite orb_false_r. intros [s|] Hr; cbn [after].
    + apply HQ; [left; by rewrite (Hr s eq_refl) | done].
    + apply HQ; [by right | done].
Qed.

Lemma wp_location o m p f t (rf : bool) n (Q : option bool -> Box -> Prop) :
  (forall b (rf' : bool), (b = true -> guarded acl None real /\ (rf' = true \/ guarded acl (Some user) real)) ->
     Q (Some b) (mkBox o m p f t rf' None n)) ->
  wpt (locationNeedsAdminToModify self) (mkBox o m p f t rf None n) Q.
Proof.
  intros HQ. apply wps_do; [done |]. intros r Hr. cbn [after]. destruct r as [q|]; [| by apply HQ]. rewrite (Hr q eq_refl eq_refl).
  assert (Hgo : forall usr (rf' : bool), told usr rf' -> wpt (risky ← lowPrivilegeCanModify real kObjectMask usr;
     if (risky : bool) then mret (Some false) else parentsNeedAdmin (S (length real)) (parent_path real) true usr) (mkBox o m p f t rf' None n) Q).
  { intros usr rf' Ht. apply wps_bind, wp_modify. intros [] Hb; [by apply HQ |]. specialize (Hb eq_refl).
    apply wp_parents; [destruct (parent_shorter real) as [-> |]; lia |]. intros b Hab. apply HQ. intros ->.
    destruct (Hab eq_refl) as [H1 H2].
    assert (Hg : checked acl usr real).
    { split; [done |]. split; [exact H1 |]. intros k. pose proof (H2 k) as Hk. rewrite <- Nat.iter_succ_r in Hk. exact Hk. }
    split; [apply (checked_guarded _ usr); [by right | done] |].
    destruct Ht as [-> | [_ ->]]; [right; apply (checked_guarded _ (Some user)); [by left | done] | by left]. }
  apply wps_do; [done |]. intros token Hh. apply wps_bind. destruct token as [h|]; cbn [after]; [| apply Hgo; by right].
  specialize (Hh h eq_refl). cbn [open] in Hh. apply wps_bind, wp_tokenUser; [set_solver |]. intros usr rf' Ht _.
  apply wps_do; [cbn; set_solver |]. intros ? _. cbn [after]. assert (({[h]} ∪ o) ∖ {[h]} = o) as -> by set_solver.
  by apply Hgo.
Qed.

Lemma wp_userId o m p f t (rf : bool) n (Q : wide -> Box -> Prop) :
  (forall id (rf' : bool), (id <> [] -> isUser id) -> (rf = true -> rf' = true) -> Q id (mkBox o m p f t rf' None n)) ->
  wpt currentUserId (mkBox o m p f t rf None n) Q.
Proof.
  intros HQ. unfold currentUserId. apply wps_do; [done |]. intros token Hh. destruct token as [h|]; cbn [after]; [| by apply HQ].
  specialize (Hh h eq_refl). cbn [open] in Hh. apply wps_bind, wp_tokenUser; [set_solver |]. intros usr rf' Ht Hrf. apply wps_bind.
  assert (Hend : forall id, (id <> [] -> isUser id) ->
    wpt (_ ← do (CloseHandle h); mret id) (mkBox ({[h]} ∪ o) m p f t rf' None n) Q).
  { intros id Hid. apply wps_do; [cbn; set_solver |]. intros ? _. cbn [after]. assert (({[h]} ∪ o) ∖ {[h]} = o) as -> by set_solver. by apply HQ. }
  destruct usr as [sid|]; [| by apply Hend].
  assert (Htext : wpt (text ← do (ConvertSidToStringSidW sid);
      match (text : option (Z * wide)) with None => mret [] | Some (memory, text) => _ ← do (LocalFree memory); mret text end)
      (mkBox ({[h]} ∪ o) m p f t rf' None n) (λ id b, wpt (_ ← do (CloseHandle h); mret id) b Q)).
  { apply wps_do; [done |]. intros r Hr. destruct r as [[d text]|]; cbn [after]; [| by apply Hend].
    destruct (Hr d text eq_refl) as [Hd ->]. cbn [memory] in Hd. apply wps_do; [cbn; set_solver |]. intros ? _. cbn [after].
    assert (({[d]} ∪ m) ∖ {[d]} = m) as -> by set_solver. apply Hend. intros Hn. split; [done | by right]. }
  apply wps_do; [done |]. intros account Ha. cbn [after]. destruct account as [[nm dm]|]; [| exact Htext].
  destruct (Ha nm dm eq_refl) as [-> ->]. case_bool_decide; cbn [negb]; [exact Htext |]. apply Hend. intros Hn. split; [done | by left].
Qed.

(** The file is complete when [true] comes back, and no longer open either way. *)
Lemma wp_writeFile text o m p f t (rf : bool) n (Q : bool -> Box -> Prop) :
  guarded acl None real ->
  (forall f', delete (xmlPathOf self) f' = delete (xmlPathOf self) f -> Q false (mkBox o m p f' t rf None n)) ->
  Q true (mkBox o m p (<[xmlPathOf self := 0xFEFF :: text]> f) t rf None n) ->
  wpt (writeUtf16File (xmlPathOf self) text) (mkBox o m p f t rf None n) Q.
Proof.
  intros Hg HQ1 HQ2. apply wps_do; [done |]. intros file Hh. destruct file as [h|]; cbn [after]; [| by apply HQ1].
  specialize (Hh h eq_refl). cbn [open] in Hh. set (x := xmlPathOf self) in *.
  assert (Hend : forall (ok : bool) f', (if ok then f' = <[x := 0xFEFF :: text]> f else delete x f' = delete x f) ->
    wpt (closed ← do (CloseHandle h); mret (closed && ok)) (mkBox ({[h]} ∪ o) m p f' t rf (Some (h, x)) n) Q).
  { intros ok f' Hok. apply wps_do; [cbn; set_solver |]. intros closed _. cbn [after]. rewrite Z.eqb_refl.
    assert (({[h]} ∪ o) ∖ {[h]} = o) as -> by set_solver. destruct closed, ok; cbn [andb].
    - by rewrite Hok.
    - by apply HQ1.
    - apply HQ1. rewrite Hok. by rewrite delete_insert_eq.
    - by apply HQ1. }
  apply wps_do; [by exists x |]. intros bom _. apply wps_bind. destruct bom; cbn [after]; [| apply Hend; by rewrite delete_insert_eq].
  split; [by exists x |]. intros [] _; cbn [after]; apply Hend.
  - by rewrite !lookup_insert_eq, !insert_insert_eq.
  - by rewrite !delete_insert_eq.
Qed.

(** A wait that times out takes its time, so the deadline bounds the turns. *)
Lemma wp_waitLoop turns process deadline o m f t (rf : bool) n (Q : option (option bool) -> Box -> Prop) :
  process ∈ o -> deadline - t <= 100 * Z.of_nat turns ->
  (forall wait t', Q (Some wait) (mkBox o m (if bool_decide (wait = Some true) then None else Some process) f t' rf None n)) ->
  wpt (waitLoop turns process deadline (Some false)) (mkBox o m (Some process) f t rf None n) Q.
Proof.
  intros Ho Ht HQ. revert t Ht. induction turns as [|turns IH]; intros t Ht; cbn [waitLoop];
    (apply wps_do; [done |]; intros stop _; cbn [after]; destruct stop; [exact (HQ (Some false) t) |];
     apply wps_do; [done |]; intros now Hnow; cbn [after]; cbn [answers clock] in Hnow;
     destruct (Z.ltb_spec now deadline) as [Hlt|]; cbn [negb]; [| exact (HQ (Some false) now)]); [lia |].
  apply wps_do; [done |]. intros [[]|] _; cbn [after].
  - destruct turns; exact (HQ (Some true) now).
  - apply IH. lia.
  - destruct turns; exact (HQ None now).
Qed.

Definition allowed (b : Box) (arguments : list wide) : Prop :=
  arguments = [str "/Query"; str "/TN"; kTaskName] \/ arguments = [str "/Delete"; str "/TN"; kTaskName; str "/F"] \/
  arguments = createArguments (xmlPathOf self) /\ mayRegister b.

Lemma wp_hidden turns application arguments o m f t (rf : bool) n (Q : option (option Z) -> Box -> Prop) :
  kSchedulerTimeoutMs <= 100 * Z.of_nat turns -> allowed (mkBox o m None f t rf None n) arguments ->
  (forall code t', Q (Some code) (mkBox o m None f t' rf None (S n))) -> Q (Some None) (mkBox o m None f t rf None n) ->
  wpt (runHiddenProcess turns application arguments kSchedulerTimeoutMs) (mkBox o m None f t rf None n) Q.
Proof.
  intros Ht Ha HQ HQ0. apply wps_do; [split; [done |]; by exists arguments |]. intros created Hc.
  destruct created as [[x th]|]; cbn [after]; [| exact HQ0]. destruct (Hc x th eq_refl) as (Hx & Hth & Hne). cbn [open] in Hx, Hth.
  apply wps_do; [cbn; set_solver |]. intros ? _. cbn [after]. assert (({[x; th]} ∪ o) ∖ {[th]} = {[x]} ∪ o) as -> by set_solver.
  apply wps_do; [done |]. intros now _. cbn [after]. apply wps_bind, wp_waitLoop; [set_solver | lia |].
  assert (Hend : forall code t', wpt (_ ← do (CloseHandle x); mret (Some code)) (mkBox ({[x]} ∪ o) m None f t' rf None (S n)) Q).
  { intros code t'. apply wps_do; [cbn; set_solver |]. intros ? _. cbn [after]. assert (({[x]} ∪ o) ∖ {[x]} = o) as -> by set_solver. apply HQ. }
  assert (Hkill : forall p t', wpt (result ← (_ ← do (TerminateProcess x); _ ← do (WaitForSingleObject x 1000); mret None);
     _ ← do (CloseHandle x); mret (Some result)) (mkBox ({[x]} ∪ o) m p f t' rf None (S n)) Q).
  { intros p t'. apply wps_bind. apply wps_do; [cbn; set_solver |]. intros ? _. cbn [after]. apply wps_do; [cbn; set_solver |].
    intros [[]|] _; cbn [after]; apply Hend. }
  intros [[]|] t'; [| apply Hkill | apply Hkill]. rewrite bool_decide_true by done. apply wps_bind.
  apply wps_do; [cbn; set_solver |]. intros code _. cbn [after]. apply Hend.
Qed.

(** How it ends: nothing held, nothing running, no file left; nothing at all was started for
    an unsafe place; and success means that a child was. *)
Definition ended (enabled : bool) (r : option StartupResult) (b : Box) : Prop :=
  is_Some r /\ open b = ∅ /\ memory b = ∅ /\ running b = None /\ files b = ∅ /\ writing b = None /\
  (r = Some UnsafeLocation -> enabled = true /\ started b = 0%nat) /\ (r = Some Ok -> (0 < started b)%nat).

Lemma ended_result (code : option Z) enabled t (rf : bool) n :
  (0 < n)%nat -> ended enabled (resultOf <$> Some code) (mkBox ∅ ∅ None ∅ t rf None n).
Proof. intros Hn. unfold ended. cbn. split; [by eexists |]. do 5 (split; [done |]). destruct code as [[]|]; done. Qed.
Lemma ended_failed enabled t (rf : bool) n : ended enabled (Some Failed) (mkBox ∅ ∅ None ∅ t rf None n).
Proof. unfold ended. cbn. split; [by eexists |]. by do 5 (split; [done |]). Qed.

Lemma wp_unregister turns scheduler t rf :
  kSchedulerTimeoutMs <= 100 * Z.of_nat turns ->
  wpt (exists_ ← startupTaskExists turns;
    match exists_ with
    | None => mret None
    | Some (Some false) => mret (Some Ok)
    | _ =>
        code ← runHiddenProcess turns scheduler [str "/Delete"; str "/TN"; kTaskName; str "/F"] kSchedulerTimeoutMs;
        mret (resultOf <$> code)
    end) (mkBox ∅ ∅ None ∅ t rf None 0) (ended false).
Proof.
  intros Ht. apply wps_bind. unfold startupTaskExists, systemExecutable. apply wps_bind, wps_do; [done |]. intros [k directory] _. cbn [after].
  assert (Hdel : forall t n, wpt (code ← runHiddenProcess turns scheduler [str "/Delete"; str "/TN"; kTaskName; str "/F"] kSchedulerTimeoutMs;
      mret (resultOf <$> code)) (mkBox ∅ ∅ None ∅ t rf None n) (ended false)).
  { intros t' n. apply wps_bind, wp_hidden; [done | by right; left | |]; [intros code t''; apply ended_result; lia | apply ended_failed]. }
  apply wps_bind, wp_hidden; [done | by left | |]; [| apply Hdel].
  intros [code|] t'; [| apply Hdel]. unfold mret, task_ret, wps. destruct (code =? 0); [apply Hdel |].
  unfold ended. cbn. split; [by eexists |]. do 5 (split; [done |]). split; [done | lia].
Qed.

Lemma wp_register turns scheduler t (rf : bool) id :
  kSchedulerTimeoutMs <= 100 * Z.of_nat turns -> guarded acl None real -> (rf = true \/ guarded acl (Some user) real) -> isUser id ->
  wpt (written ← writeUtf16File (xmlPathOf self) (startupTaskXml self id);
    if negb written then _ ← do (DeleteFileW (xmlPathOf self)); mret (Some Failed) else
    code ← runHiddenProcess turns scheduler (createArguments (xmlPathOf self)) kSchedulerTimeoutMs;
    _ ← do (DeleteFileW (xmlPathOf self)); mret (resultOf <$> code)) (mkBox ∅ ∅ None ∅ t rf None 0) (ended true).
Proof.
  intros Ht Hg Hu Hid. apply wps_bind, wp_writeFile; [done | |]; cbn [negb].
  - intros f' Hf. apply wps_do; [done |]. intros ? _. cbn [after]. rewrite Hf, delete_empty. apply ended_failed.
  - assert (Hend : forall code t n, (code = None \/ 0 < n)%nat ->
      wpt (_ ← do (DeleteFileW (xmlPathOf self)); mret (resultOf <$> Some code)) (mkBox ∅ ∅ None (<[xmlPathOf self := 65279 :: startupTaskXml self id]> ∅) t rf None n)
        (ended true)).
    { intros code t' n Hn. apply wps_do; [done |]. intros ? _. cbn [after]. rewrite delete_insert_eq, delete_empty.
      destruct Hn as [-> |]; [apply ended_failed | by apply ended_result]. }
    apply wps_bind, wp_hidden; [done | | |].
    + right; right. split; [done |]. split; [done |]. split; [done |]. exists id, (startupTaskXml self id).
      split; [done |]. split; [apply task_names |]. apply lookup_insert_eq.
    + intros code t'. apply Hend. right. lia.
    + apply Hend. by left.
Qed.

Lemma wp_setStartup turns enabled t :
  kSchedulerTimeoutMs <= 100 * Z.of_nat turns -> self <> [] ->
  wpt (setStartupEnabled turns enabled) (mkBox ∅ ∅ None ∅ t false None 0) (ended enabled).
Proof.
  intros Ht Hself. unfold setStartupEnabled, systemExecutable. apply wps_bind, wps_do; [done |]. intros [k directory] _. cbn [after mret wps].
  destruct enabled; cbn [negb]; [| by apply wp_unregister].
  unfold executablePath. apply wps_bind, wps_do; [done |]. intros [n path] Hn. cbn [after]. cbn [answers] in Hn.
  destruct ((n =? 0) || (32768 <=? n)) eqn:En; [apply ended_failed |].
  destruct (Z.ltb_spec 0 n) as [Hp|Hp]; cycle 1.
  { cbn [mret task_ret wps]. rewrite (Z2Nat.nonpos n) by done. apply ended_failed. }
  cbn [mret task_ret wps]. rewrite Hn by lia. rewrite bool_decide_false by done. apply wps_bind, wp_location. intros [] rf Hb; cycle 1.
  { unfold ended. cbn. split; [by eexists |]. by do 5 (split; [done |]). }
  destruct (Hb eq_refl) as [Hg Hu]. apply wps_bind, wp_userId. intros id rf' Hid Hrf. case_bool_decide; [apply ended_failed |].
  apply wp_register; [done | done | | by apply Hid]. destruct Hu as [-> | Hu]; [left; auto | by right].
Qed.
End Runs.

(** C38: starting with Windows, when it is switched on or off. It always ends, within the
    timeouts of the scheduler: every handle and every block is given back once, a child that
    does not answer is killed, and the file with the task does not stay behind. The scheduler
    is told to register the task only when the file then holds a task that runs exactly this
    executable for exactly this user, and the system's own access check, on lists of plain
    entries that can all be read, denies the user's standard token (Everyone, Authenticated
    Users, Users, Interactive and, unless the process token could not be read, the user)
    every right to change or replace the executable at its canonical path or its folder, and
    to move, delete or re-permission any folder above. Entries of other users and groups,
    entries that are not plain ([callback_entry_ignored]), the owner's implied rights and a
    link on the path the task names ([link_registered]) are not covered. When the place is
    refused, no process was started at all. *)
Theorem startup_guarded `{!Hierarchy} self real acl user name domain sidText turns enabled t oracle :
  kSchedulerTimeoutMs <= 100 * Z.of_nat turns -> self <> [] ->
  let b0 := mkBox ∅ ∅ None ∅ t false None 0 in
  honest (answers self real acl user name domain sidText) after b0 oracle ->
  let '(result, h) := play oracle (setStartupEnabled turns enabled) [] in
  valid (legal self real acl user name domain sidText) (answers self real acl user name domain sidText) after b0 h /\
  ended enabled result (ledger after b0 h).
Proof.
  intros Ht Hs b0 Ho.
  pose proof (wps_play (legal self real acl user name domain sidText) _ after b0 oracle (setStartupEnabled turns enabled) [] (ended enabled) Ho ltac:(done)) as Hrun.
  destruct (play oracle _ []) as [result h]. destruct Hrun as [Hr Hv]; [by apply wp_setStartup | by split].
Qed.

(** ** Runs *)

Fixpoint dropName (r : wide) : wide := match r with [] => [] | c :: r => if c =? 92 then r else dropName r end.
Lemma dropName_shorter r : r = [] \/ (length (dropName r) < length r)%nat.
Proof.
  induction r as [|c r IH]; [by left |]. right. cbn. destruct (c =? 92); [cbn; lia |]. destruct IH as [-> |IH]; cbn; lia.
Qed.
(** Names separated by backslashes. *)
#[export] Program Instance namesHierarchy : Hierarchy :=
  {| parent_path p := reverse (dropName (reverse p)); join d n := d ++ str "\" ++ str n |}.
Next Obligation.
  intros p. destruct (dropName_shorter (reverse p)) as [E|Hl].
  - left. rewrite E. cbn. rewrite <- (reverse_involutive p), E. done.
  - right. rewrite length_reverse in *. lia.
Qed.

(** A machine on which everything works; [path] is where the program is, [acl] who may do what. *)
Definition tidy (path real : wide) (acl : wide -> Acl) (b0 : Box) : Oracle Reply := λ h c,
  let b := ledger after b0 h in
  match c return Reply c with
  | GetModuleFileNameW _ => (zlen path, path)
  | GetSystemDirectoryW _ => (zlen (str "C:\Windows"), str "C:\Windows")
  | CreateProcessW _ _ => Some (fresh (open b), fresh ({[fresh (open b)]} ∪ open b))
  | StopRequested => false
  | WriteFile _ _ | CloseHandle _ => true
  | GetTickCount64 => clock b
  | TokenUserSize _ => 40
  | WaitForSingleObject _ _ => Some true
  | GetExitCodeProcess _ => Some 0
  | OpenProcessToken | CreateFileW _ => Some (fresh (open b))
  | Canonical _ => Some real
  | GetNamedSecurityInfoW p => Some (fresh (memory b), acl p)
  | TokenUser _ => Some (OtherSid 1001)
  | LookupAccountSidW _ => Some (str "ada", str "PC<1>")
  | ConvertSidToStringSidW _ => Some (fresh (memory b), str "S-1-5-21")
  | TerminateProcess _ | LocalFree _ | DeleteFileW _ => tt
  end.
Lemma tidy_honest path real acl b0 :
  honest (answers path real acl (OtherSid 1001) (str "ada") (str "PC<1>") (str "S-1-5-21")) after b0 (tidy path real acl b0).
Proof.
  intros h c _. set (b := ledger after b0 h). destruct c; cbn [tidy answers]; fold b; try done.
  - intros _. rewrite firstn_all2; [done |]. unfold zlen. lia.
  - intros x th [= <- <-]. pose proof (is_fresh (open b)). pose proof (is_fresh ({[fresh (open b)]} ∪ open b)). set_solver.
  - by intros q [= <-] _.
  - intros d a [= <- <-]. split; [apply is_fresh | done].
  - intros h' [= <-]. apply is_fresh.
  - by intros s [= <-].
  - by intros n d [= <- <-].
  - intros d s [= <- <-]. split; [apply is_fresh | done].
  - intros h' [= <-]. apply is_fresh.
Qed.

(** Only administrators (and whoever owns what is below) may write. *)
Definition adminAcl : Acl := Some [Some (mkAce 0 0 0x1F01FF (OtherSid 544)); Some (mkAce 0 8 0x10000000 WorldSid); Some (mkAce 0 0 0x1200A9 BuiltinUsersSid)].
Definition programs : wide := str "C:\Apps\Split & Hello\sh.exe".
Definition atStart : Box := mkBox ∅ ∅ None ∅ 1000 false None 0.

Lemma startup_guarded_witness :
  let '(result, h) := play (tidy programs programs (λ _, adminAcl) atStart) (setStartupEnabled 50 true) [] in
  result = Some Ok /\ started (ledger after atStart h) = 1%nat /\
  valid (legal programs programs (λ _, adminAcl) (OtherSid 1001) (str "ada") (str "PC<1>") (str "S-1-5-21"))
    (answers programs programs (λ _, adminAcl) (OtherSid 1001) (str "ada") (str "PC<1>") (str "S-1-5-21")) after atStart h /\
  ended true result (ledger after atStart h).
Proof.
  pose proof (startup_guarded programs programs (λ _, adminAcl) (OtherSid 1001) (str "ada") (str "PC<1>") (str "S-1-5-21") 50 true 1000
    (tidy programs programs (λ _, adminAcl) atStart) ltac:(unfold kSchedulerTimeoutMs; lia) ltac:(done) (tidy_honest _ _ _ _)) as H.
  destruct (play (tidy programs programs (λ _, adminAcl) atStart) (setStartupEnabled 50 true) []) as [result h] eqn:E.
  destruct H as [Hv He].
  assert (E1 : result = Some Ok) by (apply (f_equal fst) in E; cbn [fst] in E; rewrite <- E; by vm_compute).
  assert (E2 : started (ledger after atStart h) = 1%nat) by (apply (f_equal snd) in E; cbn [snd] in E; rewrite <- E; by vm_compute).
  exact (conj E1 (conj E2 (conj Hv He))).
Defined.

(** What the guard looks at is the canonical path, and what the task runs is the path the
    program was started by: through a link in a folder that everybody may change, the check
    passes, and the task names the link. *)
Definition linked : wide := str "C:\Users\link\sh.exe".
Definition linkAcl (p : wide) : Acl :=
  if bool_decide (p = str "C:\Users\link") then Some [Some (mkAce 0 0 0x1F01FF WorldSid)] else adminAcl.
Example link_registered :
  let '(result, h) := play (tidy linked programs linkAcl atStart) (setStartupEnabled 50 true) [] in
  result = Some Ok /\ started (ledger after atStart h) = 1%nat /\
  match linkAcl (parent_path linked) with Some aces => aclRisky kObjectMask None aces | None => true end = true.
Proof. by vm_compute. Qed.
Example user_folder_refused :
  fst (play (tidy linked linked linkAcl atStart) (setStartupEnabled 50 true) []) = Some UnsafeLocation.
Proof. by vm_compute. Qed.

(** An entry that allows under a condition is skipped, whatever it grants and to whom. *)
Definition callbackAcl : Acl := Some [Some (mkAce 9 0 0x1F01FF WorldSid)].
Example callback_entry_ignored :
  fst (play (tidy programs programs (λ _, callbackAcl) atStart) (setStartupEnabled 50 true) []) = Some Ok.
Proof. by vm_compute. Qed.

(** A denial before a grant does not help: the loop looks at grants only. *)
Example denial_ignored :
  let aces := [Some (mkAce 1 0 0x1F01FF WorldSid); Some (mkAce 0 0 GENERIC_ALL BuiltinUsersSid)] in
  aclRisky kObjectMask None aces = true /\ accessCheck (standardToken None) DELETE aces = false.
Proof. by vm_compute. Qed.
