(* ===== verification/PanelRules.v ===== *)
(** * PanelRules: what the dashboard shows and saves

    Models the parts of [src/src/DashboardPanel.cpp] that compute: counts and times as text,
    the ledger's search, filter and order ([applyFilters]), and the editor of the process
    rules ([splitLines], [loadProcessRules], [saveProcessRules]) over the configuration of
    [Config]. The conversions between UTF-8 and UTF-16 are what Windows makes of them. *)

From S2P Require Import Prelude Json Config Telemetry Dashboard.

Abbreviation wide := (list Z).

(** ** Texts *)

(** [lowered] *)
Definition lowered (value : bytes) : bytes := tolower <$> value.

(** The loop of [groupCount], over the digits from the last to the first; the text grows to
    the left, which is what [std::reverse] makes of it. *)
Fixpoint groupLoop (digits : wide) (seen : nat) (grouped : wide) : wide :=
  match digits with
  | [] => grouped
  | d :: digits =>
      let grouped := if (0 <? Z.of_nat seen) && (Z.of_nat seen mod 3 =? 0) then 46 :: grouped else grouped in
      groupLoop digits (S seen) (d :: grouped)
  end.
(** [groupCount] *)
Definition groupCount (value : Z) : wide :=
  let grouped := groupLoop (reverse (to_string (Z.abs value))) 0 [] in
  if value <? 0 then 45 :: grouped else grouped.

(** [formatUptime] *)
Definition formatUptime (seconds : Z) : wide :=
  if seconds <? 0 then str "yeni ba" ++ [351] ++ str "lad" ++ [305] else
  let hours := seconds / 3600 in
  let minutes := (seconds mod 3600) / 60 in
  if negb (hours =? 0) then to_string hours ++ str " sa " ++ to_string minutes ++ str " dk"
  else to_string minutes ++ str " dk".

(** ** The ledger *)

Inductive Outcome := All | Bypassed | Clean | Unresolved.
Inductive Ordering := Recent | Slowest | Attempts.

(** [std::stable_sort]: an element goes in front of those that need not come before it. *)
Fixpoint insertStable {A} (before : A -> A -> bool) (x : A) (l : list A) : list A :=
  match l with
  | [] => [x]
  | y :: l => if before y x then y :: insertStable before x l else x :: y :: l
  end.
Definition stableSort {A} (before : A -> A -> bool) (l : list A) : list A := foldr (insertStable before) [] l.

(** The conditions of the loop of [applyFilters] *)
Definition shows (needle : bytes) (outcome : Outcome) (event : ShownEvent) : bool :=
  (bool_decide (needle = []) || bool_decide (is_Some (find_sub (lowered (ev_host event)) needle 0))) &&
  match outcome with
  | Bypassed => ev_success event && negb (bool_decide (ev_winner event = str "none"))
  | Clean => ev_success event && bool_decide (ev_winner event = str "none")
  | Unresolved => negb (ev_success event)
  | All => true
  end.

(** What an event is sorted by; the newest first is the order of the query. *)
Definition rank (ordering : Ordering) (event : ShownEvent) : Z :=
  match ordering with Recent => 0 | Slowest => ev_totalElapsedMs event | Attempts => ev_attemptCount event end.
Definition rankAt (ordering : Ordering) (recent : list ShownEvent) (i : nat) : Z := default 0 (rank ordering <$> recent !! i).

(** [applyFilters]: the indices of the events shown; [search] is the text of the box, as UTF-8. *)
Definition applyFilters (search : bytes) (outcome : Outcome) (ordering : Ordering) (recent : list ShownEvent) : list nat :=
  let needle := lowered search in
  let visible := omap (λ '(i, event), if shows needle outcome event then Some i else None) (imap pair recent) in
  match ordering with
  | Recent => visible
  | _ => stableSort (λ left right, rankAt ordering recent right <? rankAt ordering recent left) visible
  end.

(** ** The process rules *)

Section Rules.
(** [MultiByteToWideChar] and [WideCharToMultiByte] for UTF-8. *)
Variables (multiByteToWide : bytes -> option wide) (wideToMultiByte : wide -> option bytes).

(** [widen] and [narrow] *)
Definition widen (value : bytes) : wide := if bool_decide (value = []) then [] else default [] (multiByteToWide value).
Definition narrow (value : wide) : bytes := if bool_decide (value = []) then [] else default [] (wideToMultiByte value).

(** The pieces between the line feeds. *)
Fixpoint pieces (text piece : wide) : list wide :=
  match text with
  | [] => [piece]
  | c :: text => if c =? 10 then piece :: pieces text [] else pieces text (piece ++ [c])
  end.
Definition blankEnd (c : Z) : bool := (c =? 13) || (c =? 32) || (c =? 9).
Definition blankStart (c : Z) : bool := (c =? 32) || (c =? 9).
Fixpoint dropBlanks (blank : Z -> bool) (text : wide) : wide :=
  match text with [] => [] | c :: rest => if blank c then dropBlanks blank rest else text end.
Definition trimmed (raw : wide) : wide :=
  dropBlanks blankStart (reverse (dropBlanks blankEnd (reverse raw))).

Definition kMaxLines : nat := 128.
Definition kMaxLine : Z := 1024.

(** The loop of [splitLines]; what was [seen] is what is in [lines]. *)
Fixpoint linesLoop (raws : list wide) (lines : list bytes) : list bytes :=
  match raws with
  | [] => lines
  | raw :: raws =>
      let value := narrow (trimmed raw) in
      if bool_decide (trimmed raw <> []) && negb (bool_decide (value = [])) && (zlen value <=? kMaxLine) && bool_decide (value ∉ lines) then
        let lines := lines ++ [value] in
        if bool_decide (kMaxLines <= length lines)%nat then lines else linesLoop raws lines
      else linesLoop raws lines
  end.
(** [splitLines] *)
Definition splitLines (text : wide) : list bytes := linesLoop (pieces text []) [].

(** The text of an edit box. *)
Definition rulesText (rules : list bytes) : wide := rules ≫= λ rule, widen rule ++ [13; 10].

(** The line of status under the boxes, and its kind: neutral, success, error. *)
Inductive RuleStatus :=
  | Unreadable | Ready (cliProcessRules : Z) | IncludeInvalid | UnreadableUnchanged | AlreadyCurrent | SaveFailed | RulesSaved.
Definition ruleStatusKind (s : RuleStatus) : Z :=
  match s with Ready _ => 0 | AlreadyCurrent | RulesSaved => 1 | _ => 2 end.

(** [loadProcessRules], on what [Config::load] says; the boxes keep their text when it fails. *)
Definition loadProcessRules (loaded : option Config) (cliProcessRules : Z) : RuleStatus * option (wide * wide) :=
  match loaded with
  | None => (Unreadable, None)
  | Some config =>
      (if processIncludeInvalid config then IncludeInvalid else Ready cliProcessRules,
       Some (rulesText (processInclude config), rulesText (processExclude config)))
  end.

Definition setRules (includes excludes : list bytes) (c : Config) : Config :=
  mkConfig (apiToken c) (accountId c) (workerName c) (workerUrl c) (sharedSecret c) (dnsMode c) (splitDelayMs c) (probeTimeoutMs c)
    (tunnelFallback c) includes excludes (migratedFromPlaintext c) (legacyApiTokenPresent c) (sharedSecretBlob c) (loadFailed c)
    (processIncludeInvalid c).

(** [saveProcessRules]: the status, the configuration handed to [Config::save] (which
    answers [saves]), and whether the engine is told. *)
Definition saveProcessRules (include exclude : wide) (loaded : option Config) (saves : Config -> bool) : RuleStatus * option Config * bool :=
  let includes := splitLines include in
  let excludes := splitLines exclude in
  match loaded with
  | None => (UnreadableUnchanged, None, false)
  | Some config =>
      if bool_decide (processInclude config = includes) && bool_decide (processExclude config = excludes) then (AlreadyCurrent, None, false)
      else
        let config := setRules includes excludes config in
        if saves config then (RulesSaved, Some config, true) else (SaveFailed, Some config, false)
  end.
End Rules.

(** ** Counts *)

Lemma groupLoop_digits digits seen grouped :
  Forall (λ c, c <> 46) digits -> List.filter (λ c, negb (c =? 46)) (groupLoop digits seen grouped) = reverse digits ++ List.filter (λ c, negb (c =? 46)) grouped.
Proof.
  intros H. revert seen grouped. induction H as [|d digits Hd _ IH]; intros seen grouped; [done |]. cbn [groupLoop].
  rewrite IH, reverse_cons, <- app_assoc. f_equal. destruct (_ && _); cbn [List.filter]; rewrite (proj2 (Z.eqb_neq d 46) Hd); done.
Qed.
(** Without the separators a grouped count is the number. *)
Theorem groupCount_digits value :
  - 2 ^ 63 < value < 2 ^ 63 ->
  List.filter (λ c, negb (c =? 46)) (groupCount value) = (if value <? 0 then [45] else []) ++ to_string (Z.abs value).
Proof.
  intros Hv. destruct (to_string_spec (Z.abs value)) as (Hd & _ & _); [lia |]. unfold groupCount.
  assert (E : List.filter (λ c, negb (c =? 46)) (groupLoop (reverse (to_string (Z.abs value))) 0 []) = to_string (Z.abs value)).
  { rewrite groupLoop_digits, reverse_involutive by (apply Forall_reverse; eapply Forall_impl; [exact Hd |]; cbn; intros c Hc ->; done). apply app_nil_r. }
  destruct (value <? 0); cbn [List.filter]; by rewrite ?E.
Qed.

(** ** The ledger shows what was asked for, in order *)

Section Sorting.
Context {A : Type} (before : A -> A -> bool) (R : A -> A -> Prop).
Hypothesis before_R : forall x y, before x y = true -> R x y.
Hypothesis R_trans : forall x y z, R x y -> R y z -> R x z.

Lemma insertStable_perm x l : insertStable before x l ≡ₚ x :: l.
Proof. induction l as [|y l IH]; [done |]. cbn. case_match; [| done]. rewrite IH. constructor. Qed.
Lemma stableSort_perm l : stableSort before l ≡ₚ l.
Proof. induction l as [|x l IH]; [done |]. cbn. rewrite insertStable_perm. by f_equiv. Qed.
Lemma insertStable_sorted x l :
  Forall (λ y, before y x = false -> R x y) l -> StronglySorted R l -> StronglySorted R (insertStable before x l).
Proof.
  intros Hx Hl. induction Hl as [|y l Hl IH Hy]; [repeat constructor |]. apply Forall_cons in Hx as [Hxy Hx]. cbn. destruct (before y x) eqn:E.
  - constructor; [by apply IH |]. rewrite insertStable_perm. constructor; [by apply before_R | done].
  - constructor; [by constructor |]. constructor; [by apply Hxy |]. eapply Forall_impl; [exact Hy |]. cbn. intros z. apply R_trans. by apply Hxy.
Qed.
End Sorting.

(** The order of the ledger: the larger value first, and the newer event among equals. *)
Definition shownBefore (ordering : Ordering) (recent : list ShownEvent) (i j : nat) : Prop :=
  rankAt ordering recent j < rankAt ordering recent i \/ rankAt ordering recent i = rankAt ordering recent j /\ (i < j)%nat.

Lemma stableSort_shown ordering recent l :
  StronglySorted lt l ->
  StronglySorted (shownBefore ordering recent) (stableSort (λ left right, rankAt ordering recent right <? rankAt ordering recent left) l).
Proof.
  intros H. induction H as [|x l _ IH Hx]; [constructor |]. apply insertStable_sorted; [| | | exact IH].
  - intros i j Hij%Z.ltb_lt. by left.
  - intros i j k [?|[? ?]] [?|[? ?]]; unfold shownBefore; lia.
  - eapply (Permutation_Forall (symmetry (stableSort_perm _ l))). eapply Forall_impl; [exact Hx |]. cbn. intros y Hy Hb%Z.ltb_ge. unfold shownBefore. lia.
Qed.

(** The matching indices, in the order of the events. *)
Definition matching (needle : bytes) (outcome : Outcome) (recent : list ShownEvent) : list nat :=
  omap (λ '(i, event), if shows needle outcome event then Some i else None) (imap pair recent).

Lemma matching_from needle outcome recent k :
  let l := omap (λ '(i, event), if shows needle outcome event then Some i else None) (imap (λ i e, (k + i, e)%nat) recent) in
  StronglySorted lt l /\ forall i, i ∈ l <-> exists j event, i = (k + j)%nat /\ recent !! j = Some event /\ shows needle outcome event = true.
Proof.
  revert k. induction recent as [|e recent IH]; intros k; cbn zeta.
  - split; [constructor |]. intros i. split; [by intros ?%elem_of_nil | intros (j & event & _ & H & _); done].
  - rewrite imap_cons. cbn [omap list_omap]. rewrite Nat.add_0_r.
    rewrite (imap_ext _ (λ i e, (S k + i, e)%nat) recent) by (intros; cbn; f_equal; lia).
    destruct (IH (S k)) as [Hs Hin]. set (rest := omap _ _) in *.
    assert (Hle : Forall (lt k) rest). { apply Forall_forall. intros i Hi%Hin. destruct Hi as (j & _ & -> & _). lia. }
    assert (Hrest : forall i, i ∈ rest <-> exists j event, i = (k + S j)%nat /\ recent !! j = Some event /\ shows needle outcome event = true).
    { intros i. rewrite Hin. split; intros (j & ev & -> & Hj); exists j, ev; (split; [lia | done]). }
    destruct (shows needle outcome e) eqn:Ee; cycle 1.
    + split; [done |]. intros i. rewrite Hrest. split; intros (j & ev & -> & Hj & Hs').
      * by exists (S j), ev.
      * destruct j as [|j]; [cbn in Hj; congruence |]. by exists j, ev.
    + split; [by constructor |]. intros i. rewrite elem_of_cons, Hrest. split.
      * intros [-> |(j & ev & -> & Hj & Hs')]; [by exists 0%nat, e; rewrite Nat.add_0_r | by exists (S j), ev].
      * intros (j & ev & -> & Hj & Hs'). destruct j as [|j]; [left; lia | right; by exists j, ev].
Qed.
Lemma matching_spec needle outcome recent :
  StronglySorted lt (matching needle outcome recent) /\
  forall i, i ∈ matching needle outcome recent <-> exists event, recent !! i = Some event /\ shows needle outcome event = true.
Proof.
  destruct (matching_from needle outcome recent 0) as [Hs Hin]. cbn in Hs, Hin. split; [exact Hs |]. intros i. split.
  - intros (j & event & -> & Hj)%Hin. by exists event.
  - intros (event & Hi). apply Hin. by exists i, event.
Qed.
Lemma sorted_weaken {A} (R R' : A -> A -> Prop) l : (forall x y, R x y -> R' x y) -> StronglySorted R l -> StronglySorted R' l.
Proof. intros H. induction 1 as [|x l _ IH Hx]; constructor; [done |]. eapply Forall_impl; [exact Hx |]. apply H. Qed.
Lemma sorted_nodup l : StronglySorted lt l -> NoDup l.
Proof.
  induction 1 as [|x l _ IH Hx]; constructor; [| done]. intros Hin. rewrite Forall_forall in Hx. specialize (Hx x Hin). lia.
Qed.

(** The ledger shows exactly the events that match the search and the filter, each once,
    ordered by what was chosen and newest first among equals. *)
Theorem ledger_exact search outcome ordering recent :
  let visible := applyFilters search outcome ordering recent in
  NoDup visible /\ StronglySorted (shownBefore ordering recent) visible /\
  forall i, i ∈ visible <-> exists event, recent !! i = Some event /\ shows (lowered search) outcome event = true.
Proof.
  destruct (matching_spec (lowered search) outcome recent) as [Hs Hin]. unfold applyFilters. fold (matching (lowered search) outcome recent).
  assert (Hsorted : forall o, let v := stableSort (λ left right, rankAt o recent right <? rankAt o recent left) (matching (lowered search) outcome recent) in
    NoDup v /\ StronglySorted (shownBefore o recent) v /\
    forall i, i ∈ v <-> exists event, recent !! i = Some event /\ shows (lowered search) outcome event = true).
  { intros o v. split; [unfold v; rewrite stableSort_perm; by apply sorted_nodup |]. split; [by apply stableSort_shown |].
    intros i. unfold v. by rewrite stableSort_perm. }
  destruct ordering; [| apply Hsorted | apply Hsorted]. split; [by apply sorted_nodup |]. split; [| done].
  apply (sorted_weaken lt); [| exact Hs]. intros i j Hij. right. split; [| done]. unfold rankAt. by destruct (recent !! i), (recent !! j).
Qed.

(** ** The rules are kept as they are written *)

Section Kept.
Variables (multiByteToWide : bytes -> option wide) (wideToMultiByte : wide -> option bytes).
Notation splitLines := (splitLines wideToMultiByte).
Notation widen := (widen multiByteToWide).
Notation narrow := (narrow wideToMultiByte).

(** A rule that one line of the box can hold. *)
Definition tidyRule (rule : bytes) : Prop :=
  rule <> [] /\ zlen rule <= kMaxLine /\ narrow (widen rule) = rule /\ widen rule <> [] /\
  10 ∉ widen rule /\ (forall c, head (widen rule) = Some c -> blankStart c = false) /\ (forall c, last (widen rule) = Some c -> blankEnd c = false).

Lemma pieces_line line rest piece : 10 ∉ line -> pieces (line ++ 10 :: rest) piece = (piece ++ line) :: pieces rest [].
Proof.
  revert piece. induction line as [|c line IH]; intros piece Hn; [by rewrite app_nil_r |]. apply not_elem_of_cons in Hn as [Hc Hn]. cbn [app pieces].
  rewrite (proj2 (Z.eqb_neq c 10)) by done. rewrite IH by done. by rewrite <- app_assoc.
Qed.
Lemma dropBlanks_head (blank : Z -> bool) text : (forall c, head text = Some c -> blank c = false) -> dropBlanks blank text = text.
Proof. destruct text as [|c text]; [done |]. intros H. cbn. by rewrite (H c eq_refl). Qed.
Lemma trimmed_tidy text :
  (forall c, head text = Some c -> blankStart c = false) -> (forall c, last text = Some c -> blankEnd c = false) -> trimmed (text ++ [13]) = text.
Proof.
  intros Hh Hl. unfold trimmed. rewrite reverse_snoc. cbn [dropBlanks]. change (blankEnd 13) with true. cbn match.
  rewrite (dropBlanks_head blankEnd), reverse_involutive; [by apply dropBlanks_head |]. intros c. rewrite head_reverse. apply Hl.
Qed.
Lemma pieces_text rules : Forall tidyRule rules -> pieces (rulesText multiByteToWide rules) [] = ((λ r, widen r ++ [13]) <$> rules) ++ [[]].
Proof.
  induction 1 as [|r rules (_ & _ & _ & _ & Hn & _) _ IH]; [done |]. unfold rulesText. cbn [mbind list_bind].
  change (widen r ++ [13; 10]) with (widen r ++ [13] ++ [10]). rewrite (app_assoc (widen r)), <- (app_assoc (widen r ++ [13])). cbn [app].
  rewrite pieces_line by (rewrite elem_of_app, list_elem_of_singleton; intros [?|?]; done). cbn [fmap list_fmap app]. f_equal. exact IH.
Qed.

Lemma linesLoop_tidy rules lines :
  Forall tidyRule rules -> NoDup (lines ++ rules) -> (length (lines ++ rules) <= kMaxLines)%nat ->
  linesLoop wideToMultiByte (((λ r, widen r ++ [13]) <$> rules) ++ [[]]) lines = lines ++ rules.
Proof.
  intros Hr. revert lines. induction Hr as [|r rules (H1 & H2 & H3 & H4 & H5 & H6 & H7) _ IH]; intros lines Hd Hl.
  - cbn. by rewrite app_nil_r.
  - cbn [fmap list_fmap app linesLoop]. rewrite trimmed_tidy, H3 by done.
    assert (Hnew : r ∉ lines). { apply NoDup_app in Hd as (_ & Hd & _). intros Hin. apply (Hd r Hin). by left. }
    rewrite (bool_decide_true (widen r <> [])), (bool_decide_false (r = [])), (bool_decide_true (r ∉ lines)) by done. rewrite (proj2 (Z.leb_le _ _) H2). cbn [andb negb].
    replace (lines ++ r :: rules) with ((lines ++ [r]) ++ rules) in * by (by rewrite <- app_assoc).
    case_bool_decide as Hc; [| by apply IH]. destruct rules as [|x rules]; [by rewrite app_nil_r |]. rewrite length_app in Hl. cbn in Hl. lia.
Qed.

(** What the box shows for tidy, different rules is read back as these rules. *)
Lemma rules_read_back rules :
  Forall tidyRule rules -> NoDup rules -> (length rules <= kMaxLines)%nat -> splitLines (rulesText multiByteToWide rules) = rules.
Proof. intros Hr Hd Hl. unfold PanelRules.splitLines. rewrite pieces_text by done. by apply (linesLoop_tidy rules []). Qed.

(** Whatever is typed, the result is a list of rules that a configuration may hold. *)
Lemma linesLoop_ok raws lines :
  Forall (λ l, l <> [] /\ zlen l <= kMaxLine) lines -> NoDup lines -> (length lines < kMaxLines)%nat ->
  let r := linesLoop wideToMultiByte raws lines in Forall (λ l, l <> [] /\ zlen l <= kMaxLine) r /\ NoDup r /\ (length r <= kMaxLines)%nat.
Proof.
  revert lines. induction raws as [|raw raws IH]; intros lines Hf Hd Hl; cbn [linesLoop]; [split; [done |]; split; [done | lia] |].
  set (value := narrow (trimmed raw)). destruct (_ && _) eqn:E; [| by apply IH].
  rewrite !andb_true_iff, negb_true_iff, bool_decide_eq_false, !bool_decide_eq_true, Z.leb_le in E. destruct E as [[[_ Hn] Hz] Hnew].
  assert (Hf' : Forall (λ l, l <> [] /\ zlen l <= kMaxLine) (lines ++ [value])) by (apply Forall_app; split; [done | by repeat constructor]).
  assert (Hd' : NoDup (lines ++ [value])).
  { apply NoDup_app. split; [done |]. split; [intros x Hx ->%list_elem_of_singleton; done | apply NoDup_singleton]. }
  assert (Hlen : length (lines ++ [value]) = S (length lines)) by (rewrite length_app; cbn; lia).
  case_bool_decide; [| apply IH; [done | done | lia]]. split; [done |]. split; [done | lia].
Qed.
Lemma splitLines_ok text :
  let r := splitLines text in Forall (λ l, l <> [] /\ zlen l <= kMaxLine) r /\ NoDup r /\ (length r <= kMaxLines)%nat.
Proof. apply linesLoop_ok; [done | apply NoDup_nil_2 | unfold kMaxLines; cbn; lia]. Qed.

(** A configuration whose rules can be shown line by line. *)
Record shownWhole (c : Config) : Prop := {
  sw_include : Forall tidyRule (processInclude c) /\ NoDup (processInclude c) /\ (length (processInclude c) <= kMaxLines)%nat;
  sw_exclude : Forall tidyRule (processExclude c) /\ NoDup (processExclude c) /\ (length (processExclude c) <= kMaxLines)%nat;
}.

(** The lists fit a configuration file when the conversion gives octets. *)
Lemma splitLines_rules text :
  (forall w, all_bytes (narrow w)) -> Forall rule_ok (splitLines text) /\ (length (splitLines text) <= kMaximumRules)%nat.
Proof.
  intros Hb. destruct (splitLines_ok text) as (Hf & _ & Hl). split; [| done].
  assert (Hall : forall raws lines, Forall all_bytes lines -> Forall all_bytes (linesLoop wideToMultiByte raws lines)).
  { induction raws as [|raw raws IH]; intros lines H; [done |]. cbn [linesLoop]. destruct (_ && _); [| by apply IH].
    assert (Forall all_bytes (lines ++ [narrow (trimmed raw)])) by (apply Forall_app; split; [done | by repeat constructor; apply Hb]).
    case_bool_decide; [done | by apply IH]. }
  specialize (Hall (pieces text []) [] ltac:(done)). fold (splitLines text) in Hall.
  rewrite Forall_forall in Hf, Hall |- *. intros r Hr. destruct (Hf r Hr) as [H1 H2]. by split; [apply Hall | split].
Qed.

Lemma save_unedited c saves :
  shownWhole c ->
  saveProcessRules wideToMultiByte (rulesText multiByteToWide (processInclude c)) (rulesText multiByteToWide (processExclude c)) (Some c) saves =
    (AlreadyCurrent, None, false).
Proof.
  intros [(I1 & I2 & I3) (E1 & E2 & E3)]. unfold saveProcessRules. rewrite !rules_read_back by done. by rewrite !bool_decide_true.
Qed.
End Kept.

(** the editor of the process rules does what it shows. Opening it and saving without an
    edit changes nothing and does not disturb the engine; otherwise the configuration that
    is saved differs from the one on disk in the two lists only, which are what was typed:
    without blanks around them, without repetitions, within the limits of the configuration
    file, so that it can be loaded again; and the engine is told exactly when it was saved. *)
Theorem rules_saved multiByteToWide wideToMultiByte cryptProtect base64Encode (c : Config) cli (include exclude : wide) (saves : Config -> bool) :
  (forall w, all_bytes (narrow wideToMultiByte w)) -> config_ok cryptProtect base64Encode c ->
  let '(status, saved, told) := saveProcessRules wideToMultiByte include exclude (Some c) saves in
  (shownWhole multiByteToWide wideToMultiByte c -> (loadProcessRules multiByteToWide (Some c) cli).2 = Some (include, exclude) ->
     status = AlreadyCurrent) /\
  (told = true <-> exists c', saved = Some c' /\ saves c' = true) /\
  (forall c', saved = Some c' ->
     c' = setRules (splitLines wideToMultiByte include) (splitLines wideToMultiByte exclude) c /\
     config_ok cryptProtect base64Encode c' /\ (processInclude c', processExclude c') <> (processInclude c, processExclude c)) /\
  (saved = None -> processInclude c = splitLines wideToMultiByte include /\ processExclude c = splitLines wideToMultiByte exclude).
Proof.
  intros Hb Hc. destruct (saveProcessRules _ _ _ _ _) as [[status saved] told] eqn:E. split.
  { intros Hw [= <- <-]. rewrite (save_unedited multiByteToWide) in E by done. by injection E as <- _ _. }
  unfold saveProcessRules in E. destruct (_ && _) eqn:Es.
  - apply andb_true_iff in Es as [H1%bool_decide_eq_true H2%bool_decide_eq_true]. injection E as <- <- <-.
    split; [split; [done | by intros (? & ? & _)] |]. by split.
  - set (c1 := setRules _ _ c) in *. assert (Hs : saved = Some c1 /\ told = saves c1) by (destruct (saves c1); by injection E as <- <- <-).
    destruct Hs as [-> ->]. clear E. split; [split; [intros H; by exists c1 | by intros (? & [= <-] & ?)] |]. split; [| done].
    intros c' [= <-]. split; [done |]. split.
    + destruct Hc as [B1 B2 B3 B4 _ _]. split; try done; cbn; by apply splitLines_rules.
    + intros [= H1 H2]. cbn in H1, H2. by rewrite H1, H2, !bool_decide_true in Es.
Qed.

(** Text in which every octet is a character. *)
Definition plainNarrow (w : wide) : option bytes := Some (List.filter (λ c, (0 <=? c) && (c <? 256)) w).
Definition ruledConfig : Config := setRules [str "chrome.exe"] [] demo_config.
Lemma rules_saved_witness :
  let typed := str "  chrome.exe" ++ [13; 10] ++ str "fire fox.exe " ++ [10; 10] ++ str "chrome.exe" in
  let '(status, saved, told) := saveProcessRules plainNarrow typed [] (Some ruledConfig) (λ _, true) in
  status = RulesSaved /\ told = true /\ saved = Some (setRules [str "chrome.exe"; str "fire fox.exe"] [] ruledConfig) /\
  exists c', saved = Some c' /\ config_ok demo_seal Some c'.
Proof.
  assert (Hb : forall w, all_bytes (narrow plainNarrow w)).
  { intros w. unfold narrow, plainNarrow. case_bool_decide; [constructor |]. cbn. apply Forall_forall. intros c Hc.
    apply list_elem_of_In, filter_In in Hc as [_ Hc]. unfold is_byte. lia. }
  assert (Hok : config_ok demo_seal Some ruledConfig).
  { split; [.. | |]; try (cbn; lia); try done.
    - repeat (apply Forall_cons; split; [by apply all_bytes_check |]); constructor.
    - split; [| cbn; unfold kMaximumRules; lia].
      repeat (apply Forall_cons; split; [split_and!; [by apply all_bytes_check | done | by apply Z.leb_le] |]); constructor.
    - split; [constructor | cbn; unfold kMaximumRules; lia]. }
  intros typed. pose proof (rules_saved Some plainNarrow demo_seal Some ruledConfig 0 typed [] (λ _, true) Hb Hok) as H.
  destruct (saveProcessRules plainNarrow typed [] (Some ruledConfig) (λ _, true)) as [[status saved] told] eqn:E.
  assert (E' : (status, saved, told) = (RulesSaved, Some (setRules [str "chrome.exe"; str "fire fox.exe"] [] ruledConfig), true))
    by (rewrite <- E; by vm_compute).
  injection E' as -> -> ->. destruct H as (_ & _ & H & _). split; [done |]. split; [done |]. split; [done |]. eexists.
  split; [reflexivity |]. by apply H.
Defined.

(** When no entry of the include list in the file is valid, the panel says so and asks to
    empty the list and save; saving the empty boxes is then taken for no change, and the file
    stays as it is. *)
Example clearing_is_ignored :
  let c := mkConfig [] [] (str "w") [] [] (dnsMode demo_config) 0 1000 false [] [] false false [] false true in
  (loadProcessRules Some (Some c) 0).1 = IncludeInvalid /\
  saveProcessRules Some [] [] (Some c) (λ _, true) = (AlreadyCurrent, None, false).
Proof. by vm_compute. Qed.
