(* ===== verification/Panel.v ===== *)
(** * Panel: how the dashboard gets its report

    Models the data side of [DashboardPanel::Impl] ([src/src/DashboardPanel.cpp]): [refresh]
    starts a worker that queries the database and posts a message, or remembers that another
    refresh is wanted; [applyPendingData] takes the report over and refreshes again when the
    range has changed meanwhile. The user interface and the worker are threads whose steps
    interleave; everything between two accesses to shared state is one step. The report is
    what [Dashboard] computes; here it is an input of the worker's step. *)

From S2P Require Import Prelude Json Telemetry Dashboard PanelRules.

(** A report as a member of the panel: when it was taken (the number of requests made by
    then), for how many days, and whether it was moved from since. *)
Record Held := mkHeld { report : DashboardData; taken : nat; whole : bool }.

(** What is left of a report after [std::move]: its numbers; texts and lists are empty. *)
Definition movedFrom (d : DashboardData) : DashboardData :=
  mkDashboardData (ready d) [] (generatedAt d) (windowDays d) (summary d) (latency d) (previous d) [] [] [] [] [] [] [].
Definition moveOut (h : Held) : Held := mkHeld (movedFrom (report h)) (taken h) false.

(** What follows [refresh]: the end of the handler, or the rest of [applyPendingData]. *)
Inductive After := ToIdle | ToFilter.
Inductive UiPc :=
  | Idle | AskBusy (k : After) | AskJoin (k : After) | AskSpawn (k : After)
  | TakePending | CheckQueued (stale : bool) | Filter.
Inductive WorkerPc := NoWorker | Query (days : Z) | Store (days : Z) (h : Held) | Clear | Post | Finished.

Record Panel := mkPanel {
  windowDays_ : Z; data : Held; pendingData : Held; pendingDays : Z; dataBusy : bool; dataRefreshQueued : bool;
  search_ : bytes; outcome_ : Outcome; ordering_ : Ordering; visible_ : list nat;
  ui : UiPc; worker : WorkerPc; posted : nat;   (* messages that the worker posted *)
  asked : nat; last_ : Held; lastDays : Z;      (* requests so far; the report applied last *)
}.

Inductive UserEvent :=
  | SetRange (days : Z) | Refresh | Search (text : bytes) | SetOutcome (o : Outcome) | SetOrdering (o : Ordering).
Inductive Action := User (e : UserEvent) | Ui | Work (d : DashboardData).

Definition afterRefresh (k : After) : UiPc := match k with ToIdle => Idle | ToFilter => Filter end.

(** The handlers of [handleCommand]; a timer and F5 are [Refresh]. *)
Definition userTurn (e : UserEvent) (p : Panel) : option Panel :=
  let 'mkPanel days d pd pdays busy queued s o ord v u w n a l ld := p in
  match u with
  | Idle => Some
      match e with
      | SetRange days => mkPanel days d pd pdays busy queued s o ord v (AskBusy ToIdle) w n (S a) l ld
      | Refresh => mkPanel days d pd pdays busy queued s o ord v (AskBusy ToIdle) w n (S a) l ld
      | Search s => mkPanel days d pd pdays busy queued s o ord (applyFilters s o ord (recent (report d))) Idle w n a l ld
      | SetOutcome o => mkPanel days d pd pdays busy queued s o ord (applyFilters s o ord (recent (report d))) Idle w n a l ld
      | SetOrdering ord => mkPanel days d pd pdays busy queued s o ord (applyFilters s o ord (recent (report d))) Idle w n a l ld
      end
  | _ => None
  end.

(** A step of the user interface: taking a message, [refresh], [applyPendingData]. *)
Definition uiTurn (p : Panel) : option Panel :=
  let 'mkPanel days d pd pdays busy queued s o ord v u w n a l ld := p in
  match u with
  | Idle => match n with O => None | S n => Some (mkPanel days d pd pdays busy queued s o ord v TakePending w n a l ld) end
  | AskBusy k =>
      Some (if busy then mkPanel days d pd pdays busy true s o ord v (afterRefresh k) w n a l ld
            else mkPanel days d pd pdays true queued s o ord v (AskJoin k) w n a l ld)
  | AskJoin k =>
      match w with
      | NoWorker | Finished => Some (mkPanel days d pd pdays busy queued s o ord v (AskSpawn k) NoWorker n a l ld)
      | _ => None
      end
  | AskSpawn k => Some (mkPanel days d pd pdays busy queued s o ord v (afterRefresh k) (Query days) n a l ld)
  | TakePending =>
      Some (if bool_decide (pdays = days)
            then mkPanel days pd (moveOut pd) pdays busy queued s o ord v (CheckQueued false) w n a
                   (if whole pd then pd else l) (if whole pd then pdays else ld)
            else mkPanel days d pd pdays busy queued s o ord v (CheckQueued true) w n a l ld)
  | CheckQueued stale =>
      Some (if queued || stale then mkPanel days d pd pdays busy false s o ord v (AskBusy (if stale then ToIdle else ToFilter)) w n a l ld
            else mkPanel days d pd pdays busy queued s o ord v Filter w n a l ld)
  | Filter => Some (mkPanel days d pd pdays busy queued s o ord (applyFilters s o ord (recent (report d))) Idle w n a l ld)
  end.

(** A step of the worker; [snapshot] is what the query answers. *)
Definition workerTurn (snapshot : DashboardData) (p : Panel) : option Panel :=
  let 'mkPanel days d pd pdays busy queued s o ord v u w n a l ld := p in
  match w with
  | NoWorker | Finished => None
  | Query wd => Some (mkPanel days d pd pdays busy queued s o ord v u (Store wd (mkHeld snapshot a true)) n a l ld)
  | Store wd h => Some (mkPanel days d h wd busy queued s o ord v u Clear n a l ld)
  | Clear => Some (mkPanel days d pd pdays false queued s o ord v u Post n a l ld)
  | Post => Some (mkPanel days d pd pdays busy queued s o ord v u Finished (S n) a l ld)
  end.

Definition turn (x : Action) (p : Panel) : option Panel :=
  match x with User e => userTurn e p | Ui => uiTurn p | Work d => workerTurn d p end.

Definition noReport : Held := mkHeld (emptyDashboard [] 30 0) 0 true.
Definition newPanel : Panel :=
  mkPanel 30 noReport (moveOut noReport) 0 false false [] All Recent [] Idle NoWorker 0 0 noReport 30.

Definition step (p p' : Panel) : Prop := exists x, turn x p = Some p'.
(** A step that nobody has to ask for. *)
Definition own_step (p p' : Panel) : Prop := uiTurn p = Some p' \/ exists d, workerTurn d p = Some p'.

(** ** What holds all the time *)

Definition querying (w : WorkerPc) : bool := match w with Query _ | Store _ _ | Clear => true | _ => false end.
Definition active (w : WorkerPc) : bool := match w with NoWorker | Finished => false | _ => true end.
Definition starting (u : UiPc) : bool := match u with AskJoin _ | AskSpawn _ => true | _ => false end.
Definition asking (u : UiPc) : bool := match u with AskBusy _ | AskJoin _ | AskSpawn _ => true | _ => false end.
Definition handling (u : UiPc) : bool := match u with TakePending | CheckQueued _ => true | _ => false end.
(** The list has been made for the report that is shown. *)
Definition listed (u : UiPc) : bool :=
  match u with Idle | AskBusy ToIdle | AskJoin ToIdle | AskSpawn ToIdle | TakePending | CheckQueued true => true | _ => false end.

(** A message is on its way that finds [pendingData] as it is. *)
Definition announced (p : Panel) : Prop :=
  worker p = Clear \/ worker p = Post \/ (0 < posted p)%nat \/ ui p = TakePending.

Definition served (p : Panel) : Prop := (asked p <= taken (last_ p))%nat /\ lastDays p = windowDays_ p.
(** The request made last will be served. *)
Definition coming (p : Panel) : Prop :=
  asking (ui p) = true \/
  dataRefreshQueued p = true \/
  (exists days, worker p = Query days) \/
  (exists days h, worker p = Store days h /\ (asked p <= taken h)%nat) \/
  announced p /\ whole (pendingData p) = true /\ (asked p <= taken (pendingData p))%nat \/
  announced p /\ pendingDays p <> windowDays_ p \/
  ui p = CheckQueued true.

Definition storing (w : WorkerPc) : option Held := match w with Store _ h => Some h | _ => None end.

Record Inv (p : Panel) : Prop := {
  i_busy : dataBusy p = querying (worker p) || starting (ui p);
  i_join : starting (ui p) = true -> querying (worker p) = false;
  i_spawn : forall k, ui p = AskSpawn k -> worker p = NoWorker;
  i_queued : dataRefreshQueued p = true -> active (worker p) = true \/ (0 < posted p)%nat \/ handling (ui p) = true;
  i_served : served p \/ coming p;
  i_late : forall days h, worker p = Store days h -> (asked p <= taken h)%nat \/ dataRefreshQueued p = true \/ asking (ui p) = true;
  i_order : (taken (last_ p) <= taken (pendingData p) <= asked p)%nat /\
            forall h, storing (worker p) = Some h -> (taken (pendingData p) <= taken h <= asked p)%nat /\ whole h = true;
  i_listed : listed (ui p) = true -> visible_ p = applyFilters (search_ p) (outcome_ p) (ordering_ p) (recent (report (data p)));
  i_shown : (whole (data p) = true -> data p = last_ p) /\ (whole (data p) = false -> exists h, data p = moveOut h);
  i_pending : whole (pendingData p) = false -> exists h, pendingData p = moveOut h;
}.

Ltac panel_cases :=
  cbn in *; repeat match goal with
  | H : Some _ = Some _ |- _ => injection H as <-; cbn in *
  | H : None = Some _ |- _ => discriminate H
  end.
(** Facts about members that the step leaves alone, and contradictory states. *)
Ltac panel_keep := try solve [ done | intros; congruence | intros; eauto | intuition (congruence || lia || eauto) ].

Lemma inv_new : Inv newPanel.
Proof.
  split; cbn; try done; panel_keep.
  - left. split; cbn; [lia | done].
Qed.

Lemma inv_user e p p' : Inv p -> userTurn e p = Some p' -> Inv p'.
Proof.
  intros [Hb Hj Hs Hq Hv Hlate Ho Hl Hsh Hp] E. destruct p as [days d pd pdays busy queued s o ord v u w n a l ld]. cbn [userTurn] in E.
  destruct u; try discriminate E. destruct e; injection E as <-; split; cbn in *; panel_keep.
  all: try (right; left; done).
  all: try (destruct Ho as [Ho1 Ho2]; split; [lia |]; intros h Hh; destruct (Ho2 h Hh); split; [lia | done]).
Qed.

Ltac no_spawn := let k := fresh in let E := fresh in intros k E; match goal with H : forall k, _ = AskSpawn k -> _ |- _ => specialize (H k E); discriminate end.

(** The reasons why a request will be served. *)
Ltac coming_cases H := destruct H as [H|[H|[(?x & H)|[(?x & ?y & H & ?Hx)|[(H & ?Hx & ?Hy)|[(H & ?Hx)|H]]]]]].
Ltac c_asking := right; left.
Ltac c_queued := right; right; left.
Ltac c_query := right; do 2 right; left.
Ltac c_stored := right; do 3 right; left.
Ltac c_pending := right; do 4 right; left.
Ltac c_stale := right; do 5 right; left.
Ltac c_check := right; do 6 right.

Lemma inv_work d p p' : Inv p -> workerTurn d p = Some p' -> Inv p'.
Proof.
  intros [Hb Hj Hs Hq Hv Hlate Ho Hl Hsh Hp] E. destruct p as [days dt pd pdays busy queued s o ord v u w n a l ld]. cbn [workerTurn] in E.
  destruct Ho as [Ho1 Ho2]. destruct w as [|wd|wd h| | |]; try discriminate E; injection E as <-; cbn in *.
  - split; cbn; panel_keep; try no_spawn.
    + right. right; right; right; left. cbn. by eexists _, _.
    + intros wd' h [= <- <-]. left. cbn. lia.
    + split; [done |]. intros h [= <-]. cbn. split; [lia | done].
  - destruct (Ho2 h eq_refl) as [Ho3 Hw]. split; cbn; panel_keep; try no_spawn.
    destruct (Hlate wd h eq_refl) as [Ha|[Ha|Ha]]; [c_pending | c_queued | c_asking]; try done. split; [by left | done].
  - split; cbn; panel_keep; try no_spawn; [destruct (starting u); [by specialize (Hj eq_refl) | done] |]. destruct Hv as [Hv|Hv]; [by left |].
    coming_cases Hv; cbn in *; try done; [by c_asking | by c_queued | c_pending | c_stale | by c_check]; (split; [right; by left | done]).
  - split; cbn; panel_keep; try no_spawn. destruct Hv as [Hv|Hv]; [by left |].
    coming_cases Hv; cbn in *; try done; [by c_asking | by c_queued | c_pending | c_stale | by c_check];
      (split; [right; right; left; cbn; lia | done]).
Qed.

(** Whatever was announced without the interface still is. *)
Ltac announced_still H := destruct H as [H|[H|[H|H]]]; [by left | right; by left | right; right; left; exact H | try discriminate H].
Ltac coming_still Hv :=
  destruct Hv as [Hv|Hv]; [by left |]; coming_cases Hv; cbn in *;
  [ try discriminate Hv | try (by c_queued) | c_query; by eexists | c_stored; by eexists _, _
  | c_pending; split; [announced_still Hv | done] | c_stale; split; [announced_still Hv | done] | try discriminate Hv ].

Lemma inv_ask p p' : Inv p -> asking (ui p) = true -> uiTurn p = Some p' -> Inv p'.
Proof.
  intros [Hb Hj Hs Hq Hv Hlate Ho Hl Hsh Hp] Ha E. destruct p as [days dt pd pdays busy queued s o ord v u w n a l ld]. cbn [uiTurn] in E.
  destruct u as [|k|k|k| |stale|]; try discriminate Ha; cbn in *.
  - destruct busy; injection E as <-; split; cbn; try done; try (by destruct k); try (by c_queued); try (by c_asking).
    + intros _. left. rewrite orb_false_r in Hb. by destruct w.
    + by rewrite orb_true_r.
    + intros _. by rewrite orb_false_r in Hb.
  - destruct w; try discriminate E; injection E as <-; split; cbn; try done; by c_asking.
  - specialize (Hs k eq_refl). subst w. injection E as <-. split; cbn; try done; try (by destruct k).
    + intros _. by left.
    + c_query. by eexists.
Qed.
Lemma inv_ui p p' : Inv p -> uiTurn p = Some p' -> Inv p'.
Proof.
  intros HI E. destruct (asking (ui p)) eqn:Ea; [by apply (inv_ask p) |]. destruct HI as [Hb Hj Hs Hq Hv Hlate Ho Hl Hsh Hp].
  destruct p as [days dt pd pdays busy queued s o ord v u w n a l ld]. cbn [uiTurn] in E.
  destruct u as [|k|k|k| |stale|]; try discriminate Ea; cbn in *.
  - destruct n as [|n]; [discriminate E |]. injection E as <-. split; cbn; try done; [intros _; by right; right |].
    destruct Hv as [Hv|Hv]; [by left |]. coming_cases Hv; cbn in *; try done; [by c_queued | c_query; by eexists | c_stored; by eexists _, _ | c_pending | c_stale];
      (split; [right; right; by right | done]).
  - case_bool_decide as Ed; injection E as <-; split; cbn; try done; try (intros _; by right; right); try (by c_check).
    + destruct Hv as [[H1 H2]|Hv]; cbn in *; [left; destruct (whole pd); split; cbn; [lia | done | done | done] |].
      coming_cases Hv; cbn in *; try done; [by c_queued | c_query; by eexists | c_stored; by eexists _, _ |].
      left. rewrite Hx. by split.
    + destruct (whole pd); [split; [lia |]; by apply Ho | exact Ho].
    + split; [by intros -> | done].
    + intros _. by exists pd.
  - destruct (queued || stale) eqn:Eq; injection E as <-; split; cbn; try done; try (by c_asking).
    + intros wd h _. by right; right.
    + by destruct stale.
    + apply orb_false_iff in Eq as [-> _]. done.
    + apply orb_false_iff in Eq as [-> ->]. coming_still Hv.
  - injection E as <-. split; cbn; try done. coming_still Hv.
Qed.

Lemma inv_reach p : rtc step newPanel p -> Inv p.
Proof.
  intros H. cut (forall q, Inv q -> rtc step q p -> Inv p); [intros Hc; apply (Hc newPanel); [apply inv_new | done] |].
  clear H. intros q Hq H. induction H as [|q q' p [[e| |d] E] _ IH]; [done | ..]; apply IH;
    [by apply (inv_user e q) | by apply (inv_ui q) | by apply (inv_work d q)].
Qed.

(** ** The panel comes to rest *)

Definition atRest (p : Panel) : Prop := ui p = Idle /\ posted p = 0%nat /\ active (worker p) = false.

Lemma rest_or_step p : Inv p -> atRest p \/ exists p', own_step p p'.
Proof.
  intros [Hb Hj Hs _ _ _ _ _ _ _]. destruct p as [days dt pd pdays busy queued s o ord v u w n a l ld]; cbn in *.
  destruct (active w) eqn:Ew.
  { right. destruct w; try discriminate Ew; (eexists; right; exists (report dt); reflexivity). }
  destruct u as [|k|k|k| |stale|]; try (right; eexists; left; reflexivity).
  - destruct n; [by left |]. right. eexists. by left.
  - right. destruct w; try discriminate Ew; (eexists; left; reflexivity).
Qed.

(** How far the report that is wanted is: the one pending or being queried is for the range
    selected; only the one being queried is; neither is. *)
Definition distance (p : Panel) : nat :=
  let ahead := match worker p with Query d | Store d _ => Some (bool_decide (d = windowDays_ p)) | _ => None end in
  match ahead with
  | Some false => 2
  | Some true => if bool_decide (pendingDays p = windowDays_ p) then 0 else 1
  | None => if bool_decide (pendingDays p = windowDays_ p) then 0 else 2
  end.
Definition workerWeight (w : WorkerPc) : nat := match w with Query _ => 12 | Store _ _ => 11 | Clear => 10 | Post => 9 | _ => 0 end.
Definition uiWeight (near : bool) (u : UiPc) : nat :=
  match u with
  | Idle => 0 | Filter => 1 | TakePending => 7
  | CheckQueued stale => if near && stale then 40 else 6
  | AskBusy _ => if near then 37 else 5 | AskJoin _ => if near then 36 else 4 | AskSpawn _ => if near then 35 else 3
  end.
Definition work_left (p : Panel) : nat :=
  (8 * posted p + workerWeight (worker p) + uiWeight (bool_decide (distance p = 0)) (ui p) +
   match distance p with 0 => if dataRefreshQueued p then 32 else 0 | 1 => 100 | _ => 200 end)%nat.

Lemma ui_less p p' : Inv p -> uiTurn p = Some p' -> (work_left p' < work_left p)%nat.
Proof.
  intros [Hb Hj Hs _ _ _ _ _ _ _] E. destruct p as [days dt pd pdays busy queued s o ord v u w n a l ld]; cbn [uiTurn] in E; cbn in *.
  unfold work_left, distance.
  destruct u as [|k|k|k| |stale|]; cbn in *.
  - destruct n as [|n]; [discriminate E |]. injection E as <-. cbn. repeat case_match; cbn in *; simplify_eq; lia.
  - destruct busy; injection E as <-; cbn.
    + destruct w; cbn in *; try discriminate Hb; repeat case_match; cbn in *; simplify_eq; destruct k; cbn; lia.
    + destruct w; cbn in *; try discriminate Hb; repeat case_match; cbn in *; simplify_eq; lia.
  - destruct w; try discriminate E; injection E as <-; cbn; repeat case_match; cbn in *; simplify_eq; lia.
  - specialize (Hs k eq_refl). subst w. injection E as <-. cbn. rewrite (bool_decide_true (days = days)) by done.
    repeat case_match; cbn in *; simplify_eq; destruct k; cbn; lia.
  - destruct (bool_decide (pdays = days)) eqn:Ed; injection E as <-; cbn; rewrite Ed; repeat case_match; cbn in *; simplify_eq; lia.
  - destruct queued, stale; injection E as <-; cbn; repeat case_match; cbn in *; simplify_eq; lia.
  - injection E as <-. cbn. repeat case_match; cbn in *; simplify_eq; lia.
Qed.
Lemma worker_less d p p' : Inv p -> workerTurn d p = Some p' -> (work_left p' < work_left p)%nat.
Proof.
  intros [Hb Hj Hs _ _ _ _ _ _ _] E. destruct p as [days dt pd pdays busy queued s o ord v u w n a l ld]; cbn [workerTurn] in E; cbn in *.
  unfold work_left, distance. destruct w as [|wd|wd h| | |]; try discriminate E; injection E as <-; cbn.
  - repeat case_match; cbn in *; simplify_eq; lia.
  - destruct (bool_decide (wd = days)) eqn:Ed; [| repeat case_match; cbn in *; simplify_eq; lia].
    destruct (bool_decide (pdays = days)); cbn; [repeat case_match; cbn in *; simplify_eq; lia |].
    rewrite (bool_decide_true (0 = 0)%nat) by done. destruct queued, u as [|k|k|k| |[]|]; cbn; lia.
  - repeat case_match; cbn in *; simplify_eq; lia.
  - repeat case_match; cbn in *; simplify_eq; lia.
Qed.
Lemma own_less p p' : Inv p -> own_step p p' -> Inv p' /\ (work_left p' < work_left p)%nat.
Proof.
  intros Hi [E|[d E]]; (split; [| by eauto using ui_less, worker_less]); [by apply (inv_ui p) | by apply (inv_work d p)].
Qed.
Lemma own_bounded n p q : Inv p -> nsteps own_step n p q -> (n <= work_left p)%nat.
Proof.
  intros Hi H. revert Hi. induction H as [|n p p' q E _ IH]; intros Hi; [lia |]. destruct (own_less _ _ Hi E) as [Hi' Hl]. specialize (IH Hi'). lia.
Qed.

(** C39: the report that was asked for arrives. In every state that requests, range changes,
    filters and the worker can lead to, in whatever order they interleave: without further
    input the panel comes to rest after a bounded number of its own steps and is never stuck
    before; at rest no refresh is owed, the report applied last was queried after the last
    request was made and for the range selected, what is listed is what the filters say of
    the report shown, and the report shown is that one, or was moved from because a second
    message found it already taken. *)
Theorem report_arrives p :
  rtc step newPanel p ->
  (atRest p \/ exists p', own_step p p') /\
  (forall n q, nsteps own_step n p q -> (n <= work_left p)%nat) /\
  (atRest p ->
     dataBusy p = false /\ dataRefreshQueued p = false /\ (asked p <= taken (last_ p))%nat /\ lastDays p = windowDays_ p /\
     visible_ p = applyFilters (search_ p) (outcome_ p) (ordering_ p) (recent (report (data p))) /\
     (data p = last_ p \/ exists h, data p = moveOut h)).
Proof.
  intros H%inv_reach. split; [by apply rest_or_step |]. split; [intros n q; by apply own_bounded |].
  intros (Hu & Hn & Hw). destruct H as [Hb Hj Hs Hq Hv Hlate Ho Hl Hsh Hp].
  assert (Hq' : dataRefreshQueued p = false).
  { destruct (dataRefreshQueued p); [| done]. destruct (Hq eq_refl) as [?|[?|?]]; [congruence | lia | by rewrite Hu in *]. }
  split; [rewrite Hb, Hu, orb_false_r; by destruct (worker p) |]. split; [done |].
  assert (Hc : served p).
  { destruct Hv as [Hv|Hv]; [done |]. exfalso. unfold coming, announced in Hv. rewrite Hu, Hn, Hq' in Hv. cbn in Hv.
    coming_cases Hv; try done; try (by rewrite Hv in Hw); (destruct Hv as [Hv|[Hv|[Hv|Hv]]]; try done; try lia; by rewrite Hv in Hw). }
  destruct Hc as [H1 H2]. split; [done |]. split; [done |]. split; [apply Hl; by rewrite Hu |].
  destruct (whole (data p)) eqn:E; [left; by apply Hsh | right; by apply Hsh].
Qed.

(** ** Runs *)

Fixpoint run (xs : list Action) (p : Panel) : option Panel :=
  match xs with [] => Some p | x :: xs => match turn x p with Some p => run xs p | None => None end end.
Lemma panel_run_reaches xs p q : run xs p = Some q -> rtc step p q.
Proof.
  revert p. induction xs as [|x xs IH]; intros p E; cbn in E; [by injection E as -> |].
  destruct (turn x p) as [p'|] eqn:Et; [| discriminate E]. eapply rtc_l; [by exists x | by apply IH].
Qed.

(** A report with one event. *)
Definition someEvent : ShownEvent := mkShownEvent 1 0 [] (str "a.example") [] [] 0 (str "none") [] true false false 1 20 [].
Definition someReport : DashboardData :=
  mkDashboardData true [] 0 7 noSummary (mkPercentiles 0 0 0 0) noSummary [] [] [] [] [] [] [someEvent].
(** The range changes while the first query runs. *)
Definition changedRange : list Action :=
  [User Refresh; Ui; Ui; Ui; Work someReport; User (SetRange 7); Ui; Work someReport; Work someReport; Work someReport;
   Ui; Ui; Ui; Ui; Ui; Ui; Work someReport; Work someReport; Work someReport; Work someReport; Ui; Ui; Ui; Ui].
Lemma report_arrives_witness :
  exists p, run changedRange newPanel = Some p /\ atRest p /\ asked p = 2%nat /\ visible_ p = [0%nat] /\ lastDays p = 7 /\
    (asked p <= taken (last_ p))%nat /\ (data p = last_ p \/ exists h, data p = moveOut h).
Proof.
  destruct (run changedRange newPanel) as [p|] eqn:E; [| by vm_compute in E]. exists p.
  pose proof (report_arrives p (panel_run_reaches _ _ _ E)) as (_ & _ & H). injection E as <-.
  assert (Hr : atRest (ltac:(let t := eval vm_compute in (default newPanel (run changedRange newPanel)) in exact t))) by by vm_compute.
  destruct (H Hr) as (_ & _ & H1 & _ & _ & H2). split; [done |]. split; [exact Hr |]. split; [done |]. split; [by vm_compute |]. by split.
Defined.

(** Two messages and one report: the second takes what the first has moved from, and the
    panel is left empty until the next refresh. *)
Definition secondMessage : list Action :=
  [User Refresh; Ui; Ui; Ui; Work someReport; Work someReport; Work someReport; Work someReport;
   User Refresh; Ui; Ui; Ui; Work someReport; Work someReport; Work someReport; Work someReport].
Example report_blanked :
  exists p, run (User (SetRange 7) :: Ui :: Ui :: Ui :: Work someReport :: Work someReport :: Work someReport :: Work someReport ::
                 Ui :: Ui :: Ui :: Ui :: secondMessage ++ [Ui; Ui; Ui; Ui; Ui; Ui; Ui; Ui]) newPanel = Some p /\
    atRest p /\ recent (report (last_ p)) = [someEvent] /\ recent (report (data p)) = [] /\ visible_ p = [].
Proof. eexists. split; [vm_compute; reflexivity |]. by vm_compute. Qed.
