(* ===== verification/Elevation.v ===== *)
(** * Elevation: handing over to an elevated process, and stopping it again

    Models the part of [src/src/main.cpp] that gets the program administrator rights and
    keeps the two processes together: [isElevated], [trayInstanceRunning], [relaunchElevated]
    and [signalReadyEvent] as programs of [Calls]; and the way a Ctrl+C travels, from
    [consoleHandler] in the console process over a named event to the thread of
    [ShutdownEventMonitor] in the elevated one, as threads whose steps interleave. *)

From S2P Require Import Prelude Calls CommandLine.

Abbreviation wide := (list Z).

(** ** The calls *)

Inductive ElevationCall :=
  | OpenProcessToken | TokenElevation (token : Z)          (* [Some]: whether it is elevated *)
  | OpenMutexW | GetLastError
  | CommandLineToArgvW                                     (* the block, and the arguments *)
  | GetCurrentProcessId | GetTickCount64
  | CreateEventW (name : wide) | OpenEventW (name : wide) | SetEvent (h : Z)
  | GetModuleFileNameW (size : Z)                          (* length and path *)
  | ShellExecuteExW (file parameters : wide) (shown : bool)
  | PublishEvent (h : option Z)                            (* [g_elevationShutdownEvent = ...] *)
  | WaitForSingleObject (h : Z) | GetExitCodeProcess (h : Z)
  | CloseHandle (h : Z) | LocalFree (memory : Z).

Definition Reply (c : ElevationCall) : Type :=
  match c with
  | OpenProcessToken | OpenMutexW | CreateEventW _ | OpenEventW _ | ShellExecuteExW _ _ _ | GetExitCodeProcess _ => option Z
  | TokenElevation _ => option bool
  | GetLastError | GetCurrentProcessId | GetTickCount64 => Z
  | CommandLineToArgvW => option (Z * list wide)
  | GetModuleFileNameW _ => Z * wide
  | SetEvent _ | PublishEvent _ | WaitForSingleObject _ | CloseHandle _ | LocalFree _ => unit
  end.

Definition M (A : Type) : Type := Sys Reply A.
#[export] Instance elevation_ret : MRet M := λ A, Done.
#[export] Instance elevation_bind : MBind M := λ A B, sys_bind.
Definition do (c : ElevationCall) : M (Reply c) := call c.

(** [isElevated] *)
Definition isElevated : M bool :=
  token ← do OpenProcessToken;
  match (token : option Z) with
  | None => mret false
  | Some token =>
      elevation ← do (TokenElevation token);
      _ ← do (CloseHandle token);
      mret (bool_decide ((elevation : option bool) = Some true))
  end.

Definition ERROR_ACCESS_DENIED : Z := 5.
(** [trayInstanceRunning] *)
Definition trayInstanceRunning : M bool :=
  existing ← do OpenMutexW;
  match (existing : option Z) with
  | Some existing => _ ← do (CloseHandle existing); mret true
  | None => error ← do GetLastError; mret (error =? ERROR_ACCESS_DENIED)
  end.

(** [signalReadyEvent] *)
Definition signalReadyEvent (eventName : wide) : M unit :=
  if bool_decide (eventName = []) then mret () else
  event ← do (OpenEventW eventName);
  match (event : option Z) with
  | None => mret ()
  | Some event => _ ← do (SetEvent event); do (CloseHandle event)
  end.

Definition MAX_PATH : Z := 260.
Definition shutdownName (pid ticks : Z) : wide := str "Local\SplitHello-shutdown-" ++ to_string pid ++ str "-" ++ to_string ticks.

(** [(int)exitCode] *)
Definition toInt (v : Z) : Z := if 2 ^ 31 <=? v then v - 2 ^ 32 else v.

(** The end of [relaunchElevated], once the parameters are there. *)
Definition launchElevated (waitForExit : bool) (arguments : Z) (parameters : wide) (shutdownEvent : option Z) : M Z :=
  let closeEvent := (match shutdownEvent with Some h => do (CloseHandle h) | None => mret () end) : M unit in
  '(length_, executable) ← do (GetModuleFileNameW MAX_PATH);
  _ ← do (LocalFree arguments);
  if (length_ =? 0) || (MAX_PATH <=? length_) then _ ← closeEvent; mret (-1) else
  launched ← do (ShellExecuteExW (take (Z.to_nat length_) executable) parameters waitForExit);
  match (launched : option Z) with
  | None => _ ← closeEvent; mret (-1)
  | Some process =>
      if negb waitForExit then _ ← do (CloseHandle process); mret 0 else
      _ ← do (PublishEvent shutdownEvent);
      _ ← do (WaitForSingleObject process);
      _ ← do (PublishEvent None);
      exitCode ← do (GetExitCodeProcess process);
      _ ← do (CloseHandle process);
      _ ← closeEvent;
      mret (toInt (default 1 (exitCode : option Z)))
  end.

(** [relaunchElevated] *)
Definition relaunchElevated (waitForExit : bool) : M Z :=
  argv ← do CommandLineToArgvW;
  match (argv : option (Z * list wide)) with
  | None | Some (_, []) => mret (-1)
  | Some (arguments, _ :: args) =>
      if waitForExit then
        pid ← do GetCurrentProcessId;
        ticks ← do GetTickCount64;
        let name := shutdownName pid ticks in
        shutdownEvent ← do (CreateEventW name);
        match (shutdownEvent : option Z) with
        | None => _ ← do (LocalFree arguments); mret (-1)
        | Some h =>
            self ← do GetCurrentProcessId;
            launchElevated waitForExit arguments (relaunchParameters args name self) (Some h)
        end
      else launchElevated waitForExit arguments (joinArguments args []) None
  end.

(** ** What they leave behind *)

(** Handles and memory held, what is published to [consoleHandler], the processes started. *)
Record Hand := mkHand { open : gset Z; memory : gset Z; global : option Z; launches : list (wide * wide) }.

Definition after (s : Hand) (c : ElevationCall) : Reply c -> Hand :=
  let 'mkHand o m g l := s in
  match c return Reply c -> Hand with
  | OpenProcessToken | OpenMutexW | CreateEventW _ | OpenEventW _ => λ r, match r with Some h => mkHand ({[h]} ∪ o) m g l | None => s end
  | ShellExecuteExW file parameters _ => λ r, match r with Some h => mkHand ({[h]} ∪ o) m g (l ++ [(file, parameters)]) | None => s end
  | CommandLineToArgvW => λ r, match r with Some (b, _ :: _) => mkHand o ({[b]} ∪ m) g l | _ => s end
  | PublishEvent h => λ _, mkHand o m h l
  | CloseHandle h => λ _, mkHand (o ∖ {[h]}) m g l
  | LocalFree b => λ _, mkHand o (m ∖ {[b]}) g l
  | _ => λ _, s
  end.

Section Runs.
(** This process: its number, its executable, its arguments, the clock. *)
Variables (pid ticks : Z) (self program : wide) (args : list wide).

Definition answers (s : Hand) (c : ElevationCall) : Reply c -> Prop :=
  match c return Reply c -> Prop with
  | OpenProcessToken | OpenMutexW | CreateEventW _ | OpenEventW _ | ShellExecuteExW _ _ _ => λ r, forall h, r = Some h -> h ∉ open s
  | CommandLineToArgvW => λ r, forall b l, r = Some (b, l) -> b ∉ memory s /\ l = program :: args
  | GetCurrentProcessId => λ r, r = pid
  | GetTickCount64 => λ r, r = ticks
  | GetModuleFileNameW size => λ '(n, path), 0 <= n /\ (n < size -> take (Z.to_nat n) path = self)
  | _ => λ _, True
  end.

(** Handles and memory are used while they are held; the handle that [consoleHandler] sees is
    open as long as it is published; the process started is this program with its own
    arguments, followed by the name of the event and the number of this process. *)
Definition legal (s : Hand) (c : ElevationCall) : Prop :=
  match c with
  | TokenElevation h | SetEvent h | WaitForSingleObject h | GetExitCodeProcess h => h ∈ open s
  | CloseHandle h => h ∈ open s /\ global s <> Some h
  | LocalFree b => b ∈ memory s
  | PublishEvent (Some h) => h ∈ open s
  | ShellExecuteExW file parameters shown =>
      file = self /\ parameters = (if shown then relaunchParameters args (shutdownName pid ticks) pid else joinArguments args [])
  | _ => True
  end.
Notation wpe := (wps legal answers after).

Definition tidyEnd (o m : gset Z) (l : list (wide * wide)) (s : Hand) : Prop :=
  open s = o /\ memory s = m /\ global s = None /\ exists l', launches s = l ++ l' /\ (length l' <= 1)%nat.

Lemma wp_launch (waitForExit : bool) b parameters event o m l (Q : Z -> Hand -> Prop) :
  b ∉ m -> parameters = (if waitForExit then relaunchParameters args (shutdownName pid ticks) pid else joinArguments args []) ->
  (if waitForExit then exists h, event = Some h /\ h ∉ o else event = None) ->
  (forall r s, tidyEnd o m l s -> Q r s) ->
  wpe (launchElevated waitForExit b parameters event) (mkHand (list_to_set (option_list event) ∪ o) ({[b]} ∪ m) None l) Q.
Proof.
  intros Hb Hp He HQ. unfold launchElevated. apply wps_do; [done |]. intros [n path] Hn. cbn [after].
  apply wps_do; [cbn; set_solver |]. intros ? _. cbn [after]. assert (({[b]} ∪ m) ∖ {[b]} = m) as -> by set_solver.
  assert (Hend : forall r s, open s = list_to_set (option_list event) ∪ o -> memory s = m -> global s = None ->
     (exists l', launches s = l ++ l' /\ (length l' <= 1)%nat) ->
     wpe (_ ← (match event with Some h => do (CloseHandle h) | None => mret () end : M unit); mret r) s Q).
  { intros res [o' m' g' l'] Ho Hm Hg Hl. cbn in Ho, Hm, Hg, Hl. subst o' m' g'. destruct event as [h|]; cbn.
    - split; [split; [set_solver | done] |]. intros _ _. apply HQ. split; [| done]. cbn. destruct waitForExit; [| done].
      destruct He as (h' & [= <-] & Hh). set_solver.
    - apply HQ. split; [cbn; set_solver | done]. }
  assert (H0 : forall r, wpe (_ ← (match event with Some h => do (CloseHandle h) | None => mret () end : M unit); mret r)
    (mkHand (list_to_set (option_list event) ∪ o) m None l) Q) by (intros res; apply Hend; try done; exists []; rewrite app_nil_r; split; [done | cbn; lia]).
  destruct ((n =? 0) || (MAX_PATH <=? n)) eqn:En; [apply H0 |]. destruct Hn as [Hn0 Hn].
  apply wps_do; [split; [apply Hn; lia | done] |]. intros launched Hl. destruct launched as [p|]; cbn [after]; [| apply H0].
  specialize (Hl p eq_refl). cbn [open] in Hl. rewrite Hn by lia. destruct waitForExit; cbn [negb].
  - destruct He as (h & -> & Hh). cbn in Hl. apply wps_do; [cbn; set_solver |]. intros ? _. cbn [after].
    apply wps_do; [cbn; set_solver |]. intros ? _. cbn [after]. apply wps_do; [done |]. intros ? _. cbn [after].
    apply wps_do; [cbn; set_solver |]. intros code _. cbn [after]. apply wps_do; [split; [cbn; set_solver | done] |]. intros ? _. cbn [after].
    apply Hend; try done; [cbn; set_solver | by exists [(self, parameters)]].
  - subst event. apply wps_do; [split; [cbn; set_solver | done] |]. intros ? _. apply HQ.
    split; [cbn; cbn in Hl; set_solver |]. split; [done |]. split; [done |]. by exists [(self, parameters)].
Qed.

Lemma wp_relaunch (waitForExit : bool) o m l (Q : Z -> Hand -> Prop) :
  (forall r s, tidyEnd o m l s -> Q r s) -> wpe (relaunchElevated waitForExit) (mkHand o m None l) Q.
Proof.
  intros HQ. apply wps_do; [done |]. intros argv Ha.
  assert (H0 : forall r, Q r (mkHand o m None l)) by (intros res; apply HQ; split; [done |]; split; [done |]; split; [done |]; exists []; rewrite app_nil_r; split; [done | cbn; lia]).
  destruct argv as [[b [|x xs]]|]; cbn [after]; [apply H0 | | apply H0]. destruct (Ha b _ eq_refl) as [Hb [= -> ->]]. cbn [memory] in Hb.
  destruct waitForExit; cycle 1.
  { pose proof (wp_launch false b (joinArguments args []) None o m l Q Hb eq_refl eq_refl HQ) as H.
    assert (E : list_to_set (option_list (None : option Z)) ∪ o = o) by set_solver. by rewrite E in H. }
  apply wps_do; [done |]. intros p Ep. cbn in Ep. subst p. cbn [after]. apply wps_do; [done |]. intros t Et. cbn in Et. subst t. cbn [after].
  apply wps_do; [done |]. intros event He. destruct event as [h|]; cbn [after].
  - specialize (He h eq_refl). cbn [open] in He. apply wps_do; [done |]. intros self' Es. cbn in Es. subst self'. cbn [after].
    pose proof (wp_launch true b (relaunchParameters args (shutdownName pid ticks) pid) (Some h) o m l Q Hb eq_refl) as Hrun.
    assert (E : list_to_set (option_list (Some h)) ∪ o = {[h]} ∪ o) by set_solver. rewrite E in Hrun. apply Hrun; [by exists h | done].
  - apply wps_do; [cbn; set_solver |]. intros ? _. cbn [after]. assert (({[b]} ∪ m) ∖ {[b]} = m) as -> by set_solver. apply H0.
Qed.
End Runs.

(** ** How a Ctrl+C travels *)

(** The console process in [relaunchElevated(true)], from the launch on; the thread that runs
    [consoleHandler]; the elevated process from the constructor of [ShutdownEventMonitor] to
    the end of its destructor; and the thread of the monitor. *)
Inductive ParentPc := PLaunch | PPublish | PWait | PUnpublish | PClose | PDone.
#[export] Instance parentPc_eq : EqDecision ParentPc.
Proof. solve_decision. Defined.
Inductive HandlerPc := HNone | HCheck | HLoad | HCall (published : bool) | HCleanup.
Inductive MonitorPc := MNone | MCreate | MOpenEvent | MOpenParent | MDecide | MRunning | MStopping | MSetStop | MJoin | MCloseAll | MGone.
Inductive WatchPc := WNone | WWaiting | WWoken (request : bool) | WCleanup | WDone.

Record Duo := mkDuo {
  parent : ParentPc; published : bool; eventOpen : bool; parentAlive : bool; signalled : bool;
  handler : HandlerPc; parentFlag : bool; misused : bool;
  monitor : MonitorPc; event_ : bool; parent_ : bool; stopEvent_ : bool; stopSet : bool; stopping_ : bool;
  watch : WatchPc; childFlag : bool;
  pressed : bool;               (* Ctrl+C was pressed in the console *)
  ownEnd : bool;                (* the elevated process has a reason of its own to end *)
}.

(** [b]: whether a call of the constructor succeeds. [OwnEnd]: an error in the elevated
    process, or a Ctrl+C in its own console. *)
Inductive DuoAction := CtrlC | Handler | Parent | ParentDies | Monitor (b : bool) | Watch | OwnEnd.
#[export] Instance duoAction_eq : EqDecision DuoAction.
Proof. solve_decision. Defined.

(** [consoleHandler]: the global is read twice, the event set through what was read last. *)
Definition handlerTurn (s : Duo) : option Duo :=
  let 'mkDuo p pub eo pa sg h pf mis m ev par st ss sto w cf pr oe := s in
  match h with
  | HNone => None
  | HCheck => Some (mkDuo p pub eo pa sg (if pub then HLoad else HCleanup) pf mis m ev par st ss sto w cf pr oe)
  | HLoad => Some (mkDuo p pub eo pa sg (HCall pub) pf mis m ev par st ss sto w cf pr oe)
  | HCall true => Some (mkDuo p pub eo pa (sg || eo) HCleanup pf (mis || negb eo) m ev par st ss sto w cf pr oe)
  | HCall false => Some (mkDuo p pub eo pa sg HCleanup pf mis m ev par st ss sto w cf pr oe)
  | HCleanup => Some (mkDuo p pub eo pa sg HNone true mis m ev par st ss sto w cf pr oe)
  end.

(** The main thread of the console process. *)
Definition parentTurn (s : Duo) : option Duo :=
  let 'mkDuo p pub eo pa sg h pf mis m ev par st ss sto w cf pr oe := s in
  match p with
  | PLaunch => Some (mkDuo PPublish pub eo pa sg h pf mis MCreate ev par st ss sto w cf pr oe)
  | PPublish => Some (mkDuo PWait true eo pa sg h pf mis m ev par st ss sto w cf pr oe)
  | PWait => match m with MGone => Some (mkDuo PUnpublish pub eo pa sg h pf mis m ev par st ss sto w cf pr oe) | _ => None end
  | PUnpublish => Some (mkDuo PClose false eo pa sg h pf mis m ev par st ss sto w cf pr oe)
  | PClose => Some (mkDuo PDone pub false pa sg h pf mis m ev par st ss sto w cf pr oe)
  | PDone => None
  end.

(** The constructor and the destructor of [ShutdownEventMonitor]; between them the process
    runs until it is asked to end or has a reason of its own. *)
Definition monitorTurn (b : bool) (s : Duo) : option Duo :=
  let 'mkDuo p pub eo pa sg h pf mis m ev par st ss sto w cf pr oe := s in
  match m with
  | MNone | MGone => None
  | MCreate => Some (mkDuo p pub eo pa sg h pf mis MOpenEvent ev par b ss sto w cf pr oe)
  | MOpenEvent => Some (mkDuo p pub eo pa sg h pf mis MOpenParent b par st ss sto w cf pr oe)
  | MOpenParent => Some (mkDuo p pub eo pa sg h pf mis MDecide ev b st ss sto w cf pr oe)
  | MDecide => Some (mkDuo p pub eo pa sg h pf mis MRunning ev par st ss sto (if st && (ev || par) then WWaiting else WNone) cf pr oe)
  | MRunning => if cf || oe then Some (mkDuo p pub eo pa sg h pf mis MStopping ev par st ss sto w cf pr oe) else None
  | MStopping => Some (mkDuo p pub eo pa sg h pf mis MSetStop ev par st ss true w cf pr oe)
  | MSetStop => Some (mkDuo p pub eo pa sg h pf mis MJoin ev par st st sto w cf pr oe)
  | MJoin => match w with WNone | WDone => Some (mkDuo p pub eo pa sg h pf mis MCloseAll ev par st ss sto w cf pr oe) | _ => None end
  | MCloseAll => Some (mkDuo p pub eo pa sg h pf mis MGone false false false ss sto w cf pr oe)
  end.

(** The thread of the monitor: [WaitForMultipleObjects] answers the first object that is set,
    the stop event being the last. *)
Definition watchTurn (s : Duo) : option Duo :=
  let 'mkDuo p pub eo pa sg h pf mis m ev par st ss sto w cf pr oe := s in
  match w with
  | WNone | WDone => None
  | WWaiting =>
      let request := ev && sg || par && negb pa in
      if request || ss then Some (mkDuo p pub eo pa sg h pf mis m ev par st ss sto (WWoken request) cf pr oe) else None
  | WWoken request => Some (mkDuo p pub eo pa sg h pf mis m ev par st ss sto (if request && negb sto then WCleanup else WDone) cf pr oe)
  | WCleanup => Some (mkDuo p pub eo pa sg h pf mis m ev par st ss sto WDone true pr oe)
  end.

Definition duoTurn (x : DuoAction) (s : Duo) : option Duo :=
  let 'mkDuo p pub eo pa sg h pf mis m ev par st ss sto w cf pr oe := s in
  match x with
  | CtrlC => match h with HNone => Some (mkDuo p pub eo pa sg HCheck pf mis m ev par st ss sto w cf true oe) | _ => None end
  | Handler => if pa then handlerTurn s else None
  | Parent => if pa then parentTurn s else None
  | ParentDies => match p with PLaunch => None | _ => Some (mkDuo p pub eo false sg h pf mis m ev par st ss sto w cf pr oe) end
  | Monitor b => monitorTurn b s
  | Watch => watchTurn s
  | OwnEnd => Some (mkDuo p pub eo pa sg h pf mis m ev par st ss sto w cf pr true)
  end.

(** The event has been created; nothing else has happened. *)
Definition launching : Duo :=
  mkDuo PLaunch false true true false HNone false false MNone false false false false false WNone false false false.
Definition duo_step (s s' : Duo) : Prop := exists x, duoTurn x s = Some s'.

(** ** What holds all the time *)

Definition requested (s : Duo) : Prop := signalled s = true \/ parentAlive s = false.
(** What the thread of the monitor waits for has happened. *)
Definition due (s : Duo) : bool := event_ s && signalled s || parent_ s && negb (parentAlive s).
Definition constructed (m : MonitorPc) : bool := match m with MRunning | MStopping | MSetStop | MJoin => true | _ => false end.
Definition leaving (m : MonitorPc) : bool := match m with MSetStop | MJoin | MCloseAll | MGone => true | _ => false end.
Definition ending (m : MonitorPc) : bool := match m with MStopping => true | _ => leaving m end.
Definition watching (w : WatchPc) : bool := match w with WNone | WDone => false | _ => true end.
(** The wait for the elevated process is over. *)
Definition returned (p : ParentPc) : bool := match p with PUnpublish | PClose | PDone => true | _ => false end.
Definition handling (h : HandlerPc) : bool := match h with HNone => false | _ => true end.

Record DInv (s : Duo) : Prop := {
  d_flag : childFlag s = true \/ watch s = WWoken true \/ watch s = WCleanup -> requested s;
  d_alive : watching (watch s) = true -> constructed (monitor s) = true /\ stopEvent_ s = true /\ event_ s || parent_ s = true;
  d_stop : stopSet s = true -> stopping_ s = true;
  d_stopping : stopping_ s = leaving (monitor s);
  d_join : monitor s = MJoin -> watch s = WWaiting -> stopSet s = true;
  d_woken : watch s = WWoken false \/ watch s = WDone -> childFlag s = true \/ stopping_ s = true;
  d_published : published s = bool_decide (parent s ∈ [PWait; PUnpublish]);
  d_event : eventOpen s = negb (bool_decide (parent s = PDone));
  d_launch : parent s = PLaunch -> monitor s = MNone;
  d_pressed : signalled s || handling (handler s) = true -> pressed s = true;
  d_cause : ending (monitor s) = true -> childFlag s || ownEnd s = true;
  d_gone : returned (parent s) = true -> monitor s = MGone;
  d_misused : misused s = true -> monitor s = MGone;
}.

Lemma dinv_launching : DInv launching.
Proof. split; cbn; try done; [intros [?|[?|?]]; done | intros [?|?]; done]. Qed.

Lemma dinv_handler s s' : DInv s -> handlerTurn s = Some s' -> DInv s'.
Proof.
  intros [H1 H2 H3 H4 H5 H6 H7 H8 H9 H10 H11 H12 H13] E. destruct s as [p pub eo pa sg h pf mis m ev par st ss sto w cf pr oe]. cbn [handlerTurn] in E.
  cbn in H10. destruct h as [| | |[]|]; try discriminate E; injection E as <-; split; cbn in *; try done.
  all: try (intros _; apply H10; apply orb_true_r).
  - intros Hc. destruct (H1 Hc) as [Hs|Hs]; cbn in Hs; [left; cbn; by rewrite Hs | by right].
  - intros [Hm|He]%orb_true_iff; [auto |]. apply H12. rewrite H8 in He. by destruct p.
Qed.
Lemma dinv_parent s s' : DInv s -> parentTurn s = Some s' -> DInv s'.
Proof.
  intros [H1 H2 H3 H4 H5 H6 H7 H8 H9 H10 H11 H12 H13] E. destruct s as [p pub eo pa sg h pf mis m ev par st ss sto w cf pr oe]. cbn [parentTurn] in E.
  destruct p; try (destruct m; try discriminate E); try discriminate E; injection E as <-; split; cbn in *; try done.
  all: try (by specialize (H9 eq_refl)).
  all: try (intros Hp; by specialize (H13 Hp)).
Qed.
Lemma dinv_monitor b s s' : DInv s -> monitorTurn b s = Some s' -> DInv s'.
Proof.
  intros [H1 H2 H3 H4 H5 H6 H7 H8 H9 H10 H11 H12 H13] E. destruct s as [p pub eo pa sg h pf mis m ev par st ss sto w cf pr oe]. cbn [monitorTurn] in E.
  cbn in H2. assert (Hidle : constructed m = false -> watching w = false) by (intros Hc; destruct (watching w); [destruct (H2 eq_refl); cbn in *; congruence | done]).
  destruct m; try discriminate E; cbn in *.
  4: destruct (st && (ev || par)) eqn:Es.
  all: try (destruct (cf || oe) eqn:Ec; [| discriminate E]).
  all: try (destruct w; try discriminate E; try discriminate (Hidle eq_refl)).
  all: injection E as <-; split; cbn in *; try done.
  all: try (intros Hp; by specialize (H9 Hp)).
  all: try (intros Hp; by specialize (H12 Hp)).
  all: try (intros Hp; by specialize (H13 Hp)).
  all: try (intros Hc; destruct Hc as [Hc|[Hc|Hc]]; try done; by apply H1; left).
  all: try (by intros [Hc|Hc]).
  all: try (by apply andb_true_iff in Es as [-> ->]).
  all: try (intros _; by destruct (H2 eq_refl) as (_ & -> & _)).
  all: intros _; by right.
Qed.
Lemma dinv_watch s s' : DInv s -> watchTurn s = Some s' -> DInv s'.
Proof.
  intros [H1 H2 H3 H4 H5 H6 H7 H8 H9 H10 H11 H12 H13] E. destruct s as [p pub eo pa sg h pf mis m ev par st ss sto w cf pr oe]. cbn [watchTurn] in E.
  destruct w as [| |request| |]; try discriminate E; cbn in *.
  - destruct (_ || ss) eqn:Er; [| discriminate E]. injection E as <-. split; cbn in *; try done.
    + intros [Hc|[Hc|Hc]]; [apply H1; by left | | done]. injection Hc as Hc. unfold requested. cbn.
      apply orb_true_iff in Hc as [[_ ->]%andb_true_iff|[_ Hp]%andb_true_iff]; [by left | right; by destruct pa].
    + intros [Hc|Hc]; [| done]. injection Hc as Hc. rewrite Hc in Er. cbn in Er. right. by apply H3.
  - injection E as <-. destruct request, sto; cbn in *; split; cbn in *; try done.
    all: try (intros [Hc|[Hc|Hc]]; try done; apply H1; [by left | right; by left]).
    all: try (intros [Hc|[Hc|Hc]]; try done; apply H1; by left).
    all: try (by intros [Hc|Hc]).
    all: try (intros _; apply H6; by left).
    all: try (intros _; by right).
    all: try (intros _; apply H1; right; by left).
  - injection E as <-. split; cbn in *; try done.
    + intros _. apply H1. by right; right.
    + intros _. by left.
Qed.
Lemma dinv_step x s s' : DInv s -> duoTurn x s = Some s' -> DInv s'.
Proof.
  intros Hs E. destruct s as [p pub eo pa sg h pf mis m ev par st ss sto w cf pr oe] eqn:Es. rewrite <- Es in Hs. destruct x; cbn [duoTurn] in E.
  - destruct h; try discriminate E. injection E as <-. subst s. by destruct Hs.
  - destruct pa; [| discriminate E]. rewrite <- Es in E. by apply (dinv_handler s).
  - destruct pa; [| discriminate E]. rewrite <- Es in E. by apply (dinv_parent s).
  - destruct p; try discriminate E; injection E as <-; subst s; destruct Hs; (split; try done; intros Hc; by right).
  - rewrite <- Es in E. by apply (dinv_monitor b s).
  - rewrite <- Es in E. by apply (dinv_watch s).
  - injection E as <-. subst s. destruct Hs. split; try done. cbn in *. intros _. apply orb_true_r.
Qed.
Lemma dinv_reach s : rtc duo_step launching s -> DInv s.
Proof.
  intros H. cut (forall q, DInv q -> rtc duo_step q s -> DInv s); [intros Hc; apply (Hc launching); [apply dinv_launching | done] |].
  clear H. intros q Hq H. induction H as [|q q' p [x E] _ IH]; [done |]. apply IH. by apply (dinv_step x q).
Qed.

(** ** What is going to happen *)

Fixpoint duoRun (xs : list DuoAction) (s : Duo) : option Duo :=
  match xs with [] => Some s | x :: xs => match duoTurn x s with Some s => duoRun xs s | None => None end end.
Lemma duoRun_reaches xs s s' : duoRun xs s = Some s' -> rtc duo_step s s'.
Proof.
  revert s. induction xs as [|x xs IH]; intros s E; cbn in E; [by injection E as -> |].
  destruct (duoTurn x s) as [s1|] eqn:Et; [| discriminate E]. eapply rtc_l; [by exists x | by apply IH].
Qed.

(** How often [a] acts. *)
Definition turnsOf (a : DuoAction) (xs : list DuoAction) : nat := length (filter (λ x, a = x) xs).

(** However the others go on, [a] is not blocked and has not had [n] turns, until [goal]
    holds; after [n] turns at the latest it does. *)
Definition within (a : DuoAction) (n : nat) (goal : Duo -> Prop) (s : Duo) : Prop :=
  forall xs s', duoRun xs s = Some s' -> goal s' \/ is_Some (duoTurn a s') /\ (turnsOf a xs < n)%nat.

(** [work n] is what is left to do in [n] turns. *)
Lemma within_work a (goal : Duo -> Prop) (work : nat -> Duo -> Prop) :
  (forall x s s', DInv s -> goal s -> duoTurn x s = Some s' -> goal s') ->
  (forall n s, work n s -> (0 < n)%nat /\ is_Some (duoTurn a s)) ->
  (forall x n s s', DInv s -> work n s -> duoTurn x s = Some s' -> goal s' \/ work (if decide (a = x) then Nat.pred n else n) s') ->
  forall n s, DInv s -> goal s \/ work n s -> within a n goal s.
Proof.
  intros Hg Hw Hs n s Hi Hn xs. revert n s Hi Hn. induction xs as [|x xs IH]; intros n s Hi Hn s' E; cbn [duoRun] in E.
  - injection E as <-. destruct Hn as [Hn|Hn]; [by left | right]. destruct (Hw n s Hn). split; [done | unfold turnsOf; cbn; lia].
  - destruct (duoTurn x s) as [s1|] eqn:Ex; [| discriminate E]. pose proof (dinv_step x s s1 Hi Ex) as Hi1.
    unfold turnsOf. rewrite filter_cons. destruct Hn as [Hn|Hn].
    + left. assert (Hn1 : goal s1) by eauto. clear Hn Ex Hi s IH. revert s1 Hi1 Hn1 E.
      induction xs as [|y xs IH]; intros s1 Hi1 Hn1 E; cbn in E; [by injection E as <- |].
      destruct (duoTurn y s1) as [s2|] eqn:Ey; [| done]. apply (IH s2); [by apply (dinv_step y s1) | by apply (Hg y s1) | done].
    + destruct (Hw n s Hn) as [Hp _]. specialize (IH _ s1 Hi1 (Hs x n s s1 Hi Hn Ex) s' E).
      destruct IH as [|[? Hl]]; [by left | right]. split; [done |]. unfold turnsOf in Hl. destruct (decide (a = x)); cbn [length]; lia.
Qed.

(** The cases of a step. *)
Ltac duo_cases E :=
  match type of E with duoTurn ?x ?s = Some _ => destruct s as [p pub eo pa sg h pf mis m ev par st ss sto w cf pr oe]; destruct x end;
  cbn [duoTurn handlerTurn parentTurn monitorTurn watchTurn] in E; repeat (case_match; try discriminate E); injection E as <-.

(** Asked to end, or ending already. *)
Definition asked (s : Duo) : Prop := childFlag s = true \/ stopping_ s = true.
Definition watchRank (w : WatchPc) : nat := match w with WWaiting => 3 | WWoken _ => 2 | WCleanup => 1 | _ => 0 end.

Lemma asked_stable x s s' : DInv s -> asked s -> duoTurn x s = Some s' -> asked s'.
Proof. unfold asked. intros _ Ha E. duo_cases E; cbn in *; destruct Ha; auto. Qed.

(** The thread of the monitor, with a request to pass on. *)
Definition delivering (n : nat) (s : Duo) : Prop :=
  due s = true /\ watching (watch s) = true /\ childFlag s = false /\ constructed (monitor s) = true /\ (watchRank (watch s) <= n)%nat.

Lemma delivering_step x n s s' :
  DInv s -> delivering n s -> duoTurn x s = Some s' -> asked s' \/ delivering (if decide (Watch = x) then Nat.pred n else n) s'.
Proof.
  intros Hi (Hd & Hw & Hc & Hm & Hn) E. pose proof (dinv_step x s s' Hi E) as Hi'.
  destruct (childFlag s') eqn:Ec; [left; by left |]. destruct (stopping_ s') eqn:Es; [left; by right |]. right.
  pose proof (d_stopping s' Hi') as Hl. pose proof (d_woken s' Hi') as Hwk. rewrite Es in Hl, Hwk. rewrite Ec in Hwk.
  pose proof (d_launch s Hi) as H9. clear Hi Hi'. revert Ec Es Hl Hwk. unfold delivering, due in *.
  duo_cases E; cbn in *; intros Ec Es Hl Hwk; try discriminate; split_and!; try done; try lia;
    try (by destruct ev, sg, par); try (by destruct (Hwk ltac:(by right))); by rewrite H9 in Hm.
Qed.
Lemma watch_delivers s : DInv s -> monitor s = MRunning -> watch s <> WNone -> due s = true -> within Watch 3 asked s.
Proof.
  intros Hi Hm Hw Hd. apply (within_work Watch asked delivering); [apply asked_stable | | apply delivering_step | done |].
  - intros n q (Hq & Hwq & _ & _ & Hn). destruct q as [p pub eo pa sg h pf mis m ev par st ss sto w cf pr oe]. unfold due in *. cbn in *.
    destruct w; try discriminate Hwq; cbn in *; (split; [lia |]); [rewrite Hq | |]; by eexists.
  - destruct (childFlag s) eqn:Ec; [left; by left |]. right. pose proof (d_woken s Hi) as Hwk. pose proof (d_stopping s Hi) as Hl.
    rewrite Hm in Hl. rewrite Ec, Hl in Hwk. unfold delivering. rewrite Hm, Ec.
    assert (Hg : watching (watch s) = true) by (destruct (watch s); try done; by destruct (Hwk ltac:(by right))).
    split_and!; try done. destruct (watch s); cbn; lia.
Qed.

(** The destructor waits for a thread that ends. *)
Definition joined (s : Duo) : Prop := leaving (monitor s) = true /\ watching (watch s) = false.
Definition joining (n : nat) (s : Duo) : Prop :=
  (watch s = WWaiting -> stopSet s = true) /\ stopping_ s = true /\ monitor s = MJoin /\ watching (watch s) = true /\ (watchRank (watch s) <= n)%nat.
Lemma joining_step x n s s' :
  DInv s -> joining n s -> duoTurn x s = Some s' -> joined s' \/ joining (if decide (Watch = x) then Nat.pred n else n) s'.
Proof.
  intros Hi (Hs & Ht & Hm & Hw & Hn) E. pose proof (d_launch s Hi) as H9. clear Hi. unfold joined, joining. duo_cases E; cbn in *; subst; try discriminate;
    try (by specialize (H9 eq_refl)); try (right; split_and!; done || lia); try (by left).
Qed.
Lemma watch_ends s : DInv s -> monitor s = MJoin -> within Watch 3 joined s.
Proof.
  intros Hi Hm. apply (within_work Watch joined joining); [| | apply joining_step | done |].
  - unfold joined. intros x q q' Hq [H1 H2] E. pose proof (d_launch q Hq) as H9. clear Hq.
    duo_cases E; cbn in *; subst; try done; try (by specialize (H9 eq_refl)); by rewrite H9 in H1.
  - intros n q (Hs & _ & _ & Hwq & Hn). destruct q as [p pub eo pa sg h pf mis m ev par st ss sto w cf pr oe]. cbn in *.
    destruct w; try discriminate Hwq; cbn in *; (split; [lia |]); [rewrite (Hs eq_refl), orb_true_r | |]; by eexists.
  - unfold joined, joining. rewrite Hm. destruct (watching (watch s)) eqn:Ew; [right | by left].
    pose proof (d_stopping s Hi) as Hl. rewrite Hm in Hl. split_and!; try done; [by apply (d_join s Hi) | destruct (watch s); cbn; lia].
Qed.

(** The event is set; or there is nobody left to stop, or to stop it. *)
Definition passedOn (s : Duo) : Prop := signalled s = true \/ monitor s = MGone \/ parentAlive s = false.
Definition passing (n : nat) (s : Duo) : Prop :=
  parent s = PWait /\ parentAlive s = true /\
  match handler s with HCheck => (3 <= n)%nat | HLoad => (2 <= n)%nat | HCall true => (1 <= n)%nat | _ => False end.
Lemma passing_step x n s s' :
  DInv s -> passing n s -> duoTurn x s = Some s' -> passedOn s' \/ passing (if decide (Handler = x) then Nat.pred n else n) s'.
Proof.
  intros Hi (Hp & Ha & Hh) E. pose proof (d_published s Hi) as H7. pose proof (d_event s Hi) as H8. clear Hi.
  unfold passedOn, passing. duo_cases E; cbn in *; subst; try discriminate; try done;
    try (right; split_and!; done || lia); try (left; auto; fail).
  all: try (left; left; by rewrite orb_true_r).
Qed.
Lemma handler_signals s : DInv s -> parent s = PWait -> handler s = HCheck -> within Handler 3 passedOn s.
Proof.
  intros Hi Hp Hh. apply (within_work Handler passedOn passing); [| | apply passing_step | done |].
  - unfold passedOn. intros x q q' Hq Hg E. pose proof (d_launch q Hq) as H9. clear Hq.
    destruct Hg as [Hg|[Hg|Hg]]; duo_cases E; cbn in *; subst; auto; try discriminate; discriminate (H9 eq_refl).
  - intros n q (_ & Ha & Hq). destruct q as [p pub eo pa sg h pf mis m ev par st ss sto w cf pr oe]. cbn in *. subst pa.
    destruct h as [| | |[]|]; try done; (split; [lia | by eexists]).
  - destruct (parentAlive s) eqn:Ea; [| left; by right; right]. right. unfold passing. by rewrite Hp, Ea, Hh.
Qed.

(** C40: stopping the elevated process from the console, under every interleaving of the
    two processes. The event is set only for a Ctrl+C; the monitor asks its process to end
    only when the event was set or the console process is gone; and the process starts to
    end only when it was asked to or for a reason of its own (an error, a Ctrl+C in its own
    console). A Ctrl+C while the console process waits for it sets the event: however all
    threads go on, the handler is not blocked and does so in three steps, unless one of the
    two processes ends first. Once the event is set, and [OpenEventW] had given the monitor
    its handle, or the console process is gone and [OpenProcess] had, the monitor's thread is
    not blocked and asks its process to end in three steps, if it is not ending already. Its
    destructor closes nothing its thread still waits for, and the thread it joins is not
    blocked and ends in three steps. The event is never set through a closed handle
    ([misused]) while the elevated process is there; afterwards it may be
    ([closed_event_set]). *)
Theorem shutdown_travels s :
  rtc duo_step launching s ->
  (signalled s = true -> pressed s = true) /\
  (childFlag s = true -> signalled s = true \/ parentAlive s = false) /\
  (ending (monitor s) = true -> childFlag s = true \/ ownEnd s = true) /\
  (parent s = PWait -> handler s = HCheck -> within Handler 3 passedOn s) /\
  (monitor s = MRunning -> watch s <> WNone -> due s = true -> within Watch 3 asked s) /\
  (watch s = WWaiting -> stopEvent_ s = true /\ event_ s || parent_ s = true) /\
  (monitor s = MJoin -> within Watch 3 joined s) /\
  (misused s = true -> monitor s = MGone).
Proof.
  intros H%dinv_reach. split; [intros Hs; apply (d_pressed s H); by rewrite Hs |].
  split; [intros Hc; apply (d_flag s H); by left |]. split; [intros Hc; by apply orb_true_iff, (d_cause s H) |].
  split; [by apply handler_signals |]. split; [by apply watch_delivers |].
  split; [intros Hw; apply (d_alive s H); by rewrite Hw |]. split; [by apply watch_ends | apply (d_misused s H)].
Qed.

(** Ctrl+C while the elevated process runs. *)
Definition interrupted : list DuoAction :=
  [Parent; Parent; Monitor true; Monitor true; Monitor true; Monitor true; CtrlC].
Lemma shutdown_travels_witness :
  exists s, duoRun interrupted launching = Some s /\ watch s = WWaiting /\ stopEvent_ s = true /\ within Handler 3 passedOn s /\
    exists s', duoRun [Handler; Watch; Handler; Handler] s = None /\ duoRun [Handler; Handler; Handler] s = Some s' /\ signalled s' = true /\
    within Watch 3 asked s' /\ exists s'', duoRun [Watch; Watch; Watch] s' = Some s'' /\ childFlag s'' = true.
Proof.
  destruct (duoRun interrupted launching) as [s|] eqn:E; [| by vm_compute in E]. exists s.
  destruct (shutdown_travels s (duoRun_reaches _ _ _ E)) as (_ & _ & _ & H4 & _ & H6 & _). injection E as <-.
  destruct (H6 eq_refl) as [Hs _]. specialize (H4 eq_refl eq_refl). split; [done |]. split; [done |]. split; [exact Hs |]. split; [exact H4 |].
  destruct (duoRun (interrupted ++ [Handler; Handler; Handler]) launching) as [s'|] eqn:E'; [| by vm_compute in E']. exists s'.
  destruct (shutdown_travels s' (duoRun_reaches _ _ _ E')) as (_ & _ & _ & _ & H5 & _). injection E' as <-.
  split; [done |]. split; [done |]. split; [done |]. split; [by apply H5 |]. eexists. by split.
Defined.

(** A Ctrl+C between the launch (which shows a consent dialog) and the assignment of the
    global reaches only this process, which does not look at its flag and waits. *)
Example early_interrupt_lost :
  exists s, duoRun [CtrlC; Handler; Parent; Parent; Handler; Monitor true; Monitor true; Monitor true; Monitor true] launching = Some s /\
    parentFlag s = true /\ parent s = PWait /\ handler s = HNone /\ signalled s = false /\ due s = false /\ childFlag s = false.
Proof. eexists. split; [vm_compute; reflexivity |]. by vm_compute. Qed.

(** The handler sets an event that has been closed between its reading of the global and the
    call. *)
Example closed_event_set :
  exists s, duoRun (interrupted ++ [Handler; Handler; OwnEnd; Monitor true; Monitor true; Monitor true; Watch; Watch; Monitor true; Monitor true;
                                    Parent; Parent; Parent; Handler]) launching = Some s /\ misused s = true.
Proof. eexists. split; vm_compute; reflexivity. Qed.

(** ** Handing over *)

(** [relaunchElevated] always ends with its handles closed, its memory freed and the event no
    longer published, after starting at most one process: this program, with its own
    arguments and what it needs to be stopped again. *)
Theorem relaunch_contained pid ticks self program args waitForExit oracle :
  let s0 := mkHand ∅ ∅ None [] in
  honest (answers pid ticks self program args) after s0 oracle ->
  let '(result, h) := play oracle (relaunchElevated waitForExit) [] in
  valid (legal pid ticks self args) (answers pid ticks self program args) after s0 h /\ tidyEnd ∅ ∅ [] (ledger after s0 h).
Proof.
  intros s0 Ho.
  pose proof (wps_play (legal pid ticks self args) (answers pid ticks self program args) after s0 oracle (relaunchElevated waitForExit) []
    (λ _ s, tidyEnd ∅ ∅ [] s) Ho ltac:(done)) as Hrun.
  destruct (play oracle _ []) as [result h]. destruct Hrun as [Hr Hv]; [by apply wp_relaunch | by split].
Qed.

(** Asking for rights, asking for another instance and announcing readiness close what they
    open and leave everything else alone. *)
Theorem questions_balanced pid ticks self program args name o m l :
  wps (legal pid ticks self args) (answers pid ticks self program args) after isElevated (mkHand o m None l) (λ _ s, s = mkHand o m None l) /\
  wps (legal pid ticks self args) (answers pid ticks self program args) after trayInstanceRunning (mkHand o m None l) (λ _ s, s = mkHand o m None l) /\
  wps (legal pid ticks self args) (answers pid ticks self program args) after (signalReadyEvent name) (mkHand o m None l) (λ _ s, s = mkHand o m None l).
Proof.
  assert (Hback : forall h, h ∉ o -> ({[h]} ∪ o) ∖ {[h]} = o) by set_solver. split; [| split].
  - apply wps_do; [done |]. intros token Ht. destruct token as [h|]; cbn [after]; [| done]. specialize (Ht h eq_refl). cbn [open] in Ht.
    apply wps_do; [cbn; set_solver |]. intros e _. cbn [after]. apply wps_do; [split; [cbn; set_solver | done] |]. intros ? _. cbn. by rewrite Hback.
  - apply wps_do; [done |]. intros existing He. destruct existing as [h|]; cbn [after]; [| by apply wps_do]. specialize (He h eq_refl). cbn [open] in He.
    apply wps_do; [split; [cbn; set_solver | done] |]. intros ? _. cbn. by rewrite Hback.
  - unfold signalReadyEvent. case_bool_decide; [done |]. apply wps_do; [done |]. intros event He. destruct event as [h|]; cbn [after]; [| done].
    specialize (He h eq_refl). cbn [open] in He. apply wps_do; [cbn; set_solver |]. intros ? _. cbn [after].
    split; [split; [cbn; set_solver | done] |]. intros ? _. cbn. by rewrite Hback.
Qed.
