(* ===== verification/Listener.v ===== *)
(** * Listener: opening and closing the local proxy

    Models the start of [SocksProxy::run] up to its accept loop, the loop as far as the
    listening socket is concerned, and the part of [SocksProxy::stop] that closes it
    ([src/src/SocksProxy.cpp]). The two run in different threads; their steps interleave, and
    [listenMutex_] keeps their sections apart. What becomes of an accepted connection is the
    subject of [SocksSessions]. *)

From S2P Require Import Prelude.

Inductive Address := AnyV6 (port : Z) | LoopbackV4 (port : Z).

Inductive Family := AF_INET | AF_INET6 | OtherFamily.
(** [boundPort], on what [getsockname] answers *)
Definition boundPort (local : option (Family * Z)) : Z :=
  match local with Some (AF_INET, port) | Some (AF_INET6, port) => port | _ => 0 end.

Inductive RunPc :=
  | RSocket | RExclusive | RDual | RBind | RListen | RPort | RSection | RChecked | RStored | RTest | RAccept
  | RCloseFailed | RReturned (ok : bool).
Inductive StopPc := SIdle | SRunning | SSection | SDone.

(** The members both threads use, and the socket: whether it is open, exclusive, dual-stack,
    where it is bound, whether it listens, and how often it was closed. *)
Record Proxy := mkProxy {
  port_ : Z; listenSock_ : bool; running_ : bool; stopRequested_ : bool;
  isOpen : bool; exclusive : bool; dual : bool; bound : option Address; listening : bool; closes : nat;
  run : RunPc; stop : StopPc;
}.

(** What a call answers: success, the local address, an error of [accept]. *)
Inductive Answer := Succeeds | Fails | Local (a : option (Family * Z)) | Retry.

Section Open.
(** Whether the proxy serves redirected connections ([transparentFlows_]). *)
Variable transparentFlows_ : bool.

Definition runTurn (x : Answer) (s : Proxy) : option Proxy :=
  let 'mkProxy p ls r sr o e d b l c pc st := s in
  match pc, x with
  | RSocket, Succeeds => Some (mkProxy p ls r sr true e d b l c RExclusive st)
  | RSocket, Fails => Some (mkProxy p ls r sr o e d b l c (RReturned false) st)
  | RExclusive, _ => Some (mkProxy p ls r sr o true d b l c (if transparentFlows_ then RDual else RBind) st)
  | RDual, _ => Some (mkProxy p ls r sr o e true b l c RBind st)
  | RBind, Succeeds => Some (mkProxy p ls r sr o e d (Some (if transparentFlows_ then AnyV6 p else LoopbackV4 p)) l c RListen st)
  | RBind, Fails => Some (mkProxy p ls r sr o e d b l c RCloseFailed st)
  | RListen, Succeeds => Some (mkProxy p ls r sr o e d b true c RPort st)
  | RListen, Fails => Some (mkProxy p ls r sr o e d b l c RCloseFailed st)
  | RPort, Local a => Some (mkProxy (if p =? 0 then boundPort a else p) ls r sr o e d b l c RSection st)
  | RPort, _ => if p =? 0 then None else Some (mkProxy p ls r sr o e d b l c RSection st)
  (* under [listenMutex_] from here to [RTest] *)
  | RSection, _ => Some (if sr then mkProxy p ls r sr false e d b l (S c) (RReturned false) st else mkProxy p ls r sr o e d b l c RChecked st)
  | RChecked, _ => Some (mkProxy p true r sr o e d b l c RStored st)
  | RStored, _ => Some (mkProxy p ls true sr o e d b l c RTest st)
  | RTest, _ => Some (if r then mkProxy p ls r sr o e d b l c RAccept st else mkProxy p ls r sr o e d b l c (RReturned true) st)
  | RAccept, Succeeds => if o then Some (mkProxy p ls r sr o e d b l c RTest st) else None
  | RAccept, Retry => if o then Some (if r then mkProxy p ls r sr o e d b l c RTest st else mkProxy p ls r sr o e d b l c (RReturned true) st) else None
  | RAccept, Fails => Some (if r then mkProxy p ls false sr o e d b l c (RReturned false) st else mkProxy p ls r sr o e d b l c (RReturned true) st)
  | RCloseFailed, _ => Some (mkProxy p ls r sr false e d b l (S c) (RReturned false) st)
  | _, _ => None
  end.

(** [run] holds [listenMutex_]. *)
Definition holds (pc : RunPc) : bool := match pc with RChecked | RStored => true | _ => false end.

Definition stopTurn (s : Proxy) : option Proxy :=
  let 'mkProxy p ls r sr o e d b l c pc st := s in
  match st with
  | SIdle => Some (mkProxy p ls r true o e d b l c pc SRunning)
  | SRunning => Some (mkProxy p ls false sr o e d b l c pc SSection)
  | SSection =>
      if holds pc then None
      else Some (if ls then mkProxy p false r sr false e d b l (S c) pc SDone else mkProxy p ls r sr o e d b l c pc SDone)
  | SDone => None
  end.

Definition listener_step (s s' : Proxy) : Prop := (exists x, runTurn x s = Some s') \/ stopTurn s = Some s'.
Definition unopened (port : Z) : Proxy := mkProxy port false false false false false false None false 0 RSocket SIdle.

(** ** What holds all the time *)

Definition opening (pc : RunPc) : bool :=
  match pc with RExclusive | RDual | RBind | RListen | RPort | RSection | RChecked | RCloseFailed => true | _ => false end.
Definition begun (st : StopPc) : bool := match st with SIdle => false | _ => true end.
Definition prepared (pc : RunPc) : bool := match pc with RSocket | RExclusive | RReturned _ => false | _ => true end.
Definition serving (pc : RunPc) : bool := match pc with RStored | RTest | RAccept => true | _ => false end.

(** The socket is bound where it should be, after it was made exclusive. *)
Definition boundWell (b : option Address) (exclusive dual : bool) : bool :=
  match b with
  | None => true
  | Some (AnyV6 _) => exclusive && transparentFlows_ && dual
  | Some (LoopbackV4 _) => exclusive && negb transparentFlows_
  end.

Record LInv (s : Proxy) : Prop := {
  l_opening : opening (run s) = true -> isOpen s = true /\ listenSock_ s = false /\ closes s = 0%nat;
  l_first : run s = RSocket -> isOpen s = false /\ listenSock_ s = false /\ closes s = 0%nat;
  l_owned : listenSock_ s = true -> isOpen s = true /\ closes s = 0%nat;
  l_orphan : listenSock_ s = false -> opening (run s) = false -> isOpen s = false;
  l_serving : serving (run s) = true -> listenSock_ s = true \/ stop s = SDone;
  l_closes : (closes s <= 1)%nat /\ (isOpen s = true -> closes s = 0%nat);
  l_stop : stopRequested_ s = begun (stop s);
  l_checked : holds (run s) = true -> stop s <> SDone;
  l_done : stop s = SDone -> listenSock_ s = false;
  l_bound : boundWell (bound s) (exclusive s) (dual s) = true;
  l_exclusive : prepared (run s) = true -> exclusive s = true;
  l_dual : run s = RBind -> transparentFlows_ = true -> dual s = true;
}.

Lemma linv_new port : LInv (unopened port).
Proof. split; cbn; try done; try lia. Qed.

Lemma boundWell_more b (e d e' d' : bool) : (e = true -> e' = true) -> (d = true -> d' = true) -> boundWell b e d = true -> boundWell b e' d' = true.
Proof. intros He Hd. destruct b as [[]|]; cbn; [| | done]; rewrite !andb_true_iff; intuition. Qed.

Ltac l_solve := split; cbn in *; try done; try lia; try (intros; congruence); try (by intuition (congruence || lia)).

Lemma linv_run x s s' : LInv s -> runTurn x s = Some s' -> LInv s'.
Proof.
  intros [H1 H2 H3 H4 H5 H6 H7 H8 H9 H10 H11 H12] E. destruct s as [p ls r sr o e d b l c pc st]; cbn [runTurn] in E.
  destruct pc; cbn in *.
  - destruct x; try discriminate E; injection E as <-; l_solve.
  - injection E as <-. destruct transparentFlows_ eqn:Et; l_solve; try (by apply (boundWell_more _ e d)).
  - injection E as <-. l_solve; by apply (boundWell_more _ e d).
  - destruct x; try discriminate E; injection E as <-; l_solve. rewrite H11 by done. destruct transparentFlows_; [by rewrite (H12 eq_refl eq_refl) | done].
  - destruct x; try discriminate E; injection E as <-; l_solve.
  - destruct x; try (destruct (p =? 0); try discriminate E); injection E as <-; l_solve.
  - injection E as <-. destruct sr; l_solve. intros _ ->. discriminate H7.
  - injection E as <-. l_solve.
  - injection E as <-. l_solve.
  - injection E as <-. destruct r; l_solve.
  - destruct x, o, r; try discriminate E; injection E as <-; l_solve.
  - injection E as <-; l_solve.
  - discriminate E.
Qed.
Lemma linv_stop s s' : LInv s -> stopTurn s = Some s' -> LInv s'.
Proof.
  intros [H1 H2 H3 H4 H5 H6 H7 H8 H9 H10 H11 H12] E. destruct s as [p ls r sr o e d b l c pc st]; cbn [stopTurn] in E.
  destruct st; try discriminate E; [injection E as <-; l_solve | injection E as <-; l_solve |].
  destruct (holds pc) eqn:Eh; [discriminate E |]. destruct ls; injection E as <-; l_solve.
Qed.
Lemma linv_reach port s : rtc listener_step (unopened port) s -> LInv s.
Proof.
  intros H. cut (forall q, LInv q -> rtc listener_step q s -> LInv s); [intros Hc; apply (Hc (unopened port)); [apply linv_new | done] |].
  clear H. intros q Hq H. induction H as [|q q' s [[x E]|E] _ IH]; [done | |]; apply IH; [by apply (linv_run x q) | by apply (linv_stop q)].
Qed.

Definition stepsLeft (pc : RunPc) : nat :=
  match pc with
  | RSocket => 11 | RExclusive => 10 | RDual => 9 | RBind => 8 | RListen => 7 | RPort => 6 | RSection => 5 | RChecked => 4 | RStored => 3
  | RTest => 2 | RAccept | RCloseFailed => 1 | RReturned _ => 0
  end.
Lemma run_ends x s s' : LInv s -> stop s = SDone -> runTurn x s = Some s' -> stop s' = SDone /\ (stepsLeft (run s') < stepsLeft (run s))%nat.
Proof.
  intros [H1 H2 H3 H4 H5 H6 H7 H8 H9 H10 H11 H12] Hs E. destruct s as [p ls r sr o e d b l c pc st]; cbn [runTurn] in E. cbn in *. subst st.
  destruct pc; cbn in *; try (by destruct (H8 eq_refl)).
  all: try (rewrite (H4 (H9 eq_refl) eq_refl) in E).
  all: try (destruct x; try discriminate E); try (destruct (p =? 0); try discriminate E); try (destruct transparentFlows_); try (destruct sr; try discriminate H7);
    try (destruct r); injection E as <-; cbn; split; done || lia.
Qed.
Lemma run_goes_on s : LInv s -> (exists ok, run s = RReturned ok) \/ exists x s', runTurn x s = Some s'.
Proof.
  intros _. destruct s as [p ls r sr o e d b l c pc st]. cbn. destruct pc; try (by left; eexists); right.
  all: first [exists Fails; by eexists | exists (Local None); by eexists].
Qed.

(** The listening socket under every interleaving of [run] and [stop]: it is exclusive before
    it is bound, and bound to the loopback address unless redirected connections are served;
    it is closed at most once, and when [stop] is through, it is closed or will be by [run],
    which then returns within eleven steps, whatever the calls answer, and leaves nothing
    open. *)
Theorem listener_safe port s :
  rtc listener_step (unopened port) s ->
  boundWell (bound s) (exclusive s) (dual s) = true /\ (closes s <= 1)%nat /\
  ((exists ok, run s = RReturned ok) \/ exists x s', runTurn x s = Some s') /\
  (stop s = SDone ->
     listenSock_ s = false /\ (isOpen s = true -> opening (run s) = true) /\
     forall x s', runTurn x s = Some s' -> stop s' = SDone /\ (stepsLeft (run s') < stepsLeft (run s) <= 11)%nat).
Proof.
  intros H%linv_reach. split; [apply (l_bound s H) |]. split; [apply (l_closes s H) |]. split; [by apply run_goes_on |].
  intros Hd. pose proof (l_done s H Hd) as Hl. split; [done |]. split.
  - intros Ho. destruct (opening (run s)) eqn:E; [done |]. by rewrite (l_orphan s H Hl E) in Ho.
  - intros x s' E. destruct (run_ends x s s' H Hd E) as [H1 H2]. split; [done |]. split; [done |]. destruct (run s); cbn; lia.
Qed.
End Open.

(** A run in steps of the two threads. *)
Fixpoint follow (tr : bool) (xs : list (option Answer)) (s : Proxy) : option Proxy :=
  match xs with
  | [] => Some s
  | x :: xs => match (match x with Some a => runTurn tr a s | None => stopTurn s end) with Some s => follow tr xs s | None => None end
  end.

(** [stop] clears [running_] between the check of [run] and its assignment: [run] goes on with
    a closed socket and reports a failure instead of the stop. *)
Example stop_taken_for_failure :
  let go := Some Succeeds in
  exists s, follow false [go; go; go; go; Some (Local None); go; None; None; go; go; None; go; Some Fails] (unopened 1080) = Some s /\
    run s = RReturned false /\ stop s = SDone /\ isOpen s = false.
Proof. eexists. split; [vm_compute; reflexivity |]. by vm_compute. Qed.
Example plain_stop :
  let go := Some Succeeds in
  exists s, follow true [go; go; go; go; go; Some (Local (Some (AF_INET6, 40000))); go; go; go; go; go; None; None; None; go] (unopened 0) = Some s /\
    run s = RReturned true /\ port_ s = 40000 /\ bound s = Some (AnyV6 0) /\ isOpen s = false.
Proof. eexists. split; [vm_compute; reflexivity |]. by vm_compute. Qed.
